(* ===== verification/_CoqProject ===== *)
-Q . S2P
Prelude.v
PyStr.v
Values.v
ShellWords.v
Permissions.v
Commands.v
Events.v
Outputs.v
Usage.v
Executor.v
CommandRoutes.v
JobModel.v
JobStorage.v
JobMemory.v
JobSlots.v
JobInvariant.v
JobSafety.v
JobScheduler.v
JobRuns.v
JobStats.v
UserModel.v
Validation.v
UserStores.v
Throttle.v
PasswordHasher.v
AuditModel.v
AuthService.v
AuthSafety.v
AuthExample.v
UsersService.v
UsersSafety.v
Http.v
UsersApi.v
UsersOps.v
UsersAccess.v
Utf8.v
FileTree.v
FileRefine.v
FileStorage.v
FilesApi.v
FilesSafety.v
Regex.v
ProtectSafety.v
Origins.v
McpCore.v
JobsApi.v
McpCommands.v
McpSafety.v
McpTree.v
Mcp.v
AuditStore.v
AuditApi.v
Sockets.v
SocketSafety.v
ShellProcs.v
Shell.v
ShellTable.v
ShellPty.v
ShellSafety.v
ShellUsers.v
ShellExample.v
Redact.v
AdminAuth.v
LogSockets.v
LogRing.v
AdminModules.v
StatusHistory.v
JsonFiles.v
Sqlite.v
DataExplorer.v
SqlProviders.v
DocumentProviders.v
McpFeatures.v
UsersPlugin.v
StorageProviders.v
Server.v
AdminBuilder.v
Aws.v
AwsSafety.v
Asgi.v
