(* ===== verification/Prelude.v ===== *)
(** * Verification of the Qodalis CLI server (Python)

    The server runs the commands of a browser shell and has plugins for
    background jobs, users, auditing, files, data sources and administration.
    This library models the parts that decide something, from the sources under
    [src/], and proves what makes them correct.  In file names below, [core/] is
    [src/src/qodalis_cli/], [abs/] is
    [src/packages/abstractions/src/qodalis_cli_server_abstractions/], and
    [jobs/], [users/], [audit/], [fs/] and [admin/] are the packages under
    [src/plugins/]; [filesystem-*] and [data-explorer-*] are those of that name.

    ** How the code is modelled

    A method is a function of the state monad with exceptions [py S E A] of this
    file: it takes the state and returns a value or an exception with the new
    state; [try_except], [try_finally], [raise] and [for_each] are Python's.
    An [await] is sequential composition, except where coroutines interleave as
    the steps of a relation: the scheduler ([JobInvariant.step]), the event and
    log sockets ([Sockets.ev_step], [LogSockets.log_step]), the shells
    ([ShellTable.sh_step], [ShellPty.pty_step]), the event stream of a command
    ([CommandRoutes.advance]) and seeding ([UsersPlugin.seed_step]).
    Dictionaries are association lists in insertion order ([dict_get],
    [dict_set], [dict_del]).  Strings are [string]s of Latin-1 characters
    ([PyStr.v]), texts of files lists of code points ([Utf8.v]), times integers
    (milliseconds or microseconds as in the code), floats rationals.  Host code
    (processors, jobs, stores of the host, event handlers, the clock, random
    tokens, hashes) is a parameter: a type class or record of functions
    ([Executor.Executor], [AuthService.AuthEnv]) or a section variable.

    ** Files

    - Shared: [Prelude.v] (monad, dictionaries, sorting), [PyStr.v], [Values.v]
      (JSON values and their texts, [int()], times).
    - Commands: [ShellWords.v] ([abs/shell_words.py]), [Commands.v]
      ([abs/cli_paging.py], [core/services/cli_command_registry.py], the check
      in [core/controllers/cli_controller.py]), [Outputs.v]
      ([core/services/cli_response_builder.py], [cli_output_limits.py]),
      [Usage.v] ([cli_command_usage.py]), [Executor.v]
      ([cli_command_executor_service.py]), [Events.v] ([abs/events.py],
      [core/services/cli_event_bus.py]), [CommandRoutes.v] (the routes of
      [cli_controller.py] with the event stream of a command).
    - Server: [Server.v] ([core/create_cli_server.py], the builder, the list of
      installed plugins, CORS, the bundled commands of [core/processors/] and those
      of the weather plugin),
      [Asgi.v] (scopes and messages of the ASGI interface, and the middleware of a
      server as one stack: origins, the MCP gate and the protection in front of
      the routes; the lifespan of the application).
    - Jobs: [JobModel.v] (data, queries, [jobs/interval_parser.py]),
      [JobStorage.v] (the storage interface, a type class with its laws),
      [JobMemory.v] ([jobs/in_memory_job_storage_provider.py]), [JobSlots.v]
      (registrations, slots, queue and timers of [jobs/cli_job_scheduler.py]),
      [JobScheduler.v] (its coroutines), [JobStats.v] ([jobs/job_stats.py]),
      [JobsApi.v] ([jobs/cli_jobs_controller.py], [jobs/mcp_tools.py],
      [jobs/cli_jobs_builder.py]); proofs in
      [JobInvariant.v], [JobSafety.v] and [JobRuns.v], which also runs a small
      server.
    - Users: [Permissions.v] ([users/permissions.py]), [UserModel.v]
      ([users/models.py]), [Validation.v], [UserStores.v] (the in-memory stores),
      [Throttle.v] (lockout and rate limit), [PasswordHasher.v] (with its executor),
      [AuthService.v] ([users/services/auth_service.py]), [UsersService.v]
      ([users_service.py]), [Http.v] ([users/_http.py]), [UsersApi.v] (the
      routes), [UsersPlugin.v] ([users/cli_users_builder.py],
      [external_request.py]); proofs in [AuthSafety.v], [UsersSafety.v],
      [UsersOps.v] and [UsersAccess.v]; [AuthExample.v] runs a small server.
    - Protection and origins: [Regex.v] (the regular expressions of the rules),
      [ProtectSafety.v] ([users/server_protection.py] and its proofs),
      [Origins.v] ([core/security.py] and its copy in [users/_http.py]),
      [Redact.v] (the log redaction of [core/security.py] and of the admin
      plugin).
    - Files: [Utf8.v] (code points and their bytes), [FileTree.v]
      ([fs/providers/in_memory_provider.py]), [FileStorage.v] (the provider
      interface and the wrapper of [fs/events.py]), [FilesApi.v]
      ([core/controllers/filesystem_controller.py], the path validator),
      [JsonFiles.v] and [Sqlite.v] (the storages in a JSON file and in SQLite),
      [StorageProviders.v] (those on the operating system and on S3);
      specification and proofs in [FileTree.v], [FileRefine.v],
      [FilesSafety.v] and [Sqlite.v].
    - Data explorer: [DataExplorer.v] (types, registry, executor and routes),
      [SqlProviders.v] (SQLite, MySQL, SQL Server, Postgres),
      [DocumentProviders.v] (Redis, MongoDB, Elasticsearch).
    - Model Context Protocol: [McpCore.v] ([core/mcp/core.py]), [McpCommands.v]
      ([core/mcp/commands.py]), [McpFeatures.v] ([core/mcp/features.py]),
      [Mcp.v] ([core/mcp/endpoint.py]); proofs in [McpSafety.v] and [McpTree.v].
    - Audit: [AuditModel.v] ([abs/audit/], a type class with the laws of a
      store), [AuditStore.v] ([audit/in_memory_audit_store.py]), [AuditApi.v]
      (the builder, which store mounted plugins share, and the routes).
    - AWS: [Aws.v] (the commands of [src/plugins/aws/qodalis_cli_aws/]: settings,
      clients, outputs and the tree of commands) with [AwsSafety.v].
    - Sockets: [Sockets.v] ([core/services/cli_event_socket_manager.py],
      [session_bound_sockets.py]) with [SocketSafety.v], [LogSockets.v]
      ([core/services/cli_log_socket_manager.py]).
    - Shells: [ShellProcs.v] (the processes of a shell), [Shell.v] (access,
      options, checks, environment), [ShellTable.v] (the life of a session),
      [ShellPty.v] (the tasks between the socket and the terminal; these four are
      [core/services/cli_shell_session_manager.py] and
      [core/shell_security.py]), [ShellUsers.v] ([users/shell_access.py]);
      proofs in [ShellSafety.v], example in [ShellExample.v].
    - Admin: [LogRing.v] ([admin/services/log_ring_buffer.py],
      [time_range.py], [admin/controllers/logs_controller.py]), [AdminModules.v]
      ([admin/services/module_registry.py]), [StatusHistory.v]
      ([admin/services/status_history.py]), [AdminAuth.v] ([admin/auth/],
      [admin/services/admin_config.py], [admin_theme.py], [admin_branding.py]),
      [AdminBuilder.v] ([admin/cli_admin_builder.py], the status routes, the
      dashboard's files).

    The parts meet where the code calls across them: the executor runs under the
    permission check and the module switches, the users service publishes on the
    event bus and closes sockets and shells through their session checks, the
    protection guards the routes of files and jobs, the audit routes record who
    called, the MCP endpoint runs processors through the executor, the file tools
    run on any storage provider, and mounting the users plugin ties it to the
    sockets, the bus, the shells and the audit log of its server.

    ** What the theorems show

    - Users: every request is a sequence of small steps on the users
      ([UsersOps.route_changes]), so one enabled admin always stays, names and
      emails stay unique, nobody hands out a group whose permissions they lack,
      and a caller without user-management permissions changes only itself.
      A deleted or disabled user has no access left.  However many requests ask
      for it at once, the plugin is seeded once ([UsersPlugin.seeded_once]).
    - Authentication: exactly when a bearer token authenticates, logins, tickets
      and scoped API tokens, lockout and rate limit, password hashes.
    - Jobs: in every reachable state each slot is held by one coroutine and no
      timer is lost ([JobInvariant.reachable_slots], [reachable_timers]), waiting
      runs start, runs end and release their slot, histories and statistics
      account for every run once; the tools do what the routes do.
    - Commands: splitting is the inverse of quoting, resolution and permission
      checks agree, no exception of a processor escapes the executor, and the
      stream of a command ends with everything sent in order.
    - Protection: a request or an upgrade gets to a protected route only for a
      live user with the permission of that route; redaction hides tokens and
      secret query values from the logs; CORS and the sockets agree on origins;
      through the whole stack of a server every request is answered once or
      handed on once, with the caller the protection authenticated.
    - Files: the tree stays well formed, every operation of the storages in
      memory and in SQLite refines its specification on the view of what is at
      each path, what is written is read back, the router and the provider on the
      operating system stay under their roots and the one on S3 under its prefix,
      the JSON file never lags behind the memory.
    - Data explorer: an execution always answers within its limits; a Redis query
      sends at most one command, a permitted one.
    - MCP: a call changes something only for an allowed caller, and a command
      tool runs exactly its command, under the permission check of that command.
    - Audit: a query answers what the contract says, clearing leaves its mark,
      and mounted plugins share one log.
    - Sockets and shells: an event is delivered once, in order and to its
      audience only, an ended session hears nothing more; shells never exceed
      their limits, are opened by authorized callers only, see no variable of
      the server that is not allowed, and leave no process behind; a client sees
      what its shell printed and the shell reads what it typed, in order, however
      the bytes are cut and the tasks interleave ([ShellPty.v]).
    - AWS: a command issues only operations of its own and none when it is a dry
      run, with clients of the settings in force, and always answers.
    - Admin: the ring keeps the newest entries, pages and charts account for
      every match once, a switch changes its own module only, the history covers
      the window asked for, no setting is a secret, wrong passwords are limited,
      and only plain colors reach the page.

    Examples and small lemmas that end in a number or a state nobody meant
    ([Sqlite], [S3.s3_partial_remove], [Os.surrogate_empties] and others) show
    where the code does not do what it says.

    ** Bounds and fuel

    Loops whose recursion is not structural take fuel, and a theorem says how
    much is enough: a run needs [max_retries + 1] attempts ([JobRuns.run_ends]),
    paging over a history as many pages as it has runs
    ([JobStats.collect_runs_all], [JobRuns.delete_execs_spec]), splitting a line
    one step per character ([ShellWords.split_shell_words_terminates]).  The
    search for the descendants of a shell has one step per process and one more
    ([ShellProcs.v]), a replacement of a regular expression one per
    character, and [use_store] two, as deep as two audit plugins can refer to one
    another.  The queue of a socket holds [MAX_PENDING_EVENTS] (1000) messages.
    Seeding for [n] callers ends within [3 n] steps
    ([UsersPlugin.ensure_seeded_ends]).

    ** Not modelled

    HTTP parsing and serialisation (FastAPI), the timing of hashes,
    operating-system processes, the demo, and the
    wiring of the plugins beyond [Server.v], [UsersPlugin.v], [AdminBuilder.v] and
    the builder in [JobsApi.v].  [urlsplit], the multipart parser,
    [realpath], [fromisoformat], [json.loads], JSON web tokens, cron, and the
    clients of databases, Redis, MongoDB, Elasticsearch, S3 and AWS are parameters, and so is CORS beyond its
    settings.
    Paths in SQLite hold no NUL character, and a [SELECT] without [ORDER BY]
    gives the rows in the order of their insertion.  Saving the JSON file always
    succeeds.  The in-memory job store keeps the objects it is given while the
    model keeps values: the code saves a run after every change.  Methods of the
    users plugin are sequential: host code called by them does not re-enter the
    service. *)

From stdpp Require Export base gmap sets list strings pretty sorting.
From Stdlib Require Export ZArith Lia.

Open Scope Z_scope.

(** ** Tactics of the development *)

(** Split every conjunction and boolean conjunction of the context. *)
Ltac split_hyps :=
  repeat match goal with
  | H : _ ∧ _ |- _ => destruct H
  | H : ∃ _, _ |- _ => destruct H
  | H : andb _ _ = true |- _ => apply andb_prop in H
  | H : orb _ _ = false |- _ => apply orb_false_elim in H
  | H : negb _ = true |- _ => apply negb_true_iff in H
  | H : negb _ = false |- _ => apply negb_false_iff in H
  end.

(** Case analysis on the scrutinee of the first [match] or [if] of the goal
    (or of a hypothesis), remembering the equation. *)
Ltac case_goal :=
  match goal with
  | |- context [match ?x with _ => _ end] => destruct x eqn:?
  end.

Ltac case_hyp H :=
  match type of H with
  | context [match ?x with _ => _ end] => destruct x eqn:?
  end.

(** ** The state and error monad of the Python methods

    A method that may raise and that mutates its object is a function from the
    object's state to the outcome, a value or the exception, and the state
    afterwards.  As in Python, the mutations made before an exception stay. *)
Definition py (S E A : Type) : Type := S → (E + A) * S.

#[export] Instance py_ret {S E} : MRet (py S E) := λ A a s, (inr a, s).
#[export] Instance py_bind {S E} : MBind (py S E) := λ A B f m s,
  match m s with
  | (inl e, s') => (inl e, s')
  | (inr a, s') => f a s'
  end.

Definition raise {S E A} (e : E) : py S E A := λ s, (inl e, s).
Definition get_state {S E} : py S E S := λ s, (inr s, s).
Definition put_state {S E} (s : S) : py S E unit := λ _, (inr tt, s).
Definition modify {S E} (f : S → S) : py S E unit := λ s, (inr tt, f s).
Definition gets {S E A} (f : S → A) : py S E A := λ s, (inr (f s), s).

(** [try: m  except: h]. *)
Definition try_except {S E A} (m : py S E A) (h : E → py S E A) : py S E A := λ s,
  match m s with
  | (inl e, s') => h e s'
  | (inr a, s') => (inr a, s')
  end.

(** [try: m  finally: fin]; an exception of [fin] replaces the outcome. *)
Definition try_finally {S E A} (m : py S E A) (fin : py S E unit) : py S E A := λ s,
  let '(r, s') := m s in
  match fin s' with
  | (inl e, s'') => (inl e, s'')
  | (inr _, s'') => (r, s'')
  end.

(** [if b: raise e]. *)
Definition raise_if {S E} (b : bool) (e : E) : py S E unit :=
  if b then raise e else mret tt.

(** [for x in xs: f(x)], over a snapshot of the list. *)
Fixpoint for_each {S E A} (f : A → py S E unit) (xs : list A) : py S E unit :=
  match xs with
  | [] => mret tt
  | x :: xs => _ ← f x; for_each f xs
  end.

(** Equations of the monad, the way a proof unfolds a method. *)
Lemma py_bind_eq {S E A B} (m : py S E A) (f : A → py S E B) s :
  (m ≫= f) s =
  match m s with (inl e, s') => (inl e, s') | (inr a, s') => f a s' end.
Proof. reflexivity. Qed.

Lemma py_ret_bind {S E A B} (a : A) (f : A → py S E B) s : (mret a ≫= f) s = f a s.
Proof. reflexivity. Qed.

Lemma py_bind_assoc {S E A B C} (m : py S E A) (f : A → py S E B) (g : B → py S E C) s :
  ((m ≫= f) ≫= g) s = (m ≫= (λ x, f x ≫= g)) s.
Proof. rewrite !py_bind_eq. destruct (m s) as [[e|a] s']; reflexivity. Qed.

(** A loop whose body never raises never raises, and an invariant of the body
    is an invariant of the loop. *)
Lemma for_each_inv {S E A} (f : A → py S E unit) (xs : list A) (I : S → Prop) s :
  (∀ x s, x ∈ xs → I s → (f x s).1 = inr tt ∧ I (f x s).2) →
  I s → (for_each f xs s).1 = inr tt ∧ I (for_each f xs s).2.
Proof.
  revert s; induction xs as [|x xs IH]; intros s Hf HI; simpl; [done|].
  rewrite py_bind_eq. destruct (Hf x s) as [Hr HI']; [set_solver|done|].
  destruct (f x s) as [[e|[]] s']; simpl in *; [done|].
  apply IH; [|done]. intros; apply Hf; set_solver.
Qed.

(** ** Methods that keep a property of the state

    [keeps P m]: whatever [m] returns or raises, [P] holds afterwards. *)
Definition keeps {S E A} (P : S → Prop) (m : py S E A) : Prop := ∀ s, P s → P (m s).2.

Section Keeps.
Context {S E : Type} (P : S → Prop).

Lemma keeps_bind {A B} (m : py S E A) (k : A → py S E B) :
  keeps P m → (∀ a, keeps P (k a)) → keeps P (m ≫= k).
Proof.
  intros Hm Hk s Hs. rewrite py_bind_eq. specialize (Hm s Hs).
  destruct (m s) as [[e|a] s']; [done|by apply Hk].
Qed.

(** The same, with what is known of the value passed on. *)
Lemma keeps_bind_post {A B} (Q : A → Prop) (m : py S E A) (k : A → py S E B) :
  (∀ s a s', m s = (inr a, s') → Q a) → keeps P m → (∀ a, Q a → keeps P (k a)) → keeps P (m ≫= k).
Proof.
  intros HQ Hm Hk s Hs. rewrite py_bind_eq. specialize (Hm s Hs).
  destruct (m s) as [[e|a] s'] eqn:Em; [done|]. apply Hk; [|done]. by eapply HQ.
Qed.

Lemma keeps_same {A} (m : py S E A) : (∀ s, (m s).2 = s) → keeps P m.
Proof. intros Hm s Hs. by rewrite Hm. Qed.

Lemma keeps_modify (f : S → S) : (∀ s, P s → P (f s)) → keeps P (modify (E := E) f).
Proof. intros Hf s Hs. by apply Hf. Qed.

Lemma keeps_try {A} (m : py S E A) (h : E → py S E A) :
  keeps P m → (∀ e, keeps P (h e)) → keeps P (try_except m h).
Proof.
  intros Hm Hh s Hs. unfold try_except. specialize (Hm s Hs).
  destruct (m s) as [[e|a] s']; [by apply Hh|done].
Qed.

Lemma keeps_finally {A} (m : py S E A) (fin : py S E unit) :
  keeps P m → keeps P fin → keeps P (try_finally m fin).
Proof.
  intros Hm Hf s Hs. unfold try_finally. specialize (Hm s Hs).
  destruct (m s) as [r s']. specialize (Hf s' Hm). by destruct (fin s') as [[e|[]] s''].
Qed.

Lemma keeps_for_each {A} (f : A → py S E unit) l : (∀ x, keeps P (f x)) → keeps P (for_each f l).
Proof.
  intros Hf. induction l as [|x l IH]; simpl; [by apply keeps_same|]. by apply keeps_bind.
Qed.
End Keeps.

(** Evaluate a method step by step. *)
Ltac run_py :=
  repeat (rewrite ?py_bind_eq; cbn [mret py_ret raise get_state put_state modify gets
    raise_if fst snd]).

(** ** Python dictionaries

    A [dict] keeps its insertion order, which the program observes (it iterates
    over the values of its stores), so it is an association list: assigning to
    a key it has keeps the key's place, a new key goes last. *)
Abbreviation dict K V := (list (K * V)).

Section Dict.
Context {K V : Type} `{EqDecision K}.
Implicit Types (d : dict K V) (k : K) (v : V).

Fixpoint dict_get k d : option V :=
  match d with
  | [] => None
  | (k', v) :: d => if decide (k' = k) then Some v else dict_get k d
  end.

Fixpoint dict_set k v d : dict K V :=
  match d with
  | [] => [(k, v)]
  | (k', v') :: d =>
      if decide (k' = k) then (k', v) :: d else (k', v') :: dict_set k v d
  end.

Fixpoint dict_del k d : dict K V :=
  match d with
  | [] => []
  | (k', v') :: d => if decide (k' = k) then d else (k', v') :: dict_del k d
  end.

Definition dict_mem k d : bool := bool_decide (is_Some (dict_get k d)).
Definition dict_keys d : list K := d.*1.
Definition dict_values d : list V := d.*2.

(** The invariant every dictionary has: one entry per key. *)
Definition dict_ok d : Prop := NoDup (dict_keys d).

Lemma dict_get_set_eq k v d : dict_get k (dict_set k v d) = Some v.
Proof. induction d as [|[k' v'] d IH]; simpl; repeat (case_decide; simpl); congruence. Qed.

Lemma dict_get_set_ne k k' v d : k ≠ k' → dict_get k' (dict_set k v d) = dict_get k' d.
Proof.
  intros Hne. induction d as [|[k0 v0] d IH]; simpl; repeat (case_decide; simpl); congruence.
Qed.

Lemma dict_get_None k d : dict_get k d = None ↔ k ∉ dict_keys d.
Proof.
  induction d as [|[k' v'] d IH]; simpl; [split; [set_solver|done]|].
  case_decide; [subst; split; [done|set_solver]|]. rewrite IH. set_solver.
Qed.

Lemma dict_get_elem_of k v d : dict_get k d = Some v → (k, v) ∈ d.
Proof.
  induction d as [|[k' v'] d IH]; simpl; [done|].
  case_decide; [intros [= ->]; subst; set_solver|]. intros Hget%IH. set_solver.
Qed.

Lemma dict_elem_of_get k v d : dict_ok d → (k, v) ∈ d → dict_get k d = Some v.
Proof.
  unfold dict_ok. induction d as [|[k' v'] d IH]; simpl; [set_solver|].
  intros [Hk Hd]%NoDup_cons [[= -> ->]|Hin]%elem_of_cons; [by rewrite decide_True|].
  case_decide; [subst; exfalso; apply Hk, list_elem_of_fmap; by exists (k, v)|by apply IH].
Qed.

Lemma dict_get_del_ne k k' d : k ≠ k' → dict_get k' (dict_del k d) = dict_get k' d.
Proof.
  intros Hne. induction d as [|[k0 v0] d IH]; simpl; repeat (case_decide; simpl); congruence.
Qed.

Lemma dict_keys_set k v d :
  dict_keys (dict_set k v d) = if decide (k ∈ dict_keys d) then dict_keys d else dict_keys d ++ [k].
Proof.
  unfold dict_keys. induction d as [|[k' v'] d IH]; [done|]. simpl dict_set.
  destruct (decide (k' = k)) as [->|Hne]; rewrite !fmap_cons; simpl.
  { rewrite decide_True; [done|set_solver]. }
  rewrite IH. destruct (decide (k ∈ d.*1)).
  - rewrite decide_True; [done|set_solver].
  - rewrite decide_False; [done|set_solver].
Qed.

Lemma dict_keys_del_subseteq k d : dict_keys (dict_del k d) ⊆ dict_keys d.
Proof. unfold dict_keys. induction d as [|[k' v'] d IH]; simpl; [done|]. case_decide; set_solver. Qed.

Lemma dict_get_del_eq k d : dict_ok d → dict_get k (dict_del k d) = None.
Proof.
  unfold dict_ok. induction d as [|[k' v'] d IH]; simpl; [done|].
  intros [Hk Hd]%NoDup_cons. case_decide; [subst; by apply dict_get_None|].
  simpl. rewrite decide_False by done. by apply IH.
Qed.

Lemma dict_ok_set k v d : dict_ok d → dict_ok (dict_set k v d).
Proof.
  unfold dict_ok. intros Hd. rewrite dict_keys_set. case_decide; [done|].
  apply NoDup_app; repeat split; [done|set_solver|apply NoDup_singleton].
Qed.

Lemma dict_ok_del k d : dict_ok d → dict_ok (dict_del k d).
Proof.
  unfold dict_ok. induction d as [|[k' v'] d IH]; simpl; [done|].
  intros [Hk Hd]%NoDup_cons. case_decide; [done|]. apply NoDup_cons. split; [|by apply IH].
  pose proof (dict_keys_del_subseteq k d). set_solver.
Qed.

Lemma dict_ok_nil : dict_ok [].
Proof. apply NoDup_nil_2. Qed.

Lemma dict_mem_true k d : dict_mem k d = true ↔ k ∈ dict_keys d.
Proof.
  unfold dict_mem. rewrite bool_decide_eq_true, <- not_eq_None_Some, dict_get_None.
  split; [apply dec_stable|naive_solver].
Qed.

Lemma dict_mem_get k d : dict_mem k d = true ↔ ∃ v, dict_get k d = Some v.
Proof. unfold dict_mem. rewrite bool_decide_eq_true. done. Qed.

Lemma dict_length_set_le k v d : (length (dict_set k v d) ≤ S (length d))%nat.
Proof. induction d as [|[k' v'] d IH]; simpl; [lia|]. case_decide; simpl; lia. Qed.

Lemma dict_elem_of_set k v d k' v' :
  (k', v') ∈ dict_set k v d → (k', v') = (k, v) ∨ (k', v') ∈ d.
Proof.
  induction d as [|[k0 v0] d IH]; simpl; [set_solver|].
  case_decide; [subst; set_solver|]. intros [?|?%IH]%elem_of_cons; set_solver.
Qed.

Lemma dict_elem_of_del k d k' v' : (k', v') ∈ dict_del k d → (k', v') ∈ d.
Proof. induction d as [|[k0 v0] d IH]; simpl; [done|]. case_decide; set_solver. Qed.

(** [{**d, **l}] *)
Lemma dict_get_foldl_set (l : dict K V) d k :
  dict_ok l →
  dict_get k (foldl (λ d kv, dict_set kv.1 kv.2 d) d l) =
  match dict_get k l with Some v => Some v | None => dict_get k d end.
Proof.
  unfold dict_ok. revert d; induction l as [|[k' v'] l IH]; intros d; [done|]. simpl.
  intros [Hk Hl]%NoDup_cons. rewrite IH by done. case_decide as E.
  - subst. rewrite (proj2 (dict_get_None k l)) by done. apply dict_get_set_eq.
  - destruct (dict_get k l); [done|]. by rewrite dict_get_set_ne.
Qed.

Lemma dict_get_filter (P : K → Prop) `{∀ k, Decision (P k)} `{∀ kv : K * V, Decision (P kv.1)} d k :
  dict_get k (filter (λ kv, P kv.1) d) = if decide (P k) then dict_get k d else None.
Proof.
  induction d as [|[k' v'] d IH]; [by case_decide|]. rewrite filter_cons. simpl.
  destruct (decide (P k')) as [Hk|Hk]; simpl; rewrite IH; repeat case_decide; naive_solver.
Qed.

Lemma dict_ok_filter (P : K * V → Prop) `{∀ kv, Decision (P kv)} d :
  dict_ok d → dict_ok (filter P d).
Proof.
  unfold dict_ok, dict_keys. induction d as [|[k' v'] d IH]; [done|].
  rewrite fmap_cons. intros [Hk Hd]%NoDup_cons. rewrite filter_cons.
  case_decide; [|by apply IH]. rewrite fmap_cons. apply NoDup_cons. split; [|by apply IH]. intros [[k0 v0] [? Hin]]%list_elem_of_fmap.
  apply list_elem_of_filter in Hin as [_ Hin]. apply Hk, list_elem_of_fmap. by exists (k0, v0).
Qed.
End Dict.

#[global] Opaque dict_mem.

Create HintDb dict discriminated.
#[export] Hint Resolve dict_ok_set dict_ok_del dict_ok_nil : dict.

(** ** Sorting

    Python's sort is stable; so is insertion sort when equal elements keep
    their order. *)
Section Sort.
Context {A : Type} (le : A → A → bool).

Fixpoint sort_insert (x : A) (l : list A) : list A :=
  match l with
  | [] => [x]
  | y :: l' => if le x y then x :: l else y :: sort_insert x l'
  end.

Definition py_sort (l : list A) : list A := foldr sort_insert [] l.

Lemma sort_insert_perm x l : sort_insert x l ≡ₚ x :: l.
Proof.
  induction l as [|y l IH]; simpl; [done|]. destruct (le x y); [done|]. rewrite IH. constructor.
Qed.

Lemma py_sort_perm l : py_sort l ≡ₚ l.
Proof. induction l as [|x l IH]; simpl; [done|]. by rewrite sort_insert_perm, IH. Qed.

Lemma py_sort_length l : length (py_sort l) = length l.
Proof. by rewrite py_sort_perm. Qed.

Lemma elem_of_py_sort x l : x ∈ py_sort l ↔ x ∈ l.
Proof. by rewrite py_sort_perm. Qed.

Context (le_total : ∀ x y, le x y = true ∨ le y x = true).
Context (le_trans : ∀ x y z, le x y = true → le y z = true → le x z = true).

Lemma sort_insert_sorted x l :
  StronglySorted (λ x y, le x y = true) l → StronglySorted (λ x y, le x y = true) (sort_insert x l).
Proof.
  induction 1 as [|y l Hl IH Hy]; simpl; [repeat constructor|].
  destruct (le x y) eqn:E.
  - constructor; [by constructor|]. constructor; [done|].
    eapply Forall_impl; [exact Hy|]. simpl. eauto.
  - constructor; [done|]. rewrite sort_insert_perm. constructor; [|done].
    by destruct (le_total x y); [congruence|].
Qed.

Lemma py_sort_sorted l : StronglySorted (λ x y, le x y = true) (py_sort l).
Proof. induction l as [|x l IH]; simpl; [constructor|]. by apply sort_insert_sorted. Qed.

Lemma StronglySorted_impl (R S : A → A → Prop) l :
  (∀ x y, R x y → S x y) → StronglySorted R l → StronglySorted S l.
Proof.
  intros HRS. induction 1 as [|x l _ IH Hx]; constructor; [done|].
  eapply Forall_impl; [exact Hx|]. eauto.
Qed.

Lemma StronglySorted_lookup_lt (R : A → A → Prop) l i j x y :
  StronglySorted R l → l !! i = Some x → l !! j = Some y → (i < j)%nat → R x y.
Proof.
  intros Hl. revert i j. induction Hl as [|z l _ IH Hz]; intros [|i] [|j]; simpl; try done; try lia.
  - intros [= ->] Hy _. rewrite Forall_forall in Hz. apply Hz. by eapply list_elem_of_lookup_2.
  - intros Hx Hy Hij. eapply IH; [exact Hx|exact Hy|lia].
Qed.

(** A sorted list is left as it is, so sorting is idempotent. *)
Lemma py_sort_id l : StronglySorted (λ x y, le x y = true) l → py_sort l = l.
Proof.
  induction 1 as [|x l _ IH Hx]; simpl; [done|]. rewrite IH.
  destruct Hx as [|y l Hy _]; simpl; [done|]. by rewrite Hy.
Qed.
End Sort.

(** ** Each key once *)

(** [dict.fromkeys(l)]: each key once, at its first place. *)
Fixpoint fromkeys (seen : list string) (l : list string) : list string :=
  match l with
  | [] => []
  | x :: l => if decide (x ∈ seen) then fromkeys seen l else x :: fromkeys (x :: seen) l
  end.

Lemma fromkeys_elem seen l x : x ∈ fromkeys seen l ↔ x ∈ l ∧ x ∉ seen.
Proof.
  revert seen; induction l as [|y l IH]; intros seen; simpl; [set_solver|].
  case_decide; rewrite ?elem_of_cons, IH; [set_solver|].
  destruct (decide (x = y)); set_solver.
Qed.

Lemma fromkeys_nodup seen l : NoDup (fromkeys seen l).
Proof.
  revert seen; induction l as [|y l IH]; intros seen; simpl; [constructor|].
  case_decide; [done|]. constructor; [|done]. rewrite fromkeys_elem. set_solver.
Qed.
