(* ===== verification/PyStr.v ===== *)
(** * Python strings

    A [str] whose code points are below 256, one [ascii] per code point.  On
    these strings the methods below are exactly Python's ([isspace], [lower],
    [strip] and [\d] were taken from the Unicode data of the Latin-1 block);
    strings with larger code points are outside the model. *)

From S2P Require Import Prelude.
From Stdlib Require Import Ascii.

(** ** Characters *)

(** [str.isspace] *)
Definition is_space (c : ascii) : bool :=
  let n := N_of_ascii c in
  ((9 <=? n) && (n <=? 13) || (28 <=? n) && (n <=? 32) || (n =? 133) || (n =? 160))%N.

(** [re.match("\d", c)] *)
Definition is_digit (c : ascii) : bool :=
  let n := N_of_ascii c in ((48 <=? n) && (n <=? 57))%N.

Definition lower_ascii (c : ascii) : ascii :=
  let n := N_of_ascii c in
  if ((65 <=? n) && (n <=? 90) || (192 <=? n) && (n <=? 222) && negb (n =? 215))%N
  then ascii_of_N (n + 32) else c.

(** ** Strings as lists of characters *)

Abbreviation chars := String.list_ascii_of_string.
Abbreviation str := String.string_of_list_ascii.

Lemma str_chars s : str (chars s) = s.
Proof. apply String.string_of_list_ascii_of_string. Qed.

Lemma chars_str l : chars (str l) = l.
Proof. apply String.list_ascii_of_string_of_list_ascii. Qed.

#[export] Instance chars_inj : Inj (=) (=) String.list_ascii_of_string.
Proof. intros s t H. apply (f_equal String.string_of_list_ascii) in H. by rewrite !str_chars in H. Qed.

#[export] Instance str_inj : Inj (=) (=) String.string_of_list_ascii.
Proof. intros s t H. apply (f_equal String.list_ascii_of_string) in H. by rewrite !chars_str in H. Qed.

Lemma cons_str_app c s t : String c s +:+ t = String c (s +:+ t).
Proof. reflexivity. Qed.

Lemma chars_app s t : chars (s +:+ t) = chars s ++ chars t.
Proof. induction s as [|c s IH]; [done|]. rewrite cons_str_app. simpl. by rewrite IH. Qed.

Lemma str_app l k : str (l ++ k) = str l +:+ str k.
Proof. apply (inj String.list_ascii_of_string). by rewrite chars_app, !chars_str. Qed.

Lemma app_str_nil_r s : s +:+ "" = s.
Proof. apply (inj String.list_ascii_of_string). by rewrite chars_app, app_nil_r. Qed.

Lemma app_str_assoc s t u : s +:+ (t +:+ u) = (s +:+ t) +:+ u.
Proof. apply (inj String.list_ascii_of_string). by rewrite !chars_app, app_assoc. Qed.

(** [len(s)] *)
Definition len (s : string) : nat := String.length s.

Lemma len_chars s : len s = length (chars s).
Proof. induction s; simpl; [done|]. unfold len in *. simpl. by f_equal. Qed.

Lemma len_app s t : len (s +:+ t) = (len s + len t)%nat.
Proof. by rewrite !len_chars, chars_app, length_app. Qed.

(** [not s], [bool(s)] *)
Definition is_empty (s : string) : bool := bool_decide (s = "").
Definition truthy (s : string) : bool := negb (is_empty s).
(** [s] of type [str | None] in a condition *)
Definition truthy_opt (s : option string) : bool :=
  match s with Some s => truthy s | None => false end.
(** [s or ""] *)
Definition or_empty (s : option string) : string := default "" s.

Lemma truthy_spec s : truthy s = true ↔ s ≠ "".
Proof. unfold truthy, is_empty. rewrite negb_true_iff, bool_decide_eq_false. done. Qed.

(** [s[n:]], [s[:n]] for [0 <= n] *)
Definition drop_str (n : nat) (s : string) : string := str (drop n (chars s)).
Definition take_str (n : nat) (s : string) : string := str (take n (chars s)).

(** ** Case *)

Definition upper_ascii (c : ascii) : ascii :=
  let n := N_of_ascii c in if ((97 <=? n) && (n <=? 122))%N then ascii_of_N (n - 32) else c.
(** [s.upper()] of an ASCII string, as the HTTP methods are *)
Definition upper (s : string) : string := str (map upper_ascii (chars s)).

(** [s.lower()] *)
Definition lower (s : string) : string := str (map lower_ascii (chars s)).

Lemma lower_ascii_idemp c : lower_ascii (lower_ascii c) = lower_ascii c.
Proof. destruct c as [[] [] [] [] [] [] [] []]; reflexivity. Qed.

Lemma lower_ascii_space c : is_space (lower_ascii c) = is_space c.
Proof. destruct c as [[] [] [] [] [] [] [] []]; reflexivity. Qed.

Lemma lower_ascii_fix c d : lower_ascii c = d → N_of_ascii d ∈ [42; 45; 47; 58; 64]%N → c = d.
Proof.
  intros <- H. rewrite !elem_of_cons, elem_of_nil in H.
  destruct c as [[] [] [] [] [] [] [] []]; vm_compute in H |- *; naive_solver.
Qed.

Lemma lower_idemp s : lower (lower s) = lower s.
Proof.
  unfold lower. rewrite chars_str, map_map. f_equal. apply map_ext, lower_ascii_idemp.
Qed.

Lemma lower_app s t : lower (s +:+ t) = lower s +:+ lower t.
Proof. unfold lower. by rewrite chars_app, map_app, str_app. Qed.

Lemma chars_lower s : chars (lower s) = map lower_ascii (chars s).
Proof. unfold lower. by rewrite chars_str. Qed.

Lemma lower_empty s : lower s = "" ↔ s = "".
Proof.
  split; [|by intros ->]. intros H. apply (f_equal chars) in H. rewrite chars_lower in H.
  apply (inj String.list_ascii_of_string). by destruct (chars s).
Qed.

(** ** Stripping *)

Fixpoint lstrip_chars (p : ascii → bool) (l : list ascii) : list ascii :=
  match l with
  | [] => []
  | c :: l' => if p c then lstrip_chars p l' else l
  end.
Definition rstrip_chars (p : ascii → bool) (l : list ascii) : list ascii :=
  rev (lstrip_chars p (rev l)).
Definition strip_chars p l := rstrip_chars p (lstrip_chars p l).

(** [s.strip()] *)
Definition strip (s : string) : string := str (strip_chars is_space (chars s)).
(** [s.strip(c)] for one character [c] *)
Definition strip_of (c : ascii) (s : string) : string :=
  str (strip_chars (Ascii.eqb c) (chars s)).

Section Strip.
Context (p : ascii → bool).

Lemma lstrip_chars_id l : (∀ c, head l = Some c → p c = false) → lstrip_chars p l = l.
Proof. destruct l as [|c l]; simpl; [done|]. intros H. by rewrite H. Qed.

Lemma lstrip_chars_head l c : head (lstrip_chars p l) = Some c → p c = false.
Proof. induction l as [|d l IH]; simpl; [done|]. destruct (p d) eqn:E; naive_solver. Qed.

Lemma lstrip_chars_suffix l : ∃ k, l = k ++ lstrip_chars p l ∧ Forall (λ c, p c = true) k.
Proof.
  induction l as [|d l [k [Hl Hk]]]; simpl; [by exists []|].
  destruct (p d) eqn:E; [|by exists []]. exists (d :: k). split; [by rewrite Hl at 1|by constructor].
Qed.

Lemma lstrip_chars_all l : Forall (λ c, p c = true) l → lstrip_chars p l = [].
Proof. induction 1 as [|c l Hc _ IH]; simpl; [done|]. by rewrite Hc. Qed.

Lemma lstrip_chars_last l c :
  last (lstrip_chars p l) = Some c → last l = Some c.
Proof.
  induction l as [|d l IH]; simpl; [done|]. destruct (p d); [|done].
  intros H%IH. rewrite last_cons, H. done.
Qed.

Lemma rstrip_chars_head l c : head (rstrip_chars p l) = Some c → head l = Some c.
Proof.
  unfold rstrip_chars. intros H. destruct (lstrip_chars_suffix (rev l)) as [k [Hl _]].
  apply (f_equal (@rev _)) in Hl. rewrite rev_involutive, rev_app_distr in Hl.
  rewrite Hl. by destruct (rev (lstrip_chars p (rev l))).
Qed.

(** Stripping leaves no strippable character at either end, so it is
    idempotent. *)
Lemma strip_chars_ends l c :
  head (strip_chars p l) = Some c ∨ last (strip_chars p l) = Some c → p c = false.
Proof.
  unfold strip_chars. intros [H|H].
  - apply rstrip_chars_head in H. by eapply lstrip_chars_head.
  - unfold rstrip_chars in H.
    apply (lstrip_chars_head (rev (lstrip_chars p l))).
    rewrite <- H. generalize (lstrip_chars p (rev (lstrip_chars p l))). intros [|d k]; [done|].
    simpl. by rewrite last_snoc.
Qed.

Lemma strip_chars_id l :
  (∀ c, head l = Some c → p c = false) → (∀ c, last l = Some c → p c = false) →
  strip_chars p l = l.
Proof.
  intros Hh Hl. unfold strip_chars, rstrip_chars. rewrite (lstrip_chars_id l) by done.
  rewrite lstrip_chars_id, rev_involutive; [done|].
  intros c Hc. apply Hl. rewrite <- (rev_involutive l). destruct (rev l) as [|d k]; [done|].
  simpl in *. rewrite last_snoc. done.
Qed.

Lemma strip_chars_idemp l : strip_chars p (strip_chars p l) = strip_chars p l.
Proof. apply strip_chars_id; intros c H; eapply (strip_chars_ends l); eauto. Qed.
End Strip.

Lemma strip_idemp s : strip (strip s) = strip s.
Proof. unfold strip. by rewrite chars_str, strip_chars_idemp. Qed.

(** Stripping and lower-casing commute: [lower] keeps what is white space. *)
Lemma lstrip_chars_map p f l :
  (∀ c, p (f c) = p c) → lstrip_chars p (map f l) = map f (lstrip_chars p l).
Proof. intros Hf. induction l as [|c l IH]; simpl; [done|]. rewrite Hf. by destruct (p c). Qed.

Lemma strip_chars_map p f l :
  (∀ c, p (f c) = p c) → strip_chars p (map f l) = map f (strip_chars p l).
Proof.
  intros Hf. unfold strip_chars, rstrip_chars.
  by rewrite lstrip_chars_map, <- !map_rev, lstrip_chars_map, map_rev.
Qed.

Lemma strip_lower s : strip (lower s) = lower (strip s).
Proof.
  unfold strip, lower. rewrite !chars_str. by rewrite strip_chars_map by apply lower_ascii_space.
Qed.

(** ** Splitting and joining *)

(** [s.split(sep)] for a one-character separator *)
Fixpoint split_chars (sep : ascii) (l : list ascii) : list (list ascii) :=
  match l with
  | [] => [[]]
  | c :: l =>
      if Ascii.eqb c sep then [] :: split_chars sep l
      else match split_chars sep l with
           | w :: ws => (c :: w) :: ws
           | [] => [[c]]
           end
  end.
Definition split (sep : ascii) (s : string) : list string := map str (split_chars sep (chars s)).

(** [s.split()]: the non-empty runs of non-space characters *)
Definition nonempty_word (cur : list ascii) : list (list ascii) :=
  match cur with [] => [] | _ => [cur] end.
Fixpoint words_chars (cur : list ascii) (l : list ascii) : list (list ascii) :=
  match l with
  | [] => nonempty_word cur
  | c :: l =>
      if is_space c
      then nonempty_word cur ++ words_chars [] l
      else words_chars (cur ++ [c]) l
  end.
Definition split_ws (s : string) : list string := map str (words_chars [] (chars s)).

(** [sep.join(ws)] *)
Fixpoint join (sep : string) (ws : list string) : string :=
  match ws with
  | [] => ""
  | [w] => w
  | w :: ws => w +:+ sep +:+ join sep ws
  end.

Lemma split_chars_ne sep l : split_chars sep l ≠ [].
Proof. destruct l as [|c l]; simpl; [done|]. destruct (Ascii.eqb c sep); [done|]. by destruct (split_chars sep l). Qed.

Lemma split_ne sep s : split sep s ≠ [].
Proof. unfold split. intros H%map_eq_nil. by eapply split_chars_ne. Qed.

Lemma split_chars_no_sep sep l : Forall (λ w, sep ∉ w) (split_chars sep l).
Proof.
  induction l as [|c l IH]; simpl; [repeat constructor; set_solver|].
  destruct (Ascii.eqb_spec c sep); [constructor; [set_solver|done]|].
  destruct (split_chars sep l); [repeat constructor; set_solver|].
  inversion IH; subst. constructor; [set_solver|done].
Qed.

Lemma split_chars_app sep w l :
  sep ∉ w → split_chars sep (w ++ sep :: l) = w :: split_chars sep l.
Proof.
  intros Hw. induction w as [|c w IH]; simpl; [by rewrite Ascii.eqb_refl|].
  destruct (Ascii.eqb_spec c sep); [set_solver|]. rewrite IH by set_solver. done.
Qed.

Lemma split_chars_single sep w : sep ∉ w → split_chars sep w = [w].
Proof.
  intros Hw. induction w as [|c w IH]; simpl; [done|].
  destruct (Ascii.eqb_spec c sep); [set_solver|]. rewrite IH by set_solver. done.
Qed.

(** Splitting what was joined gives the pieces back. *)
Lemma split_join sep ws :
  ws ≠ [] → Forall (λ w, sep ∉ chars w) ws → split sep (join (String sep "") ws) = ws.
Proof.
  unfold split. intros Hne Hws. induction Hws as [|w ws Hw Hws IH]; [done|].
  destruct ws as [|w' ws]; [simpl; rewrite split_chars_single by done; simpl; by rewrite str_chars|].
  set (tl := join (String sep "") (w' :: ws)) in *.
  change (join _ _) with (w +:+ String sep "" +:+ tl). rewrite !chars_app.
  change (chars (String sep "") ++ chars tl) with (sep :: chars tl).
  rewrite split_chars_app by done. cbn [map]. rewrite str_chars. f_equal. by apply IH.
Qed.

(** Joining what was split gives the string back. *)
Lemma join_split sep s : join (String sep "") (split sep s) = s.
Proof.
  unfold split. apply (inj String.list_ascii_of_string).
  induction (chars s) as [|c l IH]; simpl; [done|].
  destruct (Ascii.eqb_spec c sep) as [->|Hne].
  - pose proof (split_chars_ne sep l). destruct (split_chars sep l) as [|w ws] eqn:E; [done|].
    simpl in *. rewrite chars_app. simpl. by rewrite IH.
  - pose proof (split_chars_ne sep l). destruct (split_chars sep l) as [|w ws] eqn:E; [done|].
    simpl in *. destruct ws as [|w' ws]; simpl in *; rewrite <- IH, ?chars_app, ?chars_str; simpl; done.
Qed.

Lemma split_chars_map sep f l :
  (∀ c, Ascii.eqb (f c) sep = Ascii.eqb c sep) →
  split_chars sep (map f l) = map (map f) (split_chars sep l).
Proof.
  intros Hf. induction l as [|c l IH]; simpl; [done|]. rewrite Hf, IH.
  destruct (Ascii.eqb c sep); [done|]. by destruct (split_chars sep l).
Qed.

(** ** Searching *)

(** [s.startswith(p)] *)
Definition starts_with (s p : string) : bool := String.prefix p s.

(** [s.endswith(p)] *)
Definition ends_with (s p : string) : bool :=
  bool_decide (drop (len s - len p) (chars s) = chars p ∧ (len p ≤ len s)%nat).

(** [c in s] *)
Definition has_char (c : ascii) (s : string) : bool := existsb (Ascii.eqb c) (chars s).

(** [sub in s] *)
Fixpoint contains (sub s : string) : bool :=
  String.prefix sub s || match s with "" => false | String _ s => contains sub s end.

Lemma starts_with_app s p : starts_with (p +:+ s) p = true.
Proof.
  unfold starts_with. induction p as [|c p IH]; [by destruct s|].
  rewrite cons_str_app. simpl. by destruct (ascii_dec c c).
Qed.

Lemma starts_with_spec s p : starts_with s p = true ↔ ∃ t, s = p +:+ t.
Proof.
  split; [|intros [t ->]; apply starts_with_app]. unfold starts_with.
  revert s; induction p as [|c p IH]; intros s; [by exists s|].
  destruct s as [|d s]; simpl; [done|]. destruct (ascii_dec c d) as [<-|]; [|done].
  intros [t ->]%IH. by exists t.
Qed.

Lemma has_char_spec c s : has_char c s = true ↔ c ∈ chars s.
Proof.
  unfold has_char. rewrite existsb_exists. split.
  - intros [d [Hd ->%Ascii.eqb_eq]]. by apply list_elem_of_In.
  - intros H. exists c. split; [by apply list_elem_of_In|apply Ascii.eqb_refl].
Qed.

(** [f"{n}"] for an integer *)
Definition str_of_Z (n : Z) : string := pretty n.
Definition str_of_nat (n : nat) : string := pretty n.

(** [repr(s)] *)
Definition quote_char : ascii := "'"%char.
Definition dquote_char : ascii := ascii_of_nat 34.
Definition hex_digit (n : N) : ascii := ascii_of_N (if (n <? 10)%N then 48 + n else 87 + n).
Definition is_printable (c : ascii) : bool :=
  let n := N_of_ascii c in
  ((32 <=? n) && (n <=? 126) || (161 <=? n) && negb (n =? 173))%N.
Definition repr_char (q c : ascii) : list ascii :=
  if Ascii.eqb c q || Ascii.eqb c "\"%char then ["\"%char; c]
  else match N_of_ascii c with
       | 10%N => chars "\n"
       | 13%N => chars "\r"
       | 9%N => chars "\t"
       | n => if is_printable c then [c]
              else chars "\x" ++ [hex_digit (n / 16); hex_digit (n mod 16)]
       end.
Definition py_repr (s : string) : string :=
  let q := if has_char quote_char s && negb (has_char dquote_char s) then dquote_char else quote_char in
  str ([q] ++ concat (map (repr_char q) (chars s)) ++ [q]).

Example py_repr_ex : py_repr "it's" = str ([dquote_char] ++ chars "it's" ++ [dquote_char]) ∧
  py_repr (str (chars "a\b" ++ [ascii_of_nat 10; ascii_of_nat 160])) = "'a\\b\n\xa0'".
Proof. split; reflexivity. Qed.

(** ** Lists *)

(** [xs[a:b]], negative bounds counted from the end *)
Definition py_slice {A} (a b : Z) (xs : list A) : list A :=
  let n := Z.of_nat (length xs) in
  let clamp i := if i <? 0 then Z.max (i + n) 0 else Z.min i n in
  take (Z.to_nat (clamp b) - Z.to_nat (clamp a)) (drop (Z.to_nat (clamp a)) xs).

(** [xs[a:]] *)
Definition py_slice_from {A} (a : Z) (xs : list A) : list A :=
  py_slice a (Z.of_nat (length xs)) xs.

Lemma py_slice_nonneg {A} (a b : Z) (xs : list A) :
  0 ≤ a → 0 ≤ b → py_slice a b xs = take (Z.to_nat b - Z.to_nat a) (drop (Z.to_nat a) xs).
Proof.
  intros Ha Hb. unfold py_slice.
  destruct (Z.ltb_spec a 0); [lia|]. destruct (Z.ltb_spec b 0); [lia|].
  destruct (decide (a ≤ Z.of_nat (length xs))).
  - rewrite (Z.min_l a) by lia. destruct (decide (b ≤ Z.of_nat (length xs))).
    + by rewrite Z.min_l by lia.
    + rewrite Z.min_r by lia. rewrite !take_ge by (rewrite length_drop; lia). done.
  - rewrite !drop_ge by lia. by rewrite !take_nil.
Qed.

Lemma py_slice_length {A} (a n : Z) (xs : list A) :
  0 ≤ a → 0 ≤ n → (length (py_slice a (a + n) xs) ≤ Z.to_nat n)%nat.
Proof. intros. rewrite py_slice_nonneg, length_take by lia. lia. Qed.

Lemma py_slice_sublist {A} (a b : Z) (xs : list A) x : x ∈ py_slice a b xs → x ∈ xs.
Proof.
  unfold py_slice. intros [i [H _]]%elem_of_take. rewrite lookup_drop in H.
  by eapply list_elem_of_lookup_2.
Qed.
