(* ===== verification/Values.v ===== *)
(** * JSON values, integer literals, times and texts of values

    The values the JSON bodies of the API carry (Python's [Any] after
    [json.loads]), Python's [int(str)], the ISO 8601 texts of times and the texts
    [str], [repr] and [json.dumps] give of a value. *)

From S2P Require Import Prelude PyStr.
From Stdlib Require Import Ascii.

(** A float only appears by its [repr]; nothing of the program computes with
    the floats of a request.  [VTime] is a [datetime] that host code passes, by
    its microseconds since the epoch. *)
Inductive pyval :=
| VNone
| VBool (b : bool)
| VInt (z : Z)
| VFloat (repr : string)
| VStr (s : string)
| VTime (us : Z)
| VList (l : list pyval)
| VDict (d : list (string * pyval)).

(** The largest number of digits [int] accepts in a literal
    ([sys.int_info.default_max_str_digits]). *)
Definition int_max_str_digits : nat := 4300.

(** The digits of an integer literal; single underscores may separate them.
    [n] counts the digits. *)
Fixpoint int_digits (acc : Z) (n : nat) (after_digit : bool) (l : list ascii) : option (Z * nat) :=
  match l with
  | [] => if after_digit then Some (acc, n) else None
  | c :: l =>
      if is_digit c then
        int_digits (10 * acc + (Z.of_N (N_of_ascii c) - 48)) (S n) true l
      else if Ascii.eqb c "_"%char && after_digit then int_digits acc n false l
      else None
  end.

(** [int(s)]; [None] is [ValueError]. *)
Definition py_int (s : string) : option Z :=
  let body l :=
    match int_digits 0 0 false l with
    | Some (z, n) => if (int_max_str_digits <? n)%nat then None else Some z
    | None => None
    end in
  match chars (strip s) with
  | c :: l =>
      if Ascii.eqb c "-"%char then Z.opp <$> body l
      else if Ascii.eqb c "+"%char then body l
      else body (c :: l)
  | [] => None
  end.

(** [int(str(value).strip())] for a value that is neither [None], a [bool] nor
    an [int]: the text of a float has a point, an exponent or a name and that
    of a list or a dict starts with a bracket, so only strings can succeed. *)
Definition int_of_value (v : pyval) : option Z :=
  match v with
  | VStr s => py_int (strip s)
  | VFloat repr => py_int (strip repr)
  | _ => None
  end.

Example py_int_ex : py_int " -1_000 " = Some (-1000) ∧ py_int "1__0" = None ∧ py_int "" = None ∧ py_int "+7" = Some 7.
Proof. split_and!; reflexivity. Qed.

Lemma int_digits_nonneg acc n b l z m : 0 ≤ acc → int_digits acc n b l = Some (z, m) → 0 ≤ z.
Proof.
  revert acc n b; induction l as [|c l IH]; intros acc n b Hacc; simpl.
  - destruct b; naive_solver.
  - destruct (is_digit c) eqn:Hd.
    + apply IH. unfold is_digit in Hd. split_hyps.
      match goal with H : (48 <=? _)%N = true |- _ => apply N.leb_le in H end. lia.
    + destruct (_ && b); [by apply IH|done].
Qed.

(** * Times

    Instants are microseconds since the Unix epoch (a [datetime]) or
    milliseconds ([now_ms]).  A [datetime] also has an optional offset; the
    program takes a naive one as UTC ([as_utc] of [job_execution_query.py],
    [_utc] of [job_stats.py]).  [iso_ms] is the ISO 8601 form with milliseconds
    that [utc_timestamp] ([cli_event_bus.py]), [_iso_ms]
    ([cli_command_usage.py]) and [iso] ([job_stats.py]) write. *)

(** A [datetime.datetime]: the wall clock as microseconds, and the offset of
    its [tzinfo] in microseconds ([None] for a naive value). *)
Record datetime := { wall_us : Z; utc_offset : option Z }.

(** The instant of a value taken as UTC when naive. *)
Definition as_utc (d : datetime) : Z := wall_us d - default 0 (utc_offset d).

(** An aware UTC value. *)
Definition utc (us : Z) : datetime := {| wall_us := us; utc_offset := Some 0 |}.

Lemma as_utc_utc us : as_utc (utc us) = us.
Proof. unfold as_utc. simpl. lia. Qed.

(** The civil date of a day count since 1970-01-01 (proleptic Gregorian). *)
Definition civil_from_days (z : Z) : Z * Z * Z :=
  let z := z + 719468 in
  let era := z / 146097 in
  let doe := z - era * 146097 in
  let yoe := (doe - doe / 1460 + doe / 36524 - doe / 146096) / 365 in
  let doy := doe - (365 * yoe + yoe / 4 - yoe / 100) in
  let mp := (5 * doy + 2) / 153 in
  let d := doy - (153 * mp + 2) / 5 + 1 in
  let m := if mp <? 10 then mp + 3 else mp - 9 in
  let y := yoe + era * 400 + (if m <=? 2 then 1 else 0) in
  (y, m, d).

(** A number padded with zeros to [n] characters. *)
Definition pad (n : nat) (z : Z) : string :=
  let s := str_of_Z z in
  str (repeat "0"%char (n - len s)) +:+ s.

(** [YYYY-MM-DDTHH:MM:SS.mmmZ] *)
Definition iso_ms (us : Z) : string :=
  let '(y, m, d) := civil_from_days (us / 86400000000) in
  let ms := (us `mod` 86400000000) / 1000 in
  pad 4 y +:+ "-" +:+ pad 2 m +:+ "-" +:+ pad 2 d +:+ "T" +:+
  pad 2 (ms / 3600000) +:+ ":" +:+ pad 2 ((ms / 60000) `mod` 60) +:+ ":" +:+
  pad 2 ((ms / 1000) `mod` 60) +:+ "." +:+ pad 3 (ms `mod` 1000) +:+ "Z".

(** [isoformat()] of a naive value, and of an aware UTC one. *)
Definition iso_wall (us : Z) : string :=
  let '(y, m, d) := civil_from_days (us / 86400000000) in
  let t := us `mod` 86400000000 in
  pad 4 y +:+ "-" +:+ pad 2 m +:+ "-" +:+ pad 2 d +:+ "T" +:+
  pad 2 (t / 3600000000) +:+ ":" +:+ pad 2 ((t / 60000000) `mod` 60) +:+ ":" +:+
  pad 2 ((t / 1000000) `mod` 60) +:+
  (if t `mod` 1000000 =? 0 then "" else "." +:+ pad 6 (t `mod` 1000000)).
Definition isoformat (us : Z) : string := iso_wall us +:+ "+00:00".

(** The offset of an aware value, a whole number of minutes. *)
Definition iso_offset (off : Z) : string :=
  let m := Z.abs off / 60000000 in
  (if off <? 0 then "-" else "+") +:+ pad 2 (m / 60) +:+ ":" +:+ pad 2 (m `mod` 60).

(** [round(seconds * 1000)] of a time span: halves to even. *)
Definition round_ms (us : Z) : Z :=
  let q := us / 1000 in
  let r := us `mod` 1000 in
  if r <? 500 then q else if 500 <? r then q + 1 else if Z.even q then q else q + 1.

Lemma round_ms_nonneg us : 0 ≤ us → 0 ≤ round_ms us.
Proof.
  intros H. unfold round_ms. pose proof (Z.div_pos us 1000 H ltac:(lia)).
  repeat (match goal with |- context [if ?b then _ else _] => destruct b end); lia.
Qed.

Example isoformat_ex : isoformat 1000001 = "1970-01-01T00:00:01.000001+00:00" ∧
  isoformat 1000000 = "1970-01-01T00:00:01+00:00" ∧ map round_ms [2500; 3500; 3501] = [2; 4; 4].
Proof. split_and!; reflexivity. Qed.

Example iso_ms_ex :
  iso_ms 0 = "1970-01-01T00:00:00.000Z" ∧
  iso_ms 1793960100123456 = "2026-11-06T10:15:00.123Z" ∧
  iso_ms (-1) = "1969-12-31T23:59:59.999Z".
Proof. split_and!; reflexivity. Qed.

(** ** Texts of JSON values: [str(v)] and [json.dumps(v)]

    [str_time] is [str] of a [datetime], which no JSON value of a request is. *)

Section Texts.
Context (str_time : Z → string).

(** [str(v)] and [repr(v)] *)
Fixpoint value_repr (v : pyval) : string :=
  match v with
  | VNone => "None"
  | VBool b => if b then "True" else "False"
  | VInt z => str_of_Z z
  | VFloat r => r
  | VStr s => py_repr s
  | VTime t => str_time t
  | VList l => "[" +:+ join ", " (map value_repr l) +:+ "]"
  | VDict d => "{" +:+ join ", " (map (λ kv, py_repr kv.1 +:+ ": " +:+ value_repr kv.2) d) +:+ "}"
  end.
Definition value_str (v : pyval) : string := match v with VStr s => s | v => value_repr v end.

(** ** [json.dumps(v, indent=2, ensure_ascii=False, default=str)] *)

Definition json_char (c : ascii) : list ascii :=
  match N_of_ascii c with
  | 34%N => ["\"%char; c]
  | 92%N => ["\"%char; c]
  | 10%N => chars "\n"
  | 13%N => chars "\r"
  | 9%N => chars "\t"
  | 12%N => chars "\f"
  | 8%N => chars "\b"
  | n => if (n <? 32)%N then chars "\u00" ++ [hex_digit (n / 16); hex_digit (n mod 16)] else [c]
  end.
Definition json_string (s : string) : string :=
  str ([dquote_char] ++ concat (map json_char (chars s)) ++ [dquote_char]).

Definition json_float (r : string) : string :=
  if bool_decide (r = "nan") then "NaN"
  else if bool_decide (r = "inf") then "Infinity"
  else if bool_decide (r = "-inf") then "-Infinity"
  else r.

(** A line break and the indentation of a level. *)
Definition break (level : nat) : string := str (ascii_of_nat 10 :: replicate (2 * level) " "%char).

Definition bracketed (level : nat) (l r : string) (items : list string) : string :=
  match items with
  | [] => l +:+ r
  | _ => l +:+ break (S level) +:+ join ("," +:+ break (S level)) items +:+ break level +:+ r
  end.

Fixpoint json_text (level : nat) (v : pyval) : string :=
  match v with
  | VNone => "null"
  | VBool b => if b then "true" else "false"
  | VInt z => str_of_Z z
  | VFloat r => json_float r
  | VStr s => json_string s
  | VTime t => json_string (str_time t)
  | VList l => bracketed level "[" "]" (map (json_text (S level)) l)
  | VDict d => bracketed level "{" "}" (map (λ kv, json_string kv.1 +:+ ": " +:+ json_text (S level) kv.2) d)
  end.
Definition json_dumps (v : pyval) : string := json_text 0 v.
End Texts.

Example json_ex :
  json_dumps (λ _, "") (VDict [("a", VList [VInt 1; VNone]); ("b", VDict [])]) =
  "{" +:+ break 1 +:+ json_string "a" +:+ ": [" +:+ break 2 +:+ "1," +:+ break 2 +:+ "null" +:+ break 1 +:+ "]," +:+
  break 1 +:+ json_string "b" +:+ ": {}" +:+ break 0 +:+ "}" ∧
  value_str (λ _, "") (VList [VStr "it"; VBool true]) = "['it', True]".
Proof. vm_compute. done. Qed.
