(* ===== verification/ShellWords.v ===== *)
(** * Shell-style word splitting ([shell_words.py])

    [split_shell_words] scans its text once; the scan is modelled over the
    list of characters that are left, which is the source's index [i]. *)

From S2P Require Import Prelude PyStr.
From Stdlib Require Import Ascii.

Definition bslash : ascii := "\"%char.
Definition squote : ascii := "'"%char.
Definition dquote : ascii := ascii_of_nat 34.

(** [text.find("'", i + 1)]: the characters before the next single quote and
    those after it. *)
Fixpoint find_squote (l : list ascii) : option (list ascii * list ascii) :=
  match l with
  | [] => None
  | c :: l =>
      if Ascii.eqb c squote then Some ([], l)
      else match find_squote l with
           | Some (w, rest) => Some (c :: w, rest)
           | None => None
           end
  end.

(** The inner loop after a double quote: [Some (buf, rest)] when the closing
    quote was found ([closed]), [None] when the text ended first. *)
Fixpoint scan_dquote (buf : list ascii) (l : list ascii) : option (list ascii * list ascii) :=
  match l with
  | [] => None
  | c :: l1 =>
      match l1 with
      | d :: l2 =>
          if Ascii.eqb c bslash && (Ascii.eqb d dquote || Ascii.eqb d bslash)
          then scan_dquote (buf ++ [d]) l2
          else if Ascii.eqb c dquote then Some (buf, l1)
          else scan_dquote (buf ++ [c]) l1
      | [] => if Ascii.eqb c dquote then Some (buf, l1) else scan_dquote (buf ++ [c]) l1
      end
  end.

(** The state of the main loop: the words found, [current] and [in_word]. *)
Record scan := Scan { words : list (list ascii); current : list ascii; in_word : bool }.

(** [if in_word: words.append(current)] *)
Definition flush (st : scan) : list (list ascii) :=
  if in_word st then words st ++ [current st] else words st.

(** [current += ...; in_word = True] *)
Definition extend (st : scan) (w : list ascii) : scan :=
  Scan (words st) (current st ++ w) true.

(** The last statements of the loop body: white space ends the word, any other
    character is added to it. *)
Definition plain (st : scan) (c : ascii) : scan :=
  if is_space c then Scan (flush st) [] false else extend st [c].

(** One iteration of the main loop: the next state and what is left to scan. *)
Definition scan_step (st : scan) (c : ascii) (l : list ascii) : scan * list ascii :=
  match l with
  | d :: l' =>
      if Ascii.eqb c bslash then (extend st [d], l')
      else if Ascii.eqb c squote then
        match find_squote l with
        | Some (w, rest) => (extend st w, rest)
        | None => (plain st c, l)
        end
      else if Ascii.eqb c dquote then
        match scan_dquote [] l with
        | Some (buf, rest) => (extend st buf, rest)
        | None => (plain st c, l)
        end
      else (plain st c, l)
  | [] => (plain st c, [])
  end.

(** The main loop with fuel; [None] when the fuel runs out. *)
Fixpoint scan_loop (fuel : nat) (st : scan) (l : list ascii) : option (list (list ascii)) :=
  match l with
  | [] => Some (flush st)
  | c :: l =>
      match fuel with
      | O => None
      | S fuel => let '(st', rest) := scan_step st c l in scan_loop fuel st' rest
      end
  end.

Definition scan0 : scan := Scan [] [] false.

Definition split_shell_words (text : string) : list string :=
  map str (default [] (scan_loop (length (chars text)) scan0 (chars text))).

Definition join_shell_words (text : string) : string := join " " (split_shell_words text).

(** ** Termination *)

Lemma find_squote_length l w rest :
  find_squote l = Some (w, rest) → (length rest < length l)%nat.
Proof.
  revert w; induction l as [|c l IH]; intros w; simpl; [done|].
  destruct (Ascii.eqb c squote); [intros [= _ ->]; lia|].
  destruct (find_squote l) as [[w' r']|] eqn:E; [|done]. intros [= _ ->].
  specialize (IH _ eq_refl). lia.
Qed.

Lemma scan_dquote_cons2 buf c d l :
  scan_dquote buf (c :: d :: l) =
  if Ascii.eqb c bslash && (Ascii.eqb d dquote || Ascii.eqb d bslash)
  then scan_dquote (buf ++ [d]) l
  else if Ascii.eqb c dquote then Some (buf, d :: l)
  else scan_dquote (buf ++ [c]) (d :: l).
Proof. reflexivity. Qed.

Lemma scan_dquote_length buf l w rest :
  scan_dquote buf l = Some (w, rest) → (length rest < length l)%nat.
Proof.
  remember (length l) as n eqn:Hn. revert buf l Hn.
  induction n as [n IH] using lt_wf_ind. intros buf [|c [|d l]] ->; [done| |].
  - simpl. destruct (Ascii.eqb c dquote); [intros [= _ <-]; simpl; lia|done].
  - rewrite scan_dquote_cons2. destruct (_ && _).
    + intros H. eapply (IH (length l)) in H; simpl; [lia|lia|done].
    + destruct (Ascii.eqb c dquote); [intros [= _ <-]; simpl; lia|].
      intros H. eapply (IH (S (length l))) in H; simpl; [lia|lia|done].
Qed.

Lemma scan_step_length st c l : (length (scan_step st c l).2 ≤ length l)%nat.
Proof.
  destruct l as [|d l]; [done|]. unfold scan_step.
  destruct (Ascii.eqb c bslash); [simpl; lia|].
  destruct (Ascii.eqb c squote).
  - destruct (find_squote (d :: l)) as [[w r]|] eqn:E; cbn [snd]; [|done].
    apply find_squote_length in E. lia.
  - destruct (Ascii.eqb c dquote); [|done].
    destruct (scan_dquote [] (d :: l)) as [[w r]|] eqn:E; cbn [snd]; [|done].
    apply scan_dquote_length in E. lia.
Qed.

(** Fuel for every character is enough, and more changes nothing. *)
Lemma scan_loop_enough fuel st l :
  (length l ≤ fuel)%nat →
  is_Some (scan_loop fuel st l) ∧ scan_loop fuel st l = scan_loop (length l) st l.
Proof.
  remember (length l) as n eqn:Hn. revert fuel st l Hn.
  induction n as [n IH] using lt_wf_ind. intros fuel st l Hn Hf.
  destruct l as [|c l]; [subst; destruct fuel; simpl; eauto|].
  destruct fuel as [|fuel]; [simpl in *; lia|]. subst n. simpl in *.
  pose proof (scan_step_length st c l) as Hl. destruct (scan_step st c l) as [st' rest]; simpl in Hl.
  destruct (IH (length rest) ltac:(lia) fuel st' rest eq_refl ltac:(lia)) as [Hs ->].
  destruct (IH (length rest) ltac:(lia) (length l) st' rest eq_refl ltac:(lia)) as [_ ->].
  split; [|done].
  by destruct (IH (length rest) ltac:(lia) (length rest) st' rest eq_refl ltac:(lia)).
Qed.

(** The scan as an equation without fuel. *)
Definition scan_all (st : scan) (l : list ascii) : list (list ascii) :=
  default [] (scan_loop (length l) st l).

Lemma scan_all_nil st : scan_all st [] = flush st.
Proof. reflexivity. Qed.

Lemma scan_all_cons st c l :
  scan_all st (c :: l) = let '(st', rest) := scan_step st c l in scan_all st' rest.
Proof.
  unfold scan_all. simpl. pose proof (scan_step_length st c l) as Hl.
  destruct (scan_step st c l) as [st' rest]; simpl in Hl.
  by destruct (scan_loop_enough (length l) st' rest Hl) as [_ ->].
Qed.

Lemma split_shell_words_eq text : split_shell_words text = map str (scan_all scan0 (chars text)).
Proof. reflexivity. Qed.

(** The loop of [split_shell_words] ends: one iteration per character is
    always enough, and the words do not depend on the fuel. *)
Theorem split_shell_words_terminates text fuel :
  (len text ≤ fuel)%nat →
  scan_loop fuel scan0 (chars text) = Some (map chars (split_shell_words text)).
Proof.
  rewrite len_chars. intros Hf. unfold split_shell_words.
  destruct (scan_loop_enough fuel scan0 (chars text) Hf) as [Hs He]. rewrite <- He.
  destruct Hs as [ws ->]. simpl. f_equal. rewrite map_map.
  rewrite (map_ext _ (λ w, w)); [by rewrite map_id|apply chars_str].
Qed.

(** ** Quoting

    The words written between double quotes, with the two escapes the quotes
    know, separated by spaces. *)
Definition escape (w : list ascii) : list ascii :=
  w ≫= λ c, if Ascii.eqb c dquote || Ascii.eqb c bslash then [bslash; c] else [c].
Definition quote_word (w : string) : string :=
  str (dquote :: escape (chars w) ++ [dquote]).

Lemma escape_cons c w :
  escape (c :: w) = (if Ascii.eqb c dquote || Ascii.eqb c bslash then [bslash; c] else [c]) ++ escape w.
Proof. reflexivity. Qed.

#[local] Arguments scan_dquote : simpl never.

Lemma scan_dquote_end buf rest : scan_dquote buf (dquote :: rest) = Some (buf, rest).
Proof. by destruct rest. Qed.

Lemma scan_dquote_esc buf c l :
  Ascii.eqb c dquote || Ascii.eqb c bslash = true →
  scan_dquote buf (bslash :: c :: l) = scan_dquote (buf ++ [c]) l.
Proof. intros H. by rewrite scan_dquote_cons2, H. Qed.

Lemma scan_dquote_other buf c l :
  c ≠ bslash → c ≠ dquote → scan_dquote buf (c :: l) = scan_dquote (buf ++ [c]) l.
Proof.
  intros Hb Hd. apply Ascii.eqb_neq in Hb, Hd.
  destruct l as [|d l]; [unfold scan_dquote; by rewrite Hd|]. by rewrite scan_dquote_cons2, Hb, Hd.
Qed.

Lemma scan_dquote_escape buf w rest :
  scan_dquote buf (escape w ++ dquote :: rest) = Some (buf ++ w, rest).
Proof.
  revert buf; induction w as [|c w IH]; intros buf.
  { simpl. by rewrite app_nil_r, scan_dquote_end. }
  rewrite escape_cons. destruct (Ascii.eqb c dquote || Ascii.eqb c bslash) eqn:E; simpl.
  - rewrite scan_dquote_esc, IH by done. by rewrite <- app_assoc.
  - apply orb_false_elim in E as [Hd%Ascii.eqb_neq Hb%Ascii.eqb_neq].
    rewrite scan_dquote_other, IH by done. by rewrite <- app_assoc.
Qed.

Lemma scan_all_quoted st w rest :
  scan_all st (dquote :: escape w ++ dquote :: rest) = scan_all (extend st w) rest.
Proof.
  rewrite scan_all_cons. unfold scan_step.
  pose proof (scan_dquote_escape [] w rest) as H. rewrite app_nil_l in H.
  destruct (escape w ++ dquote :: rest) as [|d l] eqn:E; [by destruct (escape w)|].
  rewrite H. reflexivity.
Qed.

Lemma scan_all_space st rest :
  scan_all st (" "%char :: rest) = scan_all (Scan (flush st) [] false) rest.
Proof. rewrite scan_all_cons. by destruct rest. Qed.

Lemma chars_quote_word w : chars (quote_word w) = dquote :: escape (chars w) ++ [dquote].
Proof. unfold quote_word. by rewrite chars_str. Qed.

Lemma scan_all_joined ws w W :
  scan_all (Scan W [] false) (chars (join " " (map quote_word (w :: ws)))) =
  W ++ map chars (w :: ws).
Proof.
  revert w W; induction ws as [|w' ws IH]; intros w W.
  - cbn [map join]. rewrite chars_quote_word, scan_all_quoted. reflexivity.
  - change (join " " (map quote_word (w :: w' :: ws)))
      with (quote_word w +:+ " " +:+ join " " (map quote_word (w' :: ws))).
    rewrite !chars_app, chars_quote_word, <- app_comm_cons, <- app_assoc.
    change ([dquote] ++ ?x) with (dquote :: x). rewrite scan_all_quoted.
    change (chars " " ++ ?x) with (" "%char :: x). rewrite scan_all_space, IH.
    cbn [flush in_word words current extend]. by rewrite <- app_assoc.
Qed.

Lemma map_str_chars ws : map str (map chars ws) = ws.
Proof. rewrite map_map, (map_ext _ (λ w, w)); [apply map_id|apply str_chars]. Qed.

(** Quoting and splitting are inverse: any list of words, whatever
    characters they have (spaces, quotes, backslashes, none at all), written
    between double quotes with the double quote and the backslash escaped, and
    separated by spaces, is split into exactly these words. *)
Theorem split_shell_words_quoted (ws : list string) :
  split_shell_words (join " " (map quote_word ws)) = ws.
Proof.
  destruct ws as [|w ws]; [done|].
  rewrite split_shell_words_eq. unfold scan0. rewrite scan_all_joined. apply map_str_chars.
Qed.

(** ** Unquoted text *)

Definition count (c : ascii) (l : list ascii) : nat := length (filter (λ d, d = c) l).

Lemma count_cons c d l : count c (d :: l) = ((if decide (d = c) then 1 else 0) + count c l)%nat.
Proof. unfold count. rewrite filter_cons. by case_decide. Qed.

Lemma find_squote_None l : count squote l = 0%nat → find_squote l = None.
Proof.
  induction l as [|c l IH]; [done|]. rewrite count_cons. simpl. case_decide; [lia|].
  intros H'. rewrite (proj2 (Ascii.eqb_neq c squote)) by done. by rewrite IH by lia.
Qed.

Lemma scan_dquote_None buf l :
  count dquote l = 0%nat → bslash ∉ l → scan_dquote buf l = None.
Proof.
  revert buf; induction l as [|c l IH]; intros buf; [done|]. rewrite count_cons.
  case_decide; [lia|]. intros H' Hb. rewrite scan_dquote_other by set_solver.
  apply IH; [lia|set_solver].
Qed.

(** Text without backslash in which no quote occurs twice. *)
Definition unquoted (l : list ascii) : Prop :=
  (bslash ∉ l) ∧ (count squote l ≤ 1)%nat ∧ (count dquote l ≤ 1)%nat.

Lemma unquoted_tail c l : unquoted (c :: l) → unquoted l.
Proof.
  unfold unquoted. rewrite !count_cons. intros (Hb & Hs & Hd).
  split; [set_solver|lia].
Qed.

Lemma scan_step_unquoted st c l : unquoted (c :: l) → scan_step st c l = (plain st c, l).
Proof.
  unfold unquoted, scan_step. rewrite !count_cons. intros (Hb & Hs & Hd).
  destruct l as [|d l]; [done|].
  destruct (Ascii.eqb_spec c bslash); [set_solver|].
  destruct (Ascii.eqb_spec c squote) as [->|].
  { rewrite decide_True in Hs by done. by rewrite find_squote_None by lia. }
  destruct (Ascii.eqb_spec c dquote) as [->|]; [|done].
  rewrite decide_True in Hd by done. rewrite scan_dquote_None; [done|lia|set_solver].
Qed.

Lemma scan_all_unquoted st l :
  unquoted l → in_word st = match current st with [] => false | _ => true end →
  scan_all st l = words st ++ words_chars (current st) l.
Proof.
  revert st; induction l as [|c l IH]; intros st Hu Hst.
  - rewrite scan_all_nil. unfold flush. rewrite Hst. simpl.
    destruct (current st); simpl; [by rewrite app_nil_r|done].
  - rewrite scan_all_cons, scan_step_unquoted by done. apply unquoted_tail in Hu as Hu'.
    unfold plain. simpl words_chars. destruct (is_space c).
    + rewrite IH by done. simpl. unfold flush. rewrite Hst.
      destruct (current st); simpl; [done|]. by rewrite <- app_assoc.
    + rewrite IH; [done|done|]. unfold extend; simpl. by destruct (current st).
Qed.

(** On text without backslashes in which no kind of quote occurs twice the
    function is Python's [str.split()]; in particular a quote without a closing
    one is plain text. *)
Theorem split_shell_words_unquoted text :
  unquoted (chars text) → split_shell_words text = split_ws text.
Proof. intros H. rewrite split_shell_words_eq. by rewrite scan_all_unquoted. Qed.

Lemma split_shell_words_unquoted_witness :
  split_shell_words "it's  a test" = ["it's"; "a"; "test"].
Proof.
  transitivity (split_ws "it's  a test"); [|reflexivity].
  apply split_shell_words_unquoted.
  split; [apply (bool_decide_unpack _); vm_compute; exact I|vm_compute; lia].
Defined.

Example split_ex1 : split_shell_words "cp 'a b' e\ f g' h" = ["cp"; "a b"; "e f"; "g'"; "h"].
Proof. reflexivity. Qed.

Lemma split_shell_words_terminates_witness :
  scan_loop 9 scan0 (chars "a 'b c' d") = Some (map chars ["a"; "b c"; "d"]).
Proof. apply (split_shell_words_terminates "a 'b c' d" 9). vm_compute. lia. Defined.
