(* ===== verification/Permissions.v ===== *)
(** * Permissions ([permissions.py], [covers] and [uncovered] of [auth_service.py])

    Permission strings are split at colons; a grant is matched against a
    requirement segment by segment.  The theorems give the meaning of a match,
    say when holding patterns that cover other patterns is enough to hold
    everything these grant, and that merging lists is a union. *)

From S2P Require Import Prelude PyStr.
From Stdlib Require Import Ascii.

Definition colon : ascii := ":"%char.

(** The segments of a permission: [p.strip().lower().split(":")]. *)
Definition segments (p : string) : list string := split colon (lower (strip p)).

(** The loop of [permission_matches] over [enumerate(g)], with [r] the segments
    of the requirement from the same index on. *)
Fixpoint match_segments (g r : list string) : bool :=
  match g with
  | [] => bool_decide (r = [])
  | seg :: g' =>
      if bool_decide (seg = "*") && bool_decide (g' = []) then true
      else match r with
           | [] => false
           | x :: r' =>
               if negb (bool_decide (seg = "*")) && negb (bool_decide (seg = x)) then false
               else match_segments g' r'
           end
  end.

Definition permission_matches (granted required : string) : bool :=
  match_segments (segments granted) (segments required).

Definition has_permission (granted : list string) (required : string) : bool :=
  existsb (λ p, permission_matches p required) granted.

Definition covers (granted required : list string) : bool :=
  forallb (has_permission granted) required.

Definition uncovered (granted required : list string) : list string :=
  filter (λ p, has_permission granted p = false) required.

(** [merge_permissions]: the two nested loops, with [seen] and [out]. *)
Fixpoint merge_list (seen out : list string) (l : list string) : list string * list string :=
  match l with
  | [] => (seen, out)
  | p :: l =>
      let key := strip p in
      if truthy key && negb (bool_decide (lower key ∈ seen))
      then merge_list (lower key :: seen) (out ++ [key]) l
      else merge_list seen out l
  end.

Fixpoint merge_lists (seen out : list string) (lists : list (list string)) : list string :=
  match lists with
  | [] => out
  | l :: lists => let '(seen, out) := merge_list seen out l in merge_lists seen out lists
  end.

Definition merge_permissions (lists : list (list string)) : list string := merge_lists [] [] lists.

(** ** The meaning of a match *)

(** A granted segment accepts a required one. *)
Definition seg_ok (s x : string) : Prop := s = "*" ∨ s = x.

#[export] Instance seg_ok_dec s x : Decision (seg_ok s x).
Proof. unfold seg_ok. apply _. Defined.

(** Either segment by segment, or up to a last [*]. *)
Definition matches_spec (g r : list string) : Prop :=
  Forall2 seg_ok g r ∨
  ∃ p, g = p ++ ["*"] ∧ (length p ≤ length r)%nat ∧ Forall2 seg_ok p (take (length p) r).

Lemma match_segments_star r : match_segments ["*"] r = true.
Proof. reflexivity. Qed.

Lemma match_segments_cons s g x r :
  s ≠ "*" ∨ g ≠ [] →
  match_segments (s :: g) (x :: r) = bool_decide (seg_ok s x) && match_segments g r.
Proof.
  intros H. simpl. unfold seg_ok. repeat case_bool_decide; naive_solver.
Qed.

Lemma match_segments_nil_r s g :
  match_segments (s :: g) [] = bool_decide (s = "*" ∧ g = []).
Proof. simpl. repeat case_bool_decide; naive_solver. Qed.

Lemma match_segments_spec g r : match_segments g r = true ↔ matches_spec g r.
Proof.
  unfold matches_spec. revert r; induction g as [|s g IH]; intros r.
  { simpl. rewrite bool_decide_eq_true. split; [intros ->; by left; constructor|].
    intros [H|[p [H _]]]; [by inversion H|by destruct p]. }
  destruct (decide (s = "*" ∧ g = [])) as [[-> ->]|Hs].
  { split; [|done]. intros _. right. exists []. split; [done|]. split; [simpl; lia|constructor]. }
  destruct r as [|x r].
  { rewrite match_segments_nil_r, bool_decide_eq_true. split; [naive_solver|].
    intros [H|[[|s' p] [H [Hl _]]]]; [by inversion H|naive_solver|simpl in Hl; lia]. }
  rewrite match_segments_cons by (destruct (decide (s = "*")); naive_solver).
  rewrite andb_true_iff, bool_decide_eq_true, IH. split.
  - intros [Hsx [H|[p [-> [Hl Hp]]]]]; [left; by constructor|right].
    exists (s :: p). split; [done|]. split; [simpl; lia|]. by constructor.
  - intros [H|[[|s' p] [Heq [Hl Hp]]]]; [inversion H; naive_solver|naive_solver|].
    simplify_eq/=. inversion Hp; subst. split; [done|]. right. exists p.
    split; [done|]. split; [lia|done].
Qed.

Lemma permission_matches_iff granted required :
  permission_matches granted required = true ↔
  matches_spec (segments granted) (segments required).
Proof. apply match_segments_spec. Qed.

(** C0: [permission_matches] holds exactly when the granted segments accept the
    required ones position by position ([*] accepts one segment), or do so up
    to a trailing [*] of the grant, which accepts everything below. *)
Theorem permission_matches_spec granted required :
  permission_matches granted required = true ↔
  matches_spec (segments granted) (segments required).
Proof. apply match_segments_spec. Qed.

(** ** Holding patterns *)

Lemma Forall2_seg_ok_lookup p r :
  (length p ≤ length r)%nat →
  Forall2 seg_ok p (take (length p) r) ↔ ∀ i s x, p !! i = Some s → r !! i = Some x → seg_ok s x.
Proof.
  intros Hl. rewrite Forall2_same_length_lookup, length_take. split.
  - intros [_ H] i s x Hs Hx. apply (H i); [done|]. rewrite lookup_take.
    rewrite decide_True; [done|]. by eapply lookup_lt_Some.
  - intros H. split; [lia|]. intros i s x Hs Hx. rewrite lookup_take in Hx.
    case_decide; [|done]. by eapply H.
Qed.

(** A match read by position. *)
Lemma matches_spec_lookup g r :
  matches_spec g r ↔
  (∀ i s x, g !! i = Some s → r !! i = Some x → seg_ok s x) ∧
  (length g = length r ∨ (last g = Some "*" ∧ (length g ≤ S (length r))%nat)) ∨
  (last g = Some "*" ∧ (length g ≤ S (length r))%nat ∧
   ∀ i s x, (S i < length g)%nat → g !! i = Some s → r !! i = Some x → seg_ok s x).
Proof.
  unfold matches_spec. split.
  - intros [H|[p [-> [Hl H]]]].
    + left. apply Forall2_same_length_lookup in H as [Hl H]. naive_solver.
    + right. rewrite last_snoc, length_app. simpl. repeat split; [lia|].
      rewrite Forall2_seg_ok_lookup in H by done. intros i s x Hi Hs Hx.
      apply (H i); [|done]. rewrite lookup_app_l in Hs by lia. done.
  - assert (∀ q, last q = Some "*" → (length q ≤ S (length r))%nat →
      (∀ i s x, (S i < length q)%nat → q !! i = Some s → r !! i = Some x → seg_ok s x) →
      ∃ p, q = p ++ ["*"] ∧ (length p ≤ length r)%nat ∧ Forall2 seg_ok p (take (length p) r)) as Hstar.
    { intros q [p ->]%last_Some Hl H. exists p. rewrite length_app in *. simpl in *.
      split; [done|]. split; [lia|]. rewrite Forall2_seg_ok_lookup by lia. intros i s x Hs Hx.
      pose proof (lookup_lt_Some _ _ _ Hs). apply (H i); [lia| |done]. by rewrite lookup_app_l by lia. }
    intros [[H [Hl|[Hs Hl]]]|(Hs & Hl & H)]; [left|right..].
    + by apply Forall2_same_length_lookup.
    + apply Hstar; [done|done|]. intros; by eapply H.
    + by apply Hstar.
Qed.

(** The characterisation used for composing matches: either the grant ends in
    [*] and the positions before it are accepted, or every position is. *)
Lemma matches_spec_iff g r :
  matches_spec g r ↔
  (last g = Some "*" ∧ (length g ≤ S (length r))%nat ∧
   ∀ i s x, (S i < length g)%nat → g !! i = Some s → r !! i = Some x → seg_ok s x) ∨
  (last g ≠ Some "*" ∧ length g = length r ∧
   ∀ i s x, g !! i = Some s → r !! i = Some x → seg_ok s x).
Proof.
  rewrite matches_spec_lookup. split.
  - destruct (decide (last g = Some "*")) as [Hs|Hs]; [left|right].
    + destruct H as [[H [Hl|[_ Hl]]]|(_ & Hl & H)]; (split; [done|]; split; [lia|]); eauto.
    + naive_solver.
  - naive_solver.
Qed.

Lemma segments_ne p : segments p ≠ [].
Proof. apply split_ne. Qed.

(** A star accepts everything, an accepted segment is passed on. *)
Lemma seg_ok_trans s x y : seg_ok s x → seg_ok x y → seg_ok s y.
Proof. intros [->| ->] [->| ->]; unfold seg_ok; auto. Qed.

(** Composition at a position that the grant decides. *)
Lemma matches_spec_pos g r t i s x y :
  matches_spec g r → matches_spec r t →
  g !! i = Some s → r !! i = Some x → t !! i = Some y → seg_ok s x → seg_ok s y.
Proof.
  intros Hgr Hrt Hs Hx Hy Hsx. apply matches_spec_iff in Hrt as [(Hl & _ & H)|(_ & _ & H)].
  - destruct (decide (S i < length r)%nat); [eauto using seg_ok_trans|].
    rewrite last_lookup in Hl. pose proof (lookup_lt_Some _ _ _ Hx).
    replace (pred (length r)) with i in Hl by lia. simplify_eq.
    destruct Hsx as [->| ->]; by left.
  - eauto using seg_ok_trans.
Qed.

(** Matches compose when the outer grant is at most one segment longer than
    what is asked. *)
Lemma matches_spec_trans g r t :
  (length g ≤ S (length t))%nat → g ≠ [] →
  matches_spec g r → matches_spec r t → matches_spec g t.
Proof.
  intros Hlen Hg Hgr Hrt. pose proof (λ i s x y, matches_spec_pos g r t i s x y Hgr Hrt) as Hpos.
  apply matches_spec_iff in Hgr as [(Hs & Hl & H)|(Hs & Hl & H)]; apply matches_spec_iff.
  - left. split; [done|]. split; [done|]. intros i s y Hi Hgi Hti.
    destruct (lookup_lt_is_Some_2 r i) as [x Hx]; [lia|]. eauto.
  - right. split; [done|]. assert (last r ≠ Some "*") as Hsr.
    { intros Hsr. apply Hs. rewrite last_lookup in Hsr |- *. rewrite <- Hl in Hsr.
      destruct (lookup_lt_is_Some_2 g (pred (length g))) as [s Hgs].
      { destruct g; [done|simpl; lia]. }
      rewrite Hgs. destruct (H _ _ _ Hgs Hsr) as [->| ->]; done. }
    apply matches_spec_iff in Hrt as [(? & _)|(_ & Hl' & _)]; [done|]. split; [lia|].
    intros i s y Hgi Hti. destruct (lookup_lt_is_Some_2 r i) as [x Hx]; [|by eauto].
    rewrite Hl'. by eapply lookup_lt_Some.
Qed.

(** Every [*] of the pattern is its last segment. *)
Definition tail_wild (g : list string) : Prop :=
  ∀ i, g !! i = Some "*" → S i = length g.

Lemma tail_wild_length g r t :
  r ≠ [] → tail_wild g →
  matches_spec g r → matches_spec r t → (length g ≤ S (length t))%nat.
Proof.
  intros Hr Hw Hgr Hrt. apply matches_spec_iff in Hrt as [(Hsr & Hl' & _)|(_ & Hl' & _)].
  2: { apply matches_spec_iff in Hgr as [(_ & ? & _)|(_ & ? & _)]; lia. }
  apply matches_spec_iff in Hgr as [(Hs & Hl & H)|(_ & ? & _)]; [|lia].
  destruct (decide (length g ≤ length r)%nat); [lia|]. exfalso.
  rewrite last_lookup in Hsr. assert (0 < length r)%nat by (destruct r; [done|simpl; lia]).
  destruct (lookup_lt_is_Some_2 g (pred (length r))) as [s Hsg]; [lia|].
  destruct (H (pred (length r)) s "*" ltac:(lia) Hsg Hsr) as [->| ->]; apply Hw in Hsg; lia.
Qed.

Definition tail_wild_permission (p : string) : Prop := tail_wild (segments p).

(** Holding a pattern is holding what it grants. *)
Lemma has_permission_through granted q p :
  Forall tail_wild_permission granted →
  has_permission granted q = true → permission_matches q p = true →
  has_permission granted p = true.
Proof.
  unfold has_permission. rewrite Forall_forall, !existsb_exists.
  intros Hw [g [Hg Hgq]] Hqp. exists g. split; [done|].
  apply permission_matches_iff in Hgq, Hqp. apply permission_matches_iff.
  pose proof (segments_ne g). pose proof (segments_ne q).
  eapply matches_spec_trans; eauto. eapply tail_wild_length; eauto.
  by apply Hw, list_elem_of_In.
Qed.

(** A caller that holds every pattern of [required] (what the server checks
    before it lets one user act on another or grant permissions) holds every
    permission that [required] grants, provided the caller's own patterns use
    [*] only as the last segment. *)
Theorem covers_sound granted required p :
  Forall tail_wild_permission granted →
  covers granted required = true →
  has_permission required p = true → has_permission granted p = true.
Proof.
  unfold covers. rewrite forallb_forall. unfold has_permission at 2. rewrite existsb_exists.
  intros Hw Hc [r [Hr Hrp]]. eapply has_permission_through; eauto.
Qed.

Lemma covers_sound_witness :
  has_permission ["users:*"; "AUDIT:read"] "users:read" = true.
Proof.
  apply (covers_sound _ ["users:read"; " audit:read"]); [|reflexivity..].
  repeat constructor; intros [|[|i]]; vm_compute; naive_solver.
Defined.

(** Without that proviso it fails: [a:*:*] covers [a:*], which grants [a],
    and [a:*:*] does not grant [a]. *)
Theorem covers_not_sound :
  covers ["a:*:*"] ["a:*"] = true ∧
  has_permission ["a:*"] "a" = true ∧ has_permission ["a:*:*"] "a" = false.
Proof. split_and!; reflexivity. Qed.

(** ** Merging *)

Lemma permission_matches_key p q r :
  lower (strip p) = lower (strip q) → permission_matches p r = permission_matches q r.
Proof. unfold permission_matches, segments. by intros ->. Qed.

(** The invariant of [merge_list]: [seen] is the keys of [out], without
    repetition, and what was consumed is granted by [out] and conversely. *)
Definition merged (seen out l : list string) : Prop :=
  (∀ k, k ∈ seen ↔ k ∈ map lower out) ∧ NoDup (map lower out) ∧
  Forall (λ p, strip p = p ∧ p ≠ "") out ∧
  (∀ r, strip r ≠ "" → has_permission out r = has_permission l r).

Lemma has_permission_app l k r : has_permission (l ++ k) r = has_permission l r || has_permission k r.
Proof. apply existsb_app. Qed.

Lemma matches_blank p r : strip p = "" → strip r ≠ "" → permission_matches p r = false.
Proof.
  intros Hp Hr. unfold permission_matches, segments. rewrite Hp.
  change (split colon (lower "")) with [""].
  pose proof (split_ne colon (lower (strip r))) as Hne.
  destruct (split colon (lower (strip r))) as [|x [|y s]] eqn:E; [done| |].
  - rewrite match_segments_cons by (left; done). unfold seg_ok.
    destruct (decide (x = "")) as [->|Hx].
    + exfalso. pose proof (join_split colon (lower (strip r))) as Hj. rewrite E in Hj.
      apply Hr, lower_empty. by rewrite <- Hj.
    + rewrite bool_decide_false by naive_solver. done.
  - rewrite match_segments_cons by (left; done). simpl. apply andb_false_r.
Qed.

Lemma merged_skip seen out l p :
  merged seen out l → (strip p = "" ∨ lower (strip p) ∈ seen) → merged seen out (l ++ [p]).
Proof.
  intros (Hs & Hn & Hf & Hp) Hskip. split_and!; [done..|]. intros r Hr.
  rewrite has_permission_app, <- Hp by done. simpl. rewrite orb_false_r.
  destruct Hskip as [Hb|Hin]; [by rewrite matches_blank, orb_false_r|].
  apply Hs, list_elem_of_In, in_map_iff in Hin as [q [Hq Hin]].
  destruct (permission_matches p r) eqn:E; [|by rewrite orb_false_r].
  rewrite orb_true_r. apply existsb_exists. exists q. split; [done|].
  rewrite <- E. apply permission_matches_key. rewrite Forall_forall in Hf.
  destruct (Hf q) as [-> _]; [by apply list_elem_of_In|done].
Qed.

Lemma merged_add seen out l p :
  merged seen out l → strip p ≠ "" → lower (strip p) ∉ seen →
  merged (lower (strip p) :: seen) (out ++ [strip p]) (l ++ [p]).
Proof.
  intros (Hs & Hn & Hf & Hp) Hne Hnew. split_and!.
  - intros k. rewrite map_app, elem_of_app, elem_of_cons, Hs. simpl. set_solver.
  - rewrite map_app. apply NoDup_app. split; [done|]. simpl.
    split; [|apply NoDup_singleton]. intros k Hk. rewrite list_elem_of_singleton.
    intros ->. by apply Hnew, Hs.
  - apply Forall_app. split; [done|]. repeat constructor; [by rewrite strip_idemp|done].
  - intros r Hr. rewrite !has_permission_app, Hp by done. simpl. f_equal. f_equal.
    apply permission_matches_key. by rewrite strip_idemp.
Qed.

Lemma merge_list_merged l k seen out :
  merged seen out l →
  merged (merge_list seen out k).1 (merge_list seen out k).2 (l ++ k).
Proof.
  revert l seen out; induction k as [|p k IH]; intros l seen out H; [by rewrite app_nil_r|].
  simpl. rewrite (app_assoc l [p] k : l ++ p :: k = _).
  destruct (truthy (strip p)) eqn:Ht; simpl; [|apply IH, merged_skip; [done|]].
  - apply truthy_spec in Ht. case_bool_decide; simpl; apply IH;
      [by apply merged_skip; auto|by apply merged_add].
  - left. apply dec_stable. intros Hne. apply truthy_spec in Hne. congruence.
Qed.

Lemma merge_lists_merged l lists seen out :
  merged seen out l → ∃ seen', merged seen' (merge_lists seen out lists) (l ++ concat lists).
Proof.
  revert l seen out; induction lists as [|k lists IH]; intros l seen out H.
  { exists seen. by rewrite app_nil_r. }
  simpl. apply (merge_list_merged l k) in H. destruct (merge_list seen out k) as [seen' out'].
  apply IH in H. by rewrite <- app_assoc in H.
Qed.

Lemma merge_permissions_merged lists :
  ∃ seen, merged seen (merge_permissions lists) (concat lists).
Proof.
  apply (merge_lists_merged [] lists [] []). split_and!; [done|constructor|constructor|done].
Qed.

(** What is merged is still there, but for its case and surrounding space. *)
Lemma merge_list_keys l seen out :
  (∀ k, k ∈ seen → k ∈ map lower out) →
  let '(seen', out') := merge_list seen out l in
  (∀ k, k ∈ seen' → k ∈ map lower out') ∧ (∀ k, k ∈ seen → k ∈ seen') ∧
  ∀ q, q ∈ l → strip q ≠ "" → lower (strip q) ∈ seen'.
Proof.
  revert seen out. induction l as [|p l IH]; intros seen out Hs; simpl; [set_solver|].
  destruct (truthy (strip p) && negb (bool_decide (lower (strip p) ∈ seen))) eqn:Hc.
  - specialize (IH (lower (strip p) :: seen) (out ++ [strip p])).
    destruct (merge_list _ _ l) as [seen' out']. destruct IH as (H1 & H2 & H3).
    { intros k [->|Hk]%elem_of_cons; rewrite map_app; set_solver. }
    split_and!; [done|set_solver|]. intros q [->|Hq]%elem_of_cons Hne; [set_solver|auto].
  - specialize (IH seen out Hs). destruct (merge_list seen out l) as [seen' out'].
    destruct IH as (H1 & H2 & H3). split_and!; [done..|].
    intros q [->|Hq]%elem_of_cons Hne; [|auto]. apply H2.
    apply andb_false_iff in Hc as [Hc|Hc].
    + apply truthy_spec in Hne. congruence.
    + by apply negb_false_iff, bool_decide_eq_true in Hc.
Qed.

Lemma merge_lists_keys lists seen out :
  (∀ k, k ∈ seen → k ∈ map lower out) →
  (∀ k, k ∈ seen → k ∈ map lower (merge_lists seen out lists)) ∧
  ∀ q, q ∈ concat lists → strip q ≠ "" → lower (strip q) ∈ map lower (merge_lists seen out lists).
Proof.
  revert seen out. induction lists as [|l lists IH]; intros seen out Hs; simpl; [set_solver|].
  pose proof (merge_list_keys l seen out Hs) as Hl. destruct (merge_list seen out l) as [seen' out'].
  destruct Hl as (H1 & H2 & H3). destruct (IH seen' out' H1) as [H4 H5]. split; [auto|].
  intros q [Hq|Hq]%elem_of_app Hne; auto.
Qed.

Lemma merge_permissions_keys lists q :
  q ∈ concat lists → strip q ≠ "" → ∃ q', q' ∈ merge_permissions lists ∧ lower (strip q) = lower q'.
Proof.
  intros Hq Hne. destruct (merge_lists_keys lists [] []) as [_ H]; [set_solver|].
  specialize (H q Hq Hne). apply list_elem_of_In, in_map_iff in H as (q' & ? & ?).
  exists q'. split; [by apply list_elem_of_In|done].
Qed.

(** Merging permission lists is their union: a (non-blank) permission is
    granted by the merged list exactly when one of the lists grants it. *)
Theorem merge_permissions_union lists r :
  strip r ≠ "" →
  has_permission (merge_permissions lists) r = existsb (λ l, has_permission l r) lists.
Proof.
  intros Hr. destruct (merge_permissions_merged lists) as [seen (_ & _ & _ & Hp)].
  rewrite Hp by done. clear. induction lists as [|l lists IH]; simpl; [done|].
  by rewrite has_permission_app, IH.
Qed.

Lemma merge_permissions_union_witness :
  has_permission (merge_permissions [["users:read"; " "]; ["USERS:READ "; "jobs:*"]]) "jobs:read" = true.
Proof. rewrite merge_permissions_union; [reflexivity|vm_compute; done]. Defined.

(** The merged list has no two entries that differ only in case and no entry
    with surrounding white space. *)
Lemma merge_permissions_nodup lists :
  NoDup (map lower (merge_permissions lists)) ∧
  Forall (λ p, strip p = p ∧ p ≠ "") (merge_permissions lists).
Proof. by destruct (merge_permissions_merged lists) as [seen (_ & ? & ? & _)]. Qed.

Example merge_ex :
  merge_permissions [["a:read"; ""]; [" A:Read"; "b"]] = ["a:read"; "b"].
Proof. reflexivity. Qed.
