(* ===== verification/Commands.v ===== *)
(** * Commands, paging and the command registry

    [cli_process_command.py], [cli_paging.py], [cli_command_processor.py],
    [cli_command_registry.py] and the permission check of the execute routes
    ([_chain_processors], [_permission_denied] of [cli_controller.py] and
    [missing_processor_permissions] of [security.py]).

    A processor is host code: its handlers are methods of the host's own state
    [World], a parameter of every definition here. *)

From S2P Require Import Prelude PyStr Values ShellWords.
From Stdlib Require Import Ascii.

Record CliProcessCommand := {
  command : string;
  raw_command : string;
  value : option string;
  args : dict string pyval;
  chain_commands : list string;
  data : pyval;
  positionals : option (list string);
}.

(** ** Positional arguments ([shell_words.py]) *)

Definition get_positionals (c : CliProcessCommand) : list string :=
  match positionals c with
  | Some ps => ps
  | None => split_shell_words (or_empty (value c))
  end.

Definition get_positional_text (c : CliProcessCommand) : string := join " " (get_positionals c).

(** ** Paging ([cli_paging.py]) *)

Definition DEFAULT_TAKE : Z := 50.
Definition MAX_TAKE : Z := 500.

Record CliPageRequest := { skip : Z; take : Z }.

Definition _read_int (c : CliProcessCommand) (name : string) : option Z :=
  match dict_get name (args c) with
  | None | Some VNone | Some (VBool _) => None
  | Some (VInt z) => Some z
  | Some v => int_of_value v
  end.

(** [CliPaging.from_command]; the [None] command raises [ValueError]. *)
Definition from_command (c : option CliProcessCommand) (default_take : Z) : option CliPageRequest :=
  match c with
  | None => None
  | Some c =>
      let s := _read_int c "skip" in
      let t := _read_int c "take" in
      Some {| skip := match s with Some s => Z.max s 0 | None => 0 end;
              take := Z.min match t with
                            | Some t => if 0 <? t then t else default_take
                            | None => default_take
                            end MAX_TAKE |}
  end.

(** A page request never skips a negative number of rows nor takes more
    than [MAX_TAKE]; it takes at least one row when the default does; and in
    range integer arguments are taken as they are. *)
Theorem from_command_bounds c default_take :
  ∃ p, from_command (Some c) default_take = Some p ∧
    0 ≤ skip p ∧ take p ≤ MAX_TAKE ∧
    (1 ≤ default_take → 1 ≤ take p) ∧
    (∀ s, _read_int c "skip" = Some s → 0 ≤ s → skip p = s) ∧
    (∀ t, _read_int c "take" = Some t → 1 ≤ t ≤ MAX_TAKE → take p = t) ∧
    (_read_int c "skip" = None → skip p = 0) ∧
    (∀ t, _read_int c "take" = Some t → t ≤ 0 → take p = Z.min default_take MAX_TAKE).
Proof.
  eexists; split; [reflexivity|]. unfold MAX_TAKE. simpl.
  destruct (_read_int c "skip") as [s|], (_read_int c "take") as [t|]; simpl;
    repeat match goal with |- context [?a <? ?b] => destruct (Z.ltb_spec a b) end;
    split_and!; intros; simplify_eq; lia.
Qed.

(** ** Exceptions of host code

    [except Exception] catches [Exn] and lets a cancellation through. *)
Inductive exn := Exn (msg : string) | Cancelled.

(** ** Processors ([cli_command_processor.py]) *)

(** [cli_command_parameter_descriptor.py] *)
Record CliCommandParameterDescriptor := {
  d_name : string;
  d_description : string;
  d_required : bool;
  d_type : string;
  d_aliases : option (list string);
  d_default_value : pyval;
}.

Section Commands.
Context {World Response : Type}.

(** The members of [ICliCommandProcessor] the server reads, and its two
    handlers; [None] of the structured one is [_STRUCTURED_NOT_IMPLEMENTED]. *)
Record ProcessorInfo := {
  p_command : string;
  p_description : string;
  p_version : string;
  p_allow_unlisted_commands : option bool;
  p_value_required : option bool;
  p_parameters : option (list CliCommandParameterDescriptor);
  p_required_permissions : option (list string);
  p_handle_async : CliProcessCommand → py World exn string;
  p_handle_structured_async : CliProcessCommand → py World exn (option Response);
}.

Inductive ICliCommandProcessor :=
| Processor (info : ProcessorInfo) (subs : option (list ICliCommandProcessor)).

Definition info (p : ICliCommandProcessor) : ProcessorInfo := let 'Processor i _ := p in i.
(** [current.processors], [None] and the empty list alike *)
Definition processors (p : ICliCommandProcessor) : list ICliCommandProcessor :=
  let 'Processor _ s := p in default [] s.
Definition cmd (p : ICliCommandProcessor) : string := p_command (info p).
Definition allow_unlisted (p : ICliCommandProcessor) : bool :=
  default false (p_allow_unlisted_commands (info p)).

(** ** The registry ([cli_command_registry.py]) *)

Definition CliCommandRegistry := dict string ICliCommandProcessor.

Definition registry_processors (r : CliCommandRegistry) : list ICliCommandProcessor := dict_values r.

Definition register (p : ICliCommandProcessor) (r : CliCommandRegistry) : CliCommandRegistry :=
  dict_set (lower (cmd p)) p r.

(** [next((p for p in subs if p.command.lower() == sub.lower()), None)] *)
Definition find_sub (subs : list ICliCommandProcessor) (sub : string) : option ICliCommandProcessor :=
  List.find (λ p, bool_decide (lower (cmd p) = lower sub)) subs.

Fixpoint _resolve_chain (current : ICliCommandProcessor) (chain : list string)
    : option ICliCommandProcessor :=
  match chain with
  | [] => Some current
  | sub :: chain =>
      match processors current with
      | [] => if allow_unlisted current then Some current else None
      | subs =>
          match find_sub subs sub with
          | None => if allow_unlisted current then Some current else None
          | Some found => _resolve_chain found chain
          end
      end
  end.

(** [find_processor(command, chain)]; no chain and the empty chain are alike. *)
Definition find_processor (r : CliCommandRegistry) (command : string) (chain : list string)
    : option ICliCommandProcessor :=
  match dict_get (lower command) r with
  | None => None
  | Some p =>
      match chain with
      | [] => Some p
      | _ => _resolve_chain p chain
      end
  end.

(** ** Permissions of a command ([cli_controller.py], [security.py]) *)

Fixpoint _chain_processors (root : option ICliCommandProcessor) (chain : list string)
    : list ICliCommandProcessor :=
  match chain with
  | [] => []
  | name :: chain =>
      match root with
      | None => []
      | Some p =>
          match find_sub (processors p) name with
          | Some q => q :: _chain_processors (Some q) chain
          | None => []
          end
      end
  end.

Definition required_permissions (p : ICliCommandProcessor) : list string :=
  default [] (p_required_permissions (info p)).

(** [missing_processor_permissions(ctx, *processors)]: [can] is the caller's
    [ctx.can], [None] when there is no auth context. *)
Definition missing_of (can : string → bool) (missing : list string) (perms : list string)
    : list string :=
  foldl (λ acc perm,
    if negb (can perm) && negb (bool_decide (perm ∈ acc)) then acc ++ [perm] else acc)
    missing perms.

Definition missing_processor_permissions (can : option (string → bool))
    (ps : list (option ICliCommandProcessor)) : list string :=
  match can with
  | None => []
  | Some can =>
      foldl (λ acc p, match p with
                      | None => acc
                      | Some p => missing_of can acc (required_permissions p)
                      end) [] ps
  end.

(** [_permission_denied]: [Some missing] is the 403 answer. *)
Definition _permission_denied (r : CliCommandRegistry) (can : option (string → bool))
    (command : string) (chain : list string) : option (list string) :=
  match can with
  | None => None
  | Some _ =>
      let root := find_processor r command [] in
      let resolved := find_processor r command chain in
      match missing_processor_permissions can
              (root :: map Some (_chain_processors root chain) ++ [resolved]) with
      | [] => None
      | missing => Some missing
      end
  end.

(** ** Registry theorems *)

Lemma find_processor_nil r command : find_processor r command [] = dict_get (lower command) r.
Proof. unfold find_processor. by destruct (dict_get (lower command) r). Qed.

(** A registered processor is found under its name in any case, and a
    registration changes no other name. *)
Theorem register_find p r name :
  find_processor (register p r) name [] =
  if decide (lower name = lower (cmd p)) then Some p else find_processor r name [].
Proof.
  rewrite !find_processor_nil. unfold register. case_decide as H.
  - by rewrite H, dict_get_set_eq.
  - by rewrite dict_get_set_ne.
Qed.

(** What resolving a chain means: following sub-commands by name, and stopping
    at the last processor reached when it takes unlisted commands. *)
Inductive resolves : ICliCommandProcessor → list string → ICliCommandProcessor → Prop :=
| resolves_end p : resolves p [] p
| resolves_sub p sub chain q r :
    find_sub (processors p) sub = Some q → resolves q chain r → resolves p (sub :: chain) r
| resolves_unlisted p sub chain :
    find_sub (processors p) sub = None → allow_unlisted p = true → resolves p (sub :: chain) p.

Lemma resolve_chain_cons p sub chain :
  _resolve_chain p (sub :: chain) =
  match find_sub (processors p) sub with
  | None => if allow_unlisted p then Some p else None
  | Some q => _resolve_chain q chain
  end.
Proof. simpl. by destruct (processors p). Qed.

(** The loop of [_resolve_chain] computes exactly this resolution. *)
Theorem resolve_chain_spec p chain q : _resolve_chain p chain = Some q ↔ resolves p chain q.
Proof.
  split.
  - revert p; induction chain as [|sub chain IH]; intros p; [intros [= ->]; constructor|].
    rewrite resolve_chain_cons. destruct (find_sub (processors p) sub) as [r|] eqn:Hf.
    + intros H. eapply resolves_sub; eauto.
    + destruct (allow_unlisted p) eqn:Ha; [|done]. intros [= ->]. by apply resolves_unlisted.
  - induction 1 as [|p sub chain q r Hf _ IH|p sub chain Hf Ha]; [done|..];
      rewrite resolve_chain_cons, Hf; [done|by rewrite Ha].
Qed.

(** The processors from the root to the one a chain resolves to. *)
Inductive on_path : ICliCommandProcessor → list string → ICliCommandProcessor → Prop :=
| on_path_here p chain : on_path p chain p
| on_path_sub p sub chain q r :
    find_sub (processors p) sub = Some q → on_path q chain r → on_path p (sub :: chain) r.

Lemma on_path_chain_processors p chain q :
  on_path p chain q → q = p ∨ q ∈ _chain_processors (Some p) chain.
Proof.
  induction 1 as [|p sub chain q r Hf _ IH]; [by left|right]. simpl. rewrite Hf.
  rewrite elem_of_cons. naive_solver.
Qed.

Lemma missing_of_spec can acc perms p :
  p ∈ missing_of can acc perms ↔ p ∈ acc ∨ (p ∈ perms ∧ can p = false).
Proof.
  revert acc; induction perms as [|q perms IH]; intros acc; simpl; [set_solver|].
  rewrite IH. destruct (can q) eqn:Hc; simpl.
  - rewrite elem_of_cons. split; [set_solver|]. intros [?|[[->|?] ?]]; [by left|congruence|by right].
  - case_bool_decide; simpl; rewrite ?elem_of_app, ?list_elem_of_singleton, elem_of_cons; naive_solver.
Qed.

Lemma missing_processor_permissions_spec can ps perm :
  perm ∈ missing_processor_permissions (Some can) ps ↔
  ∃ p, Some p ∈ ps ∧ perm ∈ required_permissions p ∧ can perm = false.
Proof.
  unfold missing_processor_permissions.
  assert (∀ acc, perm ∈ foldl (λ acc p, match p with
                      | None => acc
                      | Some p => missing_of can acc (required_permissions p)
                      end) acc ps ↔ perm ∈ acc ∨ ∃ p, Some p ∈ ps ∧ perm ∈ required_permissions p ∧ can perm = false)
    as ->; [|set_solver].
  induction ps as [|[q|] ps IH]; intros acc; simpl; [set_solver|..];
    rewrite IH, ?missing_of_spec; setoid_rewrite elem_of_cons; naive_solver.
Qed.

(** C38: a command that is not refused runs a processor all of whose required
    permissions, and all those of every processor above it in the command tree,
    the caller holds. *)
Theorem permission_denied_sound r can command chain root p perm :
  _permission_denied r (Some can) command chain = None →
  find_processor r command [] = Some root →
  on_path root chain p ∨ find_processor r command chain = Some p →
  perm ∈ required_permissions p → can perm = true.
Proof.
  intros Hd Hroot Hp Hperm. unfold _permission_denied in Hd.
  destruct (can perm) eqn:Hc; [done|exfalso].
  destruct (missing_processor_permissions _ _) eqn:E in Hd; [|done].
  enough (perm ∈ @nil string) by set_solver. rewrite <- E.
  apply missing_processor_permissions_spec. exists p. split; [|done].
  rewrite Hroot, elem_of_cons, elem_of_app, list_elem_of_singleton.
  destruct Hp as [Hp| ->]; [|by auto].
  destruct (on_path_chain_processors _ _ _ Hp) as [->|Hin]; [by left|right; left].
  by apply list_elem_of_fmap_2.
Qed.

(** The processor that runs is on the path from the root. *)
Lemma resolve_chain_on_path p chain q : _resolve_chain p chain = Some q → on_path p chain q.
Proof.
  revert p. induction chain as [|sub chain IH]; intros p; [intros [= ->]; constructor|].
  rewrite resolve_chain_cons. destruct (find_sub (processors p) sub) as [r|] eqn:Hf.
  - intros H. eapply on_path_sub; eauto.
  - destruct (allow_unlisted p); [|done]. intros [= ->]. constructor.
Qed.
End Commands.

Arguments ProcessorInfo : clear implicits.
Arguments ICliCommandProcessor : clear implicits.
Arguments CliCommandRegistry : clear implicits.

(** A small command tree: [users] with [list], both guarded. *)
Module Example.
Definition mk (name : string) (perms : option (list string))
    (subs : option (list (ICliCommandProcessor unit unit))) : ICliCommandProcessor unit unit :=
  Processor {| p_command := name; p_description := ""; p_version := "1.0.0";
    p_allow_unlisted_commands := Some true; p_value_required := None;
    p_parameters := None; p_required_permissions := perms;
    p_handle_async := λ _, mret "ok";
    p_handle_structured_async := λ _, mret None |} subs.
Definition users_list := mk "List" (Some ["users:read"]) None.
Definition users := mk "users" (Some ["commands:execute"]) (Some [users_list]).
Definition reg : CliCommandRegistry unit unit := register users [].

Lemma resolve_chain_spec_witness : resolves users ["LIST"; "extra"] users_list.
Proof. apply resolve_chain_spec. reflexivity. Defined.

Definition can (p : string) : bool := bool_decide (p ∈ ["users:read"; "commands:execute"]).

Lemma permission_denied_sound_witness : can "users:read" = true.
Proof.
  apply (permission_denied_sound reg can "USERS" ["list"] users users_list);
    [reflexivity|reflexivity|by right|by apply list_elem_of_singleton].
Defined.
End Example.
