(* ===== verification/Events.v ===== *)
(** * Server events ([events.py], [cli_event_bus.py])

    The bus keeps its subscriptions in order; a subscription is identified by
    the [entry] tuple that [subscribe] made, here by a number no other
    subscription of the bus has.  Handlers are host code: [call h e] runs
    handler [h] on event [e]; it may raise, and may subscribe and unsubscribe
    while an event is being published. *)

From S2P Require Import Prelude PyStr Values Commands.
From Stdlib Require Import Ascii.

Definition RESERVED_EVENT_FIELDS : list string := ["type"; "timestamp"].

Record CliEventAudience := Audience { permission : option string; user_id : option string }.

Definition is_everyone (a : CliEventAudience) : bool :=
  bool_decide (permission a = None) && bool_decide (user_id a = None).

Definition everyone : CliEventAudience := Audience None None.
Definition with_permission (p : string) : CliEventAudience := Audience (Some p) None.
Definition user (u : string) : CliEventAudience := Audience None (Some u).

Record CliEvent := {
  ev_type : string;
  ev_timestamp : string;
  ev_data : dict string pyval;
  ev_audience : CliEventAudience;
}.

(** [{"type": ..., "timestamp": ..., **message}] *)
Definition to_message (e : CliEvent) : dict string pyval :=
  let message := filter (λ kv, kv.1 ∉ RESERVED_EVENT_FIELDS) (ev_data e) in
  foldl (λ d kv, dict_set kv.1 kv.2 d)
    [("type", VStr (ev_type e)); ("timestamp", VStr (ev_timestamp e))] message.

Definition cli_event_pattern_matches (type pattern : string) : bool :=
  if bool_decide (pattern = "*") then true
  else if ends_with pattern ":*" then starts_with type (take_str (len pattern - 1) pattern)
  else bool_decide (type = pattern).

(** ** The bus *)

Section Bus.
Context {Handler Host : Type}.

Record Subscription := {
  sub_ref : nat;
  sub_pattern : string;
  sub_handler : Handler;
}.

(** The bus and the host's own state. *)
Record Server := {
  _subscriptions : list Subscription;
  next_ref : nat;
  host : Host;
}.

Definition set_subscriptions (l : list Subscription) (s : Server) : Server :=
  {| _subscriptions := l; next_ref := next_ref s; host := host s |}.

Context (call : Handler → CliEvent → py Server exn unit).

(** The timestamp of an event: the publisher may date it itself. *)
Definition event_stamp (fields : dict string pyval) (now : Z) : string :=
  match dict_get "timestamp" fields with
  | Some (VTime t) => iso_ms t
  | Some (VStr s) => if truthy s then s else iso_ms now
  | _ => iso_ms now
  end.

Definition make_event (type : string) (data : dict string pyval)
    (audience : option CliEventAudience) (now : Z) : CliEvent :=
  let fields := dict_del "type" data in
  {| ev_type := type;
     ev_timestamp := event_stamp fields now;
     ev_data := dict_del "timestamp" fields;
     ev_audience := default everyone audience |}.

(** [try: handler(event)  except Exception: log] *)
Definition deliver (event : CliEvent) (sub : Subscription) : py Server exn unit :=
  if cli_event_pattern_matches (ev_type event) (sub_pattern sub)
  then try_except (call (sub_handler sub) event)
         (λ e, match e with Exn _ => mret tt | Cancelled => raise Cancelled end)
  else mret tt.

Definition publish (type : string) (data : dict string pyval)
    (audience : option CliEventAudience) (now : Z) : py Server exn unit :=
  subs ← gets _subscriptions;
  for_each (deliver (make_event type data audience now)) subs.

Definition subscribe (pattern : string) (handler : Handler) : py Server exn nat := λ s,
  (inr (next_ref s),
   {| _subscriptions := _subscriptions s ++
        [{| sub_ref := next_ref s; sub_pattern := pattern; sub_handler := handler |}];
      next_ref := S (next_ref s);
      host := host s |}).

(** Delete the first subscription that is the entry itself. *)
Fixpoint remove_ref (r : nat) (l : list Subscription) : list Subscription :=
  match l with
  | [] => []
  | sub :: l => if decide (sub_ref sub = r) then l else sub :: remove_ref r l
  end.

Definition unsubscribe (r : nat) : py Server exn unit :=
  modify (λ s, set_subscriptions (remove_ref r (_subscriptions s)) s).

(** ** The bus's invariant: references are used once *)

Definition bus_ok (s : Server) : Prop :=
  NoDup (map sub_ref (_subscriptions s)) ∧
  Forall (λ sub, (sub_ref sub < next_ref s)%nat) (_subscriptions s).

Lemma remove_ref_app_fresh r l sub :
  Forall (λ sub, (sub_ref sub < r)%nat) l → sub_ref sub = r →
  remove_ref r (l ++ [sub]) = l.
Proof.
  intros Hl Hr. induction Hl as [|x l Hx Hl IH]; simpl; [by rewrite decide_True|].
  rewrite decide_False by lia. by rewrite IH.
Qed.

Lemma remove_ref_subset r l : map sub_ref (remove_ref r l) ⊆ map sub_ref l.
Proof. induction l as [|x l IH]; simpl; [done|]. case_decide; set_solver. Qed.

Lemma remove_ref_ok r s : bus_ok s → bus_ok (set_subscriptions (remove_ref r (_subscriptions s)) s).
Proof.
  unfold bus_ok; simpl. destruct s as [l n h]; simpl. intros [Hn Hf].
  induction l as [|x l IH]; simpl in *; [done|].
  apply NoDup_cons in Hn as [Hx Hn]. apply Forall_cons in Hf as [Hxn Hf].
  case_decide; [done|]. destruct (IH Hn Hf) as [Hn' Hf']. simpl. split.
  - apply NoDup_cons. split; [|done]. pose proof (remove_ref_subset r l). set_solver.
  - by constructor.
Qed.

Lemma subscribe_ok pattern h s : bus_ok s → bus_ok (subscribe pattern h s).2.
Proof.
  unfold bus_ok; simpl. intros [Hn Hf]. split.
  - rewrite map_app. apply NoDup_app. split; [done|]. simpl. split; [|apply NoDup_singleton].
    intros r Hr. rewrite list_elem_of_singleton. intros ->.
    apply list_elem_of_In, in_map_iff in Hr as [x [Hx Hin%list_elem_of_In]].
    rewrite Forall_forall in Hf. apply Hf in Hin. lia.
  - apply Forall_app. split; [|repeat constructor; simpl; lia].
    eapply Forall_impl; [exact Hf|]. simpl. intros; lia.
Qed.

(** The function that [subscribe] returns takes back exactly that
    subscription, also when the same handler is subscribed to the same pattern
    more than once, and calling it again changes nothing. *)
Theorem unsubscribe_subscribe pattern h s :
  bus_ok s →
  let '(r, s') := subscribe pattern h s in
  match r with
  | inr ref =>
      _subscriptions (unsubscribe ref s').2 = _subscriptions s ∧
      _subscriptions (unsubscribe ref (unsubscribe ref s').2).2 = _subscriptions s
  | inl _ => False
  end.
Proof.
  intros [_ Hf]. simpl.
  assert (∀ l, Forall (λ sub, (sub_ref sub < next_ref s)%nat) l → remove_ref (next_ref s) l = l) as Hid.
  { induction 1 as [|x l Hx _ IH]; simpl; [done|]. rewrite decide_False by lia. by rewrite IH. }
  rewrite remove_ref_app_fresh by done. auto.
Qed.

(** ** Publishing *)

(** The calls an event makes, in subscription order. *)
Definition recipients (event : CliEvent) (subs : list Subscription) : list Handler :=
  map sub_handler (List.filter (λ sub, cli_event_pattern_matches (ev_type event) (sub_pattern sub)) subs).

Section Delivery.
(** Handlers that record in the host's state that they were called, and that
    are not cancelled. *)
Context (called : Host → list (Handler * CliEvent)).
Context (call_records : ∀ h e s, called (host (call h e s).2) = called (host s) ++ [(h, e)]).
Context (call_not_cancelled : ∀ h e s, (call h e s).1 ≠ inl Cancelled).

Lemma deliver_all event subs s :
  (for_each (deliver event) subs s).1 = inr tt ∧
  called (host (for_each (deliver event) subs s).2) =
  called (host s) ++ map (λ h, (h, event)) (recipients event subs).
Proof.
  unfold recipients. revert s; induction subs as [|sub subs IH]; intros s; simpl.
  { by rewrite app_nil_r. }
  rewrite py_bind_eq. unfold deliver at 1 3.
  destruct (cli_event_pattern_matches (ev_type event) (sub_pattern sub)) eqn:Hm.
  - unfold try_except.
    pose proof (call_records (sub_handler sub) event s) as Hr.
    pose proof (call_not_cancelled (sub_handler sub) event s) as Hc.
    destruct (call (sub_handler sub) event s) as [[[msg|]|[]] s'] eqn:Hcall; simpl in Hr, Hc;
      [|done|]; destruct (IH s') as [IHr IHc]; simpl; rewrite IHr, IHc, Hr, <- app_assoc; done.
  - apply IH.
Qed.

(** Publishing never raises into the publisher, and calls every handler
    whose pattern matches, in subscription order, with the event: a handler
    that raises stops no other one, and handlers that subscribe or unsubscribe
    meanwhile do not change who gets this event. *)
Theorem publish_delivers type data audience now s :
  let event := make_event type data audience now in
  (publish type data audience now s).1 = inr tt ∧
  called (host (publish type data audience now s).2) =
  called (host s) ++ map (λ h, (h, event)) (recipients event (_subscriptions s)).
Proof. apply deliver_all. Qed.
End Delivery.
End Bus.

Arguments Subscription : clear implicits.
Arguments Server : clear implicits.

(** ** The wire message *)

(** On the wire an event is its [type] and [timestamp], whatever the
    publisher's fields say, and every other field as published. *)
Theorem to_message_fields e k :
  dict_ok (ev_data e) →
  dict_get k (to_message e) =
  if decide (k = "type") then Some (VStr (ev_type e))
  else if decide (k = "timestamp") then Some (VStr (ev_timestamp e))
  else dict_get k (ev_data e).
Proof.
  intros Hd. unfold to_message. rewrite dict_get_foldl_set by by apply dict_ok_filter.
  rewrite (dict_get_filter (λ k : string, k ∉ RESERVED_EVENT_FIELDS)).
  unfold RESERVED_EVENT_FIELDS. cbn [dict_get fst snd].
  destruct (decide (k = "type")) as [->|Ht].
  { rewrite decide_False by set_solver. done. }
  destruct (decide (k = "timestamp")) as [->|Hs].
  { rewrite decide_False by set_solver. done. }
  rewrite decide_True by set_solver. rewrite !decide_False by congruence.
  by destruct (dict_get k (ev_data e)).
Qed.

Lemma to_message_fields_witness :
  dict_get "type" (to_message {| ev_type := "job:failed"; ev_timestamp := "2026-11-06T10:15:00.000Z";
    ev_data := [("jobId", VStr "a"); ("type", VStr "spoofed")]; ev_audience := everyone |}) =
  Some (VStr "job:failed").
Proof. rewrite to_message_fields; [reflexivity|]. apply (bool_decide_unpack _). vm_compute. exact I. Defined.

(** ** A bus whose host records the calls *)
Module EventsExample.
Definition Host := list (string * CliEvent).

(** The handler named [bad] raises after it was called; the handler [leave]
    also unsubscribes everything. *)
Definition call (h : string) (e : CliEvent) : py (Server string Host) exn unit := λ s,
  (if bool_decide (h = "bad") then inl (Exn "boom") else inr tt,
   {| _subscriptions := if bool_decide (h = "leave") then [] else _subscriptions s;
      next_ref := next_ref s; host := host s ++ [(h, e)] |}).

Definition sub (n : nat) (p h : string) : Subscription string :=
  {| sub_ref := n; sub_pattern := p; sub_handler := h |}.

Definition server0 : Server string Host :=
  {| _subscriptions := [sub 0 "*" "leave"; sub 1 "job:*" "bad"; sub 2 "user:*" "users"; sub 3 "job:failed" "mail"];
     next_ref := 4; host := [] |}.

Lemma publish_delivers_witness :
  map fst (host (publish call "job:failed" [] None 0 server0).2) = ["leave"; "bad"; "mail"].
Proof.
  destruct (publish_delivers call (λ h : Host, h) (λ _ _ _, eq_refl)
    ltac:(intros h e s; unfold call; simpl; by case_bool_decide)
    "job:failed" [] None 0 server0) as [_ ->]. reflexivity.
Defined.

Lemma unsubscribe_subscribe_witness :
  match subscribe "job:*" "mail" server0 with
  | (inr ref, s') => _subscriptions (unsubscribe ref s').2 = _subscriptions server0
  | _ => False
  end.
Proof.
  pose proof (unsubscribe_subscribe "job:*" "mail" server0) as H.
  apply H. split; [apply (bool_decide_unpack _); vm_compute; exact I|repeat constructor].
Defined.
End EventsExample.
