(* ===== verification/Outputs.v ===== *)
(** * Outputs, responses and their limits

    [cli_server_output.py], [cli_server_response.py],
    [cli_response_builder.py] and [cli_output_limits.py]. *)

From S2P Require Import Prelude PyStr Values Commands.

(** ** The output models *)

Record CliServerTablePage := {
  page_skip : Z;
  page_take : Z;
  page_total : option Z;
  page_has_more : bool;
  page_truncated : option bool;
}.

Record CliServerTableOutput := {
  headers : list string;
  rows : list (list string);
  page : option CliServerTablePage;
}.

Inductive CliServerOutput :=
| TextOutput (text : string) (style : option string)
| TableOutput (table : CliServerTableOutput)
| ListOutput (items : list string) (ordered : option bool)
| JsonOutput (json : pyval)
| KeyValueOutput (entries : list (string * string)).

Record CliServerResponse := { exit_code : Z; outputs : list CliServerOutput }.

(** The styles of a text output; the model refuses any other. *)
Definition text_styles : list string := ["success"; "error"; "info"; "warning"].

Inductive ValidationError := InvalidStyle (style : string).

(** ** The response builder *)

Record CliResponseBuilder := { _exit_code : Z; _outputs : list CliServerOutput }.

Definition new_builder : CliResponseBuilder := {| _exit_code := 0; _outputs := [] |}.

Definition append_output (o : CliServerOutput) : py CliResponseBuilder ValidationError unit :=
  modify (λ b, {| _exit_code := _exit_code b; _outputs := _outputs b ++ [o] |}).

Definition write_text (text : string) (style : option string)
    : py CliResponseBuilder ValidationError unit :=
  match style with
  | Some st => if bool_decide (st ∈ text_styles) then append_output (TextOutput text style)
               else raise (InvalidStyle st)
  | None => append_output (TextOutput text None)
  end.

Definition write_table (hs : list string) (rs : list (list string)) :=
  append_output (TableOutput {| headers := hs; rows := rs; page := None |}).

Definition write_paged_table (hs : list string) (rs : list (list string)) (p : CliPageRequest)
    (total : option Z) (has_more : option bool) : py CliResponseBuilder ValidationError unit :=
  let more := match has_more with
              | Some b => b
              | None => match total with
                        | Some n => skip p + Z.of_nat (length rs) <? n
                        | None => false
                        end
              end in
  append_output (TableOutput {| headers := hs; rows := rs;
    page := Some {| page_skip := skip p; page_take := take p; page_total := total;
                    page_has_more := more; page_truncated := None |} |}).

Definition write_list (items : list string) (ordered : bool) :=
  append_output (ListOutput items (if ordered then Some true else None)).

Definition write_json (v : pyval) := append_output (JsonOutput v).

Definition write_key_value (entries : dict string string) := append_output (KeyValueOutput entries).

Definition set_exit_code (code : Z) : py CliResponseBuilder ValidationError unit :=
  modify (λ b, {| _exit_code := code; _outputs := _outputs b |}).

Definition build (b : CliResponseBuilder) : CliServerResponse :=
  {| exit_code := _exit_code b; outputs := _outputs b |}.

(** ** Output limits *)

Definition DEFAULT_MAX_TABLE_ROWS : Z := 200.

Definition _truncated_page (max_rows total : Z) : CliServerTablePage :=
  {| page_skip := 0; page_take := max_rows; page_total := Some total;
     page_has_more := true; page_truncated := Some true |}.

(** [apply_output_limits] on an output model. *)
Definition apply_output_limits (o : CliServerOutput) (max_rows : Z) : CliServerOutput :=
  if max_rows <=? 0 then o
  else match o with
       | TableOutput t =>
           match page t with
           | Some _ => o
           | None =>
               if Z.of_nat (length (rows t)) <=? max_rows then o
               else TableOutput {| headers := headers t; rows := py_slice 0 max_rows (rows t);
                                   page := Some (_truncated_page max_rows (Z.of_nat (length (rows t)))) |}
           end
       | _ => o
       end.

(** [model_dump(by_alias=True, exclude_none=True)] of a page. *)
Definition dump_page (p : CliServerTablePage) : pyval :=
  VDict (("skip", VInt (page_skip p)) :: ("take", VInt (page_take p)) ::
    match page_total p with Some n => [("total", VInt n)] | None => [] end ++
    ("hasMore", VBool (page_has_more p)) ::
    match page_truncated p with Some b => [("truncated", VBool b)] | None => [] end).

(** The truth value of a JSON value. *)
Definition py_truthy (v : pyval) : bool :=
  match v with
  | VNone => false
  | VBool b => b
  | VInt z => negb (z =? 0)
  | VFloat repr => negb (bool_decide (repr ∈ ["0.0"; "-0.0"]))
  | VStr s => truthy s
  | VTime _ => true
  | VList l => negb (bool_decide (length l = 0%nat))
  | VDict d => negb (bool_decide (length d = 0%nat))
  end.

(** [len(v)] and [v[:n]] for [0 < n]; [None] is [TypeError]. *)
Definition py_len (v : pyval) : option Z :=
  match v with
  | VStr s => Some (Z.of_nat (len s))
  | VList l => Some (Z.of_nat (length l))
  | VDict d => Some (Z.of_nat (length d))
  | _ => None
  end.
Definition py_first (n : Z) (v : pyval) : option pyval :=
  match v with
  | VStr s => Some (VStr (take_str (Z.to_nat n) s))
  | VList l => Some (VList (py_slice 0 n l))
  | _ => None
  end.

Definition is_str (v : option pyval) (s : string) : bool :=
  match v with Some (VStr t) => bool_decide (t = s) | _ => false end.
Definition is_none (v : option pyval) : bool :=
  match v with None | Some VNone => true | _ => false end.

(** [apply_output_limits] on a serialised output (what stream processors
    emit); [None] is [TypeError]. *)
Definition apply_output_limits_dict (o : dict string pyval) (max_rows : Z) : option (dict string pyval) :=
  if max_rows <=? 0 then Some o
  else if is_str (dict_get "type" o) "table" && is_none (dict_get "page" o) then
    let rs := match dict_get "rows" o with
              | Some v => if py_truthy v then v else VList []
              | None => VList []
              end in
    match py_len rs with
    | None => None
    | Some n =>
        if n <=? max_rows then Some o
        else match py_first max_rows rs with
             | None => None
             | Some rs' => Some (dict_set "page" (dump_page (_truncated_page max_rows n))
                                   (dict_set "rows" rs' o))
             end
    end
  else Some o.

Definition apply_response_limits (r : CliServerResponse) (max_rows : Z) : CliServerResponse :=
  if max_rows <=? 0 then r
  else {| exit_code := exit_code r;
          outputs := map (λ o, apply_output_limits o max_rows) (outputs r) |}.

(** ** What the limits guarantee *)

(** An output within the limit: no limit, a paged table, a short table, or not
    a table. *)
Definition within_limit (max_rows : Z) (o : CliServerOutput) : Prop :=
  match o with
  | TableOutput t => page t = None → 0 < max_rows → Z.of_nat (length (rows t)) ≤ max_rows
  | _ => True
  end.

Lemma apply_output_limits_id o max_rows : within_limit max_rows o → apply_output_limits o max_rows = o.
Proof.
  unfold apply_output_limits, within_limit. destruct (Z.leb_spec max_rows 0); [done|].
  destruct o as [|t| | |]; [done| |done..]. destruct (page t); [done|].
  intros H'. destruct (Z.leb_spec (Z.of_nat (length (rows t))) max_rows); [done|].
  specialize (H' eq_refl). lia.
Qed.

Lemma apply_output_limits_within o max_rows : within_limit max_rows (apply_output_limits o max_rows).
Proof.
  unfold apply_output_limits. destruct (Z.leb_spec max_rows 0) as [Hm|Hm].
  { destruct o; simpl; [done|lia|done..]. }
  destruct o as [|t| | |]; [done| |done..]. destruct (page t) eqn:Hp; [simpl; congruence|].
  destruct (Z.leb_spec (Z.of_nat (length (rows t))) max_rows); [simpl; intros; lia|].
  simpl. discriminate.
Qed.

(** An unpaged table longer than the limit becomes its first [max_rows]
    rows with a page that says so (the true total, [truncated]); every other
    output is left as it is; and limiting twice is limiting once. *)
Theorem apply_output_limits_spec o max_rows :
  0 < max_rows →
  within_limit max_rows (apply_output_limits o max_rows) ∧
  apply_output_limits (apply_output_limits o max_rows) max_rows = apply_output_limits o max_rows ∧
  (within_limit max_rows o → apply_output_limits o max_rows = o) ∧
  (∀ t, o = TableOutput t → ¬ within_limit max_rows o →
    ∃ rest p, rows t = p ++ rest ∧ Z.of_nat (length p) = max_rows ∧
      apply_output_limits o max_rows =
        TableOutput {| headers := headers t; rows := p;
                       page := Some (_truncated_page max_rows (Z.of_nat (length (rows t)))) |}).
Proof.
  intros Hm. split; [apply apply_output_limits_within|].
  split; [apply apply_output_limits_id, apply_output_limits_within|].
  split; [apply apply_output_limits_id|].
  intros t -> Hw. simpl in Hw. unfold apply_output_limits.
  destruct (Z.leb_spec max_rows 0); [lia|].
  destruct (page t) eqn:Hp; [exfalso; apply Hw; congruence|].
  destruct (Z.leb_spec (Z.of_nat (length (rows t))) max_rows); [exfalso; apply Hw; lia|].
  exists (drop (Z.to_nat max_rows) (rows t)), (firstn (Z.to_nat max_rows) (rows t)).
  rewrite take_drop, length_take. split; [done|]. split; [lia|].
  rewrite py_slice_nonneg by lia. change (Z.to_nat 0) with 0%nat. by rewrite Nat.sub_0_r, drop_0.
Qed.

Lemma apply_output_limits_spec_witness :
  within_limit 2 (apply_output_limits
    (TableOutput {| headers := ["n"]; rows := [["1"]; ["2"]; ["3"]]; page := None |}) 2).
Proof. apply (apply_output_limits_spec _ 2). lia. Defined.

(** The dictionary form of a table is cut like the model. *)
Lemma apply_output_limits_dict_table o max_rows l :
  0 < max_rows → dict_get "type" o = Some (VStr "table") → dict_get "page" o = None →
  dict_get "rows" o = Some (VList l) → max_rows < Z.of_nat (length l) →
  ∃ o', apply_output_limits_dict o max_rows = Some o' ∧
    dict_get "rows" o' = Some (VList (firstn (Z.to_nat max_rows) l)) ∧
    dict_get "page" o' = Some (dump_page (_truncated_page max_rows (Z.of_nat (length l)))).
Proof.
  intros Hm Ht Hp Hr Hl. unfold apply_output_limits_dict.
  destruct (Z.leb_spec max_rows 0); [lia|]. rewrite Ht, Hp, Hr. simpl.
  destruct l as [|v l]; [simpl in Hl; lia|]. rewrite bool_decide_false by done. cbn [negb py_len].
  destruct (Z.leb_spec (Z.of_nat (length (v :: l))) max_rows); [lia|].
  eexists. split; [reflexivity|].
  rewrite dict_get_set_ne, !dict_get_set_eq by done. split; [|done].
  rewrite py_slice_nonneg by lia. change (Z.to_nat 0) with 0%nat. by rewrite Nat.sub_0_r, drop_0.
Qed.
