(* ===== verification/Usage.v ===== *)
(** * Command usage counters ([cli_command_usage.py])

    Durations are rational numbers of milliseconds ([Q]); the rounding of the
    floats that carry them is not modelled.  Times are microseconds since the
    epoch. *)

From S2P Require Import Prelude PyStr Values.
From Stdlib Require Import Ascii QArith.QArith QArith.Qminmax.

Open Scope Z_scope.

Record _Usage := {
  known : bool;
  executions : Z;
  failures : Z;
  total_duration : Q;
  last_executed_at : option Z;
  last_failed_at : option Z;
}.

Record CliCommandUsageTracker := { since : Z; _usage : dict string _Usage }.

Definition new_usage (k : bool) : _Usage :=
  {| known := k; executions := 0; failures := 0; total_duration := 0%Q;
     last_executed_at := None; last_failed_at := None |}.

(** The body of the locked section of [record]. *)
Definition count_usage (u : _Usage) (k : bool) (duration_ms : Q) (failed : bool) (when : Z) : _Usage :=
  {| known := known u || k;
     executions := executions u + 1;
     failures := if failed then failures u + 1 else failures u;
     total_duration := (total_duration u + Qmax duration_ms 0)%Q;
     last_executed_at := Some when;
     last_failed_at := if failed then Some when else last_failed_at u |}.

(** [(command or "").strip().lower()] *)
Definition usage_name (command : string) : string := lower (strip command).

Definition record (command : string) (k : bool) (duration_ms : Q) (failed : bool)
    (at_ : option Z) (now : Z) (t : CliCommandUsageTracker) : CliCommandUsageTracker :=
  let name := usage_name command in
  if is_empty name then t
  else
    let u := default (new_usage k) (dict_get name (_usage t)) in
    {| since := since t;
       _usage := dict_set name (count_usage u k duration_ms failed (default now at_)) (_usage t) |}.

(** One entry of the snapshot. *)
Record UsageEntry := {
  e_command : string;
  e_known : bool;
  e_executions : Z;
  e_failures : Z;
  e_avgDuration : option Q;
  e_lastExecutedAt : option string;
  e_lastFailedAt : option string;
}.

Definition usage_entry (item : string * _Usage) : UsageEntry :=
  let '(name, u) := item in
  {| e_command := name; e_known := known u; e_executions := executions u; e_failures := failures u;
     e_avgDuration := if executions u =? 0 then None else Some (total_duration u / inject_Z (executions u))%Q;
     e_lastExecutedAt := iso_ms <$> last_executed_at u;
     e_lastFailedAt := iso_ms <$> last_failed_at u |}.

(** The order of [key=lambda item: (-item[1].executions, item[0])]. *)
Definition usage_le (a b : string * _Usage) : bool :=
  (executions b.2 <? executions a.2) ||
  (executions a.2 =? executions b.2) && String.leb a.1 b.1.

Definition snapshot (t : CliCommandUsageTracker) : string * list UsageEntry :=
  (iso_ms (since t), map usage_entry (py_sort usage_le (_usage t))).

(** ** What the counters count *)

(** A call of [record]. *)
Record Recorded := { r_command : string; r_known : bool; r_duration : Q; r_failed : bool; r_at : Z }.

Definition record_call (t : CliCommandUsageTracker) (r : Recorded) : CliCommandUsageTracker :=
  record (r_command r) (r_known r) (r_duration r) (r_failed r) (Some (r_at r)) 0 t.

(** The calls that count for a name, oldest first. *)
Definition calls_of (name : string) (l : list Recorded) : list Recorded :=
  List.filter (λ r, bool_decide (usage_name (r_command r) = name)) l.

Definition failed_of (l : list Recorded) : list Recorded := List.filter r_failed l.

(** The counters of a name after its calls [l]. *)
Definition usage_of (l : list Recorded) : _Usage :=
  {| known := existsb r_known l;
     executions := Z.of_nat (length l);
     failures := Z.of_nat (length (failed_of l));
     total_duration := foldl (λ d r, d + Qmax (r_duration r) 0)%Q 0%Q l;
     last_executed_at := r_at <$> last l;
     last_failed_at := r_at <$> last (failed_of l) |}.

Lemma usage_of_snoc l r :
  count_usage (usage_of l) (r_known r) (r_duration r) (r_failed r) (r_at r) = usage_of (l ++ [r]).
Proof.
  unfold count_usage, usage_of, failed_of. simpl.
  rewrite existsb_app, length_app, List.filter_app, length_app, foldl_app, last_snoc. simpl.
  rewrite orb_false_r, Nat2Z.inj_add.
  destruct (r_failed r); simpl; rewrite ?last_snoc, ?app_nil_r, ?Nat.add_0_r; [|done].
  by rewrite Nat2Z.inj_add.
Qed.

Lemma usage_of_first r :
  count_usage (new_usage (r_known r)) (r_known r) (r_duration r) (r_failed r) (r_at r) = usage_of [r].
Proof.
  unfold count_usage, usage_of, failed_of. simpl. rewrite orb_diag, orb_false_r.
  by destruct (r_failed r).
Qed.

(** After any sequence of executions, the counters of a name (in lower
    case, stripped) are those of exactly the executions recorded under it:
    their number, the number that failed, the sum of their (non-negative)
    durations, and the times of the last one and of the last failed one; a name
    without executions, and the empty name, has no counters. *)
Theorem usage_counts t0 l name :
  _usage t0 = [] →
  dict_get name (_usage (foldl record_call t0 l)) =
  match calls_of name l with
  | [] => None
  | calls => if is_empty name then None else Some (usage_of calls)
  end.
Proof.
  intros H0. induction l as [|r l IH] using rev_ind; [simpl; by rewrite H0|].
  rewrite foldl_app. simpl. unfold calls_of in *. rewrite List.filter_app. simpl.
  set (t := foldl record_call t0 l) in *. unfold record_call at 1, record.
  destruct (is_empty (usage_name (r_command r))) eqn:He.
  - rewrite IH. case_bool_decide as Hn; [|by rewrite app_nil_r].
    subst name. rewrite He. destruct (List.filter _ l); done.
  - simpl. case_bool_decide as Hn.
    + subst name. rewrite dict_get_set_eq, IH, He.
      destruct (List.filter _ l) as [|c cs]; simpl.
      * by rewrite usage_of_first.
      * by rewrite (usage_of_snoc (c :: cs)).
    + rewrite dict_get_set_ne, app_nil_r by done. apply IH.
Qed.

(** ** The snapshot *)

Lemma usage_le_total a b : usage_le a b = true ∨ usage_le b a = true.
Proof.
  unfold usage_le. destruct (Z.lt_trichotomy (executions a.2) (executions b.2)) as [?|[Heq|?]].
  - right. by rewrite (proj2 (Z.ltb_lt _ _)).
  - rewrite Heq, Z.ltb_irrefl, Z.eqb_refl. simpl. apply String.leb_total.
  - left. by rewrite (proj2 (Z.ltb_lt _ _)).
Qed.

Lemma string_compare_trans_lt a b c :
  String.compare a b = Lt → String.compare b c = Lt → String.compare a c = Lt.
Proof.
  revert b c; induction a as [|x a IH]; intros [|y b] [|z c]; simpl; try done.
  unfold Ascii.compare.
  destruct (N.compare_spec (N_of_ascii x) (N_of_ascii y)) as [E|E|E]; [|intros _|done];
    destruct (N.compare_spec (N_of_ascii y) (N_of_ascii z)) as [F|F|F]; try done; intros;
    destruct (N.compare_spec (N_of_ascii x) (N_of_ascii z)); try lia; eauto.
Qed.

Lemma string_leb_trans a b c : String.leb a b = true → String.leb b c = true → String.leb a c = true.
Proof.
  unfold String.leb. intros H1 H2.
  destruct (String.compare a b) eqn:E1; [|..|done].
  { apply String.compare_eq_iff in E1 as ->. done. }
  destruct (String.compare b c) eqn:E2; [|..|done].
  { apply String.compare_eq_iff in E2 as ->. by rewrite E1. }
  by rewrite (string_compare_trans_lt _ _ _ E1 E2).
Qed.

Lemma usage_le_trans a b c : usage_le a b = true → usage_le b c = true → usage_le a c = true.
Proof.
  unfold usage_le. rewrite !orb_true_iff, !andb_true_iff, !Z.ltb_lt, !Z.eqb_eq.
  intros [?|[? Hab]] [?|[? Hbc]]; [left; lia..|]. right. split; [lia|].
  by eapply string_leb_trans.
Qed.

(** The snapshot lists every counted command once, by executions descending
    and then by name, each with its own counters. *)
Theorem snapshot_sorted t :
  ∃ items, (snapshot t).2 = map usage_entry items ∧ items ≡ₚ _usage t ∧
    StronglySorted (λ a b, executions b.2 < executions a.2 ∨
                           executions a.2 = executions b.2 ∧ String.leb a.1 b.1 = true) items.
Proof.
  exists (py_sort usage_le (_usage t)). split; [done|]. split; [apply py_sort_perm|].
  eapply StronglySorted_impl; [|by apply py_sort_sorted; [apply usage_le_total|apply usage_le_trans]].
  intros a b. unfold usage_le. rewrite orb_true_iff, andb_true_iff, Z.ltb_lt, Z.eqb_eq. done.
Qed.

Module UsageExample.
Definition run (c : string) (f : bool) (at_ : Z) : Recorded :=
  {| r_command := c; r_known := true; r_duration := 2; r_failed := f; r_at := at_ |}.
Definition t0 : CliCommandUsageTracker := {| since := 0; _usage := [] |}.
Definition trace : list Recorded := [run "Echo" false 10; run " " true 11; run "ls" true 12; run "echo " true 13].

Lemma usage_counts_witness :
  failures <$> dict_get "echo" (_usage (foldl record_call t0 trace)) = Some 1.
Proof. rewrite (usage_counts t0 trace); reflexivity. Defined.
End UsageExample.
