(* ===== verification/Executor.v ===== *)
(** * Running commands ([cli_command_executor_service.py])

    The registry, the filters, the row limit and the bus of an executor are an
    [Executor]; the counters live in the server's state [World], which the
    processors, the filters and the event handlers also change.  A processor
    does not replace the executor's registry or filters while it runs.  The
    caller's user id ([command_user_id]) is an argument. *)

From S2P Require Import Prelude PyStr Values Commands Events Outputs Usage.
From Stdlib Require Import Ascii QArith.QArith QArith.Qround QArith.Qminmax.

Open Scope Z_scope.

(** What the executor needs of an event bus: publishing may be cancelled, but
    no exception of a handler reaches the publisher. *)
Class ICliEventBus (World : Type) := {
  bus_publish : string → dict string pyval → option CliEventAudience → Z → py World exn unit;
  bus_publish_no_raise : ∀ type data audience now s msg,
    (bus_publish type data audience now s).1 ≠ inl (Exn msg);
}.
Arguments bus_publish {_} _ _ _ _ _.

(** The bus of [Events.v] is one, whatever its handlers do. *)
Lemma publish_no_raise {Handler Host} (call : Handler → CliEvent → py (Server Handler Host) exn unit)
    type data audience now s msg :
  (publish call type data audience now s).1 ≠ inl (Exn msg).
Proof.
  unfold publish. rewrite py_bind_eq. simpl.
  set (event := make_event type data audience now).
  generalize s at 2; generalize (_subscriptions s). clear s.
  intros subs; induction subs as [|sub subs IH]; intros s; simpl; [done|].
  rewrite py_bind_eq. unfold deliver at 1.
  destruct (cli_event_pattern_matches _ _); [|apply IH].
  unfold try_except. destruct (call (sub_handler sub) event s) as [[[m|]|[]] s']; simpl;
    [apply IH|done|apply IH].
Qed.

#[export] Instance CliEventBus_bus {Handler Host}
    (call : Handler → CliEvent → py (Server Handler Host) exn unit) :
  ICliEventBus (Server Handler Host) :=
  {| bus_publish := publish call; bus_publish_no_raise := publish_no_raise call |}.

(** The state that holds the usage counters. *)
Class HasUsage (World : Type) := {
  get_usage : World → CliCommandUsageTracker;
  set_usage : CliCommandUsageTracker → World → World;
  get_set_usage : ∀ u s, get_usage (set_usage u s) = u;
}.

(** [round(x)]: to the nearest integer, halves to even. *)
Definition py_round (x : Q) : Z :=
  let f := Qfloor x in
  let r := (x - inject_Z f)%Q in
  match Qcompare r (1 # 2) with
  | Lt => f
  | Gt => f + 1
  | Eq => if Z.even f then f else f + 1
  end.

Example py_round_ex : map py_round [(5 # 2); (7 # 2); (-1 # 2); (12 # 5); (13 # 5)]%Q = [2; 4; 0; 2; 3].
Proof. reflexivity. Qed.

Section Executor.
Context {World : Type} `{HU : HasUsage World}.

Abbreviation ICliCommandProcessor := (Commands.ICliCommandProcessor World CliServerResponse).
Definition ICliProcessorFilter := ICliCommandProcessor → py World exn bool.

Record Executor := {
  x_registry : CliCommandRegistry World CliServerResponse;
  x_filters : list ICliProcessorFilter;
  max_table_rows : Z;
  event_bus : option (ICliEventBus World);
}.

(** [caller_user_id] of an auth context's user id. *)
Definition caller_user_id (id : option string) : option string :=
  match id with
  | Some u => if truthy u then Some u else None
  | None => None
  end.

(** The first element of [name.split()]. *)
Definition first_word (name : string) : string := default "" (head (split_ws name)).

Definition record_usage (x : Executor) (command : string) (duration_ms : Q) (failed : bool) (now : Z)
    : py World exn unit :=
  let name := strip command in
  if is_empty name then mret tt
  else
    let processor := find_processor (x_registry x) name [] in
    modify (λ s, set_usage
      (record (match processor with Some p => cmd p | None => first_word name end)
         (bool_decide (is_Some processor)) duration_ms failed None now (get_usage s)) s).

Definition notify_executed (x : Executor) (command : string) (duration_ms : Q) (failed : bool)
    (user_id caller : option string) (now : Z) : py World exn unit :=
  let name := strip command in
  match event_bus x with
  | None => mret tt
  | Some bus =>
      if is_empty name then mret tt
      else
        match find_processor (x_registry x) name [] with
        | None => mret tt
        | Some p =>
            let user_id := if truthy_opt user_id then user_id else caller in
            bus_publish bus "command:executed"
              ([("command", VStr (cmd p)); ("success", VBool (negb failed));
                ("durationMs", VInt (py_round duration_ms))] ++
               (if truthy_opt user_id then [("userId", VStr (or_empty user_id))] else []))
              (Some (with_permission "audit:read")) now
        end
  end.

Definition add_filter (f : ICliProcessorFilter) (x : Executor) : Executor :=
  {| x_registry := x_registry x; x_filters := x_filters x ++ [f];
     max_table_rows := max_table_rows x; event_bus := event_bus x |}.

(** [any(not f.is_allowed(processor) for f in self._filters)] *)
Fixpoint any_blocks (fs : list ICliProcessorFilter) (p : ICliCommandProcessor) : py World exn bool :=
  match fs with
  | [] => mret false
  | f :: fs => allowed ← f p; if negb allowed then mret true else any_blocks fs p
  end.
Definition is_blocked (x : Executor) (p : ICliCommandProcessor) : py World exn bool :=
  any_blocks (x_filters x) p.

Definition error_response (text : string) : CliServerResponse :=
  {| exit_code := 1; outputs := [TextOutput text (Some "error")] |}.

(** The [try] block of [_execute] and its [except Exception]. *)
Definition run_processor (x : Executor) (c : CliProcessCommand) (p : ICliCommandProcessor)
    : py World exn CliServerResponse :=
  try_except
    (structured ← p_handle_structured_async (info p) c;
     match structured with
     | Some r => mret (apply_response_limits r (max_table_rows x))
     | None =>
         result ← p_handle_async (info p) c;
         mret {| exit_code := 0; outputs := [TextOutput result None] |}
     end)
    (λ e, match e with
          | Exn msg => mret (error_response ("Error executing command: " +:+ msg))
          | Cancelled => raise Cancelled
          end).

Definition _execute (x : Executor) (c : CliProcessCommand) : py World exn CliServerResponse :=
  match find_processor (x_registry x) (command c) (chain_commands c) with
  | None => mret (error_response ("Unknown command: " +:+ command c))
  | Some p =>
      blocked ← is_blocked x p;
      if blocked : bool
      then mret (error_response ("Command '" +:+ command c +:+ "' is currently disabled."))
      else run_processor x c p
  end.

(** The readings of [time.perf_counter()], in seconds, before and after, and
    the clock when the execution is counted. *)
Definition execute_async (x : Executor) (caller : option string) (c : CliProcessCommand)
    (started ended : Q) (now : Z) : py World exn CliServerResponse := λ s,
  let '(r, s1) := _execute x c s in
  let failed := match r with inr response => negb (exit_code response =? 0) | inl _ => true end in
  let duration_ms := ((ended - started) * 1000)%Q in
  match (_ ← record_usage x (command c) duration_ms failed now;
         notify_executed x (command c) duration_ms failed None caller now) s1 with
  | (inl e, s2) => (inl e, s2)
  | (inr _, s2) => (r, s2)
  end.

(** ** Names *)

Lemma words_chars_ne cur l : cur ≠ [] → words_chars cur l ≠ [].
Proof.
  revert cur; induction l as [|c l IH]; intros cur Hc; simpl; [by destruct cur|].
  destruct (is_space c); [by destruct cur|]. apply IH. by destruct cur.
Qed.

(** The name an unknown command is counted under is a word of it: the
    [split()] of a stripped, non-empty name is not empty. *)
Lemma split_ws_strip_ne s : strip s ≠ "" → split_ws (strip s) ≠ [].
Proof.
  unfold split_ws, strip. rewrite chars_str. intros Hne H%map_eq_nil.
  destruct (strip_chars is_space (chars s)) as [|c l] eqn:E; [done|].
  assert (is_space c = false) as Hc.
  { apply (strip_chars_ends _ (chars s)). left. by rewrite E. }
  simpl in H. rewrite Hc in H. by apply words_chars_ne in H.
Qed.

Lemma usage_name_strip s : usage_name (strip s) = usage_name s.
Proof. unfold usage_name. by rewrite strip_idemp. Qed.

(** ** What an execution does *)

Section Execution.
Context (x : Executor) (c : CliProcessCommand).

(** A filter that answers without raising. *)
Definition filters_answer : Prop :=
  Forall (λ f : ICliProcessorFilter, ∀ p s, ∃ b s', f p s = (inr b, s')) (x_filters x).

Lemma any_blocks_answers fs p s :
  Forall (λ f : ICliProcessorFilter, ∀ p s, ∃ b s', f p s = (inr b, s')) fs →
  ∃ b s', any_blocks fs p s = (inr b, s').
Proof.
  intros Hf. revert s; induction Hf as [|f fs Hf _ IH]; intros s; simpl; [by eexists _, _|].
  destruct (Hf p s) as (b & s' & E). rewrite py_bind_eq, E. destruct b; simpl; [apply IH|by eexists _, _].
Qed.

Lemma apply_response_limits_within max_rows r o :
  0 < max_rows → o ∈ outputs (apply_response_limits r max_rows) → within_limit max_rows o.
Proof.
  unfold apply_response_limits. intros Hm. destruct (Z.leb_spec max_rows 0); [lia|]. simpl.
  intros [o' [-> _]]%list_elem_of_fmap. apply apply_output_limits_within.
Qed.

Lemma run_processor_within p s r s' o :
  0 < max_table_rows x → run_processor x c p s = (inr r, s') → o ∈ outputs r →
  within_limit (max_table_rows x) o.
Proof.
  intros Hm. unfold run_processor, try_except. rewrite py_bind_eq.
  destruct (p_handle_structured_async (info p) c s) as [[[m|]|[r'|]] s1]; simpl.
  - intros [= <- <-]. simpl. by intros ->%list_elem_of_singleton.
  - done.
  - intros [= <- <-]. by apply apply_response_limits_within.
  - rewrite py_bind_eq. destruct (p_handle_async (info p) c s1) as [[[m|]|t] s2]; simpl; [|done|];
      intros [= <- <-]; simpl; by intros ->%list_elem_of_singleton.
Qed.

Lemma run_processor_no_raise p s msg : (run_processor x c p s).1 ≠ inl (Exn msg).
Proof.
  unfold run_processor, try_except.
  match goal with |- context [match ?e with _ => _ end] => destruct e as [[[m|]|r] s1] end; done.
Qed.


(** A command that is unknown, or whose processor a filter blocks, answers
    exit code 1 without any handler running: the state is the one the filters
    left. *)
Theorem execute_refused s :
  (find_processor (x_registry x) (command c) (chain_commands c) = None →
    _execute x c s = (inr (error_response ("Unknown command: " +:+ command c)), s)) ∧
  (∀ p s', find_processor (x_registry x) (command c) (chain_commands c) = Some p →
    is_blocked x p s = (inr true, s') →
    _execute x c s =
      (inr (error_response ("Command '" +:+ command c +:+ "' is currently disabled.")), s')).
Proof.
  unfold _execute. split; [by intros ->|]. intros p s' -> Hb. by rewrite py_bind_eq, Hb.
Qed.

(** The counters once an execution that took [d] milliseconds was counted. *)
Definition counted (d : Q) (failed : bool) (now : Z) (t : CliCommandUsageTracker)
    : CliCommandUsageTracker :=
  if is_empty (strip (command c)) then t
  else
    match find_processor (x_registry x) (strip (command c)) [] with
    | Some p => record (cmd p) true d failed None now t
    | None => record (first_word (strip (command c))) false d failed None now t
    end.

Lemma record_usage_counted d failed now s :
  (record_usage x (command c) d failed now s).1 = inr tt ∧
  get_usage (record_usage x (command c) d failed now s).2 = counted d failed now (get_usage s).
Proof.
  unfold record_usage, counted. destruct (is_empty _); [done|]. simpl.
  rewrite get_set_usage. by destruct (find_processor _ _ []).
Qed.

(** Every execution is counted exactly once, under the registered
    processor's name, as a failure exactly when it raised or its exit code is
    not 0; the count and the event do not change its outcome, unless publishing
    the event is itself cancelled. *)
Theorem execute_async_counts caller started ended now s :
  (∀ bus type data audience now s, event_bus x = Some bus →
    get_usage (bus_publish bus type data audience now s).2 = get_usage s) →
  let '(r, s1) := _execute x c s in
  let failed := match r with inr response => negb (exit_code response =? 0) | inl _ => true end in
  let '(r', s') := execute_async x caller c started ended now s in
  (r' = r ∨ r' = inl Cancelled ∧ event_bus x ≠ None) ∧
  get_usage s' = counted ((ended - started) * 1000)%Q failed now (get_usage s1).
Proof.
  intros Hbus. unfold execute_async. destruct (_execute x c s) as [r s1].
  set (failed := match r with inr _ => _ | inl _ => _ end).
  rewrite py_bind_eq.
  destruct (record_usage_counted ((ended - started) * 1000)%Q failed now s1) as [Hr Hu].
  destruct (record_usage _ _ _ _ _ s1) as [r2 s2]. simpl in Hr, Hu. subst r2. rewrite <- Hu.
  unfold notify_executed. destruct (event_bus x) as [bus|] eqn:Hx; [|by split; [left|]].
  destruct (is_empty _); [by split; [left|]|].
  destruct (find_processor _ _ _) as [p|]; [|by split; [left|]].
  set (d := (_ ++ _)). set (a := Some _).
  pose proof (Hbus bus "command:executed" d a now s2 eq_refl) as Hk.
  pose proof (λ msg, bus_publish_no_raise (ICliEventBus := bus) "command:executed" d a now s2 msg) as Hn.
  destruct (bus_publish bus _ d a now s2) as [[[msg|]|[]] s3]; simpl in *;
    [destruct (Hn msg eq_refl)|split; [by right|done]|split; [by left|done]].
Qed.
End Execution.
End Executor.

Arguments Executor : clear implicits.

(** ** An executor whose processors count their runs *)
Module ExecutorExample.
Record W := { w_usage : CliCommandUsageTracker; w_runs : list string }.
#[export] Instance W_usage : HasUsage W.
Proof.
  refine {| get_usage := w_usage; set_usage := λ u s, {| w_usage := u; w_runs := w_runs s |} |}.
  reflexivity.
Defined.

Definition proc (name : string) (structured : py W exn (option CliServerResponse))
    : ICliCommandProcessor W CliServerResponse :=
  Processor {| p_command := name; p_description := ""; p_version := "1.0.0";
    p_allow_unlisted_commands := None; p_value_required := None; p_parameters := None; p_required_permissions := None;
    p_handle_async := λ _, mret "ok";
    p_handle_structured_async := λ _,
      (_ ← modify (λ s, {| w_usage := w_usage s; w_runs := w_runs s ++ [name] |}); structured) |} None.

Definition rows3 : CliServerResponse :=
  {| exit_code := 0; outputs := [TableOutput {| headers := ["n"]; rows := [["1"]; ["2"]; ["3"]]; page := None |}] |}.

Definition x : Executor W :=
  {| x_registry := register (proc "Boom" (raise (Exn "boom"))) (register (proc "rows" (mret (Some rows3))) []);
     x_filters := [λ p, mret (negb (bool_decide (cmd p = "off")))];
     max_table_rows := 2; event_bus := None |}.

Definition w0 : W := {| w_usage := {| since := 0; _usage := [] |}; w_runs := [] |}.
Definition c (name : string) : CliProcessCommand :=
  {| command := name; raw_command := name; value := None; args := []; chain_commands := [];
     data := VNone; positionals := None |}.

Lemma filters_ok : filters_answer x.
Proof. repeat constructor. intros p s. by eexists _, _. Qed.


Lemma execute_async_counts_witness :
  get_usage (execute_async x None (c " boom") 0 2 7 w0).2 =
  record "Boom" true (2000 # 1) true None 7 (w_usage w0).
Proof.
  refine (eq_trans (proj2 (execute_async_counts x (c " boom") None 0 2 7 w0 _)) _); [done|reflexivity].
Defined.

Example unknown_runs_nothing : w_runs (execute_async x None (c "nope") 0 1 7 w0).2 = [].
Proof. reflexivity. Qed.
Example boom_is_contained :
  (execute_async x None (c "boom") 0 1 7 w0).1 = inr (error_response "Error executing command: boom").
Proof. reflexivity. Qed.
End ExecutorExample.
