(* ===== verification/CommandRoutes.v ===== *)
(** * The command routes ([core/controllers/cli_controller.py], [cli_version_controller.py])

    The descriptors of the commands, the capabilities, and the two routes that
    run a command.  [POST /execute/stream] answers through an async generator
    that works beside the task of the processor: a state of it is a [Stream],
    what can happen next a [label], and [advance] the state after it.  The
    texts of the events are [sse_event]; what a client that went away would
    have been sent is not sent. *)

From S2P Require Import Prelude PyStr Values Commands Events Outputs Usage Executor.
From Stdlib Require Import Ascii QArith.QArith.

Open Scope Z_scope.

Definition SERVER_VERSION : string := "1.0.0".

(** ** What the server can do *)

Definition detected_os (system : string) : string :=
  if bool_decide (system = "Darwin") then "darwin" else if bool_decide (system = "Windows") then "win32" else "linux".
Definition shell_path (system : string) : string :=
  if bool_decide (system = "Windows") then "C:\Windows\System32\WindowsPowerShell\v1.0\powershell.exe" else "/bin/bash".
(** [shell_auth]: the mode the callback gives *)
Definition get_capabilities (system : string) (enable_shell : bool) (shell_auth : option string) : dict string pyval :=
  [("shell", VBool enable_shell); ("os", VStr (detected_os system)); ("shellPath", VStr (shell_path system));
   ("version", VStr SERVER_VERSION); ("streaming", VBool true)] ++
  (if enable_shell then [("shellAuth", VStr (if truthy_opt shell_auth then or_empty shell_auth else "locked"))] else []).
Definition get_versions : dict string pyval :=
  [("supportedVersions", VList [VInt 1]); ("preferredVersion", VInt 1); ("serverVersion", VStr SERVER_VERSION)].

(** ** JSON of outputs *)

Definition some_field (k : string) (v : option pyval) : dict string pyval := match v with Some v => [(k, v)] | None => [] end.

(** [output.model_dump(by_alias=True, exclude_none=True)] *)
Definition dump_output (o : CliServerOutput) : dict string pyval :=
  match o with
  | TextOutput t style => [("type", VStr "text"); ("value", VStr t)] ++ some_field "style" (VStr <$> style)
  | TableOutput t =>
      [("type", VStr "table"); ("headers", VList (map VStr (headers t))); ("rows", VList (map (λ r, VList (map VStr r)) (rows t)))] ++
      some_field "page" (dump_page <$> page t)
  | ListOutput items ordered => [("type", VStr "list"); ("items", VList (map VStr items))] ++ some_field "ordered" (VBool <$> ordered)
  | JsonOutput v => ("type", VStr "json") :: match v with VNone => [] | v => [("value", v)] end
  | KeyValueOutput entries =>
      [("type", VStr "key-value"); ("entries", VList (map (λ e, VDict [("key", VStr e.1); ("value", VStr e.2)]) entries))]
  end.
Definition dump_response (r : CliServerResponse) : dict string pyval :=
  [("exitCode", VInt (exit_code r)); ("outputs", VList (map (λ o, VDict (dump_output o)) (outputs r)))].

(** Whether [json.dumps] accepts a value: a [datetime] it does not *)
Fixpoint serializable (v : pyval) : bool :=
  match v with
  | VTime _ => false
  | VList l => forallb serializable l
  | VDict d => forallb (λ kv, serializable kv.2) d
  | _ => true
  end.
Definition not_serializable : string := "Object of type datetime is not JSON serializable".

(** An event of the stream, and its text; [dumps] is [json.dumps] *)
Definition sse : Type := string * dict string pyval.
Definition newline_char : string := String (ascii_of_nat 10) "".
Definition sse_event (dumps : pyval → string) (e : sse) : string :=
  "event: " +:+ e.1 +:+ newline_char +:+ "data: " +:+ dumps (VDict e.2) +:+ newline_char +:+ newline_char.

Definition error_event (m : string) : sse := ("error", [("message", VStr m)]).
Definition done_event (code : option Z) : sse := ("done", [("exitCode", match code with Some z => VInt z | None => VNone end)]).
Definition output_event (o : dict string pyval) : sse := ("output", o).
Definition executing (m : string) : string := "Error executing command: " +:+ m.

Section Routes.
Context {World : Type} `{HU : HasUsage World}.
Abbreviation ICliCommandProcessor := (Commands.ICliCommandProcessor World CliServerResponse).
Abbreviation ProcessorInfo := (Commands.ProcessorInfo World CliServerResponse).

(** ** Descriptors *)

Definition parameter_dto (p : CliCommandParameterDescriptor) : dict string pyval :=
  [("name", VStr (d_name p)); ("description", VStr (d_description p)); ("required", VBool (d_required p)); ("type", VStr (d_type p))] ++
  some_field "aliases" ((λ l, VList (map VStr l)) <$> d_aliases p) ++
  match d_default_value p with VNone => [] | v => [("defaultValue", v)] end.

Definition nonempty {A} (l : list A) : option (list A) := match l with [] => None | l => Some l end.

(** [author]: the name and the email of a processor's author *)
Fixpoint _map_to_descriptor (author : ProcessorInfo → string * string) (p : ICliCommandProcessor) : pyval :=
  let 'Processor i subs := p in
  VDict
    ([("command", VStr (p_command i)); ("description", VStr (p_description i)); ("version", VStr (p_version i))] ++
     some_field "parameters" ((λ l, VList (map (λ p, VDict (parameter_dto p)) l)) <$> (p_parameters i ≫= nonempty)) ++
     match subs with
     | None | Some [] => []
     | Some l => [("processors", VList (map (_map_to_descriptor author) l))]
     end ++
     some_field "allowUnlistedCommands" (VBool <$> p_allow_unlisted_commands i) ++
     some_field "valueRequired" (VBool <$> p_value_required i) ++
     [("author", VDict [("name", VStr (author i).1); ("email", VStr (author i).2)])] ++
     some_field "requiredPermissions" ((λ l, VList (map VStr l)) <$> (p_required_permissions i ≫= nonempty))).
Definition get_commands (author : ProcessorInfo → string * string) (r : CliCommandRegistry World CliServerResponse) : list pyval :=
  map (_map_to_descriptor author) (registry_processors r).

(** ** Running a command *)

(** Who calls: [ctx.can] and the user id of the auth context *)
Record CommandCaller := { caller_can : string → bool; caller_id : option string }.
Definition stream_user (c : option CommandCaller) : option string := c ≫= λ c, caller_user_id (caller_id c).

Inductive command_answer := Forbidden (missing : list string) | Body (d : dict string pyval).

Definition execute_command (x : Executor World) (caller : option CommandCaller) (c : CliProcessCommand) (started ended : Q) (now : Z)
    : py World exn command_answer :=
  match _permission_denied (x_registry x) (caller_can <$> caller) (command c) (chain_commands c) with
  | Some missing => mret (Forbidden missing)
  | None =>
      result ← execute_async x (stream_user caller) c started ended now;
      mret (Body (dump_response result))
  end.

(** ** The stream *)

(** What the generator does until it waits for the first time: it ends with
    events to send and what it counts ([None]: the executor counts), or it
    listens to the task of the processor. *)
Inductive beginning := Ends (events : list sse) (usage : option bool) | Listens.

(** The outputs of a response, up to the first that [json.dumps] refuses *)
Fixpoint response_events (os : list CliServerOutput) (code : Z) : list sse :=
  match os with
  | [] => [done_event (Some code)]
  | o :: os =>
      if serializable (VDict (dump_output o)) then output_event (dump_output o) :: response_events os code
      else [error_event (executing not_serializable)]
  end.

(** The [except] clauses around the generator *)
Definition on_exception (usage : option bool) (e : exn) : beginning :=
  match e with
  | Exn m => Ends [error_event (executing m)] (match usage with Some _ => Some true | None => None end)
  | Cancelled => Ends [] usage
  end.

Definition begin_stream (stream_capable : ICliCommandProcessor → bool) (x : Executor World) (caller : option string) (c : CliProcessCommand)
    (started ended : Q) (now : Z) : py World exn beginning :=
  match find_processor (x_registry x) (command c) (chain_commands c) with
  | None => mret (Ends [error_event ("Unknown command: " +:+ command c)] (Some true))
  | Some p =>
      try_except
        (blocked ← is_blocked x p;
         if blocked : bool then mret (Ends [error_event ("Command '" +:+ command c +:+ "' is currently disabled.")] (Some true))
         else if stream_capable p then mret Listens
         else
           try_except (response ← execute_async x caller c started ended now; mret (Ends (response_events (outputs response) (exit_code response)) None))
             (λ e, mret (on_exception None e)))
        (λ e, mret (on_exception (Some true) e))
  end.

(** The generator: it sends the events that are left, it polls the queue, or it
    is over, the usage counted. *)
Inductive gen_phase := Sending (events : list sse) (usage : option bool) | Looping | Over (usage : option bool).

(** The task of the processor *)
Inductive task_state := NoTask | Running | Ended (r : exn + option Z).

Record Stream := {
  st_world : World;
  st_phase : gen_phase;
  st_queue : list sse;
  st_task : task_state;
  st_cancelled : bool;                  (* the cancellation event *)
  st_task_cancelled : bool;             (* [task.cancel()] was called *)
  st_sent : list sse;
}.

Definition set_gen_phase (p : gen_phase) (s : Stream) : Stream :=
  {| st_world := st_world s; st_phase := p; st_queue := st_queue s; st_task := st_task s; st_cancelled := st_cancelled s;
     st_task_cancelled := st_task_cancelled s; st_sent := st_sent s |}.
Definition start_stream (b : beginning) (w : World) : Stream :=
  {| st_world := w; st_phase := match b with Ends es u => Sending es u | Listens => Looping end; st_queue := []; st_task := match b with Ends _ _ => NoTask | Listens => Running end;
     st_cancelled := false; st_task_cancelled := false; st_sent := [] |}.

(** [usage_failed = exit_code not in (0, None)] *)
Definition code_failed (code : option Z) : bool := match code with Some z => negb (z =? 0) | None => false end.

(** After the loop: the result of the task *)
Definition after_loop (s : Stream) : gen_phase :=
  if st_cancelled s then Sending [] (Some false)
  else
    match st_task s with
    | Ended (inr code) => Sending [done_event code] (Some (code_failed code))
    | Ended (inl (Exn m)) => Sending [error_event (executing m)] (Some true)
    | _ => Sending [] (Some false)
    end.

Definition task_done (s : Stream) : bool := match st_task s with Ended _ => true | _ => false end.

(** One round of [while not task.done() or not queue.empty()] *)
Definition poll (s : Stream) : Stream :=
  if task_done s && bool_decide (st_queue s = []) then set_gen_phase (after_loop s) s
  else if st_cancelled s then
    {| st_world := st_world s; st_phase := Sending [] (Some false); st_queue := st_queue s; st_task := st_task s; st_cancelled := true;
       st_task_cancelled := true; st_sent := st_sent s |}
  else
    match st_queue s with
    | [] => s
    | e :: q =>
        {| st_world := st_world s; st_phase := Looping; st_queue := q; st_task := st_task s; st_cancelled := st_cancelled s;
           st_task_cancelled := st_task_cancelled s; st_sent := st_sent s ++ [e] |}
    end.

(** The [finally] block *)
Definition finish (x : Executor World) (c : CliProcessCommand) (caller : option string) (duration_ms : Q) (now : Z) (usage : option bool)
    (s : Stream) : Stream :=
  let w := match usage with
           | None => st_world s
           | Some failed =>
               ((_ ← record_usage x (command c) duration_ms failed now;
                 notify_executed x (command c) duration_ms failed caller caller now) (st_world s)).2
           end in
  {| st_world := w; st_phase := Over usage; st_queue := st_queue s; st_task := st_task s; st_cancelled := st_cancelled s;
     st_task_cancelled := st_task_cancelled s; st_sent := st_sent s |}.

(** [emit_to_queue]: [None] raises, in the processor *)
Definition emit_to_queue (max_rows : Z) (output : dict string pyval) (s : Stream) : option Stream :=
  if st_cancelled s then Some s
  else
    match apply_output_limits_dict output max_rows with
    | None => None
    | Some o =>
        if serializable (VDict o) then
          Some {| st_world := st_world s; st_phase := st_phase s; st_queue := st_queue s ++ [output_event o]; st_task := st_task s;
                  st_cancelled := st_cancelled s; st_task_cancelled := st_task_cancelled s; st_sent := st_sent s |}
        else None
    end.

(** What happens next: the generator runs ([LStep]: it sends, polls or ends),
    the client goes away, or the processor does something while it runs. *)
Inductive label :=
| LStep (duration_ms : Q) (now : Z)
| LGone (duration_ms : Q) (now : Z)
| LEmit (output : dict string pyval)
| LWork (w : World)
| LCancel
| LEnd (r : exn + option Z).

Definition advance (x : Executor World) (c : CliProcessCommand) (caller : option string) (max_rows : Z) (l : label) (s : Stream) : option Stream :=
  match l with
  | LStep d now =>
      match st_phase s with
      | Sending (e :: es) u =>
          Some {| st_world := st_world s; st_phase := Sending es u; st_queue := st_queue s; st_task := st_task s; st_cancelled := st_cancelled s;
                  st_task_cancelled := st_task_cancelled s; st_sent := st_sent s ++ [e] |}
      | Sending [] u => Some (finish x c caller d now u s)
      | Looping => Some (poll s)
      | Over _ => None
      end
  | LGone d now =>
      match st_phase s with
      | Sending _ u => Some (finish x c caller d now u s)
      | Looping => Some (finish x c caller d now (Some false) s)
      | Over _ => None
      end
  | LEmit o => match st_task s with Running => emit_to_queue max_rows o s | _ => None end
  | LWork w =>
      match st_task s with
      | Running => Some {| st_world := w; st_phase := st_phase s; st_queue := st_queue s; st_task := Running; st_cancelled := st_cancelled s;
                        st_task_cancelled := st_task_cancelled s; st_sent := st_sent s |}
      | _ => None
      end
  | LCancel =>
      match st_task s with
      | Running => Some {| st_world := st_world s; st_phase := st_phase s; st_queue := st_queue s; st_task := Running; st_cancelled := true;
                        st_task_cancelled := st_task_cancelled s; st_sent := st_sent s |}
      | _ => None
      end
  | LEnd r =>
      match st_task s with
      | Running => Some {| st_world := st_world s; st_phase := st_phase s; st_queue := st_queue s; st_task := Ended r; st_cancelled := st_cancelled s;
                        st_task_cancelled := st_task_cancelled s; st_sent := st_sent s |}
      | _ => None
      end
  end.

(** What can happen, in order; [None]: it cannot. *)
Fixpoint run_stream (x : Executor World) (c : CliProcessCommand) (caller : option string) (max_rows : Z) (ls : list label) (s : Stream) : option Stream :=
  match ls with
  | [] => Some s
  | l :: ls => match advance x c caller max_rows l s with Some s => run_stream x c caller max_rows ls s | None => None end
  end.

(** ** What a client is sent *)

(** The outputs of a run that the queue takes: until the cancellation event *)
Fixpoint emitted (max_rows : Z) (ls : list label) : list sse :=
  match ls with
  | [] | LCancel :: _ => []
  | LEmit o :: ls => match apply_output_limits_dict o max_rows with Some o => output_event o :: emitted max_rows ls | None => emitted max_rows ls end
  | _ :: ls => emitted max_rows ls
  end.
Definition final_events (r : exn + option Z) : list sse :=
  match r with
  | inr code => [done_event code]
  | inl (Exn m) => [error_event (executing m)]
  | inl Cancelled => []
  end.
Definition result_failed (r : exn + option Z) : bool :=
  match r with inr code => code_failed code | inl (Exn _) => true | inl Cancelled => false end.
Definition expected_end (t : task_state) : list sse := match t with Ended r => final_events r | _ => [] end.

Definition cancels (l : label) : bool := match l with LCancel => true | _ => false end.
Definition goes (l : label) : bool := match l with LGone _ _ => true | _ => false end.

Section Runs.
Context (x : Executor World) (c : CliProcessCommand) (caller : option string) (max_rows : Z).
Implicit Types (s : Stream) (ls : list label).
Local Abbreviation run := (run_stream x c caller max_rows).
Local Abbreviation adv := (advance x c caller max_rows).

Lemma run_app ls1 ls2 s : run (ls1 ++ ls2) s = run ls1 s ≫= run ls2.
Proof. revert s; induction ls1 as [|l ls1 IH]; intros s; simpl; [done|]. by destruct (adv l s). Qed.

Lemma emitted_snoc ls l :
  emitted max_rows (ls ++ [l]) =
  emitted max_rows ls ++
  match l with
  | LEmit o => if existsb cancels ls then [] else match apply_output_limits_dict o max_rows with Some o => [output_event o] | None => [] end
  | _ => []
  end.
Proof.
  induction ls as [|k ls IH]; simpl.
  - by destruct l.
  - destruct k; simpl; try done; [|by destruct l]. destruct (apply_output_limits_dict _ _); [|done]. simpl. by rewrite IH.
Qed.

(** The invariant of a run of [ls]: while the generator polls, what was sent and
    what waits are what was emitted; when it leaves the loop because the task
    ended, the queue is empty and what it has to send is the end. *)
Definition pending_ok (ls : list label) s : Prop :=
  match st_phase s with
  | Looping => st_sent s ++ st_queue s = emitted max_rows ls
  | Sending es u =>
      (st_sent s ++ es = emitted max_rows ls ++ expected_end (st_task s) ∧ st_queue s = [] ∧
       ∃ r, st_task s = Ended r ∧ u = Some (result_failed r)) ∨
      (es = [] ∧ st_cancelled s = true ∧ st_sent s `prefix_of` emitted max_rows ls)
  | Over u =>
      (st_sent s = emitted max_rows ls ++ expected_end (st_task s) ∧ ∃ r, st_task s = Ended r ∧ u = Some (result_failed r)) ∨
      (existsb cancels ls || existsb goes ls = true ∧ st_sent s `prefix_of` emitted max_rows ls ++ expected_end (st_task s))
  end.
Definition run_ok (ls : list label) s : Prop := st_cancelled s = existsb cancels ls ∧ pending_ok ls s.

Lemma emit_to_queue_cases o s s' :
  emit_to_queue max_rows o s = Some s' →
  st_phase s' = st_phase s ∧ st_task s' = st_task s ∧ st_sent s' = st_sent s ∧ st_cancelled s' = st_cancelled s ∧
  st_queue s' = st_queue s ++
    if st_cancelled s then [] else match apply_output_limits_dict o max_rows with Some o => [output_event o] | None => [] end.
Proof.
  unfold emit_to_queue. destruct (st_cancelled s) eqn:Hc; [intros [= <-]; by rewrite app_nil_r, Hc|].
  destruct (apply_output_limits_dict o max_rows) as [d|]; [|done]. destruct (serializable _); [|done]. by intros [= <-].
Qed.

Lemma prefix_grow {A} (a b d e : list A) : a `prefix_of` b → a `prefix_of` (b ++ d) ++ e.
Proof. intros ?. rewrite <-(assoc_L (++)). by apply prefix_app_r. Qed.

(** The steps of the generator *)
Lemma generator_ok ls s s' d now :
  run_ok ls s → adv (LStep d now) s = Some s' → run_ok (ls ++ [LStep d now]) s'.
Proof.
  intros [Hc Hp]. unfold run_ok, pending_ok in *. rewrite !existsb_app, emitted_snoc, !app_nil_r. simpl. rewrite !orb_false_r.
  destruct (st_phase s) as [[|e es] u| |u] eqn:Hph; simpl; intros [= <-]; simpl.
  - split; [done|]. rewrite app_nil_r in Hp. destruct Hp as [(? & ? & ?)|(? & Hcc & Hpre)]; [by left|right].
    rewrite Hc in Hcc. rewrite Hcc. split; [done|]. by apply prefix_app_r.
  - split; [done|]. destruct Hp as [(<- & ?)|(? & ?)]; [left|done]. by rewrite <-(assoc_L (++)).
  - unfold poll, after_loop, task_done.
    destruct (st_task s) as [| |[[m|]|code]] eqn:Ht, (st_queue s) as [|e q] eqn:Hq, (st_cancelled s) eqn:Hcc; simpl; rewrite ?Hph, ?Hq, ?Ht, ?Hcc, ?app_nil_r; simpl in *;
      rewrite ?app_nil_r in Hp; (split; [done|]); rewrite <-?Hp; rewrite ?Hph;
      try (by right; repeat split; [by apply prefix_app_r || done..]); try (by rewrite <-(assoc_L (++))); try done;
      left; split_and!; rewrite ?app_nil_r; try done; eauto.
Qed.

(** Whatever the processor does while it runs keeps the invariant. *)
Lemma running_ok ls l s s' :
  run_ok ls s → st_task s = Running →
  (∀ d now, l ≠ LStep d now) → goes l = false →
  st_phase s' = st_phase s → st_sent s' = st_sent s → st_cancelled s' = st_cancelled s || cancels l →
  emitted max_rows (ls ++ [l]) = emitted max_rows ls ++ drop (length (st_queue s)) (st_queue s') →
  firstn (length (st_queue s)) (st_queue s') = st_queue s →
  run_ok (ls ++ [l]) s'.
Proof.
  intros [Hc Hp] Ht Hl Hg Hph Hs Hc' He Hq. unfold run_ok, pending_ok in *.
  rewrite !existsb_app, He, Hph, Hs, Hc'. simpl. rewrite Hg, !orb_false_r, Hc. split; [done|].
  assert (Hpre : ∀ d, st_sent s `prefix_of` emitted max_rows ls ++ expected_end (st_task s) →
     st_sent s `prefix_of` (emitted max_rows ls ++ d) ++ expected_end (st_task s')).
  { intros d. rewrite Ht. simpl. rewrite app_nil_r. by apply prefix_grow. }
  destruct (st_phase s) as [es u| |u].
  - destruct Hp as [(_ & _ & r & Hr & _)|(? & Hcc & ?)]; [congruence|]. right. rewrite <-Hc, Hcc.
    split_and!; [done|done|by apply prefix_app_r].
  - rewrite <-Hp, <-(assoc_L (++)). f_equal. rewrite <-(take_drop (length (st_queue s)) (st_queue s')) at 1. by rewrite Hq.
  - destruct Hp as [(_ & r & Hr & _)|(Hor & ?)]; [congruence|]. right. split; [|by apply Hpre].
    destruct (existsb cancels ls); [done|]. simpl in *. by rewrite Hor, orb_true_r.
Qed.

Lemma gone_ok ls s s' d now : run_ok ls s → adv (LGone d now) s = Some s' → run_ok (ls ++ [LGone d now]) s'.
Proof.
  intros [Hc Hp]. unfold run_ok, pending_ok in *. rewrite !existsb_app, emitted_snoc, !app_nil_r. simpl. rewrite !orb_true_r, orb_false_r.
  destruct (st_phase s) as [es u| |u] eqn:Hph; simpl; intros [= <-]; simpl; (split; [done|]); right; (split; [done|]).
  - destruct Hp as [(<- & _)|(_ & _ & ?)]; [by apply prefix_app_r|by apply prefix_app_r].
  - rewrite <-Hp, <-(assoc_L (++)). by apply prefix_app_r.
Qed.

Lemma advance_ok ls l s s' : run_ok ls s → adv l s = Some s' → run_ok (ls ++ [l]) s'.
Proof.
  intros Hok Ha. destruct l as [d now|d now|o|w| |r]; [by eapply generator_ok|by eapply gone_ok|..];
    simpl in Ha; destruct (st_task s) eqn:Ht; try done.
  - destruct (emit_to_queue_cases o s s' Ha) as (Hp & Ht' & Hs & Hc & Hq).
    eapply running_ok; try done; rewrite ?Hq, ?emitted_snoc, ?Hc; [by rewrite orb_false_r| |apply take_app_length].
    rewrite drop_app_length. by destruct Hok as [<- _].
  - injection Ha as <-. eapply running_ok; try done; rewrite ?emitted_snoc; simpl; [by rewrite orb_false_r|by rewrite drop_all|by rewrite take_ge].
  - injection Ha as <-. eapply running_ok; try done; rewrite ?emitted_snoc; simpl; [by rewrite orb_true_r|by rewrite drop_all|by rewrite take_ge].
  - injection Ha as <-. destruct Hok as [Hc Hp]. unfold run_ok, pending_ok in *.
    rewrite !existsb_app, emitted_snoc, !app_nil_r. simpl. rewrite !orb_false_r. split; [done|].
    destruct (st_phase s) as [es u| |u]; [..|].
    + destruct Hp as [(_ & _ & k & Hr & _)|(? & ? & ?)]; [congruence|]. right. split_and!; [done..|]. done.
    + done.
    + destruct Hp as [(_ & k & Hr & _)|(? & Hpre)]; [congruence|]. right. split; [done|].
      rewrite Ht in Hpre. simpl in Hpre. rewrite app_nil_r in Hpre. by apply prefix_app_r.
Qed.

Lemma run_keeps ls : ∀ ks s s', run_ok ks s → run ls s = Some s' → run_ok (ks ++ ls) s'.
Proof.
  induction ls as [|l ls IH]; intros ks s s' Hok; simpl; [intros [= <-]; by rewrite app_nil_r|].
  destruct (adv l s) as [s1|] eqn:Ha; [|done]. intros Hr.
  replace (ks ++ l :: ls) with ((ks ++ [l]) ++ ls) by by rewrite <-(assoc_L (++)).
  eapply IH; [|done]. by eapply advance_ok.
Qed.
Lemma start_ok w : run_ok [] (start_stream Listens w).
Proof. done. Qed.

(** ** The stream ends *)

(** How many steps the generator still takes once the task has ended *)
Definition steps_left s : nat :=
  match st_phase s with
  | Over _ => 0
  | Sending es _ => S (length es)
  | Looping => length (st_queue s) + 4
  end.

Lemma step_closer d now s r :
  st_task s = Ended r → (0 < steps_left s)%nat →
  ∃ s', adv (LStep d now) s = Some s' ∧ st_task s' = Ended r ∧ (steps_left s' < steps_left s)%nat.
Proof.
  intros Ht. unfold steps_left, advance. destruct (st_phase s) as [[|e es] u| |u] eqn:Hp; simpl; intros Hlt; try lia.
  - eexists; split; [done|]. simpl. split; [done|lia].
  - eexists; split; [done|]. simpl. split; [done|lia].
  - eexists; split; [done|]. unfold poll, after_loop, task_done. rewrite Ht.
    destruct (st_queue s) as [|e q] eqn:Hq, (st_cancelled s) eqn:Hc; simpl; rewrite ?Ht, ?Hq; (split; [done|]); try lia.
    destruct r as [[m|]|code]; simpl; lia.
Qed.

Lemma stream_drains d now n : ∀ s r,
  st_task s = Ended r → (steps_left s ≤ n)%nat →
  ∃ k s' u, (k ≤ n)%nat ∧ run (repeat (LStep d now) k) s = Some s' ∧ st_phase s' = Over u.
Proof.
  induction n as [|n IH]; intros s r Ht Hn.
  - exists 0%nat, s. unfold steps_left in Hn. destruct (st_phase s) as [es u| |u] eqn:Hp; simpl in *; try lia. eauto.
  - destruct (decide (steps_left s = 0%nat)) as [H0|H0]; [destruct (IH s r Ht) as (k & s' & u & ? & ?); [lia|exists k, s', u; split; [lia|done]]|].
    destruct (step_closer d now s r Ht) as (s1 & Ha & Ht1 & Hlt); [lia|].
    destruct (IH s1 r Ht1) as (k & s' & u & Hk & Hr & Hp); [lia|].
    exists (S k), s', u. split; [lia|]. simpl. simpl in Ha. by rewrite Ha.
Qed.

(** A task that ended keeps its result. *)
Lemma ended_stays ls : ∀ s s' r, st_task s = Ended r → run ls s = Some s' → st_task s' = Ended r.
Proof.
  induction ls as [|l ls IH]; intros s s' r Ht; simpl; [by intros [= <-]|].
  destruct (adv l s) as [s1|] eqn:Ha; [|done]. apply IH. destruct l; simpl in Ha; rewrite ?Ht in Ha; try done.
  - destruct (st_phase s) as [[|e es] u| |u]; try done; injection Ha as <-; try done.
    unfold poll, task_done. rewrite Ht. by destruct (st_queue s), (st_cancelled s).
  - destruct (st_phase s) as [[|e es] u| |u]; try done; by injection Ha as <-.
Qed.

Definition undisturbed (ls : list label) : bool := negb (existsb cancels ls || existsb goes ls).
Lemma undisturbed_steps ls d now k : undisturbed ls = true → undisturbed (ls ++ repeat (LStep d now) k) = true.
Proof.
  unfold undisturbed. rewrite !existsb_app. intros H.
  assert (existsb cancels (repeat (LStep d now) k) = false ∧ existsb goes (repeat (LStep d now) k) = false) as [-> ->] by (by induction k).
  by rewrite !orb_false_r.
Qed.
Lemma emitted_steps ls d now k : emitted max_rows (ls ++ repeat (LStep d now) k) = emitted max_rows ls.
Proof.
  induction k as [|k IH]; simpl; [by rewrite app_nil_r|].
  rewrite repeat_cons, (assoc_L (++)), emitted_snoc. by rewrite app_nil_r.
Qed.

(** ** What the theorems say *)


(** In every run, whatever the client and the processor do and in whatever
    order, what was sent is a beginning of what the processor emitted before
    the cancellation, followed by the end its result asks for: nothing is sent
    twice, out of order, or after the end. *)
Theorem stream_prefix ls w s :
  run ls (start_stream Listens w) = Some s →
  st_sent s `prefix_of` emitted max_rows ls ++ expected_end (st_task s).
Proof.
  intros Hr. destruct (run_keeps ls [] _ _ (start_ok w) Hr) as [_ Hp]. simpl in Hp. unfold pending_ok in Hp.
  destruct (st_phase s) as [es u| |u].
  - destruct Hp as [(<- & _)|(_ & _ & ?)]; by apply prefix_app_r.
  - rewrite <-Hp, <-(assoc_L (++)). by apply prefix_app_r.
  - by destruct Hp as [(-> & _)|(_ & ?)].
Qed.

(** The end of a stream counts the execution, once: the generator stays over. *)
Lemma over_stays ls : ∀ s s' u, st_phase s = Over u → run ls s = Some s' → st_phase s' = Over u ∧ st_sent s' = st_sent s.
Proof.
  induction ls as [|l ls IH]; intros s s' u Hp; simpl; [by intros [= <-]|].
  destruct (adv l s) as [s1|] eqn:Ha; [|done]. intros Hr.
  assert (st_phase s1 = Over u ∧ st_sent s1 = st_sent s) as [H1 H2].
  { destruct l; simpl in Ha; rewrite ?Hp in Ha; try done; destruct (st_task s); try done; [|by injection Ha as <-..].
    by destruct (emit_to_queue_cases _ _ _ Ha) as (-> & _ & -> & _). }
  destruct (IH _ _ _ H1 Hr) as [? ?]. split; [done|congruence].
Qed.

Lemma finish_counts s d now failed :
  (∀ bus type data audience now w, event_bus x = Some bus → get_usage (bus_publish bus type data audience now w).2 = get_usage w) →
  get_usage (st_world (finish x c caller d now (Some failed) s)) = counted x c d failed now (get_usage (st_world s)).
Proof.
  intros Hbus. simpl. rewrite py_bind_eq.
  destruct (record_usage_counted x c d failed now (st_world s)) as [Hr Hu].
  destruct (record_usage _ _ _ _ _ _) as [r2 s2]. simpl in Hr, Hu. subst r2. rewrite <-Hu.
  unfold notify_executed. destruct (event_bus x) as [bus|] eqn:Hx; [|done].
  destruct (is_empty _); [done|]. destruct (find_processor _ _ _); [|done]. by apply Hbus.
Qed.

(** A client that goes away while the generator listens ends the generator, but
    not the processor: its task is not cancelled and the cancellation event is
    not set, so the processor runs on, and each output it emits from then on
    stays in the queue, which nothing reads any more. *)
Theorem gone_keeps_running s s1 d now os :
  st_phase s = Looping → st_task s = Running → st_cancelled s = false → st_task_cancelled s = false →
  adv (LGone d now) s = Some s1 →
  Forall (λ o, match apply_output_limits_dict o max_rows with Some o => serializable (VDict o) = true | None => False end) os →
  st_phase s1 = Over (Some false) ∧ st_task_cancelled s1 = false ∧
  ∃ s2, run (map LEmit os) s1 = Some s2 ∧ st_task s2 = Running ∧ st_cancelled s2 = false ∧
        st_sent s2 = st_sent s ∧ length (st_queue s2) = (length (st_queue s) + length os)%nat.
Proof.
  intros Hp Ht Hc Htc. simpl. rewrite Hp. intros [= <-] Hos. split; [done|]. split; [done|].
  set (s1 := finish _ _ _ _ _ _ s).
  assert (st_task s1 = Running ∧ st_cancelled s1 = false) as [H1 H2] by done.
  change (st_sent s) with (st_sent s1). change (st_queue s) with (st_queue s1). clearbody s1. clear Hp Ht Hc Htc s. revert s1 H1 H2.
  induction Hos as [|o os Ho Hos IH]; intros s1 H1 H2; simpl; [exists s1; split_and!; [done..|lia]|].
  rewrite H1. unfold emit_to_queue. rewrite H2. destruct (apply_output_limits_dict o max_rows) as [o'|]; [|done]. cbn [serializable] in *. rewrite Ho.
  destruct (IH {| st_world := st_world s1; st_phase := st_phase s1; st_queue := st_queue s1 ++ [output_event o']; st_task := Running;
                  st_cancelled := false; st_task_cancelled := st_task_cancelled s1; st_sent := st_sent s1 |}) as (s2 & Hr & ? & ? & ? & Hl); [done..|].
  exists s2. split; [by rewrite H1|]. split_and!; [done..|]. rewrite Hl. simpl. rewrite length_app. simpl. lia.
Qed.
End Runs.

(** ** The other answers *)

(** What a command that is not streamed, or not found, or blocked, is answered:
    the generator only sends what it decided before, and ends. *)
Lemma sends_all x c caller max_rows d now es u : ∀ w sent,
  run_stream x c caller max_rows (repeat (LStep d now) (S (length es)))
    {| st_world := w; st_phase := Sending es u; st_queue := []; st_task := NoTask; st_cancelled := false; st_task_cancelled := false; st_sent := sent |} =
  Some (finish x c caller d now u
    {| st_world := w; st_phase := Sending [] u; st_queue := []; st_task := NoTask; st_cancelled := false; st_task_cancelled := false; st_sent := sent ++ es |}).
Proof.
  induction es as [|e es IH]; intros w sent; simpl; [by rewrite app_nil_r|].
  specialize (IH w (sent ++ [e])). simpl in IH. rewrite <-(assoc_L (++)) in IH. exact IH.
Qed.
Lemma ends_sends x c caller max_rows d now es u w :
  run_stream x c caller max_rows (repeat (LStep d now) (S (length es))) (start_stream (Ends es u) w) =
  Some (finish x c caller d now u
    {| st_world := w; st_phase := Sending [] u; st_queue := []; st_task := NoTask; st_cancelled := false; st_task_cancelled := false; st_sent := es |}).
Proof. apply sends_all. Qed.

(** Outputs that JSON can write are all sent, and [done] after them. *)
Lemma response_events_all os code :
  forallb (λ o, serializable (VDict (dump_output o))) os = true →
  response_events os code = map (λ o, output_event (dump_output o)) os ++ [done_event (Some code)].
Proof.
  induction os as [|o os IH]; simpl; [done|]. intros [Ho Hos]%andb_true_iff. by rewrite Ho, IH.
Qed.
Lemma only_json_refused o : (∀ v, o ≠ JsonOutput v) → serializable (VDict (dump_output o)) = true.
Proof.
  intros Hv. assert (Hl : ∀ l, forallb serializable (map VStr l) = true) by (by induction l).
  destruct o as [t st|t|items ord|v|entries]; simpl; [by destruct st| | |by destruct (Hv v)|].
  - rewrite Hl. simpl. replace (forallb serializable (map (λ r, VList (map VStr r)) (rows t))) with true by (induction (rows t) as [|r rs IH]; simpl; [done|by rewrite Hl, <-IH]).
    by destruct (page t) as [[? ? [] ? []]|].
  - rewrite Hl. by destruct ord.
  - rewrite andb_true_r. induction entries as [|e es IH]; simpl; [done|by rewrite IH].
Qed.
End Routes.

(** ** A stream of two outputs *)
Module CommandRoutesExample.
Import ExecutorExample.
Definition text (t : string) : dict string pyval := [("type", VStr "text"); ("value", VStr t)].
Definition rows4 : dict string pyval :=
  [("type", VStr "table"); ("headers", VList [VStr "n"]); ("rows", VList [VList [VStr "1"]; VList [VStr "2"]; VList [VStr "3"]])].
Definition talk : list (@label W) := [LStep 0 7; LEmit (text "one"); LStep 0 7; LEmit rows4; LEnd (inr (Some 3))].
Definition cut : dict string pyval :=
  default [] (apply_output_limits_dict rows4 2).
Definition talked : @Stream W :=
  {| st_world := w0; st_phase := Looping; st_queue := [output_event cut]; st_task := Ended (inr (Some 3)); st_cancelled := false;
     st_task_cancelled := false; st_sent := [output_event (text "one")] |}.


Lemma stream_prefix_witness :
  st_sent talked `prefix_of` emitted 2 talk ++ [done_event (Some 3)].
Proof. exact (stream_prefix x (c "rows") None 2 talk w0 talked eq_refl). Defined.

Definition waiting : @Stream W := start_stream Listens w0.
Lemma gone_keeps_running_witness :
  st_phase (finish x (c "rows") None 4 9 (Some false) waiting) = Over (Some false) ∧
  ∃ s2, run_stream x (c "rows") None 2 (map LEmit [text "one"; text "two"]) (finish x (c "rows") None 4 9 (Some false) waiting) = Some s2 ∧
    st_task s2 = Running ∧ length (st_queue s2) = 2%nat.
Proof.
  pose proof (gone_keeps_running x (c "rows") None 2 waiting (finish x (c "rows") None 4 9 (Some false) waiting) 4 9 [text "one"; text "two"]
    eq_refl eq_refl eq_refl eq_refl eq_refl) as (? & _ & s2 & ? & ? & _ & _ & ?); [by repeat constructor|].
  split; [done|]. by exists s2.
Defined.

Example counted_as_failed :
  get_usage ∘ st_world <$> run_stream x (c "rows") None 2 (talk ++ [LStep 0 9; LStep 0 9; LStep 0 9; LStep 8 9]) (start_stream Listens w0) =
  Some (record "rows" true 8 true None 9 (w_usage w0)).
Proof. reflexivity. Qed.
(** A processor that ends in [CancelledError] ends the stream without a final event. *)
Example cancelled_ends_bare :
  (λ s, (st_phase s, st_sent s)) <$> run_stream x (c "rows") None 2 [LEmit (text "one"); LEnd (inl Cancelled); LStep 0 9; LStep 0 9; LStep 0 9] (start_stream Listens w0) =
  Some (Over (Some false), [output_event (text "one")]).
Proof. reflexivity. Qed.
(** A JSON output of [None] is sent without its value. *)
Example none_loses_value : dump_output (JsonOutput VNone) = [("type", VStr "json")].
Proof. reflexivity. Qed.
Example unknown_is_told :
  (begin_stream (λ _, false) x None (c "nope") 0 1 7 w0).1 = inr (Ends [error_event "Unknown command: nope"] (Some true)).
Proof. reflexivity. Qed.
Example rows_are_answered :
  (begin_stream (λ _, false) x None (c "rows") 0 1 7 w0).1 =
  inr (Ends [output_event (dump_output (TableOutput {| headers := ["n"]; rows := [["1"]; ["2"]]; page := Some (_truncated_page 2 3) |}));
             done_event (Some 0)] None).
Proof. reflexivity. Qed.
Example event_text dumps :
  sse_event dumps (done_event (Some 0)) = ("event: done" +:+ newline_char +:+ "data: " +:+ dumps (VDict [("exitCode", VInt 0)]) +:+ newline_char +:+ newline_char)%string.
Proof. reflexivity. Qed.
Example descriptor_ex :
  map (_map_to_descriptor (λ _, ("Team", "t@x"))) [Processor (info (proc "a" (mret None))) (Some [proc "b" (mret None)])] =
  let author := ("author", VDict [("name", VStr "Team"); ("email", VStr "t@x")]) in
  [VDict [("command", VStr "a"); ("description", VStr ""); ("version", VStr "1.0.0");
     ("processors", VList [VDict [("command", VStr "b"); ("description", VStr ""); ("version", VStr "1.0.0"); author]]); author]].
Proof. reflexivity. Qed.
End CommandRoutesExample.
