(* ===== verification/JobModel.v ===== *)
(** * The data of the background jobs

    [jobs/*.py] of the abstractions (options, executions, states, queries) and
    [interval_parser.py].  A [datetime] is the record of [Values.v]; a duration in
    milliseconds is an integer, as the scheduler rounds it. *)

From S2P Require Import Prelude PyStr Values.
From Stdlib Require Import Ascii.

Record JobLogEntry := { log_timestamp : datetime; level : string; message : string }.

Record JobExecution := {
  id : string;
  job_id : string;
  job_name : string;
  status : string;
  started_at : datetime;
  completed_at : option datetime;
  duration : option Z;
  error : option string;
  logs : list JobLogEntry;
  retry_attempt : Z;
  properties : dict string pyval;
}.

Record JobState := {
  state_status : string;
  state_last_run_at : option datetime;
  state_updated_at : datetime;
}.

Record CliJobOptions := {
  name : option string;
  description : option string;
  group : option string;
  schedule : option string;
  interval : option string;
  enabled : bool;
  max_retries : Z;
  retry_delay : string;
  retry_strategy : string;
  timeout : option string;
  overlap_policy : string;
  max_concurrent_runs : Z;
  opt_id : option string;
  run_on_start : bool;
}.

Definition default_options : CliJobOptions :=
  {| name := None; description := None; group := None; schedule := None; interval := None;
     enabled := true; max_retries := 1; retry_delay := "5s"; retry_strategy := "exponential";
     timeout := None; overlap_policy := "skip"; max_concurrent_runs := 1; opt_id := None;
     run_on_start := false |}.

(** ** Intervals ([interval_parser.py]) *)

Definition multiplier (unit : ascii) : option Z :=
  if Ascii.eqb unit "s" then Some 1
  else if Ascii.eqb unit "m" then Some 60
  else if Ascii.eqb unit "h" then Some 3600
  else if Ascii.eqb unit "d" then Some 86400
  else None.

(** [parse_interval]: whole seconds; [None] is [ValueError].  The digits are
    those of [\d+], the last character is the unit. *)
Definition parse_interval (value : string) : option Z :=
  match rev (chars (strip value)) with
  | [] => None
  | unit :: digits =>
      if forallb is_digit digits && negb (bool_decide (length digits = 0%nat)) then
        amount ← py_int (str (rev digits));
        m ← multiplier unit;
        Some (amount * m)
      else None
  end.

(** The message of that [ValueError]. *)
Definition interval_error (value : string) : string :=
  "Invalid interval format: " +:+ py_repr value +:+
  ". Expected a number followed by s, m, h, or d (e.g. '30s', '5m').".

Example parse_interval_ex :
  map parse_interval ["30s"; " 5m "; "1h"; "2d"; "0s"; "s"; "5"; "1_0s"; "-1s"; "5 s"] =
  [Some 30; Some 300; Some 3600; Some 172800; Some 0; None; None; None; None; None].
Proof. reflexivity. Qed.

Lemma py_int_digits_nonneg l z :
  Forall (λ c, is_digit c = true) l → py_int (str l) = Some z → 0 ≤ z.
Proof.
  unfold py_int, strip. intros Hl. rewrite !chars_str.
  rewrite (strip_chars_id _ l).
  2,3: intros c Hc; assert (is_digit c = true) as Hd
    by (rewrite Forall_forall in Hl; apply Hl;
        first [by apply last_Some_elem_of|by apply head_Some_elem_of]);
    clear - Hd; destruct c as [[] [] [] [] [] [] [] []]; vm_compute in Hd |- *; done.
  destruct l as [|c l]; [done|]. inversion Hl as [|? ? Hc Hl']; subst.
  destruct (Ascii.eqb_spec c "-"%char) as [->|_]; [done|].
  destruct (Ascii.eqb_spec c "+"%char) as [->|_]; [done|].
  destruct (int_digits 0 0 false (c :: l)) as [[z' n]|] eqn:E; [|done].
  destruct (_ <? n)%nat; [done|]. intros [= <-]. eapply int_digits_nonneg; [|exact E]. lia.
Qed.

(** An interval is never negative. *)
Lemma parse_interval_nonneg value z : parse_interval value = Some z → 0 ≤ z.
Proof.
  unfold parse_interval. destruct (rev (chars (strip value))) as [|unit digits]; [done|].
  destruct (forallb is_digit digits) eqn:Hd; simpl; [|done].
  case_bool_decide; simpl; [done|].
  destruct (py_int (str (rev digits))) as [a|] eqn:Ha; simpl; [|done].
  assert (0 ≤ a) as Ha0.
  { eapply py_int_digits_nonneg; [|exact Ha]. apply Forall_rev.
    apply Forall_forall. intros c Hc. by eapply forallb_forall in Hd; [|apply list_elem_of_In]. }
  unfold multiplier. repeat (destruct (Ascii.eqb unit _); simpl; [intros [= <-]; lia|]). done.
Qed.

(** ** Queries across jobs ([job_execution_query.py]) *)

Record JobExecutionQuery := {
  job_ids : option (list string);
  q_status : option string;
  q_since : option datetime;
  limit : Z;
  offset : Z;
}.

Definition matches (q : JobExecutionQuery) (e : JobExecution) : bool :=
  match job_ids q with Some ids => bool_decide (job_id e ∈ ids) | None => true end &&
  negb (truthy_opt (q_status q) && negb (bool_decide (lower (status e) = lower (or_empty (q_status q))))) &&
  match q_since q with Some t => as_utc t <=? as_utc (started_at e) | None => true end.

(** [sort(key=lambda e: as_utc(e.started_at), reverse=True)]: the reversed sort
    is stable too. *)
Definition newest_le (a b : JobExecution) : bool := as_utc (started_at b) <=? as_utc (started_at a).
Definition sort_newest (l : list JobExecution) : list JobExecution := py_sort newest_le l.

Section Merge.
Context {S E : Type}.
Context (list_job : string → Z → option string → py S E (list JobExecution * Z)).

Fixpoint merge_loop (q : JobExecutionQuery) (size : Z) (st : option string) (ids : list string)
    (merged : list JobExecution) (total : Z) : py S E (list JobExecution * Z) :=
  match ids with
  | [] => mret (merged, total)
  | j :: ids =>
      '(items, count) ← list_job j size st;
      match q_since q with
      | None => merge_loop q size st ids (merged ++ items) (total + count)
      | Some since =>
          let matching := List.filter (λ e, as_utc since <=? as_utc (started_at e)) items in
          merge_loop q size st ids (merged ++ matching) (total + Z.of_nat (length matching))
      end
  end.

Definition merge (q : JobExecutionQuery) (ids : list string) : py S E (list JobExecution * Z) :=
  let size := match q_since q with None => offset q + limit q | Some _ => 2 ^ 31 - 1 end in
  let st := if truthy_opt (q_status q) then Some (lower (or_empty (q_status q))) else None in
  '(merged, total) ← merge_loop q size st (fromkeys [] ids) [] 0;
  mret (py_slice (offset q) (offset q + limit q) (sort_newest merged), total).
End Merge.

(** ** Paging the merge of sorted lists

    The first [n] of the merge only need the first [n] of every list. *)
Section TakeSort.
Context {A : Type} (le : A → A → bool).
Context (le_total : ∀ x y, le x y = true ∨ le y x = true).
Context (le_trans : ∀ x y z, le x y = true → le y z = true → le x z = true).
Abbreviation ins := (sort_insert le).
Abbreviation sorted := (StronglySorted (λ x y, le x y = true)).

Lemma take_ins n x l : take n (ins x l) = take n (ins x (take n l)).
Proof.
  revert n; induction l as [|y l IH]; intros [|n]; simpl; [done..|].
  destruct (le x y); simpl; f_equal.
  - destruct n as [|n]; [done|]. cbn [take]. f_equal. rewrite take_take. f_equal. lia.
  - apply IH.
Qed.

Lemma take_foldr_ins n p l l' :
  take n l = take n l' → take n (foldr ins l p) = take n (foldr ins l' p).
Proof.
  intros H. induction p as [|x p IH]; simpl; [done|]. by rewrite take_ins, IH, <- take_ins.
Qed.

(** Where an element goes. *)
Lemma ins_split x l : sorted l →
  ∃ u v, l = u ++ v ∧ ins x l = u ++ x :: v ∧ Forall (λ y, le x y = true) v.
Proof.
  induction 1 as [|y l Hl (u & v & -> & Hi & Hv) Hy]; simpl; [by exists [], []|].
  destruct (le x y) eqn:E.
  - exists [], (y :: u ++ v). split; [done|]. split; [done|]. constructor; [done|].
    eapply Forall_impl; [exact Hy|]. simpl. eauto.
  - exists (y :: u), v. rewrite Hi. done.
Qed.

(** What is to go before [x] goes before it whether or not [x] is there. *)
Lemma ins_before y u v : Forall (λ z, le y z = true) v → ins y (u ++ v) = ins y u ++ v.
Proof.
  intros Hv. induction u as [|w u IH]; simpl.
  - destruct Hv as [|z v Hz _]; simpl; [done|]. by rewrite Hz.
  - destruct (le y w); [done|]. by rewrite IH.
Qed.

Lemma foldr_ins_before p u v :
  Forall (λ y, Forall (λ z, le y z = true) v) p → foldr ins (u ++ v) p = foldr ins u p ++ v.
Proof. induction 1 as [|y p Hy _ IH]; simpl; [done|]. by rewrite IH, ins_before. Qed.

Lemma foldr_ins_length p u : length (foldr ins u p) = (length p + length u)%nat.
Proof.
  induction p as [|y p IH]; simpl; [done|].
  rewrite (Permutation_length (sort_insert_perm le _ _)). simpl. lia.
Qed.

Lemma take_sort_drop_one n p x l :
  sorted l → (n ≤ length p)%nat → Forall (λ y, le y x = true) p →
  take n (foldr ins (ins x l) p) = take n (foldr ins l p).
Proof.
  intros Hl Hn Hp. destruct (ins_split x l Hl) as (u & v & -> & -> & Hv).
  assert (Forall (λ y, Forall (λ z, le y z = true) v) p) as Hpv.
  { eapply Forall_impl; [exact Hp|]. intros y Hy. eapply Forall_impl; [exact Hv|].
    intros z Hz. exact (le_trans _ _ _ Hy Hz). }
  rewrite !foldr_ins_before.
  - rewrite !take_app_le by (rewrite foldr_ins_length; lia). done.
  - done.
  - eapply Forall_impl; [apply Forall_and; split; [exact Hp|exact Hpv]|]. simpl.
    intros y [Hy Hyv]. by constructor.
Qed.

Lemma take_sort_drop n p r b :
  (n ≤ length p)%nat → Forall (λ y, Forall (λ x, le y x = true) r) p →
  take n (foldr ins (py_sort le (r ++ b)) p) = take n (foldr ins (py_sort le b) p).
Proof.
  intros Hn. induction r as [|x r IH]; simpl; [done|]. intros Hp.
  change (foldr (sort_insert le) [] (r ++ b)) with (py_sort le (r ++ b)).
  rewrite take_sort_drop_one.
  - apply IH. eapply Forall_impl; [exact Hp|]. simpl. by intros y [? ?]%Forall_cons.
  - by apply py_sort_sorted.
  - done.
  - eapply Forall_impl; [exact Hp|]. simpl. by intros y [? ?]%Forall_cons.
Qed.

Lemma sorted_take_drop n l : sorted l →
  Forall (λ y, Forall (λ x, le y x = true) (drop n l)) (take n l).
Proof.
  intros Hl. revert n. induction Hl as [|x l Hl IH Hx]; intros [|n]; simpl; [constructor..|].
  constructor; [|apply IH]. apply Forall_forall. intros y Hy. rewrite Forall_forall in Hx.
  apply Hx. rewrite <- (take_drop n l). set_solver.
Qed.

Lemma take_sort_app n a l b : sorted l →
  take n (py_sort le (a ++ l ++ b)) = take n (py_sort le (a ++ take n l ++ b)).
Proof.
  intros Hl. unfold py_sort. rewrite !(foldr_app _ _ _ a). apply take_foldr_ins.
  destruct (decide (length l ≤ n)%nat); [by rewrite (take_ge l)|].
  rewrite <- (take_drop n l) at 1. rewrite <- app_assoc, !(foldr_app _ _ _ (take n l)).
  apply (take_sort_drop n (take n l) (drop n l) b).
  - rewrite length_take. lia.
  - by apply sorted_take_drop.
Qed.

(** Merging the first [n] of every list gives the first [n] of the merge. *)
Lemma take_sort_concat n ls : Forall sorted ls →
  take n (py_sort le (concat (map (take n) ls))) = take n (py_sort le (concat ls)).
Proof.
  intros Hls. enough (∀ a, take n (py_sort le (a ++ concat (map (take n) ls))) =
    take n (py_sort le (a ++ concat ls))) as H by apply (H []).
  induction Hls as [|l ls Hl _ IH]; intros a; simpl; [done|].
  rewrite app_assoc, IH, <- app_assoc. symmetry. by apply take_sort_app.
Qed.
End TakeSort.

Lemma newest_le_total a b : newest_le a b = true ∨ newest_le b a = true.
Proof. unfold newest_le. rewrite !Z.leb_le. lia. Qed.
Lemma newest_le_trans a b c : newest_le a b = true → newest_le b c = true → newest_le a c = true.
Proof. unfold newest_le. rewrite !Z.leb_le. lia. Qed.

(** A history, newest first. *)
Definition newest_first (l : list JobExecution) : Prop :=
  StronglySorted (λ a b, newest_le a b = true) l.

Section MergeSpec.
Context {S E : Type}.
Context (list_job : string → Z → option string → py S E (list JobExecution * Z)).
(** Each job's history in the store's state [s], and a listing that returns its
    first part and its size, without changing the store. *)
Context (s : S).
Context (history : string → option string → list JobExecution).
Context (history_sorted : ∀ j st, newest_first (history j st)).
Context (list_job_spec : ∀ j n st, 0 ≤ n →
  list_job j n st s = (inr (take (Z.to_nat n) (history j st), Z.of_nat (length (history j st))), s)).

Definition since_filter (q : JobExecutionQuery) (l : list JobExecution) : list JobExecution :=
  match q_since q with
  | None => l
  | Some since => List.filter (λ e, as_utc since <=? as_utc (started_at e)) l
  end.

Definition total_of (ls : list (list JobExecution)) : Z := Z.of_nat (length (concat ls)).

Lemma merge_loop_spec q size st ids merged total :
  0 ≤ size →
  merge_loop list_job q size st ids merged total s =
  (inr (merged ++ concat (map (λ j, since_filter q (take (Z.to_nat size) (history j st))) ids),
        total + match q_since q with
                | None => total_of (map (λ j, history j st) ids)
                | Some _ => total_of (map (λ j, since_filter q (take (Z.to_nat size) (history j st))) ids)
                end), s).
Proof.
  intros Hs. unfold since_filter, total_of. revert merged total.
  induction ids as [|j ids IH]; intros merged total; simpl.
  { rewrite app_nil_r. destruct (q_since q); simpl; by rewrite Z.add_0_r. }
  rewrite py_bind_eq, list_job_spec by done.
  destruct (q_since q) as [t|]; rewrite IH, <- app_assoc, length_app, Nat2Z.inj_add, Z.add_assoc; done.
Qed.

Lemma sort_newest_perm l k : sort_newest l = sort_newest k → length l = length k.
Proof. intros H%(f_equal length). unfold sort_newest in H. by rewrite !py_sort_length in H. Qed.

(** The default query of a store, which reads only the first
    [offset + limit] executions of each job, returns exactly the requested page
    of the newest-first merge of the whole histories and the full count; with
    [since], of the executions started since then (as long as a history fits
    the size that is read then, [2^31 - 1]). *)
Theorem merge_pages q ids :
  0 ≤ offset q → 0 ≤ limit q →
  (q_since q ≠ None → ∀ j st, Z.of_nat (length (history j st)) < 2 ^ 31) →
  let st := if truthy_opt (q_status q) then Some (lower (or_empty (q_status q))) else None in
  let all := concat (map (λ j, since_filter q (history j st)) (fromkeys [] ids)) in
  merge list_job q ids s =
  (inr (py_slice (offset q) (offset q + limit q) (sort_newest all), Z.of_nat (length all)), s).
Proof.
  intros Ho Hl Hbig st all. unfold merge. fold st. rewrite py_bind_eq.
  assert (0 ≤ match q_since q with None => offset q + limit q | Some _ => 2 ^ 31 - 1 end) as Hsize
    by (destruct (q_since q); lia).
  rewrite merge_loop_spec by done. cbn [mret py_ret]. unfold all, since_filter, total_of in *.
  destruct (q_since q) as [t|].
  - assert (∀ j, take (Z.to_nat (2 ^ 31 - 1)) (history j st) = history j st) as Htake.
    { intros j. apply take_ge. specialize (Hbig ltac:(done) j st). lia. }
    rewrite (map_ext _ (λ j, List.filter (λ e, as_utc t <=? as_utc (started_at e)) (history j st)))
      by (intros j; by rewrite Htake).
    done.
  - rewrite !app_nil_l, !Z.add_0_l, !py_slice_nonneg by lia.
    rewrite !take_drop_commute.
    replace (Z.to_nat (offset q) + (Z.to_nat (offset q + limit q) - Z.to_nat (offset q)))%nat
      with (Z.to_nat (offset q + limit q)) by lia.
    rewrite <- (map_map (λ j, history j st) (take _)). unfold sort_newest.
    rewrite (take_sort_concat newest_le); [done|apply newest_le_total|apply newest_le_trans|].
    apply Forall_forall. intros l [j [-> _]]%list_elem_of_fmap. apply history_sorted.
Qed.
End MergeSpec.
