(* ===== verification/JobStorage.v ===== *)
(** * The job storage interface ([cli_job_storage_provider.py])

    [ICliJobStorageProvider] is the operations the scheduler calls, over any
    server state [S]; [JobStorageLaws] is what a correct store promises, stated
    with the history of each job.  [JobMemory.v] has the store of the plugin. *)

From S2P Require Import Prelude PyStr Values JobModel.

(** The exceptions of the jobs plugin; [TimeoutError] is also
    [asyncio.TimeoutError], [HostError] is any other [Exception] and [TaskCancelled] is [asyncio.CancelledError], which [except Exception] lets
    through. *)
Inductive jexn :=
| KeyError (msg : string)
| InvalidOperationError (msg : string)
| ValueError (msg : string)
| InvalidValueError (msg : string)
| ExecutionNotFoundError (msg : string)
| NotSupportedError (msg : string)
| NotImplementedError (msg : string)
| TimeoutError (msg : string)
| HostError (msg : string)
| TaskCancelled.

(** [str(exc)]; that of a [KeyError] is the [repr] of its message, which no code
    here formats. *)
Definition exn_text (e : jexn) : string :=
  match e with
  | KeyError m | InvalidOperationError m | ValueError m | InvalidValueError m
  | ExecutionNotFoundError m | NotSupportedError m | NotImplementedError m
  | TimeoutError m | HostError m => m
  | TaskCancelled => ""
  end.

Class ICliJobStorageProvider (S : Type) := {
  save_execution : JobExecution → py S jexn unit;
  (** job, limit, offset, status *)
  get_executions : string → Z → Z → option string → py S jexn (list JobExecution * Z);
  query_executions : JobExecutionQuery → py S jexn (list JobExecution * Z);
  prune : datetime → py S jexn Z;
  delete_execution : string → py S jexn bool;
  get_execution : string → py S jexn (option JobExecution);
  save_job_state : string → JobState → py S jexn unit;
  get_job_state : string → py S jexn (option JobState);
  get_all_job_states : py S jexn (dict string JobState);
  (** whether the store overrides the base [delete_execution] *)
  overrides_delete : bool;
}.

(** The default methods of the base class. *)
Section Defaults.
Context {S : Type}.
Context (get_execs : string → Z → Z → option string → py S jexn (list JobExecution * Z)).

Definition default_query_executions (q : JobExecutionQuery) : py S jexn (list JobExecution * Z) :=
  match job_ids q with
  | None => raise (NotImplementedError
      "Listing the executions of every job is not supported by this store")
  | Some ids => merge (λ j n st, get_execs j n 0 st) q ids
  end.
Definition default_prune (before : datetime) : py S jexn Z := mret 0.
Definition default_delete_execution (i : string) : py S jexn bool := mret false.
End Defaults.

(** [e.status == status], no status and the empty one match every run. *)
Definition with_status (st : option string) (l : list JobExecution) : list JobExecution :=
  if truthy_opt st then List.filter (λ e, bool_decide (status e = or_empty st)) l else l.

(** A saved run takes the place of the run with its id, else goes first. *)
Fixpoint replace_run (e : JobExecution) (l : list JobExecution) : option (list JobExecution) :=
  match l with
  | [] => None
  | x :: l => if decide (id x = id e) then Some (e :: l) else cons x <$> replace_run e l
  end.
Definition saved_run (e : JobExecution) (l : list JobExecution) : list JobExecution :=
  default (e :: l) (replace_run e l).

Definition without_run (i : string) (l : list JobExecution) : list JobExecution :=
  List.filter (λ e, negb (bool_decide (id e = i))) l.

Class JobStorageLaws (S : Type) `{ICliJobStorageProvider S} := {
  store_ok : S → Prop;
  history : S → string → list JobExecution;
  history_ok : ∀ s j, store_ok s →
    NoDup (map id (history s j)) ∧ Forall (λ e, job_id e = j) (history s j);
  get_executions_ok : ∀ s j lim off st, store_ok s →
    get_executions j lim off st s =
    (inr (py_slice off (off + lim) (with_status st (history s j)),
          Z.of_nat (length (with_status st (history s j)))), s);
  get_execution_ok : ∀ s i, store_ok s →
    ∃ r, get_execution i s = (inr r, s) ∧
      ∀ e, r = Some e ↔ id e = i ∧ e ∈ history s (job_id e);
  delete_execution_ok : ∀ s i, store_ok s →
    let '(r, s') := delete_execution i s in
    (∃ b, r = inr b ∧ (b = true ↔ ∃ j, i ∈ map id (history s j))) ∧
    store_ok s' ∧ ∀ j, history s' j = without_run i (history s j);
  save_execution_ok : ∀ s e, store_ok s →
    (∀ j, j ≠ job_id e → id e ∉ map id (history s j)) →
    let '(r, s') := save_execution e s in
    r = inr tt ∧ store_ok s' ∧
    ∀ j, history s' j = if decide (j = job_id e) then saved_run e (history s j) else history s j;
}.

(** ** Reading a whole history page by page

    The loop of [delete_executions] and of [_finish_interrupted_runs]: [keep]
    says which runs of a page are collected.  [None] when the fuel runs out. *)
Section Pages.
Context {S : Type} `{ICliJobStorageProvider S}.

Fixpoint read_pages (fuel : nat) (j : string) (page : Z) (st : option string)
    (keep : S → JobExecution → bool) (off : Z) (acc : list JobExecution)
    : py S jexn (option (list JobExecution)) :=
  match fuel with
  | O => mret None
  | Datatypes.S fuel =>
      '(items, total) ← get_executions j page off st;
      s ← get_state;
      let acc := acc ++ List.filter (keep s) items in
      let off := off + Z.of_nat (length items) in
      if bool_decide (length items = 0%nat) || (total <=? off) then mret (Some acc)
      else read_pages fuel j page st keep off acc
  end.

Context `{!JobStorageLaws S}.

Lemma read_pages_all fuel j page st keep off acc s :
  store_ok s → 0 < page → 0 ≤ off →
  (length (with_status st (history s j)) - Z.to_nat off < fuel)%nat →
  read_pages fuel j page st keep off acc s =
  (inr (Some (acc ++ List.filter (keep s) (drop (Z.to_nat off) (with_status st (history s j))))), s).
Proof.
  intros Hs Hp. revert off acc. set (l := with_status st (history s j)).
  induction fuel as [|fuel IH]; intros off acc Ho Hf; [lia|]. simpl.
  rewrite py_bind_eq, get_executions_ok by done. fold l. rewrite py_bind_eq. cbn [get_state].
  rewrite py_slice_nonneg by lia.
  set (items := take _ _). set (rest := drop (Z.to_nat off) l).
  assert (rest = items ++ drop (length items) rest) as Hrest.
  { unfold items. fold rest. rewrite length_take.
    destruct (decide (Z.to_nat (off + page) - Z.to_nat off ≤ length rest)%nat).
    - rewrite Nat.min_l by done. by rewrite take_drop.
    - rewrite Nat.min_r, drop_all, app_nil_r by lia. by rewrite take_ge by lia. }
  assert (length rest = (length l - Z.to_nat off)%nat) as Hlr by (unfold rest; by rewrite length_drop).
  assert (length items = Nat.min (Z.to_nat page) (length rest)) as Hli.
  { unfold items. fold rest. rewrite length_take. lia. }
  case_bool_decide as Hi; simpl.
  - unfold mret, py_ret. do 4 f_equal. rewrite Hrest. apply nil_length_inv in Hi. rewrite Hi. simpl.
    assert (length rest = 0%nat) as ->%nil_length_inv by (rewrite Hi in Hli; simpl in Hli; lia). done.
  - destruct (Z.leb_spec (Z.of_nat (length l)) (off + Z.of_nat (length items))).
    + unfold mret, py_ret. do 4 f_equal. rewrite Hrest at 1. rewrite drop_ge by lia. by rewrite app_nil_r.
    + rewrite IH by lia. do 3 f_equal. rewrite <- app_assoc. f_equal.
      rewrite Hrest at 1. rewrite List.filter_app. f_equal. f_equal. unfold rest.
      rewrite drop_drop. f_equal. lia.
Qed.
End Pages.

(** ** Lists of runs *)

Lemma replace_run_None e l : replace_run e l = None ↔ id e ∉ map id l.
Proof.
  induction l as [|x l IH]; simpl; [set_solver|].
  case_decide as E; [split; [done|set_solver]|]. rewrite fmap_None, IH. set_solver.
Qed.

Lemma replace_run_Some e l l' :
  NoDup (map id l) → replace_run e l = Some l' →
  map id l' = map id l ∧ e ∈ l' ∧ (∀ x, x ∈ l' ↔ x = e ∨ x ∈ l ∧ id x ≠ id e).
Proof.
  intros Hn. revert l'. induction l as [|x l IH]; intros l'; simpl in *; [done|].
  apply NoDup_cons in Hn as [Hx Hn]. case_decide as E.
  - intros [= <-]. simpl. rewrite <- E. split; [done|]. split; [set_solver|]. intros y.
    rewrite !elem_of_cons. split; [|naive_solver].
    intros [->|Hy]; [by left|right]. split; [by right|]. intros Hy'. apply Hx. rewrite <- Hy'.
    by apply list_elem_of_fmap_2.
  - destruct (replace_run e l) as [k|] eqn:Hk; simpl; [|done]. intros [= <-].
    destruct (IH Hn k eq_refl) as (Hm & He & Hel). simpl. rewrite Hm.
    split; [done|]. split; [set_solver|]. intros y. rewrite !elem_of_cons, Hel. naive_solver.
Qed.

Lemma saved_run_elem e l x : NoDup (map id l) →
  x ∈ saved_run e l ↔ x = e ∨ x ∈ l ∧ id x ≠ id e.
Proof.
  intros Hn. unfold saved_run. destruct (replace_run e l) as [l'|] eqn:E; simpl.
  - by destruct (replace_run_Some e l l' Hn E) as (_ & _ & ->).
  - apply replace_run_None in E. rewrite elem_of_cons. split; [|naive_solver].
    intros [->|Hx]; [by left|right]. split; [done|]. intros Hx'. apply E. rewrite <- Hx'.
    by apply list_elem_of_fmap_2.
Qed.

Lemma saved_run_ids e l :
  NoDup (map id l) → NoDup (map id (saved_run e l)) ∧
  (∀ i, i ∈ map id (saved_run e l) ↔ i = id e ∨ i ∈ map id l).
Proof.
  intros Hn. unfold saved_run. destruct (replace_run e l) as [l'|] eqn:E; simpl.
  - destruct (replace_run_Some e l l' Hn E) as (Hm & He & _). rewrite Hm.
    split; [done|]. intros i. split; [by right|]. intros [->|]; [|done]. rewrite <- Hm.
    by apply list_elem_of_fmap_2.
  - apply replace_run_None in E. split; [by constructor|]. intros i. by rewrite elem_of_cons.
Qed.

Lemma without_run_elem i l e : e ∈ without_run i l ↔ e ∈ l ∧ id e ≠ i.
Proof.
  unfold without_run. rewrite !list_elem_of_In, filter_In, negb_true_iff, bool_decide_eq_false. done.
Qed.

Lemma without_run_ids i l k : k ∈ map id (without_run i l) ↔ k ∈ map id l ∧ k ≠ i.
Proof.
  rewrite !list_elem_of_fmap. setoid_rewrite without_run_elem. split; [naive_solver|].
  intros [(e & -> & He) Hi]. by exists e.
Qed.

Lemma without_run_nodup i l : NoDup (map id l) → NoDup (map id (without_run i l)).
Proof.
  unfold without_run. induction l as [|x l IH]; simpl; [done|]. intros [Hx Hl]%NoDup_cons.
  case_bool_decide; simpl; [by apply IH|]. constructor; [|by apply IH].
  intros Hin. apply Hx. by apply (without_run_ids i) in Hin as [? _].
Qed.
