(* ===== verification/JobMemory.v ===== *)
(** * The in-memory job store ([in_memory_job_storage_provider.py])

    The two dictionaries of the store hold the same executions, by id and by
    job; [mem_ok] is that they agree.  The server's state has such a store
    somewhere ([HasMemory]).  Runs are values here: the scheduler saves a run
    after each change that it makes to it. *)

From S2P Require Import Prelude PyStr Values JobModel JobStorage.

Record InMemoryJobStorageProvider := {
  _executions : dict string (list JobExecution);
  _executions_by_id : dict string JobExecution;
  _states : dict string JobState;
}.

Definition new_memory : InMemoryJobStorageProvider :=
  {| _executions := []; _executions_by_id := []; _states := [] |}.

(** [self._executions.get(job_id, [])] *)
Definition job_list (m : InMemoryJobStorageProvider) (j : string) : list JobExecution :=
  default [] (dict_get j (_executions m)).

Definition mem_save_execution (e : JobExecution) (m : InMemoryJobStorageProvider)
    : InMemoryJobStorageProvider :=
  {| _executions := dict_set (job_id e) (saved_run e (job_list m (job_id e))) (_executions m);
     _executions_by_id := dict_set (id e) e (_executions_by_id m);
     _states := _states m |}.

Definition mem_get_executions (j : string) (lim off : Z) (st : option string)
    (m : InMemoryJobStorageProvider) : list JobExecution * Z :=
  let all_items := job_list m j in
  let all_items := if truthy_opt st
    then List.filter (λ e, bool_decide (status e = or_empty st)) all_items else all_items in
  (py_slice off (off + lim) all_items, Z.of_nat (length all_items)).

Definition mem_query_executions (q : JobExecutionQuery) (m : InMemoryJobStorageProvider)
    : list JobExecution * Z :=
  let found := sort_newest (List.filter (matches q) (dict_values (_executions_by_id m))) in
  (py_slice (offset q) (offset q + limit q) found, Z.of_nat (length found)).

Definition mem_delete_execution (i : string) (m : InMemoryJobStorageProvider)
    : bool * InMemoryJobStorageProvider :=
  match dict_get i (_executions_by_id m) with
  | None => (false, m)
  | Some e =>
      (true,
       {| _executions :=
            match dict_get (job_id e) (_executions m) with
            | Some l => dict_set (job_id e) (without_run i l) (_executions m)
            | None => _executions m
            end;
          _executions_by_id := dict_del i (_executions_by_id m);
          _states := _states m |})
  end.

(** The ids of the executions that started before the cutoff. *)
Definition old_ids (before : datetime) (m : InMemoryJobStorageProvider) : list string :=
  map id (List.filter (λ e, as_utc (started_at e) <? as_utc before) (dict_values (_executions_by_id m))).

Definition mem_prune (before : datetime) (m : InMemoryJobStorageProvider)
    : Z * InMemoryJobStorageProvider :=
  let old := old_ids before m in
  (Z.of_nat (length old), foldl (λ m i, (mem_delete_execution i m).2) m old).

Definition mem_save_job_state (j : string) (st : JobState) (m : InMemoryJobStorageProvider)
    : InMemoryJobStorageProvider :=
  {| _executions := _executions m; _executions_by_id := _executions_by_id m;
     _states := dict_set j st (_states m) |}.

(** ** The two dictionaries agree *)

Record mem_ok (m : InMemoryJobStorageProvider) : Prop := {
  by_id_ok : dict_ok (_executions_by_id m);
  lists_ok : ∀ j, NoDup (map id (job_list m j)) ∧ Forall (λ e, job_id e = j) (job_list m j);
  agree : ∀ i e, dict_get i (_executions_by_id m) = Some e ↔ id e = i ∧ e ∈ job_list m (job_id e);
}.

Lemma mem_ok_new : mem_ok new_memory.
Proof.
  split; [apply dict_ok_nil|intros j; split; constructor|].
  intros i e. unfold job_list. simpl. split; [done|]. intros [_ H]. by apply not_elem_of_nil in H.
Qed.

Lemma job_list_set j l m j' d st :
  job_list {| _executions := dict_set j l (_executions m); _executions_by_id := d; _states := st |} j' =
  if decide (j' = j) then l else job_list m j'.
Proof.
  unfold job_list. simpl. case_decide; subst; [by rewrite dict_get_set_eq|by rewrite dict_get_set_ne].
Qed.

Lemma mem_save_list e m j :
  job_list (mem_save_execution e m) j =
  if decide (j = job_id e) then saved_run e (job_list m j) else job_list m j.
Proof. unfold mem_save_execution. rewrite job_list_set. case_decide; by subst. Qed.

Lemma mem_save_ok e m :
  mem_ok m → (∀ j, j ≠ job_id e → id e ∉ map id (job_list m j)) → mem_ok (mem_save_execution e m).
Proof.
  intros [Hd Hl Ha] Hj. split.
  - by apply dict_ok_set.
  - intros j. rewrite mem_save_list. case_decide as E; [|apply Hl]. destruct (Hl j) as [Hn Hf].
    split; [by apply saved_run_ids|]. apply Forall_forall. intros x Hx.
    rewrite saved_run_elem in Hx by done. rewrite Forall_forall in Hf. naive_solver.
  - intros i x. rewrite mem_save_list. unfold mem_save_execution. cbn [_executions_by_id].
    destruct (decide (i = id e)) as [->|Hi].
    + rewrite dict_get_set_eq. split.
      * intros [= <-]. rewrite decide_True by done. split; [done|].
        rewrite saved_run_elem by apply Hl. by left.
      * intros [Hx Hin]. case_decide as E.
        -- rewrite saved_run_elem in Hin by apply Hl. naive_solver.
        -- exfalso. apply (Hj (job_id x) E). rewrite <- Hx. by apply list_elem_of_fmap_2.
    + rewrite dict_get_set_ne by done. rewrite Ha. case_decide as E; [|done].
      rewrite saved_run_elem by apply Hl. naive_solver.
Qed.

Lemma mem_delete_list i m j :
  mem_ok m → job_list (mem_delete_execution i m).2 j = without_run i (job_list m j).
Proof.
  intros [Hd Hl Ha]. unfold mem_delete_execution.
  assert (∀ j, (∀ e, e ∈ job_list m j → id e ≠ i) → without_run i (job_list m j) = job_list m j) as Hid.
  { intros j'. unfold without_run. induction (job_list m j') as [|x l IH]; simpl; [done|]. intros Hx.
    rewrite bool_decide_false by (apply Hx; set_solver). simpl. rewrite IH; [done|]. set_solver. }
  assert (∀ j e, e ∈ job_list m j → job_id e = j) as Hjob.
  { intros j' e. destruct (Hl j') as [_ Hf]. rewrite Forall_forall in Hf. apply Hf. }
  destruct (dict_get i (_executions_by_id m)) as [e|] eqn:E; simpl.
  - pose proof (proj1 (Ha i e) E) as [Hi He].
    assert (job_list m (job_id e) = default [] (dict_get (job_id e) (_executions m))) as Hjl by done.
    destruct (dict_get (job_id e) (_executions m)) as [l|] eqn:El; simpl in Hjl.
    2: { rewrite Hjl in He. set_solver. }
    rewrite job_list_set. case_decide as Hj; [subst j; by rewrite Hjl|].
    symmetry. apply Hid. intros x Hx Hxi. apply Hj.
    assert (dict_get i (_executions_by_id m) = Some x) as Hx'.
    { apply Ha. split; [done|]. by rewrite (Hjob _ _ Hx). }
    rewrite E in Hx'. simplify_eq. by rewrite (Hjob _ _ Hx).
  - symmetry. apply Hid. intros x Hx Hxi.
    assert (dict_get i (_executions_by_id m) = Some x); [|congruence].
    apply Ha. split; [done|]. by rewrite (Hjob _ _ Hx).
Qed.

Lemma mem_delete_ok i m : mem_ok m → mem_ok (mem_delete_execution i m).2.
Proof.
  intros Hm. pose proof (λ j, mem_delete_list i m j Hm) as Hlist. destruct Hm as [Hd Hl Ha]. split.
  - unfold mem_delete_execution. destruct (dict_get i _); [by apply dict_ok_del|done].
  - intros j. rewrite Hlist. destruct (Hl j) as [Hn Hf]. split; [by apply without_run_nodup|].
    apply Forall_forall. intros x [Hx _]%without_run_elem. rewrite Forall_forall in Hf. by apply Hf.
  - intros k x. rewrite Hlist, without_run_elem.
    assert (dict_get k (_executions_by_id (mem_delete_execution i m).2) =
            if decide (k = i) then None else dict_get k (_executions_by_id m)) as ->.
    { unfold mem_delete_execution. destruct (dict_get i _) eqn:E; simpl.
      - case_decide; [subst; by apply dict_get_del_eq|by apply dict_get_del_ne].
      - by case_decide; subst. }
    case_decide as Hk; [naive_solver|]. rewrite Ha. naive_solver.
Qed.

Lemma mem_delete_result i m :
  mem_ok m → (mem_delete_execution i m).1 = true ↔ ∃ j, i ∈ map id (job_list m j).
Proof.
  intros [Hd Hl Ha]. unfold mem_delete_execution.
  destruct (dict_get i (_executions_by_id m)) as [e|] eqn:E; simpl.
  - split; [|done]. intros _. exists (job_id e). apply Ha in E as [<- He].
    by apply list_elem_of_fmap_2.
  - split; [done|]. intros [j [e [-> He]]%list_elem_of_fmap].
    assert (dict_get (id e) (_executions_by_id m) = Some e); [|congruence].
    apply Ha. split; [done|]. destruct (Hl j) as [_ Hf]. rewrite Forall_forall in Hf.
    by rewrite (Hf e He).
Qed.

(** ** The store keeps the interface's promise *)

Class HasMemory (S : Type) := {
  get_memory : S → InMemoryJobStorageProvider;
  set_memory : InMemoryJobStorageProvider → S → S;
  get_set_memory : ∀ m s, get_memory (set_memory m s) = m;
}.

Section Memory.
Context {S : Type} `{HM : HasMemory S}.

Definition on_memory {A} (f : InMemoryJobStorageProvider → A * InMemoryJobStorageProvider)
    : py S jexn A := λ s, let '(a, m) := f (get_memory s) in (inr a, set_memory m s).

#[export] Instance memory_storage : ICliJobStorageProvider S := {|
  save_execution e := on_memory (λ m, (tt, mem_save_execution e m));
  get_executions j lim off st := gets (λ s, mem_get_executions j lim off st (get_memory s));
  query_executions q := gets (λ s, mem_query_executions q (get_memory s));
  prune before := on_memory (mem_prune before);
  delete_execution i := on_memory (mem_delete_execution i);
  get_execution i := gets (λ s, dict_get i (_executions_by_id (get_memory s)));
  save_job_state j st := on_memory (λ m, (tt, mem_save_job_state j st m));
  get_job_state j := gets (λ s, dict_get j (_states (get_memory s)));
  get_all_job_states := gets (λ s, _states (get_memory s));
  overrides_delete := true;
|}.

#[export] Instance memory_laws : JobStorageLaws S.
Proof.
  refine {| store_ok := λ s, mem_ok (get_memory s);
            history := λ s j, job_list (get_memory s) j |}.
  - intros s j Hs. apply Hs.
  - reflexivity.
  - intros s i [Hd Hl Ha]. eexists. split; [reflexivity|]. intros e. apply Ha.
  - intros s i Hs. simpl. unfold on_memory.
    pose proof (mem_delete_result i _ Hs) as Hr. pose proof (mem_delete_ok i _ Hs) as Hok.
    pose proof (λ j, mem_delete_list i _ j Hs) as Hl.
    destruct (mem_delete_execution i (get_memory s)) as [b m]. simpl in *. rewrite get_set_memory.
    split; [by exists b|done].
  - intros s e Hs Hj. simpl. unfold on_memory. rewrite get_set_memory.
    split; [done|]. split; [by apply mem_save_ok|]. intros j. apply mem_save_list.
Defined.
End Memory.

(** ** The store's own operations *)

(** The histories of all jobs, by id. *)
Lemma by_id_elem m e : mem_ok m → e ∈ dict_values (_executions_by_id m) ↔ e ∈ job_list m (job_id e).
Proof.
  intros [Hd Hl Ha]. unfold dict_values. rewrite list_elem_of_fmap. split.
  - intros [[i e'] [-> Hin]]. apply dict_elem_of_get, Ha in Hin as [_ ?]; done.
  - intros He. exists (id e, e). split; [done|]. apply dict_get_elem_of. by apply Ha.
Qed.

Lemma job_list_job m j e : mem_ok m → e ∈ job_list m j → job_id e = j.
Proof. intros [_ Hl _] He. destruct (Hl j) as [_ Hf]. rewrite Forall_forall in Hf. by apply Hf. Qed.

Lemma foldl_delete_ok ids m :
  mem_ok m → let m' := foldl (λ m i, (mem_delete_execution i m).2) m ids in
  mem_ok m' ∧ ∀ j e, e ∈ job_list m' j ↔ e ∈ job_list m j ∧ id e ∉ ids.
Proof.
  revert m; induction ids as [|i ids IH]; intros m Hm; simpl; [split; [done|set_solver]|].
  destruct (IH _ (mem_delete_ok i m Hm)) as [Hok Hel]. split; [done|]. intros j e.
  rewrite Hel, mem_delete_list, without_run_elem by done. set_solver.
Qed.

(** Pruning deletes exactly the executions that started before the cutoff,
    of every job, and answers how many they were; the two dictionaries of the
    store still agree. *)
Theorem mem_prune_spec before m :
  mem_ok m →
  let '(n, m') := mem_prune before m in
  mem_ok m' ∧
  n = Z.of_nat (length (List.filter (λ e, as_utc (started_at e) <? as_utc before)
                          (dict_values (_executions_by_id m)))) ∧
  ∀ j e, e ∈ job_list m' j ↔ e ∈ job_list m j ∧ as_utc before ≤ as_utc (started_at e).
Proof.
  intros Hm. unfold mem_prune. destruct (foldl_delete_ok (old_ids before m) m Hm) as [Hok Hel].
  split; [done|]. split; [unfold old_ids; by rewrite length_map|]. intros j e. rewrite Hel.
  assert (e ∈ job_list m j → id e ∈ old_ids before m ↔ as_utc (started_at e) < as_utc before) as Hold.
  2: { split; intros [He H]; (split; [done|]); specialize (Hold He).
       - destruct (Z.le_gt_cases (as_utc before) (as_utc (started_at e))); [done|].
         exfalso. apply H, Hold. lia.
       - intros Hin%Hold. lia. }
  intros He. pose proof (job_list_job m j e Hm He) as Hj. subst j. unfold old_ids.
  rewrite list_elem_of_fmap. setoid_rewrite list_elem_of_In. setoid_rewrite filter_In.
  setoid_rewrite <- list_elem_of_In. setoid_rewrite by_id_elem; [|done]. setoid_rewrite Z.ltb_lt.
  split; [|intros ?; by exists e]. intros (e' & Hid & He' & Hlt).
  destruct Hm as [_ _ Ha].
  assert (dict_get (id e) (_executions_by_id m) = Some e') as H1 by by apply Ha.
  assert (dict_get (id e) (_executions_by_id m) = Some e) as H2 by by apply Ha.
  by simplify_eq.
Qed.

(** The store's own query answers the requested page of the matching
    executions of all jobs, newest first, and their number. *)
Theorem mem_query_spec q m :
  mem_ok m → ∃ found, newest_first found ∧ NoDup (map id found) ∧
    (∀ e, e ∈ found ↔ e ∈ job_list m (job_id e) ∧ matches q e = true) ∧
    mem_query_executions q m =
      (py_slice (offset q) (offset q + limit q) found, Z.of_nat (length found)).
Proof.
  intros Hm. eexists. split; [|split; [|split; [|reflexivity]]].
  - apply py_sort_sorted; [apply newest_le_total|apply newest_le_trans].
  - unfold sort_newest. rewrite py_sort_perm.
    destruct Hm as [Hd _ Ha]. unfold dict_ok, dict_keys, dict_values in *.
    assert (map id (_executions_by_id m).*2 = (_executions_by_id m).*1) as Hids.
    { rewrite map_map. apply map_ext_in. intros [i e] Hin%list_elem_of_In.
      apply (dict_elem_of_get (K := string)) in Hin; [|done]. by apply Ha in Hin as [Hid _]. }
    rewrite <- Hids in Hd. revert Hd. generalize ((_executions_by_id m).*2). clear.
    intros l; induction l as [|x l IH]; simpl; [done|]. intros [Hx Hl]%NoDup_cons.
    destruct (matches q x); simpl; [|by apply IH]. constructor; [|by apply IH].
    intros [y [Hy [Hin _]%list_elem_of_In%filter_In]]%list_elem_of_fmap.
    apply Hx. rewrite Hy. apply list_elem_of_fmap_2. by apply list_elem_of_In.
  - intros e. unfold sort_newest. rewrite elem_of_py_sort, list_elem_of_In, filter_In,
      <- list_elem_of_In, by_id_elem by done. done.
Qed.

(** ** A store with three runs of two jobs *)
Module MemoryExample.
Definition at_ (us : Z) : datetime := utc us.
Definition run (i j st : string) (us : Z) : JobExecution :=
  {| id := i; job_id := j; job_name := j; status := st; started_at := at_ us;
     completed_at := None; duration := None; error := None; logs := [];
     retry_attempt := 0; properties := [] |}.
Definition m3 : InMemoryJobStorageProvider :=
  mem_save_execution (run "c" "digest" "failed" 30)
    (mem_save_execution (run "b" "rates" "completed" 20)
      (mem_save_execution (run "a" "digest" "completed" 10) new_memory)).

Lemma m3_ok : mem_ok m3.
Proof.
  repeat apply mem_save_ok; try apply mem_ok_new; intros j Hj; unfold job_list; simpl;
    repeat (case_decide; simpl); set_solver.
Qed.

#[export] Instance memory_is_state : HasMemory InMemoryJobStorageProvider.
Proof. by refine {| get_memory := λ m, m; set_memory := λ m _, m |}. Defined.

Lemma mem_prune_spec_witness :
  (mem_prune (at_ 25) m3).1 = 2.
Proof. refine (eq_trans (proj1 (proj2 (mem_prune_spec (at_ 25) m3 m3_ok))) _). reflexivity. Defined.

Lemma mem_query_spec_witness :
  ∃ found, newest_first found ∧ (mem_query_executions
    {| job_ids := None; q_status := Some "COMPLETED"; q_since := None; limit := 1; offset := 1 |} m3).2
    = Z.of_nat (length found).
Proof.
  destruct (mem_query_spec {| job_ids := None; q_status := Some "COMPLETED"; q_since := None;
    limit := 1; offset := 1 |} m3 m3_ok) as (found & Hs & _ & _ & Hq).
  exists found. by rewrite Hq.
Defined.

(** The base class's query, on this store. *)
Lemma merge_pages_witness :
  merge (λ j n st, get_executions j n 0 st)
    {| job_ids := None; q_status := None; q_since := None; limit := 1; offset := 1 |}
    ["rates"; "digest"; "rates"] m3 = (inr ([run "b" "rates" "completed" 20], 3), m3).
Proof.
  rewrite (merge_pages (λ j n st, get_executions j n 0 st)
    m3 (λ j st, with_status st (job_list m3 j))).
  - reflexivity.
  - intros j st. unfold job_list, with_status, newest_first. simpl.
    repeat case_decide; simpl; destruct (truthy_opt st); simpl;
      repeat case_bool_decide; simpl; repeat constructor.
  - intros j n st Hn. rewrite get_executions_ok by apply m3_ok. simpl.
    rewrite py_slice_nonneg by lia. change (Z.to_nat 0) with 0%nat.
    by rewrite Nat.sub_0_r, drop_0.
  - simpl. lia.
  - simpl. lia.
  - done.
Defined.
End MemoryExample.
