(* ===== verification/JobSlots.v ===== *)
(** * Registrations, slots and timers ([cli_job_scheduler.py])

    The synchronous part of the scheduler: what it does between two [await]s,
    when nothing else runs on the event loop.  A coroutine that was started and
    has not run yet is a [Task]; a run and a timer are known by a number
    ([next_ref] gives fresh ones).  The registration objects live in the
    dictionary of the scheduler, and a job is named by its key there.

    [cron_valid] and [next_occurrence] stand for [croniter.is_valid] and for the
    first occurrence of [croniter] after an instant (or what it raises).  The
    clock is read once for each synchronous section ([now], in microseconds). *)

From S2P Require Import Prelude PyStr Values JobModel JobStorage.
From Stdlib Require Import Ascii.

Record JobRun := {
  run_ref : nat;
  cancellation : bool;
  execution_id : option string;
}.

Record JobRegistration := {
  reg_id : string;
  job : nat;
  options : CliJobOptions;
  reg_status : string;
  next_run_at : option Z;
  last_run_at : option datetime;
  last_run_status : option string;
  last_run_duration : option Z;
  timer_task : option nat;
  runs : list JobRun;
  queued : bool;
}.

Definition running_execution_ids (r : JobRegistration) : list string := omap execution_id (runs r).
Definition current_execution_id (r : JobRegistration) : option string := last (running_execution_ids r).
Definition current_cancellation (r : JobRegistration) : option bool := cancellation <$> last (runs r).

(** Coroutines that are waiting to run. *)
Inductive Task :=
| RunTask (j : string) (r : nat)
| TimerTask (j : string) (t : nat) (delay : Z).

#[export] Instance task_eq_dec : EqDecision Task.
Proof. solve_decision. Defined.

Record Scheduler := {
  registrations : dict string JobRegistration;
  _running : bool;
  tasks : list Task;
  next_ref : nat;
}.

(** ** Field updates *)

Definition set_options (o : CliJobOptions) (r : JobRegistration) : JobRegistration :=
  {| reg_id := reg_id r; job := job r; options := o; reg_status := reg_status r;
     next_run_at := next_run_at r; last_run_at := last_run_at r;
     last_run_status := last_run_status r; last_run_duration := last_run_duration r;
     timer_task := timer_task r; runs := runs r; queued := queued r |}.
Definition set_status (st : string) (r : JobRegistration) : JobRegistration :=
  {| reg_id := reg_id r; job := job r; options := options r; reg_status := st;
     next_run_at := next_run_at r; last_run_at := last_run_at r;
     last_run_status := last_run_status r; last_run_duration := last_run_duration r;
     timer_task := timer_task r; runs := runs r; queued := queued r |}.
Definition set_timer (next : option Z) (t : option nat) (r : JobRegistration) : JobRegistration :=
  {| reg_id := reg_id r; job := job r; options := options r; reg_status := reg_status r;
     next_run_at := next; last_run_at := last_run_at r;
     last_run_status := last_run_status r; last_run_duration := last_run_duration r;
     timer_task := t; runs := runs r; queued := queued r |}.
Definition set_runs (l : list JobRun) (q : bool) (r : JobRegistration) : JobRegistration :=
  {| reg_id := reg_id r; job := job r; options := options r; reg_status := reg_status r;
     next_run_at := next_run_at r; last_run_at := last_run_at r;
     last_run_status := last_run_status r; last_run_duration := last_run_duration r;
     timer_task := timer_task r; runs := l; queued := q |}.
Definition set_last_run (at_ : option datetime) (st : option string) (d : option Z)
    (r : JobRegistration) : JobRegistration :=
  {| reg_id := reg_id r; job := job r; options := options r; reg_status := reg_status r;
     next_run_at := next_run_at r; last_run_at := at_;
     last_run_status := st; last_run_duration := d;
     timer_task := timer_task r; runs := runs r; queued := queued r |}.

Definition cancel_run (r : JobRun) : JobRun :=
  {| run_ref := run_ref r; cancellation := true; execution_id := execution_id r |}.
Definition set_execution (e : option string) (r : JobRun) : JobRun :=
  {| run_ref := run_ref r; cancellation := cancellation r; execution_id := e |}.

Definition set_registrations (d : dict string JobRegistration) (s : Scheduler) : Scheduler :=
  {| registrations := d; _running := _running s; tasks := tasks s; next_ref := next_ref s |}.
Definition set_running (b : bool) (s : Scheduler) : Scheduler :=
  {| registrations := registrations s; _running := b; tasks := tasks s; next_ref := next_ref s |}.
Definition set_tasks (l : list Task) (s : Scheduler) : Scheduler :=
  {| registrations := registrations s; _running := _running s; tasks := l; next_ref := next_ref s |}.
Definition bump_ref (s : Scheduler) : Scheduler :=
  {| registrations := registrations s; _running := _running s; tasks := tasks s;
     next_ref := S (next_ref s) |}.

(** The registration of a job of the scheduler, and a change to it. *)
Definition get_reg (j : string) (s : Scheduler) : option JobRegistration :=
  dict_get j (registrations s).
Definition upd_reg (j : string) (f : JobRegistration → JobRegistration) (s : Scheduler) : Scheduler :=
  match get_reg j s with
  | Some r => set_registrations (dict_set j (f r) (registrations s)) s
  | None => s
  end.

Definition _get_registration (j : string) : py Scheduler jexn JobRegistration := λ s,
  match get_reg j s with
  | Some r => (inr r, s)
  | None => (inl (KeyError ("Job not found: " +:+ j)), s)
  end.

(** ** Registering a job *)

Section Cron.
Context (cron_valid : string → bool).
Context (next_occurrence : string → Z → jexn + Z).
(** [type(job).__name__] *)
Context (class_name : nat → string).

Definition unsafe_id_char (c : ascii) : bool :=
  existsb (Ascii.eqb c) (chars "/\?#").

Definition _validate_max_concurrent_runs (value : pyval) : py Scheduler jexn Z :=
  match value with
  | VInt z => if z <? 1 then raise (InvalidValueError "maxConcurrentRuns must be an integer >= 1") else mret z
  | _ => raise (InvalidValueError "maxConcurrentRuns must be an integer >= 1")
  end.

(** [while job_id in self._registrations: job_id = f"{base_id}-{n}"; n += 1] *)
Fixpoint free_id (fuel : nat) (regs : dict string JobRegistration) (base job_id : string) (n : Z)
    : option string :=
  if dict_mem job_id regs then
    match fuel with
    | O => None
    | S fuel => free_id fuel regs base (base +:+ "-" +:+ str_of_Z n) (n + 1)
    end
  else Some job_id.

Definition base_id (name : string) : string :=
  str (map (λ c, if unsafe_id_char c then "-"%char else c) (chars name)).

(** The options with their defaults filled in. *)
Definition named_options (jb : nat) (o : CliJobOptions) : CliJobOptions :=
  let nm := if truthy_opt (name o) then name o else Some (class_name jb) in
  {| name := nm;
     description := if truthy_opt (description o) then description o else nm;
     group := group o; schedule := schedule o; interval := interval o; enabled := enabled o;
     max_retries := max_retries o; retry_delay := retry_delay o; retry_strategy := retry_strategy o;
     timeout := timeout o; overlap_policy := overlap_policy o;
     max_concurrent_runs := max_concurrent_runs o; opt_id := opt_id o; run_on_start := run_on_start o |}.

Definition new_registration (j : string) (jb : nat) (o : CliJobOptions) : JobRegistration :=
  {| reg_id := j; job := jb; options := o;
     reg_status := if enabled o then "active" else "stopped";
     next_run_at := None; last_run_at := None; last_run_status := None; last_run_duration := None;
     timer_task := None; runs := []; queued := false |}.

(** The id of the new registration; [None] when the search for one ran out of
    fuel. *)
Definition choose_id (o : CliJobOptions) : py Scheduler jexn (option string) :=
  regs ← gets registrations;
  match opt_id o with
  | Some i =>
      if is_empty (strip i) || existsb unsafe_id_char (chars i)
      then raise (ValueError ("Job id '" +:+ i +:+ "' must be non-empty and may not contain '/', '\', '?' or '#' (it is part of the jobs API's URLs)"))
      else if dict_mem i regs
      then raise (InvalidOperationError ("A job with id '" +:+ i +:+ "' is already registered"))
      else mret (Some i)
  | None =>
      let base := base_id (or_empty (name o)) in
      mret (free_id (length regs) regs base base 2)
  end.

Definition register (jb : nat) (o : CliJobOptions) : py Scheduler jexn (option string) :=
  _ ← _validate_max_concurrent_runs (VInt (max_concurrent_runs o));
  let o := named_options jb o in
  j ← choose_id o;
  match j with
  | None => mret None
  | Some j =>
      _ ← modify (λ s, set_registrations
            (dict_set j (new_registration j jb o) (registrations s)) s);
      mret (Some j)
  end.

(** ** Slots *)

Definition _take_slot (j : string) : py Scheduler jexn nat := λ s,
  (inr (next_ref s),
   bump_ref (upd_reg j (λ r, set_runs
     (runs r ++ [{| run_ref := next_ref s; cancellation := false; execution_id := None |}])
     (queued r) r) s)).

Definition _launch (j : string) (run : option nat) : py Scheduler jexn unit :=
  match run with
  | Some r => modify (λ s, set_tasks (tasks s ++ [RunTask j r]) s)
  | None => mret tt
  end.

(** [reg.runs[0].cancellation.set()] *)
Definition cancel_first (l : list JobRun) : list JobRun :=
  match l with
  | [] => []
  | r :: l => cancel_run r :: l
  end.

Definition _admit (j : string) (manual : bool) : py Scheduler jexn (option nat) :=
  reg ← _get_registration j;
  if Z.of_nat (length (runs reg)) <? max_concurrent_runs (options reg)
  then (r ← _take_slot j; mret (Some r))
  else if bool_decide (overlap_policy (options reg) = "queue")
  then (_ ← modify (upd_reg j (λ r, set_runs (runs r) true r)); mret None)
  else if bool_decide (overlap_policy (options reg) = "cancel")
  then (_ ← (if queued reg then mret tt
             else modify (upd_reg j (λ r, set_runs (cancel_first (runs r)) true r)));
        mret None)
  else if manual then raise (InvalidOperationError "Job is already running")
  else mret None.

Definition _start_queued (j : string) : py Scheduler jexn unit :=
  reg ← _get_registration j;
  if queued reg && (Z.of_nat (length (runs reg)) <? max_concurrent_runs (options reg))
  then (_ ← modify (upd_reg j (λ r, set_runs (runs r) false r));
        r ← _take_slot j;
        _launch j (Some r))
  else mret tt.

(** [if run in reg.runs: reg.runs.remove(run)] *)
Fixpoint remove_run (n : nat) (l : list JobRun) : list JobRun :=
  match l with
  | [] => []
  | r :: l => if decide (run_ref r = n) then l else r :: remove_run n l
  end.

Definition _release (j : string) (n : nat) : py Scheduler jexn unit :=
  _ ← modify (upd_reg j (λ r, set_runs (remove_run n (runs r)) (queued r) r));
  _start_queued j.

Definition _cancel_runs (j : string) : py Scheduler jexn unit :=
  modify (upd_reg j (λ r, set_runs (map cancel_run (runs r)) false r)).

(** ** Timers *)

(** A cancelled timer does nothing when it wakes up: it leaves the tasks. *)
Definition is_timer (j : string) (t : nat) (k : Task) : bool :=
  match k with
  | TimerTask j' t' _ => bool_decide (j' = j ∧ t' = t)
  | RunTask _ _ => false
  end.

Definition cancel_timer_task (j : string) (t : option nat) (s : Scheduler) : Scheduler :=
  match t with
  | Some t => set_tasks (List.filter (λ k, negb (is_timer j t k)) (tasks s)) s
  | None => s
  end.

Definition _cancel_timer (j : string) : py Scheduler jexn unit :=
  reg ← _get_registration j;
  _ ← modify (cancel_timer_task j (timer_task reg));
  modify (upd_reg j (set_timer None None)).

(** [reg.timer_task = asyncio.create_task(self._timer_fire(reg, delay))] *)
Definition start_timer (j : string) (next : Z) (delay : Z) : py Scheduler jexn unit := λ s,
  (inr tt,
   bump_ref (set_tasks (tasks s ++ [TimerTask j (next_ref s) delay])
     (upd_reg j (set_timer (Some next) (Some (next_ref s))) s))).

(** Microseconds of a whole number of seconds. *)
Definition seconds (n : Z) : Z := n * 1000000.

Definition the_interval (text : string) : py Scheduler jexn Z :=
  match parse_interval text with
  | Some n => mret (seconds n)
  | None => raise (ValueError (interval_error text))
  end.

Definition _next_occurrence (sched : string) (after : Z) : py Scheduler jexn Z :=
  λ s, (next_occurrence sched after, s).

(** The due time of a cron job. *)
Definition cron_due (sched : string) (fired_at : option Z) (now : Z) : py Scheduler jexn Z :=
  next_dt ← match fired_at with
            | Some f => (t ← _next_occurrence sched f; mret (if t <=? now then None else Some t))
            | None => mret None
            end;
  match next_dt with
  | Some t => mret t
  | None => _next_occurrence sched now
  end.

(** The due time of an interval job. *)
Definition interval_due (step : Z) (last : option datetime) (run_now after_fire : bool) (now : Z) : Z :=
  let due := match last with
             | Some d => if after_fire then now + step else as_utc d + step
             | None => now + step
             end in
  if (due <? now) || run_now then now else due.

Definition _schedule_next (j : string) (run_now after_fire : bool) (fired_at : option Z) (now : Z)
    : py Scheduler jexn unit :=
  run ← gets _running;
  if negb run then mret tt
  else
    reg ← _get_registration j;
    if truthy_opt (schedule (options reg)) then
      next_dt ← cron_due (or_empty (schedule (options reg))) fired_at now;
      start_timer j next_dt (Z.max (next_dt - now) 100000)
    else if truthy_opt (interval (options reg)) then
      step ← the_interval (or_empty (interval (options reg)));
      let due := interval_due step (last_run_at reg) run_now after_fire now in
      start_timer j due (due - now)
    else modify (upd_reg j (λ r, set_timer None (timer_task r) r)).

(** [_timer_fire] from the end of its sleep on. *)
Definition _timer_fire (j : string) (now : Z) : py Scheduler jexn unit :=
  run ← gets _running;
  reg ← _get_registration j;
  if negb run || negb (bool_decide (reg_status reg = "active")) then mret tt
  else
    let fired_at := next_run_at reg in
    r ← _admit j false;
    _ ← _launch j r;
    reg ← _get_registration j;
    if bool_decide (reg_status reg = "active")
    then _schedule_next j false true fired_at now else mret tt.

(** [_due_on_start] *)
Definition _due_on_start (reg : JobRegistration) (now : Z) : py Scheduler jexn bool :=
  match (if truthy_opt (schedule (options reg)) then schedule (options reg) else None) with
  | Some sched =>
      match last_run_at reg with
      | None => mret true
      | Some d => (t ← _next_occurrence sched (as_utc d); mret (t <=? now))
      end
  | None =>
      if truthy_opt (interval (options reg)) then
        match last_run_at reg with
        | None => mret true
        | Some d => (step ← the_interval (or_empty (interval (options reg)));
                     mret (as_utc d + step <=? now))
        end
      else mret true
  end.

(** One registration in the loop of [start]. *)
Definition start_one (persisted : dict string JobState) (j : string) (now : Z)
    : py Scheduler jexn unit :=
  reg ← _get_registration j;
  _ ← match dict_get (reg_id reg) persisted with
      | Some st => modify (upd_reg j (λ r,
          let r := set_last_run (state_last_run_at st) (last_run_status r) (last_run_duration r) r in
          if enabled (options r) then set_status (state_status st) r else r))
      | None => mret tt
      end;
  reg ← _get_registration j;
  if negb (bool_decide (reg_status reg = "active")) then mret tt
  else
    run_now ← (if run_on_start (options reg) then _due_on_start reg now else mret false);
    if truthy_opt (interval (options reg)) && negb (truthy_opt (schedule (options reg)))
    then _schedule_next j run_now false None now
    else
      _ ← _schedule_next j false false None now;
      if run_now : bool then (r ← _admit j false; _launch j r) else mret tt.

(** ** Actions on a job, up to their first [await] *)

Definition pause_now (j : string) : py Scheduler jexn unit :=
  reg ← _get_registration j;
  _ ← raise_if (bool_decide (reg_status reg = "paused")) (InvalidOperationError "Job is already paused");
  _ ← modify (upd_reg j (set_status "paused"));
  _cancel_timer j.

Definition resume_now (j : string) (now : Z) : py Scheduler jexn unit :=
  reg ← _get_registration j;
  _ ← raise_if (negb (bool_decide (reg_status reg = "paused"))) (InvalidOperationError "Job is not paused");
  _ ← modify (upd_reg j (set_status "active"));
  _schedule_next j false false None now.

Definition stop_job_now (j : string) : py Scheduler jexn unit :=
  _ ← _get_registration j;
  _ ← modify (upd_reg j (set_status "stopped"));
  _ ← _cancel_timer j;
  _cancel_runs j.

Definition cancel_current_now (j : string) : py Scheduler jexn unit :=
  reg ← _get_registration j;
  _ ← raise_if (bool_decide (length (runs reg) = 0%nat) && negb (queued reg))
        (InvalidOperationError "No execution is currently running");
  _cancel_runs j.

(** [stop], for one registration, up to the [await] of its timer. *)
Definition stop_one (j : string) : py Scheduler jexn unit :=
  _ ← _cancel_runs j;
  reg ← _get_registration j;
  modify (cancel_timer_task j (timer_task reg)).

(** ** [update_options]

    The keyword arguments; the body of the API request may give any value for
    [max_concurrent_runs]. *)
Record OptionChanges := {
  c_description : option string;
  c_group : option string;
  c_schedule : option string;
  c_interval : option string;
  c_max_retries : option Z;
  c_retry_delay : option string;
  c_retry_strategy : option string;
  c_timeout : option string;
  c_overlap_policy : option string;
  c_max_concurrent_runs : option pyval;
}.

Definition with_description (x : string) (o : CliJobOptions) : CliJobOptions :=
  {| name := name o; description := Some x; group := group o; schedule := schedule o;
     interval := interval o; enabled := enabled o; max_retries := max_retries o;
     retry_delay := retry_delay o; retry_strategy := retry_strategy o; timeout := timeout o;
     overlap_policy := overlap_policy o; max_concurrent_runs := max_concurrent_runs o;
     opt_id := opt_id o; run_on_start := run_on_start o |}.
Definition with_group (x : string) (o : CliJobOptions) : CliJobOptions :=
  {| name := name o; description := description o; group := Some x; schedule := schedule o;
     interval := interval o; enabled := enabled o; max_retries := max_retries o;
     retry_delay := retry_delay o; retry_strategy := retry_strategy o; timeout := timeout o;
     overlap_policy := overlap_policy o; max_concurrent_runs := max_concurrent_runs o;
     opt_id := opt_id o; run_on_start := run_on_start o |}.
Definition with_timing (sched ival : option string) (o : CliJobOptions) : CliJobOptions :=
  {| name := name o; description := description o; group := group o; schedule := sched;
     interval := ival; enabled := enabled o; max_retries := max_retries o;
     retry_delay := retry_delay o; retry_strategy := retry_strategy o; timeout := timeout o;
     overlap_policy := overlap_policy o; max_concurrent_runs := max_concurrent_runs o;
     opt_id := opt_id o; run_on_start := run_on_start o |}.
Definition with_retries (x : Z) (o : CliJobOptions) : CliJobOptions :=
  {| name := name o; description := description o; group := group o; schedule := schedule o;
     interval := interval o; enabled := enabled o; max_retries := x;
     retry_delay := retry_delay o; retry_strategy := retry_strategy o; timeout := timeout o;
     overlap_policy := overlap_policy o; max_concurrent_runs := max_concurrent_runs o;
     opt_id := opt_id o; run_on_start := run_on_start o |}.
Definition with_retry (delay strategy : string) (o : CliJobOptions) : CliJobOptions :=
  {| name := name o; description := description o; group := group o; schedule := schedule o;
     interval := interval o; enabled := enabled o; max_retries := max_retries o;
     retry_delay := delay; retry_strategy := strategy; timeout := timeout o;
     overlap_policy := overlap_policy o; max_concurrent_runs := max_concurrent_runs o;
     opt_id := opt_id o; run_on_start := run_on_start o |}.
Definition with_timeout (x : string) (o : CliJobOptions) : CliJobOptions :=
  {| name := name o; description := description o; group := group o; schedule := schedule o;
     interval := interval o; enabled := enabled o; max_retries := max_retries o;
     retry_delay := retry_delay o; retry_strategy := retry_strategy o; timeout := Some x;
     overlap_policy := overlap_policy o; max_concurrent_runs := max_concurrent_runs o;
     opt_id := opt_id o; run_on_start := run_on_start o |}.
Definition with_overlap (x : string) (o : CliJobOptions) : CliJobOptions :=
  {| name := name o; description := description o; group := group o; schedule := schedule o;
     interval := interval o; enabled := enabled o; max_retries := max_retries o;
     retry_delay := retry_delay o; retry_strategy := retry_strategy o; timeout := timeout o;
     overlap_policy := x; max_concurrent_runs := max_concurrent_runs o;
     opt_id := opt_id o; run_on_start := run_on_start o |}.
Definition with_concurrency (x : Z) (o : CliJobOptions) : CliJobOptions :=
  {| name := name o; description := description o; group := group o; schedule := schedule o;
     interval := interval o; enabled := enabled o; max_retries := max_retries o;
     retry_delay := retry_delay o; retry_strategy := retry_strategy o; timeout := timeout o;
     overlap_policy := overlap_policy o; max_concurrent_runs := x;
     opt_id := opt_id o; run_on_start := run_on_start o |}.

(** A statement of [update_options] on [opts]. *)
Definition change (j : string) (f : CliJobOptions → CliJobOptions) : py Scheduler jexn unit :=
  modify (upd_reg j (λ r, set_options (f (options r)) r)).

(** [if x is not None: ...] *)
Definition when_given {A} (x : option A) (k : A → py Scheduler jexn unit) : py Scheduler jexn unit :=
  match x with Some a => k a | None => mret tt end.

Definition set_timing (j : string) (c : OptionChanges) : py Scheduler jexn unit :=
  _ ← raise_if (bool_decide (is_Some (c_schedule c)) && bool_decide (is_Some (c_interval c)))
        (ValueError "Cannot provide both schedule and interval");
  _ ← when_given (c_schedule c) (λ x,
        _ ← raise_if (negb (cron_valid x)) (ValueError ("Invalid cron expression: " +:+ py_repr x));
        change j (with_timing (Some x) None));
  when_given (c_interval c) (λ x, _ ← the_interval x; change j (with_timing None (Some x))).

Definition set_retry (j : string) (c : OptionChanges) : py Scheduler jexn unit :=
  _ ← when_given (c_max_retries c) (λ x, change j (with_retries x));
  _ ← when_given (c_retry_delay c) (λ x, _ ← the_interval x;
        change j (λ o, with_retry x (retry_strategy o) o));
  _ ← when_given (c_retry_strategy c) (λ x,
        _ ← raise_if (negb (bool_decide (x ∈ ["fixed"; "linear"; "exponential"])))
              (ValueError ("Invalid retry strategy: " +:+ py_repr x));
        change j (λ o, with_retry (retry_delay o) x o));
  _ ← when_given (c_timeout c) (λ x, _ ← the_interval x; change j (with_timeout x));
  when_given (c_overlap_policy c) (λ x,
    _ ← raise_if (negb (bool_decide (x ∈ ["skip"; "queue"; "cancel"])))
          (ValueError ("Invalid overlap policy: " +:+ py_repr x));
    change j (with_overlap x)).

Definition update_options_now (j : string) (c : OptionChanges) (now : Z) : py Scheduler jexn unit :=
  _ ← _get_registration j;
  limit ← (match c_max_concurrent_runs c with
           | Some v => (n ← _validate_max_concurrent_runs v; mret (Some n))
           | None => mret None
           end);
  _ ← when_given (c_description c) (λ x, change j (with_description x));
  _ ← when_given (c_group c) (λ x, change j (with_group x));
  _ ← set_timing j c;
  _ ← set_retry j c;
  _ ← when_given limit (λ n, _ ← change j (with_concurrency n); _start_queued j);
  reg ← _get_registration j;
  if bool_decide (reg_status reg = "active")
  then (_ ← _cancel_timer j; _schedule_next j false false None now)
  else mret tt.
End Cron.
