(* ===== verification/JobInvariant.v ===== *)
(** * The scheduler's coroutines as a state machine

    The steps of the event loop that concern slots and timers, in any order,
    and what holds in every state they reach: each taken slot has exactly one
    coroutine that will release it, a run waits only while every slot is taken,
    and a job has at most one timer.

    A [trigger] holds its slot while it publishes its event; such runs are the
    second component of a configuration. *)

From S2P Require Import Prelude PyStr Values JobModel JobStorage JobSlots.

(** ** Steps *)

Definition config : Type := Scheduler * list (string * nat).

(** A coroutine that ends leaves the tasks. *)
Fixpoint remove_task (k : Task) (l : list Task) : list Task :=
  match l with
  | [] => []
  | x :: l => if decide (x = k) then l else x :: remove_task k l
  end.
Definition pop_task (k : Task) (s : Scheduler) : Scheduler := set_tasks (remove_task k (tasks s)) s.

Section Steps.
Context (cron_valid : string → bool).
Context (next_occurrence : string → Z → jexn + Z).
Context (class_name : nat → string).

(** The coroutines of a job. *)
Definition run_refs_of (j : string) (l : list Task) : list nat :=
  omap (λ k, match k with
             | RunTask j' n => if decide (j' = j) then Some n else None
             | TimerTask _ _ _ => None
             end) l.
Definition timer_refs_of (j : string) (l : list Task) : list nat :=
  omap (λ k, match k with
             | TimerTask j' t _ => if decide (j' = j) then Some t else None
             | RunTask _ _ => None
             end) l.
Definition trig_refs (j : string) (tr : list (string * nat)) : list nat :=
  omap (λ p, if decide (p.1 = j) then Some p.2 else None) tr.

Definition admitted (j : string) (r : jexn + option nat) (tr : list (string * nat))
    : list (string * nat) :=
  match r with inr (Some n) => (j, n) :: tr | _ => tr end.

Inductive step : config → config → Prop :=
| step_register s tr jb o : step (s, tr) ((register class_name jb o s).2, tr)
| step_start s tr persisted j now :
    timer_refs_of j (tasks s) = [] →
    step (s, tr) ((start_one next_occurrence persisted j now s).2, tr)
| step_timer s tr j t d now :
    TimerTask j t d ∈ tasks s →
    step (s, tr) ((_timer_fire next_occurrence j now (pop_task (TimerTask j t d) s)).2, tr)
| step_trigger s tr j :
    step (s, tr) ((_admit j true s).2, admitted j (_admit j true s).1 tr)
| step_triggered s tr tr' j n :
    tr ≡ₚ (j, n) :: tr' →
    step (s, tr) ((_launch j (Some n) s).2, tr')
| step_run_ends s tr j n :
    RunTask j n ∈ tasks s →
    step (s, tr) ((_release j n (pop_task (RunTask j n) s)).2, tr)
| step_attempt s tr j n e :
    step (s, tr) (upd_reg j (λ r, set_runs (map (λ x, if decide (run_ref x = n) then set_execution e x else x) (runs r)) (queued r) r) s, tr)
| step_attempt_ends s tr j at_ st d :
    step (s, tr) (upd_reg j (set_last_run at_ st d) s, tr)
| step_cancel s tr j : step (s, tr) ((cancel_current_now j s).2, tr)
| step_pause s tr j : step (s, tr) ((pause_now j s).2, tr)
| step_resume s tr j now : step (s, tr) ((resume_now next_occurrence j now s).2, tr)
| step_stop_job s tr j : step (s, tr) ((stop_job_now j s).2, tr)
| step_stop s tr j : step (s, tr) ((stop_one j s).2, tr)
| step_update s tr j c now :
    step (s, tr) ((update_options_now cron_valid next_occurrence j c now s).2, tr)
| step_running s tr b : step (s, tr) (set_running b s, tr).

(** The states reached from a scheduler without jobs. *)
Definition initial : config :=
  ({| registrations := []; _running := false; tasks := []; next_ref := 0 |}, []).
Definition reachable (c : config) : Prop := rtc step initial c.
End Steps.

(** ** Lookups *)

Lemma get_upd j j' f s :
  get_reg j' (upd_reg j f s) = if decide (j' = j) then f <$> get_reg j s else get_reg j' s.
Proof.
  unfold upd_reg, get_reg. destruct (dict_get j (registrations s)) as [r|] eqn:E; simpl.
  - case_decide; [subst; by rewrite dict_get_set_eq|by rewrite dict_get_set_ne].
  - case_decide; [by subst|done].
Qed.

Lemma tasks_upd j f s : tasks (upd_reg j f s) = tasks s.
Proof. unfold upd_reg. by destruct (get_reg j s). Qed.
Lemma next_upd j f s : next_ref (upd_reg j f s) = next_ref s.
Proof. unfold upd_reg. by destruct (get_reg j s). Qed.
Lemma running_upd j f s : _running (upd_reg j f s) = _running s.
Proof. unfold upd_reg. by destruct (get_reg j s). Qed.

Lemma get_reg_tasks j l s : get_reg j (set_tasks l s) = get_reg j s.
Proof. done. Qed.
Lemma get_reg_bump j s : get_reg j (bump_ref s) = get_reg j s.
Proof. done. Qed.

Lemma get_registration_eq j s :
  _get_registration j s =
  match get_reg j s with
  | Some r => (inr r, s)
  | None => (inl (KeyError ("Job not found: " +:+ j)), s)
  end.
Proof. done. Qed.

Create Rewrite HintDb sched.
#[export] Hint Rewrite get_upd tasks_upd next_upd running_upd get_reg_tasks get_reg_bump : sched.

Lemma remove_task_perm k l : k ∈ l → l ≡ₚ k :: remove_task k l.
Proof.
  induction l as [|x l IH]; simpl; [set_solver|]. case_decide as E; [by subst|].
  intros [?|Hk]%elem_of_cons; [congruence|]. rewrite (IH Hk) at 1. constructor.
Qed.

Lemma remove_run_perm n l :
  n ∈ map run_ref l → map run_ref l ≡ₚ n :: map run_ref (remove_run n l).
Proof.
  induction l as [|x l IH]; simpl; [set_solver|]. case_decide as E; [by subst|].
  intros [?|Hk]%elem_of_cons; [congruence|]. simpl. rewrite (IH Hk) at 1. constructor.
Qed.

Lemma remove_run_length n l : (length (remove_run n l) ≤ length l)%nat.
Proof. induction l as [|x l IH]; simpl; [done|]. case_decide; simpl; lia. Qed.

#[export] Instance run_refs_proper j : Proper ((≡ₚ) ==> (≡ₚ)) (run_refs_of j).
Proof. intros l l' H. unfold run_refs_of. by rewrite H. Qed.
#[export] Instance timer_refs_proper j : Proper ((≡ₚ) ==> (≡ₚ)) (timer_refs_of j).
Proof. intros l l' H. unfold timer_refs_of. by rewrite H. Qed.
#[export] Instance trig_refs_proper j : Proper ((≡ₚ) ==> (≡ₚ)) (trig_refs j).
Proof. intros l l' H. unfold trig_refs. by rewrite H. Qed.

Lemma run_refs_app j l k : run_refs_of j (l ++ k) = run_refs_of j l ++ run_refs_of j k.
Proof. apply omap_app. Qed.
Lemma timer_refs_app j l k : timer_refs_of j (l ++ k) = timer_refs_of j l ++ timer_refs_of j k.
Proof. apply omap_app. Qed.

(** ** Slots *)

(** The slots of a job: [rs] are the coroutines that hold one.  Without
    [strict], the queue may be ahead of the slots. *)
Record slots_ok (strict : bool) (r : JobRegistration) (rs : list nat) (nx : nat) : Prop := {
  limit_pos : 1 ≤ max_concurrent_runs (options r);
  held : map run_ref (runs r) ≡ₚ rs;
  refs_nodup : NoDup (map run_ref (runs r));
  refs_fresh : Forall (λ n, n < nx)%nat (map run_ref (runs r));
  queue_full : strict = true → queued r = true →
    max_concurrent_runs (options r) ≤ Z.of_nat (length (runs r));
}.

Definition holders (tr : list (string * nat)) (s : Scheduler) (j : string) : list nat :=
  run_refs_of j (tasks s) ++ trig_refs j tr.

Definition slots_at (strict : bool) (tr : list (string * nat)) (s : Scheduler) (j : string) : Prop :=
  match get_reg j s with
  | Some r => slots_ok strict r (holders tr s j) (next_ref s)
  | None => holders tr s j = []
  end.

Definition slots_but (j0 : string) (tr : list (string * nat)) (s : Scheduler) : Prop :=
  ∀ j, slots_at (bool_decide (j ≠ j0)) tr s j.
Definition slots_inv (tr : list (string * nat)) (s : Scheduler) : Prop := ∀ j, slots_at true tr s j.

Lemma slots_ok_perm b r rs rs' nx : rs ≡ₚ rs' → slots_ok b r rs nx → slots_ok b r rs' nx.
Proof. intros Hp [? ? ? ? ?]. split; [done| |done..]. by rewrite <- Hp. Qed.

Lemma slots_ok_weaken b r rs nx nx' :
  (nx ≤ nx')%nat → slots_ok true r rs nx → slots_ok b r rs nx'.
Proof.
  intros Hn [? ? ? Hf ?]. split; [done..| |auto]. eapply Forall_impl; [exact Hf|]. simpl. lia.
Qed.

(** A change that a job's slots do not see. *)
Lemma slots_at_frame b tr tr' s s' j :
  get_reg j s' = get_reg j s → holders tr' s' j ≡ₚ holders tr s j → (next_ref s ≤ next_ref s')%nat →
  slots_at b tr s j → slots_at b tr' s' j.
Proof.
  unfold slots_at. intros -> Hp Hn. destruct (get_reg j s).
  - intros [? ? ? Hf ?]. split; [done|by rewrite Hp|done| |done].
    eapply Forall_impl; [exact Hf|]. simpl. lia.
  - intros Hh. rewrite Hh in Hp. by apply Permutation_nil_r in Hp.
Qed.

(** A change of a registration that keeps its slots. *)
Definition keeps_slots (f : JobRegistration → JobRegistration) : Prop :=
  ∀ r, map run_ref (runs (f r)) = map run_ref (runs r) ∧ (queued (f r) = true → queued r = true) ∧
    max_concurrent_runs (options (f r)) = max_concurrent_runs (options r).

Lemma keeps_slots_ok b f r rs nx : keeps_slots f → slots_ok b r rs nx → slots_ok b (f r) rs nx.
Proof.
  intros Hf [? ? ? ? Hq]. destruct (Hf r) as (Hr & Hqu & Hl). split; rewrite ?Hr, ?Hl; try done.
  intros Hb Hqf. specialize (Hq Hb (Hqu Hqf)).
  by rewrite <- (length_map run_ref (runs (f r))), Hr, length_map.
Qed.

Lemma slots_upd tr j f s : keeps_slots f → slots_inv tr s → slots_inv tr (upd_reg j f s).
Proof.
  intros Hf Hs j'. specialize (Hs j'). unfold slots_at, holders in *.
  autorewrite with sched. case_decide; [subst|done].
  destruct (get_reg j s) as [r|]; simpl; [by apply keeps_slots_ok|done].
Qed.

Lemma slots_tasks tr l s :
  (∀ j, run_refs_of j l = run_refs_of j (tasks s)) → slots_inv tr s → slots_inv tr (set_tasks l s).
Proof. intros Hl Hs j. specialize (Hs j). unfold slots_at, holders in *. simpl. by rewrite Hl. Qed.

(** ** Preservation, operation by operation *)

Lemma take_slot_slots tr j s :
  (∀ r, get_reg j s = Some r → queued r = false) → get_reg j s ≠ None → slots_but j tr s →
  slots_inv ((j, next_ref s) :: tr) (_take_slot j s).2.
Proof.
  intros Hlt Hj Hs j'. specialize (Hs j'). unfold slots_at, holders, _take_slot in *. simpl.
  autorewrite with sched. destruct (decide (j' = j)) as [->|Hne].
  - rewrite decide_True by done. destruct (get_reg j s) as [r|]; [|done]. simpl.
    rewrite bool_decide_false in Hs by naive_solver.
    destruct Hs as [Hl Hh Hn Hf _]. specialize (Hlt r eq_refl).
    split; simpl; rewrite ?map_app; simpl.
    + done.
    + rewrite Hh. rewrite (Permutation_app_comm _ [next_ref s]). simpl. apply Permutation_middle.
    + apply NoDup_app. split; [done|]. split; [|apply NoDup_singleton].
      intros n Hn'. rewrite list_elem_of_singleton. intros ->.
      rewrite Forall_forall in Hf. specialize (Hf _ Hn'). lia.
    + apply Forall_app. split; [|repeat constructor; lia].
      eapply Forall_impl; [exact Hf|]. simpl. lia.
    + congruence.
  - rewrite bool_decide_true in Hs by done. rewrite decide_False by done.
    destruct (get_reg j' s); [|done]. apply (slots_ok_weaken _ _ _ (next_ref s)); [lia|exact Hs].
Qed.

Lemma slots_but_of j tr s : slots_inv tr s → slots_but j tr s.
Proof.
  intros Hs j'. specialize (Hs j'). unfold slots_at in *. destruct (get_reg j' s); [|done].
  by eapply slots_ok_weaken.
Qed.

Lemma launch_slots tr j n s : slots_inv ((j, n) :: tr) s → slots_inv tr (_launch j (Some n) s).2.
Proof.
  intros Hs j'. specialize (Hs j'). simpl.
  eapply slots_at_frame; [..|exact Hs]; [done| |simpl; lia].
  unfold holders. simpl. rewrite run_refs_app. simpl.
  case_decide; simpl; [|by rewrite app_nil_r].
  rewrite <- app_assoc. by apply Permutation_app_head.
Qed.

Lemma slots_perm tr tr' s : tr ≡ₚ tr' → slots_inv tr s → slots_inv tr' s.
Proof.
  intros Hp Hs j. eapply slots_at_frame; [..|exact (Hs j)]; [done| |lia].
  unfold holders. by rewrite Hp.
Qed.

Lemma launch_opt_slots tr j r s :
  slots_inv (admitted j (inr r) tr) s → slots_inv tr (_launch j r s).2.
Proof. destruct r as [n|]; [apply launch_slots|done]. Qed.

(** [queued] is set when every slot is taken. *)
Lemma slots_queue tr j f s :
  (∀ r, get_reg j s = Some r → max_concurrent_runs (options r) ≤ Z.of_nat (length (runs r))) →
  (∀ l, map run_ref (f l) = map run_ref l) →
  slots_inv tr s → slots_inv tr (upd_reg j (λ r, set_runs (f (runs r)) true r) s).
Proof.
  intros Hfull Hf Hs j'. specialize (Hs j'). unfold slots_at, holders in *.
  autorewrite with sched. case_decide; [subst|done].
  destruct (get_reg j s) as [r|]; simpl; [|done]. specialize (Hfull r eq_refl).
  destruct Hs as [? ? ? ? ?]. split; simpl; rewrite ?Hf; try done. intros _ _.
  rewrite <- (length_map run_ref (f _)), Hf, length_map. done.
Qed.

Lemma cancel_first_refs l : map run_ref (cancel_first l) = map run_ref l.
Proof. by destruct l. Qed.

Lemma admit_slots tr j manual s :
  slots_inv tr s → slots_inv (admitted j (_admit j manual s).1 tr) (_admit j manual s).2.
Proof.
  intros Hs. unfold _admit. rewrite py_bind_eq, get_registration_eq.
  destruct (get_reg j s) as [r|] eqn:Hr; [|done].
  destruct (Z.ltb_spec (Z.of_nat (length (runs r))) (max_concurrent_runs (options r))) as [Hlt|Hge].
  - rewrite py_bind_eq. simpl. apply (take_slot_slots tr j s); [|by rewrite Hr|by apply slots_but_of].
    intros r' Hr'. rewrite Hr in Hr'. injection Hr' as <-. specialize (Hs j).
    unfold slots_at in Hs. rewrite Hr in Hs. destruct (queued r) eqn:Hq; [|done]. pose proof (queue_full _ _ _ _ Hs eq_refl Hq). lia.
  - case_bool_decide; [|case_bool_decide; [|by destruct manual]].
    + simpl. apply (slots_queue tr j (λ l, l)); [|done|done]. intros r' Hr'. by simplify_eq.
    + destruct (queued r); simpl; [done|]. apply slots_queue; [|apply cancel_first_refs|done].
      intros r' Hr'. by simplify_eq.
Qed.

Lemma start_queued_slots tr j s : slots_but j tr s → slots_inv tr (_start_queued j s).2.
Proof.
  intros Hs. unfold _start_queued. rewrite py_bind_eq, get_registration_eq.
  assert ((∀ r, get_reg j s = Some r → queued r = true →
    max_concurrent_runs (options r) ≤ Z.of_nat (length (runs r))) → slots_inv tr s) as Hdone.
  { intros Hq j'. specialize (Hs j'). unfold slots_at in *. destruct (decide (j' = j)) as [->|Hne].
    - destruct (get_reg j s) as [r|]; [|done]. destruct Hs. split; [done..|]. intros _. by apply Hq.
    - by rewrite bool_decide_true in Hs. }
  destruct (get_reg j s) as [r|] eqn:Hr; [|simpl; by apply Hdone].
  destruct (queued r && _) eqn:Hq.
  - apply andb_prop in Hq as [Hq Hlt%Z.ltb_lt].
    set (s1 := upd_reg j (λ r, set_runs (runs r) false r) s).
    change (slots_inv tr (_launch j (Some (next_ref s1)) (_take_slot j s1).2).2).
    assert (get_reg j s1 = Some (set_runs (runs r) false r)) as Hr1
      by (unfold s1; rewrite get_upd, decide_True, Hr; done).
    apply launch_slots, (take_slot_slots tr j s1); [|by rewrite Hr1|].
    + rewrite Hr1. by intros r' [= <-].
    + intros j'. specialize (Hs j'). unfold slots_at, holders, s1 in *. autorewrite with sched.
      case_decide; [subst|done]. rewrite Hr in Hs |- *. simpl.
      eapply (keeps_slots_ok _ (λ r, set_runs (runs r) false r)); [|exact Hs]. done.
  - apply Hdone. intros r' [= <-] Hq'. rewrite Hq' in Hq. simpl in Hq.
    by apply Z.ltb_ge in Hq.
Qed.

Lemma holders_pop_run tr s j n j' :
  RunTask j n ∈ tasks s →
  holders tr s j' ≡ₚ (if decide (j = j') then [n] else []) ++ holders tr (pop_task (RunTask j n) s) j'.
Proof.
  intros Hk. unfold holders, pop_task. simpl. rewrite (remove_task_perm _ _ Hk) at 1. simpl.
  by case_decide.
Qed.

Lemma release_slots tr j n s :
  slots_inv tr s → RunTask j n ∈ tasks s →
  slots_inv tr (_release j n (pop_task (RunTask j n) s)).2.
Proof.
  intros Hs Hk. unfold _release. rewrite py_bind_eq. simpl. apply start_queued_slots.
  intros j'. specialize (Hs j'). pose proof (holders_pop_run tr s j n j' Hk) as Hp.
  set (s1 := pop_task (RunTask j n) s) in *. unfold slots_at in *.
  change (get_reg j' s) with (get_reg j' s1) in Hs. change (next_ref s) with (next_ref s1) in Hs.
  autorewrite with sched.
  assert (∀ f, holders tr (upd_reg j f s1) j' = holders tr s1 j') as ->
    by (intros; unfold holders; by rewrite tasks_upd).
  destruct (decide (j' = j)) as [->|Hne].
  - rewrite decide_True in Hp by done. destruct (get_reg j s1) as [r|]; simpl in *.
    2: { rewrite Hs in Hp. by apply Permutation_nil_cons in Hp. }
    rewrite bool_decide_false by naive_solver.
    apply (slots_ok_perm _ _ _ _ _ Hp) in Hs as [Hl Hh Hn Hf _].
    assert (n ∈ map run_ref (runs r)) as Hin by (rewrite Hh; left).
    pose proof (remove_run_perm n (runs r) Hin) as Hr. rewrite Hr in Hh, Hn, Hf.
    split; simpl; [done| | | |done].
    + by apply Permutation_cons_inv in Hh.
    + by apply NoDup_cons in Hn as [_ Hn].
    + by apply Forall_cons in Hf as [_ Hf].
  - rewrite decide_False in Hp by congruence. rewrite bool_decide_true by done.
    simpl in Hp. destruct (get_reg j' s1); [by eapply slots_ok_perm|].
    rewrite Hs in Hp. by apply Permutation_nil_l in Hp.
Qed.

(** ** Methods that keep a property of the scheduler *)

Section Keeps.
Context (P : Scheduler → Prop).

Lemma keeps_when {A} (x : option A) k : (∀ a, keeps P (k a)) → keeps P (when_given x k).
Proof. destruct x; simpl; [auto|]. intros _. by apply keeps_same. Qed.
End Keeps.

Lemma get_registration_same j s : (_get_registration j s).2 = s.
Proof. rewrite get_registration_eq. by destruct (get_reg j s). Qed.
Lemma the_interval_same x s : (the_interval x s).2 = s.
Proof. unfold the_interval. by destruct (parse_interval x). Qed.
Lemma validate_same v s : (_validate_max_concurrent_runs v s).2 = s.
Proof. unfold _validate_max_concurrent_runs. destruct v; try done. by destruct (z <? 1). Qed.

Create HintDb keeps discriminated.
#[export] Hint Resolve get_registration_same the_interval_same validate_same : keeps.

(** Walk through a method: [t] proves the changes it makes. *)
Ltac walk t :=
  repeat (cbv zeta; first [t | match goal with
  | |- keeps _ (_ ≫= _) => apply keeps_bind; [|intros ?]
  | |- keeps _ (when_given _ _) => apply keeps_when; intros ?
  | |- keeps _ (mret _) => by apply keeps_same
  | |- keeps _ (raise _) => by apply keeps_same
  | |- keeps _ (gets _) => by apply keeps_same
  | |- keeps _ (raise_if ?b _) => apply keeps_same; intros ?; by destruct b
  | |- keeps _ (_get_registration _) => apply keeps_same; auto with keeps
  | |- keeps _ (the_interval _) => apply keeps_same; auto with keeps
  | |- keeps _ (_validate_max_concurrent_runs _) => apply keeps_same; auto with keeps
  | |- keeps _ (_next_occurrence _ _ _) => by apply keeps_same
  | |- keeps _ (match ?x with _ => _ end) => destruct x
  | |- keeps _ (modify _) => apply keeps_modify; intros ? ?
  end]).

(** Cancelling a timer keeps every run, and every other timer. *)
Lemma run_refs_filter_timer j j0 t l :
  run_refs_of j (List.filter (λ k, negb (is_timer j0 t k)) l) = run_refs_of j l.
Proof.
  induction l as [|k l IH]; simpl; [done|]. unfold is_timer at 1.
  destruct k as [j' n|j' n d]; simpl; [by rewrite IH|].
  case_bool_decide; simpl; by rewrite IH.
Qed.

Lemma cancel_timer_slots tr j t s : slots_inv tr s → slots_inv tr (cancel_timer_task j t s).
Proof.
  intros Hs. destruct t as [t|]; [|done]. apply slots_tasks; [|done].
  intros j'. apply run_refs_filter_timer.
Qed.

Lemma start_timer_slots tr j next delay : keeps (slots_inv tr) (start_timer j next delay).
Proof.
  intros s Hs j'. unfold start_timer. simpl.
  apply (slots_upd tr j (set_timer (Some next) (Some (next_ref s)))) in Hs; [|done].
  eapply slots_at_frame; [..|exact (Hs j')]; [done| |simpl; lia].
  unfold holders. simpl. rewrite tasks_upd, run_refs_app. simpl. by rewrite app_nil_r.
Qed.

Lemma admit_launch_slots tr j manual : keeps (slots_inv tr) (r ← _admit j manual; _launch j r).
Proof.
  intros s Hs. pose proof (admit_slots tr j manual s Hs) as Ha. rewrite py_bind_eq.
  destruct (_admit j manual s) as [[e|r] s']; simpl in *; [done|].
  by apply launch_opt_slots.
Qed.

(** The same with more work after it. *)
Lemma admit_launch_then P j manual {B} (rest : py Scheduler jexn B) :
  keeps P (r ← _admit j manual; _launch j r) → keeps P rest →
  keeps P (r ← _admit j manual; _ ← _launch j r; rest).
Proof.
  intros Ha Hr s Hs. specialize (Ha s Hs). cbv [mbind py_bind] in *.
  destruct (_admit j manual s) as [[e|r] s1]; [done|].
  destruct (_launch j r s1) as [[e|[]] s2]; [done|]. by apply Hr.
Qed.

Lemma concurrency_slots tr j n s :
  1 ≤ n → slots_inv tr s →
  slots_inv tr ((_ ← change j (with_concurrency n); _start_queued j) s).2.
Proof.
  intros Hn Hs. rewrite py_bind_eq. simpl. apply start_queued_slots. intros j'. specialize (Hs j').
  unfold slots_at, holders in *. autorewrite with sched.
  case_decide as E; [subst|rewrite bool_decide_true by done].
  - rewrite bool_decide_false by naive_solver. destruct (get_reg j s) as [r|]; simpl; [|done].
    by destruct Hs; split.
  - by destruct (get_reg j' s).
Qed.

Section Preserve.
Context (cron_valid : string → bool).
Context (next_occurrence : string → Z → jexn + Z).
Context (class_name : nat → string).

Ltac slots_change :=
  first [ apply start_timer_slots | apply slots_upd; [by intros ?; simpl; try (case_match); split_and!|assumption]
        | apply cancel_timer_slots; assumption ].

Lemma cancel_timer_keeps tr j : keeps (slots_inv tr) (_cancel_timer j).
Proof. unfold _cancel_timer. walk slots_change. Qed.

Lemma schedule_next_slots tr j run_now after_fire fired_at now :
  keeps (slots_inv tr) (_schedule_next next_occurrence j run_now after_fire fired_at now).
Proof. unfold _schedule_next, cron_due. walk slots_change. Qed.

Lemma due_on_start_slots tr reg now : keeps (slots_inv tr) (_due_on_start next_occurrence reg now).
Proof. unfold _due_on_start. walk slots_change. Qed.

Lemma cancel_runs_slots tr j : keeps (slots_inv tr) (_cancel_runs j).
Proof.
  unfold _cancel_runs. walk fail. apply slots_upd; [|done]. intros r. simpl. rewrite map_map.
  by split_and!.
Qed.

Ltac slots_method :=
  first [ slots_change | apply cancel_timer_keeps | apply schedule_next_slots
        | apply due_on_start_slots | apply cancel_runs_slots ].

Lemma timer_fire_slots tr j now : keeps (slots_inv tr) (_timer_fire next_occurrence j now).
Proof.
  unfold _timer_fire. do 2 (apply keeps_bind; [apply keeps_same; auto with keeps|intros ?]).
  destruct (_ || _); [by apply keeps_same|]. cbv zeta.
  apply admit_launch_then; [apply admit_launch_slots|]. walk slots_method.
Qed.

Lemma start_one_slots tr persisted j now :
  keeps (slots_inv tr) (start_one next_occurrence persisted j now).
Proof.
  unfold start_one. walk ltac:(idtac; first [apply admit_launch_slots | slots_method]).
Qed.

Lemma pause_slots tr j : keeps (slots_inv tr) (pause_now j).
Proof. unfold pause_now. walk slots_method. Qed.
Lemma resume_slots tr j now : keeps (slots_inv tr) (resume_now next_occurrence j now).
Proof. unfold resume_now. walk slots_method. Qed.
Lemma stop_job_slots tr j : keeps (slots_inv tr) (stop_job_now j).
Proof. unfold stop_job_now. walk slots_method. Qed.
Lemma stop_one_slots tr j : keeps (slots_inv tr) (stop_one j).
Proof. unfold stop_one. walk slots_method. Qed.
Lemma cancel_current_slots tr j : keeps (slots_inv tr) (cancel_current_now j).
Proof. unfold cancel_current_now. walk slots_method. Qed.

Lemma change_slots tr j f :
  (∀ o, max_concurrent_runs (f o) = max_concurrent_runs o) → keeps (slots_inv tr) (change j f).
Proof. intros Hf. unfold change. walk fail. apply slots_upd; [|done]. intros r. split_and!; [done..|apply Hf]. Qed.

Lemma set_timing_slots tr j c : keeps (slots_inv tr) (set_timing cron_valid j c).
Proof. unfold set_timing, change. walk slots_method. Qed.
Lemma set_retry_slots tr j c : keeps (slots_inv tr) (set_retry j c).
Proof. unfold set_retry, change. walk slots_method. Qed.

Lemma update_options_slots tr j c now :
  keeps (slots_inv tr) (update_options_now cron_valid next_occurrence j c now).
Proof.
  unfold update_options_now. apply keeps_bind; [apply keeps_same; auto with keeps|intros _].
  apply (keeps_bind_post _ (λ l, ∀ n, l = Some n → 1 ≤ n)).
  - intros s a s' H n ->. destruct (c_max_concurrent_runs c) as [v|]; [|done].
    unfold _validate_max_concurrent_runs in H. destruct v; try done.
    rewrite py_bind_eq in H. destruct (Z.ltb_spec z 1); [done|].
    cbv [mret py_ret] in H. by simplify_eq.
  - walk fail.
  - intros l Hl. destruct l as [n|]; cbn [when_given]; walk ltac:(idtac; first
      [ apply set_timing_slots | apply change_slots; done | apply set_retry_slots | slots_method
      | intros s Hs; apply (concurrency_slots tr j n); [by apply Hl|exact Hs] ]).
Qed.
End Preserve.

(** ** Timers *)

Definition timer_fields (r : JobRegistration) : option nat * string := (timer_task r, reg_status r).

(** What a job's timer depends on. *)
Definition timers_of (j : string) (s : Scheduler) : list nat * option (option nat * string) :=
  (timer_refs_of j (tasks s), timer_fields <$> get_reg j s).

(** At most one timer, the one of the registration; and, when [strict], none
    for a job that is not active. *)
Definition timer_ok (strict : bool) (v : list nat * option (option nat * string)) : Prop :=
  match v with
  | (ts, Some (t, st)) =>
      (ts = [] ∨ ∃ n, ts = [n] ∧ t = Some n) ∧ (strict = true → st ≠ "active" → ts = [])
  | (ts, None) => ts = []
  end.

Definition timers_inv (s : Scheduler) : Prop := ∀ j, timer_ok true (timers_of j s).
Definition timers_but (j0 : string) (s : Scheduler) : Prop :=
  ∀ j, timer_ok (bool_decide (j ≠ j0)) (timers_of j s).
Definition no_timer (j : string) (s : Scheduler) : Prop :=
  timers_inv s ∧ timer_refs_of j (tasks s) = [].
Definition active (j : string) (s : Scheduler) : Prop :=
  ∀ r, get_reg j s = Some r → reg_status r = "active".

(** Nothing about timers changed since [s0]. *)
Definition same_timers (s0 s : Scheduler) : Prop := ∀ j, timers_of j s = timers_of j s0.

Lemma same_timers_refl s : same_timers s s.
Proof. done. Qed.

Lemma same_timers_inv s0 s : same_timers s0 s → timers_inv s0 → timers_inv s.
Proof. intros Hs Hi j. rewrite Hs. apply Hi. Qed.

Lemma timer_fields_upd j j' f s :
  (∀ r, timer_fields (f r) = timer_fields r) → timers_of j' (upd_reg j f s) = timers_of j' s.
Proof.
  intros Hf. unfold timers_of. autorewrite with sched. case_decide; [subst|done].
  destruct (get_reg j s); simpl; [by rewrite Hf|done].
Qed.

Lemma same_timers_upd s0 j f s :
  (∀ r, timer_fields (f r) = timer_fields r) → same_timers s0 s → same_timers s0 (upd_reg j f s).
Proof. intros Hf Hs j'. by rewrite timer_fields_upd. Qed.

Lemma same_timers_launch s0 j r : keeps (same_timers s0) (_launch j r).
Proof.
  destruct r as [n|]; [|by apply keeps_same]. intros s Hs j'. rewrite <- Hs. unfold timers_of. simpl.
  rewrite timer_refs_app. simpl. by rewrite app_nil_r.
Qed.

Lemma same_timers_take_slot s0 j : keeps (same_timers s0) (_take_slot j).
Proof.
  intros s Hs j'. rewrite <- Hs. unfold _take_slot. cbn [snd].
  change (timers_of j' (bump_ref ?x)) with (timers_of j' x). by apply timer_fields_upd.
Qed.

Ltac timers_same :=
  first [ apply same_timers_launch | apply same_timers_take_slot
        | apply same_timers_upd; [done|assumption] ].

Lemma same_timers_admit s0 j manual : keeps (same_timers s0) (_admit j manual).
Proof. unfold _admit. walk timers_same. Qed.
Lemma same_timers_start_queued s0 j : keeps (same_timers s0) (_start_queued j).
Proof. unfold _start_queued. walk timers_same. Qed.
Lemma same_timers_release s0 j n : keeps (same_timers s0) (_release j n).
Proof. unfold _release. walk ltac:(idtac; first [apply same_timers_start_queued | timers_same]). Qed.
Lemma same_timers_cancel_runs s0 j : keeps (same_timers s0) (_cancel_runs j).
Proof. unfold _cancel_runs. walk timers_same. Qed.
Lemma same_timers_change s0 j f : keeps (same_timers s0) (change j f).
Proof. unfold change. walk timers_same. Qed.
Lemma same_timers_cancel_current s0 j : keeps (same_timers s0) (cancel_current_now j).
Proof.
  unfold cancel_current_now. walk ltac:(idtac; first [apply same_timers_cancel_runs | timers_same]).
Qed.

Lemma same_timers_set_timing s0 valid j c : keeps (same_timers s0) (set_timing valid j c).
Proof. unfold set_timing. walk ltac:(apply same_timers_change). Qed.
Lemma same_timers_set_retry s0 j c : keeps (same_timers s0) (set_retry j c).
Proof. unfold set_retry. walk ltac:(apply same_timers_change). Qed.

Lemma timer_refs_remove j t l :
  timer_refs_of j (List.filter (λ k, negb (is_timer j t k)) l) =
  List.filter (λ n, negb (bool_decide (n = t))) (timer_refs_of j l).
Proof.
  unfold timer_refs_of, is_timer. induction l as [|[j' n|j' n d] l IH]; simpl; [done|done|].
  case_bool_decide as E1; simpl.
  - destruct E1 as [-> ->]. rewrite decide_True by done. simpl. by rewrite bool_decide_true.
  - case_decide as E2; [|exact IH]. subst. simpl. rewrite bool_decide_false by naive_solver.
    simpl. f_equal. exact IH.
Qed.

Lemma timer_refs_remove_ne j j0 t l :
  j ≠ j0 → timer_refs_of j (List.filter (λ k, negb (is_timer j0 t k)) l) = timer_refs_of j l.
Proof.
  intros Hne. unfold timer_refs_of, is_timer. induction l as [|[j' n|j' n d] l IH]; simpl; [done|done|].
  case_bool_decide as E1; simpl.
  - destruct E1 as [-> ->]. by rewrite decide_False by congruence.
  - case_decide; [f_equal|]; exact IH.
Qed.

(** Cancelling its timer leaves a job without one. *)
Lemma cancel_timer_task_none j s r :
  timers_but j s → get_reg j s = Some r → no_timer j (cancel_timer_task j (timer_task r) s).
Proof.
  intros Hb Hr. pose proof (Hb j) as Hj. unfold timers_of in Hj. rewrite Hr in Hj.
  destruct Hj as [Hj _].
  assert (timer_refs_of j (tasks (cancel_timer_task j (timer_task r) s)) = []) as Hnone.
  { destruct Hj as [Hj|(n & Hj & Ht)]; [destruct (timer_task r) as [t|]|rewrite Ht]; simpl;
      rewrite ?timer_refs_remove, Hj; simpl; [done|done|]. by rewrite bool_decide_true. }
  split; [|done]. intros j'. specialize (Hb j'). destruct (decide (j' = j)) as [->|Hne].
  - unfold timers_of in *. rewrite Hnone.
    replace (get_reg j (cancel_timer_task j (timer_task r) s)) with (get_reg j s)
      by by destruct (timer_task r).
    rewrite Hr. simpl. auto.
  - rewrite bool_decide_true in Hb by done.
    replace (timers_of j' (cancel_timer_task j (timer_task r) s)) with (timers_of j' s); [done|].
    destruct (timer_task r); [|done]. unfold timers_of. simpl. by rewrite timer_refs_remove_ne.
Qed.

Lemma cancel_timer_none j s : timers_but j s → get_reg j s ≠ None → no_timer j (_cancel_timer j s).2.
Proof.
  intros Hb Hj. unfold _cancel_timer. rewrite py_bind_eq, get_registration_eq.
  destruct (get_reg j s) as [r|] eqn:Hr; [|done].
  change (no_timer j (upd_reg j (set_timer None None) (cancel_timer_task j (timer_task r) s))).
  destruct (cancel_timer_task_none j s r Hb Hr) as [Hi Hn].
  set (s1 := cancel_timer_task j (timer_task r) s) in *.
  split; [|by rewrite tasks_upd]. intros j'. specialize (Hi j'). unfold timers_of in *.
  autorewrite with sched. case_decide; [subst|done]. rewrite Hn in *.
  destruct (get_reg j s1); simpl in *; [|done]. auto.
Qed.

Lemma timers_but_of j s : timers_inv s → timers_but j s.
Proof.
  intros Hs j'. specialize (Hs j'). unfold timer_ok in *.
  destruct (timers_of j' s) as [ts [[t st]|]]; [|done]. naive_solver.
Qed.

(** A status change leaves the others' timers alone. *)
Lemma set_status_but j st s : timers_inv s → timers_but j (upd_reg j (set_status st) s).
Proof.
  intros Hs j'. specialize (Hs j'). unfold timers_of, timer_ok in *. autorewrite with sched.
  case_decide as E; [subst; rewrite bool_decide_false by naive_solver|by rewrite bool_decide_true].
  destruct (get_reg j s); simpl in *; [|done]. naive_solver.
Qed.

Lemma start_timer_ok j next delay s :
  no_timer j s → active j s → get_reg j s ≠ None → timers_inv (start_timer j next delay s).2.
Proof.
  intros [Hi Hn] Ha Hj j'. specialize (Hi j'). unfold start_timer, timers_of in *. simpl.
  rewrite timer_refs_app. autorewrite with sched. destruct (decide (j' = j)) as [->|Hne].
  - rewrite Hn. destruct (get_reg j s) as [r|] eqn:Hr; [|done]. simpl.
    rewrite decide_True by done. simpl. split; [right; by eexists|]. intros _ Hst.
    by rewrite (Ha r Hr) in Hst.
  - simpl. rewrite decide_False by done. simpl. by rewrite app_nil_r.
Qed.

Section TimerSteps.
Context (cron_valid : string → bool).
Context (next_occurrence : string → Z → jexn + Z).
Context (class_name : nat → string).

(** [_schedule_next] raises or returns without a change, starts one timer, or
    finds no schedule. *)
Lemma schedule_next_result j run_now after_fire fired_at now s :
  let s' := (_schedule_next next_occurrence j run_now after_fire fired_at now s).2 in
  s' = s ∨ (∃ next delay, get_reg j s ≠ None ∧ s' = (start_timer j next delay s).2) ∨
  s' = upd_reg j (λ r, set_timer None (timer_task r) r) s.
Proof.
  unfold _schedule_next, cron_due, the_interval, _next_occurrence.
  cbv [mbind py_bind gets]. destruct (negb (_running s)); [by left|].
  rewrite get_registration_eq. destruct (get_reg j s) as [reg|]; [|by left].
  destruct (truthy_opt (schedule (options reg))).
  - assert (∀ x : jexn + Z, let r := match x with
        | inl e => (inl e, s)
        | inr a => start_timer j a (Z.max (a - now) 100000) s end : (jexn + ()) * Scheduler in
        r.2 = s ∨ (∃ next delay, Some reg ≠ None ∧ r.2 = (start_timer j next delay s).2) ∨
        r.2 = upd_reg j (λ r, set_timer None (timer_task r) r) s) as Hx.
    { intros [e|a]; [by left|right; left; by eexists _, _]. }
    destruct fired_at as [f|]; simpl.
    + destruct (next_occurrence _ f) as [e|t]; [by left|]. cbv [mret py_ret].
      destruct (t <=? now); [|right; left; by eexists _, _]. apply Hx.
    + apply Hx.
  - destruct (truthy_opt (interval (options reg))); [|right; by right].
    destruct (parse_interval _); [right; left; by eexists _, _|by left].
Qed.

Lemma schedule_next_timers j run_now after_fire fired_at now s :
  no_timer j s → active j s →
  timers_inv (_schedule_next next_occurrence j run_now after_fire fired_at now s).2.
Proof.
  intros Hn Ha.
  destruct (schedule_next_result j run_now after_fire fired_at now s) as [->|[(n & d & Hj & ->)| ->]].
  - apply Hn.
  - by apply start_timer_ok.
  - eapply same_timers_inv; [|apply Hn]. by apply same_timers_upd.
Qed.

Lemma no_timer_same j s s' : same_timers s s' → no_timer j s → no_timer j s'.
Proof.
  intros Hs [Hi Hn]. split; [by eapply same_timers_inv|]. specialize (Hs j).
  unfold timers_of in Hs. injection Hs as Ht _. by rewrite Ht.
Qed.

Lemma active_same j s s' : same_timers s s' → active j s → active j s'.
Proof.
  intros Hs Ha r Hr. specialize (Hs j). unfold timers_of in Hs. injection Hs as _ Hf.
  rewrite Hr in Hf. destruct (get_reg j s) as [r0|] eqn:Hr0; [|done].
  injection Hf as _ Hst. rewrite Hst. by apply Ha.
Qed.

(** A method that leaves the timers alone, then one that keeps the invariant. *)
Lemma then_timers {A B} (m : py Scheduler jexn A) (k : A → py Scheduler jexn B) s :
  (∀ s0, keeps (same_timers s0) m) →
  timers_inv s →
  (∀ a s', same_timers s s' → timers_inv (k a s').2) →
  timers_inv ((m ≫= k) s).2.
Proof.
  intros Hm Hi Hk. rewrite py_bind_eq. pose proof (Hm s s (same_timers_refl s)) as Hs.
  destruct (m s) as [[e|a] s1]; simpl in *; [by eapply same_timers_inv|by apply Hk].
Qed.

Lemma pop_timer_none j t d s :
  timers_inv s → TimerTask j t d ∈ tasks s → no_timer j (pop_task (TimerTask j t d) s).
Proof.
  intros Hi Hk. unfold pop_task. pose proof (remove_task_perm _ _ Hk) as Hp.
  assert (timer_refs_of j (remove_task (TimerTask j t d) (tasks s)) = []) as Hn.
  { pose proof (timer_refs_proper j _ _ Hp) as Hr. simpl in Hr. rewrite decide_True in Hr by done.
    specialize (Hi j). unfold timers_of, timer_ok in Hi.
    assert (timer_refs_of j (tasks s) = [] ∨ ∃ n, timer_refs_of j (tasks s) = [n]) as [Hz|[n Hz]].
    { destruct (get_reg j s); simpl in Hi; naive_solver. }
    - rewrite Hz in Hr. by apply Permutation_nil_cons in Hr.
    - rewrite Hz in Hr. apply Permutation_singleton_l in Hr. naive_solver. }
  split; [|done]. intros j'. specialize (Hi j'). unfold timers_of in *. simpl.
  change (get_reg j' (set_tasks _ s)) with (get_reg j' s).
  destruct (decide (j' = j)) as [->|Hne].
  - rewrite Hn. unfold timer_ok in *. destruct (get_reg j s); simpl in *; [|done]. auto.
  - assert (timer_refs_of j' (remove_task (TimerTask j t d) (tasks s)) = timer_refs_of j' (tasks s)) as ->; [|done].
    clear - Hne. induction (tasks s) as [|k l IH]; simpl; [done|]. case_decide; [subst; simpl|].
    + by rewrite decide_False by done.
    + simpl. unfold timer_refs_of in *. simpl. by rewrite IH.
Qed.

Lemma timer_fire_timers j now s :
  no_timer j s → timers_inv (_timer_fire next_occurrence j now s).2.
Proof.
  intros Hn. unfold _timer_fire. cbv zeta.
  apply then_timers; [by intros; apply keeps_same|apply Hn|]. intros run s1 H1.
  rewrite py_bind_eq, get_registration_eq. destruct (get_reg j s1) as [reg|] eqn:Hr.
  2: { eapply same_timers_inv; [exact H1|apply Hn]. }
  destruct (negb run || _) eqn:Hact; [eapply same_timers_inv; [exact H1|apply Hn]|].
  apply orb_false_elim in Hact as [_ Hact]. apply negb_false_iff, bool_decide_eq_true in Hact.
  assert (no_timer j s1) as Hn1 by by eapply no_timer_same.
  assert (active j s1) as Ha1 by (intros r Hr'; by simplify_eq).
  apply then_timers; [intros; apply same_timers_admit|apply Hn1|]. intros a s2 H2.
  apply then_timers; [intros; apply same_timers_launch|by eapply same_timers_inv, Hn1|]. intros [] s3 H3.
  assert (same_timers s1 s3) as H13 by (intros j'; by rewrite H3, H2).
  apply then_timers; [intros; apply keeps_same; auto with keeps|by eapply same_timers_inv, Hn1|].
  intros reg' s4 H4. assert (same_timers s1 s4) as H14 by (intros j'; by rewrite H4, H13).
  destruct (bool_decide _).
  - apply schedule_next_timers; [by eapply no_timer_same|by eapply active_same].
  - by eapply same_timers_inv, Hn1.
Qed.

Lemma pause_timers j s : timers_inv s → timers_inv (pause_now j s).2.
Proof.
  intros Hi. unfold pause_now. rewrite py_bind_eq, get_registration_eq.
  destruct (get_reg j s) as [reg|] eqn:Hr; [|done]. rewrite py_bind_eq.
  destruct (bool_decide _); simpl; [done|].
  apply cancel_timer_none; [by apply set_status_but|]. by rewrite get_upd, decide_True, Hr.
Qed.

Lemma stop_job_timers j s : timers_inv s → timers_inv (stop_job_now j s).2.
Proof.
  intros Hi. unfold stop_job_now. rewrite py_bind_eq, get_registration_eq.
  destruct (get_reg j s) as [reg|] eqn:Hr; [|done]. rewrite py_bind_eq. cbn [modify].
  set (s1 := upd_reg j (set_status "stopped") s). rewrite py_bind_eq.
  destruct (cancel_timer_none j s1) as [Hi1 _]; [by apply set_status_but| |].
  { unfold s1. by rewrite get_upd, decide_True, Hr. }
  destruct (_cancel_timer j s1) as [[e|[]] s2]; [done|]. simpl in *.
  eapply same_timers_inv; [apply (same_timers_cancel_runs s2 j s2), same_timers_refl|done].
Qed.

Lemma stop_one_timers j s : timers_inv s → timers_inv (stop_one j s).2.
Proof.
  intros Hi. unfold stop_one.
  apply then_timers; [intros; apply same_timers_cancel_runs|done|]. intros [] s1 H1.
  rewrite py_bind_eq, get_registration_eq. destruct (get_reg j s1) as [r|] eqn:Hr;
    [|by eapply same_timers_inv].
  apply cancel_timer_task_none; [|done]. apply timers_but_of. by eapply same_timers_inv.
Qed.

Lemma resume_timers j now s : timers_inv s → timers_inv (resume_now next_occurrence j now s).2.
Proof.
  intros Hi. unfold resume_now. rewrite py_bind_eq, get_registration_eq.
  destruct (get_reg j s) as [reg|] eqn:Hr; [|done]. rewrite py_bind_eq.
  case_bool_decide as Hp; simpl; [|done]. specialize (Hi j) as Hj. unfold timers_of in Hj.
  rewrite Hr in Hj. simpl in Hj. destruct Hj as [_ Hj].
  specialize (Hj eq_refl ltac:(by rewrite Hp)).
  apply schedule_next_timers.
  - split; [|by rewrite tasks_upd]. intros j'. pose proof (set_status_but j "active" s Hi j') as Hb.
    destruct (decide (j' = j)) as [->|Hne]; [|by rewrite bool_decide_true in Hb].
    unfold timers_of in *. autorewrite with sched in *. rewrite decide_True, Hr in * by done. simpl in *.
    split; [apply Hb|]. done.
  - intros r'. rewrite get_upd, decide_True, Hr by done. simpl. by intros [= <-].
Qed.

Lemma start_one_timers persisted j now s :
  no_timer j s → timers_inv (start_one next_occurrence persisted j now s).2.
Proof.
  intros Hn. unfold start_one. rewrite py_bind_eq, get_registration_eq.
  destruct (get_reg j s) as [reg|] eqn:Hr; [|apply Hn].
  set (restore := match dict_get (reg_id reg) persisted with Some _ => _ | None => _ end).
  assert (∃ s1, restore s = (inr tt, s1) ∧ no_timer j s1) as (s1 & Hs1 & Hn1).
  { unfold restore. destruct (dict_get _ _) as [st|]; [|by eexists].
    eexists. split; [reflexivity|]. destruct Hn as [Hi Hn]. split; [|by rewrite tasks_upd].
    intros j'. specialize (Hi j'). unfold timers_of in *. autorewrite with sched.
    case_decide; [subst|done]. rewrite Hn, Hr in *. simpl in *. destruct Hi as [? _]. by split; auto. }
  rewrite py_bind_eq, Hs1. rewrite py_bind_eq, get_registration_eq.
  destruct (get_reg j s1) as [reg1|] eqn:Hr1; [|apply Hn1].
  case_bool_decide as Hact; [|apply Hn1]. simpl.
  assert (active j s1) as Ha1 by (intros r Hr'; by simplify_eq).
  apply then_timers; [|apply Hn1|].
  { intros s0. destruct (run_on_start _); [|by apply keeps_same]. unfold _due_on_start. walk fail. }
  intros run s2 H2. assert (no_timer j s2) as Hn2 by by eapply no_timer_same.
  assert (active j s2) as Ha2 by by eapply active_same.
  destruct (_ && _); [by apply schedule_next_timers|].
  rewrite py_bind_eq. pose proof (schedule_next_timers j false false None now s2 Hn2 Ha2) as Hi3.
  destruct (_schedule_next _ _ _ _ _ _ s2) as [[e|[]] s3]; [done|]. simpl in Hi3.
  destruct run; [|done]. apply then_timers; [intros; apply same_timers_admit|done|].
  intros r s4 H4. eapply same_timers_inv; [apply (same_timers_launch s4 j r s4), same_timers_refl|].
  by eapply same_timers_inv.
Qed.

(** One more method that leaves the timers alone. *)
Ltac then_same t Hi :=
  apply then_timers;
  [ intros; walk t | exact Hi
  | let H := fresh in intros ? ? H; apply same_timers_inv in H; [clear Hi; rename H into Hi|exact Hi] ].

Lemma update_options_timers j c now s :
  timers_inv s → timers_inv (update_options_now cron_valid next_occurrence j c now s).2.
Proof.
  intros Hi. unfold update_options_now.
  then_same fail Hi. then_same fail Hi.
  do 2 then_same ltac:(apply same_timers_change) Hi.
  then_same ltac:(apply same_timers_set_timing) Hi.
  then_same ltac:(apply same_timers_set_retry) Hi.
  then_same ltac:(idtac; first [apply same_timers_change | apply same_timers_start_queued]) Hi.
  match goal with |- timers_inv ((_ ≫= _) ?s1).2 => rename s1 into s9 end.
  rewrite py_bind_eq, get_registration_eq. destruct (get_reg j s9) as [reg|] eqn:Hr; [|done].
  case_bool_decide as Hact; [|done]. rewrite py_bind_eq.
  pose proof (cancel_timer_none j s9 (timers_but_of j s9 Hi) ltac:(by rewrite Hr)) as Hn.
  assert (active j (_cancel_timer j s9).2) as Ha.
  { intros r. unfold _cancel_timer. rewrite py_bind_eq, get_registration_eq, Hr.
    change (get_reg j (upd_reg j (set_timer None None) (cancel_timer_task j (timer_task reg) s9)) = Some r →
      reg_status r = "active").
    rewrite get_upd, decide_True by done.
    replace (get_reg j (cancel_timer_task j (timer_task reg) s9)) with (get_reg j s9)
      by by destruct (timer_task reg).
    rewrite Hr. by intros [= <-]. }
  destruct (_cancel_timer j s9) as [[e|[]] s10]; [apply Hn|]. by apply schedule_next_timers.
Qed.

End TimerSteps.

(** ** Registering *)

Lemma free_id_free fuel regs base i n j : free_id fuel regs base i n = Some j → dict_get j regs = None.
Proof.
  revert i n; induction fuel as [|fuel IH]; intros i n; simpl;
    destruct (dict_mem i regs) eqn:Hm; try done; try apply IH; intros [= <-];
    apply dict_get_None; intros Hk; apply dict_mem_true in Hk; congruence.
Qed.

Lemma free_id_None fuel regs base i n :
  free_id fuel regs base i n = None →
  i ∈ dict_keys regs ∧
  ∀ k, (k < fuel)%nat → base +:+ "-" +:+ str_of_Z (n + Z.of_nat k) ∈ dict_keys regs.
Proof.
  revert i n; induction fuel as [|fuel IH]; intros i n; simpl;
    destruct (dict_mem i regs) eqn:Hm; try done; apply dict_mem_true in Hm.
  - intros _. split; [done|]. intros; lia.
  - intros [Hn Hk]%IH. split; [done|]. intros [|k] Hlt.
    + by rewrite Z.add_0_r.
    + specialize (Hk k ltac:(lia)). by replace (n + Z.of_nat (S k)) with (n + 1 + Z.of_nat k) by lia.
Qed.

Lemma app_str_inj_l s t u : s +:+ t = s +:+ u → t = u.
Proof.
  intros H%(f_equal String.list_ascii_of_string). rewrite !chars_app in H.
  by apply app_inv_head, (inj String.list_ascii_of_string) in H.
Qed.

(** The search for a free id ends: of one more candidate than there are jobs,
    one is free. *)
Lemma free_id_total regs base n : ∃ j, free_id (length regs) regs base base n = Some j.
Proof.
  destruct (free_id (length regs) regs base base n) as [j|] eqn:E; [by exists j|exfalso].
  apply free_id_None in E as [Hb Hk].
  set (cand := base :: map (λ k, base +:+ "-" +:+ str_of_Z (n + Z.of_nat k)) (seq 0 (length regs))).
  assert (NoDup cand) as Hnd.
  { constructor.
    - intros [k [H _]]%list_elem_of_fmap. apply (f_equal len) in H. rewrite !len_app in H.
      simpl in H. unfold len at 3 in H. simpl in H. lia.
    - apply NoDup_fmap_2_strong; [|apply NoDup_seq]. intros k k' _ _ H%app_str_inj_l%app_str_inj_l.
      unfold str_of_Z in H. apply (inj pretty) in H. lia. }
  assert (cand ⊆ dict_keys regs) as Hsub.
  { intros x [->|[k [-> Hin]]%list_elem_of_fmap]%elem_of_cons; [done|]. apply Hk.
    apply elem_of_seq in Hin. lia. }
  pose proof (submseteq_length _ _ (NoDup_submseteq _ _ Hnd Hsub)) as Hlen.
  unfold cand, dict_keys in Hlen. simpl in Hlen. rewrite length_map, length_seq, length_fmap in Hlen. lia.
Qed.

Section Register.
Context (class_name : nat → string).

Lemma choose_id_free o s j s' : choose_id o s = (inr (Some j), s') → s' = s ∧ get_reg j s = None.
Proof.
  unfold choose_id. rewrite py_bind_eq. cbn [gets]. destruct (opt_id o) as [i|].
  - destruct (_ || _); [done|]. destruct (dict_mem i (registrations s)) eqn:Hm; [done|].
    intros [= <- <-]. split; [done|]. apply dict_get_None. intros Hk%dict_mem_true. congruence.
  - intros [= Hf <-]. split; [done|]. by eapply free_id_free.
Qed.

Lemma choose_id_total o s r s' : choose_id o s = (r, s') → s' = s ∧ r ≠ inr None.
Proof.
  unfold choose_id. rewrite py_bind_eq. cbn [gets]. destruct (opt_id o) as [i|].
  - destruct (_ || _); [intros [= <- <-]; done|].
    destruct (dict_mem i (registrations s)); intros [= <- <-]; done.
  - intros [= <- <-]. split; [done|].
    destruct (free_id_total (registrations s) (base_id (or_empty (name o))) 2) as [j ->]. done.
Qed.

(** Registering either changes nothing or adds one registration under a key the
    scheduler did not have. *)
Lemma register_result jb o s :
  let '(r, s') := register class_name jb o s in
  (∃ e, r = inl e ∧ s' = s) ∨
  ∃ j, r = inr (Some j) ∧ get_reg j s = None ∧ 1 ≤ max_concurrent_runs o ∧
    s' = set_registrations
      (dict_set j (new_registration j jb (named_options class_name jb o)) (registrations s)) s.
Proof.
  unfold register. cbv [mbind py_bind _validate_max_concurrent_runs raise mret py_ret modify].
  destruct (Z.ltb_spec (max_concurrent_runs o) 1); [left; by eexists|].
  destruct (choose_id (named_options class_name jb o) s) as [[e|[j|]] s'] eqn:E.
  - left. exists e. by destruct (choose_id_total _ _ _ _ E) as [-> _].
  - right. destruct (choose_id_free _ _ _ _ E) as [-> Hj]. exists j. done.
  - by destruct (choose_id_total _ _ _ _ E) as [_ ?].
Qed.

Lemma get_reg_set j r s j' :
  get_reg j' (set_registrations (dict_set j r (registrations s)) s) =
  if decide (j' = j) then Some r else get_reg j' s.
Proof.
  unfold get_reg. simpl. case_decide; [subst; by rewrite dict_get_set_eq|by rewrite dict_get_set_ne].
Qed.

(** Registering a job without an id of its own always ends with a new id
    that no job had (the name, or the name and the first free number, with the
    characters that are unsafe in a URL replaced); every other registration
    stays as it was. *)
Theorem register_unique jb o s :
  1 ≤ max_concurrent_runs o → opt_id o = None →
  ∃ j s', register class_name jb o s = (inr (Some j), s') ∧ get_reg j s = None ∧
    (∃ r, get_reg j s' = Some r ∧ reg_id r = j ∧ runs r = [] ∧ queued r = false) ∧
    ∀ j', j' ≠ j → get_reg j' s' = get_reg j' s.
Proof.
  intros Hmax Hid. pose proof (register_result jb o s) as H.
  destruct (register class_name jb o s) as [r s'] eqn:E.
  destruct H as [(e & -> & ->)|(j & -> & Hj & _ & ->)].
  - exfalso. unfold register, choose_id in E.
    cbv [mbind py_bind _validate_max_concurrent_runs raise mret py_ret modify gets] in E.
    destruct (Z.ltb_spec (max_concurrent_runs o) 1); [lia|]. simpl in E. rewrite Hid in E.
    match type of E with context [free_id ?a ?b ?c ?c ?n] => destruct (free_id_total b c n) as [j Hj] end.
    rewrite Hj in E. done.
  - exists j. eexists. split; [done|]. split; [done|]. split.
    + eexists. rewrite get_reg_set, decide_True by done. done.
    + intros j' Hne. by rewrite get_reg_set, decide_False.
Qed.

Lemma register_slots tr jb o s : slots_inv tr s → slots_inv tr (register class_name jb o s).2.
Proof.
  intros Hs. pose proof (register_result jb o s) as H.
  destruct (register class_name jb o s) as [r s'].
  destruct H as [(e & -> & ->)|(j & -> & Hj & Hmax & ->)]; [done|].
  intros j'. specialize (Hs j'). cbn [snd]. unfold slots_at, holders in *. rewrite get_reg_set.
  case_decide; [subst|done]. rewrite Hj in Hs. simpl. rewrite Hs.
  split; simpl; [done|done|constructor|constructor|done].
Qed.

Lemma register_timers jb o s : timers_inv s → timers_inv (register class_name jb o s).2.
Proof.
  intros Hs. pose proof (register_result jb o s) as H.
  destruct (register class_name jb o s) as [r s'].
  destruct H as [(e & -> & ->)|(j & -> & Hj & _ & ->)]; [done|].
  intros j'. specialize (Hs j'). cbn [snd]. unfold timers_of in *. rewrite get_reg_set. simpl.
  case_decide; [subst|done]. rewrite Hj in Hs. simpl in *. rewrite Hs. auto.
Qed.
End Register.

(** ** Every reachable state *)

Section Reachable.
Context (cron_valid : string → bool).
Context (next_occurrence : string → Z → jexn + Z).
Context (class_name : nat → string).
Abbreviation step := (step cron_valid next_occurrence class_name).
Abbreviation reachable := (reachable cron_valid next_occurrence class_name).

Lemma attempt_keeps n e :
  keeps_slots (λ r, set_runs (map (λ x, if decide (run_ref x = n) then set_execution e x else x) (runs r)) (queued r) r).
Proof.
  intros r. simpl. split_and!; [|done|done]. rewrite map_map. apply map_ext. intros x. by case_decide.
Qed.

Lemma pop_timer_slots tr j t d s : slots_inv tr s → slots_inv tr (pop_task (TimerTask j t d) s).
Proof.
  intros Hs. apply slots_tasks; [|done]. intros j'.
  induction (tasks s) as [|k l IH]; [done|]. cbn [remove_task]. case_decide; [by subst|].
  apply (f_equal (app (run_refs_of j' [k]))) in IH. by rewrite <- !run_refs_app in IH.
Qed.

Lemma step_slots c c' : step c c' → slots_inv c.2 c.1 → slots_inv c'.2 c'.1.
Proof.
  destruct 1; simpl; intros Hs.
  - by apply register_slots.
  - by apply start_one_slots.
  - by apply timer_fire_slots, pop_timer_slots.
  - by apply admit_slots.
  - by eapply (launch_slots tr' j n), slots_perm.
  - by apply release_slots.
  - apply slots_upd; [apply attempt_keeps|done].
  - by apply slots_upd.
  - by apply cancel_current_slots.
  - by apply pause_slots.
  - by apply resume_slots.
  - by apply stop_job_slots.
  - by apply stop_one_slots.
  - by apply update_options_slots.
  - done.
Qed.

Lemma run_refs_pop_timers j n s : same_timers s (pop_task (RunTask j n) s).
Proof.
  intros j'. unfold timers_of. f_equal. unfold pop_task. simpl.
  induction (tasks s) as [|k l IH]; [done|]. cbn [remove_task]. case_decide; [by subst|].
  apply (f_equal (app (timer_refs_of j' [k]))) in IH. by rewrite <- !timer_refs_app in IH.
Qed.

Lemma step_timers c c' : step c c' → timers_inv c.1 → timers_inv c'.1.
Proof.
  destruct 1; simpl; intros Hs.
  - by apply register_timers.
  - by apply start_one_timers.
  - apply timer_fire_timers. by apply pop_timer_none.
  - eapply same_timers_inv; [|exact Hs]. by apply same_timers_admit.
  - eapply same_timers_inv; [|exact Hs]. by apply (same_timers_launch s j (Some n)).
  - eapply same_timers_inv; [|exact Hs]. apply same_timers_release, run_refs_pop_timers.
  - eapply same_timers_inv; [|exact Hs]. by apply same_timers_upd.
  - eapply same_timers_inv; [|exact Hs]. by apply same_timers_upd.
  - eapply same_timers_inv; [|exact Hs]. by apply same_timers_cancel_current.
  - by apply pause_timers.
  - by apply resume_timers.
  - by apply stop_job_timers.
  - by apply stop_one_timers.
  - by apply update_options_timers.
  - done.
Qed.

Lemma reachable_inv c : reachable c → slots_inv c.2 c.1 ∧ timers_inv c.1.
Proof.
  unfold JobInvariant.reachable. intros H.
  assert (∀ c0 c', rtc step c0 c' → slots_inv c0.2 c0.1 ∧ timers_inv c0.1 →
    slots_inv c'.2 c'.1 ∧ timers_inv c'.1) as Hrtc.
  { induction 1 as [|c1 c2 c3 Hstep _ IH]; [done|]. intros [Hs Ht]. apply IH.
    split; [by eapply step_slots|by eapply step_timers]. }
  apply (Hrtc _ _ H). split; intros j; done.
Qed.


(** In every state the event loop can reach, a job has at most one timer,
    the registration's own, and none unless the job is active: a job never
    fires twice for one due time. *)
Theorem reachable_timers s tr j r :
  reachable (s, tr) → get_reg j s = Some r →
  (timer_refs_of j (tasks s) = [] ∨
   ∃ t, timer_refs_of j (tasks s) = [t] ∧ timer_task r = Some t) ∧
  (reg_status r ≠ "active" → timer_refs_of j (tasks s) = []).
Proof.
  intros [_ Ht]%reachable_inv Hr. specialize (Ht j). unfold timers_of in Ht. simpl in Ht.
  rewrite Hr in Ht. destruct Ht as [? ?]. auto.
Qed.

(** C8: a run that ends with another one waiting starts it, in the slot it
    frees, and nothing waits any more (unless the limit was lowered meanwhile,
    when the run goes on waiting for the next end). *)
Theorem queued_run_starts s tr j n r :
  reachable (s, tr) → get_reg j s = Some r → queued r = true → RunTask j n ∈ tasks s →
  ∃ r', get_reg j (_release j n (pop_task (RunTask j n) s)).2 = Some r' ∧
    if decide (Z.of_nat (length (runs r)) = max_concurrent_runs (options r)) then
      queued r' = false ∧ length (runs r') = length (runs r) ∧
      RunTask j (next_ref s) ∈ tasks (_release j n (pop_task (RunTask j n) s)).2
    else queued r' = true ∧ (length (runs r') < length (runs r))%nat.
Proof.
  intros [Hs _]%reachable_inv Hr Hq Hk. specialize (Hs j). unfold slots_at in Hs. simpl in Hs.
  rewrite Hr in Hs. destruct Hs as [Hl Hh Hn _ Hfull]. specialize (Hfull eq_refl Hq).
  assert (n ∈ map run_ref (runs r)) as Hin.
  { rewrite Hh. unfold holders. rewrite (remove_task_perm _ _ Hk). simpl.
    rewrite decide_True by done. left. }
  apply remove_run_perm, Permutation_length in Hin. simpl in Hin. rewrite !length_map in Hin.
  unfold _release, _start_queued. rewrite py_bind_eq. cbn [modify].
  set (s1 := upd_reg j (λ r, set_runs (remove_run n (runs r)) (queued r) r) (pop_task (RunTask j n) s)).
  assert (get_reg j s1 = Some (set_runs (remove_run n (runs r)) true r)) as Hr1.
  { unfold s1. rewrite get_upd, decide_True by done.
    change (get_reg j (pop_task (RunTask j n) s)) with (get_reg j s). rewrite Hr. simpl. by rewrite Hq. }
  rewrite py_bind_eq, get_registration_eq, Hr1. cbn [queued runs options set_runs andb].
  case_decide as Hd; destruct (Z.ltb_spec (Z.of_nat (length (remove_run n (runs r))))
    (max_concurrent_runs (options r))); try lia.
  - set (s2 := upd_reg j (λ r, set_runs (runs r) false r) s1).
    assert (get_reg j s2 = Some (set_runs (remove_run n (runs r)) false r)) as Hr2
      by (unfold s2; rewrite get_upd, decide_True, Hr1; done).
    change ((modify _ ≫= _) s1) with (_launch j (Some (next_ref s2)) (_take_slot j s2).2).
    assert (next_ref s2 = next_ref s) as -> by (unfold s2, s1; by rewrite !next_upd).
    eexists. split; [|split; [|split]].
    + change (get_reg j (_launch j (Some (next_ref s)) ?x).2) with (get_reg j x).
      unfold _take_slot. cbn [snd]. by rewrite get_reg_bump, get_upd, decide_True, Hr2.
    + done.
    + simpl. rewrite length_app. simpl. lia.
    + simpl. rewrite elem_of_app. right. left.
  - eexists. split; [done|]. simpl. split; [done|]. lia.
Qed.
End Reachable.
