(* ===== verification/JobSafety.v ===== *)
(** * Concurrency limits of the jobs

    What a step can do to the number of runs, how due runs merge under the
    overlap policies, and small scenarios of the state machine of
    [JobInvariant.v]. *)

From S2P Require Import Prelude PyStr Values JobModel JobStorage JobSlots.
From S2P Require Import JobInvariant.

(** ** The number of runs *)

(** The job has at most [n] runs; or no more than that or its limit. *)
Definition at_most (j : string) (n : Z) (s : Scheduler) : Prop :=
  ∀ r, get_reg j s = Some r → Z.of_nat (length (runs r)) ≤ n.
Definition within (j : string) (n : Z) (s : Scheduler) : Prop :=
  ∀ r, get_reg j s = Some r →
    Z.of_nat (length (runs r)) ≤ Z.max n (max_concurrent_runs (options r)).

Lemma at_most_within j n s : at_most j n s → within j n s.
Proof. intros H r Hr. specialize (H r Hr). lia. Qed.

Definition no_more_runs (f : JobRegistration → JobRegistration) : Prop :=
  ∀ r, (length (runs (f r)) ≤ length (runs r))%nat.
Definition same_limit (f : JobRegistration → JobRegistration) : Prop :=
  ∀ r, max_concurrent_runs (options (f r)) = max_concurrent_runs (options r).

Lemma at_most_upd j n j' f s : no_more_runs f → at_most j n s → at_most j n (upd_reg j' f s).
Proof.
  intros Hf Hs r. rewrite get_upd. case_decide; [subst|apply Hs].
  destruct (get_reg j' s) as [r0|] eqn:E; simpl; [|done]. intros [= <-].
  specialize (Hs r0 E). specialize (Hf r0). lia.
Qed.

Lemma within_upd j n j' f s :
  no_more_runs f → same_limit f → within j n s → within j n (upd_reg j' f s).
Proof.
  intros Hf Hl Hs r. rewrite get_upd. case_decide; [subst|apply Hs].
  destruct (get_reg j' s) as [r0|] eqn:E; simpl; [|done]. intros [= <-].
  specialize (Hs r0 E). specialize (Hf r0). rewrite Hl. lia.
Qed.

Lemma within_get j n s s' : get_reg j s' = get_reg j s → within j n s → within j n s'.
Proof. unfold within. by intros ->. Qed.
Lemma at_most_get j n s s' : get_reg j s' = get_reg j s → at_most j n s → at_most j n s'.
Proof. unfold at_most. by intros ->. Qed.

(** A slot is taken below the limit only. *)
Lemma take_slot_within j n j' s :
  (∀ r, get_reg j' s = Some r → Z.of_nat (length (runs r)) < max_concurrent_runs (options r)) →
  within j n s → within j n (_take_slot j' s).2.
Proof.
  intros Hlt Hs r. unfold _take_slot. cbn [snd]. rewrite get_reg_bump, get_upd.
  case_decide; [subst|apply Hs]. destruct (get_reg j' s) as [r0|] eqn:E; simpl; [|done].
  intros [= <-]. specialize (Hlt r0 eq_refl). simpl. rewrite length_app. simpl. lia.
Qed.

Ltac runs_le :=
  let r := fresh in intros r; simpl; rewrite ?length_map; repeat case_match; simpl;
  rewrite ?length_map; first [done | lia].
Ltac within_change :=
  first [ apply within_upd; [runs_le|runs_le|assumption]
        | eapply within_get; [|eassumption]; done ].
Ltac at_most_change :=
  first [ apply at_most_upd; [runs_le|assumption]
        | eapply at_most_get; [|eassumption]; done ].

Lemma cancel_first_length l : length (cancel_first l) = length l.
Proof. by destruct l. Qed.

Lemma launch_within j n j' r : keeps (within j n) (_launch j' r).
Proof. destruct r; [|by apply keeps_same]. intros s Hs. by eapply within_get. Qed.

Lemma admit_within j n j' manual : keeps (within j n) (_admit j' manual).
Proof.
  intros s Hs. unfold _admit. rewrite py_bind_eq, get_registration_eq.
  destruct (get_reg j' s) as [r|] eqn:Hr; [|done].
  destruct (Z.ltb_spec (Z.of_nat (length (runs r))) (max_concurrent_runs (options r))) as [Hlt|_].
  - rewrite py_bind_eq. cbn. apply (take_slot_within j n j' s); [|done]. intros r' Hr'. by simplify_eq.
  - revert s Hs Hr. change (∀ s, within j n s → get_reg j' s = Some r → within j n (?m s).2)
      with (∀ s, within j n s → get_reg j' s = Some r → within j n (m s).2).
    intros s Hs _. case_bool_decide; [|case_bool_decide; [|by destruct manual]].
    + simpl. within_change.
    + destruct (queued r); simpl; [done|]. apply within_upd; [|runs_le|done].
      intros r'. simpl. by rewrite cancel_first_length.
Qed.

Lemma start_queued_within j n j' : keeps (within j n) (_start_queued j').
Proof.
  intros s Hs. unfold _start_queued. rewrite py_bind_eq, get_registration_eq.
  destruct (get_reg j' s) as [r|] eqn:Hr; [|done]. destruct (queued r && _) eqn:Hq; [|done].
  apply andb_prop in Hq as [_ Hlt%Z.ltb_lt].
  set (s1 := upd_reg j' (λ r, set_runs (runs r) false r) s).
  change (within j n (_launch j' (Some (next_ref s1)) (_take_slot j' s1).2).2).
  apply launch_within, take_slot_within.
  - intros r'. unfold s1. rewrite get_upd, decide_True, Hr by done. by intros [= <-].
  - unfold s1. within_change.
Qed.

Lemma remove_run_le n : no_more_runs (λ r, set_runs (remove_run n (runs r)) (queued r) r).
Proof. intros r. simpl. apply remove_run_length. Qed.

Lemma cancel_timer_task_get j j' t s : get_reg j (cancel_timer_task j' t s) = get_reg j s.
Proof. by destruct t. Qed.

Ltac within_method :=
  first [ apply admit_within | apply launch_within | apply start_queued_within | within_change
        | eapply within_get; [apply cancel_timer_task_get|eassumption] ].

Section Within.
Context (cron_valid : string → bool).
Context (next_occurrence : string → Z → jexn + Z).
Context (class_name : nat → string).

Lemma start_timer_within j n j' next delay : keeps (within j n) (start_timer j' next delay).
Proof.
  intros s Hs. unfold start_timer. cbn [snd]. eapply within_get; [done|]. within_change.
Qed.

Lemma schedule_next_within j n j' a b f now :
  keeps (within j n) (_schedule_next next_occurrence j' a b f now).
Proof.
  unfold _schedule_next, cron_due.
  walk ltac:(idtac; first [apply start_timer_within | within_method]).
Qed.

Lemma cancel_timer_within j n j' : keeps (within j n) (_cancel_timer j').
Proof. unfold _cancel_timer. walk within_method. Qed.

Lemma cancel_runs_within j n j' : keeps (within j n) (_cancel_runs j').
Proof. unfold _cancel_runs. walk within_method. Qed.

Lemma change_at_most j n j' f : keeps (at_most j n) (change j' f).
Proof. unfold change. walk at_most_change. Qed.

Lemma set_timing_at_most j n j' c : keeps (at_most j n) (set_timing cron_valid j' c).
Proof. unfold set_timing. walk ltac:(apply change_at_most). Qed.
Lemma set_retry_at_most j n j' c : keeps (at_most j n) (set_retry j' c).
Proof. unfold set_retry. walk ltac:(apply change_at_most). Qed.

Ltac within_all :=
  first [ within_method | apply start_timer_within | apply schedule_next_within
        | apply cancel_timer_within | apply cancel_runs_within ].

(** First methods that add no run, then one that adds none beyond the limit. *)
Lemma then_within {A B} j n (m : py Scheduler jexn A) (k : A → py Scheduler jexn B) s :
  keeps (at_most j n) m → (∀ a s', at_most j n s' → within j n (k a s').2) →
  at_most j n s → within j n ((m ≫= k) s).2.
Proof.
  intros Hm Hk Hs. rewrite py_bind_eq. specialize (Hm s Hs).
  destruct (m s) as [[e|a] s']; [by apply at_most_within|by apply Hk].
Qed.

Lemma update_options_within j n j' c now s :
  at_most j n s → within j n (update_options_now cron_valid next_occurrence j' c now s).2.
Proof.
  intros Hs. unfold update_options_now.
  apply then_within; [walk fail| |done]. intros _ s1 H1.
  apply then_within; [walk fail| |done]. intros l s2 H2.
  apply then_within; [walk ltac:(apply change_at_most)| |done]. intros _ s3 H3.
  apply then_within; [walk ltac:(apply change_at_most)| |done]. intros _ s4 H4.
  apply then_within; [apply set_timing_at_most| |done]. intros _ s5 H5.
  apply then_within; [apply set_retry_at_most| |done]. intros _ s6 H6.
  assert (∀ s, within j n s → within j n ((reg ← _get_registration j';
    if bool_decide (reg_status reg = "active")
    then (_ ← _cancel_timer j'; _schedule_next next_occurrence j' false false None now)
    else mret tt) s).2) as Hrest.
  { change (keeps (within j n) (reg ← _get_registration j';
    if bool_decide (reg_status reg = "active")
    then (_ ← _cancel_timer j'; _schedule_next next_occurrence j' false false None now)
    else mret tt)). walk within_all. }
  destruct l as [lim|]; cbn [when_given].
  - rewrite py_bind_eq, py_bind_eq. pose proof (change_at_most j n j' (with_concurrency lim) s6 H6) as H7.
    destruct (change j' (with_concurrency lim) s6) as [[e|[]] s7]; [by apply at_most_within|].
    pose proof (start_queued_within j n j' s7 (at_most_within _ _ _ H7)) as H8.
    destruct (_start_queued j' s7) as [[e|[]] s8]; [done|]. by apply Hrest.
  - rewrite py_bind_eq. by apply Hrest, at_most_within.
Qed.

Lemma step_within c c' j n :
  step cron_valid next_occurrence class_name c c' → 0 ≤ n → at_most j n c.1 → within j n c'.1.
Proof.
  intros Hstep Hn. destruct Hstep; simpl; intros Hs; pose proof (at_most_within _ _ _ Hs) as Hw.
  - pose proof (register_result class_name jb o s) as H.
    destruct (register class_name jb o s) as [r s'].
    destruct H as [(e & -> & ->)|(i & -> & _ & _ & ->)]; [done|]. simpl. intros r'.
    rewrite get_reg_set. case_decide; [|apply Hw]. intros [= <-]. simpl. lia.
  - revert s Hs Hw H. change (∀ s, at_most j n s → within j n s → timer_refs_of j0 (tasks s) = [] →
      within j n (start_one next_occurrence persisted j0 now s).2). intros s _ Hw _. revert s Hw.
    change (keeps (within j n) (start_one next_occurrence persisted j0 now)).
    unfold start_one, _due_on_start. walk within_all.
  - assert (within j n (pop_task (TimerTask j0 t d) s)) as Hp by by eapply within_get.
    revert Hp. generalize (pop_task (TimerTask j0 t d) s).
    change (keeps (within j n) (_timer_fire next_occurrence j0 now)). unfold _timer_fire. walk within_all.
  - by apply admit_within.
  - by apply (launch_within j n j0 (Some n0)).
  - assert (within j n (pop_task (RunTask j0 n0) s)) as Hp by by eapply within_get.
    revert Hp. generalize (pop_task (RunTask j0 n0) s).
    change (keeps (within j n) (_release j0 n0)). unfold _release.
    walk ltac:(idtac; first [within_all | apply within_upd; [apply remove_run_le|done|assumption]]).
  - apply within_upd; [|done|done]. intros r. simpl. by rewrite length_map.
  - apply within_upd; [runs_le|done|done].
  - revert Hw. generalize s. change (keeps (within j n) (cancel_current_now j0)).
    unfold cancel_current_now. walk within_all.
  - revert Hw. generalize s. change (keeps (within j n) (pause_now j0)). unfold pause_now. walk within_all.
  - revert Hw. generalize s. change (keeps (within j n) (resume_now next_occurrence j0 now)).
    unfold resume_now. walk within_all.
  - revert Hw. generalize s. change (keeps (within j n) (stop_job_now j0)). unfold stop_job_now. walk within_all.
  - revert Hw. generalize s. change (keeps (within j n) (stop_one j0)). unfold stop_one. walk within_all.
  - by apply update_options_within.
  - done.
Qed.

(** Whatever the event loop does next, a job's runs become more only up to
    its [max_concurrent_runs]; lowering the limit ends no run. *)
Theorem runs_grow_within_limit s tr s' tr' j r r' :
  step cron_valid next_occurrence class_name (s, tr) (s', tr') →
  get_reg j s = Some r → get_reg j s' = Some r' →
  (length (runs r') ≤ length (runs r))%nat ∨
  Z.of_nat (length (runs r')) ≤ max_concurrent_runs (options r').
Proof.
  intros Hstep Hr Hr'.
  pose proof (step_within _ _ j (Z.of_nat (length (runs r))) Hstep) as H. simpl in H.
  specialize (H ltac:(lia)). assert (at_most j (Z.of_nat (length (runs r))) s) as Ha.
  { intros r0 Hr0. by simplify_eq. }
  specialize (H Ha r' Hr'). lia.
Qed.
End Within.

(** ** Overlap policies *)

(** [n] due runs, one after the other. *)
Fixpoint due_runs (n : nat) (j : string) (s : Scheduler) : Scheduler :=
  match n with
  | O => s
  | S n => due_runs n j (_admit j false s).2
  end.

Lemma due_run_full j s r :
  get_reg j s = Some r → max_concurrent_runs (options r) ≤ Z.of_nat (length (runs r)) →
  _admit j false s = (inr None,
    if bool_decide (overlap_policy (options r) = "queue") then upd_reg j (λ r, set_runs (runs r) true r) s
    else if bool_decide (overlap_policy (options r) = "cancel") then
      if queued r then s else upd_reg j (λ r, set_runs (cancel_first (runs r)) true r) s
    else s).
Proof.
  intros Hr Hfull. unfold _admit. rewrite py_bind_eq, get_registration_eq, Hr.
  destruct (Z.ltb_spec (Z.of_nat (length (runs r))) (max_concurrent_runs (options r))); [lia|].
  case_bool_decide; [done|]. case_bool_decide; [|done]. by destruct (queued r).
Qed.

(** When every slot is taken, any number of due runs leaves: under [skip]
    everything as it was; under [queue] one waiting run and no cancelled one;
    under [cancel] one waiting run and the oldest run cancelled, unless a run
    was waiting already, when no other one is cancelled. *)
Theorem due_runs_full n j s r :
  get_reg j s = Some r → max_concurrent_runs (options r) ≤ Z.of_nat (length (runs r)) →
  get_reg j (due_runs (S n) j s) = Some
    (if bool_decide (overlap_policy (options r) = "queue") then set_runs (runs r) true r
     else if bool_decide (overlap_policy (options r) = "cancel") then
       set_runs (if queued r then runs r else cancel_first (runs r)) true r
     else r).
Proof.
  intros Hr Hfull. simpl. rewrite (due_run_full j s r Hr Hfull). cbn [snd].
  match goal with |- get_reg j (due_runs n j ?s1) = Some ?r1 =>
    assert (get_reg j s1 = Some r1) as H1; [|revert H1; generalize s1; intros s1'] end.
  { repeat case_bool_decide; rewrite ?get_upd, ?decide_True, ?Hr by done; [done| |done].
    destruct (queued r) eqn:Hq; [|by rewrite get_upd, decide_True, Hr by done].
    rewrite Hr. f_equal. destruct r; simpl in *. by subst. }
  revert s1'. induction n as [|n IH]; intros s1 H1; [done|]. simpl. apply IH.
  rewrite (due_run_full j s1 _ H1).
  2: { repeat case_match; simpl; rewrite ?cancel_first_length; done. }
  cbn [snd]. clear IH. repeat case_bool_decide; simpl in *; rewrite ?get_upd, ?decide_True, ?H1 by done;
    simpl; try done; congruence.
Qed.

(** ** When a job is due next *)

Section Due.
Context (next_occurrence : string → Z → jexn + Z).
(** [croniter]'s next occurrence is after the instant it is asked for. *)
Context (occurrence_later : ∀ sched t t', next_occurrence sched t = inr t' → t < t').

Lemma cron_due_later sched fired_at now s t s' :
  cron_due next_occurrence sched fired_at now s = (inr t, s') →
  s' = s ∧ now < t ∧ ∀ f, fired_at = Some f → f < t.
Proof.
  unfold cron_due, _next_occurrence. cbv [mbind py_bind mret py_ret].
  assert (∀ f, next_occurrence sched now = inr t → match next_occurrence sched f with
    | inr t' => t' ≤ now | inl _ => False end → f < t) as Hskip.
  { intros f Hn. destruct (next_occurrence sched f) as [e|t'] eqn:Ef; [done|].
    apply occurrence_later in Ef, Hn. lia. }
  destruct fired_at as [f|].
  - specialize (Hskip f). destruct (next_occurrence sched f) as [e|t'] eqn:Ef; [done|].
    destruct (Z.leb_spec t' now) as [Hle|Hgt].
    + destruct (next_occurrence sched now) as [e|t2] eqn:E2; [done|]. intros [= <- <-].
      pose proof (occurrence_later _ _ _ E2). split_and!; [done|done|]. intros ? [= <-]. by apply Hskip.
    + intros [= <- <-]. split_and!; [done|lia|]. intros ? [= <-]. by apply (occurrence_later sched).
  - destruct (next_occurrence sched now) as [e|t2] eqn:E2; [done|]. intros [= <- <-].
    apply occurrence_later in E2. done.
Qed.

(** After a timer of a cron job fired for one occurrence, the next timer is
    for a later one, and later than now: an occurrence never runs twice, even
    when the timer fired early; an interval job's next run is never in the past
    and follows its last run (or the firing) by the interval. *)
Theorem next_run_later j run_now after_fire fired_at now s s' r :
  get_reg j s = Some r → _running s = true →
  _schedule_next next_occurrence j run_now after_fire fired_at now s = (inr tt, s') →
  ∃ r', get_reg j s' = Some r' ∧
    match next_run_at r' with
    | None => truthy_opt (schedule (options r)) = false ∧ truthy_opt (interval (options r)) = false
    | Some t =>
        (truthy_opt (schedule (options r)) = true ∧ now < t ∧ ∀ f, fired_at = Some f → f < t) ∨
        (truthy_opt (schedule (options r)) = false ∧ now ≤ t ∧
         ∃ n, parse_interval (or_empty (interval (options r))) = Some n ∧
           (run_now = true ∧ t = now ∨
            t = Z.max now (match last_run_at r with
                           | Some d => if after_fire then now else as_utc d
                           | None => now
                           end + seconds n)))
    end.
Proof.
  intros Hr Hrun H. unfold _schedule_next in H. cbv [mbind py_bind gets] in H.
  rewrite Hrun in H. cbn [negb] in H. rewrite get_registration_eq, Hr in H.
  assert (∀ t d, get_reg j (start_timer j t d s).2 = Some (set_timer (Some t) (Some (next_ref s)) r)) as Hst.
  { intros t d. unfold start_timer. cbn [snd]. rewrite get_reg_bump, get_reg_tasks, get_upd, decide_True, Hr; done. }
  destruct (truthy_opt (schedule (options r))) eqn:Hsched.
  - destruct (cron_due _ _ _ _ s) as [[e|t] s1] eqn:Hdue; [done|].
    apply cron_due_later in Hdue as (-> & Hnow & Hf).
    pose proof (Hst t (Z.max (t - now) 100000)) as Hget. rewrite H in Hget. cbn [snd] in Hget.
    eexists. split; [exact Hget|]. simpl. left. done.
  - destruct (truthy_opt (interval (options r))) eqn:Hint.
    + unfold the_interval in H. destruct (parse_interval _) as [n|] eqn:Hn; [|done].
      cbv [mret py_ret] in H.
      set (due := interval_due (seconds n) (last_run_at r) run_now after_fire now) in H.
      pose proof (Hst due (due - now)) as Hget. rewrite H in Hget. cbn [snd] in Hget.
      eexists. split; [exact Hget|]. simpl. right. split; [done|].
      pose proof (parse_interval_nonneg _ _ Hn). unfold due, interval_due, seconds in *.
      split; [|exists n; split; [done|]]; destruct (last_run_at r) as [d|], after_fire, run_now;
        rewrite ?orb_true_r, ?orb_false_r; try lia;
        match goal with |- context [?a <? ?b] => destruct (Z.ltb_spec a b) end; lia.
    + cbn [modify] in H. injection H as <-. eexists.
      split; [rewrite get_upd, decide_True, Hr; done|]. done.
Qed.
End Due.

(** ** Scenarios *)
Module JobExample.
Definition cron_valid (s : string) : bool := bool_decide (s = "* * * * *").
(** Every minute. *)
Definition next_occurrence (s : string) (after : Z) : jexn + Z :=
  inr ((after / 60000000 + 1) * 60000000).
Definition class_name (n : nat) : string := "Digest".

Definition opts (limit : Z) (policy : string) : CliJobOptions :=
  {| name := Some "digest"; description := None; group := None; schedule := None;
     interval := Some "30s"; enabled := true; max_retries := 1; retry_delay := "5s";
     retry_strategy := "exponential"; timeout := None; overlap_policy := policy;
     max_concurrent_runs := limit; opt_id := None; run_on_start := false |}.

Definition s0 : Scheduler := initial.1.
Definition s1 : Scheduler := set_running true (register class_name 0 (opts 1 "queue") s0).2.
Definition s2 : Scheduler := Eval vm_compute in (start_one next_occurrence [] "digest" 0 s1).2.
(** The timer has fired twice: one run, one waiting. *)
Definition s3 : Scheduler := Eval vm_compute in
  (_timer_fire next_occurrence "digest" 30000000 (pop_task (TimerTask "digest" 0 30000000) s2)).2.
Definition s4 : Scheduler := Eval vm_compute in
  (_timer_fire next_occurrence "digest" 60000000 (pop_task (TimerTask "digest" 2 30000000) s3)).2.

Definition the_reg (s : Scheduler) : JobRegistration :=
  default (new_registration "" 0 default_options) (get_reg "digest" s).

Lemma reach4 : reachable cron_valid next_occurrence class_name (s4, []).
Proof.
  unfold reachable. eapply rtc_l; [apply (step_register _ _ _ s0 [] 0 (opts 1 "queue"))|].
  eapply rtc_l; [apply (step_running _ _ _ _ _ true)|].
  eapply rtc_l; [apply (step_start _ _ _ _ _ [] "digest" 0); reflexivity|].
  assert (∀ x, x = s2 → rtc (step cron_valid next_occurrence class_name) (x, []) (s4, [])) as H;
    [intros x ->|by apply H; vm_compute].
  eapply rtc_l; [apply (step_timer _ _ _ _ _ "digest" 0 30000000 30000000); vm_compute; left|].
  assert (∀ x, x = s3 → rtc (step cron_valid next_occurrence class_name) (x, []) (s4, [])) as H;
    [intros x ->|by apply H; vm_compute].
  eapply rtc_l; [apply (step_timer _ _ _ _ _ "digest" 2 30000000 60000000); vm_compute; right; left|].
  apply (rtc_refl (step cron_valid next_occurrence class_name) (s4, [])).
Qed.


Lemma reachable_timers_witness :
  timer_refs_of "digest" (tasks s4) = [] ∨
  ∃ t, timer_refs_of "digest" (tasks s4) = [t] ∧ timer_task (the_reg s4) = Some t.
Proof.
  apply (reachable_timers cron_valid next_occurrence class_name s4 [] "digest" (the_reg s4) reach4 eq_refl).
Defined.

Lemma queued_run_starts_witness :
  ∃ r', get_reg "digest" (_release "digest" 1 (pop_task (RunTask "digest" 1) s4)).2 = Some r' ∧
    queued r' = false.
Proof.
  destruct (queued_run_starts cron_valid next_occurrence class_name s4 [] "digest" 1 (the_reg s4)
    reach4 eq_refl eq_refl ltac:(vm_compute; left)) as (r' & Hr' & H).
  exists r'. split; [exact Hr'|]. rewrite decide_True in H by reflexivity. apply H.
Defined.

Lemma runs_grow_within_limit_witness :
  Z.of_nat (length (runs (the_reg s3))) ≤ 1.
Proof.
  destruct (runs_grow_within_limit cron_valid next_occurrence class_name s2 [] s3 [] "digest"
    (the_reg s2) (the_reg s3)
    (step_timer _ _ _ s2 [] "digest" 0 30000000 30000000 ltac:(vm_compute; left)) eq_refl eq_refl) as [H|H].
  - vm_compute in H. lia.
  - exact H.
Defined.

(** Two slots, both taken, under [cancel]. *)
Definition s_cancel : Scheduler :=
  (_take_slot "digest" (_take_slot "digest" (register class_name 0 (opts 2 "cancel") s0).2).2).2.

Lemma due_runs_full_witness :
  map cancellation (runs (the_reg (due_runs 5 "digest" s_cancel))) = [true; false].
Proof.
  unfold the_reg.
  rewrite (due_runs_full 4 "digest" s_cancel (the_reg s_cancel)); [reflexivity|reflexivity|].
  vm_compute. discriminate.
Defined.

Lemma register_unique_witness :
  ∃ j s', register class_name 7 (opts 1 "skip") s1 = (inr (Some j), s') ∧ get_reg j s1 = None.
Proof.
  destruct (register_unique class_name 7 (opts 1 "skip") s1) as (j & s' & H & Hj & _).
  - vm_compute. discriminate.
  - reflexivity.
  - exists j, s'. split; [exact H|exact Hj].
Defined.

Lemma next_run_later_witness :
  ∃ r', get_reg "digest" s2 = Some r' ∧ is_Some (next_run_at r').
Proof.
  destruct (get_reg "digest" s1) as [r|] eqn:Hr; [|discriminate Hr].
  destruct (next_run_later next_occurrence
    ltac:(intros s t t' [= <-]; pose proof (Z.mul_succ_div_gt t 60000000 ltac:(lia)); lia)
    "digest" false false None 0 s1 s2 r Hr eq_refl) as (r' & Hr' & H).
  - reflexivity.
  - exists r'. split; [exact Hr'|]. destruct (next_run_at r') as [t|]; [by exists t|].
    vm_compute in Hr. injection Hr as <-. destruct H as [_ H]. discriminate H.
Defined.

(** The loop of [start] schedules a job that [update_options] (called while
    [start] was reading the store) already scheduled: the first timer is not
    cancelled, and both go on firing. *)
Definition s_race : Scheduler :=
  (start_one next_occurrence [] "digest" 0
    (update_options_now cron_valid next_occurrence "digest"
      {| c_description := None; c_group := None; c_schedule := None; c_interval := Some "10s";
         c_max_retries := None; c_retry_delay := None; c_retry_strategy := None; c_timeout := None;
         c_overlap_policy := None; c_max_concurrent_runs := None |} 0 s1).2).2.
Theorem start_race_two_timers : timer_refs_of "digest" (tasks s_race) = [0%nat; 1%nat].
Proof. reflexivity. Qed.
End JobExample.
