(* ===== verification/JobScheduler.v ===== *)
(** * The scheduler's coroutines ([cli_job_scheduler.py])

    The methods of [CliJobScheduler] from start to end.  At an [await] other
    coroutines run, so whatever is awaited (the store, the bus, the job itself,
    a delay) is a function on the whole server that may change any of it; the
    sections between two awaits are those of [JobSlots.v].

    The host gives the store, the event bus or the broadcast function, the
    clock, fresh ids and the jobs. *)

From S2P Require Import Prelude PyStr Values Events JobModel JobStorage JobSlots.
From S2P Require Import JobInvariant.
From Stdlib Require Import Ascii.

(** ** The context of a run ([cli_job_execution_context.py], [cli_job_logger.py]) *)

Record CliJobExecutionContext := {
  log_entries : list JobLogEntry;
  ctx_properties : dict string pyval;
  discarded : bool;
}.

Definition new_context : CliJobExecutionContext :=
  {| log_entries := []; ctx_properties := []; discarded := false |}.

(** [debug], [info], [warning] and [error] of the logger. *)
Definition log_message (lvl msg : string) (now : Z) (c : CliJobExecutionContext)
    : CliJobExecutionContext :=
  {| log_entries := log_entries c ++ [{| log_timestamp := utc now; level := lvl; message := msg |}];
     ctx_properties := ctx_properties c; discarded := discarded c |}.
Definition log_debug := log_message "debug".
Definition log_info := log_message "info".
Definition log_warning := log_message "warning".
Definition log_error := log_message "error".

Definition discard (c : CliJobExecutionContext) : CliJobExecutionContext :=
  {| log_entries := log_entries c; ctx_properties := ctx_properties c; discarded := true |}.

(** ** Execution records *)

Definition finished (e : JobExecution) (st : string) (err : option string) (at_ : Z) : JobExecution :=
  {| id := id e; job_id := job_id e; job_name := job_name e; status := st;
     started_at := started_at e; completed_at := Some (utc at_);
     duration := Some (round_ms (at_ - as_utc (started_at e)));
     error := err; logs := logs e; retry_attempt := retry_attempt e; properties := properties e |}.

Definition with_context (c : CliJobExecutionContext) (e : JobExecution) : JobExecution :=
  {| id := id e; job_id := job_id e; job_name := job_name e; status := status e;
     started_at := started_at e; completed_at := completed_at e; duration := duration e;
     error := error e; logs := log_entries c; retry_attempt := retry_attempt e;
     properties := ctx_properties c |}.

Definition without_properties (e : JobExecution) (reason : string) (now : Z) : JobExecution :=
  {| id := id e; job_id := job_id e; job_name := job_name e; status := status e;
     started_at := started_at e; completed_at := completed_at e; duration := duration e;
     error := error e;
     logs := logs e ++ [{| log_timestamp := utc now; level := "error";
                           message := "The run's properties could not be saved: " +:+ reason |}];
     retry_attempt := retry_attempt e; properties := [] |}.

Definition INTERRUPTED_ERROR : string := "Interrupted: the server stopped during the run".
Definition JOBS_READ : string := "jobs:read".

Section Scheduler.
Context {Host : Type}.

Record JobServer := { sched : Scheduler; host : Host }.

Definition set_sched (c : Scheduler) (s : JobServer) : JobServer := {| sched := c; host := host s |}.

Context `{ST : ICliJobStorageProvider JobServer}.
Context (cron_valid : string → bool).
Context (next_occurrence : string → Z → jexn + Z).
Context (class_name : nat → string).
(** [event_bus.publish] and [broadcast_fn] *)
Context (event_bus : option (string → dict string pyval → option CliEventAudience → py JobServer jexn unit)).
Context (broadcast_fn : option (dict string pyval → py JobServer jexn unit)).
(** [datetime.now(UTC)], in microseconds *)
Context (clock : JobServer → Z).
(** [str(uuid.uuid4())] *)
Context (uuid4 : py JobServer jexn string).
(** [job.execute_async(ctx, cancel_event)], under [wait_for] with a timeout in
    seconds when there is one: the job of the registration, the run, and what
    the context holds when it is over. *)
Context (execute_job : nat → string → nat → option Z →
  JobServer → (jexn + unit) * CliJobExecutionContext * JobServer).
(** Waiting (seconds), while other coroutines run. *)
Context (sleep : Z → py JobServer jexn unit).

(** A synchronous section. *)
Definition lift {A} (m : py Scheduler jexn A) : py JobServer jexn A := λ s,
  let '(r, c) := m (sched s) in (r, set_sched c s).

Definition get_now : py JobServer jexn Z := gets clock.

(** [except Exception] lets a cancellation through. *)
Definition except_exception {A} (m : py JobServer jexn A) (h : jexn → py JobServer jexn A)
    : py JobServer jexn A :=
  try_except m (λ e, match e with TaskCancelled => raise TaskCancelled | _ => h e end).

Definition _broadcast (type : string) (data : dict string pyval) : py JobServer jexn unit :=
  except_exception
    match event_bus with
    | Some publish => publish type data (Some (with_permission JOBS_READ))
    | None =>
        match broadcast_fn with
        | Some send =>
            now ← get_now;
            let data := match dict_get "timestamp" data with
                        | Some _ => data
                        | None => dict_set "timestamp" (VStr (isoformat now)) data
                        end in
            send (foldl (λ d kv, dict_set kv.1 kv.2 d) [("type", VStr type)] data)
        | None => mret tt
        end
    end
    (λ _, mret tt).

Definition job_event (j : string) : dict string pyval := [("jobId", VStr j)].
Definition run_event (j exec_id : string) : dict string pyval :=
  [("jobId", VStr j); ("executionId", VStr exec_id)].

Definition _persist_state (j : string) : py JobServer jexn unit :=
  reg ← lift (_get_registration j);
  now ← get_now;
  save_job_state (reg_id reg)
    {| state_status := reg_status reg; state_last_run_at := last_run_at reg;
       state_updated_at := utc now |}.

(** ** Actions *)

Definition trigger (j : string) : py JobServer jexn string :=
  run ← lift (_admit j true);
  _ ← _broadcast "job:triggered" (job_event j);
  _ ← lift (_launch j run);
  mret (match run with Some _ => "started" | None => "queued" end).

Definition pause (j : string) : py JobServer jexn unit :=
  _ ← lift (pause_now j);
  _ ← _persist_state j;
  _broadcast "job:paused" (job_event j ++ [("status", VStr "paused")]).

Definition resume (j : string) : py JobServer jexn unit :=
  now ← get_now;
  _ ← lift (resume_now next_occurrence j now);
  _ ← _persist_state j;
  _broadcast "job:resumed" (job_event j ++ [("status", VStr "active")]).

Definition stop_job (j : string) : py JobServer jexn unit :=
  _ ← lift (stop_job_now j);
  _ ← _persist_state j;
  _broadcast "job:stopped" (job_event j ++ [("status", VStr "stopped")]).

Definition cancel_current (j : string) : py JobServer jexn unit := lift (cancel_current_now j).

Definition update_options (j : string) (c : OptionChanges) : py JobServer jexn unit :=
  now ← get_now;
  _ ← lift (update_options_now cron_valid next_occurrence j c now);
  _broadcast "job:updated" (job_event j).

(** ** The history *)

Definition query_execs (q : JobExecutionQuery) : py JobServer jexn (list JobExecution * Z) :=
  try_except (query_executions q)
    (λ e, match e, job_ids q with
          | NotImplementedError _, None =>
              ids ← gets (λ s, dict_keys (registrations (sched s)));
              merge (λ j n st, get_executions j n 0 st) q ids
          | _, _ => raise e
          end).

Definition _is_running (s : JobServer) (e : JobExecution) : bool :=
  bool_decide (status e = "running") ||
  match get_reg (job_id e) (sched s) with
  | Some r => bool_decide (id e ∈ running_execution_ids r)
  | None => false
  end.

Definition _ensure_storage_deletes : py JobServer jexn unit :=
  raise_if (negb overrides_delete) (NotSupportedError "The job storage cannot delete executions").

Definition delete_exec (j i : string) : py JobServer jexn unit :=
  _ ← lift (_get_registration j);
  _ ← _ensure_storage_deletes;
  found ← get_execution i;
  e ← match found with
      | Some e => if bool_decide (job_id e = j) then mret e
                  else raise (ExecutionNotFoundError ("Execution not found: " +:+ i))
      | None => raise (ExecutionNotFoundError ("Execution not found: " +:+ i))
      end;
  s ← get_state;
  _ ← raise_if (_is_running s e) (InvalidOperationError "The execution is still running");
  deleted ← delete_execution i;
  _ ← raise_if (negb deleted) (ExecutionNotFoundError ("Execution not found: " +:+ i));
  _broadcast "job:runs-deleted" (run_event j i).

(** Deletes each id, counting those the store deleted. *)
Fixpoint delete_each (ids : list string) (deleted : Z) : py JobServer jexn Z :=
  match ids with
  | [] => mret deleted
  | i :: ids =>
      b ← delete_execution i;
      delete_each ids (if b : bool then deleted + 1 else deleted)
  end.

(** [None]: the reading of the pages ran out of fuel. *)
Definition delete_execs (fuel : nat) (j : string) (st : option string)
    : py JobServer jexn (option Z) :=
  _ ← lift (_get_registration j);
  _ ← _ensure_storage_deletes;
  found ← read_pages fuel j 100 (if truthy_opt st then st else None)
            (λ s e, negb (_is_running s e)) 0 [];
  match found with
  | None => mret None
  | Some to_delete =>
      deleted ← delete_each (map id to_delete) 0;
      _ ← (if deleted =? 0 then mret tt
           else _broadcast "job:runs-deleted" (job_event j ++ [("count", VInt deleted)]));
      mret (Some deleted)
  end.

(** ** Starting and stopping *)

(** The end of an interrupted run: the last thing it logged, or its start. *)
Definition interrupted_at (e : JobExecution) : Z :=
  foldl Z.max (as_utc (started_at e)) (map (λ l, as_utc (log_timestamp l)) (logs e)).

Definition interrupted (e : JobExecution) : JobExecution :=
  finished e "cancelled" (Some INTERRUPTED_ERROR) (interrupted_at e).

Definition finish_run (ours : list string) (e : JobExecution) : py JobServer jexn unit :=
  if bool_decide (id e ∈ ours) then mret tt else save_execution (interrupted e).

(** One registration of [_finish_interrupted_runs] (no stale run is found
    without fuel). *)
Definition finish_job (fuel : nat) (j : string) : py JobServer jexn unit :=
  stale ← read_pages fuel j 100 (Some "running") (λ _ e, bool_decide (status e = "running")) 0 [];
  reg ← lift (_get_registration j);
  for_each (finish_run (running_execution_ids reg)) (default [] stale).

Definition _finish_interrupted_runs (fuel : nat) : py JobServer jexn unit :=
  ids ← gets (λ s, dict_keys (registrations (sched s)));
  for_each (λ j, except_exception (finish_job fuel j) (λ _, mret tt)) ids.

Definition start (fuel : nat) : py JobServer jexn unit :=
  _ ← lift (modify (set_running true));
  _ ← _finish_interrupted_runs fuel;
  persisted ← get_all_job_states;
  now ← get_now;
  ids ← gets (λ s, dict_keys (registrations (sched s)));
  for_each (λ j, lift (start_one next_occurrence persisted j now)) ids.

Definition stop : py JobServer jexn unit :=
  _ ← lift (modify (set_running false));
  ids ← gets (λ s, dict_keys (registrations (sched s)));
  for_each (λ j, _ ← lift (stop_one j); _persist_state j) ids.

(** ** One attempt of a run *)

(** [run.cancellation.is_set()], [run.cancellation.set()] and
    [run.execution_id = ...] for the run [n] of the job. *)
Definition upd_run (j : string) (n : nat) (f : JobRun → JobRun) : Scheduler → Scheduler :=
  upd_reg j (λ r, set_runs (map (λ x, if decide (run_ref x = n) then f x else x) (runs r)) (queued r) r).
Definition run_cancelled (j : string) (n : nat) (s : JobServer) : bool :=
  match get_reg j (sched s) with
  | Some r => existsb (λ x, bool_decide (run_ref x = n) && cancellation x) (runs r)
  | None => false
  end.

Definition attempt_timeout (o : CliJobOptions) : py JobServer jexn (option Z) :=
  match (if truthy_opt (timeout o) then timeout o else None) with
  | Some t => n ← lift (match parse_interval t with
                        | Some n => mret n
                        | None => raise (ValueError (interval_error t))
                        end);
              mret (if n =? 0 then None else Some n)
  | None => mret None
  end.

(** The status and the error of the attempt, and the context it leaves: the
    [try] block of [_execute_attempt]. *)
Definition cancelled_attempt (j exec_id : string) : py JobServer jexn (string * option string) :=
  _ ← _broadcast "job:cancelled" (run_event j exec_id);
  mret ("cancelled", None).

Definition opt_str (o : option string) : pyval := match o with Some s => VStr s | None => VNone end.

(** What the [except] clauses make of an exception. *)
Definition attempt_exception (j : string) (n : nat) (exec_id : string) (e : jexn)
    : py JobServer jexn (string * option string) :=
  match e with
  | TimeoutError _ =>
      cancelled ← gets (run_cancelled j n);
      if cancelled : bool then cancelled_attempt j exec_id
      else
        _ ← lift (modify (upd_run j n cancel_run));
        reg ← lift (_get_registration j);
        _ ← _broadcast "job:timed_out"
              (run_event j exec_id ++ [("timeout", opt_str (timeout (options reg)))]);
        mret ("timed_out", Some ("Timed out after " +:+ default "None" (timeout (options reg))))
  | TaskCancelled => cancelled_attempt j exec_id
  | e =>
      _ ← _broadcast "job:failed" (run_event j exec_id ++ [("error", VStr (exn_text e))]);
      mret ("failed", Some (exn_text e))
  end.

(** The job itself, then the check of a cooperative cancellation. *)
Definition attempt_body (j : string) (n : nat) (exec_id : string) (r : jexn + unit)
    : py JobServer jexn (string * option string) :=
  try_except
    (match r with
     | inl e => raise e
     | inr _ =>
         cancelled ← gets (run_cancelled j n);
         if cancelled : bool then cancelled_attempt j exec_id else mret ("completed", None)
     end)
    (attempt_exception j n exec_id).

Definition call_job (j : string) (n : nat) (jb : nat) (t : option Z)
    : py JobServer jexn ((jexn + unit) * CliJobExecutionContext) := λ s,
  let '(r, c, s) := execute_job jb j n t s in (inr (r, c), s).

(** A timeout that does not parse fails the attempt before the job starts. *)
Definition attempt_outcome (j : string) (n : nat) (exec_id : string)
    : py JobServer jexn (string * option string * CliJobExecutionContext) :=
  reg ← lift (_get_registration j);
  '(r, c) ← try_except
      (t ← attempt_timeout (options reg); call_job j n (job reg) t)
      (λ e, mret (inl e, new_context));
  '(st, err) ← attempt_body j n exec_id r;
  mret (st, err, c).

Definition _save_finished (e : JobExecution) (discard : bool) : py JobServer jexn JobExecution :=
  except_exception
    (deleted ← (if discard && bool_decide (status e = "completed") then delete_execution (id e)
                else mret false);
     _ ← (if deleted : bool then mret tt else save_execution e);
     mret e)
    (λ exc,
       match properties e with
       | [] => raise exc
       | _ =>
           now ← get_now;
           let e' := without_properties e (exn_text exc) now in
           _ ← save_execution e';
           mret e'
       end).

Definition _execute_attempt (j : string) (n : nat) (retry : Z) : py JobServer jexn JobExecution :=
  exec_id ← uuid4;
  now ← get_now;
  _ ← lift (modify (upd_run j n (set_execution (Some exec_id))));
  reg ← lift (_get_registration j);
  let e := {| id := exec_id; job_id := reg_id reg;
              job_name := if truthy_opt (name (options reg)) then or_empty (name (options reg))
                          else class_name (job reg);
              status := "running"; started_at := utc now; completed_at := None; duration := None;
              error := None; logs := []; retry_attempt := retry; properties := [] |} in
  _ ← save_execution e;
  _ ← _broadcast "job:started" (run_event j exec_id ++ [("timestamp", VStr (isoformat now))]);
  '(st, err, c) ← attempt_outcome j n exec_id;
  end_time ← get_now;
  let e := with_context c (finished e st err end_time) in
  e ← _save_finished e (discarded c);
  _ ← lift (modify (upd_reg j (set_last_run (Some (started_at e)) (Some (status e)) (duration e))));
  _ ← lift (modify (upd_run j n (set_execution None)));
  _ ← except_exception (_persist_state j) (λ _, mret tt);
  _ ← (if bool_decide (status e = "completed") then
         _broadcast "job:completed" (run_event j exec_id ++
           [("duration", match duration e with Some d => VInt d | None => VNone end)])
       else mret tt);
  mret e.

(** ** A run: attempts, retries, and the release of the slot *)

Definition _retry_delay (o : CliJobOptions) (retry : Z) : py JobServer jexn Z :=
  base ← (if truthy (retry_delay o) then
            match parse_interval (retry_delay o) with
            | Some n => mret n
            | None => raise (ValueError (interval_error (retry_delay o)))
            end
          else mret 5);
  mret (if bool_decide (retry_strategy o = "fixed") then base
        else if bool_decide (retry_strategy o = "linear") then base * (retry + 1)
        else base * 2 ^ retry).

(** How a run ended: after some attempts, with an exception that was logged, or
    (in the model only) without fuel. *)
Inductive run_end := RunDone (attempts : Z) | RunError | OutOfFuel.

Fixpoint run_loop (fuel : nat) (j : string) (n : nat) (attempt : Z) : py JobServer jexn run_end :=
  match fuel with
  | O => mret OutOfFuel
  | S fuel =>
      e ← _execute_attempt j n attempt;
      reg ← lift (_get_registration j);
      cancelled ← gets (run_cancelled j n);
      if negb (bool_decide (status e = "failed")) || (max_retries (options reg) <=? attempt) || cancelled
      then mret (RunDone (attempt + 1))
      else
        delay ← _retry_delay (options reg) attempt;
        _ ← _broadcast "job:retrying" (run_event j (id e) ++
              [("attempt", VInt (attempt + 1)); ("maxRetries", VInt (max_retries (options reg)));
               ("delayMs", VInt (delay * 1000))]);
        _ ← sleep delay;
        cancelled ← gets (run_cancelled j n);
        if cancelled : bool then mret (RunDone (attempt + 1))
        else run_loop fuel j n (attempt + 1)
  end.

Definition _run (fuel : nat) (j : string) (n : nat) : py JobServer jexn run_end :=
  try_finally
    (except_exception (run_loop fuel j n 0) (λ _, mret RunError))
    (lift (_release j n)).
End Scheduler.
