(* ===== verification/JobRuns.v ===== *)
(** * What the scheduler's coroutines guarantee

    Termination of a run and release of its slot, the status of an attempt,
    saving, the interrupted runs and the deletion of the history, for any store,
    bus, clock and job. *)

From S2P Require Import Prelude PyStr Values Events JobModel JobStorage JobSlots JobInvariant JobScheduler.
From S2P Require Import JobMemory.


Section Runs.
Context {Host : Type}.
Abbreviation Server := (JobServer (Host := Host)).
Context `{ST : ICliJobStorageProvider Server}.
Context (cron_valid : string → bool).
Context (next_occurrence : string → Z → jexn + Z).
Context (class_name : nat → string).
Context (event_bus : option (string → dict string pyval → option CliEventAudience → py Server jexn unit)).
Context (broadcast_fn : option (dict string pyval → py Server jexn unit)).
Context (clock : Server → Z).
Context (uuid4 : py Server jexn string).
Context (execute_job : nat → string → nat → option Z →
  Server → (jexn + unit) * CliJobExecutionContext * Server).
Context (sleep : Z → py Server jexn unit).

Abbreviation broadcast := (_broadcast event_bus broadcast_fn clock).
Abbreviation attempt := (_execute_attempt class_name event_bus broadcast_fn clock uuid4 execute_job).
Abbreviation loop := (run_loop class_name event_bus broadcast_fn clock uuid4 execute_job sleep).
Abbreviation run := (_run class_name event_bus broadcast_fn clock uuid4 execute_job sleep).

(** ** What the environment keeps

    The store, the bus, the job and the other coroutines keep [I], and so does
    a change of a registration that keeps its options. *)
Record env_keeps (I : Server → Prop) : Prop := {
  ek_save : ∀ e, keeps I (save_execution e);
  ek_state : ∀ j st, keeps I (save_job_state j st);
  ek_delete : ∀ i, keeps I (delete_execution i);
  ek_publish : ∀ p t d a, event_bus = Some p → keeps I (p t d a);
  ek_send : ∀ f d, broadcast_fn = Some f → keeps I (f d);
  ek_uuid : keeps I uuid4;
  ek_job : ∀ jb j n t s, I s → I (execute_job jb j n t s).2;
  ek_sleep : ∀ d, keeps I (sleep d);
  ek_upd : ∀ j f s, (∀ r, options (f r) = options r) → I s → I (set_sched (upd_reg j f (sched s)) s);
}.

Section Keep.
Context (I : Server → Prop) (Henv : env_keeps I).

Lemma keeps_lift_same {A} (m : py Scheduler jexn A) : (∀ s, (m s).2 = s) → keeps I (lift m).
Proof.
  intros Hm s Hs. unfold lift. specialize (Hm (sched s)). destruct (m (sched s)) as [r c].
  simpl in *. subst. by destruct s.
Qed.

Lemma keeps_except {A} (m : py Server jexn A) h :
  keeps I m → (∀ e, keeps I (h e)) → keeps I (except_exception m h).
Proof.
  intros Hm Hh. unfold except_exception. apply keeps_try; [done|]. intros e.
  destruct e; try apply Hh. by apply keeps_same.
Qed.

Lemma keeps_upd j f : (∀ r, options (f r) = options r) → keeps I (lift (modify (upd_reg j f))).
Proof. intros Hf s Hs. by apply (ek_upd I Henv). Qed.

Lemma keeps_broadcast t d : keeps I (broadcast t d).
Proof.
  unfold _broadcast. apply keeps_except; [|intros; by apply keeps_same].
  destruct event_bus as [p|] eqn:Hp; [by apply (ek_publish I Henv)|].
  destruct broadcast_fn as [f|] eqn:Hf; [|by apply keeps_same].
  apply keeps_bind; [by apply keeps_same|]. intros now. by apply (ek_send I Henv).
Qed.

Lemma get_reg_keeps j : keeps I (lift (_get_registration j)).
Proof. apply keeps_lift_same, get_registration_same. Qed.

Ltac env_step :=
  first
  [ apply keeps_broadcast | apply get_reg_keeps
  | apply (ek_save I Henv) | apply (ek_state I Henv) | apply (ek_delete I Henv)
  | apply (ek_uuid I Henv) | apply (ek_sleep I Henv)
  | apply keeps_upd; done
  | apply keeps_except; [|intros ?]
  | match goal with
    | |- keeps _ (_ ≫= _) => apply keeps_bind; [|intros ?]
    | |- keeps _ (mret _) => by apply keeps_same
    | |- keeps _ (raise _) => by apply keeps_same
    | |- keeps _ (gets _) => by apply keeps_same
    | |- keeps _ (get_now _) => by apply keeps_same
    | |- keeps _ (try_except _ _) => apply keeps_try; [|intros ?]
    | |- keeps _ (match ?x with _ => _ end) => destruct x
    end ].
Ltac env_walk := repeat (cbv zeta; env_step).

Lemma persist_keeps j : keeps I (_persist_state clock j).
Proof. unfold _persist_state. env_walk. Qed.

Lemma attempt_exception_keeps j n i e :
  keeps I (attempt_exception event_bus broadcast_fn clock j n i e).
Proof. unfold attempt_exception, cancelled_attempt, upd_run. env_walk. Qed.

Lemma attempt_outcome_keeps j n i :
  keeps I (attempt_outcome event_bus broadcast_fn clock execute_job j n i).
Proof.
  unfold attempt_outcome, attempt_timeout, attempt_body, cancelled_attempt.
  repeat (cbv zeta; first
    [ apply attempt_exception_keeps
    | apply keeps_lift_same; intros ?; by destruct (parse_interval _)
    | env_step
    | intros s Hs; unfold call_job;
      pose proof (ek_job I Henv) as Hj;
      match goal with |- context [execute_job ?a ?b ?c ?d s] => specialize (Hj a b c d s Hs);
        destruct (execute_job a b c d s) as [[? ?] ?] end; exact Hj ]).
Qed.

Lemma save_finished_keeps e d : keeps I (_save_finished clock e d).
Proof. unfold _save_finished. env_walk. Qed.

Lemma one_attempt_keeps j n retry : keeps I (attempt j n retry).
Proof.
  unfold _execute_attempt, upd_run. repeat (cbv zeta; first
    [ apply attempt_outcome_keeps | apply save_finished_keeps | apply persist_keeps | env_step ]).
Qed.
End Keep.

(** ** A run ends *)

(** The options of the job never allow more than [m] retries. *)
Definition retries_at_most (j : string) (m : Z) (s : Server) : Prop :=
  ∀ r, get_reg j (sched s) = Some r → max_retries (options r) ≤ m.

Definition ended_within (m : Z) (r : jexn + run_end) : Prop :=
  match r with
  | inr (RunDone k) => 1 ≤ k ≤ m + 1
  | inr RunError => True
  | inr OutOfFuel => False
  | inl _ => True
  end.

Lemma run_loop_ends j n m fuel a s :
  env_keeps (retries_at_most j m) → retries_at_most j m s →
  0 ≤ a ≤ m → (Z.to_nat (m - a) < fuel)%nat → ended_within m (loop fuel j n a s).1.
Proof.
  intros Henv. revert a s. induction fuel as [|fuel IH]; intros a s Hs Ha Hf; [lia|]. simpl.
  assert (∀ A (x : py Server jexn A) (k : A → py Server jexn run_end) s,
    keeps (retries_at_most j m) x → retries_at_most j m s →
    (∀ b s', retries_at_most j m s' → ended_within m (k b s').1) →
    ended_within m ((x ≫= k) s).1) as Hseq.
  { intros A x k s' Hx Hs' Hk. rewrite py_bind_eq. specialize (Hx s' Hs').
    destruct (x s') as [[e|b] s'']; [done|by apply Hk]. }
  apply (Hseq JobExecution); [by apply one_attempt_keeps|done|]. intros e s1 H1.
  rewrite py_bind_eq. unfold lift at 1. rewrite get_registration_eq.
  destruct (get_reg j (sched s1)) as [reg|] eqn:Hr; [|done].
  apply (Hseq bool); [by apply keeps_same|by destruct s1|]. intros cancelled s2 H2.
  pose proof (H1 reg Hr) as Hmax.
  destruct (negb _ || (max_retries (options reg) <=? a) || cancelled) eqn:Hc; [simpl; lia|].
  apply orb_false_elim in Hc as [[_ Hlt%Z.leb_gt]%orb_false_elim _].
  apply (Hseq Z); [unfold _retry_delay| done|].
  { apply keeps_bind; [|intros; by apply keeps_same]. destruct (truthy _); [|by apply keeps_same].
    destruct (parse_interval _); by apply keeps_same. }
  intros delay s3 H3. apply (Hseq unit); [by apply keeps_broadcast|done|]. intros _ s4 H4.
  apply (Hseq unit); [by apply (ek_sleep _ Henv)|done|]. intros _ s5 H5.
  apply (Hseq bool); [by apply keeps_same|done|]. intros cancelled' s6 H6.
  destruct cancelled'; [simpl; lia|]. apply IH; [done|lia|lia].
Qed.

(** C9: a run makes at most [max_retries + 1] attempts and then ends, whatever
    the job, the store and the bus do (as long as nobody raises the job's
    [max_retries] above [m] meanwhile); no fuel beyond that is needed. *)
Theorem run_ends j n m s :
  env_keeps (retries_at_most j m) → retries_at_most j m s → 0 ≤ m →
  ended_within m (run (S (Z.to_nat m)) j n s).1.
Proof.
  intros Henv Hs Hm. unfold _run, try_finally, except_exception, try_except.
  pose proof (run_loop_ends j n m (S (Z.to_nat m)) 0 s Henv Hs ltac:(lia) ltac:(lia)) as Hloop.
  destruct (loop (S (Z.to_nat m)) j n 0 s) as [[e|r] s1]; simpl in Hloop.
  - assert (∀ x, ended_within m x →
      ended_within m (match lift (_release j n) s1 with
                      | (inl e, s'') => (inl e, s'') | (inr _, s'') => (x, s'') end).1) as Hrel.
    { intros x Hx. destruct (lift (_release j n) s1) as [[?|?] ?]; done. }
    destruct e; by apply Hrel.
  - destruct (lift (_release j n) s1) as [[?|?] ?]; done.
Qed.

(** However a run ends, its last action is to release its slot: if the slots
    were in order just before, the run holds none of them afterwards. *)
Theorem run_releases fuel j n s :
  ∃ s1 : Server, sched (run fuel j n s).2 = (_release j n (sched s1)).2 ∧
    ∀ r, get_reg j (sched s1) = Some r →
      NoDup (map run_ref (runs r)) → Forall (λ k, k < next_ref (sched s1))%nat (map run_ref (runs r)) →
      n ∈ map run_ref (runs r) →
      ∃ r', get_reg j (sched (run fuel j n s).2) = Some r' ∧ n ∉ map run_ref (runs r').
Proof.
  unfold _run, try_finally.
  destruct (except_exception (loop fuel j n 0) (λ _, mret RunError) s) as [x s1]. exists s1.
  assert (∀ y : jexn + run_end, sched (match lift (_release j n) s1 with
      | (inl e, s'') => (inl e, s'') | (inr _, s'') => (y, s'') end : (jexn + run_end) * Server).2 =
      (_release j n (sched s1)).2) as Hs.
  { intros y. unfold lift. by destruct (_release j n (sched s1)) as [[?|?] ?]. }
  rewrite Hs. split; [done|]. intros r Hr Hn Hf Hin.
  unfold _release. rewrite py_bind_eq. cbn [modify].
  set (s2 := upd_reg j _ (sched s1)).
  assert (get_reg j s2 = Some (set_runs (remove_run n (runs r)) (queued r) r)) as Hr2
    by (unfold s2; rewrite get_upd, decide_True, Hr; done).
  pose proof (remove_run_perm n (runs r) Hin) as Hp. rewrite Hp in Hn, Hf.
  apply NoDup_cons in Hn as [Hnot _]. apply Forall_cons in Hf as [Hlt _].
  unfold _start_queued. rewrite py_bind_eq, get_registration_eq, Hr2.
  destruct (_ && _); [|by eexists].
  set (s3 := upd_reg j (λ r, set_runs (runs r) false r) s2).
  change ((modify _ ≫= _) s2) with (_launch j (Some (next_ref s3)) (_take_slot j s3).2).
  change (get_reg j (_launch j (Some (next_ref s3)) ?x).2) with (get_reg j x).
  assert (get_reg j s3 = Some (set_runs (remove_run n (runs r)) false r)) as Hr3
    by (unfold s3; rewrite get_upd, decide_True, Hr2; done).
  unfold _take_slot. cbn [snd]. rewrite get_reg_bump, get_upd, decide_True, Hr3 by done.
  eexists. split; [reflexivity|]. simpl. rewrite map_app. simpl.
  assert (next_ref s3 = next_ref (sched s1)) as -> by (unfold s3, s2; by rewrite !next_upd).
  intros [?|Heq%list_elem_of_singleton]%elem_of_app; [done|lia].
Qed.

(** ** The status of an attempt *)

Definition attempt_status (r : jexn + unit) (cancelled : bool) : string :=
  match r with
  | inr _ => if cancelled then "cancelled" else "completed"
  | inl (TimeoutError _) => if cancelled then "cancelled" else "timed_out"
  | inl TaskCancelled => "cancelled"
  | inl _ => "failed"
  end.

Definition attempt_error (r : jexn + unit) (cancelled : bool) (t : option string) : option string :=
  match r with
  | inl (TimeoutError _) => if cancelled then None else Some ("Timed out after " +:+ default "None" t)
  | inl TaskCancelled | inr _ => None
  | inl e => Some (exn_text e)
  end.

(** The status and the error of an attempt, from how the job ended and
    whether its run was cancelled by then: a cancelled run is cancelled even
    when it returned or timed out, an exception fails the attempt with its
    text, and a timeout also cancels the run, so it is not retried. *)
Theorem attempt_status_table j n i r s reg :
  (∀ t d s, (broadcast t d s).1 = inr tt) →
  get_reg j (sched s) = Some reg →
  ∃ s', attempt_body event_bus broadcast_fn clock j n i r s =
    (inr (attempt_status r (run_cancelled j n s),
          attempt_error r (run_cancelled j n s) (timeout (options reg))), s').
Proof.
  intros Hb Hr.
  assert (∀ s, ∃ s', cancelled_attempt event_bus broadcast_fn clock j i s =
    (inr ("cancelled", None), s')) as Hc.
  { intros s'. unfold cancelled_attempt. rewrite py_bind_eq. specialize (Hb "job:cancelled" (run_event j i) s').
    destruct (broadcast "job:cancelled" (run_event j i) s') as [x s2]. simpl in Hb. subst x. by eexists. }
  assert (∀ e s, ∃ s', (_ ← broadcast "job:failed" (run_event j i ++ [("error", VStr (exn_text e))]);
      mret ("failed", Some (exn_text e)) : py Server jexn (string * option string)) s =
    (inr ("failed", Some (exn_text e)), s')) as Hfail.
  { intros e s'. rewrite py_bind_eq. specialize (Hb "job:failed" (run_event j i ++ [("error", VStr (exn_text e))]) s').
    destruct (broadcast "job:failed" _ s') as [x s2]. simpl in Hb. subst x. by eexists. }
  unfold attempt_body, try_except. destruct r as [e|[]].
  - cbn [raise]. destruct e; try apply Hfail; cbn [attempt_status attempt_error]; [|apply Hc].
    unfold attempt_exception. rewrite py_bind_eq. cbn [gets].
    destruct (run_cancelled j n s); [apply Hc|].
    rewrite py_bind_eq. unfold lift at 1. cbn [modify]. rewrite py_bind_eq. unfold lift at 1.
    rewrite get_registration_eq. cbn [set_sched sched]. unfold upd_run. rewrite get_upd, decide_True, Hr by done.
    cbn [fmap option_fmap option_map options set_runs]. rewrite py_bind_eq.
    match goal with |- context [broadcast ?t ?d ?s1] => specialize (Hb t d s1);
      destruct (broadcast t d s1) as [x s2] end.
    simpl in Hb. subst x. by eexists.
  - rewrite py_bind_eq. cbn [gets]. cbn [attempt_status attempt_error].
    destruct (run_cancelled j n s); [|by eexists].
    destruct (Hc s) as [s' ->]. by exists s'.
Qed.

(** ** Saving a finished run *)

(** A finished run is never left unsaved because of its own properties: if
    the store saves every run without properties (and can delete), saving ends
    without an exception, with the run as it was or without its properties. *)
Theorem save_finished_ends e d s :
  (∀ e s, properties e = [] → (save_execution e s).1 = inr tt) →
  (∀ e s, (save_execution e s).1 ≠ inl TaskCancelled) →
  (∀ i s, ∃ b, (delete_execution i s).1 = inr b) →
  ∃ e', (_save_finished clock e d s).1 = inr e' ∧ status e' = status e ∧ id e' = id e ∧
    (e' = e ∨ properties e ≠ [] ∧ properties e' = []).
Proof.
  intros Hsave Hcancel Hdel. unfold _save_finished, except_exception, try_except.
  rewrite py_bind_eq.
  assert (∃ b s1, (if d && bool_decide (status e = "completed")
    then delete_execution (id e) else mret false) s = (inr b, s1)) as (b & s1 & ->).
  { destruct (d && _); [|by eexists _, _]. destruct (Hdel (id e) s) as [b Hb].
    destruct (delete_execution (id e) s) as [x s1]. simpl in Hb. subst. by eexists _, _. }
  rewrite py_bind_eq. destruct b; [exists e; by split_and!; auto|].
  pose proof (Hsave e s1) as He. pose proof (Hcancel e s1) as Hn.
  destruct (save_execution e s1) as [[x|[]] s2]; [|exists e; by split_and!; auto]. simpl in He, Hn.
  assert (properties e ≠ []) as Hp by (intros Hp; by specialize (He Hp)).
  assert (∃ e', ((now ← get_now clock; _ ← save_execution (without_properties e (exn_text x) now);
     mret (without_properties e (exn_text x) now)) s2).1 = inr e' ∧ status e' = status e ∧
     id e' = id e ∧ (e' = e ∨ properties e ≠ [] ∧ properties e' = [])) as Hgoal.
  { rewrite py_bind_eq. cbn [get_now gets]. rewrite py_bind_eq.
    set (e' := without_properties e (exn_text x) (clock s2)).
    pose proof (Hsave e' s2 eq_refl) as He'. destruct (save_execution e' s2) as [y s3]. simpl in He'.
    subst y. exists e'. split_and!; [done..|]. right. done. }
  destruct (properties e) as [|? ?]; [done|]. destruct x; try exact Hgoal. done.
Qed.
End Runs.

(** ** The store's history *)

Section History.
Context {Host : Type}.
Abbreviation Server := (JobServer (Host := Host)).
Context `{ST : ICliJobStorageProvider Server} `{LW : !JobStorageLaws Server}.
Context (event_bus : option (string → dict string pyval → option CliEventAudience → py Server jexn unit)).
Context (broadcast_fn : option (dict string pyval → py Server jexn unit)).
Context (clock : Server → Z).

(** An id names one run. *)
Lemma history_unique s j j' e e' :
  store_ok s → e ∈ history s j → e' ∈ history s j' → id e = id e' → e = e'.
Proof.
  intros Hs He He' Hid. destruct (get_execution_ok s (id e) Hs) as (r & _ & Hr).
  destruct (history_ok s j Hs) as [_ Hj]. destruct (history_ok s j' Hs) as [_ Hj'].
  rewrite Forall_forall in Hj, Hj'.
  assert (r = Some e) as H1 by (apply Hr; rewrite (Hj e He); done).
  assert (r = Some e') as H2 by (apply Hr; rewrite (Hj' e' He'); done). congruence.
Qed.

(** The scheduler's own state is not the store's. *)
Context (save_sched : ∀ e (s : Server), sched (save_execution e s).2 = sched s).
Context (delete_sched : ∀ i (s : Server), sched (delete_execution i s).2 = sched s).

Lemma delete_each_ok ids k s :
  store_ok s → NoDup ids → (∀ i, i ∈ ids → ∃ j, i ∈ map id (history s j)) →
  ∃ s', delete_each ids k s = (inr (k + Z.of_nat (length ids)), s') ∧ store_ok s' ∧
    sched s' = sched s ∧ ∀ j e, e ∈ history s' j ↔ e ∈ history s j ∧ id e ∉ ids.
Proof.
  clear save_sched clock event_bus broadcast_fn.
  revert k s; induction ids as [|i ids IH]; intros k s Hs Hn Hin; simpl.
  { exists s. rewrite Z.add_0_r. split_and!; try done. set_solver. }
  apply NoDup_cons in Hn as [Hi Hn]. rewrite py_bind_eq.
  pose proof (delete_execution_ok s i Hs) as Hd. pose proof (delete_sched i s) as Hsched.
  destruct (delete_execution i s) as [r s1]. destruct Hd as ((b & -> & Hb) & Hs1 & Hh).
  destruct b. 2: { exfalso. assert (false = true) by (apply Hb, Hin; left). done. }
  destruct (IH (k + 1) s1 Hs1 Hn) as (s' & -> & Hs' & Hsch & Hel).
  { intros i' Hi'. destruct (Hin i' ltac:(by right)) as [j Hj]. exists j. rewrite Hh.
    apply without_run_ids. split; [done|]. by intros ->. }
  exists s'. split; [do 2 f_equal; lia|]. split; [done|]. split; [by rewrite Hsch|].
  intros j e. rewrite Hel, Hh, without_run_elem. set_solver.
Qed.

Lemma with_status_elem st l e :
  e ∈ with_status st l ↔ e ∈ l ∧ (truthy_opt st = true → status e = or_empty st).
Proof.
  unfold with_status. destruct (truthy_opt st); [|naive_solver].
  rewrite !list_elem_of_In, filter_In, bool_decide_eq_true. naive_solver.
Qed.

Lemma nodup_filter_ids (f : JobExecution → bool) l :
  NoDup (map id l) → NoDup (map id (List.filter f l)).
Proof.
  induction l as [|x l IH]; simpl; [done|]. intros [Hx Hl]%NoDup_cons.
  destruct (f x); simpl; [|by apply IH]. constructor; [|by apply IH].
  intros [y [Hy [Hin _]%list_elem_of_In%filter_In]]%list_elem_of_fmap. apply Hx. rewrite Hy.
  apply list_elem_of_fmap_2. by apply list_elem_of_In.
Qed.

Lemma with_status_nodup st l : NoDup (map id l) → NoDup (map id (with_status st l)).
Proof. unfold with_status. destruct (truthy_opt st); [apply nodup_filter_ids|done]. Qed.

(** Deleting a job's history (or its runs with a status) deletes exactly
    the runs that are not running, answers how many they were, and touches no
    run of another job; a hundred runs are read at a time, and as much fuel as
    there are runs is enough. *)
Theorem delete_execs_spec fuel j st s reg :
  (∀ t d s, (_broadcast event_bus broadcast_fn clock t d s).1 = inr tt ∧
     ∀ j, history (_broadcast event_bus broadcast_fn clock t d s).2 j = history s j) →
  store_ok s → overrides_delete = true → get_reg j (sched s) = Some reg →
  (length (history s j) < fuel)%nat →
  let doomed := List.filter (λ e, negb (_is_running s e))
    (with_status (if truthy_opt st then st else None) (history s j)) in
  ∃ s', delete_execs event_bus broadcast_fn clock fuel j st s =
    (inr (Some (Z.of_nat (length doomed))), s') ∧
  ∀ j' e, e ∈ history s' j' ↔ e ∈ history s j' ∧ e ∉ doomed.
Proof.
  clear save_sched.
  intros Hb Hs Hdel Hr Hf doomed. unfold delete_execs, _ensure_storage_deletes. rewrite Hdel.
  rewrite py_bind_eq. unfold lift. rewrite get_registration_eq, Hr.
  replace (set_sched (sched s) s) with s by by destruct s.
  rewrite py_bind_eq. cbn [raise_if negb mret py_ret]. rewrite py_bind_eq.
  assert (length (with_status (if truthy_opt st then st else None) (history s j)) ≤ length (history s j))%nat as Hlen.
  { unfold with_status. destruct (truthy_opt (if truthy_opt st then st else None)); [|done].
    apply List.filter_length_le. }
  rewrite read_pages_all by (try done; lia). rewrite app_nil_l.
  change (Z.to_nat 0) with 0%nat. rewrite drop_0. fold doomed.
  destruct (history_ok s j Hs) as [Hn Hj].
  assert (NoDup (map id doomed)) as Hnd by by apply nodup_filter_ids, with_status_nodup.
  assert (∀ e, e ∈ doomed → e ∈ history s j) as Hsub.
  { intros e [He _]%list_elem_of_In%filter_In. apply list_elem_of_In, with_status_elem in He. tauto. }
  destruct (delete_each_ok (map id doomed) 0 s Hs Hnd) as (s1 & Heq & Hs1 & _ & Hel).
  { intros i [e [-> He]]%list_elem_of_fmap. exists j. apply list_elem_of_fmap_2. by apply Hsub. }
  rewrite py_bind_eq, Heq, length_map, Z.add_0_l.
  assert (∀ j' e, e ∈ history s1 j' ↔ e ∈ history s j' ∧ e ∉ doomed) as Hfinal.
  { intros j' e. rewrite Hel. split; intros [He H]; (split; [done|]).
    - intros Hd. by apply H, list_elem_of_fmap_2.
    - intros [e' [Hid Hd]]%list_elem_of_fmap. apply H.
      by rewrite (history_unique s j' j e e' Hs He (Hsub _ Hd) Hid). }
  rewrite py_bind_eq. destruct (Z.eqb_spec (Z.of_nat (length doomed)) 0); [by exists s1|].
  match goal with |- context [_broadcast _ _ _ ?t ?d s1] => destruct (Hb t d s1) as [Hb1 Hb2];
    destruct (_broadcast event_bus broadcast_fn clock t d s1) as [x s2] end.
  simpl in Hb1, Hb2. subst x. exists s2. split; [done|]. intros j' e. rewrite Hb2. apply Hfinal.
Qed.

(** ** Interrupted runs *)

Lemma interrupted_after e : as_utc (started_at e) ≤ interrupted_at e.
Proof.
  unfold interrupted_at. generalize (as_utc (started_at e)), (map (λ l, as_utc (log_timestamp l)) (logs e)).
  intros z l; revert z; induction l as [|x l IH]; intros z; simpl; [lia|].
  specialize (IH (Z.max z x)). lia.
Qed.

Lemma finish_runs_ok ours j l s :
  store_ok s → NoDup (map id l) → (∀ e, e ∈ l → e ∈ history s j) →
  ∃ s', for_each (finish_run ours) l s = (inr tt, s') ∧ store_ok s' ∧ sched s' = sched s ∧
    (∀ j', j' ≠ j → history s' j' = history s j') ∧
    ∀ x, x ∈ history s' j ↔
      (∃ e, e ∈ l ∧ id e ∉ ours ∧ x = interrupted e) ∨
      (x ∈ history s j ∧ ∀ e, e ∈ l → id e ∉ ours → id x ≠ id e).
Proof.
  clear delete_sched clock event_bus broadcast_fn.
  revert s; induction l as [|e l IH]; intros s Hs Hn Hin; simpl.
  { exists s. split_and!; try done. intros x. split; [intros; right; set_solver|].
    intros [(e & He & _)|[? _]]; [set_solver|done]. }
  apply NoDup_cons in Hn as [He Hn]. rewrite py_bind_eq. unfold finish_run at 1.
  case_bool_decide as Hours.
  - cbn [mret py_ret]. destruct (IH s Hs Hn) as (s' & -> & Hs' & Hsch & Hne & Hel); [set_solver|].
    exists s'. split_and!; try done. intros x. rewrite Hel. setoid_rewrite elem_of_cons. naive_solver.
  - assert (e ∈ history s j) as Hej by (apply Hin; left).
    destruct (history_ok s j Hs) as [Hnj Hj]. rewrite Forall_forall in Hj.
    pose proof (save_execution_ok s (interrupted e) Hs) as Hsave.
    pose proof (save_sched (interrupted e) s) as Hsch1.
    destruct (save_execution (interrupted e) s) as [r s1]. cbn [fst snd] in *.
    change (job_id (interrupted e)) with (job_id e) in Hsave.
    change (id (interrupted e)) with (id e) in Hsave. rewrite (Hj e Hej) in Hsave.
    destruct Hsave as (-> & Hs1 & Hh).
    { intros j' Hj' [e' [Hid He']]%list_elem_of_fmap. apply Hj'.
      rewrite <- (Hj e Hej). rewrite (history_unique s j j' e e' Hs Hej He' Hid).
      destruct (history_ok s j' Hs) as [_ Hjj]. rewrite Forall_forall in Hjj. symmetry. by apply Hjj. }
    assert (∀ x, x ∈ history s1 j ↔ x = interrupted e ∨ x ∈ history s j ∧ id x ≠ id e) as Hel1.
    { intros x. rewrite Hh, decide_True by done. by rewrite saved_run_elem. }
    destruct (IH s1 Hs1 Hn) as (s' & -> & Hs' & Hsch & Hne & Hel).
    { intros x Hx. apply Hel1. right. split; [apply Hin; by right|]. intros Hid. apply He.
      rewrite <- Hid. by apply list_elem_of_fmap_2. }
    exists s'. split; [done|]. split; [done|]. split; [by rewrite Hsch|].
    split; [intros j' Hj'; by rewrite Hne, Hh, decide_False|].
    intros x. rewrite Hel, Hel1. setoid_rewrite elem_of_cons.
    split.
    + intros [(e0 & ? & ? & ->)|[[->|[Hx Hxe]] Hall]]; [left; by eauto|left; by eauto|].
      right. split; [done|]. intros e0 [->|He0]; [done|by apply Hall].
    + intros [(e0 & [->|He0] & Ho & ->)|[Hx Hall]]; [right|left; by eauto|right].
      * split; [by left|]. intros e1 He1 _ Hid. apply He. change (id e = id e1) in Hid. rewrite Hid.
        by apply list_elem_of_fmap_2.
      * split; [right; split; [done|]; by apply Hall; [left|]|]. intros e0 He0. apply Hall. by right.
Qed.

Lemma finish_job_ok fuel j s reg :
  store_ok s → get_reg j (sched s) = Some reg → (length (history s j) < fuel)%nat →
  ∃ s', finish_job fuel j s = (inr tt, s') ∧ store_ok s' ∧ sched s' = sched s ∧
    (∀ j', j' ≠ j → history s' j' = history s j') ∧
    (∀ x, x ∈ history s' j → status x = "running" → id x ∈ running_execution_ids reg) ∧
    (∀ x, x ∈ history s j → status x ≠ "running" → x ∈ history s' j).
Proof.
  clear delete_sched clock event_bus broadcast_fn.
  intros Hs Hr Hf. unfold finish_job. rewrite py_bind_eq.
  assert (length (with_status (Some "running") (history s j)) ≤ length (history s j))%nat as Hlen
    by apply List.filter_length_le.
  rewrite read_pages_all by (try done; lia). rewrite app_nil_l.
  change (Z.to_nat 0) with 0%nat. rewrite drop_0.
  rewrite py_bind_eq. unfold lift. rewrite get_registration_eq, Hr.
  replace (set_sched (sched s) s) with s by by destruct s. cbn [default from_option].
  set (stale := List.filter _ _).
  assert (∀ e, e ∈ stale ↔ e ∈ history s j ∧ status e = "running") as Hstale.
  { intros e. unfold stale. rewrite list_elem_of_In, filter_In, <- list_elem_of_In, with_status_elem,
      bool_decide_eq_true. simpl. naive_solver. }
  destruct (history_ok s j Hs) as [Hn _].
  destruct (finish_runs_ok (running_execution_ids reg) j stale s Hs) as (s' & Heq & Hs' & Hsch & Hne & Hel).
  { by apply nodup_filter_ids, with_status_nodup. }
  { intros e [? _]%Hstale. done. }
  exists s'. split_and!; try done.
  - intros x [(e & He & Ho & ->)|[Hx Hall]]%Hel Hst; [done|].
    apply dec_stable. intros Ho. apply (Hall x); [by apply Hstale|done|done].
  - intros x Hx Hst. apply Hel. right. split; [done|]. intros e [He Hrun]%Hstale _ Hid.
    by rewrite (history_unique s j j x e Hs Hx He Hid) in Hst.
Qed.

(** Once [_finish_interrupted_runs] has run, no registered job has a run in
    the store that is still [running], other than those this process runs;
    finished runs stay as they were. *)
Theorem finish_interrupted_ok fuel s :
  store_ok s → dict_ok (registrations (sched s)) → (∀ j, length (history s j) < fuel)%nat →
  ∃ s', _finish_interrupted_runs fuel s = (inr tt, s') ∧ store_ok s' ∧
    (∀ j reg x, get_reg j (sched s) = Some reg → x ∈ history s' j → status x = "running" →
      id x ∈ running_execution_ids reg) ∧
    (∀ j x, x ∈ history s j → status x ≠ "running" → x ∈ history s' j).
Proof.
  clear delete_sched clock event_bus broadcast_fn.
  intros Hs Hd Hf. unfold _finish_interrupted_runs. rewrite py_bind_eq. cbn [gets].
  assert (∀ ids s1, store_ok s1 → sched s1 = sched s →
    (∀ j, j ∈ ids → history s1 j = history s j) → NoDup ids →
    (∀ j, j ∈ ids → is_Some (get_reg j (sched s))) →
    ∃ s', for_each (λ j, except_exception (finish_job fuel j) (λ _, mret tt)) ids s1 = (inr tt, s') ∧
      store_ok s' ∧
      (∀ j, j ∉ ids → history s' j = history s1 j) ∧
      (∀ j reg x, j ∈ ids → get_reg j (sched s) = Some reg → x ∈ history s' j → status x = "running" →
        id x ∈ running_execution_ids reg) ∧
      (∀ j x, x ∈ history s1 j → status x ≠ "running" → x ∈ history s' j)) as Hloop.
  { intros ids. induction ids as [|j ids IH]; intros s1 Hs1 Hsch Hsame Hn Hreg; simpl.
    { exists s1. split_and!; try done. set_solver. }
    apply NoDup_cons in Hn as [Hj Hn]. destruct (Hreg j ltac:(by left)) as [reg Hr].
    destruct (finish_job_ok fuel j s1 reg Hs1) as (s2 & Heq & Hs2 & Hsch2 & Hne & Hrun & Hfin).
    { by rewrite Hsch. } { rewrite Hsame by (by left). apply Hf. }
    assert (except_exception (finish_job fuel j) (λ _, mret tt) s1 = (inr tt, s2)) as Hexc
      by (unfold except_exception, try_except; by rewrite Heq).
    rewrite py_bind_eq, Hexc.
    destruct (IH s2 Hs2) as (s' & -> & Hs' & Hout & Hrun' & Hfin').
    { by rewrite Hsch2. }
    { intros j' Hj'. rewrite Hne by (by intros ->). apply Hsame. by right. }
    { done. } { intros j' Hj'. apply Hreg. by right. }
    exists s'. split_and!; try done.
    - intros j' Hj'. rewrite Hout, Hne; [done|set_solver|set_solver].
    - intros j' reg' x Hj' Hr' Hx Hst. destruct (decide (j' = j)) as [->|Hnj].
      + rewrite Hr in Hr'. injection Hr' as <-. apply Hrun; [|done]. by rewrite <- Hout.
      + apply (Hrun' j'); try done. set_solver.
    - intros j' x Hx Hst. apply Hfin'; [|done].
      destruct (decide (j' = j)) as [->|Hnj]; [by apply Hfin|by rewrite Hne]. }
  destruct (Hloop (dict_keys (registrations (sched s))) s Hs eq_refl) as (s' & Heq & Hs' & _ & Hrun & Hfin);
    [done|done| |].
  { intros j Hj%dict_mem_true%dict_mem_get. exact Hj. }
  exists s'. split_and!; try done. intros j reg x Hr. eapply Hrun; [|exact Hr].
  apply dict_mem_true, dict_mem_get. by exists reg.
Qed.
End History.

(** * A server with the in-memory store

    The scheduler of [JobScheduler.v] on the store of [JobMemory.v], with a job
    that always fails: the guarantees of [JobRuns.v] at work, and two scenarios
    that go wrong in the program. *)

Abbreviation Server := (JobServer (Host := InMemoryJobStorageProvider)).

#[export] Instance server_memory : HasMemory Server.
Proof. by refine {| get_memory := host; set_memory := λ m s, {| sched := sched s; host := m |} |}. Defined.

Definition class_name (n : nat) : string := "Digest".
Definition clock (s : Server) : Z := 5000000.
Definition uuid4 : py Server jexn string := mret "exec-1".
(** The job logs and fails. *)
Definition execute_job (jb : nat) (j : string) (n : nat) (t : option Z) (s : Server)
    : (jexn + unit) * CliJobExecutionContext * Server :=
  (inl (HostError "boom"), log_error "no luck" 5000000 new_context, s).
Definition sleep (d : Z) : py Server jexn unit := mret tt.

(** One job, one slot, one retry, [skip]; its run 0 has the slot. *)
Definition opts : CliJobOptions :=
  {| name := Some "digest"; description := None; group := None; schedule := None; interval := None;
     enabled := true; max_retries := 1; retry_delay := "5s"; retry_strategy := "exponential";
     timeout := None; overlap_policy := "skip"; max_concurrent_runs := 1; opt_id := None;
     run_on_start := false |}.
Definition old_run (i st : string) : JobExecution :=
  {| id := i; job_id := "digest"; job_name := "digest"; status := st; started_at := utc 1000000;
     completed_at := None; duration := None; error := None;
     logs := [{| log_timestamp := utc 3000000; level := "info"; message := "half way" |}];
     retry_attempt := 0; properties := [("items", VInt 3)] |}.
Definition idle : Scheduler :=
  (register class_name 0 opts {| registrations := []; _running := true; tasks := []; next_ref := 0 |}).2.
Definition memory : InMemoryJobStorageProvider :=
  mem_save_execution (old_run "old-2" "running") (mem_save_execution (old_run "old-1" "completed") new_memory).
Definition server : Server := {| sched := idle; host := memory |}.
Definition busy : Server := {| sched := (_take_slot "digest" idle).2; host := memory |}.

Lemma memory_ok : mem_ok memory.
Proof.
  repeat apply mem_save_ok; try apply mem_ok_new; intros j Hj; unfold job_list; simpl;
    repeat (case_decide; simpl); set_solver.
Qed.

(** Nothing of this environment touches the scheduler. *)
Lemma env_sched (I : Server → Prop) :
  (∀ m s, I s → I {| sched := sched s; host := m |}) →
  (∀ j f s, (∀ r, options (f r) = options r) → I s → I (set_sched (upd_reg j f (sched s)) s)) →
  env_keeps None None uuid4 execute_job sleep I.
Proof.
  intros Hm Hu. split; [| | |done|done| | | |exact Hu].
  - intros e s Hs. apply Hm, Hs.
  - intros j st s Hs. apply Hm, Hs.
  - intros i s Hs. cbn. unfold on_memory. destruct (mem_delete_execution i (get_memory s)).
    apply Hm, Hs.
  - intros s Hs. exact Hs.
  - intros jb j n t s Hs. exact Hs.
  - intros d s Hs. exact Hs.
Qed.

Lemma env_retries j m : env_keeps None None uuid4 execute_job sleep (retries_at_most j m).
Proof.
  apply env_sched; [done|]. intros j' f s Hf Hs r. cbn [set_sched sched]. rewrite get_upd.
  case_decide; [subst|apply Hs]. destruct (get_reg j' (sched s)) as [r0|] eqn:E; simpl; [|done].
  intros [= <-]. rewrite Hf. by apply Hs.
Qed.

Lemma busy_retries : retries_at_most "digest" 1 busy.
Proof. intros r Hr. vm_compute in Hr. injection Hr as <-. vm_compute. discriminate. Qed.

Lemma run_ends_witness :
  ended_within 1 (_run class_name None None clock uuid4 execute_job sleep 2 "digest" 0 busy).1.
Proof.
  apply (run_ends class_name None None clock uuid4 execute_job sleep "digest" 0 1 busy
    (env_retries "digest" 1) busy_retries). lia.
Defined.

(** The failing job makes its two attempts. *)
Example run_retries :
  (_run class_name None None clock uuid4 execute_job sleep 2 "digest" 0 busy).1 = inr (RunDone 2).
Proof. vm_compute. reflexivity. Qed.

Lemma attempt_status_table_witness :
  ∃ s', attempt_body None None clock "digest" 0 "exec-1" (inl (HostError "boom")) busy =
    (inr ("failed", Some "boom"), s').
Proof.
  destruct (get_reg "digest" (sched busy)) as [reg|] eqn:Hr; [|discriminate Hr].
  destruct (attempt_status_table None None clock "digest" 0 "exec-1" (inl (HostError "boom")) busy reg)
    as [s' Hs']; [done|exact Hr|]. exists s'. exact Hs'.
Defined.

Lemma save_finished_ends_witness :
  ∃ e', (_save_finished clock (old_run "old-2" "completed") true busy).1 = inr e' ∧
    status e' = "completed".
Proof.
  destruct (save_finished_ends clock (old_run "old-2" "completed") true busy) as (e' & He & Hst & _).
  - reflexivity.
  - discriminate.
  - intros i s. simpl. unfold on_memory.
    destruct (mem_delete_execution i (get_memory s)) as [b m]. exists b. reflexivity.
  - exists e'. split; [exact He|exact Hst].
Defined.

Lemma save_sched e (s : Server) : sched (save_execution e s).2 = sched s.
Proof. reflexivity. Qed.
Lemma delete_sched i (s : Server) : sched (delete_execution i s).2 = sched s.
Proof. simpl. unfold on_memory. by destruct (mem_delete_execution i (get_memory s)). Qed.

Lemma delete_execs_spec_witness :
  ∃ s', delete_execs None None clock 3 "digest" None server = (inr (Some 1), s') ∧
    old_run "old-2" "running" ∈ history s' "digest".
Proof.
  destruct (get_reg "digest" (sched server)) as [reg|] eqn:Hr; [|discriminate Hr].
  destruct (delete_execs_spec None None clock delete_sched 3 "digest" None server reg)
    as (s' & Heq & Hel).
  - intros t d s. split; reflexivity.
  - exact memory_ok.
  - reflexivity.
  - exact Hr.
  - vm_compute. lia.
  - exists s'. split; [exact Heq|]. apply Hel. split; [vm_compute; left|].
    vm_compute. intros H. inversion H as [|? ? ? H']; subst. inversion H'.
Defined.

Lemma finish_interrupted_ok_witness :
  ∃ s', _finish_interrupted_runs 3 server = (inr tt, s') ∧
    ∀ x, x ∈ history s' "digest" → status x = "running" → id x ∈ @nil string.
Proof.
  destruct (get_reg "digest" (sched server)) as [reg|] eqn:Hr; [|discriminate Hr].
  destruct (finish_interrupted_ok save_sched 3 server) as (s' & Heq & _ & Hrun & _).
  - exact memory_ok.
  - apply (bool_decide_unpack _). vm_compute. exact I.
  - intros j. change (history server j) with (job_list memory j). unfold job_list. simpl.
    repeat case_decide; simpl; lia.
  - exists s'. split; [exact Heq|]. intros x Hx Hst. specialize (Hrun "digest" reg x Hr Hx Hst).
    vm_compute in Hr. injection Hr as <-. exact Hrun.
Defined.

(** The interrupted run is closed when it last logged. *)
Example interrupted_old :
  (λ e, (status e, completed_at e, duration e)) <$> head (history (_finish_interrupted_runs 3 server).2 "digest")
  = Some ("cancelled", Some (utc 3000000), Some 2000).
Proof. vm_compute. reflexivity. Qed.

(** ** Two scenarios that go wrong *)

(** [trigger] takes the slot before it publishes [job:triggered]: when its task
    is cancelled there, the slot stays taken and no coroutine will release it;
    every later trigger is refused. *)
Definition cancelled_bus (t : string) (d : dict string pyval) (a : option CliEventAudience)
    : py Server jexn unit := raise TaskCancelled.
Theorem trigger_cancelled_leaks_slot :
  let '(r, s) := trigger (Some cancelled_bus) None clock "digest" server in
  r = inl TaskCancelled ∧ length <$> (runs <$> get_reg "digest" (sched s)) = Some 1%nat ∧
  run_refs_of "digest" (tasks (sched s)) = [] ∧
  (trigger None None clock "digest" s).1 = inl (InvalidOperationError "Job is already running").
Proof. vm_compute. split_and!; reflexivity. Qed.

(** A job without a timeout that raises [TimeoutError] itself (a network read,
    say) is recorded as timed out after [None], and its run is cancelled, so it
    is not retried. *)
Theorem own_timeout_is_timed_out :
  let '(r, s) := attempt_body None None clock "digest" 0 "exec-1" (inl (TimeoutError "read")) busy in
  r = inr ("timed_out", Some "Timed out after None") ∧ run_cancelled "digest" 0 s = true.
Proof. vm_compute. split; reflexivity. Qed.
