(* ===== verification/JobStats.v ===== *)
(** * Job statistics ([job_stats.py])

    Times are microseconds; the width of a column is the exact quotient of the
    range by the number of columns (the program divides floats of milliseconds,
    whose rounding is not modelled).  [fromisoformat] is a parameter, as it is
    the host's parser of the query's times. *)

From S2P Require Import Prelude PyStr Values JobModel.
From Stdlib Require Import Ascii QArith.QArith.

Open Scope Z_scope.

Definition DEFAULT_BUCKETS : Z := 24.
Definition MAX_BUCKETS : Z := 200.
Definition DEFAULT_RANGE : Z := 24 * 3600 * 1000000.
Definition PAGE_SIZE : Z := 500.
Definition RECENT_RUNS : Z := 12.

Inductive Outcome := Succeeded | Failed | Cancelled | Running.
#[export] Instance outcome_eq_dec : EqDecision Outcome.
Proof. solve_decision. Defined.
Definition OUTCOMES : list Outcome := [Succeeded; Failed; Cancelled; Running].

Definition outcome_of (st : string) : Outcome :=
  let value := lower (strip st) in
  if bool_decide (value ∈ ["completed"; "succeeded"]) then Succeeded
  else if bool_decide (value ∈ ["failed"; "error"; "timed_out"; "timedout"]) then Failed
  else if bool_decide (value ∈ ["running"; "pending"]) then Running
  else Cancelled.

(** [StatsRequestError] *)
Inductive stats_error := StatsRequestError (msg : string).

Section Range.
(** [datetime.fromisoformat]; [None] is [ValueError]. *)
Context (fromisoformat : string → option datetime).

(** [parse_time]: [None] is an absent value. *)
Definition parse_time (value : option string) (nm : string) : stats_error + option Z :=
  match value with
  | None => inr None
  | Some v =>
      let text := strip v in
      if is_empty text then inr None
      else
        let text := if ends_with text "Z" || ends_with text "z"
                    then take_str (len text - 1) text +:+ "+00:00" else text in
        match fromisoformat text with
        | Some d => inr (Some (as_utc d))
        | None => inl (StatsRequestError ("'" +:+ nm +:+ "' must be an ISO 8601 time, got '" +:+ v +:+ "'"))
        end
  end.

Definition parse_buckets (value : option string) : stats_error + Z :=
  match value with
  | None => inr DEFAULT_BUCKETS
  | Some v =>
      if is_empty (strip v) then inr DEFAULT_BUCKETS
      else match py_int (strip v) with
           | Some n => inr (Z.min (Z.max n 1) MAX_BUCKETS)
           | None => inl (StatsRequestError ("'buckets' must be an integer, got '" +:+ v +:+ "'"))
           end
  end.

Definition resolve_range (since until : option string) (now : Z) : stats_error + (Z * Z) :=
  match parse_time until "until" with
  | inl e => inl e
  | inr u =>
      let stop := default now u in
      match parse_time since "since" with
      | inl e => inl e
      | inr s =>
          let start := default (stop - DEFAULT_RANGE) s in
          if stop <=? start then inl (StatsRequestError "'since' must be before 'until'")
          else inr (start, stop)
      end
  end.

(** A range is never empty, and there are between 1 and 200 columns. *)
Lemma resolve_range_ok since until now a b : resolve_range since until now = inr (a, b) → a < b.
Proof.
  unfold resolve_range. destruct (parse_time until _) as [e|u]; [done|].
  destruct (parse_time since _) as [e|s]; [done|].
  destruct (Z.leb_spec (default now u) (default (default now u - DEFAULT_RANGE) s)); [done|].
  intros [= <- <-]. lia.
Qed.

Lemma parse_buckets_bounds value n : parse_buckets value = inr n → 1 ≤ n ≤ MAX_BUCKETS.
Proof.
  unfold parse_buckets, MAX_BUCKETS, DEFAULT_BUCKETS. destruct value as [v|]; [|intros [= <-]; lia].
  destruct (is_empty _); [intros [= <-]; lia|].
  destruct (py_int (strip v)) as [z|]; [|done]. intros [= <-]. lia.
Qed.
End Range.

(** ** Reading the runs *)

Section Collect.
Context {S E : Type}.
Context (query_executions : JobExecutionQuery → py S E (list JobExecution * Z)).

(** [runs.setdefault(execution.id or ..., execution)] for the runs of a page
    that started in the range; a run without an id is its own. *)
Definition add_run (since until : Z) (runs : list JobExecution) (e : JobExecution) : list JobExecution :=
  let started := as_utc (started_at e) in
  if (since <=? started) && (started <? until) then
    if truthy (id e) && bool_decide (id e ∈ map id runs) then runs else runs ++ [e]
  else runs.

Fixpoint collect_loop (fuel : nat) (ids : option (list string)) (since until off : Z)
    (runs : list JobExecution) : py S E (option (list JobExecution)) :=
  match fuel with
  | O => mret None
  | Datatypes.S fuel =>
      '(items, total) ← query_executions {| job_ids := ids; q_status := None;
        q_since := Some (utc since); limit := PAGE_SIZE; offset := off |};
      let runs := foldl (add_run since until) runs items in
      let off := off + Z.of_nat (length items) in
      if bool_decide (length items = 0%nat) || (Z.of_nat (length items) <? PAGE_SIZE) || (total <=? off)
      then mret (Some runs)
      else collect_loop fuel ids since until off runs
  end.

Definition collect_runs (fuel : nat) (ids : option (list string)) (since until : Z)
    : py S E (option (list JobExecution)) := collect_loop fuel ids since until 0 [].
End Collect.

(** ** Figures *)

Definition count_outcome (o : Outcome) (runs : list JobExecution) : Z :=
  Z.of_nat (length (List.filter (λ r, bool_decide (outcome_of (status r) = o)) runs)).

Record Summary := {
  total : Z;
  counts : Outcome → Z;
  success_rate : option Q;
  avg_duration : option Q;
  p95_duration : option Z;
  max_duration : option Z;
  last_failure : option string;
}.

Definition durations (runs : list JobExecution) : list Z :=
  py_sort Z.leb (omap (λ r, if bool_decide (outcome_of (status r) = Running) then None else duration r) runs).

(** [started > last_failure] *)
Definition latest_failure (runs : list JobExecution) : option Z :=
  foldl (λ acc r,
    if bool_decide (outcome_of (status r) = Failed) then
      let started := as_utc (started_at r) in
      match acc with
      | Some t => if t <? started then Some started else acc
      | None => Some started
      end
    else acc) None runs.

(** [math.ceil(0.95 * n) - 1] *)
Definition p95_index (n : nat) : Z := (95 * Z.of_nat n + 99) / 100 - 1.

Definition _summary (runs : list JobExecution) : Summary :=
  let ok := count_outcome Succeeded runs in
  let decided := ok + count_outcome Failed runs in
  let ds := durations runs in
  {| total := Z.of_nat (length runs);
     counts := λ o, count_outcome o runs;
     success_rate := if decided =? 0 then None else Some (inject_Z ok / inject_Z decided)%Q;
     avg_duration := match ds with
                     | [] => None
                     | _ => Some (inject_Z (foldl Z.add 0%Z ds) / inject_Z (Z.of_nat (length ds)))%Q
                     end;
     p95_duration := ds !! Z.to_nat (p95_index (length ds));
     max_duration := last ds;
     last_failure := iso_ms <$> latest_failure runs |}.

(** The column of a run: [int(offset // bucket_ms)], kept in range. *)
Definition column_index (since until buckets : Z) (e : JobExecution) : Z :=
  let off := as_utc (started_at e) - since in
  Z.min (Z.max (off * buckets / (until - since)) 0) (buckets - 1).

Definition column (since until buckets : Z) (runs : list JobExecution) (i : Z) (o : Outcome) : Z :=
  count_outcome o (List.filter (λ e, column_index since until buckets e =? i) runs).

Definition column_start (since until buckets i : Z) : Z :=
  since + (i * (until - since)) / buckets.

(** [by_job]: the runs of each job, in their order, by job id. *)
Definition job_keys (runs : list JobExecution) : list string :=
  py_sort String.leb (fromkeys [] (map job_id runs)).
Definition runs_of_job (runs : list JobExecution) (j : string) : list JobExecution :=
  List.filter (λ e, bool_decide (job_id e = j)) runs.

Record JobStats := {
  st_job : string;
  st_name : string;
  st_summary : Summary;
  st_recent : list (string * string * option Z);
}.

Definition job_stats (names : dict string (option string)) (runs : list JobExecution) (j : string) : JobStats :=
  let job_runs := sort_newest (runs_of_job runs j) in
  let nm := head (List.filter truthy (map job_name job_runs)) in
  {| st_job := j;
     st_name := match nm with
                | Some n => n
                | None => match dict_get j names with
                          | Some (Some n) => if truthy n then n else j
                          | _ => j
                          end
                end;
     st_summary := _summary job_runs;
     st_recent := map (λ r, (status r, iso_ms (as_utc (started_at r)), duration r))
                    (py_slice 0 RECENT_RUNS job_runs) |}.

Record Stats := {
  s_since : string;
  s_until : string;
  s_bucket_ms : Q;
  s_buckets : list (string * (Outcome → Z));
  s_totals : Summary;
  s_jobs : list JobStats;
}.

Definition compute_stats (runs : list JobExecution) (since until buckets : Z)
    (names : dict string (option string)) : Stats :=
  {| s_since := iso_ms since; s_until := iso_ms until;
     s_bucket_ms := (inject_Z (until - since) / inject_Z (1000 * buckets))%Q;
     s_buckets := map (λ i, (iso_ms (column_start since until buckets (Z.of_nat i)),
                             column since until buckets runs (Z.of_nat i)))
                    (seq 0 (Z.to_nat buckets));
     s_totals := _summary runs;
     s_jobs := map (job_stats names runs) (job_keys runs) |}.

(** ** The figures agree *)

Definition zsum (l : list Z) : Z := foldr Z.add 0 l.

Lemma zsum_app l k : zsum (l ++ k) = zsum l + zsum k.
Proof. induction l as [|x l IH]; simpl; [done|]. rewrite IH. lia. Qed.

Lemma zsum_map_add {A} (f g : A → Z) l : zsum (map (λ x, f x + g x) l) = zsum (map f l) + zsum (map g l).
Proof. induction l as [|x l IH]; simpl; [done|]. rewrite IH. lia. Qed.

Lemma zsum_zero {A} (f : A → Z) l : (∀ x, x ∈ l → f x = 0) → zsum (map f l) = 0.
Proof.
  induction l as [|x l IH]; simpl; [done|]. intros H. rewrite (H x) by (by left).
  rewrite IH; [done|]. intros y Hy. apply H. by right.
Qed.

Lemma zsum_indicator {A} `{EqDecision A} (x : A) (l : list A) :
  NoDup l → x ∈ l → zsum (map (λ y, if bool_decide (y = x) then 1 else 0) l) = 1.
Proof.
  induction 1 as [|y l Hy Hl IH]; [set_solver|]. intros [->|Hx]%elem_of_cons; simpl.
  - rewrite bool_decide_true by done. rewrite zsum_zero; [done|].
    intros z Hz. rewrite bool_decide_false; [done|]. by intros ->.
  - rewrite bool_decide_false by (by intros ->). by rewrite IH.
Qed.

(** Counting by a key that takes its values in a list without repetition. *)
Lemma zsum_filter {A K} `{EqDecision K} (key : A → K) (p : A → bool) (keys : list K) (l : list A) :
  NoDup keys → (∀ x, x ∈ l → key x ∈ keys) →
  zsum (map (λ k, Z.of_nat (length (List.filter p (List.filter (λ x, bool_decide (key x = k)) l)))) keys) =
  Z.of_nat (length (List.filter p l)).
Proof.
  intros Hk. induction l as [|x l IH]; intros Hin; simpl; [apply zsum_zero; done|].
  assert (∀ k, Z.of_nat (length (List.filter p
      (if bool_decide (key x = k) then x :: List.filter (λ x, bool_decide (key x = k)) l
       else List.filter (λ x, bool_decide (key x = k)) l))) =
    (if p x then (if bool_decide (k = key x) then 1 else 0) else 0) +
    Z.of_nat (length (List.filter p (List.filter (λ x, bool_decide (key x = k)) l)))) as Hstep.
  { intros k. rewrite (bool_decide_ext (k = key x) (key x = k)) by naive_solver.
    case_bool_decide; simpl; destruct (p x); simpl; lia. }
  rewrite (map_ext _ _ Hstep), zsum_map_add, IH by (intros; apply Hin; by right).
  destruct (p x) eqn:Hp; simpl.
  - rewrite zsum_indicator; [lia|done|]. apply Hin. by left.
  - by rewrite zsum_zero.
Qed.

Lemma filter_ext_list {A} (p q : A → bool) l : (∀ x, p x = q x) → List.filter p l = List.filter q l.
Proof. intros H. induction l as [|x l IH]; simpl; [done|]. by rewrite H, IH. Qed.

Lemma column_index_range since until buckets e :
  1 ≤ buckets → 0 ≤ column_index since until buckets e < buckets.
Proof. unfold column_index. lia. Qed.

(** The columns of the chart account for every run once: summed over the
    columns, each outcome counts as often as in the totals, and the outcomes
    together are all the runs; the jobs of the statistics are those of the runs,
    each once, and their totals add up to the number of runs. *)
Theorem stats_consistent runs since until buckets names o :
  1 ≤ buckets →
  let s := compute_stats runs since until buckets names in
  zsum (map (λ c, c.2 o) (s_buckets s)) = counts (s_totals s) o ∧
  total (s_totals s) = zsum (map (counts (s_totals s)) OUTCOMES) ∧
  NoDup (map st_job (s_jobs s)) ∧
  zsum (map (λ j, total (st_summary j)) (s_jobs s)) = total (s_totals s).
Proof.
  intros Hb s. subst s. cbn [s_buckets s_totals s_jobs compute_stats _summary counts total].
  assert (∀ l : list JobExecution, List.filter (λ _, true) l = l) as Htrue.
  { induction l; simpl; congruence. }
  split; [|split; [|split]].
  - rewrite map_map. cbn [snd]. unfold column, count_outcome.
    rewrite <- (zsum_filter (λ e, Z.to_nat (column_index since until buckets e))
      (λ r, bool_decide (outcome_of (status r) = o)) (seq 0 (Z.to_nat buckets)) runs).
    + f_equal. apply map_ext. intros i. do 3 f_equal. apply filter_ext_list. intros e.
      pose proof (column_index_range since until buckets e Hb).
      destruct (Z.eqb_spec (column_index since until buckets e) (Z.of_nat i)); case_bool_decide; lia.
    + apply NoDup_seq.
    + intros e _. pose proof (column_index_range since until buckets e Hb). apply elem_of_seq. lia.
  - pose proof (zsum_filter (λ r, outcome_of (status r)) (λ _, true) OUTCOMES runs) as H.
    rewrite Htrue in H. rewrite <- H.
    + f_equal. apply map_ext. intros k. unfold count_outcome. by rewrite Htrue.
    + by apply (bool_decide_unpack _).
    + intros r _. destruct (outcome_of (status r)); unfold OUTCOMES; set_solver.
  - rewrite map_map. cbn [st_job job_stats]. rewrite map_id. unfold job_keys.
    rewrite py_sort_perm. apply fromkeys_nodup.
  - rewrite map_map. cbn [st_summary job_stats total _summary]. unfold runs_of_job, sort_newest.
    pose proof (zsum_filter job_id (λ _, true) (job_keys runs) runs) as H. rewrite Htrue in H.
    rewrite <- H.
    + f_equal. apply map_ext. intros k. by rewrite py_sort_length, Htrue.
    + unfold job_keys. rewrite py_sort_perm. apply fromkeys_nodup.
    + intros e He. unfold job_keys. rewrite elem_of_py_sort, fromkeys_elem.
      split; [by apply list_elem_of_fmap_2|set_solver].
Qed.

(** A run that started in the range is drawn in the column of its time: the
    column's exact bounds enclose its start. *)
Theorem column_index_encloses since until buckets e :
  1 ≤ buckets → since ≤ as_utc (started_at e) < until →
  let i := column_index since until buckets e in
  i * (until - since) ≤ (as_utc (started_at e) - since) * buckets < (i + 1) * (until - since).
Proof.
  intros Hb Hs. unfold column_index. cbv zeta. set (t := as_utc (started_at e) - since).
  set (w := until - since). assert (0 < w) by (unfold w; lia). assert (0 ≤ t < w) by (unfold t, w; lia).
  assert (0 ≤ t * buckets / w) by (apply Z.div_pos; nia).
  assert (t * buckets / w < buckets) by (apply Z.div_lt_upper_bound; nia).
  rewrite Z.max_l, Z.min_l by lia.
  pose proof (Z.mul_div_le (t * buckets) w ltac:(lia)).
  pose proof (Z.mul_succ_div_gt (t * buckets) w ltac:(lia)). nia.
Qed.

(** ** The 95th percentile *)

Lemma p95_index_range n : (0 < n)%nat → 0 ≤ p95_index n < Z.of_nat n.
Proof.
  unfold p95_index. intros Hn. pose proof (Z.div_lt_upper_bound (95 * Z.of_nat n + 99) 100 (Z.of_nat n + 1)).
  pose proof (Z.div_le_lower_bound (95 * Z.of_nat n + 99) 100 1). lia.
Qed.

(** The 95th percentile is one of the durations, at least 95 in 100 of them
    are not above it, and it is not above the maximum; it is missing exactly
    when no run has a duration. *)
Theorem p95_nearest_rank runs :
  match p95_duration (_summary runs) with
  | None => durations runs = []
  | Some d => d ∈ durations runs ∧
      95 * Z.of_nat (length (durations runs)) ≤
        100 * Z.of_nat (length (List.filter (λ x, x <=? d) (durations runs))) ∧
      ∃ m, max_duration (_summary runs) = Some m ∧ d ≤ m
  end.
Proof.
  cbn [p95_duration max_duration _summary]. set (ds := durations runs).
  assert (StronglySorted (λ x y, (x <=? y) = true) ds) as Hsorted.
  { apply py_sort_sorted; intros; rewrite !Z.leb_le in *; lia. }
  destruct (decide (ds = [])) as [->|Hne]; [by rewrite lookup_nil|].
  assert (0 < length ds)%nat as Hlen by (destruct ds; [done|simpl; lia]).
  pose proof (p95_index_range _ Hlen) as Hi.
  destruct (lookup_lt_is_Some_2 ds (Z.to_nat (p95_index (length ds)))) as [d Hd]; [lia|]. rewrite Hd.
  set (i := Z.to_nat (p95_index (length ds))) in *.
  assert (∀ k x, ds !! k = Some x → (k ≤ i)%nat → x ≤ d) as Hbelow.
  { intros k x Hx Hk. destruct (decide (k = i)) as [->|]; [simplify_eq; lia|].
    apply Z.leb_le. eapply (StronglySorted_lookup_lt (λ x y, (x <=? y) = true)); [done..|lia]. }
  split; [by eapply list_elem_of_lookup_2|]. split.
  - assert (List.filter (λ x, x <=? d) (take (S i) ds) = take (S i) ds) as Htake.
    { assert (∀ x, x ∈ take (S i) ds → x ≤ d) as Hx.
      { intros x [k [Hk Hlt]]%elem_of_take. apply (Hbelow k); [done|lia]. }
      revert Hx. generalize (take (S i) ds). intros l; induction l as [|x l IH]; simpl; [done|].
      intros Hx. rewrite (proj2 (Z.leb_le x d)) by (apply Hx; by left).
      rewrite IH; [done|]. intros; apply Hx; by right. }
    rewrite <- (take_drop (S i) ds) at 2. rewrite List.filter_app, length_app, Htake, length_take.
    unfold i, p95_index in *.
    pose proof (Z.mul_succ_div_gt (95 * Z.of_nat (length ds) + 99) 100 ltac:(lia)). lia.
  - destruct (last ds) as [m|] eqn:Hm; [|by apply last_None in Hm]. exists m. split; [done|].
    rewrite last_lookup in Hm. destruct (decide (i = pred (length ds))) as [Heq|Hneq].
    { rewrite Heq in Hd. simplify_eq. lia. }
    apply Z.leb_le. eapply (StronglySorted_lookup_lt (λ x y, (x <=? y) = true)); [done..|lia].
Qed.

(** ** Reading every run *)

Section CollectSpec.
Context {S E : Type}.
Context (query_executions : JobExecutionQuery → py S E (list JobExecution * Z)).
Context (ids : option (list string)) (since until : Z) (s : S).
(** What the query lists, a page at a time. *)
Context (all : list JobExecution).
Context (query_pages : ∀ off, 0 ≤ off →
  query_executions {| job_ids := ids; q_status := None; q_since := Some (utc since);
                      limit := PAGE_SIZE; offset := off |} s =
  (inr (py_slice off (off + PAGE_SIZE) all, Z.of_nat (length all)), s)).

Lemma collect_loop_all fuel off runs :
  0 ≤ off → (length all - Z.to_nat off < fuel)%nat →
  collect_loop query_executions fuel ids since until off runs s =
  (inr (Some (foldl (add_run since until) runs (drop (Z.to_nat off) all))), s).
Proof.
  revert off runs. induction fuel as [|fuel IH]; intros off runs Ho Hf; [lia|]. cbn [collect_loop].
  rewrite py_bind_eq, query_pages, py_slice_nonneg by (unfold PAGE_SIZE; lia).
  set (items := take _ _). set (rest := drop (Z.to_nat off) all).
  assert (rest = items ++ drop (length items) rest) as Hrest.
  { unfold items. fold rest. rewrite length_take.
    destruct (decide (Z.to_nat (off + PAGE_SIZE) - Z.to_nat off ≤ length rest)%nat).
    - rewrite Nat.min_l by done. by rewrite take_drop.
    - rewrite Nat.min_r, drop_all, app_nil_r by lia. by rewrite take_ge by lia. }
  assert (length rest = (length all - Z.to_nat off)%nat) as Hlr by (unfold rest; by rewrite length_drop).
  assert (length items = Nat.min (Z.to_nat PAGE_SIZE) (length rest)) as Hli.
  { unfold items. fold rest. rewrite length_take. unfold PAGE_SIZE in *. lia. }
  assert (rest = items → foldl (add_run since until) runs rest = foldl (add_run since until) runs items)
    as Hsame by by intros ->.
  unfold PAGE_SIZE in *.
  destruct (_ || _) eqn:Hstop.
  - unfold mret, py_ret. rewrite Hrest at 1. rewrite drop_ge; [by rewrite app_nil_r|].
    apply orb_true_iff in Hstop as [[H%bool_decide_eq_true|H%Z.ltb_lt]%orb_true_iff|H%Z.leb_le]; lia.
  - apply orb_false_iff in Hstop as [[H%bool_decide_eq_false _]%orb_false_iff H1%Z.leb_gt].
    rewrite IH by lia. do 3 f_equal. rewrite Hrest at 1. rewrite foldl_app. f_equal.
    unfold rest. rewrite drop_drop. f_equal. lia.
Qed.

Lemma foldl_add_run l runs :
  NoDup (map id (runs ++ l)) → Forall (λ e, id e ≠ "") l →
  foldl (add_run since until) runs l =
  runs ++ List.filter (λ e, (since <=? as_utc (started_at e)) && (as_utc (started_at e) <? until)) l.
Proof.
  revert runs; induction l as [|e l IH]; intros runs Hn Hid; simpl; [by rewrite app_nil_r|].
  inversion Hid as [|? ? Hne Hid']; subst. unfold add_run at 2. cbv zeta.
  assert (id e ∉ map id runs) as Hnew.
  { rewrite map_app in Hn. apply NoDup_app in Hn as (_ & Hn & _). intros Hin.
    apply (Hn _ Hin). simpl. by left. }
  destruct (_ && _).
  - rewrite (bool_decide_false (id e ∈ map id runs)) by done. rewrite andb_false_r.
    rewrite IH; [by rewrite <- app_assoc|by rewrite <- app_assoc|done].
  - apply IH; [|done]. rewrite map_app in *. simpl in Hn.
    apply NoDup_app in Hn as (? & Hn & [_ ?]%NoDup_cons). apply NoDup_app. split; [done|].
    split; [|done]. intros x Hx Hx'. apply (Hn x Hx). by right.
Qed.

(** The statistics are computed from every run that the query lists and
    that started in the range, each once, however many pages that takes (as
    much fuel as there are runs is enough). *)
Theorem collect_runs_all fuel :
  (length all < fuel)%nat → NoDup (map id all) → Forall (λ e, id e ≠ "") all →
  collect_runs query_executions fuel ids since until s =
  (inr (Some (List.filter
     (λ e, (since <=? as_utc (started_at e)) && (as_utc (started_at e) <? until)) all)), s).
Proof.
  intros Hf Hn Hid. unfold collect_runs. rewrite collect_loop_all by lia.
  change (Z.to_nat 0) with 0%nat. rewrite drop_0. by rewrite foldl_add_run.
Qed.
End CollectSpec.

(** ** Three runs *)
Module StatsExample.
Definition run (i j st : string) (us : Z) (d : option Z) : JobExecution :=
  {| id := i; job_id := j; job_name := j; status := st; started_at := utc us;
     completed_at := None; duration := d; error := None; logs := [];
     retry_attempt := 0; properties := [] |}.
Definition three : list JobExecution :=
  [run "c" "digest" "timed_out" 29000000 (Some 900); run "b" "rates" "Completed" 20000000 (Some 40);
   run "a" "digest" "running" 10000000 None].

Lemma stats_consistent_witness :
  zsum (map (λ c, c.2 Failed) (s_buckets (compute_stats three 0 30000000 3 []))) = 1.
Proof.
  destruct (stats_consistent three 0 30000000 3 [] Failed) as [-> _]; [lia|]. reflexivity.
Defined.

Lemma column_index_encloses_witness :
  2 * 30000000 ≤ (29000000 - 0) * 3 < 3 * 30000000.
Proof.
  apply (column_index_encloses 0 30000000 3 (run "c" "digest" "timed_out" 29000000 None)).
  - lia.
  - vm_compute. split; [discriminate|reflexivity].
Defined.

Definition query (q : JobExecutionQuery) : py unit unit (list JobExecution * Z) :=
  mret (py_slice (offset q) (offset q + limit q) three, 3).

Lemma collect_runs_all_witness :
  collect_runs query 4 None 15000000 25000000 tt = (inr (Some [run "b" "rates" "Completed" 20000000 (Some 40)]), tt).
Proof.
  rewrite (collect_runs_all query None 15000000 25000000 tt three).
  - reflexivity.
  - reflexivity.
  - vm_compute. lia.
  - apply (bool_decide_unpack _). vm_compute. exact I.
  - repeat constructor; vm_compute; discriminate.
Defined.
End StatsExample.
