(* ===== verification/UserModel.v ===== *)
(** * Users, sessions, tokens and groups ([models.py], [errors.py])

    Times are milliseconds since the epoch.  The identifiers and times that the
    dataclasses default to ([_new_id], [now_ms]) are arguments here: the stores
    draw them from the environment. *)

From S2P Require Import Prelude PyStr Values Commands.
From Stdlib Require Import Ascii.

(** The exceptions of the users plugin; [Failure] is any other [Exception],
    [Cancellation] is [asyncio.CancelledError], which [except Exception] lets
    through. *)
Inductive uexn :=
| UsersApiError (status_code : Z) (message : string)
| HTTPException (status : Z) (detail : string)
| LookupError (message : string)
| BadValue (message : string)
| Failure (message : string)
| Cancellation.

Definition bad_request (m : string) : uexn := UsersApiError 400 m.
Definition unauthorized (m : string) : uexn := UsersApiError 401 m.
Definition forbidden (m : string) : uexn := UsersApiError 403 m.
Definition not_found (m : string) : uexn := UsersApiError 404 m.
Definition conflict (m : string) : uexn := UsersApiError 409 m.

(** [exc.args[0]] *)
Definition uexn_text (e : uexn) : string :=
  match e with
  | UsersApiError _ m | LookupError m | BadValue m | Failure m | HTTPException _ m => m
  | Cancellation => ""
  end.

(** ** Records *)

Record User := {
  u_id : string;
  u_name : string;
  u_email : string;
  u_groups : list string;
  disabled : bool;
  must_change_password : bool;
  home_dir : option string;
  u_data : option (dict string pyval);
  last_login_at : option Z;
  u_created_at : Z;
  u_updated_at : Z;
}.

Record Credentials := {
  password_hash : string;
  salt : string;
  last_changed : Z;
}.

Record SessionMetadata := {
  remote_address : option string;
  user_agent : option string;
}.
Definition no_metadata : SessionMetadata := {| remote_address := None; user_agent := None |}.

Record Session := {
  s_id : string;
  token_hash : string;
  s_user_id : string;
  s_user_name : string;
  s_created_at : Z;
  last_activity : Z;
  metadata : SessionMetadata;
}.

Record ApiToken := {
  t_id : string;
  t_user_id : string;
  t_name : string;
  t_token_hash : string;
  t_created_at : Z;
  t_expires_at : option Z;
  last_used_at : option Z;
  t_permissions : option (list string);
}.

Record Group := {
  g_id : string;
  g_name : string;
  g_description : option string;
  g_permissions : list string;
  built_in : bool;
  g_created_at : Z;
  g_updated_at : Z;
}.

(** ** Expiry *)

(** [Session.expires_at] *)
Definition session_expires_at (s : Session) (timeout_ms : Z) (max_lifetime_ms : option Z) : Z :=
  let idle := last_activity s + timeout_ms in
  match max_lifetime_ms with
  | None => idle
  | Some l => Z.min idle (s_created_at s + l)
  end.

(** [ApiToken.is_expired] *)
Definition token_is_expired (t : ApiToken) (now : Z) : bool :=
  match t_expires_at t with
  | Some e => e <=? now
  | None => false
  end.

(** Using a session never carries it past its lifetime. *)
Lemma session_expires_at_le s timeout l :
  session_expires_at s timeout (Some l) ≤ s_created_at s + l.
Proof. unfold session_expires_at. lia. Qed.

(** ** JSON bodies *)

Definition opt_field {A} (k : string) (f : A → pyval) (o : option A) : dict string pyval :=
  match o with Some a => [(k, f a)] | None => [] end.
Definition strings (l : list string) : pyval := VList (map VStr l).

Definition user_to_dict (u : User) : dict string pyval :=
  [("id", VStr (u_id u)); ("name", VStr (u_name u)); ("email", VStr (u_email u));
   ("groups", strings (u_groups u)); ("disabled", VBool (disabled u));
   ("mustChangePassword", VBool (must_change_password u));
   ("createdAt", VInt (u_created_at u)); ("updatedAt", VInt (u_updated_at u))] ++
  opt_field "homeDir" VStr (home_dir u) ++
  opt_field "lastLoginAt" VInt (last_login_at u) ++
  opt_field "data" VDict (u_data u).

Definition metadata_to_dict (m : SessionMetadata) : dict string pyval :=
  opt_field "userAgent" VStr (user_agent m) ++ opt_field "remoteAddress" VStr (remote_address m).

Definition to_listing_dict (s : Session) (timeout_ms : Z) (max_lifetime_ms : option Z)
    (user_name : option string) (current : option bool) : dict string pyval :=
  [("id", VStr (s_id s)); ("userId", VStr (s_user_id s));
   ("userName", VStr (default (s_user_name s) user_name));
   ("createdAt", VInt (s_created_at s)); ("lastActivity", VInt (last_activity s));
   ("expiresAt", VInt (session_expires_at s timeout_ms max_lifetime_ms));
   ("metadata", VDict (metadata_to_dict (metadata s)))] ++
  opt_field "current" VBool current.

Definition opt_z (o : option Z) : pyval := match o with Some z => VInt z | None => VNone end.

Definition to_view (t : ApiToken) (user_name : string) : dict string pyval :=
  [("id", VStr (t_id t)); ("name", VStr (t_name t)); ("userId", VStr (t_user_id t));
   ("userName", VStr user_name); ("createdAt", VInt (t_created_at t));
   ("expiresAt", opt_z (t_expires_at t)); ("lastUsedAt", opt_z (last_used_at t))] ++
  opt_field "permissions" strings (t_permissions t).

Definition group_to_dict (g : Group) : dict string pyval :=
  [("id", VStr (g_id g)); ("name", VStr (g_name g)); ("permissions", strings (g_permissions g));
   ("builtIn", VBool (built_in g)); ("createdAt", VInt (g_created_at g));
   ("updatedAt", VInt (g_updated_at g))] ++
  opt_field "description" VStr (g_description g).

(** ** Permissions the program names ([permissions.py]) *)
Definition USERS_READ : string := "users:read".
Definition GROUPS_READ : string := "groups:read".
Definition SESSIONS_READ : string := "sessions:read".
Definition ADMIN_GROUP : string := "admin".
Definition USERS_GROUP : string := "users".
