(* ===== verification/Validation.v ===== *)
(** * Input validation of the users plugin ([validation.py])

    The regular expressions are boolean functions on characters: [NAME_RE] and
    [PERMISSION_RE] are matched with a final [$], which in Python also matches
    before a newline that ends the string; [EMAIL_RE] is matched in full.  The
    model's strings have no surrogate, so only the control characters of
    [_CONTROL_RE] are left of it, and [has_lone_surrogates] is always false. *)

From S2P Require Import Prelude PyStr Values UserModel.
From Stdlib Require Import Ascii.

Definition NAME_MAX : nat := 64.
Definition EMAIL_MAX : nat := 254.
Definition PERMISSION_MAX : nat := 128.
Definition PERMISSIONS_PER_GROUP_MAX : nat := 100.
Definition DESCRIPTION_MAX : nat := 256.
Definition PASSWORD_MAX : nat := 1024.

(** ** Character classes *)

Definition is_letter (c : ascii) : bool :=
  let n := N_of_ascii c in ((65 <=? n) && (n <=? 90) || (97 <=? n) && (n <=? 122))%N.
Definition is_alnum (c : ascii) : bool := is_letter c || is_digit c.
Definition one_of (s : string) (c : ascii) : bool := existsb (Ascii.eqb c) (chars s).

Definition is_control (c : ascii) : bool :=
  let n := N_of_ascii c in ((n <=? 31) || (n =? 127))%N.

Definition newline : ascii := ascii_of_nat 10.

(** A final [$]: the text without one trailing newline may match as well. *)
Definition dollar (re : list ascii → bool) (s : string) : bool :=
  let l := chars s in
  re l ||
  match rev l with
  | c :: r => Ascii.eqb c newline && re (rev r)
  | [] => false
  end.

(** [^[A-Za-z0-9][A-Za-z0-9._@-]*$] *)
Definition name_chars (l : list ascii) : bool :=
  match l with
  | c :: l => is_alnum c && forallb (λ c, is_alnum c || one_of "._@-" c) l
  | [] => false
  end.
Definition NAME_RE : string → bool := dollar name_chars.

(** [*], or segments between colons of which all but the first may be [*] (in
    any case: the flag is [IGNORECASE]). *)
Definition permission_char (c : ascii) : bool := is_alnum c || one_of "_.-" c.
Definition permission_segment (w : list ascii) : bool :=
  negb (bool_decide (w = [])) && forallb permission_char w.
Definition permission_chars (l : list ascii) : bool :=
  bool_decide (l = ["*"%char]) ||
  match split_chars ":"%char l with
  | w :: ws => permission_segment w &&
      forallb (λ w, permission_segment w || bool_decide (w = ["*"%char])) ws
  | [] => false
  end.
Definition PERMISSION_RE : string → bool := dollar permission_chars.

(** A DNS label: 1 to 63 letters, digits and inner hyphens. *)
Definition dns_label (w : list ascii) : bool :=
  match w, last w with
  | c :: _, Some d =>
      is_alnum c && is_alnum d && forallb (λ c, is_alnum c || Ascii.eqb c "-"%char) w &&
      (length w <=? 63)%nat
  | _, _ => false
  end.
Definition top_level (w : list ascii) : bool :=
  forallb is_letter w && (2 <=? length w)%nat && (length w <=? 63)%nat.
Fixpoint labels_tld (ws : list (list ascii)) : bool :=
  match ws with
  | [] | [_] => false
  | [w; t] => dns_label w && top_level t
  | w :: ws => dns_label w && labels_tld ws
  end.
Definition email_domain (l : list ascii) : bool :=
  bool_decide (l = chars "localhost") || labels_tld (split_chars "."%char l).

Definition atext (c : ascii) : bool := is_alnum c || one_of "!#$%&'*+/=?^_`{|}~-" c.
Definition email_local (l : list ascii) : bool :=
  forallb (λ w, negb (bool_decide (w = [])) && forallb atext w) (split_chars "."%char l) &&
  (length l <=? 64)%nat.

(** Neither part of an address has an at sign. *)
Definition EMAIL_RE (s : string) : bool :=
  match split_chars "@"%char (chars s) with
  | [l; d] => email_local l && email_domain d
  | _ => false
  end.

(** ** The rules *)

Definition has_control_chars (s : string) : bool := existsb is_control (chars s).

(** [sanitize] of a text that is not [None]. *)
Definition clean_text (s : string) (max_len : nat) : string :=
  take_str max_len (str (List.filter (λ c, negb (is_control c)) (chars s))).
Definition sanitize (s : option string) (max_len : nat) : option string :=
  (λ s, clean_text s max_len) <$> s.

(** The size of the UTF-8 text of [json.dumps(v, separators=(",", ":"),
    ensure_ascii=False)]; [None] is its [TypeError]. *)
Definition json_char_size (c : ascii) : Z :=
  let n := N_of_ascii c in
  if (n =? 34)%N || (n =? 92)%N || ((8 <=? n) && (n <=? 10))%N || (n =? 12)%N || (n =? 13)%N then 2
  else if (n <=? 31)%N then 6
  else if (n <=? 127)%N then 1 else 2.
Definition json_str_size (s : string) : Z := 2 + foldr Z.add 0 (map json_char_size (chars s)).

(** The size of the items of a list or dict with the commas between them. *)
Fixpoint sizes (l : list (option Z)) : option Z :=
  match l with
  | [] => Some 0
  | [a] => a
  | a :: l => x ← a; y ← sizes l; Some (x + 1 + y)
  end.

Fixpoint json_size (v : pyval) : option Z :=
  match v with
  | VNone => Some 4
  | VBool b => Some (if b then 4 else 5)
  | VInt z => Some (Z.of_nat (len (str_of_Z z)))
  | VFloat repr => Some (Z.of_nat (len repr))
  | VStr s => Some (json_str_size s)
  | VTime _ => None
  | VList l => n ← sizes (map json_size l); Some (2 + n)
  | VDict d => n ← sizes (map (λ kv, n ← json_size kv.2; Some (json_str_size kv.1 + 1 + n)) d);
               Some (2 + n)
  end.

Definition DATA_MAX_BYTES : Z := 16 * 1024.

Section Rules.
Context {S : Type}.

Definition validate_name (value kind : string) : py S uexn string :=
  if is_empty value then raise (bad_request (kind +:+ " is required"))
  else if (NAME_MAX <? len value)%nat
  then raise (bad_request (kind +:+ " must be at most 64 characters"))
  else if negb (NAME_RE value)
  then raise (bad_request ("invalid " +:+ kind +:+ ": must start with a letter or digit and contain only letters, digits, '.', '_', '@' or '-'"))
  else mret value.

Definition validate_email (value : string) : py S uexn string :=
  if is_empty value then raise (bad_request "email is required")
  else if (EMAIL_MAX <? len value)%nat || has_control_chars value || negb (EMAIL_RE value)
  then raise (bad_request "invalid email")
  else mret value.

Definition validate_text (value : option string) (field : string) (max_len : nat)
    : py S uexn (option string) :=
  match value with
  | None => mret None
  | Some v =>
      if has_control_chars v then raise (bad_request (field +:+ " must not contain control characters"))
      else if (max_len <? len v)%nat
      then raise (bad_request (field +:+ " must be at most " +:+ str_of_nat max_len +:+ " characters"))
      else mret (Some v)
  end.

(** The loop of [validate_permissions] with its [out]. *)
Fixpoint add_permissions (out : list string) (l : list string) : py S uexn (list string) :=
  match l with
  | [] => mret out
  | raw :: l =>
      let p := strip raw in
      if is_empty p || (PERMISSION_MAX <? len p)%nat || negb (PERMISSION_RE p)
      then raise (bad_request ("invalid permission: " +:+ clean_text raw PERMISSION_MAX))
      else add_permissions (if bool_decide (lower p ∈ map lower out) then out else out ++ [p]) l
  end.

Definition validate_permissions (permissions : option (list string))
    : py S uexn (option (list string)) :=
  match permissions with
  | None => mret None
  | Some l =>
      if (PERMISSIONS_PER_GROUP_MAX <? length l)%nat
      then raise (bad_request "at most 100 permissions per group")
      else out ← add_permissions [] l; mret (Some out)
  end.

(** The rule on the [data] of a user; [DATA_MAX_BYTES] bytes of UTF-8. *)
Definition validate_data (data : option (dict string pyval)) : py S uexn (option (dict string pyval)) :=
  match data with
  | None => mret None
  | Some d =>
      match json_size (VDict d) with
      | None => raise (bad_request "invalid data")
      | Some n => if DATA_MAX_BYTES <? n then raise (bad_request "data must be at most 16384 bytes")
                  else mret data
      end
  end.
End Rules.

(** ** What the rules accept *)

Example name_ex : map NAME_RE ["ana"; "a.b@c-d"; "-a"; "a b"; ""] = [true; true; false; false; false].
Proof. reflexivity. Qed.
Example email_ex :
  map EMAIL_RE ["root@localhost"; "a.b+c@mail.example.org"; "a..b@example.org"; "a@b"; "a@-b.org"; "a@b.o1"; "a@b@c.org"]
  = [true; true; false; false; false; false; false].
Proof. reflexivity. Qed.
Example permission_ex :
  map PERMISSION_RE ["*"; "users:*"; "a:b:C"; "*:read"; "a::b"; ""] = [true; true; true; false; false; false].
Proof. reflexivity. Qed.
Example json_size_ex :
  json_size (VDict [("a", VList [VInt 10; VNone]); ("b", VStr "x")]) = Some 23 ∧
  json_size (VDict [("a", VTime 0)]) = None.
Proof. split; reflexivity. Qed.
