(* ===== verification/UserStores.v ===== *)
(** * The stores of the users plugin in memory ([stores/in_memory_*.py])

    Each store is a dictionary in insertion order; the records it hands out are
    copies ([deepcopy]), so here they are values.  The identifier of a new
    record and the current time are arguments.  The five dictionaries make up
    [Stores], the persistent state of the plugin. *)

From S2P Require Import Prelude PyStr Values UserModel.
From Stdlib Require Import Ascii.

(** ** Users, by id *)

Definition same_text (a b : string) : bool := bool_decide (lower a = lower b).

(** [_find]: by id, else by name. *)
Definition find_in (k : string) (d : dict string User) : option User :=
  match dict_get k d with
  | Some u => Some u
  | None => List.find (λ u, same_text (u_name u) k) (dict_values d)
  end.

(** The default [get_user_by_email] of [IUserStore]. *)
Definition find_email (email : string) (d : dict string User) : option User :=
  List.find (λ u, bool_decide (lower (u_email u) = lower (strip email))) (dict_values d).

(** The arguments of [create_user]. *)
Record NewUser := {
  n_name : string;
  n_email : string;
  n_groups : list string;
  n_data : option (dict string pyval);
  n_disabled : bool;
  n_home_dir : option string;
  n_must_change : bool;
}.

Definition new_user (i : string) (now : Z) (n : NewUser) : User :=
  {| u_id := i; u_name := n_name n; u_email := n_email n; u_groups := n_groups n;
     disabled := n_disabled n; must_change_password := n_must_change n;
     home_dir := n_home_dir n; u_data := n_data n; last_login_at := None;
     u_created_at := now; u_updated_at := now |}.

(** [create_user] refuses a name that is taken in any case. *)
Definition name_taken (n : string) (d : dict string User) : bool :=
  existsb (λ u, same_text (u_name u) n) (dict_values d).

(** The keyword arguments of [update_user]; [None] leaves a field as it is. *)
Record UserPatch := {
  p_name : option string;
  p_email : option string;
  p_groups : option (list string);
  p_disabled : option bool;
  p_data : option (dict string pyval);
  p_home_dir : option string;
  p_last_login : option Z;
  p_must_change : option bool;
}.
Definition no_patch : UserPatch :=
  {| p_name := None; p_email := None; p_groups := None; p_disabled := None; p_data := None;
     p_home_dir := None; p_last_login := None; p_must_change := None |}.

Definition or_else {A} (o p : option A) : option A := match o with Some _ => o | None => p end.

Definition apply_patch (p : UserPatch) (now : Z) (u : User) : User :=
  {| u_id := u_id u;
     u_name := default (u_name u) (p_name p);
     u_email := default (u_email u) (p_email p);
     u_groups := default (u_groups u) (p_groups p);
     disabled := default (disabled u) (p_disabled p);
     must_change_password := default (must_change_password u) (p_must_change p);
     home_dir := or_else (p_home_dir p) (home_dir u);
     u_data := or_else (p_data p) (u_data u);
     last_login_at := or_else (p_last_login p) (last_login_at u);
     u_created_at := u_created_at u;
     u_updated_at := now |}.

Definition update_user_in (i : string) (p : UserPatch) (now : Z) (d : dict string User)
    : (uexn + User) * dict string User :=
  match dict_get i d with
  | None => (inl (LookupError ("user not found: " +:+ i)), d)
  | Some u => (inr (apply_patch p now u), dict_set i (apply_patch p now u) d)
  end.

(** ** Sessions, by token hash *)

Definition new_session (i h uid uname : string) (m : SessionMetadata) (now : Z) : Session :=
  {| s_id := i; token_hash := h; s_user_id := uid; s_user_name := uname; s_created_at := now;
     last_activity := now; metadata := m |}.

Definition session_by_id (i : string) (d : dict string Session) : option Session :=
  List.find (λ s, bool_decide (s_id s = i)) (dict_values d).

(** [delete_session_by_id]: the first session with the id. *)
Fixpoint delete_session_id (i : string) (d : dict string Session) : dict string Session :=
  match d with
  | [] => []
  | (h, s) :: d => if decide (s_id s = i) then d else (h, s) :: delete_session_id i d
  end.

Definition delete_sessions_of (uid : string) (d : dict string Session) : dict string Session :=
  filter (λ kv, s_user_id kv.2 ≠ uid) d.

Definition touched (now : Z) (s : Session) : Session :=
  {| s_id := s_id s; token_hash := token_hash s; s_user_id := s_user_id s;
     s_user_name := s_user_name s; s_created_at := s_created_at s; last_activity := now;
     metadata := metadata s |}.

Definition touch_session (h : string) (now : Z) (d : dict string Session) : dict string Session :=
  match dict_get h d with
  | Some s => dict_set h (touched now s) d
  | None => d
  end.

(** [cleanup] *)
Definition idle_since (cutoff : Z) (d : dict string Session) : dict string Session :=
  filter (λ kv, cutoff ≤ last_activity kv.2) d.

(** ** Groups, by lower-cased name *)

Definition group_in (n : string) (d : dict string Group) : option Group := dict_get (lower n) d.

Definition new_group (i : string) (now : Z) (n : string) (desc : option string)
    (perms : list string) (b : bool) : Group :=
  {| g_id := i; g_name := n; g_description := desc; g_permissions := perms; built_in := b;
     g_created_at := now; g_updated_at := now |}.

Definition patch_group (desc : option string) (perms : option (list string)) (now : Z) (g : Group)
    : Group :=
  {| g_id := g_id g; g_name := g_name g; g_description := or_else desc (g_description g);
     g_permissions := default (g_permissions g) perms; built_in := built_in g;
     g_created_at := g_created_at g; g_updated_at := now |}.

Definition update_group_in (n : string) (desc : option string) (perms : option (list string))
    (now : Z) (d : dict string Group) : (uexn + Group) * dict string Group :=
  match group_in n d with
  | None => (inl (LookupError ("group not found: " +:+ n)), d)
  | Some g => (inr (patch_group desc perms now g), dict_set (lower n) (patch_group desc perms now g) d)
  end.

(** ** API tokens, by id *)

Definition token_by_hash (h : string) (d : dict string ApiToken) : option ApiToken :=
  List.find (λ t, bool_decide (t_token_hash t = h)) (dict_values d).

Definition tokens_of (uid : option string) (d : dict string ApiToken) : list ApiToken :=
  List.filter (λ t, match uid with None => true | Some u => bool_decide (t_user_id t = u) end)
    (dict_values d).

Definition delete_tokens_of (uid : string) (d : dict string ApiToken) : dict string ApiToken :=
  filter (λ kv, t_user_id kv.2 ≠ uid) d.

Definition used (now : Z) (t : ApiToken) : ApiToken :=
  {| t_id := t_id t; t_user_id := t_user_id t; t_name := t_name t; t_token_hash := t_token_hash t;
     t_created_at := t_created_at t; t_expires_at := t_expires_at t; last_used_at := Some now;
     t_permissions := t_permissions t |}.

Definition touch_token (i : string) (now : Z) (d : dict string ApiToken) : dict string ApiToken :=
  match dict_get i d with
  | Some t => dict_set i (used now t) d
  | None => d
  end.

(** ** The persistent state *)

Record Stores := {
  users : dict string User;
  sessions : dict string Session;
  credentials : dict string Credentials;
  groups : dict string Group;
  api_tokens : dict string ApiToken;
}.

Definition no_stores : Stores :=
  {| users := []; sessions := []; credentials := []; groups := []; api_tokens := [] |}.
Definition set_users (d : dict string User) (s : Stores) : Stores :=
  {| users := d; sessions := sessions s; credentials := credentials s; groups := groups s;
     api_tokens := api_tokens s |}.
Definition set_sessions (d : dict string Session) (s : Stores) : Stores :=
  {| users := users s; sessions := d; credentials := credentials s; groups := groups s;
     api_tokens := api_tokens s |}.
Definition set_credentials (d : dict string Credentials) (s : Stores) : Stores :=
  {| users := users s; sessions := sessions s; credentials := d; groups := groups s;
     api_tokens := api_tokens s |}.
Definition set_groups (d : dict string Group) (s : Stores) : Stores :=
  {| users := users s; sessions := sessions s; credentials := credentials s; groups := d;
     api_tokens := api_tokens s |}.
Definition set_tokens (d : dict string ApiToken) (s : Stores) : Stores :=
  {| users := users s; sessions := sessions s; credentials := credentials s; groups := groups s;
     api_tokens := d |}.

(** Every record is under its own key. *)
Record stores_ok (s : Stores) : Prop := {
  users_dict : dict_ok (users s);
  users_keyed : ∀ i u, (i, u) ∈ users s → u_id u = i;
  sessions_dict : dict_ok (sessions s);
  sessions_keyed : ∀ h x, (h, x) ∈ sessions s → token_hash x = h;
  sessions_ids : NoDup (map (s_id ∘ snd) (sessions s));
  groups_dict : dict_ok (groups s);
  groups_keyed : ∀ k g, (k, g) ∈ groups s → lower (g_name g) = k;
  tokens_dict : dict_ok (api_tokens s);
}.
