(* ===== verification/Throttle.v ===== *)
(** * Lockout and rate limit ([auth_service.py])

    [AuthService._lockouts] counts the failed attempts per account,
    [AuthService._rate] the attempts per client address.  Both are ordered
    dictionaries of at most [_MAX_TRACKED_KEYS] keys: the oldest one goes when a
    new one does not fit.  The methods are synchronous, so their clock stands
    still: [now] is both readings of [now_ms]. *)

From S2P Require Import Prelude PyStr.

Definition _MAX_TRACKED_KEYS : Z := 10000.

(** [while len(d) > _MAX_TRACKED_KEYS: d.popitem(last=False)] *)
Definition pop_excess {V} (d : dict string V) : dict string V :=
  drop (Z.to_nat (Z.of_nat (length d) - _MAX_TRACKED_KEYS)) d.

(** ** Lockout *)

Record _LockoutState := { failures : Z; locked_until : Z }.

Section Lockout.
Context (max_login_attempts lockout_ms : Z).
Implicit Types (d : dict string _LockoutState) (k : string) (now : Z).

(** [_state(key, True)]: the state, and the dictionary that has it. *)
Definition _state k d : _LockoutState * dict string _LockoutState :=
  match dict_get k d with
  | Some s => (s, d)
  | None => let s := {| failures := 0; locked_until := 0 |} in (s, pop_excess (dict_set k s d))
  end.

Definition is_locked k now d : bool * dict string _LockoutState :=
  match dict_get k d with
  | None => (false, d)
  | Some s =>
      if locked_until s =? 0 then (false, d)
      else if now <? locked_until s then (true, d)
      else (false, dict_del k d)
  end.

Definition failed_once now (s : _LockoutState) : _LockoutState :=
  if max_login_attempts <=? failures s + 1
  then {| failures := 0; locked_until := now + lockout_ms |}
  else {| failures := failures s + 1; locked_until := locked_until s |}.

Definition reserve_attempt k now d : bool * dict string _LockoutState :=
  let '(locked, d) := is_locked k now d in
  if locked then (false, d)
  else let '(s, d) := _state k d in (true, dict_set k (failed_once now s) d).

Definition reset_failures k d : dict string _LockoutState := dict_del k d.

(** ** What the lockout guarantees *)

(** What happens to the lockouts, in order: an attempt on a key at a time, or
    the reset of a key. *)
Inductive lock_op := Attempt (key : string) (at_ : Z) | Reset (key : string).

#[export] Instance lock_op_eq_dec : EqDecision lock_op.
Proof. solve_decision. Defined.

Definition op_key (o : lock_op) : string := match o with Attempt k _ | Reset k => k end.
Definition op_times (l : list lock_op) : list Z :=
  omap (λ o, match o with Attempt _ t => Some t | Reset _ => None end) l.

(** The dictionary after the operations, and the times of the attempts on [k]
    that were let through. *)
Fixpoint run_ops k (l : list lock_op) d : list Z * dict string _LockoutState :=
  match l with
  | [] => ([], d)
  | Attempt k' t :: l =>
      let '(ok, d) := reserve_attempt k' t d in
      let '(a, d) := run_ops k l d in
      (if ok && bool_decide (k' = k) then t :: a else a, d)
  | Reset k' :: l => run_ops k l (reset_failures k' d)
  end.

(** No more than [_MAX_TRACKED_KEYS] keys are in play. *)
Definition tracked (K : list string) d : Prop :=
  dict_ok d ∧ dict_keys d ⊆ K ∧ Z.of_nat (length K) ≤ _MAX_TRACKED_KEYS.

Lemma length_keys {V} (d : dict string V) : length (dict_keys d) = length d.
Proof. apply length_map. Qed.

Lemma pop_excess_id {V} (K : list string) (d : dict string V) :
  dict_ok d → dict_keys d ⊆ K → Z.of_nat (length K) ≤ _MAX_TRACKED_KEYS → pop_excess d = d.
Proof.
  intros Hd Hk HK. unfold pop_excess.
  assert (length d ≤ length K)%nat as Hl.
  { rewrite <- length_keys. by apply submseteq_length, NoDup_submseteq. }
  replace (Z.to_nat _) with O by lia. done.
Qed.

Lemma tracked_set K k s d : k ∈ K → tracked K d → tracked K (dict_set k s d).
Proof.
  intros Hk (Hd & Hs & HK). split_and!; [by apply dict_ok_set| |done].
  rewrite dict_keys_set. case_decide; set_solver.
Qed.

Lemma tracked_del K k d : tracked K d → tracked K (dict_del k d).
Proof.
  intros (Hd & Hs & HK). split_and!; [by apply dict_ok_del| |done].
  pose proof (dict_keys_del_subseteq k d). set_solver.
Qed.

Lemma reserve_attempt_at K k now d :
  k ∈ K → tracked K d →
  reserve_attempt k now d =
  let s := default {| failures := 0; locked_until := 0 |} (dict_get k d) in
  if locked_until s =? 0 then (true, dict_set k (failed_once now s) d)
  else if now <? locked_until s then (false, d)
  else (true, dict_set k (failed_once now {| failures := 0; locked_until := 0 |}) (dict_del k d)).
Proof.
  intros Hk HK. unfold reserve_attempt, is_locked, _state.
  assert (∀ s d', tracked K d' → pop_excess (dict_set k s d') = dict_set k s d') as Hpop.
  { intros s d' Hd'. destruct (tracked_set K k s d' Hk Hd') as (? & ? & ?). by eapply pop_excess_id. }
  assert (∀ s s' d' , dict_set k s (dict_set k s' d') = dict_set k s d') as Hset.
  { intros s s' d'. induction d' as [|[k0 v0] d' IH]; simpl; repeat (case_decide; simpl); congruence. }
  destruct (dict_get k d) as [s|] eqn:Hs; simpl.
  - destruct (locked_until s =? 0); [by rewrite Hs|].
    destruct (now <? locked_until s); [done|].
    rewrite dict_get_del_eq by apply HK. rewrite Hpop by by apply tracked_del. by rewrite Hset.
  - rewrite Hs, Hpop by done. by rewrite Hset.
Qed.

(** The state of a key [k], the attempts [a] on it that were let through
    (oldest first) and the time of the last operation. *)
Definition lock_inv k d (a : list Z) (now : Z) : Prop :=
  (∀ i x y, a !! i = Some x → a !! (i + Z.to_nat max_login_attempts)%nat = Some y →
     x + lockout_ms ≤ y) ∧
  (∀ x, x ∈ a → x ≤ now) ∧
  match dict_get k d with
  | None => ∀ x, x ∈ a → x + lockout_ms ≤ now
  | Some s =>
      if locked_until s =? 0 then
        0 ≤ failures s < max_login_attempts ∧
        ∀ x, x ∈ take (length a - Z.to_nat (failures s)) a → x + lockout_ms ≤ now
      else failures s = 0 ∧ ∀ x, x ∈ a → x + lockout_ms ≤ locked_until s
  end.

Lemma lock_inv_time k d a now now' : now ≤ now' → lock_inv k d a now → lock_inv k d a now'.
Proof.
  intros Hle (Hg & Hn & Hs). split_and!; [done|intros x Hx%Hn; lia|].
  destruct (dict_get k d) as [s|]; [|intros x Hx%Hs; lia].
  destruct (locked_until s =? 0); [|done]. destruct Hs as [? Hs]. split; [done|].
  intros x Hx%Hs. lia.
Qed.

(** Letting one more attempt through, from a state with [f] failures. *)
Lemma lock_inv_admit k d a now s d' :
  0 < now → 0 ≤ lockout_ms →
  0 ≤ failures s < max_login_attempts → locked_until s = 0 →
  (∀ i x y, a !! i = Some x → a !! (i + Z.to_nat max_login_attempts)%nat = Some y →
     x + lockout_ms ≤ y) →
  (∀ x, x ∈ a → x ≤ now) →
  (∀ x, x ∈ take (length a - Z.to_nat (failures s)) a → x + lockout_ms ≤ now) →
  lock_inv k (dict_set k (failed_once now s) d') (a ++ [now]) now.
Proof.
  intros Hnow Hlo Hf Hl Hg Hn Hold. split_and!.
  - intros i x y Hx Hy. rewrite lookup_app in Hy.
    destruct (a !! (i + _)%nat) as [y'|] eqn:Ey.
    { injection Hy as ->. apply (Hg i); [|done]. rewrite lookup_app_l in Hx; [done|].
      apply lookup_lt_Some in Ey. lia. }
    pose proof (lookup_lt_Some _ _ _ Hy) as Hlt. apply list_lookup_singleton_Some in Hy as [Hi <-].
    apply lookup_ge_None in Ey. simpl in Hlt.
    apply Hold. rewrite lookup_app_l in Hx by lia.
    apply (list_elem_of_lookup_2 _ i). rewrite lookup_take, decide_True by lia. done.
  - intros x [Hx|Hx]%elem_of_app; [by apply Hn|]. apply list_elem_of_singleton in Hx. lia.
  - rewrite dict_get_set_eq. unfold failed_once.
    destruct (Z.leb_spec max_login_attempts (failures s + 1)); simpl.
    + destruct (Z.eqb_spec (now + lockout_ms) 0); [lia|]. split; [done|].
      intros x [Hx%Hn|Hx]%elem_of_app; [lia|]. apply list_elem_of_singleton in Hx. lia.
    + rewrite Hl. simpl. split; [lia|]. intros x Hx. apply Hold.
      rewrite length_app, take_app_le in Hx by (simpl; lia).
      replace (length a - Z.to_nat (failures s))%nat
        with (length a + length [now] - Z.to_nat (failures s + 1))%nat by (simpl; lia).
      done.
Qed.

Lemma lock_inv_reserve K k d a now now' :
  k ∈ K → tracked K d → 0 < now' → now ≤ now' → 0 ≤ lockout_ms → 0 < max_login_attempts →
  lock_inv k d a now →
  let '(ok, d') := reserve_attempt k now' d in
  lock_inv k d' (if ok then a ++ [now'] else a) now'.
Proof.
  intros Hk HK Hpos Hle Hlo Hmax H%(lock_inv_time k d a now now' Hle).
  rewrite (reserve_attempt_at K) by done. destruct H as (Hg & Hn & Hs).
  destruct (dict_get k d) as [s|] eqn:E; simpl.
  - destruct (Z.eqb_spec (locked_until s) 0) as [Hl|Hl]; simpl in Hs.
    + destruct Hs. by apply lock_inv_admit.
    + destruct Hs as [Hf Hs]. destruct (Z.ltb_spec now' (locked_until s)).
      * split_and!; [done..|]. rewrite E. by rewrite (proj2 (Z.eqb_neq _ _) Hl).
      * apply lock_inv_admit; simpl; [done..|lia|done|done|done|].
        intros x Hx. rewrite Nat.sub_0_r, firstn_all in Hx. apply Hs in Hx. lia.
  - apply lock_inv_admit; simpl; [done..|lia|done|done|done|].
    intros x Hx. rewrite Nat.sub_0_r, firstn_all in Hx. by apply Hs in Hx.
Qed.

Lemma dict_get_reserve_ne K k k' now d :
  k' ∈ K → tracked K d → k' ≠ k → dict_get k (reserve_attempt k' now d).2 = dict_get k d.
Proof.
  intros Hk HK Hne. rewrite (reserve_attempt_at K) by done. simpl.
  repeat case_match; simpl; rewrite ?dict_get_set_ne, ?dict_get_del_ne by done; done.
Qed.

Lemma tracked_reserve K k now d : k ∈ K → tracked K d → tracked K (reserve_attempt k now d).2.
Proof.
  intros Hk HK. rewrite (reserve_attempt_at K) by done. simpl.
  repeat case_match; simpl; auto using tracked_set, tracked_del.
Qed.

Lemma run_ops_inv K k l d a now :
  k ∈ K → tracked K d → map op_key l ⊆ K → 0 < now →
  StronglySorted Z.le (now :: op_times l) → 0 ≤ lockout_ms → 0 < max_login_attempts →
  Reset k ∉ l → lock_inv k d a now →
  ∃ now', lock_inv k (run_ops k l d).2 (a ++ (run_ops k l d).1) now'.
Proof.
  intros Hk. revert d a now.
  induction l as [|[k' t|k'] l IH]; intros d a now HK Hl Hpos Hs Hlo Hmax Hr Hinv; simpl in *.
  - exists now. by rewrite app_nil_r.
  - inversion Hs as [|? ? Hs' Hle]; subst.
    assert (now ≤ t) as Hnt by (by inversion Hle). assert (k' ∈ K) as Hk' by set_solver.
    pose proof (tracked_reserve K k' t d Hk' HK) as HK'.
    assert (lock_inv k (reserve_attempt k' t d).2
      (a ++ (if (reserve_attempt k' t d).1 && bool_decide (k' = k) then [t] else [])) t) as Hinv'.
    { destruct (decide (k' = k)) as [->|Hne].
      - rewrite bool_decide_true, andb_true_r by done.
        pose proof (lock_inv_reserve K k d a now t Hk HK ltac:(lia) Hnt Hlo Hmax Hinv) as H.
        destruct (reserve_attempt k t d) as [[] d']; [done|]. simpl. by rewrite app_nil_r.
      - rewrite bool_decide_false, andb_false_r, app_nil_r by done.
        apply (lock_inv_time k d a now t Hnt) in Hinv. destruct Hinv as (? & ? & ?).
        split_and!; [done..|]. by rewrite (dict_get_reserve_ne K). }
    destruct (reserve_attempt k' t d) as [ok d'] eqn:E. simpl in *.
    destruct (IH d' _ t HK' ltac:(set_solver) ltac:(lia) Hs' Hlo Hmax ltac:(set_solver) Hinv')
      as [now' H]. exists now'.
    destruct (run_ops k l d') as [b d'']. simpl in *. rewrite <- app_assoc in H.
    by destruct (ok && bool_decide (k' = k)).
  - assert (k' ≠ k) as Hne by set_solver.
    destruct (IH (reset_failures k' d) a now) as [now' H];
      [by apply tracked_del|set_solver|done|done|done|done|set_solver| |by exists now'].
    destruct Hinv as (? & ? & ?). split_and!; [done..|]. unfold reset_failures.
    by rewrite dict_get_del_ne.
Qed.

(** Whatever is attempted on other accounts, and however the attempts on
    one account are timed, of the attempts on it that are let through any
    [max_login_attempts + 1] in a row span at least [lockout_ms] (as long as no
    login of the account resets its counter, and no more accounts than the
    table holds are being attacked). *)
Theorem lockout_limits K k l :
  k ∈ K → map op_key l ⊆ K → Z.of_nat (length K) ≤ _MAX_TRACKED_KEYS →
  Forall (λ t, 0 < t) (op_times l) → StronglySorted Z.le (op_times l) →
  0 ≤ lockout_ms → 0 < max_login_attempts → Reset k ∉ l →
  ∀ i x y, (run_ops k l []).1 !! i = Some x →
    (run_ops k l []).1 !! (i + Z.to_nat max_login_attempts)%nat = Some y →
    x + lockout_ms ≤ y.
Proof.
  intros Hk Hl HK Hpos Hs Hlo Hmax Hr i x y.
  destruct (run_ops_inv K k l [] [] 1) as [now' (Hg & _)]; [done| |done|lia| |done|done|done| |].
  - split_and!; [constructor|set_solver|done].
  - constructor; [done|]. eapply Forall_impl; [exact Hpos|]. simpl. lia.
  - split_and!; simpl; [|set_solver..]. intros j u v H. by rewrite lookup_nil in H.
  - apply Hg.
Qed.
End Lockout.

(** An attempt on an account that is not tracked yet drops the oldest account
    of a full table, locked or not: an attacker who can try enough names (the
    names need not exist) unlocks the account it is attacking. *)
Theorem lockout_evicted m lo k s d k' now :
  dict_ok ((k, s) :: d) → Z.of_nat (length ((k, s) :: d)) = _MAX_TRACKED_KEYS →
  k' ∉ dict_keys ((k, s) :: d) →
  dict_get k (reserve_attempt m lo k' now ((k, s) :: d)).2 = None.
Proof.
  intros Hd Hlen Hk'. unfold reserve_attempt, is_locked, _state.
  apply dict_get_None in Hk' as Hg. rewrite Hg. cbv beta iota. rewrite Hg. cbv beta iota zeta.
  assert (pop_excess (dict_set k' {| failures := 0; locked_until := 0 |} ((k, s) :: d))
          = d ++ [(k', {| failures := 0; locked_until := 0 |})]) as ->.
  { assert (∀ (d' : dict string _LockoutState) v, k' ∉ dict_keys d' → dict_set k' v d' = d' ++ [(k', v)]) as Hset.
    { intros d' v H. induction d' as [|[k0 v0] d' IH]; [done|]. unfold dict_keys in *.
      rewrite fmap_cons in H. simpl. rewrite decide_False by set_solver. rewrite IH by set_solver. done. }
    rewrite Hset by done. unfold pop_excess. rewrite length_app, Nat2Z.inj_add, Hlen.
    change (length [_]) with 1%nat. unfold _MAX_TRACKED_KEYS.
    replace (Z.to_nat (10000 + Z.of_nat 1 - 10000)) with 1%nat by lia. done. }
  unfold dict_ok, dict_keys in *. rewrite fmap_cons in Hd, Hk'. apply NoDup_cons in Hd as [Hk Hd].
  cbn [snd]. rewrite dict_get_set_ne by set_solver. apply dict_get_None. unfold dict_keys.
  rewrite fmap_app. simpl in *. set_solver.
Qed.

(** ** Rate limit *)

Section Rate.
Context (rate_limit_attempts rate_limit_window_ms : Z).
Implicit Types (d : dict string (list Z)) (ip : string) (now : Z).

(** [while window and window[0] <= cutoff: window.popleft()] *)
Fixpoint drop_old (cutoff : Z) (w : list Z) : list Z :=
  match w with
  | t :: w' => if t <=? cutoff then drop_old cutoff w' else w
  | [] => []
  end.

(** [check_rate_limit] for a client address; [false] is the answer 429. *)
Definition check_rate ip now d : bool * dict string (list Z) :=
  let '(window, d) := match dict_get ip d with
                      | Some w => (w, d)
                      | None => ([], pop_excess (dict_set ip [] d))
                      end in
  let window := drop_old (now - rate_limit_window_ms) window in
  if rate_limit_attempts <=? Z.of_nat (length window)
  then (false, dict_set ip window d)
  else (true, dict_set ip (window ++ [now]) d).

(** Requests in order, with their address and time: the table afterwards and
    the times of those of [ip] that were accepted. *)
Fixpoint run_requests ip (l : list (string * Z)) d : list Z * dict string (list Z) :=
  match l with
  | [] => ([], d)
  | (ip', t) :: l =>
      let '(ok, d) := check_rate ip' t d in
      let '(a, d) := run_requests ip l d in
      (if ok && bool_decide (ip' = ip) then t :: a else a, d)
  end.

(** The accepted requests of the last window. *)
Definition recent (now : Z) (a : list Z) : list Z :=
  List.filter (λ t, now - rate_limit_window_ms <? t) a.

Lemma drop_old_filter cutoff a :
  StronglySorted Z.le a → drop_old cutoff a = List.filter (λ t, cutoff <? t) a.
Proof.
  induction 1 as [|t a _ IH Ht]; simpl; [done|].
  destruct (Z.leb_spec t cutoff), (Z.ltb_spec cutoff t); try lia; [done|]. f_equal. symmetry.
  clear IH. induction Ht as [|u a Hu _ IH]; simpl; [done|].
  destruct (Z.ltb_spec cutoff u); [|lia]. by rewrite IH.
Qed.

Lemma filter_filter_lt c c' (a : list Z) :
  c ≤ c' →
  List.filter (λ t, c' <? t) (List.filter (λ t, c <? t) a) = List.filter (λ t, c' <? t) a.
Proof.
  intros Hc. induction a as [|t a IH]; simpl; [done|].
  destruct (Z.ltb_spec c t); simpl; destruct (Z.ltb_spec c' t); try lia; by rewrite ?IH.
Qed.

(** The deque of [ip] holds the accepted requests of its last window. *)
Definition rate_inv (K : list string) ip d (a : list Z) (now : Z) : Prop :=
  (dict_ok d ∧ dict_keys d ⊆ K ∧ Z.of_nat (length K) ≤ _MAX_TRACKED_KEYS) ∧
  StronglySorted Z.le a ∧ (∀ t, t ∈ a → t ≤ now) ∧
  ∃ last, last ≤ now ∧ default [] (dict_get ip d) = recent last a.

Lemma recent_sorted now a : StronglySorted Z.le a → StronglySorted Z.le (recent now a).
Proof.
  unfold recent. induction 1 as [|t a _ IH Ht]; simpl; [constructor|].
  destruct (_ <? t); [|done]. constructor; [done|]. rewrite Forall_forall in *.
  intros x Hx. apply Ht. apply list_elem_of_In in Hx. apply filter_In in Hx as [Hx _].
  by apply list_elem_of_In.
Qed.

Lemma drop_old_recent now last a :
  StronglySorted Z.le a → last ≤ now →
  drop_old (now - rate_limit_window_ms) (recent last a) = recent now a.
Proof.
  intros Ha Hl. rewrite drop_old_filter by by apply recent_sorted.
  unfold recent. apply filter_filter_lt. lia.
Qed.

Lemma check_rate_eq K ip now d :
  ip ∈ K → dict_ok d → dict_keys d ⊆ K → Z.of_nat (length K) ≤ _MAX_TRACKED_KEYS →
  check_rate ip now d =
  let window := drop_old (now - rate_limit_window_ms) (default [] (dict_get ip d)) in
  if rate_limit_attempts <=? Z.of_nat (length window)
  then (false, dict_set ip window d) else (true, dict_set ip (window ++ [now]) d).
Proof.
  intros Hip Hd Hk HK. unfold check_rate. destruct (dict_get ip d) as [w|] eqn:E; [done|]. simpl.
  rewrite (pop_excess_id K).
  - assert (∀ s s', dict_set ip s (dict_set ip s' d) = dict_set ip s d) as Hset.
    { intros s s'. clear. induction d as [|[k0 v0] d IH]; simpl; repeat (case_decide; simpl); congruence. }
    by rewrite !Hset.
  - by apply dict_ok_set.
  - rewrite dict_keys_set. case_decide; set_solver.
  - done.
Qed.

Lemma check_rate_inv K ip d a last now :
  0 < rate_limit_window_ms → ip ∈ K → last ≤ now → rate_inv K ip d a last →
  rate_inv K ip (check_rate ip now d).2 (if (check_rate ip now d).1 then a ++ [now] else a) now ∧
  (check_rate ip now d).1 = (Z.of_nat (length (recent now a)) <? rate_limit_attempts).
Proof.
  intros Hwin Hip Hle ((Hd & Hk & HK) & Ha & Hn & l & Hl & Hw).
  rewrite (check_rate_eq K) by done. cbv zeta. rewrite Hw, drop_old_recent by (done || lia).
  assert (∀ w, dict_ok (dict_set ip w d) ∧ dict_keys (dict_set ip w d) ⊆ K ∧
               Z.of_nat (length K) ≤ _MAX_TRACKED_KEYS) as Htab.
  { intros w. split_and!; [by apply dict_ok_set| |done]. rewrite dict_keys_set. case_decide; set_solver. }
  destruct (Z.leb_spec rate_limit_attempts (Z.of_nat (length (recent now a)))); cbn [fst snd].
  - split; [|symmetry; apply Z.ltb_ge; lia]. split; [apply Htab|]. split; [done|]. split.
    + intros t Ht%Hn. lia.
    + exists now. split; [lia|]. by rewrite dict_get_set_eq.
  - split; [|symmetry; apply Z.ltb_lt; lia]. split; [apply Htab|]. split; [|split].
    + apply StronglySorted_app. split_and!; [|done|repeat constructor].
      intros x y Hx%Hn Hy%list_elem_of_singleton. lia.
    + intros t [Ht%Hn|Ht%list_elem_of_singleton]%elem_of_app; lia.
    + exists now. split; [lia|]. rewrite dict_get_set_eq. simpl. unfold recent.
      rewrite List.filter_app. simpl. destruct (Z.ltb_spec (now - rate_limit_window_ms) now); [done|lia].
Qed.

Lemma dict_get_check_ne K ip ip' now d :
  ip' ∈ K → dict_ok d → dict_keys d ⊆ K → Z.of_nat (length K) ≤ _MAX_TRACKED_KEYS → ip' ≠ ip →
  dict_get ip (check_rate ip' now d).2 = dict_get ip d.
Proof.
  intros. rewrite (check_rate_eq K) by done. cbv zeta.
  destruct (_ <=? _); cbn [snd]; by apply dict_get_set_ne.
Qed.

Lemma run_requests_inv K ip l d a now :
  0 < rate_limit_window_ms → ip ∈ K → l.*1 ⊆ K → StronglySorted Z.le (now :: l.*2) → rate_inv K ip d a now →
  ∃ last, (∀ m, now ≤ m → (∀ t, t ∈ l.*2 → t ≤ m) → last ≤ m) ∧
    rate_inv K ip (run_requests ip l d).2 (a ++ (run_requests ip l d).1) last.
Proof.
  intros Hwin Hip. revert d a now. induction l as [|[ip' t] l IH]; intros d a now Hl Hs Hinv; simpl in *.
  { exists now. rewrite app_nil_r. by split; [intros m Hm _|]. }
  inversion Hs as [|? ? Hs' Hle]; subst.
  assert (now ≤ t) as Hnt by (by inversion Hle). assert (ip' ∈ K) as Hip' by set_solver.
  assert (rate_inv K ip (check_rate ip' t d).2
    (a ++ (if (check_rate ip' t d).1 && bool_decide (ip' = ip) then [t] else [])) t) as Hinv'.
  { destruct (decide (ip' = ip)) as [->|Hne].
    - rewrite bool_decide_true, andb_true_r by done.
      destruct (check_rate_inv K ip d a now t) as [H _]; [done..|].
      destruct (check_rate ip t d).1; [done|]. by rewrite app_nil_r.
    - rewrite bool_decide_false, andb_false_r, app_nil_r by done.
      destruct Hinv as ((Hd & Hk & HK) & Ha & Hn & lst & Hlst & Hw).
      split_and!; [| | |done| |].
      + rewrite (check_rate_eq K) by done. cbv zeta. destruct (_ <=? _); by apply dict_ok_set.
      + rewrite (check_rate_eq K) by done. cbv zeta.
        destruct (_ <=? _); cbn [snd]; rewrite dict_keys_set; case_decide; set_solver.
      + done.
      + intros x Hx%Hn. lia.
      + exists lst. split; [lia|]. by rewrite (dict_get_check_ne K) by done. }
  destruct (check_rate ip' t d) as [ok d'] eqn:E. cbn [fst snd] in *.
  destruct (IH d' _ t ltac:(set_solver) Hs' Hinv') as (last & Hlast & H). exists last.
  destruct (run_requests ip l d') as [b d'']. cbn [fst snd] in *. rewrite <- app_assoc in H.
  split.
  - intros m Hm Ht. apply Hlast; [|intros; apply Ht; set_solver].
    apply Ht. set_solver.
  - by destruct (ok && bool_decide (ip' = ip)).
Qed.

(** The rate limit is an exact sliding window: whatever requests came
    before, a request of an address is accepted exactly when fewer than
    [rate_limit_attempts] requests of that address were accepted in the last
    [rate_limit_window_ms] (as long as the table holds the addresses). *)
Theorem rate_limit_window K ip l now :
  ip ∈ K → l.*1 ⊆ K → Z.of_nat (length K) ≤ _MAX_TRACKED_KEYS →
  0 < rate_limit_window_ms → StronglySorted Z.le (l.*2 ++ [now]) →
  let '(accepted, d) := run_requests ip l [] in
  (check_rate ip now d).1 = true ↔ Z.of_nat (length (recent now accepted)) < rate_limit_attempts.
Proof.
  intros Hip Hl HK Hw Hs.
  apply StronglySorted_app in Hs as (Hcross & Hs & _).
  assert (∀ t, t ∈ l.*2 → t ≤ now) as Hnow.
  { intros t Ht. apply Hcross; [done|]. by apply list_elem_of_singleton. }
  set (t0 := hd now l.*2).
  assert (rate_inv K ip [] [] t0) as Hinv0.
  { split_and!; [constructor|set_solver|done|constructor|set_solver|]. by exists t0. }
  assert (StronglySorted Z.le (t0 :: l.*2)) as Hs0.
  { constructor; [done|]. unfold t0. destruct Hs; simpl; [constructor|]. by constructor. }
  destruct (run_requests_inv K ip l [] [] t0 Hw Hip Hl Hs0 Hinv0) as (last & Hlast & H).
  destruct (run_requests ip l []) as [acc d]. simpl in H.
  destruct (check_rate_inv K ip d acc last now) as [_ ->]; [done|done| |done|by rewrite Z.ltb_lt].
  apply Hlast; [|done]. unfold t0. destruct l as [|[ip' t] l]; simpl in *; [done|].
  apply Hnow. set_solver.
Qed.
End Rate.

(** ** Two accounts and two addresses under attack *)
Module ThrottleExample.
Definition attack : list lock_op :=
  [Attempt "root" 10; Attempt "root" 11; Reset "ana"; Attempt "ana" 12; Attempt "root" 13;
   Attempt "root" 14; Attempt "root" 113; Attempt "root" 114; Attempt "root" 115].

(** Three attempts are let through, then none for 100 ms. *)
Example attack_run : (run_ops 3 100 "root" attack []).1 = [10; 11; 13; 113; 114; 115].
Proof. vm_compute. reflexivity. Qed.

Lemma lockout_limits_witness : 10 + 100 ≤ 113.
Proof.
  apply (lockout_limits 3 100 ["root"; "ana"] "root" attack) with (i := 0%nat).
  - apply (bool_decide_unpack _). vm_compute. exact I.
  - apply (bool_decide_unpack _). vm_compute. exact I.
  - vm_compute. discriminate.
  - repeat constructor.
  - repeat constructor; discriminate.
  - lia.
  - lia.
  - apply (bool_decide_unpack _). vm_compute. exact I.
  - reflexivity.
  - reflexivity.
Defined.

Definition requests : list (string * Z) :=
  [("10.0.0.1", 5); ("10.0.0.2", 6); ("10.0.0.1", 8); ("10.0.0.1", 9); ("10.0.0.1", 15)].

Lemma rate_limit_window_witness :
  let '(accepted, d) := run_requests 2 10 "10.0.0.1" requests [] in
  accepted = [5; 8; 15] ∧
  ((check_rate 2 10 "10.0.0.1" 17 d).1 = true ↔ Z.of_nat (length (recent 10 17 accepted)) < 2).
Proof.
  pose proof (rate_limit_window 2 10 ["10.0.0.1"; "10.0.0.2"] "10.0.0.1" requests 17) as H.
  destruct (run_requests 2 10 "10.0.0.1" requests []) as [acc d] eqn:E.
  split; [vm_compute in E; by injection E as <- _|]. apply H.
  - apply (bool_decide_unpack _). vm_compute. exact I.
  - apply (bool_decide_unpack _). vm_compute. exact I.
  - vm_compute. discriminate.
  - lia.
  - repeat constructor; discriminate.
Defined.
End ThrottleExample.
