(* ===== verification/PasswordHasher.v ===== *)
(** * Password hashing ([password_hasher.py])

    [pbkdf2] and [sha256_hex] stand for [hashlib.pbkdf2_hmac("sha256", ...)] and
    the hexadecimal [hashlib.sha256]; of the first the proofs use that it
    returns as many bytes as it is asked for.  Byte strings are strings whose
    characters are the bytes.  [base64] is modelled: its decoder skips what is
    not of the alphabet and stops at a complete padding.  [Async] has the
    [_async] versions: work for the threads of the executor, and the dummy hash
    of the process, which concurrent calls share. *)

From S2P Require Import Prelude PyStr Values.
From Stdlib Require Import Ascii.

(** ** base64 *)

Definition b64_alphabet : list ascii :=
  chars "ABCDEFGHIJKLMNOPQRSTUVWXYZabcdefghijklmnopqrstuvwxyz0123456789+/".
Definition b64_pad : ascii := "="%char.
Definition sextet (n : N) : ascii := nth (N.to_nat n) b64_alphabet b64_pad.
Definition unsextet (c : ascii) : option N :=
  N.of_nat <$> (fst <$> list_find (λ d, c = d) b64_alphabet).

(** The sextets of three bytes. *)
Definition sextets (a b c : N) : list N :=
  [N.shiftr a 2; N.lor (N.shiftl (N.land a 3) 4) (N.shiftr b 4);
   N.lor (N.shiftl (N.land b 15) 2) (N.shiftr c 6); N.land c 63].

Fixpoint b64encode_bytes (l : list ascii) : list ascii :=
  match l with
  | a :: b :: c :: l =>
      map sextet (sextets (N_of_ascii a) (N_of_ascii b) (N_of_ascii c)) ++ b64encode_bytes l
  | [a; b] => map sextet (take 3 (sextets (N_of_ascii a) (N_of_ascii b) 0)) ++ [b64_pad]
  | [a] => map sextet (take 2 (sextets (N_of_ascii a) 0 0)) ++ [b64_pad; b64_pad]
  | [] => []
  end.
Definition b64encode (s : string) : string := str (b64encode_bytes (chars s)).

(** [binascii.a2b_base64]: the position in the group of four, the bits left
    over, the padding seen; [None] is [binascii.Error]. *)
Fixpoint a2b (quad_pos : nat) (leftchar : N) (pads : nat) (l : list ascii) : option (list ascii) :=
  match l with
  | [] => if decide (quad_pos = 0)%nat then Some [] else None
  | c :: l =>
      if Ascii.eqb c b64_pad then
        if (2 <=? quad_pos)%nat then
          if (4 <=? quad_pos + S pads)%nat then Some [] else a2b quad_pos leftchar (S pads) l
        else a2b quad_pos leftchar pads l
      else
        match unsextet c with
        | None => a2b quad_pos leftchar pads l
        | Some v =>
            match quad_pos with
            | 0%nat => a2b 1 v 0 l
            | 1%nat => cons (ascii_of_N (N.lor (N.shiftl leftchar 2) (N.shiftr v 4))) <$>
                     a2b 2 (N.land v 15) 0 l
            | 2%nat => cons (ascii_of_N (N.lor (N.shiftl leftchar 4) (N.shiftr v 2))) <$>
                     a2b 3 (N.land v 3) 0 l
            | _ => cons (ascii_of_N (N.lor (N.shiftl leftchar 6) v)) <$> a2b 0 0 0 l
            end
        end
  end.

(** [base64.b64decode(s)]: the text must be ASCII. *)
Definition b64decode (s : string) : option string :=
  if forallb (λ c, (N_of_ascii c <? 128)%N) (chars s) then str <$> a2b 0 0 0 (chars s) else None.

(** [s.encode("utf-8")] *)
Definition utf8_char (c : ascii) : list ascii :=
  let n := N_of_ascii c in
  if (n <? 128)%N then [c]
  else [ascii_of_N (N.lor 192 (N.shiftr n 6)); ascii_of_N (N.lor 128 (N.land n 63))].
Definition utf8 (s : string) : string := str (concat (map utf8_char (chars s))).

(** ** Hashes *)

Definition ITERATIONS : Z := 100000.
Definition SALT_BYTES : nat := 16.
Definition KEY_BYTES : nat := 32.
Definition PREFIX : string := "pbkdf2".
Definition dollar_char : ascii := "$"%char.

Section Hasher.
(** password, salt, iterations, length *)
Context (pbkdf2 : string → string → Z → nat → string).
Context (sha256_hex : string → string).

Definition _derive (password salt : string) (iterations : Z) (key_len : nat) : string :=
  pbkdf2 (utf8 password) salt iterations key_len.

(** [hash_password] with the salt it drew: the encoded hash and the salt. *)
Definition hash_password (password salt : string) : string * string :=
  let key := _derive password salt ITERATIONS KEY_BYTES in
  let salt_b64 := b64encode salt in
  (PREFIX +:+ "$" +:+ str_of_Z ITERATIONS +:+ "$" +:+ salt_b64 +:+ "$" +:+ b64encode key, salt_b64).

Definition verify_password (password encoded legacy_salt : string) : bool :=
  if is_empty encoded then false
  else
    match split dollar_char encoded with
    | [prefix; iterations; salt; expected] =>
        if bool_decide (prefix = PREFIX) then
          match py_int iterations, b64decode salt, b64decode expected with
          | Some n, Some salt, Some expected =>
              if (n <=? 0) || is_empty expected then false
              else bool_decide (_derive password salt n (len expected) = expected)
          | _, _, _ => false
          end
        else bool_decide (sha256_hex (utf8 (legacy_salt +:+ password)) = utf8 encoded)
    | _ => bool_decide (sha256_hex (utf8 (legacy_salt +:+ password)) = utf8 encoded)
    end.

Definition needs_rehash (encoded : string) : bool :=
  match split dollar_char encoded with
  | [prefix; iterations; _; _] =>
      negb (bool_decide (prefix = PREFIX) && bool_decide (iterations = str_of_Z ITERATIONS))
  | _ => true
  end.
End Hasher.

(** ** base64 is undone by its decoder *)

Definition bytes : list N := map N.of_nat (seq 0 256).

Lemma byte_in (a : ascii) : In (N_of_ascii a) bytes.
Proof.
  apply in_map_iff. exists (N.to_nat (N_of_ascii a)). rewrite N2Nat.id. split; [done|].
  pose proof (N_ascii_bounded a). apply in_seq. lia.
Qed.

(** A fact on two bytes, checked on all of them. *)
Lemma bytes2 (P : N → N → bool) :
  forallb (λ a, forallb (P a) bytes) bytes = true → ∀ a b, P (N_of_ascii a) (N_of_ascii b) = true.
Proof.
  intros H a b. rewrite forallb_forall in H. specialize (H _ (byte_in a)). cbv beta in H.
  rewrite forallb_forall in H. apply H, byte_in.
Qed.

Lemma sextet_ok n : (n < 64)%N →
  unsextet (sextet n) = Some n ∧ sextet n ≠ b64_pad ∧ sextet n ≠ dollar_char ∧
  (N_of_ascii (sextet n) < 128)%N.
Proof.
  intros Hn.
  assert (forallb (λ n, bool_decide (unsextet (sextet n) = Some n ∧ sextet n ≠ b64_pad ∧
    sextet n ≠ dollar_char ∧ (N_of_ascii (sextet n) < 128)%N)) (map N.of_nat (seq 0 64)) = true) as H
    by (vm_compute; reflexivity).
  rewrite forallb_forall in H. apply (bool_decide_unpack _). apply Is_true_true, H.
  apply in_map_iff. exists (N.to_nat n). rewrite N2Nat.id. split; [done|].
  apply in_seq. lia.
Qed.

Lemma sextets_lt a b c :
  Forall (λ n, (n < 64)%N) (sextets (N_of_ascii a) (N_of_ascii b) (N_of_ascii c)).
Proof.
  pose (ok := λ a b : N, ((N.shiftr a 2 <? 64) && (N.lor (N.shiftl (N.land a 3) 4) (N.shiftr b 4) <? 64) &&
    (N.lor (N.shiftl (N.land a 15) 2) (N.shiftr b 6) <? 64) && (N.land b 63 <? 64))%N).
  assert (∀ a b, ok (N_of_ascii a) (N_of_ascii b) = true) as H
    by (apply bytes2; vm_compute; reflexivity).
  pose proof (H a b) as Hab. pose proof (H b c) as Hbc. unfold ok in Hab, Hbc.
  rewrite !andb_true_iff, !N.ltb_lt in Hab, Hbc. unfold sextets. repeat constructor; naive_solver.
Qed.

(** The three bytes put together again from their sextets. *)
Lemma unpack a b c :
  let l := sextets (N_of_ascii a) (N_of_ascii b) (N_of_ascii c) in
  ∀ w x y z, l = [w; x; y; z] →
  ascii_of_N (N.lor (N.shiftl w 2) (N.shiftr x 4)) = a ∧
  ascii_of_N (N.lor (N.shiftl (N.land x 15) 4) (N.shiftr y 2)) = b ∧
  ascii_of_N (N.lor (N.shiftl (N.land y 3) 6) z) = c.
Proof.
  pose (first := λ a b : N, (N.lor (N.shiftl (N.shiftr a 2) 2)
    (N.shiftr (N.lor (N.shiftl (N.land a 3) 4) (N.shiftr b 4)) 4) =? a)%N).
  pose (second := λ b c : N, forallb (λ h, (N.lor (N.shiftl (N.land (N.lor (N.shiftl h 4) (N.shiftr b 4)) 15) 4)
    (N.shiftr (N.lor (N.shiftl (N.land b 15) 2) (N.shiftr c 6)) 2) =? b)%N) [0; 1; 2; 3]%N).
  pose (third := λ b c : N, (N.lor (N.shiftl (N.land (N.lor (N.shiftl (N.land b 15) 2) (N.shiftr c 6)) 3) 6)
    (N.land c 63) =? c)%N).
  assert (∀ a b, first (N_of_ascii a) (N_of_ascii b) = true) as H1 by (apply bytes2; vm_compute; reflexivity).
  assert (∀ a b, second (N_of_ascii a) (N_of_ascii b) = true) as H2 by (apply bytes2; vm_compute; reflexivity).
  assert (∀ a b, third (N_of_ascii a) (N_of_ascii b) = true) as H3 by (apply bytes2; vm_compute; reflexivity).
  intros l w x y z Hl. unfold l, sextets in Hl. injection Hl as <- <- <- <-.
  specialize (H1 a b). specialize (H2 b c). specialize (H3 b c). unfold first, second, third in *.
  apply N.eqb_eq in H1, H3. rewrite H1, H3. rewrite forallb_forall in H2.
  assert (In (N.land (N_of_ascii a) 3) [0; 1; 2; 3]%N) as Hin.
  { destruct a as [[] [] [] [] [] [] [] []]; vm_compute; tauto. }
  apply H2, N.eqb_eq in Hin. rewrite Hin. by rewrite !ascii_N_embedding.
Qed.

Lemma sextet_step n k leftchar pads l :
  (n < 64)%N →
  a2b k leftchar pads (sextet n :: l) =
  match k with
  | 0%nat => a2b 1 n 0 l
  | 1%nat => cons (ascii_of_N (N.lor (N.shiftl leftchar 2) (N.shiftr n 4))) <$> a2b 2 (N.land n 15) 0 l
  | 2%nat => cons (ascii_of_N (N.lor (N.shiftl leftchar 4) (N.shiftr n 2))) <$> a2b 3 (N.land n 3) 0 l
  | _ => cons (ascii_of_N (N.lor (N.shiftl leftchar 6) n)) <$> a2b 0 0 0 l
  end.
Proof.
  intros Hn. destruct (sextet_ok n Hn) as (Hu & Hp & _). simpl. rewrite Hu.
  destruct (Ascii.eqb_spec (sextet n) b64_pad); [done|]. reflexivity.
Qed.

Lemma list_len3_ind {A} (P : list A → Prop) :
  P [] → (∀ a, P [a]) → (∀ a b, P [a; b]) → (∀ a b c l, P l → P (a :: b :: c :: l)) → ∀ l, P l.
Proof.
  intros H0 H1 H2 H3. fix IH 1. intros [|a [|b [|c l]]]; [done|apply H1|apply H2|].
  apply H3, IH.
Qed.

Lemma a2b_encode l pads : a2b 0 0 pads (b64encode_bytes l) = Some l.
Proof.
  revert pads. induction l as [|a|a b|a b c l IH] using list_len3_ind; intros pads; [done|..].
  - pose proof (sextets_lt a "000" "000") as Hlt. pose proof (unpack a "000" "000") as Hu.
    cbv zeta in Hu. unfold sextets in *. change (N_of_ascii "000") with 0%N in *.
    specialize (Hu _ _ _ _ eq_refl) as (Ha & _). rewrite !Forall_cons in Hlt.
    destruct Hlt as (? & ? & _). cbn [b64encode_bytes sextets map take app].
    rewrite !sextet_step by done. rewrite Ha. reflexivity.
  - pose proof (sextets_lt a b "000") as Hlt. pose proof (unpack a b "000") as Hu.
    cbv zeta in Hu. unfold sextets in *. change (N_of_ascii "000") with 0%N in *.
    specialize (Hu _ _ _ _ eq_refl) as (Ha & Hb & _). rewrite !Forall_cons in Hlt.
    destruct Hlt as (? & ? & ? & _). cbn [b64encode_bytes sextets map take app].
    rewrite !sextet_step by done. rewrite Ha, Hb. reflexivity.
  - pose proof (sextets_lt a b c) as Hlt. pose proof (unpack a b c) as Hu.
    cbv zeta in Hu. unfold sextets in *.
    specialize (Hu _ _ _ _ eq_refl) as (Ha & Hb & Hc). rewrite !Forall_cons in Hlt.
    destruct Hlt as (? & ? & ? & ? & _). cbn [b64encode_bytes sextets map app].
    rewrite !sextet_step by done. rewrite Ha, Hb, Hc, IH. reflexivity.
Qed.

Lemma b64encode_chars l :
  Forall (λ c, c ≠ dollar_char ∧ (N_of_ascii c < 128)%N) (b64encode_bytes l).
Proof.
  assert (∀ ns, Forall (λ n, (n < 64)%N) ns →
    Forall (λ c, c ≠ dollar_char ∧ (N_of_ascii c < 128)%N) (map sextet ns)) as Hs.
  { intros ns Hns. apply Forall_map. eapply Forall_impl; [exact Hns|]. intros n Hn.
    destruct (sextet_ok n Hn) as (_ & _ & ? & ?). done. }
  assert (Forall (λ c, c ≠ dollar_char ∧ (N_of_ascii c < 128)%N) [b64_pad]) as Hp
    by (repeat constructor; vm_compute; congruence).
  induction l as [|a|a b|a b c l IH] using list_len3_ind; [constructor|..]; cbn [b64encode_bytes].
  - apply Forall_app. split; [|apply (Forall_app_2 _ [_] [_]); done].
    apply Hs, Forall_take. apply (sextets_lt a "000" "000").
  - apply Forall_app. split; [|done]. apply Hs, Forall_take. apply (sextets_lt a b "000").
  - apply Forall_app. split; [|done]. apply Hs, sextets_lt.
Qed.

Lemma b64decode_encode s : b64decode (b64encode s) = Some s.
Proof.
  unfold b64decode, b64encode. rewrite chars_str, a2b_encode.
  replace (forallb _ _) with true; [by rewrite <- (str_chars s) at 2|].
  symmetry. apply forallb_forall. intros c Hc. pose proof (b64encode_chars (chars s)) as H.
  rewrite Forall_forall in H. apply N.ltb_lt. apply H. by apply list_elem_of_In.
Qed.

Lemma b64encode_no_dollar s : dollar_char ∉ chars (b64encode s).
Proof.
  unfold b64encode. rewrite chars_str. intros H. pose proof (b64encode_chars (chars s)) as Hf.
  rewrite Forall_forall in Hf. by apply Hf in H as [? _].
Qed.

(** ** Hashing and verifying *)

(** The four fields of an encoded hash. *)
Lemma split_encoded (a b c d : string) :
  dollar_char ∉ chars a → dollar_char ∉ chars b → dollar_char ∉ chars c → dollar_char ∉ chars d →
  split dollar_char (a +:+ "$" +:+ b +:+ "$" +:+ c +:+ "$" +:+ d) = [a; b; c; d].
Proof.
  intros Ha Hb Hc Hd. change (a +:+ "$" +:+ b +:+ "$" +:+ c +:+ "$" +:+ d)
    with (join (String dollar_char "") [a; b; c; d]).
  apply split_join; [done|]. by repeat constructor.
Qed.

(** A password verifies against the hash made of it, whatever salt was
    drawn, and only passwords with the same derived key do; the hash is
    current ([needs_rehash] asks for no other). *)
Theorem hash_verifies pbkdf2 sha256_hex password salt legacy :
  (∀ p s n k, len (pbkdf2 p s n k) = k) →
  let encoded := (hash_password pbkdf2 password salt).1 in
  needs_rehash encoded = false ∧
  ∀ password', verify_password pbkdf2 sha256_hex password' encoded legacy = true ↔
    _derive pbkdf2 password' salt ITERATIONS KEY_BYTES = _derive pbkdf2 password salt ITERATIONS KEY_BYTES.
Proof.
  intros Hlen. cbv zeta. unfold hash_password, needs_rehash, verify_password. cbn [fst].
  assert (dollar_char ∉ chars PREFIX) by (vm_compute; set_solver).
  assert (dollar_char ∉ chars (str_of_Z ITERATIONS)) by (vm_compute; set_solver).
  rewrite split_encoded by (done || apply b64encode_no_dollar).
  split; [by rewrite !bool_decide_true|]. intros password'.
  rewrite !b64decode_encode, bool_decide_true by done.
  change (py_int (str_of_Z ITERATIONS)) with (Some ITERATIONS).
  change (is_empty (PREFIX +:+ _)) with false. cbv beta iota.
  unfold _derive. rewrite (Hlen (utf8 password) salt).
  assert (is_empty (pbkdf2 (utf8 password) salt ITERATIONS KEY_BYTES) = false) as ->.
  { apply bool_decide_eq_false_2. intros He. apply (f_equal len) in He. by rewrite Hlen in He. }
  change (ITERATIONS <=? 0) with false. cbn [orb]. by rewrite bool_decide_eq_true.
Qed.

Module HasherExample.
(** A key of the first letter of the password and the salt, repeated. *)
Definition toy_pbkdf2 (p s : string) (n : Z) (k : nat) : string :=
  str (repeat (default "0"%char (head (chars (p +:+ s)))) k).

Lemma hash_verifies_witness :
  verify_password toy_pbkdf2 (λ s, s) "secret" (hash_password toy_pbkdf2 "secret" "salt").1 "" = true.
Proof.
  apply (hash_verifies toy_pbkdf2 (λ s, s) "secret" "salt" ""); [|reflexivity].
  intros p s n k. unfold toy_pbkdf2. by rewrite len_chars, chars_str, repeat_length.
Defined.

Example b64_ex : b64encode "Man" = "TWFu" ∧ b64encode "Ma" = "TWE=" ∧ b64decode "T W E=" = Some "Ma" ∧
  b64decode "TWE" = None.
Proof. split_and!; reflexivity. Qed.
End HasherExample.

(** * The executor and the dummy hash *)

Module Async.
Definition MAX_CONCURRENT_HASHES : nat := 4.

(** What a call runs in a thread: for [hash_password_async], for
    [verify_password_async], and the two parts of [dummy_verify_async], the first
    with the random password and the salt it draws *)
Inductive work :=
| ForHash (password salt : string)
| ForVerify (password encoded legacy_salt : string)
| ForDummyHash (password token salt : string)
| ForDummyVerify (password encoded : string).
Inductive answer := Hashed (encoded salt : string) | Verified (valid : bool) | DummyDone.

(** Calls by number: whose work waits for a thread, has one, is done while the call
    was not resumed yet; and the calls that returned *)
Record Hashing := {
  _dummy_hash : option string;
  submitted : list (nat * work);
  running : list (nat * work);
  finished : list (nat * work);
  returned : list (nat * answer);
}.
Definition new_hashing : Hashing :=
  {| _dummy_hash := None; submitted := []; running := []; finished := []; returned := [] |}.
Definition pending (m : Hashing) : list (nat * work) := submitted m ++ running m ++ finished m.

Section Async.
Context (pbkdf2 : string → string → Z → nat → string) (sha256_hex : string → string).

Definition submit (t : nat) (w : work) (m : Hashing) : Hashing :=
  {| _dummy_hash := _dummy_hash m; submitted := submitted m ++ [(t, w)]; running := running m; finished := finished m;
     returned := returned m |}.
Definition hash_password_async (t : nat) (password salt : string) : Hashing → Hashing := submit t (ForHash password salt).
Definition verify_password_async (t : nat) (password encoded legacy_salt : string) : Hashing → Hashing :=
  submit t (ForVerify password encoded legacy_salt).
Definition dummy_verify_async (t : nat) (password token salt : string) (m : Hashing) : Hashing :=
  submit t (match _dummy_hash m with Some e => ForDummyVerify password e | None => ForDummyHash password token salt end) m.

(** A thread takes the first work that waits; the [i]th thread is done. *)
Definition start_work (m : Hashing) : option Hashing :=
  match submitted m with
  | x :: q =>
      if (length (running m) <? MAX_CONCURRENT_HASHES)%nat then
        Some {| _dummy_hash := _dummy_hash m; submitted := q; running := running m ++ [x]; finished := finished m;
                returned := returned m |}
      else None
  | [] => None
  end.
Definition end_work (i : nat) (m : Hashing) : option Hashing :=
  x ← running m !! i;
  Some {| _dummy_hash := _dummy_hash m; submitted := submitted m; running := delete i (running m); finished := finished m ++ [x];
          returned := returned m |}.

(** The call goes on with what its work gave. *)
Definition answer_of (w : work) : answer :=
  match w with
  | ForHash p salt => let '(encoded, salt_b64) := hash_password pbkdf2 p salt in Hashed encoded salt_b64
  | ForVerify p encoded legacy => Verified (verify_password pbkdf2 sha256_hex p encoded legacy)
  | _ => DummyDone
  end.
Definition resume_call (m : Hashing) : option Hashing :=
  match finished m with
  | [] => None
  | (t, ForDummyHash p token salt) :: l =>
      let encoded := (hash_password pbkdf2 token salt).1 in
      Some {| _dummy_hash := Some encoded; submitted := submitted m ++ [(t, ForDummyVerify p encoded)]; running := running m;
              finished := l; returned := returned m |}
  | (t, w) :: l =>
      Some {| _dummy_hash := _dummy_hash m; submitted := submitted m; running := running m; finished := l;
              returned := returned m ++ [(t, answer_of w)] |}
  end.

Inductive goes_on : Hashing → Hashing → Prop :=
| work_starts m m' : start_work m = Some m' → goes_on m m'
| work_ends m i m' : end_work i m = Some m' → goes_on m m'
| call_resumes m m' : resume_call m = Some m' → goes_on m m'.
Inductive hashing_step : Hashing → Hashing → Prop :=
| hashing_goes_on m m' : goes_on m m' → hashing_step m m'
| calls_hash m t p salt : hashing_step m (hash_password_async t p salt m)
| calls_verify m t p encoded legacy : hashing_step m (verify_password_async t p encoded legacy m)
| calls_dummy m t p token salt : hashing_step m (dummy_verify_async t p token salt m).

(** ** Invariants *)

(** At most four derivations at once, the dummy hash is one that [hash_password]
    made, and so is what any dummy verification verifies against. *)
Definition made (e : string) : Prop := ∃ token salt, e = (hash_password pbkdf2 token salt).1.
Definition hashing_ok (m : Hashing) : Prop :=
  (length (running m) ≤ MAX_CONCURRENT_HASHES)%nat ∧ (∀ e, _dummy_hash m = Some e → made e) ∧
  ∀ t p e, (t, ForDummyVerify p e) ∈ pending m → made e.

Lemma pending_submit t w m : pending (submit t w m) ≡ₚ (t, w) :: pending m.
Proof. unfold pending. simpl. rewrite <- (assoc_L app). simpl. by rewrite <- Permutation_middle. Qed.

(** What goes on keeps the calls that wait, but for the one that is resumed. *)
Lemma goes_on_pending m m' :
  goes_on m m' →
  (pending m' ≡ₚ pending m ∧ _dummy_hash m' = _dummy_hash m ∧ returned m' = returned m) ∨
  ∃ t w rest, pending m ≡ₚ (t, w) :: rest ∧
    match w with
    | ForDummyHash p token salt =>
        let e := (hash_password pbkdf2 token salt).1 in
        pending m' ≡ₚ (t, ForDummyVerify p e) :: rest ∧ _dummy_hash m' = Some e ∧ returned m' = returned m
    | w => pending m' ≡ₚ rest ∧ _dummy_hash m' = _dummy_hash m ∧ returned m' = returned m ++ [(t, answer_of w)]
    end.
Proof.
  unfold pending. intros [m0 m1 H|m0 i m1 H|m0 m1 H].
  - left. unfold start_work in H. destruct (submitted m0) as [|x q]; [done|]. destruct (_ <? _)%nat; [|done].
    injection H as <-. simpl. split; [|done]. rewrite <- (assoc_L app). simpl. by rewrite <- Permutation_middle, <- !Permutation_middle.
  - left. unfold end_work in H. destruct (running m0 !! i) as [x|] eqn:Hi; [|done]. injection H as <-. simpl. split; [|done].
    apply delete_Permutation in Hi. generalize dependent (delete i (running m0)). intros d ->. f_equiv. simpl.
    rewrite (assoc_L app). symmetry. apply Permutation_cons_append.
  - right. unfold resume_call in H. destruct (finished m0) as [|[t w] l]; [done|]. exists t, w, (submitted m0 ++ running m0 ++ l).
    split; [by rewrite <- !Permutation_middle|]. destruct w; injection H as <-; simpl; (split; [|done]); try done.
    rewrite <- (assoc_L app). simpl. by rewrite <- Permutation_middle.
Qed.

Lemma goes_on_running m m' :
  goes_on m m' → (length (running m) ≤ MAX_CONCURRENT_HASHES)%nat → (length (running m') ≤ MAX_CONCURRENT_HASHES)%nat.
Proof.
  intros [m0 m1 H|m0 i m1 H|m0 m1 H] Hl.
  - unfold start_work in H. destruct (submitted m0); [done|]. destruct (Nat.ltb_spec (length (running m0)) MAX_CONCURRENT_HASHES); [|done].
    injection H as <-. simpl. rewrite length_app. simpl. lia.
  - unfold end_work in H. destruct (running m0 !! i) eqn:Hi; [|done]. injection H as <-. simpl. rewrite length_delete by (by eexists). lia.
  - unfold resume_call in H. destruct (finished m0) as [|[t []] l]; [done|..]; by injection H as <-.
Qed.

Lemma hashing_ok_submit t w m :
  (∀ p e, w = ForDummyVerify p e → made e) → hashing_ok m → hashing_ok (submit t w m).
Proof.
  intros Hw (Hl & Hd & Hp). split_and!; [done..|]. intros t' p e He. rewrite pending_submit in He.
  apply elem_of_cons in He as [[= _ He]|He]; [by eapply Hw|exact (Hp _ _ _ He)].
Qed.

Lemma hashing_ok_step m m' : hashing_ok m → hashing_step m m' → hashing_ok m'.
Proof.
  intros Hm Hs. revert Hm. destruct Hs as [m0 m1 H|m0 t p salt|m0 t p encoded legacy|m0 t p token salt]; intros Hm.
  2,3: apply hashing_ok_submit; [intros ? ? [=]|exact Hm].
  2:{ apply hashing_ok_submit; [|exact Hm]. destruct Hm as (_ & Hd & _). destruct (_dummy_hash m0) as [e0|]; intros ? e [=]; subst; by apply Hd. }
  destruct Hm as (Hl & Hd & Hp). split; [exact (goes_on_running _ _ H Hl)|].
  destruct (goes_on_pending _ _ H) as [(Hq & -> & _)|(t & w & rest & Hq & Hw)].
  - split; [done|]. intros t p e He. rewrite Hq in He. exact (Hp _ _ _ He).
  - assert (Hrest : ∀ t p e, (t, ForDummyVerify p e) ∈ rest → made e).
    { intros t' p e He. apply (Hp t' p e). rewrite Hq. by right. }
    destruct w; destruct Hw as (Hq' & -> & _); (split; [|intros t' p e He; rewrite Hq' in He]);
      try (exact Hd); try (exact (Hrest _ _ _ He)).
    + intros e [= <-]. by eexists _, _.
    + apply elem_of_cons in He as [He|He]; [|exact (Hrest _ _ _ He)]. injection He as _ _ ->. by eexists _, _.
Qed.

(** Whatever calls are made and however they interleave, at most four derivations
    run at once, and the hash unknown users are checked against is always one
    made as a user's is; once it is there, a call draws no other. *)
Theorem hashing_invariant m :
  rtc hashing_step new_hashing m →
  hashing_ok m ∧
  ∀ e t p token salt, _dummy_hash m = Some e → pending (dummy_verify_async t p token salt m) ≡ₚ (t, ForDummyVerify p e) :: pending m.
Proof.
  intros Hr. split.
  - revert m Hr. apply (rtc_ind_r hashing_ok).
    + split_and!; [simpl; unfold MAX_CONCURRENT_HASHES; lia|done|]. intros t p e He. by apply not_elem_of_nil in He.
    + intros m m' _ Hs Hm. by eapply hashing_ok_step.
  - intros e t p token salt He. unfold dummy_verify_async. rewrite He. apply pending_submit.
Qed.

(** ** Every call returns *)

(** Steps left: each work is taken, done and read, and a dummy hash is followed by
    its verification. *)
Definition steps_of (w : work) : nat := match w with ForDummyHash _ _ _ => 3 | _ => 0 end.
Definition work_left (k : nat) (l : list (nat * work)) : nat := list_sum (map (λ x, k + steps_of x.2)%nat l).
Definition steps_left (m : Hashing) : nat := work_left 3 (submitted m) + work_left 2 (running m) + work_left 1 (finished m).

Lemma work_left_app k l1 l2 : work_left k (l1 ++ l2) = (work_left k l1 + work_left k l2)%nat.
Proof. unfold work_left. by rewrite map_app, list_sum_app. Qed.
Lemma work_left_cons k x l : work_left k (x :: l) = (k + steps_of x.2 + work_left k l)%nat.
Proof. done. Qed.
Lemma work_left_nil k : work_left k [] = 0%nat.
Proof. done. Qed.
Lemma work_left_delete k l i x : l !! i = Some x → work_left k l = (work_left k (delete i l) + (k + steps_of x.2))%nat.
Proof.
  intros Hi. rewrite <- (take_drop_middle l i x Hi) at 1. rewrite delete_take_drop, !work_left_app, work_left_cons. lia.
Qed.

Lemma goes_on_shrinks m m' : goes_on m m' → steps_left m = S (steps_left m').
Proof.
  unfold steps_left. intros [m0 m1 H|m0 i m1 H|m0 m1 H].
  - unfold start_work in H. destruct (submitted m0) as [|x q]; [done|]. destruct (_ <? _)%nat; [|done]. injection H as <-. cbn [submitted running finished].
    rewrite work_left_app, !work_left_cons, work_left_nil. lia.
  - unfold end_work in H. destruct (running m0 !! i) as [x|] eqn:Hi; [|done]. injection H as <-. cbn [submitted running finished].
    rewrite (work_left_delete _ _ _ _ Hi), work_left_app, work_left_cons, work_left_nil. lia.
  - unfold resume_call in H. destruct (finished m0) as [|[t w] l]; [done|]. destruct w; injection H as <-; cbn [submitted running finished];
      rewrite ?work_left_app, ?work_left_cons, ?work_left_nil; simpl; lia.
Qed.

Lemma goes_on_or_idle m : pending m = [] ∨ ∃ m', goes_on m m'.
Proof.
  unfold pending. destruct (finished m) as [|[t w] l] eqn:Hf.
  - destruct (running m) as [|x r] eqn:Hr.
    + destruct (submitted m) as [|x q] eqn:Hs; [by left|]. right. eexists. apply work_starts. unfold start_work. by rewrite Hs, Hr.
    + right. eexists. apply (work_ends _ 0). unfold end_work. by rewrite Hr.
  - right. destruct w; eexists; apply call_resumes; unfold resume_call; by rewrite Hf.
Qed.

(** Every call returns, exactly once, after as many steps as are left whatever
    their order. *)
Theorem calls_return m :
  (∀ m' n, nsteps goes_on n m m' → (n ≤ steps_left m)%nat ∧ (pending m' = [] → n = steps_left m ∧
     map fst (returned m') ≡ₚ map fst (pending m) ++ map fst (returned m))) ∧
  ∃ m', rtc goes_on m m' ∧ pending m' = [].
Proof.
  split.
  - intros m' n Hn. assert (steps_left m = (n + steps_left m')%nat ∧
      map fst (returned m') ++ map fst (pending m') ≡ₚ map fst (pending m) ++ map fst (returned m)) as [Hs Hids].
    { induction Hn as [m|n m m1 m2 Hs _ [IH1 IH2]]; [split; [done|apply Permutation_app_comm]|]. rewrite (goes_on_shrinks _ _ Hs), IH1. split; [lia|].
      rewrite IH2. destruct (goes_on_pending _ _ Hs) as [(-> & _ & ->)|(t & w & rest & Hq & Hw)]; [done|]. rewrite Hq.
      destruct w; destruct Hw as (-> & _ & ->); simpl; rewrite ?map_app; simpl; try done; rewrite (assoc_L app); symmetry; apply Permutation_cons_append. }
    split; [lia|]. intros Hp. rewrite Hp, app_nil_r in Hids. split; [|done]. rewrite Hs. unfold pending in Hp.
    apply app_nil in Hp as [Hp1 [Hp2 Hp3]%app_nil]. unfold steps_left. rewrite Hp1, Hp2, Hp3. unfold work_left. simpl. lia.
  - remember (steps_left m) as n eqn:Hn. revert m Hn. induction n as [n IH] using lt_wf_ind. intros m ->.
    destruct (goes_on_or_idle m) as [Hp|[m1 H1]]; [by exists m|]. pose proof (goes_on_shrinks _ _ H1).
    destruct (IH (steps_left m1) ltac:(lia) m1 eq_refl) as (m' & Hr & Hp). exists m'. split; [by eapply rtc_l|done].
Qed.
End Async.

(** The first check of an unknown user derives twice, those after it once, as the
    check of a known user does; two first ones at a time make two hashes, of which
    the later stays. *)
Example first_dummy :
  let h := HasherExample.toy_pbkdf2 in
  let first := dummy_verify_async 1 "guess" "token" "salt" new_hashing in
  let known := verify_password_async 1 "guess" (hash_password h "secret" "salt").1 "" new_hashing in
  let both := dummy_verify_async 2 "other" "second" "salt" first in
  let run (l : list (Hashing → option Hashing)) m := foldl (λ o f, o ≫= f) (Some m) l in
  (steps_left first, steps_left known) = (6, 3)%nat ∧
  (_dummy_hash <$> run [start_work; start_work; end_work 1; resume_call h (λ s, s); end_work 0; resume_call h (λ s, s)] both) =
    Some (Some (hash_password h "token" "salt").1) ∧
  (_dummy_hash <$> run [start_work; start_work; end_work 1; resume_call h (λ s, s)] both) = Some (Some (hash_password h "second" "salt").1).
Proof. vm_compute. split_and!; reflexivity. Qed.
End Async.
