(* ===== verification/AuditModel.v ===== *)
(** * The contract of the audit log ([abs/audit/])

    Entries, queries, the interface of a store and its laws. *)

From S2P Require Import Prelude PyStr Values.

(** ** Entries and queries *)

Record AuditEntry := {
  a_id : string;
  a_timestamp : Z;
  a_event : string;
  a_username : string;
  a_details : option string;
  a_actor : option string;
  a_metadata : option (dict string pyval);
  a_user_id : option string;
  a_actor_id : option string;
  a_target : option string;
  a_properties : option (dict string pyval);
}.

(** [if value is not None: result[key] = value] *)
Definition field_of {A} (key : string) (f : A → pyval) (value : option A) : dict string pyval :=
  match value with Some v => [(key, f v)] | None => [] end.

Definition audit_to_dict (e : AuditEntry) : dict string pyval :=
  [("id", VStr (a_id e)); ("timestamp", VInt (a_timestamp e)); ("event", VStr (a_event e));
   ("username", VStr (a_username e))] ++
  field_of "userId" VStr (a_user_id e) ++ field_of "actorId" VStr (a_actor_id e) ++
  field_of "details" VStr (a_details e) ++ field_of "actor" VStr (a_actor e) ++
  field_of "target" VStr (a_target e) ++ field_of "properties" VDict (a_properties e) ++
  field_of "metadata" VDict (a_metadata e).

Record AuditQueryOptions := {
  q_limit : option Z;
  q_event : option string;
  q_username : option string;
  q_actor : option string;
  q_offset : option Z;
  q_from : option Z;
  q_to : option Z;
}.

(** ** The interface of a store *)

Class IAuditStore (S E : Type) := {
  store_log : AuditEntry → py S E unit;
  store_get_entries : option AuditQueryOptions → py S E (list AuditEntry);
  store_clear : py S E unit;
  store_prune : Z → py S E Z;
}.

(** [prune] of a store that does not override it *)
Definition default_prune {S E} (before : Z) : py S E Z := mret 0.

(** ** What a query selects

    From all entries, the newest first. *)

(** [if wanted: keep the entries whose text equals it, cases apart] *)
Definition filter_text (wanted : option string) (text : AuditEntry → string) (l : list AuditEntry) : list AuditEntry :=
  match wanted with
  | Some w => if is_empty w then l else List.filter (λ e, bool_decide (lower (text e) = lower w)) l
  | None => l
  end.
Definition filter_time (bound : option Z) (keep : Z → Z → bool) (l : list AuditEntry) : list AuditEntry :=
  match bound with Some b => List.filter (λ e, keep (a_timestamp e) b) l | None => l end.
Definition skip (n : option Z) (l : list AuditEntry) : list AuditEntry :=
  match n with Some k => if 0 <? k then drop (Z.to_nat k) l else l | None => l end.
Definition at_most (n : option Z) (l : list AuditEntry) : list AuditEntry :=
  match n with Some k => if 0 <=? k then firstn (Z.to_nat k) l else l | None => l end.

Definition filtered (q : AuditQueryOptions) (l : list AuditEntry) : list AuditEntry :=
  let l := filter_text (q_event q) a_event l in
  let l := filter_text (q_username q) a_username l in
  let l := filter_text (q_actor q) (λ e, or_empty (a_actor e)) l in
  let l := filter_time (q_from q) (λ t b, b <=? t) l in
  filter_time (q_to q) (λ t b, t <? b) l.
Definition page_of (q : option AuditQueryOptions) (l : list AuditEntry) : list AuditEntry :=
  match q with Some q => at_most (q_limit q) (skip (q_offset q) (filtered q l)) | None => l end.

(** ** The laws of a store

    [contents] are the entries it keeps, in the order they were recorded. *)
Class AuditStoreLaws (S E : Type) `{ST : IAuditStore S E} := {
  store_ok : S → Prop;
  contents : S → list AuditEntry;
  log_law e s : store_ok s → ∃ s' kept,
    store_log e s = (inr tt, s') ∧ store_ok s' ∧ contents s' = kept ++ [e] ∧ sublist kept (contents s);
  get_law q s : store_ok s → store_get_entries q s = (inr (page_of q (rev (contents s))), s);
  clear_law s : store_ok s → ∃ s', store_clear s = (inr tt, s') ∧ store_ok s' ∧ contents s' = [];
}.
