(* ===== verification/AuthService.v ===== *)
(** * Authentication ([auth_service.py])

    The service works on the stores of [UserStores.v], its own tables (lockouts,
    rate limits, tickets, listeners) and the host: the clock, the random
    generators, the hash functions, the audit log, the event bus and the
    listeners, which [AuthEnv] lists.  Host code has its own state and does not
    call back into the service here; other coroutines that run while a method
    waits are not modelled.  A context keeps no snapshot of the request of an
    adapter: the re-check of its sockets, in [ShellUsers.v], takes it as a
    parameter. *)

From S2P Require Import Prelude PyStr Values Permissions Events UserModel Validation.
From S2P Require Import UserStores PasswordHasher Throttle AuditModel.
From Stdlib Require Import Ascii.

(** ** Constants *)
Definition ACCOUNT_LOCKED : string := "account locked, try again later".
Definition ACCOUNT_DISABLED : string := "account disabled".
Definition INVALID_CREDENTIALS : string := "invalid credentials".
Definition PASSWORD_CHANGE_REQUIRED : string := "password change required".
Definition TOO_MANY_REQUESTS : string := "too many requests, try again later".
Definition INSUFFICIENT_PRIVILEGES : string := "insufficient privileges for this user".
Definition INVALID_TOKEN : string := "invalid or expired token".
Definition API_TOKEN_PREFIX : string := "qcli_pat_".
Definition API_TOKEN_LAST_USED_INTERVAL_MS : Z := 60 * 1000.
Definition DEFAULT_USERS_GROUP_PERMISSIONS : list string := ["commands:execute"].
Definition _NON_CHANGING_EVENTS : list string := ["login"; "login_failed"; "shell_opened"; "shell_closed"].

(** ** Data *)

Record AuthContext := {
  c_user : User;
  c_groups : list string;
  permissions : list string;
  session : option Session;
  c_token : option string;
  external : bool;
  api_token : option ApiToken;
}.

Definition api_token_id (ctx : AuthContext) : option string := t_id <$> api_token ctx.
Definition can (ctx : AuthContext) (permission : string) : bool :=
  has_permission (permissions ctx) permission.
Definition is_self (ctx : AuthContext) (target : User) : bool :=
  bool_decide (u_id target = u_id (c_user ctx)).

Record LoginResult := {
  l_token : string;
  l_session : Session;
  l_user : User;
  l_permissions : list string;
}.

Record _Ticket := {
  k_session_id : option string;
  k_user_id : string;
  k_expires_at : Z;
  k_external_ctx : option AuthContext;
  k_api_token_id : option string;
}.

Record AuthServiceOptions := {
  session_timeout_ms : Z;
  max_session_lifetime_ms : Z;
  min_password_length : Z;
  max_login_attempts : Z;
  lockout_ms : Z;
  rate_limit_attempts : Z;
  rate_limit_window_ms : Z;
  trust_proxy : bool + Z;
  ticket_ttl_ms : Z;
  allow_non_expiring_tokens : bool;
  read_only_users : bool;
  read_only_groups : bool;
}.

Definition default_auth_options : AuthServiceOptions :=
  {| session_timeout_ms := 30 * 60 * 1000; max_session_lifetime_ms := 12 * 60 * 60 * 1000;
     min_password_length := 8; max_login_attempts := 5; lockout_ms := 5 * 60 * 1000;
     rate_limit_attempts := 20; rate_limit_window_ms := 60 * 1000; trust_proxy := inl false;
     ticket_ttl_ms := 30 * 1000; allow_non_expiring_tokens := false;
     read_only_users := false; read_only_groups := false |}.

(** What an external adapter answers. *)
Record ExternalAuthResult := {
  e_user : User;
  e_is_admin : bool;
  e_permissions : option (list string);
}.

(** The service's tables. *)
Record AuthService := {
  _lockouts : dict string _LockoutState;
  _rate : dict string (list Z);
  _tickets : dict string _Ticket;
  _change_listeners : list nat;
}.
Definition new_auth : AuthService :=
  {| _lockouts := []; _rate := []; _tickets := []; _change_listeners := [] |}.

(** The host. *)
Class AuthEnv (Host : Type) := {
  clock : Host → Z;                          (* now_ms() *)
  uuid4 : Host → string * Host;
  token_hex : Host → string * Host;          (* secrets.token_hex(32) *)
  token_urlsafe : Host → string * Host;      (* secrets.token_urlsafe(32) *)
  random_password : Host → string * Host;    (* 16 letters and digits *)
  random_salt : Host → string * Host;
  hash_token : string → string;              (* SHA-256 (hex) *)
  pbkdf2 : string → string → Z → nat → string;
  sha256_hex : string → string;
  audit_log : AuditEntry → py Host uexn unit;
  audit_recorded : option (AuditEntry → py Host uexn unit);
  event_bus : option (string → dict string pyval → CliEventAudience → py Host uexn unit);
  broadcast_fn : option (dict string pyval → py Host uexn unit);
  user_event_sender : option (string → dict string pyval → py Host uexn unit);
  call_listener : nat → py Host uexn unit;
  auth_options : AuthServiceOptions;
  external_auth : bool;
}.

Record World {Host : Type} := { st : Stores; au : AuthService; host : Host }.
Arguments World : clear implicits.

(** [generate_password] on the positions [secrets.choice] drew *)
Definition password_alphabet : list ascii := chars "abcdefghijklmnopqrstuvwxyzABCDEFGHIJKLMNOPQRSTUVWXYZ0123456789".
Definition generate_password (choices : list nat) : string := str (map (λ n, nth n password_alphabet "a"%char) choices).

Section Auth.
Context {Host : Type} `{E : AuthEnv Host}.
Abbreviation method := (py (World Host) uexn).

(** ** Reading and changing the state *)

Definition on_stores (f : Stores → Stores) : method unit :=
  modify (λ s, {| st := f (st s); au := au s; host := host s |}).
Definition on_auth (f : AuthService → AuthService) : method unit :=
  modify (λ s, {| st := st s; au := f (au s); host := host s |}).
Definition on_host {A} (m : py Host uexn A) : method A := λ s,
  let '(r, h) := m (host s) in (r, {| st := st s; au := au s; host := h |}).
Definition draw (f : Host → string * Host) : method string :=
  on_host (λ h, let '(x, h) := f h in (inr x, h)).
Definition now_ms : method Z := gets (λ s, clock (host s)).

Definition set_lockouts d (a : AuthService) : AuthService :=
  {| _lockouts := d; _rate := _rate a; _tickets := _tickets a;
     _change_listeners := _change_listeners a |}.
Definition set_rate d (a : AuthService) : AuthService :=
  {| _lockouts := _lockouts a; _rate := d; _tickets := _tickets a;
     _change_listeners := _change_listeners a |}.
Definition set_tickets d (a : AuthService) : AuthService :=
  {| _lockouts := _lockouts a; _rate := _rate a; _tickets := d;
     _change_listeners := _change_listeners a |}.
Definition set_listeners d (a : AuthService) : AuthService :=
  {| _lockouts := _lockouts a; _rate := _rate a; _tickets := _tickets a; _change_listeners := d |}.

(** [try: m  except Exception: h] *)
Definition except_exception {A} (m : method A) (h : uexn → method A) : method A :=
  try_except m (λ e, match e with Cancellation => raise Cancellation | _ => h e end).
Definition logged (m : method unit) : method unit := except_exception m (λ _, mret tt).

(** ** The stores *)

Definition get_users : method (list User) := gets (λ s, dict_values (users (st s))).
Definition get_user (id_or_name : string) : method (option User) :=
  gets (λ s, find_in id_or_name (users (st s))).
Definition get_user_by_email (email : string) : method (option User) :=
  gets (λ s, find_email email (users (st s))).
Definition store_create_user (n : NewUser) : method User :=
  taken ← gets (λ s, name_taken (n_name n) (users (st s)));
  _ ← raise_if taken (BadValue ("user already exists: " +:+ n_name n));
  now ← now_ms;
  i ← draw uuid4;
  let u := new_user i now n in
  _ ← on_stores (λ s, set_users (dict_set i u (users s)) s);
  mret u.
Definition store_update_user (i : string) (p : UserPatch) : method User :=
  now ← now_ms;
  (λ s, let '(r, d) := update_user_in i p now (users (st s)) in
        (r, {| st := set_users d (st s); au := au s; host := host s |})) : method User.
Definition store_delete_user (i : string) : method unit :=
  on_stores (λ s, set_users (dict_del i (users s)) s).

Definition create_session (uid h : string) (m : SessionMetadata) (uname : string) : method Session :=
  now ← now_ms;
  i ← draw uuid4;
  let x := new_session i h uid uname m now in
  _ ← on_stores (λ s, set_sessions (dict_set h x (sessions s)) s);
  mret x.
Definition get_session (h : string) : method (option Session) :=
  gets (λ s, dict_get h (sessions (st s))).
Definition get_session_by_id (i : string) : method (option Session) :=
  gets (λ s, session_by_id i (sessions (st s))).
Definition get_active_sessions : method (list Session) :=
  gets (λ s, dict_values (sessions (st s))).
Definition delete_session (h : string) : method unit :=
  on_stores (λ s, set_sessions (dict_del h (sessions s)) s).
Definition delete_session_by_id (i : string) : method unit :=
  on_stores (λ s, set_sessions (delete_session_id i (sessions s)) s).
Definition update_last_activity (h : string) : method unit :=
  now ← now_ms;
  on_stores (λ s, set_sessions (touch_session h now (sessions s)) s).
Definition store_cleanup (max_age_ms : Z) : method unit :=
  now ← now_ms;
  on_stores (λ s, set_sessions (idle_since (now - max_age_ms) (sessions s)) s).

Definition get_group (n : string) : method (option Group) :=
  gets (λ s, group_in n (groups (st s))).
Definition store_create_group (n : string) (desc : option string) (perms : list string) (b : bool)
    : method Group :=
  taken ← gets (λ s, dict_mem (lower n) (groups (st s)));
  _ ← raise_if taken (BadValue ("group already exists: " +:+ n));
  now ← now_ms;
  i ← draw uuid4;
  let g := new_group i now n desc perms b in
  _ ← on_stores (λ s, set_groups (dict_set (lower n) g (groups s)) s);
  mret g.
Definition store_update_group (n : string) (desc : option string) (perms : option (list string))
    : method Group :=
  now ← now_ms;
  (λ s, let '(r, d) := update_group_in n desc perms now (groups (st s)) in
        (r, {| st := set_groups d (st s); au := au s; host := host s |})) : method Group.
Definition store_delete_group (n : string) : method unit :=
  on_stores (λ s, set_groups (dict_del (lower n) (groups s)) s).

Definition get_token (i : string) : method (option ApiToken) :=
  gets (λ s, dict_get i (api_tokens (st s))).
Definition get_token_by_hash (h : string) : method (option ApiToken) :=
  gets (λ s, token_by_hash h (api_tokens (st s))).
Definition create_token (t : ApiToken) : method ApiToken :=
  _ ← on_stores (λ s, set_tokens (dict_set (t_id t) t (api_tokens s)) s);
  mret t.
Definition delete_token (i : string) : method unit :=
  on_stores (λ s, set_tokens (dict_del i (api_tokens s)) s).
Definition delete_user_tokens (uid : string) : method unit :=
  on_stores (λ s, set_tokens (delete_tokens_of uid (api_tokens s)) s).
Definition update_last_used (i : string) (now : Z) : method unit :=
  on_stores (λ s, set_tokens (touch_token i now (api_tokens s)) s).

(** ** Passwords *)

(** The message for a password that violates the policy. *)
Definition validate_password_policy (password : option string) : option string :=
  match password with
  | None => Some "password is required"
  | Some p =>
      if is_empty p then Some "password is required"
      else if Z.of_nat (len p) <? min_password_length auth_options
      then Some ("password must be at least " +:+ str_of_Z (min_password_length auth_options) +:+ " characters")
      else if (PASSWORD_MAX <? len p)%nat then Some "password must be at most 1024 characters"
      else None
  end.

Definition set_password (uid password : string) : method unit :=
  salt ← draw random_salt;
  now ← now_ms;
  let '(encoded, salt_b64) := hash_password pbkdf2 password salt in
  on_stores (λ s, set_credentials
    (dict_set uid {| password_hash := encoded; salt := salt_b64; last_changed := now |}
       (credentials s)) s).

Definition verify_password (uid password : string) : method bool :=
  creds ← gets (λ s, dict_get uid (credentials (st s)));
  match creds with
  | None => mret false
  | Some c =>
      if (PASSWORD_MAX <? len password)%nat then mret false
      else
        let valid := PasswordHasher.verify_password pbkdf2 sha256_hex password (password_hash c) (salt c) in
        _ ← (if valid && needs_rehash (password_hash c) then set_password uid password else mret tt);
        mret valid
  end.

(** ** Lockout and rate limit ([Throttle.v]) *)

Definition lockout_key (u : option User) (attempted : string) : string :=
  match u with
  | Some u => u_id u
  | None => "unknown:" +:+ take_str 256 (lower (strip attempted))
  end.

Definition reserve_attempt (key : string) : method bool := λ s,
  let '(ok, d) := Throttle.reserve_attempt (max_login_attempts auth_options) (lockout_ms auth_options)
                    key (clock (host s)) (_lockouts (au s)) in
  (inr ok, {| st := st s; au := set_lockouts d (au s); host := host s |}).
Definition reset_failures (key : string) : method unit :=
  on_auth (λ a, set_lockouts (Throttle.reset_failures key (_lockouts a)) a).

(** The attempt of a client address. *)
Definition check_rate_limit (ip : string) : method unit := λ s,
  let '(ok, d) := check_rate (rate_limit_attempts auth_options) (rate_limit_window_ms auth_options)
                    ip (clock (host s)) (_rate (au s)) in
  (if ok then inr tt else inl (UsersApiError 429 TOO_MANY_REQUESTS),
   {| st := st s; au := set_rate d (au s); host := host s |}).

(** ** Users, groups, permissions *)

Definition find_user (key : string) : method (option User) :=
  u ← get_user key;
  match u with
  | None => if has_char "@"%char key then get_user_by_email key else mret None
  | Some u => mret (Some u)
  end.

(** The permission lists of the groups that exist, merged. *)
Definition group_permissions (gs : dict string Group) (names : list string) : list string :=
  merge_permissions (omap (λ n, g_permissions <$> group_in n gs) names).
Definition effective_permissions (names : list string) : method (list string) :=
  gets (λ s, group_permissions (groups (st s)) names).
Definition user_permissions (u : User) : method (list string) := effective_permissions (u_groups u).

Definition ensure_covers_user (ctx : AuthContext) (target : User) : method unit :=
  if is_self ctx target then mret tt
  else
    ps ← user_permissions target;
    raise_if (negb (covers (permissions ctx) ps)) (forbidden INSUFFICIENT_PRIVILEGES).

Definition ensure_can_grant_permissions (ctx : AuthContext) (ps : list string) : method unit :=
  match uncovered (permissions ctx) ps with
  | [] => mret tt
  | missing => raise (forbidden ("cannot grant permissions you do not hold: " +:+ join ", " missing))
  end.
Definition ensure_can_grant_groups (ctx : AuthContext) (names : list string) : method unit :=
  ps ← effective_permissions names;
  ensure_can_grant_permissions ctx ps.

Definition in_group (u : User) (g : string) : bool := existsb (λ x, same_text x g) (u_groups u).

Definition enabled_admin (u : User) : bool := negb (disabled u) && in_group u ADMIN_GROUP.
Definition is_last_enabled_admin (u : User) : method bool :=
  if negb (enabled_admin u) then mret false
  else
    us ← get_users;
    mret (length (List.filter enabled_admin us) <=? 1)%nat.

(** ** Auditing and events *)

Definition notify_change : method unit :=
  ls ← gets (λ s, _change_listeners (au s));
  for_each (λ l, logged (on_host (call_listener l))) ls.
Definition add_change_listener (l : nat) : method unit :=
  on_auth (λ a, if bool_decide (l ∈ _change_listeners a) then a
                else set_listeners (_change_listeners a ++ [l]) a).
Fixpoint remove_first (l : nat) (ls : list nat) : list nat :=
  match ls with
  | [] => []
  | x :: ls => if decide (x = l) then ls else x :: remove_first l ls
  end.
Definition remove_change_listener (l : nat) : method unit :=
  on_auth (λ a, set_listeners (remove_first l (_change_listeners a)) a).

(** The fields of an entry beyond its event and user name. *)
Record AuditDetail := {
  x_details : option string;
  x_actor : option string;
  x_metadata : option (dict string pyval);
  x_user_id : option string;
  x_actor_id : option string;
  x_target : option string;
}.

Definition audit (event username : string) (x : AuditDetail) : method unit :=
  i ← draw uuid4;
  now ← now_ms;
  let entry := {| a_id := i; a_timestamp := now; a_event := event;
    a_username := clean_text username 256; a_details := sanitize (x_details x) 1024;
    a_actor := sanitize (x_actor x) 256; a_metadata := x_metadata x; a_user_id := x_user_id x;
    a_actor_id := x_actor_id x; a_target := sanitize (x_target x) 256;
    a_properties := None |} in
  stored ← except_exception (_ ← on_host (audit_log entry); mret true) (λ _, mret false);
  _ ← (if stored : bool then
         match audit_recorded with
         | Some f => logged (on_host (f entry))
         | None => mret tt
         end
       else mret tt);
  if bool_decide (event ∈ _NON_CHANGING_EVENTS) then mret tt else notify_change.

Definition broadcast (message : dict string pyval) : method unit :=
  match broadcast_fn with
  | None => mret tt
  | Some f => logged (on_host (f message))
  end.

(** [{k: v for k, v in data.items() if v is not None}] *)
Definition is_none (v : pyval) : bool := match v with VNone => true | _ => false end.
Definition event_fields (data : dict string pyval) : dict string pyval :=
  List.filter (λ kv, negb (is_none kv.2)) data.
Definition opt_text (o : option string) : pyval := match o with Some x => VStr x | None => VNone end.

Definition publish (event_type : string) (data : dict string pyval) (audience : CliEventAudience)
    : method unit :=
  match event_bus with
  | None =>
      now ← now_ms;
      broadcast (foldl (λ d kv, dict_set kv.1 kv.2 d)
        [("type", VStr event_type); ("timestamp", VStr (iso_ms (now * 1000)))] (event_fields data))
  | Some f => logged (on_host (f event_type (event_fields data) audience))
  end.

Definition publish_session_closed (x : Session) (actor : option string) : method unit :=
  publish "session:closed"
    [("userId", VStr (s_user_id x));
     ("username", if truthy (s_user_name x) then VStr (s_user_name x) else VNone);
     ("sessionId", VStr (s_id x)); ("actor", opt_text actor)]
    (with_permission SESSIONS_READ).

Definition notify_user (uid : string) (message : dict string pyval) : method unit :=
  match user_event_sender with
  | Some f => logged (on_host (f uid message))
  | None => broadcast message
  end.

(** ** Sessions *)

Definition expires_at (x : Session) : Z :=
  session_expires_at x (session_timeout_ms auth_options) (Some (max_session_lifetime_ms auth_options)).
Definition is_expired (x : Session) (now : Z) : bool := expires_at x <? now.

Definition _drop_tickets (sid : string) : method unit :=
  on_auth (λ a, set_tickets (filter (λ kv, k_session_id kv.2 ≠ Some sid) (_tickets a)) a).

(** Who acts: name and id. *)
Definition Actor : Type := option (string * string).
Definition actor_name (a : Actor) : option string := fst <$> a.
Definition detail (uid : option string) (a : Actor) : AuditDetail :=
  {| x_details := None; x_actor := actor_name a; x_metadata := None; x_user_id := uid;
     x_actor_id := snd <$> a; x_target := None |}.
Definition with_details (t : string) (x : AuditDetail) : AuditDetail :=
  {| x_details := Some t; x_actor := x_actor x; x_metadata := x_metadata x;
     x_user_id := x_user_id x; x_actor_id := x_actor_id x; x_target := x_target x |}.
Definition with_metadata (m : dict string pyval) (x : AuditDetail) : AuditDetail :=
  {| x_details := x_details x; x_actor := x_actor x; x_metadata := Some m;
     x_user_id := x_user_id x; x_actor_id := x_actor_id x; x_target := x_target x |}.
Definition with_target (t : string) (x : AuditDetail) : AuditDetail :=
  {| x_details := x_details x; x_actor := x_actor x; x_metadata := x_metadata x;
     x_user_id := x_user_id x; x_actor_id := x_actor_id x; x_target := Some t |}.

Definition revoke_session (x : Session) (reason : string) (a : Actor) (username : option string)
    : method unit :=
  _ ← delete_session_by_id (s_id x);
  _ ← _drop_tickets (s_id x);
  _ ← publish_session_closed x (actor_name a);
  _ ← notify_user (s_user_id x)
        [("type", VStr "session-kicked");
         ("data", VDict [("sessionId", VStr (s_id x)); ("userId", VStr (s_user_id x));
                         ("reason", VStr reason)])];
  audit "session_revoked" (if truthy_opt username then or_empty username else s_user_name x)
    (with_metadata [("sessionId", VStr (s_id x))] (with_details reason (detail (Some (s_user_id x)) a))).

(** The loop over the sessions found; the count of those revoked. *)
Fixpoint revoke_each (uid reason : string) (a : Actor) (keep : option string) (count : Z)
    (l : list Session) : method Z :=
  match l with
  | [] => mret count
  | x :: l =>
      if bool_decide (s_user_id x = uid) && negb (bool_decide (Some (s_id x) = keep))
      then _ ← revoke_session x reason a None; revoke_each uid reason a keep (count + 1) l
      else revoke_each uid reason a keep count l
  end.
Definition revoke_user_sessions (uid reason : string) (a : Actor) (keep : option string) : method Z :=
  l ← get_active_sessions;
  revoke_each uid reason a keep 0 l.

Definition cleanup_sessions : method unit :=
  before ← get_active_sessions;
  _ ← store_cleanup (session_timeout_ms auth_options);
  l ← get_active_sessions;
  _ ← for_each (λ x, now ← now_ms;
                     if is_expired x now then delete_session_by_id (s_id x) else mret tt) l;
  remaining ← get_active_sessions;
  _ ← for_each (λ x, if bool_decide (s_id x ∈ map s_id remaining) then mret tt
                     else publish_session_closed x None) before;
  _ ← notify_change;
  now ← now_ms;
  on_auth (λ a, set_tickets (filter (λ kv, now < k_expires_at kv.2) (_tickets a)) a).

Definition session_payload (x : Session) (u : User) (ps : list string) : dict string pyval :=
  [("id", VStr (s_id x)); ("user", VDict (user_to_dict u)); ("permissions", strings ps);
   ("loginTime", VInt (s_created_at x)); ("lastActivity", VInt (last_activity x));
   ("expiresAt", VInt (expires_at x)); ("usersReadOnly", VBool (read_only_users auth_options));
   ("groupsReadOnly", VBool (read_only_groups auth_options))].

(** ** Authentication *)

(** The live user of a session or a token: found by that id, and enabled. *)
Definition live_user (uid : string) : method User :=
  u ← get_user uid;
  match u with
  | Some u => if negb (bool_decide (u_id u = uid)) || disabled u
              then raise (unauthorized INVALID_TOKEN) else mret u
  | None => raise (unauthorized INVALID_TOKEN)
  end.

Definition _context_for_session (x : Session) : method AuthContext :=
  now ← now_ms;
  if is_expired x now then
    _ ← delete_session_by_id (s_id x);
    _ ← publish_session_closed x None;
    raise (unauthorized "session expired")
  else
    u ← live_user (s_user_id x);
    ps ← effective_permissions (u_groups u);
    mret {| c_user := u; c_groups := u_groups u; permissions := ps; session := Some x;
            c_token := None; external := false; api_token := None |}.

Definition context_for_api_token (record : ApiToken) : method AuthContext :=
  now ← now_ms;
  if token_is_expired record now then raise (unauthorized INVALID_TOKEN)
  else
    u ← live_user (t_user_id record);
    ps ← effective_permissions (u_groups u);
    let scoped := match t_permissions record with
                  | Some scope => List.filter (has_permission ps) scope
                  | None => ps
                  end in
    mret {| c_user := u; c_groups := u_groups u; permissions := scoped; session := None;
            c_token := None; external := false; api_token := Some record |}.

Definition authenticate_api_token (token : string) : method AuthContext :=
  record ← get_token_by_hash (hash_token token);
  match record with
  | None => raise (unauthorized INVALID_TOKEN)
  | Some record =>
      ctx ← context_for_api_token record;
      now ← now_ms;
      if match last_used_at record with
         | None => true
         | Some t => API_TOKEN_LAST_USED_INTERVAL_MS <=? now - t
         end
      then
        _ ← update_last_used (t_id record) now;
        mret {| c_user := c_user ctx; c_groups := c_groups ctx; permissions := permissions ctx;
                session := session ctx; c_token := c_token ctx; external := external ctx;
                api_token := Some (used now record) |}
      else mret ctx
  end.

Definition authenticate_token (token : string) : method AuthContext :=
  if starts_with token API_TOKEN_PREFIX then authenticate_api_token token
  else
    x ← get_session (hash_token token);
    match x with
    | None => raise (unauthorized INVALID_TOKEN)
    | Some x =>
        ctx ← _context_for_session x;
        _ ← update_last_activity (hash_token token);
        now ← now_ms;
        mret {| c_user := c_user ctx; c_groups := c_groups ctx; permissions := permissions ctx;
                session := Some (touched now x); c_token := Some token; external := external ctx;
                api_token := api_token ctx |}
    end.

(** [except UsersApiError: return default] *)
Definition on_refusal {A} (m : method A) (a : A) : method A :=
  try_except m (λ e, match e with UsersApiError _ _ => mret a | e => raise e end).

Definition is_api_token_active (tid uid : string) : method bool :=
  record ← get_token tid;
  match record with
  | Some record =>
      if bool_decide (t_user_id record = uid)
      then on_refusal (_ ← context_for_api_token record; mret true) false
      else mret false
  | None => mret false
  end.

Definition is_context_active (ctx : AuthContext) : method bool :=
  if external ctx then mret true
  else
    match api_token ctx, session ctx with
    | Some t, _ => is_api_token_active (t_id t) (u_id (c_user ctx))
    | None, None => mret false
    | None, Some x =>
        found ← get_session_by_id (s_id x);
        now ← now_ms;
        match found with
        | Some y =>
            if negb (bool_decide (s_user_id y = u_id (c_user ctx))) || is_expired y now
            then mret false
            else
              u ← get_user (u_id (c_user ctx));
              mret match u with
                   | Some u => bool_decide (u_id u = u_id (c_user ctx)) && negb (disabled u)
                   | None => false
                   end
        | None => mret false
        end
    end.

Definition _external_context (r : ExternalAuthResult) : method AuthContext :=
  if disabled (e_user r) then raise (unauthorized ACCOUNT_DISABLED)
  else
    let gs := u_groups (e_user r) in
    let gs := if e_is_admin r && negb (existsb (λ g, bool_decide (lower g = ADMIN_GROUP)) gs)
              then gs ++ [ADMIN_GROUP] else gs in
    let u := {| u_id := u_id (e_user r); u_name := u_name (e_user r); u_email := u_email (e_user r);
                u_groups := gs; disabled := disabled (e_user r);
                must_change_password := must_change_password (e_user r);
                home_dir := home_dir (e_user r); u_data := u_data (e_user r);
                last_login_at := last_login_at (e_user r); u_created_at := u_created_at (e_user r);
                u_updated_at := u_updated_at (e_user r) |} in
    now ← now_ms;
    i ← draw uuid4;
    ps ← effective_permissions gs;
    let ps := match e_permissions r with
              | Some ((_ :: _) as l) => merge_permissions [ps; l]
              | _ => ps
              end in
    mret {| c_user := u; c_groups := gs; permissions := ps;
            session := Some {| s_id := "external-" +:+ i; token_hash := ""; s_user_id := u_id u;
              s_user_name := u_name u; s_created_at := now; last_activity := now;
              metadata := no_metadata |};
            c_token := None; external := true; api_token := None |}.

(** What the adapter made of the request. *)
Definition authenticate_external (run_auth_adapter : py Host uexn (option ExternalAuthResult))
    : method AuthContext :=
  r ← on_host run_auth_adapter;
  match r with
  | None => raise (unauthorized "unauthorized")
  | Some r => _external_context r
  end.

Definition ensure_password_changed (ctx : AuthContext) : method unit :=
  raise_if (must_change_password (c_user ctx)) (forbidden PASSWORD_CHANGE_REQUIRED).

(** ** Tickets *)

Definition issue_ticket (ctx : AuthContext) : method (string * Z) :=
  now ← now_ms;
  _ ← on_auth (λ a, set_tickets (filter (λ kv, now < k_expires_at kv.2) (_tickets a)) a);
  ticket ← draw token_hex;
  let t := {| k_session_id := if external ctx then None else s_id <$> session ctx;
              k_user_id := u_id (c_user ctx);
              k_expires_at := now + ticket_ttl_ms auth_options;
              k_external_ctx := if external ctx then Some ctx else None;
              k_api_token_id := api_token_id ctx |} in
  _ ← on_auth (λ a, set_tickets (dict_set (hash_token ticket) t (_tickets a)) a);
  mret (ticket, ticket_ttl_ms auth_options / 1000).

Definition redeem (t : _Ticket) : method (option AuthContext) :=
  match k_external_ctx t, k_api_token_id t, k_session_id t with
  | Some ctx, _, _ => mret (Some ctx)
  | None, Some tid, _ =>
      record ← get_token tid;
      match record with
      | Some record =>
          if bool_decide (t_user_id record = k_user_id t)
          then on_refusal (ctx ← context_for_api_token record; mret (Some ctx)) None
          else mret None
      | None => mret None
      end
  | None, None, None => mret None
  | None, None, Some sid =>
      x ← get_session_by_id sid;
      match x with
      | Some x => if bool_decide (s_user_id x = k_user_id t)
                  then on_refusal (ctx ← _context_for_session x; mret (Some ctx)) None
                  else mret None
      | None => mret None
      end
  end.

Definition consume_ticket (ticket : option string) : method (option AuthContext) :=
  match ticket with
  | None => mret None
  | Some ticket =>
      if is_empty ticket then mret None
      else
        entry ← gets (λ s, dict_get (hash_token ticket) (_tickets (au s)));
        _ ← on_auth (λ a, set_tickets (dict_del (hash_token ticket) (_tickets a)) a);
        now ← now_ms;
        match entry with
        | Some t => if k_expires_at t <=? now then mret None else redeem t
        | None => mret None
        end
  end.

(** ** Login and logout *)

(** The end of a login: the session of a user whose password was right. *)
Definition open_session (u : User) (m : SessionMetadata) : method LoginResult :=
  now ← now_ms;
  u ← store_update_user (u_id u)
        {| p_name := None; p_email := None; p_groups := None; p_disabled := None;
           p_data := None; p_home_dir := None; p_last_login := Some now; p_must_change := None |};
  token ← draw token_hex;
  x ← create_session (u_id u) (hash_token token) m (u_name u);
  _ ← audit "login" (u_name u)
        (with_metadata [("remoteAddress", opt_text (remote_address m)); ("sessionId", VStr (s_id x))]
           (detail (Some (u_id u)) (Some (u_name u, u_id u))));
  _ ← publish "session:opened"
        [("userId", VStr (u_id u)); ("username", VStr (u_name u));
         ("sessionId", VStr (s_id x)); ("actor", VStr (u_name u))]
        (with_permission SESSIONS_READ);
  ps ← user_permissions u;
  mret {| l_token := token; l_session := x; l_user := u; l_permissions := ps |}.

Definition login (username password : string) (m : SessionMetadata) : method LoginResult :=
  let audit_meta := [("remoteAddress", opt_text (remote_address m))] in
  u ← find_user username;
  let key := lockout_key u username in
  let shown := match u with Some u => u_name u | None => clean_text username 64 end in
  let uid := u_id <$> u in
  let failed reason uid :=
    audit "login_failed" shown (with_metadata audit_meta (with_details reason (detail uid None))) in
  admitted ← reserve_attempt key;
  if negb admitted then
    _ ← failed "account locked" uid;
    raise (UsersApiError 429 ACCOUNT_LOCKED)
  else
    match u with
    | None =>
        _ ← failed "unknown user" None;
        raise (UsersApiError 401 INVALID_CREDENTIALS)
    | Some u =>
        valid ← verify_password (u_id u) password;
        if negb valid then
          _ ← failed "wrong password" uid;
          raise (UsersApiError 401 INVALID_CREDENTIALS)
        else
          _ ← reset_failures key;
          if disabled u then
            _ ← failed "account disabled" uid;
            raise (UsersApiError 403 ACCOUNT_DISABLED)
          else
            open_session u m
    end.

Definition check_password_attempt (ctx : AuthContext) (target : User) (password : string)
    : method bool :=
  admitted ← reserve_attempt (u_id target);
  _ ← raise_if (negb admitted) (UsersApiError 429 ACCOUNT_LOCKED);
  valid ← verify_password (u_id target) password;
  _ ← (if valid : bool then reset_failures (u_id target)
       else audit "login_failed" (u_name target)
              (with_details "password verification failed"
                 (detail (Some (u_id target)) (Some (u_name (c_user ctx), u_id (c_user ctx))))));
  mret valid.

Definition logout (token : string) : method unit :=
  x ← get_session (hash_token token);
  _ ← delete_session (hash_token token);
  match x with
  | None => mret tt
  | Some x =>
      _ ← _drop_tickets (s_id x);
      u ← get_user (s_user_id x);
      let name := match u with Some u => u_name u | None => s_user_name x end in
      _ ← audit "logout" name
            (with_metadata [("sessionId", VStr (s_id x))]
               (detail (Some (s_user_id x)) (Some (name, s_user_id x))));
      publish_session_closed x (Some name)
  end.

(** ** Seeding *)

Definition seed_group (n desc : string) (perms : list string) : method unit :=
  g ← get_group n;
  match g with
  | Some _ => mret tt
  | None => _ ← store_create_group n (Some desc) perms true; mret tt
  end.

(** The warnings of the last branch are left out. *)
Definition seed (default_admin_password : option string) : method unit :=
  _ ← (if read_only_groups auth_options then mret tt
       else
         _ ← seed_group ADMIN_GROUP "Administrators" ["*"];
         seed_group USERS_GROUP "Default group for new accounts" DEFAULT_USERS_GROUP_PERMISSIONS);
  if external_auth || read_only_users auth_options then mret tt
  else
    us ← get_users;
    match us with
    | _ :: _ => mret tt
    | [] =>
        password ← (match default_admin_password with
                    | Some p => mret p
                    | None => draw random_password
                    end);
        root ← store_create_user
          {| n_name := "root"; n_email := "root@localhost"; n_groups := [ADMIN_GROUP];
             n_data := None; n_disabled := false; n_home_dir := None;
             n_must_change := bool_decide (default_admin_password = None) |};
        set_password (u_id root) password
    end.
End Auth.
