(* ===== verification/AuthSafety.v ===== *)
(** * What authentication guarantees

    Theorems on [AuthService.v]: what a token, a ticket and a login give access
    to, and what a logout or a revocation takes away.  Audit entries, events
    and listeners are host code: they leave the stores and the tables alone and
    only a cancellation can come out of them ([effect]). *)

From S2P Require Import Prelude PyStr Values Permissions Events UserModel Validation UserStores PasswordHasher.
From S2P Require Import Throttle AuditModel AuthService.
From Stdlib Require Import Ascii.

Section Safety.
Context {Host : Type} `{E : AuthEnv Host}.
Abbreviation method := (py (World Host) uexn).

Definition set_host (h : Host) (s : World Host) : World Host :=
  {| st := st s; au := au s; host := h |}.

(** A method that only has an effect on the host. *)
Definition effect (m : method unit) : Prop :=
  ∀ s, ∃ h, m s = (inr tt, set_host h s) ∨ m s = (inl Cancellation, set_host h s).

Lemma set_host_same s : set_host (host s) s = s.
Proof. by destruct s. Qed.

Lemma effect_ret : effect (mret tt).
Proof. intros s. exists (host s). left. by rewrite set_host_same. Qed.

Lemma effect_bind (m n : method unit) : effect m → effect n → effect (_ ← m; n).
Proof.
  intros Hm Hn s. rewrite py_bind_eq. destruct (Hm s) as [h [-> | ->]]; [|by exists h; right].
  destruct (Hn (set_host h s)) as [h' H]. exists h'. exact H.
Qed.

Lemma effect_for_each {A} (f : A → method unit) l : (∀ x, effect (f x)) → effect (for_each f l).
Proof. intros Hf. induction l as [|x l IH]; simpl; [apply effect_ret|]. by apply effect_bind. Qed.

Lemma effect_logged (m : py Host uexn unit) : effect (logged (on_host m)).
Proof.
  intros s. unfold logged, except_exception, try_except, on_host.
  destruct (m (host s)) as [[e|[]] h]; exists h; [destruct e; auto|auto].
Qed.

(** What reads the state or draws from the host may come first. *)
Lemma effect_gets {A} (f : World Host → A) (k : A → method unit) :
  (∀ a, effect (k a)) → effect (gets f ≫= k).
Proof. intros Hk s. apply (Hk (f s) s). Qed.

Lemma effect_draw f (k : string → method unit) : (∀ a, effect (k a)) → effect (draw f ≫= k).
Proof.
  intros Hk s. unfold draw, on_host. rewrite py_bind_eq. destruct (f (host s)) as [x h].
  destruct (Hk x (set_host h s)) as [h' H]. exists h'. exact H.
Qed.

Lemma effect_notify_change : effect notify_change.
Proof. apply effect_gets. intros ls. apply effect_for_each. intros l. apply effect_logged. Qed.

Lemma effect_broadcast m : effect (broadcast m).
Proof. unfold broadcast. destruct broadcast_fn; [apply effect_logged|apply effect_ret]. Qed.

Lemma effect_publish t d a : effect (publish t d a).
Proof.
  unfold publish. destruct event_bus; [apply effect_logged|].
  apply effect_gets. intros. apply effect_broadcast.
Qed.

Lemma effect_notify_user uid m : effect (notify_user uid m).
Proof. unfold notify_user. destruct user_event_sender; [apply effect_logged|apply effect_broadcast]. Qed.

Lemma effect_audit event username x : effect (audit event username x).
Proof.
  unfold audit. apply effect_draw. intros i. apply effect_gets. intros now. cbv zeta.
  set (entry := {| a_id := i |}). intros s.
  assert (effect (if bool_decide (event ∈ _NON_CHANGING_EVENTS) then mret tt else notify_change)) as Hn.
  { case_bool_decide; [apply effect_ret|apply effect_notify_change]. }
  assert (∀ b : bool, effect (if b then match audit_recorded with
    | Some f => logged (on_host (f entry)) | None => mret tt end else mret tt)) as Hr.
  { intros []; [|apply effect_ret]. destruct audit_recorded; [apply effect_logged|apply effect_ret]. }
  rewrite py_bind_eq.
  assert (∃ h, except_exception (_ ← on_host (audit_log entry); mret true) (λ _, mret false) s
      = (inl Cancellation, set_host h s) ∨
    ∃ b, except_exception (_ ← on_host (audit_log entry); mret true) (λ _, mret false) s
      = (inr b, set_host h s)) as [h [-> |[b ->]]].
  { unfold except_exception, try_except. rewrite py_bind_eq. unfold on_host.
    destruct (audit_log entry (host s)) as [[e|[]] h]; exists h; [destruct e|]; eauto. }
  - exists h. by right.
  - destruct (effect_bind _ _ (Hr b) Hn (set_host h s)) as [h' H]. exists h'. exact H.
Qed.

Lemma effect_closed x a : effect (publish_session_closed x a).
Proof. apply effect_publish. Qed.

(** A method after an effect: it runs with another host state, or a
    cancellation came first. *)
Lemma after_effect {A} (m : method unit) (k : method A) s :
  effect m → ∃ h, (_ ← m; k) s = k (set_host h s) ∨ (_ ← m; k) s = (inl Cancellation, set_host h s).
Proof.
  intros Hm. rewrite py_bind_eq. destruct (Hm s) as [h [-> | ->]]; exists h; auto.
Qed.

Lemma effect_then_raise {A} (m : method unit) (e : uexn) s :
  effect m →
  ∃ h, (_ ← m; raise e : method A) s = (inl e, set_host h s) ∨
       (_ ← m; raise e : method A) s = (inl Cancellation, set_host h s).
Proof. apply after_effect. Qed.

(** ** The table of a login *)

(** The password is the user's. *)
Definition password_ok (s : World Host) (uid password : string) : bool :=
  match dict_get uid (credentials (st s)) with
  | Some c => negb (PASSWORD_MAX <? len password)%nat &&
      PasswordHasher.verify_password pbkdf2 sha256_hex password (password_hash c) (salt c)
  | None => false
  end.

(** Everything but the credentials, the lockouts and the host. *)
Definition same_but_credentials (s s' : World Host) : Prop :=
  users (st s') = users (st s) ∧ sessions (st s') = sessions (st s) ∧
  groups (st s') = groups (st s) ∧ api_tokens (st s') = api_tokens (st s) ∧
  _rate (au s') = _rate (au s) ∧ _tickets (au s') = _tickets (au s) ∧
  _change_listeners (au s') = _change_listeners (au s).

Lemma verify_password_eq uid password s :
  ∃ s', verify_password uid password s = (inr (password_ok s uid password), s') ∧
    same_but_credentials s s' ∧ _lockouts (au s') = _lockouts (au s).
Proof.
  unfold verify_password, password_ok. rewrite py_bind_eq. cbn [gets].
  destruct (dict_get uid (credentials (st s))) as [c|]; [|by exists s].
  destruct (PASSWORD_MAX <? len password)%nat; [by exists s|]. cbn [negb andb]. rewrite py_bind_eq.
  destruct (_ && needs_rehash (password_hash c)); [|by exists s].
  unfold set_password, draw, on_host. rewrite !py_bind_eq.
  destruct (random_salt (host s)) as [x h]. rewrite py_bind_eq. cbn [now_ms gets].
  destruct (hash_password pbkdf2 password x). eexists. split; [reflexivity|]. done.
Qed.

(** The attempt is let through. *)
Definition attempt_ok (s : World Host) (key : string) : bool :=
  (Throttle.reserve_attempt (max_login_attempts auth_options) (lockout_ms auth_options) key
     (clock (host s)) (_lockouts (au s))).1.

Lemma reserve_attempt_eq key s :
  ∃ s', reserve_attempt key s = (inr (attempt_ok s key), s') ∧ st s' = st s ∧ host s' = host s ∧
    same_but_credentials s s' ∧
    _lockouts (au s') = (Throttle.reserve_attempt (max_login_attempts auth_options)
      (lockout_ms auth_options) key (clock (host s)) (_lockouts (au s))).2.
Proof.
  unfold reserve_attempt, attempt_ok.
  destruct (Throttle.reserve_attempt _ _ _ _ _) as [ok d]. by eexists.
Qed.

(** The user that a login names. *)
Definition named_user (s : World Host) (username : string) : option User :=
  match find_in username (users (st s)) with
  | Some u => Some u
  | None => if has_char "@"%char username then find_email username (users (st s)) else None
  end.

Lemma find_user_eq username s : find_user username s = (inr (named_user s username), s).
Proof.
  unfold find_user, named_user. rewrite py_bind_eq. cbn [get_user gets].
  destruct (find_in username (users (st s))); [done|]. by destruct (has_char _ _).
Qed.

(** How a login is refused: the status and the message. *)
Definition login_refusal (s : World Host) (username password : string) : option uexn :=
  let u := named_user s username in
  if negb (attempt_ok s (lockout_key u username)) then Some (UsersApiError 429 ACCOUNT_LOCKED)
  else
    match u with
    | None => Some (UsersApiError 401 INVALID_CREDENTIALS)
    | Some u =>
        if negb (password_ok s (u_id u) password) then Some (UsersApiError 401 INVALID_CREDENTIALS)
        else if disabled u then Some (UsersApiError 403 ACCOUNT_DISABLED) else None
    end.

(** Refusals end with the error of the table, the sessions and users as they
    were. *)
Lemma login_refused username password m s e :
  login_refusal s username password = Some e →
  ((login username password m s).1 = inl e ∨ (login username password m s).1 = inl Cancellation) ∧
  same_but_credentials s (login username password m s).2.
Proof.
  unfold login_refusal, login. cbv zeta. intros Href. rewrite py_bind_eq, find_user_eq.
  set (u := named_user s username) in *. rewrite py_bind_eq.
  destruct (reserve_attempt_eq (lockout_key u username) s) as (s1 & -> & Hst & Hh & Hs1 & _).
  destruct (attempt_ok s (lockout_key u username)); cbn [negb] in *.
  2: { injection Href as <-. edestruct @effect_then_raise as [h [H|H]]; [apply effect_audit| |];
       rewrite H; split; [auto|exact Hs1|auto|exact Hs1]. }
  destruct u as [u|].
  2: { injection Href as <-. edestruct @effect_then_raise as [h [H|H]]; [apply effect_audit| |];
       rewrite H; split; [auto|exact Hs1|auto|exact Hs1]. }
  rewrite py_bind_eq. destruct (verify_password_eq (u_id u) password s1) as (s2 & -> & Hs2 & Hl2).
  assert (password_ok s1 (u_id u) password = password_ok s (u_id u) password) as ->
    by (unfold password_ok; by rewrite Hst).
  assert (same_but_credentials s s2) as Hs12.
  { unfold same_but_credentials in *. naive_solver congruence. }
  destruct (password_ok s (u_id u) password); cbn [negb] in *.
  2: { injection Href as <-. edestruct @effect_then_raise as [h [H|H]]; [apply effect_audit| |];
       rewrite H; split; [auto|exact Hs12|auto|exact Hs12]. }
  destruct (disabled u); [|done]. injection Href as <-.
  rewrite py_bind_eq. cbn [reset_failures on_auth modify].
  edestruct @effect_then_raise as [h [H|H]]; [apply effect_audit| |];
    rewrite H; split; [auto|exact Hs12|auto|exact Hs12].
Qed.

(** ** Users by id *)

Lemma find_in_elem k d u : find_in k d = Some u → ∃ i, (i, u) ∈ d.
Proof.
  unfold find_in. destruct (dict_get k d) as [v|] eqn:Hg.
  - intros [= ->]. exists k. by apply dict_get_elem_of.
  - intros Hf. apply find_some in Hf as [Hin _]. apply list_elem_of_In, list_elem_of_fmap in Hin
      as [[i v] [-> Hin]]. by exists i.
Qed.

Lemma find_in_by_id i u (d : dict string User) : dict_get i d = Some u → find_in i d = Some u.
Proof. unfold find_in. by intros ->. Qed.

Lemma named_user_get s username u :
  stores_ok (st s) → named_user s username = Some u → dict_get (u_id u) (users (st s)) = Some u.
Proof.
  intros Hok Hn. assert (∃ i, (i, u) ∈ users (st s)) as [i Hin].
  { unfold named_user in Hn. destruct (find_in username (users (st s))) as [v|] eqn:Hf.
    - injection Hn as ->. by eapply find_in_elem.
    - destruct (has_char _ _); [|done]. apply find_some in Hn as [Hin _].
      apply list_elem_of_In, list_elem_of_fmap in Hin as [[i v] [-> Hin]]. by exists i. }
  rewrite (users_keyed _ Hok i u Hin). apply dict_elem_of_get; [apply Hok|done].
Qed.

(** ** What a bearer token gives *)

(** The user a stored session or token belongs to, if it may be used. *)
Definition live (s : World Host) (uid : string) : option User :=
  match find_in uid (users (st s)) with
  | Some u => if bool_decide (u_id u = uid) && negb (disabled u) then Some u else None
  | None => None
  end.

Lemma live_user_eq uid s :
  live_user uid s = (match live s uid with
                     | Some u => inr u
                     | None => inl (unauthorized INVALID_TOKEN)
                     end, s).
Proof.
  unfold live_user, live. rewrite py_bind_eq. cbn [get_user gets].
  destruct (find_in uid (users (st s))) as [u|]; [|done].
  destruct (bool_decide (u_id u = uid)); [|done]. by destruct (disabled u).
Qed.

Definition session_context (x : Session) (u : User) (ps : list string) (token : option string)
    : AuthContext :=
  {| c_user := u; c_groups := u_groups u; permissions := ps; session := Some x; c_token := token;
     external := false; api_token := None |}.

(** A refusal of [_context_for_session] may still have deleted the session. *)
Lemma context_for_session_eq x s :
  match is_expired x (clock (host s)), live s (s_user_id x) with
  | false, Some u =>
      _context_for_session x s =
        (inr (session_context x u (group_permissions (groups (st s)) (u_groups u)) None), s)
  | _, _ => ∃ e, (_context_for_session x s).1 = inl e
  end.
Proof.
  unfold _context_for_session. rewrite py_bind_eq. cbn [now_ms gets].
  destruct (is_expired x (clock (host s))).
  - rewrite py_bind_eq. cbn [delete_session_by_id on_stores modify].
    edestruct @effect_then_raise as [h [H|H]]; [apply effect_closed| |]; rewrite H; eauto.
  - rewrite py_bind_eq, live_user_eq. destruct (live s (s_user_id x)); eauto.
Qed.

(** The session of a token authenticates its live user. *)
Lemma authenticate_session token s x u :
  starts_with token API_TOKEN_PREFIX = false → dict_get (hash_token token) (sessions (st s)) = Some x →
  clock (host s) ≤ expires_at x → live s (s_user_id x) = Some u →
  authenticate_token token s =
    (inr (session_context (touched (clock (host s)) x) u
            (group_permissions (groups (st s)) (u_groups u)) (Some token)),
     {| st := set_sessions (dict_set (hash_token token) (touched (clock (host s)) x)
                (sessions (st s))) (st s); au := au s; host := host s |}).
Proof.
  intros Hp Hx Hexp Hu. unfold authenticate_token. rewrite Hp, py_bind_eq. cbn [get_session gets]. rewrite Hx.
  rewrite py_bind_eq. pose proof (context_for_session_eq x s) as Hc. unfold is_expired in Hc.
  destruct (Z.ltb_spec (expires_at x) (clock (host s))); [lia|]. rewrite Hu in Hc. rewrite Hc.
  rewrite !py_bind_eq. unfold update_last_activity. rewrite py_bind_eq.
  cbn [now_ms gets on_stores modify]. unfold touch_session. by rewrite Hx.
Qed.

(** C5: a bearer token that is not an API token authenticates exactly when a
    stored session has its hash, that session has neither idled out nor outlived
    its lifetime, and its user still exists under the same id and is enabled;
    the caller is then that user with the permissions of the groups it has now,
    and only the session's last activity changes. *)
Theorem authenticate_token_spec token s ctx s' :
  starts_with token API_TOKEN_PREFIX = false →
  authenticate_token token s = (inr ctx, s') ↔
  ∃ x u, dict_get (hash_token token) (sessions (st s)) = Some x ∧
    clock (host s) ≤ expires_at x ∧ live s (s_user_id x) = Some u ∧
    ctx = session_context (touched (clock (host s)) x) u
            (group_permissions (groups (st s)) (u_groups u)) (Some token) ∧
    s' = {| st := set_sessions (dict_set (hash_token token) (touched (clock (host s)) x)
                    (sessions (st s))) (st s); au := au s; host := host s |}.
Proof.
  intros Hp. split; [|intros (x & u & Hx & Hexp & Hu & -> & ->); by apply authenticate_session].
  destruct (dict_get (hash_token token) (sessions (st s))) as [x|] eqn:Hx.
  2: { unfold authenticate_token. by rewrite Hp, py_bind_eq; cbn [get_session gets]; rewrite Hx. }
  destruct (Z.leb_spec (clock (host s)) (expires_at x)) as [Hle|Hlt], (live s (s_user_id x)) as [u|] eqn:Hu.
  { rewrite (authenticate_session _ _ x u) by done. intros [= <- <-]. by exists x, u. }
  all: unfold authenticate_token; rewrite Hp, py_bind_eq; cbn [get_session gets]; rewrite Hx, py_bind_eq;
    pose proof (context_for_session_eq x s) as Hc; unfold is_expired in Hc; rewrite Hu in Hc;
    destruct (Z.ltb_spec (expires_at x) (clock (host s))); try lia;
    destruct Hc as [e He]; by destruct (_context_for_session x s) as [[?|?] ?].
Qed.

(** ** A login gives a token that works *)

Definition signed_in (now : Z) (u : User) : User :=
  apply_patch {| p_name := None; p_email := None; p_groups := None; p_disabled := None;
    p_data := None; p_home_dir := None; p_last_login := Some now; p_must_change := None |} now u.

(** The state with one more session, of a user that was [u]. *)
Definition with_session (r : LoginResult) (s : World Host) (h : Host) : World Host :=
  {| st := set_sessions (dict_set (hash_token (l_token r)) (l_session r) (sessions (st s)))
             (set_users (dict_set (u_id (l_user r)) (l_user r) (users (st s))) (st s));
     au := au s; host := h |}.

Lemma open_session_spec u m s :
  dict_get (u_id u) (users (st s)) = Some u →
  ∃ r h0 h, l_token r = (token_hex h0).1 ∧ l_user r = signed_in (clock (host s)) u ∧
    l_permissions r = group_permissions (groups (st s)) (u_groups u) ∧
    s_user_id (l_session r) = u_id u ∧
    (open_session u m s = (inr r, with_session r s h) ∨
     open_session u m s = (inl Cancellation, with_session r s h)).
Proof.
  intros Hget. remember (open_session u m s) as res eqn:Hres. revert Hres.
  unfold open_session. rewrite py_bind_eq. cbn [now_ms gets]. rewrite py_bind_eq.
  unfold store_update_user at 1. rewrite py_bind_eq. cbn [now_ms gets].
  unfold update_user_in. rewrite Hget. fold (signed_in (clock (host s)) u).
  rewrite py_bind_eq. unfold draw at 1, on_host at 1. cbn [host st au].
  destruct (token_hex (host s)) as [token h1] eqn:Ht. rewrite py_bind_eq.
  unfold create_session at 1. rewrite py_bind_eq. cbn [now_ms gets]. rewrite py_bind_eq.
  unfold draw at 1, on_host at 1. cbn [host st au]. destruct (uuid4 h1) as [i h2].
  rewrite py_bind_eq. cbn [on_stores modify mret py_ret].
  set (x := new_session _ _ _ _ _ _).
  set (r := {| l_token := token; l_session := x; l_user := signed_in (clock (host s)) u;
               l_permissions := group_permissions (groups (st s)) (u_groups u) |}).
  intros Hres. exists r, (host s).
  match type of Hres with
  | _ = (?m ≫= _) ?s0 =>
      destruct (after_effect m (_ ← publish "session:opened"
        [("userId", VStr (u_id (signed_in (clock (host s)) u)));
         ("username", VStr (u_name (signed_in (clock (host s)) u)));
         ("sessionId", VStr (s_id x)); ("actor", VStr (u_name (signed_in (clock (host s)) u)))]
        (with_permission SESSIONS_READ); ps ← user_permissions (signed_in (clock (host s)) u);
        mret {| l_token := token; l_session := x; l_user := signed_in (clock (host s)) u;
                l_permissions := ps |}) s0) as [h [Hk|Hk]]; [apply effect_audit|..]
  end.
  - rewrite Hk in Hres. clear Hk.
    match type of Hres with
    | _ = (?m ≫= _) ?s0 =>
        destruct (after_effect m (ps ← user_permissions (signed_in (clock (host s)) u);
          mret {| l_token := token; l_session := x; l_user := signed_in (clock (host s)) u;
                  l_permissions := ps |}) s0) as [h' [Hk|Hk]]; [apply effect_publish|..]
    end; rewrite Hk in Hres; exists h'; (split_and!; [by rewrite Ht|done|done|done|]); auto.
  - exists h. (split_and!; [by rewrite Ht|done|done|done|]). right. rewrite Hres. exact Hk.
Qed.

(** A login that is not refused is [open_session]. *)
Lemma login_accepted username password m s :
  login_refusal s username password = None →
  ∃ u s1, named_user s username = Some u ∧ password_ok s (u_id u) password = true ∧
    disabled u = false ∧ login username password m s = open_session u m s1 ∧
    same_but_credentials s s1 ∧
    _lockouts (au s1) = Throttle.reset_failures (u_id u)
      (Throttle.reserve_attempt (max_login_attempts auth_options) (lockout_ms auth_options)
         (u_id u) (clock (host s)) (_lockouts (au s))).2.
Proof.
  intros Href. unfold login_refusal in Href. cbv zeta in Href.
  destruct (attempt_ok s _) eqn:Ha; [|done]. cbn [negb] in Href.
  destruct (named_user s username) as [u|] eqn:Hu; [|done].
  destruct (password_ok s (u_id u) password) eqn:Hpw; [|done]. cbn [negb] in Href.
  destruct (disabled u) eqn:Hd; [done|]. clear Href.
  unfold login. cbv zeta. rewrite py_bind_eq, find_user_eq, Hu, py_bind_eq.
  destruct (reserve_attempt_eq (lockout_key (Some u) username) s) as (s1 & -> & Hst & Hh & Hs1 & Hl1).
  rewrite Ha. cbn [negb]. rewrite py_bind_eq.
  destruct (verify_password_eq (u_id u) password s1) as (s2 & -> & Hs2 & Hl2).
  assert (password_ok s1 (u_id u) password = true) as -> by (unfold password_ok; by rewrite Hst).
  cbn [negb]. rewrite py_bind_eq. cbn [reset_failures on_auth modify]. rewrite Hd.
  eexists u, _. split_and!; [done..|reflexivity| |].
  - unfold same_but_credentials in *. cbn [st au set_lockouts _rate _tickets _change_listeners].
    naive_solver congruence.
  - cbn [au set_lockouts _lockouts]. rewrite Hl2, Hl1. reflexivity.
Qed.

(** C10: a login that succeeds had the password of an enabled user, and the
    token it returns authenticates that user, with the permissions the login
    reported, until the session expires. *)
Theorem login_token_works username password m s r s' s2 :
  stores_ok (st s) → (∀ h, starts_with (token_hex h).1 API_TOKEN_PREFIX = false) →
  login username password m s = (inr r, s') →
  st s2 = st s' → clock (host s2) ≤ expires_at (l_session r) →
  (∃ u, named_user s username = Some u ∧ u_id u = u_id (l_user r) ∧
     password_ok s (u_id u) password = true ∧ disabled u = false) ∧
  ∃ ctx s3, authenticate_token (l_token r) s2 = (inr ctx, s3) ∧
    c_user ctx = l_user r ∧ permissions ctx = l_permissions r ∧ external ctx = false.
Proof.
  intros Hok Hhex Hlogin Hst Hclock.
  destruct (login_refusal s username password) as [e|] eqn:Href.
  { destruct (login_refused username password m s e Href) as [[H|H] _]; rewrite Hlogin in H; done. }
  destruct (login_accepted username password m s Href)
    as (u & s1 & Hu & Hpw & Hd & Heq & (Hus & Hss & Hgs & _) & _).
  rewrite Heq in Hlogin. pose proof (named_user_get s username u Hok Hu) as Hget.
  destruct (open_session_spec u m s1) as (r' & h0 & h & Htok & Huser & Hps & Hsu & Hr); [by rewrite Hus|].
  assert (r' = r ∧ with_session r' s1 h = s') as [-> <-].
  { destruct Hr as [Hr|Hr]; rewrite Hr in Hlogin; by simplify_eq. }
  clear Hr Hlogin Heq. assert (u_id (l_user r) = u_id u) as Hid by by rewrite Huser.
  split; [by exists u|].
  eexists _, _. split.
  - apply (authenticate_session _ s2 (l_session r) (l_user r)).
    + rewrite Htok. apply Hhex.
    + rewrite Hst. cbn [with_session st sessions set_sessions]. by rewrite dict_get_set_eq.
    + done.
    + unfold live. rewrite Hst, Hsu. cbn [with_session st sessions set_sessions users set_users].
      rewrite Hid, (find_in_by_id _ (l_user r)) by apply dict_get_set_eq.
      rewrite bool_decide_true by done. rewrite Huser. cbn. by rewrite Hd.
  - rewrite Hst. cbn [session_context c_user permissions external with_session st groups set_sessions set_users].
    split_and!; [done| |done]. rewrite Hps, Huser. reflexivity.
Qed.
End Safety.

(** * Tickets, API tokens and revocation

    More theorems on [AuthService.v]: a WebSocket ticket is used once, an API
    token never grants more than its user has, and a revoked session is gone
    with its tickets. *)

Section Tokens.
Context {Host : Type} `{E : AuthEnv Host}.
Abbreviation method := (py (World Host) uexn).

(** ** Methods that keep the service's tables *)

Definition tables_are (a : AuthService) (s : World Host) : Prop := au s = a.

Lemma keeps_effect (m : method unit) (P : World Host → Prop) :
  (∀ h s, P s → P (set_host h s)) → effect m → keeps P m.
Proof. intros HP Hm s Hs. destruct (Hm s) as [h [-> | ->]]; by apply HP. Qed.

Lemma keeps_gets {A} (f : World Host → A) P : keeps (E := uexn) P (gets f).
Proof. by intros s Hs. Qed.
Lemma keeps_ret {A} (a : A) P : keeps (S := World Host) (E := uexn) P (mret a).
Proof. by intros s Hs. Qed.
Lemma keeps_raise {A} (e : uexn) P : keeps (S := World Host) (A := A) P (raise e).
Proof. by intros s Hs. Qed.

Lemma keeps_on_stores f a : keeps (E := uexn) (tables_are a) (on_stores (Host := Host) f).
Proof. by intros s Hs. Qed.

Lemma keeps_closed x n a : keeps (tables_are a) (publish_session_closed x n).
Proof. by apply keeps_effect, effect_closed. Qed.

Lemma keeps_live_user uid a : keeps (tables_are a) (live_user uid).
Proof. intros s Hs. rewrite live_user_eq. exact Hs. Qed.

(** Apply the rules of [keeps] to the shape of a method. *)
Ltac keep :=
  repeat first
    [ apply keeps_gets | apply keeps_ret | apply keeps_raise | apply keeps_on_stores
    | apply keeps_closed | apply keeps_live_user
    | apply keeps_bind; [|intros ?] | apply keeps_try; [|intros []]
    | progress cbn [mret py_ret]
    | case_match ].

Lemma keeps_context_for_session x a : keeps (tables_are a) (_context_for_session x).
Proof. unfold _context_for_session, effective_permissions, now_ms, delete_session_by_id. keep. Qed.

Lemma keeps_context_for_token t a : keeps (tables_are a) (context_for_api_token t).
Proof. unfold context_for_api_token, effective_permissions, now_ms. keep. Qed.

Lemma keeps_redeem t a : keeps (tables_are a) (redeem t).
Proof.
  unfold redeem, on_refusal, get_token, get_session_by_id.
  repeat first [apply keeps_context_for_session | apply keeps_context_for_token | progress keep].
Qed.

(** ** Tickets *)

Lemma consume_ticket_eq ticket s :
  is_empty ticket = false →
  consume_ticket (Some ticket) s =
  let s1 := {| st := st s; au := set_tickets (dict_del (hash_token ticket) (_tickets (au s))) (au s);
               host := host s |} in
  match dict_get (hash_token ticket) (_tickets (au s)) with
  | Some t => if k_expires_at t <=? clock (host s) then (inr None, s1) else redeem t s1
  | None => (inr None, s1)
  end.
Proof.
  intros Hne. unfold consume_ticket. rewrite Hne.
  cbv [mbind py_bind gets on_auth modify now_ms]. cbn [st au host].
  destruct (dict_get _ _) as [t|]; [|done]. by destruct (k_expires_at t <=? clock (host s)).
Qed.

(** A ticket that was used is gone. *)
Lemma ticket_spent ticket s :
  dict_ok (_tickets (au s)) → is_empty ticket = false →
  dict_get (hash_token ticket) (_tickets (au (consume_ticket (Some ticket) s).2)) = None.
Proof.
  intros Hok He. rewrite consume_ticket_eq by done. cbv zeta.
  set (a1 := set_tickets (dict_del (hash_token ticket) (_tickets (au s))) (au s)).
  assert (∀ s' : World Host, _tickets (au s') = _tickets a1 →
    dict_get (hash_token ticket) (_tickets (au s')) = None) as Hdel.
  { intros s' Hs'. rewrite Hs'. by apply dict_get_del_eq. }
  destruct (dict_get (hash_token ticket) (_tickets (au s))) as [t|]; [|by apply Hdel].
  destruct (k_expires_at t <=? clock (host s)); [by apply Hdel|].
  pose proof (keeps_redeem t a1 {| st := st s; au := a1; host := host s |} eq_refl) as Hk.
  apply Hdel. by rewrite Hk.
Qed.

(** What is not stored opens nothing. *)
Lemma unknown_ticket ticket s :
  dict_get (hash_token ticket) (_tickets (au s)) = None → (consume_ticket (Some ticket) s).1 = inr None.
Proof.
  intros Ht. destruct (is_empty ticket) eqn:He; [unfold consume_ticket; by rewrite He|].
  rewrite consume_ticket_eq by done. cbv zeta. by rewrite Ht.
Qed.

(** A ticket is good for one connection: whatever using it gave, and
    whatever became of the stores and the host since, using it again gives
    nothing. *)
Theorem ticket_single_use ticket s s2 :
  dict_ok (_tickets (au s)) →
  _tickets (au s2) = _tickets (au (consume_ticket (Some ticket) s).2) →
  (consume_ticket (Some ticket) s2).1 = inr None.
Proof.
  intros Hok Ht. destruct (is_empty ticket) eqn:He; [unfold consume_ticket; by rewrite He|].
  apply unknown_ticket. rewrite Ht. by apply ticket_spent.
Qed.

(** The ticket issued to a session's caller opens a socket as the session's
    live user, with the permissions that user then has: while the session is
    stored, the user enabled and neither the ticket nor the session expired. *)
Theorem ticket_roundtrip ctx x s ticket n s1 s2 y u :
  is_empty ticket = false → external ctx = false → api_token ctx = None → session ctx = Some x →
  issue_ticket ctx s = (inr (ticket, n), s1) →
  _tickets (au s2) = _tickets (au s1) →
  clock (host s2) < clock (host s) + ticket_ttl_ms auth_options →
  session_by_id (s_id x) (sessions (st s2)) = Some y →
  s_user_id y = u_id (c_user ctx) → clock (host s2) ≤ expires_at y →
  live s2 (s_user_id y) = Some u →
  (consume_ticket (Some ticket) s2).1 =
    inr (Some (session_context y u (group_permissions (groups (st s2)) (u_groups u)) None)).
Proof.
  intros Hne Hext Hapi Hsess Hissue Ht Hclock Hy Huid Hexp Hlive.
  unfold issue_ticket in Hissue. rewrite py_bind_eq in Hissue. cbn [now_ms gets] in Hissue.
  rewrite py_bind_eq in Hissue. cbn [on_auth modify] in Hissue. unfold draw, on_host in Hissue.
  rewrite py_bind_eq in Hissue. cbn [host st au] in Hissue.
  destruct (token_hex (host s)) as [tk h]. rewrite Hext, Hsess in Hissue. unfold api_token_id in Hissue.
  rewrite Hapi in Hissue. cbn in Hissue. injection Hissue as -> _ <-.
  rewrite consume_ticket_eq by done. rewrite Ht. cbn [au set_tickets _tickets].
  rewrite dict_get_set_eq. cbn [k_expires_at].
  destruct (Z.leb_spec (clock (host s) + ticket_ttl_ms auth_options) (clock (host s2))); [lia|].
  cbv zeta. unfold redeem. cbn [k_external_ctx k_api_token_id k_session_id fmap option_fmap option_map k_user_id].
  rewrite py_bind_eq. cbn [get_session_by_id gets st]. rewrite Hy.
  rewrite bool_decide_true by done. unfold on_refusal, try_except. rewrite py_bind_eq.
  match goal with |- context [_context_for_session y ?s0] =>
    pose proof (context_for_session_eq y s0) as Hc; unfold is_expired in Hc; cbn [host] in Hc end.
  destruct (Z.ltb_spec (expires_at y) (clock (host s2))); [lia|].
  unfold live in Hc, Hlive. cbn [st] in Hc. rewrite Hlive in Hc. by rewrite Hc.
Qed.

(** ** API tokens *)

Lemma context_for_api_token_eq t s ctx s' :
  context_for_api_token t s = (inr ctx, s') →
  s' = s ∧ token_is_expired t (clock (host s)) = false ∧ live s (t_user_id t) = Some (c_user ctx) ∧
  permissions ctx =
    match t_permissions t with
    | Some scope => List.filter
        (has_permission (group_permissions (groups (st s)) (u_groups (c_user ctx)))) scope
    | None => group_permissions (groups (st s)) (u_groups (c_user ctx))
    end.
Proof.
  unfold context_for_api_token. rewrite py_bind_eq. cbn [now_ms gets].
  destruct (token_is_expired t (clock (host s))); [done|]. rewrite py_bind_eq, live_user_eq.
  destruct (live s (t_user_id t)) as [u|]; [|done]. rewrite py_bind_eq. cbn [effective_permissions gets].
  intros [= <- <-]. done.
Qed.


(** ** Revocation *)

Lemma delete_session_id_filter i (d : dict string Session) :
  NoDup (map (s_id ∘ snd) d) → delete_session_id i d = filter (λ kv, s_id kv.2 ≠ i) d.
Proof.
  induction d as [|[h x] d IH]; simpl; [done|]. intros [Hx Hd]%NoDup_cons. rewrite filter_cons.
  case_decide as Hi; simpl.
  - rewrite decide_False by naive_solver. clear IH. induction d as [|[h' x'] d IH]; [done|].
    rewrite filter_cons. simpl in *. rewrite decide_True.
    + f_equal. apply IH; [set_solver|]. by apply NoDup_cons in Hd as [_ ?].
    + intros Hx'. apply Hx. rewrite Hi, <- Hx'. left.
  - rewrite decide_True by done. by rewrite IH.
Qed.

Lemma filter_ids_NoDup (P : string * Session → Prop) `{∀ kv, Decision (P kv)} d :
  NoDup (map (s_id ∘ snd) d) → NoDup (map (s_id ∘ snd) (filter P d)).
Proof.
  induction d as [|kv d IH]; [done|]. simpl. intros [Hx Hd]%NoDup_cons. rewrite filter_cons.
  case_decide; [|by apply IH]. simpl. apply NoDup_cons. split; [|by apply IH].
  intros Hin. apply Hx. apply list_elem_of_In, in_map_iff in Hin as (kv' & Heq & Hin).
  apply list_elem_of_In, list_elem_of_filter in Hin as [_ Hin].
  rewrite <- Heq. apply list_elem_of_In, in_map_iff. exists kv'. split; [done|]. by apply list_elem_of_In.
Qed.

(** The state after the revocation of the sessions [ids]. *)
Definition revoked (ids : list string) (s : World Host) (h : Host) : World Host :=
  {| st := set_sessions (filter (λ kv, s_id kv.2 ∉ ids) (sessions (st s))) (st s);
     au := set_tickets (filter (λ kv, k_session_id kv.2 ∉ map Some ids) (_tickets (au s))) (au s);
     host := h |}.

Lemma filter_equiv {A} (P Q : A → Prop) `{∀ x, Decision (P x), ∀ x, Decision (Q x)} (l : list A) :
  (∀ x, P x ↔ Q x) → filter P l = filter Q l.
Proof.
  intros HPQ. induction l as [|x l IH]; [done|]. rewrite !filter_cons, IH.
  repeat case_decide; naive_solver.
Qed.

Lemma revoked_cons i ids s h h' : revoked ids (revoked [i] s h) h' = revoked (i :: ids) s h'.
Proof.
  unfold revoked. cbn [st au host sessions set_sessions set_tickets _tickets].
  rewrite !list_filter_filter. f_equal.
  - unfold set_sessions. cbn. f_equal. apply filter_equiv. intros [k x]. simpl. set_solver.
  - unfold set_tickets. cbn. f_equal. apply filter_equiv. intros [k x]. simpl. set_solver.
Qed.

Lemma revoked_nil s : revoked [] s (host s) = s.
Proof.
  assert (∀ {A} (P : A → Prop) `{∀ x, Decision (P x)} (l : list A), (∀ x, P x) → filter P l = l) as Hall.
  { intros A P ? l HP. induction l as [|x l IH]; [done|]. rewrite filter_cons, decide_True by done.
    by rewrite IH. }
  unfold revoked. rewrite !Hall by (intros [? ?]; simpl; set_solver). by destruct s as [[] [] ?].
Qed.

Lemma revoke_session_eq x reason a n s :
  NoDup (map (s_id ∘ snd) (sessions (st s))) →
  ∃ h, revoke_session x reason a n s = (inr tt, revoked [s_id x] s h) ∨
       revoke_session x reason a n s = (inl Cancellation, revoked [s_id x] s h).
Proof.
  intros Hnd.
  assert (∃ m, effect m ∧ revoke_session x reason a n s = m (revoked [s_id x] s (host s)))
    as (m & Hm & ->).
  { unfold revoke_session. eexists. split.
    - apply effect_bind; [apply (effect_closed x (actor_name a))|].
      apply effect_bind; [apply effect_notify_user|apply effect_audit].
    - rewrite py_bind_eq. cbn [delete_session_by_id on_stores modify]. rewrite py_bind_eq.
      cbn [_drop_tickets on_auth modify st au host]. unfold delete_session_by_id. cbn [on_stores modify].
      rewrite delete_session_id_filter by done. unfold revoked. f_equal. f_equal.
      + f_equal. apply filter_equiv. intros [k y]. simpl. set_solver.
      + f_equal. apply filter_equiv. intros [k y]. simpl. set_solver. }
  destruct (Hm (revoked [s_id x] s (host s))) as [h H]. by exists h.
Qed.

(** Is a session of the user, other than the one to keep. *)
Definition to_revoke (uid : string) (keep : option string) (x : Session) : bool :=
  bool_decide (s_user_id x = uid) && negb (bool_decide (Some (s_id x) = keep)).

Lemma revoke_each_eq uid reason a keep l count s :
  NoDup (map (s_id ∘ snd) (sessions (st s))) →
  let ids := map s_id (List.filter (to_revoke uid keep) l) in
  (revoke_each uid reason a keep count l s).1 = inl Cancellation ∨
  ∃ h, revoke_each uid reason a keep count l s =
    (inr (count + Z.of_nat (length ids)), revoked ids s h).
Proof.
  revert count s. induction l as [|x l IH]; intros count s Hnd; cbv zeta in *; simpl.
  { right. exists (host s). rewrite Z.add_0_r, revoked_nil. done. }
  fold (to_revoke uid keep x). destruct (to_revoke uid keep x); simpl; [|by apply IH].
  rewrite py_bind_eq. destruct (revoke_session_eq x reason a None s Hnd) as [h [-> | ->]]; [|by left].
  destruct (IH (count + 1) (revoked [s_id x] s h)) as [H|[h' ->]].
  - cbn [revoked st sessions set_sessions]. by apply filter_ids_NoDup.
  - by left.
  - right. exists h'. rewrite revoked_cons. f_equal. f_equal. lia.
Qed.

Lemma ids_of_target (P : Session → bool) (d : dict string Session) k x :
  NoDup (map (s_id ∘ snd) d) → (k, x) ∈ d →
  s_id x ∈ map s_id (List.filter P (dict_values d)) ↔ P x = true.
Proof.
  intros Hnd Hin. rewrite list_elem_of_In, in_map_iff. split.
  - intros (y & Hid & Hy). apply filter_In in Hy as [Hy HP]. apply list_elem_of_In in Hy.
    unfold dict_values in Hy. apply list_elem_of_fmap in Hy as ([k' y'] & -> & Hy). simpl in *.
    assert (y' = x) as ->; [|done]. clear HP. induction d as [|[k0 z] d IH]; [by inversion Hin|].
    simpl in Hnd. apply NoDup_cons in Hnd as [Hz Hd].
    assert (∀ k y, (k, y) ∈ d → s_id y ≠ s_id z) as Hne.
    { intros k1 y1 H1 He. apply Hz. rewrite <- He. apply list_elem_of_In, in_map_iff.
      exists (k1, y1). split; [done|]. by apply list_elem_of_In. }
    apply elem_of_cons in Hin as [Hin|Hin], Hy as [Hy|Hy]; simplify_eq; try done.
    + by apply Hne in Hy.
    + by apply Hne in Hin.
    + by apply IH.
  - intros HP. exists x. split; [done|]. apply filter_In. split; [|done].
    apply list_elem_of_In. unfold dict_values. apply list_elem_of_fmap. by exists (k, x).
Qed.

(** Revoking a user's sessions (disabling or deleting the user, a changed
    password) removes every session of that user but the one to keep, with the
    tickets issued to them, removes nothing else, and returns how many there
    were; only a cancellation can stop it before. *)
Theorem revoke_user_sessions_spec uid reason a keep s :
  NoDup (map (s_id ∘ snd) (sessions (st s))) →
  (revoke_user_sessions uid reason a keep s).1 = inl Cancellation ∨
  ∃ n s', revoke_user_sessions uid reason a keep s = (inr n, s') ∧
    st s' = set_sessions (filter (λ kv, to_revoke uid keep kv.2 = false) (sessions (st s))) (st s) ∧
    Z.of_nat (length (sessions (st s'))) + n = Z.of_nat (length (sessions (st s))) ∧
    (∀ h t, (h, t) ∈ _tickets (au s') ↔ (h, t) ∈ _tickets (au s) ∧
       ∀ k x, (k, x) ∈ sessions (st s) → to_revoke uid keep x = true → k_session_id t ≠ Some (s_id x)).
Proof.
  intros Hnd. unfold revoke_user_sessions. rewrite py_bind_eq. cbn [get_active_sessions gets].
  destruct (revoke_each_eq uid reason a keep (dict_values (sessions (st s))) 0 s Hnd) as [H|[h ->]];
    [by left|right]. set (ids := map s_id _).
  assert (∀ kv, kv ∈ sessions (st s) → s_id kv.2 ∈ ids ↔ to_revoke uid keep kv.2 = true) as Hids.
  { intros [k x] Hin. by eapply ids_of_target. }
  exists (0 + Z.of_nat (length ids)), (revoked ids s h). split; [done|].
  assert (filter (λ kv, s_id kv.2 ∉ ids) (sessions (st s)) =
          filter (λ kv, to_revoke uid keep kv.2 = false) (sessions (st s))) as Hf.
  { clearbody ids. clear Hnd. induction (sessions (st s)) as [|kv d IH]; [done|].
    rewrite !filter_cons, IH by (intros; apply Hids; set_solver).
    specialize (Hids kv ltac:(set_solver)).
    repeat case_decide; try done; destruct (to_revoke uid keep kv.2); naive_solver. }
  cbn [revoked st au sessions set_sessions _tickets set_tickets]. rewrite Hf.
  split; [done|]. split.
  - unfold ids. rewrite length_map. unfold dict_values. clear.
    induction (sessions (st s)) as [|[k x] d IH]; [done|]. rewrite filter_cons. simpl in *.
    case_decide as Hc; [rewrite Hc|apply not_false_iff_true in Hc; rewrite Hc]; simpl;
      change (list_fmap (string * Session)%type Session snd d) with (d.*2) in *; lia.
  - intros h' t. rewrite list_elem_of_filter. simpl. split.
    + intros [Hn Hin]. split; [done|]. intros k x Hx Hr Ht. apply Hn. rewrite Ht.
      apply list_elem_of_In, in_map_iff. exists (s_id x). split; [done|].
      apply list_elem_of_In. by apply (Hids (k, x)).
    + intros [Hin Hn]. split; [|done]. intros Ht.
      apply list_elem_of_In, in_map_iff in Ht as (i & Hi & Ht).
      unfold ids in Ht. apply in_map_iff in Ht as (x & <- & Hx).
      apply filter_In in Hx as [Hx Hr]. apply list_elem_of_In in Hx.
      unfold dict_values in Hx. apply list_elem_of_fmap in Hx as ([k x'] & -> & Hx).
      by eapply Hn.
Qed.
End Tokens.

(** A generated password has as many letters and digits as were drawn, and one of
    the usual sixteen passes every policy that asks for no more. *)
Theorem generated_password_accepted {Host} `{E : AuthEnv Host} choices :
  Forall (λ n, (n < length password_alphabet)%nat) choices →
  Forall (λ c, c ∈ password_alphabet) (chars (generate_password choices)) ∧
  (length choices = 16%nat → min_password_length auth_options ≤ 16 →
   validate_password_policy (Some (generate_password choices)) = None).
Proof.
  intros Hc. split.
  - unfold generate_password. rewrite chars_str. apply Forall_map. eapply Forall_impl; [exact Hc|]. intros n Hn. cbv beta. by apply list_elem_of_In, nth_In.
  - intros Hlen Hmin. assert (len (generate_password choices) = 16%nat) as Hl by (unfold generate_password; by rewrite len_chars, chars_str, length_map).
    unfold validate_password_policy. rewrite Hl. assert (is_empty (generate_password choices) = false) as ->.
    { apply bool_decide_eq_false_2. intros He. rewrite He in Hl. done. }
    destruct (Z.ltb_spec (Z.of_nat 16) (min_password_length auth_options)); [lia|done].
Qed.
