(* ===== verification/AuthExample.v ===== *)
(** * A seeded server with one login

    A host with a counter for identifiers, a settable clock and toy hashes: the
    theorems on authentication at work. *)

From S2P Require Import Prelude PyStr Values Permissions Events UserModel Validation.
From S2P Require Import UserStores PasswordHasher Throttle AuditModel AuthService AuthSafety.

Record Host := { h_now : Z; h_next : nat; h_log : list AuditEntry }.

Definition next_name (p : string) (h : Host) : string * Host :=
  (p +:+ str_of_nat (h_next h), {| h_now := h_now h; h_next := S (h_next h); h_log := h_log h |}).

#[export] Instance example_env : AuthEnv Host := {|
  clock := h_now;
  uuid4 := next_name "id-";
  token_hex := next_name "tok-";
  token_urlsafe := next_name "url-";
  random_password := next_name "pw-";
  random_salt := next_name "salt-";
  hash_token := λ t, "h:" +:+ t;
  pbkdf2 := HasherExample.toy_pbkdf2;
  sha256_hex := λ t, t;
  audit_log := λ e, modify (λ h, {| h_now := h_now h; h_next := h_next h; h_log := e :: h_log h |});
  audit_recorded := None;
  event_bus := None;
  broadcast_fn := None;
  user_event_sender := None;
  call_listener := λ _, mret tt;
  auth_options := default_auth_options;
  external_auth := false;
|}.

Definition at_time (now : Z) (s : World Host) : World Host :=
  {| st := st s; au := au s; host := {| h_now := now; h_next := h_next (host s); h_log := h_log (host s) |} |}.

Definition start : World Host :=
  {| st := no_stores; au := new_auth; host := {| h_now := 1000; h_next := 0; h_log := [] |} |}.
Definition seeded : World Host := Eval vm_compute in (seed (Some "secret-pw") start).2.

Definition signed : (uexn + LoginResult) * World Host :=
  Eval vm_compute in login "Root" "secret-pw" no_metadata seeded.
Definition result : LoginResult :=
  Eval vm_compute in match signed.1 with
  | inr r => r
  | inl _ => {| l_token := ""; l_session := new_session "" "" "" "" no_metadata 0;
                l_user := new_user "" 0 {| n_name := ""; n_email := ""; n_groups := []; n_data := None;
                  n_disabled := false; n_home_dir := None; n_must_change := false |};
                l_permissions := [] |}
  end.
Definition inside : World Host := Eval vm_compute in signed.2.

Lemma seeded_ok : stores_ok (st seeded).
Proof.
  split; try (apply (bool_decide_unpack _); vm_compute; exact I).
  - intros i u H. vm_compute in H. inversion H as [|? ? ? H']; subst; [reflexivity|inversion H'].
  - intros i u H. inversion H.
  - intros k g H. vm_compute in H. inversion H as [|? ? ? H']; subst; [reflexivity|].
    inversion H' as [|? ? ? H'']; subst; [reflexivity|inversion H''].
Qed.

Lemma hex_not_pat h : starts_with (token_hex h).1 API_TOKEN_PREFIX = false.
Proof. destruct h as [n k l]. reflexivity. Qed.

Lemma login_token_works_witness :
  ∃ ctx s3, authenticate_token (l_token result) (at_time 5000 inside) = (inr ctx, s3) ∧
    permissions ctx = ["*"].
Proof.
  destruct (login_token_works "Root" "secret-pw" no_metadata seeded result inside (at_time 5000 inside)
    seeded_ok hex_not_pat) as [_ (ctx & s3 & H & _ & Hp & _)].
  - vm_compute. reflexivity.
  - reflexivity.
  - vm_compute. discriminate.
  - exists ctx, s3. split; [exact H|exact Hp].
Defined.

Lemma authenticate_token_spec_witness :
  ∃ e, (authenticate_token "tok-x" inside).1 = inl e.
Proof.
  destruct (authenticate_token "tok-x" inside) as [[e|ctx] s'] eqn:H; [exists e; reflexivity|].
  apply (authenticate_token_spec "tok-x" inside ctx s' eq_refl) in H as (x & u & H & _).
  discriminate H.
Defined.

(** The caller of the login. *)
Definition caller : AuthContext :=
  Eval vm_compute in match (authenticate_token (l_token result) inside).1 with
  | inr c => c
  | inl _ => session_context (l_session result) (l_user result) [] None
  end.
Definition issued : (uexn + (string * Z)) * World Host := Eval vm_compute in issue_ticket caller inside.

Lemma ticket_single_use_witness :
  (consume_ticket (Some "tok-7") (consume_ticket (Some "tok-7") issued.2).2).1 = inr None.
Proof.
  apply (ticket_single_use "tok-7" issued.2).
  - apply (bool_decide_unpack _). vm_compute. exact I.
  - reflexivity.
Defined.

Lemma ticket_roundtrip_witness :
  (consume_ticket (Some "tok-7") (at_time 2000 issued.2)).1 =
    inr (Some (session_context (touched 1000 (l_session result)) (l_user result) ["*"] None)).
Proof.
  apply (ticket_roundtrip caller (touched 1000 (l_session result)) inside "tok-7" 30 issued.2
    (at_time 2000 issued.2) (touched 1000 (l_session result)) (l_user result)).
  - reflexivity.
  - reflexivity.
  - reflexivity.
  - reflexivity.
  - vm_compute. reflexivity.
  - reflexivity.
  - vm_compute. reflexivity.
  - reflexivity.
  - reflexivity.
  - vm_compute. discriminate.
  - reflexivity.
Defined.

(** A token of root, scoped to the jobs. *)
Definition pat : ApiToken :=
  {| t_id := "t1"; t_user_id := u_id (l_user result); t_name := "ci"; t_token_hash := "h:qcli_pat_x";
     t_created_at := 0; t_expires_at := Some 9000; last_used_at := None;
     t_permissions := Some ["jobs:*"] |}.
Definition with_pat : World Host := Eval vm_compute in (create_token pat inside).2.


Lemma revoke_user_sessions_spec_witness :
  ∃ s', revoke_user_sessions (u_id (l_user result)) "password_changed" None None inside = (inr 1, s') ∧
    sessions (st s') = [].
Proof.
  destruct (revoke_user_sessions_spec (u_id (l_user result)) "password_changed" None None inside)
    as [H|(n & s' & H & Hst & Hn & _)].
  - apply (bool_decide_unpack _). vm_compute. exact I.
  - vm_compute in H. discriminate H.
  - exists s'. assert (sessions (st s') = []) as Hs by (rewrite Hst; vm_compute; reflexivity).
    split; [|exact Hs]. rewrite H. f_equal. f_equal. rewrite Hs in Hn. simpl in Hn. lia.
Defined.
