(* ===== verification/UsersService.v ===== *)
(** * Users and groups ([users_service.py])

    The rules on users and groups over [AuthService.v].  A method of the source
    that first checks and then changes the stores is split there
    ([check_update] and [update_user], and so on); [change_password] returns the
    caller's context, of which it may clear [must_change_password]. *)

From S2P Require Import Prelude PyStr Values Permissions Events UserModel Validation.
From S2P Require Import UserStores AuthService.
From Stdlib Require Import Ascii.

Definition BUILT_IN_GROUPS : list string := [ADMIN_GROUP; USERS_GROUP].
Definition LAST_ADMIN : string := "cannot remove the last admin".
Definition HOME_DIR_MAX : nat := 1024.

(** [_clean] *)
Definition _clean (value : option string) : string := strip (or_empty value).

(** [_actor] and [_actor_name] *)
Definition _actor (ctx : option AuthContext) : Actor :=
  match ctx with Some c => Some (u_name (c_user c), u_id (c_user c)) | None => None end.
Definition _actor_name (ctx : option AuthContext) : option string := fst <$> _actor ctx.
(** [ctx.user.name if ctx else ""] *)
Definition caller_name (ctx : option AuthContext) : string := or_empty (_actor_name ctx).

(** The fields of a creation and of an update request. *)
Record UserFields := {
  f_name : option string;
  f_email : option string;
  f_groups : option (list string);
  f_password : option string;
  f_disabled : option bool;
  f_home_dir : option string;
  f_data : option (dict string pyval);
}.

Section UsersService.
Context {Host : Type} `{E : AuthEnv Host}.
Abbreviation method := (py (World Host) uexn).

(** ** Helpers *)

(** The loop of [resolve_groups] with its [out]. *)
Fixpoint resolve_loop (out : list string) (names : list string) : method (list string) :=
  match names with
  | [] => mret out
  | raw :: names =>
      let name := _clean (Some raw) in
      if is_empty name then resolve_loop out names
      else
        g ← (if (len name <=? NAME_MAX)%nat then get_group name else mret None);
        match g with
        | None => raise (bad_request ("unknown group: " +:+ take_str NAME_MAX name))
        | Some g => resolve_loop (if existsb (same_text (g_name g)) out then out
                                  else out ++ [g_name g]) names
        end
  end.
Definition resolve_groups (names : option (list string)) : method (list string) :=
  resolve_loop [] (default [] names).

Definition taken_by (u : User) (x : string) : bool :=
  bool_decide (lower x ∈ [lower (u_name u); lower (u_email u)]).

(** The loop of [_ensure_unique]. *)
Fixpoint unique_loop (name email exclude_id : option string) (us : list User) : method unit :=
  match us with
  | [] => mret tt
  | u :: us =>
      if bool_decide (Some (u_id u) = exclude_id) then unique_loop name email exclude_id us
      else
        _ ← (match name with
             | Some n => raise_if (taken_by u n) (conflict ("user already exists: " +:+ n))
             | None => mret tt
             end);
        _ ← (match email with
             | Some e => raise_if (taken_by u e) (conflict ("email already in use: " +:+ e))
             | None => mret tt
             end);
        unique_loop name email exclude_id us
  end.
Definition _ensure_unique (name email exclude_id : option string) : method unit :=
  us ← get_users; unique_loop name email exclude_id us.

Definition _user_event (event_type : string) (u : User) (ctx : option AuthContext) : method unit :=
  publish event_type
    [("userId", VStr (u_id u)); ("username", VStr (u_name u)); ("actor", opt_text (_actor_name ctx))]
    (with_permission USERS_READ).
Definition _group_event (event_type g : string) (ctx : option AuthContext) : method unit :=
  publish event_type [("group", VStr g); ("actor", opt_text (_actor_name ctx))]
    (with_permission GROUPS_READ).

Definition _is_built_in (g : Group) : bool :=
  built_in g || bool_decide (lower (g_name g) ∈ BUILT_IN_GROUPS).

(** [if ctx is not None: m(ctx)] *)
Definition as_caller (ctx : option AuthContext) (m : AuthContext → method unit) : method unit :=
  match ctx with Some c => m c | None => mret tt end.

(** ** Users *)

Definition list_users (query : option string) (skip : Z) (take : option Z) : method (list User) :=
  us ← get_users;
  let q := lower (_clean query) in
  let us := if is_empty q then us
            else List.filter (λ u, contains q (lower (u_name u)) || contains q (lower (u_email u))) us in
  let us := py_slice_from skip us in
  mret (match take with Some n => py_slice 0 n us | None => us end).

Definition check_create (ctx : option AuthContext) (f : UserFields) : method NewUser :=
  name ← validate_name (_clean (f_name f)) "name";
  email ← validate_email (_clean (f_email f));
  _ ← validate_text (f_home_dir f) "homeDir" HOME_DIR_MAX;
  _ ← validate_data (f_data f);
  _ ← (match f_password f with
       | Some p => match validate_password_policy (Some p) with
                   | Some error => raise (bad_request error)
                   | None => mret tt
                   end
       | None => mret tt
       end);
  resolved ← resolve_groups (f_groups f);
  _ ← (match resolved with
       | [] => mret tt
       | _ => as_caller ctx (λ c, ensure_can_grant_groups c resolved)
       end);
  resolved ← (match resolved with
              | [] => resolve_groups (Some [USERS_GROUP])
              | _ => mret resolved
              end);
  _ ← _ensure_unique (Some name) (Some email) None;
  mret {| n_name := name; n_email := email; n_groups := resolved; n_data := f_data f;
          n_disabled := default false (f_disabled f); n_home_dir := f_home_dir f;
          n_must_change := false |}.

Definition create_user (ctx : option AuthContext) (f : UserFields) : method User :=
  n ← check_create ctx f;
  u ← try_except (store_create_user n)
        (λ e, match e with BadValue m => raise (conflict m) | e => raise e end);
  _ ← (match f_password f with Some p => set_password (u_id u) p | None => mret tt end);
  _ ← audit "user_created" (u_name u) (detail (Some (u_id u)) (_actor ctx));
  _ ← _user_event "user:created" u ctx;
  mret u.

(** A new value that is the old one counts as absent. *)
Definition changed (new : option string) (old : string) : option string :=
  match new with Some x => if bool_decide (x = old) then None else Some x | None => None end.

Definition check_update (ctx : option AuthContext) (target : User) (f : UserFields)
    : method UserPatch :=
  name ← (match f_name f with
          | Some n => n ← validate_name (_clean (Some n)) "name"; mret (Some n)
          | None => mret None
          end);
  email ← (match f_email f with
           | Some e => e ← validate_email (_clean (Some e)); mret (Some e)
           | None => mret None
           end);
  let name := changed name (u_name target) in
  let email := changed email (u_email target) in
  _ ← validate_text (f_home_dir f) "homeDir" HOME_DIR_MAX;
  _ ← validate_data (f_data f);
  resolved ← (match f_groups f with
              | Some gs => r ← resolve_groups (Some gs); mret (Some r)
              | None => mret None
              end);
  _ ← as_caller ctx (λ c,
        _ ← ensure_covers_user c target;
        match List.filter (λ g, negb (in_group target g)) (default [] resolved) with
        | [] => mret tt
        | added => ensure_can_grant_groups c added
        end);
  _ ← _ensure_unique name email (Some (u_id target));
  let removes_admin := match resolved with
                       | Some gs => negb (existsb (λ g, bool_decide (lower g = ADMIN_GROUP)) gs)
                       | None => false
                       end in
  last ← (if removes_admin || bool_decide (f_disabled f = Some true)
          then is_last_enabled_admin target else mret false);
  _ ← raise_if last (conflict LAST_ADMIN);
  mret {| p_name := name; p_email := email; p_groups := resolved; p_disabled := f_disabled f;
          p_data := f_data f; p_home_dir := f_home_dir f; p_last_login := None;
          p_must_change := None |}.

Definition update_user (ctx : option AuthContext) (target : User) (f : UserFields) : method User :=
  p ← check_update ctx target f;
  u ← try_except (store_update_user (u_id target) p)
        (λ e, match e with
              | LookupError _ => raise (not_found ("user not found: " +:+ u_name target))
              | e => raise e
              end);
  let x := detail (Some (u_id u)) (_actor ctx) in
  _ ← audit "user_updated" (u_name u) x;
  _ ← (match f_disabled f with
       | Some d =>
           if bool_decide (d = disabled target) then mret tt
           else if d then
             _ ← audit "user_disabled" (u_name u) x;
             _ ← revoke_user_sessions (u_id u) "user_disabled" (_actor ctx) None; mret tt
           else audit "user_enabled" (u_name u) x
       | None => mret tt
       end);
  _ ← _user_event "user:updated" u ctx;
  mret u.

Definition delete_user (ctx : option AuthContext) (target : User) : method unit :=
  _ ← as_caller ctx (λ c, raise_if (is_self c target) (conflict "cannot delete yourself"));
  _ ← as_caller ctx (λ c, ensure_covers_user c target);
  last ← is_last_enabled_admin target;
  _ ← raise_if last (conflict LAST_ADMIN);
  _ ← store_delete_user (u_id target);
  _ ← on_stores (λ s, set_credentials (dict_del (u_id target) (credentials s)) s);
  _ ← reset_failures (u_id target);
  _ ← revoke_user_sessions (u_id target) "user_deleted" (_actor ctx) None;
  _ ← delete_user_tokens (u_id target);
  _ ← notify_change;
  _ ← audit "user_deleted" (u_name target) (detail (Some (u_id target)) (_actor ctx));
  _user_event "user:deleted" target ctx.

Definition must_change (b : bool) : UserPatch :=
  {| p_name := None; p_email := None; p_groups := None; p_disabled := None; p_data := None;
     p_home_dir := None; p_last_login := None; p_must_change := Some b |}.

Definition password_was_changed (ctx : AuthContext) : AuthContext :=
  let u := c_user ctx in
  {| c_user := {| u_id := u_id u; u_name := u_name u; u_email := u_email u; u_groups := u_groups u;
       disabled := disabled u; must_change_password := false; home_dir := home_dir u;
       u_data := u_data u; last_login_at := last_login_at u; u_created_at := u_created_at u;
       u_updated_at := u_updated_at u |};
     c_groups := c_groups ctx; permissions := permissions ctx; session := session ctx;
     c_token := c_token ctx; external := external ctx; api_token := api_token ctx |}.

Definition change_password (ctx : AuthContext) (target : User) (password : string)
    (temporary : option bool) : method AuthContext :=
  _ ← (match validate_password_policy (Some password) with
       | Some error => raise (bad_request error)
       | None => mret tt
       end);
  let a := _actor (Some ctx) in
  let changed := audit "password_changed" (u_name target) (detail (Some (u_id target)) a) in
  ctx ← (if is_self ctx target then
           _ ← set_password (u_id target) password;
           ctx' ← (if must_change_password target then
                     _ ← store_update_user (u_id target) (must_change false);
                     mret (password_was_changed ctx)
                   else mret ctx);
           _ ← changed;
           _ ← revoke_user_sessions (u_id target) "password_changed" a (s_id <$> session ctx);
           mret ctx'
         else
           _ ← ensure_covers_user ctx target;
           _ ← set_password (u_id target) password;
           _ ← reset_failures (u_id target);
           _ ← store_update_user (u_id target)
                 (must_change (negb (bool_decide (temporary = Some false))));
           _ ← changed;
           _ ← revoke_user_sessions (u_id target) "password_changed" a None;
           mret ctx);
  _ ← _user_event "user:updated" target (Some ctx);
  mret ctx.

(** ** Groups *)

Definition group_members (g : Group) : method (list User) :=
  us ← get_users; mret (List.filter (λ u, in_group u (g_name g)) us).

Definition group_detail (g : string) (ctx : option AuthContext) : AuditDetail :=
  with_target ("group:" +:+ g) (with_details g (detail None (_actor ctx))).

Definition create_group (ctx : option AuthContext) (name description : option string)
    (permissions : option (list string)) : method Group :=
  name ← validate_name (_clean name) "name";
  _ ← validate_text description "description" DESCRIPTION_MAX;
  perms ← validate_permissions permissions;
  let perms := default [] perms in
  _ ← as_caller ctx (λ c, ensure_can_grant_permissions c perms);
  found ← get_group name;
  _ ← raise_if (bool_decide (is_Some found)) (conflict ("group already exists: " +:+ name));
  g ← try_except (store_create_group name description perms false)
        (λ e, match e with BadValue m => raise (conflict m) | e => raise e end);
  _ ← audit "group_created" (caller_name ctx) (group_detail (g_name g) ctx);
  _ ← _group_event "group:created" (g_name g) ctx;
  mret g.

Definition update_group (ctx : option AuthContext) (g : Group) (description : option string)
    (permissions : option (list string)) : method Group :=
  _ ← validate_text description "description" DESCRIPTION_MAX;
  perms ← validate_permissions permissions;
  _ ← (match perms with
       | Some ps =>
           _ ← raise_if (bool_decide (lower (g_name g) = ADMIN_GROUP))
                 (conflict "cannot change the permissions of the admin group");
           as_caller ctx (λ c, ensure_can_grant_permissions c ps)
       | None => mret tt
       end);
  updated ← try_except (store_update_group (g_name g) description perms)
        (λ e, match e with
              | LookupError _ => raise (not_found ("group not found: " +:+ g_name g))
              | e => raise e
              end);
  _ ← audit "group_updated" (caller_name ctx) (group_detail (g_name updated) ctx);
  _ ← _group_event "group:updated" (g_name updated) ctx;
  mret updated.

(** The groups of a user without one of them. *)
Definition without_group (g : string) (gs : list string) : list string :=
  List.filter (λ x, negb (same_text x g)) gs.
Definition group_patch (gs : list string) : UserPatch :=
  {| p_name := None; p_email := None; p_groups := Some gs; p_disabled := None; p_data := None;
     p_home_dir := None; p_last_login := None; p_must_change := None |}.

Definition delete_group (ctx : option AuthContext) (g : Group) : method unit :=
  _ ← raise_if (_is_built_in g) (conflict ("cannot delete built-in group: " +:+ g_name g));
  members ← (if read_only_users auth_options then mret [] else group_members g);
  _ ← for_each (λ u, _ ← store_update_user (u_id u)
                           (group_patch (without_group (g_name g) (u_groups u))); mret tt) members;
  _ ← store_delete_group (g_name g);
  _ ← audit "group_deleted" (caller_name ctx) (group_detail (g_name g) ctx);
  _ ← _group_event "group:deleted" (g_name g) ctx;
  for_each (λ u, _user_event "user:updated" u ctx) members.

Definition member_detail (g : Group) (u : User) (ctx : option AuthContext) : AuditDetail :=
  with_target ("group:" +:+ g_name g) (with_details (g_name g) (detail (Some (u_id u)) (_actor ctx))).

Definition add_member (ctx : option AuthContext) (g : Group) (u : User) : method unit :=
  _ ← as_caller ctx (λ c, _ ← ensure_covers_user c u; ensure_can_grant_groups c [g_name g]);
  if in_group u (g_name g) then mret tt
  else
    _ ← store_update_user (u_id u) (group_patch (u_groups u ++ [g_name g]));
    _ ← audit "group_member_added" (u_name u) (member_detail g u ctx);
    _user_event "user:updated" u ctx.

Definition remove_member (ctx : option AuthContext) (g : Group) (u : User) : method unit :=
  _ ← as_caller ctx (λ c, ensure_covers_user c u);
  if negb (in_group u (g_name g)) then mret tt
  else
    last ← (if bool_decide (lower (g_name g) = ADMIN_GROUP) then is_last_enabled_admin u
            else mret false);
    _ ← raise_if last (conflict LAST_ADMIN);
    _ ← store_update_user (u_id u) (group_patch (without_group (g_name g) (u_groups u)));
    _ ← audit "group_member_removed" (u_name u) (member_detail g u ctx);
    _user_event "user:updated" u ctx.
End UsersService.
