(* ===== verification/UsersSafety.v ===== *)
(** * What the users service guarantees

    Every operation on users and groups changes the users by the steps of
    [change]: a new account, a patched one or a removed one, each with what the
    service checked before ([run_op_changes]).  The theorems follow from the
    steps: one enabled admin stays, names and emails stay unique, nobody hands
    out a group whose permissions they lack; and a disabled or deleted user has
    no access left. *)

From S2P Require Import Prelude PyStr Values Permissions Events UserModel Validation.
From S2P Require Import UserStores PasswordHasher Throttle AuthService AuthSafety.
From S2P Require Import UsersService.
From Stdlib Require Import Ascii.

(** ** The steps *)

(** The texts a user occupies in the namespace of names and emails. *)
Definition texts (u : User) : list string := [lower (u_name u); lower (u_email u)].

(** Another enabled admin than the one with this id. *)
Definition other_admin (i : string) (d : dict string User) : Prop :=
  ∃ j v, j ≠ i ∧ dict_get j d = Some v ∧ enabled_admin v = true.

(** The caller holds every (non-blank) permission of the group. *)
Definition grantable (ctx : option AuthContext) (gs : dict string Group) (g : string) : Prop :=
  ∀ c grp q, ctx = Some c → group_in g gs = Some grp → q ∈ g_permissions grp → strip q ≠ "" →
    has_permission (permissions c) q = true.

Inductive change (ctx : option AuthContext) (gs : dict string Group) (d : dict string User)
    : dict string User → Prop :=
| Added i u :
    dict_get i d = None → u_id u = i →
    (∀ j v x, dict_get j d = Some v → x ∈ texts u → x ∉ texts v) →
    (∀ g, in_group u g = true → lower g = USERS_GROUP ∨ grantable ctx gs g) →
    change ctx gs d (dict_set i u d)
| Patched i u u' :
    dict_get i d = Some u → u_id u' = i →
    (∀ j v x, j ≠ i → dict_get j d = Some v → x ∈ texts u' → x ∈ texts u ∨ x ∉ texts v) →
    (enabled_admin u = true → enabled_admin u' = true ∨ other_admin i d) →
    (∀ g, in_group u' g = true → in_group u g = true ∨ grantable ctx gs g) →
    change ctx gs d (dict_set i u' d)
| Removed i u :
    dict_get i d = Some u → (enabled_admin u = true → other_admin i d) →
    change ctx gs d (dict_del i d).

(** ** The invariants *)

Definition users_ok (d : dict string User) : Prop :=
  dict_ok d ∧ ∀ i u, dict_get i d = Some u → u_id u = i.

Definition unique_texts (d : dict string User) : Prop :=
  ∀ i j u v x, i ≠ j → dict_get i d = Some u → dict_get j d = Some v → x ∈ texts u → x ∉ texts v.

Definition has_admin (d : dict string User) : Prop :=
  ∃ i u, dict_get i d = Some u ∧ enabled_admin u = true.

(** Every group is under its lower-cased name. *)
Definition groups_ok (gs : dict string Group) : Prop :=
  ∀ k g, dict_get k gs = Some g → lower (g_name g) = k.

(** How [dict_get] sees the new dictionary. *)
Lemma get_set_cases {V} i j (v : V) (d : dict string V) w :
  dict_get j (dict_set i v d) = Some w → (j = i ∧ w = v) ∨ (j ≠ i ∧ dict_get j d = Some w).
Proof.
  destruct (decide (j = i)) as [->|Hne].
  - rewrite dict_get_set_eq. intros [= ->]. by left.
  - rewrite dict_get_set_ne by done. by right.
Qed.

Lemma get_del_cases {V} i j (d : dict string V) w :
  dict_ok d → dict_get j (dict_del i d) = Some w → j ≠ i ∧ dict_get j d = Some w.
Proof.
  intros Hd. destruct (decide (j = i)) as [->|Hne].
  - by rewrite dict_get_del_eq.
  - by rewrite dict_get_del_ne by done.
Qed.

Lemma change_users_ok ctx gs d d' : change ctx gs d d' → users_ok d → users_ok d'.
Proof.
  intros Hc [Hd Hk]. destruct Hc as [i u ? Hi ? ?|i u u' ? Hi ? ? ?|i u ? ?]; (split; [auto with dict|]).
  - intros j v [[-> ->]|[_ Hj]]%get_set_cases; auto.
  - intros j v [[-> ->]|[_ Hj]]%get_set_cases; auto.
  - intros j v [_ Hj]%get_del_cases; auto.
Qed.

Lemma change_unique ctx gs d d' :
  change ctx gs d d' → users_ok d → unique_texts d → unique_texts d'.
Proof.
  intros Hc [Hd _] Hu. destruct Hc as [i u Hn _ Ht _|i u u' Hg _ Ht _ _|i u Hg _];
    intros j k v w x Hjk Hv Hw Hx Hx'.
  - apply get_set_cases in Hv as [[-> ->]|[? Hv]], Hw as [[-> ->]|[? Hw]]; [done|..].
    + by eapply Ht.
    + by eapply Ht.
    + by eapply (Hu j k).
  - apply get_set_cases in Hv as [[-> ->]|[? Hv]], Hw as [[-> ->]|[? Hw]]; [done|..].
    + destruct (Ht k w x) as [Hxu|?]; [done..| |done]. by eapply (Hu i k).
    + destruct (Ht j v x) as [Hxu|?]; [done..| |done]. by eapply (Hu i j).
    + by eapply (Hu j k).
  - apply get_del_cases in Hv as [? Hv]; [|done]. apply get_del_cases in Hw as [? Hw]; [|done].
    by eapply (Hu j k).
Qed.

Lemma change_has_admin ctx gs d d' : change ctx gs d d' → users_ok d → has_admin d → has_admin d'.
Proof.
  intros Hc [Hd _] (j & v & Hj & Ha).
  destruct Hc as [i u Hn _ _ _|i u u' Hg _ _ Hadm _|i u Hg Hadm].
  - exists j, v. rewrite dict_get_set_ne; [done|]. intros ->. congruence.
  - destruct (decide (i = j)) as [->|Hne]; [|exists j, v; by rewrite dict_get_set_ne].
    rewrite Hg in Hj. injection Hj as ->. destruct (Hadm Ha) as [Ha'|(k & w & ? & ? & ?)].
    + exists j, u'. by rewrite dict_get_set_eq.
    + exists k, w. by rewrite dict_get_set_ne.
  - destruct (decide (i = j)) as [->|Hne]; [|exists j, v; by rewrite dict_get_del_ne].
    rewrite Hg in Hj. injection Hj as ->. destruct (Hadm Ha) as (k & w & ? & ? & ?).
    exists k, w. by rewrite dict_get_del_ne.
Qed.

(** Whether a user was a member. *)
Definition had_group (d : dict string User) (i g : string) : bool :=
  match dict_get i d with Some u => in_group u g | None => false end.

Lemma change_groups ctx gs d d' i g :
  change ctx gs d d' → users_ok d → lower g ≠ USERS_GROUP → had_group d' i g = true →
  had_group d i g = true ∨ grantable ctx gs g.
Proof.
  intros Hc [Hd _] Hne. unfold had_group. destruct (dict_get i d') as [u|] eqn:Hi; [intros Hg|done].
  destruct Hc as [j v Hn _ _ Hgr|j v v' Hj _ _ _ Hgr|j v Hj _].
  - apply get_set_cases in Hi as [[-> ->]|[? Hi]]; [|left; by rewrite Hi].
    destruct (Hgr g Hg); [done|by right].
  - apply get_set_cases in Hi as [[-> ->]|[? Hi]]; [|left; by rewrite Hi]. rewrite Hj. by apply Hgr.
  - apply get_del_cases in Hi as [? Hi]; [|done]. left. by rewrite Hi.
Qed.

(** ** Methods that only read *)

Section UsersSafety.
Context {Host : Type} `{E : AuthEnv Host}.
Abbreviation method := (py (World Host) uexn).

Definition reader {A} (m : method A) : Prop := ∀ s, (m s).2 = s.

Lemma reader_bind {A B} (m : method A) (k : A → method B) :
  reader m → (∀ a, reader (k a)) → reader (m ≫= k).
Proof.
  intros Hm Hk s. rewrite py_bind_eq. specialize (Hm s). destruct (m s) as [[e|a] s']; simpl in *; subst; [done|].
  apply Hk.
Qed.
Lemma reader_gets {A} (f : World Host → A) : reader (gets f).
Proof. done. Qed.
Lemma reader_ret {A} (a : A) : reader (mret a).
Proof. done. Qed.
Lemma reader_raise {A} (e : uexn) : reader (A := A) (raise e).
Proof. done. Qed.

Lemma reader_raise_if b (e : uexn) : reader (raise_if b e).
Proof. by destruct b. Qed.

(** The outcome of a method after one that only reads. *)
Lemma after_reader {A B} (m : method A) (k : A → method B) s :
  reader m →
  (m ≫= k) s = match (m s).1 with inl e => (inl e, s) | inr a => k a s end.
Proof.
  intros Hm. rewrite py_bind_eq. specialize (Hm s). by destruct (m s) as [[e|a] s']; simpl in *; subst.
Qed.

Ltac reads :=
  repeat first
    [ apply reader_gets | apply reader_ret | apply reader_raise | apply reader_raise_if
    | apply reader_bind; [|intros ?] | progress cbn [mret py_ret] | case_match ].

Lemma reader_validate_name v k : reader (validate_name v k).
Proof. unfold validate_name. reads. Qed.
Lemma reader_validate_email v : reader (validate_email v).
Proof. unfold validate_email. reads. Qed.
Lemma reader_validate_text v f n : reader (validate_text v f n).
Proof. unfold validate_text. reads. Qed.
Lemma reader_validate_data d : reader (validate_data d).
Proof. unfold validate_data. reads. Qed.
Lemma reader_add_permissions l out : reader (add_permissions out l).
Proof. revert out. induction l as [|p l IH]; intros out; simpl; [reads|]. case_match; [reads|apply IH]. Qed.
Lemma reader_validate_permissions p : reader (validate_permissions p).
Proof.
  unfold validate_permissions. destruct p; [|reads]. case_match; [reads|].
  apply reader_bind; [apply reader_add_permissions|intros; reads].
Qed.
Lemma reader_resolve_loop l out : reader (resolve_loop out l).
Proof.
  revert out. induction l as [|x l IH]; intros out; simpl; [reads|]. case_match; [apply IH|].
  apply reader_bind; [unfold get_group; reads|]. intros [g|]; [apply IH|reads].
Qed.
Lemma reader_resolve_groups l : reader (resolve_groups l).
Proof. apply reader_resolve_loop. Qed.
Lemma reader_unique n e x us : reader (unique_loop n e x us).
Proof.
  induction us as [|u us IH]; simpl; [reads|]. case_match; [apply IH|].
  apply reader_bind; [reads|intros]. apply reader_bind; [reads|intros]. apply IH.
Qed.
Lemma reader_ensure_unique n e x : reader (_ensure_unique n e x).
Proof. apply reader_bind; [unfold get_users; reads|intros; apply reader_unique]. Qed.
Lemma reader_can_grant c ps : reader (ensure_can_grant_permissions c ps).
Proof. unfold ensure_can_grant_permissions. reads. Qed.
Lemma reader_can_grant_groups c ns : reader (ensure_can_grant_groups c ns).
Proof. apply reader_bind; [apply reader_gets|intros; apply reader_can_grant]. Qed.
Lemma reader_covers c u : reader (ensure_covers_user c u).
Proof. unfold ensure_covers_user, user_permissions, effective_permissions. reads. Qed.
Lemma reader_last_admin u : reader (is_last_enabled_admin u).
Proof. unfold is_last_enabled_admin, get_users. reads. Qed.
Lemma reader_as_caller ctx m : (∀ c, reader (m c)) → reader (as_caller ctx m).
Proof. intros H. destruct ctx; [apply H|reads]. Qed.

(** ** What the checks established *)

Lemma uncovered_nil c ps q :
  uncovered (permissions c) ps = [] → q ∈ ps → has_permission (permissions c) q = true.
Proof.
  unfold uncovered. intros Hu Hq. destruct (has_permission (permissions c) q) eqn:Hp; [done|exfalso].
  assert (q ∈ filter (λ p, has_permission (permissions c) p = false) ps) as H
    by (apply list_elem_of_filter; done). rewrite Hu in H. inversion H.
Qed.

Lemma can_grant_ok c ps (s : World Host) :
  (ensure_can_grant_permissions c ps s).1 = inr tt →
  ∀ q, q ∈ ps → has_permission (permissions c) q = true.
Proof.
  unfold ensure_can_grant_permissions. intros Hs q. destruct (uncovered _ ps) eqn:Hu; [|done].
  by apply uncovered_nil.
Qed.

Lemma can_grant_groups_ok c ns (s : World Host) g g' :
  (ensure_can_grant_groups c ns s).1 = inr tt → g ∈ ns → lower g' = lower g →
  grantable (Some c) (groups (st s)) g'.
Proof.
  unfold ensure_can_grant_groups. rewrite after_reader by apply reader_gets. cbn [effective_permissions gets fst].
  intros Hs Hg Hl c' grp q [= <-] Hgrp Hq Hne.
  pose proof (can_grant_ok _ _ _ Hs) as Hp. unfold group_permissions in Hp.
  destruct (merge_permissions_keys (omap (λ n, g_permissions <$> group_in n (groups (st s))) ns) q)
    as (q' & Hq' & Hk); [|done|].
  - apply list_elem_of_In, in_concat. exists (g_permissions grp). split; [|by apply list_elem_of_In].
    apply list_elem_of_In, list_elem_of_omap. exists g. split; [done|]. unfold group_in in *.
    rewrite <- Hl, Hgrp. done.
  - specialize (Hp q' Hq'). unfold has_permission in *. apply existsb_exists in Hp as (p & Hp & Hm).
    apply existsb_exists. exists p. split; [done|]. unfold permission_matches, segments in *.
    rewrite Hk. destruct (merge_permissions_nodup (omap (λ n, g_permissions <$> group_in n (groups (st s))) ns))
      as [_ Hst]. rewrite Forall_forall in Hst. destruct (Hst q' Hq') as [He _]. by rewrite He in Hm.
Qed.

Lemma taken_by_texts v x : taken_by v x = false → lower x ∉ texts v.
Proof. unfold taken_by. by rewrite bool_decide_eq_false. Qed.

Lemma unique_ok n e x us (s : World Host) v :
  (unique_loop n e x us s).1 = inr tt → v ∈ us → Some (u_id v) ≠ x →
  (∀ n', n = Some n' → lower n' ∉ texts v) ∧ (∀ e', e = Some e' → lower e' ∉ texts v).
Proof.
  induction us as [|u us IH]; simpl; [set_solver|]. intros Hs Hv Hx.
  destruct (bool_decide (Some (u_id u) = x)) eqn:Hu.
  { apply bool_decide_eq_true in Hu. apply elem_of_cons in Hv as [->|Hv]; [done|by apply IH]. }
  rewrite after_reader in Hs by (destruct n; [apply reader_raise_if|done]).
  destruct n as [n|]; [destruct (taken_by u n) eqn:Hn; [done|]|]; cbn in Hs;
    rewrite after_reader in Hs by (destruct e; [apply reader_raise_if|done]);
    (destruct e as [e|]; [destruct (taken_by u e) eqn:He; [done|]|]); cbn in Hs;
    (apply elem_of_cons in Hv as [->|Hv]; [|by apply IH]);
    split; intros z Hz; simplify_eq; by apply taken_by_texts.
Qed.

Lemma elem_of_values {V} i (v : V) (d : dict string V) : dict_get i d = Some v → v ∈ dict_values d.
Proof.
  intros H%dict_get_elem_of. unfold dict_values. apply list_elem_of_fmap. by exists (i, v).
Qed.

Lemma ensure_unique_ok n e x (s : World Host) j v :
  (_ensure_unique n e x s).1 = inr tt → dict_get j (users (st s)) = Some v → Some (u_id v) ≠ x →
  (∀ n', n = Some n' → lower n' ∉ texts v) ∧ (∀ e', e = Some e' → lower e' ∉ texts v).
Proof.
  unfold _ensure_unique. rewrite after_reader by apply reader_gets. cbn [get_users gets fst].
  intros Hs Hj. by eapply unique_ok, elem_of_values.
Qed.

(** Two enabled admins: one is another than a given one. *)
Lemma two_admins i (d : dict string User) :
  dict_ok d → (2 ≤ length (List.filter enabled_admin (dict_values d)))%nat → other_admin i d.
Proof.
  intros Hd Hl.
  assert (dict_values (List.filter (λ kv, enabled_admin kv.2) d) =
          List.filter enabled_admin (dict_values d)) as Hv.
  { unfold dict_values. clear. induction d as [|[k v] d IH]; [done|]. simpl.
    destruct (enabled_admin v); simpl; [f_equal; exact IH|exact IH]. }
  rewrite <- Hv in Hl. unfold dict_values in Hl. rewrite length_fmap in Hl.
  assert (NoDup (List.filter (λ kv, enabled_admin kv.2) d).*1) as Hnd.
  { unfold dict_ok, dict_keys in Hd. clear -Hd. induction d as [|[k v] d IH]; [constructor|].
    rewrite fmap_cons in Hd. apply NoDup_cons in Hd as [Hk Hd]. simpl.
    destruct (enabled_admin v); [|by apply IH]. rewrite fmap_cons. apply NoDup_cons.
    split; [|by apply IH]. intros [[k' v'] [Heq Hin]]%list_elem_of_fmap.
    apply list_elem_of_In, filter_In in Hin as [Hin _]. apply Hk. apply list_elem_of_fmap.
    exists (k', v'). split; [done|]. by apply list_elem_of_In. }
  assert (∀ kv, kv ∈ List.filter (λ kv, enabled_admin kv.2) d →
    dict_get kv.1 d = Some kv.2 ∧ enabled_admin kv.2 = true) as Hin.
  { intros [k v] Hin%list_elem_of_In. apply filter_In in Hin as [Hin Ha]. split; [|done].
    apply dict_elem_of_get; [done|]. by apply list_elem_of_In. }
  destruct (List.filter _ d) as [|[k v] [|[k' v'] l]]; simpl in *; [lia..|].
  apply NoDup_cons in Hnd as [Hk _]. destruct (decide (k = i)) as [->|Hne].
  - exists k', v'. destruct (Hin (k', v')) as [? ?]; [set_solver|]. split_and!; [set_solver|done..].
  - exists k, v. destruct (Hin (k, v)) as [? ?]; [set_solver|]. by split_and!.
Qed.

Lemma last_admin_ok u (s : World Host) :
  users_ok (users (st s)) → (is_last_enabled_admin u s).1 = inr false → enabled_admin u = true →
  other_admin (u_id u) (users (st s)).
Proof.
  intros [Hd _] Hs Ha. unfold is_last_enabled_admin in Hs. rewrite Ha in Hs. cbn [negb] in Hs.
  rewrite after_reader in Hs by apply reader_gets. cbn in Hs. injection Hs as Hs.
  apply two_admins; [done|]. apply Nat.leb_gt in Hs.
  change (list_fmap (string * User)%type User snd (users (st s))) with (dict_values (users (st s))) in Hs. lia.
Qed.

(** ** Methods that leave the users alone *)

Definition users_are (d : dict string User) (s : World Host) : Prop := users (st s) = d.

Lemma users_effect (m : method unit) d : effect m → keeps (users_are d) m.
Proof. by apply keeps_effect. Qed.

Lemma users_on_stores f d :
  (∀ x, users (f x) = users x) → keeps (E := uexn) (users_are d) (on_stores (Host := Host) f).
Proof. intros Hf s Hs. unfold users_are in *. cbn. by rewrite Hf. Qed.

Lemma users_on_auth f d : keeps (E := uexn) (users_are d) (on_auth (Host := Host) f).
Proof. by intros s Hs. Qed.

Lemma users_draw f d : keeps (E := uexn) (users_are d) (draw (Host := Host) f).
Proof. intros s Hs. unfold draw, on_host. by destruct (f (host s)). Qed.

Lemma users_set_password i p d : keeps (users_are d) (set_password i p).
Proof.
  unfold set_password. apply keeps_bind; [apply users_draw|intros x].
  apply keeps_bind; [apply keeps_gets|intros now]. destruct (hash_password _ _ _).
  by apply users_on_stores.
Qed.

Lemma users_revoke x reason a n d : keeps (users_are d) (revoke_session x reason a n).
Proof.
  unfold revoke_session. apply keeps_bind; [by apply users_on_stores|intros _].
  apply keeps_bind; [apply users_on_auth|intros _].
  apply keeps_bind; [apply users_effect, effect_closed|intros _].
  apply keeps_bind; [apply users_effect, effect_notify_user|intros _].
  apply users_effect, effect_audit.
Qed.

Lemma users_revoke_all uid reason a keep d : keeps (users_are d) (revoke_user_sessions uid reason a keep).
Proof.
  unfold revoke_user_sessions. apply keeps_bind; [apply keeps_gets|intros l]. generalize 0.
  induction l as [|x l IH]; intros n; simpl; [apply keeps_ret|].
  case_match; [|apply IH]. apply keeps_bind; [apply users_revoke|intros _; apply IH].
Qed.

End UsersSafety.

(** The tail of an operation: what remains after the users were changed. *)
Ltac tail :=
  repeat first
    [ apply keeps_ret | apply keeps_raise | apply keeps_gets
    | apply users_effect, effect_audit | apply users_effect, effect_publish
    | apply users_effect, effect_notify_change
    | apply users_effect, effect_for_each; intros ?; apply effect_publish
    | apply users_revoke_all | apply users_set_password | apply users_draw | apply users_on_auth
    | apply users_on_stores; done
    | apply keeps_bind; [|intros ?] | progress cbn [mret py_ret raise_if] | case_match ].

(** ** The operations take steps *)

Abbreviation steps ctx s s' := (rtc (change ctx (groups (st s))) (users (st s)) (users (st s'))).

Section Steps.
Context {Host : Type} `{E : AuthEnv Host}.
Abbreviation method := (py (World Host) uexn).

Lemma steps_same {A} ctx (m : method A) s : keeps (users_are (users (st s))) m → steps ctx s (m s).2.
Proof. intros Hm. specialize (Hm s eq_refl). unfold users_are in Hm. by rewrite Hm. Qed.

Lemma steps_reader {A} ctx (m : method A) s : reader m → steps ctx s (m s).2.
Proof. intros Hm. by rewrite Hm. Qed.

Lemma store_update_eq i p u s :
  dict_get i (users (st s)) = Some u →
  store_update_user i p s =
    (inr (apply_patch p (clock (host s)) u),
     {| st := set_users (dict_set i (apply_patch p (clock (host s)) u) (users (st s))) (st s);
        au := au s; host := host s |}).
Proof.
  intros Hu. unfold store_update_user. rewrite py_bind_eq. cbn [now_ms gets].
  unfold update_user_in. by rewrite Hu.
Qed.

(** A patch that changes neither the texts nor the groups nor the state. *)
Lemma patched_quiet ctx gs d i u now p :
  users_ok d → dict_get i d = Some u →
  p_name p = None → p_email p = None → p_groups p = None → p_disabled p = None →
  change ctx gs d (dict_set i (apply_patch p now u) d).
Proof.
  intros [_ Hk] Hu Hn He Hg Hd. apply (Patched _ _ _ i u); simpl.
  - done.
  - by apply Hk.
  - intros j v x _ _ Hx. left. unfold texts in *. simpl in Hx. by rewrite Hn, He in Hx.
  - intros Ha. left. unfold enabled_admin, in_group in *. simpl. by rewrite Hg, Hd.
  - intros g Hx. left. unfold in_group in *. simpl in Hx. by rewrite Hg in Hx.
Qed.

(** A patch of the groups only. *)
Lemma patched_groups ctx gs d i u now l :
  users_ok d → dict_get i d = Some u →
  (enabled_admin u = true → existsb (λ x, same_text x ADMIN_GROUP) l = true ∨ other_admin i d) →
  (∀ g, existsb (λ x, same_text x g) l = true → in_group u g = true ∨ grantable ctx gs g) →
  change ctx gs d (dict_set i (apply_patch (group_patch l) now u) d).
Proof.
  intros [_ Hk] Hu Ha Hg. apply (Patched _ _ _ i u); simpl; [done|by apply Hk| | |done].
  - intros j v x _ _ Hx. by left.
  - intros Hadm. destruct (Ha Hadm) as [H|H]; [left|by right]. unfold enabled_admin, in_group in *.
    simpl. apply andb_true_iff in Hadm as [-> _]. exact H.
Qed.

Lemma check_update_ok ctx target f (s : World Host) p :
  users_ok (users (st s)) → dict_get (u_id target) (users (st s)) = Some target →
  (check_update ctx target f s).1 = inr p →
  ∀ now, change ctx (groups (st s)) (users (st s))
    (dict_set (u_id target) (apply_patch p now target) (users (st s))).
Proof.
  intros Hok Ht Hc now. unfold check_update in Hc.
  rewrite after_reader in Hc.
  2: { destruct (f_name f); [|done]. apply reader_bind; [apply reader_validate_name|done]. }
  match type of Hc with context [match (?m s).1 with _ => _ end] => destruct (m s).1 as [?|name] end; [done|].
  rewrite after_reader in Hc.
  2: { destruct (f_email f); [|done]. apply reader_bind; [apply reader_validate_email|done]. }
  match type of Hc with context [match (?m s).1 with _ => _ end] => destruct (m s).1 as [?|email] end; [done|].
  cbv zeta in Hc. rewrite after_reader in Hc by apply reader_validate_text.
  destruct (validate_text _ _ _ s).1; [done|].
  rewrite after_reader in Hc by apply reader_validate_data. destruct (validate_data _ s).1; [done|].
  rewrite after_reader in Hc.
  2: { destruct (f_groups f); [|done]. apply reader_bind; [apply reader_resolve_groups|done]. }
  match type of Hc with context [match (?m s).1 with _ => _ end] => destruct (m s).1 as [?|resolved] end; [done|].
  rewrite after_reader in Hc.
  2: { apply reader_as_caller. intros c. apply reader_bind; [apply reader_covers|intros _].
       destruct (List.filter _ _); [done|apply reader_can_grant_groups]. }
  match type of Hc with context [match (?m s).1 with _ => _ end] => destruct (m s).1 as [?|[]] eqn:Hgrant end; [done|].
  rewrite after_reader in Hc by apply reader_ensure_unique.
  destruct (_ensure_unique _ _ _ s).1 as [?|[]] eqn:Huniq; [done|].
  set (removes := match resolved with Some gs => _ | None => false end) in Hc.
  rewrite after_reader in Hc.
  2: { destruct (removes || _); [apply reader_last_admin|done]. }
  match type of Hc with context [match (?m s).1 with _ => _ end] => destruct (m s).1 as [?|last] eqn:Hlast end; [done|].
  rewrite after_reader in Hc by apply reader_raise_if. destruct last; [done|].
  cbn in Hc. injection Hc as <-.
  apply (Patched _ _ _ (u_id target) target); cbn [apply_patch u_id p_name p_email p_groups p_disabled]; [done|done| | |].
  - intros j v x Hj Hv Hx. unfold texts in Hx. cbn [u_name u_email apply_patch p_name p_email] in Hx.
    assert (Some (u_id v) ≠ Some (u_id target)) as Hne.
    { intros [= Hid]. apply Hok in Hv as Hv'. congruence. }
    destruct (ensure_unique_ok _ _ _ _ _ _ Huniq Hv Hne) as [Hn He].
    apply elem_of_cons in Hx as [->|Hx%list_elem_of_singleton]; [|subst x].
    + destruct (changed name (u_name target)) as [n|]; [right; by apply Hn|left; unfold texts; set_solver].
    + destruct (changed email (u_email target)) as [e|]; [right; by apply He|left; unfold texts; set_solver].
  - intros Ha. destruct (removes || bool_decide (f_disabled f = Some true)) eqn:Hr.
    { right. by apply last_admin_ok. }
    left. apply orb_false_iff in Hr as [Hr Hd]. apply bool_decide_eq_false in Hd.
    unfold enabled_admin in *. apply andb_true_iff in Ha as [Hen Hin]. apply andb_true_iff.
    cbn [apply_patch disabled u_groups in_group p_disabled p_groups]. split.
    + destruct (f_disabled f) as [[]|]; [done|done|exact Hen].
    + unfold in_group in *. cbn [apply_patch u_groups p_groups]. destruct resolved as [gs|]; [|exact Hin].
      unfold removes in Hr. apply negb_false_iff, existsb_exists in Hr as (g & Hg & Hga).
      apply existsb_exists. exists g. split; [exact Hg|exact Hga].
  - intros g Hg. destruct (in_group target g) eqn:Hin; [by left|right].
    unfold in_group in Hg. cbn [apply_patch u_groups p_groups] in Hg.
    destruct resolved as [gs|]; [|unfold in_group in Hin; simpl in Hg; congruence].
    cbn [default] in Hg. apply existsb_exists in Hg as (x & Hx & Hxg). apply bool_decide_eq_true in Hxg.
    destruct ctx as [c|]; [|by intros c' ? ? [=]]. cbn [as_caller] in Hgrant.
    rewrite after_reader in Hgrant by apply reader_covers. destruct (ensure_covers_user c target s).1; [done|].
    assert (x ∈ List.filter (λ g, negb (in_group target g)) gs) as Hadd.
    { apply list_elem_of_In, filter_In. split; [done|]. unfold in_group in Hin |- *.
      unfold same_text in Hin |- *. by rewrite Hxg, Hin. }
    cbn [default] in Hgrant. change (id gs) with gs in Hgrant. destruct (List.filter _ gs) as [|y ys] eqn:Hf; [inversion Hadd|].
    by eapply can_grant_groups_ok.
Qed.

(** The default group, by the name it is stored under. *)
Lemma resolve_default (s : World Host) :
  (resolve_groups (Some [USERS_GROUP]) s).1 =
  match group_in USERS_GROUP (groups (st s)) with
  | Some g => inr [g_name g]
  | None => inl (bad_request "unknown group: users")
  end.
Proof.
  unfold resolve_groups. change (default [] (Some [USERS_GROUP])) with [USERS_GROUP].
  cbn [resolve_loop]. change (_clean (Some USERS_GROUP)) with USERS_GROUP.
  change (is_empty USERS_GROUP) with false. change (len USERS_GROUP <=? NAME_MAX)%nat with true.
  cbv iota zeta. rewrite py_bind_eq. cbn [get_group gets].
  by destruct (group_in USERS_GROUP (groups (st s))).
Qed.

(** The names that a new account resolves to are those of groups. *)
Lemma check_create_ok ctx f (s : World Host) n :
  groups_ok (groups (st s)) → users_ok (users (st s)) → (check_create ctx f s).1 = inr n →
  (∀ j v x, dict_get j (users (st s)) = Some v →
     x ∈ [lower (n_name n); lower (n_email n)] → x ∉ texts v) ∧
  ∀ g, existsb (λ x, same_text x g) (n_groups n) = true →
    lower g = USERS_GROUP ∨ grantable ctx (groups (st s)) g.
Proof.
  intros Hst Hok Hc. unfold check_create in Hc.
  rewrite after_reader in Hc by apply reader_validate_name. destruct (validate_name _ _ s).1 as [?|name]; [done|].
  rewrite after_reader in Hc by apply reader_validate_email. destruct (validate_email _ s).1 as [?|email]; [done|].
  rewrite after_reader in Hc by apply reader_validate_text. destruct (validate_text _ _ _ s).1; [done|].
  rewrite after_reader in Hc by apply reader_validate_data. destruct (validate_data _ s).1; [done|].
  rewrite after_reader in Hc.
  2: { destruct (f_password f); [|done]. by destruct (validate_password_policy _). }
  match type of Hc with context [match (?m s).1 with _ => _ end] => destruct (m s).1 end; [done|].
  rewrite after_reader in Hc by apply reader_resolve_groups. destruct (resolve_groups _ s).1 as [?|res]; [done|].
  rewrite after_reader in Hc.
  2: { destruct res; [done|]. apply reader_as_caller. intros; apply reader_can_grant_groups. }
  match type of Hc with context [match (?m s).1 with _ => _ end] => destruct (m s).1 as [?|[]] eqn:Hgrant end; [done|].
  rewrite after_reader in Hc by (destruct res; [apply reader_resolve_groups|done]).
  match type of Hc with context [match (?m s).1 with _ => _ end] => destruct (m s).1 as [?|gs] eqn:Hres end; [done|].
  rewrite after_reader in Hc by apply reader_ensure_unique.
  destruct (_ensure_unique _ _ _ s).1 as [?|[]] eqn:Huniq; [done|]. injection Hc as <-. cbn [n_name n_email n_groups].
  split.
  - intros j v x Hv Hx. destruct (ensure_unique_ok _ _ _ _ _ _ Huniq Hv) as [Hn He]; [done|].
    apply elem_of_cons in Hx as [->|Hx%list_elem_of_singleton]; [by apply Hn|subst x; by apply He].
  - intros g Hg. apply existsb_exists in Hg as (x & Hx & Hxg). apply bool_decide_eq_true in Hxg.
    destruct res as [|r res].
    + left. rewrite resolve_default in Hres.
      destruct (group_in USERS_GROUP (groups (st s))) as [grp|] eqn:Hgrp; [|done].
      injection Hres as <-. destruct Hx as [<-|[]]. rewrite <- Hxg.
      by apply Hst in Hgrp.
    + right. cbn in Hres. injection Hres as <-.
      destruct ctx as [c|]; [|by intros c' ? ? [=]]. cbn [as_caller] in Hgrant.
      eapply can_grant_groups_ok; [exact Hgrant|by apply list_elem_of_In|done].
Qed.

Lemma reader_check_update ctx target f : reader (Host := Host) (check_update ctx target f).
Proof.
  unfold check_update. apply reader_bind.
  { destruct (f_name f); [|done]. apply reader_bind; [apply reader_validate_name|done]. }
  intros name. apply reader_bind.
  { destruct (f_email f); [|done]. apply reader_bind; [apply reader_validate_email|done]. }
  intros email. cbv zeta. apply reader_bind; [apply reader_validate_text|intros _].
  apply reader_bind; [apply reader_validate_data|intros _]. apply reader_bind.
  { destruct (f_groups f); [|done]. apply reader_bind; [apply reader_resolve_groups|done]. }
  intros res. apply reader_bind.
  { apply reader_as_caller. intros c. apply reader_bind; [apply reader_covers|intros _].
    destruct (List.filter _ _); [done|apply reader_can_grant_groups]. }
  intros _. apply reader_bind; [apply reader_ensure_unique|intros _]. apply reader_bind.
  { match goal with |- context [if ?b then _ else _] => destruct b end; [apply reader_last_admin|done]. }
  intros last. apply reader_bind; [apply reader_raise_if|done].
Qed.

Lemma reader_check_create ctx f : reader (Host := Host) (check_create ctx f).
Proof.
  unfold check_create. apply reader_bind; [apply reader_validate_name|intros name].
  apply reader_bind; [apply reader_validate_email|intros email].
  apply reader_bind; [apply reader_validate_text|intros _].
  apply reader_bind; [apply reader_validate_data|intros _]. apply reader_bind.
  { destruct (f_password f); [|done]. by destruct (validate_password_policy _). }
  intros _. apply reader_bind; [apply reader_resolve_groups|intros res]. apply reader_bind.
  { destruct res; [done|]. apply reader_as_caller. intros; apply reader_can_grant_groups. }
  intros _. apply reader_bind; [by destruct res; [apply reader_resolve_groups|]|intros gs].
  apply reader_bind; [apply reader_ensure_unique|done].
Qed.

(** ** Each operation *)

(** After one step, a tail that leaves the users alone. *)
Lemma steps_then {A} ctx (m : method A) (s s1 : World Host) :
  change ctx (groups (st s)) (users (st s)) (users (st s1)) →
  keeps (users_are (users (st s1))) m → steps ctx s (m s1).2.
Proof.
  intros Hc Hm. specialize (Hm s1 eq_refl). unfold users_are in Hm. rewrite Hm. by apply rtc_once.
Qed.

Lemma steps_update ctx target f (s : World Host) :
  users_ok (users (st s)) → dict_get (u_id target) (users (st s)) = Some target →
  steps ctx s (update_user ctx target f s).2.
Proof.
  intros Hok Ht. unfold update_user. rewrite after_reader by apply reader_check_update.
  destruct (check_update ctx target f s).1 as [e|p] eqn:Hc; [apply rtc_refl|].
  rewrite py_bind_eq. unfold try_except. rewrite (store_update_eq _ _ _ _ Ht). cbv zeta.
  apply steps_then; [by eapply check_update_ok|]. unfold _user_event. tail.
Qed.

Lemma steps_create ctx f (s : World Host) :
  groups_ok (groups (st s)) → users_ok (users (st s)) → dict_get (uuid4 (host s)).1 (users (st s)) = None →
  steps ctx s (create_user ctx f s).2.
Proof.
  intros Hst Hok Hfresh. unfold create_user. rewrite after_reader by apply reader_check_create.
  destruct (check_create ctx f s).1 as [e|n] eqn:Hc; [apply rtc_refl|].
  destruct (check_create_ok ctx f s n Hst Hok Hc) as [Hu Hg].
  rewrite py_bind_eq. unfold try_except, store_create_user. rewrite py_bind_eq. cbn [gets].
  destruct (name_taken (n_name n) (users (st s))); cbn [raise_if].
  { rewrite py_bind_eq. cbn. apply rtc_refl. }
  rewrite py_bind_eq. cbn [mret py_ret]. rewrite py_bind_eq. cbn [now_ms gets]. rewrite py_bind_eq.
  unfold draw, on_host. destruct (uuid4 (host s)) as [i h]. rewrite py_bind_eq. cbn [on_stores modify mret py_ret].
  apply steps_then; [|unfold _user_event; tail].
  cbn [st users set_users]. apply Added; [done|done| |].
  - intros j v x Hv Hx. by eapply Hu.
  - exact Hg.
Qed.

Lemma steps_delete ctx target (s : World Host) :
  users_ok (users (st s)) → dict_get (u_id target) (users (st s)) = Some target →
  steps ctx s (delete_user ctx target s).2.
Proof.
  intros Hok Ht. unfold delete_user.
  rewrite after_reader by (apply reader_as_caller; intros; apply reader_raise_if).
  destruct (as_caller _ _ s).1; [apply rtc_refl|].
  rewrite after_reader by (apply reader_as_caller; intros; apply reader_covers).
  destruct (as_caller _ _ s).1; [apply rtc_refl|].
  rewrite after_reader by apply reader_last_admin.
  destruct (is_last_enabled_admin target s).1 as [|last] eqn:Hl; [apply rtc_refl|].
  rewrite after_reader by apply reader_raise_if. destruct last; [apply rtc_refl|]. cbn [raise_if mret py_ret fst].
  rewrite py_bind_eq. cbn [store_delete_user on_stores modify]. apply steps_then.
  - cbn. eapply Removed; [exact Ht|]. intros Ha. by apply last_admin_ok.
  - unfold _user_event. tail.
Qed.

Lemma steps_change_password ctx c target password temporary (s : World Host) :
  users_ok (users (st s)) → dict_get (u_id target) (users (st s)) = Some target →
  steps ctx s (change_password c target password temporary s).2.
Proof.
  intros Hok Ht. unfold change_password.
  rewrite after_reader by by destruct (validate_password_policy _).
  match goal with |- context [match (?m s).1 with _ => _ end] => destruct (m s).1 end; [apply rtc_refl|].
  cbv zeta.
  assert (∀ b s1, users (st s1) = users (st s) →
    steps ctx s (store_update_user (u_id target) (must_change b) s1).2 ∧
    ∃ u s2, store_update_user (u_id target) (must_change b) s1 = (inr u, s2)) as Hup.
  { intros b s1 Hs1. rewrite (store_update_eq _ _ target) by by rewrite Hs1. split; [|eauto].
    cbn [snd st users set_users]. rewrite Hs1. by apply rtc_once, patched_quiet. }
  assert (∀ {A B} (m : method A) (k : A → method B) (s1 : World Host),
    steps ctx s (m s1).2 → (∀ a d, keeps (users_are d) (k a)) → steps ctx s ((m ≫= k) s1).2) as Hthen.
  { intros A B m k s1 Hm Hk. rewrite py_bind_eq. destruct (m s1) as [[e|a] s2]; [exact Hm|].
    pose proof (Hk a (users (st s2)) s2 eq_refl) as H. unfold users_are in H. by rewrite H. }
  apply Hthen; [|intros; unfold _user_event; tail].
  destruct (is_self c target).
  - rewrite py_bind_eq. pose proof (users_set_password (u_id target) password _ s eq_refl) as Hpw.
    unfold users_are in Hpw. destruct (set_password (u_id target) password s) as [[e|[]] s1];
      cbn [snd] in Hpw; [cbn [snd]; rewrite Hpw; apply rtc_refl|].
    apply Hthen; [|intros; tail]. destruct (must_change_password target).
    + apply Hthen; [by apply Hup|intros; tail].
    + cbn. rewrite Hpw. apply rtc_refl.
  - rewrite after_reader by apply reader_covers.
    destruct (ensure_covers_user c target s).1; [apply rtc_refl|].
    rewrite py_bind_eq. pose proof (users_set_password (u_id target) password _ s eq_refl) as Hpw.
    unfold users_are in Hpw. destruct (set_password (u_id target) password s) as [[e|[]] s1];
      cbn [snd] in Hpw; [cbn [snd]; rewrite Hpw; apply rtc_refl|].
    rewrite py_bind_eq. cbn [reset_failures on_auth modify].
    apply Hthen; [by apply Hup|intros; tail].
Qed.

Lemma steps_add_member ctx g u (s : World Host) :
  users_ok (users (st s)) → dict_get (u_id u) (users (st s)) = Some u →
  steps ctx s (add_member ctx g u s).2.
Proof.
  intros Hok Hu. unfold add_member. rewrite after_reader.
  2: { apply reader_as_caller. intros c.
       apply reader_bind; [apply reader_covers|intros; apply reader_can_grant_groups]. }
  destruct (as_caller _ _ s).1 as [e|[]] eqn:Hc; [apply rtc_refl|].
  destruct (in_group u (g_name g)); [apply rtc_refl|].
  rewrite py_bind_eq, (store_update_eq _ _ _ _ Hu). apply steps_then; [|unfold _user_event; tail].
  cbn [st users set_users]. apply patched_groups; [done..| |].
  - intros Ha. left. rewrite existsb_app. unfold enabled_admin, in_group in Ha.
    apply andb_true_iff in Ha as [_ ->]. done.
  - intros x Hx. rewrite existsb_app in Hx. apply orb_true_iff in Hx as [Hx|Hx]; [by left|right].
    cbn in Hx. rewrite orb_false_r in Hx. apply bool_decide_eq_true in Hx.
    destruct ctx as [c|]; [|by intros c' ? ? [=]]. cbn [as_caller] in Hc.
    rewrite after_reader in Hc by apply reader_covers. destruct (ensure_covers_user c u s).1; [done|].
    eapply can_grant_groups_ok; [exact Hc|by apply list_elem_of_singleton|done].
Qed.

Lemma without_group_incl g gs x :
  existsb (λ y, same_text y x) (without_group g gs) = true → existsb (λ y, same_text y x) gs = true.
Proof.
  rewrite !existsb_exists. intros (y & Hy & Hyx). apply filter_In in Hy as [Hy _]. by exists y.
Qed.

Lemma without_group_other g gs x :
  lower g ≠ lower x → existsb (λ y, same_text y x) gs = true →
  existsb (λ y, same_text y x) (without_group g gs) = true.
Proof.
  intros Hne. rewrite !existsb_exists. intros (y & Hy & Hyx). exists y. split; [|done].
  apply filter_In. split; [done|]. apply negb_true_iff, bool_decide_eq_false.
  apply bool_decide_eq_true in Hyx. congruence.
Qed.

Lemma steps_remove_member ctx g u (s : World Host) :
  users_ok (users (st s)) → dict_get (u_id u) (users (st s)) = Some u →
  steps ctx s (remove_member ctx g u s).2.
Proof.
  intros Hok Hu. unfold remove_member.
  rewrite after_reader by (apply reader_as_caller; intros; apply reader_covers).
  destruct (as_caller _ _ s).1; [apply rtc_refl|].
  destruct (negb (in_group u (g_name g))); [apply rtc_refl|].
  rewrite after_reader by (case_bool_decide; [apply reader_last_admin|done]).
  match goal with |- context [match (?m s).1 with _ => _ end] => destruct (m s).1 as [e|last] eqn:Hl end;
    [apply rtc_refl|].
  rewrite after_reader by apply reader_raise_if. destruct last; [apply rtc_refl|]. cbn [raise_if mret py_ret fst].
  rewrite py_bind_eq, (store_update_eq _ _ _ _ Hu). apply steps_then; [|unfold _user_event; tail].
  cbn [st users set_users]. apply patched_groups; [done..| |].
  - intros Ha. case_bool_decide as Hg; [right; by apply last_admin_ok|left].
    apply without_group_other; [exact Hg|]. unfold enabled_admin in Ha. by apply andb_true_iff in Ha as [_ ?].
  - intros x Hx. left. by eapply without_group_incl.
Qed.

(** The loop of [delete_group] over members with different ids. *)
Lemma steps_members ctx g l (s : World Host) :
  users_ok (users (st s)) → lower g ≠ ADMIN_GROUP →
  NoDup (map u_id l) → (∀ u, u ∈ l → dict_get (u_id u) (users (st s)) = Some u) →
  steps ctx s (for_each (λ u, _ ← store_update_user (u_id u)
    (group_patch (without_group g (u_groups u))); mret tt) l s).2.
Proof.
  intros Hok Hg. revert s Hok. induction l as [|u l IH]; intros s Hok Hnd Hl; simpl; [apply rtc_refl|].
  apply NoDup_cons in Hnd as [Hu Hnd].
  rewrite py_bind_eq, py_bind_eq, (store_update_eq _ _ u) by (apply Hl; set_solver). cbn [mret py_ret].
  set (s1 := {| st := _ |}).
  assert (change ctx (groups (st s)) (users (st s)) (users (st s1))) as Hc.
  { cbn. apply patched_groups; [done|apply Hl; set_solver| |].
    - intros Ha. left. apply without_group_other; [exact Hg|].
      unfold enabled_admin in Ha. by apply andb_true_iff in Ha as [_ ?].
    - intros x Hx. left. by eapply without_group_incl. }
  apply (rtc_l _ _ _ _ Hc). change (groups (st s)) with (groups (st s1)). apply IH.
  - by eapply change_users_ok.
  - done.
  - intros v Hv. cbn. rewrite dict_get_set_ne; [apply Hl; set_solver|].
    intros He. apply Hu. rewrite He. apply list_elem_of_In, in_map_iff. exists v.
    split; [done|]. by apply list_elem_of_In.
Qed.

Lemma values_ids (d : dict string User) (P : User → bool) :
  users_ok d → NoDup (map u_id (List.filter P (dict_values d))) ∧
  ∀ u, u ∈ List.filter P (dict_values d) → dict_get (u_id u) d = Some u.
Proof.
  intros [Hd Hk].
  assert (∀ i u, (i, u) ∈ d → u_id u = i) as Hk'.
  { intros i u Hin. apply Hk. by apply dict_elem_of_get. }
  split.
  - clear Hk. unfold dict_ok, dict_keys, dict_values in *. induction d as [|[i u] d IH]; [constructor|].
    rewrite fmap_cons in Hd. apply NoDup_cons in Hd as [Hi Hd].
    assert (NoDup (map u_id (List.filter P d.*2))) as Hnd by (apply IH; [done|set_solver]).
    rewrite fmap_cons. cbn [List.filter snd]. destruct (P u); [|done]. cbn [map]. apply NoDup_cons.
    split; [|done]. intros Hin. apply list_elem_of_In, in_map_iff in Hin as (v & Hv & Hin).
    apply filter_In in Hin as [Hin _]. apply list_elem_of_In, list_elem_of_fmap in Hin as ([j w] & -> & Hin).
    apply Hi, list_elem_of_fmap. exists (j, w). split; [|done]. simpl in *.
    rewrite <- (Hk' j w) by set_solver. rewrite Hv. by rewrite (Hk' i u) by set_solver.
  - intros u Hu. apply list_elem_of_In, filter_In in Hu as [Hu _]. apply list_elem_of_In in Hu.
    unfold dict_values in Hu. apply list_elem_of_fmap in Hu as ([i v] & -> & Hin). simpl.
    rewrite (Hk' i v Hin). by apply dict_elem_of_get.
Qed.

Lemma steps_delete_group ctx g (s : World Host) :
  users_ok (users (st s)) → steps ctx s (delete_group ctx g s).2.
Proof.
  intros Hok. unfold delete_group. rewrite after_reader by apply reader_raise_if.
  destruct (_is_built_in g) eqn:Hb; [apply rtc_refl|]. cbn [raise_if mret py_ret fst].
  rewrite after_reader.
  2: { destruct (read_only_users auth_options); [done|].
       apply reader_bind; [apply reader_gets|done]. }
  match goal with |- context [match (?m s).1 with _ => _ end] => destruct (m s).1 as [e|ms] eqn:Hm end;
    [apply rtc_refl|].
  assert (lower (g_name g) ≠ ADMIN_GROUP) as Hne.
  { intros He. unfold _is_built_in in Hb. apply orb_false_iff in Hb as [_ Hb].
    apply bool_decide_eq_false in Hb. apply Hb. rewrite He. unfold BUILT_IN_GROUPS. set_solver. }
  assert (NoDup (map u_id ms) ∧ ∀ u, u ∈ ms → dict_get (u_id u) (users (st s)) = Some u) as [Hnd Hms].
  { destruct (read_only_users auth_options); cbn in Hm; injection Hm as <-.
    - split; [constructor|set_solver].
    - apply (values_ids _ (λ u, in_group u (g_name g))). done. }
  pose proof (steps_members ctx (g_name g) ms s Hok Hne Hnd Hms) as Hl.
  rewrite py_bind_eq. destruct (for_each _ ms s) as [[e|[]] s1]; [exact Hl|]. cbn [snd] in Hl.
  match goal with |- context [(?m s1).2] =>
    assert (keeps (users_are (users (st s1))) m) as Hk by (unfold store_delete_group, _user_event, _group_event; tail)
  end.
  specialize (Hk s1 eq_refl). unfold users_are in Hk. by rewrite Hk.
Qed.
End Steps.
