(* ===== verification/Http.v ===== *)
(** * Requests: bearer tokens and client addresses ([_http.py])

    What the plugin reads from the headers of a request.  The headers are given
    by their values: [get] is the first, [getlist] all of them.  The origin
    checks are in [Origins.v]. *)

From S2P Require Import Prelude PyStr.
From Stdlib Require Import Ascii.

Definition SAFE_METHODS : list string := ["GET"; "HEAD"; "OPTIONS"].

Definition bearer_scheme (auth : string) : bool := bool_decide (lower (take_str 7 auth) = "bearer ").

(** [authorization] is the header, if there is one. *)
Definition has_bearer (authorization : option string) : bool :=
  let auth := or_empty authorization in
  bearer_scheme auth && truthy (strip (drop_str 7 auth)).

Definition bearer_token (authorization : option string) : option string :=
  let auth := or_empty authorization in
  if negb (bearer_scheme auth) then None
  else let token := strip (drop_str 7 auth) in if is_empty token then None else Some token.

(** [trust_proxy]: a [bool] or an [int]. *)
Definition trusted_hops (trust_proxy : bool + Z) : nat :=
  match trust_proxy with
  | inl b => if b then 1 else 0
  | inr n => if n =? 0 then 0 else Z.to_nat (Z.max n 1)
  end.

(** The trimmed entries of all the [X-Forwarded-For] headers. *)
Definition entries_of (values : list string) : list string :=
  concat (map (λ v, map strip (split ","%char v)) values).

Definition forwarded_client_ip (values : list string) (trust_proxy : bool + Z) : option string :=
  let hops := trusted_hops trust_proxy in
  if (hops =? 0)%nat then None
  else
    let entries := entries_of values in
    match entries with
    | [] => None
    | _ => match entries !! (length entries - hops)%nat with
           | Some e => if is_empty e then None else Some e
           | None => None
           end
    end.

(** [AuthService.client_ip]; [peer] is the host of the socket. *)
Definition client_ip (values : list string) (peer : option string) (trust_proxy : bool + Z) : string :=
  match forwarded_client_ip values trust_proxy with
  | Some ip => ip
  | None => if truthy_opt peer then or_empty peer else "unknown"
  end.

Example forwarded_ex :
  forwarded_client_ip ["1.1.1.1, 2.2.2.2"; " 3.3.3.3"] (inl true) = Some "3.3.3.3" ∧
  forwarded_client_ip ["1.1.1.1, 2.2.2.2"; " 3.3.3.3"] (inr 2) = Some "2.2.2.2" ∧
  forwarded_client_ip ["1.1.1.1"] (inr 5) = Some "1.1.1.1" ∧
  forwarded_client_ip ["1.1.1.1"] (inr (-5)) = Some "1.1.1.1" ∧
  forwarded_client_ip ["1.1.1.1"] (inr 0) = None.
Proof. split_and!; reflexivity. Qed.

Example bearer_ex :
  bearer_token (Some "BEARER  abc ") = Some "abc" ∧ bearer_token (Some "bearer   ") = None ∧
  bearer_token (Some "Basic abc") = None.
Proof. split_and!; reflexivity. Qed.

Lemma bearer_token_has h : is_Some (bearer_token h) ↔ has_bearer h = true.
Proof.
  unfold bearer_token, has_bearer, truthy. destruct (bearer_scheme (or_empty h)); simpl; [|by split; [intros []|]].
  destruct (is_empty _); simpl; split; (done || by intros []).
Qed.

Lemma entries_app a b : entries_of (a ++ b) = entries_of a ++ entries_of b.
Proof. unfold entries_of. by rewrite map_app, concat_app. Qed.

(** With [n] trusted proxies, the client's address depends only on the last
    [n] entries of [X-Forwarded-For], the ones those proxies wrote: whatever a
    client sends in front of them changes nothing. *)
Theorem forwarded_not_spoofed client client' proxies trust_proxy :
  (trusted_hops trust_proxy ≤ length (entries_of proxies))%nat →
  forwarded_client_ip (client ++ proxies) trust_proxy = forwarded_client_ip (client' ++ proxies) trust_proxy ∧
  (forwarded_client_ip (client ++ proxies) trust_proxy = None ∨
   ∃ e, e ∈ entries_of proxies ∧ forwarded_client_ip (client ++ proxies) trust_proxy = Some e).
Proof.
  intros Hlen. set (n := length (entries_of proxies)) in Hlen.
  assert (∀ c, forwarded_client_ip (c ++ proxies) trust_proxy =
    if (trusted_hops trust_proxy =? 0)%nat then None
    else match entries_of proxies !! (n - trusted_hops trust_proxy)%nat with
         | Some e => if is_empty e then None else Some e
         | None => None
         end) as H.
  { intros c. unfold forwarded_client_ip. destruct (Nat.eqb_spec (trusted_hops trust_proxy) 0); [done|].
    rewrite entries_app, length_app. fold n.
    rewrite lookup_app_r by lia.
    replace (length (entries_of c) + n - trusted_hops trust_proxy - length (entries_of c))%nat
      with (n - trusted_hops trust_proxy)%nat by lia. destruct (entries_of c ++ entries_of proxies) as [|x l] eqn:Ha; [|done].
    apply app_nil in Ha as [_ Ha]. unfold n in *. rewrite Ha in *. by rewrite lookup_nil. }
  rewrite !H. split; [done|]. destruct (_ =? 0)%nat; [by left|].
  destruct (entries_of proxies !! _) as [e|] eqn:He; [|by left]. destruct (is_empty e); [by left|right].
  exists e. split; [by eapply list_elem_of_lookup_2|done].
Qed.

Lemma forwarded_not_spoofed_witness :
  forwarded_client_ip ["evil"; "9.9.9.9"] (inl true) = forwarded_client_ip ["x, y"; "9.9.9.9"] (inl true).
Proof.
  apply (forwarded_not_spoofed ["evil"] ["x, y"] ["9.9.9.9"] (inl true)). apply (bool_decide_unpack _). reflexivity.
Defined.
