(* ===== verification/UsersApi.v ===== *)
(** * The API of the users plugin ([controllers/], [auth_middleware.py])

    One definition per route of [/sessions], [/users], [/groups] and [/tokens];
    [route] is what a request does once its caller is known, [handle] adds the
    write guard of read-only stores and authentication before it, and [respond]
    the error bodies of [UsersApiRoute].  Requests come typed: reading the body
    and the query is FastAPI's.  The plugin is seeded ([ensure_ready]). *)

From S2P Require Import Prelude PyStr Values Permissions Events UserModel Validation.
From S2P Require Import UserStores AuthService UsersService Http.
From Stdlib Require Import Ascii.

Definition USERS_CREATE : string := "users:create".
Definition USERS_UPDATE : string := "users:update".
Definition USERS_DELETE : string := "users:delete".
Definition GROUPS_CREATE : string := "groups:create".
Definition GROUPS_UPDATE : string := "groups:update".
Definition GROUPS_DELETE : string := "groups:delete".
Definition SESSIONS_REVOKE : string := "sessions:revoke".
Definition TOKENS_READ : string := "tokens:read".
Definition TOKENS_REVOKE : string := "tokens:revoke".

Definition MANAGED_BY_HOST : string := "Authentication is managed by the host application".
Definition USERS_READ_ONLY : string := "Users are managed by the host application".
Definition GROUPS_READ_ONLY : string := "Groups are managed by the host application".
Definition API_TOKENS_CANNOT_CHANGE_PASSWORDS : string := "forbidden: API tokens cannot change passwords".
Definition API_TOKENS_CANNOT_CREATE : string := "forbidden: API tokens cannot create tokens".
Definition NOT_A_SESSION : string := "not a session".
Definition ORIGIN_NOT_ALLOWED : string := "origin not allowed".

(** ** Requests and responses *)

Record PasswordChangeRequest := {
  pw_password : option string;
  pw_current : option string;
  pw_temporary : option bool;
  pw_new : option string;
}.

(** [x_expires_in_days]: [None] when the field is absent from the body. *)
Record CreateApiTokenRequest := {
  x_name : pyval;
  x_expires_in_days : option pyval;
  x_permissions : pyval;
}.

Inductive request :=
| Login (username password : string) (user_agent : option string)
| Logout
| WsTicket
| CurrentSession
| ListSessions
| RevokeSession (session_id : string)
| ListUsers (query : option string) (skip : Z) (take : option Z)
| CreateUser (body : UserFields)
| GetUser (id_or_name : string)
| GetUserPermissions (id_or_name : string)
| UpdateUser (id_or_name : string) (body : UserFields)
| DeleteUser (id_or_name : string)
| ChangePassword (id_or_name : string) (body : PasswordChangeRequest)
| VerifyPassword (id_or_name password : string)
| ListGroups
| CreateGroup (name : string) (description : option string) (permissions : option (list string))
| GetGroup (name : string)
| ListMembers (name : string)
| UpdateGroup (name : string) (description : option string) (permissions : option (list string))
| DeleteGroup (name : string)
| AddMember (name id_or_name : string)
| RemoveMember (name id_or_name : string)
| ListTokens (all : option string)
| CreateToken (body : CreateApiTokenRequest)
| RevokeToken (token_id : string).

(** The requests with a method of [SAFE_METHODS]. *)
Definition is_safe (r : request) : bool :=
  match r with
  | CurrentSession | ListSessions | ListUsers _ _ _ | GetUser _ | GetUserPermissions _
  | ListGroups | GetGroup _ | ListMembers _ | ListTokens _ => true
  | _ => false
  end.

Record response := { r_status : Z; r_body : option pyval }.
Definition json (status : Z) (body : pyval) : response := {| r_status := status; r_body := Some body |}.
Definition no_content : response := {| r_status := 204; r_body := None |}.
Definition error_response (status_code : Z) (message : string) : response :=
  json status_code (VDict [("error", VStr message)]).
Definition user_body (u : User) : pyval := VDict (user_to_dict u).
Definition group_body (g : Group) : pyval := VDict (group_to_dict g).

Section Api.
Context {Host : Type} `{E : AuthEnv Host}.
Abbreviation method := (py (World Host) uexn).

(** [ctx.is_self(target)] of a target that may be absent. *)
Definition is_self_opt (ctx : AuthContext) (target : option User) : bool :=
  match target with Some u => is_self ctx u | None => false end.

(** The check of [require_permission]. *)
Definition require_permission (ctx : AuthContext) (permission : string) : method unit :=
  raise_if (negb (can ctx permission)) (forbidden ("missing permission: " +:+ permission)).

(** ** Users *)

Definition load_target (id_or_name : string) (ctx : AuthContext) (permission : string)
    (allow_self : bool) : method User :=
  target ← get_user id_or_name;
  if negb (can ctx permission || (allow_self && is_self_opt ctx target))
  then raise (forbidden ("missing permission: " +:+ permission))
  else
    match target with
    | Some u => mret u
    | None => raise (not_found ("user not found: " +:+ id_or_name))
    end.

Definition list_users_route (query : option string) (skip : Z) (take : option Z) : method response :=
  us ← list_users query skip take; mret (json 200 (VList (map user_body us))).

Definition create_user_route (ctx : AuthContext) (body : UserFields) : method response :=
  u ← create_user (Some ctx) body; mret (json 201 (user_body u)).

Definition get_user_route (ctx : AuthContext) (id_or_name : string) : method response :=
  target ← load_target id_or_name ctx USERS_READ true; mret (json 200 (user_body target)).

Definition get_user_permissions_route (ctx : AuthContext) (id_or_name : string) : method response :=
  target ← load_target id_or_name ctx USERS_READ true;
  ps ← effective_permissions (u_groups target);
  mret (json 200 (VDict [("userId", VStr (u_id target)); ("groups", strings (u_groups target));
                         ("permissions", strings ps)])).

(** The fields that only [users:update] may change. *)
Definition restricted (body : UserFields) : bool :=
  bool_decide (is_Some (f_name body)) || bool_decide (is_Some (f_groups body)) ||
  bool_decide (is_Some (f_disabled body)) || bool_decide (is_Some (f_home_dir body)).

Definition update_user_route (ctx : AuthContext) (id_or_name : string) (body : UserFields)
    : method response :=
  target ← load_target id_or_name ctx USERS_UPDATE true;
  _ ← raise_if (negb (can ctx USERS_UPDATE) && restricted body)
        (forbidden ("missing permission: " +:+ USERS_UPDATE));
  u ← update_user (Some ctx) target body;
  mret (json 200 (user_body u)).

Definition delete_user_route (ctx : AuthContext) (id_or_name : string) : method response :=
  target ← load_target id_or_name ctx USERS_DELETE false;
  _ ← delete_user (Some ctx) target;
  mret no_content.

(** The own current password, which whoever cannot update users must give. *)
Definition confirm_current (ctx : AuthContext) (target : User) (current : option string) : method unit :=
  if negb (truthy_opt current) then raise (bad_request "currentPassword is required")
  else
    valid ← check_password_attempt ctx target (or_empty current);
    raise_if (negb valid) (forbidden "current password is incorrect").

Definition change_password_route (ctx : AuthContext) (ip id_or_name : string)
    (body : PasswordChangeRequest) : method response :=
  _ ← raise_if (bool_decide (is_Some (api_token ctx))) (forbidden API_TOKENS_CANNOT_CHANGE_PASSWORDS);
  target ← get_user id_or_name;
  let self := is_self_opt ctx target in
  _ ← (if self then mret tt else ensure_password_changed ctx);
  target ← load_target id_or_name ctx USERS_UPDATE true;
  match (match pw_password body with Some p => Some p | None => pw_new body end) with
  | None => raise (bad_request "password is required")
  | Some password =>
      _ ← (if self then check_rate_limit ip else mret tt);
      _ ← (if self && (negb (can ctx USERS_UPDATE) || must_change_password (c_user ctx))
           then confirm_current ctx target (pw_current body) else mret tt);
      _ ← change_password ctx target password (pw_temporary body);
      mret no_content
  end.

Definition verify_password_route (ctx : AuthContext) (ip id_or_name password : string)
    : method response :=
  target ← load_target id_or_name ctx USERS_UPDATE true;
  _ ← ensure_covers_user ctx target;
  _ ← check_rate_limit ip;
  valid ← check_password_attempt ctx target password;
  mret (json 200 (VDict [("valid", VBool valid)])).

(** ** Groups *)

Definition load_group (name : string) : method Group :=
  g ← get_group name;
  match g with Some g => mret g | None => raise (not_found ("group not found: " +:+ name)) end.
Definition load_user (id_or_name : string) : method User :=
  u ← get_user id_or_name;
  match u with Some u => mret u | None => raise (not_found ("user not found: " +:+ id_or_name)) end.

Definition list_groups_route : method response :=
  gs ← gets (λ s, dict_values (groups (st s))); mret (json 200 (VList (map group_body gs))).

Definition create_group_route (ctx : AuthContext) (name : string) (description : option string)
    (permissions : option (list string)) : method response :=
  g ← create_group (Some ctx) (Some name) description permissions;
  mret (json 201 (group_body g)).

Definition get_group_route (name : string) : method response :=
  g ← load_group name; mret (json 200 (group_body g)).

Definition list_members_route (ctx : AuthContext) (name : string) : method response :=
  g ← load_group name;
  _ ← raise_if (negb (can ctx GROUPS_READ) && negb (in_group (c_user ctx) (g_name g)))
        (forbidden ("missing permission: " +:+ GROUPS_READ));
  us ← group_members g;
  mret (json 200 (VList (map user_body us))).

Definition update_group_route (ctx : AuthContext) (name : string) (description : option string)
    (permissions : option (list string)) : method response :=
  g ← load_group name;
  updated ← update_group (Some ctx) g description permissions;
  mret (json 200 (group_body updated)).

Definition delete_group_route (ctx : AuthContext) (name : string) : method response :=
  g ← load_group name; _ ← delete_group (Some ctx) g; mret no_content.

Definition add_member_route (ctx : AuthContext) (name id_or_name : string) : method response :=
  g ← get_group name;
  match g with
  | None => raise (bad_request ("unknown group: " +:+ name))
  | Some g =>
      u ← load_user id_or_name; _ ← add_member (Some ctx) g u; mret no_content
  end.

Definition remove_member_route (ctx : AuthContext) (name id_or_name : string) : method response :=
  g ← load_group name; u ← load_user id_or_name; _ ← remove_member (Some ctx) g u; mret no_content.

(** ** Sessions *)

Definition login_route (ip username password : string) (agent : option string) : method response :=
  _ ← check_rate_limit ip;
  result ← login username password {| remote_address := Some ip; user_agent := agent |};
  mret (json 201 (VDict
    [("token", VStr (l_token result));
     ("session", VDict (session_payload (l_session result) (l_user result) (l_permissions result)))])).

Definition logout_route (ctx : AuthContext) : method response :=
  _ ← raise_if (bool_decide (is_Some (api_token ctx))) (not_found NOT_A_SESSION);
  _ ← (if truthy_opt (c_token ctx) then logout (or_empty (c_token ctx)) else mret tt);
  mret no_content.

Definition ws_ticket_route (ctx : AuthContext) : method response :=
  '(ticket, expires_in) ← issue_ticket ctx;
  mret (json 201 (VDict [("ticket", VStr ticket); ("expiresIn", VInt expires_in)])).

Definition current_session_route (ctx : AuthContext) : method response :=
  match session ctx with
  | None => raise (not_found NOT_A_SESSION)
  | Some x => mret (json 200 (VDict (session_payload x (c_user ctx) (permissions ctx))))
  end.

(** The loop of [list_sessions], which also ends the expired sessions. *)
Fixpoint listed_sessions (ctx : AuthContext) (l : list Session) : method (list pyval) :=
  match l with
  | [] => mret []
  | x :: l =>
      now ← now_ms;
      if is_expired x now then
        _ ← delete_session_by_id (s_id x);
        _ ← publish_session_closed x None;
        listed_sessions ctx l
      else
        u ← get_user (s_user_id x);
        rest ← listed_sessions ctx l;
        mret (VDict (to_listing_dict x (session_timeout_ms auth_options)
                (Some (max_session_lifetime_ms auth_options)) (u_name <$> u)
                (Some (bool_decide (Some (s_id x) = s_id <$> session ctx)))) :: rest)
  end.
Definition list_sessions_route (ctx : AuthContext) : method response :=
  l ← get_active_sessions; rows ← listed_sessions ctx l; mret (json 200 (VList rows)).

Definition revoke_session_route (ctx : AuthContext) (session_id : string) : method response :=
  target ← get_session_by_id session_id;
  match target with
  | None => raise (not_found ("session not found: " +:+ session_id))
  | Some x =>
      _ ← raise_if (negb (bool_decide (s_user_id x = u_id (c_user ctx))) && negb (can ctx SESSIONS_REVOKE))
            (forbidden ("missing permission: " +:+ SESSIONS_REVOKE));
      u ← get_user (s_user_id x);
      _ ← (match u with Some u => ensure_covers_user ctx u | None => mret tt end);
      _ ← revoke_session x "revoked" (_actor (Some ctx)) (u_name <$> u);
      mret no_content
  end.

(** ** API tokens *)

Definition TOKEN_NAME_MAX : nat := 64.
Definition MAX_TOKENS_PER_USER : nat := 20.
Definition DEFAULT_EXPIRES_IN_DAYS : Z := 90.
Definition MAX_EXPIRES_IN_DAYS : Z := 365.
Definition DAY_MS : Z := 24 * 60 * 60 * 1000.

Definition token_name_chars (l : list ascii) : bool :=
  bool_decide (1 ≤ length l ≤ TOKEN_NAME_MAX)%nat && forallb (λ c, is_alnum c || one_of "._ -" c) l.
Definition TOKEN_NAME_RE : string → bool := dollar token_name_chars.

Definition _validate_name (raw : pyval) : method string :=
  let invalid := raise (bad_request "name must be 1-64 characters of [A-Za-z0-9._ -]") in
  match raw with
  | VStr s => if TOKEN_NAME_RE s then mret s else invalid
  | _ => invalid
  end.

(** The integer a float stands for, by its [repr]: that of an integer that
    could be in the range below ends in [.0]. *)
Definition integral_float (repr : string) : option Z :=
  if ends_with repr ".0" then py_int (take_str (len repr - 2) repr) else None.

Definition _expires_at (expires_in_days : option pyval) (allow_never : bool) (now : Z)
    : method (option Z) :=
  match expires_in_days with
  | None => mret (Some (now + DEFAULT_EXPIRES_IN_DAYS * DAY_MS))
  | Some VNone =>
      _ ← raise_if (negb allow_never) (bad_request "non-expiring tokens are not allowed");
      mret None
  | Some days =>
      match (match days with VInt n => Some n | VFloat r => integral_float r | _ => None end) with
      | Some n =>
          if (1 <=? n) && (n <=? MAX_EXPIRES_IN_DAYS) then mret (Some (now + n * DAY_MS))
          else raise (bad_request "expiresInDays must be an integer between 1 and 365")
      | None => raise (bad_request "expiresInDays must be an integer between 1 and 365")
      end
  end.

(** The texts of a list of non-empty strings. *)
Fixpoint as_strings (l : list pyval) : option (list string) :=
  match l with
  | [] => Some []
  | VStr s :: l => if is_empty s then None else cons s <$> as_strings l
  | _ :: _ => None
  end.

(** The loop of [_scope] over the permissions. *)
Definition grantable_scope (ctx : AuthContext) (perms : list string) : method unit :=
  for_each (λ p, raise_if (negb (can ctx p)) (forbidden ("forbidden: cannot grant " +:+ clean_text p 128))) perms.

Definition _scope (ctx : AuthContext) (raw : pyval) : method (option (list string)) :=
  match raw with
  | VNone => mret None
  | _ =>
      match (match raw with VList l => as_strings l | _ => None end) with
      | None => raise (bad_request "permissions must be an array of strings")
      | Some l =>
          perms ← validate_permissions (Some l);
          let perms := default [] perms in
          _ ← grantable_scope ctx perms;
          mret (Some perms)
      end
  end.

Definition api_token_view (t : ApiToken) : method pyval :=
  u ← get_user (t_user_id t);
  mret (VDict (to_view t (match u with Some u => u_name u | None => "" end))).

Definition created_le (a b : ApiToken) : bool := t_created_at a <=? t_created_at b.

Fixpoint token_views (l : list ApiToken) : method (list pyval) :=
  match l with
  | [] => mret []
  | t :: l => v ← api_token_view t; rest ← token_views l; mret (v :: rest)
  end.

Definition list_tokens_route (ctx : AuthContext) (all : option string) : method response :=
  _ ← raise_if (negb (bool_decide (all ∈ [None; Some "true"; Some "false"])))
        (bad_request "all must be true or false");
  let all := bool_decide (all = Some "true") in
  _ ← raise_if (all && negb (can ctx TOKENS_READ))
        (forbidden ("forbidden: missing permission " +:+ TOKENS_READ));
  tokens ← gets (λ s, tokens_of (if all then None else Some (u_id (c_user ctx))) (api_tokens (st s)));
  views ← token_views (py_sort created_le tokens);
  mret (json 200 (VList views)).

Definition token_audit (ctx : AuthContext) (t : ApiToken) : AuditDetail :=
  with_metadata [("tokenId", VStr (t_id t)); ("tokenName", VStr (t_name t))]
    (with_details (t_name t +:+ " (" +:+ t_id t +:+ ")")
       (detail (Some (t_user_id t)) (_actor (Some ctx)))).
Definition token_event (event_type : string) (ctx : AuthContext) (t : ApiToken) : method unit :=
  publish event_type
    [("tokenId", VStr (t_id t)); ("name", VStr (t_name t)); ("userId", VStr (t_user_id t));
     ("actor", VStr (u_name (c_user ctx)))]
    (Audience (Some TOKENS_READ) (Some (t_user_id t))).

Definition create_token_route (ctx : AuthContext) (body : CreateApiTokenRequest) : method response :=
  _ ← raise_if (bool_decide (is_Some (api_token ctx))) (forbidden API_TOKENS_CANNOT_CREATE);
  _ ← raise_if (bool_decide (session ctx = None) || external ctx) (UsersApiError 501 MANAGED_BY_HOST);
  name ← _validate_name (x_name body);
  now ← now_ms;
  expires_at ← _expires_at (x_expires_in_days body) (allow_non_expiring_tokens auth_options) now;
  permissions ← _scope ctx (x_permissions body);
  existing ← gets (λ s, tokens_of (Some (u_id (c_user ctx))) (api_tokens (st s)));
  _ ← raise_if (existsb (λ t, same_text (t_name t) name) existing)
        (conflict ("token '" +:+ name +:+ "' already exists"));
  _ ← raise_if (MAX_TOKENS_PER_USER <=?
                  length (List.filter (λ t, negb (token_is_expired t now)) existing))%nat
        (bad_request "a user may have at most 20 tokens");
  secret ← draw token_urlsafe;
  let token := API_TOKEN_PREFIX +:+ secret in
  i ← draw uuid4;
  record ← create_token
    {| t_id := i; t_user_id := u_id (c_user ctx); t_name := name; t_token_hash := hash_token token;
       t_created_at := now; t_expires_at := expires_at; last_used_at := None;
       t_permissions := permissions |};
  _ ← audit "token_created" (u_name (c_user ctx)) (token_audit ctx record);
  _ ← token_event "token:created" ctx record;
  mret (json 201 (VDict [("token", VStr token);
                         ("apiToken", VDict (to_view record (u_name (c_user ctx))))])).

Definition revoke_token_route (ctx : AuthContext) (token_id : string) : method response :=
  record ← get_token token_id;
  match record with
  | None => raise (not_found "token not found")
  | Some t =>
      if negb (bool_decide (t_user_id t = u_id (c_user ctx))) && negb (can ctx TOKENS_REVOKE)
      then raise (not_found "token not found")
      else
        _ ← delete_token (t_id t);
        owner ← get_user (t_user_id t);
        _ ← audit "token_revoked" (match owner with Some u => u_name u | None => t_user_id t end)
              (token_audit ctx t);
        _ ← token_event "token:revoked" ctx t;
        mret no_content
  end.

(** ** The router *)

(** The permission of the dependency [require_permission] of a route. *)
Definition required (r : request) : option string :=
  match r with
  | ListSessions => Some SESSIONS_READ
  | ListUsers _ _ _ => Some USERS_READ
  | CreateUser _ => Some USERS_CREATE
  | DeleteUser _ => Some USERS_DELETE
  | CreateGroup _ _ _ => Some GROUPS_CREATE
  | UpdateGroup _ _ _ | AddMember _ _ | RemoveMember _ _ => Some GROUPS_UPDATE
  | DeleteGroup _ => Some GROUPS_DELETE
  | _ => None
  end.

(** The routes that are allowed while a password change is pending. *)
Definition pending_allowed (r : request) : bool :=
  match r with Logout | CurrentSession | ChangePassword _ _ => true | _ => false end.

(** The routes of a caller; [Login] has none. *)
Definition body_of (ctx : AuthContext) (ip : string) (r : request) : method response :=
  match r with
  | Login u p agent => login_route ip u p agent
  | Logout => logout_route ctx
  | WsTicket => ws_ticket_route ctx
  | CurrentSession => current_session_route ctx
  | ListSessions => list_sessions_route ctx
  | RevokeSession i => revoke_session_route ctx i
  | ListUsers q skip take => list_users_route q skip take
  | CreateUser f => create_user_route ctx f
  | GetUser k => get_user_route ctx k
  | GetUserPermissions k => get_user_permissions_route ctx k
  | UpdateUser k f => update_user_route ctx k f
  | DeleteUser k => delete_user_route ctx k
  | ChangePassword k b => change_password_route ctx ip k b
  | VerifyPassword k p => verify_password_route ctx ip k p
  | ListGroups => list_groups_route
  | CreateGroup n d ps => create_group_route ctx n d ps
  | GetGroup n => get_group_route n
  | ListMembers n => list_members_route ctx n
  | UpdateGroup n d ps => update_group_route ctx n d ps
  | DeleteGroup n => delete_group_route ctx n
  | AddMember n k => add_member_route ctx n k
  | RemoveMember n k => remove_member_route ctx n k
  | ListTokens all => list_tokens_route ctx all
  | CreateToken b => create_token_route ctx b
  | RevokeToken i => revoke_token_route ctx i
  end.

Definition route (ctx : AuthContext) (ip : string) (r : request) : method response :=
  _ ← (if pending_allowed r then mret tt else ensure_password_changed ctx);
  _ ← (match required r with Some p => require_permission ctx p | None => mret tt end);
  body_of ctx ip r.

(** [store_write] *)
Definition store_write (r : request) : method unit :=
  match r with
  | CreateUser _ | UpdateUser _ _ | DeleteUser _ | ChangePassword _ _ | AddMember _ _ | RemoveMember _ _ =>
      raise_if (read_only_users auth_options) (UsersApiError 501 USERS_READ_ONLY)
  | CreateGroup _ _ _ | UpdateGroup _ _ _ | DeleteGroup _ =>
      raise_if (read_only_groups auth_options) (UsersApiError 501 GROUPS_READ_ONLY)
  | _ => mret tt
  end.

(** A request as it arrives: its body and path, its [Authorization] header, what
    [origin_allowed] says of it, the address of its client, the caller the
    server-protection middleware stored in its scope, if it did, and the
    external adapter on it. *)
Record Http := {
  h_request : request;
  authorization : option string;
  origin_ok : bool;
  ip_of : string;
  scope_auth : option AuthContext;
  adapter : py Host uexn (option ExternalAuthResult);
}.

(** [safe]: the method is one of [SAFE_METHODS]. *)
Definition authenticate_request (safe : bool) (authorization : option string) (origin_ok : bool)
    (adapter : py Host uexn (option ExternalAuthResult)) : method AuthContext :=
  if external_auth then
    _ ← raise_if (negb safe && negb (has_bearer authorization) && negb origin_ok)
          (forbidden ORIGIN_NOT_ALLOWED);
    authenticate_external adapter
  else
    match bearer_token authorization with
    | None => raise (unauthorized "unauthorized")
    | Some token => authenticate_token token
    end.

Definition get_auth_pending (h : Http) : method AuthContext :=
  match scope_auth h with
  | Some c => mret c
  | None => authenticate_request (is_safe (h_request h)) (authorization h) (origin_ok h) (adapter h)
  end.

(** The routes that answer 501 when the host authenticates. *)
Definition managed_by_host (r : request) : bool :=
  match r with Login _ _ _ | Logout | ChangePassword _ _ | VerifyPassword _ _ => true | _ => false end.

Definition handle (h : Http) : method response :=
  let r := h_request h in
  if external_auth && managed_by_host r then mret (error_response 501 MANAGED_BY_HOST)
  else
    match r with
    | Login u p agent => login_route (ip_of h) u p agent
    | _ =>
        _ ← store_write r;
        ctx ← get_auth_pending h;
        route ctx (ip_of h) r
    end.

(** [UsersApiRoute]: a [UsersApiError] is a body [{error}]. *)
Definition respond (h : Http) : method response :=
  try_except (handle h)
    (λ e, match e with UsersApiError code m => mret (error_response code m) | e => raise e end).
End Api.
