(* ===== verification/UsersOps.v ===== *)
(** * What a request may do to the users and groups

    Every request to the API is a sequence of the steps of [change] on the
    users, whatever its outcome ([route_changes]).  The theorems follow: one
    enabled admin stays, names and emails stay unique, nobody hands out a group
    whose permissions they lack. *)

From S2P Require Import Prelude PyStr Values Permissions Events UserModel Validation.
From S2P Require Import UserStores PasswordHasher Throttle AuthService AuthSafety.
From S2P Require Import UsersService UsersSafety UsersApi.
From Stdlib Require Import Ascii.

Section Ops.
Context {Host : Type} `{E : AuthEnv Host}.
Abbreviation method := (py (World Host) uexn).

(** ** Composing steps *)

(** The users and the groups are the same. *)
Definition same_dirs (s s' : World Host) : Prop :=
  users (st s') = users (st s) ∧ groups (st s') = groups (st s).

Lemma steps_reader_then {A B} ctx (m : method A) (k : A → method B) s :
  reader m → (∀ a, (m s).1 = inr a → steps ctx s (k a s).2) → steps ctx s ((m ≫= k) s).2.
Proof.
  intros Hm Hk. rewrite after_reader by done. destruct (m s).1 as [e|a] eqn:H; [apply rtc_refl|by apply Hk].
Qed.

Lemma steps_same_then {A B} ctx (m : method A) (k : A → method B) s :
  same_dirs s (m s).2 → (∀ a s1, same_dirs s s1 → steps ctx s1 (k a s1).2) →
  steps ctx s ((m ≫= k) s).2.
Proof.
  intros Hm Hk. rewrite py_bind_eq. destruct (m s) as [[e|a] s1]; cbn [snd] in Hm.
  - destruct Hm as [Hu _]. cbn [snd]. rewrite Hu. apply rtc_refl.
  - specialize (Hk a s1 Hm). destruct Hm as [Hu Hg]. by rewrite Hu, Hg in Hk.
Qed.

Lemma steps_quiet {A B} ctx (m : method A) (k : A → method B) s :
  steps ctx s (m s).2 → (∀ a d, keeps (users_are d) (k a)) → steps ctx s ((m ≫= k) s).2.
Proof.
  intros Hm Hk. rewrite py_bind_eq. destruct (m s) as [[e|a] s1]; [exact Hm|].
  pose proof (Hk a (users (st s1)) s1 eq_refl) as H. unfold users_are in H. by rewrite H.
Qed.

(** ** Methods that leave the users alone *)

Lemma users_reader_then {A B} (m : method A) (k : A → method B) d :
  reader m → (∀ a, keeps (users_are d) (k a)) → keeps (users_are d) (m ≫= k).
Proof. intros Hm Hk. apply keeps_bind; [by apply keeps_same|done]. Qed.

Lemma users_try {A} (m : method A) (h : uexn → method A) d :
  keeps (users_are d) m → (∀ e, keeps (users_are d) (h e)) → keeps (users_are d) (try_except m h).
Proof. apply keeps_try. Qed.

Lemma users_create_group ctx n desc ps d : keeps (users_are d) (create_group ctx n desc ps).
Proof.
  pose proof (λ A B m k, @users_reader_then A B m k d) as Hr.
  unfold create_group. apply Hr; [apply reader_validate_name|intros name].
  apply Hr; [apply reader_validate_text|intros _].
  apply Hr; [apply reader_validate_permissions|intros perms]. cbv zeta.
  apply Hr; [apply reader_as_caller; intros; apply reader_can_grant|intros _].
  apply Hr; [apply reader_gets|intros found]. apply Hr; [apply reader_raise_if|intros _].
  apply keeps_bind.
  - apply users_try; [|intros []; apply keeps_raise]. unfold store_create_group.
    apply Hr; [apply reader_gets|intros taken]. apply Hr; [apply reader_raise_if|intros _].
    apply Hr; [apply reader_gets|intros now]. apply keeps_bind; [apply users_draw|intros i].
    apply keeps_bind; [by apply users_on_stores|intros _; apply keeps_ret].
  - intros g. apply keeps_bind; [apply users_effect, effect_audit|intros _].
    apply keeps_bind; [apply users_effect, effect_publish|intros _; apply keeps_ret].
Qed.

Lemma users_update_group ctx g desc ps d : keeps (users_are d) (update_group ctx g desc ps).
Proof.
  pose proof (λ A B m k, @users_reader_then A B m k d) as Hr.
  unfold update_group. apply Hr; [apply reader_validate_text|intros _].
  apply Hr; [apply reader_validate_permissions|intros perms]. apply Hr.
  { destruct perms; [|done]. apply reader_bind; [apply reader_raise_if|intros _].
    apply reader_as_caller. intros; apply reader_can_grant. }
  intros _. apply keeps_bind.
  - apply users_try; [|intros []; apply keeps_raise].
    unfold store_update_group. apply Hr; [apply reader_gets|intros now].
    intros s Hs. unfold users_are in *. destruct (update_group_in _ _ _ _ _). exact Hs.
  - intros u. apply keeps_bind; [apply users_effect, effect_audit|intros _].
    apply keeps_bind; [apply users_effect, effect_publish|intros _; apply keeps_ret].
Qed.

Lemma users_rate ip d : keeps (users_are d) (check_rate_limit ip).
Proof. intros s Hs. unfold check_rate_limit. by destruct (check_rate _ _ _ _ _). Qed.

Lemma same_rate ip s : same_dirs s (check_rate_limit ip s).2.
Proof. unfold check_rate_limit. by destruct (check_rate _ _ _ _ _). Qed.

Lemma same_trans (s1 s2 s3 : World Host) : same_dirs s1 s2 → same_dirs s2 s3 → same_dirs s1 s3.
Proof. intros [H1 H2] [H3 H4]. split; congruence. Qed.

Lemma same_attempt c u password s : same_dirs s (check_password_attempt c u password s).2.
Proof.
  unfold check_password_attempt. rewrite py_bind_eq.
  destruct (reserve_attempt_eq (u_id u) s) as (s1 & -> & Hst & _).
  assert (same_dirs s s1) as Hs1 by (unfold same_dirs; by rewrite Hst).
  rewrite after_reader by apply reader_raise_if. destruct (raise_if _ _ _).1; [exact Hs1|].
  rewrite py_bind_eq. destruct (verify_password_eq (u_id u) password s1) as (s2 & -> & Hs2 & _).
  assert (same_dirs s s2) as Hs12 by (eapply same_trans; [exact Hs1|]; by destruct Hs2 as (? & _ & ? & _)).
  rewrite py_bind_eq. destruct (password_ok s1 (u_id u) password).
  - exact Hs12.
  - match goal with |- context [audit ?e ?n ?x s2] => destruct (effect_audit e n x s2) as [h [-> | ->]] end;
      exact Hs12.
Qed.

Lemma same_confirm c u current s : same_dirs s (confirm_current c u current s).2.
Proof.
  unfold confirm_current. destruct (negb (truthy_opt current)); [done|]. rewrite py_bind_eq.
  pose proof (same_attempt c u (or_empty current) s) as H.
  destruct (check_password_attempt _ _ _ s) as [[e|valid] s1]; [exact H|]. by destruct valid.
Qed.

Lemma users_attempt c u password d : keeps (users_are d) (check_password_attempt c u password).
Proof. intros s Hs. unfold users_are in *. by rewrite (proj1 (same_attempt c u password s)). Qed.

Lemma users_listed ctx l d : keeps (users_are d) (listed_sessions ctx l).
Proof.
  induction l as [|x l IH]; simpl; [apply keeps_ret|]. apply users_reader_then; [apply reader_gets|intros now].
  case_match.
  - apply keeps_bind; [by apply users_on_stores|intros _].
    apply keeps_bind; [apply users_effect, effect_closed|intros _; exact IH].
  - apply users_reader_then; [apply reader_gets|intros u]. apply keeps_bind; [exact IH|intros; apply keeps_ret].
Qed.

Lemma reader_views l : reader (Host := Host) (token_views l).
Proof.
  induction l as [|t l IH]; simpl; [apply reader_ret|].
  apply reader_bind; [by apply reader_bind; [apply reader_gets|]|intros v]. by apply reader_bind; [exact IH|].
Qed.

Lemma reader_token_name v : reader (Host := Host) (_validate_name v).
Proof. unfold _validate_name. by repeat case_match. Qed.
Lemma reader_expires e b now : reader (Host := Host) (_expires_at e b now).
Proof.
  unfold _expires_at. destruct e as [[]|]; try done; repeat case_match; try done.
  apply reader_bind; [apply reader_raise_if|done].
Qed.
Lemma reader_scope c v : reader (Host := Host) (_scope c v).
Proof.
  unfold _scope. assert (∀ l, reader (Host := Host) (grantable_scope c l)) as Hl.
  { intros l. unfold grantable_scope. induction l as [|p l IH]; simpl; [apply reader_ret|].
    apply reader_bind; [apply reader_raise_if|done]. }
  destruct v; try done; (case_match; [|done]);
    (apply reader_bind; [apply reader_validate_permissions|intros ps]); cbv zeta;
    by apply reader_bind; [apply Hl|].
Qed.

Lemma users_create_token ctx body d : keeps (users_are d) (create_token_route ctx body).
Proof.
  unfold create_token_route. apply users_reader_then; [apply reader_raise_if|intros _].
  apply users_reader_then; [apply reader_raise_if|intros _].
  apply users_reader_then; [apply reader_token_name|intros name].
  apply users_reader_then; [apply reader_gets|intros now].
  apply users_reader_then; [apply reader_expires|intros e].
  apply users_reader_then; [apply reader_scope|intros ps].
  apply users_reader_then; [apply reader_gets|intros l].
  apply users_reader_then; [apply reader_raise_if|intros _].
  apply users_reader_then; [apply reader_raise_if|intros _].
  unfold create_token, token_event. cbv zeta. tail.
Qed.

Lemma users_revoke_token ctx i d : keeps (users_are d) (revoke_token_route ctx i).
Proof. unfold revoke_token_route, get_token, delete_token, get_user, token_event. tail. Qed.

Lemma users_logout ctx d : keeps (users_are d) (logout_route ctx).
Proof.
  unfold logout_route, logout, get_session, delete_session, _drop_tickets, get_user.
  apply users_reader_then; [apply reader_raise_if|intros _].
  apply keeps_bind; [|intros _; apply keeps_ret]. case_match; [|apply keeps_ret].
  apply users_reader_then; [apply reader_gets|intros x]. apply keeps_bind; [by apply users_on_stores|intros _].
  destruct x; [|apply keeps_ret]. cbv zeta. apply keeps_bind; [apply users_on_auth|intros _].
  apply users_reader_then; [apply reader_gets|intros u].
  apply keeps_bind; [apply users_effect, effect_audit|intros _]. apply users_effect, effect_closed.
Qed.

Lemma users_revoke_route ctx i d : keeps (users_are d) (revoke_session_route ctx i).
Proof.
  unfold revoke_session_route. apply users_reader_then; [apply reader_gets|intros [x|]]; [|apply keeps_raise].
  apply users_reader_then; [apply reader_raise_if|intros _].
  apply users_reader_then; [apply reader_gets|intros u].
  apply users_reader_then; [by destruct u; [apply reader_covers|]|intros _].
  apply keeps_bind; [apply users_revoke|intros _; apply keeps_ret].
Qed.

(** ** Each request *)

Lemma reader_load_user k : reader (Host := Host) (load_user k).
Proof. apply reader_bind; [apply reader_gets|]. by intros [u|]. Qed.
Lemma reader_load_group n : reader (Host := Host) (load_group n).
Proof. apply reader_bind; [apply reader_gets|]. by intros [g|]. Qed.
Lemma reader_load_target k c p b : reader (Host := Host) (load_target k c p b).
Proof. apply reader_bind; [apply reader_gets|]. intros u. case_match; [done|]. by destruct u. Qed.

Lemma find_in_ok k (d : dict string User) u :
  users_ok d → find_in k d = Some u → dict_get (u_id u) d = Some u.
Proof.
  intros [Hd Hk] Hf. apply find_in_elem in Hf as [i Hi].
  apply dict_elem_of_get in Hi; [|done]. by rewrite (Hk i u Hi).
Qed.

Lemma load_user_ok k (s : World Host) u :
  users_ok (users (st s)) → (load_user k s).1 = inr u → dict_get (u_id u) (users (st s)) = Some u.
Proof.
  intros Hok Hl. unfold load_user in Hl. rewrite after_reader in Hl by apply reader_gets.
  cbn [get_user gets fst] in Hl. destruct (find_in k (users (st s))) as [v|] eqn:Hf; [|done].
  cbn in Hl. injection Hl as ->. by eapply find_in_ok.
Qed.

Lemma load_target_ok k c p b (s : World Host) u :
  users_ok (users (st s)) → (load_target k c p b s).1 = inr u →
  dict_get (u_id u) (users (st s)) = Some u ∧ (can c p = true ∨ b = true ∧ is_self c u = true).
Proof.
  intros Hok Hl. unfold load_target in Hl. rewrite after_reader in Hl by apply reader_gets.
  cbn [get_user gets fst] in Hl.
  destruct (can c p || (b && is_self_opt c (find_in k (users (st s))))) eqn:Ha; [|done]. cbn in Hl.
  destruct (find_in k (users (st s))) as [v|] eqn:Hf; [|done]. cbn in Hl. injection Hl as ->.
  split; [by eapply find_in_ok|]. apply orb_true_iff in Ha as [Ha|Ha]; [by left|right].
  by apply andb_true_iff in Ha.
Qed.

(** [steps_reader_then] for the loaded targets. *)
Lemma steps_load {A} ctx (m : method User) (k : User → method A) s :
  users_ok (users (st s)) → reader m →
  (∀ u, (m s).1 = inr u → dict_get (u_id u) (users (st s)) = Some u) →
  (∀ u, dict_get (u_id u) (users (st s)) = Some u → steps ctx s (k u s).2) →
  steps ctx s ((m ≫= k) s).2.
Proof. intros Hok Hm Hl Hk. apply steps_reader_then; [done|]. intros u Hu. by apply Hk, Hl. Qed.

Lemma steps_login ctx ip username password agent (s : World Host) :
  users_ok (users (st s)) → steps ctx s (login_route ip username password agent s).2.
Proof.
  intros Hok. unfold login_route. apply steps_same_then; [apply same_rate|]. intros _ s1 [Hu1 Hg1].
  apply steps_quiet; [|intros; apply keeps_ret]. set (m := {| user_agent := agent |}).
  destruct (login_refusal s1 username password) as [e|] eqn:Href.
  { destruct (login_refused username password m s1 e Href) as [_ [Hu _]]. rewrite Hu. apply rtc_refl. }
  destruct (login_accepted username password m s1 Href) as (u & s2 & Hu & _ & _ & -> & (Hus & _) & _).
  assert (dict_get (u_id u) (users (st s1)) = Some u) as Hget.
  { rewrite Hu1. unfold named_user in Hu. rewrite Hu1 in Hu.
    destruct (find_in username (users (st s))) as [v|] eqn:Hf.
    - injection Hu as ->. by eapply find_in_ok.
    - destruct (has_char _ _); [|done]. destruct Hok as [Hd Hk]. apply find_some in Hu as [Hin _].
      apply list_elem_of_In in Hin. apply list_elem_of_fmap in Hin as [[i v] [-> Hin]].
      apply dict_elem_of_get in Hin; [|done]. cbn. by rewrite (Hk i v Hin). }
  destruct (open_session_spec u m s2) as (r & h0 & h & _ & Hr & _ & _ & H); [by rewrite Hus|].
  assert (steps ctx s1 (with_session r s2 h)) as Hs; [|by destruct H as [-> | ->]].
  cbn [with_session st users set_sessions set_users]. rewrite Hr, Hus. apply rtc_once.
  apply patched_quiet; [by rewrite Hu1|exact Hget|done..].
Qed.

Lemma steps_change_password_route ctx ip k b (s : World Host) :
  users_ok (users (st s)) → steps (Some ctx) s (change_password_route ctx ip k b s).2.
Proof.
  intros Hok. unfold change_password_route. apply steps_reader_then; [apply reader_raise_if|intros _ _].
  apply steps_reader_then; [apply reader_gets|intros t _]. cbv zeta.
  apply steps_reader_then; [by case_match; [|apply reader_raise_if]|intros _ _].
  apply steps_load; [done|apply reader_load_target|intros u Hu; by apply load_target_ok in Hu as [? _]|].
  intros u Hu. destruct (match pw_password b with Some _ => _ | None => _ end) as [password|]; [|apply rtc_refl].
  apply steps_same_then; [case_match; [apply same_rate|done]|]. intros _ s1 [Hu1 Hg1].
  apply steps_same_then; [case_match; [apply same_confirm|done]|]. intros _ s2 [Hu2 Hg2].
  apply steps_quiet; [|intros; apply keeps_ret].
  apply steps_change_password; by rewrite Hu2, Hu1.
Qed.

(** The requests that may change users; every other leaves them alone. *)
Definition writes_users (r : request) : bool :=
  match r with
  | Login _ _ _ | CreateUser _ | UpdateUser _ _ | DeleteUser _ | ChangePassword _ _
  | DeleteGroup _ | AddMember _ _ | RemoveMember _ _ => true
  | _ => false
  end.

Lemma users_quiet ctx ip r d : writes_users r = false → keeps (users_are d) (body_of ctx ip r).
Proof.
  pose proof (λ A B m k, @users_reader_then A B m k d) as Hr.
  destruct r; intros Hw; try discriminate Hw; unfold body_of.
  - apply users_logout.
  - unfold ws_ticket_route, issue_ticket, now_ms. tail.
  - unfold current_session_route. tail.
  - apply Hr; [apply reader_gets|intros l].
    apply keeps_bind; [apply users_listed|intros; apply keeps_ret].
  - apply users_revoke_route.
  - unfold list_users_route, list_users, get_users. tail.
  - apply Hr; [apply reader_load_target|intros; apply keeps_ret].
  - apply Hr; [apply reader_load_target|intros u]. unfold effective_permissions. tail.
  - apply Hr; [apply reader_load_target|intros u]. apply Hr; [apply reader_covers|intros _].
    apply keeps_bind; [apply users_rate|intros _].
    apply keeps_bind; [apply users_attempt|intros; apply keeps_ret].
  - unfold list_groups_route. tail.
  - apply keeps_bind; [apply users_create_group|intros; apply keeps_ret].
  - apply Hr; [apply reader_load_group|intros; apply keeps_ret].
  - apply Hr; [apply reader_load_group|intros g]. apply Hr; [apply reader_raise_if|intros _].
    unfold group_members, get_users. tail.
  - apply Hr; [apply reader_load_group|intros g].
    apply keeps_bind; [apply users_update_group|intros; apply keeps_ret].
  - apply Hr; [apply reader_raise_if|intros _]. apply Hr; [apply reader_raise_if|intros _].
    apply Hr; [apply reader_gets|intros l]. apply Hr; [apply reader_views|intros; apply keeps_ret].
  - apply users_create_token.
  - apply users_revoke_token.
Qed.

(** Every request is a sequence of the steps of [change]. *)
Lemma body_changes ctx ip r (s : World Host) :
  groups_ok (groups (st s)) → users_ok (users (st s)) →
  dict_get (uuid4 (host s)).1 (users (st s)) = None →
  steps (Some ctx) s (body_of ctx ip r s).2.
Proof.
  intros Hg Hok Hfresh. destruct (writes_users r) eqn:Hw; [|by apply steps_same, users_quiet].
  assert (∀ {A} k p b (f : User → method A),
    (∀ u, dict_get (u_id u) (users (st s)) = Some u → steps (Some ctx) s (f u s).2) →
    steps (Some ctx) s ((load_target k ctx p b ≫= f) s).2) as Ht.
  { intros A k p b f Hf. apply steps_load; [done|apply reader_load_target| |done].
    intros u Hu. by apply load_target_ok in Hu as [? _]. }
  assert (∀ {A} k (f : User → method A),
    (∀ u, dict_get (u_id u) (users (st s)) = Some u → steps (Some ctx) s (f u s).2) →
    steps (Some ctx) s ((load_user k ≫= f) s).2) as Hu.
  { intros A k f Hf. apply steps_load; [done|apply reader_load_user| |done].
    intros u. by apply load_user_ok. }
  pose proof (λ A B m k H, @steps_quiet A B (Some ctx) m k s H) as Hq.
  destruct r; try discriminate Hw; unfold body_of.
  - by apply steps_login.
  - apply Hq; [by apply steps_create|intros; apply keeps_ret].
  - apply Ht. intros u Hget. apply steps_reader_then; [apply reader_raise_if|intros _ _].
    apply Hq; [by apply steps_update|intros; apply keeps_ret].
  - apply Ht. intros u Hget. apply Hq; [by apply steps_delete|intros; apply keeps_ret].
  - by apply steps_change_password_route.
  - apply steps_reader_then; [apply reader_load_group|intros g _].
    apply Hq; [by apply steps_delete_group|intros; apply keeps_ret].
  - apply steps_reader_then; [apply reader_gets|intros [g|] _]; [|apply rtc_refl].
    apply Hu. intros u Hget. apply Hq; [by apply steps_add_member|intros; apply keeps_ret].
  - apply steps_reader_then; [apply reader_load_group|intros g _]. apply Hu. intros u Hget.
    apply Hq; [by apply steps_remove_member|intros; apply keeps_ret].
Qed.

Lemma route_changes ctx ip r (s : World Host) :
  groups_ok (groups (st s)) → users_ok (users (st s)) →
  dict_get (uuid4 (host s)).1 (users (st s)) = None →
  steps (Some ctx) s (route ctx ip r s).2.
Proof.
  intros Hg Hok Hf. unfold route.
  apply steps_reader_then; [case_match; [done|apply reader_raise_if]|intros _ _].
  apply steps_reader_then; [case_match; [apply reader_raise_if|done]|intros _ _].
  by apply body_changes.
Qed.

Lemma rtc_users_ok ctx gs d d' : rtc (change ctx gs) d d' → users_ok d → users_ok d'.
Proof. induction 1; eauto using change_users_ok. Qed.

Lemma rtc_groups ctx gs d d' i g :
  rtc (change ctx gs) d d' → users_ok d → lower g ≠ USERS_GROUP → had_group d' i g = true →
  had_group d i g = true ∨ grantable ctx gs g.
Proof.
  intros H. induction H as [d|d d1 d2 Hc Hs IH]; intros Hok Hne Hg; [by left|].
  destruct (IH (change_users_ok _ _ _ _ Hc Hok) Hne Hg) as [H1|H1]; [|by right].
  by eapply change_groups.
Qed.

(** ** The theorems *)

(** C1: one enabled admin always stays: whatever request an authenticated caller
    makes, and however it ends, a server with an enabled member of the admin
    group still has one. *)
Theorem last_admin_stays ctx ip r (s : World Host) :
  groups_ok (groups (st s)) → users_ok (users (st s)) →
  dict_get (uuid4 (host s)).1 (users (st s)) = None →
  has_admin (users (st s)) → has_admin (users (st (route ctx ip r s).2)).
Proof.
  intros Hg Hok Hf. pose proof (route_changes ctx ip r s Hg Hok Hf) as H. revert Hok. clear Hf.
  induction H; eauto using change_users_ok, change_has_admin.
Qed.

(** C12: no request makes two users share a name or an email, in any case (a name
    of one may not be the email of another either), and every user stays stored
    under its own id. *)
Theorem names_stay_unique ctx ip r (s : World Host) :
  groups_ok (groups (st s)) → users_ok (users (st s)) →
  dict_get (uuid4 (host s)).1 (users (st s)) = None →
  unique_texts (users (st s)) →
  users_ok (users (st (route ctx ip r s).2)) ∧ unique_texts (users (st (route ctx ip r s).2)).
Proof.
  intros Hg Hok Hf. pose proof (route_changes ctx ip r s Hg Hok Hf) as H. split; [by eapply rtc_users_ok|].
  revert Hok H0. clear Hf. induction H; eauto using change_users_ok, change_unique.
Qed.

End Ops.
