(* ===== verification/UsersAccess.v ===== *)
(** * Deleted and disabled users

    When an administrator deletes or disables a user, no credential of that
    user opens anything any more: neither a bearer token, nor an API token, nor
    a socket that is already open and asks again ([is_context_active]). *)

From S2P Require Import Prelude PyStr Values Permissions Events UserModel Validation UserStores PasswordHasher.
From S2P Require Import Throttle AuthService AuthSafety UsersService UsersSafety AuthExample.
From S2P Require Import UsersApi UsersOps Http.
From Stdlib Require Import Ascii.

Section Access.
Context {Host : Type} `{E : AuthEnv Host}.
Abbreviation method := (py (World Host) uexn).

Lemma stores_users_ok x : stores_ok x → users_ok (users x).
Proof.
  intros H. split; [apply H|]. intros i u Hi. apply (users_keyed _ H). by apply dict_get_elem_of.
Qed.

Lemma live_id (s : World Host) i u : live s i = Some u → u_id u = i ∧ disabled u = false.
Proof.
  unfold live. destruct (find_in i _) as [v|]; [|done].
  destruct (bool_decide (u_id v = i)) eqn:Hb; [|done]. destruct (disabled v) eqn:Hd; [done|].
  intros [= <-]. by apply bool_decide_eq_true in Hb.
Qed.

Lemma not_live (s : World Host) i :
  users_ok (users (st s)) →
  (∀ u, dict_get i (users (st s)) = Some u → disabled u = true) → live s i = None.
Proof.
  intros [Hd Hk] Hi. unfold live. destruct (find_in i (users (st s))) as [v|] eqn:Hf; [|done].
  destruct (bool_decide (u_id v = i)) eqn:Hb; [|done]. apply bool_decide_eq_true in Hb.
  apply find_in_elem in Hf as [j Hj]. apply dict_elem_of_get in Hj; [|done].
  rewrite (Hi v); [done|]. by rewrite <- Hb, (Hk j v).
Qed.

(** Only a live user is authenticated. *)
Lemma authenticated_live token (s : World Host) ctx s' :
  authenticate_token token s = (inr ctx, s') → live s (u_id (c_user ctx)) = Some (c_user ctx).
Proof.
  unfold authenticate_token. destruct (starts_with token API_TOKEN_PREFIX).
  - unfold authenticate_api_token. rewrite py_bind_eq. cbn [get_token_by_hash gets].
    destruct (token_by_hash _ _) as [t|]; [|done]. rewrite py_bind_eq.
    destruct (context_for_api_token t s) as [[e|c] s1] eqn:Hc; [done|].
    apply context_for_api_token_eq in Hc as (-> & _ & Hlive & _). intros Hres.
    assert (c_user ctx = c_user c) as ->; [|by rewrite (proj1 (live_id _ _ _ Hlive))].
    rewrite py_bind_eq in Hres. cbn [now_ms gets] in Hres.
    destruct (match last_used_at t with Some _ => _ | None => true end); [|by injection Hres as <- _].
    rewrite py_bind_eq in Hres. cbn [update_last_used on_stores modify] in Hres.
    by injection Hres as <- _.
  - rewrite py_bind_eq. cbn [get_session gets]. destruct (dict_get _ (sessions (st s))) as [x|]; [|done].
    rewrite py_bind_eq. pose proof (context_for_session_eq x s) as Hc.
    destruct (is_expired x _); [destruct Hc as [e He]; by destruct (_context_for_session x s) as [[?|?] ?]|].
    destruct (live s (s_user_id x)) as [u|] eqn:Hu;
      [|destruct Hc as [e He]; by destruct (_context_for_session x s) as [[?|?] ?]].
    rewrite Hc. rewrite !py_bind_eq. unfold update_last_activity. rewrite py_bind_eq.
    cbn [now_ms gets on_stores modify]. intros Hres.
    assert (c_user ctx = u) as -> by by injection Hres as <- _.
    by rewrite (proj1 (live_id _ _ _ Hu)).
Qed.

(** No context of a user that is not live is active. *)
Lemma not_live_inactive (s : World Host) c :
  live s (u_id (c_user c)) = None → external c = false → (is_context_active c s).1 = inr false.
Proof.
  intros Hl He. unfold is_context_active. rewrite He. destruct (api_token c) as [t|].
  - unfold is_api_token_active. rewrite py_bind_eq. cbn [get_token gets].
    destruct (dict_get _ (api_tokens (st s))) as [r|]; [|done].
    destruct (bool_decide (t_user_id r = _)) eqn:Hb; [|done]. apply bool_decide_eq_true in Hb.
    unfold on_refusal, try_except. rewrite py_bind_eq.
    unfold context_for_api_token. rewrite py_bind_eq. cbn [now_ms gets].
    destruct (token_is_expired r _); [done|]. by rewrite py_bind_eq, live_user_eq, Hb, Hl.
  - destruct (session c) as [x|]; [|done]. rewrite py_bind_eq. cbn [get_session_by_id gets].
    rewrite py_bind_eq. cbn [now_ms gets]. destruct (session_by_id _ _) as [y|]; [|done].
    destruct (_ || _); [done|]. rewrite py_bind_eq. cbn [get_user gets]. cbn. unfold live in Hl.
    destruct (find_in _ _) as [v|]; [|done]. by destruct (bool_decide _ && _).
Qed.

(** What no access means. *)
Definition no_access (s : World Host) (uid : string) : Prop :=
  (∀ token, match (authenticate_token token s).1 with
            | inr c => u_id (c_user c) ≠ uid
            | inl _ => True
            end) ∧
  ∀ c, u_id (c_user c) = uid → external c = false → (is_context_active c s).1 = inr false.

Lemma not_live_no_access (s : World Host) uid : live s uid = None → no_access s uid.
Proof.
  intros Hl. split.
  - intros token. destruct (authenticate_token token s) as [[e|c] s'] eqn:Hc; [done|].
    apply authenticated_live in Hc. cbn. intros Hu. rewrite Hu in Hc. congruence.
  - intros c Hu He. apply not_live_inactive; [by rewrite Hu|done].
Qed.

(** What an operation on the host leaves, when it succeeds. *)
Lemma effect_ok (m : method unit) s s' : effect m → m s = (inr tt, s') → ∃ h, s' = set_host h s.
Proof. intros Hm H. destruct (Hm s) as [h [Hs|Hs]]; rewrite Hs in H; [|done]. injection H as <-. by exists h. Qed.

Lemma then_ok {A B} (m : method A) (k : A → method B) s b s' :
  (m ≫= k) s = (inr b, s') → ∃ a s1, m s = (inr a, s1) ∧ k a s1 = (inr b, s').
Proof. rewrite py_bind_eq. destruct (m s) as [[e|a] s1]; [done|]. by exists a, s1. Qed.

(** An update stores the [disabled] of its request. *)
Lemma check_update_disabled ctx u f (s : World Host) p :
  (check_update ctx u f s).1 = inr p → p_disabled p = f_disabled f.
Proof.
  destruct (check_update ctx u f s) as [[e|q] s'] eqn:Hc; [done|]. intros [= <-]. unfold check_update in Hc.
  repeat (apply then_ok in Hc as (? & ? & _ & Hc)). cbv zeta in Hc.
  repeat (apply then_ok in Hc as (? & ? & _ & Hc)). by injection Hc as <- _.
Qed.

(** The sessions of a user are gone when their revocation succeeded. *)
Lemma revoke_all_ok uid reason a (s : World Host) n s' :
  NoDup (map (s_id ∘ snd) (sessions (st s))) →
  revoke_user_sessions uid reason a None s = (inr n, s') →
  st s' = set_sessions (filter (λ kv, s_user_id kv.2 ≠ uid) (sessions (st s))) (st s).
Proof.
  intros Hnd. unfold revoke_user_sessions. rewrite py_bind_eq. cbn [get_active_sessions gets].
  destruct (revoke_each_eq uid reason a None (dict_values (sessions (st s))) 0 s Hnd) as [H|[h Hr]].
  { intros Hs. by rewrite Hs in H. }
  rewrite Hr. intros [= _ <-]. cbn [revoked st].
  assert (∀ kv, kv ∈ sessions (st s) →
    s_id kv.2 ∈ map s_id (List.filter (to_revoke uid None) (dict_values (sessions (st s)))) ↔
    s_user_id kv.2 = uid) as Hids.
  { intros [k x] Hin. rewrite (ids_of_target _ _ k x Hnd Hin). unfold to_revoke. simpl.
    rewrite andb_true_r. by rewrite bool_decide_eq_true. }
  f_equal. revert Hids. generalize (map s_id (List.filter (to_revoke uid None) (dict_values (sessions (st s))))).
  intros ids Hids. clear Hnd Hr. induction (sessions (st s)) as [|kv d IH] in Hids |- *; [done|].
  rewrite !filter_cons, IH by (intros; apply Hids; set_solver).
  specialize (Hids kv ltac:(set_solver)). repeat case_decide; naive_solver.
Qed.

(** C4: when a deletion returns, the user, the password, every session and every
    API token of the user are gone (and no other session or token), and the user
    has no access left: no bearer token authenticates as that user, and no open
    socket of theirs is active any more. *)
Theorem deleted_user_has_no_access ctx u (s s' : World Host) :
  stores_ok (st s) → dict_ok (credentials (st s)) → dict_get (u_id u) (users (st s)) = Some u →
  delete_user ctx u s = (inr tt, s') →
  dict_get (u_id u) (users (st s')) = None ∧ dict_get (u_id u) (credentials (st s')) = None ∧
  (∀ h x, (h, x) ∈ sessions (st s') ↔ (h, x) ∈ sessions (st s) ∧ s_user_id x ≠ u_id u) ∧
  (∀ i t, (i, t) ∈ api_tokens (st s') ↔ (i, t) ∈ api_tokens (st s) ∧ t_user_id t ≠ u_id u) ∧
  no_access s' (u_id u).
Proof.
  intros Hok Hcr Hu Hdel. pose proof (stores_users_ok _ Hok) as [Hd Hk].
  unfold delete_user in Hdel.
  rewrite after_reader in Hdel by (apply reader_as_caller; intros; apply reader_raise_if).
  destruct (as_caller _ _ s).1; [done|].
  rewrite after_reader in Hdel by (apply reader_as_caller; intros; apply reader_covers).
  destruct (as_caller _ _ s).1; [done|].
  rewrite after_reader in Hdel by apply reader_last_admin.
  destruct (is_last_enabled_admin u s).1 as [|last]; [done|].
  rewrite after_reader in Hdel by apply reader_raise_if. destruct last; [done|].
  cbn [raise_if mret py_ret fst] in Hdel.
  rewrite py_bind_eq in Hdel. cbn [store_delete_user on_stores modify] in Hdel.
  rewrite py_bind_eq in Hdel. cbn [on_stores modify] in Hdel.
  rewrite py_bind_eq in Hdel. cbn [reset_failures on_auth modify st au host] in Hdel.
  match type of Hdel with (revoke_user_sessions ?i ?r ?a ?k ≫= ?f) ?s0 = _ =>
    rewrite (py_bind_eq (revoke_user_sessions i r a k) f) in Hdel;
    destruct (revoke_user_sessions i r a k s0) as [[e|n] s1] eqn:Hrev; [done|] end.
  apply revoke_all_ok in Hrev; [|apply Hok]. cbn [st sessions set_credentials set_users] in Hrev.
  rewrite py_bind_eq in Hdel. cbn [delete_user_tokens on_stores modify] in Hdel.
  destruct (effect_ok _ _ _ (effect_bind _ _ effect_notify_change
    (effect_bind _ _ (effect_audit _ _ _) (effect_publish _ _ _))) Hdel) as [h ->].
  cbn [set_host st]. rewrite Hrev. cbn.
  assert (dict_get (u_id u) (dict_del (u_id u) (users (st s))) = None) as Hgone
    by by apply dict_get_del_eq.
  split_and!; [done|by apply dict_get_del_eq| | |].
  - intros k x. rewrite list_elem_of_filter. cbn. tauto.
  - intros i t. unfold delete_tokens_of. rewrite list_elem_of_filter. cbn. tauto.
  - apply not_live_no_access, not_live; cbn.
    + split; [auto with dict|]. intros j v [_ Hj]%get_del_cases; auto.
    + intros v. by rewrite Hgone.
Qed.

(** When an update that disables a user returns, the stored user is disabled
    and has no access left; the sessions of a user that was enabled before are
    gone. *)
Theorem disabled_user_has_no_access ctx u f (s s' : World Host) u' :
  stores_ok (st s) → dict_get (u_id u) (users (st s)) = Some u → f_disabled f = Some true →
  update_user ctx u f s = (inr u', s') →
  dict_get (u_id u) (users (st s')) = Some u' ∧ disabled u' = true ∧
  (disabled u = false → ∀ h x, (h, x) ∈ sessions (st s') → s_user_id x ≠ u_id u) ∧
  no_access s' (u_id u).
Proof.
  intros Hok Hu Hf Hup. pose proof (stores_users_ok _ Hok) as [Hd Hk].
  unfold update_user in Hup. rewrite after_reader in Hup by apply reader_check_update.
  destruct (check_update ctx u f s).1 as [e|p] eqn:Hc; [done|].
  assert (p_disabled p = Some true) as Hp by (rewrite <- Hf; by eapply check_update_disabled).
  rewrite py_bind_eq in Hup. unfold try_except in Hup. rewrite (store_update_eq _ _ _ _ Hu) in Hup.
  cbv zeta in Hup. set (v := apply_patch p (clock (host s)) u) in *.
  assert (disabled v = true) as Hv by (cbn; by rewrite Hp).
  assert (users_ok (dict_set (u_id u) v (users (st s)))) as Hok'.
  { split; [auto with dict|]. intros j w [[-> ->]|[_ Hj]]%get_set_cases; auto. }
  assert (∀ s2 : World Host, users (st s2) = dict_set (u_id u) v (users (st s)) →
    dict_get (u_id u) (users (st s2)) = Some v ∧ no_access s2 (u_id u)) as Hend.
  { intros s2 Hs2. split; [rewrite Hs2; by rewrite dict_get_set_eq|].
    apply not_live_no_access, not_live; rewrite Hs2; [done|]. intros w. rewrite dict_get_set_eq.
    by intros [= <-]. }
  rewrite Hf in Hup.
  apply then_ok in Hup as ([] & s2 & H2 & Hup). destruct (effect_ok _ _ _ (effect_audit _ _ _) H2) as [h2 ->].
  apply then_ok in Hup as ([] & s3 & H3 & Hup). apply then_ok in Hup as ([] & s4 & H4 & Hup).
  destruct (effect_ok _ _ _ (effect_publish _ _ _) H4) as [h4 ->]. injection Hup as <- <-.
  destruct (disabled u) eqn:Hdis.
  - cbn in H3. injection H3 as <-. destruct (Hend (set_host h4 (set_host h2
      {| st := set_users (dict_set (u_id u) v (users (st s))) (st s); au := au s; host := host s |})) eq_refl).
    by split_and!.
  - rewrite bool_decide_false in H3 by done.
    apply then_ok in H3 as ([] & s5 & H5 & H3). destruct (effect_ok _ _ _ (effect_audit _ _ _) H5) as [h5 ->].
    apply then_ok in H3 as (n & s6 & H6 & H3). injection H3 as <-.
    apply revoke_all_ok in H6; [|apply Hok]. cbn [set_host st sessions set_users] in H6.
    destruct (Hend (set_host h4 s6)) as [? ?]; [by cbn; rewrite H6|]. split_and!; [done..| |done].
    intros _ k x Hx. cbn in Hx. rewrite H6 in Hx. cbn in Hx. by apply list_elem_of_filter in Hx as [? _].
Qed.
End Access.

(** * What callers without user-management permissions may change

    Such a caller may update itself: its email, its data and its password, and
    nothing else of the users, by no request. *)

Section Self.
Context {Host : Type} `{E : AuthEnv Host}.
Abbreviation method := (py (World Host) uexn).

(** What only user management may change of a user. *)
Definition protected (u : User) : string * string * list string * bool * option string * Z :=
  (u_id u, u_name u, u_groups u, disabled u, home_dir u, u_created_at u).

(** The users are the same but for what [me] may change of itself. *)
Definition self_changed (me : string) (d d' : dict string User) : Prop :=
  d' = d ∨ ∃ u u', dict_get me d = Some u ∧ protected u' = protected u ∧ d' = dict_set me u' d.

Lemma self_same me d : self_changed me d d.
Proof. by left. Qed.

Lemma self_keeps {A} me (m : method A) s :
  keeps (users_are (users (st s))) m → self_changed me (users (st s)) (users (st (m s).2)).
Proof. intros Hm. left. exact (Hm s eq_refl). Qed.

Lemma self_reader_then {A B} me (m : method A) (k : A → method B) s :
  reader m → (∀ a, (m s).1 = inr a → self_changed me (users (st s)) (users (st (k a s).2))) →
  self_changed me (users (st s)) (users (st ((m ≫= k) s).2)).
Proof.
  intros Hm Hk. rewrite after_reader by done. destruct (m s).1 as [e|a] eqn:H; [by left|by apply Hk].
Qed.

Lemma self_same_then {A B} me (m : method A) (k : A → method B) s :
  keeps (users_are (users (st s))) m →
  (∀ a s1, users (st s1) = users (st s) → self_changed me (users (st s)) (users (st (k a s1).2))) →
  self_changed me (users (st s)) (users (st ((m ≫= k) s).2)).
Proof.
  intros Hm Hk. specialize (Hm s eq_refl). unfold users_are in Hm. rewrite py_bind_eq.
  destruct (m s) as [[e|a] s1]; cbn [snd] in *; [by left|by apply Hk].
Qed.

Lemma self_quiet {A B} me (m : method A) (k : A → method B) d s :
  self_changed me d (users (st (m s).2)) → (∀ a d, keeps (users_are d) (k a)) →
  self_changed me d (users (st ((m ≫= k) s).2)).
Proof.
  intros Hm Hk. rewrite py_bind_eq. destruct (m s) as [[e|a] s1]; [exact Hm|].
  pose proof (Hk a (users (st s1)) s1 eq_refl) as H. unfold users_are in H. by rewrite H.
Qed.

(** A patch of the user itself that leaves what is protected. *)
Lemma self_patch me p u d (s : World Host) :
  users (st s) = d → dict_get me d = Some u →
  p_name p = None → p_groups p = None → p_disabled p = None → p_home_dir p = None →
  self_changed me d (users (st (store_update_user me p s).2)).
Proof.
  intros Hs Hu Hn Hg Hd Hh. rewrite (store_update_eq _ _ u) by by rewrite Hs. right.
  exists u, (apply_patch p (clock (host s)) u). cbn [snd st users set_users]. rewrite Hs.
  split_and!; [done| |done]. unfold protected. cbn. by rewrite Hn, Hg, Hd, Hh.
Qed.

Lemma check_update_fields ctx u f (s : World Host) p :
  (check_update ctx u f s).1 = inr p → f_name f = None → f_groups f = None →
  p_name p = None ∧ p_groups p = None ∧ p_disabled p = f_disabled f ∧ p_home_dir p = f_home_dir f.
Proof.
  destruct (check_update ctx u f s) as [[e|q] s'] eqn:Hc; [done|]. intros [= <-] Hn Hg.
  unfold check_update in Hc. rewrite Hn, Hg in Hc.
  rewrite after_reader in Hc by done. cbn [mret py_ret fst] in Hc.
  apply then_ok in Hc as (? & ? & _ & Hc). cbv zeta in Hc.
  apply then_ok in Hc as (? & ? & _ & Hc). apply then_ok in Hc as (? & ? & _ & Hc).
  rewrite after_reader in Hc by done. cbn [mret py_ret fst] in Hc.
  repeat (apply then_ok in Hc as (? & ? & _ & Hc)). by injection Hc as <- _.
Qed.

Lemma self_update ctx u f (s : World Host) :
  dict_get (u_id u) (users (st s)) = Some u → restricted f = false →
  self_changed (u_id u) (users (st s)) (users (st (update_user ctx u f s).2)).
Proof.
  intros Hu Hf. unfold restricted in Hf. apply orb_false_iff in Hf as [Hf Hh].
  apply orb_false_iff in Hf as [Hf Hd]. apply orb_false_iff in Hf as [Hn Hg].
  assert (f_name f = None ∧ f_groups f = None ∧ f_disabled f = None ∧ f_home_dir f = None) as (Hn' & Hg' & Hd' & Hh').
  { repeat match goal with H : bool_decide _ = false |- _ => apply bool_decide_eq_false in H end.
    split_and!; by apply eq_None_not_Some. }
  unfold update_user. apply self_reader_then; [apply reader_check_update|intros p Hp].
  destruct (check_update_fields _ _ _ _ _ Hp Hn' Hg') as (Hpn & Hpg & Hpd & Hph).
  apply self_quiet.
  - unfold try_except. pose proof (self_patch (u_id u) p u (users (st s)) s) as H.
    rewrite (store_update_eq _ _ u) in * by done. apply H; congruence.
  - intros v d. unfold _user_event. cbv zeta. tail.
Qed.

Lemma self_password ctx u password b (s : World Host) d :
  users (st s) = d → dict_get (u_id u) d = Some u → is_self ctx u = true →
  self_changed (u_id u) d (users (st (change_password ctx u password b s).2)).
Proof.
  intros Hs Hu Hself. rewrite <- Hs. unfold change_password.
  apply self_reader_then; [by destruct (validate_password_policy _)|intros _ _]. cbv zeta. rewrite Hself.
  apply self_quiet; [|intros; unfold _user_event; tail].
  apply self_same_then; [apply users_set_password|intros _ s1 Hs1].
  apply self_quiet; [|intros; tail]. destruct (must_change_password u); [|by left].
  apply self_quiet; [|intros; apply keeps_ret]. apply (self_patch _ _ u); try done. by rewrite Hs.
Qed.

(** The permissions to manage users and memberships. *)
Definition MANAGE : list string := [USERS_CREATE; USERS_UPDATE; USERS_DELETE; GROUPS_UPDATE; GROUPS_DELETE].

Lemma self_password_route ctx ip k b (s : World Host) :
  users_ok (users (st s)) → can ctx USERS_UPDATE = false →
  self_changed (u_id (c_user ctx)) (users (st s)) (users (st (change_password_route ctx ip k b s).2)).
Proof.
  intros Hok Hc. unfold change_password_route. apply self_reader_then; [apply reader_raise_if|intros _ _].
  apply self_reader_then; [apply reader_gets|intros t _]. cbv zeta.
  apply self_reader_then; [by case_match; [|apply reader_raise_if]|intros _ _].
  apply self_reader_then; [apply reader_load_target|intros u Hu].
  apply load_target_ok in Hu as [Hu [Hcan|[_ Hself]]]; [congruence| |done].
  destruct (match pw_password b with Some _ => _ | None => _ end) as [password|]; [|by left].
  apply self_same_then; [case_match; [apply users_rate|apply keeps_ret]|intros _ s1 Hs1].
  rewrite <- Hs1 in Hu |- *. apply self_same_then.
  { case_match; [|apply keeps_ret]. intros s' Hs'. unfold users_are in *. by rewrite (proj1 (same_confirm _ _ _ s')). }
  intros _ s2 Hs2. apply self_quiet; [|intros; apply keeps_ret].
  unfold is_self in Hself. apply bool_decide_eq_true in Hself as Hid. rewrite <- Hid. by apply self_password.
Qed.

Lemma self_route ctx ip r (s : World Host) :
  users_ok (users (st s)) → forallb (λ p, negb (can ctx p)) MANAGE = true →
  (∀ username password agent, r ≠ Login username password agent) →
  self_changed (u_id (c_user ctx)) (users (st s)) (users (st (route ctx ip r s).2)).
Proof.
  intros Hok Hm Hl. unfold route.
  apply self_reader_then; [case_match; [done|apply reader_raise_if]|intros _ _].
  assert (∀ p, p ∈ MANAGE → can ctx p = false) as Hc.
  { intros p Hp. rewrite forallb_forall in Hm. apply negb_true_iff, Hm. by apply list_elem_of_In. }
  destruct (writes_users r) eqn:Hw.
  2: { apply self_reader_then; [case_match; [apply reader_raise_if|done]|intros _ _].
       by apply self_keeps, users_quiet. }
  assert (∀ p (k : method response), p ∈ MANAGE →
    self_changed (u_id (c_user ctx)) (users (st s)) (users (st ((_ ← require_permission ctx p; k) s).2))) as Hrefuse.
  { intros p k Hp. unfold require_permission. rewrite (Hc p Hp). by left. }
  destruct r; try discriminate Hw; unfold body_of; cbn [required];
    try (apply Hrefuse; unfold MANAGE; set_solver).
  - by edestruct Hl.
  - apply self_reader_then; [done|intros _ _]. apply self_reader_then; [apply reader_load_target|intros u Hu].
    assert (can ctx USERS_UPDATE = false) as Hup by (apply Hc; unfold MANAGE; set_solver).
    apply load_target_ok in Hu as [Hu [Hcan|[_ Hself]]]; [congruence| |done]. rewrite Hup.
    apply self_reader_then; [apply reader_raise_if|]. destruct (restricted body) eqn:Hr; [done|intros _ _].
    apply self_quiet; [|intros; apply keeps_ret].
    unfold is_self in Hself. apply bool_decide_eq_true in Hself as <-. by apply self_update.
  - apply self_reader_then; [done|intros _ _]. apply self_password_route; [done|].
    apply Hc. unfold MANAGE. set_solver.
Qed.

(** C3: whatever request a caller makes that holds none of the permissions to
    manage users and memberships, no other user changes, is added or removed,
    and its own name, groups, home directory and enabled state stay too. *)
Theorem self_service ctx ip r (s : World Host) :
  users_ok (users (st s)) → forallb (λ p, negb (can ctx p)) MANAGE = true →
  (∀ username password agent, r ≠ Login username password agent) →
  let d := users (st s) in
  let d' := users (st (route ctx ip r s).2) in
  (∀ i, i ≠ u_id (c_user ctx) → dict_get i d' = dict_get i d) ∧
  protected <$> dict_get (u_id (c_user ctx)) d' = protected <$> dict_get (u_id (c_user ctx)) d.
Proof.
  intros Hok Hm Hl. cbv zeta.
  destruct (self_route ctx ip r s Hok Hm Hl) as [-> |(u & u' & Hu & Hp & ->)]; [done|]. split.
  - intros i Hi. by rewrite dict_get_set_ne.
  - rewrite dict_get_set_eq, Hu. cbn. by rewrite Hp.
Qed.
End Self.

(** * Users and groups of a small server

    The seeded server of [AuthExample.v] with a second user, and the theorems on
    users and groups at work there. *)

(** Deciders of the invariants. *)
Lemma groups_ok_forall gs : Forall (λ kv, lower (g_name kv.2) = kv.1) gs → groups_ok gs.
Proof.
  intros H k g Hg. apply dict_get_elem_of in Hg. rewrite Forall_forall in H. exact (H (k, g) Hg).
Qed.
Lemma users_ok_forall (d : dict string User) :
  dict_ok d → Forall (λ kv, u_id kv.2 = kv.1) d → users_ok d.
Proof.
  intros Hd H. split; [done|]. intros i u Hi. apply dict_get_elem_of in Hi.
  rewrite Forall_forall in H. exact (H (i, u) Hi).
Qed.
Lemma unique_texts_forall (d : dict string User) :
  Forall (λ kv, Forall (λ kw, kv.1 = kw.1 ∨
    Forall (λ x, x ∉ texts kw.2) (texts kv.2)) d) d → unique_texts d.
Proof.
  intros H i j u v x Hij Hu%dict_get_elem_of Hv%dict_get_elem_of Hx.
  rewrite Forall_forall in H. specialize (H _ Hu). rewrite Forall_forall in H.
  destruct (H _ Hv) as [?|Ht]; [done|]. rewrite Forall_forall in Ht. by apply Ht.
Qed.

Definition fields (name email password : string) (gs : option (list string)) : UserFields :=
  {| f_name := Some name; f_email := Some email; f_groups := gs; f_password := Some password;
     f_disabled := None; f_home_dir := None; f_data := None |}.
Definition no_fields : UserFields :=
  {| f_name := None; f_email := None; f_groups := None; f_password := None; f_disabled := None;
     f_home_dir := None; f_data := None |}.
Definition disabling : UserFields :=
  {| f_name := None; f_email := None; f_groups := None; f_password := None;
     f_disabled := Some true; f_home_dir := None; f_data := None |}.

(** Root creates the group [ops] and the user Alice, who logs in. *)
Definition with_ops : World Host :=
  Eval vm_compute in
    (create_group (Some caller) (Some "ops") None (Some ["jobs:*"; "users:update"]) inside).2.
Definition with_alice : World Host :=
  Eval vm_compute in
    (create_user (Some caller) (fields "Alice" "alice@example.com" "wonderland" (Some ["ops"])) with_ops).2.
Definition alice_inside : World Host :=
  Eval vm_compute in (login "alice" "wonderland" no_metadata with_alice).2.
Definition alice : User :=
  Eval vm_compute in default (l_user result) (find_in "alice" (users (st alice_inside))).
Definition alice_login : (uexn + LoginResult) := Eval vm_compute in (login "alice" "wonderland" no_metadata with_alice).1.
Definition as_alice : AuthContext :=
  Eval vm_compute in match alice_login with
  | inr r => session_context (l_session r) (l_user r) (l_permissions r) (Some (l_token r))
  | inl _ => caller
  end.

Example alice_permissions : permissions as_alice = ["jobs:*"; "users:update"].
Proof. reflexivity. Qed.

Ltac check_users :=
  first [ apply groups_ok_forall | apply users_ok_forall | apply unique_texts_forall | idtac ];
  apply (bool_decide_unpack _); vm_compute; exact I.

Lemma alice_stores_ok : stores_ok (st alice_inside).
Proof.
  split; try (apply (bool_decide_unpack _); vm_compute; exact I).
  - assert (Forall (λ kv, u_id kv.2 = kv.1) (users (st alice_inside))) as H by check_users.
    rewrite Forall_forall in H. intros i u Hi. exact (H _ Hi).
  - assert (Forall (λ kv, token_hash kv.2 = kv.1) (sessions (st alice_inside))) as H by check_users.
    rewrite Forall_forall in H. intros i u Hi. exact (H _ Hi).
  - assert (Forall (λ kv, lower (g_name kv.2) = kv.1) (groups (st alice_inside))) as H by check_users.
    rewrite Forall_forall in H. intros i u Hi. exact (H _ Hi).
Qed.

Definition local : string := "127.0.0.1".

Lemma last_admin_stays_witness :
  let r := UpdateUser "root" disabling in
  has_admin (users (st (route caller local r alice_inside).2)).
Proof.
  intros r. apply (last_admin_stays caller local r alice_inside).
  - check_users.
  - check_users.
  - reflexivity.
  - exists (u_id (l_user result)). eexists. split; vm_compute; reflexivity.
Defined.

Lemma names_stay_unique_witness :
  let r := CreateUser (fields "Bob" "bob@example.com" "builder-bob" None) in
  unique_texts (users (st (route caller local r alice_inside).2)).
Proof.
  intros r. apply (names_stay_unique caller local r alice_inside).
  - check_users.
  - check_users.
  - reflexivity.
  - check_users.
Defined.

(** Alice as a manager who may also create users. *)
Definition as_manager : AuthContext :=
  {| c_user := c_user as_alice; c_groups := c_groups as_alice;
     permissions := ["users:create"; "jobs:*"; "users:update"]; session := session as_alice;
     c_token := c_token as_alice; external := false; api_token := None |}.


(** Alice with a token scoped to the jobs. *)
Definition as_worker : AuthContext :=
  {| c_user := c_user as_alice; c_groups := c_groups as_alice; permissions := ["jobs:*"];
     session := session as_alice; c_token := c_token as_alice; external := false; api_token := None |}.

Lemma self_service_witness :
  let r := UpdateUser "alice" (fields "Alice" "new@example.com" "" None) in
  protected <$> dict_get (u_id alice) (users (st (route as_worker local r alice_inside).2)) =
    Some (protected alice).
Proof.
  intros r.
  assert (protected <$> dict_get (u_id alice) (users (st alice_inside)) = Some (protected alice)) as <-
    by (vm_compute; reflexivity).
  apply (self_service as_worker local r alice_inside).
  - check_users.
  - vm_compute. reflexivity.
  - intros username password agent. discriminate.
Defined.

(** Alice cannot make Bob an administrator. *)
Example alice_grants_no_admin :
  match (route as_manager local (CreateUser (fields "Bob" "bob@example.com" "builder-bob" (Some ["admin"])))
           alice_inside).1 with
  | inl (UsersApiError status _) => status = 403
  | _ => False
  end.
Proof. vm_compute. reflexivity. Qed.

Lemma deleted_user_has_no_access_witness :
  let s' := (delete_user (Some caller) alice alice_inside).2 in
  (length (sessions (st alice_inside)), length (sessions (st s'))) = (2%nat, 1%nat) ∧
  no_access s' (u_id alice).
Proof.
  intros s'. split; [vm_compute; reflexivity|].
  apply (deleted_user_has_no_access (Some caller) alice alice_inside s').
  - exact alice_stores_ok.
  - check_users.
  - reflexivity.
  - vm_compute. reflexivity.
Defined.

Lemma disabled_user_has_no_access_witness :
  let s' := (update_user (Some caller) alice disabling alice_inside).2 in
  (length (sessions (st alice_inside)), length (sessions (st s'))) = (2%nat, 1%nat) ∧
  no_access s' (u_id alice).
Proof.
  intros s'. split; [vm_compute; reflexivity|].
  destruct (update_user (Some caller) alice disabling alice_inside) as [[e|u'] s1] eqn:Hup;
    [vm_compute in Hup; discriminate Hup|].
  apply (disabled_user_has_no_access (Some caller) alice disabling alice_inside s1 u').
  - exact alice_stores_ok.
  - reflexivity.
  - reflexivity.
  - exact Hup.
Defined.
