(* ===== verification/Utf8.v ===== *)
(** * UTF-8 ([str.encode], [bytes.decode])

    Texts are lists of code points and bytes are lists of numbers below 256.
    [encode] fails on a lone surrogate ([UnicodeEncodeError]); [decode] is
    [decode("utf-8", errors="replace")], which puts U+FFFD for each longest
    start of a sequence that cannot be continued. *)

From S2P Require Import Prelude.

Definition text : Type := list Z.
Definition bytes : Type := list Z.

Definition REPLACEMENT : Z := 65533.

Definition is_surrogate (c : Z) : bool := (55296 <=? c) && (c <=? 57343).

(** A code point a [str] may hold. *)
Definition code_point (c : Z) : Prop := 0 ≤ c < 1114112.

Definition encode_char (c : Z) : option bytes :=
  if c <? 128 then Some [c]
  else if c <? 2048 then Some [192 + c / 64; 128 + c mod 64]
  else if is_surrogate c then None
  else if c <? 65536 then Some [224 + c / 4096; 128 + (c / 64) mod 64; 128 + c mod 64]
  else Some [240 + c / 262144; 128 + (c / 4096) mod 64; 128 + (c / 64) mod 64; 128 + c mod 64].

Fixpoint encode (t : text) : option bytes :=
  match t with
  | [] => Some []
  | c :: t =>
      match encode_char c, encode t with
      | Some b, Some bs => Some (b ++ bs)
      | _, _ => None
      end
  end.

Definition in_range (a b x : Z) : bool := (a <=? x) && (x <=? b).
Definition cont (b : Z) : bool := in_range 128 191 b.

(** The second bytes that may follow a lead byte of three or of four. *)
Definition second3 (b c : Z) : bool :=
  if b =? 224 then in_range 160 191 c
  else if b =? 237 then in_range 128 159 c
  else cont c.
Definition second4 (b c : Z) : bool :=
  if b =? 240 then in_range 144 191 c
  else if b =? 244 then in_range 128 143 c
  else cont c.

Fixpoint decode (l : bytes) : text :=
  match l with
  | [] => []
  | b :: l1 =>
      if b <? 128 then b :: decode l1
      else if in_range 194 223 b then
        match l1 with
        | c :: l2 => if cont c then ((b - 192) * 64 + (c - 128)) :: decode l2 else REPLACEMENT :: decode l1
        | [] => [REPLACEMENT]
        end
      else if in_range 224 239 b then
        match l1 with
        | c :: l2 =>
            if second3 b c then
              match l2 with
              | d :: l3 =>
                  if cont d then ((b - 224) * 4096 + (c - 128) * 64 + (d - 128)) :: decode l3
                  else REPLACEMENT :: decode l2
              | [] => [REPLACEMENT]
              end
            else REPLACEMENT :: decode l1
        | [] => [REPLACEMENT]
        end
      else if in_range 240 244 b then
        match l1 with
        | c :: l2 =>
            if second4 b c then
              match l2 with
              | d :: l3 =>
                  if cont d then
                    match l3 with
                    | e :: l4 =>
                        if cont e
                        then ((b - 240) * 262144 + (c - 128) * 4096 + (d - 128) * 64 + (e - 128)) :: decode l4
                        else REPLACEMENT :: decode l3
                    | [] => [REPLACEMENT]
                    end
                  else REPLACEMENT :: decode l2
              | [] => [REPLACEMENT]
              end
            else REPLACEMENT :: decode l1
        | [] => [REPLACEMENT]
        end
      else REPLACEMENT :: decode l1
  end.

(** What one sequence at the front gives: a character and the bytes after it,
    nothing while more bytes are needed, or an error *)
Inductive step1 := Char (c : Z) (rest : bytes) | More | Bad.
Definition step_utf8 (l : bytes) : step1 :=
  match l with
  | [] => More
  | b :: l1 =>
      if b <? 128 then Char b l1
      else if in_range 194 223 b then
        match l1 with [] => More | c :: l2 => if cont c then Char ((b - 192) * 64 + (c - 128)) l2 else Bad end
      else if in_range 224 239 b then
        match l1 with
        | [] => More
        | c :: l2 =>
            if second3 b c then
              match l2 with [] => More | d :: l3 => if cont d then Char ((b - 224) * 4096 + (c - 128) * 64 + (d - 128)) l3 else Bad end
            else Bad
        end
      else if in_range 240 244 b then
        match l1 with
        | [] => More
        | c :: l2 =>
            if second4 b c then
              match l2 with
              | [] => More
              | d :: l3 =>
                  if cont d then
                    match l3 with
                    | [] => More
                    | e :: l4 => if cont e then Char ((b - 240) * 262144 + (c - 128) * 4096 + (d - 128) * 64 + (e - 128)) l4 else Bad
                    end
                  else Bad
              end
            else Bad
        end
      else Bad
  end.

(** "a", e acute, the euro sign, an emoji; a truncated sequence; a stray byte. *)
Example utf8_ex :
  encode [97; 233; 8364; 128512] = Some [97; 195; 169; 226; 130; 172; 240; 159; 152; 128] ∧
  decode [97; 226; 130] = [97; REPLACEMENT] ∧ decode [255; 98] = [REPLACEMENT; 98] ∧
  decode [237; 160; 128] = [REPLACEMENT; REPLACEMENT; REPLACEMENT] ∧ encode [55296] = None.
Proof. split_and!; reflexivity. Qed.

Lemma in_range_iff a b x : in_range a b x = true ↔ a ≤ x ≤ b.
Proof. unfold in_range. rewrite andb_true_iff, !Z.leb_le. done. Qed.

(** Decide the tests of [decode] on a byte by arithmetic. *)
Ltac byte_tests :=
  repeat match goal with
  | |- context [?x <? ?y] => destruct (Z.ltb_spec x y); try lia
  | |- context [in_range ?a ?b ?x] =>
      first [ rewrite (proj2 (in_range_iff a b x)) by lia
            | rewrite (not_true_is_false (in_range a b x)) by (rewrite in_range_iff; lia) ]
  | |- context [?x =? ?y] => destruct (Z.eqb_spec x y); try lia
  | |- context [if true then _ else _] => cbn iota
  | |- context [if false then _ else _] => cbn iota
  end.

Lemma decode_encode_char c b l :
  code_point c → encode_char c = Some b → decode (b ++ l) = c :: decode l.
Proof.
  intros Hc. unfold encode_char, code_point, is_surrogate in *.
  pose proof (Z.div_mod c 64 ltac:(lia)). pose proof (Z.mod_pos_bound c 64 ltac:(lia)).
  pose proof (Z.div_mod (c / 64) 64 ltac:(lia)). pose proof (Z.mod_pos_bound (c / 64) 64 ltac:(lia)).
  pose proof (Z.div_mod (c / 4096) 64 ltac:(lia)). pose proof (Z.mod_pos_bound (c / 4096) 64 ltac:(lia)).
  assert (c / 64 / 64 = c / 4096) as H64 by (rewrite Z.div_div by lia; reflexivity).
  assert (c / 4096 / 64 = c / 262144) as H4096 by (rewrite Z.div_div by lia; reflexivity).
  rewrite H64 in *. rewrite H4096 in *.
  destruct (Z.ltb_spec c 128) as [Hlt|].
  { intros [= <-]. cbn [app decode]. by destruct (Z.ltb_spec c 128); [|lia]. }
  destruct (Z.ltb_spec c 2048).
  { intros [= <-]. cbn [app decode]. unfold cont. byte_tests. f_equal. lia. }
  destruct ((55296 <=? c) && (c <=? 57343)) eqn:Hs; [done|]. apply andb_false_iff in Hs.
  rewrite !Z.leb_gt in Hs. destruct (Z.ltb_spec c 65536).
  - intros [= <-]. cbn [app decode]. unfold second3, cont. byte_tests; f_equal; lia.
  - intros [= <-]. cbn [app decode]. unfold second4, cont. byte_tests; f_equal; lia.
Qed.

(** Decoding gives back what was encoded. *)
Lemma decode_encode t b : Forall code_point t → encode t = Some b → decode b = t.
Proof.
  revert b. induction t as [|c t IH]; intros b Ht; simpl; [by intros [= <-]|].
  inversion Ht as [|? ? Hc Ht']; subst.
  destruct (encode_char c) as [bc|] eqn:He; [|done]. destruct (encode t) as [bs|]; [|done].
  intros [= <-]. rewrite (decode_encode_char c) by done. by rewrite (IH bs).
Qed.

(** A text without surrogates can be encoded. *)
Lemma encode_some t : Forall (λ c, is_surrogate c = false) t → is_Some (encode t).
Proof.
  induction t as [|c t IH]; intros Ht; simpl; [done|]. inversion Ht as [|? ? Hc Ht']; subst.
  destruct (IH Ht') as [bs ->]. unfold encode_char. rewrite Hc.
  repeat case_match; try discriminate; eauto.
Qed.
