(* ===== verification/FileTree.v ===== *)
(** * The in-memory file storage ([fs/providers/in_memory_provider.py])

    The tree of [_FileNode]s and every operation of
    [InMemoryFileStorageProvider].  A node object is found by its path: the code
    changes a node in place, the model rebuilds the tree with the node at that
    path changed ([modify_at]).  Contents are bytes, the text of [read_file] is
    decoded from UTF-8. *)

From S2P Require Import Prelude PyStr Utf8.
From Stdlib Require Import Ascii.

(** What an operation raises: the errors of [fs/errors.py], those of the
    language, and [NameError], because the module does not import
    [FileStoragePermissionError].  The last two are for other providers and for
    the handlers of the event bus. *)
Inductive fexn :=
| FileStorageNotFoundError (path : string)
| FileStoragePermissionError (path : string)
| FileStorageExistsError (path : string)
| FileStorageNotADirectoryError (path : string)
| FileStorageIsADirectoryError (path : string)
| NameError (name : string)
| KeyError (key : string)
| UnicodeEncodeError
| HostError (msg : string)
| CancelledError.

(** ** Nodes *)

Inductive _FileNode := FileNode {
  n_name : string;
  n_type : string;
  n_content : bytes;
  n_children : list (string * _FileNode);
  created_at : string;
  modified_at : string;
  n_size : Z;
  n_permissions : string;
}.

Definition set_children (d : dict string _FileNode) (n : _FileNode) : _FileNode :=
  FileNode (n_name n) (n_type n) (n_content n) d (created_at n) (modified_at n) (n_size n)
    (n_permissions n).

(** [existing.content = raw], its size and time. *)
Definition set_content (raw : bytes) (now : string) (n : _FileNode) : _FileNode :=
  FileNode (n_name n) (n_type n) raw (n_children n) (created_at n) now (Z.of_nat (length raw))
    (n_permissions n).

Definition permissions_of (type : string) : string :=
  if bool_decide (type = "directory") then "drwxr-xr-x" else "-rw-r--r--".

(** ** Paths *)

Definition slash : ascii := "/"%char.

(** The loop of [_normalize_path] with its [parts]. *)
Fixpoint normalize_loop (parts : list string) (segments : list string) : list string :=
  match segments with
  | [] => parts
  | segment :: segments =>
      if is_empty segment || bool_decide (segment = ".") then normalize_loop parts segments
      else if bool_decide (segment = "..") then normalize_loop (removelast parts) segments
      else normalize_loop (parts ++ [segment]) segments
  end.

Definition _normalize_path (path : string) : string :=
  let path := strip (strip_of slash path) in
  if is_empty path || bool_decide (path = ".") then ""
  else join "/" (normalize_loop [] (split slash path)).

(** [norm.split("/")], [parts[:-1]] and [parts[-1]] *)
Definition parts_of (norm : string) : list string := split slash norm.
Definition dirs_of (parts : list string) : list string := removelast parts.
Definition last_of (parts : list string) : string := List.last parts "".

(** ** Walking the tree *)

Definition child (k : string) (n : _FileNode) : option _FileNode := dict_get k (n_children n).

(** The walk of [_resolve]. *)
Fixpoint resolve_parts (parts : list string) (n : _FileNode) : option _FileNode :=
  match parts with
  | [] => Some n
  | part :: parts =>
      if negb (bool_decide (n_type n = "directory")) then None
      else match child part n with Some c => resolve_parts parts c | None => None end
  end.
Definition resolve_in (root : _FileNode) (norm : string) : option _FileNode :=
  if is_empty norm then Some root else resolve_parts (parts_of norm) root.

(** The tree with the node at a path changed; the node is there. *)
Fixpoint modify_at (parts : list string) (f : _FileNode → _FileNode) (n : _FileNode) : _FileNode :=
  match parts with
  | [] => f n
  | part :: parts =>
      match child part n with
      | Some c => set_children (dict_set part (modify_at parts f c) (n_children n)) n
      | None => n
      end
  end.

(** The node object at a path, whatever the types on the way. *)
Fixpoint node_at (parts : list string) (n : _FileNode) : option _FileNode :=
  match parts with
  | [] => Some n
  | part :: parts => match child part n with Some c => node_at parts c | None => None end
  end.

(** [parent.children[name] = c] and [del parent.children[name]] *)
Definition put_child (name : string) (c : _FileNode) (n : _FileNode) : _FileNode :=
  set_children (dict_set name c (n_children n)) n.
Definition del_child (name : string) (n : _FileNode) : _FileNode :=
  set_children (dict_del name (n_children n)) n.

(** ** The provider *)

(** The host gives the time ([_now_iso]). *)
Class FsEnv (Host : Type) := { now_iso : Host → string * Host }.

Record FS {Host : Type} := { root : _FileNode; fs_host : Host }.
Arguments FS : clear implicits.

Record FileEntry := {
  e_name : string; e_type : string; e_size : Z; e_modified : string; e_permissions : option string;
}.
Record FileStat := {
  f_name : string; f_type : string; f_size : Z; f_created : string; f_modified : string;
  f_permissions : option string;
}.

(** The content given to [write_file]: a [str] or [bytes]. *)
Inductive content := Text (t : text) | Bytes (b : bytes).

Section Provider.
Context {Host : Type} `{E : FsEnv Host}.
Abbreviation method := (py (FS Host) fexn).

(** [_FileNode(...)] of a new node whose time is not given. *)
Definition fresh_dir (name : string) (h : Host) : _FileNode * Host :=
  let '(now, h) := now_iso h in
  (FileNode name "directory" [] [] now now 0 (permissions_of "directory"), h).

Definition now : method string := λ s,
  let '(t, h) := now_iso (fs_host s) in (inr t, {| root := root s; fs_host := h |}).
Definition change_root (f : _FileNode → _FileNode) : method unit :=
  modify (λ s, {| root := f (root s); fs_host := fs_host s |}).

Definition _resolve (norm : string) : method (option _FileNode) :=
  gets (λ s, resolve_in (root s) norm).

(** The walk of [_ensure_parents]: what it raises, and the tree it leaves. *)
Fixpoint ensure (create : bool) (original_path : string) (parts : list string) (n : _FileNode)
    (h : Host) : option fexn * _FileNode * Host :=
  match parts with
  | [] => (None, n, h)
  | part :: parts =>
      match child part n with
      | None =>
          if negb create then (Some (FileStorageNotFoundError original_path), n, h)
          else
            let '(d, h) := fresh_dir part h in
            let '(e, d, h) := ensure create original_path parts d h in
            (e, put_child part d n, h)
      | Some c =>
          if negb (bool_decide (n_type c = "directory"))
          then (Some (FileStorageNotADirectoryError original_path), n, h)
          else
            let '(e, c, h) := ensure create original_path parts c h in
            (e, put_child part c n, h)
      end
  end.
Definition _ensure_parents (parts : list string) (original_path : string) (create : bool)
    : method unit := λ s,
  let '(e, r, h) := ensure create original_path parts (root s) (fs_host s) in
  (match e with Some e => inl e | None => inr tt end, {| root := r; fs_host := h |}).

(** [_deep_copy] *)
Fixpoint _deep_copy (n : _FileNode) (new_name : string) (h : Host) : _FileNode * Host :=
  let '(now, h) := now_iso h in
  let '(cs, h) :=
    (fix go (l : list (string * _FileNode)) (cs : dict string _FileNode) (h : Host) :=
       match l with
       | [] => (cs, h)
       | (k, c) :: l => let '(c, h) := _deep_copy c k h in go l (dict_set k c cs) h
       end) (n_children n) [] h in
  (FileNode new_name (n_type n) (n_content n) cs now now (n_size n) (permissions_of (n_type n)), h).

(** ** The operations *)

Definition to_entry (n : _FileNode) : FileEntry :=
  {| e_name := n_name n; e_type := n_type n; e_size := n_size n; e_modified := modified_at n;
     e_permissions := Some (n_permissions n) |}.
Definition name_le (a b : _FileNode) : bool := String.leb (n_name a) (n_name b).

Definition list_dir (path : string) : method (list FileEntry) :=
  node ← _resolve (_normalize_path path);
  match node with
  | None => raise (FileStorageNotFoundError path)
  | Some n =>
      if negb (bool_decide (n_type n = "directory")) then raise (FileStorageNotADirectoryError path)
      else mret (map to_entry (py_sort name_le (dict_values (n_children n))))
  end.

Definition read_file (path : string) : method text :=
  node ← _resolve (_normalize_path path);
  match node with
  | None => raise (FileStorageNotFoundError path)
  | Some n =>
      if bool_decide (n_type n = "directory") then raise (FileStorageIsADirectoryError path)
      else mret (decode (n_content n))
  end.

Definition raw_bytes (c : content) : method bytes :=
  match c with
  | Text t => match encode t with Some b => mret b | None => raise UnicodeEncodeError end
  | Bytes b => mret b
  end.

Definition write_file (path : string) (c : content) : method unit :=
  let norm := _normalize_path path in
  if is_empty norm then raise (FileStorageIsADirectoryError path)
  else
    let dirs := dirs_of (parts_of norm) in
    let file_name := last_of (parts_of norm) in
    _ ← _ensure_parents dirs path true;
    raw ← raw_bytes c;
    t ← now;
    existing ← gets (λ s, node_at (dirs ++ [file_name]) (root s));
    match existing with
    | Some n =>
        if bool_decide (n_type n = "directory") then raise (FileStorageIsADirectoryError path)
        else change_root (modify_at (dirs ++ [file_name]) (set_content raw t))
    | None =>
        change_root (modify_at dirs (put_child file_name
          (FileNode file_name "file" raw [] t t (Z.of_nat (length raw)) (permissions_of "file"))))
    end.

Definition stat (path : string) : method FileStat :=
  node ← _resolve (_normalize_path path);
  match node with
  | None => raise (FileStorageNotFoundError path)
  | Some n =>
      mret {| f_name := n_name n; f_type := n_type n; f_size := n_size n; f_created := created_at n;
              f_modified := modified_at n; f_permissions := Some (n_permissions n) |}
  end.

Definition mkdir (path : string) (recursive : bool) : method unit :=
  let norm := _normalize_path path in
  if is_empty norm then mret tt
  else
    let parts := parts_of norm in
    if recursive then _ensure_parents parts path true
    else
      let dirs := dirs_of parts in
      let dir_name := last_of parts in
      _ ← _ensure_parents dirs path false;
      existing ← gets (λ s, node_at (dirs ++ [dir_name]) (root s));
      match existing with
      | Some n =>
          if negb (bool_decide (n_type n = "directory")) then raise (FileStorageExistsError path)
          else mret tt
      | None => λ s,
          let '(d, h) := fresh_dir dir_name (fs_host s) in
          (inr tt, {| root := modify_at dirs (put_child dir_name d) (root s); fs_host := h |})
      end.

Definition remove (path : string) (recursive : bool) : method unit :=
  let norm := _normalize_path path in
  if is_empty norm then raise (NameError "FileStoragePermissionError")
  else
    let dirs := dirs_of (parts_of norm) in
    let name := last_of (parts_of norm) in
    parent ← _resolve (join "/" dirs);
    match (match parent with Some p => child name p | None => None end) with
    | None => raise (FileStorageNotFoundError path)
    | Some n =>
        if bool_decide (n_type n = "directory") && negb (bool_decide (n_children n = [])) && negb recursive
        then raise (FileStorageNotADirectoryError path)
        else change_root (modify_at dirs (del_child name))
    end.

(** [parent.children[name] = self._deep_copy(src_node, name)]: the source is
    the node object found before, which the creation of the parents may have
    changed. *)
Definition put_copy (src_parts dirs : list string) (name : string) : method unit := λ s,
  match node_at src_parts (root s) with
  | Some n =>
      let '(c, h) := _deep_copy n name (fs_host s) in
      (inr tt, {| root := modify_at dirs (put_child name c) (root s); fs_host := h |})
  | None => (inr tt, s)
  end.
Definition node_parts (norm : string) : list string := if is_empty norm then [] else parts_of norm.

Definition copy (src dest : string) : method unit :=
  let src_norm := _normalize_path src in
  src_node ← _resolve src_norm;
  match src_node with
  | None => raise (FileStorageNotFoundError src)
  | Some _ =>
      let dest_norm := _normalize_path dest in
      if is_empty dest_norm then raise (FileStorageIsADirectoryError dest)
      else
        let dirs := dirs_of (parts_of dest_norm) in
        _ ← _ensure_parents dirs dest true;
        put_copy (node_parts src_norm) dirs (last_of (parts_of dest_norm))
  end.

Definition move (src dest : string) : method unit :=
  let src_norm := _normalize_path src in
  if is_empty src_norm then raise (NameError "FileStoragePermissionError")
  else
    src_node ← _resolve src_norm;
    match src_node with
    | None => raise (FileStorageNotFoundError src)
    | Some _ =>
        let dest_norm := _normalize_path dest in
        if is_empty dest_norm then raise (FileStorageIsADirectoryError dest)
        else
          let dirs := dirs_of (parts_of dest_norm) in
          _ ← _ensure_parents dirs dest true;
          _ ← put_copy (node_parts src_norm) dirs (last_of (parts_of dest_norm));
          let src_dirs := dirs_of (parts_of src_norm) in
          let name := last_of (parts_of src_norm) in
          src_parent ← _resolve (join "/" src_dirs);
          match src_parent with
          | None => mret tt
          | Some p =>
              match child name p with
              | None => raise (KeyError name)
              | Some _ => change_root (modify_at src_dirs (del_child name))
              end
          end
    end.

Definition exists_path (path : string) : method bool :=
  node ← _resolve (_normalize_path path); mret (bool_decide (is_Some node)).

(** The bytes of the stream. *)
Definition get_download_stream (path : string) : method bytes :=
  node ← _resolve (_normalize_path path);
  match node with
  | None => raise (FileStorageNotFoundError path)
  | Some n =>
      if bool_decide (n_type n = "directory") then raise (FileStorageIsADirectoryError path)
      else mret (n_content n)
  end.

Definition upload_file (path : string) (b : bytes) : method unit := write_file path (Bytes b).

(** [__init__] *)
Definition new_fs (h : Host) : FS Host :=
  let '(r, h) := fresh_dir "" h in {| root := r; fs_host := h |}.
End Provider.

(** * Correctness of the in-memory file storage

    The tree is well formed in every reachable state, and on its abstract view
    (what is at each path: a file with its bytes, a directory, or nothing) every
    operation does what its specification [fs_spec] says. *)

(** ** Normal paths *)

(** A segment a normal path may have. *)
Definition good (k : string) : Prop := k ≠ "" ∧ k ≠ "." ∧ k ≠ ".." ∧ slash ∉ chars k.

(** The segments of a path argument. *)
Definition path_parts (path : string) : list string := node_parts (_normalize_path path).

Lemma normalize_loop_good segments parts :
  Forall (λ w, slash ∉ chars w) segments → Forall good parts → Forall good (normalize_loop parts segments).
Proof.
  intros Hseg. revert parts. induction Hseg as [|w ws Hw Hws IH]; intros parts Hp; simpl; [done|].
  destruct (is_empty w || bool_decide (w = ".")) eqn:E1; [by apply IH|].
  apply orb_false_elim in E1 as [E1 E2%bool_decide_eq_false_1].
  apply bool_decide_eq_false_1 in E1. case_bool_decide as E3; apply IH.
  - destruct parts as [|p ps _] using rev_ind; [done|]. rewrite removelast_last. by apply Forall_app in Hp as [? _].
  - apply Forall_app. split; [done|]. repeat constructor; done.
Qed.

Lemma join_empty ws : Forall good ws → is_empty (join "/" ws) = bool_decide (ws = []).
Proof.
  intros Hws. destruct Hws as [|w ws [Hw _] Hws]; [done|]. unfold is_empty. rewrite !bool_decide_eq_false_2; [done..|].
  destruct ws as [|w' ws]; simpl; [done|]. by destruct w.
Qed.

Lemma node_parts_join ws : Forall good ws → node_parts (join "/" ws) = ws.
Proof.
  intros Hws. unfold node_parts. rewrite join_empty by done. case_bool_decide as H; [done|].
  unfold parts_of. apply (split_join slash); [done|]. eapply Forall_impl; [done|]. intros w (_ & _ & _ & Hw). done.
Qed.

Lemma normal_path_join path : ∃ ws, Forall good ws ∧ _normalize_path path = join "/" ws.
Proof.
  unfold _normalize_path. destruct (is_empty _ || _); [by exists []|].
  eexists. split; [|done]. apply normalize_loop_good; [|constructor].
  unfold split. apply Forall_fmap, (Forall_impl _ _ _ (split_chars_no_sep slash _)).
  intros w Hw. unfold compose. by rewrite chars_str.
Qed.

(** No segment of a path argument is empty, [.] or [..], or has a slash. *)
Lemma path_parts_good path : Forall good (path_parts path).
Proof.
  unfold path_parts. destruct (normal_path_join path) as (ws & Hws & ->). by rewrite node_parts_join.
Qed.

Lemma path_parts_empty path : is_empty (_normalize_path path) = bool_decide (path_parts path = []).
Proof.
  unfold path_parts. destruct (normal_path_join path) as (ws & Hws & ->).
  by rewrite node_parts_join, join_empty.
Qed.

Lemma path_parts_of path : path_parts path ≠ [] → parts_of (_normalize_path path) = path_parts path.
Proof. unfold path_parts, node_parts. by destruct (is_empty _). Qed.

Lemma parts_snoc {p : list string} : p ≠ [] → p = dirs_of p ++ [last_of p].
Proof. intros Hp. apply app_removelast_last, Hp. Qed.

Lemma good_dirs p : Forall good p → Forall good (dirs_of p).
Proof.
  intros Hp. destruct p as [|k p _] using rev_ind; [done|]. unfold dirs_of. rewrite removelast_last.
  by apply Forall_app in Hp as [? _].
Qed.

Lemma good_last p : p ≠ [] → Forall good p → good (last_of p).
Proof.
  intros Hne Hp. rewrite (parts_snoc Hne) in Hp. apply Forall_app in Hp as [_ Hl]. by inversion Hl.
Qed.

(** ** The abstract view *)

Inductive entry := AFile (b : bytes) | ADir.
Definition view_t : Type := list string → option entry.

Definition kind_of (n : _FileNode) : entry :=
  if bool_decide (n_type n = "directory") then ADir else AFile (n_content n).
Definition view (n : _FileNode) : view_t := λ p, kind_of <$> node_at p n.

(** What is left of [q] after [p]. *)
Fixpoint below (p q : list string) : option (list string) :=
  match p, q with
  | [], _ => Some q
  | k :: p, k' :: q => if decide (k = k') then below p q else None
  | _, [] => None
  end.

(** The missing directories on the way to [ds] are there. *)
Definition mkdirs (ds : list string) (v : view_t) : view_t := λ q,
  match v q with
  | Some e => Some e
  | None => if bool_decide (q `prefix_of` ds) then Some ADir else None
  end.
(** [w] is at [p] and below, in place of what was there. *)
Definition graft (p : list string) (w v : view_t) : view_t := λ q,
  match below p q with Some r => w r | None => v q end.
Definition cut (p : list string) : view_t → view_t := graft p (λ _, None).
Definition single (e : entry) : view_t := λ r, match r with [] => Some e | _ => None end.
Definition under (p : list string) (v : view_t) : view_t := λ r, v (p ++ r).

(** A file is on the way to [ds]. *)
Fixpoint blocked (v : view_t) (ds : list string) : bool :=
  match ds with
  | [] => false
  | k :: ds =>
      match v [k] with
      | Some (AFile _) => true
      | _ => blocked (λ q, v (k :: q)) ds
      end
  end.

Lemma below_spec p q r : below p q = Some r ↔ q = p ++ r.
Proof.
  revert q. induction p as [|k p IH]; intros q; simpl; [naive_solver|].
  destruct q as [|k' q]; [naive_solver|]. case_decide; [|naive_solver]. subst. rewrite IH. naive_solver.
Qed.

Lemma below_app p r : below p (p ++ r) = Some r.
Proof. by apply below_spec. Qed.

Lemma blocked_ext v w ds : (∀ q, v q = w q) → blocked v ds = blocked w ds.
Proof.
  revert v w. induction ds as [|k ds IH]; intros v w H; simpl; [done|]. rewrite H, (IH _ (λ q, w (k :: q))) by done.
  done.
Qed.

Lemma blocked_none v ds : (∀ q, q ≠ [] → v q = None) → blocked v ds = false.
Proof.
  revert v. induction ds as [|k ds IH]; intros v H; simpl; [done|]. rewrite H by done. apply IH. intros q _. by apply H.
Qed.

Lemma view_nil n : view n [] = Some (kind_of n).
Proof. done. Qed.

Lemma view_cons k q n : view n (k :: q) = match child k n with Some c => view c q | None => None end.
Proof. unfold view. simpl. by destruct (child k n). Qed.

(** Nothing is below what is not there. *)
Lemma node_at_app p q n : node_at (p ++ q) n = node_at p n ≫= node_at q.
Proof. revert n. induction p as [|k p IH]; intros n; simpl; [done|]. destruct (child k n); [apply IH|done]. Qed.

Lemma child_put k c k' n : child k' (put_child k c n) = if decide (k = k') then Some c else child k' n.
Proof.
  unfold child, put_child. simpl. case_decide; [subst; apply dict_get_set_eq|by apply dict_get_set_ne].
Qed.

Lemma view_put k c n q :
  view (put_child k c n) q =
  match q with
  | [] => Some (kind_of n)
  | k' :: q' => if decide (k = k') then view c q' else view n q
  end.
Proof.
  destruct q as [|k' q']; [done|]. rewrite !view_cons, child_put. by case_decide.
Qed.

Lemma view_modify p f n m q :
  node_at p n = Some m → view (modify_at p f n) q = match below p q with Some r => view (f m) r | None => view n q end.
Proof.
  revert n q. induction p as [|k p IH]; intros n q; simpl; [by intros [= ->]|].
  destruct (child k n) as [c|] eqn:Hc; [|done]. intros Hm.
  fold (put_child k (modify_at p f c) n). rewrite view_put. destruct q as [|k' q]; [done|].
  case_decide; [|done]. subst. rewrite (IH _ _ Hm), view_cons, Hc. done.
Qed.

(** ** Well-formed trees *)

(** A file has no children and its size is its length; a directory has no
    content, and its children are under their names, which are good segments. *)
Inductive wf : _FileNode → Prop :=
| wf_file name raw created modified :
    wf (FileNode name "file" raw [] created modified (Z.of_nat (length raw)) (permissions_of "file"))
| wf_dir name d created modified :
    dict_ok d →
    (∀ k c, dict_get k d = Some c → good k) →
    (∀ k c, dict_get k d = Some c → n_name c = k) →
    (∀ k c, dict_get k d = Some c → wf c) →
    wf (FileNode name "directory" [] d created modified 0 (permissions_of "directory")).

Definition is_dir (n : _FileNode) : Prop := n_type n = "directory".

Lemma wf_child k c n : wf n → child k n = Some c → wf c ∧ n_name c = k ∧ good k ∧ is_dir n.
Proof. intros [|? d ? ? ? Hg Hn Hw] Hc; [done|]. unfold child in Hc. simpl in Hc. split_and!; eauto. done. Qed.

Lemma wf_kind n : wf n → kind_of n = ADir ∧ is_dir n ∨ kind_of n = AFile (n_content n) ∧ n_type n = "file" ∧ n_children n = [].
Proof. intros []; [right|left]; done. Qed.

Lemma wf_file_leaf n k : wf n → ¬ is_dir n → child k n = None.
Proof. intros Hn Hd. destruct (child k n) eqn:Hc; [|done]. by apply (wf_child k) in Hc as (_ & _ & _ & ?). Qed.

Lemma wf_put k c n : wf n → is_dir n → wf c → n_name c = k → good k → wf (put_child k c n).
Proof.
  intros [name raw cr mo|name d cr mo Hd Hg Hn Hw] Hdir Hc Hk Hgood; [done|].
  unfold put_child, set_children. simpl. apply wf_dir; [by apply dict_ok_set|..]; intros k' c';
    (destruct (decide (k = k')) as [->|]; [rewrite dict_get_set_eq; by intros [= <-]|rewrite dict_get_set_ne by done; eauto]).
Qed.

Lemma wf_del k n : wf n → is_dir n → wf (del_child k n).
Proof.
  intros [name raw cr mo|name d cr mo Hd Hg Hn Hw] Hdir; [done|].
  unfold del_child, set_children. simpl. apply wf_dir; [by apply dict_ok_del|..]; intros k' c';
    (destruct (decide (k = k')) as [->|]; [by rewrite dict_get_del_eq|rewrite dict_get_del_ne by done; eauto]).
Qed.

Lemma wf_set_content raw t n : wf n → ¬ is_dir n → wf (set_content raw t n).
Proof. intros [] Hd; [apply wf_file|by destruct Hd]. Qed.

Lemma wf_fresh {Host} `{FsEnv Host} k (h : Host) :
  wf (fresh_dir k h).1 ∧ n_name (fresh_dir k h).1 = k ∧ is_dir (fresh_dir k h).1 ∧
  (∀ q, view (fresh_dir k h).1 q = single ADir q).
Proof.
  unfold fresh_dir. destruct (now_iso h) as [t h']. simpl. split_and!; [|done..|].
  - apply wf_dir; [apply dict_ok_nil|done..].
  - by intros [|k' q].
Qed.

Lemma wf_node_at p n m : wf n → node_at p n = Some m → wf m ∧ (p = [] ∨ is_dir n).
Proof.
  revert n. induction p as [|k p IH]; intros n Hn; simpl; [intros [= ->]; auto|].
  destruct (child k n) as [c|] eqn:Hc; [|done]. apply (wf_child k) in Hc as (Hw & _ & _ & Hd); [|done].
  intros Hm. destruct (IH _ Hw Hm) as [? _]. auto.
Qed.

Lemma wf_node_name p k n m : wf n → node_at (p ++ [k]) n = Some m → n_name m = k ∧ good k.
Proof.
  rewrite node_at_app. intros Hn. destruct (node_at p n) as [c|] eqn:Hc; [|done]. simpl.
  apply wf_node_at in Hc as [Hc _]; [|done]. destruct (child k c) eqn:Hk; [|done]. intros [= <-].
  apply (wf_child k) in Hk as (_ & ? & ? & _); done.
Qed.

(** Changing a node keeps the tree well formed if the node stays well formed,
    with its name and type. *)
Lemma wf_modify p f n m :
  wf n → node_at p n = Some m → wf (f m) → n_name (f m) = n_name m → n_type (f m) = n_type m →
  wf (modify_at p f n) ∧ n_name (modify_at p f n) = n_name n ∧ n_type (modify_at p f n) = n_type n.
Proof.
  revert n. induction p as [|k p IH]; intros n Hn; simpl; [intros [= ->]; auto|].
  destruct (child k n) as [c|] eqn:Hc; [|done]. intros Hm Hf Hname Htype.
  destruct (wf_child k c n Hn Hc) as (Hw & Hk & Hg & Hd).
  destruct (IH _ Hw Hm Hf Hname Htype) as (Hw' & Hn' & Ht'). split_and!; [|done..].
  apply wf_put; [done..|congruence|done].
Qed.

(** Where the types are right, [_resolve] is the lookup. *)
Lemma resolve_node_at p n : wf n → resolve_parts p n = node_at p n.
Proof.
  revert n. induction p as [|k p IH]; intros n Hn; simpl; [done|].
  destruct (child k n) as [c|] eqn:Hc.
  - destruct (wf_child k c n Hn Hc) as (Hw & _ & _ & Hd). rewrite bool_decide_eq_true_2 by done. by apply IH.
  - by destruct (negb _).
Qed.

Lemma resolve_join n ws : wf n → Forall good ws → resolve_in n (join "/" ws) = node_at ws n.
Proof.
  intros Hn Hws. rewrite <- (node_parts_join ws) at 2 by done. unfold resolve_in, node_parts.
  destruct (is_empty _); [done|by apply resolve_node_at].
Qed.

Lemma resolve_path n path : wf n → resolve_in n (_normalize_path path) = node_at (path_parts path) n.
Proof.
  intros Hn. unfold path_parts. destruct (normal_path_join path) as (ws & Hws & ->).
  by rewrite node_parts_join, resolve_join.
Qed.

(** ** The walk that makes directories *)

Definition same_head (n n' : _FileNode) : Prop := n_name n' = n_name n ∧ n_type n' = n_type n.

Lemma kind_dir n : is_dir n → kind_of n = ADir.
Proof. intros H. unfold kind_of. by rewrite bool_decide_eq_true_2. Qed.

Lemma view_under_child k c n : child k n = Some c → ∀ q, view n (k :: q) = view c q.
Proof. intros Hc q. by rewrite view_cons, Hc. Qed.

Lemma kind_file n : kind_of n = AFile (n_content n) ↔ ¬ is_dir n.
Proof. unfold kind_of, is_dir. case_bool_decide; split; done. Qed.

Lemma mkdirs_cons k ds v q : v [] = Some ADir →
  mkdirs (k :: ds) v q = match q with
    | [] => Some ADir
    | k' :: q' => if decide (k = k') then mkdirs ds (λ r, v (k :: r)) q' else v q end.
Proof.
  intros Hv. unfold mkdirs. destruct q as [|k' q']; [by rewrite Hv|].
  case_decide as Hk; [subst k'|].
  - destruct (v (k :: q')); [done|]. apply (f_equal (λ b : bool, if b then Some ADir else None)), bool_decide_ext.
    split; [by intros ?%prefix_cons_inv_2|by apply prefix_cons].
  - destruct (v (k' :: q')); [done|]. rewrite bool_decide_eq_false_2; [done|].
    intros Hp. by apply prefix_cons_inv_1 in Hp.
Qed.

Section Ensure.
Context {Host : Type} `{E : FsEnv Host}.

(** With [create], the walk makes the missing directories, unless a file is in
    the way, and then it changes nothing. *)
Lemma ensure_create orig ds n (h : Host) :
  wf n → is_dir n → Forall good ds →
  let '(e, n', _) := ensure true orig ds n h in
  e = (if blocked (view n) ds then Some (FileStorageNotADirectoryError orig) else None) ∧
  wf n' ∧ same_head n n' ∧
  (∀ q, view n' q = if blocked (view n) ds then view n q else mkdirs ds (view n) q).
Proof.
  intros Hn Hd Hds. revert n h Hn Hd. induction Hds as [|k ds Hk Hds IH]; intros n h Hn Hd; cbn [ensure blocked].
  { split_and!; [done..|]. intros q. unfold mkdirs. destruct (view n q) eqn:Hq; [done|].
    case_bool_decide as Hp; [|done]. apply prefix_nil_inv in Hp as ->. done. }
  assert (Hroot : view n [] = Some ADir) by (by rewrite view_nil, kind_dir).
  destruct (child k n) as [c|] eqn:Hc.
  - destruct (wf_child k c n Hn Hc) as (Hw & Hname & Hg & _).
    rewrite (blocked_ext _ (view c)) by (intros; by apply view_under_child).
    rewrite (view_under_child k c n Hc), view_nil. case_bool_decide as Hcd; cbn [negb].
    + rewrite kind_dir by done. specialize (IH c h Hw Hcd).
      destruct (ensure true orig ds c h) as [[e c'] h']. destruct IH as (He & Hw' & [Hnm Hty] & Hv).
      split_and!; [done| |done|].
      * apply wf_put; [done..|congruence|done].
      * intros q. rewrite view_put, kind_dir by done. destruct q as [|k' q'].
        { destruct (blocked _ _); [done|]. unfold mkdirs. by rewrite Hroot. }
        rewrite Hv. destruct (blocked (view c) ds).
        -- case_decide as Hkk; [rewrite <- Hkk; by rewrite (view_under_child k c n Hc)|done].
        -- rewrite mkdirs_cons by done. case_decide; [|done]. unfold mkdirs.
           by rewrite (view_under_child k c n Hc).
    + apply kind_file in Hcd as ->. done.
  - assert (Hnone : ∀ q, view n (k :: q) = None) by (intros q; by rewrite view_cons, Hc).
    rewrite Hnone. cbn [negb]. pose proof (wf_fresh k h) as (Hfw & Hfn & Hfd & Hfv).
    destruct (fresh_dir k h) as [d h1]. simpl in *. specialize (IH d h1 Hfw Hfd).
    rewrite (blocked_none (view d)) in IH by (intros [|? ?] ?; rewrite Hfv; done).
    rewrite blocked_none by (intros; apply Hnone).
    destruct (ensure true orig ds d h1) as [[e d'] h2]. destruct IH as (-> & Hw' & [Hnm Hty] & Hv).
    split_and!; [done| |done|].
    + apply wf_put; [done..|congruence|done].
    + intros q. rewrite view_put, mkdirs_cons by done. destruct q as [|k' q']; [by rewrite kind_dir|].
      case_decide; [|done]. subst. rewrite Hv. unfold mkdirs. rewrite Hfv, Hnone. destruct q'; [|done].
      rewrite bool_decide_eq_true_2; [done|apply prefix_nil].
Qed.

Lemma dict_set_same k c (d : dict string _FileNode) : dict_get k d = Some c → dict_set k c d = d.
Proof. induction d as [|[k' c'] d IH]; simpl; [done|]. case_decide; [congruence|]. intros Hg. by rewrite IH. Qed.

Lemma put_same k c n : child k n = Some c → put_child k c n = n.
Proof. intros Hc. unfold put_child. rewrite dict_set_same by done. by destruct n. Qed.

(** Without [create] the walk changes nothing. *)
Lemma ensure_walk orig ds n (h : Host) :
  wf n →
  ensure false orig ds n h =
  (if blocked (view n) ds then Some (FileStorageNotADirectoryError orig)
   else match view n ds with None => Some (FileStorageNotFoundError orig) | Some _ => None end, n, h).
Proof.
  revert n h. induction ds as [|k ds IH]; intros n h Hn; cbn [ensure blocked]; [done|].
  destruct (child k n) as [c|] eqn:Hc.
  - destruct (wf_child k c n Hn Hc) as (Hw & _).
    rewrite (blocked_ext _ (view c)) by (intros; by apply view_under_child).
    rewrite !(view_under_child k c n Hc), view_nil. case_bool_decide as Hcd; cbn [negb].
    + rewrite kind_dir, IH by done. by rewrite put_same.
    + apply kind_file in Hcd as ->. done.
  - assert (Hnone : ∀ q, view n (k :: q) = None) by (intros q; by rewrite view_cons, Hc).
    rewrite !Hnone. rewrite blocked_none by (intros; apply Hnone). done.
Qed.

(** ** Copies *)

Definition copy_children (h : Host) (l : list (string * _FileNode)) (cs : dict string _FileNode) :=
  (fix go (l : list (string * _FileNode)) (cs : dict string _FileNode) (h : Host) :=
     match l with
     | [] => (cs, h)
     | (k, c) :: l => let '(c, h) := _deep_copy c k h in go l (dict_set k c cs) h
     end) l cs h.

Definition copy_of (k : string) (c c' : _FileNode) : Prop :=
  wf c' ∧ n_name c' = k ∧ ∀ q, view c' q = view c q.

Lemma copy_children_spec l :
  dict_ok l → (∀ k c, dict_get k l = Some c → ∀ (h : Host), copy_of k c (_deep_copy c k h).1) →
  ∀ cs h, dict_ok cs →
  dict_ok (copy_children h l cs).1 ∧
  ∀ k, match dict_get k l with
       | Some c => ∃ c', dict_get k (copy_children h l cs).1 = Some c' ∧ copy_of k c c'
       | None => dict_get k (copy_children h l cs).1 = dict_get k cs
       end.
Proof.
  induction l as [|[k0 c0] l IH]; intros Hok Hl cs h Hcs; [done|].
  apply NoDup_cons in Hok as [Hk0 Hok]. fold (dict_ok l) in Hok.
  pose proof (Hl k0 c0) as H0. cbn [dict_get] in H0. rewrite decide_True in H0 by done.
  specialize (H0 eq_refl h). unfold copy_children. cbn [dict_get]. destruct (_deep_copy c0 k0 h) as [c0' h0] eqn:Hc0.
  fold (copy_children h0 l (dict_set k0 c0' cs)). simpl in H0.
  assert (Hk0n : dict_get k0 l = None) by (by apply dict_get_None).
  destruct (IH Hok) with (cs := dict_set k0 c0' cs) (h := h0) as [Hd Hg];
    [intros k c Hk h'; apply Hl; simpl; rewrite decide_False; [done|congruence]|by apply dict_ok_set|].
  split; [done|]. intros k. specialize (Hg k). case_decide as Hkk.
  - subst k. rewrite Hk0n in Hg. rewrite Hg, dict_get_set_eq. by exists c0'.
  - destruct (dict_get k l); [done|]. rewrite Hg. by apply dict_get_set_ne.
Qed.

(** A copy is a well-formed tree under the new name that looks the same. *)
Lemma deep_copy_spec n : wf n → ∀ name (h : Host), copy_of name n (_deep_copy n name h).1.
Proof.
  induction 1 as [nm raw cr mo|nm d cr mo Hd Hg Hn Hw IH]; intros name h; simpl; destruct (now_iso h) as [t h1].
  { split_and!; [apply wf_file|done|]. intros [|k q]; done. }
  fold (copy_children h1 d []).
  destruct (copy_children_spec d Hd) with (cs := @nil (string * _FileNode)) (h := h1) as [Hok Hget];
    [intros k c Hk h'; by apply (IH k)|apply dict_ok_nil|].
  destruct (copy_children h1 d []) as [cs h2]. simpl in *.
  assert (Hback : ∀ k c', dict_get k cs = Some c' → good k ∧ n_name c' = k ∧ wf c').
  { intros k c' Hc'. specialize (Hget k). destruct (dict_get k d) as [c|] eqn:Hk.
    - destruct Hget as (c'' & Hc'' & ? & ? & _). simplify_eq. eauto.
    - congruence. }
  split_and!; [|done|].
  - apply wf_dir; [done|intros k c' Hc'; by apply (Hback k) in Hc' as (? & ? & ?)..].
  - intros [|k q]; [done|]. rewrite !view_cons. unfold child. simpl. specialize (Hget k).
    destruct (dict_get k d) as [c|]; [|by rewrite Hget]. destruct Hget as (c' & -> & _ & _ & Hv). apply Hv.
Qed.
End Ensure.
