(* ===== verification/FileRefine.v ===== *)
(** * What the file storage promises, and that it keeps it

    [fs_spec v op e w]: on a tree that looks like [v], the operation [op] raises
    [e] (or succeeds) and leaves a tree that looks like [w]. *)

From S2P Require Import Prelude PyStr Utf8 FileTree.
From Stdlib Require Import Ascii.

(** The operations that change the tree ([upload_file] is [write_file]). *)
Inductive fs_op :=
| OWrite (path : string) (c : content)
| OMkdir (path : string) (recursive : bool)
| ORemove (path : string) (recursive : bool)
| OCopy (src dest : string)
| OMove (src dest : string).

(** The bytes of a content; none for a text with a lone surrogate. *)
Definition raw_of (c : content) : option bytes :=
  match c with Text t => encode t | Bytes b => Some b end.

Definition has_children (v : view_t) (p : list string) : Prop := ∃ k, is_Some (v (p ++ [k])).

(** The view after the copy of [s] to [d]. *)
Definition copied (s d : list string) (v : view_t) : view_t :=
  let v1 := mkdirs (dirs_of d) v in graft d (under s v1) v1.

Inductive fs_spec (v : view_t) : fs_op → option fexn → view_t → Prop :=
| write_root p c :
    path_parts p = [] → fs_spec v (OWrite p c) (Some (FileStorageIsADirectoryError p)) v
| write_blocked p c :
    path_parts p ≠ [] → blocked v (dirs_of (path_parts p)) = true →
    fs_spec v (OWrite p c) (Some (FileStorageNotADirectoryError p)) v
| write_surrogate p c :
    path_parts p ≠ [] → blocked v (dirs_of (path_parts p)) = false → raw_of c = None →
    fs_spec v (OWrite p c) (Some UnicodeEncodeError) (mkdirs (dirs_of (path_parts p)) v)
| write_dir p c :
    path_parts p ≠ [] → blocked v (dirs_of (path_parts p)) = false → is_Some (raw_of c) →
    v (path_parts p) = Some ADir →
    fs_spec v (OWrite p c) (Some (FileStorageIsADirectoryError p)) (mkdirs (dirs_of (path_parts p)) v)
| write_ok p c b :
    path_parts p ≠ [] → blocked v (dirs_of (path_parts p)) = false → raw_of c = Some b →
    v (path_parts p) ≠ Some ADir →
    fs_spec v (OWrite p c) None (graft (path_parts p) (single (AFile b)) (mkdirs (dirs_of (path_parts p)) v))
| mkdir_root p rec :
    path_parts p = [] → fs_spec v (OMkdir p rec) None v
| mkdir_rec_blocked p :
    path_parts p ≠ [] → blocked v (path_parts p) = true →
    fs_spec v (OMkdir p true) (Some (FileStorageNotADirectoryError p)) v
| mkdir_rec p :
    path_parts p ≠ [] → blocked v (path_parts p) = false →
    fs_spec v (OMkdir p true) None (mkdirs (path_parts p) v)
| mkdir_blocked p :
    path_parts p ≠ [] → blocked v (dirs_of (path_parts p)) = true →
    fs_spec v (OMkdir p false) (Some (FileStorageNotADirectoryError p)) v
| mkdir_missing p :
    path_parts p ≠ [] → blocked v (dirs_of (path_parts p)) = false → v (dirs_of (path_parts p)) = None →
    fs_spec v (OMkdir p false) (Some (FileStorageNotFoundError p)) v
| mkdir_file p b :
    path_parts p ≠ [] → blocked v (dirs_of (path_parts p)) = false →
    is_Some (v (dirs_of (path_parts p))) → v (path_parts p) = Some (AFile b) →
    fs_spec v (OMkdir p false) (Some (FileStorageExistsError p)) v
| mkdir_there p :
    path_parts p ≠ [] → blocked v (dirs_of (path_parts p)) = false →
    is_Some (v (dirs_of (path_parts p))) → v (path_parts p) = Some ADir →
    fs_spec v (OMkdir p false) None v
| mkdir_new p :
    path_parts p ≠ [] → blocked v (dirs_of (path_parts p)) = false →
    v (dirs_of (path_parts p)) = Some ADir → v (path_parts p) = None →
    fs_spec v (OMkdir p false) None (graft (path_parts p) (single ADir) v)
| remove_root p rec :
    path_parts p = [] → fs_spec v (ORemove p rec) (Some (NameError "FileStoragePermissionError")) v
| remove_missing p rec :
    path_parts p ≠ [] → v (path_parts p) = None →
    fs_spec v (ORemove p rec) (Some (FileStorageNotFoundError p)) v
| remove_full p :
    path_parts p ≠ [] → v (path_parts p) = Some ADir → has_children v (path_parts p) →
    fs_spec v (ORemove p false) (Some (FileStorageNotADirectoryError p)) v
| remove_ok p rec :
    path_parts p ≠ [] → is_Some (v (path_parts p)) →
    (rec = false → ¬ has_children v (path_parts p)) →
    fs_spec v (ORemove p rec) None (cut (path_parts p) v)
| copy_missing s d :
    v (path_parts s) = None → fs_spec v (OCopy s d) (Some (FileStorageNotFoundError s)) v
| copy_root s d :
    is_Some (v (path_parts s)) → path_parts d = [] →
    fs_spec v (OCopy s d) (Some (FileStorageIsADirectoryError d)) v
| copy_blocked s d :
    is_Some (v (path_parts s)) → path_parts d ≠ [] → blocked v (dirs_of (path_parts d)) = true →
    fs_spec v (OCopy s d) (Some (FileStorageNotADirectoryError d)) v
| copy_ok s d :
    is_Some (v (path_parts s)) → path_parts d ≠ [] → blocked v (dirs_of (path_parts d)) = false →
    fs_spec v (OCopy s d) None (copied (path_parts s) (path_parts d) v)
| move_root s d :
    path_parts s = [] → fs_spec v (OMove s d) (Some (NameError "FileStoragePermissionError")) v
| move_missing s d :
    path_parts s ≠ [] → v (path_parts s) = None →
    fs_spec v (OMove s d) (Some (FileStorageNotFoundError s)) v
| move_to_root s d :
    path_parts s ≠ [] → is_Some (v (path_parts s)) → path_parts d = [] →
    fs_spec v (OMove s d) (Some (FileStorageIsADirectoryError d)) v
| move_blocked s d :
    path_parts s ≠ [] → is_Some (v (path_parts s)) → path_parts d ≠ [] →
    blocked v (dirs_of (path_parts d)) = true →
    fs_spec v (OMove s d) (Some (FileStorageNotADirectoryError d)) v
| move_parent_gone s d w :
    path_parts s ≠ [] → is_Some (v (path_parts s)) → path_parts d ≠ [] →
    blocked v (dirs_of (path_parts d)) = false → w = copied (path_parts s) (path_parts d) v →
    w (dirs_of (path_parts s)) = None → fs_spec v (OMove s d) None w
| move_source_gone s d w :
    path_parts s ≠ [] → is_Some (v (path_parts s)) → path_parts d ≠ [] →
    blocked v (dirs_of (path_parts d)) = false → w = copied (path_parts s) (path_parts d) v →
    is_Some (w (dirs_of (path_parts s))) → w (path_parts s) = None →
    fs_spec v (OMove s d) (Some (KeyError (last_of (path_parts s)))) w
| move_ok s d w :
    path_parts s ≠ [] → is_Some (v (path_parts s)) → path_parts d ≠ [] →
    blocked v (dirs_of (path_parts d)) = false → w = copied (path_parts s) (path_parts d) v →
    is_Some (w (dirs_of (path_parts s))) → is_Some (w (path_parts s)) →
    fs_spec v (OMove s d) None (cut (path_parts s) w).

(** ** Lemmas on views *)

Lemma blocked_end v ds b : blocked v ds = false → ds ≠ [] → v ds ≠ Some (AFile b).
Proof.
  revert v. induction ds as [|k ds IH]; intros v; simpl; [done|]. intros Hb _.
  destruct ds as [|k' ds].
  - intros Hv. by rewrite Hv in Hb.
  - apply (IH (λ q, v (k :: q))); [|done]. by destruct (v [k]) as [[]|].
Qed.

Lemma mkdirs_dir ds v : v [] = Some ADir → blocked v ds = false → mkdirs ds v ds = Some ADir.
Proof.
  intros Hv Hb. unfold mkdirs. destruct (v ds) as [[b|]|] eqn:Hd; [|done|by rewrite bool_decide_eq_true_2].
  destruct ds as [|k ds]; [congruence|]. by eapply blocked_end in Hd.
Qed.

Lemma mkdirs_some ds v q : is_Some (v q) → mkdirs ds v q = v q.
Proof. unfold mkdirs. by intros [e ->]. Qed.

Lemma view_dir n p : view n p = Some ADir ↔ ∃ m, node_at p n = Some m ∧ is_dir m.
Proof.
  unfold view. split.
  - intros (m & Hm & Hk)%fmap_Some. exists m. split; [done|]. unfold kind_of in Hk. by case_bool_decide.
  - intros (m & -> & Hm). simpl. by rewrite kind_dir.
Qed.

Lemma view_some n p : is_Some (view n p) ↔ is_Some (node_at p n).
Proof. unfold view. apply fmap_is_Some. Qed.

Lemma view_app n m p r : node_at p n = Some m → view n (p ++ r) = view m r.
Proof. intros Hm. unfold view. by rewrite node_at_app, Hm. Qed.

Lemma below_snoc p k q : below (p ++ [k]) q = below p q ≫= below [k].
Proof.
  revert q. induction p as [|k' p IH]; intros q; [done|]. destruct q as [|k'' q]; [done|].
  simpl. by case_decide.
Qed.

(** What putting or deleting a child of the node at [ds] does to the view. *)
Lemma view_put_at ds k c n m q :
  node_at ds n = Some m → view (modify_at ds (put_child k c) n) q = graft (ds ++ [k]) (view c) (view n) q.
Proof.
  intros Hm. rewrite (view_modify _ _ _ _ _ Hm). unfold graft. rewrite below_snoc.
  destruct (below ds q) as [r|] eqn:Hr; simpl; [|done]. apply below_spec in Hr as ->.
  rewrite (view_app _ _ _ _ Hm), view_put. destruct r as [|k' r]; [done|]. by case_decide.
Qed.

Lemma view_del_at ds k n m q :
  node_at ds n = Some m → wf m → view (modify_at ds (del_child k) n) q = cut (ds ++ [k]) (view n) q.
Proof.
  intros Hm Hw. rewrite (view_modify _ _ _ _ _ Hm). unfold cut, graft. rewrite below_snoc.
  destruct (below ds q) as [r|] eqn:Hr; simpl; [|done]. apply below_spec in Hr as ->.
  rewrite (view_app _ _ _ _ Hm). destruct r as [|k' r]; [done|].
  assert (Hok : dict_ok (n_children m)) by (destruct Hw; [apply dict_ok_nil|done]).
  case_decide as Hk; rewrite !view_cons; unfold child, del_child; simpl.
  - subst. by rewrite dict_get_del_eq.
  - by rewrite dict_get_del_ne.
Qed.

Lemma wf_put_at ds k c n m :
  wf n → node_at ds n = Some m → is_dir m → wf c → n_name c = k → good k →
  wf (modify_at ds (put_child k c) n) ∧ same_head n (modify_at ds (put_child k c) n).
Proof.
  intros Hn Hm Hd Hc Hk Hg. destruct (wf_node_at _ _ _ Hn Hm) as [Hw _].
  apply (wf_modify ds _ n m); [done..|by apply wf_put|done|done].
Qed.

Lemma wf_del_at ds k n m :
  wf n → node_at ds n = Some m → is_dir m →
  wf (modify_at ds (del_child k) n) ∧ same_head n (modify_at ds (del_child k) n).
Proof.
  intros Hn Hm Hd. destruct (wf_node_at _ _ _ Hn Hm) as [Hw _].
  apply (wf_modify ds _ n m); [done..|by apply wf_del|done|done].
Qed.

(** * The file storage refines its specification

    Every operation keeps the tree well formed and is allowed by [fs_spec]. *)

Section Refine.
Context {Host : Type} `{E : FsEnv Host}.
Implicit Types s : FS Host.

Definition run_op (o : fs_op) : py (FS Host) fexn unit :=
  match o with
  | OWrite p c => write_file p c
  | OMkdir p rec => mkdir p rec
  | ORemove p rec => remove p rec
  | OCopy a b => copy a b
  | OMove a b => move a b
  end.

(** The state invariant. *)
Definition fs_ok s : Prop := wf (root s) ∧ is_dir (root s) ∧ n_name (root s) = "".

(** What an operation raised. *)
Definition raised {A} (r : fexn + A) : option fexn := match r with inl e => Some e | inr _ => None end.

Definition allowed (o : fs_op) s (out : (fexn + unit) * FS Host) : Prop :=
  fs_ok out.2 ∧
  ∃ w, fs_spec (view (root s)) o (raised out.1) w ∧ ∀ q, view (root out.2) q = w q.

Lemma fs_ok_head s (n : _FileNode) h : fs_ok s → wf n → same_head (root s) n → fs_ok {| root := n; fs_host := h |}.
Proof. intros (Hw & Hd & Hn) Hw' [H1 H2]. split_and!; simpl; [done|unfold is_dir in *; congruence|congruence]. Qed.

Lemma fs_ok_view_nil s : fs_ok s → view (root s) [] = Some ADir.
Proof. intros (_ & Hd & _). by rewrite view_nil, kind_dir. Qed.

Lemma ensure_parents_spec ds path s :
  fs_ok s → Forall good ds →
  ∃ s', fs_ok s' ∧
  if blocked (view (root s)) ds
  then _ensure_parents ds path true s = (inl (FileStorageNotADirectoryError path), s') ∧
       ∀ q, view (root s') q = view (root s) q
  else _ensure_parents ds path true s = (inr tt, s') ∧
       (∀ q, view (root s') q = mkdirs ds (view (root s)) q) ∧
       ∃ m, node_at ds (root s') = Some m ∧ is_dir m.
Proof.
  intros Hs Hds. pose proof Hs as (Hw & Hd & _). unfold _ensure_parents.
  pose proof (ensure_create path ds (root s) (fs_host s) Hw Hd Hds) as He.
  destruct (ensure true path ds (root s) (fs_host s)) as [[e n'] h']. destruct He as (-> & Hw' & Hh & Hv).
  eexists. split; [by eapply (fs_ok_head s n' h')|]. destruct (blocked _ _) eqn:Hb; [done|]. split_and!; [done..|].
  apply view_dir. simpl. rewrite Hv. apply mkdirs_dir; [by apply fs_ok_view_nil|done].
Qed.

Lemma resolve_ok path s : fs_ok s → _resolve (_normalize_path path) s = (inr (node_at (path_parts path) (root s)), s).
Proof. intros (Hw & _). unfold _resolve, gets. by rewrite resolve_path. Qed.

Lemma resolve_dirs ws s : fs_ok s → Forall good ws → _resolve (join "/" ws) s = (inr (node_at ws (root s)), s).
Proof. intros (Hw & _) Hws. unfold _resolve, gets. by rewrite resolve_join. Qed.

(** Nothing changed and the specification allows it. *)
Lemma allowed_same o s e : fs_ok s → fs_spec (view (root s)) o (Some e) (view (root s)) → allowed o s (inl e, s).
Proof. intros Hs Hspec. split; [done|]. by exists (view (root s)). Qed.

(** Put a node under the directory at [ds]. *)
Lemma put_ok s ds k c m h :
  fs_ok s → node_at ds (root s) = Some m → is_dir m → wf c → n_name c = k → good k →
  let s' := {| root := modify_at ds (put_child k c) (root s); fs_host := h |} in
  fs_ok s' ∧ ∀ q, view (root s') q = graft (ds ++ [k]) (view c) (view (root s)) q.
Proof.
  intros Hs Hm Hd Hc Hk Hg s'. destruct (wf_put_at ds k c (root s) m) as [Hw Hh]; [apply Hs|done..|].
  split; [by eapply fs_ok_head|]. intros q. by apply (view_put_at ds k c (root s) m).
Qed.

Lemma del_ok s ds k m :
  fs_ok s → node_at ds (root s) = Some m → is_dir m →
  let s' := {| root := modify_at ds (del_child k) (root s); fs_host := fs_host s |} in
  fs_ok s' ∧ ∀ q, view (root s') q = cut (ds ++ [k]) (view (root s)) q.
Proof.
  intros Hs Hm Hd s'. destruct (wf_del_at ds k (root s) m) as [Hw Hh]; [apply Hs|done..|].
  split; [by eapply fs_ok_head|]. intros q. apply (view_del_at ds k (root s) m); [done|].
  eapply wf_node_at; [|done]. apply Hs.
Qed.

(** Views that look the same are the same to [graft] and [cut]. *)
Lemma graft_ext p w w' v v' q :
  (∀ r, w r = w' r) → (∀ r, v r = v' r) → graft p w v q = graft p w' v' q.
Proof. intros Hw Hv. unfold graft. by destruct (below p q). Qed.

(** Replace the content of the file at [p]. *)
Lemma set_content_ok s p n b t h :
  fs_ok s → node_at p (root s) = Some n → ¬ is_dir n →
  let s' := {| root := modify_at p (set_content b t) (root s); fs_host := h |} in
  fs_ok s' ∧ ∀ q, view (root s') q = graft p (single (AFile b)) (view (root s)) q.
Proof.
  intros Hs Hn Hdir s'. assert (Hwn : wf n) by (eapply wf_node_at; [apply Hs|done]).
  destruct (wf_modify p (set_content b t) (root s) n) as (Hw & Hname & Htype);
    [apply Hs|done|by apply wf_set_content|done..|].
  split; [by eapply fs_ok_head|]. intros q. subst s'. cbn [root]. rewrite (view_modify _ _ _ n) by done.
  unfold graft. destruct (below p q) as [[|k r]|]; [| |done].
  - rewrite view_nil. by rewrite (proj2 (kind_file (set_content b t n))).
  - rewrite view_cons. by rewrite (wf_file_leaf _ _ (wf_set_content b t n Hwn Hdir)).
Qed.

(** Making the parents of a path changes nothing at the path. *)
Lemma mkdirs_at p v : p ≠ [] → mkdirs (dirs_of p) v p = v p.
Proof.
  intros Hp. unfold mkdirs. destruct (v p); [done|]. rewrite bool_decide_eq_false_2; [done|].
  rewrite (parts_snoc Hp) at 1. intros Hpre%prefix_length. rewrite length_app in Hpre. simpl in Hpre. lia.
Qed.

(** ** One lemma per operation *)

Lemma write_file_allowed p c s : fs_ok s → allowed (OWrite p c) s (write_file p c s).
Proof.
  intros Hs. unfold write_file. rewrite path_parts_empty. case_bool_decide as Hp.
  { apply allowed_same; [done|by constructor]. }
  rewrite path_parts_of by done.
  destruct (ensure_parents_spec (dirs_of (path_parts p)) p s) as (s1 & Hs1 & H1); [done|apply good_dirs, path_parts_good|].
  rewrite py_bind_eq. destruct (blocked _ _) eqn:Hb.
  { destruct H1 as [-> Hv]. split; [done|]. exists (view (root s)). split; [by constructor|done]. }
  destruct H1 as (-> & Hv & m & Hm & Hd). rewrite py_bind_eq.
  assert (Hraw : raw_bytes c s1 = match raw_of c with Some b => (inr b, s1) | None => (inl UnicodeEncodeError, s1) end)
    by (destruct c as [t|b]; simpl; [by destruct (encode t)|done]).
  rewrite Hraw. destruct (raw_of c) as [b|] eqn:Hc.
  2:{ split; [done|]. eexists. split; [by apply write_surrogate|done]. }
  rewrite py_bind_eq. unfold now. destruct (now_iso (fs_host s1)) as [t h1].
  rewrite py_bind_eq. unfold gets. cbn [fs_host root]. rewrite <- (parts_snoc Hp).
  assert (Hview : kind_of <$> node_at (path_parts p) (root s1) = view (root s) (path_parts p)).
  { change (view (root s1) (path_parts p) = view (root s) (path_parts p)). by rewrite Hv, mkdirs_at. }
  set (sm := {| root := root s1; fs_host := h1 |}).
  assert (Hsm : fs_ok sm) by (by eapply fs_ok_head; [exact Hs1|apply Hs1|done]).
  destruct (node_at (path_parts p) (root s1)) as [n|] eqn:Hn; simpl in Hview.
  - case_bool_decide as Hdir.
    + split; [done|]. eexists. split; [|done]. apply write_dir; [done..|by rewrite Hc|]. by rewrite <- Hview, kind_dir.
    + unfold change_root, modify.
      destruct (set_content_ok sm (path_parts p) n b t h1) as [Hok Hv']; [done..|].
      split; [done|]. eexists. split.
      * apply write_ok; [done..|]. rewrite <- Hview. apply kind_file in Hdir as ->. done.
      * intros q. cbn [snd]. rewrite Hv'. by apply graft_ext.
  - unfold change_root, modify.
    destruct (put_ok sm (dirs_of (path_parts p)) (last_of (path_parts p))
      (FileNode (last_of (path_parts p)) "file" b [] t t (Z.of_nat (length b)) (permissions_of "file")) m h1)
      as [Hok Hv']; [done..|apply wf_file|done|apply good_last; [done|apply path_parts_good]|].
    split; [done|]. eexists. split; [apply write_ok; [done..|by rewrite <- Hview]|].
    intros q. cbn [snd]. rewrite Hv', <- (parts_snoc Hp). apply graft_ext; [|done].
    intros [|k r]; [|done]. done.
Qed.

Lemma view_prefix n p q : view n (p ++ q) ≠ None → is_Some (view n p).
Proof.
  intros Hne. apply view_some. destruct (node_at p n) as [m|] eqn:Hm; [done|].
  exfalso. apply Hne. unfold view. by rewrite node_at_app, Hm.
Qed.

(** The node at a path that is below another is under a directory. *)
Lemma node_at_snoc n p k : wf n → node_at (p ++ [k]) n = node_at p n ≫= child k.
Proof. intros Hn. rewrite node_at_app. destruct (node_at p n) as [m|]; [|done]. simpl. by destruct (child k m). Qed.

Lemma parent_at n p m : wf n → p ≠ [] → node_at p n = Some m →
  ∃ d, node_at (dirs_of p) n = Some d ∧ is_dir d ∧ child (last_of p) d = Some m.
Proof.
  intros Hn Hp. rewrite (parts_snoc Hp) at 1. rewrite node_at_snoc by done.
  destruct (node_at (dirs_of p) n) as [d|] eqn:Hd; [|done]. simpl. intros Hc.
  assert (Hw : wf d) by (by eapply wf_node_at). exists d. split_and!; [done| |done].
  by apply (wf_child _ _ _ Hw) in Hc as (_ & _ & _ & ?).
Qed.

Lemma mkdir_allowed p rec s : fs_ok s → allowed (OMkdir p rec) s (mkdir p rec s).
Proof.
  intros Hs. pose proof (path_parts_good p) as Hgood. unfold mkdir. rewrite path_parts_empty. case_bool_decide as Hp.
  { split; [done|]. exists (view (root s)). split; [by constructor|done]. }
  rewrite path_parts_of by done. destruct rec.
  { destruct (ensure_parents_spec (path_parts p) p s) as (s1 & Hs1 & H1); [done..|].
    destruct (blocked _ _) eqn:Hb; [destruct H1 as [-> Hv]|destruct H1 as (-> & Hv & _)]; (split; [done|]);
      eexists; (split; [|exact Hv]); by constructor. }
  rewrite py_bind_eq. unfold _ensure_parents at 1. rewrite ensure_walk by apply Hs.
  destruct s as [r h]. cbn [root fs_host] in *.
  destruct (blocked _ _) eqn:Hb; [by apply allowed_same; [|constructor]|].
  destruct (view r (dirs_of (path_parts p))) as [e|] eqn:Hdirs; [|by apply allowed_same; [|constructor]].
  assert (Hdir : view r (dirs_of (path_parts p)) = Some ADir).
  { destruct e as [b|]; [|done]. destruct (decide (dirs_of (path_parts p) = [])) as [Hn|Hn].
    - rewrite Hn. exact (fs_ok_view_nil _ Hs).
    - exfalso. by apply (blocked_end _ _ b Hb Hn). }
  cbn iota. rewrite py_bind_eq. unfold gets. cbn [root]. rewrite <- (parts_snoc Hp).
  destruct (node_at (path_parts p) r) as [n|] eqn:Hn.
  - assert (Hv : view r (path_parts p) = Some (kind_of n)) by (unfold view; by rewrite Hn).
    case_bool_decide as Hnd; cbn [negb].
    + split; [done|]. exists (view r). split; [|done]. apply mkdir_there; [done..|by cbn [root]; rewrite Hdir|]. by rewrite Hv, kind_dir.
    + apply allowed_same; [done|]. apply kind_file in Hnd. eapply mkdir_file; [done..|by cbn [root]; rewrite Hdir|]. cbn [root]. by rewrite Hv, Hnd.
  - apply view_dir in Hdir as Hm. destruct Hm as (m & Hm & Hmd).
    pose proof (wf_fresh (last_of (path_parts p)) h) as (Hfw & Hfn & Hfd & Hfv). cbn [fs_host].
    destruct (fresh_dir (last_of (path_parts p)) h) as [d h1]. simpl in Hfw, Hfn, Hfd, Hfv.
    destruct (put_ok {| root := r; fs_host := h |} _ _ d m h1 Hs Hm Hmd Hfw Hfn) as [Hok Hv];
      [by apply good_last|]. split; [done|]. eexists. split.
    + apply mkdir_new; [done..|]. cbn [root]. unfold view. by rewrite Hn.
    + intros q. cbn [snd]. rewrite Hv, <- (parts_snoc Hp). by apply graft_ext.
Qed.

Lemma has_children_spec n p m : node_at p n = Some m → wf m → has_children (view n) p ↔ n_children m ≠ [].
Proof.
  intros Hm Hw. unfold has_children. setoid_rewrite (view_app _ _ _ _ Hm). split.
  - intros [k Hk] Hnil. rewrite view_cons in Hk. unfold child in Hk. rewrite Hnil in Hk. by destruct Hk.
  - destruct (n_children m) as [|[k c] l] eqn:Hl; [done|]. intros _. exists k. rewrite view_cons. unfold child.
    rewrite Hl. simpl. by rewrite decide_True.
Qed.

Lemma remove_allowed p rec s : fs_ok s → allowed (ORemove p rec) s (remove p rec s).
Proof.
  intros Hs. pose proof Hs as (Hw & _). unfold remove. rewrite path_parts_empty. case_bool_decide as Hp.
  { apply allowed_same; [done|by constructor]. }
  rewrite path_parts_of by done. rewrite py_bind_eq, resolve_dirs by (done || apply good_dirs, path_parts_good).
  assert (Hget : match node_at (dirs_of (path_parts p)) (root s) with
                 | Some d => child (last_of (path_parts p)) d | None => None end = node_at (path_parts p) (root s))
    by (symmetry; rewrite (parts_snoc Hp) at 1; rewrite node_at_snoc by done; by destruct (node_at (dirs_of _) _)).
  rewrite Hget. destruct (node_at (path_parts p) (root s)) as [m|] eqn:Hm.
  2:{ apply allowed_same; [done|]. apply remove_missing; [done|]. unfold view. by rewrite Hm. }
  assert (Hwm : wf m) by (by eapply wf_node_at).
  destruct (parent_at _ _ _ Hw Hp Hm) as (d & Hd & Hdd & _).
  assert (Hv : view (root s) (path_parts p) = Some (kind_of m)) by (unfold view; by rewrite Hm).
  pose proof (has_children_spec _ _ _ Hm Hwm) as Hch.
  match goal with |- allowed _ _ ((if ?b then _ else _) _) => destruct b eqn:Hfull end.
  - apply andb_true_iff in Hfull as [[Hf1%bool_decide_eq_true Hf2%negb_true_iff]%andb_true_iff Hf3%negb_true_iff].
    apply bool_decide_eq_false in Hf2. subst rec. apply allowed_same; [done|].
    apply remove_full; [done|by rewrite Hv, kind_dir|by apply Hch].
  - destruct (del_ok s _ (last_of (path_parts p)) d Hs Hd Hdd) as [Hok Hview]. split; [done|]. eexists. split.
    + apply remove_ok; [done|by rewrite Hv|]. intros -> Hc. apply Hch in Hc.
      destruct (wf_kind m Hwm) as [[_ Hmd]|(_ & _ & Hnil)]; [|done].
      rewrite bool_decide_eq_true_2, bool_decide_eq_false_2 in Hfull by done. done.
    + intros q. etrans; [apply Hview|]. by rewrite <- (parts_snoc Hp).
Qed.

(** The common part of [copy] and [move], after the checks. *)
Lemma put_copy_spec src d s s1 m :
  fs_ok s1 → path_parts d ≠ [] → is_Some (view (root s) (path_parts src)) →
  (∀ q, view (root s1) q = mkdirs (dirs_of (path_parts d)) (view (root s)) q) →
  node_at (dirs_of (path_parts d)) (root s1) = Some m → is_dir m →
  ∃ s2, put_copy (path_parts src) (dirs_of (path_parts d)) (last_of (path_parts d)) s1 = (inr tt, s2) ∧
    fs_ok s2 ∧ ∀ q, view (root s2) q = copied (path_parts src) (path_parts d) (view (root s)) q.
Proof.
  intros Hs1 Hd Hsrc Hv Hm Hmd. unfold put_copy.
  assert (is_Some (node_at (path_parts src) (root s1))) as [n Hn].
  { apply view_some. rewrite Hv, mkdirs_some; done. }
  rewrite Hn. assert (Hw : wf n) by (eapply wf_node_at; [apply Hs1|done]).
  destruct (deep_copy_spec n Hw (last_of (path_parts d)) (fs_host s1)) as (Hcw & Hcn & Hcv).
  destruct (_deep_copy n (last_of (path_parts d)) (fs_host s1)) as [c h]. simpl in Hcw, Hcn, Hcv.
  destruct (put_ok s1 _ (last_of (path_parts d)) c m h Hs1 Hm Hmd Hcw Hcn) as [Hok Hview];
    [apply good_last; [done|apply path_parts_good]|].
  eexists. split_and!; [done..|]. intros q. rewrite Hview, <- (parts_snoc Hd). apply graft_ext; [|done].
  intros r. rewrite Hcv, <- (view_app _ _ _ r Hn). apply Hv.
Qed.

Lemma copy_allowed src d s : fs_ok s → allowed (OCopy src d) s (copy src d s).
Proof.
  intros Hs. unfold copy. rewrite py_bind_eq, resolve_ok by done. fold (path_parts src).
  destruct (node_at (path_parts src) (root s)) as [n|] eqn:Hn.
  2:{ apply allowed_same; [done|]. constructor. unfold view. by rewrite Hn. }
  assert (Hsrc : is_Some (view (root s) (path_parts src))) by (apply view_some; by rewrite Hn).
  rewrite path_parts_empty. case_bool_decide as Hd.
  { apply allowed_same; [done|by constructor]. }
  rewrite path_parts_of by done. rewrite py_bind_eq.
  destruct (ensure_parents_spec (dirs_of (path_parts d)) d s) as (s1 & Hs1 & H1); [done|apply good_dirs, path_parts_good|].
  destruct (blocked _ _) eqn:Hb.
  { destruct H1 as [-> Hv]. split; [done|]. exists (view (root s)). split; [by constructor|done]. }
  destruct H1 as (-> & Hv & m & Hm & Hmd).
  destruct (put_copy_spec src d s s1 m) as (s2 & -> & Hok & Hv2); [done..|].
  split; [done|]. eexists. split; [by apply copy_ok|done].
Qed.

(** The removal of the source at the end of [move]. *)
Lemma move_end_spec src d s s2 :
  fs_ok s2 → path_parts src ≠ [] → is_Some (view (root s) (path_parts src)) → path_parts d ≠ [] →
  blocked (view (root s)) (dirs_of (path_parts d)) = false →
  (∀ q, view (root s2) q = copied (path_parts src) (path_parts d) (view (root s)) q) →
  allowed (OMove src d) s
    ((src_parent ← _resolve (join "/" (dirs_of (path_parts src)));
      match src_parent with
      | None => mret tt
      | Some p =>
          match child (last_of (path_parts src)) p with
          | None => raise (KeyError (last_of (path_parts src)))
          | Some _ => change_root (modify_at (dirs_of (path_parts src)) (del_child (last_of (path_parts src))))
          end
      end) s2).
Proof.
  intros Hs2 Hp Hsrc Hd Hb Hv. pose proof Hs2 as (Hw & _).
  rewrite py_bind_eq, resolve_dirs by (done || apply good_dirs, path_parts_good).
  set (w := copied _ _ _) in *.
  destruct (node_at (dirs_of (path_parts src)) (root s2)) as [p|] eqn:Hpar.
  2:{ split; [done|]. exists w. split; [|done]. eapply move_parent_gone; [done..|].
      rewrite <- Hv. unfold view. by rewrite Hpar. }
  assert (Hat : node_at (path_parts src) (root s2) = child (last_of (path_parts src)) p).
  { rewrite (parts_snoc Hp) at 1. rewrite node_at_snoc by done. by rewrite Hpar. }
  destruct (child (last_of (path_parts src)) p) as [c|] eqn:Hc.
  - assert (Hpd : is_dir p).
    { assert (wf p) as Hwp by (by eapply wf_node_at). by apply (wf_child _ _ _ Hwp) in Hc as (_ & _ & _ & ?). }
    destruct (del_ok s2 _ (last_of (path_parts src)) p Hs2 Hpar Hpd) as [Hok Hview].
    split; [done|]. exists (cut (path_parts src) w). split.
    + apply move_ok; [done..| |]; rewrite <- Hv; apply view_some; [by rewrite Hpar|by rewrite Hat].
    + intros q. etrans; [apply Hview|]. rewrite <- (parts_snoc Hp). by apply graft_ext.
  - split; [done|]. exists w. split; [|done]. eapply move_source_gone; [done..| |].
    + rewrite <- Hv. apply view_some. by rewrite Hpar.
    + rewrite <- Hv. unfold view. by rewrite Hat.
Qed.

Lemma move_allowed src d s : fs_ok s → allowed (OMove src d) s (move src d s).
Proof.
  intros Hs. unfold move. rewrite !path_parts_empty. case_bool_decide as Hp.
  { apply allowed_same; [done|by constructor]. }
  rewrite py_bind_eq, resolve_ok by done. fold (path_parts src).
  destruct (node_at (path_parts src) (root s)) as [n|] eqn:Hn.
  2:{ apply allowed_same; [done|]. constructor; [done|]. unfold view. by rewrite Hn. }
  assert (Hsrc : is_Some (view (root s) (path_parts src))) by (apply view_some; by rewrite Hn).
  case_bool_decide as Hd.
  { apply allowed_same; [done|by constructor]. }
  rewrite !path_parts_of by done. rewrite py_bind_eq.
  destruct (ensure_parents_spec (dirs_of (path_parts d)) d s) as (s1 & Hs1 & H1); [done|apply good_dirs, path_parts_good|].
  destruct (blocked _ _) eqn:Hb.
  { destruct H1 as [-> Hv]. split; [done|]. exists (view (root s)). split; [by constructor|done]. }
  destruct H1 as (-> & Hv & m & Hm & Hmd).
  destruct (put_copy_spec src d s s1 m) as (s2 & Hput & Hok & Hv2); [done..|].
  rewrite py_bind_eq, Hput. by apply move_end_spec.
Qed.

Lemma run_op_allowed o s : fs_ok s → allowed o s (run_op o s).
Proof.
  destruct o; intros Hs; [by apply write_file_allowed|by apply mkdir_allowed|by apply remove_allowed
    |by apply copy_allowed|by apply move_allowed].
Qed.

Lemma new_fs_ok (h : Host) : fs_ok (new_fs h) ∧ ∀ q, view (root (new_fs h)) q = single ADir q.
Proof.
  unfold new_fs. pose proof (wf_fresh "" h) as (Hw & Hn & Hd & Hv). by destruct (fresh_dir "" h).
Qed.

(** A sequence of operations, whatever they raise. *)
Definition run_all (ops : list fs_op) s : FS Host := foldl (λ s o, (run_op o s).2) s ops.

Lemma run_all_ok ops s : fs_ok s → fs_ok (run_all ops s).
Proof.
  revert s. induction ops as [|o ops IH]; intros s Hs; [done|]. apply IH. by apply run_op_allowed.
Qed.
End Refine.

(** * The in-memory file storage: theorems *)

Section Theorems.
Context {Host : Type} `{E : FsEnv Host}.
Implicit Types s : FS Host.

(** C32: whatever sequence of operations a new storage went through, whether
    they raised or not, its tree is well formed: names are the keys they are
    found under and are neither empty, [.], [..] nor have a slash, no key occurs
    twice, only directories have children, and sizes are the sizes of the
    contents. *)
Theorem storage_well_formed (h : Host) (ops : list fs_op) :
  wf (root (run_all ops (new_fs h))) ∧ is_dir (root (run_all ops (new_fs h))) ∧
  n_name (root (run_all ops (new_fs h))) = "".
Proof. apply run_all_ok, new_fs_ok. Qed.

(** C33: on a well-formed tree every operation raises and leaves what its
    specification says. *)
Theorem storage_refines_spec (o : fs_op) s :
  fs_ok s →
  ∃ w, fs_spec (view (root s)) o (raised (run_op o s).1) w ∧ ∀ q, view (root (run_op o s).2) q = w q.
Proof. intros Hs. by destruct (run_op_allowed o s Hs). Qed.

(** Two conditions of the specification that exclude each other. *)
Ltac clash :=
  exfalso;
  match goal with
  | H : is_Some ?x, H' : ?x = None |- _ => rewrite H' in H; destruct H; discriminate
  | H : ?x = ?y, H' : ?x ≠ ?y |- _ => exact (H' H)
  | H : ?x = ?y, H' : ?x = ?z |- _ => rewrite H in H'; discriminate H'
  | H : has_children _ _, H' : _ → ¬ has_children _ _ |- _ => exact (H' eq_refl H)
  end.

(** The specification leaves no choice. *)
Lemma fs_spec_det v o e w e' w' : fs_spec v o e w → fs_spec v o e' w' → e = e' ∧ w = w'.
Proof.
  intros H H'. destruct H; inversion H'; subst; clear H'; try (split; congruence); clash.
Qed.

(** What reading sees of the tree. *)
Lemma read_file_view p s :
  fs_ok s →
  read_file p s =
  (match view (root s) (path_parts p) with
   | None => inl (FileStorageNotFoundError p)
   | Some ADir => inl (FileStorageIsADirectoryError p)
   | Some (AFile b) => inr (decode b)
   end, s).
Proof.
  intros Hs. unfold read_file. rewrite py_bind_eq, resolve_ok by done. unfold view.
  destruct (node_at _ _) as [n|]; simpl; [|done]. case_bool_decide as Hd.
  - by rewrite kind_dir.
  - by apply kind_file in Hd as ->.
Qed.

Lemma read_ok p s x :
  fs_ok s → (read_file p s).1 = inr x ↔ ∃ b, view (root s) (path_parts p) = Some (AFile b) ∧ x = decode b.
Proof. intros Hs. rewrite read_file_view by done. destruct (view _ _) as [[b|]|]; naive_solver. Qed.

Lemma write_ok_view p c s s' :
  fs_ok s → write_file p c s = (inr tt, s') →
  fs_ok s' ∧ ∃ b, raw_of c = Some b ∧ view (root s) (path_parts p) ≠ Some ADir ∧
    ∀ q, view (root s') q =
         graft (path_parts p) (single (AFile b)) (mkdirs (dirs_of (path_parts p)) (view (root s))) q.
Proof.
  intros Hs Hw. destruct (write_file_allowed p c s Hs) as [Hok (w & Hspec & Hv)]. rewrite Hw in *.
  split; [done|]. inversion Hspec; subst. eauto.
Qed.

Lemma graft_at p w v : graft p w v p = w [].
Proof. unfold graft. rewrite <- (app_nil_r p) at 2. by rewrite below_app. Qed.

(** Nothing is below what is not a directory. *)
Lemma view_leaf n p k r : wf n → view n p ≠ Some ADir → view n (p ++ k :: r) = None.
Proof.
  intros Hn Hp. unfold view. rewrite node_at_app. destruct (node_at p n) as [m|] eqn:Hm; [|done]. simpl.
  assert (Hw : wf m) by (by eapply wf_node_at). rewrite (wf_file_leaf m k Hw); [done|].
  intros Hd. apply Hp. apply view_dir. eauto.
Qed.

(** Writing the file at [p] changes no file at another path. *)
Lemma write_frame n p b q (x : bytes) :
  wf n → view n p ≠ Some ADir → q ≠ p →
  graft p (single (AFile b)) (mkdirs (dirs_of p) (view n)) q = Some (AFile x) ↔ view n q = Some (AFile x).
Proof.
  intros Hn Hp Hqp. unfold graft. destruct (below p q) as [[|k r]|] eqn:Hb.
  - apply below_spec in Hb. by rewrite app_nil_r in Hb.
  - apply below_spec in Hb as ->. by rewrite view_leaf.
  - unfold mkdirs. destruct (view n q); [done|]. by case_bool_decide.
Qed.

(** A text that was written is read back unchanged, and reading any other
    path gives the same text before and after. *)
Theorem write_read (p : string) (t : text) s s' :
  fs_ok s → Forall code_point t → write_file p (Text t) s = (inr tt, s') →
  (∀ p', path_parts p' = path_parts p → (read_file p' s').1 = inr t) ∧
  (∀ p' x, path_parts p' ≠ path_parts p → (read_file p' s').1 = inr x ↔ (read_file p' s).1 = inr x).
Proof.
  intros Hs Ht Hw. destruct (write_ok_view _ _ _ _ Hs Hw) as (Hs' & b & Hb & Hnd & Hv). split.
  - intros p' Hp'. apply read_ok; [done|]. exists b. rewrite Hp', Hv, graft_at. split; [done|].
    symmetry. by apply decode_encode.
  - intros p' x Hp'. rewrite !read_ok by done. setoid_rewrite Hv. apply exist_proper. intros y.
    rewrite write_frame; [done|apply Hs|done..].
Qed.

Lemma below_apart p q r : below p q = None → below q p = None → below p (q ++ r) = None.
Proof.
  revert q. induction p as [|k p IH]; intros q; [done|]. destruct q as [|k' q]; [done|]. simpl.
  case_decide; [subst; rewrite decide_True by done; apply IH|done].
Qed.

(** The parents of an existing path are directories. *)
Lemma not_blocked n p : wf n → is_Some (view n p) → blocked (view n) (dirs_of p) = false.
Proof.
  revert n. induction p as [|k p IH]; intros n Hn Hp; [done|]. destruct p as [|k' p]; [done|].
  change (dirs_of (k :: k' :: p)) with (k :: dirs_of (k' :: p)). cbn [blocked].
  rewrite view_cons in Hp. rewrite view_cons. destruct (child k n) as [c|] eqn:Hc; [|by destruct Hp].
  apply wf_child in Hc as Hw; [|done]. destruct Hw as [Hw _].
  assert (Hcd : is_dir c).
  { rewrite view_cons in Hp. destruct (child k' c) eqn:Hc'; [|by destruct Hp].
    by apply (wf_child k') in Hc' as (_ & _ & _ & ?). }
  rewrite view_nil, kind_dir by done.
  rewrite (blocked_ext _ (view c)) by (intros; by apply view_under_child). by apply IH.
Qed.

(** The prefixes of an existing path exist. *)
Lemma view_dirs n p : wf n → p ≠ [] → is_Some (view n p) → view n (dirs_of p) = Some ADir.
Proof.
  intros Hn Hp Hs. apply view_some in Hs as [m Hm]. apply view_dir.
  destruct (parent_at _ _ _ Hn Hp Hm) as (d & Hd & Hdd & _). eauto.
Qed.

(** [p] and [q] are not one below the other. *)
Definition apart (p q : list string) : Prop := below p q = None ∧ below q p = None.

(** Moving what exists to a place that is neither below it nor above it,
    with no file on the way, succeeds; what was at the source is then at the
    destination, nothing is left at the source, and every other path that held
    something still holds it. *)
Theorem move_moves (src d : string) s :
  fs_ok s → is_Some (view (root s) (path_parts src)) → path_parts src ≠ [] → path_parts d ≠ [] →
  apart (path_parts src) (path_parts d) → blocked (view (root s)) (dirs_of (path_parts d)) = false →
  ∃ s', move src d s = (inr tt, s') ∧
    (∀ r, view (root s') (path_parts d ++ r) = view (root s) (path_parts src ++ r)) ∧
    (∀ r, view (root s') (path_parts src ++ r) = None) ∧
    (∀ q e, below (path_parts src) q = None → below (path_parts d) q = None →
       view (root s) q = Some e → view (root s') q = Some e).
Proof.
  intros Hs Hsrc Hp Hd [Hsd Hds] Hb. pose proof Hs as (Hw & _).
  assert (Hws : ∀ q, below (path_parts d) q = None → is_Some (view (root s) q) →
    copied (path_parts src) (path_parts d) (view (root s)) q = view (root s) q).
  { intros q Hq Hv. unfold copied, graft. by rewrite Hq, mkdirs_some. }
  assert (Hdirs : below (path_parts d) (dirs_of (path_parts src)) = None).
  { destruct (below _ (dirs_of _)) as [r|] eqn:Hr; [|done]. apply below_spec in Hr.
    rewrite (parts_snoc Hp), Hr, <- app_assoc, below_app in Hds. done. }
  destruct (move_allowed src d s Hs) as [Hok (w & Hspec & Hview)].
  destruct (fs_spec_det _ _ _ _ None (cut (path_parts src) (copied (path_parts src) (path_parts d) (view (root s)))) Hspec)
    as [He ->]; [apply move_ok; rewrite ?Hws; rewrite ?view_dirs; eauto|].
  destruct (move src d s) as [[e|[]] s'] eqn:Hm; [done|]. exists s'. split; [done|]. simpl in Hview.
  split_and!.
  - intros r. rewrite Hview. unfold cut at 1, graft at 1. rewrite below_apart by done.
    unfold copied, graft. rewrite below_app. unfold under, mkdirs.
    destruct (view (root s) (path_parts src ++ r)); [done|]. rewrite bool_decide_eq_false_2; [done|].
    intros [r' Hr']. rewrite (parts_snoc Hd), Hr', <- !app_assoc, below_app in Hsd. done.
  - intros r. rewrite Hview. unfold cut, graft at 1. by rewrite below_app.
  - intros q e Hq1 Hq2 Hq. rewrite Hview. unfold cut, graft at 1. rewrite Hq1, Hws; [done|done|by rewrite Hq].
Qed.

(** Moving a file or directory onto itself, or below itself, succeeds and
    loses it: nothing is left at the source or below, the destination included. *)
Theorem move_into_itself_loses (src d : string) (r : list string) s :
  fs_ok s → is_Some (view (root s) (path_parts src)) → path_parts src ≠ [] →
  path_parts d = path_parts src ++ r → blocked (view (root s)) (dirs_of (path_parts d)) = false →
  ∃ s', move src d s = (inr tt, s') ∧ ∀ q, view (root s') (path_parts src ++ q) = None.
Proof.
  intros Hs Hsrc Hp Hd Hb. pose proof Hs as (Hw & _).
  assert (Hup : ∀ q, (length q < length (path_parts src))%nat → below (path_parts d) q = None).
  { intros q Hq. destruct (below _ q) as [r'|] eqn:Hr; [|done]. apply below_spec in Hr.
    rewrite Hr, Hd, !length_app in Hq. lia. }
  assert (Hlen : (length (dirs_of (path_parts src)) < length (path_parts src))%nat).
  { rewrite (parts_snoc Hp) at 2. rewrite length_app. simpl. lia. }
  destruct (move_allowed src d s Hs) as [Hok (w & Hspec & Hview)].
  destruct (fs_spec_det _ _ _ _ None (cut (path_parts src) (copied (path_parts src) (path_parts d) (view (root s)))) Hspec)
    as [He ->].
  { apply move_ok; [done..|rewrite Hd; by destruct (path_parts src)|done|done| |].
    - unfold copied, graft. rewrite Hup by done. rewrite mkdirs_some by (rewrite view_dirs; eauto).
      by rewrite view_dirs.
    - unfold copied, graft. destruct (below (path_parts d) (path_parts src)) as [r'|] eqn:Hr.
      + apply below_spec in Hr. rewrite Hd, <- app_assoc in Hr. rewrite <- (app_nil_r (path_parts src)) in Hr at 1.
        apply (inj (app (path_parts src))) in Hr. symmetry in Hr. apply app_nil in Hr as [-> ->].
        unfold under. rewrite app_nil_r. by rewrite mkdirs_some.
      + by rewrite mkdirs_some. }
  destruct (move src d s) as [[e|[]] s'] eqn:Hm; [done|]. exists s'. split; [done|].
  intros q. cbn [snd] in Hview. rewrite Hview. unfold cut, graft at 1. by rewrite below_app.
Qed.
End Theorems.

(** * A small in-memory file storage *)

(** A host whose clock counts. *)
#[local] Instance counting_clock : FsEnv nat := { now_iso n := (pretty n, S n) }.

Definition run_on : list fs_op → FS nat := λ ops, run_all ops (new_fs 0%nat).

(** A directory with a file and an empty directory. *)
Definition demo : FS nat := Eval vm_compute in
  run_on [OWrite "/docs/a.txt" (Text [104; 233]); OMkdir "empty" false].

Lemma demo_ok : fs_ok demo.
Proof. exact (run_all_ok [OWrite "/docs/a.txt" (Text [104; 233]); OMkdir "empty" false] (new_fs 0%nat)
  (proj1 (new_fs_ok 0%nat))). Qed.

Example demo_view :
  view (root demo) ["docs"; "a.txt"] = Some (AFile [104; 195; 169]) ∧
  (read_file "docs/./x/../a.txt" demo).1 = inr [104; 233] ∧
  match (list_dir "" demo).1 with inr l => map e_name l | inl _ => [] end = ["docs"; "empty"] ∧
  raised (remove "docs" false demo).1 = Some (FileStorageNotADirectoryError "docs") ∧
  raised (write_file "docs/a.txt/b" (Bytes []) demo).1 = Some (FileStorageNotADirectoryError "docs/a.txt/b").
Proof. vm_compute. done. Qed.

(** Moving a file over a directory above it raises [KeyError], after the
    directory was replaced. *)
Example move_above_raises :
  raised (move "docs/a.txt" "docs" demo).1 = Some (KeyError "a.txt") ∧
  view (root (move "docs/a.txt" "docs" demo).2) ["docs"] = Some (AFile [104; 195; 169]) ∧
  view (root (move "docs/a.txt" "docs" demo).2) ["docs"; "a.txt"] = None.
Proof. vm_compute. done. Qed.

(** The permission error the code means to raise for the root is not imported. *)
Example root_is_not_removable :
  raised (remove "/" true demo).1 = Some (NameError "FileStoragePermissionError") ∧
  raised (move "/" "x" demo).1 = Some (NameError "FileStoragePermissionError").
Proof. vm_compute. done. Qed.

Lemma storage_refines_spec_witness :
  fs_ok demo ∧
  ∃ w, fs_spec (view (root demo)) (OCopy "docs" "empty/more") (raised (run_op (OCopy "docs" "empty/more") demo).1) w ∧
    ∀ q, view (root (run_op (OCopy "docs" "empty/more") demo).2) q = w q.
Proof. split; [apply demo_ok|]. apply storage_refines_spec, demo_ok. Defined.

Definition demo' : FS nat := Eval vm_compute in (write_file "docs/b.txt" (Text [98; 8364]) demo).2.

Lemma write_read_witness :
  (∀ p', path_parts p' = path_parts "docs/b.txt" → (read_file p' demo').1 = inr [98; 8364]) ∧
  (∀ p' x, path_parts p' ≠ path_parts "docs/b.txt" → (read_file p' demo').1 = inr x ↔ (read_file p' demo).1 = inr x).
Proof.
  apply (write_read "docs/b.txt" [98; 8364] demo demo'); [apply demo_ok| |vm_compute; reflexivity].
  repeat (apply Forall_cons; split; [unfold code_point; lia|]). apply Forall_nil_2.
Defined.

Lemma move_moves_witness :
  ∃ s', move "docs" "empty/deep/docs" demo = (inr tt, s') ∧
    (∀ r, view (root s') (path_parts "empty/deep/docs" ++ r) = view (root demo) (path_parts "docs" ++ r)) ∧
    (∀ r, view (root s') (path_parts "docs" ++ r) = None) ∧
    (∀ q e, below (path_parts "docs") q = None → below (path_parts "empty/deep/docs") q = None →
       view (root demo) q = Some e → view (root s') q = Some e).
Proof.
  apply move_moves; [apply demo_ok|vm_compute; eauto|vm_compute; discriminate|vm_compute; discriminate
    |vm_compute; split; reflexivity|vm_compute; reflexivity].
Defined.

Lemma move_into_itself_loses_witness :
  ∃ s', move "docs" "docs/old" demo = (inr tt, s') ∧ ∀ q, view (root s') (path_parts "docs" ++ q) = None.
Proof.
  apply (move_into_itself_loses "docs" "docs/old" ["old"]); [apply demo_ok|vm_compute; eauto
    |vm_compute; discriminate|vm_compute; reflexivity|vm_compute; reflexivity].
Defined.
