(* ===== verification/FileStorage.v ===== *)
(** * Storage providers ([fs/i_file_storage_provider.py],
    [core/filesystem/event_publishing_provider.py])

    The interface of a provider with its law, the in-memory storage as an
    instance, and the wrapper that publishes [fs:changed], an instance again. *)

From S2P Require Import Prelude PyStr Values Commands Events Utf8 FileTree FileRefine.

(** ** The interface *)

Class IFileStorageProvider (S : Type) := {
  fs_list : string → py S fexn (list FileEntry);
  fs_read_file : string → py S fexn text;
  fs_write_file : string → content → py S fexn unit;
  fs_stat : string → py S fexn FileStat;
  fs_mkdir : string → bool → py S fexn unit;
  fs_remove : string → bool → py S fexn unit;
  fs_copy : string → string → py S fexn unit;
  fs_move : string → string → py S fexn unit;
  fs_exists : string → py S fexn bool;
  fs_get_download_stream : string → py S fexn bytes;
  fs_upload_file : string → bytes → py S fexn unit;
}.

(** A method that only reads. *)
Definition reader {S E A} (m : py S E A) : Prop := ∀ s, (m s).2 = s.

Class ProviderLaws (S : Type) `{IFileStorageProvider S} := {
  list_reads p : reader (fs_list p);
  read_file_reads p : reader (fs_read_file p);
  stat_reads p : reader (fs_stat p);
  exists_reads p : reader (fs_exists p);
  download_reads p : reader (fs_get_download_stream p);
}.

(** ** The in-memory storage *)

Section InMemory.
Context {Host : Type} `{E : FsEnv Host}.

#[export] Instance InMemoryFileStorageProvider : IFileStorageProvider (FS Host) := {
  fs_list := list_dir; fs_read_file := read_file; fs_write_file := write_file; fs_stat := stat;
  fs_mkdir := mkdir; fs_remove := remove; fs_copy := copy; fs_move := move; fs_exists := exists_path;
  fs_get_download_stream := get_download_stream; fs_upload_file := upload_file;
}.

Lemma reader_resolve {A} norm (k : option _FileNode → py (FS Host) fexn A) :
  (∀ o, reader (k o)) → reader (node ← _resolve norm; k node).
Proof. intros Hk s. rewrite py_bind_eq. apply Hk. Qed.

#[export] Instance in_memory_laws : ProviderLaws (FS Host).
Proof.
  split; intros p; apply reader_resolve; intros [n|] s; try done; simpl; by case_match.
Qed.
End InMemory.

(** ** The wrapper *)

Definition FILES_READ : string := "files:read".

Section EventPublishing.
Context {S Handler Host : Type} `{P : IFileStorageProvider S}.

Record EventPublishingFileStorageProvider := { inner : S; _bus : Server Handler Host }.
Abbreviation method := (py EventPublishingFileStorageProvider fexn).

(** Handlers of the bus and the time of a publication are the host's. *)
Context (call : Handler → CliEvent → py (Server Handler Host) exn unit).
Context (clock : Host → Z).

Definition on_inner {A} (m : py S fexn A) : method A := λ s,
  let '(r, i) := m (inner s) in (r, {| inner := i; _bus := _bus s |}).

Definition change_data (action path : string) (new_path : option string) : dict string pyval :=
  [("action", VStr action); ("path", VStr path)] ++
  match new_path with Some n => [("newPath", VStr n)] | None => [] end.

Definition _changed (action path : string) (new_path : option string) : method unit := λ s,
  let '(r, b) := publish call "fs:changed" (change_data action path new_path)
                   (Some (with_permission FILES_READ)) (clock (host (_bus s))) (_bus s) in
  (match r with
   | inr u => inr u
   | inl (Exn m) => inl (HostError m)
   | inl Cancelled => inl CancelledError
   end, {| inner := inner s; _bus := b |}).

#[export] Instance event_publishing : IFileStorageProvider EventPublishingFileStorageProvider := {
  fs_list p := on_inner (fs_list p);
  fs_read_file p := on_inner (fs_read_file p);
  fs_write_file p c := _ ← on_inner (fs_write_file p c); _changed "write" p None;
  fs_stat p := on_inner (fs_stat p);
  fs_mkdir p rec := _ ← on_inner (fs_mkdir p rec); _changed "mkdir" p None;
  fs_remove p rec := _ ← on_inner (fs_remove p rec); _changed "delete" p None;
  fs_copy a b := _ ← on_inner (fs_copy a b); _changed "copy" a (Some b);
  fs_move a b := _ ← on_inner (fs_move a b); _changed "move" a (Some b);
  fs_exists p := on_inner (fs_exists p);
  fs_get_download_stream p := on_inner (fs_get_download_stream p);
  fs_upload_file p b := _ ← on_inner (fs_upload_file p b); _changed "upload" p None;
}.

Lemma on_inner_reader {A} (m : py S fexn A) : reader m → reader (on_inner m).
Proof. intros Hm s. unfold on_inner. specialize (Hm (inner s)). destruct (m (inner s)). simpl in *. subst. by destruct s. Qed.

#[export] Instance event_publishing_laws `{!ProviderLaws S} : ProviderLaws EventPublishingFileStorageProvider.
Proof.
  split; intros p; apply on_inner_reader;
    [apply list_reads|apply read_file_reads|apply stat_reads|apply exists_reads|apply download_reads].
Qed.
End EventPublishing.
Arguments EventPublishingFileStorageProvider : clear implicits.

(** ** What is published *)

Definition run_change {S} `{IFileStorageProvider S} (o : fs_op) : py S fexn unit :=
  match o with
  | OWrite p c => fs_write_file p c
  | OMkdir p rec => fs_mkdir p rec
  | ORemove p rec => fs_remove p rec
  | OCopy a b => fs_copy a b
  | OMove a b => fs_move a b
  end.

Definition data_of (o : fs_op) : dict string pyval :=
  match o with
  | OWrite p _ => change_data "write" p None
  | OMkdir p _ => change_data "mkdir" p None
  | ORemove p _ => change_data "delete" p None
  | OCopy a b => change_data "copy" a (Some b)
  | OMove a b => change_data "move" a (Some b)
  end.

Definition run_changes {S} `{IFileStorageProvider S} (ops : list fs_op) (s : S) : S :=
  foldl (λ s o, (run_change o s).2) s ops.

(** The data of the operations that succeed, one after the other. *)
Fixpoint successes {S} `{IFileStorageProvider S} (ops : list fs_op) (s : S) : list (dict string pyval) :=
  match ops with
  | [] => []
  | o :: ops =>
      let '(r, s') := run_change o s in
      match r with inr _ => [data_of o] | inl _ => [] end ++ successes ops s'
  end.

Section Published.
Context {S : Type} `{P : IFileStorageProvider S} (clock : list CliEvent → Z).

(** A bus with one subscriber that keeps what it gets. *)
Definition recorder : unit → CliEvent → py (Server unit (list CliEvent)) exn unit := λ _ e s,
  (inr tt, {| _subscriptions := _subscriptions s; next_ref := next_ref s; host := host s ++ [e] |}).
Definition recording : list (Subscription unit) :=
  [{| sub_ref := 0%nat; sub_pattern := "fs:*"; sub_handler := tt |}].

Local Instance watched : IFileStorageProvider (EventPublishingFileStorageProvider S unit (list CliEvent)) :=
  event_publishing recorder clock.

Definition heard (s : EventPublishingFileStorageProvider S unit (list CliEvent)) : list (dict string pyval) :=
  map ev_data (host (_bus s)).

Lemma watched_change o s :
  _subscriptions (_bus s) = recording →
  (run_change o s).1 = (run_change o (inner s)).1 ∧
  inner (run_change o s).2 = (run_change o (inner s)).2 ∧
  _subscriptions (_bus (run_change o s).2) = recording ∧
  heard (run_change o s).2 =
    heard s ++ match (run_change o (inner s)).1 with inr _ => [data_of o] | inl _ => [] end ∧
  Forall (λ e, e ∈ host (_bus s) ∨ ev_audience e = with_permission FILES_READ) (host (_bus (run_change o s).2)).
Proof.
  intros Hsub. destruct s as [i [subs ref log]]. simpl in Hsub. subst subs. unfold heard.
  assert (Hold : Forall (λ e, e ∈ log ∨ ev_audience e = with_permission FILES_READ) log)
    by (apply Forall_forall; auto).
  destruct o; cbn [run_change fs_write_file fs_mkdir fs_remove fs_copy fs_move watched event_publishing];
    rewrite py_bind_eq; unfold on_inner; cbn [inner _bus];
    match goal with |- context [?m i] => destruct (m i) as [[e|[]] i'] end; simpl;
    rewrite ?app_nil_r, ?map_app; split_and!; try done;
    apply Forall_app; split; try done; apply Forall_singleton; by right.
Qed.

End Published.
