(* ===== verification/FilesApi.v ===== *)
(** * The filesystem API ([core/controllers/filesystem_controller.py],
    [core/filesystem/filesystem_path_validator.py])

    The upload reader, the router over a storage provider, the path validator
    and the older router that works on the operating system's files through it.
    The multipart parser, [realpath] and the operating system are parameters. *)

From S2P Require Import Prelude PyStr Values Outputs Utf8 FileTree FileStorage.
From Stdlib Require Import Ascii.

(** What a route answers; [Uncaught] is an exception the framework turns into a
    500. *)
Inductive answer :=
| Ok (body : pyval)
| Stream (b : bytes) (filename : string)
| HttpError (status : Z) (detail : string)
| Uncaught (e : fexn).

(** [str(exc)] of the storage errors *)
Definition fexn_str (e : fexn) : string :=
  match e with
  | FileStorageNotFoundError p => "Path not found: " +:+ p
  | FileStoragePermissionError p => "Access denied: " +:+ p
  | FileStorageExistsError p => "Path already exists: " +:+ p
  | FileStorageNotADirectoryError p => "Not a directory: " +:+ p
  | FileStorageIsADirectoryError p => "Is a directory: " +:+ p
  | NameError n => "name " +:+ py_repr n +:+ " is not defined"
  | KeyError k => py_repr k
  | HostError m => m
  | UnicodeEncodeError | CancelledError => ""
  end.

Definition _map_provider_error (e : fexn) : answer :=
  match e with
  | FileStorageNotFoundError _ => HttpError 404 (fexn_str e)
  | FileStoragePermissionError _ => HttpError 403 (fexn_str e)
  | FileStorageNotADirectoryError _ | FileStorageIsADirectoryError _ => HttpError 400 (fexn_str e)
  | FileStorageExistsError _ => HttpError 409 (fexn_str e)
  | _ => HttpError 500 (fexn_str e)
  end.

(** ** Uploads *)

Definition DEFAULT_MAX_UPLOAD_BYTES : Z := 100 * 1024 * 1024.
Definition _MULTIPART_OVERHEAD : Z := 1024 * 1024.
Definition _UPLOAD_CHUNK : nat := Z.to_nat (64 * 1024).
#[global] Opaque _UPLOAD_CHUNK.

Definition blen (b : bytes) : Z := Z.of_nat (length b).

Definition _too_large (max_bytes : Z) : answer :=
  HttpError 413 ("File exceeds the maximum upload size of " +:+ str_of_Z max_bytes +:+ " bytes").

(** [_limited_receive]: what the parser receives, or [_UploadTooLarge]. *)
Fixpoint limited_receive (limit received : Z) (messages : list bytes) : option (list bytes) :=
  match messages with
  | [] => Some []
  | m :: messages =>
      let received := received + blen m in
      if limit <? received then None else cons m <$> limited_receive limit received messages
  end.

Inductive form_field := UploadFile (b : bytes) | FormText (s : string).
Record form_data := { form_file : option form_field; form_path : option form_field }.

(** The loop over [file.read(_UPLOAD_CHUNK)]; [rest] is what is unread. *)
Fixpoint read_chunks (chunk_size fuel : nat) (max_bytes total : Z) (chunks : bytes) (rest : bytes) : answer + bytes :=
  match fuel with
  | O => inr chunks
  | S fuel =>
      match take chunk_size rest with
      | [] => inr chunks
      | chunk =>
          let total := total + blen chunk in
          if max_bytes <? total then inl (_too_large max_bytes)
          else read_chunks chunk_size fuel max_bytes total (chunks ++ chunk) (drop chunk_size rest)
      end
  end.

(** [s.isdigit()], which superscripts pass too *)
Definition py_isdigit (s : string) : bool :=
  truthy s && forallb (λ c, is_digit c || bool_decide (N_of_ascii c ∈ [178; 179; 185]%N)) (chars s).

Record upload := { content_length : option string; messages : list bytes }.

Section Upload.
Context (parse_form : list bytes → form_data) (max_bytes : Z).

Definition body_limit : Z := max_bytes + _MULTIPART_OVERHEAD.

(** [content_length and content_length.isdigit() and int(content_length) > limit] *)
Definition declared_too_large (content_length : option string) : answer + bool :=
  match content_length with
  | Some n =>
      if py_isdigit n then
        match py_int n with
        | Some n => inr (body_limit <? n)
        | None => inl (Uncaught (HostError "ValueError"))
        end
      else inr false
  | None => inr false
  end.

Definition _read_upload (u : upload) : answer + (string * bytes) :=
  match declared_too_large (content_length u) with
  | inl a => inl a
  | inr true => inl (_too_large max_bytes)
  | inr false =>
      match limited_receive body_limit 0 (messages u) with
      | None => inl (_too_large max_bytes)
      | Some received =>
          let form := parse_form received in
          match form_file form, form_path form with
          | Some (UploadFile file), Some (FormText path) =>
              if is_empty path then inl (HttpError 422 "'file' and 'path' form fields are required")
              else match read_chunks _UPLOAD_CHUNK (S (length file)) max_bytes 0 [] file with
                   | inl a => inl a
                   | inr contents => inr (path, contents)
                   end
          | _, _ => inl (HttpError 422 "'file' and 'path' form fields are required")
          end
      end
  end.
End Upload.

(** ** The router over a provider *)

Inductive fs_request :=
| Ls (path : string) | Cat (path : string) | Stat (path : string) | Download (path : string)
| Upload (u : upload)
| Mkdir (body : dict string pyval)
| Rm (path : string) (recursive : bool).

Definition permissions_value (p : option string) : pyval := match p with Some p => VStr p | None => VNone end.
Definition entry_dict (e : FileEntry) : pyval :=
  VDict [("name", VStr (e_name e)); ("type", VStr (e_type e)); ("size", VInt (e_size e));
    ("modified", VStr (e_modified e)); ("permissions", permissions_value (e_permissions e))].
Definition stat_dict (f : FileStat) : pyval :=
  VDict [("name", VStr (f_name f)); ("type", VStr (f_type f)); ("size", VInt (f_size f));
    ("created", VStr (f_created f)); ("modified", VStr (f_modified f)); ("permissions", permissions_value (f_permissions f))].
Definition done_at (path status : string) : answer := Ok (VDict [("path", VStr path); ("status", VStr status)]).
(** The content of a text file; a JSON string is a text of code points. *)
Definition text_body (t : text) : pyval := VDict [("content", VList (map VInt t))].

(** [path.rstrip("/").rsplit("/", 1)[-1] or "download"] *)
Definition download_name (path : string) : string :=
  let base := List.last (split slash (str (rstrip_chars (Ascii.eqb slash) (chars path)))) "" in
  if is_empty base then "download" else base.

Definition is_permission (e : fexn) : bool := match e with FileStoragePermissionError _ => true | _ => false end.
Definition is_not_found (e : fexn) : bool := match e with FileStorageNotFoundError _ => true | _ => false end.
Definition is_exists (e : fexn) : bool := match e with FileStorageExistsError _ => true | _ => false end.
Definition is_not_a_directory (e : fexn) : bool := match e with FileStorageNotADirectoryError _ => true | _ => false end.
Definition is_a_directory (e : fexn) : bool := match e with FileStorageIsADirectoryError _ => true | _ => false end.

Section ProviderRouter.
Context {S : Type} `{P : IFileStorageProvider S} (parse_form : list bytes → form_data) (max_upload_bytes : Z).
Abbreviation method := (py S fexn).

(** [except (...) as exc: raise _map_provider_error(exc)]; what is not caught
    goes on to the framework. *)
Definition mapped (caught : fexn → bool) (m : method answer) : method answer :=
  try_except m (λ e, mret (if is_permission e || caught e then _map_provider_error e else Uncaught e)).

Definition list_directory (path : string) : method answer :=
  mapped (λ e, is_not_found e || is_not_a_directory e)
    (entries ← fs_list path; mret (Ok (VDict [("entries", VList (map entry_dict entries))]))).
Definition read_file_route (path : string) : method answer :=
  mapped (λ e, is_not_found e || is_a_directory e) (t ← fs_read_file path; mret (Ok (text_body t))).
Definition stat_path (path : string) : method answer :=
  mapped is_not_found (info ← fs_stat path; mret (Ok (stat_dict info))).
Definition download_file (path : string) : method answer :=
  mapped (λ e, is_not_found e || is_a_directory e)
    (b ← fs_get_download_stream path; mret (Stream b (download_name path))).
Definition upload_file_route (u : upload) : method answer :=
  match _read_upload parse_form max_upload_bytes u with
  | inl a => mret a
  | inr (path, contents) =>
      mapped (λ e, is_not_found e || is_a_directory e)
        (_ ← fs_upload_file path contents; mret (done_at path "uploaded"))
  end.

(** [raw_path] may be any JSON value; a provider that is given something else
    than a string raises [AttributeError]. *)
Definition make_directory (body : dict string pyval) : method answer :=
  let raw_path := default VNone (dict_get "path" body) in
  if negb (py_truthy raw_path) then mret (HttpError 400 "'path' is required")
  else
    match raw_path with
    | VStr path =>
        let recursive := match dict_get "recursive" body with Some v => py_truthy v | None => true end in
        mapped (λ e, is_not_found e || is_exists e)
          (_ ← fs_mkdir path recursive; mret (done_at path "created"))
    | _ => mret (Uncaught (HostError "AttributeError"))
    end.
Definition remove_path (path : string) (recursive : bool) : method answer :=
  mapped is_not_found (_ ← fs_remove path recursive; mret (done_at path "deleted")).

Definition serve (r : fs_request) : method answer :=
  match r with
  | Ls p => list_directory p
  | Cat p => read_file_route p
  | Stat p => stat_path p
  | Download p => download_file p
  | Upload u => upload_file_route u
  | Mkdir body => make_directory body
  | Rm p rec => remove_path p rec
  end.
End ProviderRouter.

(** ** The path validator *)

Section Validator.
Context (realpath : string → string).

(** [__init__]: the allowed roots, resolved. *)
Definition resolve_roots (allowed_paths : list string) : list string := map realpath allowed_paths.

Fixpoint under_root (roots : list string) (resolved : string) : bool :=
  match roots with
  | [] => false
  | allowed :: roots =>
      bool_decide (resolved = allowed) || starts_with resolved (allowed +:+ "/") || under_root roots resolved
  end.

(** [None] is [PermissionError]. *)
Definition validate (roots : list string) (path : string) : option string :=
  let resolved := realpath path in
  if under_root roots resolved then Some resolved else None.
End Validator.

(** ** The older router, on the operating system's files *)

Record os_stat := { st_dir : bool; st_size : Z; st_mtime : string; st_ctime : string; st_filemode : string }.

(** What the router asks of the operating system; an [OSError] is its text.
    Times are given in their ISO form. *)
Class OsFiles (O : Type) := {
  os_exists : string → py O string bool;
  os_isdir : string → py O string bool;
  os_isfile : string → py O string bool;
  os_listdir : string → py O string (list string);
  os_stat_of : string → py O string os_stat;
  os_read : string → py O string bytes;
  os_write : string → bytes → py O string unit;
  os_makedirs : string → py O string unit;
  os_rmtree : string → py O string unit;
  os_remove : string → py O string unit;
}.

(** [os.path.join(resolved, name)], [basename] and [dirname] of POSIX *)
Definition path_join (a b : string) : string :=
  if starts_with b "/" then b
  else if is_empty a || ends_with a "/" then a +:+ b else a +:+ "/" +:+ b.
Definition basename (p : string) : string := List.last (split slash p) "".
Definition dirname (p : string) : string :=
  let head := take (length (chars p) - length (chars (basename p))) (chars p) in
  if forallb (Ascii.eqb slash) head then str head else str (rstrip_chars (Ascii.eqb slash) head).

(** Text files are read with universal newlines. *)
Fixpoint universal_newlines (t : text) : text :=
  match t with
  | [] => []
  | c :: t =>
      if c =? 13 then
        match t with
        | d :: t' => 10 :: (if d =? 10 then universal_newlines t' else universal_newlines t)
        | [] => [10]
        end
      else c :: universal_newlines t
  end.

Definition stat_type (st : os_stat) : string := if st_dir st then "directory" else "file".

Section LegacyRouter.
Context {O : Type} `{OS : OsFiles O} (realpath : string → string) (allowed_paths : list string).
Context (parse_form : list bytes → form_data) (max_upload_bytes : Z).
Abbreviation method := (py O string).

Definition roots : list string := resolve_roots realpath allowed_paths.

(** [_safe_validate] and what the route does with the resolved path. *)
Definition _safe_validate (path : string) (k : string → method answer) : method answer :=
  match validate realpath roots path with
  | None => mret (HttpError 403 ("Access denied: '" +:+ path +:+ "' is outside the allowed paths"))
  | Some resolved => k resolved
  end.

(** [except OSError as exc: 500] *)
Definition os_guard (m : method answer) : method answer := try_except m (λ e, mret (HttpError 500 e)).

(** [if not os.path.exists(resolved): 404] and the like *)
Definition unless (test : method bool) (a : answer) (k : method answer) : method answer :=
  test ≫= λ b : bool, if b then k else mret a.
Definition not_there : answer := HttpError 404 "Path not found".

Definition _stat_entry (resolved : string) : method answer :=
  st ← os_stat_of resolved;
  mret (Ok (VDict [("name", VStr (basename resolved)); ("type", VStr (stat_type st)); ("size", VInt (st_size st));
    ("modified", VStr (st_mtime st)); ("created", VStr (st_ctime st)); ("permissions", VStr (st_filemode st))])).

(** The loop over the names; an entry that cannot be read is left out. *)
Fixpoint legacy_entries (resolved : string) (names : list string) : method (list pyval) :=
  match names with
  | [] => mret []
  | name :: names =>
      e ← try_except
            (st ← os_stat_of (path_join resolved name);
             mret [VDict [("name", VStr name); ("type", VStr (stat_type st)); ("size", VInt (st_size st));
                      ("modified", VStr (st_mtime st)); ("permissions", VStr (st_filemode st))]])
            (λ _, mret []);
      es ← legacy_entries resolved names;
      mret (e ++ es)
  end.

Definition legacy_ls (path : string) : method answer :=
  _safe_validate path (λ resolved,
    unless (os_exists resolved) not_there
    (unless (os_isdir resolved) (HttpError 400 "Path is not a directory")
    (os_guard
      (names ← os_listdir resolved;
       entries ← legacy_entries resolved (py_sort String.leb names);
       mret (Ok (VDict [("entries", VList entries)])))))).

Definition legacy_cat (path : string) : method answer :=
  _safe_validate path (λ resolved,
    unless (os_exists resolved) not_there
    (unless (os_isfile resolved) (HttpError 400 "Path is not a file")
    (os_guard (b ← os_read resolved; mret (Ok (text_body (universal_newlines (decode b)))))))).

Definition legacy_stat (path : string) : method answer :=
  _safe_validate path (λ resolved, unless (os_exists resolved) not_there (os_guard (_stat_entry resolved))).

(** [FileResponse] reads the file after the route has returned. *)
Definition legacy_download (path : string) : method answer :=
  _safe_validate path (λ resolved,
    unless (os_exists resolved) not_there
    (unless (os_isfile resolved) (HttpError 400 "Path is not a file")
    (b ← os_read resolved; mret (Stream b (basename resolved))))).

Definition legacy_upload (u : upload) : method answer :=
  match _read_upload parse_form max_upload_bytes u with
  | inl a => mret a
  | inr (path, contents) =>
      _safe_validate path (λ resolved,
        unless (os_isdir (dirname resolved)) (HttpError 400 "Parent directory does not exist")
        (os_guard (_ ← os_write resolved contents; mret (done_at resolved "uploaded"))))
  end.

Definition legacy_mkdir (body : dict string string) : method answer :=
  match dict_get "path" body with
  | Some raw_path =>
      if is_empty raw_path then mret (HttpError 400 "'path' is required")
      else _safe_validate raw_path (λ resolved,
             os_guard (_ ← os_makedirs resolved; mret (done_at resolved "created")))
  | None => mret (HttpError 400 "'path' is required")
  end.

Definition legacy_rm (path : string) : method answer :=
  _safe_validate path (λ resolved,
    if bool_decide (resolved ∈ roots)
    then mret (HttpError 403 ("Access denied: '" +:+ path +:+ "' is an allowed root"))
    else unless (os_exists resolved) not_there
      (os_guard
        (os_isdir resolved ≫= λ d : bool,
         (if d then os_rmtree resolved else os_remove resolved) ≫= λ _,
         mret (done_at resolved "deleted")))).

Inductive legacy_request :=
| LLs (path : string) | LCat (path : string) | LStat (path : string) | LDownload (path : string)
| LUpload (u : upload) | LMkdir (body : dict string string) | LRm (path : string).

Definition legacy_serve (r : legacy_request) : method answer :=
  match r with
  | LLs p => legacy_ls p
  | LCat p => legacy_cat p
  | LStat p => legacy_stat p
  | LDownload p => legacy_download p
  | LUpload u => legacy_upload u
  | LMkdir body => legacy_mkdir body
  | LRm p => legacy_rm p
  end.
End LegacyRouter.
