(* ===== verification/FilesSafety.v ===== *)
(** * The filesystem API: confinement, upload limits and errors *)

From S2P Require Import Prelude PyStr Values Utf8 Outputs Commands Events FileTree FileRefine.
From S2P Require Import FileStorage FilesApi.
From Stdlib Require Import Ascii.

(** ** The path validator *)

Lemma split_app_sep s t : split slash (s +:+ "/" +:+ t) = split slash s ++ split slash t.
Proof.
  unfold split. rewrite !chars_app, <- map_app. f_equal. change (chars "/") with [slash]. simpl.
  induction (chars s) as [|c l IH]; simpl; [done|].
  destruct (Ascii.eqb c slash); [by rewrite IH|]. rewrite IH.
  pose proof (split_chars_ne slash l). by destruct (split_chars slash l).
Qed.

Lemma join_app ws vs : ws ≠ [] → vs ≠ [] → join "/" (ws ++ vs) = join "/" ws +:+ "/" +:+ join "/" vs.
Proof.
  intros Hw Hv. induction ws as [|w ws IH]; [done|]. destruct ws as [|w' ws].
  - destruct vs as [|v vs]; [done|]. done.
  - change ((w :: w' :: ws) ++ vs) with (w :: (w' :: ws) ++ vs).
    change (join "/" (w :: (w' :: ws) ++ vs)) with (w +:+ "/" +:+ join "/" ((w' :: ws) ++ vs)).
    rewrite IH by done. change (join "/" (w :: w' :: ws)) with (w +:+ "/" +:+ join "/" (w' :: ws)).
    by rewrite !app_str_assoc.
Qed.

(** A resolved path is under a root exactly when the root's segments are its
    first segments: never by a common start of a name. *)
Lemma under_root_spec roots resolved :
  under_root roots resolved = true ↔
  ∃ allowed, allowed ∈ roots ∧ split slash allowed `prefix_of` split slash resolved.
Proof.
  induction roots as [|a roots IH]; simpl; [split; [done|intros (? & H & _); set_solver]|].
  rewrite !orb_true_iff, IH, bool_decide_eq_true, starts_with_spec.
  assert (Ha : (resolved = a ∨ ∃ t, resolved = (a +:+ "/") +:+ t) ↔ split slash a `prefix_of` split slash resolved).
  { split.
    - intros [->|[t ->]]; [done|]. rewrite <- app_str_assoc, split_app_sep. by eexists.
    - intros [k Hk]. destruct k as [|w k].
      + left. rewrite app_nil_r in Hk. rewrite <- (join_split slash resolved), Hk. apply (join_split slash).
      + right. exists (join "/" (w :: k)). rewrite <- (join_split slash resolved), Hk.
        change (String slash "") with "/". rewrite join_app by (done || apply split_ne).
        rewrite (join_split slash a : join "/" _ = _). by rewrite app_str_assoc. }
  rewrite Ha. set_solver.
Qed.

(** A root "/" lets nothing through but itself. *)
Example slash_root : under_root ["/"] "/" = true ∧ under_root ["/"] "/tmp" = false.
Proof. done. Qed.

Definition confined (roots : list string) (p : string) : Prop := under_root roots p = true.

Create HintDb touch.

(** ** An operating system that keeps a log *)

Inductive touch :=
| Look (p : string) | ReadContent (p : string) | WriteFile (p : string)
| MakeDirs (p : string) | RmTree (p : string) | RemoveFile (p : string).

Section Logged.
Context {O : Type} `{OS : OsFiles O}.

Definition logging {A} (t : touch) (m : py O string A) : py (O * list touch) string A := λ s,
  let '(r, o) := m s.1 in (r, (o, s.2 ++ [t])).

Local Instance logged : OsFiles (O * list touch) := {
  os_exists p := logging (Look p) (os_exists p);
  os_isdir p := logging (Look p) (os_isdir p);
  os_isfile p := logging (Look p) (os_isfile p);
  os_listdir p := logging (ReadContent p) (os_listdir p);
  os_stat_of p := logging (Look p) (os_stat_of p);
  os_read p := logging (ReadContent p) (os_read p);
  os_write p b := logging (WriteFile p) (os_write p b);
  os_makedirs p := logging (MakeDirs p) (os_makedirs p);
  os_rmtree p := logging (RmTree p) (os_rmtree p);
  os_remove p := logging (RemoveFile p) (os_remove p);
}.

Context (realpath : string → string) (allowed_paths : list string).
Context (parse_form : list bytes → form_data) (max_upload_bytes : Z).
Let rs := resolve_roots realpath allowed_paths.

(** What may be touched: paths under a root; looked at may be also the parent of
    such a path and what is in it; a root is never removed. *)
Definition touch_ok (t : touch) : Prop :=
  match t with
  | Look p => ∃ q, confined rs q ∧ (p = q ∨ p = dirname q ∨ ∃ name, p = path_join q name)
  | ReadContent p | WriteFile p | MakeDirs p => confined rs p
  | RmTree p | RemoveFile p => confined rs p ∧ p ∉ rs
  end.
Definition log_ok (l0 : list touch) (s : O * list touch) : Prop := ∃ l, s.2 = l0 ++ l ∧ Forall touch_ok l.

Lemma log_keeps {A} l0 t (m : py O string A) : touch_ok t → keeps (log_ok l0) (logging t m).
Proof.
  intros Ht s (l & Hl & Hok). unfold logging. destruct (m s.1) as [r o]. exists (l ++ [t]). simpl.
  rewrite Hl, app_assoc. split; [done|]. apply Forall_app. by split; [|apply Forall_singleton].
Qed.

Lemma unless_keeps l0 p (m : py O string bool) a k :
  touch_ok (Look p) → keeps (log_ok l0) k → keeps (log_ok l0) (unless (logging (Look p) m) a k).
Proof. intros Ht Hk. apply keeps_bind; [by apply log_keeps|]. intros []; [done|by apply keeps_same]. Qed.

Lemma guard_keeps l0 m : keeps (log_ok l0) m → keeps (log_ok l0) (os_guard m).
Proof. intros Hm. apply keeps_try; [done|]. intros e. by apply keeps_same. Qed.

Lemma validate_keeps l0 path k :
  (∀ resolved, confined rs resolved → keeps (log_ok l0) (k resolved)) →
  keeps (log_ok l0) (_safe_validate realpath allowed_paths path k).
Proof.
  intros Hk. unfold _safe_validate, validate. fold rs. destruct (under_root _ _) eqn:Hu; [by apply Hk|].
  by apply keeps_same.
Qed.

Lemma look_self p : confined rs p → touch_ok (Look p).
Proof. intros Hp. exists p. auto. Qed.

Lemma entries_keeps l0 p names : confined rs p → keeps (log_ok l0) (legacy_entries p names).
Proof.
  intros Hp. induction names as [|n names IH]; simpl; [by apply keeps_same|].
  apply keeps_bind; [apply keeps_try; [|intros; by apply keeps_same]|].
  - apply keeps_bind; [apply log_keeps; exists p; eauto|]. intros st. by apply keeps_same.
  - intros e. apply keeps_bind; [done|]. intros es. by apply keeps_same.
Qed.

#[local] Hint Resolve look_self unless_keeps guard_keeps log_keeps entries_keeps : touch.
#[local] Hint Extern 5 (keeps _ (mret _)) => apply keeps_same; reflexivity : touch.
#[local] Hint Extern 6 (keeps _ (mbind _ _)) => apply keeps_bind; [|intros ?] : touch.
#[local] Hint Extern 7 (keeps _ (os_exists _)) => apply log_keeps : touch.
#[local] Hint Extern 7 (keeps _ (os_isdir _)) => apply log_keeps : touch.
#[local] Hint Extern 7 (keeps _ (os_stat_of _)) => apply log_keeps : touch.

End Logged.

(** ** Uploads *)

Lemma chunk_pos : (0 < _UPLOAD_CHUNK)%nat.
Proof. apply (Z2Nat.inj_lt 0 65536); lia. Qed.

Lemma read_chunks_spec n fuel max total chunks rest :
  (0 < n)%nat → (length rest < fuel)%nat → total ≤ max →
  read_chunks n fuel max total chunks rest =
  if max <? total + blen rest then inl (_too_large max) else inr (chunks ++ rest).
Proof.
  revert total chunks rest. induction fuel as [|fuel IH]; intros total chunks rest Hn Hf Ht; [lia|].
  cbn [read_chunks]. destruct (firstn n rest) as [|c l] eqn:Hc.
  { assert (rest = []) as ->.
    { apply length_zero_iff_nil. apply (f_equal length) in Hc. rewrite length_take in Hc.
      cbn [length] in Hc. lia. }
    rewrite app_nil_r. change (blen []) with 0. destruct (Z.ltb_spec max (total + 0)); [lia|done]. }
  set (chunk := c :: l) in *.
  assert (Hlen : blen rest = blen chunk + blen (drop n rest)).
  { rewrite <- Hc. unfold blen. rewrite length_take, length_drop. lia. }
  assert (Hpos : 0 < blen chunk) by (unfold blen, chunk; simpl; lia).
  destruct (Z.ltb_spec max (total + blen chunk)).
  { destruct (Z.ltb_spec max (total + blen rest)); [done|]. unfold blen in *. lia. }
  rewrite IH by (lia || (unfold blen in *; lia)).
  rewrite Hlen, Z.add_assoc. destruct (max <? _); [done|]. by rewrite <- app_assoc, <- Hc, take_drop.
Qed.

Lemma read_chunks_caught n fuel max total chunks rest e :
  read_chunks n fuel max total chunks rest ≠ inl (Uncaught e).
Proof.
  revert total chunks rest. induction fuel as [|fuel IH]; intros total chunks rest; cbn [read_chunks]; [done|].
  destruct (firstn n rest); [done|]. destruct (max <? _); [done|apply IH].
Qed.

Definition total_bytes (messages : list bytes) : Z := blen (concat messages).

Lemma limited_receive_spec limit received msgs :
  received ≤ limit →
  limited_receive limit received msgs = if limit <? received + total_bytes msgs then None else Some msgs.
Proof.
  unfold total_bytes, blen. revert received. induction msgs as [|m msgs IH]; intros received Hr; simpl.
  { change (Z.of_nat 0) with 0. destruct (Z.ltb_spec limit (received + 0)); [lia|done]. }
  unfold blen. rewrite length_app. destruct (Z.ltb_spec limit (received + Z.of_nat (length m))).
  { destruct (Z.ltb_spec limit (received + Z.of_nat (length m + length (concat msgs)))); [done|lia]. }
  rewrite IH by lia. rewrite Nat2Z.inj_add, Z.add_assoc. by destruct (limit <? _).
Qed.

(** An upload is accepted exactly when no larger body is declared, the whole
    body is within the limit, and it has a file of at most [max_bytes] bytes and
    a path; then the file's bytes are passed on whole, however they are chunked. *)
Theorem upload_accepted parse_form max_bytes u path contents :
  0 ≤ max_bytes →
  _read_upload parse_form max_bytes u = inr (path, contents) ↔
  declared_too_large max_bytes (content_length u) = inr false ∧
  total_bytes (messages u) ≤ body_limit max_bytes ∧
  form_file (parse_form (messages u)) = Some (UploadFile contents) ∧
  form_path (parse_form (messages u)) = Some (FormText path) ∧ path ≠ "" ∧
  blen contents ≤ max_bytes.
Proof.
  intros Hmax. unfold _read_upload. destruct (declared_too_large _ _) as [a|[]]; [naive_solver..|].
  rewrite limited_receive_spec by (unfold body_limit, _MULTIPART_OVERHEAD; lia). rewrite Z.add_0_l.
  destruct (Z.ltb_spec (body_limit max_bytes) (total_bytes (messages u))); [split; [done|naive_solver lia]|].
  destruct (form_file _) as [[file|]|]; [|naive_solver..].
  destruct (form_path _) as [[|p]|]; [naive_solver| |naive_solver].
  unfold is_empty. case_bool_decide; [naive_solver|].
  rewrite read_chunks_spec by (lia || apply chunk_pos). rewrite Z.add_0_l, app_nil_l.
  destruct (Z.ltb_spec max_bytes (blen file)); naive_solver lia.
Qed.

(** ** Errors of the API over the in-memory storage *)

(** The exceptions no clause of the route catches. *)
Definition slips_through (parse_form : list bytes → form_data) (max_bytes : Z) (r : fs_request) (e : fexn) : Prop :=
  match r with
  | Upload u =>
      declared_too_large max_bytes (content_length u) = inl (Uncaught e) ∨
      ∃ p b, _read_upload parse_form max_bytes u = inr (p, b) ∧ e = FileStorageNotADirectoryError p
  | Mkdir body =>
      e = HostError "AttributeError" ∨
      ∃ p, dict_get "path" body = Some (VStr p) ∧ e = FileStorageNotADirectoryError p
  | Rm p rec =>
      path_parts p = [] ∧ e = NameError "FileStoragePermissionError" ∨
      rec = false ∧ e = FileStorageNotADirectoryError p
  | _ => False
  end.

Section MemoryApi.
Context {Host : Type} `{E : FsEnv Host} (parse_form : list bytes → form_data) (max_bytes : Z).

(** A route's answer from what its operation raised. *)
Lemma mapped_change (o : fs_op) caught (a : answer) (s : FS Host) :
  fs_ok s →
  ∃ s', mapped caught (_ ← run_op o; mret a) s =
    (inr match raised (run_op o s).1 with
         | None => a
         | Some e => if is_permission e || caught e then _map_provider_error e else Uncaught e
         end, s') ∧
    fs_ok s' ∧ s' = (run_op o s).2.
Proof.
  intros Hs. destruct (run_op_allowed o s Hs) as [Hok _]. unfold mapped, try_except. rewrite py_bind_eq.
  destruct (run_op o s) as [[e|[]] s'] eqn:Ho; simpl in *; eauto.
Qed.

(** What the operations can raise, from their specification. *)
Lemma write_errors p b (s : FS Host) e :
  fs_ok s → raised (run_op (OWrite p (Bytes b)) s).1 = Some e →
  e = FileStorageIsADirectoryError p ∨ e = FileStorageNotADirectoryError p.
Proof.
  intros Hs He. destruct (run_op_allowed (OWrite p (Bytes b)) s Hs) as [_ (w & Hspec & _)].
  rewrite He in Hspec. inversion Hspec; subst; auto. done.
Qed.

Lemma mkdir_errors p rec (s : FS Host) e :
  fs_ok s → raised (run_op (OMkdir p rec) s).1 = Some e →
  e = FileStorageNotFoundError p ∨ e = FileStorageExistsError p ∨ e = FileStorageNotADirectoryError p.
Proof.
  intros Hs He. destruct (run_op_allowed (OMkdir p rec) s Hs) as [_ (w & Hspec & _)].
  rewrite He in Hspec. inversion Hspec; subst; auto.
Qed.

Lemma remove_errors p rec (s : FS Host) e :
  fs_ok s → raised (run_op (ORemove p rec) s).1 = Some e →
  e = FileStorageNotFoundError p ∨ path_parts p = [] ∧ e = NameError "FileStoragePermissionError" ∨
  rec = false ∧ e = FileStorageNotADirectoryError p.
Proof.
  intros Hs He. destruct (run_op_allowed (ORemove p rec) s Hs) as [_ (w & Hspec & _)].
  rewrite He in Hspec. inversion Hspec; subst; auto.
Qed.

Lemma read_upload_uncaught u a e :
  _read_upload parse_form max_bytes u = inl a → a = Uncaught e →
  declared_too_large max_bytes (content_length u) = inl (Uncaught e).
Proof.
  unfold _read_upload. destruct (declared_too_large _ _) as [a'|[]]; [naive_solver|naive_solver|].
  destruct (limited_receive _ _ _); [|naive_solver]. destruct (form_file _) as [[f|]|]; [|naive_solver..].
  destruct (form_path _) as [[|p]|]; [naive_solver| |naive_solver]. destruct (is_empty p); [naive_solver|].
  destruct (read_chunks _ _ _ _ _ _) as [a'|] eqn:Hc; [|done]. intros [= <-] ->. by apply read_chunks_caught in Hc.
Qed.

(** The route's answer is computed and is not an uncaught exception. *)
Ltac answered := eexists _, _; split_and!; [reflexivity|assumption|let H := fresh in intros ? H; discriminate H].

End MemoryApi.

(** * A small server of files *)

#[local] Existing Instance counting_clock.

(** The demo tree behind the wrapper, with a subscriber. *)
Definition watched_demo : EventPublishingFileStorageProvider (FS nat) unit (list CliEvent) :=
  {| inner := demo; _bus := {| _subscriptions := recording; next_ref := 1%nat; host := [] |} |}.
Definition some_changes : list fs_op :=
  [OMove "docs" "empty/docs"; OWrite "docs/a.txt/b" (Bytes []); ORemove "none" true; OMkdir "docs" false].


(** A parser for a form whose file is the body and whose path is ["up.txt"]. *)
Definition toy_form (messages : list bytes) : form_data :=
  {| form_file := Some (UploadFile (concat messages)); form_path := Some (FormText "up.txt") |}.
Definition toy_upload : upload := {| content_length := Some "3"; messages := [[1; 2]; [3]] |}.

Lemma upload_accepted_witness :
  (0 ≤ 3) ∧ _read_upload toy_form 3 toy_upload = inr ("up.txt", [1; 2; 3]).
Proof.
  split; [lia|]. apply (upload_accepted toy_form 3 toy_upload "up.txt" [1; 2; 3]); [lia|].
  split_and!; (reflexivity || (vm_compute; discriminate)).
Defined.


(** Requests whose error no clause maps: the framework answers 500. *)
Example uncaught_requests :
  (serve toy_form 3 (Rm "docs" false) demo).1 = inr (Uncaught (FileStorageNotADirectoryError "docs")) ∧
  (serve toy_form 3 (Mkdir [("path", VStr "docs/a.txt/x")]) demo).1 =
    inr (Uncaught (FileStorageNotADirectoryError "docs/a.txt/x")) ∧
  (serve toy_form 3 (Rm "/" true) demo).1 = inr (Uncaught (NameError "FileStoragePermissionError")) ∧
  (serve toy_form 3 (Ls "docs/a.txt") demo).1 = inr (HttpError 400 "Not a directory: docs/a.txt").
Proof. vm_compute. done. Qed.
