(* ===== verification/Regex.v ===== *)
(** * Regular expressions ([re])

    The patterns of the program are data, matched by derivatives; [matches_spec]
    says the matcher accepts exactly the language.  [full] is [fullmatch],
    [dollar_match] is [match] of a pattern that ends in [$], which also matches
    before one final newline. *)

From S2P Require Import Prelude PyStr.
From Stdlib Require Import Ascii.

Inductive re :=
| Nothing
| Empty
| Chr (d : ascii)
| Class (p : ascii → bool)
| Cat (a b : re)
| Or (a b : re)
| Many (a : re).

Fixpoint nullable (r : re) : bool :=
  match r with
  | Nothing | Chr _ | Class _ => false
  | Empty | Many _ => true
  | Cat a b => nullable a && nullable b
  | Or a b => nullable a || nullable b
  end.

Fixpoint deriv (c : ascii) (r : re) : re :=
  match r with
  | Nothing | Empty => Nothing
  | Chr d => if Ascii.eqb d c then Empty else Nothing
  | Class p => if p c then Empty else Nothing
  | Cat a b => if nullable a then Or (Cat (deriv c a) b) (deriv c b) else Cat (deriv c a) b
  | Or a b => Or (deriv c a) (deriv c b)
  | Many a => Cat (deriv c a) (Many a)
  end.

Fixpoint matches (r : re) (l : list ascii) : bool :=
  match l with [] => nullable r | c :: l => matches (deriv c r) l end.

(** ** The language *)

Inductive lang : re → list ascii → Prop :=
| l_empty : lang Empty []
| l_chr c : lang (Chr c) [c]
| l_class p c : p c = true → lang (Class p) [c]
| l_cat a b u v : lang a u → lang b v → lang (Cat a b) (u ++ v)
| l_left a b u : lang a u → lang (Or a b) u
| l_right a b u : lang b u → lang (Or a b) u
| l_none a : lang (Many a) []
| l_some a c u v : lang a (c :: u) → lang (Many a) v → lang (Many a) (c :: u ++ v).

Lemma nullable_spec r : nullable r = true ↔ lang r [].
Proof.
  induction r as [| | | |a IHa b IHb|a IHa b IHb|a IHa]; simpl;
    rewrite ?andb_true_iff, ?orb_true_iff, ?IHa, ?IHb.
  - split; [done|inversion 1].
  - split; [constructor|done].
  - split; [done|inversion 1].
  - split; [done|inversion 1].
  - split.
    + intros [Ha Hb]. change (@nil ascii) with (@nil ascii ++ []). by constructor.
    + inversion 1 as [| | |? ? u v Ha Hb He Huv| | | |]; subst. apply app_eq_nil in Huv as [-> ->]. done.
  - split; [intros [?|?]; [by apply l_left|by apply l_right]|inversion 1; auto].
  - split; [constructor|done].
Qed.

Lemma deriv_spec c r l : lang (deriv c r) l ↔ lang r (c :: l).
Proof.
  revert l. induction r as [| |d|p|a IHa b IHb|a IHa b IHb|a IHa]; intros l; simpl.
  - split; inversion 1.
  - split; inversion 1.
  - destruct (Ascii.eqb_spec d c) as [->|Hne]; split; inversion 1; subst; try constructor; congruence.
  - destruct (p c) eqn:Hp; split; inversion 1; subst; try constructor; congruence.
  - assert (Hhead : lang (Cat (deriv c a) b) l ↔ ∃ u v, l = u ++ v ∧ lang a (c :: u) ∧ lang b v).
    { split.
      - inversion 1 as [| | |? ? u v Ha Hb| | | |]; subst. exists u, v. by rewrite <- IHa.
      - intros (u & v & -> & Ha & Hb). constructor; [by apply IHa|done]. }
    assert (Hcat : lang (Cat a b) (c :: l) ↔
      (∃ u v, l = u ++ v ∧ lang a (c :: u) ∧ lang b v) ∨ lang a [] ∧ lang b (c :: l)).
    { split.
      - inversion 1 as [| | |? ? u v Ha Hb He Huv| | | |]; subst. destruct u as [|c' u]; simpl in *; [subst; auto|].
        injection Huv as -> <-. left. eauto.
      - intros [(u & v & -> & Ha & Hb)|[Ha Hb]]; [exact (l_cat _ _ _ _ Ha Hb)|exact (l_cat _ _ _ _ Ha Hb)]. }
    rewrite Hcat, <- nullable_spec. destruct (nullable a).
    + split.
      * inversion 1; subst; [left; by apply Hhead|right; by rewrite <- IHb].
      * intros [H|[_ H]]; [apply l_left; by apply Hhead|apply l_right; by apply IHb].
    + rewrite Hhead. naive_solver.
  - split; inversion 1; subst; [apply l_left|apply l_right|apply l_left|apply l_right]; by (apply IHa || apply IHb).
  - split.
    + inversion 1 as [| | |? ? u v Ha Hb| | | |]; subst. constructor; [by apply IHa|done].
    + inversion 1; subst. constructor; [by apply IHa|done].
Qed.

Lemma matches_spec r l : matches r l = true ↔ lang r l.
Proof.
  revert r. induction l as [|c l IH]; intros r; simpl; [apply nullable_spec|]. by rewrite IH, deriv_spec.
Qed.

(** ** Building patterns *)

Definition lit (s : string) : re := foldr (λ c r, Cat (Chr c) r) Empty (chars s).
Definition alts (l : list re) : re := foldr Or Nothing l.
Definition opt_re (r : re) : re := Or r Empty.
Definition cats (l : list re) : re := foldr Cat Empty l.
Definition newline : ascii := ascii_of_nat 10.
(** [.] *)
Definition any : re := Class (λ c, negb (Ascii.eqb c newline)).

Lemma lang_chr c l : lang (Chr c) l ↔ l = [c].
Proof. split; [by inversion 1|intros ->; constructor]. Qed.

Lemma lang_cat a b l : lang (Cat a b) l ↔ ∃ u v, l = u ++ v ∧ lang a u ∧ lang b v.
Proof. split; [inversion 1; subst; eauto|intros (u & v & -> & ? & ?); by constructor]. Qed.

Lemma lang_or a b l : lang (Or a b) l ↔ lang a l ∨ lang b l.
Proof. split; [inversion 1; auto|intros [?|?]; [by apply l_left|by apply l_right]]. Qed.

Lemma lang_empty l : lang Empty l ↔ l = [].
Proof. split; [by inversion 1|intros ->; constructor]. Qed.

Lemma lang_lit s l : lang (lit s) l ↔ l = chars s.
Proof.
  unfold lit. revert l. induction (chars s) as [|c k IH]; intros l; simpl; [apply lang_empty|].
  rewrite lang_cat. setoid_rewrite lang_chr. setoid_rewrite IH. naive_solver.
Qed.

Lemma lang_many_class p l : lang (Many (Class p)) l ↔ Forall (λ c, p c = true) l.
Proof.
  split.
  - remember (Many (Class p)) as r eqn:Hr. induction 1; simplify_eq; [constructor|].
    match goal with H : lang (Class p) (_ :: _) |- _ => inversion H; subst end. simpl. constructor; auto.
  - induction 1 as [|c l Hc Hl IH]; [constructor|]. change (c :: l) with (c :: [] ++ l). by apply l_some; [constructor|].
Qed.

Lemma lang_alts rs l : lang (alts rs) l ↔ Exists (λ r, lang r l) rs.
Proof.
  unfold alts. induction rs as [|r rs IH]; simpl; [split; inversion 1|]. rewrite lang_or, IH, Exists_cons. done.
Qed.

(** ** Patterns without stars and classes have finitely many words *)

Fixpoint finite (r : re) : bool :=
  match r with
  | Class _ | Many _ => false
  | Cat a b | Or a b => finite a && finite b
  | _ => true
  end.
Fixpoint words (r : re) : list (list ascii) :=
  match r with
  | Empty => [[]]
  | Chr c => [[c]]
  | Cat a b => concat (map (λ u, map (app u) (words b)) (words a))
  | Or a b => words a ++ words b
  | _ => []
  end.

Lemma words_spec r l : finite r = true → lang r l ↔ l ∈ words r.
Proof.
  revert l. induction r as [| |c| |a IHa b IHb|a IHa b IHb|a IHa]; intros l; simpl; try done.
  - intros _. split; [inversion 1|set_solver].
  - intros _. rewrite lang_empty. set_solver.
  - intros _. rewrite lang_chr. set_solver.
  - intros [Ha Hb]%andb_true_iff. rewrite lang_cat. setoid_rewrite (λ l, IHa l Ha). setoid_rewrite (λ l, IHb l Hb).
    rewrite list_elem_of_In, in_concat. setoid_rewrite in_map_iff. split.
    + intros (u & v & -> & Hu & Hv). exists (map (app u) (words b)). split; [exists u; split; [done|by apply list_elem_of_In]|].
      apply in_map, list_elem_of_In, Hv.
    + intros (k & (u & <- & Hu) & (v & <- & Hv)%in_map_iff). exists u, v. by rewrite !list_elem_of_In.
  - intros [Ha Hb]%andb_true_iff. rewrite lang_or, elem_of_app, IHa, IHb by done. done.
Qed.

(** What follows [p] in a word. *)
Fixpoint after (p l : list ascii) : option (list ascii) :=
  match p, l with
  | [], _ => Some l
  | c :: p, d :: l => if Ascii.eqb c d then after p l else None
  | _, [] => None
  end.

Lemma after_spec p l k : after p l = Some k ↔ l = p ++ k.
Proof.
  revert l. induction p as [|c p IH]; intros l; simpl; [naive_solver|].
  destruct l as [|d l]; [naive_solver|]. destruct (Ascii.eqb_spec c d); [subst; rewrite IH|]; naive_solver.
Qed.

Lemma elem_of_after p k (L : list (list ascii)) : p ++ k ∈ L ↔ k ∈ omap (after p) L.
Proof.
  rewrite list_elem_of_omap. setoid_rewrite after_spec. split; [eauto|]. intros (l & Hl & ->). done.
Qed.

(** ** A prefix that no word of the pattern has *)

Definition derivs (l : list ascii) (r : re) : re := foldl (λ r c, deriv c r) r l.
Fixpoint void (r : re) : bool :=
  match r with
  | Nothing => true
  | Cat a b => void a || void b
  | Or a b => void a && void b
  | _ => false
  end.

Lemma void_lang r l : void r = true → ¬ lang r l.
Proof.
  revert l. induction r as [| | | |a IHa b IHb|a IHa b IHb|a IHa]; intros l; simpl; try done.
  - inversion 2.
  - rewrite orb_true_iff, lang_cat. naive_solver.
  - rewrite andb_true_iff, lang_or. naive_solver.
Qed.

Lemma derivs_lang l k r : lang (derivs l r) k ↔ lang r (l ++ k).
Proof. revert r. induction l as [|c l IH]; intros r; simpl; [done|]. by rewrite IH, deriv_spec. Qed.

Lemma dead_prefix l k r : void (derivs l r) = true → ¬ lang r (l ++ k).
Proof. intros Hv. rewrite <- derivs_lang. by apply void_lang. Qed.

(** ** Matching *)

Definition full (r : re) (s : string) : bool := matches r (chars s).
(** The text without a final newline, when it has one. *)
Definition before_newline (l : list ascii) : option (list ascii) :=
  match rev l with c :: k => if Ascii.eqb c newline then Some (rev k) else None | [] => None end.
Definition dollar_match (r : re) (s : string) : bool :=
  matches r (chars s) || match before_newline (chars s) with Some l => matches r l | None => false end.

Lemma dollar_match_spec r s :
  dollar_match r s = true ↔ lang r (chars s) ∨ ∃ l, chars s = l ++ [newline] ∧ lang r l.
Proof.
  unfold dollar_match, before_newline. rewrite orb_true_iff, matches_spec. apply or_iff_compat_l.
  destruct (rev (chars s)) as [|c k] eqn:Hr.
  - apply (f_equal (@rev _)) in Hr. rewrite rev_involutive in Hr. rewrite Hr. split; [done|].
    intros (l & Hl & _). by destruct l.
  - apply (f_equal (@rev _)) in Hr. rewrite rev_involutive in Hr. simpl in Hr. rewrite Hr.
    destruct (Ascii.eqb_spec c newline) as [->|Hne].
    + rewrite matches_spec. split; [eauto|]. intros (l & Hl & Hlang). by apply app_inj_tail in Hl as [-> _].
    + split; [done|]. intros (l & Hl & _). by apply app_inj_tail in Hl as [_ ?].
Qed.

(** On a text without newlines [$] is the end. *)
Lemma dollar_match_plain r s : newline ∉ chars s → dollar_match r s = true ↔ lang r (chars s).
Proof.
  intros Hn. rewrite dollar_match_spec. split; [|auto]. intros [?|(l & Hl & _)]; [done|].
  exfalso. apply Hn. rewrite Hl. set_solver.
Qed.
