(* ===== verification/ProtectSafety.v ===== *)
(** * Server-wide protection ([users/server_protection.py])

    The rules that say which path needs which permission, and the middleware in
    front of the application.  The rules are the source's regular expressions as
    data ([Regex.v]). *)

From S2P Require Import Prelude PyStr Permissions Regex UserModel AuthService Http UsersApi UserStores.
From S2P Require Import AuthSafety UsersSafety UsersAccess AuthExample.
From Stdlib Require Import Ascii.

(** ** The rules *)

Definition path_slash : ascii := "/"%char.
Definition GET_HEAD : option (list string) := Some ["GET"; "HEAD"].

(** An optional slash, and an optional path below. *)
Definition slash_opt : re := opt_re (lit "/").
Definition below_opt : re := opt_re (Cat (lit "/") (Many any)).
(** [/api/(v1/)?qcli/] *)
Definition api_qcli : re := cats [lit "/api/"; opt_re (lit "v1/"); lit "qcli/"].
Definition any_cli : re := alts [lit "qcli"; lit "cli"; lit "v1/qcli"; lit "v1/cli"].

Definition PUBLIC_PATHS : list (re * option (list string)) :=
  [ (cats [lit "/api/v1/qcli/sessions"; slash_opt], Some ["POST"]);
    (cats [lit "/api/"; any_cli; lit "/version"; opt_re (lit "s"); slash_opt], GET_HEAD);
    (cats [lit "/api/"; any_cli; lit "/capabilities"; slash_opt], GET_HEAD);
    (cats [lit "/"; opt_re (lit "api/"); opt_re (lit "qcli/"); lit "health";
           opt_re (Or (lit "z") (Cat (lit "/") (Many any)))], None);
    (cats [lit "/api/v1/qcli/auth/mode"; slash_opt], GET_HEAD) ].

Definition SELF_PROTECTED : re :=
  cats [lit "/api/v1/qcli/"; alts [lit "sessions"; lit "users"; lit "groups"; lit "tokens"]; below_opt].

Definition HTTP_RULES : list (re * option (list string) * string) :=
  [ (cats [api_qcli; lit "fs/"; alts [lit "ls"; lit "cat"; lit "stat"; lit "download"]; slash_opt], None, "files:read");
    (cats [api_qcli; lit "fs"; below_opt], None, "files:write");
    (cats [api_qcli; lit "data-explorer"; below_opt], None, "data:query");
    (cats [api_qcli; lit "jobs"; below_opt], GET_HEAD, "jobs:read");
    (cats [api_qcli; lit "jobs"; below_opt], None, "jobs:manage");
    (cats [lit "/api/v1/qcli/audit"; slash_opt], GET_HEAD, "audit:read");
    (cats [lit "/api/v1/qcli/audit"; slash_opt], None, "audit:clear");
    (cats [api_qcli; lit "execute"; opt_re (lit "/stream"); slash_opt], None, "commands:execute");
    (cats [lit "/api/qcli/mcp"; slash_opt], None, "commands:execute") ].

Definition WS_RULES : list (re * option string) :=
  [ (cats [lit "/ws/"; opt_re (lit "v1/"); lit "qcli/events"; slash_opt], None);
    (cats [lit "/ws/"; opt_re (lit "v1/"); lit "qcli/logs"; slash_opt], Some "logs:read");
    (cats [lit "/ws/"; opt_re (lit "v1/"); lit "qcli/shell"; slash_opt], Some "shell:execute") ].

(** [methods is None or method in methods] *)
Definition method_in (method : string) (methods : option (list string)) : bool :=
  match methods with None => true | Some l => bool_decide (method ∈ l) end.

Definition execute_of (base : string) : re := cats [lit base; lit "/execute"; opt_re (lit "/stream"); slash_opt].

Definition http_permission (path method : string) (base_paths : list string) : option string :=
  match List.find (λ '(pattern, methods, _), dollar_match pattern path && method_in method methods) HTTP_RULES with
  | Some (_, _, permission) => Some permission
  | None => if existsb (λ base, dollar_match (execute_of base) path) base_paths then Some "commands:execute" else None
  end.

Definition _normalize_base (path : string) : string := "/" +:+ strip_of path_slash (strip path).

Definition ws_permission (path : string) : option string :=
  match List.find (λ '(pattern, _), dollar_match pattern path) WS_RULES with
  | Some (_, permission) => permission
  | None => None
  end.

(** ** The middleware *)

Definition rstrip_slash (s : string) : string := str (rstrip_chars (Ascii.eqb path_slash) (chars s)).

(** What became of a request or an upgrade. *)
Inductive reached :=
| App (scope_auth : option AuthContext)
| SendJson (status : Z) (error : string)
| Close (code : Z) (reason : string).

(** An HTTP request: its path, its method, its [Authorization] header, what
    [origin_allowed] says of it and the external adapter on it. *)
Record HttpScope {Host : Type} := {
  path : string;
  meth : string;
  authorization_of : option string;
  origin_is_ok : bool;
  adapter_of : py Host uexn (option ExternalAuthResult);
}.
Arguments HttpScope : clear implicits.

Section Middleware.
Context {Host : Type} `{E : AuthEnv Host}.
Abbreviation method := (py (World Host) uexn).
Context (ensure_ready : method unit) (extra_public : list (string * option (list string))) (base_paths : list string).

(** The public paths of the host and the version paths of its mounts. *)
Definition is_extra (path m : string) : bool :=
  existsb (λ '(public_path, methods),
             bool_decide (rstrip_slash path = rstrip_slash public_path) && method_in m methods) extra_public ||
  bool_decide (m ∈ ["GET"; "HEAD"]) &&
    existsb (λ base, bool_decide (rstrip_slash path ∈ [base +:+ "/version"; base +:+ "/capabilities"])) base_paths.

Definition _is_public (path m : string) : bool :=
  existsb (λ '(pattern, methods), dollar_match pattern path && method_in m methods) PUBLIC_PATHS || is_extra path m.

Definition _protected (path : string) : bool :=
  starts_with path "/api/" || starts_with path "/ws/" ||
  existsb (λ base, bool_decide (path = base) || starts_with path (base +:+ "/")) base_paths.

Definition _http (h : HttpScope Host) : method reached :=
  let m := upper (meth h) in
  if bool_decide (m = "OPTIONS") || negb (_protected (path h)) || _is_public (path h) m ||
     dollar_match SELF_PROTECTED (path h)
  then mret (App None)
  else
    _ ← ensure_ready;
    try_except
      (ctx ← authenticate_request (bool_decide (m ∈ SAFE_METHODS)) (authorization_of h) (origin_is_ok h) (adapter_of h);
       _ ← raise_if (must_change_password (c_user ctx)) (UsersApiError 403 PASSWORD_CHANGE_REQUIRED);
       _ ← (match http_permission (path h) m base_paths with
            | Some p => raise_if (negb (can ctx p)) (UsersApiError 403 ("missing permission: " +:+ p))
            | None => mret tt
            end);
       mret (App (Some ctx)))
      (λ e, match e with
            | UsersApiError code msg => mret (SendJson code msg)
            | HTTPException code detail => mret (SendJson code detail)
            | e => raise e
            end).

(** [ticket] is the first [ticket] of the query string. *)
Definition _websocket (path : string) (ticket : option string) : method reached :=
  if negb (_protected path) then mret (App None)
  else
    _ ← ensure_ready;
    ctx ← consume_ticket ticket;
    match ctx with
    | None => mret (Close 4401 "unauthorized")
    | Some ctx =>
        if must_change_password (c_user ctx) ||
           match ws_permission path with Some p => negb (can ctx p) | None => false end
        then mret (Close 4403 "forbidden")
        else mret (App (Some ctx))
    end.
End Middleware.

Example rules_ex :
  http_permission "/api/qcli/fs/ls" "GET" [] = Some "files:read" ∧
  http_permission "/api/v1/qcli/fs/upload" "POST" [] = Some "files:write" ∧
  http_permission "/api/qcli/jobs/x" "GET" [] = Some "jobs:read" ∧
  http_permission "/api/qcli/jobs/x" "DELETE" [] = Some "jobs:manage" ∧
  http_permission "/cli/execute/stream" "POST" ["/cli"] = Some "commands:execute" ∧
  http_permission "/api/v1/qcli/commands" "GET" [] = None ∧
  ws_permission "/ws/qcli/shell" = Some "shell:execute".
Proof. vm_compute. done. Qed.

(** * What gets past the server's protection *)

(** ** The paths of the features *)

(** The two places where the features are mounted. *)
Definition api_bases : list string := ["/api/qcli/"; "/api/v1/qcli/"].
Definition features : list string := ["fs"; "data-explorer"; "jobs"].

(** What may follow the name of a feature: nothing, or a path without newline. *)
Definition tail_ok (t : string) : Prop := t = "" ∨ (∃ u, t = "/" +:+ u) ∧ newline ∉ chars t.

Definition fs_read_tails : list string :=
  ["/ls/"; "/ls"; "/cat/"; "/cat"; "/stat/"; "/stat"; "/download/"; "/download"].

(** The permission of a path of a feature. *)
Definition feature_permission (f t m : string) : string :=
  if bool_decide (f = "fs") then if bool_decide (t ∈ fs_read_tails) then "files:read" else "files:write"
  else if bool_decide (f = "data-explorer") then "data:query"
  else if bool_decide (m ∈ ["GET"; "HEAD"]) then "jobs:read" else "jobs:manage".

(** ** Matching a fixed start and an open end *)

Lemma chars_feature b f t : chars (b +:+ f +:+ t) = chars (b +:+ f) ++ chars t.
Proof. by rewrite !chars_app, app_assoc. Qed.

Lemma plain_feature b f t : b ∈ api_bases → f ∈ features → tail_ok t → newline ∉ chars (b +:+ f +:+ t).
Proof.
  intros Hb Hf Ht. rewrite chars_feature. intros Hin. apply elem_of_app in Hin as [Hin|Hin].
  - revert Hin. unfold api_bases, features in *.
    repeat (apply elem_of_cons in Hb as [->|Hb]; [repeat (apply elem_of_cons in Hf as [->|Hf];
      [intros Hin; apply (proj1 (list_elem_of_In _ _)) in Hin; vm_compute in Hin; intuition discriminate|]); by apply elem_of_nil in Hf|]).
    by apply elem_of_nil in Hb.
  - destruct Ht as [->|[_ Ht]]; [by apply elem_of_nil in Hin|done].
Qed.

(** A pattern no path that starts so matches. *)
Lemma no_match r b f t :
  newline ∉ chars (b +:+ f +:+ t) → void (derivs (chars (b +:+ f)) r) = true → dollar_match r (b +:+ f +:+ t) = false.
Proof.
  intros Hn Hv. apply not_true_is_false. rewrite dollar_match_plain by done. rewrite chars_feature. by apply dead_prefix.
Qed.

Lemma lang_cats_cons r rs l : lang (cats (r :: rs)) l ↔ ∃ u v, l = u ++ v ∧ lang r u ∧ lang (cats rs) v.
Proof. apply lang_cat. Qed.

Lemma lang_below t : tail_ok t → lang (cats [below_opt]) (chars t).
Proof.
  intros Ht. rewrite <- (app_nil_r (chars t)). constructor; [|constructor]. unfold below_opt, opt_re. apply lang_or.
  destruct Ht as [->|[[u ->] Hn]]; [right; constructor|left]. rewrite chars_app. constructor; [by apply lang_lit|].
  apply lang_many_class, Forall_forall. intros c Hc. apply negb_true_iff. destruct (Ascii.eqb_spec c newline); [|done].
  subst. exfalso. apply Hn. rewrite chars_app. set_solver.
Qed.

(** The rule of everything below a feature. *)
Lemma feature_rule b f t :
  b ∈ api_bases → f ∈ features → tail_ok t → dollar_match (cats [api_qcli; lit f; below_opt]) (b +:+ f +:+ t) = true.
Proof.
  intros Hb Hf Ht. apply dollar_match_plain; [by apply plain_feature|]. rewrite !chars_app.
  constructor; [|constructor; [by apply lang_lit|by apply lang_below]]. unfold api_bases in Hb.
  apply matches_spec. repeat (apply elem_of_cons in Hb as [->|Hb]; [vm_compute; reflexivity|]). by apply elem_of_nil in Hb.
Qed.

Definition fs_read_re : re :=
  cats [api_qcli; lit "fs/"; alts [lit "ls"; lit "cat"; lit "stat"; lit "download"]; slash_opt].

Lemma fs_read_rule b t :
  b ∈ api_bases → tail_ok t → dollar_match fs_read_re (b +:+ "fs" +:+ t) = bool_decide (t ∈ fs_read_tails).
Proof.
  intros Hb Ht. apply eq_bool_prop_intro. rewrite !Is_true_true, bool_decide_eq_true.
  rewrite dollar_match_plain by (apply plain_feature; set_solver).
  rewrite words_spec by reflexivity. rewrite chars_feature, elem_of_after.
  assert (Hw : omap (after (chars (b +:+ "fs"))) (words fs_read_re) = map chars fs_read_tails).
  { unfold api_bases in Hb. repeat (apply elem_of_cons in Hb as [->|Hb]; [vm_compute; reflexivity|]). by apply elem_of_nil in Hb. }
  rewrite Hw. rewrite list_elem_of_fmap. split; [intros (t' & ->%(inj _) & ?)|]; eauto.
Qed.

(** ** The rules, for a path of a feature *)

Lemma base_cases b : b ∈ api_bases → b = "/api/qcli/" ∨ b = "/api/v1/qcli/".
Proof. unfold api_bases. set_solver. Qed.

Lemma feature_cases f : f ∈ features → f = "fs" ∨ f = "data-explorer" ∨ f = "jobs".
Proof. unfold features. set_solver. Qed.

(** Compute a statement about a base and a feature. *)
Ltac each_base Hb := apply base_cases in Hb as [->| ->]; vm_compute; repeat constructor.

Lemma feature_not_public b f t m :
  b ∈ api_bases → f ∈ features → tail_ok t →
  existsb (λ '(pattern, methods), dollar_match pattern (b +:+ f +:+ t) && method_in m methods) PUBLIC_PATHS = false ∧
  dollar_match SELF_PROTECTED (b +:+ f +:+ t) = false.
Proof.
  intros Hb Hf Ht. pose proof (plain_feature b f t Hb Hf Ht) as Hn.
  assert (Hvoid : Forall (λ '(r, _), void (derivs (chars (b +:+ f)) r) = true) PUBLIC_PATHS ∧
    void (derivs (chars (b +:+ f)) SELF_PROTECTED) = true).
  { clear - Hb Hf. apply feature_cases in Hf as [->|[->| ->]]; each_base Hb. }
  destruct Hvoid as [Hvoid Hself]. split; [|by apply no_match].
  induction Hvoid as [|[r ms] l Hr Hl IH]; [done|]. cbn [existsb]. by rewrite no_match, IH.
Qed.

Lemma http_rules_feature b f t m bases :
  b ∈ api_bases → f ∈ features → tail_ok t →
  http_permission (b +:+ f +:+ t) m bases = Some (feature_permission f t m).
Proof.
  intros Hb Hf Ht. pose proof (plain_feature b f t Hb Hf Ht) as Hn.
  pose proof (feature_rule b f t Hb Hf Ht) as Hrule. unfold http_permission, HTTP_RULES, feature_permission.
  apply feature_cases in Hf as [->|[->| ->]].
  - pose proof (fs_read_rule b t Hb Ht) as Hread. unfold fs_read_re in Hread. cbn [List.find].
    rewrite Hread, Hrule. cbn [method_in andb]. rewrite andb_true_r. by case_bool_decide.
  - cbn [List.find]. rewrite (no_match (cats [api_qcli; lit "fs/"; _; _]) b "data-explorer") by (done || each_base Hb).
    rewrite (no_match (cats [api_qcli; lit "fs"; below_opt])) by (done || each_base Hb).
    by rewrite Hrule.
  - cbn [List.find]. rewrite (no_match (cats [api_qcli; lit "fs/"; _; _]) b "jobs") by (done || each_base Hb).
    rewrite (no_match (cats [api_qcli; lit "fs"; below_opt])) by (done || each_base Hb).
    rewrite (no_match (cats [api_qcli; lit "data-explorer"; below_opt])) by (done || each_base Hb).
    rewrite Hrule. cbn [andb method_in GET_HEAD]. by case_bool_decide.
Qed.

(** ** The middleware *)

Section Guard.
Context {Host : Type} `{E : AuthEnv Host}.
Abbreviation method := (py (World Host) uexn).
Context (ensure_ready : method unit) (extra_public : list (string * option (list string))) (base_paths : list string).
Implicit Types (s : World Host) (h : HttpScope Host).

(** What the middleware established of a request it let through as [a]. *)
Definition let_through h s (a : option AuthContext) s' (permission : option string) : Prop :=
  ∃ ctx s1, a = Some ctx ∧ ensure_ready s = (inr tt, s1) ∧
    authenticate_request (bool_decide (upper (meth h) ∈ SAFE_METHODS)) (authorization_of h) (origin_is_ok h)
      (adapter_of h) s1 = (inr ctx, s') ∧
    must_change_password (c_user ctx) = false ∧
    (∀ p, permission = Some p → can ctx p = true) ∧
    (external_auth = false → live s1 (u_id (c_user ctx)) = Some (c_user ctx)).

Lemma authenticated_request_live safe a o ad s ctx s' :
  external_auth = false → authenticate_request safe a o ad s = (inr ctx, s') →
  live s (u_id (c_user ctx)) = Some (c_user ctx).
Proof.
  intros Hext. unfold authenticate_request. rewrite Hext. destruct (bearer_token a); [|done].
  apply authenticated_live.
Qed.

Lemma http_app h s a s' :
  upper (meth h) ≠ "OPTIONS" → _protected base_paths (path h) = true →
  _is_public extra_public base_paths (path h) (upper (meth h)) = false → dollar_match SELF_PROTECTED (path h) = false →
  _http ensure_ready extra_public base_paths h s = (inr (App a), s') →
  let_through h s a s' (http_permission (path h) (upper (meth h)) base_paths).
Proof.
  intros Ho Hp Hpub Hself. unfold _http. rewrite bool_decide_eq_false_2, Hp, Hpub, Hself by done. cbn [negb orb].
  rewrite py_bind_eq. destruct (ensure_ready s) as [[e|[]] s1] eqn:Hr; [done|]. unfold try_except.
  rewrite py_bind_eq. destruct (authenticate_request _ _ _ _ s1) as [[e|ctx] s2] eqn:Hauth.
  { by destruct e. }
  rewrite py_bind_eq. unfold raise_if. destruct (must_change_password (c_user ctx)) eqn:Hm; [done|]. cbn.
  rewrite py_bind_eq. intros Hrest. exists ctx, s1.
  assert (Ha : a = Some ctx ∧ s2 = s' ∧
    ∀ p, http_permission (path h) (upper (meth h)) base_paths = Some p → can ctx p = true).
  { destruct (http_permission _ _ _) as [p|]; [destruct (can ctx p) eqn:Hc|]; cbn in Hrest; [|done|];
      injection Hrest as <- <-; naive_solver. }
  destruct Ha as (-> & -> & Hperm). split_and!; [done..|]. intros Hext. by eapply authenticated_request_live.
Qed.


End Guard.

(** No rule covers a path with a newline inside: any caller with a token passes. *)
Example newline_slips :
  http_permission ("/api/qcli/jobs/a" +:+ String newline "b/trigger") "POST" [] = None ∧
  http_permission "/api/qcli/jobs/a/trigger" "POST" [] = Some "jobs:manage".
Proof. vm_compute. done. Qed.

(** * The protection in front of a seeded server *)

Definition ready : py (World Host) uexn unit := mret tt.

(** A deletion of a file by the root user, with its bearer token. *)
Definition rm_request : HttpScope Host :=
  {| path := "/api/v1/qcli/fs/rm"; meth := "delete"; authorization_of := Some ("Bearer " +:+ l_token result);
     origin_is_ok := false; adapter_of := mret None |}.
Definition rm_answer : (uexn + reached) * World Host :=
  Eval vm_compute in _http ready [] ["/cli"] rm_request inside.
Definition rm_auth : option AuthContext :=
  Eval vm_compute in match rm_answer.1 with inr (App a) => a | _ => None end.


(** Without a token the answer is 401, without the permission 403. *)
Example refused :
  (_http ready [] [] {| path := "/api/qcli/jobs"; meth := "GET"; authorization_of := None;
     origin_is_ok := true; adapter_of := mret None |} inside).1 = inr (SendJson 401 "unauthorized") ∧
  (_http ready [] [] {| path := "/api/qcli/version"; meth := "GET"; authorization_of := None;
     origin_is_ok := true; adapter_of := mret None |} inside).1 = inr (App None).
Proof. vm_compute. done. Qed.

Definition ws_answer : (uexn + reached) * World Host :=
  Eval vm_compute in _websocket ready [] "/ws/qcli/shell" (Some "tok-7") issued.2.
Definition ws_auth : option AuthContext :=
  Eval vm_compute in match ws_answer.1 with inr (App a) => a | _ => None end.

