(* ===== verification/Origins.v ===== *)
(** * Origins ([core/security.py], and the same functions of [users/_http.py])

    Which [Origin] header a request may have.  [urlsplit] is the standard
    library's, a parameter; [fnmatchcase] is modelled with the patterns of
    [Regex.v]. *)

From S2P Require Import Prelude PyStr Regex.
From Stdlib Require Import Ascii.

(** ** [fnmatch.fnmatchcase] *)

Definition in_class_range (a b c : ascii) : bool :=
  ((N_of_ascii a <=? N_of_ascii c) && (N_of_ascii c <=? N_of_ascii b))%N.

(** The members of a bracket, ranges and single characters. *)
Fixpoint class_of (l : list ascii) (c : ascii) : bool :=
  match l with
  | a :: ((d :: b :: l') as l1) =>
      if Ascii.eqb d "-"%char then in_class_range a b c || class_of l' c else Ascii.eqb a c || class_of l1 c
  | a :: l' => Ascii.eqb a c || class_of l' c
  | [] => false
  end.

(** The text up to the closing bracket, which may stand first as a member. *)
Fixpoint until_bracket (first : bool) (l : list ascii) : option (list ascii * list ascii) :=
  match l with
  | [] => None
  | c :: l =>
      if Ascii.eqb c "]"%char && negb first then Some ([], l)
      else match until_bracket false l with Some (k, rest) => Some (c :: k, rest) | None => None end
  end.

Definition bracket (l : list ascii) : option (re * list ascii) :=
  match l with
  | c :: l' =>
      if Ascii.eqb c "!"%char then
        match until_bracket true l' with Some (k, rest) => Some (Class (λ x, negb (class_of k x)), rest) | None => None end
      else match until_bracket true l with Some (k, rest) => Some (Class (class_of k), rest) | None => None end
  | [] => None
  end.

(** [fnmatch.translate]; the fuel is the length of the pattern. *)
Fixpoint translate (fuel : nat) (l : list ascii) : re :=
  match fuel, l with
  | S fuel, c :: l =>
      if Ascii.eqb c "*"%char then Regex.Cat (Many (Class (λ _, true))) (translate fuel l)
      else if Ascii.eqb c "?"%char then Regex.Cat (Class (λ _, true)) (translate fuel l)
      else if Ascii.eqb c "["%char then
        match bracket l with
        | Some (r, rest) => Regex.Cat r (translate fuel rest)
        | None => Regex.Cat (Chr c) (translate fuel l)
        end
      else Regex.Cat (Chr c) (translate fuel l)
  | _, _ => Empty
  end.

Definition fnmatchcase (name pat : string) : bool := full (translate (len pat) (chars pat)) name.

Example fnmatch_ex :
  fnmatchcase "http://127.0.0.1:4200" "http://127.0.0.1:*" = true ∧
  fnmatchcase "https://a.example.com" "https://*.example.com" = true ∧
  fnmatchcase "https://example.com" "https://*.example.com" = false ∧
  fnmatchcase "b-" "[!a-c]?" = false ∧ fnmatchcase "]x" "[]a]?" = true ∧ fnmatchcase "[" "[" = true.
Proof. vm_compute. done. Qed.

(** ** Origins *)

Record SplitResult := {
  u_scheme : string; u_netloc : string; u_path : string; u_query : string; u_fragment : string;
  u_hostname : option string;
  (** [None] inside: the access raises [ValueError] *)
  u_port : option (option Z);
}.

(** [None]: [urlsplit] raises [ValueError]. *)
Class UrlLib := { urlsplit : string → option SplitResult }.

Definition _DEFAULT_PORTS : dict string Z := [("http", 80); ("https", 443)].
Definition _WS_SCHEMES : dict string string := [("ws", "http"); ("wss", "https")].

(** What the checks read of a request. *)
Record Scope := {
  scope_scheme : option string;
  host_header : option string;
  forwarded_proto : option string;
  forwarded_host : option string;
}.

Definition rstrip_slashes (s : string) : string := str (rstrip_chars (Ascii.eqb "/"%char) (chars s)).

(** [fwd.split(",")[0].strip()] if it is not empty *)
Definition first_entry (fwd : option string) : option string :=
  match fwd with
  | None => None
  | Some f => let e := strip (default "" (head (split ","%char f))) in if is_empty e then None else Some e
  end.

Section Origins.
Context `{U : UrlLib}.

Definition _normalize_origin (scheme netloc : string) : option (string * string * Z) :=
  let low := lower (strip scheme) in
  let scheme := default low (dict_get low _WS_SCHEMES) in
  match dict_get scheme _DEFAULT_PORTS with
  | None => None
  | Some default_port =>
      if is_empty netloc then None
      else
        match urlsplit ("//" +:+ strip netloc) with
        | None => None
        | Some parts =>
            let host := lower (or_empty (u_hostname parts)) in
            match u_port parts with
            | None => None
            | Some port => if is_empty host then None else Some (scheme, host, default default_port port)
            end
        end
  end.

Definition is_same_origin (origin : option string) (s : Scope) (trust_proxy : bool) : bool :=
  match origin with
  | None => false
  | Some origin =>
      if is_empty origin then false
      else
        match urlsplit (rstrip_slashes (strip origin)) with
        | None => false
        | Some o =>
            if truthy (u_path o) || truthy (u_query o) || truthy (u_fragment o) then false
            else
              match _normalize_origin (u_scheme o) (u_netloc o) with
              | None => false
              | Some actual =>
                  let scheme := if truthy_opt (scope_scheme s) then or_empty (scope_scheme s) else "http" in
                  let host := host_header s in
                  let scheme := if trust_proxy then default scheme (first_entry (forwarded_proto s)) else scheme in
                  let host := if trust_proxy then
                                match first_entry (forwarded_host s) with Some h => Some h | None => host end
                              else host in
                  match host with
                  | None => false
                  | Some h => if is_empty h then false
                              else bool_decide (Some actual = _normalize_origin scheme h)
                  end
              end
        end
  end.

(** One of the patterns matches. *)
Definition pattern_allows (origin pattern : string) : bool :=
  let pattern := lower (rstrip_slashes pattern) in
  bool_decide (pattern = "*") || bool_decide (pattern = origin) || fnmatchcase origin pattern.

Definition origin_allowed (origin : option string) (allowed : list string) (scope : option Scope)
    (trust_proxy : bool) : bool :=
  match origin with
  | None => false
  | Some o =>
      if is_empty o then false
      else if match scope with Some s => is_same_origin origin s trust_proxy | None => false end then true
      else existsb (pattern_allows (lower (rstrip_slashes o))) allowed
  end.

(** [WebSocketOriginMiddleware]: whether the upgrade reaches the application
    (else it is closed with 4403); a missing [Origin] does. *)
Definition websocket_origin (origin : option string) (allowed : list string) (scope : Scope)
    (trust_proxy : bool) : bool :=
  match origin with None => true | Some _ => origin_allowed origin allowed (Some scope) trust_proxy end.
End Origins.

(** ** What a pattern lets through *)

Definition glob_char (c : ascii) : bool :=
  Ascii.eqb c "*"%char || Ascii.eqb c "?"%char || Ascii.eqb c "["%char.

(** A text without glob characters stands for itself. *)
Lemma translate_plain n l k :
  (length l ≤ n)%nat → Forall (λ c, glob_char c = false) l → lang (translate n l) k ↔ k = l.
Proof.
  intros Hn Hl. revert n k Hn. induction Hl as [|c l Hc Hl IH]; intros n k Hn; simpl.
  { destruct n; simpl; apply lang_empty. }
  destruct n as [|n]; simpl in *; [lia|]. unfold glob_char in Hc. apply orb_false_elim in Hc as [[Hs Hq]%orb_false_elim Hb].
  rewrite Hs, Hq, Hb, lang_cat. setoid_rewrite lang_chr. setoid_rewrite (λ v, IH n v ltac:(lia)). naive_solver.
Qed.

(** A pattern with one final star lets through what starts with the rest. *)
Lemma translate_prefix n l k :
  (S (length l) ≤ n)%nat → Forall (λ c, glob_char c = false) l →
  lang (translate n (l ++ ["*"%char])) k ↔ ∃ v, k = l ++ v.
Proof.
  intros Hn Hl. revert n k Hn. induction Hl as [|c l Hc Hl IH]; intros n k Hn; simpl in *.
  { destruct n as [|n]; simpl; [lia|]. rewrite lang_cat. setoid_rewrite lang_many_class.
    replace (translate n []) with Empty by (by destruct n). setoid_rewrite lang_empty. split.
    - intros (u & v & -> & _ & ->). rewrite app_nil_r. eauto.
    - intros [v ->]. exists v, []. rewrite app_nil_r. split_and!; [done| |done]. by apply Forall_forall. }
  destruct n as [|n]; simpl in *; [lia|]. unfold glob_char in Hc. apply orb_false_elim in Hc as [[Hs Hq]%orb_false_elim Hb].
  rewrite Hs, Hq, Hb, lang_cat. setoid_rewrite lang_chr. setoid_rewrite (λ v, IH n v ltac:(lia)). split.
  - intros (u & v & -> & -> & v' & ->). by exists v'.
  - intros [v ->]. exists [c], (l ++ v). eauto.
Qed.

Definition plain (s : string) : Prop := Forall (λ c, glob_char c = false) (chars s).

Lemma fnmatch_plain name pat : plain pat → fnmatchcase name pat = true ↔ name = pat.
Proof.
  intros Hp. unfold fnmatchcase, full. rewrite matches_spec, len_chars, translate_plain by done.
  split; [apply (inj _)|by intros ->].
Qed.

Lemma fnmatch_prefix name pat : plain pat → fnmatchcase name (pat +:+ "*") = true ↔ ∃ t, name = pat +:+ t.
Proof.
  intros Hp. unfold fnmatchcase, full. rewrite matches_spec, len_chars, chars_app.
  rewrite translate_prefix by (done || rewrite length_app; simpl; lia). split.
  - intros [v Hv]. exists (str v). apply (inj String.list_ascii_of_string). by rewrite chars_app, chars_str.
  - intros [t ->]. exists (chars t). by rewrite chars_app.
Qed.

(** The pattern "*" lets everything through, a pattern without glob characters
    that origin only, and one that ends in its only star what starts with it. *)
Lemma pattern_allows_spec o pattern :
  let p := lower (rstrip_slashes pattern) in
  (plain p → pattern_allows o pattern = bool_decide (o = p)) ∧
  (∀ q, p = q +:+ "*" → plain q → pattern_allows o pattern = starts_with o q).
Proof.
  unfold pattern_allows. split.
  - intros Hp. apply eq_bool_prop_intro. rewrite !Is_true_true, !orb_true_iff, !bool_decide_eq_true, fnmatch_plain by done.
    split; [|auto]. intros [[Hs|?]|?]; [|done..]. exfalso. rewrite Hs in Hp. by inversion Hp.
  - intros q Hq Hp. rewrite Hq. apply eq_bool_prop_intro.
    rewrite !Is_true_true, !orb_true_iff, !bool_decide_eq_true, fnmatch_prefix, starts_with_spec by done.
    split; [|auto]. intros [[Hs|<-]|?]; [|by exists "*"|done].
    assert (q = "") as ->; [|by exists o]. apply (f_equal len) in Hs. rewrite len_app in Hs. destruct q; [done|]. simpl in Hs. lia.
Qed.

Section Allowed.
Context `{U : UrlLib}.

(** Which origins are let through when every allowed pattern is a fixed origin
    or a prefix followed by one star, at the end: the request's own origin, and
    what a pattern names or starts with, cases and final slashes apart.  In
    particular nothing is let through without an [Origin] header. *)
Theorem origin_allowed_spec origin allowed scope trust_proxy :
  (∀ p, p ∈ allowed → plain (lower (rstrip_slashes p)) ∨ ∃ q, lower (rstrip_slashes p) = q +:+ "*" ∧ plain q) →
  origin_allowed origin allowed (Some scope) trust_proxy = true ↔
  ∃ o, origin = Some o ∧ o ≠ "" ∧
    (is_same_origin origin scope trust_proxy = true ∨
     ∃ p, p ∈ allowed ∧
       (lower (rstrip_slashes o) = lower (rstrip_slashes p) ∧ plain (lower (rstrip_slashes p)) ∨
        ∃ q t, lower (rstrip_slashes p) = q +:+ "*" ∧ plain q ∧ lower (rstrip_slashes o) = q +:+ t)).
Proof.
  intros Hall. unfold origin_allowed. destruct origin as [o|]; [|naive_solver].
  unfold is_empty. case_bool_decide as He; [naive_solver|].
  destruct (is_same_origin (Some o) scope trust_proxy) eqn:Hs; [naive_solver|].
  rewrite existsb_exists. split.
  - intros (p & Hp%list_elem_of_In & Ha). exists o. split_and!; [done..|]. right. exists p. split; [done|].
    destruct (pattern_allows_spec (lower (rstrip_slashes o)) p) as [Hfix Hstar].
    destruct (Hall p Hp) as [Hpl|(q & Hq & Hpl)].
    + left. rewrite Hfix in Ha by done. by apply bool_decide_eq_true in Ha.
    + right. rewrite (Hstar q) in Ha by done. apply starts_with_spec in Ha as [t Ht]. eauto.
  - intros (o' & [= <-] & _ & [?|(p & Hp & Hcase)]); [done|]. exists p. split; [by apply list_elem_of_In|].
    destruct (pattern_allows_spec (lower (rstrip_slashes o)) p) as [Hfix Hstar].
    destruct Hcase as [[Ho Hpl]|(q & t & Hq & Hpl & Ho)].
    + rewrite Hfix by done. by apply bool_decide_eq_true.
    + rewrite (Hstar q) by done. apply starts_with_spec. eauto.
Qed.
End Allowed.
