(* ===== verification/McpCore.v ===== *)
(** * MCP tools ([core/mcp/core.py])

    The tool model, the registry of providers with the tools a caller sees, and
    the check of a call's arguments.  Providers and tools are host code: methods
    of the server's state [World].  A schema is a dictionary of the shape
    [object_schema] gives. *)

From S2P Require Import Prelude PyStr Values Regex Commands.
From Stdlib Require Import Ascii.

(** ** Data *)

Record CliMcpOptions := {
  enabled : bool;
  tools_allowed : option (list string);
  exclude : option (list string);
  token : option string;
  instructions : option string;
}.
Definition default_mcp_options : CliMcpOptions :=
  {| enabled := true; tools_allowed := None; exclude := None; token := None; instructions := None |}.

(** The value of [CliServerOptions.mcp]; a dictionary becomes the options of its
    fields. *)
Inductive mcp_setting := McpNone | McpBool (b : bool) | McpOptions (o : CliMcpOptions).
Definition resolve_mcp_options (v : mcp_setting) : option CliMcpOptions :=
  match v with
  | McpNone | McpBool false => None
  | McpBool true => Some default_mcp_options
  | McpOptions o => if enabled o then Some o else None
  end.

Record McpToolResult := { r_text : string; structured : option (dict string pyval); is_error : bool }.
Definition result_error (message : string) : McpToolResult :=
  {| r_text := message; structured := None; is_error := true |}.

(** The caller; only its [can] is used. *)
Record McpCallContext := { auth : option (string → bool) }.
Definition context_can (c : McpCallContext) (permission : string) : bool :=
  match auth c with None => true | Some can => can permission end.

Definition object_schema (properties : dict string pyval) (required : list string) : dict string pyval :=
  [("type", VStr "object"); ("properties", VDict properties); ("required", VList (map VStr required));
   ("additionalProperties", VBool false)].

(** [schema.get(key) or {}] and [or []], for a schema of the right shape *)
Definition sub_dict (key : string) (d : dict string pyval) : dict string pyval :=
  match dict_get key d with Some (VDict x) => x | _ => [] end.
Definition sub_list (key : string) (d : dict string pyval) : list pyval :=
  match dict_get key d with Some (VList x) => x | _ => [] end.

Section Tools.
Context {World : Type}.

Record McpTool := {
  t_name : string;
  t_description : string;
  input_schema : dict string pyval;
  t_call : dict string pyval → McpCallContext → py World exn McpToolResult;
  t_required_permissions : list string;
  annotations : option (dict string pyval);
}.

Definition to_dict (t : McpTool) : pyval :=
  VDict ([("name", VStr (t_name t)); ("description", VStr (t_description t)); ("inputSchema", VDict (input_schema t))] ++
    match annotations t with Some ((_ :: _) as a) => [("annotations", VDict a)] | _ => [] end).

(** [get_tools] may return [None]. *)
Record IMcpToolProvider := {
  mcp_tier : option Z;
  get_tools : McpCallContext → py World exn (option (list McpTool));
}.

(** ** The registry *)

Definition TIER_BUILTIN : Z := 0.
Definition TIER_PLUGIN : Z := 1.
Definition TIER_COMMANDS : Z := 2.

Record McpToolRegistry := {
  options : option CliMcpOptions;
  _providers : list (Z * Z * IMcpToolProvider);
}.
Definition new_tool_registry (o : option CliMcpOptions) : McpToolRegistry := {| options := o; _providers := [] |}.

Definition add_provider (p : IMcpToolProvider) (builtin : bool) (r : McpToolRegistry) : McpToolRegistry :=
  let tier := match mcp_tier p with Some t => t | None => if builtin then TIER_BUILTIN else TIER_PLUGIN end in
  {| options := options r; _providers := _providers r ++ [(tier, Z.of_nat (length (_providers r)), p)] |}.

Definition provider_le (x y : Z * Z * IMcpToolProvider) : bool :=
  (x.1.1 <? y.1.1) || (x.1.1 =? y.1.1) && (x.1.2 <=? y.1.2).
Definition providers (r : McpToolRegistry) : list IMcpToolProvider := map snd (py_sort provider_le (_providers r)).

Definition name_char (c : ascii) : bool :=
  let n := N_of_ascii c in
  ((97 <=? n) && (n <=? 122) || (48 <=? n) && (n <=? 57) || (n =? 95) || (n =? 45))%N.
(** At most [n] more. *)
Fixpoint upto (n : nat) (r : re) : re := match n with O => Empty | S n => opt_re (Cat r (upto n r)) end.
Definition TOOL_NAME_RE : re := Cat (Class name_char) (upto 63 (Class name_char)).

Definition _matches (name : string) (patterns : list string) : bool :=
  existsb (λ pattern,
    let p := lower (strip pattern) in
    if ends_with p "*" then starts_with name (take_str (len p - 1) p) else bool_decide (name = p)) patterns.

(** The tool passes the checks of [tools] before the one for collisions. *)
Definition shown (o : CliMcpOptions) (c : McpCallContext) (t : McpTool) : bool :=
  dollar_match TOOL_NAME_RE (t_name t) &&
  match tools_allowed o with Some l => _matches (t_name t) l | None => true end &&
  negb match exclude o with Some ((_ :: _) as l) => _matches (t_name t) l | _ => false end &&
  forallb (context_can c) (t_required_permissions t).

Definition add_tool (o : CliMcpOptions) (c : McpCallContext) (out : dict string McpTool) (t : McpTool)
    : dict string McpTool :=
  if negb (shown o c t) then out
  else if dict_mem (t_name t) out then out
  else dict_set (t_name t) t out.

Fixpoint tools_loop (o : CliMcpOptions) (c : McpCallContext) (ps : list IMcpToolProvider)
    (out : dict string McpTool) : py World exn (dict string McpTool) :=
  match ps with
  | [] => mret out
  | p :: ps =>
      result ← try_except (ts ← get_tools p c; mret (default [] ts))
                 (λ e, match e with Exn _ => mret [] | Cancelled => raise Cancelled end);
      tools_loop o c ps (foldl (add_tool o c) out result)
  end.
Definition tools (r : McpToolRegistry) (c : McpCallContext) : py World exn (dict string McpTool) :=
  tools_loop (default default_mcp_options (options r)) c (providers r) [].
End Tools.
Arguments McpTool : clear implicits.
Arguments IMcpToolProvider : clear implicits.
Arguments McpToolRegistry : clear implicits.

(** ** Arguments *)

(** [value.is_integer()] of a float, by its [repr]: one with a positive exponent
    has no digits after the point. *)
Definition float_is_integer (r : string) : bool :=
  ends_with r ".0" || contains "e+" r.

Definition _type_ok (value : pyval) (expected : string) : bool :=
  if bool_decide (expected = "string") then match value with VStr _ => true | _ => false end
  else if bool_decide (expected = "number") then match value with VInt _ | VFloat _ => true | _ => false end
  else if bool_decide (expected = "integer") then
    match value with VInt _ => true | VFloat r => float_is_integer r | _ => false end
  else if bool_decide (expected = "boolean") then match value with VBool _ => true | _ => false end
  else if bool_decide (expected = "array") then match value with VList _ => true | _ => false end
  else if bool_decide (expected = "object") then match value with VDict _ => true | _ => false end
  else true.

Definition _TYPE_LABELS : dict string string :=
  [("string", "a string"); ("number", "a number"); ("integer", "an integer"); ("boolean", "a boolean");
   ("object", "an object"); ("array", "an array")].

(** [prop.get("type")]; without one, or with one that is not a name, every value
    is of the type. *)
Definition type_name (prop : dict string pyval) : string :=
  match dict_get "type" prop with Some (VStr t) => t | _ => "" end.
Definition items_type (prop : dict string pyval) : string := type_name (sub_dict "items" prop).

Definition _check_property (key : string) (prop : dict string pyval) (value : pyval) : option string :=
  let expected := type_name prop in
  let items := items_type prop in
  let of_items := "argument '" +:+ key +:+ "' must be an array of " +:+ items +:+ "s" in
  if negb (_type_ok value expected) then
    if bool_decide (expected = "array") && truthy items then Some of_items
    else Some ("argument '" +:+ key +:+ "' must be " +:+ default expected (dict_get expected _TYPE_LABELS))
  else if bool_decide (expected = "array") && truthy items &&
          existsb (λ v, negb (_type_ok v items)) match value with VList l => l | _ => [] end
  then Some of_items
  else None.

Definition is_null (v : option pyval) : bool := match v with None | Some VNone => true | _ => false end.

Fixpoint check_arguments (properties : dict string pyval) (arguments : list (string * pyval)) : option string :=
  match arguments with
  | [] => None
  | (key, value) :: arguments =>
      if is_null (dict_get key properties) then Some ("unknown argument '" +:+ key +:+ "'")
      else if is_null (Some value) then check_arguments properties arguments
      else match _check_property key (sub_dict key properties) value with
           | Some reason => Some reason
           | None => check_arguments properties arguments
           end
  end.

Fixpoint check_required (arguments : dict string pyval) (required : list pyval) : option string :=
  match required with
  | [] => None
  | VStr key :: required =>
      if is_null (dict_get key arguments) then Some ("missing required argument '" +:+ key +:+ "'")
      else check_required arguments required
  | _ :: required => check_required arguments required
  end.

Definition validate_arguments (arguments schema : dict string pyval) : option string :=
  match check_arguments (sub_dict "properties" schema) arguments with
  | Some reason => Some reason
  | None => check_required arguments (sub_list "required" schema)
  end.
