(* ===== verification/JobsApi.v ===== *)
(** * The routes of the jobs API ([cli_jobs_controller.py])

    A route is the scheduler's method with its exceptions mapped to HTTP
    answers.  An exception that no clause names goes on to the framework.  The
    MCP tools of the plugin ([mcp_tools.py]) call the same methods. *)

From S2P Require Import Prelude PyStr Values Events McpCore.
From S2P Require Import JobModel JobStorage JobSlots.
From S2P Require Import JobInvariant JobScheduler JobStats JobMemory JobRuns.
From Stdlib Require Import Ascii.

(** The status code and the JSON body of an answer. *)
Record Response := { status_code : Z; content : pyval }.

Definition ok (body : pyval) : Response := {| status_code := 200; content := body |}.
Definition error_response (code : Z) (text err_code : string) : Response :=
  {| status_code := code; content := VDict [("error", VStr text); ("code", VStr err_code)] |}.
Definition message (text : string) : Response := ok (VDict [("message", VStr text)]).
Definition _job_not_found : Response := error_response 404 "Job not found" "JOB_NOT_FOUND".
Definition execution_not_found : Response := error_response 404 "Execution not found" "EXECUTION_NOT_FOUND".
Definition _not_supported (text : string) : Response := error_response 501 text "NOT_SUPPORTED".

(** ** Bodies *)

Definition _serialize_dt (d : option datetime) : pyval :=
  match d with
  | None => VNone
  | Some d =>
      VStr (iso_wall (wall_us d) +:+
            match utc_offset d with
            | None => "Z"
            | Some off => if off =? 0 then "Z" else iso_offset off
            end)
  end.

Definition opt_int (o : option Z) : pyval := match o with Some z => VInt z | None => VNone end.

Definition _job_dto (r : JobRegistration) : pyval :=
  let o := options r in
  VDict [("id", VStr (reg_id r)); ("name", opt_str (name o)); ("description", opt_str (description o));
    ("group", opt_str (group o)); ("status", VStr (reg_status r)); ("schedule", opt_str (schedule o));
    ("interval", opt_str (interval o)); ("enabled", VBool (negb (bool_decide (reg_status r = "stopped"))));
    ("maxRetries", VInt (max_retries o)); ("retryDelay", VStr (retry_delay o));
    ("retryStrategy", VStr (retry_strategy o)); ("timeout", opt_str (timeout o));
    ("overlapPolicy", VStr (overlap_policy o)); ("maxConcurrentRuns", VInt (max_concurrent_runs o));
    ("currentExecutionId", opt_str (current_execution_id r));
    ("runningExecutionIds", VList (map VStr (running_execution_ids r)));
    ("queued", VBool (queued r)); ("nextRunAt", _serialize_dt (utc <$> next_run_at r));
    ("lastRunAt", _serialize_dt (last_run_at r)); ("lastRunStatus", opt_str (last_run_status r));
    ("lastRunDuration", opt_int (last_run_duration r))].

Definition execution_fields (e : JobExecution) : dict string pyval :=
  [("id", VStr (id e)); ("jobId", VStr (job_id e)); ("jobName", VStr (job_name e));
   ("status", VStr (status e)); ("startedAt", _serialize_dt (Some (started_at e)));
   ("completedAt", _serialize_dt (completed_at e)); ("duration", opt_int (duration e));
   ("error", opt_str (error e)); ("retryAttempt", VInt (retry_attempt e))].

Definition _execution_item (e : JobExecution) : pyval :=
  VDict (execution_fields e ++
    [("logCount", VInt (Z.of_nat (length (logs e)))); ("properties", VDict (properties e))]).

Definition execution_details (e : JobExecution) : pyval :=
  VDict (execution_fields e ++
    [("properties", VDict (properties e));
     ("logs", VList (map (λ l, VDict [("timestamp", _serialize_dt (Some (log_timestamp l)));
        ("level", VStr (level l)); ("message", VStr (JobModel.message l))]) (logs e)))]).

Definition page_body (items : list JobExecution) (total lim off : Z) : pyval :=
  VDict [("items", VList (map _execution_item items)); ("total", VInt total);
         ("limit", VInt lim); ("offset", VInt off)].

(** ** Routes *)

Section Api.
Context {Host : Type}.
Abbreviation Server := (JobServer (Host := Host)).
Context `{ST : ICliJobStorageProvider Server}.
Context (cron_valid : string → bool).
Context (next_occurrence : string → Z → jexn + Z).
Context (event_bus : option (string → dict string pyval → option CliEventAudience → py Server jexn unit)).
Context (broadcast_fn : option (dict string pyval → py Server jexn unit)).
Context (clock : Server → Z).

(** [except KeyError: 404  except InvalidOperationError: 409]. *)
Definition on_job (conflict : string) (m : py Server jexn Response) : py Server jexn Response :=
  try_except m (λ e, match e with
    | KeyError _ => mret _job_not_found
    | InvalidOperationError text => mret (error_response 409 text conflict)
    | e => raise e
    end).

Definition in_group (g : string) (s : Server) : list string :=
  map (λ kv, reg_id kv.2)
    (List.filter (λ kv, bool_decide (lower (or_empty (group (options kv.2))) = lower g))
       (registrations (sched s))).

(** [_resolve_job_ids]: [None] is every job. *)
Definition _resolve_job_ids (jobs : option (list string)) (g : option string) (s : Server)
    : option (list string) :=
  let named := match jobs with
               | Some vs => Some (List.filter truthy (map strip (concat (map (split ","%char) vs))))
               | None => None
               end in
  let ids := if truthy (strip (or_empty g)) then
               let ing := in_group (or_empty g) s in
               match named with
               | Some ((_ :: _) as l) => Some (List.filter (λ j, bool_decide (j ∈ ing)) l)
               | _ => Some ing
               end
             else named in
  match ids with
  | Some (_ :: _) => ids
  | _ => if bool_decide (is_Some g) then ids else None
  end.

Definition list_jobs : py Server jexn Response :=
  regs ← gets (λ s, dict_values (registrations (sched s)));
  mret (ok (VList (map _job_dto regs))).

Definition list_executions (jobs : option (list string)) (g st : option string)
    (since : option datetime) (lim off : Z) : py Server jexn Response :=
  ids ← gets (_resolve_job_ids jobs g);
  let q := {| job_ids := ids; q_status := if truthy_opt st then st else None; q_since := since;
              limit := Z.min (Z.max lim 1) 100; offset := Z.max off 0 |} in
  '(items, total) ← match ids with
                    | Some [] => mret ([], 0)
                    | _ => query_execs q
                    end;
  mret (ok (page_body items total (limit q) (offset q))).

(** [None]: the reading of the runs ran out of fuel. *)
Definition get_stats (fromisoformat : string → option datetime) (fuel : nat)
    (jobs : option (list string)) (g since until buckets : option string)
    : py Server jexn (option (Response + Stats)) :=
  now ← gets clock;
  match resolve_range fromisoformat since until now, parse_buckets buckets with
  | inl (StatsRequestError m), _ | _, inl (StatsRequestError m) =>
      mret (Some (inl {| status_code := 400; content := VDict [("error", VStr m)] |}))
  | inr (start, stop), inr count =>
      ids ← gets (_resolve_job_ids jobs g);
      runs ← match ids with
             | Some [] => mret (Some [])
             | _ => collect_runs query_execs fuel ids start stop
             end;
      names ← gets (λ s, map (λ kv, (reg_id kv.2, name (options kv.2))) (registrations (sched s)));
      mret ((λ l, inr (compute_stats l start stop count names)) <$> runs)
  end.

Definition get_job (j : string) : py Server jexn Response :=
  r ← gets (λ s, get_reg j (sched s));
  mret (match r with Some reg => ok (_job_dto reg) | None => _job_not_found end).

Definition trigger_job (j : string) : py Server jexn Response :=
  on_job "JOB_ALREADY_RUNNING"
    (r ← trigger event_bus broadcast_fn clock j;
     mret (if bool_decide (r = "queued")
           then ok (VDict [("message", VStr "Job queued"); ("queued", VBool true)])
           else ok (VDict [("message", VStr "Job triggered"); ("queued", VBool false)]))).

Definition pause_job (j : string) : py Server jexn Response :=
  on_job "JOB_ALREADY_PAUSED"
    (_ ← pause event_bus broadcast_fn clock j; mret (message "Job paused")).

Definition resume_job (j : string) : py Server jexn Response :=
  on_job "JOB_NOT_PAUSED"
    (_ ← resume next_occurrence event_bus broadcast_fn clock j; mret (message "Job resumed")).

(** The route of [stop] and that of an update name no conflict. *)
Definition stop_job_route (j : string) : py Server jexn Response :=
  try_except (_ ← stop_job event_bus broadcast_fn clock j; mret (message "Job stopped"))
    (λ e, match e with KeyError _ => mret _job_not_found | e => raise e end).

Definition cancel_job (j : string) : py Server jexn Response :=
  on_job "JOB_NOT_RUNNING" (_ ← cancel_current j; mret (message "Execution cancelled")).

(** [InvalidValueError] is a [ValueError]. *)
Definition update_job (j : string) (body : OptionChanges) : py Server jexn Response :=
  try_except
    (_ ← update_options cron_valid next_occurrence event_bus broadcast_fn clock j body;
     mret (message "Job updated"))
    (λ e, match e with
          | KeyError _ => mret _job_not_found
          | InvalidValueError text => mret (error_response 400 text "INVALID_VALUE")
          | ValueError text => mret (error_response 400 text "INVALID_SCHEDULE")
          | e => raise e
          end).

Definition get_history (j : string) (lim off : Z) (st : option string) : py Server jexn Response :=
  r ← gets (λ s, get_reg j (sched s));
  match r with
  | None => mret _job_not_found
  | Some _ =>
      '(items, total) ← get_executions j lim off st;
      mret (ok (page_body items total lim off))
  end.

Definition get_execution_route (j i : string) : py Server jexn Response :=
  e ← get_execution i;
  mret (match e with
        | Some e => if bool_decide (job_id e = j) then ok (execution_details e) else execution_not_found
        | None => execution_not_found
        end).

Definition delete_execution_route (j i : string) : py Server jexn Response :=
  try_except (_ ← delete_exec event_bus broadcast_fn clock j i; mret (message "Run deleted"))
    (λ e, match e with
          | KeyError _ => mret _job_not_found
          | ExecutionNotFoundError _ => mret execution_not_found
          | InvalidOperationError text => mret (error_response 409 text "EXECUTION_RUNNING")
          | NotSupportedError text => mret (_not_supported text)
          | e => raise e
          end).

Definition delete_executions_route (fuel : nat) (j : string) (st : option string)
    : py Server jexn (option Response) :=
  try_except
    (n ← delete_execs event_bus broadcast_fn clock fuel j (if truthy_opt st then st else None);
     mret ((λ n, ok (VDict [("deleted", VInt n)])) <$> n))
    (λ e, match e with
          | KeyError _ => mret (Some _job_not_found)
          | NotSupportedError text => mret (Some (_not_supported text))
          | e => raise e
          end).

(** ** What the routes answer *)

(** The routes that act on one job. *)
Definition job_routes (j : string) (body : OptionChanges) (i : string) (lim off : Z) (st : option string)
    : list (py Server jexn Response) :=
  [get_job j; trigger_job j; pause_job j; resume_job j; stop_job_route j; cancel_job j;
   update_job j body; get_history j lim off st; delete_execution_route j i].

Lemma lift_missing {A B} j (m : JobRegistration → py Scheduler jexn A) (k : A → py Server jexn B) s :
  get_reg j (sched s) = None →
  (lift (_get_registration j ≫= m) ≫= k) s = (inl (KeyError ("Job not found: " +:+ j)), s).
Proof.
  intros Hr. rewrite py_bind_eq. unfold lift. rewrite py_bind_eq, get_registration_eq, Hr.
  by destruct s.
Qed.

(** Every route on a job that is not registered answers 404
    [JOB_NOT_FOUND] and changes nothing. *)
Theorem unknown_job_404 j body i lim off st s :
  get_reg j (sched s) = None →
  Forall (λ route, route s = (inr _job_not_found, s)) (job_routes j body i lim off st).
Proof.
  intros Hr. unfold job_routes. repeat (apply Forall_cons; split); cbv beta;
    [.. |by apply Forall_nil].
  - unfold get_job. rewrite py_bind_eq. cbn [gets]. by rewrite Hr.
  - unfold trigger_job, on_job, try_except. rewrite py_bind_eq. unfold trigger, _admit.
    by rewrite (lift_missing j _ _ s Hr).
  - unfold pause_job, on_job, try_except. rewrite py_bind_eq. unfold pause, pause_now.
    by rewrite (lift_missing j _ _ s Hr).
  - unfold resume_job, on_job, try_except. rewrite py_bind_eq. unfold resume, resume_now.
    rewrite py_bind_eq. cbn [get_now gets]. by rewrite (lift_missing j _ _ s Hr).
  - unfold stop_job_route, try_except. rewrite py_bind_eq. unfold stop_job, stop_job_now.
    by rewrite (lift_missing j _ _ s Hr).
  - unfold cancel_job, on_job, try_except. unfold cancel_current, cancel_current_now.
    by rewrite (lift_missing j _ _ s Hr).
  - unfold update_job, try_except. rewrite py_bind_eq. unfold update_options, update_options_now.
    rewrite py_bind_eq. cbn [get_now gets]. by rewrite (lift_missing j _ _ s Hr).
  - unfold get_history. rewrite py_bind_eq. cbn [gets]. by rewrite Hr.
  - unfold delete_execution_route, try_except. rewrite py_bind_eq. unfold delete_exec.
    rewrite py_bind_eq. unfold lift. rewrite get_registration_eq, Hr. by destruct s.
Qed.

(** ** The MCP tools *)

Definition JOBS_MANAGE : string := "jobs:manage".
Definition JOB_NOT_FOUND : string := "Job not found".
Definition tool_line_break : string := String (ascii_of_nat 10) "".
Definition tool_text (t : string) (s : option (dict string pyval)) : McpToolResult := {| r_text := t; structured := s; is_error := false |}.
Definition dict_fields (v : pyval) : dict string pyval := match v with VDict d => d | _ => [] end.
(** [d[key] or '-'] in a text *)
Definition or_dash (v : option pyval) (d : string) : string := match v with Some (VStr s) => if truthy s then s else d | _ => d end.
Definition text_or_none (v : option pyval) : string := match v with Some v => value_str (λ _, "") v | None => "" end.

(** A job by its id, or by its name when one job only has it *)
Definition _resolve_job (x : string) (s : Server) : option string :=
  let regs := registrations (sched s) in
  if dict_mem x regs then Some x
  else match List.filter (λ r, bool_decide (name (options r) = Some x)) (dict_values regs) with
       | [r] => Some (reg_id r)
       | _ => None
       end.
Definition tool_arg (key : string) (args : dict string pyval) : string := match dict_get key args with Some (VStr s) => s | _ => "" end.
(** [job_id = self._resolve_job(args["id"])], and the answer when there is none *)
Definition on_resolved (args : dict string pyval) (k : string → py Server jexn McpToolResult) : py Server jexn McpToolResult :=
  r ← gets (_resolve_job (tool_arg "id" args));
  match r with Some j => k j | None => mret (result_error JOB_NOT_FOUND) end.

Definition job_line (dto : pyval) : string :=
  let d := dict_fields dto in
  join " | " [text_or_none (dict_get "name" d); text_or_none (dict_get "id" d); text_or_none (dict_get "status" d);
              or_dash (dict_get "nextRunAt" d) "-"; or_dash (dict_get "lastRunStatus" d) "-"].
Definition jobs_list (_ : dict string pyval) : py Server jexn McpToolResult :=
  regs ← gets (λ s, dict_values (registrations (sched s)));
  let jobs := map _job_dto regs in
  mret (tool_text (join tool_line_break ("NAME | ID | STATUS | NEXT RUN | LAST STATUS" :: map job_line jobs)) (Some [("jobs", VList jobs)])).
Definition jobs_get (args : dict string pyval) : py Server jexn McpToolResult :=
  on_resolved args (λ j,
    r ← gets (λ s, get_reg j (sched s));
    match r with
    | Some reg => mret (tool_text (json_dumps (λ _, "") (_job_dto reg)) (Some (dict_fields (_job_dto reg))))
    | None => raise (KeyError j)
    end).

(** [int] of a float *)
Context (float_int : string → Z).
Definition history_limit (args : dict string pyval) : Z :=
  match dict_get "limit" args with Some (VInt z) => z | Some (VFloat r) => float_int r | _ => 20 end.
Definition history_item (e : JobExecution) : dict string pyval :=
  [("id", VStr (id e)); ("status", VStr (status e)); ("startedAt", _serialize_dt (Some (started_at e))); ("completedAt", _serialize_dt (completed_at e));
   ("duration", opt_int (duration e)); ("error", opt_str (error e)); ("retryAttempt", VInt (retry_attempt e)); ("properties", VDict (properties e))].
Definition history_line (e : JobExecution) : string :=
  join " | " [text_or_none (Some (_serialize_dt (Some (started_at e)))); status e; match duration e with Some d => str_of_Z d | None => "-" end;
              or_empty (error e)].
Definition jobs_history (args : dict string pyval) : py Server jexn McpToolResult :=
  on_resolved args (λ j,
    let lim := history_limit args in
    if lim <? 1 then mret (result_error "limit must be at least 1")
    else
      '(items, total) ← get_executions j (Z.min lim 100) 0 None;
      mret (tool_text (join tool_line_break ("STARTED | STATUS | DURATION (ms) | ERROR" :: map history_line items))
        (Some [("jobId", VStr j); ("items", VList (map (λ e, VDict (history_item e)) items)); ("total", VInt total)]))).

(** [action]: [m] gives what the method returns, for [trigger] a text *)
Definition action (m : string → py Server jexn string) (done : string) (args : dict string pyval) : py Server jexn McpToolResult :=
  on_resolved args (λ j,
    try_except (result ← m j; mret (tool_text (if bool_decide (result = "queued") then "Job queued" else done) None))
      (λ e, match e with
            | KeyError _ => mret (result_error JOB_NOT_FOUND)
            | InvalidOperationError text => mret (result_error text)
            | e => raise e
            end)).
Definition returns_none (m : string → py Server jexn unit) (j : string) : py Server jexn string := _ ← m j; mret "".
Definition jobs_trigger := action (trigger event_bus broadcast_fn clock) "Job triggered".
Definition jobs_pause := action (returns_none (pause event_bus broadcast_fn clock)) "Job paused".
Definition jobs_resume := action (returns_none (resume next_occurrence event_bus broadcast_fn clock)) "Job resumed".
Definition jobs_stop := action (returns_none (stop_job event_bus broadcast_fn clock)) "Job stopped".
Definition jobs_cancel := action (returns_none cancel_current) "Execution cancelled".

Definition deleted_result (j : string) (n : Z) : option (dict string pyval) := Some [("jobId", VStr j); ("deleted", VInt n)].
(** [None]: as for [delete_execs] *)
Definition jobs_delete_runs (fuel : nat) (args : dict string pyval) : py Server jexn (option McpToolResult) :=
  r ← gets (_resolve_job (tool_arg "id" args));
  match r with
  | None => mret (Some (result_error JOB_NOT_FOUND))
  | Some j =>
      let execution_id := tool_arg "execution" args in
      try_except
        (if truthy execution_id then
           _ ← delete_exec event_bus broadcast_fn clock j execution_id; mret (Some (tool_text "Run deleted" (deleted_result j 1)))
         else
           n ← delete_execs event_bus broadcast_fn clock fuel j (if truthy (tool_arg "status" args) then Some (tool_arg "status" args) else None);
           mret ((λ n, tool_text ("Deleted " +:+ str_of_Z n +:+ " run(s)") (deleted_result j n)) <$> n))
        (λ e, match e with
              | KeyError _ => mret (Some (result_error JOB_NOT_FOUND))
              | ExecutionNotFoundError _ => mret (Some (result_error "Execution not found"))
              | InvalidOperationError text | NotSupportedError text => mret (Some (result_error text))
              | e => raise e
              end)
  end.

(** The tools: name, permission, whether it only reads, call *)
Definition job_tools (fuel : nat) : list (string * string * bool * (dict string pyval → py Server jexn (option McpToolResult))) :=
  let some f args := (r ← f args; mret (Some r)) : py Server jexn (option McpToolResult) in
  [("jobs_list", JOBS_READ, true, some jobs_list); ("jobs_get", JOBS_READ, true, some jobs_get); ("jobs_history", JOBS_READ, true, some jobs_history);
   ("jobs_trigger", JOBS_MANAGE, false, some jobs_trigger); ("jobs_pause", JOBS_MANAGE, false, some jobs_pause);
   ("jobs_resume", JOBS_MANAGE, false, some jobs_resume); ("jobs_stop", JOBS_MANAGE, false, some jobs_stop);
   ("jobs_cancel", JOBS_MANAGE, false, some jobs_cancel); ("jobs_delete_runs", JOBS_MANAGE, false, jobs_delete_runs fuel)].

(** *** What the tools do *)

Lemma resolve_registered x s j :
  (∀ k r, (k, r) ∈ registrations (sched s) → reg_id r = k) →
  _resolve_job x s = Some j → dict_mem j (registrations (sched s)) = true.
Proof.
  intros Hid. unfold _resolve_job. destruct (dict_mem x _) eqn:Hx; [by intros [= <-]|].
  destruct (List.filter _ _) as [|r [|]] eqn:Hf; try done. intros [= <-].
  assert (Hin : In r [r]) by by left. rewrite <-Hf in Hin. apply List.filter_In in Hin as [Hin _].
  apply list_elem_of_In in Hin as [[k r'] [-> Hkr]]%list_elem_of_fmap. simpl.
  rewrite (Hid _ _ Hkr). apply dict_mem_true. by apply list_elem_of_fmap_2 with (f := fst) in Hkr.
Qed.

(** A tool over the jobs that only reads leaves the server as it is when the
    store's reading of executions does, and asks for [jobs:read]; every other
    one asks for [jobs:manage]. *)
Theorem read_only_job_tools fuel nm perm ro f args s :
  (∀ j l o st s, (get_executions j l o st s).2 = s) →
  (nm, perm, ro, f) ∈ job_tools fuel →
  if ro : bool then perm = JOBS_READ ∧ (f args s).2 = s else perm = JOBS_MANAGE.
Proof.
  intros Hg. unfold job_tools. rewrite !elem_of_cons. intros Hin.
  assert (Hres : ∀ k : string → py Server jexn McpToolResult, (∀ j, (k j s).2 = s) → (on_resolved args k s).2 = s).
  { intros k Hk. unfold on_resolved. rewrite py_bind_eq. simpl. by destruct (_resolve_job _ s). }
  assert (Hsome : ∀ m : py Server jexn McpToolResult, (m s).2 = s → ((r ← m; mret (Some r)) s).2 = s).
  { intros m Hm. rewrite py_bind_eq. by destruct (m s) as [[e|r] s']. }
  destruct_or! Hin; try (apply not_elem_of_nil in Hin; done); injection Hin as -> -> -> ->; try done; (split; [done|]); apply Hsome.
  - apply Hres. intros j. rewrite py_bind_eq. simpl. by destruct (get_reg j (sched s)).
  - apply Hres. intros j. cbv zeta. destruct (history_limit args <? 1)%Z; [done|]. rewrite py_bind_eq. specialize (Hg j (Z.min (history_limit args) 100) 0 None s).
    by destruct (get_executions j _ 0 None s) as [[e|[items total]] s'].
Qed.

(** What a tool answers where the route of the same method answers *)
Definition same_answer (r : Response) (t : McpToolResult) : Prop :=
  if status_code r =? 200 then is_error t = false ∧ dict_get "message" (dict_fields (content r)) = Some (VStr (r_text t))
  else is_error t = true ∧ dict_get "error" (dict_fields (content r)) = Some (VStr (r_text t)).

Lemma action_same conflict m done (body : string → Response) args j s :
  _resolve_job (tool_arg "id" args) s = Some j →
  (∀ r, status_code (body r) = 200 ∧ dict_get "message" (dict_fields (content (body r))) = Some (VStr (if bool_decide (r = "queued") then "Job queued" else done))) →
  match on_job conflict (r ← m j; mret (body r)) s, action m done args s with
  | (inr r, s1), (inr t, s2) => s1 = s2 ∧ same_answer r t
  | (inl e1, s1), (inl e2, s2) => s1 = s2 ∧ e1 = e2
  | _, _ => False
  end.
Proof.
  intros Hj Hb. unfold action, on_resolved. rewrite py_bind_eq. cbn [gets]. rewrite Hj. unfold on_job, try_except. rewrite !py_bind_eq.
  destruct (m j s) as [[[]|r] s']; try done. destruct (Hb r) as [H200 Hm]. split; [done|]. unfold same_answer. rewrite H200. by split.
Qed.

(** Triggering, pausing, resuming and cancelling a job by a tool leaves the
    server as the route for the resolved job does, raises where it raises, and
    answers with the same text, as an error exactly when the route does. *)
Theorem job_tools_as_routes args j s :
  _resolve_job (tool_arg "id" args) s = Some j →
  Forall (λ rt : py Server jexn Response * py Server jexn McpToolResult,
    match rt.1 s, rt.2 s with
    | (inr r, s1), (inr t, s2) => s1 = s2 ∧ same_answer r t
    | (inl e1, s1), (inl e2, s2) => s1 = s2 ∧ e1 = e2
    | _, _ => False
    end)
  [(trigger_job j, jobs_trigger args); (pause_job j, jobs_pause args); (resume_job j, jobs_resume args); (cancel_job j, jobs_cancel args)].
Proof.
  intros Hj.
  assert (Hunit : ∀ conflict (m : string → py Server jexn unit) done,
    bool_decide (done = "Job queued") = false →
    match on_job conflict (_ ← m j; mret (message done)) s, action (returns_none m) done args s with
    | (inr r, s1), (inr t, s2) => s1 = s2 ∧ same_answer r t
    | (inl e1, s1), (inl e2, s2) => s1 = s2 ∧ e1 = e2
    | _, _ => False
    end).
  { intros conflict m done _. unfold action, on_resolved, returns_none. rewrite py_bind_eq. cbn [gets]. rewrite Hj.
    unfold on_job, try_except. rewrite !py_bind_eq. by destruct (m j s) as [[[]|[]] s']. }
  repeat (apply Forall_cons; split); [|..|by apply Forall_nil]; cbn [fst snd]; [|by apply Hunit..].
  apply (action_same "JOB_ALREADY_RUNNING" _ "Job triggered"
    (λ r, if bool_decide (r = "queued") then ok (VDict [("message", VStr "Job queued"); ("queued", VBool true)])
          else ok (VDict [("message", VStr "Job triggered"); ("queued", VBool false)]))); [done|].
  intros r. by destruct (bool_decide (r = "queued")).
Qed.
End Api.

(** ** The builder of the plugin ([jobs/cli_jobs_builder.py]) *)

Section JobsBuilder.
Context (class_name : nat → string) {Storage Bus Broadcast W : Type}.

Record CliJobsBuilder := { _registrations : list (nat * CliJobOptions); _storage_provider : option Storage }.
Definition new_jobs_builder : CliJobsBuilder := {| _registrations := []; _storage_provider := None |}.
Definition add_job (jb : nat) (o : CliJobOptions) (b : CliJobsBuilder) : CliJobsBuilder :=
  {| _registrations := _registrations b ++ [(jb, o)]; _storage_provider := _storage_provider b |}.
Definition set_storage_provider (p : Storage) (b : CliJobsBuilder) : CliJobsBuilder :=
  {| _registrations := _registrations b; _storage_provider := Some p |}.

(** The scheduler of the plugin with what it was made with; [plugin_storage] is
    [None] for a new store in memory. *)
Record CliJobsPlugin := {
  plugin_storage : option Storage;
  plugin_scheduler : Scheduler;
  plugin_bus : option Bus;
  plugin_broadcast : option Broadcast;
}.

(** [for job, opts in self._registrations] *)
Fixpoint register_all (jobs : list (nat * CliJobOptions)) : py Scheduler jexn (list (option string)) :=
  match jobs with
  | [] => mret []
  | (jb, o) :: jobs => i ← register class_name jb o; is_ ← register_all jobs; mret (i :: is_)
  end.
Definition build_jobs (broadcast : option Broadcast) (bus : option Bus) (b : CliJobsBuilder) : jexn + CliJobsPlugin :=
  match register_all (_registrations b) initial.1 with
  | (inl e, _) => inl e
  | (inr _, s) => inr {| plugin_storage := _storage_provider b; plugin_scheduler := s; plugin_bus := bus; plugin_broadcast := broadcast |}
  end.

(** [on_mount] on a server with its bus and its registry of tools, if it has
    them; [tools]: the provider of the tools over the scheduler *)
Definition mount_jobs (bus : option Bus) (mcp : option (McpToolRegistry W)) (tools : IMcpToolProvider W) (p : CliJobsPlugin)
    : CliJobsPlugin * option (McpToolRegistry W) :=
  ({| plugin_storage := plugin_storage p; plugin_scheduler := plugin_scheduler p;
      plugin_bus := match plugin_bus p with Some x => Some x | None => bus end; plugin_broadcast := plugin_broadcast p |},
   add_provider tools true <$> mcp).

Lemma register_all_spec jobs s is_ s' :
  register_all jobs s = (inr is_, s') →
  ∃ news, is_ = Some <$> news ∧ dict_keys (registrations s') = dict_keys (registrations s) ++ news ∧
          length news = length jobs ∧ ∀ i, i ∈ news → i ∉ dict_keys (registrations s).
Proof.
  revert s is_. induction jobs as [|[jb o] jobs IH]; intros s is_; cbn [register_all].
  { intros [= <- <-]. exists []. rewrite app_nil_r. split_and!; [done..|set_solver]. }
  rewrite py_bind_eq. pose proof (register_result class_name jb o s) as Hr.
  destruct (register class_name jb o s) as [[e|i] s1]; [done|].
  destruct Hr as [(e & ? & _)|(j & [= ->] & Hj & _ & ->)]; [done|].
  rewrite py_bind_eq. destruct (register_all jobs _) as [[e|l] s2] eqn:Hl; [done|]. intros [= <- <-].
  destruct (IH _ _ Hl) as (news & -> & Hk & Hlen & Hnew). exists (j :: news). simpl in Hk.
  assert (Hset : dict_keys (dict_set j (new_registration j jb (named_options class_name jb o)) (registrations s)) = dict_keys (registrations s) ++ [j]).
  { clear -Hj. unfold get_reg in Hj. induction (registrations s) as [|[k v] d IH]; simpl in *; [done|].
    destruct (decide (k = j)); [done|]. simpl. by rewrite IH. }
  assert (Hjn : j ∉ dict_keys (registrations s)) by (by apply dict_get_None).
  simpl in Hnew. rewrite Hset in Hk, Hnew. split_and!; [done| |by simpl; rewrite Hlen|].
  - by rewrite Hk, <- app_assoc.
  - intros x [->|Hx]%elem_of_cons; [done|]. specialize (Hnew x Hx). set_solver.
Qed.

Lemma register_all_dict_ok jobs s : dict_ok (registrations s) → dict_ok (registrations (register_all jobs s).2).
Proof.
  revert s. induction jobs as [|[jb o] jobs IH]; intros s Hs; cbn [register_all]; [done|]. rewrite py_bind_eq.
  pose proof (register_result class_name jb o s) as Hr. destruct (register class_name jb o s) as [[e|i] s1].
  - by destruct Hr as [(? & _ & ->)|(? & ? & _)].
  - destruct Hr as [(? & ? & _)|(j & _ & _ & _ & ->)]; [done|]. rewrite py_bind_eq.
    specialize (IH (set_registrations (dict_set j (new_registration j jb (named_options class_name jb o)) (registrations s)) s)).
    destruct (register_all jobs _) as [[e|l] s2]; apply IH; by apply dict_ok_set.
Qed.

(** A plugin that is built has one registration per job that was added, in that
    order and under different ids; mounting it keeps a bus it was built with. *)
Theorem jobs_built broadcast bus b p :
  build_jobs broadcast bus b = inr p →
  length (registrations (plugin_scheduler p)) = length (_registrations b) ∧ dict_ok (registrations (plugin_scheduler p)) ∧
  plugin_bus p = bus ∧ ∀ bus' mcp tools, is_Some bus → plugin_bus (mount_jobs bus' mcp tools p).1 = bus.
Proof.
  unfold build_jobs. pose proof (register_all_dict_ok (_registrations b) initial.1 (dict_ok_nil)) as Hok.
  destruct (register_all (_registrations b) initial.1) as [[e|l] s] eqn:Hr; [done|]. intros [= <-]. simpl in Hok |- *.
  destruct (register_all_spec _ _ _ _ Hr) as (news & _ & Hk & Hlen & _). split_and!; [|done..|].
  - rewrite <- Hlen. simpl in Hk. rewrite <- Hk. unfold dict_keys. by rewrite length_fmap.
  - by intros bus' mcp tools [x ->].
Qed.
End JobsBuilder.

(** ** On the server of [JobRuns.v] *)
Module ApiExample.

Lemma unknown_job_404_witness :
  trigger_job None None JobRuns.clock "nope" JobRuns.server = (inr _job_not_found, JobRuns.server).
Proof.
  assert (H := unknown_job_404 (λ _, true) (λ _ t, inr t) None None JobRuns.clock "nope"
    {| c_description := None; c_group := None; c_schedule := None; c_interval := None; c_max_retries := None; c_retry_delay := None;
       c_retry_strategy := None; c_timeout := None; c_overlap_policy := None;
       c_max_concurrent_runs := None |} "r" 10 0 None JobRuns.server eq_refl).
  inversion H as [|? ? _ H2]. inversion H2 as [|? ? H3 _]. exact H3.
Defined.

(** A list that names no job selects every job, where its comment says that it
    selects none. *)
Example empty_job_list_selects_all :
  _resolve_job_ids (Some [","]) None JobRuns.server = None.
Proof. reflexivity. Qed.

(** The history route passes a negative limit on: the store's slice then drops
    a run at the end, in place of returning at most 100. *)
Example negative_limit_history :
  ∃ body, get_history "digest" (-1) 0 None JobRuns.server = (inr body, JobRuns.server) ∧
    ∃ item, content body = VDict [("items", VList [item]); ("total", VInt 2);
                                  ("limit", VInt (-1)); ("offset", VInt 0)].
Proof. vm_compute. eexists. split; [reflexivity|]. eexists. reflexivity. Qed.

Definition by_id (x : string) : dict string pyval := [("id", VStr x)].
Lemma job_tools_as_routes_witness :
  match pause_job None None JobRuns.clock "digest" JobRuns.server, jobs_pause None None JobRuns.clock (by_id "digest") JobRuns.server with
  | (inr r, s1), (inr t, s2) => s1 = s2 ∧ r_text t = "Job paused" ∧ status_code r = 200
  | _, _ => False
  end.
Proof.
  pose proof (job_tools_as_routes (λ _ t, inr t) None None JobRuns.clock (by_id "digest") "digest" JobRuns.server eq_refl) as H.
  apply Forall_cons in H as [_ H]. apply Forall_cons in H as [H _]. cbn [fst snd] in H. vm_compute in H |- *. destruct H as [H _]. by split_and!.
Defined.
Lemma read_only_job_tools_witness :
  JOBS_READ = JOBS_READ ∧ ((r ← jobs_list (by_id "digest"); mret (Some r)) JobRuns.server : (jexn + option McpToolResult) * _).2 = JobRuns.server.
Proof.
  refine (read_only_job_tools (λ _ t, inr t) None None JobRuns.clock (λ _, 0) 0 "jobs_list" JOBS_READ true
    (λ args, (r ← jobs_list args; mret (Some r))) (by_id "digest") JobRuns.server _ _); [|by left].
  intros. reflexivity.
Defined.
Example unknown_job_tool : r_text <$> (match (jobs_get (by_id "nope") JobRuns.server).1 with inr r => Some r | inl _ => None end) = Some JOB_NOT_FOUND.
Proof. reflexivity. Qed.
End ApiExample.
