(* ===== verification/McpCommands.v ===== *)
(** * Command tools ([core/mcp/commands.py])

    One tool per command of the registry, the text a tool answers, and the
    command line a call stands for. *)

From S2P Require Import Prelude PyStr Values ShellWords Regex Commands Outputs Executor McpCore.
From Stdlib Require Import Ascii.

Definition COMMANDS_EXECUTE : string := "commands:execute".
Definition TOOL_NAME_MAX : nat := 64.

(** Characters outside [[a-z0-9_-]] become [-]. *)
Definition name_or_dash (c : ascii) : ascii := if name_char c then c else "-"%char.
Definition command_tool_name (path : list string) : string :=
  take_str TOOL_NAME_MAX (str (map name_or_dash (chars (lower (join "_" path))))).

(** ** The schema of a command *)

Definition _JSON_TYPES : list string := ["string"; "number"; "boolean"; "array"].

Definition json_type (t : string) : string :=
  let t := lower (if is_empty t then "string" else t) in
  if bool_decide (t ∈ _JSON_TYPES) then t else "string".

Definition param_schema (p : CliCommandParameterDescriptor) : dict string pyval :=
  let t := json_type (d_type p) in
  [("type", VStr t)] ++
  (if bool_decide (t = "array") then [("items", VDict [("type", VStr "string")])] else []) ++
  (if truthy (d_description p) then [("description", VStr (d_description p))] else []) ++
  match d_default_value p with VNone => [] | v => [("default", v)] end.

(** The loop over the parameters with its [properties] and [required]. *)
Fixpoint schema_loop (ps : list CliCommandParameterDescriptor) (properties : dict string pyval)
    (required : list string) : dict string pyval * list string :=
  match ps with
  | [] => (properties, required)
  | p :: ps =>
      if is_empty (d_name p) || dict_mem (d_name p) properties then schema_loop ps properties required
      else schema_loop ps (dict_set (d_name p) (VDict (param_schema p)) properties)
             (if d_required p then required ++ [d_name p] else required)
  end.

(** ** Texts *)

Definition describe_page (p : CliServerTablePage) (row_count : nat) : string :=
  let of_total := match page_total p with Some n => " of " +:+ str_of_Z n | None => "" end in
  let n := Z.of_nat row_count in
  let skip := page_skip p in
  if bool_decide (page_truncated p = Some true) then
    "(first " +:+ str_of_Z n +:+ of_total +:+ " rows; the command does not page, narrow it down to see the rest)"
  else if n =? 0 then "(no rows at skip=" +:+ str_of_Z skip +:+ of_total +:+ ")"
  else
    let next_text := if page_has_more p then "; next: skip=" +:+ str_of_Z (skip + n) else "" in
    "(rows " +:+ str_of_Z (skip + 1) +:+ "-" +:+ str_of_Z (skip + n) +:+ of_total +:+ next_text +:+ ")".

Definition needs_quoting_char (c : ascii) : bool :=
  is_space c || Ascii.eqb c dquote || existsb (Ascii.eqb c) (chars "'\|&;<>()$`").

(** [value.replace("\\", "\\\\")] and, with [quotes], also the double quotes *)
Definition escape_char (quotes : bool) (c : ascii) : list ascii :=
  if Ascii.eqb c bslash || quotes && Ascii.eqb c dquote then [bslash; c] else [c].
Definition escaped (quotes : bool) (l : list ascii) : list ascii := concat (map (escape_char quotes) l).

Definition quote_shell_word (value : string) : string :=
  if truthy value && negb (existsb needs_quoting_char (chars value)) then value
  else if negb (has_char dquote value) then str ([dquote] ++ escaped false (chars value) ++ [dquote])
  else if negb (has_char squote value) then str ([squote] ++ chars value ++ [squote])
  else str ([dquote] ++ escaped true (chars value) ++ [dquote]).

Section Rendering.
Context (str_time : Z → string).

(** [str(v)] *)
Definition text_of (v : pyval) : string := value_str str_time v.

Definition render_output (o : CliServerOutput) : list string :=
  match o with
  | TextOutput t _ => [t]
  | TableOutput t =>
      [join " | " (headers t)] ++ map (join " | ") (rows t) ++
      match page t with Some p => [describe_page p (length (rows t))] | None => [] end
  | ListOutput items _ => items
  | JsonOutput v => [json_dumps str_time v]
  | KeyValueOutput es => map (λ e, e.1 +:+ ": " +:+ e.2) es
  end.
Definition render_outputs (outputs : list CliServerOutput) : string :=
  join (String (ascii_of_nat 10) "") (concat (map render_output outputs)).

(** [None] values of the arguments are written as [None]. *)
Definition raw_argument (kv : string * pyval) : string :=
  let '(key, val) := kv in
  match val with
  | VBool true => "--" +:+ key
  | VBool false => "--" +:+ key +:+ "=false"
  | VList l => "--" +:+ key +:+ "=" +:+ quote_shell_word (join "," (map text_of l))
  | v => "--" +:+ key +:+ "=" +:+ quote_shell_word (text_of v)
  end.
Definition _raw_command (path : list string) (value : option string) (args : dict string pyval) : string :=
  join " " (path ++ (if truthy_opt value then [quote_shell_word (or_empty value)] else []) ++ map raw_argument args).

(** ** The tools *)

Section Provider.
Context {World : Type}.
Abbreviation Proc := (ICliCommandProcessor World CliServerResponse).

Definition takes_value (p : Proc) : bool := bool_decide (is_Some (p_value_required (info p))).
Definition parameters (p : Proc) : list CliCommandParameterDescriptor := default [] (p_parameters (info p)).

Definition command_input_schema (p : Proc) : dict string pyval :=
  let '(properties, required) := schema_loop (parameters p) [] [] in
  if takes_value p && negb (dict_mem "value" properties) then
    object_schema
      (dict_set "value" (VDict [("type", VStr "string"); ("description", VStr "Positional input of the command")]) properties)
      (if bool_decide (p_value_required (info p) = Some true) then required ++ ["value"] else required)
  else object_schema properties required.

(** [executor.execute_async(command)] for a caller ([executing_as]). *)
Context (execute : McpCallContext → CliProcessCommand → py World exn CliServerResponse).

(** [isinstance(value, str)] holds for the value of a checked call. *)
Definition as_text (v : pyval) : option string := match v with VStr s => Some s | _ => None end.

Definition tool_command (p : Proc) (path : list string) (arguments : dict string pyval) : CliProcessCommand :=
  let own := takes_value p && negb (bool_decide ("value" ∈ map d_name (parameters p))) in
  let value := if own then dict_get "value" arguments ≫= as_text else None in
  let args := if own then dict_del "value" arguments else arguments in
  {| command := default "" (head path);
     raw_command := _raw_command path value args;
     value := value;
     args := args;
     chain_commands := tail path;
     data := VNone;
     positionals := Some (if truthy_opt value then [or_empty value] else []) |}.

Definition call_tool (p : Proc) (path : list string) (arguments : dict string pyval) (c : McpCallContext)
    : py World exn McpToolResult :=
  response ← execute c (tool_command p path arguments);
  mret {| r_text := render_outputs (outputs response);
          structured := match outputs response with [JsonOutput (VDict d)] => Some d | _ => None end;
          is_error := negb (exit_code response =? 0) |}.

Definition _tool (p : Proc) (path perms : list string) (name : string) : McpTool World :=
  {| t_name := name;
     t_description := if is_empty (p_description (info p)) then "Run '" +:+ join " " path +:+ "'" else p_description (info p);
     input_schema := command_input_schema p;
     t_call := call_tool p path;
     t_required_permissions := fromkeys [] perms;
     annotations := None |}.

(** The node is a tool of its own. *)
Definition is_tool (p : Proc) : bool :=
  bool_decide (length (processors p) = 0%nat) || negb (bool_decide (length (parameters p) = 0%nat)) || takes_value p.

Definition visit_here (p : Proc) (path perms : list string) (acc : list (McpTool World) * list string)
    : list (McpTool World) * list string :=
  let name := command_tool_name path in
  if is_tool p && negb (bool_decide (name ∈ acc.2)) then (acc.1 ++ [_tool p path perms name], acc.2 ++ [name]) else acc.

Fixpoint visit (p : Proc) (path chain_perms : list string) (acc : list (McpTool World) * list string)
    : list (McpTool World) * list string :=
  let 'Processor i subs := p in
  let path := path ++ [p_command i] in
  let perms := chain_perms ++ default [] (p_required_permissions i) in
  let acc := visit_here p path perms acc in
  match subs with
  | Some subs => (fix go (l : list Proc) acc := match l with [] => acc | q :: l => go l (visit q path perms acc) end) subs acc
  | None => acc
  end.

Definition command_tools (r : CliCommandRegistry World CliServerResponse) : list (McpTool World) :=
  (foldl (λ acc p, visit p [] [COMMANDS_EXECUTE] acc) ([], []) (registry_processors r)).1.

Definition CommandsMcpToolProvider (r : CliCommandRegistry World CliServerResponse) : IMcpToolProvider World :=
  {| mcp_tier := Some TIER_COMMANDS; get_tools := λ _, mret (Some (command_tools r)) |}.
End Provider.
End Rendering.
