(* ===== verification/McpSafety.v ===== *)
(** * MCP tools: which a caller sees, what a call is checked for, what it runs *)

From S2P Require Import Prelude PyStr Values ShellWords Regex Commands Outputs McpCore McpCommands.
From Stdlib Require Import Ascii.

(** ** The tools of a caller *)

Section Visible.
Context {World : Type}.
Implicit Types (t : McpTool World) (c : McpCallContext) (s : World).

(** What the providers give one after the other; one that raises gives nothing. *)
Fixpoint gather c (ps : list (IMcpToolProvider World)) : py World exn (list (McpTool World)) :=
  match ps with
  | [] => mret []
  | p :: ps =>
      result ← try_except (ts ← get_tools p c; mret (default [] ts))
                 (λ e, match e with Exn _ => mret [] | Cancelled => raise Cancelled end);
      rest ← gather c ps;
      mret (result ++ rest)
  end.

Lemma tools_loop_gather o c ps out s :
  tools_loop o c ps out s = (ts ← gather c ps; mret (foldl (add_tool o c) out ts)) s.
Proof.
  revert out s. induction ps as [|p ps IH]; intros out s; [done|]. cbn [tools_loop gather].
  rewrite !py_bind_eq. destruct (try_except _ _ s) as [[e|result] s1]; [done|]. rewrite IH, !py_bind_eq.
  destruct (gather c ps s1) as [[e|rest] s2]; [done|]. unfold mret, py_ret. by rewrite foldl_app.
Qed.

Lemma tools_loop_no_raise o c ps out s m : (tools_loop o c ps out s).1 ≠ inl (Exn m).
Proof.
  revert out s. induction ps as [|p ps IH]; intros out s; [done|]. cbn [tools_loop]. rewrite py_bind_eq.
  unfold try_except. rewrite py_bind_eq. destruct (get_tools p c s) as [[[?|]|ts] s1]; [apply IH|done|apply IH].
Qed.

(** The first of the tools with a name that is shown. *)
Definition first_shown o c (ts : list (McpTool World)) (n : string) : option (McpTool World) :=
  List.find (λ t, bool_decide (t_name t = n) && shown o c t) ts.

Lemma find_app {A} (f : A → bool) l k :
  List.find f (l ++ k) = match List.find f l with Some x => Some x | None => List.find f k end.
Proof. induction l as [|x l IH]; simpl; [done|]. by destruct (f x). Qed.

Lemma add_tools_get o c (ts : list (McpTool World)) out n :
  dict_get n (foldl (add_tool o c) out ts) =
  match dict_get n out with Some t => Some t | None => first_shown o c ts n end.
Proof.
  revert out. induction ts as [|t ts IH]; intros out; simpl; [by destruct (dict_get n out)|].
  rewrite IH. unfold add_tool, first_shown. simpl. destruct (shown o c t); cbn [negb]; [|by rewrite andb_false_r].
  rewrite andb_true_r. destruct (dict_mem (t_name t) out) eqn:Hm.
  - apply dict_mem_get in Hm as [t' Ht']. case_bool_decide; [subst; by rewrite Ht'|done].
  - case_bool_decide as Hn; [subst; rewrite dict_get_set_eq|by rewrite dict_get_set_ne].
    destruct (dict_get (t_name t) out) eqn:Hg; [|done]. exfalso. by rewrite (proj2 (dict_mem_get _ _)) in Hm by eauto.
Qed.

Lemma add_tools_ok o c (ts : list (McpTool World)) out : dict_ok out → dict_ok (foldl (add_tool o c) out ts).
Proof.
  revert out. induction ts as [|t ts IH]; intros out Hok; simpl; [done|]. apply IH. unfold add_tool.
  destruct (negb _); [done|]. destruct (dict_mem _ _); auto with dict.
Qed.

(** The tools of a caller are, by name, the first that is shown to it of what
    the providers give in the order of their tiers; asking for them raises
    nothing. *)
Theorem tools_spec (r : McpToolRegistry World) c s :
  (∀ m, (tools r c s).1 ≠ inl (Exn m)) ∧
  ∀ out s', tools r c s = (inr out, s') →
    dict_ok out ∧
    ∃ ts, gather c (providers r) s = (inr ts, s') ∧
      ∀ n, dict_get n out = first_shown (default default_mcp_options (options r)) c ts n.
Proof.
  unfold tools. split; [intros m; apply tools_loop_no_raise|]. intros out s'. rewrite tools_loop_gather, py_bind_eq.
  destruct (gather c (providers r) s) as [[e|ts] s1]; [done|]. intros [= <- <-]. split; [apply add_tools_ok, dict_ok_nil|].
  exists ts. split; [done|]. intros n. by rewrite add_tools_get.
Qed.

Lemma first_shown_some o c ts n t :
  first_shown o c ts n = Some t → t ∈ ts ∧ t_name t = n ∧ shown o c t = true.
Proof.
  intros [Hin Ht%andb_true_iff]%List.find_some. destruct Ht as [Hn%bool_decide_eq_true Hs].
  split_and!; [by apply list_elem_of_In|done|done].
Qed.

Lemma shown_permitted o c t p : shown o c t = true → p ∈ t_required_permissions t → context_can c p = true.
Proof.
  unfold shown. rewrite !andb_true_iff, forallb_forall. intros [_ Hall] Hp. apply Hall. by apply list_elem_of_In.
Qed.
End Visible.

(** ** The check of the arguments *)

(** A value a property takes. *)
Definition conforms (prop : dict string pyval) (v : pyval) : Prop :=
  _type_ok v (type_name prop) = true ∧
  (type_name prop = "array" → items_type prop ≠ "" → ∀ l x, v = VList l → x ∈ l → _type_ok x (items_type prop) = true).

Lemma check_property_spec key prop v : _check_property key prop v = None ↔ conforms prop v.
Proof.
  unfold _check_property, conforms. destruct (_type_ok v (type_name prop)) eqn:Ht; cbn [negb].
  2:{ split; [by destruct (_ && _)|intros [? _]; done]. }
  case_bool_decide as Ha; cbn [andb]; [|naive_solver]. unfold truthy, is_empty. case_bool_decide as Hi; cbn [negb andb]; [naive_solver|].
  destruct (existsb _ _) eqn:Hx.
  - split; [done|]. intros [_ Hall]. apply existsb_exists in Hx as (x & Hx & Hbad%negb_true_iff).
    destruct v as [| | | | | |l|]; try done. by rewrite (Hall Ha Hi l x eq_refl (proj2 (list_elem_of_In _ _) Hx)) in Hbad.
  - split; [|done]. intros _. split; [done|]. intros _ _ l x -> Hin. apply not_false_iff_true. intros Hbad.
    apply not_true_iff_false in Hx. apply Hx. apply existsb_exists. exists x. rewrite Hbad. split; [by apply list_elem_of_In|done].
Qed.

Lemma check_arguments_spec properties l :
  check_arguments properties l = None ↔
  Forall (λ kv, is_null (dict_get kv.1 properties) = false ∧
                (kv.2 = VNone ∨ conforms (sub_dict kv.1 properties) kv.2)) l.
Proof.
  induction l as [|[k v] l IH]; cbn [check_arguments]; [split; [constructor|done]|]. rewrite Forall_cons. cbn [fst snd].
  destruct (is_null (dict_get k properties)); [naive_solver|].
  assert (Hv : is_null (Some v) = true ↔ v = VNone) by (by destruct v).
  destruct (is_null (Some v)).
  - rewrite IH. naive_solver.
  - destruct (_check_property k (sub_dict k properties) v) as [e|] eqn:Hc.
    + split; [done|]. intros [[_ [->|Hcf]] _]; [naive_solver|]. apply (check_property_spec k) in Hcf. congruence.
    + apply check_property_spec in Hc. rewrite IH. naive_solver.
Qed.

Lemma check_required_spec arguments l :
  check_required arguments l = None ↔ ∀ key, VStr key ∈ l → is_null (dict_get key arguments) = false.
Proof.
  induction l as [|v l IH]; simpl.
  { split; [|done]. intros _ k Hk. by apply elem_of_nil in Hk. }
  destruct v as [| | | |key| | |];
    try (rewrite IH; split; intros H k Hk; [apply elem_of_cons in Hk as [|]; [done|by apply H]|apply H, elem_of_cons; by right]).
  destruct (is_null (dict_get key arguments)) eqn:Hn.
  - split; [done|]. intros H. rewrite H in Hn; [done|apply elem_of_cons; by left].
  - rewrite IH. split.
    + intros H k Hk. apply elem_of_cons in Hk as [[= ->]|Hk]; auto.
    + intros H k Hk. apply H, elem_of_cons. by right.
Qed.

(** A call's arguments are accepted exactly when every one is declared and is
    null or of the declared type, and every required one is there and not
    null. *)
Theorem validate_arguments_spec arguments schema :
  validate_arguments arguments schema = None ↔
  (∀ k v, (k, v) ∈ arguments →
     is_null (dict_get k (sub_dict "properties" schema)) = false ∧
     (v = VNone ∨ conforms (sub_dict k (sub_dict "properties" schema)) v)) ∧
  (∀ k, VStr k ∈ sub_list "required" schema → is_null (dict_get k arguments) = false).
Proof.
  unfold validate_arguments. destruct (check_arguments _ _) eqn:Hc.
  - split; [done|]. intros [Hall _]. exfalso.
    assert (check_arguments (sub_dict "properties" schema) arguments = None); [|congruence].
    apply check_arguments_spec, Forall_forall. intros [k v] Hkv. by apply Hall.
  - apply check_arguments_spec in Hc. rewrite check_required_spec. rewrite Forall_forall in Hc.
    split; [|by intros [_ ?]]. intros Hr. split; [|done]. intros k v Hkv. exact (Hc (k, v) Hkv).
Qed.

(** ** Quoting *)

Lemma scan_all_plain st w rest :
  existsb needs_quoting_char w = false → w ≠ [] → scan_all st (w ++ rest) = scan_all (extend st w) rest.
Proof.
  revert st. induction w as [|c w IH]; intros st Hq Hne; [done|]. simpl in Hq. apply orb_false_elim in Hq as [Hc Hw].
  unfold needs_quoting_char in Hc. apply orb_false_elim in Hc as [[Hsp Hd]%orb_false_elim Hx].
  change (chars "'\|&;<>()$`") with (squote :: bslash :: chars "|&;<>()$`") in Hx. cbn [existsb] in Hx.
  apply orb_false_elim in Hx as [Hs [Hb _]%orb_false_elim].
  assert (Hstep : scan_step st c (w ++ rest) = (extend st [c], w ++ rest)).
  { unfold scan_step, plain. rewrite Hb, Hs, Hd, Hsp. by destruct (w ++ rest). }
  cbn [app]. rewrite scan_all_cons, Hstep. destruct w as [|c' w]; [done|]. rewrite IH by done.
  f_equal. unfold extend. simpl. by rewrite <- app_assoc.
Qed.

Lemma find_squote_app w rest : squote ∉ w → find_squote (w ++ squote :: rest) = Some (w, rest).
Proof.
  induction w as [|c w IH]; intros Hn; [done|]. simpl. destruct (Ascii.eqb_spec c squote); [set_solver|].
  rewrite IH by set_solver. done.
Qed.

Lemma scan_all_squoted st w rest :
  squote ∉ w → scan_all st (squote :: w ++ squote :: rest) = scan_all (extend st w) rest.
Proof.
  intros Hn. rewrite scan_all_cons. unfold scan_step. pose proof (find_squote_app w rest Hn) as Hf.
  destruct (w ++ squote :: rest) as [|d l] eqn:E; [by destruct w|]. by rewrite Hf.
Qed.

Lemma escaped_all l : escaped true l = escape l.
Proof.
  unfold escaped, escape. induction l as [|c l IH]; [done|]. cbn [map concat]. rewrite IH. unfold escape_char. simpl.
  by rewrite orb_comm.
Qed.

Lemma escaped_no_dquote l : dquote ∉ l → escaped false l = escape l.
Proof.
  unfold escaped, escape. induction l as [|c l IH]; intros Hn; [done|]. cbn [map concat]. rewrite IH by set_solver.
  unfold escape_char. simpl. destruct (Ascii.eqb_spec c dquote); [set_solver|]. by rewrite orb_false_r.
Qed.

Lemma has_char_false c s : has_char c s = false → c ∉ chars s.
Proof. intros H Hin. apply has_char_spec in Hin. congruence. Qed.

(** Scanning a quoted word adds the word. *)
Lemma scan_all_shell_word st w rest :
  scan_all st (chars (quote_shell_word w) ++ rest) = scan_all (extend st (chars w)) rest.
Proof.
  unfold quote_shell_word. destruct (truthy w && _) eqn:Hp.
  { apply andb_true_iff in Hp as [Hne%truthy_spec Hq%negb_true_iff]. apply scan_all_plain; [done|].
    intros Hnil. apply Hne. by destruct w. }
  destruct (has_char dquote w) eqn:Hd; cbn [negb].
  - destruct (has_char squote w) eqn:Hs; cbn [negb]; rewrite chars_str.
    + rewrite escaped_all. rewrite <- !app_assoc. apply scan_all_quoted.
    + apply has_char_false in Hs. rewrite <- !app_assoc. by apply scan_all_squoted.
  - apply has_char_false in Hd. rewrite chars_str, escaped_no_dquote by done. rewrite <- !app_assoc. apply scan_all_quoted.
Qed.

Lemma scan_all_shell_words ws w W :
  scan_all (Scan W [] false) (chars (join " " (map quote_shell_word (w :: ws)))) = W ++ map chars (w :: ws).
Proof.
  revert w W; induction ws as [|w' ws IH]; intros w W.
  - cbn [map join]. rewrite <- (app_nil_r (chars (quote_shell_word w))), scan_all_shell_word. done.
  - change (join " " (map quote_shell_word (w :: w' :: ws)))
      with (quote_shell_word w +:+ " " +:+ join " " (map quote_shell_word (w' :: ws))).
    rewrite !chars_app, scan_all_shell_word. change (chars " " ++ ?x) with (" "%char :: x). rewrite scan_all_space, IH.
    cbn [flush in_word words current extend]. by rewrite <- app_assoc.
Qed.

(** C19: The command line of a tool call is read back as its words: quoting each
    word, whatever characters it has, and splitting the line gives the words. *)
Theorem quote_shell_words_split (ws : list string) :
  split_shell_words (join " " (map quote_shell_word ws)) = ws.
Proof.
  destruct ws as [|w ws]; [done|]. rewrite split_shell_words_eq. unfold scan0. rewrite scan_all_shell_words.
  apply map_str_chars.
Qed.
