(* ===== verification/McpTree.v ===== *)
(** * The tools of the command tree

    A tool runs the processor it was made from, and whoever sees it may run it:
    the tree walk, the resolution of chains and the permission check agree. *)

From S2P Require Import Prelude PyStr Values ShellWords Commands Outputs McpCore McpCommands McpSafety.
From Stdlib Require Import Ascii.

Section Tree.
Context (str_time : Z → string) {World : Type}.
Abbreviation Proc := (ICliCommandProcessor World CliServerResponse).
Context (execute : McpCallContext → CliProcessCommand → py World exn CliServerResponse).

(** ** The nodes, in the order of the walk *)

(** A node with the names from its root and the permissions on the way. *)
Record node := { n_proc : Proc; n_path : list string; n_perms : list string }.

Fixpoint nodes (p : Proc) (path perms : list string) : list node :=
  let 'Processor i subs := p in
  let path := path ++ [p_command i] in
  let perms := perms ++ default [] (p_required_permissions i) in
  {| n_proc := p; n_path := path; n_perms := perms |} ::
  match subs with
  | Some subs => (fix go l := match l with [] => [] | q :: l => nodes q path perms ++ go l end) subs
  | None => []
  end.

Lemma nodes_eq p path perms :
  nodes p path perms =
  {| n_proc := p; n_path := path ++ [cmd p]; n_perms := perms ++ required_permissions p |} ::
  concat (map (λ q, nodes q (path ++ [cmd p]) (perms ++ required_permissions p)) (processors p)).
Proof.
  destruct p as [i [subs|]]; [|done]. change (processors (Processor i (Some subs))) with subs. cbn [nodes]. f_equal. unfold cmd, required_permissions. cbn [info].
  induction subs as [|q subs IH]; [done|]. simpl. by rewrite IH.
Qed.

Definition visit_node (acc : list (McpTool World) * list string) (n : node) :=
  visit_here str_time execute (n_proc n) (n_path n) (n_perms n) acc.

(** Induction on the tree. *)
Lemma proc_ind (P : Proc → Prop) : (∀ p, (∀ q, q ∈ processors p → P q) → P p) → ∀ p, P p.
Proof.
  intros Hstep. fix IH 1. intros [i [subs|]]; apply Hstep; cbn [processors default].
  - induction subs as [|q subs IHs]; intros q' Hq'; [destruct (proj1 (elem_of_nil q') Hq')|].
    apply elem_of_cons in Hq' as [->|Hq']; [apply IH|apply (IHs q' Hq')].
  - intros q Hq. destruct (proj1 (elem_of_nil q) Hq).
Qed.

Lemma visit_nodes p path perms acc :
  visit str_time execute p path perms acc = foldl visit_node acc (nodes p path perms).
Proof.
  revert path perms acc. induction p as [p IH] using proc_ind. intros path perms acc. rewrite nodes_eq.
  destruct p as [i [subs|]]; [|done]. change (processors (Processor i (Some subs))) with subs in *.
  cbn [visit foldl]. unfold visit_node at 2.
  cbn [n_proc n_path n_perms]. unfold cmd, required_permissions. cbn [info].
  set (acc1 := visit_here _ _ _ _ _ _). clearbody acc1. revert acc1.
  induction subs as [|q subs IHs]; intros acc1; [done|]. cbn [map concat]. rewrite foldl_app, IH by set_solver.
  apply IHs. intros q' Hq'. apply IH. set_solver.
Qed.

Definition all_nodes (r : CliCommandRegistry World CliServerResponse) : list node :=
  concat (map (λ p, nodes p [] [COMMANDS_EXECUTE]) (registry_processors r)).

Lemma command_tools_nodes r : command_tools str_time execute r = (foldl visit_node ([], []) (all_nodes r)).1.
Proof.
  unfold command_tools, all_nodes. f_equal. generalize (@nil (McpTool World), @nil string).
  induction (registry_processors r) as [|p l IH]; intros acc; [done|]. cbn [map concat foldl]. by rewrite IH, foldl_app, visit_nodes.
Qed.

Definition tool_of (n : node) : McpTool World :=
  _tool str_time execute (n_proc n) (n_path n) (n_perms n) (command_tool_name (n_path n)).

Lemma visited (l : list node) acc :
  acc.2 = map t_name acc.1 → NoDup acc.2 →
  let res := foldl visit_node acc l in
  res.2 = map t_name res.1 ∧ NoDup res.2 ∧
  ∀ t, t ∈ res.1 → t ∈ acc.1 ∨ ∃ n, n ∈ l ∧ is_tool (n_proc n) = true ∧ t = tool_of n.
Proof.
  revert acc. induction l as [|n l IH]; intros acc Hacc Hnd; simpl; [auto|].
  assert (Hstep : (visit_node acc n).2 = map t_name (visit_node acc n).1 ∧ NoDup (visit_node acc n).2 ∧
    ∀ t, t ∈ (visit_node acc n).1 → t ∈ acc.1 ∨ (is_tool (n_proc n) = true ∧ t = tool_of n)).
  { unfold visit_node, visit_here. destruct (is_tool (n_proc n)); [|by auto]. case_bool_decide as Hin; [by auto|]. simpl.
    split_and!; [by rewrite map_app, <- Hacc| |].
    - apply NoDup_app. split_and!; [done|set_solver|apply NoDup_singleton].
    - intros t [?| ->%list_elem_of_singleton]%elem_of_app; auto. }
  destruct Hstep as (H1 & H2 & H3). destruct (IH _ H1 H2) as (IH1 & IH2 & IH3). split_and!; [done..|].
  intros t Ht. destruct (IH3 t Ht) as [Ht'|(n' & Hn' & ? & ?)].
  - destruct (H3 t Ht') as [?|[? ->]]; [auto|]. right. exists n. set_solver.
  - right. exists n'. set_solver.
Qed.

Lemma command_tools_from r t :
  t ∈ command_tools str_time execute r → ∃ n, n ∈ all_nodes r ∧ is_tool (n_proc n) = true ∧ t = tool_of n.
Proof.
  rewrite command_tools_nodes. intros Ht.
  destruct (visited (all_nodes r) ([], []) eq_refl (NoDup_nil_2)) as (_ & _ & H).
  destruct (H t Ht) as [Hn|]; [by apply elem_of_nil in Hn|done].
Qed.

(** ** Where a node is in the tree *)

(** [q] is below [p] by the names [chain], through the nodes [ps]. *)
Inductive reach : Proc → list string → list Proc → Proc → Prop :=
| reach_here p : reach p [] [] p
| reach_sub p q chain ps r : q ∈ processors p → reach q chain ps r → reach p (cmd q :: chain) (q :: ps) r.

Lemma nodes_reach p path perms n :
  n ∈ nodes p path perms →
  ∃ chain ps, reach p chain ps (n_proc n) ∧ n_path n = path ++ cmd p :: chain ∧
    n_perms n = perms ++ required_permissions p ++ concat (map required_permissions ps).
Proof.
  revert path perms n. induction p as [p IH] using proc_ind. intros path perms n. rewrite nodes_eq, elem_of_cons.
  intros [->|Hn].
  - exists [], []. simpl. rewrite app_nil_r. split_and!; [constructor|done..].
  - apply list_elem_of_In, in_concat in Hn as (k & (q & <- & Hq)%in_map_iff & Hn).
    apply list_elem_of_In in Hq, Hn. destruct (IH q Hq _ _ _ Hn) as (chain & ps & Hr & Hp & Hperms).
    exists (cmd q :: chain), (q :: ps). split_and!; [by constructor| |].
    + by rewrite Hp, <- app_assoc.
    + rewrite Hperms. simpl. by rewrite <- app_assoc.
Qed.

(** Siblings have different names, in any case, everywhere below. *)
Inductive tree_ok : Proc → Prop :=
| tree_ok_node p :
    NoDup (map (λ q, lower (cmd q)) (processors p)) → (∀ q, q ∈ processors p → tree_ok q) → tree_ok p.

(** A registry keeps a processor under its lower-cased name. *)
Definition registry_ok (r : CliCommandRegistry World CliServerResponse) : Prop :=
  dict_ok r ∧ ∀ k p, dict_get k r = Some p → k = lower (cmd p) ∧ tree_ok p.

Lemma find_sub_unique (subs : list Proc) q :
  NoDup (map (λ q, lower (cmd q)) subs) → q ∈ subs → find_sub subs (cmd q) = Some q.
Proof.
  unfold find_sub. induction subs as [|p subs IH]; simpl; [intros _ H; by apply elem_of_nil in H|].
  intros [Hp Hnd]%NoDup_cons [->|Hq]%elem_of_cons; [by rewrite bool_decide_eq_true_2|].
  case_bool_decide as Heq; [|by apply IH]. exfalso. apply Hp. rewrite Heq. by apply list_elem_of_fmap_2 with (f := λ q, lower (cmd q)).
Qed.

Lemma reach_resolves p chain ps q :
  tree_ok p → reach p chain ps q → _resolve_chain p chain = Some q ∧ _chain_processors (Some p) chain = ps.
Proof.
  intros Hok Hr. induction Hr as [p|p q0 chain ps q Hq0 Hr IH]; [done|].
  inversion Hok as [? Hnd Hsub]; subst. rewrite resolve_chain_cons. cbn [_chain_processors].
  rewrite find_sub_unique by done. destruct (IH (Hsub q0 Hq0)) as [-> ->]. done.
Qed.

Lemma reach_last p chain ps q : reach p chain ps q → q = p ∨ q ∈ ps.
Proof. induction 1 as [|p q0 chain ps q Hq0 Hr [->|IH]]; [auto|set_solver..]. Qed.

Lemma missing_none can ps : missing_processor_permissions can ps = [] ↔
  ∀ can', can = Some can' → ∀ p perm, Some p ∈ ps → perm ∈ required_permissions (World := World) (Response := CliServerResponse) p → can' perm = true.
Proof.
  destruct can as [can|]; [|naive_solver]. split.
  - intros Hnil can' [= <-] p perm Hp Hperm. destruct (can perm) eqn:Hc; [done|].
    assert (Hin : perm ∈ missing_processor_permissions (Some can) ps).
    { apply missing_processor_permissions_spec. eauto. }
    rewrite Hnil in Hin. by apply elem_of_nil in Hin.
  - intros Hall. destruct (missing_processor_permissions (Some can) ps) as [|perm l] eqn:Hm; [done|].
    assert (Hin : perm ∈ missing_processor_permissions (Some can) ps) by (rewrite Hm; set_solver).
    apply missing_processor_permissions_spec in Hin as (p & Hp & Hperm & Hc). by rewrite (Hall can eq_refl p perm) in Hc.
Qed.

Lemma permission_granted (r : CliCommandRegistry World CliServerResponse) can command chain root :
  dict_get (lower command) r = Some root →
  (∀ p perm, p = root ∨ p ∈ _chain_processors (Some root) chain ∨ find_processor r command chain = Some p →
     perm ∈ required_permissions p → can perm = true) →
  _permission_denied r (Some can) command chain = None.
Proof.
  intros Hroot Hall. unfold _permission_denied. rewrite find_processor_nil, Hroot.
  rewrite (proj2 (missing_none (Some can) _)); [done|]. intros can' [= <-] p perm Hps Hperm. apply (Hall p); [|done].
  rewrite elem_of_cons, elem_of_app, list_elem_of_singleton in Hps. destruct Hps as [[= ->]|[Hps|Hps]]; [auto| |auto].
  apply list_elem_of_fmap in Hps as (? & [= <-] & ?). auto.
Qed.

(** C17: A tool of the command tree runs the processor it was made from: the executor
    finds it by the call's command and chain.  The tool asks for the permission
    to run commands and for those of every processor on the way, so a caller who
    holds what it asks for is not refused by the check of the execute routes,
    with whatever arguments the tool is called. *)
Theorem command_tool_runs (r : CliCommandRegistry World CliServerResponse) t :
  registry_ok r → t ∈ command_tools str_time execute r →
  ∃ p path perms, t = _tool str_time execute p path perms (command_tool_name path) ∧
    (∀ arguments,
       let c := tool_command str_time p path arguments in
       find_processor r (command c) (chain_commands c) = Some p) ∧
    COMMANDS_EXECUTE ∈ t_required_permissions t ∧
    (∀ can, (∀ q, q ∈ t_required_permissions t → can q = true) →
       ∀ arguments,
       let c := tool_command str_time p path arguments in
       _permission_denied r (Some can) (command c) (chain_commands c) = None).
Proof.
  intros [Hok Hreg] Ht. destruct (command_tools_from r t Ht) as (n & Hn & _ & ->).
  unfold all_nodes in Hn. apply list_elem_of_In, in_concat in Hn as (k & (root & <- & Hroot)%in_map_iff & Hn).
  apply list_elem_of_In in Hn, Hroot. destruct (nodes_reach _ _ _ _ Hn) as (chain & ps & Hr & Hp & Hperms).
  unfold registry_processors, dict_values in Hroot. apply list_elem_of_fmap in Hroot as ([key root'] & -> & Hin). simpl in *.
  assert (Hget : dict_get (lower (cmd root')) r = Some root').
  { pose proof (dict_elem_of_get _ _ _ Hok Hin) as Hg. by destruct (Hreg _ _ Hg) as [<- _]. }
  destruct (Hreg _ _ Hget) as [_ Htree]. destruct (reach_resolves _ _ _ _ Htree Hr) as [Hres Hchain].
  assert (Hfind : find_processor r (cmd root') chain = Some (n_proc n)).
  { unfold find_processor. rewrite Hget. destruct chain; [|done]. by injection Hres as ->. }
  exists (n_proc n), (n_path n), (n_perms n). split; [done|]. rewrite Hp, Hperms. cbn [app head tail default from_option id tool_command command chain_commands].
  split_and!; [done| |].
  - cbn [tool_of _tool t_required_permissions]. apply fromkeys_elem. split; [|set_solver]. rewrite ?Hperms. set_solver.
  - intros can Hcan _. apply (permission_granted r can (cmd root') chain root' Hget).
    rewrite Hchain, Hfind. intros p perm Hpp Hperm. apply Hcan.
    cbn [tool_of _tool t_required_permissions]. apply fromkeys_elem. split; [|set_solver]. rewrite ?Hperms.
    assert (p = root' ∨ p ∈ ps) as Hin'.
    { destruct Hpp as [?|[?|[= <-]]]; [auto..|]. by apply reach_last in Hr. }
    apply elem_of_cons. right. apply elem_of_app. destruct Hin' as [->|Hin']; [by left|right].
    apply list_elem_of_In, in_concat. exists (required_permissions p). split; [by apply in_map, list_elem_of_In|by apply list_elem_of_In].
Qed.
End Tree.
