(* ===== verification/Mcp.v ===== *)
(** * The MCP endpoint ([core/mcp/endpoint.py])

    One JSON-RPC message per request.  The request is given by what the route
    reads of it; [json.loads] of its body is a field ([None]: it raised). *)

From S2P Require Import Prelude PyStr Values Regex Commands Origins McpCore McpCommands McpSafety Outputs.
From S2P Require Import McpTree.
From Stdlib Require Import Ascii.

Definition MCP_PATH : string := "/api/qcli/mcp".
Definition SUPPORTED_PROTOCOL_VERSIONS : list string := ["2025-11-25"; "2025-06-18"; "2025-03-26"].
Definition SERVER_NAME : string := "qodalis-cli-server".
Definition PARSE_ERROR : Z := -32700.
Definition INVALID_REQUEST : Z := -32600.
Definition METHOD_NOT_FOUND : Z := -32601.
Definition INVALID_PARAMS : Z := -32602.

Inductive mcp_answer :=
| Json (status : Z) (body : pyval)
| Empty202.

Definition _rpc_error (id_ : pyval) (code : Z) (message : string) : mcp_answer :=
  Json 200 (VDict [("jsonrpc", VStr "2.0"); ("id", id_);
    ("error", VDict [("code", VInt code); ("message", VStr message)])]).
Definition rpc_result (id_ result : pyval) : mcp_answer :=
  Json 200 (VDict [("jsonrpc", VStr "2.0"); ("id", id_); ("result", result)]).

Definition _valid_id (v : pyval) : bool := match v with VStr _ | VInt _ => true | _ => false end.

Record McpRequest := {
  rq_method : string;
  rq_path : string;
  rq_origin : option string;
  rq_scope : Scope;
  rq_auth : option (string → bool);
  rq_authorization : option string;
  rq_body : option pyval;
}.

Definition forbidden_origin : mcp_answer := Json 403 (VDict [("error", VStr "forbidden: origin not allowed")]).
Definition method_not_allowed : mcp_answer := Json 405 (VDict [("error", VStr "method not allowed")]).

(** [supplied] of a static token *)
Definition supplied_token (authorization : option string) : string :=
  let header := or_empty authorization in
  if bool_decide (lower (take_str 7 header) = "bearer ") then strip (drop_str 7 header) else "".

Section Endpoint.
Context `{U : UrlLib} {World : Type}.
Context (registry : McpToolRegistry World) (mcp_options : CliMcpOptions) (server_version : string).
Context (allowed_origins : list string) (trust_proxy : bool).

(** [McpGateMiddleware]: [None] goes on to the application. *)
Definition gate (r : McpRequest) : option mcp_answer :=
  if bool_decide (str (rstrip_chars (Ascii.eqb "/"%char) (chars (rq_path r))) = MCP_PATH) then
    if bool_decide (upper (rq_method r) ∈ ["GET"; "DELETE"]) then Some method_not_allowed
    else if negb (bool_decide (upper (rq_method r) = "OPTIONS")) && bool_decide (is_Some (rq_origin r)) &&
            negb (origin_allowed (rq_origin r) allowed_origins (Some (rq_scope r)) trust_proxy)
    then Some forbidden_origin
    else None
  else None.

(** What [dispatch] gives: an [_RpcError] or a result. *)
Definition rpc : Type := (Z * string) + pyval.

Definition initialize (params : dict string pyval) : rpc :=
  match dict_get "protocolVersion" params with
  | Some (VStr requested) =>
      let version := if bool_decide (requested ∈ SUPPORTED_PROTOCOL_VERSIONS) then requested
                     else default "" (head SUPPORTED_PROTOCOL_VERSIONS) in
      inr (VDict ([("protocolVersion", VStr version);
        ("capabilities", VDict [("tools", VDict [("listChanged", VBool false)])]);
        ("serverInfo", VDict [("name", VStr SERVER_NAME); ("version", VStr server_version)])] ++
        if truthy_opt (instructions mcp_options) then [("instructions", VStr (or_empty (instructions mcp_options)))] else []))
  | _ => inl (INVALID_PARAMS, "Invalid params: protocolVersion must be a string")
  end.

Definition text_content (t : string) : pyval := VList [VDict [("type", VStr "text"); ("text", VStr t)]].

Definition tool_body (result : McpToolResult) : pyval :=
  VDict ([("content", text_content (r_text result)); ("isError", VBool (is_error result))] ++
    match structured result with Some d => [("structuredContent", VDict d)] | None => [] end).
Definition tool_failed (msg : string) : pyval :=
  VDict [("content", text_content ("Error: " +:+ msg)); ("isError", VBool true)].

(** The call itself, with its exceptions as a tool error. *)
Definition run_tool (t : McpTool World) (arguments : dict string pyval) (c : McpCallContext) : py World exn pyval :=
  try_except (result ← t_call t arguments c; mret (tool_body result))
    (λ e, match e with Exn m => mret (tool_failed m) | Cancelled => raise Cancelled end).

Definition call_named (name : string) (arguments : dict string pyval) (c : McpCallContext) : py World exn rpc :=
  ts ← tools registry c;
  match dict_get name ts with
  | None => mret (inl (INVALID_PARAMS, "Unknown tool: " +:+ name))
  | Some t =>
      match validate_arguments arguments (input_schema t) with
      | Some error => mret (inl (INVALID_PARAMS, "Invalid arguments for tool " +:+ name +:+ ": " +:+ error))
      | None => body ← run_tool t arguments c; mret (inr body)
      end
  end.

Definition call_tool (params : dict string pyval) (c : McpCallContext) : py World exn rpc :=
  match dict_get "name" params with
  | Some (VStr name) =>
      if is_empty name then mret (inl (INVALID_PARAMS, "Invalid params: 'name' is required"))
      else
        match default VNone (dict_get "arguments" params) with
        | VNone => call_named name [] c
        | VDict arguments => call_named name arguments c
        | _ => mret (inl (INVALID_PARAMS, "Invalid params: 'arguments' must be an object"))
        end
  | _ => mret (inl (INVALID_PARAMS, "Invalid params: 'name' is required"))
  end.

Definition dispatch (method : string) (params : dict string pyval) (c : McpCallContext) : py World exn rpc :=
  if bool_decide (method = "initialize") then mret (initialize params)
  else if bool_decide (method = "ping") then mret (inr (VDict []))
  else if bool_decide (method = "tools/list") then
    ts ← tools registry c; mret (inr (VDict [("tools", VList (map to_dict (dict_values ts)))]))
  else if bool_decide (method = "tools/call") then call_tool params c
  else mret (inl (METHOD_NOT_FOUND, "Method not found: " +:+ method)).

(** The part of [mcp_post] after the checks of origin and token. *)
Definition handle_message (body : option pyval) (c : McpCallContext) : py World exn mcp_answer :=
  match body with
  | None => mret (_rpc_error VNone PARSE_ERROR "Parse error")
  | Some (VDict message) =>
      if negb (dict_mem "method" message) && (dict_mem "result" message || dict_mem "error" message) then mret Empty202
      else
        let has_id := dict_mem "id" message in
        let id_ := default VNone (dict_get "id" message) in
        match dict_get "method" message with
        | Some (VStr method) =>
            if negb match dict_get "jsonrpc" message with Some (VStr v) => bool_decide (v = "2.0") | _ => false end ||
               has_id && negb (_valid_id id_)
            then mret (_rpc_error (if _valid_id id_ then id_ else VNone) INVALID_REQUEST "Invalid Request")
            else if negb has_id then mret Empty202
            else
              match default VNone (dict_get "params" message) with
              | (VNone | VDict _) as p =>
                  r ← dispatch method match p with VDict d => d | _ => [] end c;
                  mret match r with inl (code, m) => _rpc_error id_ code m | inr v => rpc_result id_ v end
              | _ => mret (_rpc_error id_ INVALID_PARAMS "Invalid params: 'params' must be an object")
              end
        | _ => mret (_rpc_error (if _valid_id id_ then id_ else VNone) INVALID_REQUEST "Invalid Request")
        end
  | Some _ => mret (_rpc_error VNone INVALID_REQUEST "Invalid Request")
  end.

Definition mcp_post (r : McpRequest) : py World exn mcp_answer :=
  if bool_decide (is_Some (rq_origin r)) &&
     negb (origin_allowed (rq_origin r) allowed_origins (Some (rq_scope r)) trust_proxy)
  then mret forbidden_origin
  else
    match rq_auth r, token mcp_options with
    | None, Some t =>
        if truthy t && negb (bool_decide (supplied_token (rq_authorization r) = t))
        then mret (Json 401 (VDict [("error", VStr "unauthorized")]))
        else handle_message (rq_body r) {| auth := rq_auth r |}
    | _, _ => handle_message (rq_body r) {| auth := rq_auth r |}
    end.

(** ** What reaches a tool *)

Lemma tools_shown c s ts s1 n t :
  tools registry c s = (inr ts, s1) → dict_get n ts = Some t →
  t_name t = n ∧ shown (default default_mcp_options (options registry)) c t = true.
Proof.
  unfold tools. rewrite tools_loop_gather, py_bind_eq. destruct (gather c _ s) as [[e|l] s2]; [done|].
  intros [= <- <-]. rewrite add_tools_get. cbn [dict_get]. by intros (_ & ? & ?)%first_shown_some.
Qed.

(** A tool of the caller, called with arguments it accepts. *)
Definition tool_ran (c : McpCallContext) s s' : Prop :=
  ∃ ts s1 t arguments result,
    tools registry c s = (inr ts, s1) ∧ dict_get (t_name t) ts = Some t ∧
    validate_arguments arguments (input_schema t) = None ∧
    (∀ p, p ∈ t_required_permissions t → context_can c p = true) ∧
    t_call t arguments c s1 = (result, s').

Lemma call_named_ran name arguments c s r s' :
  call_named name arguments c s = (inr r, s') →
  (∃ ts, tools registry c s = (inr ts, s')) ∧ (∃ code m, r = inl (code, m)) ∨ tool_ran c s s'.
Proof.
  unfold call_named. rewrite py_bind_eq. destruct (tools registry c s) as [[e|ts] s1] eqn:Hts; [done|].
  destruct (dict_get name ts) as [t|] eqn:Ht; [|intros [= <- <-]; eauto 10].
  destruct (validate_arguments arguments (input_schema t)) eqn:Hv; [intros [= <- <-]; eauto 10|].
  destruct (tools_shown _ _ _ _ _ _ Hts Ht) as [<- Hshown].
  rewrite py_bind_eq. unfold run_tool, try_except. rewrite py_bind_eq. intros Hrun. right.
  destruct (t_call t arguments c s1) as [result s2] eqn:Hcall. exists ts, s1, t, arguments, result.
  split_and!; [done..|intros p; by apply shown_permitted with (1 := Hshown)|].
  destruct result as [[m|]|result]; cbn in Hrun; unfold mret, py_ret in Hrun; by simplify_eq.
Qed.

(** The answer to a message with a valid id carries that id and either a result
    or an error. *)
Definition rpc_answers (id_ : pyval) (a : mcp_answer) : Prop :=
  (∃ v, a = rpc_result id_ v) ∨ ∃ code m, a = _rpc_error id_ code m.
End Endpoint.

(** * The MCP endpoint: theorems *)

Section Endpoint.
Context `{U : UrlLib} {World : Type}.
Context (registry : McpToolRegistry World) (mcp_options : CliMcpOptions) (server_version : string).
Context (allowed_origins : list string) (trust_proxy : bool).
Implicit Types (s : World).

(** The checks before a message is looked at. *)
Definition access_ok (r : McpRequest) : Prop :=
  (rq_origin r = None ∨ origin_allowed (rq_origin r) allowed_origins (Some (rq_scope r)) trust_proxy = true) ∧
  (rq_auth r = None → ∀ t, token mcp_options = Some t → t ≠ "" → supplied_token (rq_authorization r) = t).

(** What a request may do to the server: nothing, ask the providers for their
    tools, or run one tool. *)
Definition effect c s s' : Prop :=
  s' = s ∨ (∃ ts, tools registry c s = (inr ts, s')) ∨ tool_ran registry c s s'.

Lemma run_tool_caught (t : McpTool World) arguments c s m : (run_tool t arguments c s).1 ≠ inl (Exn m).
Proof.
  unfold run_tool, try_except. rewrite py_bind_eq. by destruct (t_call t arguments c s) as [[[?|]|?] ?].
Qed.

Lemma call_named_caught name arguments c s m : (call_named registry name arguments c s).1 ≠ inl (Exn m).
Proof.
  unfold call_named. rewrite py_bind_eq. destruct (tools registry c s) as [[e|ts] s1] eqn:Ht.
  - intros He. simpl in He. simplify_eq. unfold tools in Ht.
    pose proof (tools_loop_no_raise (default default_mcp_options (options registry)) c (providers registry) [] s m) as Hn.
    by rewrite Ht in Hn.
  - destruct (dict_get name ts) as [t|]; [|done]. destruct (validate_arguments _ _); [done|]. rewrite py_bind_eq.
    pose proof (run_tool_caught t arguments c s1 m) as Hn.
    destruct (run_tool t arguments c s1) as [[e|b] s2]; [|discriminate]. intros [= ->]. by apply Hn.
Qed.

Lemma dispatch_spec method params c s :
  (∀ m, (dispatch registry mcp_options server_version method params c s).1 ≠ inl (Exn m)) ∧
  ∀ r s', dispatch registry mcp_options server_version method params c s = (inr r, s') → effect c s s'.
Proof.
  unfold dispatch. case_bool_decide; [split; [done|]; intros ? ? [= _ <-]; by left|].
  case_bool_decide; [split; [done|]; intros ? ? [= _ <-]; by left|]. case_bool_decide.
  { rewrite py_bind_eq. pose proof (tools_loop_no_raise (default default_mcp_options (options registry)) c (providers registry) [] s) as Hn.
    fold (tools registry c) in Hn. destruct (tools registry c s) as [[e|ts] s1] eqn:Ht.
    { split; [|done]. intros m [= ->]. by apply (Hn m). }
    split; [done|].
    intros ? ? [= _ <-]. right; left. eauto. }
  case_bool_decide; [|split; [done|]; intros ? ? [= _ <-]; by left].
  assert (Hcall : ∀ name arguments, (∀ m, (call_named registry name arguments c s).1 ≠ inl (Exn m)) ∧
    ∀ r s', call_named registry name arguments c s = (inr r, s') → effect c s s').
  { intros name arguments. split; [intros; apply call_named_caught|]. intros r s' Hr.
    apply call_named_ran in Hr as [[(ts & Hts) _]|Hran]; right; eauto. }
  assert (Hsame : ∀ (x : rpc), (∀ m, (mret (M := py World exn) x s).1 ≠ inl (Exn m)) ∧
    ∀ r s', mret (M := py World exn) x s = (inr r, s') → effect c s s').
  { intros x. split; [done|]. intros ? ? [= _ <-]. by left. }
  unfold call_tool. destruct (dict_get "name" params) as [[| | | |name| | |]|]; try apply Hsame.
  destruct (is_empty name); [apply Hsame|]. destruct (default VNone (dict_get "arguments" params)); try apply Hsame; apply Hcall.
Qed.

Lemma handle_message_spec body c s :
  let h := handle_message registry mcp_options server_version body c in
  (∀ m, (h s).1 ≠ inl (Exn m)) ∧ ∀ a s', h s = (inr a, s') → effect c s s'.
Proof.
  assert (Hsame : ∀ (x : mcp_answer), (∀ m, (mret (M := py World exn) x s).1 ≠ inl (Exn m)) ∧
    ∀ r s', mret (M := py World exn) x s = (inr r, s') → effect c s s').
  { intros x. split; [done|]. intros ? ? [= _ <-]. by left. }
  unfold handle_message. destruct body as [[| | | | | | |message]|]; try apply Hsame. cbv zeta.
  destruct (_ && _); [apply Hsame|]. destruct (dict_get "method" message) as [[| | | |method| | |]|]; try apply Hsame.
  destruct (_ || _); [apply Hsame|]. destruct (negb _); [apply Hsame|].
  assert (Hd : ∀ d, let k := (r ← dispatch registry mcp_options server_version method d c;
      mret match r with inl (code, m) => _rpc_error (default VNone (dict_get "id" message)) code m
           | inr v => rpc_result (default VNone (dict_get "id" message)) v end) in
    (∀ m, (k s).1 ≠ inl (Exn m)) ∧ ∀ a s', k s = (inr a, s') → effect c s s').
  { intros d. cbv zeta. rewrite py_bind_eq. destruct (dispatch_spec method d c s) as [He Hr].
    destruct (dispatch _ _ _ method d c s) as [[e|r] s1].
    { split; [|done]. intros m [= ->]. by apply (He m). }
    split; [done|]. intros a s' [= _ <-]. by eapply Hr. }
  destruct (default VNone (dict_get "params" message)); try apply Hsame; apply Hd.
Qed.


(** A well-formed request with a valid id is answered with that id and either a
    result or an error; one without an id is a notification: it gets no answer
    and does nothing. *)
Theorem mcp_rpc_answer message method c s :
  dict_get "jsonrpc" message = Some (VStr "2.0") → dict_get "method" message = Some (VStr method) →
  let h := handle_message registry mcp_options server_version (Some (VDict message)) c in
  match dict_get "id" message with
  | None => h s = (inr Empty202, s)
  | Some i => _valid_id i = true → ∀ a s', h s = (inr a, s') → rpc_answers i a
  end.
Proof.
  intros Hv Hm. cbv zeta. unfold handle_message. rewrite Hv, Hm.
  assert (dict_mem "method" message = true) as -> by (apply dict_mem_get; eauto). cbn [negb andb].
  rewrite bool_decide_eq_true_2 by done. cbn [negb orb]. destruct (dict_get "id" message) as [i|] eqn:Hi.
  - assert (dict_mem "id" message = true) as -> by (apply dict_mem_get; eauto). intros Hvalid a s'. cbn [default from_option].
    change (id i) with i. rewrite Hvalid. cbn [negb andb].
    assert (Hd : ∀ d, (r ← dispatch registry mcp_options server_version method d c;
      mret match r with inl (code, m) => _rpc_error i code m | inr v => rpc_result i v end) s = (inr a, s') → rpc_answers i a).
    { intros d. rewrite py_bind_eq. destruct (dispatch _ _ _ method d c s) as [[e|[[code m]|v]] s1]; [done|..];
        intros [= <- _]; [right|left]; eauto. }
    destruct (default VNone (dict_get "params" message)); try apply Hd;
      intros [= <- _]; right; eauto.
  - destruct (dict_mem "id" message) eqn:Hid; [apply dict_mem_get in Hid as [? ?]; congruence|]. done.
Qed.
End Endpoint.

(** * A server with two commands behind the MCP endpoint *)

(** A [urlsplit] for origins of the form [scheme://host], without ports. *)
#[export] Instance toy_urls : UrlLib := {
  urlsplit u :=
    match split "/"%char u with
    | scheme :: "" :: host :: _ =>
        Some {| u_scheme := take_str (len scheme - 1) scheme; u_netloc := host; u_path := ""; u_query := "";
                u_fragment := ""; u_hostname := Some host; u_port := Some None |}
    | _ => None
    end
}.

Definition local_scope : Scope :=
  {| scope_scheme := Some "http"; host_header := Some "cli.example.com"; forwarded_proto := None; forwarded_host := None |}.

Lemma origin_allowed_spec_witness :
  origin_allowed (Some "http://127.0.0.1:4200/") ["HTTP://127.0.0.1:*"] (Some local_scope) false = true.
Proof.
  apply (origin_allowed_spec (Some "http://127.0.0.1:4200/") ["HTTP://127.0.0.1:*"] local_scope false).
  - intros p Hp. right. exists "http://127.0.0.1:". apply elem_of_cons in Hp as [->|Hp]; [|destruct (proj1 (elem_of_nil p) Hp)].
    split; [reflexivity|]. repeat constructor.
  - exists "http://127.0.0.1:4200/". split; [reflexivity|]. split; [discriminate|]. right. exists "HTTP://127.0.0.1:*".
    split; [apply elem_of_cons; left; reflexivity|]. right. exists "http://127.0.0.1:", "4200".
    split; [reflexivity|]. split; [repeat constructor|reflexivity].
Defined.

(** ** Commands: [users] with [list], both guarded *)

Definition node_of (name : string) (perms : list string) (subs : list (ICliCommandProcessor unit CliServerResponse))
    : ICliCommandProcessor unit CliServerResponse :=
  Processor {| p_command := name; p_description := ""; p_version := "1.0.0"; p_allow_unlisted_commands := None;
    p_value_required := Some true; p_parameters := None; p_required_permissions := Some perms;
    p_handle_async := λ _, mret "ok"; p_handle_structured_async := λ _, mret None |} (Some subs).
Definition leaf : ICliCommandProcessor unit CliServerResponse := node_of "list" ["users:read"] [].
Definition top : ICliCommandProcessor unit CliServerResponse := node_of "Users" ["users:any"] [leaf].
Definition commands : CliCommandRegistry unit CliServerResponse := register top [].

Definition echo : McpCallContext → CliProcessCommand → py unit exn CliServerResponse := λ _ c,
  mret {| exit_code := 0; outputs := [TextOutput (raw_command c) None] |}.
Definition no_time : Z → string := λ _, "".
Definition list_tool : McpTool unit :=
  _tool no_time echo leaf ["Users"; "list"] [COMMANDS_EXECUTE; "users:any"; "users:read"] "users_list".

Lemma leaf_ok : tree_ok leaf.
Proof. constructor; [apply NoDup_nil_2|]. intros q Hq. destruct (proj1 (elem_of_nil q) Hq). Qed.

Lemma command_tool_runs_witness :
  ∃ p path perms, list_tool = _tool no_time echo p path perms (command_tool_name path) ∧
    (∀ arguments,
       let c := tool_command no_time p path arguments in
       find_processor commands (command c) (chain_commands c) = Some p) ∧
    COMMANDS_EXECUTE ∈ t_required_permissions list_tool ∧
    (∀ can, (∀ q, q ∈ t_required_permissions list_tool → can q = true) →
       ∀ arguments,
       let c := tool_command no_time p path arguments in
       _permission_denied commands (Some can) (command c) (chain_commands c) = None).
Proof.
  apply (command_tool_runs no_time echo commands list_tool).
  - split; [apply (bool_decide_unpack _); vm_compute; exact I|]. intros k p Hk.
    apply dict_get_elem_of, elem_of_cons in Hk as [[= -> ->]|Hk]; [|destruct (proj1 (elem_of_nil _) Hk)]. split; [reflexivity|].
    constructor; [apply NoDup_singleton|]. intros q Hq. apply elem_of_cons in Hq as [->|Hq]; [apply leaf_ok|].
    destruct (proj1 (elem_of_nil q) Hq).
  - apply elem_of_cons. right. apply elem_of_cons. left. reflexivity.
Defined.

(** ** Requests *)

Definition mcp_registry : McpToolRegistry unit :=
  add_provider (CommandsMcpToolProvider no_time echo commands) false (new_tool_registry (Some default_mcp_options)).
Definition call_list : dict string pyval :=
  [("jsonrpc", VStr "2.0"); ("id", VInt 7); ("method", VStr "tools/call");
   ("params", VDict [("name", VStr "users_list"); ("arguments", VDict [("value", VStr "a b")])])].
Definition root_context : McpCallContext := {| auth := Some (λ _, true) |}.

Example call_list_answer :
  (handle_message mcp_registry default_mcp_options "1.0" (Some (VDict call_list)) root_context tt).1 =
  inr (rpc_result (VInt 7) (tool_body {| r_text := raw_command (tool_command no_time leaf ["Users"; "list"] [("value", VStr "a b")]);
                                          structured := None; is_error := false |})).
Proof. vm_compute. reflexivity. Qed.

(** A caller without the permissions sees no tool. *)
Example hidden_tool :
  (handle_message mcp_registry default_mcp_options "1.0" (Some (VDict call_list)) {| auth := Some (λ _, false) |} tt).1 =
  inr (_rpc_error (VInt 7) INVALID_PARAMS "Unknown tool: users_list").
Proof. vm_compute. reflexivity. Qed.

Lemma mcp_rpc_answer_witness :
  match dict_get "id" call_list with
  | None => handle_message mcp_registry default_mcp_options "1.0" (Some (VDict call_list)) root_context tt = (inr Empty202, tt)
  | Some i => _valid_id i = true → ∀ a s',
      handle_message mcp_registry default_mcp_options "1.0" (Some (VDict call_list)) root_context tt = (inr a, s') → rpc_answers i a
  end.
Proof. apply (mcp_rpc_answer mcp_registry default_mcp_options "1.0" call_list "tools/call"); reflexivity. Defined.
