(* ===== verification/AuditStore.v ===== *)
(** * The audit log in memory ([audit/in_memory_audit_store.py])

    The store, and what a store promises: [spec_log], [spec_prune] and [page_of]
    on the plain list of the entries that are kept; and the theorems. *)

From S2P Require Import Prelude PyStr Values AuditModel.


(** ** The store in memory *)

Definition MAX_ENTRIES : Z := 1000.
Definition MAX_FAILED_LOGIN_ENTRIES : Z := 200.
Definition FAILED_LOGIN_EVENT : string := "login_failed".

Definition failed_login (e : AuditEntry) : bool := bool_decide (a_event e = FAILED_LOGIN_EVENT).

Record InMemoryAuditStore := {
  max_entries : nat;
  max_failed : nat;
  _seq : Z;
  _entries : list (Z * AuditEntry);
  _failed : list (Z * AuditEntry);
}.

Definition limit_of (n default_limit : Z) : nat := Z.to_nat (if 0 <? n then n else default_limit).

Definition new_audit_store (max_entries max_failed : Z) : InMemoryAuditStore :=
  {| max_entries := limit_of max_entries MAX_ENTRIES; max_failed := limit_of max_failed MAX_FAILED_LOGIN_ENTRIES;
     _seq := 0; _entries := []; _failed := [] |}.

(** [append] and [extend] of a [deque] with [maxlen] [m] *)
Definition keep_last {A} (m : nat) (l : list A) : list A := drop (length l - m) l.
Definition deque_append {A} (m : nat) (l : list A) (x : A) : list A := keep_last m (l ++ [x]).

Lemma deque_append_last {A} m (l : list A) x : deque_append m (keep_last m l) x = keep_last m (l ++ [x]).
Proof.
  unfold deque_append, keep_last. rewrite !length_app, length_drop. cbn [length].
  destruct (decide (length l ≤ m)%nat) as [Hle|Hgt].
  - replace (length l - m)%nat with 0%nat by lia. rewrite drop_0. f_equal. lia.
  - destruct m as [|m].
    + rewrite !drop_ge; [done|rewrite length_app; cbn [length]; lia|rewrite length_app, length_drop; cbn [length]; lia].
    + rewrite (drop_app_le l) by lia. rewrite drop_app_le by (rewrite length_drop; lia). rewrite drop_drop. do 2 f_equal. lia.
Qed.

Lemma keep_last_length {A} m (l : list A) : (length (keep_last m l) ≤ m)%nat.
Proof. unfold keep_last. rewrite length_drop. lia. Qed.

Lemma map_keep_last {A B} (f : A → B) m l : map f (keep_last m l) = keep_last m (map f l).
Proof. unfold keep_last. rewrite length_map. symmetry. apply skipn_map. Qed.

Definition set_deques (entries failed : list (Z * AuditEntry)) (s : InMemoryAuditStore) : InMemoryAuditStore :=
  {| max_entries := max_entries s; max_failed := max_failed s; _seq := _seq s; _entries := entries; _failed := failed |}.

Definition log (e : AuditEntry) (s : InMemoryAuditStore) : InMemoryAuditStore :=
  let item := (_seq s, e) in
  let s := {| max_entries := max_entries s; max_failed := max_failed s; _seq := _seq s + 1;
              _entries := _entries s; _failed := _failed s |} in
  if failed_login e then set_deques (_entries s) (deque_append (max_failed s) (_failed s) item) s
  else set_deques (deque_append (max_entries s) (_entries s) item) (_failed s) s.

(** The newest first: [sorted(..., key=seq, reverse=True)]. *)
Definition newer (x y : Z * AuditEntry) : bool := y.1 <=? x.1.
Definition merged (s : InMemoryAuditStore) : list AuditEntry := map snd (py_sort newer (_entries s ++ _failed s)).

Definition get_entries (q : option AuditQueryOptions) (s : InMemoryAuditStore) : list AuditEntry := page_of q (merged s).

Definition since (before : Z) (l : list (Z * AuditEntry)) : list (Z * AuditEntry) :=
  List.filter (λ item, before <=? a_timestamp item.2) l.
Definition prune (before : Z) (s : InMemoryAuditStore) : Z * InMemoryAuditStore :=
  let entries := since before (_entries s) in
  let failed := since before (_failed s) in
  (Z.of_nat (length (_entries s) - length entries) + Z.of_nat (length (_failed s) - length failed),
   set_deques (keep_last (max_entries s) entries) (keep_last (max_failed s) failed) s).

Definition clear (s : InMemoryAuditStore) : InMemoryAuditStore := set_deques [] [] s.

#[export] Instance in_memory_audit_store {E} : IAuditStore InMemoryAuditStore E := {
  store_log e := modify (log e);
  store_get_entries q := gets (get_entries q);
  store_clear := modify clear;
  store_prune before := λ s, let '(n, s) := prune before s in (inr n, s);
}.

(** ** What a store promises

    Its contents are a list of entries in the order they were recorded.  The two
    kinds of entries have a limit of their own; recording one drops the oldest
    of its kind when that kind is full. *)

(** Drop the first element that the test holds of. *)
Fixpoint drop_first {A} (p : A → bool) (l : list A) : list A :=
  match l with [] => [] | x :: l => if p x then l else x :: drop_first p l end.

Section Spec.
Context (limit : bool → nat).

(** The entry is of the kind; the entries of a kind *)
Definition is_kind (k : bool) (e : AuditEntry) : bool := bool_decide (failed_login e = k).
Definition of_kind (k : bool) (h : list AuditEntry) : list AuditEntry := List.filter (is_kind k) h.


Definition spec_log (e : AuditEntry) (h : list AuditEntry) : list AuditEntry :=
  let k := failed_login e in
  (if (length (of_kind k h) <? limit k)%nat then h else drop_first (is_kind k) h) ++ [e].
Definition spec_prune (before : Z) (h : list AuditEntry) : list AuditEntry :=
  List.filter (λ e, before <=? a_timestamp e) h.
End Spec.

(** ** A run of a store *)

Inductive audit_op := Log (e : AuditEntry) | Prune (before : Z) | Clear.

Definition apply_op (s : InMemoryAuditStore) (o : audit_op) : InMemoryAuditStore :=
  match o with Log e => log e s | Prune t => (prune t s).2 | Clear => clear s end.
Definition spec_op (limit : bool → nat) (h : list AuditEntry) (o : audit_op) : list AuditEntry :=
  match o with Log e => spec_log limit e h | Prune t => spec_prune t h | Clear => [] end.

(** * The store in memory keeps what a store promises *)

(** ** Lists *)

Section Lists.
Context {A : Type}.
Implicit Types (p : A → bool) (l : list A).

Lemma filter_drop_first p l : List.filter p (drop_first p l) = tail (List.filter p l).
Proof. induction l as [|x l IH]; simpl; [done|]. destruct (p x) eqn:Hx; simpl; [done|]. by rewrite Hx. Qed.

Lemma filter_drop_first_other p q l :
  (∀ x, p x = true → q x = false) → List.filter q (drop_first p l) = List.filter q l.
Proof.
  intros Hpq. induction l as [|x l IH]; simpl; [done|]. destruct (p x) eqn:Hx; simpl; [by rewrite (Hpq x Hx)|].
  destruct (q x); by rewrite IH.
Qed.

Lemma drop_first_map {B} (f : B → A) p (k : list B) :
  drop_first p (map f k) = map f (drop_first (λ x, p (f x)) k).
Proof. induction k as [|x k IH]; simpl; [done|]. destruct (p (f x)); simpl; by rewrite ?IH. Qed.

Lemma filter_map_comm {B} (f : B → A) p (k : list B) :
  List.filter p (map f k) = map f (List.filter (λ x, p (f x)) k).
Proof. induction k as [|x k IH]; simpl; [done|]. destruct (p (f x)); simpl; by rewrite ?IH. Qed.

Lemma drop_first_subset p l x : x ∈ drop_first p l → x ∈ l.
Proof. induction l as [|y l IH]; simpl; [done|]. destruct (p y); set_solver. Qed.

Lemma filter_sorted (R : A → A → Prop) p l : StronglySorted R l → StronglySorted R (List.filter p l).
Proof.
  induction 1 as [|x l Hl IH Hx]; simpl; [constructor|]. destruct (p x); [|done]. constructor; [done|].
  rewrite Forall_forall in *. intros y [Hy%list_elem_of_In _]%list_elem_of_In%filter_In. by apply Hx.
Qed.

Lemma drop_first_sorted (R : A → A → Prop) p l : StronglySorted R l → StronglySorted R (drop_first p l).
Proof.
  induction 1 as [|x l Hl IH Hx]; simpl; [constructor|]. destruct (p x); [done|]. constructor; [done|].
  rewrite Forall_forall in *. intros y Hy%drop_first_subset. by apply Hx.
Qed.

Lemma sorted_snoc (R : A → A → Prop) l x : StronglySorted R l → Forall (λ y, R y x) l → StronglySorted R (l ++ [x]).
Proof.
  induction 1 as [|y l Hl IH Hy]; simpl; intros Hx; [repeat constructor|]. apply Forall_cons in Hx as [? ?].
  constructor; [by apply IH|]. apply Forall_app. by repeat constructor.
Qed.

Lemma filter_split p l : List.filter (λ x, negb (p x)) l ++ List.filter p l ≡ₚ l.
Proof.
  induction l as [|x l IH]; simpl; [done|]. destruct (p x); simpl; [|by rewrite IH].
  by rewrite <- Permutation_middle, IH.
Qed.

(** Appending to a full queue drops its first element. *)
Lemma deque_append_spec m l x :
  (0 < m)%nat → (length l ≤ m)%nat → deque_append m l x = (if (length l <? m)%nat then l else tail l) ++ [x].
Proof.
  intros Hm Hl. unfold deque_append, keep_last. rewrite length_app. simpl. destruct (Nat.ltb_spec (length l) m).
  - by replace (length l + 1 - m)%nat with 0%nat by lia.
  - replace (length l + 1 - m)%nat with 1%nat by lia. by destruct l; simpl in *; [lia|].
Qed.

Lemma keep_last_all m l : (length l ≤ m)%nat → keep_last m l = l.
Proof. intros Hl. unfold keep_last. by replace (length l - m)%nat with 0%nat by lia. Qed.
End Lists.

(** ** The simulation *)

(** The items of a kind *)
Definition items (k : bool) (l : list (Z * AuditEntry)) : list (Z * AuditEntry) :=
  List.filter (λ x, is_kind k x.2) l.

(** [l] is what is kept, with its numbers, in the order it was recorded. *)
Record stores (limit : bool → nat) (s : InMemoryAuditStore) (l : list (Z * AuditEntry)) : Prop := {
  limits : max_entries s = limit false ∧ max_failed s = limit true ∧ ∀ k, (0 < limit k)%nat;
  in_order : StronglySorted (λ x y : Z * AuditEntry, x.1 < y.1) l;
  numbered : Forall (λ x : Z * AuditEntry, x.1 < _seq s) l;
  entries_of : _entries s = items false l;
  failed_of : _failed s = items true l;
  within : ∀ k, (length (items k l) ≤ limit k)%nat;
}.

Lemma of_kind_items k l : of_kind k (map snd l) = map snd (items k l).
Proof. apply filter_map_comm. Qed.

Lemma is_kind_false e : is_kind false e = negb (is_kind true e).
Proof. unfold is_kind. by destruct (failed_login e). Qed.

Lemma sorted_fst_inj l (x y : Z * AuditEntry) :
  StronglySorted (λ x y : Z * AuditEntry, x.1 < y.1) l → x ∈ l → y ∈ l → x.1 = y.1 → x = y.
Proof.
  induction 1 as [|z l Hl IH Hz]; [by intros ?%elem_of_nil|]. rewrite Forall_forall in Hz.
  intros [->|Hx]%elem_of_cons [->|Hy]%elem_of_cons Heq; [done| | |by apply IH].
  - specialize (Hz y Hy). lia.
  - specialize (Hz x Hx). lia.
Qed.

Lemma rev_sorted (l : list (Z * AuditEntry)) :
  StronglySorted (λ x y : Z * AuditEntry, x.1 < y.1) l → StronglySorted (λ x y, newer x y = true) (rev l).
Proof.
  induction 1 as [|x l Hl IH Hx]; simpl; [constructor|]. apply sorted_snoc; [done|].
  rewrite Forall_forall in *. intros y Hy%list_elem_of_In%in_rev%list_elem_of_In. apply Z.leb_le. specialize (Hx y Hy). lia.
Qed.

Lemma newer_total x y : newer x y = true ∨ newer y x = true.
Proof. unfold newer. rewrite !Z.leb_le. lia. Qed.
Lemma newer_trans x y z : newer x y = true → newer y z = true → newer x z = true.
Proof. unfold newer. rewrite !Z.leb_le. lia. Qed.

Lemma items_split l : items false l ++ items true l ≡ₚ l.
Proof.
  unfold items. rewrite (filter_ext _ (λ x, negb (is_kind true x.2))) by (intros; apply is_kind_false). apply filter_split.
Qed.

(** Reading merges the two queues into the order of recording, newest first. *)
Lemma merged_rev limit s l : stores limit s l → merged s = rev (map snd l).
Proof.
  intros Hs. unfold merged. rewrite <- map_rev. f_equal.
  assert (Hp : py_sort newer (_entries s ++ _failed s) ≡ₚ rev l).
  { rewrite py_sort_perm, (entries_of _ _ _ Hs), (failed_of _ _ _ Hs), items_split. by rewrite <- Permutation_rev. }
  apply (StronglySorted_unique_strong (λ x y, newer x y = true)); [| |apply rev_sorted, Hs|done].
  - intros x y Hx Hy. unfold newer. rewrite !Z.leb_le. intros H1 H2.
    apply (sorted_fst_inj l); [apply Hs| | |lia]; apply list_elem_of_In, in_rev, list_elem_of_In; [by rewrite <- Hp|done].
  - apply py_sort_sorted; [apply newer_total|apply newer_trans].
Qed.

(** ** The operations *)

Lemma filter_opposite {A} (p : A → bool) l x : List.filter p (l ++ [x]) = List.filter p l ++ (if p x then [x] else []).
Proof. rewrite List.filter_app. simpl. by destruct (p x). Qed.

Lemma numbered_snoc s l e :
  Forall (λ x : Z * AuditEntry, x.1 < _seq s) l → Forall (λ x : Z * AuditEntry, x.1 < _seq s + 1) (l ++ [(_seq s, e)]).
Proof. intros Hl. apply Forall_app. split; [eapply Forall_impl; [exact Hl|]; simpl; lia|]. repeat constructor. simpl. lia. Qed.

Lemma drop_first_forall {A} (P : A → Prop) p l : Forall P l → Forall P (drop_first p l).
Proof. rewrite !Forall_forall. intros Hl x Hx%drop_first_subset. auto. Qed.

Lemma in_order_snoc s l e :
  StronglySorted (λ x y : Z * AuditEntry, x.1 < y.1) l → Forall (λ x : Z * AuditEntry, x.1 < _seq s) l →
  StronglySorted (λ x y : Z * AuditEntry, x.1 < y.1) (l ++ [(_seq s, e)]).
Proof. intros. by apply sorted_snoc. Qed.

(** What is kept after an entry is recorded. *)
Definition log_items (limit : bool → nat) (s : InMemoryAuditStore) (e : AuditEntry) (l : list (Z * AuditEntry)) :=
  let k := failed_login e in
  (if (length (items k l) <? limit k)%nat then l else drop_first (λ x, is_kind k x.2) l) ++ [(_seq s, e)].

Lemma log_items_spec limit s e l : map snd (log_items limit s e l) = spec_log limit e (map snd l).
Proof.
  unfold log_items, spec_log. rewrite map_app, of_kind_items, length_map. f_equal. case_match; [done|].
  by rewrite drop_first_map.
Qed.

Lemma is_kind_own e : is_kind (failed_login e) e = true.
Proof. by apply bool_decide_eq_true_2. Qed.
Lemma is_kind_other k e : failed_login e ≠ k → is_kind k e = false.
Proof. apply bool_decide_eq_false_2. Qed.

Lemma items_logged limit s e l :
  (0 < limit (failed_login e))%nat → (length (items (failed_login e) l) ≤ limit (failed_login e))%nat →
  items (failed_login e) (log_items limit s e l) = deque_append (limit (failed_login e)) (items (failed_login e) l) (_seq s, e).
Proof.
  intros Hpos Hl. rewrite deque_append_spec by done. unfold log_items, items at 1. rewrite filter_opposite. simpl.
  rewrite is_kind_own. f_equal. case_match; [done|]. apply filter_drop_first.
Qed.

Lemma items_other limit s e l k : failed_login e ≠ k → items k (log_items limit s e l) = items k l.
Proof.
  intros Hk. unfold log_items, items. rewrite filter_opposite. simpl. rewrite is_kind_other, app_nil_r by done.
  case_match; [done|]. apply filter_drop_first_other. intros x Hx%bool_decide_eq_true. apply is_kind_other. congruence.
Qed.

Lemma deque_append_length {A} m (l : list A) x : (0 < m)%nat → (length l ≤ m)%nat → (length (deque_append m l x) ≤ m)%nat.
Proof.
  intros. rewrite deque_append_spec, length_app by done. simpl. case_match eqn:Hm.
  - apply Nat.ltb_lt in Hm. lia.
  - destruct l; simpl in *; lia.
Qed.

Lemma log_stores limit s e l : stores limit s l → stores limit (log e s) (log_items limit s e l).
Proof.
  intros [(Hm & Hf & Hpos) Hord Hnum He Hfl Hw].
  assert (Hlog : _seq (log e s) = _seq s + 1 ∧ max_entries (log e s) = limit false ∧ max_failed (log e s) = limit true).
  { unfold log. by destruct (failed_login e). }
  destruct Hlog as (Hseq & Hm' & Hf'). split.
  - done.
  - unfold log_items. apply in_order_snoc; case_match; auto using drop_first_sorted, drop_first_forall.
  - rewrite Hseq. unfold log_items. apply numbered_snoc. case_match; auto using drop_first_forall.
  - unfold log. destruct (failed_login e) eqn:Hk; simpl; [by rewrite items_other by congruence|].
    rewrite <- Hk, items_logged by (by rewrite ?Hk). by rewrite Hk, Hm, He.
  - unfold log. destruct (failed_login e) eqn:Hk; simpl; [|by rewrite items_other by congruence].
    rewrite <- Hk, items_logged by (by rewrite ?Hk). by rewrite Hk, Hf, Hfl.
  - intros k. destruct (decide (failed_login e = k)) as [<-|Hk]; [|by rewrite items_other].
    rewrite items_logged by done. by apply deque_append_length.
Qed.

Lemma filter_comm {A} (p q : A → bool) l : List.filter p (List.filter q l) = List.filter q (List.filter p l).
Proof.
  induction l as [|x l IH]; simpl; [done|]. destruct (p x) eqn:Hp, (q x) eqn:Hq; simpl; rewrite ?Hp, ?Hq; by rewrite IH.
Qed.

Lemma prune_stores limit before s l : stores limit s l → stores limit (prune before s).2 (since before l).
Proof.
  intros [(Hm & Hf & Hpos) Hord Hnum He Hfl Hw].
  assert (Hi : ∀ k, items k (since before l) = since before (items k l)) by (intros; apply filter_comm).
  assert (Hle : ∀ k, (length (since before (items k l)) ≤ limit k)%nat).
  { intros k. etrans; [apply List.filter_length_le|done]. }
  split; simpl.
  - done.
  - by apply filter_sorted.
  - rewrite Forall_forall in *. intros x [Hx%list_elem_of_In _]%list_elem_of_In%filter_In. auto.
  - rewrite He, Hm, Hi. by apply keep_last_all.
  - rewrite Hfl, Hf, Hi. by apply keep_last_all.
  - intros k. by rewrite Hi.
Qed.

Lemma clear_stores limit s l : stores limit s l → stores limit (clear s) [].
Proof. intros [Hl _ _ _ _ _]. split; simpl; [done|constructor|constructor|done|done|]. simpl. lia. Qed.

(** Every operation is simulated by its specification. *)
Lemma op_stores limit s l o :
  stores limit s l → ∃ l', stores limit (apply_op s o) l' ∧ map snd l' = spec_op limit (map snd l) o.
Proof.
  intros Hs. destruct o as [e|before|]; simpl.
  - exists (log_items limit s e l). split; [by apply log_stores|apply log_items_spec].
  - exists (since before l). split; [by apply prune_stores|]. symmetry. apply (filter_map_comm snd (λ e, before <=? a_timestamp e)).
  - exists []. split; [by eapply clear_stores|done].
Qed.

Lemma ops_stores limit s l ops :
  stores limit s l →
  ∃ l', stores limit (foldl apply_op s ops) l' ∧ map snd l' = foldl (spec_op limit) (map snd l) ops.
Proof.
  revert s l. induction ops as [|o ops IH]; intros s l Hs; simpl; [by exists l|].
  destruct (op_stores limit s l o Hs) as (l' & Hl' & <-). by apply IH.
Qed.

(** ** Theorems *)

(** The limits of a store made with the given numbers *)
Definition audit_limit (m f : Z) (failed : bool) : nat :=
  if failed then limit_of f MAX_FAILED_LOGIN_ENTRIES else limit_of m MAX_ENTRIES.

Lemma new_stores m f : stores (audit_limit m f) (new_audit_store m f) [].
Proof.
  split; simpl; [|constructor|constructor|done|done|simpl; lia]. split; [done|]. split; [done|]. intros k.
  unfold audit_limit, limit_of, MAX_FAILED_LOGIN_ENTRIES, MAX_ENTRIES. destruct k; case_match eqn:H; lia.
Qed.

Lemma merged_spec m f ops :
  merged (foldl apply_op (new_audit_store m f) ops) = rev (foldl (spec_op (audit_limit m f)) [] ops).
Proof.
  destruct (ops_stores _ _ [] ops (new_stores m f)) as (l & Hs & Hl). simpl in Hl.
  by rewrite (merged_rev _ _ _ Hs), Hl.
Qed.

(** C28: Whatever is recorded, pruned and cleared: a query of the store in memory
    answers the page of the query from exactly the entries the specification
    keeps, the newest first.  In particular the two queues and the numbering
    never show. *)
Theorem audit_store_refines m f ops q :
  get_entries q (foldl apply_op (new_audit_store m f) ops) =
  page_of q (rev (foldl (spec_op (audit_limit m f)) [] ops)).
Proof. unfold get_entries. by rewrite merged_spec. Qed.

(** The number that [prune] answers is how many entries it removed. *)
Theorem prune_counts m f ops before :
  let s := foldl apply_op (new_audit_store m f) ops in
  (prune before s).1 =
  Z.of_nat (length (get_entries None s)) - Z.of_nat (length (get_entries None (prune before s).2)).
Proof.
  cbv zeta. destruct (ops_stores _ _ [] ops (new_stores m f)) as (l & Hs & _).
  unfold get_entries, page_of. rewrite (merged_rev _ _ _ Hs), (merged_rev _ _ _ (prune_stores _ before _ _ Hs)).
  rewrite !length_rev, !length_map. simpl. rewrite (entries_of _ _ _ Hs), (failed_of _ _ _ Hs).
  assert (Hl : ∀ l : list (Z * AuditEntry), length l = (length (items false l) + length (items true l))%nat).
  { intros k. rewrite <- length_app. by rewrite items_split. }
  rewrite (Hl l), (Hl (since before l)).
  assert (Hi : ∀ k, items k (since before l) = since before (items k l)) by (intros; apply filter_comm).
  rewrite !Hi. pose proof (List.filter_length_le (λ x : Z * AuditEntry, before <=? a_timestamp x.2)) as Hle.
  pose proof (Hle (items false l)). pose proof (Hle (items true l)). unfold since in *. lia.
Qed.

(** ** Floods *)

Lemma of_kind_logged limit k e h :
  failed_login e ≠ k → of_kind k (spec_log limit e h) = of_kind k h.
Proof.
  intros Hk. unfold spec_log, of_kind. rewrite filter_opposite, is_kind_other, app_nil_r by done.
  case_match; [done|]. apply filter_drop_first_other. intros x Hx%bool_decide_eq_true. apply is_kind_other. congruence.
Qed.

(** However many failed sign-ins are recorded, they push out nothing else: the
    other entries stay, in their order. *)
Theorem failed_logins_evict_nothing m f ops flood :
  Forall (λ e, failed_login e = true) flood →
  let kept ops := of_kind false (get_entries None (foldl apply_op (new_audit_store m f) ops)) in
  kept (ops ++ map Log flood) = kept ops.
Proof.
  intros Hf. cbv zeta beta. unfold get_entries, page_of. rewrite !merged_spec. unfold of_kind. rewrite !filter_rev. f_equal.
  rewrite foldl_app. generalize (foldl (spec_op (audit_limit m f)) [] ops). clear ops.
  induction Hf as [|e flood He Hf IH]; intros h; [done|]. change (map Log (e :: flood)) with (Log e :: map Log flood).
  cbn [foldl]. rewrite IH. apply of_kind_logged. congruence.
Qed.

(** The store in memory obeys the laws of a store. *)
Lemma drop_first_sublist {A} (p : A → bool) l : sublist (drop_first p l) l.
Proof. induction l as [|x l IH]; simpl; [done|]. destruct (p x); [by constructor|by constructor]. Qed.

#[export] Program Instance in_memory_laws {E} : AuditStoreLaws InMemoryAuditStore E := {
  store_ok s := ∃ limit l, stores limit s l;
  contents s := rev (merged s);
}.
Next Obligation.
  simpl. intros E e s (limit & l & Hs). pose proof (log_stores limit s e l Hs) as Hs'.
  eexists (log e s), _. split_and!; [done|by eauto| |].
  - rewrite (merged_rev _ _ _ Hs'), rev_involutive, log_items_spec. done.
  - rewrite (merged_rev _ _ _ Hs), rev_involutive. case_match; [done|apply drop_first_sublist].
Qed.
Next Obligation. simpl. intros E q s _. unfold gets. by rewrite rev_involutive. Qed.
Next Obligation.
  simpl. intros E s (limit & l & Hs). exists (clear s). split_and!; [done| |].
  - exists limit, []. by eapply clear_stores.
  - by rewrite (merged_rev _ _ _ (clear_stores _ _ _ Hs)).
Qed.
