(* ===== verification/AuditApi.v ===== *)
(** * The audit plugin and its routes ([audit/cli_audit_builder.py], [cli_audit_controller.py])

    First the plugins of a server and which store each of them records in: a
    plugin is a number, so is a store, and the objects that refer to each other
    (the function [_join] registers) are values with these numbers.  Then
    recording, and the two routes, on a store of the interface. *)

From S2P Require Import Prelude PyStr Values Commands Events AuditModel AuditStore.
From Stdlib Require Import Ascii.

(** ** The plugins of a server *)

(** [Follow p] is the function of [_join] that passes the store on to [p]. *)
Inductive listener := Follow (p : nat) | HostListener (n : nat).

Record CliAuditPlugin := {
  p_store : nat;
  store_set : bool;
  p_authorize : option nat;
  p_event_bus : bool;
  _listeners : list listener;
}.

(** [CliAuditBuilder.build]: [default] is the new store in memory. *)
Definition build (set_store : option nat) (default_store : nat) : CliAuditPlugin :=
  {| p_store := default default_store set_store; store_set := bool_decide (is_Some set_store); p_authorize := None;
     p_event_bus := false; _listeners := [] |}.

(** [serving] is the plugin of the server; [told] are the calls of the host's
    listeners. *)
Record AuditServer := {
  plugins : nat → CliAuditPlugin;
  serving : option nat;
  server_bus : bool;
  told : list (nat * nat);
}.

Definition set_plugin (p : nat) (f : CliAuditPlugin → CliAuditPlugin) (s : AuditServer) : AuditServer :=
  {| plugins := λ q, if decide (q = p) then f (plugins s p) else plugins s q; serving := serving s;
     server_bus := server_bus s; told := told s |}.
Definition with_store (st : nat) (x : CliAuditPlugin) : CliAuditPlugin :=
  {| p_store := st; store_set := store_set x; p_authorize := p_authorize x; p_event_bus := p_event_bus x;
     _listeners := _listeners x |}.
Definition with_store_set (b : bool) (x : CliAuditPlugin) : CliAuditPlugin :=
  {| p_store := p_store x; store_set := b; p_authorize := p_authorize x; p_event_bus := p_event_bus x;
     _listeners := _listeners x |}.
Definition with_authorize (a : option nat) (x : CliAuditPlugin) : CliAuditPlugin :=
  {| p_store := p_store x; store_set := store_set x; p_authorize := a; p_event_bus := p_event_bus x;
     _listeners := _listeners x |}.
Definition with_bus (b : bool) (x : CliAuditPlugin) : CliAuditPlugin :=
  {| p_store := p_store x; store_set := store_set x; p_authorize := p_authorize x; p_event_bus := b;
     _listeners := _listeners x |}.
Definition with_listener (l : listener) (x : CliAuditPlugin) : CliAuditPlugin :=
  {| p_store := p_store x; store_set := store_set x; p_authorize := p_authorize x; p_event_bus := p_event_bus x;
     _listeners := _listeners x ++ [l] |}.
Definition tell (n st : nat) (s : AuditServer) : AuditServer :=
  {| plugins := plugins s; serving := serving s; server_bus := server_bus s; told := told s ++ [(n, st)] |}.

(** [use_store]; listeners call it again on other plugins, up to the fuel
    ([None]: not enough). *)
Fixpoint use_store (fuel p st : nat) (explicit : bool) (s : AuditServer) : option AuditServer :=
  match fuel with
  | O => None
  | S fuel =>
      let s := set_plugin p (λ x, with_store_set (store_set x || explicit) x) s in
      if bool_decide (p_store (plugins s p) = st) then Some s
      else
        let s := set_plugin p (with_store st) s in
        foldl (λ o l, s ← o;
                 match l with
                 | Follow q => use_store fuel q st false s
                 | HostListener n => Some (tell n st s)
                 end) (Some s) (_listeners (plugins s p))
  end.

Definition on_store_changed (p : nat) (l : listener) (s : AuditServer) : AuditServer := set_plugin p (with_listener l) s.

Definition _join (fuel p other : nat) (s : AuditServer) : option AuditServer :=
  s ← (if store_set (plugins s other) then use_store fuel p (p_store (plugins s other)) true s else Some s);
  let s := match p_authorize (plugins s p), p_authorize (plugins s other) with
           | None, Some a => set_plugin p (with_authorize (Some a)) s
           | _, _ => s
           end in
  s ← use_store fuel other (p_store (plugins s p)) false s;
  Some (on_store_changed p (Follow other) s).

(** Whether the routes are added, and the server after it. *)
Definition before_mount (fuel p : nat) (s : AuditServer) : option (bool * AuditServer) :=
  let s := if p_event_bus (plugins s p) then s else set_plugin p (with_bus (server_bus s)) s in
  match serving s with
  | None => Some (true, {| plugins := plugins s; serving := Some p; server_bus := server_bus s; told := told s |})
  | Some q =>
      if bool_decide (q = p) then Some (false, s)
      else s ← _join fuel q p s; Some (false, s)
  end.

(** ** Recording *)

(** What a route or the host's code raises; [TimeOutOfRange] is what
    [datetime.fromtimestamp] raises for a time that no [datetime] has. *)
Inductive audit_exn := HTTPException (status : Z) (detail : string) | TimeOutOfRange | Other (e : exn).

Definition AUDIT_READ : string := "audit:read".
Definition AUDIT_CLEAR : string := "audit:clear".
Definition AUDIT_CLEARED_EVENT : string := "audit_cleared".
Definition DEFAULT_AUDIT_LIMIT : Z := 100.
Definition MAX_AUDIT_LIMIT : Z := 1000.
Definition BAD_PAGING : string := "limit and offset must be integers >= 0".

(** Milliseconds that [datetime.fromtimestamp] accepts: the years 1 to 9999. *)
Definition datetime_ms (t : Z) : bool := (-62135596800000 <=? t) && (t <? 253402300800000).

Record Caller := { c_can : option (string → bool); c_name : option string; c_id : option string }.

(** What the routes read of a request; [caller] is what an auth plugin left in
    its scope. *)
Record AuditRequest := {
  query_params : dict string string;
  scope_caller : option Caller;
  client_host : option string;
}.

Inductive audit_answer := Entries (l : list pyval) | NoContent | ErrorBody (status : Z) (text : string).

Record AuditWorld {S H : Type} := { w_store : S; w_host : H }.
Arguments AuditWorld : clear implicits.
Arguments Build_AuditWorld {S H}.

Section Api.
Context {S H : Type} `{ST : IAuditStore S audit_exn}.
Abbreviation method := (py (AuditWorld S H) audit_exn).

Definition on_store {A} (m : py S audit_exn A) : method A := λ w,
  let '(r, s) := m (w_store w) in (r, {| w_store := s; w_host := w_host w |}).
Definition on_host {A} (m : py H audit_exn A) : method A := λ w,
  let '(r, h) := m (w_host w) in (r, {| w_store := w_store w; w_host := h |}).

(** The host: ids, the clock, the event bus, [authorize] and the parser of ISO
    times. *)
Context (uuid4 : H → string * H) (clock : H → Z).
Context (event_bus : option (string → dict string pyval → CliEventAudience → py H audit_exn unit)).
Context (authorize : option (string → py H audit_exn (option Caller))).
Context (fromisoformat : string → option datetime).

Definition publish_recorded (e : AuditEntry) : method unit :=
  match event_bus with
  | None => mret tt
  | Some publish =>
      let data := dict_del "timestamp" (audit_to_dict e) in
      if datetime_ms (a_timestamp e) then
        let data := dict_set "timestamp" (VTime (a_timestamp e * 1000)) data in
        try_except (on_host (publish "audit:recorded" data (with_permission AUDIT_READ)))
          (λ x, match x with Other Cancelled => raise x | _ => mret tt end)
      else raise TimeOutOfRange
  end.

Definition plugin_log (e : AuditEntry) : method unit :=
  _ ← on_store (store_log e);
  publish_recorded e.

(** ** The routes *)

Definition caller_of (r : AuditRequest) (permission : string) : method (option Caller) :=
  match authorize with
  | Some f => on_host (f permission)
  | None =>
      match (scope_caller r ≫= c_can : option (string → bool)) with
      | Some can =>
          if can permission then mret (scope_caller r)
          else raise (HTTPException 403 ("missing permission: " +:+ permission))
      | None => mret (scope_caller r)
      end
  end.

(** [None]: [ValueError] *)
Definition _paging (r : AuditRequest) (nm : string) : option (option Z) :=
  match dict_get nm (query_params r) with
  | None => Some None
  | Some raw =>
      if is_empty raw then Some None
      else match py_int (strip raw) with
           | Some v => if v <? 0 then None else Some (Some v)
           | None => None
           end
  end.

(** [int(parsed.timestamp() * 1000)]: milliseconds, towards zero *)
Definition to_ms (d : datetime) : Z := Z.quot (as_utc d) 1000.

Definition _time (r : AuditRequest) (nm : string) : string + option Z :=
  let raw := strip (or_empty (dict_get nm (query_params r))) in
  if is_empty raw then inr None
  else match py_int raw with
       | Some v => inr (Some v)
       | None =>
           let text := if ends_with raw "Z" || ends_with raw "z"
                       then take_str (len raw - 1) raw +:+ "+00:00" else raw in
           match fromisoformat text with
           | Some d => inr (Some (to_ms d))
           | None => inl ("'" +:+ nm +:+ "' must be an ISO 8601 time or epoch milliseconds, got '" +:+ raw +:+ "'")
           end
       end.

(** [query.get(nm) or None] *)
Definition text_param (r : AuditRequest) (nm : string) : option string :=
  match dict_get nm (query_params r) with Some t => if is_empty t then None else Some t | None => None end.

(** The query of a request, or the error. *)
Definition query_of (r : AuditRequest) : string + AuditQueryOptions :=
  match _paging r "limit", _paging r "offset" with
  | Some limit, Some offset =>
      match _time r "from" with
      | inl e => inl e
      | inr start =>
          match _time r "to" with
          | inl e => inl e
          | inr stop =>
              inr {| q_limit := Some match limit with None => DEFAULT_AUDIT_LIMIT | Some l => Z.min l MAX_AUDIT_LIMIT end;
                     q_event := text_param r "event"; q_username := text_param r "username";
                     q_actor := text_param r "actor";
                     q_offset := match offset with Some 0 => None | o => o end;
                     q_from := start; q_to := stop |}
          end
      end
  | _, _ => inl BAD_PAGING
  end.

(** [try: ... except HTTPException]: the answer, or the caller *)
Definition with_caller (r : AuditRequest) (permission : string) (k : option Caller → method audit_answer)
    : method audit_answer :=
  c ← try_except (c ← caller_of r permission; mret (inr c : audit_answer + option Caller))
        (λ x, match x with HTTPException code detail => mret (inl (ErrorBody code detail)) | _ => raise x end);
  match c with inl a => mret a | inr c => k c end.

Definition list_entries (r : AuditRequest) : method audit_answer :=
  with_caller r AUDIT_READ (λ _,
    match query_of r with
    | inl e => mret (ErrorBody 400 e)
    | inr q =>
        entries ← on_store (store_get_entries (Some q));
        mret (Entries (map (λ e, VDict (audit_to_dict e)) entries))
    end).

Definition cleared_entry (r : AuditRequest) (c : option Caller) (i : string) (now : Z) : AuditEntry :=
  {| a_id := i; a_timestamp := now; a_event := AUDIT_CLEARED_EVENT; a_username := or_empty (c ≫= c_name);
     a_details := Some "audit log cleared"; a_actor := c ≫= c_name;
     a_metadata := Some [("remoteAddress", match client_host r with Some h => VStr h | None => VNone end)];
     a_user_id := c ≫= c_id; a_actor_id := c ≫= c_id; a_target := None; a_properties := None |}.

Definition clear_entries (r : AuditRequest) : method audit_answer :=
  with_caller r AUDIT_CLEAR (λ c,
    _ ← on_store store_clear;
    i ← on_host (λ h, let '(i, h) := uuid4 h in (inr i, h));
    now ← gets (λ w, clock (w_host w));
    _ ← plugin_log (cleared_entry r c i now);
    mret NoContent).
End Api.

(** * One audit log per server

    Whatever plugins are mounted on a server, in whatever order and however
    often, they all record in one store, and [current_store] says which. *)

(** ** What happens to a server *)

Inductive mount_op := Mount (p : nat) | UseStore (st : nat).

(** A host sets the store of the plugin that serves. *)
Definition mount_step (fuel : nat) (s : AuditServer) (o : mount_op) : option AuditServer :=
  match o with
  | Mount p => snd <$> before_mount fuel p s
  | UseStore st => match serving s with Some p => use_store fuel p st true s | None => Some s end
  end.
Definition mount_steps (fuel : nat) (s : AuditServer) (ops : list mount_op) : option AuditServer :=
  foldl (λ o op, s ← o; mount_step fuel s op) (Some s) ops.

(** The specification: the store in use and the plugins mounted so far.  A store
    that was set replaces the one in use, the last one set wins, and a default
    store is only used by the first plugin. *)
Definition spec_mount (built : nat → CliAuditPlugin) (c : option nat * list nat) (o : mount_op) : option nat * list nat :=
  match o, c.1 with
  | Mount p, None => (Some (p_store (built p)), p :: c.2)
  | Mount p, Some st =>
      (Some (if negb (bool_decide (p ∈ c.2)) && store_set (built p) then p_store (built p) else st), p :: c.2)
  | UseStore st, Some _ => (Some st, c.2)
  | UseStore _, None => c
  end.
Definition current_store (built : nat → CliAuditPlugin) (ops : list mount_op) : option nat * list nat :=
  foldl (spec_mount built) (None, []) ops.

(** A server before anything is mounted *)
Definition new_server (built : nat → CliAuditPlugin) (bus : bool) : AuditServer :=
  {| plugins := built; serving := None; server_bus := bus; told := [] |}.

(** ** Followers *)

Definition follows (l : list listener) : list nat := omap (λ l, match l with Follow q => Some q | _ => None end) l.
Definition leaf (s : AuditServer) (p : nat) : Prop := follows (_listeners (plugins s p)) = [].

(** [s'] is [s] with the store [st] at the plugins [ps]. *)
Definition moved (s s' : AuditServer) (ps : list nat) (st : nat) : Prop :=
  serving s' = serving s ∧ ∀ p,
    _listeners (plugins s' p) = _listeners (plugins s p) ∧
    (p ∈ ps → p_store (plugins s' p) = st) ∧
    (p ∉ ps → p_store (plugins s' p) = p_store (plugins s p) ∧ store_set (plugins s' p) = store_set (plugins s p)).

Lemma moved_leaf s s' ps st p : moved s s' ps st → leaf s p → leaf s' p.
Proof. intros [_ Hm] Hl. unfold leaf. by rewrite (proj1 (Hm p)). Qed.

Lemma moved_trans s1 s2 s3 ps qs st : moved s1 s2 ps st → moved s2 s3 qs st → moved s1 s3 (ps ++ qs) st.
Proof.
  intros [Hs1 Hm1] [Hs2 Hm2]. split; [congruence|]. intros p. destruct (Hm1 p) as (Hl1 & Hi1 & Ho1).
  destruct (Hm2 p) as (Hl2 & Hi2 & Ho2). split; [congruence|]. split.
  - intros [Hp|Hp]%elem_of_app; [|auto]. destruct (decide (p ∈ qs)) as [Hq|Hq]; [auto|].
    destruct (Ho2 Hq) as [-> _]. auto.
  - intros [Hp Hq]%not_elem_of_app. destruct (Ho1 Hp), (Ho2 Hq). split; congruence.
Qed.

Lemma moved_refl s st : moved s s [] st.
Proof. split; [done|]. intros p. split_and!; [done|by intros ?%elem_of_nil|done]. Qed.

(** The calls of the listeners, when those they reach follow nobody. *)
Lemma listeners_moved fuel st ls s :
  (∀ q s, leaf s q → ∃ s', use_store fuel q st false s = Some s' ∧ moved s s' [q] st) →
  (∀ q, q ∈ follows ls → leaf s q) →
  ∃ s', foldl (λ o l, s ← o;
          match l with Follow q => use_store fuel q st false s | HostListener n => Some (tell n st s) end) (Some s) ls =
        Some s' ∧ moved s s' (follows ls) st.
Proof.
  intros Hleaf. revert s. induction ls as [|[q|n] ls IH]; intros s Hls; simpl.
  - exists s. split; [done|apply moved_refl].
  - destruct (Hleaf q s) as (s1 & -> & Hm1); [apply Hls; by left|].
    destruct (IH s1) as (s2 & -> & Hm2); [intros q' Hq'; apply (moved_leaf _ _ _ _ _ Hm1), Hls; by right|].
    exists s2. split; [done|]. exact (moved_trans _ _ _ [q] _ _ Hm1 Hm2).
  - destruct (IH (tell n st s)) as (s2 & -> & Hm2); [done|]. by exists s2.
Qed.

(** The start of [use_store], before the listeners are called. *)
Definition stored (p st : nat) (b : bool) (s : AuditServer) : AuditServer :=
  set_plugin p (with_store st) (set_plugin p (λ x, with_store_set (store_set x || b) x) s).

Lemma stored_moved p st b s : moved s (stored p st b s) [p] st.
Proof.
  split; [done|]. intros q. unfold stored, set_plugin. simpl. destruct (decide (q = p)) as [->|Hq].
  - rewrite decide_True by done. split_and!; [done|done|set_solver].
  - split_and!; [done|set_solver|done].
Qed.

Lemma flagged_moved p b s : moved s (set_plugin p (λ x, with_store_set (store_set x || b) x) s) [p] (p_store (plugins s p)).
Proof.
  split; [done|]. intros q. unfold set_plugin. simpl. destruct (decide (q = p)) as [->|Hq].
  - split_and!; [done|done|set_solver].
  - split_and!; [done|set_solver|done].
Qed.

Definition call_listener (fuel st : nat) (o : option AuditServer) (l : listener) : option AuditServer :=
  s ← o; match l with Follow q => use_store fuel q st false s | HostListener n => Some (tell n st s) end.

Lemma use_store_eq fuel p st b s :
  use_store (S fuel) p st b s =
  if bool_decide (p_store (plugins s p) = st) then Some (set_plugin p (λ x, with_store_set (store_set x || b) x) s)
  else foldl (call_listener fuel st) (Some (stored p st b s)) (_listeners (plugins s p)).
Proof.
  assert (Hs : p_store (plugins (set_plugin p (λ x, with_store_set (store_set x || b) x) s) p) = p_store (plugins s p)).
  { unfold set_plugin. simpl. by rewrite decide_True. }
  assert (Hl : _listeners (plugins (stored p st b s) p) = _listeners (plugins s p)).
  { unfold stored, set_plugin. simpl. by rewrite !decide_True. }
  cbn [use_store]. cbv zeta. rewrite Hs. case_bool_decide; [done|]. unfold stored in *. by rewrite Hl.
Qed.

(** [use_store] changes the plugin and its followers, when those have its store
    and follow nobody. *)
Lemma use_store_moved fuel p st b s :
  (∀ q s, leaf s q → ∃ s', use_store fuel q st false s = Some s' ∧ moved s s' [q] st) →
  (∀ q, q ∈ follows (_listeners (plugins s p)) → q ≠ p ∧ leaf s q ∧ p_store (plugins s q) = p_store (plugins s p)) →
  ∃ s', use_store (S fuel) p st b s = Some s' ∧ moved s s' (p :: follows (_listeners (plugins s p))) st.
Proof.
  intros Hleaf Hf. rewrite use_store_eq. case_bool_decide as Hst.
  - eexists. split; [done|]. destruct (flagged_moved p b s) as [Hs Hm]. split; [done|]. intros q.
    destruct (Hm q) as (Hl & Hi & Ho). split; [done|]. split.
    + intros [->|Hq]%elem_of_cons; [etrans; [apply Hi; by left|done]|]. destruct (Hf q Hq) as (Hne & _ & Heq).
      etrans; [apply Ho; set_solver|congruence].
    + intros Hq. apply Ho. set_solver.
  - pose proof (stored_moved p st b s) as Hm.
    destruct (listeners_moved fuel st (_listeners (plugins s p)) (stored p st b s)) as (s' & Hs' & Hm').
    + done.
    + intros q Hq. apply (moved_leaf _ _ _ _ _ Hm), Hf, Hq.
    + exists s'. split; [exact Hs'|]. exact (moved_trans _ _ _ [p] _ _ Hm Hm').
Qed.

Lemma call_leaf fuel st ls s : follows ls = [] → ∃ s', foldl (call_listener fuel st) (Some s) ls = Some s' ∧ moved s s' [] st.
Proof.
  revert s. induction ls as [|[q|n] ls IH]; intros s H0; simpl; [exists s; split; [done|apply moved_refl]|done|].
  destruct (IH (tell n st s) H0) as (s' & -> & Hs'). by exists s'.
Qed.

Lemma use_store_leaf fuel p st b s : leaf s p → ∃ s', use_store (S fuel) p st b s = Some s' ∧ moved s s' [p] st.
Proof.
  intros Hl. rewrite use_store_eq. case_bool_decide as Hst; [eexists; split; [done|]; rewrite <- Hst; apply flagged_moved|].
  pose proof (stored_moved p st b s) as Hm.
  destruct (call_leaf fuel st _ (stored p st b s) Hl) as (s' & -> & Hm'). exists s'. split; [done|].
  exact (moved_trans _ _ _ [p] [] _ Hm Hm').
Qed.

(** ** The invariant *)

(** [st] is the store in use and [ms] the plugins mounted so far. *)
Definition one_log (built : nat → CliAuditPlugin) (s : AuditServer) (c : option nat * list nat) : Prop :=
  (∀ p, p ∉ c.2 → p_store (plugins s p) = p_store (built p) ∧ store_set (plugins s p) = store_set (built p)) ∧
  match c.1 with
  | None => serving s = None ∧ c.2 = [] ∧ ∀ p, leaf s p
  | Some st =>
      ∃ a, serving s = Some a ∧ a ∈ c.2 ∧ (∀ p, p ∈ c.2 → p_store (plugins s p) = st) ∧
        (∀ p, p ≠ a → leaf s p) ∧
        (∀ p, p ∈ follows (_listeners (plugins s a)) ↔ p ∈ c.2 ∧ p ≠ a)
  end.

Lemma one_log_ext built s s' c :
  one_log built s c → serving s' = serving s →
  (∀ p, p_store (plugins s' p) = p_store (plugins s p) ∧ store_set (plugins s' p) = store_set (plugins s p) ∧
        _listeners (plugins s' p) = _listeners (plugins s p)) →
  one_log built s' c.
Proof.
  intros [Hb Hc] Hs He. assert (Hl : ∀ p, leaf s p → leaf s' p).
  { intros p Hp. unfold leaf. by rewrite (proj2 (proj2 (He p))). }
  split.
  - intros p Hp. destruct (He p) as (-> & -> & _). by apply Hb.
  - destruct (c.1) as [st|].
    + destruct Hc as (a & Ha & Hin & Hst & Hleaf & Hf). exists a. rewrite Hs. split_and!; [done|done| | |].
      * intros p Hp. rewrite (proj1 (He p)). by apply Hst.
      * auto.
      * by rewrite (proj2 (proj2 (He a))).
    + rewrite Hs. destruct Hc as (? & ? & ?). auto.
Qed.

(** The serving plugin takes a store. *)
Lemma serving_uses fuel built s st ms a st' b :
  one_log built s (Some st, ms) → serving s = Some a →
  ∃ s', use_store (S (S fuel)) a st' b s = Some s' ∧ one_log built s' (Some st', ms) ∧
        ∀ p, p ∉ ms → p_store (plugins s' p) = p_store (plugins s p) ∧ store_set (plugins s' p) = store_set (plugins s p).
Proof.
  intros [Hb Hc] Ha. simpl in Hc. destruct Hc as (a' & Ha' & Hin & Hst & Hleaf & Hf). rewrite Ha in Ha'. injection Ha' as <-.
  destruct (use_store_moved (S fuel) a st' b s) as (s' & Hs' & Hserv & Hm).
  - intros q s0. apply use_store_leaf.
  - intros q [Hq Hne]%Hf. split; [done|]. split; [by apply Hleaf|]. by rewrite !Hst.
  - assert (Hms : ∀ p, p ∈ a :: follows (_listeners (plugins s a)) ↔ p ∈ ms).
    { intros p. rewrite elem_of_cons, Hf. destruct (decide (p = a)) as [->|]; naive_solver. }
    exists s'. split; [exact Hs'|]. split; [|intros p Hp; apply Hm; by rewrite Hms]. split; simpl.
    + intros p Hp. rewrite <- Hms in Hp. destruct (Hm p) as (_ & _ & Ho). destruct (Ho Hp) as [-> ->].
      apply Hb. by rewrite <- Hms.
    + exists a. rewrite Hserv. split_and!; [done|done| | |].
      * intros p Hp. apply Hm. by rewrite Hms.
      * intros p Hp. unfold leaf. rewrite (proj1 (Hm p)). by apply Hleaf.
      * by rewrite (proj1 (Hm a)).
Qed.

Lemma follows_app l k : follows (l ++ k) = follows l ++ follows k.
Proof. apply omap_app. Qed.

(** A plugin takes the store of the serving one and follows it. *)
Lemma other_joins fuel built s st ms a p :
  one_log built s (Some st, ms) → serving s = Some a → a ≠ p →
  ∃ s', use_store (S fuel) p st false s = Some s' ∧ one_log built (on_store_changed a (Follow p) s') (Some st, p :: ms).
Proof.
  intros [Hb Hc] Ha Hap. simpl in Hc. destruct Hc as (a' & Ha' & Hin & Hst & Hleaf & Hf). rewrite Ha in Ha'. injection Ha' as <-.
  destruct (use_store_leaf fuel p st false s) as (s' & Hs' & Hserv & Hm); [by apply Hleaf|].
  exists s'. split; [done|]. split; simpl.
  - intros q Hq. assert (q ≠ a) by set_solver. rewrite decide_False by done.
    destruct (Hm q) as (_ & _ & Ho). destruct (Ho ltac:(set_solver)) as [-> ->]. apply Hb. set_solver.
  - exists a. rewrite Hserv. split_and!; [done|set_solver| | |].
    + intros q Hq. assert (Hq' : p_store (plugins s' q) = st).
      { destruct (decide (q = p)) as [->|Hqp]; [apply Hm; by left|]. etrans; [apply Hm; set_solver|]. apply Hst. set_solver. }
      destruct (decide (q = a)) as [->|]; simpl; [|done]. done.
    + intros q Hq. unfold leaf. simpl. rewrite decide_False by done. rewrite (proj1 (Hm q)). by apply Hleaf.
    + intros q. rewrite decide_True by done. simpl. rewrite follows_app, (proj1 (Hm a)), elem_of_app, Hf. simpl.
      rewrite list_elem_of_singleton, elem_of_cons. naive_solver.
Qed.

Lemma join_step fuel built s st ms a p :
  one_log built s (Some st, ms) → serving s = Some a → a ≠ p →
  ∃ s', _join (S (S fuel)) a p s = Some s' ∧ one_log built s' (spec_mount built (Some st, ms) (Mount p)).
Proof.
  intros Hi Ha Hap. unfold _join, spec_mount. cbn [fst snd].
  set (st' := if negb (bool_decide (p ∈ ms)) && store_set (built p) then p_store (built p) else st).
  assert (Hfirst : ∃ s1, (if store_set (plugins s p) then use_store (S (S fuel)) a (p_store (plugins s p)) true s else Some s) =
      Some s1 ∧ one_log built s1 (Some st', ms) ∧ serving s1 = Some a).
  { pose proof Hi as [Hb Hc]. pose proof Hc as (a' & Ha' & Hin & Hst & _). rewrite Ha in Ha'. injection Ha' as <-.
    assert (Hp : st' = if store_set (plugins s p) then p_store (plugins s p) else st).
    { unfold st'. case_bool_decide as Hpm; simpl.
      - rewrite (Hst p Hpm). by destruct (store_set (plugins s p)).
      - destruct (Hb p Hpm) as [-> ->]. done. }
    rewrite Hp. destruct (store_set (plugins s p)).
    - destruct (serving_uses fuel built s st ms a (p_store (plugins s p)) true (conj Hb Hc) Ha) as (s' & Hs' & Hi' & _).
      exists s'. split_and!; [done|done|]. destruct Hi' as [_ (a'' & Ha'' & _ & _ & Hl & Hf')].
      destruct (use_store_moved (S fuel) a (p_store (plugins s p)) true s) as (s2 & Hs2 & Hserv & _).
      { intros q s0. apply use_store_leaf. }
      { destruct Hc as (a3 & Ha3 & _ & Hst3 & Hl3 & Hf3). rewrite Ha in Ha3. injection Ha3 as <-.
        intros q [Hq Hne]%Hf3. split; [done|]. split; [by apply Hl3|]. by rewrite !Hst3. }
      rewrite Hs' in Hs2. injection Hs2 as <-. by rewrite Hserv.
    - by exists s. }
  destruct Hfirst as (s1 & -> & Hi1 & Ha1). cbn [mbind option_bind].
  set (s2 := match p_authorize (plugins s1 a) with Some _ => s1 | None => _ end).
  assert (Hi2 : one_log built s2 (Some st', ms) ∧ serving s2 = Some a).
  { assert (Hsame : ∀ x, one_log built (set_plugin a (with_authorize x) s1) (Some st', ms)).
    { intros x. eapply one_log_ext; [exact Hi1|done|]. intros q. simpl. by destruct (decide (q = a)) as [->|]. }
    unfold s2. destruct (p_authorize (plugins s1 a)), (p_authorize (plugins s1 p)); auto. }
  clearbody s2. destruct Hi2 as [Hi2 Ha2].
  assert (p_store (plugins s2 a) = st') as ->.
  { destruct Hi2 as [_ (a' & Ha' & Hin & Hst & _)]. rewrite Ha2 in Ha'. injection Ha' as <-. by apply Hst. }
  destruct (other_joins (S fuel) built s2 st' ms a p Hi2 Ha2 Hap) as (s3 & -> & Hi3). simpl. by exists (on_store_changed a (Follow p) s3).
Qed.

Lemma mount_step_ok fuel built s c o :
  one_log built s c → ∃ s', mount_step (S (S fuel)) s o = Some s' ∧ one_log built s' (spec_mount built c o).
Proof.
  intros Hi. destruct o as [p|st]; unfold mount_step.
  - unfold before_mount.
    set (s1 := if p_event_bus (plugins s p) then s else set_plugin p (with_bus (server_bus s)) s).
    assert (Hi1 : one_log built s1 c).
    { unfold s1. destruct (p_event_bus _); [done|]. eapply one_log_ext; [exact Hi|done|]. intros q. simpl.
      by destruct (decide (q = p)) as [->|]. }
    clearbody s1. clear s Hi. destruct c as [[st|] ms]; pose proof Hi1 as [Hb Hc]; simpl in Hc.
    + pose proof Hc as (a & Ha & Hin & Hst & Hrest). rewrite Ha. case_bool_decide as Hap.
      * subst a. eexists. split; [done|]. unfold spec_mount. cbn [fst snd].
        rewrite (bool_decide_eq_true_2 (p ∈ ms)) by done. simpl. split; simpl.
        -- intros q Hq. apply Hb. simpl. set_solver.
        -- exists p. destruct Hrest as [Hl Hf]. split_and!; [done|set_solver| |done|].
           ++ intros q [->|Hq]%elem_of_cons; auto.
           ++ intros q. rewrite Hf, elem_of_cons. naive_solver.
      * destruct (join_step fuel built s1 st ms a p) as (s' & -> & Hi'); [split; [exact Hb|exact Hc]|done|done|].
        simpl. by exists s'.
    + destruct Hc as (Hs & -> & Hl). rewrite Hs. eexists. split; [done|]. split; simpl.
      * intros q Hq. apply Hb. set_solver.
      * exists p. split_and!; [done|set_solver| |by intros; apply Hl|].
        -- intros q ->%list_elem_of_singleton. apply Hb. set_solver.
        -- intros q. rewrite (Hl p), list_elem_of_singleton. split; [by intros ?%elem_of_nil|naive_solver].
  - destruct c as [[st0|] ms].
    + pose proof Hi as [Hb Hc]. pose proof Hc as (a & Ha & _). rewrite Ha.
      destruct (serving_uses fuel built s st0 ms a st true (conj Hb Hc) Ha) as (s' & -> & Hi' & _). by exists s'.
    + destruct Hi as [Hb (Hs & Hms & Hl)]. rewrite Hs. exists s. split; [done|]. by split.
Qed.

(** However plugins are mounted on a server, in whatever order and however often,
    and whenever the host replaces the store: every plugin mounted so far
    records in the store that the specification names, so there is one log; and
    the calls between the plugins end (no fuel above two is needed). *)
Theorem mounted_share_log fuel built bus ops :
  (∀ p, follows (_listeners (built p)) = []) → (2 ≤ fuel)%nat →
  ∃ s, mount_steps fuel (new_server built bus) ops = Some s ∧
    let '(st, mounted) := current_store built ops in
    ∀ p, p ∈ mounted → Some (p_store (plugins s p)) = st.
Proof.
  intros Hnone Hfuel. destruct fuel as [|[|fuel]]; [lia|lia|]. clear Hfuel.
  assert (Hgen : ∀ ops s c, one_log built s c →
    ∃ s', foldl (λ o op, s ← o; mount_step (S (S fuel)) s op) (Some s) ops = Some s' ∧ one_log built s' (foldl (spec_mount built) c ops)).
  { clear ops. induction ops as [|o ops IH]; intros s c Hi; [by exists s|]. cbn [foldl].
    destruct (mount_step_ok fuel built s c o Hi) as (s1 & Hs1 & Hi1). cbn [mbind option_bind]. rewrite Hs1. by apply IH. }
  destruct (Hgen ops (new_server built bus) (None, [])) as (s & Hs & Hi); [split; [done|]; by split_and!|].
  exists s. split; [exact Hs|]. unfold current_store. destruct (foldl (spec_mount built) (None, []) ops) as [[st|] ms].
  - destruct Hi as [_ (a & _ & _ & Hst & _)]. intros p Hp. by rewrite (Hst p Hp).
  - destruct Hi as [_ (_ & Hms & _)]. simpl in Hms. subst ms. by intros p ?%elem_of_nil.
Qed.

(** * The audit routes: theorems

    Against the laws of a store ([AuditStoreLaws]), which [AuditStore.v]
    discharges for the store in memory. *)

Section Routes.
Context {S H : Type} `{L : AuditStoreLaws S audit_exn}.
Context (uuid4 : H → string * H) (clock : H → Z).
Context (event_bus : option (string → dict string pyval → CliEventAudience → py H audit_exn unit)).
Context (authorize : option (string → py H audit_exn (option Caller))).
Context (fromisoformat : string → option datetime).
Implicit Types (w : AuditWorld S H).

(** The caller of a request has a permission: [authorize] let it through, or the
    caller of the scope, if any, can. *)
Definition granted (r : AuditRequest) (permission : string) w (c : option Caller) : Prop :=
  match authorize with
  | Some f => (f permission (w_host w)).1 = inr c
  | None => c = scope_caller r ∧ ∀ can, (scope_caller r ≫= c_can : option _) = Some can → can permission = true
  end.

Lemma caller_of_spec r permission w :
  let '(res, w') := caller_of (S := S) authorize r permission w in
  w_store w' = w_store w ∧ match res with inr c => granted r permission w c | inl _ => ∀ c, ¬ granted r permission w c end.
Proof.
  unfold caller_of, granted. destruct authorize as [f|].
  - unfold on_host. destruct (f permission (w_host w)) as [[e|c] h]; simpl; split; done.
  - destruct (scope_caller r ≫= c_can) as [can|] eqn:Hc; [destruct (can permission) eqn:Hp|]; simpl; split; try done.
    + split; [done|]. by intros can' [= <-].
    + intros c [_ Hcan]. specialize (Hcan can eq_refl). congruence.
Qed.

(** A route is refused or runs its body for a caller with the permission; the
    store is as before when the body starts. *)
Lemma with_caller_spec r permission k w :
  let '(res, w') := with_caller (S := S) authorize r permission k w in
  (∃ w1 c, granted r permission w c ∧ w_store w1 = w_store w ∧ k c w1 = (res, w')) ∨
  (w_store w' = w_store w ∧ (∀ c, ¬ granted r permission w c) ∧ ∀ a, res = inr a → ∃ code t, a = ErrorBody code t).
Proof.
  unfold with_caller. rewrite py_bind_eq. unfold try_except. rewrite py_bind_eq.
  pose proof (caller_of_spec r permission w) as Hc. destruct (caller_of authorize r permission w) as [[e|c] w1].
  - destruct Hc as [Hw Hg]. destruct e; simpl; right; (split; [done|]); (split; [done|]); [|done|done].
    intros a [= <-]. eauto.
  - destruct Hc as [Hw Hg]. simpl. destruct (k c w1) as [res w'] eqn:Hk. left. eauto.
Qed.

Lemma at_most_length n l : 0 ≤ n → Z.of_nat (length (at_most (Some n) l)) ≤ n.
Proof. intros Hn. unfold at_most. destruct (Z.leb_spec 0 n); [|lia]. rewrite length_firstn. lia. Qed.

Lemma query_limit r q : query_of fromisoformat r = inr q → ∃ n, q_limit q = Some n ∧ 0 ≤ n ≤ MAX_AUDIT_LIMIT.
Proof.
  unfold query_of, MAX_AUDIT_LIMIT. destruct (_paging r "limit") as [l|] eqn:Hl; [|done]. destruct (_paging r "offset"); [|done].
  destruct (_time _ r "from"); [done|]. destruct (_time _ r "to"); [done|]. intros [= <-]. simpl. eexists. split; [done|].
  destruct l as [l|]; [|unfold DEFAULT_AUDIT_LIMIT; lia]. unfold _paging in Hl.
  destruct (dict_get _ _); [|done]. destruct (is_empty _); [done|]. destruct (py_int _) as [v|]; [|done].
  destruct (Z.ltb_spec v 0); [done|]. injection Hl as <-. lia.
Qed.

(** What [GET] answers: an error without the permission or for a bad query, else
    the page of the query from the entries of the store, the newest first and
    never more than a thousand.  It changes nothing. *)
Theorem audit_list_spec r w :
  store_ok (w_store w) →
  let '(res, w') := list_entries (S := S) authorize fromisoformat r w in
  w_store w' = w_store w ∧
  match res with
  | inr (Entries l) =>
      (∃ c, granted r AUDIT_READ w c) ∧ Z.of_nat (length l) ≤ MAX_AUDIT_LIMIT ∧
      ∃ q, query_of fromisoformat r = inr q ∧
        l = map (λ e, VDict (audit_to_dict e)) (page_of (Some q) (rev (contents (w_store w))))
  | inr (ErrorBody code t) => (∀ c, ¬ granted r AUDIT_READ w c) ∨ (code = 400 ∧ query_of fromisoformat r = inl t)
  | inr NoContent => False
  | inl _ => ∀ c, ¬ granted r AUDIT_READ w c
  end.
Proof.
  intros Hok. unfold list_entries.
  match goal with |- context [with_caller _ _ _ ?k _] => pose proof (with_caller_spec r AUDIT_READ k w) as Hw end.
  destruct (with_caller _ _ _ _ w) as [res w']. destruct Hw as [(w1 & c & Hg & Hs & Hk)|(Hs & Hg & Ha)].
  - destruct (query_of fromisoformat r) as [e|q] eqn:Hq.
    + injection Hk as <- <-. split; [done|]. by right.
    + rewrite py_bind_eq in Hk. unfold on_store in Hk. rewrite get_law in Hk by by rewrite Hs.
      injection Hk as <- <-. split; [done|]. split; [by exists c|]. rewrite Hs. split; [|by exists q].
      rewrite length_map. destruct (query_limit r q Hq) as (n & Hn & ?). unfold page_of. rewrite Hn.
      pose proof (at_most_length n (skip (q_offset q) (filtered q (rev (contents (w_store w)))))). lia.
  - split; [done|]. destruct res as [e|a]; [done|]. destruct (Ha a eq_refl) as (code & t & ->). by left.
Qed.

(** What [DELETE] does: nothing without the permission; else the log holds one
    entry afterwards, which says who cleared it, also when an exception comes
    out of publishing that entry. *)
Theorem audit_clear_spec r w :
  store_ok (w_store w) →
  let '(res, w') := clear_entries (S := S) uuid4 clock event_bus authorize r w in
  match res with inr (ErrorBody _ _) => ∀ c, ¬ granted r AUDIT_CLEAR w c | inr a => a = NoContent | inl _ => True end ∧
  ((w_store w' = w_store w ∧ ∀ c, ¬ granted r AUDIT_CLEAR w c) ∨
   ∃ c i now, granted r AUDIT_CLEAR w c ∧ contents (w_store w') = [cleared_entry r c i now]).
Proof.
  intros Hok. unfold clear_entries.
  match goal with |- context [with_caller _ _ _ ?k _] => pose proof (with_caller_spec r AUDIT_CLEAR k w) as Hw end.
  destruct (with_caller _ _ _ _ w) as [res w']. destruct Hw as [(w1 & c & Hg & Hs & Hk)|(Hs & Hg & Ha)].
  - rewrite py_bind_eq in Hk. unfold on_store in Hk at 1. rewrite Hs in Hk.
    destruct (clear_law _ Hok) as (s1 & Hc & Hok1 & Hc1). rewrite Hc, py_bind_eq in Hk. unfold on_host in Hk at 1. simpl in Hk.
    destruct (uuid4 (w_host w1)) as [i h]. rewrite py_bind_eq in Hk. unfold gets in Hk. simpl in Hk. rewrite py_bind_eq in Hk.
    set (e := cleared_entry r c i (clock h)) in Hk. unfold plugin_log in Hk. rewrite py_bind_eq in Hk.
    unfold on_store in Hk at 1. simpl in Hk. destruct (log_law e s1 Hok1) as (s2 & kept & Hl & Hok2 & Hc2 & Hkept).
    rewrite Hl in Hk. rewrite Hc1 in Hkept. apply sublist_nil_r in Hkept as ->.
    assert (Hpub : ∀ w2, w_store (publish_recorded (S := S) event_bus e w2).2 = w_store w2).
    { intros w2. unfold publish_recorded. destruct event_bus as [publish|]; [|done]. destruct (datetime_ms _); [|done].
      unfold try_except, on_host. destruct (publish _ _ _ (w_host w2)) as [[[| |[]]|] ?]; done. }
    specialize (Hpub {| w_store := s2; w_host := h |}).
    destruct (publish_recorded event_bus e _) as [[x|[]] w3]; simpl in Hpub, Hk; injection Hk as <- <-; rewrite Hpub; simpl;
      (split; [done|]); right; exists c, i, (clock h); by rewrite Hc2.
  - split; [|by left]. destruct res as [e|a]; [done|]. by destruct (Ha a eq_refl) as (code & t & ->).
Qed.
End Routes.

(** * A small audit log *)

Definition entry (i : string) (t : Z) (event username : string) : AuditEntry :=
  {| a_id := i; a_timestamp := t; a_event := event; a_username := username; a_details := None; a_actor := Some "root";
     a_metadata := None; a_user_id := None; a_actor_id := None; a_target := None; a_properties := None |}.

(** Two entries and one failed sign-in fit. *)
Definition small : InMemoryAuditStore := new_audit_store 2 1.
Definition history : list audit_op :=
  [Log (entry "1" 10 "login" "ann"); Log (entry "2" 20 "login_failed" "eve"); Log (entry "3" 30 "logout" "ann")].
Definition flood : list AuditEntry := [entry "4" 40 "login_failed" "eve"; entry "5" 50 "login_failed" "mallory"].

Lemma failed_logins_evict_nothing_witness :
  Forall (λ e, failed_login e = true) flood ∧
  of_kind false (get_entries None (foldl apply_op (new_audit_store 2 1) (history ++ map Log flood))) =
  of_kind false (get_entries None (foldl apply_op (new_audit_store 2 1) history)).
Proof. split; [repeat constructor|]. apply (failed_logins_evict_nothing 2 1 history flood). repeat constructor. Defined.

Example small_log :
  map a_id (get_entries None (foldl apply_op small (history ++ map Log flood ++ [Log (entry "6" 60 "login" "bob")]))) =
  ["6"; "5"; "3"].
Proof. reflexivity. Qed.

(** Three plugins: the first and the last have the default store. *)
Definition built (p : nat) : CliAuditPlugin := if decide (p = 1%nat) then build (Some 7%nat) 1 else build None p.
Definition mounts : list mount_op := [Mount 0; Mount 1; Mount 0; Mount 2; UseStore 9].

Lemma mounted_share_log_witness :
  current_store built mounts = (Some 9%nat, [2; 0; 1; 0]%nat) ∧
  ∃ s, mount_steps 2 (new_server built true) mounts = Some s ∧
    ∀ p, p ∈ (current_store built mounts).2 → Some (p_store (plugins s p)) = (current_store built mounts).1.
Proof.
  split; [reflexivity|].
  destruct (mounted_share_log 2 built true mounts) as (s & Hs & Hp).
  - intros p. unfold built. destruct (decide (p = 1%nat)); reflexivity.
  - lia.
  - exists s. split; [exact Hs|]. exact Hp.
Defined.

(** ** Requests *)

Definition reader : Caller := {| c_can := Some (λ p, bool_decide (p = AUDIT_READ)); c_name := Some "ann"; c_id := Some "1" |}.
Definition admin : Caller := {| c_can := Some (λ _, true); c_name := Some "root"; c_id := Some "0" |}.
Definition sample_request (c : Caller) (q : dict string string) : AuditRequest :=
  {| query_params := q; scope_caller := Some c; client_host := Some "10.0.0.1" |}.
Definition no_iso : string → option datetime := λ _, None.
Definition host_uuid (h : unit) : string * unit := ("new", h).
Definition world : AuditWorld InMemoryAuditStore unit := {| w_store := foldl apply_op small history; w_host := tt |}.

Lemma world_ok : store_ok (AuditStoreLaws := in_memory_laws (E := audit_exn)) (w_store world).
Proof. destruct (ops_stores _ _ [] history (new_stores 2 1)) as (l & Hl & _). by exists (audit_limit 2 1), l. Qed.

Lemma audit_list_spec_witness :
  let r := sample_request reader [("event", "LOGIN")] in
  (list_entries (S := InMemoryAuditStore) (H := unit) None no_iso r world).1 =
    inr (Entries [VDict (audit_to_dict (entry "1" 10 "login" "ann"))]) ∧
  (∃ c, granted (H := unit) (S := InMemoryAuditStore) None r AUDIT_READ world c).
Proof.
  pose proof (audit_list_spec (S := InMemoryAuditStore) (H := unit) None no_iso (sample_request reader [("event", "LOGIN")]) world world_ok) as H.
  split; [reflexivity|]. exact (proj1 (proj2 H)).
Defined.

Lemma audit_clear_spec_witness :
  let r := sample_request admin [] in
  (clear_entries (S := InMemoryAuditStore) host_uuid (λ _, 99) None None r world).1 = inr NoContent ∧
  ∃ c i now, granted (H := unit) (S := InMemoryAuditStore) None r AUDIT_CLEAR world c ∧
    rev (merged (w_store (clear_entries (S := InMemoryAuditStore) host_uuid (λ _, 99) None None r world).2)) = [cleared_entry r c i now].
Proof.
  pose proof (audit_clear_spec (S := InMemoryAuditStore) host_uuid (λ _, 99) None None (sample_request admin []) world world_ok) as H.
  split; [reflexivity|]. destruct (proj2 H) as [[_ Hno]|Hc]; [|exact Hc].
  exfalso. apply (Hno (Some admin)). split; [reflexivity|]. intros can [= <-]. reflexivity.
Defined.

(** Publishing an entry raises for a time that no [datetime] has. *)
Example recorded_raises :
  (publish_recorded (S := InMemoryAuditStore) (H := unit) (Some (λ _ _ _, mret tt)) (entry "7" 253402300800000 "login" "ann") world).1 =
  inl TimeOutOfRange.
Proof. reflexivity. Qed.
