(* ===== verification/Sockets.v ===== *)
(** * Event sockets ([core/services/cli_event_socket_manager.py], [session_bound_sockets.py])

    A socket is a number.  The handler of a connection, the sender task of a
    socket and the checks of sessions run between the awaits of each other; the
    synchronous parts are the functions below and [ev_step] interleaves them.
    The set of clients is a list here: the order in which an event is queued for
    its sockets does not show, since every socket has a queue of its own. *)

From S2P Require Import Prelude PyStr Values Commands Events.
From Stdlib Require Import Ascii.

Definition MAX_PENDING_EVENTS : nat := 1000.
Definition CLOSE_SESSION_ENDED : Z := 4401.
Definition REASON_SESSION_ENDED : string := "session ended".

(** The caller of a socket, as far as the manager looks at it; [can] may not be
    callable, and may raise ([None]). *)
Record SocketUser := { su_id : option string; su_name : option string }.
Record Principal := {
  pr_user : option SocketUser;
  pr_session : option string;
  pr_can : option (string → option bool);
}.

(** The task of [_send_loop]: waiting for a message or sending one; one that is
    not there has returned or was cancelled. *)
Inductive sender := Waiting | Sending.

Record SocketManager := {
  _bound : dict nat Principal;
  _clients : list nat;
  _client_info : dict nat (dict string pyval);
  _principals : dict nat Principal;
  _outboxes : dict nat (list pyval);
  _senders : list nat;
  _next_client_id : Z;
  (* the world: sender tasks, sockets ever accepted, calls of [send_text] by
     senders and by others, and the codes sockets were closed with *)
  tasks : dict nat sender;
  accepted : list nat;
  handed : list (nat * pyval);
  direct : list (nat * pyval);
  closed : list (nat * Z);
}.

Definition new_manager : SocketManager :=
  {| _bound := []; _clients := []; _client_info := []; _principals := []; _outboxes := []; _senders := [];
     _next_client_id := 1; tasks := []; accepted := []; handed := []; direct := []; closed := [] |}.

Definition set_outboxes (d : dict nat (list pyval)) (m : SocketManager) : SocketManager :=
  {| _bound := _bound m; _clients := _clients m; _client_info := _client_info m; _principals := _principals m;
     _outboxes := d; _senders := _senders m; _next_client_id := _next_client_id m; tasks := tasks m;
     accepted := accepted m; handed := handed m; direct := direct m; closed := closed m |}.
Definition set_tasks (d : dict nat sender) (h : list (nat * pyval)) (m : SocketManager) : SocketManager :=
  {| _bound := _bound m; _clients := _clients m; _client_info := _client_info m; _principals := _principals m;
     _outboxes := _outboxes m; _senders := _senders m; _next_client_id := _next_client_id m; tasks := d;
     accepted := accepted m; handed := h; direct := direct m; closed := closed m |}.
Definition set_bound (d : dict nat Principal) (m : SocketManager) : SocketManager :=
  {| _bound := d; _clients := _clients m; _client_info := _client_info m; _principals := _principals m;
     _outboxes := _outboxes m; _senders := _senders m; _next_client_id := _next_client_id m; tasks := tasks m;
     accepted := accepted m; handed := handed m; direct := direct m; closed := closed m |}.
Definition set_clients (l : list nat) (i : dict nat (dict string pyval)) (p : dict nat Principal) (m : SocketManager)
    : SocketManager :=
  {| _bound := _bound m; _clients := l; _client_info := i; _principals := p;
     _outboxes := _outboxes m; _senders := _senders m; _next_client_id := _next_client_id m; tasks := tasks m;
     accepted := accepted m; handed := handed m; direct := direct m; closed := closed m |}.
Definition set_world (d : list (nat * pyval)) (c : list (nat * Z)) (m : SocketManager) : SocketManager :=
  {| _bound := _bound m; _clients := _clients m; _client_info := _client_info m; _principals := _principals m;
     _outboxes := _outboxes m; _senders := _senders m; _next_client_id := _next_client_id m; tasks := tasks m;
     accepted := accepted m; handed := handed m; direct := d; closed := c |}.

(** ** Who receives an event *)

(** The installed check: there may be none, and it may raise. *)
Definition _requires_authentication (check : option (option bool)) : bool :=
  match check with None => false | Some None => true | Some (Some b) => b end.

Definition _receives (principal : option Principal) (audience : CliEventAudience) (requires_auth : bool) : bool :=
  if is_everyone audience then true
  else match principal with
       | None => negb requires_auth
       | Some p =>
           match user_id audience, pr_user p with
           | Some u, Some x => bool_decide (su_id x = Some u)
           | _, _ => false
           end ||
           match permission audience, pr_can p with
           | Some q, Some can => default false (can q)
           | _, _ => false
           end
       end.

(** ** Queues *)

Definition _enqueue (ws : nat) (message : pyval) (m : SocketManager) : SocketManager :=
  match dict_get ws (_outboxes m) with
  | None => m
  | Some q =>
      if (length q <? MAX_PENDING_EVENTS)%nat then set_outboxes (dict_set ws (q ++ [message]) (_outboxes m)) m else m
  end.

Definition publish_event (event : CliEvent) (check : option (option bool)) (m : SocketManager) : SocketManager :=
  let message := VDict (to_message event) in
  let requires_auth := _requires_authentication check in
  foldl (λ m client,
    if _receives (dict_get client (_principals m)) (ev_audience event) requires_auth then _enqueue client message m else m)
    m (_clients m).

Definition _stop_sender (ws : nat) (m : SocketManager) : SocketManager :=
  {| _bound := _bound m; _clients := _clients m; _client_info := _client_info m; _principals := _principals m;
     _outboxes := dict_del ws (_outboxes m); _senders := List.filter (λ w, negb (bool_decide (w = ws))) (_senders m);
     _next_client_id := _next_client_id m;
     tasks := if bool_decide (ws ∈ _senders m) then dict_del ws (tasks m) else tasks m;
     accepted := accepted m; handed := handed m; direct := direct m; closed := closed m |}.

(** [discard] and the two [pop]s *)
Definition drop_client (ws : nat) (m : SocketManager) : SocketManager :=
  set_clients (List.filter (λ w, negb (bool_decide (w = ws))) (_clients m)) (dict_del ws (_client_info m))
    (dict_del ws (_principals m)) m.

(** ** Sessions *)

Definition unbind (ws : nat) (m : SocketManager) : SocketManager := set_bound (dict_del ws (_bound m)) m.
Definition bind (ws : nat) (identity : option Principal) (m : SocketManager) : SocketManager :=
  match identity with
  | Some p => if bool_decide (is_Some (pr_user p)) then set_bound (dict_set ws p (_bound m)) m else m
  | None => m
  end.

Definition _on_session_ended (ws : nat) (m : SocketManager) : SocketManager := drop_client ws (_stop_sender ws m).

(** The rest of [_check] when its check is done; a check that raised counts as
    [false]. *)
Definition _check (ws : nat) (result : bool) (m : SocketManager) : SocketManager :=
  if result || negb (dict_mem ws (_bound m)) then m
  else
    let m := _on_session_ended ws (unbind ws m) in
    set_world (direct m) (closed m ++ [(ws, CLOSE_SESSION_ENDED)]) m.

(** The checks that [request_recheck] asks the event loop for, and whether one of
    them runs when its turn comes. *)
Definition request_recheck (has_check : bool) (m : SocketManager) : list (nat * Principal) :=
  if has_check then _bound m else [].
Definition _spawn_check (ws : nat) (m : SocketManager) : bool := dict_mem ws (_bound m).

(** ** Connections *)

Definition connected_message : pyval := VDict [("type", VStr "connected")].
Definition disconnect_message : pyval := VDict [("type", VStr "disconnect")].
Definition opt_str (o : option string) : pyval := match o with Some s => VStr s | None => VNone end.

Definition client_record (client_id : Z) (identity : option Principal) (now : string) (remote : option string)
    : dict string pyval :=
  [("id", VStr ("evt-" +:+ str_of_Z client_id)); ("connectedAt", VStr now);
   ("remoteAddress", VStr match remote with Some h => if is_empty h then "unknown" else h | None => "unknown" end);
   ("type", VStr "events")] ++
  match identity ≫= pr_user with
  | Some u => [("userId", opt_str (su_id u)); ("userName", opt_str (su_name u))]
  | None => []
  end ++
  match identity ≫= pr_session with Some s => [("sessionId", VStr s)] | None => [] end.

(** [handle_connection] from the accepted upgrade to the first wait. *)
Definition connect (ws : nat) (identity : option Principal) (now : string) (remote : option string) (m : SocketManager)
    : SocketManager :=
  let m := bind ws identity m in
  {| _bound := _bound m; _clients := _clients m ++ [ws];
     _client_info := dict_set ws (client_record (_next_client_id m) identity now remote) (_client_info m);
     _principals := match identity with Some p => dict_set ws p (_principals m) | None => _principals m end;
     _outboxes := dict_set ws [connected_message] (_outboxes m); _senders := _senders m ++ [ws];
     _next_client_id := _next_client_id m + 1; tasks := dict_set ws Waiting (tasks m);
     accepted := ws :: accepted m; handed := handed m; direct := direct m; closed := closed m |}.

(** Its [finally] *)
Definition disconnect (ws : nat) (m : SocketManager) : SocketManager := drop_client ws (_stop_sender ws (unbind ws m)).

(** [outbox.get()] and the call of [send_text] *)
Definition take_message (ws : nat) (m : SocketManager) : option SocketManager :=
  match dict_get ws (tasks m), dict_get ws (_outboxes m) with
  | Some Waiting, Some (message :: q) =>
      let m := set_outboxes (dict_set ws q (_outboxes m)) m in
      Some (set_tasks (dict_set ws Sending (tasks m)) (handed m ++ [(ws, message)]) m)
  | _, _ => None
  end.
(** The call returned; it raised *)
Definition message_sent (ok : bool) (ws : nat) (m : SocketManager) : option SocketManager :=
  match dict_get ws (tasks m) with
  | Some Sending => Some (set_tasks (if ok then dict_set ws Waiting (tasks m) else dict_del ws (tasks m)) (handed m) m)
  | _ => None
  end.

(** ** Messages past the queues *)

Definition send_all (message : pyval) (l : list nat) (m : SocketManager) : SocketManager :=
  set_world (direct m ++ map (λ ws, (ws, message)) l) (closed m) m.
Definition broadcast_message (message : pyval) (m : SocketManager) : SocketManager := send_all message (_clients m) m.
Definition user_sockets (u : string) (m : SocketManager) : list nat :=
  map fst (List.filter (λ ci, match dict_get "userId" ci.2 with Some (VStr v) => bool_decide (v = u) | _ => false end)
             (_client_info m)).
Definition send_to_user (u : string) (message : pyval) (m : SocketManager) : SocketManager :=
  send_all message (user_sockets u m) m.
Definition get_clients (m : SocketManager) : list (dict string pyval) := dict_values (_client_info m).

(** [broadcast_disconnect] up to its wait, and after it *)
Definition begin_disconnect (m : SocketManager) : SocketManager :=
  foldl (λ m ws, _stop_sender ws m) (send_all disconnect_message (_clients m) m) (_senders m).
Definition end_disconnect (m : SocketManager) : SocketManager := set_clients [] [] [] m.

(** ** Interleavings *)

Inductive ev_label :=
| Connect (ws : nat) (identity : option Principal) (now : string) (remote : option string)
| Disconnect (ws : nat)
| Publish (event : CliEvent) (check : option (option bool))
| Take (ws : nat)
| SendDone (ws : nat) (ok : bool)
| Checked (ws : nat) (result : bool)
| Broadcast (message : pyval)
| ToUser (u : string) (message : pyval)
| BeginDisconnect
| EndDisconnect.

(** A connection is handled once, and ends after it began. *)
Inductive ev_step : SocketManager → ev_label → SocketManager → Prop :=
| step_connect m ws identity now remote :
    ws ∉ accepted m → ev_step m (Connect ws identity now remote) (connect ws identity now remote m)
| step_disconnect m ws : ws ∈ accepted m → ev_step m (Disconnect ws) (disconnect ws m)
| step_publish m e check : ev_step m (Publish e check) (publish_event e check m)
| step_take m ws m' : take_message ws m = Some m' → ev_step m (Take ws) m'
| step_sent m ws ok m' : message_sent ok ws m = Some m' → ev_step m (SendDone ws ok) m'
| step_checked m ws result : ev_step m (Checked ws result) (_check ws result m)
| step_broadcast m message : ev_step m (Broadcast message) (broadcast_message message m)
| step_to_user m u message : ev_step m (ToUser u message) (send_to_user u message m)
| step_begin m : ev_step m BeginDisconnect (begin_disconnect m)
| step_end m : ev_step m EndDisconnect (end_disconnect m).

Inductive ev_steps : SocketManager → list ev_label → SocketManager → Prop :=
| steps_nil m : ev_steps m [] m
| steps_snoc m tr m1 l m2 : ev_steps m tr m1 → ev_step m1 l m2 → ev_steps m (tr ++ [l]) m2.
