(* ===== verification/SocketSafety.v ===== *)
(** * What an event socket receives *)

From S2P Require Import Prelude PyStr Values Commands Events Sockets.
From Stdlib Require Import Ascii.

(** ** The specification

    What a socket was to receive in a run: the greeting when it connected, and
    after that every event whose audience its caller belonged to when the event
    was published.  The first component is its caller, once it is connected. *)

Definition offer (ws : nat) (a : option (option Principal) * list pyval) (l : ev_label) :=
  match l, a.1 with
  | Connect w identity _ _, None => if decide (w = ws) then (Some identity, [connected_message]) else a
  | Publish e check, Some identity =>
      if _receives identity (ev_audience e) (_requires_authentication check)
      then (a.1, a.2 ++ [VDict (to_message e)]) else a
  | _, _ => a
  end.
Definition offered (ws : nat) (tr : list ev_label) := foldl (offer ws) (None, []) tr.

(** What the manager handed to [send_text] for a socket, and what waits for it. *)
Definition handed_to (ws : nat) (m : SocketManager) : list pyval :=
  map snd (List.filter (λ x, bool_decide (x.1 = ws)) (handed m)).
Definition queue (ws : nat) (m : SocketManager) : list pyval := default [] (dict_get ws (_outboxes m)).

Record sock_ok (ws : nat) (tr : list ev_label) (m : SocketManager) : Prop := {
  ok_accepted : (offered ws tr).1 = None ↔ ws ∉ accepted m;
  ok_absent : ws ∉ accepted m → dict_get ws (_outboxes m) = None ∧ dict_get ws (_principals m) = None ∧
    ws ∉ _clients m ∧ ws ∉ _senders m ∧ handed_to ws m = [] ∧ (offered ws tr).2 = [];
  ok_identity : ws ∈ _clients m → (offered ws tr).1 = Some (dict_get ws (_principals m));
  ok_queue : (length (queue ws m) ≤ MAX_PENDING_EVENTS)%nat;
  ok_sub : sublist (handed_to ws m ++ queue ws m) (offered ws tr).2;
  ok_all : BeginDisconnect ∉ tr → ws ∈ _clients m → (length (offered ws tr).2 ≤ MAX_PENDING_EVENTS)%nat →
    is_Some (dict_get ws (_outboxes m)) ∧ handed_to ws m ++ queue ws m = (offered ws tr).2;
  ok_task : is_Some (dict_get ws (tasks m)) → ws ∈ _senders m;
}.

Record man_ok (m : SocketManager) : Prop := {
  ok_outboxes : dict_ok (_outboxes m);
  ok_principals : dict_ok (_principals m);
  ok_tasks : dict_ok (tasks m);
  ok_clients : NoDup (_clients m);
}.

Lemma offered_snoc ws tr l : offered ws (tr ++ [l]) = offer ws (offered ws tr) l.
Proof. unfold offered. by rewrite foldl_app. Qed.

(** ** Lists and dictionaries *)

Lemma elem_discard (ws x : nat) (l : list nat) :
  x ∈ List.filter (λ w, negb (bool_decide (w = ws))) l ↔ x ∈ l ∧ x ≠ ws.
Proof.
  rewrite !list_elem_of_In, filter_In. split; intros [Hx H]; (split; [done|]).
  - by apply negb_true_iff, bool_decide_eq_false in H.
  - by apply negb_true_iff, bool_decide_eq_false.
Qed.

Lemma nodup_discard (ws : nat) (l : list nat) : NoDup l → NoDup (List.filter (λ w, negb (bool_decide (w = ws))) l).
Proof. rewrite !NoDup_ListNoDup. apply List.NoDup_filter. Qed.

Lemma dict_get_del {V} (k k' : nat) (d : dict nat V) :
  dict_ok d → dict_get k (dict_del k' d) = if decide (k = k') then None else dict_get k d.
Proof.
  intros Hd. destruct (decide (k = k')) as [->|Hk]; [by apply dict_get_del_eq|]. by apply dict_get_del_ne.
Qed.

Lemma dict_get_set {V} (k k' : nat) (v : V) (d : dict nat V) :
  dict_get k (dict_set k' v d) = if decide (k = k') then Some v else dict_get k d.
Proof. destruct (decide (k = k')) as [->|Hk]; [apply dict_get_set_eq|]. by apply dict_get_set_ne. Qed.

Lemma handed_to_snoc ws w x h :
  map snd (List.filter (λ y : nat * pyval, bool_decide (y.1 = ws)) (h ++ [(w, x)])) =
  map snd (List.filter (λ y : nat * pyval, bool_decide (y.1 = ws)) h) ++ (if decide (w = ws) then [x] else []).
Proof.
  rewrite List.filter_app, map_app. f_equal. simpl. destruct (decide (w = ws)) as [->|Hw].
  - by rewrite bool_decide_eq_true_2.
  - by rewrite bool_decide_eq_false_2.
Qed.

(** ** Publishing *)

Definition enqueued (message : pyval) (q : option (list pyval)) : option (list pyval) :=
  match q with
  | None => None
  | Some q => Some (if (length q <? MAX_PENDING_EVENTS)%nat then q ++ [message] else q)
  end.

(** Only the queues differ, and those as [f] says. *)
Definition queues_differ (m m' : SocketManager) (f : nat → option (list pyval) → option (list pyval)) : Prop :=
  m' = set_outboxes (_outboxes m') m ∧ (dict_ok (_outboxes m) → dict_ok (_outboxes m')) ∧
  ∀ ws, dict_get ws (_outboxes m') = f ws (dict_get ws (_outboxes m)).

Lemma enqueue_differ w message m :
  queues_differ m (_enqueue w message m) (λ ws q, if decide (ws = w) then enqueued message q else q).
Proof.
  unfold _enqueue, queues_differ. destruct (dict_get w (_outboxes m)) as [q|] eqn:Hq.
  - destruct (length q <? MAX_PENDING_EVENTS)%nat eqn:Hl; simpl.
    + split; [done|]. split; [by intros; apply dict_ok_set|]. intros ws. rewrite dict_get_set.
      destruct (decide (ws = w)) as [->|]; [|done]. rewrite Hq. simpl. by rewrite Hl.
    + split; [by destruct m|]. split; [done|]. intros ws. destruct (decide (ws = w)) as [->|]; [|done].
      rewrite Hq. simpl. by rewrite Hl.
  - split; [by destruct m|]. split; [done|]. intros ws. destruct (decide (ws = w)) as [->|]; [|done]. by rewrite Hq.
Qed.

Lemma differ_trans m1 m2 m3 f g :
  queues_differ m1 m2 f → queues_differ m2 m3 g → queues_differ m1 m3 (λ ws q, g ws (f ws q)).
Proof.
  intros (H1 & Hd1 & Hq1) (H2 & Hd2 & Hq2). split; [|split; [by auto|intros ws; by rewrite Hq2, Hq1]].
  rewrite H2, H1. by destruct m1.
Qed.

Definition receiver (m : SocketManager) (e : CliEvent) (auth : bool) (ws : nat) : bool :=
  _receives (dict_get ws (_principals m)) (ev_audience e) auth.

Lemma publish_differ e check m :
  NoDup (_clients m) →
  queues_differ m (publish_event e check m) (λ ws q,
    if decide (ws ∈ _clients m ∧ receiver m e (_requires_authentication check) ws = true)
    then enqueued (VDict (to_message e)) q else q).
Proof.
  intros Hnd. unfold publish_event. cbv zeta. set (auth := _requires_authentication check). set (message := VDict (to_message e)).
  assert (Hgen : ∀ l m0, NoDup l → queues_differ m m0 (λ ws q, if decide (ws ∉ l ∧ ws ∈ _clients m ∧ receiver m e auth ws = true)
      then enqueued message q else q) → (∀ ws, ws ∈ l → ws ∈ _clients m) →
    queues_differ m (foldl (λ m client,
      if _receives (dict_get client (_principals m)) (ev_audience e) auth then _enqueue client message m else m) m0 l)
      (λ ws q, if decide (ws ∈ _clients m ∧ receiver m e auth ws = true) then enqueued message q else q)).
  { induction l as [|w l IH]; intros m0 Hl H0 Hin; simpl.
    - destruct H0 as (H1 & H2 & H3). split; [done|]. split; [done|]. intros ws. rewrite H3.
      destruct (decide _) as [Ha|Ha], (decide _) as [Hb|Hb]; try done; exfalso; set_solver.
    - apply NoDup_cons in Hl as [Hw Hl]. apply IH; [done| |set_solver].
      assert (Hp : _principals m0 = _principals m) by (destruct H0 as (-> & _ & _); done). rewrite Hp.
      change (_receives (dict_get w (_principals m)) (ev_audience e) auth) with (receiver m e auth w).
      destruct (receiver m e auth w) eqn:Hr.
      + destruct (differ_trans _ _ _ _ _ H0 (enqueue_differ w message m0)) as (H1 & H2 & H3).
        split; [done|]. split; [done|]. intros ws. rewrite H3. destruct (decide (ws = w)) as [->|Hne].
        * rewrite (decide_False (P := w ∉ w :: l ∧ _)), decide_True by set_solver. done.
        * destruct (decide _) as [Ha|Ha], (decide _) as [Hb|Hb]; try done; exfalso; set_solver.
      + destruct H0 as (H1 & H2 & H3). split; [done|]. split; [done|]. intros ws. rewrite H3.
        destruct (decide _) as [Ha|Ha], (decide _) as [Hb|Hb]; try done; exfalso.
        * set_solver.
        * destruct Hb as (Hb1 & Hb2 & Hb3). apply Ha. split; [|done]. intros [->|?]%elem_of_cons; [congruence|done]. }
  apply Hgen; [done| |done]. split; [by destruct m|]. split; [done|]. intros ws.
  destruct (decide _) as [Ha|Ha]; [|done]. exfalso. naive_solver.
Qed.

(** ** Every step keeps the invariant *)

Definition inv (tr : list ev_label) (m : SocketManager) : Prop := man_ok m ∧ ∀ ws, sock_ok ws tr m.

Lemma sublist_enqueued (hd q q' : list pyval) msg l :
  sublist (hd ++ q) l → q' = q ∨ q' = q ++ [msg] → sublist (hd ++ q') (l ++ [msg]).
Proof.
  intros Hs [->| ->]; [by apply sublist_inserts_r|]. rewrite app_assoc. by apply sublist_app.
Qed.

(** Labels that offer nothing to anybody *)
Definition quiet (l : ev_label) : Prop := match l with Connect _ _ _ _ | Publish _ _ => False | _ => True end.
Lemma offer_quiet ws a l : quiet l → offer ws a l = a.
Proof. by destruct l. Qed.

(** The parts of the state that the invariant of a socket reads *)
Lemma quiet_ok ws tr m m' l :
  quiet l → sock_ok ws tr m → accepted m' = accepted m → handed_to ws m' = handed_to ws m →
  (ws ∈ _clients m' → ws ∈ _clients m ∧ dict_get ws (_principals m') = dict_get ws (_principals m)) →
  (∀ x, x ∈ _senders m' → x ∈ _senders m) → (is_Some (dict_get ws (tasks m')) → ws ∈ _senders m') →
  (dict_get ws (_outboxes m') = dict_get ws (_outboxes m) ∨
   dict_get ws (_outboxes m') = None ∧ (ws ∈ _clients m' → l = BeginDisconnect)) →
  (dict_get ws (_principals m) = None → dict_get ws (_principals m') = None) →
  sock_ok ws (tr ++ [l]) m'.
Proof.
  intros Hl [Ha Hn Hi Hq Hs Hall Ht] Hacc Hh Hc Hsend Htask Ho Hp. split; rewrite ?offered_snoc, ?offer_quiet by done.
  - by rewrite Hacc.
  - rewrite Hacc. intros Hws. destruct (Hn Hws) as (H1 & H2 & H3 & H4 & H5 & H6). split_and!.
    + destruct Ho as [->|[-> _]]; done.
    + auto.
    + by intros [? _]%Hc.
    + by intros ?%Hsend.
    + congruence.
    + done.
  - intros [Hws ->]%Hc. auto.
  - unfold queue in *. destruct Ho as [->|[-> _]]; [done|]. simpl. lia.
  - unfold queue in *. rewrite Hh. destruct Ho as [->|[-> _]]; [done|]. rewrite app_nil_r.
    etrans; [|exact Hs]. by apply sublist_inserts_r.
  - intros Hb Hws Hlen. destruct Ho as [Ho|[Ho Hb']]; [|exfalso; apply Hb; rewrite (Hb' Hws); set_solver].
    unfold queue. rewrite Ho, Hh. apply Hall; [set_solver|by apply Hc|done].
  - done.
Qed.

Lemma stop_sender_get w m ws :
  dict_ok (_outboxes m) → dict_get ws (_outboxes (_stop_sender w m)) = if decide (ws = w) then None else dict_get ws (_outboxes m).
Proof. intros. unfold _stop_sender. simpl. by apply dict_get_del. Qed.

Lemma stop_sender_task w m ws :
  dict_ok (tasks m) → (is_Some (dict_get ws (tasks m)) → ws ∈ _senders m) →
  is_Some (dict_get ws (tasks (_stop_sender w m))) → ws ∈ _senders (_stop_sender w m).
Proof.
  intros Hd Ht. unfold _stop_sender. simpl. rewrite elem_discard. case_bool_decide as Hw.
  - rewrite dict_get_del by done. destruct (decide (ws = w)); [by intros [? ?]|]. auto.
  - intros Hs. split; [auto|]. intros ->. auto.
Qed.

Lemma stop_sender_man w m : man_ok m → man_ok (_stop_sender w m).
Proof.
  intros [Ho Hp Ht Hc]. split; simpl; [by apply dict_ok_del|done| |done]. case_bool_decide; [by apply dict_ok_del|done].
Qed.

(** A client is dropped: [disconnect] and the end of its session. *)
Lemma drop_ok tr m w l d c :
  quiet l → inv tr m → inv (tr ++ [l]) (set_world d c (drop_client w (_stop_sender w (unbind w m)))).
Proof.
  intros Hl [Hm Hs]. split.
  - destruct (stop_sender_man w (unbind w m)) as [Ho Hp Ht Hc]; [destruct Hm; by split|].
    split; simpl in *; [done|by apply dict_ok_del|done|by apply nodup_discard].
  - intros ws. pose proof Hm as [Ho Hp Ht Hc]. eapply quiet_ok; [done|apply Hs|done|done| | | | |].
    + simpl. intros [Hws Hne]%elem_discard. split; [done|]. by rewrite dict_get_del_ne by congruence.
    + simpl. by intros x [? _]%elem_discard.
    + apply (stop_sender_task w (unbind w m)); [done|]. apply Hs.
    + simpl. rewrite dict_get_del by done. destruct (decide (ws = w)) as [->|]; [right|by left]. split; [done|].
      by intros [_ ?]%elem_discard.
    + simpl. intros Hn. rewrite dict_get_del by done. by destruct (decide (ws = w)).
Qed.

Lemma take_ok tr m w m' : inv tr m → take_message w m = Some m' → inv (tr ++ [Take w]) m'.
Proof.
  unfold take_message. intros [Hm Hs]. destruct (dict_get w (tasks m)) as [[]|] eqn:Ht; [|done..].
  destruct (dict_get w (_outboxes m)) as [[|msg q]|] eqn:Hq; [done| |done]. intros [= <-]. split.
  { destruct Hm. split; simpl; auto with dict. }
  intros ws. destruct (decide (ws = w)) as [->|Hne].
  - destruct (Hs w) as [Ha Hn Hi Hlen Hsub Hall Htask]. split; rewrite ?offered_snoc, ?offer_quiet by done; simpl.
    + done.
    + intros Hws. destruct (Hn Hws) as (? & _). congruence.
    + done.
    + unfold queue in *. simpl. rewrite dict_get_set_eq. rewrite Hq in Hlen. simpl in *. lia.
    + unfold queue, handed_to in *. simpl. rewrite dict_get_set_eq, handed_to_snoc, decide_True by done.
      rewrite Hq in Hsub. simpl in *. by rewrite <- app_assoc.
    + intros Hb Hc Hl. destruct Hall as [_ Heq]; [set_solver|done|done|]. rewrite dict_get_set_eq. split; [done|].
      unfold queue, handed_to in *. simpl. rewrite dict_get_set_eq, handed_to_snoc, decide_True by done.
      rewrite Hq in Heq. simpl in *. by rewrite <- app_assoc.
    + intros _. apply Htask. by rewrite Ht.
  - eapply quiet_ok; [done|apply Hs|done| | | | | |]; simpl.
    + unfold handed_to. simpl. by rewrite handed_to_snoc, decide_False, app_nil_r by congruence.
    + done.
    + done.
    + rewrite dict_get_set_ne by congruence. apply Hs.
    + left. by rewrite dict_get_set_ne by congruence.
    + done.
Qed.

Lemma sent_ok tr m w ok m' : inv tr m → message_sent ok w m = Some m' → inv (tr ++ [SendDone w ok]) m'.
Proof.
  unfold message_sent. intros [Hm Hs]. destruct (dict_get w (tasks m)) as [[]|] eqn:Ht; [done| |done]. intros [= <-]. split.
  { destruct Hm. split; simpl; auto. destruct ok; auto with dict. }
  intros ws. eapply quiet_ok; [done|apply Hs|done|done|done|done| |by left|done]. simpl.
  destruct (decide (ws = w)) as [->|Hne]; [intros _; apply Hs; by rewrite Ht|].
  destruct ok; [rewrite dict_get_set_ne by congruence|rewrite dict_get_del_ne by congruence]; apply Hs.
Qed.

Lemma begin_ok tr m : inv tr m → inv (tr ++ [BeginDisconnect]) (begin_disconnect m).
Proof.
  intros Hi. unfold begin_disconnect.
  assert (Hgen : ∀ l m0, inv (tr ++ [BeginDisconnect]) m0 → inv (tr ++ [BeginDisconnect]) (foldl (λ m ws, _stop_sender ws m) m0 l)).
  { induction l as [|w l IH]; intros m0 [Hm Hs]; simpl; [done|]. apply IH. split; [by apply stop_sender_man|]. intros ws.
    destruct (Hs ws) as [Ha Hn Hid Hlen Hsub Hall Ht]. destruct Hm as [Hok _ Htk _]. split; simpl.
    - done.
    - intros Hws. destruct (Hn Hws) as (H1 & H2 & H3 & H4 & H5 & H6). rewrite elem_discard, dict_get_del by done.
      split_and!; [by destruct (decide _)|done|done|by intros [? _]|done|done].
    - done.
    - unfold queue in *. simpl. rewrite dict_get_del by done. destruct (decide _); [simpl; lia|done].
    - unfold queue, handed_to in *. simpl. rewrite dict_get_del by done. destruct (decide _); [|done].
      simpl. rewrite app_nil_r. etrans; [|exact Hsub]. by apply sublist_inserts_r.
    - intros Hb. exfalso. set_solver.
    - by apply stop_sender_task. }
  apply Hgen. destruct Hi as [Hm Hs]. split; [destruct Hm; by split|]. intros ws.
  eapply quiet_ok; [done|apply Hs|done|done|done|done|apply Hs|by left|done].
Qed.

Lemma quiet_inv tr m l d c : quiet l → inv tr m → inv (tr ++ [l]) (set_world d c m).
Proof.
  intros Hl [Hm Hs]. split; [destruct Hm; by split|]. intros ws.
  eapply quiet_ok; [done|apply Hs|done|done|done|done|apply Hs|by left|done].
Qed.

Lemma connect_ok tr m w identity now remote :
  w ∉ accepted m → inv tr m → inv (tr ++ [Connect w identity now remote]) (connect w identity now remote m).
Proof.
  intros Hw [Hm Hs]. set (m0 := bind w identity m).
  assert (H0 : m0 = m ∨ ∃ d, m0 = set_bound d m).
  { unfold m0, bind. destruct identity as [p|]; [|by left]. case_bool_decide; eauto. }
  assert (Hv : ∀ {A} (f : SocketManager → A), (∀ d, f (set_bound d m) = f m) → f m0 = f m).
  { intros A f Hf. destruct H0 as [->|[d ->]]; auto. }
  unfold connect. fold m0. rewrite (Hv _ _clients), (Hv _ _principals), (Hv _ _outboxes), (Hv _ _senders), (Hv _ tasks),
    (Hv _ accepted), (Hv _ handed) by done.
  assert (Hh : ∀ ws x, handed_to ws {| _bound := _bound m0; _clients := _clients m ++ [w];
      _client_info := dict_set w x (_client_info m0); _principals := match identity with Some p => dict_set w p (_principals m) | None => _principals m end;
      _outboxes := dict_set w [connected_message] (_outboxes m); _senders := _senders m ++ [w]; _next_client_id := _next_client_id m0 + 1;
      tasks := dict_set w Waiting (tasks m); accepted := w :: accepted m; handed := handed m; direct := direct m0; closed := closed m0 |}
      = handed_to ws m) by done.
  destruct (Hs w) as [Ha Hn _ _ _ _ _]. destruct (Hn Hw) as (Ho1 & Hp1 & Hc1 & Hs1 & Hh1 & Hof1). apply Ha in Hw as Hnone.
  split.
  - destruct Hm. split; simpl; auto with dict.
    + destruct identity; auto with dict.
    + apply NoDup_app. split; [done|]. split; [set_solver|apply NoDup_singleton].
  - intros ws. destruct (decide (ws = w)) as [->|Hne].
    + split; rewrite ?offered_snoc; unfold offer; rewrite ?Hnone, ?decide_True by done; simpl.
      * set_solver.
      * set_solver.
      * intros _. destruct identity; [by rewrite dict_get_set_eq|by rewrite Hp1].
      * unfold queue. simpl. rewrite dict_get_set_eq. simpl. unfold MAX_PENDING_EVENTS. lia.
      * unfold queue. simpl. rewrite dict_get_set_eq, Hh, Hh1. done.
      * intros _ _ _. unfold queue. simpl. rewrite dict_get_set_eq, Hh, Hh1. done.
      * set_solver.
    + assert (Hoff : offered ws (tr ++ [Connect w identity now remote]) = offered ws tr).
      { rewrite offered_snoc. unfold offer. destruct (offered ws tr).1; [done|]. by rewrite decide_False by congruence. }
      destruct (Hs ws) as [Ha' Hn' Hi' Hl' Hsub' Hall' Ht']. split; rewrite ?Hoff; simpl.
      * rewrite Ha'. set_solver.
      * intros Hws. destruct Hn' as (H1 & H2 & H3 & H4 & H5 & H6); [set_solver|]. rewrite dict_get_set_ne by congruence.
        split_and!; [done|destruct identity; [by rewrite dict_get_set_ne by congruence|done]|set_solver|set_solver|done|done].
      * intros Hws. destruct identity; rewrite ?dict_get_set_ne by congruence; apply Hi'; set_solver.
      * unfold queue in *. simpl. by rewrite dict_get_set_ne by congruence.
      * rewrite Hh. unfold queue in *. simpl. by rewrite dict_get_set_ne by congruence.
      * intros Hb Hws Hl. rewrite Hh. unfold queue in *. simpl. rewrite dict_get_set_ne by congruence.
        apply Hall'; [set_solver|set_solver|done].
      * rewrite dict_get_set_ne by congruence. intros Hx. apply elem_of_app. left. auto.
Qed.

Lemma publish_ok tr m e check : inv tr m → inv (tr ++ [Publish e check]) (publish_event e check m).
Proof.
  intros [Hm Hs]. destruct (publish_differ e check m) as (Heq & Hd & Hget); [apply Hm|].
  set (m' := publish_event e check m) in *. set (auth := _requires_authentication check) in *.
  assert (Hf : ∀ {A} (f : SocketManager → A), (∀ d, f (set_outboxes d m) = f m) → f m' = f m).
  { intros A f Hf. rewrite Heq. apply Hf. }
  split.
  { destruct Hm as [Ho Hp Ht Hc]. split; [auto|rewrite (Hf _ _principals) by done; done|rewrite (Hf _ tasks) by done; done|
      rewrite (Hf _ _clients) by done; done]. }
  intros ws. destruct (Hs ws) as [Ha Hn Hi Hl Hsub Hall Ht].
  assert (Hh : handed_to ws m' = handed_to ws m) by (by apply (Hf _ (handed_to ws))).
  assert (Hoff : offered ws (tr ++ [Publish e check]) = match (offered ws tr).1 with
    | Some identity => if _receives identity (ev_audience e) auth then ((offered ws tr).1, (offered ws tr).2 ++ [VDict (to_message e)])
                       else offered ws tr
    | None => offered ws tr end) by (by rewrite offered_snoc).
  assert (Hfst : (offered ws (tr ++ [Publish e check])).1 = (offered ws tr).1).
  { rewrite Hoff. destruct (offered ws tr).1 eqn:He; [|done]. by destruct (_receives _ _ _); simpl; rewrite ?He. }
  assert (Hq : queue ws m' = queue ws m ∨ queue ws m' = queue ws m ++ [VDict (to_message e)] ∧
      ws ∈ _clients m ∧ receiver m e auth ws = true ∧ (length (queue ws m) < MAX_PENDING_EVENTS)%nat).
  { unfold queue. rewrite Hget. destruct (decide _) as [[Hc Hr]|]; [|by left]. unfold enqueued.
    destruct (dict_get ws (_outboxes m)) as [q|]; [|by left]. simpl. destruct (Nat.ltb_spec (length q) MAX_PENDING_EVENTS); [|by left].
    right. by split_and!. }
  assert (Hr : ws ∈ _clients m → (offered ws (tr ++ [Publish e check])).2 =
      if receiver m e auth ws then (offered ws tr).2 ++ [VDict (to_message e)] else (offered ws tr).2).
  { intros Hc. rewrite Hoff, (Hi Hc). unfold receiver. by destruct (_receives _ _ _). }
  assert (Hgrow : ∃ k, (offered ws (tr ++ [Publish e check])).2 = (offered ws tr).2 ++ k).
  { rewrite Hoff. destruct (offered ws tr).1; [destruct (_receives _ _ _)|]; eauto; exists []; by rewrite app_nil_r. }
  split; rewrite ?Hfst, ?(Hf _ accepted), ?(Hf _ _clients), ?(Hf _ _principals), ?(Hf _ _senders), ?(Hf _ tasks) by done.
  - done.
  - intros Hws. destruct (Hn Hws) as (H1 & H2 & H3 & H4 & H5 & H6). split_and!; [|done|done|done|congruence|].
    + rewrite Hget, H1. by destruct (decide _).
    + rewrite Hoff. apply Ha in Hws. by rewrite Hws.
  - done.
  - destruct Hq as [->|(-> & _ & _ & Hlt)]; [done|]. rewrite length_app. simpl. lia.
  - rewrite Hh. destruct Hq as [->|(-> & Hc & Hrec & _)].
    + destruct Hgrow as [k ->]. by apply sublist_inserts_r.
    + rewrite (Hr Hc), Hrec. eapply sublist_enqueued; [exact Hsub|by right].
  - intros Hb Hc Hlen. rewrite Hh. rewrite (Hr Hc) in Hlen |- *. destruct (receiver m e auth ws) eqn:Hrec.
    + rewrite length_app in Hlen. simpl in Hlen. destruct Hall as [[q Hsome] Hex]; [set_solver|done|lia|].
      unfold queue. rewrite Hget, decide_True, Hsome by done. simpl. unfold queue in Hex. rewrite Hsome in Hex. simpl in Hex.
      assert (length q < MAX_PENDING_EVENTS)%nat as Hlt.
      { apply (f_equal length) in Hex. rewrite length_app in Hex. lia. }
      apply Nat.ltb_lt in Hlt. rewrite Hlt. split; [done|]. by rewrite app_assoc, Hex.
    + destruct Hall as [Hsome Hex]; [set_solver|done|done|]. unfold queue in *. rewrite Hget, decide_False by (intros [_ ?]; congruence). done.
  - done.
Qed.

Lemma step_ok tr m l m' : inv tr m → ev_step m l m' → inv (tr ++ [l]) m'.
Proof.
  intros Hi Hstep. destruct Hstep as [m ws identity now remote Hw|m ws Hw|m e check|m ws m' Ht|m ws ok m' Ht|m ws result|m msg|m u msg|m|m].
  - by apply connect_ok.
  - change (disconnect ws m) with (set_world (direct (disconnect ws m)) (closed (disconnect ws m)) (disconnect ws m)).
    by apply drop_ok.
  - by apply publish_ok.
  - by apply take_ok with m.
  - by apply sent_ok with m.
  - unfold _check. destruct (result || _); [|by apply drop_ok].
    replace m with (set_world (direct m) (closed m) m) by (by destruct m). by apply quiet_inv.
  - by apply quiet_inv.
  - by apply quiet_inv.
  - by apply begin_ok.
  - destruct Hi as [Hm Hs]. split; [destruct Hm; split; simpl; [done|constructor|done|constructor]|]. intros ws.
    eapply quiet_ok; [done|apply Hs|done|done| |done|apply Hs|by left|done]. by intros ?%elem_of_nil.
Qed.

Lemma new_ok : inv [] new_manager.
Proof.
  split; [split; constructor|]. intros ws. split; simpl; try done; try set_solver.
  - unfold MAX_PENDING_EVENTS. lia.
Qed.

Lemma reachable_ok tr m : ev_steps new_manager tr m → inv tr m.
Proof.
  intros H. remember new_manager as m0 eqn:Hm0. induction H as [m|m tr m1 l m2 _ IH Hl]; [rewrite Hm0; apply new_ok|].
  by eapply step_ok; [apply IH|].
Qed.

(** ** Theorems *)

(** C26: In every run of the manager, whatever connects, ends, is published or fails
    in whatever order: what a socket was sent, followed by what waits for it, is
    in the order of publishing a part of what it was to receive - the greeting
    and the events after it whose audience its caller belonged to.  So no socket
    gets an event it is not in the audience of, none before it connected, none
    twice and none out of order; at most a thousand wait.  And nothing is lost
    while the socket is a client and fewer were published for it than can wait. *)
Theorem event_sockets_deliver tr m ws :
  ev_steps new_manager tr m →
  sublist (handed_to ws m ++ queue ws m) (offered ws tr).2 ∧
  (length (queue ws m) ≤ MAX_PENDING_EVENTS)%nat ∧
  (BeginDisconnect ∉ tr → ws ∈ _clients m → (length (offered ws tr).2 ≤ MAX_PENDING_EVENTS)%nat →
   handed_to ws m ++ queue ws m = (offered ws tr).2).
Proof.
  intros H. destruct (reachable_ok tr m H) as [_ Hs]. destruct (Hs ws) as [_ _ _ Hq Hsub Hall _].
  split_and!; [done|done|]. intros. by apply Hall.
Qed.

Lemma steps_app m1 tr m2 tr' m3 : ev_steps m1 tr m2 → ev_steps m2 tr' m3 → ev_steps m1 (tr ++ tr') m3.
Proof.
  intros H1 H2. induction H2 as [m|m tr' m3 l m4 _ IH Hl]; [by rewrite app_nil_r|].
  rewrite app_assoc. eapply steps_snoc; [by apply IH|done].
Qed.

(** A connection that is over: no sender task, no queue, no client *)
Definition over (ws : nat) (m : SocketManager) : Prop :=
  ws ∈ accepted m ∧ dict_get ws (tasks m) = None ∧ ws ∉ _senders m.

Lemma over_step tr ws m l m' :
  inv tr m → over ws m → ev_step m l m' → over ws m' ∧ handed_to ws m' = handed_to ws m.
Proof.
  intros Hi (Ha & Ht & Hn) Hstep. pose proof (step_ok _ _ _ _ Hi Hstep) as [_ Hs'].
  assert (Hgen : (∀ x, x ∈ _senders m' → x ∈ _senders m ∨ x ≠ ws) → accepted m ⊆ accepted m' →
    handed_to ws m' = handed_to ws m → over ws m' ∧ handed_to ws m' = handed_to ws m).
  { intros Hsend Hacc Hh. split; [|done]. assert (ws ∉ _senders m') by (intros [?|?]%Hsend; done).
    split; [set_solver|]. split; [|done]. destruct (dict_get ws (tasks m')) eqn:Hg; [|done].
    exfalso. by apply H, (ok_task _ _ _ (Hs' ws)). }
  destruct Hstep as [m w identity now remote Hw|m w Hw|m e check|m w m' Htake|m w ok m' Hsent|m w result|m msg|m u msg|m|m];
    apply Hgen; clear Hgen Hs'; simpl; try done.
  - unfold bind. intros x. destruct identity; simpl; [case_bool_decide; simpl|]; rewrite elem_of_app, list_elem_of_singleton;
      (intros [?| ->]; [by left|right; set_solver]).
  - unfold bind. destruct identity; simpl; [case_bool_decide; simpl|]; set_solver.
  - unfold connect, bind. destruct identity; simpl; [case_bool_decide|]; done.
  - intros x [? _]%elem_discard. by left.
  - destruct (publish_differ e check m) as (-> & _); [apply Hi|]. simpl. auto.
  - by destruct (publish_differ e check m) as (-> & _); [apply Hi|].
  - by destruct (publish_differ e check m) as (-> & _); [apply Hi|].
  - unfold take_message in Htake. destruct (dict_get w (tasks m)) as [[]|]; [|done..].
    destruct (dict_get w (_outboxes m)) as [[|]|]; [done| |done]. injection Htake as <-. simpl. auto.
  - unfold take_message in Htake. destruct (dict_get w (tasks m)) as [[]|]; [|done..].
    destruct (dict_get w (_outboxes m)) as [[|]|]; [done| |done]. by injection Htake as <-.
  - unfold take_message in Htake. destruct (dict_get w (tasks m)) as [[]|] eqn:Hw; [|done..].
    destruct (dict_get w (_outboxes m)) as [[|]|]; [done| |done]. injection Htake as <-. unfold handed_to. simpl.
    rewrite handed_to_snoc, decide_False, app_nil_r by congruence. done.
  - unfold message_sent in Hsent. destruct (dict_get w (tasks m)) as [[]|]; [done| |done]. injection Hsent as <-. simpl. auto.
  - unfold message_sent in Hsent. destruct (dict_get w (tasks m)) as [[]|]; [done| |done]. by injection Hsent as <-.
  - unfold message_sent in Hsent. destruct (dict_get w (tasks m)) as [[]|]; [done| |done]. by injection Hsent as <-.
  - unfold _check. destruct (result || _); [auto|]. simpl. intros x [? _]%elem_discard. by left.
  - unfold _check. by destruct (result || _).
  - unfold _check. by destruct (result || _).
  - auto.
  - auto.
  - intros x. unfold begin_disconnect. assert (Hl : ∀ l m0, x ∈ _senders (foldl (λ m ws, _stop_sender ws m) m0 l) → x ∈ _senders m0).
    { induction l as [|y l IH]; intros m0; simpl; [done|]. intros [? _]%IH%elem_discard. done. }
    intros Hx%Hl. by left.
  - unfold begin_disconnect. assert (Hl : ∀ l m0, accepted (foldl (λ m ws, _stop_sender ws m) m0 l) = accepted m0).
    { induction l as [|y l IH]; intros m0; simpl; [done|]. by rewrite IH. }
    by rewrite Hl.
  - unfold begin_disconnect. assert (Hl : ∀ l m0, handed_to ws (foldl (λ m ws, _stop_sender ws m) m0 l) = handed_to ws m0).
    { induction l as [|y l IH]; intros m0; simpl; [done|]. by rewrite IH. }
    by rewrite Hl.
  - auto.
Qed.

(** When the check of a bound socket says that its session ended, the socket is
    closed with 4401 and no event is sent to it any more, whatever happens. *)
Theorem ended_session_silent tr m ws m1 tr' m2 :
  ev_steps new_manager tr m → is_Some (dict_get ws (_bound m)) → ws ∈ accepted m →
  ev_step m (Checked ws false) m1 → ev_steps m1 tr' m2 →
  (ws, CLOSE_SESSION_ENDED) ∈ closed m1 ∧ ws ∉ _clients m1 ∧ handed_to ws m2 = handed_to ws m.
Proof.
  intros Hm Hb Hacc Hcheck Hrest. pose proof (reachable_ok tr m Hm) as Hi. pose proof (step_ok _ _ _ _ Hi Hcheck) as Hi1.
  inversion Hcheck; subst. clear Hcheck. unfold _check in *. cbn [orb] in *.
  assert (Hmem : dict_mem ws (_bound m) = true) by (by apply dict_mem_get). rewrite Hmem in *. cbn [negb] in *. cbv iota in *.
  set (m1 := set_world _ _ _) in *.
  assert (Hover : over ws m1).
  { assert (Hns : ws ∉ _senders m1) by (simpl; by intros [_ ?]%elem_discard). split; [done|]. split; [|done].
    destruct (dict_get ws (tasks m1)) eqn:Ht; [|done]. exfalso. destruct Hi1 as [_ Hs]. by apply Hns, (ok_task _ _ _ (Hs ws)). }
  split; [simpl; set_solver|]. split; [simpl; by intros [_ ?]%elem_discard|].
  assert (Hh : handed_to ws m1 = handed_to ws m) by done. rewrite <- Hh.
  clearbody m1. clear Hh Hmem Hm Hi Hb Hacc m. revert tr Hi1.
  induction Hrest as [m|m tr' m3 l m4 Hr IH Hl]; intros tr Hi1; [done|].
  assert (Hgen : ∀ mid k, ev_steps m k mid → ∃ tr0, inv tr0 mid ∧ over ws mid).
  { clear IH Hl Hr. induction 1 as [m0|m0 k m5 l' m6 _ IH' Hl']; [by eexists|].
    destruct IH' as (tr0 & Hi0 & Ho0); [done|exact Hi1|]. exists (tr0 ++ [l']). split; [by eapply step_ok|].
    by eapply over_step. }
  destruct (Hgen m3 tr' Hr) as (tr0 & Hi0 & Ho0). destruct (over_step _ _ _ _ _ Hi0 Ho0 Hl) as [_ ->]. by eapply IH.
Qed.

(** * A socket that hears two events and is closed when its session ends *)

Definition ann : Principal :=
  {| pr_user := Some {| su_id := Some "u1"; su_name := Some "ann" |}; pr_session := Some "s1"; pr_can := None |}.
Definition event (type : string) (audience : CliEventAudience) : CliEvent :=
  {| ev_type := type; ev_timestamp := "2024-01-01T00:00:00Z"; ev_data := []; ev_audience := audience |}.
Definition to_all : CliEvent := event "jobs:started" everyone.
Definition to_other : CliEvent := event "users:changed" (Audience None (Some "u2")).

Definition labels : list ev_label :=
  [Connect 1 (Some ann) "2024-01-01T00:00:00Z" None; Publish to_all None; Publish to_other None; Take 1].
Definition after_connect : SocketManager := Eval vm_compute in connect 1 (Some ann) "2024-01-01T00:00:00Z" None new_manager.
Definition after_events : SocketManager :=
  Eval vm_compute in publish_event to_other None (publish_event to_all None after_connect).
Definition heard : SocketManager := Eval vm_compute in default after_events (take_message 1 after_events).

Lemma labels_run : ev_steps new_manager labels heard.
Proof.
  apply (steps_snoc _ [Connect 1 (Some ann) "2024-01-01T00:00:00Z" None; Publish to_all None; Publish to_other None] after_events).
  2: { apply step_take. reflexivity. }
  apply (steps_snoc _ [Connect 1 (Some ann) "2024-01-01T00:00:00Z" None; Publish to_all None] (publish_event to_all None after_connect)).
  2: { exact (step_publish (publish_event to_all None after_connect) to_other None). }
  apply (steps_snoc _ [Connect 1 (Some ann) "2024-01-01T00:00:00Z" None] after_connect).
  2: { exact (step_publish after_connect to_all None). }
  apply (steps_snoc _ [] new_manager); [apply steps_nil|]. exact (step_connect new_manager 1 (Some ann) "2024-01-01T00:00:00Z" None (not_elem_of_nil 1%nat)).
Qed.

Lemma event_sockets_deliver_witness :
  handed_to 1 heard ++ queue 1 heard = [connected_message; VDict (to_message to_all)].
Proof.
  destruct (event_sockets_deliver labels heard 1 labels_run) as (_ & _ & H). rewrite H; [reflexivity| | |].
  - unfold labels. rewrite !elem_of_cons, elem_of_nil. intros [?|[?|[?|[?|[]]]]]; discriminate.
  - apply (bool_decide_unpack _). vm_compute. exact I.
  - apply (bool_decide_unpack _). vm_compute. exact I.
Defined.

Lemma ended_session_silent_witness :
  let m1 := _check 1 false heard in
  closed m1 = [(1%nat, 4401)] ∧ handed_to 1 (broadcast_message (VDict []) (publish_event to_all None m1)) = [connected_message].
Proof.
  intros m1. split; [reflexivity|].
  refine (proj2 (proj2 (ended_session_silent labels heard 1 m1 [Publish to_all None; Broadcast (VDict [])] _ labels_run _ _ _ _))).
  - exists ann. reflexivity.
  - apply (bool_decide_unpack _). vm_compute. exact I.
  - apply step_checked.
  - apply (steps_snoc _ [Publish to_all None] (publish_event to_all None m1)); [|apply step_broadcast].
    apply (steps_snoc _ [] m1); [apply steps_nil|apply step_publish].
Defined.
