(* ===== verification/ShellProcs.v ===== *)
(** * The processes of a shell ([core/services/cli_shell_session_manager.py])

    Which processes the server signals when a shell closes.  What the operating
    system shows at one moment is an [OsView]: the files of [/proc] that could be
    read, or the output of [ps]. *)

From stdpp Require Import relations.
From S2P Require Import Prelude PyStr Values.
From Stdlib Require Import Ascii.

Definition SHELL_ID_ENV : string := "QCLI_SHELL_ID".

Record ProcInfo := { pid : Z; ppid : Z; pgid : Z; sid : option Z }.

(** ** Parsing *)

(** [text[text.rfind(")") + 1:]]; [None]: there is none *)
Fixpoint after_last_paren (l : list ascii) : option (list ascii) :=
  match l with
  | [] => None
  | c :: l =>
      match after_last_paren l with
      | Some r => Some r
      | None => if Ascii.eqb c ")"%char then Some l else None
      end
  end.

Definition _parse_proc_stat (p : Z) (text : string) : option ProcInfo :=
  match after_last_paren (chars text) with
  | None => None
  | Some rest =>
      match split_ws (str rest) with
      | _ :: a :: b :: c :: _ =>
          match py_int a, py_int b, py_int c with
          | Some a, Some b, Some c => Some {| pid := p; ppid := a; pgid := b; sid := Some c |}
          | _, _, _ => None
          end
      | _ => None
      end
  end.

(** [s.isdigit()]: the digits and the three superscripts *)
Definition is_digit_char (c : ascii) : bool :=
  let n := N_of_ascii c in is_digit c || ((n =? 178) || (n =? 179) || (n =? 185))%N.
Definition isdigit (s : string) : bool := negb (is_empty s) && forallb is_digit_char (chars s).

(** [out.splitlines()] *)
Definition is_line_end (c : ascii) : bool :=
  let n := N_of_ascii c in ((10 <=? n) && (n <=? 13) || (28 <=? n) && (n <=? 30) || (n =? 133))%N.
Fixpoint lines_chars (cur : list ascii) (l : list ascii) : list (list ascii) :=
  match l with
  | [] => nonempty_word cur
  | c :: l =>
      if is_line_end c then
        match l with
        | d :: l' =>
            if Ascii.eqb c (ascii_of_nat 13) && Ascii.eqb d (ascii_of_nat 10) then cur :: lines_chars [] l'
            else cur :: lines_chars [] l
        | [] => [cur]
        end
      else lines_chars (cur ++ [c]) l
  end.
Definition splitlines (s : string) : list string := map str (lines_chars [] (chars s)).

(** [None]: [int] raised [ValueError] on a superscript. *)
Fixpoint ps_rows (lines : list string) : option (list ProcInfo) :=
  match lines with
  | [] => Some []
  | line :: lines =>
      match split_ws line with
      | [a; b; c] =>
          if isdigit a && isdigit b && isdigit c then
            match py_int a, py_int b, py_int c, ps_rows lines with
            | Some a, Some b, Some c, Some rows => Some ({| pid := a; ppid := b; pgid := c; sid := None |} :: rows)
            | _, _, _, _ => None
            end
          else ps_rows lines
      | _ => ps_rows lines
      end
  end.
Definition _parse_ps_table (out : string) : option (list ProcInfo) := ps_rows (splitlines out).

Definition _environ_has_marker (environ shell_id : string) : bool :=
  bool_decide (SHELL_ID_ENV +:+ "=" +:+ shell_id ∈ split zero environ).

Fixpoint marked_rows (token : string) (lines : list string) : option (list Z) :=
  match lines with
  | [] => Some []
  | line :: lines =>
      match split_ws line with
      | p :: ((_ :: _) as rest) =>
          if isdigit p && bool_decide (token ∈ rest) then
            match py_int p, marked_rows token lines with
            | Some p, Some ps => Some (p :: ps)
            | _, _ => None
            end
          else marked_rows token lines
      | _ => marked_rows token lines
      end
  end.
Definition _ps_marked_pids (out shell_id : string) : option (list Z) :=
  marked_rows (SHELL_ID_ENV +:+ "=" +:+ shell_id) (splitlines out).

(** ** What the operating system shows *)

Record OsView := {
  has_proc : bool;
  stat_files : list (Z * option string);
  environ_files : list (Z * option string);
  ps_table : string;
  ps_environ : string;
  own_pid : Z;
  own_group : Z;
}.

Definition _list_processes (os : OsView) : option (list ProcInfo) :=
  if has_proc os then
    Some (omap (λ f, match f with (p, Some text) => _parse_proc_stat p text | (_, None) => None end) (stat_files os))
  else _parse_ps_table (ps_table os).

Definition _marked_pids (os : OsView) (shell_id : string) : option (list Z) :=
  if has_proc os then
    Some (omap (λ f, match f with
                     | (p, Some environ) => if _environ_has_marker environ shell_id then Some p else None
                     | (_, None) => None
                     end) (environ_files os))
  else _ps_marked_pids (ps_environ os) shell_id.

(** ** Descendants *)

Definition children (procs : list ProcInfo) (p : Z) : list Z :=
  map pid (List.filter (λ x, ppid x =? p) procs).

(** One child of the process taken from the stack; the stack's top is its head. *)
Definition see (st : list Z * list Z * list Z) (child : Z) : list Z * list Z * list Z :=
  let '(seen, result, stack) := st in
  if bool_decide (child ∈ seen) then st else (child :: seen, result ++ [child], child :: stack).

Fixpoint descend (fuel : nat) (procs : list ProcInfo) (seen result stack : list Z) : option (list Z) :=
  match stack with
  | [] => Some result
  | p :: stack =>
      match fuel with
      | O => None
      | S fuel =>
          let '(seen, result, stack) := foldl see (seen, result, stack) (children procs p) in
          descend fuel procs seen result stack
      end
  end.
Definition _descendants (procs : list ProcInfo) (root : Z) : option (list Z) :=
  descend (S (length procs)) procs [root] [] [root].

(** ** Targets *)

(** A set, as a list; [None] is [ValueError] of the parser of [ps]. *)
Definition _collect_targets (os : OsView) (p : Z) (shell_id : option string) (include_tree : bool) : option (list Z) :=
  procs ← _list_processes os;
  tree ← (if include_tree then l ← _descendants procs p; Some (l ++ [p]) else Some []);
  let members := map pid (List.filter (λ x, (pgid x =? p) || bool_decide (sid x = Some p)) procs) in
  marked ← (match shell_id with
            | Some i => if is_empty i then Some [] else _marked_pids os i
            | None => Some []
            end);
  let own_members := map pid (List.filter (λ x, pgid x =? own_group os) procs) in
  Some (remove_dups (List.filter (λ t, (1 <? t) && negb (t =? own_pid os) && negb (bool_decide (t ∈ own_members)))
                       (tree ++ members ++ marked))).

(** ** Signals *)

Inductive signal := SIGHUP | SIGTERM | SIGKILL.
Inductive sent := Kill (p : Z) (s : signal) | KillPg (g : Z) (s : signal).

Definition _signal_pid (os : OsView) (p : Z) (s : signal) : list sent :=
  if (p <=? 1) || (p =? own_pid os) then [] else [Kill p s].
(** [refused]: [killpg] raised [ProcessLookupError] or [PermissionError]. *)
Definition _signal_group (os : OsView) (p : Z) (s : signal) (fallback_to_pid refused : bool) : list sent :=
  if (p <=? 1) || (p =? own_group os) then []
  else KillPg p s :: (if refused && fallback_to_pid then _signal_pid os p s else []).
Definition signal_all (os : OsView) (p : Z) (targets : list Z) (reaped refused : bool) (s : signal) : list sent :=
  _signal_group os p s (negb reaped) refused ++
  concat (map (λ t, if reaped && (t =? p) then [] else _signal_pid os t s) targets).

(** What [_terminate] sees: whether the shell had exited at the start; the
    processes, once at the start and once after the grace period; whether the
    shell had exited by then, and which processes lived.  [refused] are the three
    calls of [killpg]. *)
Record Termination := {
  exit_watched : bool;
  exited : bool;
  first_view : OsView;
  second_view : OsView;
  exited_later : bool;
  alive : Z → bool;
  refused : bool * bool * bool;
}.

(** The signals sent or tried, in order; a list of processes that cannot be collected
    ends it. *)
Definition _terminate (p : Z) (shell_id : option string) (t : Termination) : option (list sent) :=
  targets ← _collect_targets (first_view t) p shell_id (negb (exit_watched t && exited t));
  let reaped := exit_watched t && exited t in
  let '(r1, r2, r3) := refused t in
  let first := signal_all (first_view t) p targets reaped r1 SIGHUP ++ signal_all (first_view t) p targets reaped r2 SIGTERM in
  let reaped := exit_watched t && exited_later t in
  more ← _collect_targets (second_view t) p shell_id (negb reaped);
  let targets := targets ++ List.filter (λ q, negb (bool_decide (q ∈ targets))) more in
  if negb reaped || existsb (λ q, negb (q =? p) && alive t q) targets
  then Some (first ++ signal_all (second_view t) p targets reaped r3 SIGKILL)
  else Some first.

(** * Which processes a closing shell takes with it *)

Open Scope Z_scope.

(** ** The search for descendants *)

Definition child_of (procs : list ProcInfo) (p c : Z) : Prop := ∃ x, x ∈ procs ∧ ppid x = p ∧ pid x = c.

Lemma elem_children procs p c : c ∈ children procs p ↔ child_of procs p c.
Proof.
  unfold children, child_of. rewrite list_elem_of_In, in_map_iff. setoid_rewrite filter_In. setoid_rewrite list_elem_of_In.
  setoid_rewrite Z.eqb_eq. naive_solver.
Qed.

Lemma fold_see cs seen result stack :
  ∃ new, foldl see (seen, result, stack) cs = (rev new ++ seen, result ++ new, rev new ++ stack) ∧
    NoDup new ∧ (∀ x, x ∈ new → x ∈ cs ∧ x ∉ seen) ∧ (∀ x, x ∈ cs → x ∈ seen ∨ x ∈ new).
Proof.
  revert seen result stack. induction cs as [|c cs IH]; intros seen result stack; simpl.
  { exists []. rewrite app_nil_r. split_and!; [done|constructor|by intros ? ?%elem_of_nil|by intros ? ?%elem_of_nil]. }
  case_bool_decide as Hc.
  - destruct (IH seen result stack) as (new & -> & Hn & Hin & Hall). exists new. split_and!; [done|done|set_solver|set_solver].
  - destruct (IH (c :: seen) (result ++ [c]) (c :: stack)) as (new & -> & Hn & Hin & Hall). exists (c :: new). simpl.
    rewrite <- !app_assoc. split_and!; [done| | |].
    + constructor; [|done]. intros [_ ?]%Hin. set_solver.
    + intros x [->|[? ?]%Hin]%elem_of_cons; set_solver.
    + set_solver.
Qed.

(** The pids not seen yet *)
Definition unseen (procs : list ProcInfo) (seen : list Z) : list Z :=
  List.filter (λ x, negb (bool_decide (x ∈ seen))) (remove_dups (map pid procs)).

Lemma elem_unseen procs seen x : x ∈ unseen procs seen ↔ x ∈ map pid procs ∧ x ∉ seen.
Proof.
  unfold unseen. rewrite list_elem_of_In, filter_In, negb_true_iff, bool_decide_eq_false, <- list_elem_of_In.
  by rewrite elem_of_remove_dups.
Qed.

Lemma unseen_nodup procs seen : NoDup (unseen procs seen).
Proof. apply NoDup_ListNoDup, List.NoDup_filter, NoDup_ListNoDup, NoDup_remove_dups. Qed.

Lemma unseen_new procs seen new :
  NoDup new → (∀ x, x ∈ new → x ∈ map pid procs ∧ x ∉ seen) →
  (length (unseen procs (rev new ++ seen)) + length new ≤ length (unseen procs seen))%nat.
Proof.
  intros Hn Hnew. rewrite <- length_app. apply submseteq_length, NoDup_submseteq.
  - apply NoDup_app. split; [apply unseen_nodup|]. split; [|done]. intros x [_ Hx]%elem_unseen Hin. apply Hx.
    rewrite elem_of_app, list_elem_of_In, <- in_rev, <- list_elem_of_In. by left.
  - intros x. rewrite elem_of_app, !elem_unseen, elem_of_app. intros [[? Hx]|[? ?]%Hnew]; [|done]. split; [done|]. tauto.
Qed.

Lemma child_pid procs p c : child_of procs p c → c ∈ map pid procs.
Proof. intros (x & Hx & _ & <-). rewrite list_elem_of_In. apply in_map. by apply list_elem_of_In. Qed.

Record search (procs : list ProcInfo) (root : Z) (seen result stack : list Z) : Prop := {
  seen_are : ∀ x, x ∈ seen ↔ x = root ∨ x ∈ result;
  root_out : root ∉ result;
  once : NoDup result;
  stack_seen : ∀ x, x ∈ stack → x ∈ seen;
  sound : ∀ x, x ∈ seen → rtc (child_of procs) root x;
  done_with : ∀ x c, x ∈ seen → x ∉ stack → child_of procs x c → c ∈ seen;
}.

Lemma closed_reach procs root (seen : list Z) x :
  root ∈ seen → (∀ y c, y ∈ seen → child_of procs y c → c ∈ seen) → rtc (child_of procs) root x → x ∈ seen.
Proof. intros Hroot Hclosed Hr. revert x Hr. apply rtc_ind_r; [done|]. intros y z _ Hyz Hy. by apply (Hclosed y z). Qed.

Lemma descend_spec fuel procs root seen result stack :
  search procs root seen result stack → (length (unseen procs seen) + length stack ≤ fuel)%nat →
  ∃ l, descend fuel procs seen result stack = Some l ∧ NoDup l ∧
    ∀ x, x ∈ l ↔ x ≠ root ∧ rtc (child_of procs) root x.
Proof.
  revert seen result stack. induction fuel as [|fuel IH]; intros seen result stack Hs Hf.
  all: destruct stack as [|p stack]; simpl; [|try (simpl in Hf; lia)].
  1, 2: exists result; destruct Hs as [Hseen Hroot Honce _ Hsound Hdone]; split; [done|split; [done|]]; intros x; split;
    [intros Hx; split; [by intros ->|apply Hsound, Hseen; by right]|]; intros [Hne Hr];
    assert (Hin : x ∈ seen) by (apply (closed_reach procs root); [apply Hseen; by left|
      intros y c ? ?; by apply (Hdone y c); [done|by intros ?%elem_of_nil|]|done]);
    apply Hseen in Hin as [?|?]; done.
  destruct (fold_see (children procs p) seen result stack) as (new & -> & Hn & Hnew & Hall).
  assert (Hnew' : ∀ x, x ∈ new → child_of procs p x ∧ x ∉ seen).
  { intros x [Hx ?]%Hnew. by rewrite elem_children in Hx. }
  assert (Hrev : ∀ x, x ∈ rev new ↔ x ∈ new) by (intros x; by rewrite !list_elem_of_In, <- in_rev).
  apply IH.
  - destruct Hs as [Hseen Hroot Honce Hstack Hsound Hdone]. split.
    + intros x. rewrite !elem_of_app, Hrev, Hseen. tauto.
    + rewrite elem_of_app. intros [?|[_ Hx]%Hnew]; [done|]. apply Hx, Hseen. by left.
    + apply NoDup_app. split; [done|]. split; [|done]. intros x Hx [_ Hns]%Hnew. apply Hns, Hseen. by right.
    + intros x. rewrite !elem_of_app. intros [?|?]; [by left|]. right. apply Hstack. by right.
    + intros x. rewrite elem_of_app, Hrev. intros [[Hc _]%Hnew'|Hx]; [|by apply Hsound].
      eapply rtc_r; [|exact Hc]. apply Hsound, Hstack. by left.
    + intros x c. rewrite !elem_of_app, !Hrev. intros Hx Hns Hxc.
      destruct (decide (x = p)) as [->|Hne].
      * apply elem_children, Hall in Hxc as [?|?]; auto.
      * right. apply (Hdone x c); [tauto| |done]. intros [->|?]%elem_of_cons; tauto.
  - pose proof (unseen_new procs seen new Hn) as Hu. rewrite length_app, length_rev. simpl in Hf.
    assert (length (unseen procs (rev new ++ seen)) + length new ≤ length (unseen procs seen))%nat; [|lia].
    apply Hu. intros x [Hc Hx]%Hnew'. split; [by eapply child_pid|done].
Qed.

(** The search always ends, and finds exactly the processes below the given one
    in the tree of parents, each once; a cycle in what the system shows does no
    harm. *)
Lemma descendants_ok procs root :
  ∃ l, _descendants procs root = Some l ∧ NoDup l ∧ ∀ x, x ∈ l ↔ x ≠ root ∧ rtc (child_of procs) root x.
Proof.
  apply descend_spec.
  - split.
    + intros x. rewrite list_elem_of_singleton, elem_of_nil. tauto.
    + by intros ?%elem_of_nil.
    + constructor.
    + done.
    + intros x ->%list_elem_of_singleton. constructor.
    + intros x c ->%list_elem_of_singleton Hx. exfalso. apply Hx. by left.
  - simpl. assert (length (unseen procs [root]) ≤ length procs)%nat; [|lia].
    rewrite <- (length_map pid procs). apply submseteq_length, NoDup_submseteq; [apply unseen_nodup|].
    by intros x [? _]%elem_unseen.
Qed.

(** ** Targets *)

(** A process belongs to a shell by the tree, the group, the session or the
    marker. *)
Definition belongs (os : OsView) (procs : list ProcInfo) (p : Z) (shell_id : option string) (include_tree : bool) (t : Z) : Prop :=
  (include_tree = true ∧ rtc (child_of procs) p t) ∨
  (∃ x, x ∈ procs ∧ pid x = t ∧ (pgid x = p ∨ sid x = Some p)) ∨
  (∃ i marked, shell_id = Some i ∧ i ≠ "" ∧ _marked_pids os i = Some marked ∧ t ∈ marked).

(** The server's own process and group *)
Definition own (os : OsView) (procs : list ProcInfo) (t : Z) : Prop :=
  t ≤ 1 ∨ t = own_pid os ∨ ∃ x, x ∈ procs ∧ pid x = t ∧ pgid x = own_group os.

Lemma elem_pids (f : ProcInfo → bool) procs t : t ∈ map pid (List.filter f procs) ↔ ∃ x, x ∈ procs ∧ pid x = t ∧ f x = true.
Proof.
  rewrite list_elem_of_In, in_map_iff. setoid_rewrite filter_In. setoid_rewrite list_elem_of_In. naive_solver.
Qed.

(** The targets of a closing shell are exactly the processes that belong to it,
    less the server itself, its group and the first process of the system. *)
Theorem collect_targets_spec os p shell_id include_tree targets :
  _collect_targets os p shell_id include_tree = Some targets →
  ∃ procs, _list_processes os = Some procs ∧
    ∀ t, t ∈ targets ↔ belongs os procs p shell_id include_tree t ∧ ¬ own os procs t.
Proof.
  unfold _collect_targets. destruct (_list_processes os) as [procs|]; [|done]. cbn [mbind option_bind].
  destruct (descendants_ok procs p) as (l & -> & _ & Hl). cbn [mbind option_bind].
  assert (Htree : ∃ tree, (if include_tree then Some (l ++ [p]) else Some []) = Some tree ∧
    ∀ t, t ∈ tree ↔ include_tree = true ∧ rtc (child_of procs) p t).
  { destruct include_tree; eexists; (split; [done|]); intros t; [|by rewrite elem_of_nil; naive_solver].
    rewrite elem_of_app, Hl, list_elem_of_singleton. split.
    - intros [[_ ?]| ->]; [done|]. split; [done|constructor].
    - intros [_ Hr]. destruct (decide (t = p)); auto. }
  destruct Htree as (tree & -> & Htree). cbn [mbind option_bind].
  destruct (match shell_id with Some i => _ | None => _ end) as [marked|] eqn:Hm; [|done]. cbn [mbind option_bind].
  intros [= <-]. exists procs. split; [done|]. intros t.
  assert (Hmarked : t ∈ marked ↔ ∃ i marked, shell_id = Some i ∧ i ≠ "" ∧ _marked_pids os i = Some marked ∧ t ∈ marked).
  { destruct shell_id as [i|]; [|injection Hm as <-; rewrite elem_of_nil; naive_solver].
    unfold is_empty in Hm. case_bool_decide; [injection Hm as <-; rewrite elem_of_nil; naive_solver|naive_solver]. }
  rewrite elem_of_remove_dups, list_elem_of_In, filter_In, <- list_elem_of_In, !andb_true_iff, !negb_true_iff, Z.ltb_lt, Z.eqb_neq,
    bool_decide_eq_false, !elem_of_app, !elem_pids, Htree, Hmarked.
  unfold belongs, own. setoid_rewrite orb_true_iff. setoid_rewrite Z.eqb_eq. setoid_rewrite bool_decide_eq_true.
  split; [intros [Hin [[H1 H2] H3]]|intros [Hin Hno]]; (split; [tauto|]); [|split; [split|]]; intros; naive_solver lia.
Qed.

(** ** Signals *)

(** A signal that cannot hit the server, its group or the first process. *)
Definition spares_server (os : OsView) (s : sent) : Prop :=
  match s with Kill q _ => 1 < q ∧ q ≠ own_pid os | KillPg g _ => 1 < g ∧ g ≠ own_group os end.

Lemma signal_pid_spares os q s x : x ∈ _signal_pid os q s → spares_server os x.
Proof.
  unfold _signal_pid. destruct (Z.leb_spec q 1); simpl; [by intros ?%elem_of_nil|].
  destruct (Z.eqb_spec q (own_pid os)); simpl; [by intros ?%elem_of_nil|]. intros ->%list_elem_of_singleton. by split.
Qed.

Lemma signal_all_spares os p targets reaped refused s x :
  x ∈ signal_all os p targets reaped refused s → spares_server os x.
Proof.
  unfold signal_all. rewrite elem_of_app. intros [Hx|Hx].
  - unfold _signal_group in Hx. destruct (Z.leb_spec p 1); simpl in Hx; [by apply elem_of_nil in Hx|].
    destruct (Z.eqb_spec p (own_group os)); simpl in Hx; [by apply elem_of_nil in Hx|].
    apply elem_of_cons in Hx as [->|Hx]; [by split|]. destruct (refused && _); [by eapply signal_pid_spares|by apply elem_of_nil in Hx].
  - apply list_elem_of_In, in_concat in Hx as (l & Hl%in_map_iff & Hx%list_elem_of_In). destruct Hl as (q & <- & _).
    destruct (reaped && _); [by apply elem_of_nil in Hx|by eapply signal_pid_spares].
Qed.

Lemma signal_all_reaches os p targets reaped refused s q :
  q ∈ targets → q ≠ p → 1 < q → q ≠ own_pid os → Kill q s ∈ signal_all os p targets reaped refused s.
Proof.
  intros Hq Hp H1 H2. unfold signal_all. apply elem_of_app. right. apply list_elem_of_In, in_concat.
  exists (_signal_pid os q s). split.
  - apply in_map_iff. exists q. split; [|by apply list_elem_of_In]. rewrite (proj2 (Z.eqb_neq q p) Hp). by rewrite andb_false_r.
  - unfold _signal_pid. rewrite (proj2 (Z.leb_gt q 1)), (proj2 (Z.eqb_neq q _)) by done. by left.
Qed.

