(* ===== verification/Shell.v ===== *)
(** * Shell sessions ([core/shell_security.py], [core/services/cli_shell_session_manager.py])

    Who may open a shell, how many there are, when one is closed and what its
    process sees of the server's environment.  A time is in microseconds.  The
    pseudo-terminal itself is the operating system's; its processes are in
    [ShellProcs.v]. *)

From S2P Require Import Prelude PyStr Values Http.
From Stdlib Require Import Ascii.

(** ** Options and modes *)

Definition CLOSE_UNAUTHORIZED : Z := 4401.
Definition CLOSE_FORBIDDEN : Z := 4403.
Definition CLOSE_DISABLED : Z := 4404.
Definition CLOSE_TIMEOUT : Z := 4408.
Definition CLOSE_LIMIT : Z := 4429.
Definition REASON_LOGIN_REQUIRED : string := "login required".
Definition REASON_SESSION_ENDED : string := "session ended".
Definition REASON_FORBIDDEN : string := "forbidden".
Definition REASON_DISABLED : string := "shell disabled".
Definition REASON_LOCKED : string := "shell access is not configured".
Definition REASON_TIMEOUT : string := "shell timed out".
Definition REASON_LIMIT : string := "too many shell sessions".
Definition END_EXITED : string := "exited".
Definition END_CLOSED : string := "closed".
Definition END_SESSION_ENDED : string := "session ended".
Definition END_TIMED_OUT : string := "shell timed out".
Definition END_SHUTDOWN : string := "server shutdown".
Definition END_ERROR : string := "error".

Definition BASE_ENV_NAMES : list string := ["PATH"; "HOME"; "USER"; "LANG"].
Definition seconds (n : Z) : Z := n * 1000000.
Definition MAX_SESSION_CHECK_INTERVAL : Z := seconds 60.
Definition DEFAULT_SESSION_CHECK_INTERVAL : Z := seconds 30.
Definition TOUCH_INTERVAL : Z := seconds 30.

Record CliShellOptions := {
  sh_token : option string;
  has_authorize : bool;
  allow_anonymous : bool;
  max_sessions_per_user : Z;
  max_sessions : Z;
  idle_timeout : option Z;
  max_duration : option Z;
  sh_cwd : option string;
  sh_shell : option string;
  env_allow : list string;
  env_set : dict string string;
  session_check_interval : option Z;
  sh_trust_proxy : bool + Z;
}.
Definition default_shell_options : CliShellOptions :=
  {| sh_token := None; has_authorize := false; allow_anonymous := false; max_sessions_per_user := 3; max_sessions := 20;
     idle_timeout := Some (seconds (15 * 60)); max_duration := None; sh_cwd := None; sh_shell := None; env_allow := [];
     env_set := []; session_check_interval := Some DEFAULT_SESSION_CHECK_INTERVAL; sh_trust_proxy := inl false |}.

Inductive mode := MODE_USERS | MODE_TOKEN | MODE_CUSTOM | MODE_ANONYMOUS | MODE_LOCKED.
#[export] Instance mode_eq_dec : EqDecision mode.
Proof. solve_decision. Defined.

Definition resolve_mode (o : CliShellOptions) (has_provider : bool) : mode :=
  if has_provider then MODE_USERS
  else if truthy_opt (sh_token o) then MODE_TOKEN
  else if has_authorize o then MODE_CUSTOM
  else if allow_anonymous o then MODE_ANONYMOUS
  else MODE_LOCKED.

(** [CliShellSessionManager.session_check_interval] *)
Definition check_interval (o : CliShellOptions) : Z :=
  match session_check_interval o with
  | Some v => if v <=? 0 then DEFAULT_SESSION_CHECK_INTERVAL else Z.min v MAX_SESSION_CHECK_INTERVAL
  | None => DEFAULT_SESSION_CHECK_INTERVAL
  end.

(** ** Tokens *)

(** What the checks read of an upgrade. *)
Record ShellSocket := {
  authorization_header : option string;
  header_parameter : option string;   (* the query parameter [_header_Authorization] *)
  forwarded_for : list string;
  peer : option string;
  cols_param : option string;
  rows_param : option string;
  cmd_param : option string;
}.

Definition presented_token (w : ShellSocket) : option string :=
  let value := if truthy_opt (authorization_header w) then authorization_header w else header_parameter w in
  match value with
  | None => None
  | Some v =>
      if is_empty v then None
      else
        let v := strip v in
        if bool_decide (lower (take_str 7 v) = "bearer ") then
          let t := strip (drop_str 7 v) in if is_empty t then None else Some t
        else None
  end.

Inductive shell_exn := ShellRejected (code : Z) (reason : string) | ShellExn (msg : string) | ShellCancelled.

Section Access.
Context {World : Type}.
Abbreviation method := (py World shell_exn).
(** [hashlib.sha256] *)
Context (sha256 : string → string).
(** The host's check, and the auth plugin's access provider, of principals [P] *)
Context {P : Type} (authorize : ShellSocket → method bool).

Record ShellAccessProvider := {
  resolve : ShellSocket → method (option P);
  can_open : P → bool;
  is_active : P → method (bool + string);
  touch : P → method unit;
  sp_audit : string → P → dict string pyval → method unit;
}.
Context (provider : option ShellAccessProvider) (o : CliShellOptions).

Definition tokens_equal (presented expected : string) : bool := bool_decide (sha256 presented = sha256 expected).

Definition check_token (w : ShellSocket) (expected : string) : method unit :=
  match presented_token w with
  | None => raise (ShellRejected CLOSE_UNAUTHORIZED REASON_LOGIN_REQUIRED)
  | Some presented =>
      raise_if (negb (tokens_equal presented expected)) (ShellRejected CLOSE_FORBIDDEN REASON_FORBIDDEN)
  end.

(** [except Exception]: not of a cancellation *)
Definition except_any {A} (m : method A) (h : method A) : method A :=
  try_except m (λ e, match e with ShellCancelled => raise ShellCancelled | _ => h end).

Definition check_authorize (w : ShellSocket) : method unit :=
  ok ← except_any (authorize w) (raise (ShellRejected CLOSE_FORBIDDEN REASON_FORBIDDEN));
  raise_if (negb ok) (ShellRejected CLOSE_FORBIDDEN REASON_FORBIDDEN).

Definition remote_address (w : ShellSocket) : string :=
  match forwarded_client_ip (forwarded_for w) (sh_trust_proxy o) with
  | Some ip => ip
  | None => if truthy_opt (peer w) then or_empty (peer w) else "unknown"
  end.

(** The token and the host's check, as far as they are configured *)
Definition extra_checks (w : ShellSocket) : method unit :=
  _ ← (if truthy_opt (sh_token o) then check_token w (or_empty (sh_token o)) else mret tt);
  if has_authorize o then check_authorize w else mret tt.

Definition _authorize (w : ShellSocket) : method (mode * option P) :=
  match provider with
  | Some pr =>
      principal ← except_any (resolve pr w) (mret None);
      match principal with
      | None => raise (ShellRejected CLOSE_UNAUTHORIZED REASON_LOGIN_REQUIRED)
      | Some p =>
          if can_open pr p then (_ ← extra_checks w; mret (MODE_USERS, Some p))
          else raise (ShellRejected CLOSE_FORBIDDEN REASON_FORBIDDEN)
      end
  | None =>
      match resolve_mode o false with
      | MODE_LOCKED => raise (ShellRejected CLOSE_UNAUTHORIZED REASON_LOCKED)
      | MODE_ANONYMOUS => mret (MODE_ANONYMOUS, None)
      | m => _ ← extra_checks w; mret (m, None)
      end
  end.
End Access.
Arguments ShellAccessProvider : clear implicits.

(** ** The table of sessions *)

Record ShellSession {P : Type} := {
  ss_mode : mode;
  ss_kind : string;
  ss_key : string;
  ss_address : string;
  ss_principal : option P;
  ss_started : Z;
  ss_last_input : Z;
  ss_last_touch : Z;
  close_set : bool;
  close_as : option (Z * string);
  end_reason : string;
}.
Arguments ShellSession : clear implicits.

Section Sessions.
Context {P : Type} (user_id_of : P → string) (o : CliShellOptions).
Abbreviation Sessions := (dict string (ShellSession P)).

Definition session_key (principal : option P) (address : string) : string :=
  match principal with Some p => "user:" +:+ user_id_of p | None => "addr:" +:+ address end.

Definition new_shell (m : mode) (principal : option P) (address : string) (command : option string) (now : Z) : ShellSession P :=
  {| ss_mode := m; ss_kind := if truthy_opt command then "command" else "interactive";
     ss_key := session_key principal address; ss_address := address; ss_principal := principal;
     ss_started := now; ss_last_input := now; ss_last_touch := now; close_set := false; close_as := None;
     end_reason := END_EXITED |}.

Definition of_key (k : string) (d : Sessions) : nat :=
  length (List.filter (λ s, bool_decide (ss_key s = k)) (dict_values d)).

(** [id] is the new uuid. *)
Definition _register (m : mode) (principal : option P) (address : string) (command : option string) (i : string) (now : Z)
    (d : Sessions) : shell_exn + Sessions :=
  let key := session_key principal address in
  if negb (max_sessions o =? 0) && (max_sessions o <=? Z.of_nat (length d)) then inl (ShellRejected CLOSE_LIMIT REASON_LIMIT)
  else if negb (max_sessions_per_user o =? 0) && (max_sessions_per_user o <=? Z.of_nat (of_key key d))
  then inl (ShellRejected CLOSE_LIMIT REASON_LIMIT)
  else inr (dict_set i (new_shell m principal address command now) d).

Definition with_close (set : bool) (c : option (Z * string)) (reason : string) (s : ShellSession P) : ShellSession P :=
  {| ss_mode := ss_mode s; ss_kind := ss_kind s; ss_key := ss_key s; ss_address := ss_address s;
     ss_principal := ss_principal s; ss_started := ss_started s; ss_last_input := ss_last_input s;
     ss_last_touch := ss_last_touch s; close_set := set; close_as := c; end_reason := reason |}.
Definition request_close (code : Z) (reason end_ : string) (s : ShellSession P) : ShellSession P :=
  if close_set s then s else with_close true (Some (code, reason)) end_ s.
Definition with_times (input touched : Z) (s : ShellSession P) : ShellSession P :=
  {| ss_mode := ss_mode s; ss_kind := ss_kind s; ss_key := ss_key s; ss_address := ss_address s;
     ss_principal := ss_principal s; ss_started := ss_started s; ss_last_input := input;
     ss_last_touch := touched; close_set := close_set s; close_as := close_as s; end_reason := end_reason s |}.

(** Input since the last report, and the last report long enough ago *)
Definition touch_due (now : Z) (s : ShellSession P) : bool :=
  (ss_last_touch s <? ss_last_input s) && (TOUCH_INTERVAL <=? now - ss_last_touch s).

(** [_end_reason] on the answer of [is_active] ([None]: it raised): the reason to
    end the session, if any.  When it lives and [touch_due], [touch] is called. *)
Definition _end_reason (result : option (bool + string)) (now : Z) (s : ShellSession P) : option string * ShellSession P :=
  match ss_principal s, result with
  | None, _ => (None, s)
  | _, None => (Some END_ERROR, s)
  | _, Some (inr r) => (Some (if is_empty r then END_SESSION_ENDED else r), s)
  | _, Some (inl false) => (Some END_SESSION_ENDED, s)
  | _, Some (inl true) => (None, if touch_due now s then with_times (ss_last_input s) now s else s)
  end.

(** The rest of [_check] *)
Definition _check (result : option (bool + string)) (now : Z) (s : ShellSession P) : ShellSession P :=
  let '(ended, s) := _end_reason result now s in
  match ended with
  | Some r => request_close CLOSE_UNAUTHORIZED REASON_SESSION_ENDED r s
  | None => s
  end.

(** Data on standard input *)
Definition stdin_at (now : Z) (s : ShellSession P) : ShellSession P := with_times now (ss_last_touch s) s.

(** ** Timeouts *)

(** [idle or None] *)
Definition nonzero (v : option Z) : option Z := match v with Some v => if v =? 0 then None else Some v | None => None end.

Inductive watch_action := TimeOut | CheckNow | Sleep (us : option Z).

Definition past (now : Z) (deadline : option Z) : bool := match deadline with Some d => d <=? now | None => false end.

(** The smallest deadline *)
Definition earliest (l : list (option Z)) : option Z :=
  foldl (λ m d, match m, d with Some x, Some y => Some (Z.min x y) | None, d => d | m, None => m end) None l.

(** One round of [_watch] *)
Definition watch_round (now : Z) (next_check : option Z) (s : ShellSession P) : watch_action :=
  let idle := (λ t, ss_last_input s + t) <$> nonzero (idle_timeout o) in
  let longest := (λ t, ss_started s + t) <$> nonzero (max_duration o) in
  if past now idle || past now longest then TimeOut
  else if past now next_check then CheckNow
  else Sleep ((λ d, Z.max 10000 (d - now)) <$> earliest [idle; longest; next_check]).

Definition time_out (s : ShellSession P) : ShellSession P := request_close CLOSE_TIMEOUT REASON_TIMEOUT END_TIMED_OUT s.
Definition close_all (reason : string) (d : Sessions) : Sessions :=
  map (λ kv, (kv.1, request_close 1001 reason END_SHUTDOWN kv.2)) d.

(** The audit entries' metadata *)
Definition opened_metadata (session_id : option string) (s : ShellSession P) : dict string pyval :=
  [("mode", VStr (ss_kind s)); ("sessionId", match session_id with Some i => VStr i | None => VNone end)].
Definition closed_metadata (session_id : option string) (exit_code : option Z) (now : Z) (s : ShellSession P) : dict string pyval :=
  opened_metadata session_id s ++
  [("durationMs", VInt ((now - ss_started s) / 1000)); ("reason", VStr (end_reason s))] ++
  match exit_code with
  | Some c => if bool_decide (end_reason s = END_EXITED) then [("exitCode", VInt c)] else []
  | None => []
  end.
End Sessions.

(** ** The environment of the shell *)

(** [source]: the server's environment; [account]: the home and the name of the
    server's user. *)
Definition copy_from (source : dict string string) (names : list string) (env : dict string string) : dict string string :=
  foldl (λ env n, match dict_get n source with Some v => dict_set n v env | None => env end) env names.
Definition setdefault (k v : string) (env : dict string string) : dict string string :=
  if dict_mem k env then env else dict_set k v env.

Definition build_env (o : CliShellOptions) (source : dict string string) (account : option (string * string))
    (shell : string) (cols rows : Z) (shell_id : option string) : dict string string :=
  let env := copy_from source BASE_ENV_NAMES [] in
  let env := if dict_mem "PATH" env then env else dict_set "PATH" "/usr/local/bin:/usr/bin:/bin" env in
  let env := if negb (dict_mem "HOME" env) || negb (dict_mem "USER" env) then
               match account with
               | Some (home, name) => setdefault "USER" name (setdefault "HOME" home env)
               | None => env
               end
             else env in
  let env := dict_set "SHELL" shell (dict_set "LINES" (str_of_Z rows)
               (dict_set "COLUMNS" (str_of_Z cols) (dict_set "TERM" "xterm-256color" env))) in
  let env := copy_from source (env_allow o) env in
  let env := foldl (λ env kv, dict_set kv.1 kv.2 env) env (env_set o) in
  match shell_id with Some i => dict_set "QCLI_SHELL_ID" i env | None => env end.

(** ** Parameters *)

Definition _dim (number : option Z) (default_value : Z) : Z :=
  match number with Some n => if (0 <? n) && (n <=? 1000) then n else default_value | None => default_value end.
Definition _int_param (raw : option string) (default_value : Z) : Z :=
  match raw with Some r => _dim (py_int r) default_value | None => _dim (Some default_value) default_value end.

Definition _get_shell_info (windows : bool) (detected : string) (command shell : option string) : string * list string :=
  let given := truthy_opt shell in
  let shell := if given then or_empty shell else if windows then "powershell.exe" else detected in
  (shell, if truthy_opt command then [if windows then "-Command" else "-c"; or_empty command] else []).
