(* ===== verification/ShellTable.v ===== *)
(** * The life of a shell session

    [handle_connection] between its waits, with the checks, the watcher, input
    and shutdown of other tasks in between, as steps on the table of sessions. *)

From S2P Require Import Prelude PyStr Values Http Shell.
From Stdlib Require Import Ascii.

Section Table.
Context {P : Type} (user_id_of : P → string) (o : CliShellOptions).

(** Where the handler of a connection is: waiting for the first check, for the
    audit of the opened shell, for the shell, for the audit of its end. *)
Inductive phase := Checking | Opening | Running | Closing (s : ShellSession P).

Record ShellManager := {
  _sessions : dict string (ShellSession P);
  handlers : dict string phase;
  sockets_closed : list (string * Z * string);
}.
Definition new_shell_manager : ShellManager := {| _sessions := []; handlers := []; sockets_closed := [] |}.

Definition set_session (i : string) (s : ShellSession P) (m : ShellManager) : ShellManager :=
  {| _sessions := dict_set i s (_sessions m); handlers := handlers m; sockets_closed := sockets_closed m |}.
Definition pop_session (i : string) (m : ShellManager) : ShellManager :=
  {| _sessions := dict_del i (_sessions m); handlers := handlers m; sockets_closed := sockets_closed m |}.
Definition set_phase (i : string) (p : phase) (m : ShellManager) : ShellManager :=
  {| _sessions := _sessions m; handlers := dict_set i p (handlers m); sockets_closed := sockets_closed m |}.
Definition handler_done (i : string) (c : option (Z * string)) (m : ShellManager) : ShellManager :=
  {| _sessions := _sessions m; handlers := dict_del i (handlers m);
     sockets_closed := sockets_closed m ++ match c with Some (code, reason) => [(i, code, reason)] | None => [] end |}.

(** An accepted connection *)
Definition arrive (md : mode) (principal : option P) (address : string) (command : option string) (i : string) (now : Z)
    (m : ShellManager) : ShellManager :=
  match _register user_id_of o md principal address command i now (_sessions m) with
  | inr d => {| _sessions := d; handlers := dict_set i Checking (handlers m); sockets_closed := sockets_closed m |}
  | inl (ShellRejected code reason) =>
      {| _sessions := _sessions m; handlers := handlers m; sockets_closed := sockets_closed m ++ [(i, code, reason)] |}
  | inl _ => m
  end.

(** The first check is done: the connection is closed or the shell is opened. *)
Definition checked_first (i : string) (s : ShellSession P) (m : ShellManager) : ShellManager :=
  if close_set s then
    let '(code, reason) := default (CLOSE_UNAUTHORIZED, "") (close_as s) in
    handler_done i (Some (code, reason)) (pop_session i m)
  else set_phase i Opening (set_session i s m).

(** [handle_session] returned; [why] is the reason it noted, which counts when the
    session is not being closed, or when the terminal failed. *)
Definition shell_over (i : string) (why : string) (s : ShellSession P) (m : ShellManager) : ShellManager :=
  let why := if close_set s && negb (bool_decide (why = END_ERROR)) then end_reason s else why in
  set_phase i (Closing (with_close true (close_as s) why s)) (pop_session i m).

Inductive sh_step : ShellManager → ShellManager → Prop :=
| sh_arrive m md principal address command i now :
    dict_get i (_sessions m) = None → dict_get i (handlers m) = None →
    sh_step m (arrive md principal address command i now m)
| sh_first m i s result now :
    dict_get i (handlers m) = Some Checking → dict_get i (_sessions m) = Some s →
    sh_step m (checked_first i (_check result now s) m)
| sh_opened m i : dict_get i (handlers m) = Some Opening → sh_step m (set_phase i Running m)
| sh_recheck m i s result now :
    dict_get i (_sessions m) = Some s → sh_step m (set_session i (_check result now s) m)
| sh_input m i s now :
    dict_get i (handlers m) = Some Running → dict_get i (_sessions m) = Some s → sh_step m (set_session i (stdin_at now s) m)
| sh_watch m i s now next_check :
    dict_get i (handlers m) = Some Running → dict_get i (_sessions m) = Some s → watch_round o now next_check s = TimeOut →
    sh_step m (set_session i (time_out s) m)
| sh_close_all m reason :
    sh_step m {| _sessions := close_all reason (_sessions m); handlers := handlers m; sockets_closed := sockets_closed m |}
| sh_over m i s why :
    dict_get i (handlers m) = Some Running → dict_get i (_sessions m) = Some s → why ∈ [END_EXITED; END_CLOSED; END_ERROR] →
    sh_step m (shell_over i why s m)
| sh_closed m i s : dict_get i (handlers m) = Some (Closing s) → sh_step m (handler_done i (close_as s) m).

(** A handler is cancelled: while the shell runs its [finally] takes the session
    out of the table, before that nothing does. *)
Inductive sh_cancel : ShellManager → ShellManager → Prop :=
| cancel_early m i p : dict_get i (handlers m) = Some p → p ∈ [Checking; Opening] → sh_cancel m (handler_done i None m)
| cancel_running m i : dict_get i (handlers m) = Some Running → sh_cancel m (handler_done i None (pop_session i m))
| cancel_closing m i c : dict_get i (handlers m) = Some (Closing c) → sh_cancel m (handler_done i None m).

Definition sh_any (m m' : ShellManager) : Prop := sh_step m m' ∨ sh_cancel m m'.

(** ** Limits *)

Definition limited (m : ShellManager) : Prop :=
  dict_ok (_sessions m) ∧
  (max_sessions o ≠ 0 → Z.of_nat (length (_sessions m)) ≤ Z.max 0 (max_sessions o)) ∧
  (max_sessions_per_user o ≠ 0 → ∀ k, Z.of_nat (of_key k (_sessions m)) ≤ Z.max 0 (max_sessions_per_user o)).

(** The sessions and their keys; what the other fields are does not matter. *)
Definition keys (d : dict string (ShellSession P)) : list (string * string) := map (λ kv, (kv.1, ss_key kv.2)) d.

Lemma filter_map_length {A B} (g : A → B) (f : B → bool) l :
  length (List.filter f (map g l)) = length (List.filter (λ x, f (g x)) l).
Proof. induction l as [|x l IH]; simpl; [done|]. destruct (f (g x)); simpl; by rewrite IH. Qed.

Lemma of_key_pairs k d : of_key k d = length (List.filter (λ kv : string * ShellSession P, bool_decide (ss_key kv.2 = k)) d).
Proof. apply (filter_map_length snd (λ s, bool_decide (ss_key s = k))). Qed.

Lemma of_key_keys k d : of_key k d = length (List.filter (λ x, bool_decide (x.2 = k)) (keys d)).
Proof. rewrite of_key_pairs. symmetry. apply filter_map_length. Qed.

Lemma limited_keys m m' : limited m → keys (_sessions m') = keys (_sessions m) → limited m'.
Proof.
  intros (Hd & Hn & Hk) He.
  assert (Hf : dict_keys (_sessions m') = dict_keys (_sessions m)).
  { assert (Hm : ∀ d, dict_keys d = map fst (keys d)) by (intros d; unfold keys; rewrite map_map; by apply map_ext).
    by rewrite !Hm, He. }
  split; [by unfold dict_ok; rewrite Hf|]. split.
  - intros Hz. rewrite <- (length_map (λ kv, (kv.1, ss_key kv.2))). fold (keys (_sessions m')). rewrite He. unfold keys.
    rewrite length_map. auto.
  - intros Hz k. rewrite of_key_keys, He, <- of_key_keys. auto.
Qed.

Lemma keys_set i s s0 d : dict_get i d = Some s0 → ss_key s = ss_key s0 → keys (dict_set i s d) = keys d.
Proof.
  intros Hg Hk. induction d as [|[j x] d IH]; simpl in *; [done|]. destruct (decide (j = i)) as [->|Hj].
  - injection Hg as <-. simpl. by rewrite Hk.
  - simpl. by rewrite IH.
Qed.

Lemma filter_del_le (f : string * ShellSession P → bool) i d :
  (length (List.filter f (dict_del i d)) ≤ length (List.filter f d))%nat.
Proof.
  induction d as [|[j x] d IH]; simpl; [lia|]. destruct (decide (j = i)); simpl; destruct (f (j, x)); simpl; lia.
Qed.

Lemma limited_pop i m : limited m → limited (pop_session i m).
Proof.
  intros (Hd & Hn & Hk). split; [by apply dict_ok_del|]. split; simpl.
  - intros Hz. specialize (Hn Hz). pose proof (filter_del_le (λ _, true) i (_sessions m)) as Hle.
    rewrite !List.forallb_filter_id in Hle by (apply forallb_forall; done). lia.
  - intros Hz k. specialize (Hk Hz k). rewrite of_key_pairs in *.
    pose proof (filter_del_le (λ kv, bool_decide (ss_key kv.2 = k)) i (_sessions m)). lia.
Qed.

Lemma check_key result now (s : ShellSession P) : ss_key (_check result now s) = ss_key s.
Proof.
  unfold _check, _end_reason, request_close. destruct (ss_principal s); [|done].
  destruct result as [[[]|]|]; simpl; [by destruct (touch_due now s)| | |]; by destruct (close_set s).
Qed.

Lemma dict_set_fresh i s (d : dict string (ShellSession P)) : dict_get i d = None → dict_set i s d = d ++ [(i, s)].
Proof.
  induction d as [|[j x] d IH]; simpl; [done|]. destruct (decide (j = i)); [done|]. intros Hn. by rewrite IH.
Qed.

Lemma limited_arrive md principal address command i now m :
  dict_get i (_sessions m) = None → limited m → limited (arrive md principal address command i now m).
Proof.
  intros Hi Hm. unfold arrive, _register. cbv zeta. destruct (negb (max_sessions o =? 0) && _) eqn:H1; [by eapply limited_keys|].
  destruct (negb (max_sessions_per_user o =? 0) && _) eqn:H2; [by eapply limited_keys|].
  destruct Hm as (Hd & Hn & Hk). split; [simpl; by apply dict_ok_set|]. simpl. rewrite dict_set_fresh by done. split.
  - intros Hz. rewrite (proj2 (Z.eqb_neq _ _) Hz) in H1. simpl in H1. apply Z.leb_gt in H1. rewrite length_app. simpl. lia.
  - intros Hz k. rewrite (proj2 (Z.eqb_neq _ _) Hz) in H2. simpl in H2. apply Z.leb_gt in H2. specialize (Hk Hz k).
    rewrite of_key_pairs in *. rewrite List.filter_app, length_app. simpl. case_bool_decide as Hkey; simpl; [|lia].
    rewrite Hkey in H2. lia.
Qed.

Lemma limited_set i s s0 m : dict_get i (_sessions m) = Some s0 → ss_key s = ss_key s0 → limited m → limited (set_session i s m).
Proof. intros Hg Hk Hm. eapply limited_keys; [exact Hm|]. by eapply keys_set. Qed.

Lemma limited_same m m' : _sessions m' = _sessions m → limited m → limited m'.
Proof. intros He Hm. eapply limited_keys; [exact Hm|]. by rewrite He. Qed.

Lemma request_close_key code reason e (s : ShellSession P) : ss_key (request_close code reason e s) = ss_key s.
Proof. unfold request_close. by destruct (close_set s). Qed.

Lemma limited_step m m' : limited m → sh_any m m' → limited m'.
Proof.
  intros Hm [Hs|Hc].
  - destruct Hs as [m md principal address command i now Hi _|m i s result now _ Hi|m i _|m i s result now Hi|m i s now _ Hi|
      m i s now next_check _ Hi _|m reason|m i s why _ Hi _|m i c _].
    + by apply limited_arrive.
    + unfold checked_first. destruct (close_set _).
      * destruct (default _ _) as [code reason]. eapply limited_same; [|by apply (limited_pop i)]. done.
      * eapply limited_same; [|eapply (limited_set i (_check result now s)); [exact Hi|apply check_key|exact Hm]]. done.
    + by eapply limited_same.
    + eapply limited_set; [exact Hi|apply check_key|done].
    + by eapply limited_set.
    + eapply limited_set; [exact Hi|apply request_close_key|done].
    + eapply limited_keys; [exact Hm|]. simpl. unfold close_all, keys. rewrite map_map. apply map_ext. intros [j x]. simpl.
      by rewrite request_close_key.
    + unfold shell_over. eapply limited_same; [|by apply (limited_pop i)]. done.
    + by eapply limited_same.
  - destruct Hc as [m i p _ _|m i _|m i c _]; [by eapply limited_same| |by eapply limited_same].
    eapply limited_same; [|by apply (limited_pop i)]. done.
Qed.

(** C22: Whatever connects, ends or is cancelled in whatever order: there are never
    more shells than the limit, and never more of one user or one address than
    theirs. *)
Theorem shells_within_limits m :
  rtc sh_any new_shell_manager m →
  (max_sessions o ≠ 0 → Z.of_nat (length (_sessions m)) ≤ Z.max 0 (max_sessions o)) ∧
  (max_sessions_per_user o ≠ 0 → ∀ k, Z.of_nat (of_key k (_sessions m)) ≤ Z.max 0 (max_sessions_per_user o)).
Proof.
  intros Hr. assert (limited m) as [_ ?]; [|done]. revert m Hr. apply (rtc_ind_r limited).
  - split; [constructor|]. split; intros; simpl; [lia|]. unfold of_key. simpl. lia.
  - intros m m' _ Hs Hm. by eapply limited_step.
Qed.

(** ** Every session has a handler *)

Definition open_phase (p : phase) : Prop := match p with Closing _ => False | _ => True end.
Definition attended (m : ShellManager) : Prop :=
  dict_ok (_sessions m) ∧ dict_ok (handlers m) ∧
  ∀ i, is_Some (dict_get i (_sessions m)) ↔ ∃ p, dict_get i (handlers m) = Some p ∧ open_phase p.

Lemma is_Some_set {V} (i j : string) (v : V) d : is_Some (dict_get i (dict_set j v d)) ↔ i = j ∨ is_Some (dict_get i d).
Proof.
  destruct (decide (i = j)) as [->|Hij]; [rewrite dict_get_set_eq; naive_solver|].
  rewrite dict_get_set_ne by congruence. naive_solver.
Qed.

Lemma attended_set_phase i p0 p m :
  dict_get i (handlers m) = Some p0 → open_phase p0 → open_phase p → attended m → attended (set_phase i p m).
Proof.
  intros Hi H0 Hp (Hs & Hh & Ha). split; [done|]. split; [by apply dict_ok_set|]. intros j. simpl. rewrite Ha.
  destruct (decide (j = i)) as [->|Hj]; [rewrite dict_get_set_eq; naive_solver|by rewrite dict_get_set_ne by congruence].
Qed.

Lemma attended_set i s m : is_Some (dict_get i (_sessions m)) → attended m → attended (set_session i s m).
Proof.
  intros Hi (Hs & Hh & Ha). split; [by apply dict_ok_set|]. split; [done|]. intros j. simpl. rewrite is_Some_set, <- Ha.
  naive_solver.
Qed.

Lemma attended_pop i p m :
  ¬ open_phase p → attended m → attended (set_phase i p (pop_session i m)).
Proof.
  intros Hp (Hs & Hh & Ha). split; [by apply dict_ok_del|]. split; [by apply dict_ok_set|]. intros j. simpl.
  destruct (decide (j = i)) as [->|Hj].
  - rewrite dict_get_del_eq, dict_get_set_eq by done. split; [by intros [? ?]|naive_solver].
  - by rewrite dict_get_del_ne, dict_get_set_ne by congruence.
Qed.

Lemma attended_done i c p m :
  dict_get i (handlers m) = Some p → ¬ open_phase p → attended m → attended (handler_done i c m).
Proof.
  intros Hi Hp (Hs & Hh & Ha). split; [done|]. split; [by apply dict_ok_del|]. intros j. simpl. rewrite Ha.
  destruct (decide (j = i)) as [->|Hj]; [rewrite dict_get_del_eq by done; naive_solver|by rewrite dict_get_del_ne by congruence].
Qed.

Lemma attended_gone i c m : attended m → attended (handler_done i c (pop_session i m)).
Proof.
  intros (Hs & Hh & Ha). split; [by apply dict_ok_del|]. split; [by apply dict_ok_del|]. intros j. simpl.
  destruct (decide (j = i)) as [->|Hj]; [rewrite !dict_get_del_eq by done; split; [by intros [? ?]|naive_solver]|].
  by rewrite !dict_get_del_ne by congruence.
Qed.

Lemma attended_step m m' : attended m → sh_step m m' → attended m'.
Proof.
  intros Hm Hs. destruct Hs as [m md principal address command i now Hi Hh|m i s result now Hp Hi|m i Hp|m i s result now Hi|m i s now _ Hi|
    m i s now next_check _ Hi _|m reason|m i s why Hp Hi _|m i c Hp].
  - unfold arrive, _register. cbv zeta. destruct (_ && _); [by destruct Hm|]. destruct (_ && _); [by destruct Hm|].
    destruct Hm as (Hd & Hho & Ha). split; [by apply dict_ok_set|]. split; [by apply dict_ok_set|]. intros j. simpl.
    rewrite is_Some_set, Ha. destruct (decide (j = i)) as [->|Hj]; [rewrite dict_get_set_eq; naive_solver|].
    rewrite dict_get_set_ne by congruence. naive_solver.
  - unfold checked_first. destruct (close_set _).
    + destruct (default _ _) as [code reason]. by apply attended_gone.
    + eapply attended_set_phase; [exact Hp|done|done|]. apply attended_set; [by eexists|done].
  - by eapply attended_set_phase.
  - apply attended_set; [by eexists|done].
  - apply attended_set; [by eexists|done].
  - apply attended_set; [by eexists|done].
  - destruct Hm as (Hd & Hh & Ha).
    assert (Hg : ∀ j, dict_get j (close_all reason (_sessions m)) = request_close 1001 reason END_SHUTDOWN <$> dict_get j (_sessions m)).
    { intros j. unfold close_all. generalize (_sessions m) as d. induction d as [|[k x] d IH]; simpl; [done|]. by destruct (decide (k = j)). }
    split; [|split; [done|]]; simpl.
    + unfold dict_ok, dict_keys, close_all. rewrite <- list_fmap_compose. exact Hd.
    + intros j. rewrite Hg, <- Ha. by rewrite fmap_is_Some.
  - unfold shell_over. cbv zeta. apply attended_pop; [by intros []|done].
  - eapply attended_done; [exact Hp|by intros []|done].
Qed.

(** As long as no handler is cancelled, exactly the connections that are handled
    and whose shell is not over are in the table: when all are over it is empty,
    so no slot is lost. *)
Theorem sessions_attended m :
  rtc sh_step new_shell_manager m →
  (∀ i, is_Some (dict_get i (_sessions m)) ↔ ∃ p, dict_get i (handlers m) = Some p ∧ open_phase p) ∧
  (handlers m = [] → _sessions m = []).
Proof.
  intros Hr. assert (attended m) as (_ & _ & Ha).
  { revert m Hr. apply (rtc_ind_r attended).
    - split; [constructor|]. split; [constructor|]. intros i. simpl. split; [by intros [? ?]|naive_solver].
    - intros m m' _ Hs Hm. by eapply attended_step. }
  split; [done|]. intros Hh. destruct (_sessions m) as [|[i s] d] eqn:Hs; [done|]. exfalso.
  destruct (proj1 (Ha i)) as (p & Hp & _); [simpl; by rewrite decide_True|]. by rewrite Hh in Hp.
Qed.

(** ** How a shell is closed *)

(** Once the server decided to close a shell, the code, the reason and what the
    audit log will say stay; nothing that happens later changes them, but for a
    terminal that fails meanwhile, which the log then says. *)
Theorem first_close_wins m m' i s :
  sh_any m m' → dict_get i (_sessions m) = Some s → close_set s = true → dict_ok (_sessions m) →
  match dict_get i (_sessions m') with
  | Some s' => close_set s' = true ∧ close_as s' = close_as s ∧ end_reason s' = end_reason s
  | None =>
      (∃ s', dict_get i (handlers m') = Some (Closing s') ∧ close_as s' = close_as s ∧
             end_reason s' ∈ [end_reason s; END_ERROR]) ∨ sh_cancel m m' ∨
      let '(code, reason) := default (CLOSE_UNAUTHORIZED, "") (close_as s) in (i, code, reason) ∈ sockets_closed m'
  end.
Proof.
  intros Hstep Hi Hc Hok.
  assert (Hrc : ∀ c r e, request_close c r e s = s) by (intros; unfold request_close; by rewrite Hc).
  assert (Hchk : ∀ result now, let s' := _check result now s in close_set s' = true ∧ close_as s' = close_as s ∧ end_reason s' = end_reason s).
  { intros result now. unfold _check, _end_reason. destruct (ss_principal s); [|done].
    destruct result as [[[]|]|]; simpl; [by destruct (touch_due now s)|by rewrite Hrc..]. }
  destruct Hstep as [Hs|Hx].
  2:{ destruct (dict_get i (_sessions m')) as [s'|] eqn:Hg; [|by right; left].
      destruct Hx as [m j p _ _|m j _|m j c _]; simpl in Hg; [by simplify_eq| |by simplify_eq].
      destruct (decide (i = j)) as [->|Hj]; [by rewrite dict_get_del_eq in Hg by done|].
      rewrite dict_get_del_ne in Hg by congruence. by simplify_eq. }
  destruct Hs as [m md principal address command j now Hj _|m j s0 result now Hp Hj|m j Hp|m j s0 result now Hj|m j s0 now _ Hj|
    m j s0 now next_check _ Hj _|m reason|m j s0 why Hp Hj _|m j c Hp].
  - unfold arrive, _register. cbv zeta. destruct (_ && _); [simpl; by rewrite Hi|]. destruct (_ && _); [simpl; by rewrite Hi|]. simpl.
    rewrite dict_get_set_ne by congruence. by rewrite Hi.
  - unfold checked_first. destruct (decide (i = j)) as [->|Hij].
    + rewrite Hi in Hj. injection Hj as <-. destruct (Hchk result now) as (-> & H2 & H3). rewrite H2.
      destruct (default _ (close_as s)) as [code reason]. simpl. rewrite dict_get_del_eq by done. right. right.
      apply elem_of_app. right. by left.
    + destruct (close_set (_check result now s0)).
      * destruct (default _ _) as [code reason]. simpl. rewrite dict_get_del_ne by congruence. by rewrite Hi.
      * simpl. rewrite dict_get_set_ne by congruence. by rewrite Hi.
  - simpl. by rewrite Hi.
  - simpl. destruct (decide (i = j)) as [->|Hij]; [|rewrite dict_get_set_ne by congruence; by rewrite Hi].
    rewrite dict_get_set_eq. simplify_eq. apply Hchk.
  - simpl. destruct (decide (i = j)) as [->|Hij]; [|rewrite dict_get_set_ne by congruence; by rewrite Hi].
    rewrite dict_get_set_eq. by simplify_eq.
  - simpl. destruct (decide (i = j)) as [->|Hij]; [|rewrite dict_get_set_ne by congruence; by rewrite Hi].
    rewrite dict_get_set_eq. simplify_eq. unfold time_out. by rewrite Hrc.
  - simpl. assert (Hg : dict_get i (close_all reason (_sessions m)) = Some (request_close 1001 reason END_SHUTDOWN s)).
    { revert Hi. unfold close_all. generalize (_sessions m) as d. induction d as [|[k x] d IH]; simpl; [done|].
      destruct (decide (k = i)); [by intros [= ->]|done]. }
    by rewrite Hg, Hrc.
  - unfold shell_over. destruct (decide (i = j)) as [->|Hij].
    + simplify_eq. rewrite Hc. simpl. rewrite dict_get_del_eq, dict_get_set_eq by done. left. eexists. split_and!; [done..|].
      simpl. case_bool_decide as Hw; [rewrite Hw; right; left|left].
    + simpl. rewrite dict_get_del_ne by congruence. by rewrite Hi.
  - simpl. by rewrite Hi.
Qed.
End Table.
