(* ===== verification/ShellPty.v ===== *)
(** * Between the socket and the terminal ([core/services/cli_shell_session_manager.py])

    [handle_session] with its tasks: the reader decodes what the terminal prints,
    the writer passes on what the client types, the waiter reports the exit.
    They interleave with one another, with requests to close the shell and with
    the handler as the events of [pty_do]; what the operating system and the
    socket answer is in the events.  The module ends with the parts of the
    manager around a session: the shell that is started, audit and log. *)

From S2P Require Import Prelude PyStr Values Utf8 Shell.
From stdpp Require Import relations.

Open Scope Z_scope.

(** ** The incremental decoder

    [codecs.getincrementaldecoder("utf-8")(errors="replace")]: an incomplete
    character at the end of a chunk waits for the next one. *)

(** How many bytes one U+FFFD stands for when [step_utf8] is [Bad]. *)
Definition bad_length (l : bytes) : nat :=
  match l with
  | b :: c :: d :: _ =>
      if in_range 224 239 b && second3 b c then 2
      else if in_range 240 244 b && second4 b c then if cont d then 3 else 2
      else 1
  | _ => 1
  end%nat.

(** [codecs.utf_8_decode(l, "replace", final)]: the text and the bytes that are
    not consumed; [fuel] is their number. *)
Fixpoint utf_8_decode (final : bool) (fuel : nat) (l : bytes) : text * bytes :=
  match l, fuel with
  | [], _ => ([], [])
  | _, O => ([], l)
  | l, S fuel =>
      match step_utf8 l with
      | Char c rest => let '(t, r) := utf_8_decode final fuel rest in (c :: t, r)
      | More => if final then ([REPLACEMENT], []) else ([], l)
      | Bad => let '(t, r) := utf_8_decode final fuel (drop (bad_length l) l) in (REPLACEMENT :: t, r)
      end
  end.

(** [decoder.decode(data, final)] with what it keeps *)
Definition decoder_decode (final : bool) (buffer data : bytes) : text * bytes :=
  utf_8_decode final (length (buffer ++ data)) (buffer ++ data).

(** [data.encode("utf-8", "replace")]: a lone surrogate is a question mark. *)
Definition encode_replace (t : text) : bytes := concat (map (λ c, default [63] (encode_char c)) t).

(** ** Messages *)

Inductive message :=
| Ready (shell os : string)
| Stdout (data : text)
| ExitMessage (code : Z)
| ErrorMessage (message : string).

(** The values a frame may carry, as far as the code tells them apart. *)
Inductive jfloat := Finite (truncated : Z) | Infinite | NotANumber.
Inductive jval := JNull | JBool (b : bool) | JInt (z : Z) | JFloat (f : jfloat) | JText (t : text) | JArray | JObject.

(** What [receive_text] and [json.loads] give: the client is gone, the text is
    not JSON, it is nested too deeply, it is no object, or an object by its
    fields. *)
Inductive frame :=
| Gone
| NotJson
| TooDeep
| NotObject
| Object (type_ data cols rows : option jval).

Inductive int_result := IntOk (z : Z) | IntRefused | IntOverflow.

(** Answers of [os.read], [os.write] and [os.waitpid] *)
Inductive read_result := ReadBytes (b : bytes) | ReadBlocks | ReadFails.
Inductive write_result := Wrote (n : nat) | WriteBlocks | WriteFails.
Inductive poll_result := NoChild | StillRunning | Ended (status : Z).

Definition _READ_CHUNK : Z := 65536.

(** [os.WIFEXITED], [os.WEXITSTATUS] *)
Definition wifexited (status : Z) : bool := Z.land status 127 =? 0.
Definition wexitstatus (status : Z) : Z := Z.land (Z.shiftr status 8) 255.
Definition exit_code_of (status : Z) : Z := if wifexited status then wexitstatus status else 1.

(** ** The tasks of a session *)

Inductive reader_state := Reading | SendingOutput (data : text) (last : bool) | ReaderDone (complete : bool).
Inductive writer_state := Receiving | Writing (view : bytes) | WriterDone.
Inductive waiter_state := Polling | SendingExit (code : Z) | WaiterDone (exit_code : option Z) | WaiterCancelled.
(** [Ending]: in the [finally]; [Over]: what was returned, [None] for a cancelled
    handler *)
Inductive handler_state := Waiting | Grace | Ending (cancelled : bool) | Over (result : option (option Z)).

Record Bridge := {
  buffer : bytes;            (* what the decoder keeps *)
  output_read : bytes;       (* every byte read from the terminal *)
  sent : list message;       (* every message sent *)
  reader : reader_state;
  typed : text;              (* every character of [stdin] messages *)
  input_taken : bytes;       (* every byte the terminal took *)
  writer : writer_state;
  window : option (Z * Z);   (* rows and columns the terminal was told *)
  b_last_input : Z;
  waiter : waiter_state;
  close_event : bool;
  reason : string;
  handler : handler_state;
}.

Definition with_reader (r : reader_state) (kept : bytes) (b : Bridge) : Bridge :=
  {| buffer := kept; output_read := output_read b; sent := sent b; reader := r; typed := typed b; input_taken := input_taken b;
     writer := writer b; window := window b; b_last_input := b_last_input b; waiter := waiter b; close_event := close_event b;
     reason := reason b; handler := handler b |}.
Definition with_output (data : bytes) (b : Bridge) : Bridge :=
  {| buffer := buffer b; output_read := output_read b ++ data; sent := sent b; reader := reader b; typed := typed b;
     input_taken := input_taken b; writer := writer b; window := window b; b_last_input := b_last_input b; waiter := waiter b;
     close_event := close_event b; reason := reason b; handler := handler b |}.
(** [websocket.send_text], which may fail *)
Definition send_text (ok : bool) (m : message) (b : Bridge) : Bridge :=
  {| buffer := buffer b; output_read := output_read b; sent := if ok then sent b ++ [m] else sent b; reader := reader b;
     typed := typed b; input_taken := input_taken b; writer := writer b; window := window b; b_last_input := b_last_input b;
     waiter := waiter b; close_event := close_event b; reason := reason b; handler := handler b |}.
Definition with_writer (w : writer_state) (b : Bridge) : Bridge :=
  {| buffer := buffer b; output_read := output_read b; sent := sent b; reader := reader b; typed := typed b;
     input_taken := input_taken b; writer := w; window := window b; b_last_input := b_last_input b; waiter := waiter b;
     close_event := close_event b; reason := reason b; handler := handler b |}.
Definition with_typed (data : text) (now : Z) (b : Bridge) : Bridge :=
  {| buffer := buffer b; output_read := output_read b; sent := sent b; reader := reader b; typed := typed b ++ data;
     input_taken := input_taken b; writer := writer b; window := window b; b_last_input := now; waiter := waiter b;
     close_event := close_event b; reason := reason b; handler := handler b |}.
Definition with_taken (data : bytes) (b : Bridge) : Bridge :=
  {| buffer := buffer b; output_read := output_read b; sent := sent b; reader := reader b; typed := typed b;
     input_taken := input_taken b ++ data; writer := writer b; window := window b; b_last_input := b_last_input b;
     waiter := waiter b; close_event := close_event b; reason := reason b; handler := handler b |}.
Definition with_window (w : Z * Z) (b : Bridge) : Bridge :=
  {| buffer := buffer b; output_read := output_read b; sent := sent b; reader := reader b; typed := typed b;
     input_taken := input_taken b; writer := writer b; window := Some w; b_last_input := b_last_input b; waiter := waiter b;
     close_event := close_event b; reason := reason b; handler := handler b |}.
Definition with_waiter (w : waiter_state) (b : Bridge) : Bridge :=
  {| buffer := buffer b; output_read := output_read b; sent := sent b; reader := reader b; typed := typed b;
     input_taken := input_taken b; writer := writer b; window := window b; b_last_input := b_last_input b; waiter := w;
     close_event := close_event b; reason := reason b; handler := handler b |}.
Definition with_handler (close : bool) (why : string) (h : handler_state) (b : Bridge) : Bridge :=
  {| buffer := buffer b; output_read := output_read b; sent := sent b; reader := reader b; typed := typed b;
     input_taken := input_taken b; writer := writer b; window := window b; b_last_input := b_last_input b; waiter := waiter b;
     close_event := close; reason := why; handler := h |}.

(** *** The reader *)

(** [_read_pty]: the next chunk, empty at the end; [None]: it waits *)
Definition _read_pty (r : read_result) : option bytes :=
  match r with ReadBytes b => Some b | ReadBlocks => None | ReadFails => Some [] end.

(** One chunk of [_read_pty_output], up to the message it sends *)
Definition _read_pty_output (r : read_result) (b : Bridge) : Bridge :=
  match _read_pty r with
  | None => b
  | Some [] =>
      let '(tail, kept) := decoder_decode true (buffer b) [] in
      match tail with [] => with_reader (ReaderDone true) kept b | _ => with_reader (SendingOutput tail true) kept b end
  | Some chunk =>
      let '(data, kept) := decoder_decode false (buffer b) chunk in
      with_reader (match data with [] => Reading | _ => SendingOutput data false end) kept (with_output chunk b)
  end.
(** The message is sent, or [send_text] raised, which ends the task. *)
Definition output_sent (ok : bool) (data : text) (last : bool) (b : Bridge) : Bridge :=
  with_reader (if ok then if last then ReaderDone true else Reading else ReaderDone false) (buffer b) (send_text ok (Stdout data) b).

(** *** The writer *)

Section Writer.
(** [int(s)] of a text; [None]: [ValueError] *)
Context (int_text : text → option Z).

Definition int_of (v : jval) : int_result :=
  match v with
  | JBool b => IntOk (if b then 1 else 0)
  | JInt z => IntOk z
  | JFloat (Finite z) => IntOk z
  | JFloat Infinite => IntOverflow
  | JFloat NotANumber => IntRefused
  | JText t => match int_text t with Some z => IntOk z | None => IntRefused end
  | JNull | JArray | JObject => IntRefused
  end.
(** [_dim(msg.get(name), default)]; [None]: [OverflowError], which neither
    [_dim] nor the task catches *)
Definition dim_of (v : option jval) (default_value : Z) : option Z :=
  match int_of (default JNull v) with
  | IntOk z => Some (_dim (Some z) default_value)
  | IntRefused => Some (_dim None default_value)
  | IntOverflow => None
  end.

Definition is_type (v : option jval) (name : text) : bool :=
  match v with Some (JText t) => bool_decide (t = name) | _ => false end.
Definition stdin_name : text := [115; 116; 100; 105; 110].
Definition resize_name : text := [114; 101; 115; 105; 122; 101].

(** One frame of [_read_websocket_input], up to the write it starts.
    [ioctl_ok]: whether the terminal takes a new size, failure is ignored. *)
Definition _read_websocket_input (f : frame) (now : Z) (ioctl_ok : bool) (b : Bridge) : Bridge :=
  match f with
  | Gone | TooDeep => with_writer WriterDone b
  | NotJson | NotObject => b
  | Object type_ data cols rows =>
      if is_type type_ stdin_name then
        match data with
        | Some (JText (c :: t)) => with_writer (Writing (encode_replace (c :: t))) (with_typed (c :: t) now b)
        | _ => b
        end
      else if is_type type_ resize_name then
        match dim_of cols 80, dim_of rows 24 with
        | Some cols, Some rows => if ioctl_ok then with_window (rows, cols) b else b
        | _, _ => with_writer WriterDone b
        end
      else b
  end.

(** One [os.write] of [_write_pty] *)
Definition _write_pty (r : write_result) (view : bytes) (b : Bridge) : Bridge :=
  match r with
  | Wrote n =>
      let b := with_taken (take n view) b in
      match drop n view with [] => with_writer Receiving b | rest => with_writer (Writing rest) b end
  | WriteBlocks => b
  | WriteFails => with_writer WriterDone b
  end.
End Writer.

(** *** The waiter *)

(** One poll of [_wait_for_exit] *)
Definition _wait_for_exit (r : poll_result) (b : Bridge) : Bridge :=
  match r with
  | NoChild => with_waiter (WaiterDone None) b
  | StillRunning => b
  | Ended status =>
      let code := exit_code_of status in
      with_waiter (if close_event b then WaiterDone (Some code) else SendingExit code) b
  end.
Definition exit_sent (ok : bool) (code : Z) (b : Bridge) : Bridge :=
  with_waiter (WaiterDone (Some code)) (send_text ok (ExitMessage code) b).

(** *** The handler *)

Definition reader_done (b : Bridge) : bool := match reader b with ReaderDone _ => true | _ => false end.
Definition writer_done (b : Bridge) : bool := match writer b with WriterDone => true | _ => false end.
Definition waiter_done (b : Bridge) : bool := match waiter b with WaiterDone _ | WaiterCancelled => true | _ => false end.

(** The state when nothing was read or typed yet; [started]: the tasks run *)
Definition new_bridge (started : bool) (messages : list message) (size : option (Z * Z)) (now : Z) (close : bool) (why : string)
    (h : handler_state) : Bridge :=
  {| buffer := []; output_read := []; sent := messages; reader := if started then Reading else ReaderDone false; typed := [];
     input_taken := []; writer := if started then Receiving else WriterDone; window := size; b_last_input := now;
     waiter := if started then Polling else WaiterCancelled; close_event := close; reason := why; handler := h |}.

(** [handle_session] up to its first wait.  [fork_ok]: [pty.fork] gave a child;
    [ready_ok], [error_ok]: the socket took the message.  Without a child there
    is nothing to terminate. *)
Definition handle_session (shell os : string) (cols rows now : Z) (fork_ok ioctl_ok ready_ok error_ok close : bool) (why : string) : Bridge :=
  let size := if ioctl_ok then Some (rows, cols) else None in
  let error := if error_ok then [ErrorMessage "shell session error"] else [] in
  if negb fork_ok then new_bridge false error None now true END_ERROR (Over (Some None))
  else if ready_ok then new_bridge true [Ready shell os] size now close why Waiting
  else new_bridge false error size now true END_ERROR (Ending false).

(** The reason and the [finally] *)
Definition ending (b : Bridge) : Bridge :=
  let gone := writer_done b && negb (waiter_done b) && negb (close_event b) in
  with_handler true (if gone then END_CLOSED else reason b) (Ending false) b.

(** [asyncio.wait] returned: a task is done. *)
Definition wait_over (b : Bridge) : Bridge :=
  if reader_done b && negb (waiter_done b) && negb (close_event b) then with_handler (close_event b) (reason b) Grace b
  else ending b.

Definition cancel_tasks (b : Bridge) : Bridge :=
  let b := if reader_done b then b else with_reader (ReaderDone false) (buffer b) b in
  let b := with_writer WriterDone b in
  if waiter_done b then b else with_waiter WaiterCancelled b.

(** After [_terminate]: the tasks are cancelled and the result is that of the
    waiter, unless the handler itself was cancelled. *)
Definition terminated (cancelled : bool) (b : Bridge) : Bridge :=
  let b := cancel_tasks b in
  with_handler (close_event b) (reason b)
    (Over (if cancelled then None else Some (match waiter b with WaiterDone c => c | _ => None end))) b.

Inductive pty_event :=
| OutputRead (r : read_result)
| OutputSent (ok : bool)
| FrameArrives (f : frame) (now : Z) (ioctl_ok : bool)
| InputWritten (r : write_result)
| ChildPolled (r : poll_result)
| ExitSent (ok : bool)
| CloseRequested (end_ : string)
| WaitOver
| GraceOver
| HandlerCancelled
| Terminated.

Section Steps.
Context (int_text : text → option Z).

(** What an event does; [None]: it cannot happen.  A handler that is cancelled in
    its [finally] leaves the rest of it undone. *)
Definition pty_do (e : pty_event) (b : Bridge) : option Bridge :=
  match e with
  | OutputRead r => match reader b with Reading => Some (_read_pty_output r b) | _ => None end
  | OutputSent ok => match reader b with SendingOutput data last => Some (output_sent ok data last b) | _ => None end
  | FrameArrives f now ioctl_ok =>
      match writer b with Receiving => Some (_read_websocket_input int_text f now ioctl_ok b) | _ => None end
  | InputWritten r => match writer b with Writing view => Some (_write_pty r view b) | _ => None end
  | ChildPolled r => match waiter b with Polling => Some (_wait_for_exit r b) | _ => None end
  | ExitSent ok => match waiter b with SendingExit code => Some (exit_sent ok code b) | _ => None end
  | CloseRequested e =>
      Some (if close_event b then b else with_handler true e (handler b) b)
  | WaitOver =>
      match handler b with
      | Waiting => if reader_done b || writer_done b || waiter_done b || close_event b then Some (wait_over b) else None
      | _ => None
      end
  | GraceOver => match handler b with Grace => Some (ending b) | _ => None end
  | HandlerCancelled =>
      match handler b with
      | Waiting | Grace => Some (with_handler true (reason b) (Ending true) b)
      | Ending _ => Some (with_handler (close_event b) (reason b) (Over None) b)
      | Over _ => None
      end
  | Terminated => match handler b with Ending cancelled => Some (terminated cancelled b) | _ => None end
  end.

Definition pty_step (b b' : Bridge) : Prop := ∃ e, pty_do e b = Some b'.
Definition pty_reaches : Bridge → Bridge → Prop := rtc pty_step.

Fixpoint pty_run (es : list pty_event) (b : Bridge) : option Bridge :=
  match es with [] => Some b | e :: es => match pty_do e b with Some b => pty_run es b | None => None end end.
Lemma pty_run_reaches es b b' : pty_run es b = Some b' → pty_reaches b b'.
Proof.
  revert b. induction es as [|e es IH]; intros b; simpl; [by intros [= ->]; apply rtc_refl|].
  destruct (pty_do e b) as [b1|] eqn:He; [|done]. intros H. eapply rtc_l; [by exists e|by apply IH].
Qed.
End Steps.

Definition started (b : Bridge) : Prop :=
  ∃ shell os cols rows now fork_ok ioctl_ok ready_ok error_ok close why,
    b = handle_session shell os cols rows now fork_ok ioctl_ok ready_ok error_ok close why.

(** What the client was shown, and the exit codes it was told *)
Definition shown (b : Bridge) : text := concat (map (λ m, match m with Stdout t => t | _ => [] end) (sent b)).
Definition exits (b : Bridge) : list Z := omap (λ m, match m with ExitMessage c => Some c | _ => None end) (sent b).

(** ** Around a session *)

Definition access_mode (enabled : bool) (o : CliShellOptions) (has_provider : bool) : option mode :=
  if enabled then Some (resolve_mode o has_provider) else None.

Inductive log_level := LInfo | LWarning | LError.
(** The level of the line, and whether the locked message is logged by now *)
Definition log_startup (access : option mode) (locked_logged : bool) : option log_level * bool :=
  match access with
  | None => (None, locked_logged)
  | Some MODE_LOCKED => (Some LError, true)
  | Some MODE_ANONYMOUS => (Some LWarning, locked_logged)
  | Some _ => (Some LInfo, locked_logged)
  end.

Section Around.
Context {World P : Type}.

(** The sessions [request_recheck] schedules a check for; [_spawn_check] drops
    those that are being closed by then. *)
Definition request_recheck (d : dict string (ShellSession P)) : list string :=
  omap (λ kv, match ss_principal kv.2 with Some _ => if close_set kv.2 then None else Some kv.1 | None => None end) d.
Definition _spawn_check (s : ShellSession P) : bool := negb (close_set s).

Context (provider : option (ShellAccessProvider World P)) (session_id : P → option string).

(** Where the record of a shell goes: the audit log of the plugin, or the log of
    the server *)
Inductive shell_record := Audited (event : string) (metadata : dict string pyval) | Logged.

Definition recorded (event : string) (metadata : P → dict string pyval) (s : ShellSession P) : py World shell_exn shell_record :=
  match ss_principal s, provider with
  | Some p, Some pr =>
      _ ← except_any (sp_audit pr event p (metadata p)) (mret tt);
      mret (Audited event (metadata p))
  | _, _ => mret Logged
  end.
Definition _opened (s : ShellSession P) : py World shell_exn shell_record :=
  recorded "shell_opened" (λ p, opened_metadata (session_id p) s) s.
Definition _closed (exit_code : option Z) (now : Z) (s : ShellSession P) : py World shell_exn shell_record :=
  recorded "shell_closed" (λ p, closed_metadata (session_id p) exit_code now s) s.
End Around.

(** [_detect_shell]; [env_shell]: the variable [SHELL], [executable]: whether a
    path is a file that may be executed *)
Definition _detect_shell (env_shell : option string) (executable : string → bool) : string :=
  if truthy_opt env_shell && executable (or_empty env_shell) then or_empty env_shell
  else default "/bin/sh" (List.find executable ["/bin/bash"; "/usr/bin/bash"; "/bin/sh"]).

(** One round of [_reap]: whether it returns *)
Definition reap_round (r : poll_result) (now deadline : Z) : bool :=
  match r with Ended _ | NoChild => true | StillRunning => deadline <=? now end.
(** [_reap] over the polls of a child, each with the clock after it: how many
    polls it makes *)
Fixpoint _reap (deadline : Z) (polls : list (poll_result * Z)) : nat :=
  match polls with
  | [] => 0
  | (r, now) :: polls => if reap_round r now deadline then 1 else S (_reap deadline polls)
  end%nat.

(** ** The decoder does not see the chunks *)


(** One step of the decoder of whole texts *)
Lemma step_utf8_char l c rest m :
  step_utf8 l = Char c rest → decode (l ++ m) = c :: decode (rest ++ m) ∧ (length rest < length l)%nat.
Proof.
  destruct l as [|x l]; [done|]. cbn [step_utf8 decode app].
  destruct (x <? 128); [intros [= <- <-]; split; [done|simpl; lia]|].
  destruct (in_range 194 223 x); [|destruct (in_range 224 239 x); [|destruct (in_range 240 244 x); [|done]]].
  all: destruct l as [|y l]; [done|]; cbn [app].
  - destruct (cont y); [|done]. intros [= <- <-]. split; [done|simpl; lia].
  - destruct (second3 x y); [|done]. destruct l as [|z l]; [done|]. cbn [app]. destruct (cont z); [|done].
    intros [= <- <-]. split; [done|simpl; lia].
  - destruct (second4 x y); [|done]. destruct l as [|z l]; [done|]. cbn [app]. destruct (cont z); [|done].
    destruct l as [|w l]; [done|]. cbn [app]. destruct (cont w); [|done]. intros [= <- <-]. split; [done|simpl; lia].
Qed.

Lemma bad_length_pos l : (1 <= bad_length l)%nat.
Proof. unfold bad_length. repeat case_match; lia. Qed.

Lemma ranges_apart x : in_range 224 239 x = true → in_range 240 244 x = false.
Proof. rewrite in_range_iff. intros H. apply not_true_is_false. rewrite in_range_iff. lia. Qed.

Lemma step_utf8_bad l m :
  step_utf8 l = Bad → decode (l ++ m) = REPLACEMENT :: decode (drop (bad_length l) l ++ m).
Proof.
  destruct l as [|x l]; [done|]. cbn [step_utf8 decode app].
  destruct (x <? 128) eqn:Hx; [done|]. unfold bad_length.
  destruct (in_range 194 223 x) eqn:H2.
  { destruct l as [|y l]; [done|]. cbn [app]. destruct (cont y); [done|]. intros _.
    assert (in_range 224 239 x = false ∧ in_range 240 244 x = false) as [-> ->].
    { rewrite in_range_iff in H2. split; apply not_true_is_false; rewrite in_range_iff; lia. }
    by destruct l. }
  destruct (in_range 224 239 x) eqn:H3.
  { rewrite (ranges_apart x H3). destruct l as [|y l]; [done|]. cbn [app]. destruct (second3 x y).
    - destruct l as [|z l]; [done|]. cbn [app andb]. by destruct (cont z).
    - intros _. by destruct l. }
  destruct (in_range 240 244 x).
  { destruct l as [|y l]; [done|]. cbn [app]. destruct (second4 x y).
    - destruct l as [|z l]; [done|]. cbn [app andb]. destruct (cont z); [|done]. destruct l as [|w l]; [done|]. cbn [app].
      by destruct (cont w).
    - intros _. by destruct l. }
  intros _. by destruct l as [|y [|z l]].
Qed.

(** What a final call makes of an incomplete character *)
Lemma step_utf8_more l : step_utf8 l = More → l ≠ [] → decode l = [REPLACEMENT].
Proof.
  destruct l as [|x l]; [done|]. cbn [step_utf8 decode]. intros H _. revert H.
  destruct (x <? 128); [done|]. repeat case_match; done.
Qed.

Lemma utf_8_decode_spec (final : bool) fuel l :
  (length l ≤ fuel)%nat →
  if final then utf_8_decode final fuel l = (decode l, [])
  else ∀ m : bytes, decode (l ++ m) = (utf_8_decode final fuel l).1 ++ decode ((utf_8_decode final fuel l).2 ++ m).
Proof.
  revert l. induction fuel as [|fuel IH]; intros l Hl.
  { destruct l; simpl in Hl; [|lia]. by destruct final. }
  destruct l as [|x l]; [by destruct final|]. cbn [utf_8_decode].
  destruct (step_utf8 (x :: l)) as [c rest| |] eqn:Hs.
  - pose proof (step_utf8_char _ _ _ [] Hs) as [Hd Hlen]. rewrite !app_nil_r in Hd. specialize (IH rest ltac:(simpl in *; lia)).
    destruct final; [by rewrite IH, Hd|]. intros m. rewrite (proj1 (step_utf8_char _ _ _ m Hs)), (IH m).
    by destruct (utf_8_decode false fuel rest).
  - destruct final; [|done]. by rewrite (step_utf8_more _ Hs) by done.
  - pose proof (bad_length_pos (x :: l)) as Hpos. pose proof (step_utf8_bad (x :: l) [] Hs) as Hd. rewrite !app_nil_r in Hd.
    specialize (IH (drop (bad_length (x :: l)) (x :: l)) ltac:(rewrite length_drop; simpl in *; lia)).
    destruct final; [by rewrite IH, Hd|]. intros m. rewrite (step_utf8_bad (x :: l) m Hs), (IH m).
    by destruct (utf_8_decode false fuel (drop _ _)).
Qed.

(** Feeding a chunk *)
Lemma decoder_chunk kept data m :
  decode (kept ++ data ++ m) = (decoder_decode false kept data).1 ++ decode ((decoder_decode false kept data).2 ++ m).
Proof. unfold decoder_decode. rewrite app_assoc. by apply (utf_8_decode_spec false). Qed.
(** The last call *)
Lemma decoder_end kept : decoder_decode true kept [] = (decode kept, []).
Proof. unfold decoder_decode. rewrite app_nil_r. by apply (utf_8_decode_spec true). Qed.

Example decoder_ex :
  decoder_decode false [] [104; 226; 130] = ([104], [226; 130]) ∧ decoder_decode false [226; 130] [172] = ([8364], []) ∧
  decoder_decode false [226; 130] [98] = ([REPLACEMENT; 98], []) ∧ decoder_decode true [240; 159] [] = ([REPLACEMENT], []) ∧
  decoder_decode false [] [237; 160; 240; 144; 128; 33] = ([REPLACEMENT; REPLACEMENT; REPLACEMENT; 33], []).
Proof. split_and!; reflexivity. Qed.

(** ** What the client sees and what the shell reads *)

Section StreamProofs.
Context (int_text : text → option Z).
Abbreviation do_ := (pty_do int_text).
Abbreviation step := (pty_step int_text).
Abbreviation reaches := (pty_reaches int_text).

Lemma shown_send ok m b :
  shown (send_text ok m b) = shown b ++ match m with Stdout t => if ok then t else [] | _ => [] end.
Proof.
  unfold shown, send_text. simpl. destruct ok; [|by destruct m; rewrite app_nil_r].
  rewrite map_app, concat_app. simpl. by rewrite app_nil_r.
Qed.

(** What is read but not shown yet *)
Definition output_ok (b : Bridge) : Prop :=
  match reader b with
  | Reading => ∀ m, decode (output_read b ++ m) = shown b ++ decode (buffer b ++ m)
  | SendingOutput t false => ∀ m, decode (output_read b ++ m) = shown b ++ t ++ decode (buffer b ++ m)
  | SendingOutput t true => decode (output_read b) = shown b ++ t
  | ReaderDone true => decode (output_read b) = shown b
  | ReaderDone false => ∃ lost, decode (output_read b) = shown b ++ lost
  end.

Definition input_ok (b : Bridge) : Prop :=
  match writer b with
  | Receiving => input_taken b = encode_replace (typed b)
  | Writing view => input_taken b ++ view = encode_replace (typed b)
  | WriterDone => ∃ lost, input_taken b ++ lost = encode_replace (typed b)
  end.

Lemma encode_replace_app t u : encode_replace (t ++ u) = encode_replace t ++ encode_replace u.
Proof. unfold encode_replace. by rewrite map_app, concat_app. Qed.

Lemma output_ok_same b b' :
  reader b' = reader b → output_read b' = output_read b → buffer b' = buffer b → shown b' = shown b →
  output_ok b → output_ok b'.
Proof. unfold output_ok. by intros -> -> -> ->. Qed.
Lemma input_ok_same b b' :
  writer b' = writer b → input_taken b' = input_taken b → typed b' = typed b → input_ok b → input_ok b'.
Proof. unfold input_ok. by intros -> -> ->. Qed.

Lemma output_read_ok r b : reader b = Reading → output_ok b → output_ok (_read_pty_output r b).
Proof.
  intros Hr Hb. unfold output_ok in Hb. rewrite Hr in Hb. unfold _read_pty_output.
  destruct (_read_pty r) as [[|x chunk]|]; [|clear r|by unfold output_ok; rewrite Hr].
  - rewrite decoder_end. specialize (Hb []). rewrite !app_nil_r in Hb.
    destruct (decode (buffer b)) as [|c t] eqn:Hd; unfold output_ok; simpl; rewrite Hb; [by rewrite app_nil_r|done].
  - pose proof (decoder_chunk (buffer b) (x :: chunk)) as Hc.
    destruct (decoder_decode false (buffer b) (x :: chunk)) as [t kept]. simpl in Hc.
    destruct t as [|c t]; unfold output_ok; cbn; intros m; rewrite <- app_assoc, Hb; cbn [app]; by rewrite Hc.
Qed.

Lemma output_sent_ok ok t last b : reader b = SendingOutput t last → output_ok b → output_ok (output_sent ok t last b).
Proof.
  intros Hr Hb. unfold output_ok in Hb. rewrite Hr in Hb. unfold output_sent.
  assert (Hs : shown (with_reader (if ok then if last then ReaderDone true else Reading else ReaderDone false) (buffer b)
                (send_text ok (Stdout t) b)) = shown b ++ if ok then t else []) by exact (shown_send ok (Stdout t) b).
  unfold output_ok. rewrite Hs. cbn. destruct ok, last.
  - done.
  - intros m. rewrite Hb. by rewrite app_assoc.
  - exists t. by rewrite app_nil_r.
  - exists (t ++ decode (buffer b)). specialize (Hb []). rewrite !app_nil_r in *. done.
Qed.

Lemma input_frame_ok f now ioctl_ok b :
  writer b = Receiving → input_ok b → input_ok (_read_websocket_input int_text f now ioctl_ok b).
Proof.
  intros Hw Hb. assert (Hd : input_ok (with_writer WriterDone b)).
  { unfold input_ok in *. rewrite Hw in Hb. simpl. exists []. by rewrite app_nil_r. }
  unfold _read_websocket_input. destruct f as [| | | |type_ data cols rows]; [done..|].
  destruct (is_type type_ stdin_name).
  - destruct data as [[| | | |[|c t]| |]|]; try done. unfold input_ok in *. rewrite Hw in Hb.
    cbn [with_writer with_typed writer input_taken typed]. by rewrite Hb, encode_replace_app.
  - destruct (is_type type_ resize_name); [|done]. destruct (dim_of int_text cols 80), (dim_of int_text rows 24); try done.
    by destruct ioctl_ok.
Qed.

Lemma input_written_ok r view b : writer b = Writing view → input_ok b → input_ok (_write_pty r view b).
Proof.
  intros Hw Hb. unfold input_ok in Hb. rewrite Hw in Hb. destruct r as [n| |]; cbn [_write_pty].
  - pose proof (take_drop n view) as Ht. destruct (drop n view) as [|x rest] eqn:Hd; unfold input_ok; cbn.
    + rewrite app_nil_r in Ht. by rewrite Ht.
    + rewrite <- app_assoc, Ht. done.
  - unfold input_ok. by rewrite Hw.
  - unfold input_ok. cbn. by exists view.
Qed.

(** An invariant of the two tasks that every step keeps *)
Definition streams_ok (b : Bridge) : Prop := output_ok b ∧ input_ok b.

Lemma cancel_tasks_ok b : streams_ok b → streams_ok (cancel_tasks b).
Proof.
  intros [Ho Hi]. unfold cancel_tasks. split.
  - apply (output_ok_same (if reader_done b then b else with_reader (ReaderDone false) (buffer b) b)).
    1-4: by destruct (waiter_done _).
    unfold reader_done. unfold output_ok in Ho. destruct (reader b) as [|t []|c] eqn:Hr.
    + unfold output_ok. cbn. specialize (Ho []). rewrite !app_nil_r in Ho. by eexists.
    + unfold output_ok. cbn. by exists t.
    + unfold output_ok. cbn. specialize (Ho []). rewrite !app_nil_r in Ho. by eexists.
    + unfold output_ok. by rewrite Hr.
  - assert (He : ∃ lost, input_taken b ++ lost = encode_replace (typed b)).
    { unfold input_ok in Hi. destruct (writer b); [exists []; by rewrite app_nil_r|by eexists|done]. }
    unfold input_ok. destruct (waiter_done _), (reader_done b); exact He.
Qed.

Lemma streams_ok_step b b' : streams_ok b → step b b' → streams_ok b'.
Proof.
  intros Hb [e He]. assert (Hh : ∀ c w h, streams_ok (with_handler c w h b)) by (intros; exact Hb).
  destruct Hb as [Ho Hi]. destruct e as [r|ok|f now ok|r|r|ok|why| | | |]; cbn in He.
  - destruct (reader b) eqn:Hr; [|done..]. injection He as <-. split; [by apply output_read_ok|].
    apply (input_ok_same b); [..|done]; unfold _read_pty_output; repeat case_match; done.
  - destruct (reader b) eqn:Hr; [done| |done]. injection He as <-. split; [by apply output_sent_ok|by apply (input_ok_same b)].
  - destruct (writer b) eqn:Hw; [|done..]. injection He as <-. split; [|by apply input_frame_ok].
    apply (output_ok_same b); [..|done]; unfold _read_websocket_input; repeat case_match; done.
  - destruct (writer b) eqn:Hw; [done| |done]. injection He as <-. split; [|by apply input_written_ok].
    apply (output_ok_same b); [..|done]; unfold _write_pty; repeat case_match; done.
  - destruct (waiter b); [|done..]. injection He as <-. by destruct r.
  - destruct (waiter b) as [|code| |]; [done| |done..]. injection He as <-. split; [|by apply (input_ok_same b)].
    apply (output_ok_same b); [done..| |done].
    exact (eq_trans (shown_send ok (ExitMessage code) b) (app_nil_r _)).
  - injection He as <-. by destruct (close_event b).
  - destruct (handler b); [|done..]. case_match; [|done]. injection He as <-. unfold wait_over, ending. repeat case_match; apply Hh.
  - destruct (handler b); [done| |done..]. injection He as <-. apply Hh.
  - destruct (handler b); try done; injection He as <-; apply Hh.
  - destruct (handler b) as [| |c|]; try done. injection He as <-. by apply (cancel_tasks_ok b).
Qed.

Lemma started_streams b : started b → streams_ok b.
Proof.
  intros (shell & os & cols & rows & now & fork_ok & ioctl_ok & ready_ok & error_ok & close & why & ->).
  unfold handle_session. destruct fork_ok, ready_ok, error_ok; split; cbn; try done; by exists [].
Qed.

Lemma reaches_inv (I : Bridge → Prop) b b' : (∀ x y, I x → step x y → I y) → I b → reaches b b' → I b'.
Proof. intros HI Hb Hr. induction Hr as [|x y z Hxy _ IH]; [done|]. apply IH. by eapply HI. Qed.

(** C34: However the bytes are cut, the writes are short and the tasks interleave: the
    client was shown the decoding of what the shell printed, but for a rest, which
    is empty after the last output and an incomplete character while the reader
    waits; and the terminal took the bytes of what the client typed, but for a
    rest that is still being written or that the end of the writer lost. *)
Theorem terminal_streams b b' :
  started b → reaches b b' →
  (∃ rest, decode (output_read b') = shown b' ++ rest ∧
           (reader b' = ReaderDone true → rest = []) ∧ (reader b' = Reading → rest = decode (buffer b'))) ∧
  (∃ rest, encode_replace (typed b') = input_taken b' ++ rest ∧
           (writer b' = Receiving → rest = []) ∧ ∀ view, writer b' = Writing view → rest = view).
Proof.
  intros Hs Hr. destruct (reaches_inv streams_ok b b' streams_ok_step (started_streams b Hs) Hr) as [Ho Hi]. split.
  - unfold output_ok in Ho. destruct (reader b') as [|t []|[]] eqn:Hrd.
    + specialize (Ho []). rewrite !app_nil_r in Ho. by eexists.
    + exists t. by split_and!.
    + specialize (Ho []). rewrite !app_nil_r in Ho. eexists. by split_and!.
    + exists []. rewrite app_nil_r. by split_and!.
    + destruct Ho as [lost Hl]. exists lost. by split_and!.
  - unfold input_ok in Hi. destruct (writer b') as [|view|] eqn:Hw.
    + exists []. rewrite app_nil_r. by split_and!.
    + exists view. split_and!; [done..|]. by intros ? [= ->].
    + destruct Hi as [lost Hl]. exists lost. by split_and!.
Qed.

(** ** The exit code *)

Lemma exits_send ok m b :
  exits (send_text ok m b) = exits b ++ match m with ExitMessage c => if ok then [c] else [] | _ => [] end.
Proof.
  unfold exits, send_text. simpl. destruct ok; [|by destruct m; rewrite app_nil_r].
  rewrite omap_app. by destruct m.
Qed.

(** The exit was told at most once, as it was; nothing of it while the child runs. *)
Definition exit_ok (b : Bridge) : Prop :=
  match waiter b with
  | Polling | SendingExit _ => exits b = []
  | WaiterDone (Some c) => exits b = [] ∨ exits b = [c]
  | WaiterDone None => exits b = []
  | WaiterCancelled => exits b = []
  end ∧
  match handler b with
  | Over (Some r) => r = match waiter b with WaiterDone c => c | _ => None end ∧ waiter_done b = true
  | _ => True
  end.

Lemma exit_ok_same b b' :
  waiter b' = waiter b → exits b' = exits b →
  handler b' = handler b ∨ match handler b' with Over (Some _) => False | _ => True end → exit_ok b → exit_ok b'.
Proof.
  unfold exit_ok, waiter_done. intros -> -> [->|Hh] [H1 H2]; (split; [done|]); [done|].
  by destruct (handler b') as [| | |[r|]].
Qed.

Lemma exit_ok_step b b' : exit_ok b → step b b' → exit_ok b'.
Proof.
  intros Hb [e He].
  assert (Hh : ∀ c w h, match h with Over (Some _) => False | _ => True end → exit_ok (with_handler c w h b)).
  { intros c w h Hh. apply (exit_ok_same b); [done..|by right|done]. }
  destruct e as [r|ok|f now ok|r|r|ok|why| | | |]; cbn in He.
  - destruct (reader b) eqn:Hr; [|done..]. injection He as <-.
    apply (exit_ok_same b); [| |left|done]; unfold _read_pty_output; repeat case_match; done.
  - destruct (reader b) as [|t last|]; [done| |done]. injection He as <-.
    apply (exit_ok_same b); [done| |by left|done].
    exact (eq_trans (exits_send ok (Stdout t) b) (app_nil_r _)).
  - destruct (writer b) eqn:Hw; [|done..]. injection He as <-.
    apply (exit_ok_same b); [| |left|done]; unfold _read_websocket_input; repeat case_match; done.
  - destruct (writer b) eqn:Hw; [done| |done]. injection He as <-.
    apply (exit_ok_same b); [| |left|done]; unfold _write_pty; repeat case_match; done.
  - destruct (waiter b) eqn:Hw; [|done..]. injection He as <-. destruct Hb as [H1 H2]. rewrite Hw in H1.
    assert (Hn : match handler b with Over (Some _) => False | _ => True end).
    { unfold waiter_done in H2. rewrite Hw in H2. destruct (handler b) as [| | |[]]; try done. by destruct H2. }
    destruct r as [| |status]; cbn [_wait_for_exit].
    + split; [exact H1|]. cbn. destruct (handler b) as [| | |[]]; done.
    + split; [by rewrite Hw|done].
    + destruct (close_event b); (split; [|cbn; by destruct (handler b) as [| | |[]]]); [by left|done].
  - destruct (waiter b) as [|code| |] eqn:Hw; [done| |done..]. injection He as <-. destruct Hb as [H1 H2]. rewrite Hw in H1.
    split.
    + change (exits (exit_sent ok code b) = [] ∨ exits (exit_sent ok code b) = [code]).
      assert (Hx : exits (exit_sent ok code b) = if ok then [code] else []).
      { etransitivity; [exact (exits_send ok (ExitMessage code) b)|]. by rewrite H1. }
      rewrite Hx. destruct ok; [by right|by left].
    + cbn. unfold waiter_done in H2. rewrite Hw in H2. destruct (handler b) as [| | |[]]; try done. by destruct H2.
  - injection He as <-. destruct (close_event b); [done|].
    apply (exit_ok_same b); [done..|by left|done].
  - destruct (handler b); [|done..]. case_match; [|done]. injection He as <-. unfold wait_over, ending. repeat case_match; by apply Hh.
  - destruct (handler b); [done| |done..]. injection He as <-. by apply Hh.
  - destruct (handler b); try done; injection He as <-; by apply Hh.
  - destruct (handler b) as [| |c|] eqn:Hhd; try done. injection He as <-. destruct Hb as [H1 _]. unfold terminated, cancel_tasks, exit_ok.
    unfold waiter_done. destruct (reader_done b); cbn; destruct (waiter b) as [| |c0|] eqn:Hw; cbn; rewrite ?Hw;
      (split; [done|by destruct c]).
Qed.

Lemma started_exit b : started b → exit_ok b.
Proof.
  intros (shell & os & cols & rows & now & fork_ok & ioctl_ok & ready_ok & error_ok & close & why & ->).
  unfold handle_session. destruct fork_ok, ready_ok, error_ok; done.
Qed.

(** What [handle_session] returns is what the client was told, if it was told
    anything: at most one exit message is sent, with the code of the child, and a
    handler that returned has no task left that polls. *)
Theorem exit_told_once b b' :
  started b → reaches b b' →
  (length (exits b') ≤ 1)%nat ∧
  (∀ c, c ∈ exits b' → waiter b' = WaiterDone (Some c)) ∧
  (∀ r, handler b' = Over (Some r) → ∀ c, c ∈ exits b' → r = Some c).
Proof.
  intros Hs Hr. destruct (reaches_inv exit_ok b b' exit_ok_step (started_exit b Hs) Hr) as [H1 H2].
  assert (Hc : ∀ c, c ∈ exits b' → waiter b' = WaiterDone (Some c)).
  { intros c Hc. destruct (waiter b') as [|?|[c0|]|]; try (rewrite H1 in Hc; set_solver).
    destruct H1 as [H1|H1]; rewrite H1 in Hc; [set_solver|]. by assert (c = c0) as -> by set_solver. }
  split_and!; [|done|].
  - destruct (waiter b') as [|?|[c0|]|]; try (rewrite H1; simpl; lia). destruct H1 as [-> | ->]; simpl; lia.
  - intros r Hh c Hin. rewrite Hh in H2. destruct H2 as [-> _]. by rewrite (Hc c Hin).
Qed.

(** ** Closing and the end *)

(** Once the shell is being closed, no exit is told that was not on its way. *)
Definition quiet (b : Bridge) : Prop := close_event b = true ∧ match waiter b with SendingExit _ => False | _ => True end.

Lemma quiet_same b b' :
  close_event b' = close_event b → waiter b' = waiter b → exits b' = exits b → quiet b → quiet b' ∧ exits b' = exits b.
Proof. unfold quiet. by intros -> -> ->. Qed.

Lemma quiet_step b b' : quiet b → step b b' → quiet b' ∧ exits b' = exits b.
Proof.
  intros Hq [e He]. destruct e as [r|ok|f now ok|r|r|ok|why| | | |]; cbn in He.
  - destruct (reader b); [|done..]. injection He as <-.
    apply quiet_same; [| | |done]; unfold _read_pty_output; repeat case_match; done.
  - destruct (reader b) as [|t last|]; [done| |done]. injection He as <-. apply quiet_same; [done..| |done].
    exact (eq_trans (exits_send ok (Stdout t) b) (app_nil_r _)).
  - destruct (writer b); [|done..]. injection He as <-.
    apply quiet_same; [| | |done]; unfold _read_websocket_input; repeat case_match; done.
  - destruct (writer b); [done| |done]. injection He as <-. apply quiet_same; [| | |done]; unfold _write_pty; repeat case_match; done.
  - destruct Hq as [Hc Hw]. destruct (waiter b) eqn:E; [|done..]. injection He as <-. unfold quiet.
    destruct r; cbn; rewrite ?Hc, ?E; by split_and!.
  - destruct Hq as [_ Hw]. by destruct (waiter b).
  - injection He as <-. by rewrite (proj1 Hq).
  - destruct (handler b); [|done..]. case_match; [|done]. injection He as <-. destruct Hq. unfold wait_over, ending.
    destruct (_ && _); split; done.
  - destruct (handler b); [done| |done..]. injection He as <-. by destruct Hq.
  - destruct (handler b); try done; injection He as <-; by destruct Hq.
  - destruct (handler b) as [| |c|]; try done. injection He as <-. destruct Hq as [Hc Hw]. unfold quiet, terminated, cancel_tasks, waiter_done.
    destruct (reader_done b); cbn; destruct (waiter b) eqn:E; cbn; rewrite ?E; by split_and!.
Qed.

(** No exit is told that was not on its way when the shell was to be closed. *)
Theorem closing_is_quiet b b' : quiet b → reaches b b' → exits b' = exits b.
Proof.
  intros Hq Hr. assert (quiet b' ∧ exits b' = exits b) as [_ ?]; [|done].
  induction Hr as [|x y z Hxy _ IH]; [done|]. destruct (quiet_step x y Hq Hxy) as [Hy He]. destruct (IH Hy). split; [done|congruence].
Qed.

(** How many steps of its own the handler has left *)
Definition stages (b : Bridge) : nat := match handler b with Waiting => 3 | Grace => 2 | Ending _ => 1 | Over _ => 0 end.
(** The steps of the handler *)
Definition own_step (e : pty_event) : bool :=
  match e with WaitOver | GraceOver | HandlerCancelled | Terminated => true | _ => false end.

Lemma stages_do e b b' :
  do_ e b = Some b' → if own_step e then (stages b' < stages b)%nat else handler b' = handler b.
Proof.
  intros He. unfold stages. destruct e as [r|ok|f now ok|r|r|ok|why| | | |]; cbn in He; cbn [own_step].
  - destruct (reader b); [|done..]. injection He as <-. unfold _read_pty_output. repeat case_match; done.
  - destruct (reader b); [done| |done]. by injection He as <-.
  - destruct (writer b); [|done..]. injection He as <-. unfold _read_websocket_input. repeat case_match; done.
  - destruct (writer b); [done| |done]. injection He as <-. unfold _write_pty. repeat case_match; done.
  - destruct (waiter b); [|done..]. injection He as <-. by destruct r.
  - destruct (waiter b); [done| |done..]. by injection He as <-.
  - injection He as <-. by destruct (close_event b).
  - destruct (handler b); [|done..]. case_match; [|done]. injection He as <-. unfold wait_over. destruct (_ && _); simpl; lia.
  - destruct (handler b); [done| |done..]. injection He as <-. simpl. lia.
  - destruct (handler b); try done; injection He as <-; simpl; lia.
  - destruct (handler b) as [| |c|]; try done. injection He as <-. simpl. lia.
Qed.

(** The handler takes at most three steps of its own, and has one to take as soon
    as a task is done or the shell is to be closed. *)
Theorem handler_ends b :
  (∀ es b', pty_run int_text es b = Some b' → (length (List.filter own_step es) + stages b' ≤ stages b)%nat) ∧
  (reader_done b || writer_done b || waiter_done b || close_event b = true → stages b ≠ 0%nat →
   ∃ e b', own_step e = true ∧ e ≠ HandlerCancelled ∧ do_ e b = Some b').
Proof.
  split.
  - intros es. revert b. induction es as [|e es IH]; intros b b'; simpl; [intros [= ->]; lia|].
    destruct (do_ e b) as [b1|] eqn:He; [|done]. intros Hr. specialize (IH b1 b' Hr). apply stages_do in He.
    destruct (own_step e); simpl; [lia|]. unfold stages in *. by rewrite <- He.
  - unfold stages. intros Hd Hn. destruct (handler b) eqn:Hh; [| | |done].
    + exists WaitOver. eexists. cbn. by rewrite Hh, Hd.
    + exists GraceOver. eexists. cbn. by rewrite Hh.
    + exists Terminated. eexists. cbn. by rewrite Hh.
Qed.


(** A handler that returns leaves no task behind. *)
Definition settled (b : Bridge) : bool :=
  match handler b with Over (Some _) => reader_done b && writer_done b && waiter_done b | _ => true end.

Lemma settled_step b b' : settled b = true → step b b' → settled b' = true.
Proof.
  intros Hb [e He]. pose proof (stages_do _ _ _ He) as Hst. unfold settled in *.
  destruct (own_step e) eqn:Ho; [destruct e; try done; cbn in He|].
  - destruct (handler b); [|done..]. case_match; [|done]. injection He as <-. unfold wait_over. by destruct (reader_done b && _ && _).
  - destruct (handler b); [done| |done..]. by injection He as <-.
  - destruct (handler b); try done; by injection He as <-.
  - destruct (handler b) as [| |c|]; try done. injection He as <-. unfold terminated, cancel_tasks.
    destruct c; [done|]. unfold reader_done, writer_done, waiter_done. destruct (reader b) eqn:Hr; cbn; destruct (waiter b) eqn:Hw; cbn;
      by rewrite ?Hr, ?Hw.
  - rewrite Hst. destruct (handler b) as [| | |[r|]] eqn:Hh; try done.
    apply andb_prop in Hb as [Hb Hx]. apply andb_prop in Hb as [Hy Hz]. unfold reader_done, writer_done, waiter_done in *.
    destruct e as [r0|ok|f now ok|r0|r0|ok|why| | | |]; cbn in He, Ho; try done.
    1,2: by destruct (reader b).
    1,2: by destruct (writer b).
    1,2: by destruct (waiter b).
    injection He as <-. destruct (close_event b); cbn; by rewrite Hx, Hy, Hz.
Qed.

Theorem returned_settled b b' r :
  started b → reaches b b' → handler b' = Over (Some r) →
  reader_done b' = true ∧ writer_done b' = true ∧ waiter_done b' = true.
Proof.
  intros Hs Hr Hh. assert (Hb : settled b = true).
  { destruct Hs as (shell & os & cols & rows & now & fork_ok & ioctl_ok & ready_ok & error_ok & close & why & ->).
    unfold handle_session. by destruct fork_ok, ready_ok. }
  pose proof (reaches_inv (λ x, settled x = true) b b' settled_step Hb Hr) as HI. unfold settled in HI. rewrite Hh in HI.
  apply andb_prop in HI as [HI Hx]. apply andb_prop in HI as [Hy Hz]. done.
Qed.
End StreamProofs.

(** ** Around a session *)

(** Reaping gives up at the first poll after the deadline. *)
Lemma reap_ends deadline polls n r now :
  polls !! n = Some (r, now) → deadline <= now → (_reap deadline polls <= S n)%nat.
Proof.
  revert n. induction polls as [|[r0 now0] polls IH]; intros n; [done|]. simpl.
  destruct (reap_round r0 now0 deadline) eqn:Hr; [lia|]. destruct n as [|n]; simpl.
  - intros [= -> ->] Hd. exfalso. destruct r; simpl in Hr; try discriminate. apply Z.leb_gt in Hr. lia.
  - intros Hn Hd. specialize (IH n Hn Hd). lia.
Qed.

(** A shell runs the shell of the server's user if it can, else one that can be
    executed, and [/bin/sh] when there is none. *)
Lemma detect_shell_executable env_shell executable :
  executable (_detect_shell env_shell executable) = true ∨
  (_detect_shell env_shell executable = "/bin/sh" ∧ executable "/bin/sh" = false).
Proof.
  unfold _detect_shell. destruct (truthy_opt env_shell && executable (or_empty env_shell)) eqn:H.
  { apply andb_prop in H as [_ H]. by left. }
  simpl. destruct (executable "/bin/bash") eqn:H1; [by left|]. destruct (executable "/usr/bin/bash") eqn:H2; [by left|].
  destruct (executable "/bin/sh") eqn:H3; simpl; [by left|by right].
Qed.

(** The audit log of the plugin never breaks a shell: recording raises only when
    the handler is cancelled, and without a user it is a line of the server's log. *)
Theorem recording_is_safe {World P} (provider : option (ShellAccessProvider World P)) session_id exit_code now
    (s : ShellSession P) (w : World) :
  (∀ e, (_opened provider session_id s w).1 = inl e → e = ShellCancelled) ∧
  (∀ e, (_closed provider session_id exit_code now s w).1 = inl e → e = ShellCancelled) ∧
  (ss_principal s = None → _opened provider session_id s w = (inr Logged, w) ∧ _closed provider session_id exit_code now s w = (inr Logged, w)).
Proof.
  assert (Hr : ∀ event metadata e, (recorded provider event metadata s w).1 = inl e → e = ShellCancelled).
  { intros event metadata e. unfold recorded. destruct (ss_principal s); [|done]. destruct provider as [pr|]; [|done].
    rewrite py_bind_eq. unfold except_any, try_except. destruct (sp_audit pr event _ _ w) as [[[]|]]; simpl; try done. by intros [= <-]. }
  split_and!; [apply Hr..|]. intros Hn. unfold _opened, _closed, recorded. by rewrite Hn.
Qed.

(** A change of the sessions of the users plugin reaches every shell of a user
    that is not being closed. *)
Theorem recheck_reaches {P} (d : dict string (ShellSession P)) i s :
  dict_get i d = Some s → ss_principal s ≠ None → close_set s = false → i ∈ request_recheck d ∧ _spawn_check s = true.
Proof.
  intros Hg Hp Hc. split; [|unfold _spawn_check; by rewrite Hc]. unfold request_recheck. apply list_elem_of_omap.
  exists (i, s). simpl. rewrite Hc. split; [by apply dict_get_elem_of|]. by destruct (ss_principal s).
Qed.

(** ** A shell at work *)

Module PtyExample.
Definition no_int (t : text) : option Z := None.
Definition shell0 : Bridge := handle_session "bash" "linux" 80 24 0 true true true true false END_EXITED.
Lemma shell0_started : started shell0.
Proof. by exists "bash", "linux", 80, 24, 0, true, true, true, true, false, END_EXITED. Qed.

Definition stdin_frame (t : text) : frame := Object (Some (JText stdin_name)) (Some (JText t)) None None.
Definition resize_frame (cols rows : jval) : frame := Object (Some (JText resize_name)) None (Some cols) (Some rows).

(** The prompt comes in two chunks cut inside a character, [ls] is taken in two
    writes, and the shell ends with code 3. *)
Definition session_events : list pty_event :=
  [OutputRead (ReadBytes [226; 157]); OutputRead ReadBlocks; FrameArrives (stdin_frame [108; 115; 10]) 7 true;
   OutputRead (ReadBytes [175; 32]); InputWritten (Wrote 1); InputWritten WriteBlocks; OutputSent true;
   InputWritten (Wrote 2); FrameArrives (resize_frame (JInt 100) JNull) 8 true; ChildPolled StillRunning;
   OutputRead ReadFails; WaitOver; ChildPolled (Ended 768); ExitSent true; GraceOver; Terminated].
Definition session_over : Bridge := Eval vm_compute in default shell0 (pty_run no_int session_events shell0).

Example session_ex :
  sent session_over = [Ready "bash" "linux"; Stdout [10095; 32]; ExitMessage 3] ∧
  input_taken session_over = [108; 115; 10] ∧ window session_over = Some (24, 100) ∧
  handler session_over = Over (Some (Some 3)) ∧ reason session_over = END_EXITED.
Proof. vm_compute. split_and!; reflexivity. Qed.

Lemma session_reached : pty_reaches no_int shell0 session_over.
Proof. apply (pty_run_reaches _ session_events). reflexivity. Qed.

Lemma terminal_streams_witness : decode [226; 157; 175; 32] = [10095; 32] ∧ encode_replace [108; 115; 10] = [108; 115; 10].
Proof.
  destruct (terminal_streams no_int shell0 session_over shell0_started session_reached) as [(r1 & H1 & E1 & _) (r2 & H2 & _ & _)].
  split; [|reflexivity]. rewrite (E1 eq_refl), app_nil_r in H1. exact H1.
Defined.

Lemma exit_told_once_witness : waiter session_over = WaiterDone (Some 3).
Proof.
  destruct (exit_told_once no_int shell0 session_over shell0_started session_reached) as (_ & H & _). apply H.
  vm_compute. by left.
Defined.

Lemma returned_settled_witness : writer_done session_over = true.
Proof. apply (returned_settled no_int shell0 session_over (Some 3) shell0_started session_reached). reflexivity. Defined.

Definition closing : Bridge := Eval vm_compute in default shell0 (pty_run no_int [CloseRequested "x"] shell0).
Definition closed_exit : Bridge := Eval vm_compute in default closing (pty_run no_int [ChildPolled (Ended 0)] closing).
Lemma closing_is_quiet_witness : exits closed_exit = [].
Proof.
  apply (closing_is_quiet no_int closing closed_exit); [done|].
  apply (pty_run_reaches _ [ChildPolled (Ended 0)]). reflexivity.
Defined.

(** A window size too large for an integer ends the shell: nothing catches the
    [OverflowError] of [int]. *)
Example infinity_ends_shell :
  (λ b, (writer b, handler b, reason b)) <$> pty_run no_int [FrameArrives (resize_frame (JFloat Infinite) JNull) 8 true; WaitOver] shell0
  = Some (WriterDone, Ending false, END_CLOSED).
Proof. vm_compute. reflexivity. Qed.

(** A handler that is cancelled while it ends a shell leaves its tasks running. *)
Example cancelled_end_leaks :
  (λ b, (reader b, waiter b, handler b)) <$> pty_run no_int [CloseRequested "x"; WaitOver; HandlerCancelled] shell0
  = Some (Reading, Polling, Over None).
Proof. vm_compute. reflexivity. Qed.
End PtyExample.
