(* ===== verification/ShellSafety.v ===== *)
(** * Shells: who opens one, what it sees, when it times out *)

From S2P Require Import Prelude PyStr Values Http Shell.
From Stdlib Require Import Ascii.

(** ** Access *)

Section Access.
Context {World P : Type} (sha256 : string → string) (authorize : ShellSocket → py World shell_exn bool).
Context (provider : option (ShellAccessProvider World P)) (o : CliShellOptions).

Lemma except_any_inr {A} (m h : py World shell_exn A) s a s' :
  except_any m h s = (inr a, s') → m s = (inr a, s') ∨ ∃ e s1, m s = (inl e, s1) ∧ h s1 = (inr a, s').
Proof.
  unfold except_any, try_except. destruct (m s) as [[e|x] s1]; [|by left]. destruct e; [right; eauto..|done].
Qed.

Lemma extra_checks_ok w s u s' :
  extra_checks sha256 authorize o w s = (inr u, s') →
  (∀ t, sh_token o = Some t → t ≠ "" → ∃ t', presented_token w = Some t' ∧ sha256 t' = sha256 t) ∧
  (has_authorize o = true → ∃ s1 s2, authorize w s1 = (inr true, s2)).
Proof.
  unfold extra_checks. rewrite py_bind_eq.
  match goal with |- context [(if ?b then ?x else ?y) s] => destruct ((if b then x else y) s) as [[e|[]] s1] eqn:Ht end; [done|].
  intros Ha. split.
  - intros t Hopt Hne. rewrite Hopt in Ht. simpl in Ht. apply truthy_spec in Hne. rewrite Hne in Ht.
    unfold check_token, raise_if in Ht. destruct (presented_token w) as [t'|]; [|done]. exists t'. split; [done|].
    unfold tokens_equal in Ht. case_bool_decide; [done|]. simpl in Ht. unfold raise in Ht. by simplify_eq.
  - intros Hh. rewrite Hh in Ha. unfold check_authorize in Ha. rewrite py_bind_eq in Ha.
    destruct (except_any (authorize w) _ s1) as [[e|ok] s2] eqn:He; [done|].
    apply except_any_inr in He as [He|(e & s3 & _ & He)]; [|done]. destruct ok; [by exists s1, s2|done].
Qed.

(** C20: Whoever gets a shell passed every configured check: with an auth plugin its
    caller is one that plugin resolved and lets open shells; the token, if one
    is set, was presented; the host's check, if there is one, said yes.  When
    nothing is configured nobody gets one, and anonymous access takes its own
    option. *)
Theorem shell_authorized w s m p s' :
  _authorize sha256 authorize provider o w s = (inr (m, p), s') →
  m = resolve_mode o (bool_decide (is_Some provider)) ∧ m ≠ MODE_LOCKED ∧ (m = MODE_ANONYMOUS → allow_anonymous o = true) ∧
  match provider with
  | Some pr => ∃ q s1, p = Some q ∧ can_open pr q = true ∧ resolve pr w s = (inr (Some q), s1)
  | None => p = None
  end ∧
  (∀ t, sh_token o = Some t → t ≠ "" → ∃ t', presented_token w = Some t' ∧ sha256 t' = sha256 t) ∧
  (has_authorize o = true → ∃ s1 s2, authorize w s1 = (inr true, s2)).
Proof.
  unfold _authorize. destruct provider as [pr|].
  - rewrite py_bind_eq. destruct (except_any (resolve pr w) _ s) as [[e|[q|]] s1] eqn:Hr; [done| |done].
    destruct (can_open pr q) eqn:Hc; [|done]. rewrite py_bind_eq.
    destruct (extra_checks _ _ _ w s1) as [[e|u] s2] eqn:Hx; [done|]. intros [= <- <- <-].
    apply extra_checks_ok in Hx as [Ht Ha]. split_and!; [done..| |done|done].
    apply except_any_inr in Hr as [Hr|(e & s3 & _ & [=])]. by exists q, s1.
  - assert (Hm : ∀ md, resolve_mode o false = md → md ≠ MODE_LOCKED → md ≠ MODE_ANONYMOUS →
      (_ ← extra_checks sha256 authorize o w; mret (md, None)) s = (inr (m, p), s') →
      m = resolve_mode o false ∧ m ≠ MODE_LOCKED ∧ (m = MODE_ANONYMOUS → allow_anonymous o = true) ∧ p = None ∧
      (∀ t, sh_token o = Some t → t ≠ "" → ∃ t', presented_token w = Some t' ∧ sha256 t' = sha256 t) ∧
      (has_authorize o = true → ∃ s1 s2, authorize w s1 = (inr true, s2))).
    { intros md Hmd Hl Han. rewrite py_bind_eq. destruct (extra_checks _ _ _ w s) as [[e|u] s2] eqn:Hx; [done|].
      intros [= <- <- <-]. apply extra_checks_ok in Hx as [Ht Ha]. by split_and!. }
    rewrite bool_decide_eq_false_2 by (by intros [? ?]).
    destruct (resolve_mode o false) eqn:Hmode; try (by apply Hm).
    + intros [= <- <- <-]. unfold resolve_mode in Hmode. destruct (truthy_opt (sh_token o)) eqn:Ht; [done|].
      destruct (has_authorize o) eqn:Hh; [done|]. destruct (allow_anonymous o) eqn:Han; [|done].
      split_and!; [done..| |done]. intros t Hopt Hne. exfalso. rewrite Hopt in Ht. simpl in Ht. apply truthy_spec in Hne. congruence.
    + done.
Qed.
End Access.

(** ** The environment *)

Lemma copy_from_get source names env k :
  dict_get k (copy_from source names env) =
  if decide (k ∈ names ∧ is_Some (dict_get k source)) then dict_get k source else dict_get k env.
Proof.
  unfold copy_from. revert env. induction names as [|n names IH]; intros env; cbn [foldl].
  { rewrite decide_False; [done|]. by intros [?%elem_of_nil _]. }
  rewrite IH. destruct (decide (k ∈ names ∧ is_Some (dict_get k source))) as [Hk|Hk].
  { rewrite decide_True; [done|]. destruct Hk. split; [by right|done]. }
  destruct (decide (n = k)) as [->|Hn].
  - destruct (dict_get k source) as [v|] eqn:Hv; [rewrite dict_get_set_eq, decide_True; [done|set_solver]|].
    rewrite decide_False; [done|]. by intros [_ [? ?]].
  - rewrite (decide_False (P := k ∈ n :: names ∧ _)).
    + destruct (dict_get n source); [by rewrite dict_get_set_ne|done].
    + intros [[?|?]%elem_of_cons ?]; [congruence|tauto].
Qed.

Lemma setdefault_ne k k' v env : k ≠ k' → dict_get k' (setdefault k v env) = dict_get k' env.
Proof. intros Hk. unfold setdefault. destruct (dict_mem k env); [done|]. by apply dict_get_set_ne. Qed.

(** The variables a shell may have besides those the host configured *)
Definition shell_names : list string := BASE_ENV_NAMES ++ ["TERM"; "COLUMNS"; "LINES"; "SHELL"; "QCLI_SHELL_ID"].

(** What a shell sees of the server's environment: the four base variables and
    those the host allowed, no other variable of the server; what the host sets
    wins over all that, and the marker of the shell over everything. *)
Theorem build_env_spec o source account shell cols rows i k :
  let env := build_env o source account shell cols rows (Some i) in
  dict_get "QCLI_SHELL_ID" env = Some i ∧
  (k ≠ "QCLI_SHELL_ID" → dict_ok (env_set o) → is_Some (dict_get k (env_set o)) → dict_get k env = dict_get k (env_set o)) ∧
  (k ∉ dict_keys (env_set o) → k ∉ shell_names →
   dict_get k env = if decide (k ∈ env_allow o) then dict_get k source else None).
Proof.
  cbv zeta. unfold build_env. set (base := dict_set "SHELL" _ _). set (allowed := copy_from source (env_allow o) base).
  split; [by rewrite dict_get_set_eq|]. split.
  - intros Hk Hok [v Hv]. rewrite dict_get_set_ne by congruence. rewrite dict_get_foldl_set by done. by rewrite Hv.
  - intros Hset Hnames. unfold shell_names, BASE_ENV_NAMES in Hnames.
    assert (Hl : ∀ l d : dict string string, k ∉ dict_keys l → dict_get k (foldl (λ env kv, dict_set kv.1 kv.2 env) d l) = dict_get k d).
    { induction l as [|[j v] l IH]; intros d Hj; simpl; [done|]. rewrite IH by set_solver. apply dict_get_set_ne. set_solver. }
    rewrite dict_get_set_ne by set_solver. rewrite Hl by done. unfold allowed. rewrite copy_from_get.
    assert (Hbase : dict_get k base = None).
    { unfold base. rewrite !dict_get_set_ne by set_solver.
      assert (H0 : dict_get k (copy_from source BASE_ENV_NAMES []) = None).
      { rewrite copy_from_get, decide_False; [done|]. unfold BASE_ENV_NAMES. set_solver. }
      set (first := if dict_mem "PATH" _ then _ else _).
      assert (H1 : dict_get k first = None) by (unfold first; destruct (dict_mem "PATH" _); rewrite ?dict_get_set_ne by set_solver; done).
      clearbody first. destruct (negb (dict_mem "HOME" first) || negb (dict_mem "USER" first)); [|exact H1]. destruct account as [[home name]|]; [|done].
      by rewrite !setdefault_ne by set_solver. }
    rewrite Hbase. destruct (decide (k ∈ env_allow o)).
    + destruct (dict_get k source); [by rewrite decide_True|]. rewrite decide_False; [done|]. by intros [_ [? ?]].
    + rewrite decide_False; [done|]. by intros [? _].
Qed.

(** ** Timeouts *)

Section Watch.
Context {P : Type} (o : CliShellOptions).
Implicit Types (s : ShellSession P).

(** The deadlines of a session, besides its next check *)
Definition deadlines s : list Z :=
  match nonzero (idle_timeout o) with Some t => [ss_last_input s + t] | None => [] end ++
  match nonzero (max_duration o) with Some t => [ss_started s + t] | None => [] end.
Definition all_deadlines s (next_check : option Z) : list Z :=
  deadlines s ++ match next_check with Some c => [c] | None => [] end.

Lemma earliest_spec l :
  match earliest l with
  | None => ∀ d, Some d ∉ l
  | Some m => Some m ∈ l ∧ ∀ d, Some d ∈ l → m ≤ d
  end.
Proof.
  unfold earliest.
  assert (Hgen : ∀ l m, match foldl (λ m d, match m, d with Some x, Some y => Some (Z.min x y) | None, d => d | m, None => m end) m l with
    | None => m = None ∧ ∀ d, Some d ∉ l
    | Some r => (m = Some r ∨ Some r ∈ l) ∧ (∀ x, m = Some x → r ≤ x) ∧ ∀ d, Some d ∈ l → r ≤ d
    end).
  { clear l. induction l as [|d l IH]; intros m; cbn [foldl].
    - destruct m as [m|]; [split_and!; [by left|intros x [= ->]; lia|by intros ? ?%elem_of_nil]|split; [done|by intros ? ?%elem_of_nil]].
    - specialize (IH match m, d with Some x, Some y => Some (Z.min x y) | None, d => d | m, None => m end).
      destruct (foldl _ _ l) as [r|].
      + destruct IH as (H1 & H2 & H3). destruct m as [x|], d as [y|].
        * specialize (H2 _ eq_refl). split_and!.
          -- destruct H1 as [[= H1]|?]; [|right; by right]. destruct (Z.min_spec x y) as [[_ Hm]|[_ Hm]]; rewrite Hm in H1; subst; [by left|right; by left].
          -- intros x' [= <-]. lia.
          -- intros d' [[= ->]|Hd]%elem_of_cons; [lia|auto].
        * split_and!; [destruct H1; [by left|right; by right]|auto|]. intros d' [?|?]%elem_of_cons; [done|auto].
        * specialize (H2 _ eq_refl). split_and!; [destruct H1 as [[= ->]|?]; right; [by left|by right]|done|].
          intros d' [[= ->]|?]%elem_of_cons; [done|auto].
        * split_and!; [destruct H1; [done|right; by right]|done|]. intros d' [?|?]%elem_of_cons; [done|auto].
      + destruct IH as [H1 H2]. destruct m as [x|], d as [y|]; try done. split; [done|]. intros d' [?|?]%elem_of_cons; [done|by eapply H2]. }
  specialize (Hgen l None). destruct (foldl _ None l); [|by apply Hgen]. destruct Hgen as ([?|?] & _ & ?); done.
Qed.

Lemma past_spec now d : past now d = true ↔ ∃ x, d = Some x ∧ x ≤ now.
Proof. destruct d as [x|]; simpl; [rewrite Z.leb_le; naive_solver|naive_solver]. Qed.

Lemma elem_deadlines s d :
  d ∈ deadlines s ↔ Some d = ((λ t, ss_last_input s + t) <$> nonzero (idle_timeout o)) ∨
                    Some d = ((λ t, ss_started s + t) <$> nonzero (max_duration o)).
Proof.
  unfold deadlines. rewrite elem_of_app. destruct (nonzero (idle_timeout o)), (nonzero (max_duration o)); simpl;
    rewrite ?list_elem_of_singleton, ?elem_of_nil; naive_solver.
Qed.

(** One round of the watcher: a shell is timed out exactly when its idle time or
    its longest duration is over, checked when its next check is due, and else
    the watcher sleeps, never past a deadline by more than ten milliseconds;
    it sleeps without an end only when there is no deadline. *)
Theorem watch_round_spec now next_check s :
  match watch_round o now next_check s with
  | TimeOut => ∃ d, d ∈ deadlines s ∧ d ≤ now
  | CheckNow => (∀ d, d ∈ deadlines s → now < d) ∧ ∃ c, next_check = Some c ∧ c ≤ now
  | Sleep t =>
      (∀ d, d ∈ all_deadlines s next_check → now < d) ∧
      match t with
      | None => all_deadlines s next_check = []
      | Some us => 0 < us ∧ ∀ d, d ∈ all_deadlines s next_check → now + us ≤ Z.max d (now + 10000)
      end
  end.
Proof.
  unfold watch_round. cbv zeta. set (idle := (λ t, ss_last_input s + t) <$> nonzero (idle_timeout o)).
  set (longest := (λ t, ss_started s + t) <$> nonzero (max_duration o)).
  assert (Hd : ∀ d, d ∈ deadlines s ↔ Some d = idle ∨ Some d = longest) by apply elem_deadlines.
  destruct (past now idle || past now longest) eqn:Hpast.
  { apply orb_true_iff in Hpast as [(x & Hx & Hle)%past_spec|(x & Hx & Hle)%past_spec]; exists x; rewrite Hd; auto. }
  apply orb_false_elim in Hpast as [Hi Hl]. apply not_true_iff_false in Hi, Hl. rewrite past_spec in Hi, Hl.
  assert (Hfuture : ∀ d, d ∈ deadlines s → now < d).
  { intros d [H|H]%Hd; apply Z.nle_gt; intros Hle; [apply Hi|apply Hl]; eauto. }
  destruct (past now next_check) eqn:Hc; [by apply past_spec in Hc|]. apply not_true_iff_false in Hc. rewrite past_spec in Hc.
  assert (Hall : ∀ d, d ∈ all_deadlines s next_check ↔ Some d ∈ [idle; longest; next_check]).
  { intros d. unfold all_deadlines. rewrite elem_of_app, Hd, !elem_of_cons, elem_of_nil.
    destruct next_check; rewrite ?list_elem_of_singleton, ?elem_of_nil; naive_solver. }
  assert (Hfall : ∀ d, d ∈ all_deadlines s next_check → now < d).
  { intros d. unfold all_deadlines. intros [?|Hn]%elem_of_app; [auto|]. destruct next_check as [c|]; [|by apply elem_of_nil in Hn].
    apply list_elem_of_singleton in Hn as ->. apply Z.nle_gt. intros Hle. apply Hc. eauto. }
  split; [done|]. pose proof (earliest_spec [idle; longest; next_check]) as He.
  destruct (earliest [idle; longest; next_check]) as [m|]; simpl.
  - destruct He as [_ Hm]. split; [lia|]. intros d Hin. apply Hall, Hm in Hin. lia.
  - destruct (all_deadlines s next_check) as [|d l]; [done|]. exfalso. apply (He d), Hall. by left.
Qed.
End Watch.
