(* ===== verification/ShellUsers.v ===== *)
(** * Shells of signed-in users ([users/shell_access.py])

    The auth plugin's side of the shell: who a connection is, whether it may open
    a shell, and whether an open shell's caller may keep it.  Identities of an
    external adapter are checked by running the adapter again; the adapter, the
    request it accepted ([external_request] of the context) and the parameters of
    the upgrade are the host's. *)

From S2P Require Import Prelude PyStr Values Permissions Events UserModel Validation.
From S2P Require Import UserStores PasswordHasher Throttle AuditModel AuthService AuthSafety Http.
From S2P Require Shell.
From Stdlib Require Import Ascii.

Definition SHELL_PERMISSION : string := "shell:execute".
Definition PERMISSION_REMOVED : string := "permission removed".

Section ShellUsers.
Context {Host : Type} `{E : AuthEnv Host}.
Abbreviation method := (py (World Host) uexn).
(** Requests, the adapter if there is one, and the request a context was
    authenticated with, if it was kept *)
Context {Request : Type} (auth_adapter : option (Request → py Host uexn (option ExternalAuthResult))).
Context (external_request : AuthContext → option Request).

(** ** Identities of the adapter *)

Definition revalidate_external (ctx : AuthContext) (connection : option Request) : method (option AuthContext) :=
  match external ctx, auth_adapter, match external_request ctx with Some r => Some r | None => connection end with
  | true, Some run_auth_adapter, Some request =>
      result ← except_exception (on_host (run_auth_adapter request)) (λ _, mret None);
      match result with
      | Some r =>
          if negb (bool_decide (u_id (e_user r) = u_id (c_user ctx))) || disabled (e_user r) then mret None
          else (c ← _external_context r; mret (Some c))
      | None => mret None
      end
  | _, _, _ => mret None
  end.

Definition is_external_socket_active (ctx : option AuthContext) (permission : option string) : method bool :=
  match ctx with
  | Some ctx =>
      if negb (external ctx) then mret true
      else
        current ← revalidate_external ctx None;
        mret match current with
             | Some c => match permission with Some p => can c p | None => true end
             | None => false
             end
  | None => mret true
  end.

(** ** The provider *)

Record UsersShellPrincipal := {
  user_id : string;
  user_name : string;
  session_id : option string;
  context : AuthContext;
  connection : option Request;
}.

(** [scope_auth]: the context the server's protection found; [ticket]: the query
    parameter *)
Definition resolve (scope_auth : option AuthContext) (ticket : option string) (websocket : Request)
    : method (option UsersShellPrincipal) :=
  ctx ← match scope_auth with Some c => mret (Some c) | None => consume_ticket ticket end;
  mret ((λ c, {| user_id := u_id (c_user c); user_name := u_name (c_user c);
                 session_id := s_id <$> session c; context := c; connection := Some websocket |}) <$> ctx).

Definition can_open (p : UsersShellPrincipal) : bool :=
  negb (must_change_password (c_user (context p))) && can (context p) SHELL_PERMISSION.

(** [False], the reason or [True] for a context found again *)
Definition still_allowed (fresh : AuthContext) : bool + string :=
  if must_change_password (c_user fresh) then inl false
  else if can fresh SHELL_PERMISSION then inl true else inr PERMISSION_REMOVED.

Definition _api_token_active (p : UsersShellPrincipal) (token : ApiToken) : method (bool + string) :=
  record ← get_token (t_id token);
  match record with
  | Some record =>
      if bool_decide (t_user_id record = user_id p) then
        except_exception (fresh ← context_for_api_token record; mret (still_allowed fresh)) (λ _, mret (inl false))
      else mret (inl false)
  | None => mret (inl false)
  end.

Definition _adapter_active (p : UsersShellPrincipal) : method (bool + string) :=
  fresh ← revalidate_external (context p) (connection p);
  mret match fresh with Some c => still_allowed c | None => inl false end.

Definition is_active (p : UsersShellPrincipal) : method (bool + string) :=
  if external (context p) then _adapter_active p
  else
    match api_token (context p), session_id p with
    | Some token, _ => _api_token_active p token
    | None, None => mret (inl false)
    | None, Some i =>
        x ← get_session_by_id i;
        now ← now_ms;
        match x with
        | Some x =>
            if negb (bool_decide (s_user_id x = user_id p)) || is_expired x now then mret (inl false)
            else
              u ← get_user (user_id p);
              match u with
              | Some u =>
                  if negb (bool_decide (u_id u = user_id p)) || disabled u || must_change_password u then mret (inl false)
                  else
                    ps ← user_permissions u;
                    mret (if has_permission ps SHELL_PERMISSION then inl true else inr PERMISSION_REMOVED)
              | None => mret (inl false)
              end
        | None => mret (inl false)
        end
    end.

Definition touch (p : UsersShellPrincipal) : method unit :=
  if external (context p) then mret tt
  else
    match session_id p with
    | None => mret tt
    | Some i =>
        x ← get_session_by_id i;
        match x with
        | Some x => if is_empty (token_hash x) then mret tt else update_last_activity (token_hash x)
        | None => mret tt
        end
    end.

Definition shell_audit (event : string) (p : UsersShellPrincipal) (m : dict string pyval) : method unit :=
  audit event (user_name p) (with_metadata m (detail (Some (user_id p)) (Some (user_name p, user_id p)))).

(** The provider the server sees; every exception of the plugin but a
    cancellation is the same to it. *)
Definition as_shell {A} (m : method A) : py (World Host) Shell.shell_exn A := λ s,
  let '(r, s') := m s in
  (match r with
   | inr a => inr a
   | inl Cancellation => inl Shell.ShellCancelled
   | inl _ => inl (Shell.ShellExn "")
   end, s').
Definition UsersShellAccess (scope_auth : Shell.ShellSocket → option AuthContext)
    (ticket : Shell.ShellSocket → option string) (request : Shell.ShellSocket → Request)
    : Shell.ShellAccessProvider (World Host) UsersShellPrincipal :=
  {| Shell.resolve w := as_shell (resolve (scope_auth w) (ticket w) (request w));
     Shell.can_open := can_open;
     Shell.is_active p := as_shell (is_active p);
     Shell.touch p := as_shell (touch p);
     Shell.sp_audit event p m := as_shell (shell_audit event p m) |}.
End ShellUsers.

(** ** When a shell may go on *)

Section Active.
Context {Host : Type} `{E : AuthEnv Host} {Request : Type}.
Context (auth_adapter : option (Request → py Host uexn (option ExternalAuthResult))).
Context (external_request : AuthContext → option Request).
Implicit Types (p : @UsersShellPrincipal Request) (s : World Host).

(** The caller's enabled user, with no password change pending *)
Definition ready_user s (uid : string) (u : User) : Prop := live s uid = Some u ∧ must_change_password u = false.

(** What the caller of an open shell holds now, by its stored session or token *)
Definition holds_shell p s : Prop :=
  match api_token (context p) with
  | Some t =>
      ∃ record u, dict_get (t_id t) (api_tokens (st s)) = Some record ∧ t_user_id record = user_id p ∧
        token_is_expired record (clock (host s)) = false ∧ ready_user s (user_id p) u ∧
        let held := group_permissions (groups (st s)) (u_groups u) in
        has_permission match t_permissions record with
                       | Some scope => List.filter (has_permission held) scope
                       | None => held
                       end SHELL_PERMISSION = true
  | None =>
      ∃ i x u, session_id p = Some i ∧ session_by_id i (sessions (st s)) = Some x ∧ s_user_id x = user_id p ∧
        clock (host s) ≤ expires_at x ∧ ready_user s (user_id p) u ∧
        has_permission (group_permissions (groups (st s)) (u_groups u)) SHELL_PERMISSION = true
  end.

(** What an answer of the check says of a shell *)
Definition answers p s (r : bool + string) : Prop :=
  (r = inl true ↔ holds_shell p s) ∧ (live s (user_id p) = None → r = inl false).

Lemma context_for_token_refused t s e s' : context_for_api_token t s = (inl e, s') →
  s' = s ∧ e ≠ Cancellation ∧ (token_is_expired t (clock (host s)) = true ∨ live s (t_user_id t) = None).
Proof.
  unfold context_for_api_token. rewrite py_bind_eq. cbn [now_ms gets].
  destruct (token_is_expired t (clock (host s))); [intros [= <- <-]; auto|]. rewrite py_bind_eq, live_user_eq.
  destruct (live s (t_user_id t)); [done|]. intros [= <- <-]. auto.
Qed.

Lemma token_answer p t s : api_token (context p) = Some t → ∃ r, _api_token_active p t s = (inr r, s) ∧ answers p s r.
Proof.
  intros Ht. unfold _api_token_active, answers, holds_shell. rewrite Ht, py_bind_eq. cbn [get_token gets].
  destruct (dict_get (t_id t) (api_tokens (st s))) as [record|]; [|exists (inl false); split; [done|]; split; [naive_solver|done]].
  case_bool_decide as Huid; [|exists (inl false); split; [done|]; split; [naive_solver|done]].
  unfold except_exception, try_except. rewrite py_bind_eq. destruct (context_for_api_token record s) as [[e|c] s1] eqn:Hc.
  - apply context_for_token_refused in Hc as (-> & He & Hwhy). exists (inl false). split; [by destruct e|]. split; [|done].
    split; [done|]. intros (record' & u & [= <-] & _ & Hexp & [Hl _] & _). rewrite Huid in Hwhy. destruct Hwhy; congruence.
  - apply context_for_api_token_eq in Hc as (-> & Hexp & Hl & Hps). exists (still_allowed c). split; [done|].
    rewrite Huid in Hl. unfold ready_user. rewrite Hl. split; [|done]. unfold still_allowed, can. rewrite Hps.
    destruct (must_change_password (c_user c)) eqn:Hm.
    + split; [done|]. intros (? & ? & _ & _ & _ & [[= <-] Hm'] & _). congruence.
    + destruct (has_permission _ SHELL_PERMISSION) eqn:Hp.
      * split; [|done]. intros _. by exists record, (c_user c).
      * split; [done|]. intros (? & ? & [= <-] & _ & _ & [[= <-] _] & Hp'). cbv zeta in Hp'. congruence.
Qed.

Lemma no_answer p s : ¬ holds_shell p s → answers p s (inl false).
Proof. by split. Qed.

#[local] Ltac refuse :=
  exists (inl false); split; [done|]; apply no_answer; unfold holds_shell, ready_user, live;
  match goal with H : api_token _ = None |- _ => rewrite H end;
  intros (? & ? & ? & ? & ? & ? & ? & [Hlive ?] & ?); simplify_eq;
  repeat first [done|case_match; simplify_eq];
  match goal with H : _ && _ = true |- _ => apply andb_true_iff in H as [?%bool_decide_eq_true ?%negb_true_iff] end; congruence.

Lemma session_answer p s : external (context p) = false → api_token (context p) = None →
  ∃ r, is_active auth_adapter external_request p s = (inr r, s) ∧ answers p s r.
Proof.
  intros He Ht. unfold is_active. rewrite He, Ht.
  destruct (session_id p) as [i|] eqn:Hsid; [|refuse].
  rewrite !py_bind_eq. cbn [get_session_by_id gets now_ms]. rewrite py_bind_eq. cbn [gets].
  destruct (session_by_id i (sessions (st s))) as [x|] eqn:Hbyid; [|refuse].
  case_bool_decide as Hx; cbn [negb orb]; [|refuse].
  unfold is_expired. unfold now_ms at 1, gets at 1. destruct (Z.ltb_spec (expires_at x) (clock (host s))).
  { exists (inl false). split; [done|]. apply no_answer. unfold holds_shell. rewrite Ht, Hsid.
    intros (? & ? & ? & [= <-] & ? & ? & ? & _). simplify_eq. lia. }
  rewrite py_bind_eq. cbn [get_user gets]. destruct (find_in (user_id p) (users (st s))) as [u|] eqn:Hfind;
    [|refuse].
  case_bool_decide as Hu; cbn [negb orb andb]; [|refuse].
  destruct (disabled u) eqn:Hd; cbn [negb orb andb]; [refuse|].
  destruct (must_change_password u) eqn:Hm.
  { refuse. }
  rewrite py_bind_eq. cbn [user_permissions effective_permissions gets].
  unfold answers, holds_shell, ready_user, live. rewrite Ht, Hsid, Hfind, bool_decide_eq_true_2, Hd by done. cbn [andb negb].
  destruct (has_permission (group_permissions _ _) SHELL_PERMISSION) eqn:Hp.
  - exists (inl true). split; [done|]. split; [|done]. split; [|done]. intros _. by exists i, x, u.
  - exists (inr PERMISSION_REMOVED). split; [done|]. split; [|done]. split; [done|].
    intros (? & ? & ? & _ & _ & _ & _ & [[= <-] _] & Hp'). congruence.
Qed.

(** The periodic check of a shell: for a caller with a stored session or token it
    changes nothing and answers yes exactly when that session or token is still
    valid, belongs to an enabled user without a pending password change, and
    grants [shell:execute] by the groups as they are now.  Any other answer closes
    the shell, as soon as the server hears it; a deleted or disabled user's session
    counts as ended. *)
Theorem shell_active_spec p s now (ss : Shell.ShellSession UsersShellPrincipal) :
  external (context p) = false → Shell.ss_principal ss = Some p →
  ∃ r, is_active auth_adapter external_request p s = (inr r, s) ∧
    (r = inl true ↔ holds_shell p s) ∧
    (live s (user_id p) = None → r = inl false) ∧
    (¬ holds_shell p s → Shell.close_set (Shell._check (Some r) now ss) = true) ∧
    (holds_shell p s → Shell.close_set (Shell._check (Some r) now ss) = Shell.close_set ss).
Proof.
  intros He Hss.
  assert (∃ r, is_active auth_adapter external_request p s = (inr r, s) ∧ answers p s r) as (r & Hr & Hiff & Hlive).
  { destruct (api_token (context p)) as [t|] eqn:Ht; [|by apply session_answer].
    unfold is_active. rewrite He, Ht. by apply token_answer. }
  exists r. split_and!; [done..| |]; rewrite <- Hiff; unfold Shell._check, Shell._end_reason; rewrite Hss.
  - intros Hno. destruct r as [[|]|]; [done|..]; unfold Shell.request_close; by destruct (Shell.close_set ss) eqn:Hc.
  - intros ->. by destruct (Shell.touch_due now ss).
Qed.
End Active.
