(* ===== verification/ShellExample.v ===== *)
(** * Shells at work

    A server with one shell, the processes of its terminal, and the checks of a
    signed-in user's shell. *)

From S2P Require Import Prelude PyStr Values Http.
From S2P Require Import ShellProcs.
From S2P Require Import Shell ShellTable ShellSafety.
From S2P Require Values Permissions Events UserModel Validation UserStores AuthService AuthSafety AuthExample ShellUsers.
From stdpp Require Import relations.

Open Scope Z_scope.

(** ** Sessions *)

Definition user_of (p : string) : string := p.
Definition one_shell : CliShellOptions :=
  {| sh_token := Some "s3cret"; has_authorize := false; allow_anonymous := false; max_sessions_per_user := 3; max_sessions := 1;
     idle_timeout := Some (seconds 900); max_duration := None; sh_cwd := None; sh_shell := None; env_allow := ["TERM_PROGRAM"];
     env_set := [("EDITOR", "vi")]; session_check_interval := None; sh_trust_proxy := inl false |}.

Definition arrived : ShellManager (P := string) :=
  Eval vm_compute in arrive user_of one_shell MODE_USERS (Some "ann") "10.0.0.1" None "s1" 0 new_shell_manager.
Definition ann_shell : ShellSession string := new_shell user_of MODE_USERS (Some "ann") "10.0.0.1" None 0.
Definition opening : ShellManager (P := string) := Eval vm_compute in checked_first "s1" ann_shell arrived.
Definition running : ShellManager (P := string) := Eval vm_compute in set_phase "s1" Running opening.

Lemma arrived_step : sh_step user_of one_shell new_shell_manager arrived.
Proof. exact (sh_arrive user_of one_shell new_shell_manager MODE_USERS (Some "ann") "10.0.0.1" None "s1" 0 eq_refl eq_refl). Qed.
Lemma opening_step : sh_step user_of one_shell arrived opening.
Proof. exact (sh_first user_of one_shell arrived "s1" ann_shell (Some (inl true)) 5 eq_refl eq_refl). Qed.
Lemma running_step : sh_step user_of one_shell opening running.
Proof. exact (sh_opened user_of one_shell opening "s1" eq_refl). Qed.

Lemma running_reached : rtc (sh_step user_of one_shell) new_shell_manager running.
Proof.
  eapply rtc_l; [apply arrived_step|]. eapply rtc_l; [apply opening_step|]. eapply rtc_l; [apply running_step|]. constructor.
Qed.

Lemma shells_within_limits_witness : Z.of_nat (length (_sessions running)) ≤ 1.
Proof.
  refine (proj1 (shells_within_limits user_of one_shell running _) _); [|discriminate].
  apply (rtc_subrel (sh_step user_of one_shell)); [|exact running_reached]. intros m m' H. left. exact H.
Defined.

Lemma sessions_attended_witness : is_Some (dict_get "s1" (_sessions running)).
Proof. apply (proj1 (sessions_attended user_of one_shell running running_reached) "s1"). exists Running. split; [reflexivity|exact I]. Defined.

(** The shutdown of a server does not change what a timed out shell is closed with. *)
Definition timed_out : ShellManager (P := string) := Eval vm_compute in set_session "s1" (time_out ann_shell) running.
Definition shut_down : ShellManager (P := string) :=
  {| _sessions := close_all "server stopping" (_sessions timed_out); handlers := handlers timed_out;
     sockets_closed := sockets_closed timed_out |}.

Lemma first_close_wins_witness :
  match dict_get "s1" (_sessions shut_down) with
  | Some s => close_as s = Some (4408, "shell timed out")
  | None => False
  end.
Proof.
  assert (sh_any user_of one_shell timed_out shut_down) as H by (left; apply sh_close_all).
  refine (proj1 (proj2 (first_close_wins user_of one_shell timed_out shut_down "s1" (time_out ann_shell) H _ _ _))).
  - reflexivity.
  - reflexivity.
  - apply (bool_decide_unpack _). vm_compute. exact I.
Defined.

(** A handler that is cancelled while it waits for the first check, or for the
    audit log, leaves its session in the table: with room for one, nobody gets a
    shell any more. *)
Example cancelled_handler_leaks :
  let leaked := handler_done "s1" None arrived in
  sh_cancel arrived leaked ∧ handlers leaked = [] ∧ length (_sessions leaked) = 1%nat ∧
  arrive user_of one_shell MODE_USERS (Some "bob") "10.0.0.2" None "s2" 60 leaked =
    {| _sessions := _sessions leaked; handlers := []; sockets_closed := [("s2", CLOSE_LIMIT, REASON_LIMIT)] |}.
Proof.
  split_and!; [|reflexivity..]. apply (cancel_early arrived "s1" Checking); [reflexivity|left].
Qed.

(** ** Access *)

Definition with_token (t : string) : ShellSocket :=
  {| authorization_header := Some ("Bearer " +:+ t); header_parameter := None; forwarded_for := []; peer := Some "10.0.0.1";
     cols_param := None; rows_param := None; cmd_param := None |}.
Definition no_authorize (w : ShellSocket) : py unit shell_exn bool := raise (ShellExn "not configured").
Definition no_provider : option (ShellAccessProvider unit string) := None.

Lemma shell_authorized_witness :
  ∃ t, presented_token (with_token "s3cret") = Some t ∧ t = "s3cret".
Proof.
  destruct (shell_authorized (World := unit) (P := string) id no_authorize no_provider one_shell (with_token "s3cret") tt MODE_TOKEN None tt)
    as (_ & _ & _ & _ & Ht & _); [reflexivity|].
  apply (Ht "s3cret"); [reflexivity|discriminate].
Defined.

Lemma build_env_spec_witness :
  dict_get "AWS_SECRET" (build_env one_shell [("AWS_SECRET", "x"); ("PATH", "/bin"); ("EDITOR", "emacs")] None "/bin/sh" 80 24 (Some "i")) = None ∧
  dict_get "EDITOR" (build_env one_shell [("AWS_SECRET", "x"); ("PATH", "/bin"); ("EDITOR", "emacs")] None "/bin/sh" 80 24 (Some "i")) = Some "vi".
Proof.
  split.
  - refine (proj2 (proj2 (build_env_spec one_shell _ None "/bin/sh" 80 24 "i" "AWS_SECRET")) _ _);
      apply (bool_decide_unpack _); vm_compute; exact I.
  - refine (proj1 (proj2 (build_env_spec one_shell _ None "/bin/sh" 80 24 "i" "EDITOR")) _ _ _); [discriminate| |eexists; reflexivity].
    apply (bool_decide_unpack _); vm_compute; exact I.
Defined.

(** ** Processes *)

(** The shell is process 100; 101 and 102 are below it, 103 left the tree but
    keeps the marker, 7 is the server's. *)
Definition view : OsView :=
  {| has_proc := true;
     stat_files := [(7, Some "7 (server) S 1 7 7"); (100, Some "100 (sh) S 7 100 100"); (101, Some "101 (a) b) S 100 101 100");
                    (102, Some "102 (make) S 101 102 102"); (103, Some "103 (job) S 1 103 103"); (104, None)];
     environ_files := [(103, Some ("A=1" +:+ String Ascii.zero "QCLI_SHELL_ID=i1")); (104, None)];
     ps_table := ""; ps_environ := ""; own_pid := 7; own_group := 7 |}.

Lemma collect_targets_spec_witness :
  ∃ procs, _list_processes view = Some procs ∧ belongs view procs 100 (Some "i1") true 102 ∧ ¬ own view procs 102.
Proof.
  destruct (collect_targets_spec view 100 (Some "i1") true [102; 100; 101; 103]) as (procs & Hp & H); [vm_compute; reflexivity|].
  exists procs. split; [exact Hp|]. apply H. apply (bool_decide_unpack _). vm_compute. exact I.
Defined.

Definition closing : Termination :=
  {| exit_watched := true; exited := false; first_view := view; second_view := view; exited_later := true;
     alive := λ q, q =? 103; refused := (false, false, false) |}.


(** ** The shell of a signed-in user *)

Section Users.
Import Values Permissions Events UserModel Validation UserStores AuthService AuthSafety AuthExample ShellUsers.

Definition no_adapter : option (unit → py Host uexn (option ExternalAuthResult)) := None.
Definition no_request (c : AuthContext) : option unit := None.
Definition root_shell : @UsersShellPrincipal unit :=
  {| user_id := u_id (c_user caller); user_name := u_name (c_user caller); session_id := s_id <$> AuthService.session caller;
     context := caller; connection := None |}.
Definition root_session : ShellSession (@UsersShellPrincipal unit) :=
  new_shell user_id MODE_USERS (Some root_shell) "10.0.0.1" None 0.
Definition removed : World Host := Eval vm_compute in (delete_session_by_id (default "" (session_id root_shell)) inside).2.

(** Root's shell goes on while the session is there, and is closed after it was
    revoked. *)
Lemma shell_active_spec_witness :
  (is_active no_adapter no_request root_shell inside).1 = inr (inl true) ∧
  ∃ r, (is_active no_adapter no_request root_shell removed).1 = inr r ∧ close_set (_check (Some r) 9 root_session) = true.
Proof.
  destruct (shell_active_spec no_adapter no_request root_shell inside 9 root_session eq_refl eq_refl) as (r & Hr & [_ Htrue] & _).
  destruct (shell_active_spec no_adapter no_request root_shell removed 9 root_session eq_refl eq_refl) as (r' & Hr' & _ & _ & Hclose & _).
  split.
  - rewrite Hr. cbn [fst]. rewrite Htrue; [reflexivity|]. unfold holds_shell. cbn.
    eexists _, _, _. split; [reflexivity|]. split; [reflexivity|]. split; [reflexivity|]. split; [vm_compute; discriminate|].
    split; [split; reflexivity|reflexivity].
  - exists r'. rewrite Hr'. split; [reflexivity|]. apply Hclose. intros (i & x & u & [= <-] & Hx & _). vm_compute in Hx. discriminate Hx.
Defined.
End Users.
