(* ===== verification/Redact.v ===== *)
(** * Redaction of log messages ([core/security.py], [admin/services/log_ring_buffer.py])

    [re.sub] of the three patterns, each as a scanner: a pattern either matches
    where the scanner is, giving the text that replaces the match and the text
    after it, or the scanner moves on by one character.  The two copies differ in
    the second pattern only. *)

From S2P Require Import Prelude PyStr Values.
From Stdlib Require Import Ascii.

(** ** [re.sub] *)

Definition matcher := option ascii → list ascii → option (list ascii * list ascii).

(** [prev] is the character before [l], for [\b]. *)
Fixpoint re_sub_from (m : matcher) (fuel : nat) (prev : option ascii) (l : list ascii) : list ascii :=
  match fuel, l with
  | S fuel, c :: l' =>
      match m prev l with
      | Some (replacement, rest) =>
          replacement ++ re_sub_from m fuel (last (take (length l - length rest) l)) rest
      | None => c :: re_sub_from m fuel (Some c) l'
      end
  | _, _ => l
  end.
Definition re_sub (m : matcher) (l : list ascii) : list ascii := re_sub_from m (length l) None l.

Fixpoint span (p : ascii → bool) (l : list ascii) : list ascii * list ascii :=
  match l with
  | [] => ([], [])
  | c :: l' => if p c then let '(a, b) := span p l' in (c :: a, b) else ([], l)
  end.

(** [p] is in small letters; [re.IGNORECASE]. *)
Fixpoint after_nocase (p l : list ascii) : option (list ascii) :=
  match p, l with
  | [], _ => Some l
  | c :: p, d :: l => if Ascii.eqb c (lower_ascii d) then after_nocase p l else None
  | _, [] => None
  end.

(** [\w] *)
Definition is_word (c : ascii) : bool :=
  let n := N_of_ascii c in
  ((48 <=? n) && (n <=? 57) || (65 <=? n) && (n <=? 90) || (n =? 95) || (97 <=? n) && (n <=? 122)
   || (n =? 170) || (n =? 178) || (n =? 179) || (n =? 181) || (n =? 185) || (n =? 186) || (188 <=? n) && (n <=? 190)
   || (192 <=? n) && negb (n =? 215) && negb (n =? 247))%N.

Definition redacted : list ascii := chars "[redacted]".

(** ** [(bearer(?:\s+|%20))[A-Za-z0-9._~+/=%-]+] *)

Definition bearer_char (c : ascii) : bool :=
  let n := N_of_ascii c in
  ((48 <=? n) && (n <=? 57) || (65 <=? n) && (n <=? 90) || (97 <=? n) && (n <=? 122))%N
  || bool_decide (c ∈ chars "._~+/=%-").

Definition bearer_separator (l : list ascii) : list ascii * list ascii :=
  match span is_space l with
  | ([], _) => match l with
               | a :: b :: c :: l' => if bool_decide ([a; b; c] = chars "%20") then ([a; b; c], l') else ([], l)
               | _ => ([], l)
               end
  | s => s
  end.

Definition bearer_at : matcher := λ _ l,
  match after_nocase (chars "bearer") l with
  | Some l1 =>
      let '(s, l2) := bearer_separator l1 in
      let '(t, l3) := span bearer_char l2 in
      if bool_decide (s = [] ∨ t = []) then None else Some (take 6 l ++ s ++ redacted, l3)
  | None => None
  end.

(** ** [\b(...)=(...+)] *)

Definition word_before (prev : option ascii) : bool := match prev with Some c => is_word c | None => false end.

Definition query_at (secret_name : list ascii → bool) (value_char : ascii → bool) : matcher := λ prev l,
  if word_before prev then None
  else
    let '(w, l1) := span is_word l in
    match l1 with
    | e :: l2 =>
        let '(v, l3) := span value_char l2 in
        if Ascii.eqb e "="%char && secret_name w && negb (bool_decide (v = [])) then Some (w ++ "="%char :: redacted, l3) else None
    | [] => None
    end.

Definition list_ends_with (k l : list ascii) : bool := bool_decide (drop (length l - length k) l = k).

(** [\w*(?:token|ticket|password|secret)|cmd] *)
Definition core_name (w : list ascii) : bool :=
  let w := map lower_ascii w in
  existsb (λ k, list_ends_with (chars k) w) ["token"; "ticket"; "password"; "secret"] || bool_decide (w = chars "cmd").
(** [token|ticket|password|secret|cmd] *)
Definition admin_name (w : list ascii) : bool :=
  bool_decide (map lower_ascii w ∈ map chars ["token"; "ticket"; "password"; "secret"; "cmd"]).
(** Neither space, ampersand nor quote; the other copy stops at no quote. *)
Definition core_value (c : ascii) : bool :=
  negb (is_space c) && negb (bool_decide (c ∈ ["&"%char; dquote_char; quote_char])).
Definition admin_value (c : ascii) : bool := negb (is_space c) && negb (Ascii.eqb c "&"%char).

(** ** A secret field of a JSON object: its quoted name, a colon, a quoted value *)

Definition is_dquote (c : ascii) : bool := Ascii.eqb c dquote_char.
Definition json_names : list string := ["token"; "ticket"; "password"; "currentpassword"; "newpassword"].

Definition json_at : matcher := λ _ l,
  match l with
  | q :: l1 =>
      let '(k, l2) := span (λ c, negb (is_dquote c)) l1 in
      if is_dquote q && bool_decide (map lower_ascii k ∈ map chars json_names) then
        match lstrip_chars is_space (tail l2) with
        | c :: l3 =>
            match lstrip_chars is_space l3 with
            | q' :: l4 =>
                match span (λ c, negb (is_dquote c)) l4 with
                | (_, _ :: l5) =>
                    if Ascii.eqb c ":"%char && is_dquote q'
                    then Some (dquote_char :: k ++ dquote_char :: chars ": " ++ dquote_char :: redacted ++ [dquote_char], l5)
                    else None
                | _ => None
                end
            | [] => None
            end
        | [] => None
        end
      else None
  | [] => None
  end.

Definition redact_chars (query : matcher) (l : list ascii) : list ascii := re_sub json_at (re_sub query (re_sub bearer_at l)).
Definition redact (message : string) : string := str (redact_chars (query_at core_name core_value) (chars message)).
Definition admin_redact (message : string) : string := str (redact_chars (query_at admin_name admin_value) (chars message)).

(** ** Log records *)

Record LogRecord := {
  levelno : Z;
  levelname : string;
  logger_name : string;
  msg : pyval;
  args : list pyval + dict string pyval;
  sensitive : bool;
}.

Definition _redact_arg (v : pyval) : pyval := match v with VStr s => VStr (redact s) | v => v end.

Definition filter_record (r : LogRecord) : LogRecord :=
  {| levelno := levelno r; levelname := levelname r; logger_name := logger_name r; msg := _redact_arg (msg r);
     args := match args r with
             | inl l => inl (map _redact_arg l)
             | inr d => inr (map (λ kv, (kv.1, _redact_arg kv.2)) d)
             end;
     sensitive := sensitive r |}.
Definition is_sensitive_record (r : LogRecord) : bool := sensitive r.

Example redact_query :
  redact "GET /ws?Ticket=ab1&x=2 access_token=z _header_Authorization=Bearer%20ey.J-w CMD=ls&cmdx=1" =
  "GET /ws?Ticket=[redacted]&x=2 access_token=[redacted] _header_Authorization=Bearer%20[redacted] CMD=[redacted]&cmdx=1".
Proof. vm_compute. reflexivity. Qed.

(** * What a redacted message tells of a secret: nothing

    Two messages that differ in a secret only are redacted to the same text. *)

(** ** [re.sub] in steps *)

Definition sub_at (m : matcher) (prev : option ascii) (l : list ascii) : list ascii := re_sub_from m (length l) prev l.

Class Shrinks (m : matcher) : Prop :=
  shrinks prev l r rest : m prev l = Some (r, rest) → (length rest < length l)%nat.

Lemma re_sub_fuel m `{!Shrinks m} fuel prev l : (length l ≤ fuel)%nat → re_sub_from m fuel prev l = sub_at m prev l.
Proof.
  unfold sub_at. remember (length l) as n eqn:Hn. revert prev l fuel Hn. induction (lt_wf n) as [n _ IH].
  intros prev l fuel -> Hf. destruct l as [|c l']; [by destruct fuel|]. destruct fuel as [|fuel]; [simpl in Hf; lia|].
  cbn [re_sub_from length]. destruct (m prev (c :: l')) as [[r rest]|] eqn:Hm.
  - pose proof (shrinks _ _ _ _ Hm) as Hlt. cbn [length] in Hlt, Hf. f_equal.
    rewrite (IH (length rest) ltac:(simpl; lia) _ rest fuel eq_refl) by lia.
    by rewrite (IH (length rest) ltac:(simpl; lia) _ rest (length l') eq_refl) by lia.
  - cbn [length] in Hf. f_equal. rewrite (IH (length l') ltac:(simpl; lia) _ l' fuel eq_refl) by lia. done.
Qed.

Lemma sub_at_match m `{!Shrinks m} prev l r rest :
  m prev l = Some (r, rest) → ∃ p, sub_at m prev l = r ++ sub_at m p rest ∧ p = last (take (length l - length rest) l).
Proof.
  intros Hm. pose proof (shrinks _ _ _ _ Hm) as Hlt. destruct l as [|c l']; [simpl in Hlt; lia|]. eexists. split; [|done].
  unfold sub_at at 1. cbn [length re_sub_from]. rewrite Hm. f_equal. apply re_sub_fuel; [done|]. simpl in Hlt. lia.
Qed.

Lemma sub_at_skip m prev c l : m prev (c :: l) = None → sub_at m prev (c :: l) = c :: sub_at m (Some c) l.
Proof. intros Hm. unfold sub_at. cbn [length re_sub_from]. by rewrite Hm. Qed.

(** ** [span] *)

Lemma span_eq p l : l = (span p l).1 ++ (span p l).2.
Proof. induction l as [|c l IH]; simpl; [done|]. destruct (p c); [|done]. destruct (span p l). simpl in *. congruence. Qed.

Lemma span_length p l : (length (span p l).2 ≤ length l)%nat.
Proof. rewrite (span_eq p l) at 2. rewrite length_app. lia. Qed.

Lemma span_stop p l : match (span p l).2 with [] => True | c :: _ => p c = false end.
Proof. induction l as [|c l IH]; simpl; [done|]. destruct (p c) eqn:Hc; [|done]. by destruct (span p l). Qed.

Lemma span_app_all p a l : Forall (λ c, p c = true) a → span p (a ++ l) = (a ++ (span p l).1, (span p l).2).
Proof. induction 1 as [|c a Hc _ IH]; simpl; [by destruct (span p l)|]. rewrite Hc, IH. done. Qed.

(** Where a span of [a ++ x] ends: in [a], or beyond it when all of [a] belongs. *)
Lemma span_app_cases p (a : list ascii) :
  Forall (λ c, p c = true) a ∨
  ∃ w c r, a = w ++ c :: r ∧ p c = false ∧ ∀ x, span p (a ++ x) = (w, c :: r ++ x).
Proof.
  induction a as [|c a IH]; [by left|]. destruct (p c) eqn:Hc.
  - destruct IH as [?|(w & d & r & -> & Hd & H)]; [left; by constructor|]. right. exists (c :: w), d, r. split; [done|]. split; [done|].
    intros y. simpl. by rewrite Hc, H.
  - right. exists [], c, a. split; [done|]. split; [done|]. intros y. simpl. by rewrite Hc.
Qed.

Lemma after_nocase_length p l k : after_nocase p l = Some k → length l = (length p + length k)%nat.
Proof.
  revert l. induction p as [|c p IH]; intros l; simpl; [by intros [= ->]|]. destruct l as [|d l]; [done|].
  destruct (Ascii.eqb c (lower_ascii d)); [|done]. intros H. simpl. by rewrite (IH _ H).
Qed.

Lemma after_nocase_app p a l : map lower_ascii a = p → after_nocase p (a ++ l) = Some l.
Proof. intros <-. induction a as [|c a IH]; simpl; [done|]. by rewrite Ascii.eqb_refl. Qed.

(** ** The matchers move on *)

#[export] Instance bearer_shrinks : Shrinks bearer_at.
Proof.
  intros prev l r rest. unfold bearer_at. destruct (after_nocase _ l) as [l1|] eqn:Ha; [|done].
  apply after_nocase_length in Ha. destruct (bearer_separator l1) as [s l2] eqn:Hs.
  assert (length l2 ≤ length l1)%nat.
  { unfold bearer_separator in Hs. destruct (span is_space l1) as [[|x s'] l'] eqn:Hsp.
    - destruct l1 as [|a [|b [|c l1]]]; try (injection Hs as _ <-; simpl; lia).
      case_bool_decide; injection Hs as _ <-; simpl; lia.
    - injection Hs as _ <-. pose proof (span_length is_space l1). by rewrite Hsp in H. }
  pose proof (span_length bearer_char l2) as Hl. destruct (span bearer_char l2) as [t l3].
  case_bool_decide; [done|]. intros [= _ <-]. simpl in Hl, Ha. lia.
Qed.

#[export] Instance query_shrinks name value : Shrinks (query_at name value).
Proof.
  intros prev l r rest. unfold query_at. destruct (word_before prev); [done|].
  pose proof (span_length is_word l) as H1. destruct (span is_word l) as [w [|e l2]]; [done|].
  pose proof (span_length value l2) as H2. destruct (span value l2) as [v l3]. destruct (_ && _ && _); [|done].
  intros [= _ <-]. simpl in *. lia.
Qed.

(** ** Bearer tokens *)

(** A matcher that does not look back *)
Lemma sub_at_forward p q l : sub_at bearer_at p l = sub_at bearer_at q l.
Proof.
  destruct l as [|c l]; [done|]. destruct (bearer_at p (c :: l)) as [[r rest]|] eqn:Hm.
  - destruct (sub_at_match bearer_at p _ _ _ Hm) as (x & -> & ->).
    assert (Hq : bearer_at q (c :: l) = Some (r, rest)) by done.
    by destruct (sub_at_match bearer_at q _ _ _ Hq) as (y & -> & ->).
  - rewrite sub_at_skip by done. by rewrite sub_at_skip.
Qed.

(** The word appears nowhere, in whatever case. *)
Fixpoint mentions_bearer (l : list ascii) : bool :=
  bool_decide (is_Some (after_nocase (chars "bearer") l)) || match l with [] => false | _ :: l => mentions_bearer l end.
Definition no_bearer (l : list ascii) : Prop := mentions_bearer l = false.

Lemma no_bearer_cons c l : no_bearer (c :: l) → after_nocase (chars "bearer") (c :: l) = None ∧ no_bearer l.
Proof.
  unfold no_bearer. cbn [mentions_bearer]. intros [H ?]%orb_false_elim. split; [|done].
  apply bool_decide_eq_false in H. by apply eq_None_not_Some.
Qed.

Lemma after_nocase_inv p l k : after_nocase p l = Some k → ∃ a, l = a ++ k ∧ map lower_ascii a = p.
Proof.
  revert l. induction p as [|c p IH]; intros l; cbn [after_nocase]; [intros [= ->]; by exists []|].
  destruct l as [|d l]; [done|]. destruct (Ascii.eqb_spec c (lower_ascii d)) as [->|]; [|done].
  intros (a & -> & <-)%IH. by exists (d :: a).
Qed.

(** The word begins nowhere inside [c :: l] when it begins right after it: no
    end of it is a beginning of it. *)
Lemma no_bearer_here c l x k :
  no_bearer (c :: l) → lower_ascii x = "b"%char → after_nocase (chars "bearer") (c :: l ++ x :: k) = None.
Proof.
  intros Hl Hx. destruct (after_nocase (chars "bearer") (c :: l ++ x :: k)) as [z|] eqn:Ha; [|done]. exfalso.
  apply after_nocase_inv in Ha as (a & Ha & Hw). change (c :: l ++ x :: k) with ((c :: l) ++ x :: k) in Ha.
  apply no_bearer_cons in Hl as [Hl _]. apply app_eq_inv in Ha as [(u & He & _)|(u & -> & He)].
  - rewrite He, (after_nocase_app _ _ _ Hw) in Hl. done.
  - destruct u as [|y u].
    { rewrite app_nil_r in Hw. rewrite <- (app_nil_r (c :: l)), (after_nocase_app _ _ _ Hw) in Hl. done. }
    simpl in He. injection He as <- _. rewrite map_app in Hw. cbn [map app] in Hw. rewrite Hx in Hw.
    injection Hw as _ Hw. assert (Hb : "b"%char ∈ chars "earer") by (cbn; rewrite <- Hw; set_solver).
    revert Hb. by apply (bool_decide_unpack (_ ∉ _)).
Qed.

Lemma sub_no_bearer p l : no_bearer l → sub_at bearer_at p l = l.
Proof.
  revert p. induction l as [|c l IH]; intros p Hl; [done|]. apply no_bearer_cons in Hl as [Hn Hl]. rewrite sub_at_skip.
  - f_equal. by apply IH.
  - unfold bearer_at. by rewrite Hn.
Qed.

Definition all_bearer (t : list ascii) : Prop := t ≠ [] ∧ Forall (λ c, bearer_char c = true) t.
Definition separator (s : list ascii) : Prop := s = chars "%20" ∨ s ≠ [] ∧ Forall (λ c, is_space c = true) s.

Lemma bearer_not_space c : bearer_char c = true → is_space c = false.
Proof. destruct c as [[] [] [] [] [] [] [] []]; vm_compute; congruence. Qed.

Lemma bearer_match p b s t k :
  map lower_ascii b = chars "bearer" → separator s → all_bearer t →
  bearer_at p (b ++ s ++ t ++ k) = Some (b ++ s ++ redacted, (span bearer_char k).2).
Proof.
  intros Hb Hs [Hne Ht]. unfold bearer_at. rewrite (after_nocase_app _ _ _ Hb).
  assert (Hsep : bearer_separator (s ++ t ++ k) = (s, t ++ k)).
  { unfold bearer_separator. destruct Hs as [->|[Hsne Hs]]; [done|]. rewrite span_app_all by done.
    assert (span is_space (t ++ k) = ([], t ++ k)) as ->.
    { destruct t as [|c t]; [done|]. simpl. inversion Ht; subst. by rewrite bearer_not_space. }
    rewrite app_nil_r. by destruct s. }
  rewrite Hsep, span_app_all by done. simpl. rewrite bool_decide_eq_false_2.
  - do 3 f_equal. apply (f_equal length) in Hb. rewrite length_map in Hb. change 6%nat with (length (chars "bearer")).
    rewrite <- Hb. by rewrite take_app_length.
  - intros [->|[??]%app_eq_nil]; [|done]. destruct Hs as [?|[? _]]; done.
Qed.

Lemma sub_bearer_hides p pre b s t t' post :
  no_bearer pre → map lower_ascii b = chars "bearer" → separator s → all_bearer t → all_bearer t' →
  sub_at bearer_at p (pre ++ b ++ s ++ t ++ post) = sub_at bearer_at p (pre ++ b ++ s ++ t' ++ post).
Proof.
  intros Hpre Hb Hs Ht Ht'. revert p. induction pre as [|c pre IH]; intros p; cbn [app].
  - destruct (sub_at_match bearer_at p _ _ _ (bearer_match p b s t post Hb Hs Ht)) as (x & -> & _).
    destruct (sub_at_match bearer_at p _ _ _ (bearer_match p b s t' post Hb Hs Ht')) as (y & -> & _).
    f_equal. apply sub_at_forward.
  - assert (Hskip : ∀ k, bearer_at p (c :: pre ++ b ++ k) = None).
    { intros k. unfold bearer_at. destruct b as [|x b]; [done|]. injection Hb as Hx _. cbn [app]. by rewrite no_bearer_here. }
    rewrite !sub_at_skip by done. f_equal. apply IH. by apply no_bearer_cons in Hpre as [_ ?].
Qed.

(** ** Query parameters *)

Section Query.
Context (name : list ascii → bool) (value : ascii → bool).
Hypothesis value_word : ∀ c, is_word c = true → value c = true.
Hypothesis value_equals : value "="%char = true.

(** Where a word cannot go on, what was before does not matter. *)
(** No match starts where no word does: with [name []] false, what was before
    such a place does not matter. *)
Hypothesis name_nonempty : name [] = false.

Lemma no_match_at_break p c l : is_word c = false → query_at name value p (c :: l) = None.
Proof.
  intros Hc. unfold query_at. destruct (word_before p); [done|]. cbn [span]. rewrite Hc, name_nonempty, andb_false_r. simpl.
  by destruct (span value l).
Qed.

Lemma sub_at_break p q l :
  match l with [] => True | c :: _ => is_word c = false end → sub_at (query_at name value) p l = sub_at (query_at name value) q l.
Proof. destruct l as [|c l]; [done|]. intros Hc. by rewrite !sub_at_skip by (by apply no_match_at_break). Qed.

Definition all_value (v : list ascii) : Prop := v ≠ [] ∧ Forall (λ c, value c = true) v.

(** The text around a secret: what is before it does not end in a word. *)
Definition ends_no_word (pre : list ascii) (p : option ascii) : Prop := word_before match last pre with Some c => Some c | None => p end = false.

Lemma ends_no_word_tail p c pre : ends_no_word (c :: pre) p → ends_no_word pre (Some c).
Proof.
  unfold ends_no_word. destruct pre as [|d pre]; [done|]. rewrite last_cons_cons.
  destruct (last (d :: pre)) eqn:Hl; [done|by apply last_None in Hl].
Qed.

Lemma ends_no_word_suffix a c r p q : ends_no_word (a ++ c :: r) p → ends_no_word (c :: r) q.
Proof. unfold ends_no_word. rewrite last_app_cons. destruct (last (c :: r)) eqn:Hl; [done|by apply last_None in Hl]. Qed.

Lemma not_value_not_word c : value c = false → is_word c = false.
Proof. intros Hv. destruct (is_word c) eqn:Hw; [|done]. by rewrite value_word in Hv. Qed.

Lemma after_value l p q :
  sub_at (query_at name value) p (span value l).2 = sub_at (query_at name value) q (span value l).2.
Proof.
  apply sub_at_break. pose proof (span_stop value l) as H. destruct (span value l).2; [done|]. by apply not_value_not_word.
Qed.

Lemma query_match p n v k :
  word_before p = false → Forall (λ c, is_word c = true) n → name n = true → all_value v →
  query_at name value p (n ++ "="%char :: v ++ k) = Some (n ++ "="%char :: redacted, (span value k).2).
Proof.
  intros Hp Hn Hname [Hne Hv]. unfold query_at. rewrite Hp, span_app_all by done. cbn [span]. change (is_word "="%char) with false.
  cbn [fst snd]. rewrite span_app_all by done. rewrite app_nil_r, Hname, bool_decide_eq_false_2; [done|].
  by intros [??]%app_eq_nil.
Qed.

(** A place of the text before the secret: a match there swallows the secret with
    its value, or ends before it. *)
Lemma query_before p c pre n v v' k :
  ends_no_word (c :: pre) p → Forall (λ c, is_word c = true) n → all_value v → all_value v' →
  (∀ x, query_at name value p (c :: pre ++ x) = None) ∨
  (∃ r, query_at name value p (c :: pre ++ n ++ "="%char :: v ++ k) = Some (r, (span value k).2) ∧
        query_at name value p (c :: pre ++ n ++ "="%char :: v' ++ k) = Some (r, (span value k).2)) ∨
  (∃ r d rest, (∃ w, c :: pre = w ++ d :: rest) ∧ (length (d :: rest) < length (c :: pre))%nat ∧
        ∀ x, query_at name value p (c :: pre ++ x) = Some (r, d :: rest ++ x)).
Proof.
  intros Hend Hn [_ Hv] [_ Hv']. unfold query_at. destruct (word_before p) eqn:Hp; [by left|].
  destruct (span_app_cases is_word (c :: pre)) as [Hall|(w & e & r & Hpre & _ & Hspan)].
  { exfalso. unfold ends_no_word in Hend. destruct (last (c :: pre)) as [z|] eqn:Hl; [|by apply last_None in Hl].
    apply last_Some in Hl as [l' Hl]. rewrite Hl, Forall_app, Forall_singleton in Hall. simpl in Hend. destruct Hall. congruence. }
  assert (Hs : ∀ x, span is_word (c :: pre ++ x) = (w, e :: r ++ x)) by (intros x; by rewrite <- Hspan).
  destruct (Ascii.eqb e "="%char && name w) eqn:Hname.
  2: { left. intros x. rewrite Hs. destruct (span value (r ++ x)). by rewrite Hname. }
  destruct (span_app_cases value r) as [Hall|(w' & d & rest & -> & _ & Hspan')].
  - right. left. assert (Hvals : ∀ u, Forall (λ c, value c = true) u →
      Forall (λ c, value c = true) (r ++ n ++ "="%char :: u)).
    { intros u Hu. apply Forall_app. split; [done|]. apply Forall_app. split; [|by constructor]. eapply Forall_impl; [exact Hn|]. auto. }
    exists (w ++ "="%char :: redacted). rewrite !Hs.
    assert (Hre : ∀ u, r ++ n ++ "="%char :: u ++ k = (r ++ n ++ "="%char :: u) ++ k) by (intros u; by rewrite <- !app_assoc).
    rewrite !Hre, !span_app_all by (by apply Hvals). rewrite Hname, !bool_decide_eq_false_2; [done|..];
      intros [[_ [_ ?]%app_eq_nil]%app_eq_nil _]%app_eq_nil; done.
  - destruct (bool_decide (w' = [])) eqn:Hempty.
    { left. intros x. rewrite Hs. rewrite Hspan'. by rewrite Hname, Hempty. }
    right. right. exists (w ++ "="%char :: redacted), d, rest. split; [|split].
    + exists (w ++ e :: w'). by rewrite Hpre, <- app_assoc.
    + rewrite Hpre, !length_app. simpl. rewrite length_app. simpl. lia.
    + intros x. rewrite Hs, Hspan', Hname, Hempty. done.
Qed.

Lemma sub_query_hides p pre n v v' k :
  ends_no_word pre p → Forall (λ c, is_word c = true) n → name n = true → all_value v → all_value v' →
  sub_at (query_at name value) p (pre ++ n ++ "="%char :: v ++ k) = sub_at (query_at name value) p (pre ++ n ++ "="%char :: v' ++ k).
Proof.
  intros Hend Hn Hname Hv Hv'. remember (length pre) as len eqn:Hlen. revert p pre Hend Hlen.
  induction (lt_wf len) as [len _ IH]. intros p pre Hend ->. destruct pre as [|c pre]; cbn [app].
  - destruct (sub_at_match _ p _ _ _ (query_match p n v k Hend Hn Hname Hv)) as (x & -> & _).
    destruct (sub_at_match _ p _ _ _ (query_match p n v' k Hend Hn Hname Hv')) as (y & -> & _). f_equal. apply after_value.
  - destruct (query_before p c pre n v v' k Hend Hn Hv Hv') as [Hskip|[(r & H1 & H2)|(r & d & rest & [w Hw] & Hlt & Hm)]].
    + rewrite !sub_at_skip by done. f_equal. eapply (IH (length pre)); [simpl; lia|by eapply ends_no_word_tail|done].
    + destruct (sub_at_match _ p _ _ _ H1) as (x & -> & _). destruct (sub_at_match _ p _ _ _ H2) as (y & -> & _).
      f_equal. apply after_value.
    + destruct (sub_at_match _ p _ _ _ (Hm (n ++ "="%char :: v ++ k))) as (x & -> & Hx).
      destruct (sub_at_match _ p _ _ _ (Hm (n ++ "="%char :: v' ++ k))) as (y & -> & Hy).
      assert (Hlast : ∀ u, last (take (length (c :: pre ++ u) - length (d :: rest ++ u)) (c :: pre ++ u)) = last w).
      { intros u. change (c :: pre ++ u) with ((c :: pre) ++ u). rewrite Hw. change (d :: rest ++ u) with ((d :: rest) ++ u).
        rewrite !length_app. replace (length w + length (d :: rest) + length u - (length (d :: rest) + length u))%nat with (length w) by lia.
        by rewrite <- app_assoc, take_app_length. }
      rewrite Hlast in Hx, Hy. subst x y. f_equal. change (d :: rest ++ ?u) with ((d :: rest) ++ u).
      eapply (IH (length (d :: rest))); [exact Hlt| |done]. eapply ends_no_word_suffix. rewrite <- Hw. exact Hend.
Qed.
End Query.

(** ** Messages *)

(** Two messages that differ in one secret: a bearer token after the first
    mention of [bearer], or the value of a query parameter with a secret name in
    a text without such a mention. *)
Inductive differ_in_secret (name : list ascii → bool) (value : ascii → bool) : string → string → Prop :=
| differ_bearer pre b s t t' post :
    no_bearer (chars pre) → lower b = "bearer" → separator (chars s) → all_bearer (chars t) → all_bearer (chars t') →
    differ_in_secret name value (pre +:+ b +:+ s +:+ t +:+ post) (pre +:+ b +:+ s +:+ t' +:+ post)
| differ_value pre n v v' post :
    no_bearer (chars (pre +:+ n +:+ "=" +:+ v +:+ post)) → no_bearer (chars (pre +:+ n +:+ "=" +:+ v' +:+ post)) →
    ends_no_word (chars pre) None → Forall (λ c, is_word c = true) (chars n) → name (chars n) = true →
    all_value value (chars v) → all_value value (chars v') →
    differ_in_secret name value (pre +:+ n +:+ "=" +:+ v +:+ post) (pre +:+ n +:+ "=" +:+ v' +:+ post).

Lemma redact_chars_hides name value m m' :
  (∀ c, is_word c = true → value c = true) → value "="%char = true → name [] = false →
  differ_in_secret name value m m' → redact_chars (query_at name value) (chars m) = redact_chars (query_at name value) (chars m').
Proof.
  intros Hw He Hn Hd. assert (Hsub : ∀ mt l, re_sub mt l = sub_at mt None l) by done. unfold redact_chars. rewrite !Hsub. f_equal.
  destruct Hd as [pre b s t t' post Hpre Hb Hs Ht Ht'|pre n v v' post Hno Hno' Hend Hword Hname Hv Hv'].
  - f_equal. rewrite !chars_app. apply sub_bearer_hides; [done| |done..]. by rewrite <- chars_lower, Hb.
  - rewrite !sub_no_bearer by done. rewrite !chars_app. cbn [String.list_ascii_of_string app]. by apply (sub_query_hides name value Hw He Hn None (chars pre) (chars n)).
Qed.

Lemma core_value_word c : is_word c = true → core_value c = true.
Proof. destruct c as [[] [] [] [] [] [] [] []]; vm_compute; congruence. Qed.
Lemma admin_value_word c : is_word c = true → admin_value c = true.
Proof. destruct c as [[] [] [] [] [] [] [] []]; vm_compute; congruence. Qed.


(** A bearer token after another mention of [bearer] is not always hidden: that
    one takes the second [Bearer] for its token. *)
Example second_bearer_shows : redact "bearer Bearer s3cret" = "bearer [redacted] s3cret".
Proof. vm_compute. reflexivity. Qed.
(** A JSON value ends at the first quote, also at an escaped one. *)
Definition with_quotes (s : string) : string :=
  str (map (λ c, if Ascii.eqb c "%"%char then dquote_char else c) (chars s)).
Example escaped_quote_shows :
  redact (with_quotes "{%password%:%a\%b3c%}") = with_quotes "{%password%: %[redacted]%b3c%}".
Proof. vm_compute. reflexivity. Qed.
(** The admin's copy does not know [access_token]. *)
Example admin_shows_access_token :
  admin_redact "GET /x?access_token=s3cret" = "GET /x?access_token=s3cret" ∧ redact "GET /x?access_token=s3cret" = "GET /x?access_token=[redacted]".
Proof. vm_compute. split; reflexivity. Qed.
(** The filter redacts the template of a record too, so its placeholder is lost
    while its argument stays. *)
Example template_loses_placeholder :
  let r := filter_record {| levelno := 20; levelname := "INFO"; logger_name := "uvicorn"; msg := VStr "ticket=%s"; args := inl [VStr "t"]; sensitive := false |} in
  msg r = VStr "ticket=[redacted]" ∧ args r = inl [VStr "t"].
Proof. vm_compute. split; reflexivity. Qed.

