(* ===== verification/AdminAuth.v ===== *)
(** * The admin plugin: sign-in, configuration and appearance
      ([plugins/admin]: [auth/], [services/admin_config.py], [admin_theme.py],
      [admin_branding.py], [controllers/config_controller.py])

    The login of the dashboard with its limit per address, by static
    credentials or through the users plugin; the guard of the admin routes; the
    configuration with its settings; the colors and the branding of the
    dashboard.  JSON web tokens are a library ([JwtLib]), and the environment is
    a function.  Times of the login limit are the milliseconds of the host. *)

From S2P Require Import Prelude PyStr Values Permissions Origins Redact.
From S2P Require Import UserModel UserStores Http AuthService.
From Stdlib Require Import Ascii.

Open Scope Z_scope.

(** ** Configuration *)

Record AdminConfig := {
  username : string; password : string; jwt_secret : string; sign_in_url : option string; _mutable_settings : dict string pyval }.

Definition FORBIDDEN_KEYS : list string := ["username"; "password"; "jwt_secret"; "jwtSecret"].
Definition or_env (environ : string → option string) (value key default_ : string) : string :=
  if is_empty value then default default_ (environ key) else value.
(** The constructor with [__post_init__] *)
Definition new_config (environ : string → option string) (user pass secret : string) (url : option string) : AdminConfig :=
  {| username := or_env environ user "QCLI_ADMIN_USERNAME" "admin"; password := or_env environ pass "QCLI_ADMIN_PASSWORD" "admin";
     jwt_secret := or_env environ secret "QCLI_ADMIN_JWT_SECRET" ""; sign_in_url := url; _mutable_settings := [] |}.

(** Category [Cc] *)
Definition is_control (c : ascii) : bool := let n := N_of_ascii c in ((n <? 32) || (127 <=? n) && (n <? 160))%N.
Definition is_valid_sign_in_url `{U : UrlLib} (value : string) : bool :=
  if is_empty value then false
  else if existsb (λ c, is_space c || is_control c) (chars value) then false
  else match chars value with
       | "/"%char :: rest => match rest with [] => true | c :: _ => negb (Ascii.eqb c "/"%char || Ascii.eqb c "\"%char) end
       | _ =>
           match urlsplit value with
           | Some parts =>
               match u_port parts with
               | Some _ => bool_decide (u_scheme parts ∈ ["http"; "https"]) && truthy_opt (u_hostname parts)
               | None => false
               end
           | None => false
           end
       end.
(** The message of [ValueError] *)
Definition validate `{U : UrlLib} (c : AdminConfig) : option string :=
  match sign_in_url c with
  | Some url =>
      if is_valid_sign_in_url url then None
      else Some ("AdminConfig.sign_in_url must be an absolute http(s) URL or a root-relative path, got " +:+ py_repr url +:+ ".")
  | None => None
  end.
(** [hmac.compare_digest] on both *)
Definition validate_credentials (c : AdminConfig) (user pass : string) : bool :=
  bool_decide (user = username c) && bool_decide (pass = password c).

Definition _infer_type (val : pyval) : string :=
  match val with VBool _ => "boolean" | VInt _ | VFloat _ => "number" | VList _ => "string[]" | _ => "string" end.
Definition setting (key : string) (value : pyval) (type description : string) (mutable : bool) : pyval :=
  VDict [("key", VStr key); ("value", value); ("type", VStr type); ("description", VStr description); ("mutable", VBool mutable)].
Definition section (name : string) (mutable : bool) (settings : list pyval) : pyval :=
  VDict [("name", VStr name); ("mutable", VBool mutable); ("settings", VList settings)].
Definition get_config_sections (version platform : string) (c : AdminConfig) : list pyval :=
  [section "server" false
     [setting "platform" (VStr "python") "string" "Server platform" false;
      setting "platformVersion" (VStr version) "string" "Python version" false; setting "os" (VStr platform) "string" "Operating system" false];
   section "auth" false
     [setting "username" (VStr (username c)) "string" "Admin username" false;
      setting "jwtSecretConfigured" (VBool (truthy (jwt_secret c))) "boolean" "Whether JWT secret is explicitly set" false];
   section "custom" true (map (λ kv, setting kv.1 kv.2 (_infer_type kv.2) "" true) (_mutable_settings c))].
Definition set_mutable (d : dict string pyval) (c : AdminConfig) : AdminConfig :=
  {| username := username c; password := password c; jwt_secret := jwt_secret c; sign_in_url := sign_in_url c; _mutable_settings := d |}.
Definition update_settings (settings : dict string pyval) (c : AdminConfig) : AdminConfig :=
  set_mutable (foldl (λ d kv, dict_set kv.1 kv.2 d) (_mutable_settings c) (List.filter (λ kv, negb (bool_decide (kv.1 ∈ FORBIDDEN_KEYS))) settings)) c.
Definition get_config (version platform : string) (c : AdminConfig) : pyval := VDict [("sections", VList (get_config_sections version platform c))].
Definition update_config (version platform : string) (settings : dict string pyval) (c : AdminConfig) : pyval * AdminConfig :=
  let c := update_settings settings c in
  (VDict [("message", VStr "Configuration updated"); ("sections", VList (get_config_sections version platform c))], c).

(** ** The login limit *)

Definition _MAX_ATTEMPTS : nat := 5.
Definition _WINDOW_MS : Z := 60 * 1000.
Definition _RateLimiter : Type := dict string (list Z).
Definition attempts_of (ip : string) (l : _RateLimiter) : list Z := default [] (dict_get ip l).
(** [check]: the attempts that are left, and whether the address is within the limit *)
Definition check (ip : string) (now : Z) (l : _RateLimiter) : bool * _RateLimiter :=
  let recent := List.filter (λ t, now - _WINDOW_MS <? t) (attempts_of ip l) in
  (negb (_MAX_ATTEMPTS <=? length recent)%nat, dict_set ip recent l).
Definition record_failure (ip : string) (now : Z) (l : _RateLimiter) : _RateLimiter := dict_set ip (attempts_of ip l ++ [now]) l.

(** ** Permissions *)

(** The loop of [_matches], from an index on *)
Fixpoint matches_from (g r : list string) : bool :=
  match g with
  | [] => bool_decide (r = [])
  | seg :: g' =>
      if bool_decide (seg = "*") && bool_decide (length g' = 0%nat) then true
      else match r with
           | [] => false
           | x :: r' => if negb (bool_decide (seg = "*")) && negb (bool_decide (seg = x)) then false else matches_from g' r'
           end
  end.
Definition _matches (granted required : string) : bool :=
  matches_from (split colon (lower (strip granted))) (split colon (lower (strip required))).

(** ** JSON web tokens *)

(** PyJWT: [jwt_decode] is given the time; [None] is [InvalidTokenError]. *)
Class JwtLib := {
  jwt_encode : dict string pyval → string → string;
  jwt_decode : string → string → Z → option (dict string pyval);
}.
Definition DEFAULT_EXPIRY_SECONDS : Z := 24 * 60 * 60.
Definition sign_token `{J : JwtLib} (secret : string) (payload : dict string pyval) (expires_in : option Z) (now_s : Z) : string :=
  let exp := now_s + default DEFAULT_EXPIRY_SECONDS expires_in in
  jwt_encode (dict_set "iat" (VInt now_s) (dict_set "exp" (VInt exp) payload)) secret.
(** The secret of the service; [random] is [token_hex(32)]. *)
Definition jwt_service_secret (environ : string → option string) (secret random : string) : string :=
  if truthy secret then secret else let env := or_empty (environ "QCLI_ADMIN_JWT_SECRET") in if truthy env then env else random.
Definition verify_token `{J : JwtLib} (secret token : string) (now_s : Z) : option (dict string pyval) := jwt_decode token secret now_s.

(** ** The routes of the sign-in *)

Definition ADMIN_ACCESS : string := "admin:access".
Definition MODE_PASSWORD : string := "password".
Definition MODE_EXTERNAL : string := "external".
Definition EXTERNAL_AUTH_CODE : string := "EXTERNAL_AUTH".
Definition TOO_MANY_LOGINS : string := "Too many failed login attempts. Try again later.".
Definition admin_client_ip (forwarded : list string) (peer : option string) (trust_proxy : bool + Z) : string :=
  match forwarded_client_ip forwarded trust_proxy with Some ip => ip | None => default "127.0.0.1" peer end.

Inductive admin_answer := AdminJson (status : Z) (body : pyval).
Definition url_value (url : option string) : pyval := match url with Some u => VStr u | None => VNone end.
Definition sign_in_mode (external : bool) (c : AdminConfig) : admin_answer :=
  AdminJson 200 (VDict [("mode", VStr (if external then MODE_EXTERNAL else MODE_PASSWORD)); ("signInUrl", url_value (sign_in_url c))]).
Definition external_answer (c : AdminConfig) : admin_answer :=
  let where_ := match sign_in_url c with Some u => " at " +:+ u | None => " through the host application" end in
  AdminJson 501 (VDict [("error", VStr ("Sign-in is managed by the host application. Sign in" +:+ where_ +:+ ".")); ("code", VStr EXTERNAL_AUTH_CODE);
                        ("signInUrl", url_value (sign_in_url c))]).
Definition login_response (token : string) (expires_in : Z) (user : string) : admin_answer :=
  AdminJson 200 (VDict [("token", VStr token); ("expiresIn", VInt expires_in); ("username", VStr user)]).

(** *** With the static credentials *)

(** The outcome of a login without the users plugin, and the limiter after it *)
Definition static_login `{J : JwtLib} (external : bool) (c : AdminConfig) (secret ip user pass : string) (now : Z) (l : _RateLimiter)
    : (uexn + admin_answer) * _RateLimiter :=
  if external then (inr (external_answer c), l)
  else
    let '(ok, l) := check ip now l in
    if negb ok then (inl (HTTPException 429 TOO_MANY_LOGINS), l)
    else if negb (validate_credentials c user pass) then (inl (HTTPException 401 "Invalid credentials"), record_failure ip now l)
    else
      (inr (login_response (sign_token secret [("username", VStr user); ("authenticatedAt", VInt (now / 1000))] (Some DEFAULT_EXPIRY_SECONDS) (now / 1000))
              DEFAULT_EXPIRY_SECONDS user), l).

(** The guard of the admin routes: the payload of the token *)
Definition bearer_prefix : string := "Bearer ".
Definition static_require_auth `{J : JwtLib} (secret : string) (authorization : option string) (now_s : Z) : uexn + dict string pyval :=
  let header := or_empty authorization in
  if negb (starts_with header bearer_prefix) then inl (HTTPException 401 "Missing or invalid Authorization header")
  else match verify_token secret (drop_str 7 header) now_s with
       | Some payload => inr payload
       | None => inl (HTTPException 401 "Invalid or expired token")
       end.

Definition me (payload : dict string pyval) : pyval :=
  VDict [("username", default (VStr "") (dict_get "username" payload)); ("authenticatedAt", default VNone (dict_get "authenticatedAt" payload))].

(** *** Through the users plugin *)

Section Users.
Context {Host : Type} `{E : AuthEnv Host}.
Context (ensure_seeded : py (World Host) uexn unit).
Record AdminWorld := { limiter : _RateLimiter; users : World Host }.
Abbreviation method := (py AdminWorld uexn).
Definition on_users {A} (m : py (World Host) uexn A) : method A := λ s,
  let '(r, u) := m (users s) in (r, {| limiter := limiter s; users := u |}).
Definition check_limit (ip : string) : method unit := λ s,
  let '(ok, l) := check ip (clock (host (users s))) (limiter s) in
  (if ok then inr tt else inl (HTTPException 429 TOO_MANY_LOGINS), {| limiter := l; users := users s |}).
Definition note_failure (ip : string) : method unit := λ s,
  (inr tt, {| limiter := record_failure ip (clock (host (users s))) (limiter s); users := users s |}).
Definition status_of (e : uexn) : option Z := match e with UsersApiError c _ | HTTPException c _ => Some c | _ => None end.

Definition _users_login (user pass : string) (agent : option string) (ip : string) : method admin_answer :=
  _ ← on_users ensure_seeded;
  result ← try_except (on_users (login user pass {| remote_address := Some ip; user_agent := agent |}))
    (λ e, _ ← (if bool_decide (status_of e = Some 401) then note_failure ip else mret tt); raise e);
  let allowed := existsb (λ p, _matches p ADMIN_ACCESS) (l_permissions result) in
  if negb allowed || must_change_password (l_user result) then
    _ ← on_users (logout (l_token result));
    raise (HTTPException 403 (if allowed then "password change required" else "missing permission: " +:+ ADMIN_ACCESS))
  else mret (login_response (l_token result) (session_timeout_ms auth_options / 1000) (u_name (l_user result))).
Definition users_login_route (external_sign_in : bool) (c : AdminConfig) (user pass : string) (agent : option string) (ip : string) : method admin_answer :=
  if external_sign_in then mret (external_answer c) else _ ← check_limit ip; _users_login user pass agent ip.

(** The guard: [require_auth] of the plugin in external mode *)
Definition users_require_auth (plugin_require_auth : py (World Host) uexn AuthContext) (authorization : option string)
    : py (World Host) uexn (dict string pyval) :=
  ctx ← (if external_auth then plugin_require_auth
         else
           let header := or_empty authorization in
           if negb (starts_with header bearer_prefix) then raise (HTTPException 401 "Missing or invalid Authorization header")
           else _ ← ensure_seeded; authenticate_token (strip (drop_str 7 header)));
  if must_change_password (c_user ctx) then raise (HTTPException 403 "password change required")
  else if negb (can ctx ADMIN_ACCESS) then raise (HTTPException 403 ("missing permission: " +:+ ADMIN_ACCESS))
  else mret [("username", VStr (u_name (c_user ctx)));
             ("authenticatedAt", match session ctx with Some x => VInt (s_created_at x / 1000) | None => VNone end)].
End Users.

(** ** Colors *)

Definition ADMIN_THEME_TOKENS : list string :=
  ["primary"; "primaryHover"; "onPrimary"; "accent"; "background"; "backgroundAccent"; "sidebar"; "surface"; "popover"; "control"; "controlHover";
   "border"; "overlay"; "heading"; "text"; "muted"; "subtle"; "success"; "warning"; "error"; "info"].
Definition ADMIN_THEME_MODES : list string := ["dark"; "light"; "system"].
Definition _MAX_COLOR_LENGTH : nat := 100.
Definition is_alpha (c : ascii) : bool := let n := N_of_ascii c in ((65 <=? n) && (n <=? 90) || (97 <=? n) && (n <=? 122))%N.
Definition is_hex (c : ascii) : bool := let n := N_of_ascii c in (is_digit c || (65 <=? n) && (n <=? 70) || (97 <=? n) && (n <=? 102))%N.
Definition COLOR_FUNCTIONS : list string := ["rgb"; "rgba"; "hsl"; "hsla"; "hwb"; "lab"; "lch"; "oklab"; "oklch"].
Definition argument_char (c : ascii) : bool := is_digit c || is_alpha c || is_space c || bool_decide (c ∈ chars ".,%+-/").
Definition hex_color (l : list ascii) : bool :=
  match l with "#"%char :: h => forallb is_hex h && bool_decide (length h ∈ [3; 4; 6; 8]%nat) | _ => false end.
Definition function_color (l : list ascii) : bool :=
  match span is_alpha l with
  | (name, "("%char :: rest) =>
      bool_decide (lower (str name) ∈ COLOR_FUNCTIONS) &&
      match rev rest with ")"%char :: args => forallb argument_char args | _ => false end
  | _ => false
  end.
Definition named_color (l : list ascii) : bool := forallb is_alpha l && (3 <=? length l)%nat && (length l <=? 30)%nat.
Definition is_theme_color (value : pyval) : bool :=
  match value with
  | VStr s =>
      let v := chars (strip s) in
      (0 <? length v)%nat && (length v <=? _MAX_COLOR_LENGTH)%nat && (hex_color v || function_color v || named_color v)
  | _ => false
  end.

Definition is_upper (c : ascii) : bool := let n := N_of_ascii c in ((65 <=? n) && (n <=? 90))%N.
Definition to_snake (t : string) : string := str (concat (map (λ c, if is_upper c then ["_"%char; lower_ascii c] else [c]) (chars t))).
Definition _SNAKE_TO_TOKEN : dict string string := map (λ t, (to_snake t, t)) ADMIN_THEME_TOKENS.
Definition color_token (key : string) : option string :=
  if bool_decide (key ∈ ADMIN_THEME_TOKENS) then Some key else dict_get key _SNAKE_TO_TOKEN.

Section Theme.
(** [repr] of a value in a message *)
Context (repr : pyval → string).
Fixpoint colors_loop (scheme : string) (items : list (string * pyval)) (result : dict string string) : string + dict string string :=
  match items with
  | [] => inr result
  | (key, value) :: items =>
      match color_token key with
      | None => inl ("Invalid admin theme: unknown token " +:+ str [dquote_char] +:+ scheme +:+ "." +:+ key +:+ str [dquote_char] +:+
                     " (expected one of " +:+ join ", " ADMIN_THEME_TOKENS +:+ ")")
      | Some token =>
          match value with
          | VNone => colors_loop scheme items result
          | _ =>
              if is_theme_color value then
                colors_loop scheme items (dict_set token (match value with VStr s => strip s | _ => "" end) result)
              else inl ("Invalid admin theme color for " +:+ str [dquote_char] +:+ scheme +:+ "." +:+ token +:+ str [dquote_char] +:+ ": " +:+ repr value +:+
                        " (use a hex, rgb()/hsl()/oklch() or named color)")
          end
      end
  end.
Definition _validate_colors (colors : option pyval) (scheme : string) : string + dict string string :=
  match colors with
  | None | Some VNone => inr []
  | Some (VDict d) => colors_loop scheme d []
  | Some _ => inl ("Invalid admin theme: " +:+ str [dquote_char] +:+ scheme +:+ str [dquote_char] +:+ " must be a mapping of colors")
  end.

Record AdminTheme := { theme_mode : string; theme_dark : dict string string; theme_light : dict string string }.
Definition falsy (v : pyval) : bool :=
  match v with VNone | VBool false | VStr "" | VList [] | VDict [] => true | VInt z => z =? 0 | VFloat r => bool_decide (r ∈ ["0.0"; "-0.0"]) | _ => false end.
Definition unknown_keys (theme : dict string pyval) : list string :=
  py_sort String.leb (List.filter (λ k, negb (bool_decide (k ∈ ["mode"; "dark"; "light"]))) (dict_keys theme)).
Definition validate_admin_theme (theme : option pyval) : string + AdminTheme :=
  match match theme with None | Some VNone => Some [] | Some (VDict d) => Some d | Some _ => None end with
  | None => inl "Invalid admin theme: expected a mapping"
  | Some theme =>
      match unknown_keys theme with
      | (_ :: _) as unknown =>
          inl ("Invalid admin theme: unknown keys " +:+ repr (VList (map VStr unknown)) +:+ " (expected mode, dark, light)")
      | [] =>
          let given := default VNone (dict_get "mode" theme) in
          let mode := if falsy given then VStr "dark" else given in
          match mode with
          | VStr m =>
              if bool_decide (m ∈ ADMIN_THEME_MODES) then
                match _validate_colors (dict_get "dark" theme) "dark" with
                | inl e => inl e
                | inr dark =>
                    match _validate_colors (dict_get "light" theme) "light" with
                    | inl e => inl e
                    | inr light => inr {| theme_mode := m; theme_dark := dark; theme_light := light |}
                    end
                end
              else inl ("Invalid admin theme mode " +:+ repr mode +:+ " (expected dark, light or system)")
          | _ => inl ("Invalid admin theme mode " +:+ repr mode +:+ " (expected dark, light or system)")
          end
      end
  end.
End Theme.

(** ** Branding *)

Definition _MAX_NAME : nat := 80.
Definition _MAX_ICON : nat := Z.to_nat 200000.
#[global] Opaque _MAX_ICON.
Definition control_char (c : ascii) : bool := let n := N_of_ascii c in ((n <=? 31) || (127 <=? n) && (n <=? 159))%N.
(** The value of a text, if there is one; a message is [ValueError]. *)
Definition _text (value : option pyval) (prop : string) : string + option string :=
  let where_ := "Admin branding " +:+ str [dquote_char] +:+ prop +:+ str [dquote_char] in
  match value with
  | None | Some VNone => inr None
  | Some (VStr s) =>
      let text := strip s in
      if is_empty text then inr None
      else if (_MAX_NAME <? len text)%nat then inl (where_ +:+ " is longer than " +:+ str_of_nat _MAX_NAME +:+ " characters")
      else if existsb control_char (chars text) then inl (where_ +:+ " may not contain control characters")
      else inr (Some text)
  | Some _ => inl (where_ +:+ " must be a string")
  end.

Definition IMAGE_TYPES : list string := ["png"; "jpeg"; "gif"; "webp"; "svg+xml"; "x-icon"; "vnd.microsoft.icon"].
Definition base64_char (c : ascii) : bool := is_alpha c || is_digit c || bool_decide (c ∈ chars "+/").
(** [_DATA_IMAGE.match], of a text without a line break at its end *)
Definition data_image (l : list ascii) : bool :=
  existsb (λ t,
    let p := chars ("data:image/" +:+ t +:+ ";base64,") in
    bool_decide (firstn (length p) l = p) &&
    match span base64_char (skipn (length p) l) with
    | (_ :: _, rest) => bool_decide (rest ∈ [[]; chars "="; chars "=="])
    | _ => false
    end) IMAGE_TYPES.
Definition icon_break (c : ascii) : bool := let n := N_of_ascii c in is_space c || ((n <=? 31) || (n =? 127))%N.
(** [None]: [urlparse] raised *)
Definition is_branding_icon `{U : UrlLib} (value : string) : option bool :=
  if is_empty value || (_MAX_ICON <? len value)%nat then Some false
  else if data_image (chars value) then Some true
  else match chars value with
       | "/"%char :: rest =>
           Some (negb match rest with c :: _ => Ascii.eqb c "/"%char || Ascii.eqb c "\"%char | [] => false end && negb (existsb icon_break (chars value)))
       | _ =>
           match urlsplit value with
           | Some parts => Some (bool_decide (u_scheme parts ∈ ["http"; "https"]) && truthy_opt (u_hostname parts))
           | None => None
           end
       end.

(** [branding.get(key, branding.get(other))] *)
Definition get_either (key other : string) (d : dict string pyval) : option pyval :=
  match dict_get key d with Some v => Some v | None => dict_get other d end.
Definition bad_icon : string :=
  "Admin branding " +:+ str [dquote_char] +:+ "icon_url" +:+ str [dquote_char] +:+
  " must be an absolute http(s) URL, a root-relative path or a base64 data:image URL".
(** The icon, if there is one; the message of [urlparse] is its own. *)
Definition branding_icon `{U : UrlLib} (url_error : string → string) (value : option pyval) : string + option string :=
  match value with
  | Some (VStr s) =>
      let icon := strip s in
      if is_empty icon then inr None
      else match is_branding_icon icon with Some true => inr (Some icon) | Some false => inl bad_icon | None => inl (url_error icon) end
  | Some v => if falsy v then inr None else inl bad_icon
  | None => inr None
  end.
Definition set_text (key : string) (v : option string) (d : dict string pyval) : dict string pyval :=
  match v with Some s => dict_set key (VStr s) d | None => d end.
Definition validate_admin_branding `{U : UrlLib} (url_error : string → string) (branding : dict string pyval) : string + option (dict string pyval) :=
  match _text (dict_get "name" branding) "name" with
  | inl e => inl e
  | inr name =>
      match branding_icon url_error (get_either "icon_url" "iconUrl" branding) with
      | inl e => inl e
      | inr icon =>
          match _text (get_either "cli_name" "cliName" branding) "cli_name" with
          | inl e => inl e
          | inr cli_name =>
              let doc := set_text "icon" icon (set_text "name" name []) in
              let doc := match cli_name with Some s => dict_set "cli" (VDict [("name", VStr s)]) doc | None => doc end in
              inr (match doc with [] => None | _ => Some doc end)
          end
      end
  end.

(** ** The settings keep no secret *)

Lemma update_settings_forbidden settings c k :
  k ∈ FORBIDDEN_KEYS → dict_get k (_mutable_settings c) = None → dict_get k (_mutable_settings (update_settings settings c)) = None.
Proof.
  intros Hk. simpl. generalize (_mutable_settings c) as d. induction settings as [|[k' v] settings IH]; intros d Hd; simpl; [done|].
  destruct (bool_decide (k' ∈ FORBIDDEN_KEYS)) eqn:Hf; simpl; [by apply IH|]. apply IH.
  rewrite dict_get_set_ne; [done|]. intros ->. apply bool_decide_eq_false in Hf. done.
Qed.

(** Whatever updates the configuration routes are sent, no setting is ever named
    as a credential or the secret, and the credentials, the secret and the
    sign-in page stay as the host set them. *)
Theorem settings_keep_secrets environ user pass secret url updates :
  let c := new_config environ user pass secret url in
  let c' := foldl (λ c s, update_settings s c) c updates in
  (∀ k, k ∈ FORBIDDEN_KEYS → dict_get k (_mutable_settings c') = None) ∧
  username c' = username c ∧ password c' = password c ∧ jwt_secret c' = jwt_secret c ∧ sign_in_url c' = sign_in_url c.
Proof.
  intros c c'. subst c'. assert (H0 : ∀ k, k ∈ FORBIDDEN_KEYS → dict_get k (_mutable_settings c) = None) by done.
  revert H0. generalize c as c0. clear. intros c0. revert c0. induction updates as [|s updates IH]; intros c0 H0; simpl; [by split_and!|].
  destruct (IH (update_settings s c0)) as (H1 & H2 & H3 & H4 & H5); [intros k Hk; apply update_settings_forbidden; auto|]. by split_and!.
Qed.

(** ** The permission of the dashboard is matched like any other *)

Theorem admin_matches_permission_matches granted required : _matches granted required = permission_matches granted required.
Proof.
  unfold _matches, permission_matches, segments. generalize (split colon (lower (strip granted))) (split colon (lower (strip required))).
  induction l as [|seg g IH]; intros r; simpl; [done|].
  replace (bool_decide (length g = 0%nat)) with (bool_decide (g = [])) by (by destruct g).
  destruct (_ && _); [done|]. destruct r as [|x r]; [done|]. destruct (_ && _); [done|]. apply IH.
Qed.

(** ** The login limit *)

Section Limit.
Context `{J : JwtLib} (c : AdminConfig) (secret : string).

(** An attempt to log in, and the attempts that failed in a list of them *)
Record Attempt := { a_ip : string; a_user : string; a_pass : string; a_time : Z }.
Definition attempt_step (s : list (Attempt * bool) * _RateLimiter) (a : Attempt) : list (Attempt * bool) * _RateLimiter :=
  let '(r, l) := static_login false c secret (a_ip a) (a_user a) (a_pass a) (a_time a) s.2 in
  (s.1 ++ [(a, match r with inl (HTTPException 401 _) => true | _ => false end)], l).
Definition attempt_run (attempts : list Attempt) : list (Attempt * bool) * _RateLimiter := foldl attempt_step ([], []) attempts.
(** The times at which the credentials of an address were checked and found wrong *)
Definition wrong_at (ip : string) (log : list (Attempt * bool)) : list Z :=
  map (λ x, a_time x.1) (List.filter (λ x : Attempt * bool, x.2 && bool_decide (a_ip x.1 = ip)) log).
Definition within (t0 t1 : Z) (ts : list Z) : nat := length (List.filter (λ t, (t0 <? t) && (t <=? t1)) ts).

(** The attempts come in the order of their times, from [t] on. *)
Fixpoint in_order (t : Z) (attempts : list Attempt) : Prop :=
  match attempts with [] => True | a :: attempts => t ≤ a_time a ∧ in_order (a_time a) attempts end.

Definition later (t : Z) (ts : list Z) : list Z := List.filter (λ x, t <? x) ts.
Lemma later_later t t' ts : t ≤ t' → later t' (later t ts) = later t' ts.
Proof.
  intros Ht. unfold later. induction ts as [|x ts IH]; simpl; [done|]. destruct (Z.ltb_spec t x); simpl; [by rewrite IH|].
  destruct (Z.ltb_spec t' x); [lia|done].
Qed.
Lemma later_app t a b : later t (a ++ b) = later t a ++ later t b.
Proof. apply List.filter_app. Qed.
Lemma within_app t0 t1 a b : within t0 t1 (a ++ b) = (within t0 t1 a + within t0 t1 b)%nat.
Proof. unfold within. by rewrite List.filter_app, length_app. Qed.
(** No more than in a window that starts earlier and has them all *)
Lemma within_later t0 t1 t ts : t ≤ t0 → (within t0 t1 ts ≤ length (later t ts))%nat.
Proof.
  intros Ht. unfold within, later. induction ts as [|x ts IH]; simpl; [lia|].
  destruct (Z.ltb_spec t0 x), (Z.ltb_spec t x), (x <=? t1); simpl; lia.
Qed.
Lemma within_all t0 t1 ts : Forall (λ x, x ≤ t1) ts → within t0 t1 ts = length (later t0 ts).
Proof.
  unfold within, later. induction 1 as [|x ts Hx Hts IH]; simpl; [done|].
  destruct (Z.leb_spec x t1); [|lia]. rewrite andb_true_r. destruct (t0 <? x); simpl; by rewrite ?IH.
Qed.
Lemma wrong_at_snoc ip log a b :
  wrong_at ip (log ++ [(a, b)]) = wrong_at ip log ++ if b && bool_decide (a_ip a = ip) then [a_time a] else [].
Proof. unfold wrong_at. rewrite List.filter_app, map_app. f_equal. simpl. by destruct (b && _). Qed.

Definition limit_ok (t : Z) (s : list (Attempt * bool) * _RateLimiter) : Prop :=
  ∀ ip, later (t - _WINDOW_MS) (attempts_of ip s.2) = later (t - _WINDOW_MS) (wrong_at ip s.1) ∧
    Forall (λ x, x ≤ t) (wrong_at ip s.1) ∧
    ∀ u, (within (u - _WINDOW_MS) u (wrong_at ip s.1) ≤ _MAX_ATTEMPTS)%nat.

Lemma attempts_of_set ip ip' ts l : attempts_of ip (dict_set ip' ts l) = if bool_decide (ip' = ip) then ts else attempts_of ip l.
Proof.
  unfold attempts_of. case_bool_decide as Heq; [subst; by rewrite dict_get_set_eq|]. by rewrite dict_get_set_ne.
Qed.

(** What [check] sees is the window. *)
Lemma check_sees t s ip now : limit_ok t s → t ≤ now →
  List.filter (λ x, now - _WINDOW_MS <? x) (attempts_of ip s.2) = later (now - _WINDOW_MS) (wrong_at ip s.1) ∧
  length (later (now - _WINDOW_MS) (wrong_at ip s.1)) = within (now - _WINDOW_MS) now (wrong_at ip s.1).
Proof.
  intros Hs Ht. destruct (Hs ip) as (Heq & Hall & _). split.
  - change (later (now - _WINDOW_MS) (attempts_of ip s.2) = later (now - _WINDOW_MS) (wrong_at ip s.1)).
    rewrite <-(later_later (t - _WINDOW_MS) _ (attempts_of ip s.2)), <-(later_later (t - _WINDOW_MS) _ (wrong_at ip s.1)) by lia. by rewrite Heq.
  - symmetry. apply within_all. eapply Forall_impl; [exact Hall|]. simpl. lia.
Qed.

(** An address whose attempts are only pruned or kept *)
Lemma limit_keeps t now s log' l' :
  limit_ok t s → t ≤ now → (∀ ip, wrong_at ip log' = wrong_at ip s.1) →
  (∀ ip, attempts_of ip l' = attempts_of ip s.2 ∨ attempts_of ip l' = later (now - _WINDOW_MS) (wrong_at ip s.1)) → limit_ok now (log', l').
Proof.
  intros Hs Ht Hlog Hl ip. destruct (Hs ip) as (Heq & Hall & Hw). simpl. rewrite Hlog. split; [|split; [|done]].
  - destruct (Hl ip) as [->| ->]; [|by apply later_later].
    rewrite <-(later_later (t - _WINDOW_MS) _ (attempts_of ip s.2)), <-(later_later (t - _WINDOW_MS) _ (wrong_at ip s.1)) by lia. by rewrite Heq.
  - eapply Forall_impl; [exact Hall|]. simpl. lia.
Qed.

Lemma attempt_step_ok t s a : limit_ok t s → t ≤ a_time a → limit_ok (a_time a) (attempt_step s a).
Proof.
  intros Hs Ht. unfold attempt_step, static_login, check.
  destruct (check_sees t s (a_ip a) (a_time a) Hs Ht) as [Hsee Hlen]. rewrite Hsee.
  set (recent := later (a_time a - _WINDOW_MS) (wrong_at (a_ip a) s.1)) in *.
  assert (Hkeep : ∀ ip, attempts_of ip (dict_set (a_ip a) recent s.2) = attempts_of ip s.2 ∨
    attempts_of ip (dict_set (a_ip a) recent s.2) = later (a_time a - _WINDOW_MS) (wrong_at ip s.1)).
  { intros ip. rewrite attempts_of_set. case_bool_decide; [subst; by right|by left]. }
  destruct (Nat.leb_spec _MAX_ATTEMPTS (length recent)) as [|Hfew]; simpl.
  { eapply limit_keeps; [done..| |done]. intros ip. by rewrite wrong_at_snoc, app_nil_r. }
  destruct (validate_credentials c (a_user a) (a_pass a)); simpl.
  { eapply limit_keeps; [done..| |done]. intros ip. by rewrite wrong_at_snoc, app_nil_r. }
  intros ip. destruct (Hs ip) as (Heq & Hall & Hw). simpl. rewrite wrong_at_snoc. unfold record_failure. rewrite !attempts_of_set. simpl.
  destruct (bool_decide (a_ip a = ip)) eqn:Hip; simpl.
  - apply bool_decide_eq_true in Hip. subst ip. rewrite bool_decide_true by done. split; [|split].
    + rewrite !later_app. f_equal. by apply later_later.
    + apply Forall_app. split; [eapply Forall_impl; [exact Hall|]; simpl; lia|]. by apply Forall_singleton.
    + intros u. rewrite within_app. destruct (decide (u < a_time a)) as [Hu|Hu].
      * specialize (Hw u). unfold within at 2. simpl. destruct (Z.leb_spec (a_time a) u); [lia|]. rewrite andb_false_r. simpl. lia.
      * pose proof (within_later (u - _WINDOW_MS) u (a_time a - _WINDOW_MS) (wrong_at (a_ip a) s.1)) as Hb. fold recent in Hb.
        unfold within at 2. simpl. destruct (_ && _); simpl; lia.
  - rewrite app_nil_r. split; [|split; [|done]].
    + rewrite <-(later_later (t - _WINDOW_MS) _ (attempts_of ip s.2)), <-(later_later (t - _WINDOW_MS) _ (wrong_at ip s.1)) by lia. by rewrite Heq.
    + eapply Forall_impl; [exact Hall|]. simpl. lia.
Qed.

Lemma attempt_run_ok attempts : ∀ t s, limit_ok t s → in_order t attempts → ∃ t', t ≤ t' ∧ (∀ a, a ∈ attempts → a_time a ≤ t') ∧
  (attempts ≠ [] → ∃ a, last attempts = Some a ∧ t' = a_time a) ∧ (attempts = [] → t' = t) ∧ limit_ok t' (foldl attempt_step s attempts).
Proof.
  induction attempts as [|a attempts IH]; intros t s Hs Ho.
  - exists t. split_and!; [lia|intros a Ha; by apply not_elem_of_nil in Ha|done|done|done].
  - destruct Ho as [Ht Ho]. destruct (IH (a_time a) (attempt_step s a)) as (t' & Ht' & Hall & Hlast & Hnil & Hok); [by eapply attempt_step_ok|done|].
    exists t'. split_and!; [lia| | |done|done].
    + intros b [->|Hb]%elem_of_cons; [done|by apply Hall].
    + intros _. destruct attempts as [|b attempts]; [exists a; split; [done|by apply Hnil]|].
      destruct Hlast as (x & Hx & ->); [done|]. exists x. split; [|done]. by rewrite last_cons, Hx.
Qed.

End Limit.

(** Five wrong passwords from an address: the sixth attempt is refused, the
    right password with it; a minute after the first it is checked again. *)
#[local] Instance no_jwt : JwtLib := {| jwt_encode := λ _ _, "token"; jwt_decode := λ _ _ _, None |}.
Definition example_admin : AdminConfig := new_config (λ _, None) "root" "secret" "" None.
Definition example_attempts : list Attempt :=
  map (λ t, {| a_ip := "10.0.0.1"; a_user := "root"; a_pass := "guess"; a_time := t |}) [1000; 2000; 3000; 4000; 5000; 6000].

(** ** The token of a login opens the routes of the dashboard for a day *)

Section Token.
Context `{J : JwtLib}.
(** PyJWT: a token is valid for the payload it was made of until [exp]. *)
Definition jwt_law : Prop := ∀ payload secret now exp,
  dict_get "exp" payload = Some (VInt exp) → dict_get "iat" payload = Some (VInt (exp - DEFAULT_EXPIRY_SECONDS)) →
  exp - DEFAULT_EXPIRY_SECONDS ≤ now → jwt_decode (jwt_encode payload secret) secret now = if now <? exp then Some payload else None.

Lemma bearer_drop token : drop_str 7 (bearer_prefix +:+ token) = token.
Proof. unfold drop_str, bearer_prefix. rewrite chars_app. simpl. apply String.string_of_list_ascii_of_string. Qed.
Lemma bearer_starts token : starts_with (bearer_prefix +:+ token) bearer_prefix = true.
Proof. unfold starts_with, bearer_prefix. simpl. by destruct token. Qed.

Theorem login_token_opens c secret ip user pass now l later_s :
  jwt_law → (check ip now l).1 = true → validate_credentials c user pass = true → now / 1000 ≤ later_s →
  ∃ token l', static_login false c secret ip user pass now l = (inr (login_response token DEFAULT_EXPIRY_SECONDS user), l') ∧
  match static_require_auth secret (Some (bearer_prefix +:+ token)) later_s with
  | inr payload => later_s < now / 1000 + DEFAULT_EXPIRY_SECONDS ∧ me payload = VDict [("username", VStr user); ("authenticatedAt", VInt (now / 1000))]
  | inl e => now / 1000 + DEFAULT_EXPIRY_SECONDS ≤ later_s ∧ e = HTTPException 401 "Invalid or expired token"
  end.
Proof.
  intros Hlaw Hok Hcred Hlater. unfold static_login. destruct (check ip now l) as [ok l'] eqn:Hc. cbn [fst] in Hok. subst ok. cbn [negb].
  rewrite Hcred. cbn [negb]. eexists _, _. split; [reflexivity|]. unfold static_require_auth, or_empty. cbv zeta. cbn [default from_option id].
  rewrite bearer_starts, bearer_drop. cbn [negb]. unfold verify_token, sign_token. cbn [default].
  rewrite (Hlaw _ _ _ (now / 1000 + DEFAULT_EXPIRY_SECONDS)); rewrite ?Z.add_simpl_r; [|reflexivity|reflexivity|exact Hlater].
  destruct (Z.ltb_spec later_s (now / 1000 + DEFAULT_EXPIRY_SECONDS)); done.
Qed.
End Token.

(** ** What the dashboard is served of the host's colors and names *)

(** Letters, digits, white space and these: nothing ends a declaration, and only
    the names of the color functions come before a parenthesis. *)
Definition plain_char (c : ascii) : bool := is_digit c || is_alpha c || is_space c || bool_decide (c ∈ chars "#(),.%+-/").
Definition plain_color (s : string) : bool :=
  forallb plain_char (chars s) && (0 <? len s)%nat && (len s <=? _MAX_COLOR_LENGTH)%nat && bool_decide (strip s = s) &&
  match span is_alpha (chars s) with
  | (name, "("%char :: rest) => bool_decide (lower (str name) ∈ COLOR_FUNCTIONS) && negb (bool_decide ("("%char ∈ rest))
  | (_, rest) => negb (bool_decide ("("%char ∈ rest))
  end.

Lemma span_spec p l : l = (span p l).1 ++ (span p l).2 ∧ forallb p (span p l).1 = true.
Proof.
  induction l as [|c l [IH1 IH2]]; simpl; [done|]. destruct (p c) eqn:Hp; [|done].
  destruct (span p l) as [a b]. simpl in *. by rewrite Hp, IH2, IH1 at 1.
Qed.
Lemma span_whole p l : forallb p l = true → span p l = (l, []).
Proof. induction l as [|c l IH]; simpl; [done|]. intros [Hc Hl]%andb_prop. by rewrite Hc, IH. Qed.
Lemma forallb_impl {A} (p q : A → bool) l : (∀ x, p x = true → q x = true) → forallb p l = true → forallb q l = true.
Proof. rewrite !forallb_forall. auto. Qed.
Lemma alpha_plain c : is_alpha c = true → plain_char c = true.
Proof. unfold plain_char. intros ->. by rewrite orb_true_r. Qed.
Lemma argument_plain c : argument_char c = true → plain_char c = true ∧ c ≠ "("%char.
Proof. destruct c as [[] [] [] [] [] [] [] []]; by vm_compute. Qed.
Lemma hex_plain c : is_hex c = true → plain_char c = true ∧ c ≠ "("%char.
Proof. destruct c as [[] [] [] [] [] [] [] []]; by vm_compute. Qed.
Lemma no_open p l : (∀ c, p c = true → plain_char c = true ∧ c ≠ "("%char) → forallb p l = true →
  forallb plain_char l = true ∧ "("%char ∉ l.
Proof.
  intros Hp Hl. split; [eapply forallb_impl; [|exact Hl]; intros x Hx; by apply Hp|].
  intros Hin. rewrite forallb_forall in Hl. apply list_elem_of_In, Hl, Hp in Hin. by destruct Hin.
Qed.

Lemma function_color_plain l : function_color l = true →
  forallb plain_char l = true ∧
  match span is_alpha l with
  | (name, "("%char :: rest) => bool_decide (lower (str name) ∈ COLOR_FUNCTIONS) && negb (bool_decide ("("%char ∈ rest))
  | (_, rest) => negb (bool_decide ("("%char ∈ rest))
  end = true.
Proof.
  unfold function_color. destruct (span_spec is_alpha l) as [Hl Hname]. destruct (span is_alpha l) as [name r]. cbn [fst snd] in *.
  destruct r as [|[[] [] [] [] [] [] [] []] rest]; try done. intros [Hf Hargs]%andb_prop. rewrite Hf. cbn [andb].
  destruct (rev rest) as [|c args] eqn:Hrev; [done|]. assert (Hrest : rest = rev args ++ [c]) by (by rewrite <-(rev_involutive rest), Hrev).
  destruct c as [[] [] [] [] [] [] [] []]; try done.
  destruct (no_open argument_char (rev args)) as [Hplain Hopen]; [apply argument_plain| |].
  { rewrite forallb_forall in *. intros x Hx. apply Hargs. by apply in_rev. }
  subst rest. split.
  - rewrite Hl, forallb_app. simpl. rewrite forallb_app, Hplain. simpl.
    rewrite (forallb_impl is_alpha plain_char name alpha_plain Hname). done.
  - rewrite bool_decide_false; [done|]. by intros [Hin|Hin%list_elem_of_singleton]%elem_of_app.
Qed.

Lemma theme_color_plain s : is_theme_color (VStr s) = true → plain_color (strip s) = true.
Proof.
  simpl. unfold plain_color. intros [[Hpos Hle]%andb_prop Hp]%andb_prop. rewrite strip_idemp, (bool_decide_true (_ = _)) by done.
  rewrite len_chars, Hpos, Hle. generalize (chars (strip s)) as l, Hp. clear. intros l Hp.
  cut (forallb plain_char l = true ∧
    match span is_alpha l with
    | (name, "("%char :: rest) => bool_decide (lower (str name) ∈ COLOR_FUNCTIONS) && negb (bool_decide ("("%char ∈ rest))
    | (_, rest) => negb (bool_decide ("("%char ∈ rest))
    end = true); [intros [-> ->]; done|].
  apply orb_prop in Hp as [[Hhex|Hf]%orb_prop|Hn].
  - unfold hex_color in Hhex. destruct l as [|[[] [] [] [] [] [] [] []] h]; try done. apply andb_prop in Hhex as [Hh _].
    destruct (no_open is_hex h hex_plain Hh) as [Hplain Hopen]. simpl. rewrite Hplain. split; [done|].
    rewrite bool_decide_false; [done|]. by intros [?|?]%elem_of_cons.
  - by apply function_color_plain.
  - unfold named_color in Hn. apply andb_prop in Hn as [[Hn _]%andb_prop _].
    rewrite (forallb_impl is_alpha plain_char l alpha_plain Hn), span_whole by done. done.
Qed.

(** A color scheme has each of its tokens once, with a plain color. *)
Definition plain_scheme (d : dict string string) : Prop :=
  dict_ok d ∧ ∀ token color, (token, color) ∈ d → token ∈ ADMIN_THEME_TOKENS ∧ plain_color color = true.

Lemma color_token_known key token : color_token key = Some token → token ∈ ADMIN_THEME_TOKENS.
Proof.
  unfold color_token. case_bool_decide as Hkey; [by intros [= <-]|]. unfold _SNAKE_TO_TOKEN. generalize ADMIN_THEME_TOKENS as ts. clear.
  induction ts as [|t ts IH]; simpl; [done|]. case_decide; [intros [= <-]; set_solver|]. intros Ht%IH. set_solver.
Qed.
Lemma colors_loop_plain repr scheme items : ∀ d d', plain_scheme d → colors_loop repr scheme items d = inr d' → plain_scheme d'.
Proof.
  induction items as [|[key value] items IH]; intros d d' Hd; simpl; [by intros [= <-]|].
  destruct (color_token key) as [token|] eqn:Ht; [|done]. destruct value as [|b|z|r|s|t|l|m]; try done; [by apply IH|].
  destruct (is_theme_color (VStr s)) eqn:Hc; [|done]. apply IH. destruct Hd as [Hok Hd]. split; [by apply dict_ok_set|].
  intros k v [[= -> ->]|Hin]%dict_elem_of_set; [|by apply Hd]. split; [by eapply color_token_known|by apply theme_color_plain].
Qed.
Lemma validate_colors_plain repr colors scheme d : _validate_colors repr colors scheme = inr d → plain_scheme d.
Proof.
  assert (Hnil : plain_scheme []) by (split; [apply dict_ok_nil|set_solver]). unfold _validate_colors.
  destruct colors as [[]|]; try done; try (by intros [= <-]). by apply colors_loop_plain.
Qed.

(** A theme that passes validation has one of the three modes and, in both
    schemes, known tokens only, each with a color of at most a hundred plain
    characters in which only a color function has arguments: no host setting,
    whatever its type, puts a declaration, a quote or [url(] in the page. *)
Theorem theme_colors_plain repr theme t :
  validate_admin_theme repr theme = inr t →
  theme_mode t ∈ ADMIN_THEME_MODES ∧ plain_scheme (theme_dark t) ∧ plain_scheme (theme_light t).
Proof.
  unfold validate_admin_theme. destruct (match theme with None | Some VNone => _ | _ => _ end) as [d|]; [|done].
  destruct (unknown_keys d); [|done]. cbv zeta. destruct (if falsy _ then _ else _) as [| | | |m| | |]; try done.
  case_bool_decide as Hm; [|done]. destruct (_validate_colors repr (dict_get "dark" d) "dark") as [|dark] eqn:Hdark; [done|].
  destruct (_validate_colors repr (dict_get "light" d) "light") as [|light] eqn:Hlight; [done|].
  intros [= <-]. split_and!; [done|by eapply validate_colors_plain..].
Qed.
Definition example_theme : pyval :=
  VDict [("mode", VStr "light"); ("dark", VDict [("primary_hover", VStr " #1a2B3c "); ("text", VNone); ("primaryHover", VStr "oklch(62% 0.2 250 / 80%)")]);
         ("light", VDict [("accent", VStr "teal")])].
Lemma theme_colors_plain_witness : ∃ t, validate_admin_theme (λ _, "") (Some example_theme) = inr t ∧
  theme_dark t = [("primaryHover", "oklch(62% 0.2 250 / 80%)")] ∧ theme_mode t ∈ ADMIN_THEME_MODES ∧ plain_scheme (theme_dark t) ∧ plain_scheme (theme_light t).
Proof. eexists. split; [vm_compute; reflexivity|]. split; [reflexivity|]. apply (theme_colors_plain (λ _, "") (Some example_theme)). vm_compute. reflexivity. Defined.

Example theme_refused : map is_theme_color (map VStr ["red; background: url(x)"; "url(x)"; "var(--x)"; "rgb(0,0,0"; "#12345"; "#abcd"; ""; "RGBA(1 2 3 / .5)"]) =
  [false; false; false; false; false; true; false; true].
Proof. vm_compute. done. Qed.

(** A name of the branding is shown stripped, not empty, of at most 80
    characters, and none of them a control character. *)
Lemma text_shown value prop text : _text value prop = inr (Some text) →
  (∃ s, value = Some (VStr s) ∧ text = strip s) ∧ text ≠ "" ∧ (len text ≤ _MAX_NAME)%nat ∧ existsb control_char (chars text) = false.
Proof.
  unfold _text. destruct value as [[| | | |s| | |]|]; try done. cbv zeta. unfold is_empty. case_bool_decide as Hs; [done|].
  destruct (Nat.ltb_spec _MAX_NAME (len (strip s))); [done|]. destruct (existsb control_char (chars (strip s))) eqn:Hctl; [done|].
  intros [= <-]. split_and!; [by exists s|done|lia|done].
Qed.
