(* ===== verification/LogSockets.v ===== *)
(** * Log sockets ([core/services/cli_log_socket_manager.py])

    Log records streamed to sockets, each with the level it asked for.  Sending
    is a task of the event loop, so a record waits as a task before its sockets
    get it; sessions end as in [Sockets.v]. *)

From S2P Require Import Prelude PyStr Values Sockets Redact.
From Stdlib Require Import Ascii.

Definition _LEVEL_ORDER : dict string Z :=
  [("verbose", 0); ("debug", 1); ("information", 2); ("warning", 3); ("error", 4); ("fatal", 5)].

Definition should_send_log (filter_level : option string) (log_level : string) : bool :=
  match filter_level with
  | None => true
  | Some f =>
      if is_empty f then true
      else match dict_get (lower f) _LEVEL_ORDER, dict_get (lower log_level) _LEVEL_ORDER with
           | Some f, Some l => f <=? l
           | _, _ => true
           end
  end.

Definition format_log_message (now level message : string) (category : option string) : pyval :=
  VDict [("type", VStr "log"); ("timestamp", VStr now); ("level", VStr (lower level)); ("message", VStr message);
         ("category", opt_str category)].

Definition map_log_level (levelno : Z) : string :=
  if levelno <=? 10 then "debug"
  else if levelno <=? 20 then "information"
  else if levelno <=? 30 then "warning"
  else if levelno <=? 40 then "error"
  else "fatal".

Record LogManager := {
  log_bound : dict nat Principal;
  log_clients : dict Z (nat * option string);
  next_id : Z;
  (* the world: tasks of the loop, calls of [send_text], closed sockets *)
  log_tasks : list (list nat * pyval);
  log_sent : list (nat * pyval);
  log_closed : list nat;
}.
Definition new_log_manager : LogManager :=
  {| log_bound := []; log_clients := []; next_id := 0; log_tasks := []; log_sent := []; log_closed := [] |}.

Definition with_clients (b : dict nat Principal) (c : dict Z (nat * option string)) (m : LogManager) : LogManager :=
  {| log_bound := b; log_clients := c; next_id := next_id m; log_tasks := log_tasks m; log_sent := log_sent m;
     log_closed := log_closed m |}.

(** [handle_connection] up to its first wait, and its [finally]; the client's id
    is the counter's value. *)
Definition log_connect (ws : nat) (level_filter : option string) (identity : option Principal) (m : LogManager) : LogManager :=
  {| log_bound := match identity with
                  | Some p => if bool_decide (is_Some (pr_user p)) then dict_set ws p (log_bound m) else log_bound m
                  | None => log_bound m
                  end;
     log_clients := dict_set (next_id m) (ws, level_filter) (log_clients m);
     next_id := next_id m + 1; log_tasks := log_tasks m; log_sent := log_sent m ++ [(ws, connected_message)];
     log_closed := log_closed m |}.
Definition log_disconnect (ws : nat) (client_id : Z) (m : LogManager) : LogManager :=
  with_clients (dict_del ws (log_bound m)) (dict_del client_id (log_clients m)) m.

(** [_on_session_ended] *)
Definition drop_socket (ws : nat) (d : dict Z (nat * option string)) : dict Z (nat * option string) :=
  foldl (λ d kv, if bool_decide (kv.2.1 = ws) then dict_del kv.1 d else d) d d.
Definition log_check (ws : nat) (result : bool) (m : LogManager) : LogManager :=
  if result || negb (dict_mem ws (log_bound m)) then m
  else
    {| log_bound := dict_del ws (log_bound m); log_clients := drop_socket ws (log_clients m); next_id := next_id m;
       log_tasks := log_tasks m; log_sent := log_sent m; log_closed := log_closed m ++ [ws] |}.

Definition targets (level : string) (m : LogManager) : list nat :=
  map fst (List.filter (λ c, should_send_log c.2 level) (dict_values (log_clients m))).

(** [in_loop]: there is a running event loop *)
Definition broadcast_log (in_loop : bool) (now level message : string) (category : option string) (m : LogManager) : LogManager :=
  match targets level m with
  | [] => m
  | ts =>
      if in_loop then
        {| log_bound := log_bound m; log_clients := log_clients m; next_id := next_id m;
           log_tasks := log_tasks m ++ [(ts, format_log_message now level message category)];
           log_sent := log_sent m; log_closed := log_closed m |}
      else m
  end.

(** The next task, [_do_broadcast] *)
Definition run_task (m : LogManager) : LogManager :=
  match log_tasks m with
  | [] => m
  | (ts, message) :: rest =>
      {| log_bound := log_bound m; log_clients := log_clients m; next_id := next_id m; log_tasks := rest;
         log_sent := log_sent m ++ map (λ ws, (ws, message)) ts; log_closed := log_closed m |}
  end.

Definition log_broadcast_disconnect (m : LogManager) : LogManager :=
  {| log_bound := log_bound m; log_clients := []; next_id := next_id m; log_tasks := log_tasks m;
     log_sent := log_sent m ++ map (λ c, (c.1, disconnect_message)) (dict_values (log_clients m)); log_closed := log_closed m |}.

(** [WebSocketLogHandler.emit]; [text] is what the handler's formatter, or
    [getMessage], makes of the record. *)
Definition emit (in_loop : bool) (now : string) (r : LogRecord) (text : string) (m : LogManager) : LogManager :=
  if is_sensitive_record r then m
  else broadcast_log in_loop now (map_log_level (levelno r)) (redact text) (Some (logger_name r)) m.

(** ** Runs *)

(** A step, with the filter a socket connects with in it *)
Abbreviation Filters := (list (nat * option string)).
Inductive log_step : LogManager → Filters → LogManager → Prop :=
| log_connects m ws f identity : log_step m [(ws, f)] (log_connect ws f identity m)
| log_disconnects m ws i : log_step m [] (log_disconnect ws i m)
| log_checked m ws result : log_step m [] (log_check ws result m)
| log_emits m in_loop now r text : log_step m [] (emit in_loop now r text m)
| log_runs m : log_step m [] (run_task m)
| log_stops m : log_step m [] (log_broadcast_disconnect m).

Inductive log_run : Filters → LogManager → Prop :=
| log_run_new : log_run [] new_log_manager
| log_run_step F m G m' : log_run F m → log_step m G m' → log_run (F ++ G) m'.

(** ** Theorems *)

(** A message a socket may be sent: the greeting, the farewell, or the redacted
    text of a record that is not sensitive and whose level its filter lets
    through. *)
Inductive allowed (filters : Filters) (ws : nat) : pyval → Prop :=
| allowed_connected : allowed filters ws connected_message
| allowed_disconnect : allowed filters ws disconnect_message
| allowed_log f now r text :
    (ws, f) ∈ filters → is_sensitive_record r = false → should_send_log f (map_log_level (levelno r)) = true →
    allowed filters ws (format_log_message now (map_log_level (levelno r)) (redact text) (Some (logger_name r))).

Record log_ok (filters : Filters) (m : LogManager) : Prop := {
  lo_clients : ∀ i ws f, (i, (ws, f)) ∈ log_clients m → (ws, f) ∈ filters;
  lo_tasks : ∀ ts message ws, (ts, message) ∈ log_tasks m → ws ∈ ts → allowed filters ws message;
  lo_sent : ∀ ws message, (ws, message) ∈ log_sent m → allowed filters ws message;
}.

Lemma allowed_mono (F G : Filters) ws message : allowed F ws message → allowed (F ++ G) ws message.
Proof. intros []; [constructor|constructor|econstructor; [by apply elem_of_app; left|done..]]. Qed.

Lemma log_ok_mono F G m : log_ok F m → log_ok (F ++ G) m.
Proof.
  intros [Hc Ht Hs]. split; intros; [apply elem_of_app; left; by eapply Hc|eapply allowed_mono, Ht; done|by apply allowed_mono, Hs].
Qed.

Lemma drop_socket_sub ws d i c : (i, c) ∈ drop_socket ws d → (i, c) ∈ d.
Proof.
  unfold drop_socket. assert (∀ (l : dict Z (nat * option string)) d', (i, c) ∈ foldl (λ d kv, if bool_decide (kv.2.1 = ws) then dict_del kv.1 d else d) d' l → (i, c) ∈ d').
  { induction l as [|[k v] l IH]; intros d'; cbn [foldl]; [done|]. intros H%IH. case_bool_decide; [|done]. by eapply dict_elem_of_del. }
  apply H.
Qed.

Lemma emit_ok F in_loop now r text m : log_ok F m → log_ok F (emit in_loop now r text m).
Proof.
  intros Hm. unfold emit. destruct (is_sensitive_record r) eqn:Hs; [done|]. unfold broadcast_log.
  destruct (targets _ m) as [|t ts] eqn:Ht; [done|]. destruct in_loop; [|done]. destruct Hm as [Hc Htk Hse]. split; [done| |done].
  simpl. intros ts' message ws [?|Hin]%elem_of_app Hws; [by eapply Htk|].
  apply list_elem_of_singleton in Hin as [= -> ->]. rewrite <- Ht in Hws. unfold targets in Hws.
  apply list_elem_of_In, in_map_iff in Hws as ([w f] & <- & Hf%filter_In). destruct Hf as [Hin Hpass]. simpl in Hpass.
  apply list_elem_of_In, list_elem_of_fmap in Hin as ([i [w' f']] & [= -> ->] & Hin). simpl. econstructor; [|done|done]. by eapply Hc.
Qed.

Lemma log_step_ok F m G m' : log_ok F m → log_step m G m' → log_ok (F ++ G) m'.
Proof.
  intros IH Hstep. destruct Hstep as [m ws f identity|m ws i|m ws result|m in_loop now r text|m|m].
  - pose proof (log_ok_mono _ [(ws, f)] _ IH) as [Hc Ht Hs]. split; simpl; [|done|].
    + intros j w g Hin. apply dict_elem_of_set in Hin as [Heq|Hin]; [simplify_eq; set_solver|by eapply Hc].
    + intros w message [?|[= _ Hm]%list_elem_of_singleton]%elem_of_app; [by apply Hs|subst; constructor].
  - apply (log_ok_mono _ []) in IH as [Hc Ht Hs]. split; simpl; [|done|done]. intros j w f ?%dict_elem_of_del. by eapply Hc.
  - apply (log_ok_mono _ []) in IH as [Hc Ht Hs]. unfold log_check. destruct (_ || _); [done|]. split; simpl; [|done|done].
    intros j w f ?%drop_socket_sub. by eapply Hc.
  - by apply log_ok_mono, emit_ok.
  - apply (log_ok_mono _ []) in IH as [Hc Ht Hs]. unfold run_task. destruct (log_tasks m) as [|[ts message] rest] eqn:Hk; [split; rewrite ?Hk; done|].
    split; simpl; [done| |].
    + intros ts' message' ws Hin. apply Ht. by right.
    + intros ws message' [?|Hin]%elem_of_app; [by apply Hs|]. apply list_elem_of_In, in_map_iff in Hin as (w & [= -> ->] & Hw).
      apply (Ht ts); [by left|by apply list_elem_of_In].
  - apply (log_ok_mono _ []) in IH as [Hc Ht Hs]. split; simpl; [by intros * ?%elem_of_nil|done|].
    intros ws message [?|Hin]%elem_of_app; [by apply Hs|]. apply list_elem_of_In, in_map_iff in Hin as (w & [= _ <-] & _). constructor.
Qed.

Lemma log_run_ok F m : log_run F m → log_ok F m.
Proof. induction 1 as [|F m G m' _ IH Hstep]; [split; by intros * ?%elem_of_nil|by eapply log_step_ok]. Qed.

(** In every run, whatever connects, ends and is logged in whatever order: a
    socket is only ever sent the greeting, the farewell and redacted records that
    are not sensitive and pass the filter it connected with.  And two records
    whose texts differ in a secret only are streamed alike. *)
Theorem log_sockets_filtered F m :
  log_run F m →
  (∀ ws message, (ws, message) ∈ log_sent m → allowed F ws message) ∧
  ∀ in_loop now r text text', differ_in_secret core_name core_value text text' →
    emit in_loop now r text m = emit in_loop now r text' m.
Proof.
  intros Hrun. split; [apply (lo_sent _ _ (log_run_ok F m Hrun))|]. intros in_loop now r text text' Hd.
  unfold emit, redact. rewrite (redact_chars_hides core_name core_value text text'); [done| |done|done|done]. apply core_value_word.
Qed.

Definition record : LogRecord :=
  {| levelno := 30; levelname := "WARNING"; logger_name := "app"; msg := VStr "login token=abc"; args := inl []; sensitive := false |}.
Definition listening : LogManager := Eval vm_compute in log_connect 2 (Some "error") None (log_connect 1 (Some "Warning") None new_log_manager).
Definition streamed : LogManager := Eval vm_compute in run_task (emit true "now" record "login token=abc" listening).

Lemma log_sockets_filtered_witness :
  log_sent streamed = [(1%nat, connected_message); (2%nat, connected_message);
                       (1%nat, format_log_message "now" "warning" "login token=[redacted]" (Some "app"))] ∧
  ∃ F, allowed F 1 (format_log_message "now" "warning" "login token=[redacted]" (Some "app")).
Proof.
  split; [reflexivity|].
  exists ([] ++ [(1%nat, Some "Warning")] ++ [(2%nat, Some "error")] ++ [] ++ []).
  apply (proj1 (log_sockets_filtered _ streamed
    (log_run_step _ _ [] _ (log_run_step _ _ [] _ (log_run_step _ _ [_] _ (log_run_step _ _ [_] _ log_run_new
       (log_connects _ 1 (Some "Warning") None)) (log_connects _ 2 (Some "error") None)) (log_emits _ true "now" record "login token=abc")) (log_runs _)))).
  right. right. left.
Defined.
