(* ===== verification/LogRing.v ===== *)
(** * The admin's log buffer ([admin/services/log_ring_buffer.py], [time_range.py], [controllers/logs_controller.py])

    The last records of the server in memory, their query and their histogram.
    Times are microseconds; [fromisoformat] is a parameter, as in [JobStats.v],
    and the width of a column is exact.  Levels are ASCII. *)

From S2P Require Import Prelude PyStr Values Redact.
From S2P Require JobStats AuditStore.
From Stdlib Require Import Ascii QArith.QArith.

Open Scope Z_scope.

Record LogEntry := { timestamp : string; level : string; message : string; source : string }.

Definition HISTOGRAM_LEVELS : list string := ["DEBUG"; "INFO"; "WARN"; "ERROR"].
Definition _HISTOGRAM_LEVEL_MAP : dict string string :=
  [("TRACE", "DEBUG"); ("DEBUG", "DEBUG"); ("INFO", "INFO"); ("INFORMATION", "INFO"); ("WARN", "WARN"); ("WARNING", "WARN");
   ("ERROR", "ERROR"); ("CRITICAL", "ERROR"); ("FATAL", "ERROR")].
Definition histogram_level (l : option string) : option string := dict_get (upper (strip (or_empty l))) _HISTOGRAM_LEVEL_MAP.

Definition _normalize_level (l : string) : string := if bool_decide (upper l = "WARNING") then "WARN" else upper l.

(** ** The buffer *)

(** The deque, the oldest entry first *)
Record LogRingBuffer := { max_size : nat; _buffer : list LogEntry }.

Definition add (e : LogEntry) (b : LogRingBuffer) : LogRingBuffer :=
  let e := {| timestamp := timestamp e; level := upper (if is_empty (level e) then "INFO" else level e);
              message := message e; source := source e |} in
  {| max_size := max_size b; _buffer := AuditStore.deque_append (max_size b) (_buffer b) e |}.

(** [_RingBufferHandler.emit]; [text] is the formatted record. *)
Definition emit (now : string) (r : LogRecord) (text : string) (b : LogRingBuffer) : LogRingBuffer :=
  if is_sensitive_record r then b
  else add {| timestamp := now; level := levelname r; message := admin_redact text; source := logger_name r |} b.

(** ** Filters *)

(** The set of levels a query names *)
Definition match_levels (l : string) : list string :=
  concat (map (λ n, let n := upper (strip n) in
                    if is_empty n then [] else if bool_decide (n = "WARN") then [n; "WARNING"] else [n]) (PyStr.split ","%char l)).

Definition has_level (l : option string) (e : LogEntry) : bool :=
  match l with
  | Some l => is_empty l || bool_decide (match_levels l = []) || bool_decide (level e ∈ match_levels l)
  | None => true
  end.
Definition has_text (search : option string) (e : LogEntry) : bool :=
  match search with
  | Some s => is_empty s || contains (lower s) (lower (message e)) || contains (lower s) (lower (source e))
  | None => true
  end.
Definition _filter (l search service : option string) (b : LogRingBuffer) : list LogEntry :=
  if truthy_opt service then []
  else List.filter (has_text search) (List.filter (has_level l) (_buffer b)).

Section Times.
Context (fromisoformat : string → option datetime).

(** [text.replace("Z", "+00:00")] *)
Definition zulu (s : string) : string :=
  str (concat (map (λ c, if Ascii.eqb c "Z"%char then chars "+00:00" else [c]) (chars s))).
Definition _entry_time (e : LogEntry) : option Z := as_utc <$> fromisoformat (zulu (timestamp e)).

Definition in_range (since until : option Z) (e : LogEntry) : bool :=
  match since, until with
  | None, None => true
  | _, _ =>
      match _entry_time e with
      | Some t => match since with Some s => s <=? t | None => true end && match until with Some u => t <? u | None => true end
      | None => false
      end
  end.

Definition entry_json (e : LogEntry) : dict string pyval :=
  [("timestamp", VStr (timestamp e)); ("level", VStr (_normalize_level (level e))); ("message", VStr (message e));
   ("source", VStr (source e))].

Record LogQuery := {
  q_level : option string; q_search : option string; q_service : option string;
  q_since : option Z; q_until : option Z; q_limit : Z; q_offset : Z;
}.

Definition matching (q : LogQuery) (b : LogRingBuffer) : list LogEntry :=
  List.filter (in_range (q_since q) (q_until q)) (_filter (q_level q) (q_search q) (q_service q) b).
Definition query (q : LogQuery) (b : LogRingBuffer) : list (dict string pyval) * Z :=
  let entries := matching q b in
  (map entry_json (py_slice (q_offset q) (q_offset q + q_limit q) entries), Z.of_nat (length entries)).

(** ** Histogram *)

(** The column of a time, [int(offset // bucket_ms)] kept in range *)
Definition time_column (since until buckets t : Z) : Z :=
  Z.min (Z.max ((t - since) * buckets / (until - since)) 0) (buckets - 1).

(** The level and the time of an entry that is counted *)
Definition counted (since until : Z) (levels : option (list string)) (e : LogEntry) : option (string * Z) :=
  match histogram_level (Some (level e)), _entry_time e with
  | Some name, Some t =>
      if match levels with Some ((_ :: _) as l) => bool_decide (name ∈ l) | _ => true end && (since <=? t) && (t <? until)
      then Some (name, t) else None
  | _, _ => None
  end.

Record Histogram := {
  h_from : string; h_to : string; h_bucket_ms : Q;
  h_buckets : list (string * (string → Z));
  h_totals : string → Z;
}.

Definition count_level (name : string) (l : list (string * Z)) : Z :=
  Z.of_nat (length (List.filter (λ c, bool_decide (c.1 = name)) l)).

Definition histogram (since until buckets : Z) (levels : option (list string)) (search service : option string) (b : LogRingBuffer)
    : Histogram :=
  let entries := omap (counted since until levels) (_filter None search service b) in
  {| h_from := iso_ms since; h_to := iso_ms until; h_bucket_ms := (inject_Z (until - since) / inject_Z (1000 * buckets))%Q;
     h_buckets := map (λ i, (iso_ms (JobStats.column_start since until buckets (Z.of_nat i)),
                             λ name, count_level name (List.filter (λ c, time_column since until buckets c.2 =? Z.of_nat i) entries)))
                    (seq 0 (Z.to_nat buckets));
     h_totals := λ name, count_level name entries |}.

(** ** The routes *)

Inductive range_error := RangeError (msg : string).

(** [time_range.py] repeats the parsers of the job statistics, with names for the
    two ends. *)
Definition as_range {A} (r : JobStats.stats_error + A) : range_error + A :=
  match r with inl (JobStats.StatsRequestError m) => inl (RangeError m) | inr a => inr a end.
Definition parse_time (value : option string) (nm : string) : range_error + option Z :=
  as_range (JobStats.parse_time fromisoformat value nm).
Definition parse_buckets (value : option string) : range_error + Z := as_range (JobStats.parse_buckets value).

Definition resolve_range (start stop : option string) (start_name end_name : string) (now : Z) : range_error + (Z * Z) :=
  match parse_time stop end_name with
  | inl e => inl e
  | inr u =>
      let until := default now u in
      match parse_time start start_name with
      | inl e => inl e
      | inr s =>
          let since := default (until - JobStats.DEFAULT_RANGE) s in
          if until <=? since then inl (RangeError ("'" +:+ start_name +:+ "' must be before '" +:+ end_name +:+ "'"))
          else inr (since, until)
      end
  end.

Fixpoint levels_loop (out : list string) (names : list string) : range_error + list string :=
  match names with
  | [] => inr out
  | n :: names =>
      if is_empty (strip n) then levels_loop out names
      else
        match histogram_level (Some n) with
        | None => inl (RangeError ("Unknown level '" +:+ strip n +:+ "': use " +:+ join ", " HISTOGRAM_LEVELS +:+ "."))
        | Some l => levels_loop (if bool_decide (l ∈ out) then out else out ++ [l]) names
        end
  end.
Definition _levels (l : option string) : range_error + list string := levels_loop [] (PyStr.split ","%char (or_empty l)).

(** [service.strip() if service and service.strip() else None] *)
Definition stripped (s : option string) : option string :=
  match s with Some s => if is_empty (strip s) then None else Some (strip s) | None => None end.

Inductive log_answer :=
| Page (entries : list (dict string pyval)) (total limit off : Z) (has_more : bool)
| Chart (h : Histogram)
| BadRange (error : string).

(** The parameters, as FastAPI passes them on: [limit] at most 1000, [offset] not
    negative. *)
Record LogsRequest := {
  r_level : option string; r_search : option string; r_service : option string;
  r_from : option string; r_to : option string; r_limit : Z; r_offset : Z; r_buckets : option string;
}.

Definition get_logs (r : LogsRequest) (b : LogRingBuffer) : log_answer :=
  match parse_time (r_from r) "from" with
  | inl (RangeError e) => BadRange e
  | inr since =>
      match parse_time (r_to r) "to" with
      | inl (RangeError e) => BadRange e
      | inr until =>
          let '(items, total) := query {| q_level := r_level r; q_search := r_search r; q_service := stripped (r_service r);
                                          q_since := since; q_until := until; q_limit := r_limit r; q_offset := r_offset r |} b in
          Page items total (r_limit r) (r_offset r) (r_offset r + Z.of_nat (length items) <? total)
      end
  end.

Definition get_logs_histogram (r : LogsRequest) (now : Z) (b : LogRingBuffer) : log_answer :=
  match resolve_range (r_from r) (r_to r) "from" "to" now with
  | inl (RangeError e) => BadRange e
  | inr (since, until) =>
      match parse_buckets (r_buckets r) with
      | inl (RangeError e) => BadRange e
      | inr count =>
          match _levels (r_level r) with
          | inl (RangeError e) => BadRange e
          | inr levels => Chart (histogram since until count (Some levels) (r_search r) (stripped (r_service r)) b)
          end
      end
  end.
End Times.

(** * What the admin's log pages show *)

Open Scope Z_scope.

(** ** The ring *)

Definition stored (e : LogEntry) : LogEntry :=
  {| timestamp := timestamp e; level := upper (if is_empty (level e) then "INFO" else level e);
     message := message e; source := source e |}.

(** A record that reaches the buffer: its time, the record and its text *)
Abbreviation Logged := (string * LogRecord * string)%type.
Definition entry_of (x : Logged) : option LogEntry :=
  let '(now, r, text) := x in
  if is_sensitive_record r then None
  else Some (stored {| timestamp := now; level := levelname r; message := admin_redact text; source := logger_name r |}).
Definition emits (l : list Logged) (b : LogRingBuffer) : LogRingBuffer := foldl (λ b x, emit x.1.1 x.1.2 x.2 b) b l.

Lemma emits_max l b : max_size (emits l b) = max_size b.
Proof.
  unfold emits. revert b. induction l as [|x l IH]; intros b; simpl; [done|]. rewrite IH. unfold emit. by destruct (is_sensitive_record _).
Qed.

(** The buffer is the newest entries of everything logged that is not sensitive,
    at most as many as its size, in the order of logging; and what it holds does
    not depend on the secrets of the texts. *)
Theorem ring_keeps_newest l n :
  _buffer (emits l {| max_size := n; _buffer := [] |}) = AuditStore.keep_last n (omap entry_of l) ∧
  (length (_buffer (emits l {| max_size := n; _buffer := [] |})) ≤ n)%nat ∧
  ∀ now r text text' b, differ_in_secret admin_name admin_value text text' → emit now r text b = emit now r text' b.
Proof.
  assert (Hbuf : _buffer (emits l {| max_size := n; _buffer := [] |}) = AuditStore.keep_last n (omap entry_of l)).
  { induction l as [|x l IH] using rev_ind; [done|]. unfold emits in *. rewrite foldl_app, omap_app. cbn [foldl].
    set (b := foldl _ _ l) in *. assert (Hmax : max_size b = n) by apply (emits_max l {| max_size := n; _buffer := [] |}).
    destruct x as [[now r] text]. unfold emit. cbn [omap list_omap entry_of fst snd]. destruct (is_sensitive_record r); [by rewrite app_nil_r|].
    unfold add. cbn [_buffer]. rewrite IH, Hmax. apply AuditStore.deque_append_last. }
  split_and!; [done| |].
  - rewrite Hbuf. apply AuditStore.keep_last_length.
  - intros now r text text' b Hd. unfold emit, admin_redact.
    rewrite (redact_chars_hides admin_name admin_value text text'); [done| |done|done|done]. apply admin_value_word.
Qed.

(** ** Pages *)

Section Times.
Context (fromisoformat : string → option datetime).
Abbreviation query := (query fromisoformat).
Abbreviation matching := (matching fromisoformat).

Definition page (q : LogQuery) (n k : nat) : LogQuery :=
  {| q_level := q_level q; q_search := q_search q; q_service := q_service q; q_since := q_since q; q_until := q_until q;
     q_limit := Z.of_nat n; q_offset := Z.of_nat (k * n) |}.

(** Reading the log page by page gives every matching entry once, in order: the
    first [m] pages of [n] entries are the first [m * n] matches, and every page
    tells how many matches there are. *)
Theorem pages_are_matches q b n m :
  concat (map (λ k, (query (page q n k) b).1) (seq 0 m)) = map entry_json (firstn (m * n) (matching q b)) ∧
  ∀ k, (query (page q n k) b).2 = Z.of_nat (length (matching q b)).
Proof.
  split; [|done]. induction m as [|m IH]; [done|]. rewrite seq_S, map_app, concat_app, IH. cbn [map concat]. rewrite app_nil_r.
  unfold LogRing.query at 1. cbn [q_offset q_limit page fst Nat.add].
  rewrite py_slice_nonneg by lia. replace (Z.to_nat (Z.of_nat (m * n) + Z.of_nat n) - Z.to_nat (Z.of_nat (m * n)))%nat with n by lia.
  rewrite Nat2Z.id, <- map_app. f_equal. change (LogRing.matching fromisoformat (page q n m) b) with (matching q b).
  rewrite <- (take_drop (m * n) (take (S m * n) (matching q b))). rewrite take_take, Nat.min_l by lia. f_equal.
  rewrite skipn_firstn_comm. f_equal. lia.
Qed.

(** ** Histogram *)

Lemma time_column_range since until buckets t : 1 ≤ buckets → 0 ≤ time_column since until buckets t < buckets.
Proof. unfold time_column. lia. Qed.

Lemma counted_spec since until levels e name t :
  counted fromisoformat since until levels e = Some (name, t) ↔
  histogram_level (Some (level e)) = Some name ∧ _entry_time fromisoformat e = Some t ∧ since ≤ t < until ∧
  match levels with Some ((_ :: _) as l) => name ∈ l | _ => True end.
Proof.
  unfold counted. destruct (histogram_level _) as [n|]; [|naive_solver]. destruct (_entry_time _ e) as [u|]; [|naive_solver].
  destruct (match levels with Some _ => _ | None => _ end && _ && _) eqn:Hc.
  - apply andb_true_iff in Hc as [[Hl Hs%Z.leb_le]%andb_true_iff Hu%Z.ltb_lt].
    split; [intros [= <- <-]|intros (? & ? & _); congruence]. split_and!; [done..|]. destruct levels as [[|]|]; [done| |done].
    by apply bool_decide_eq_true in Hl.
  - split; [done|]. intros ([= <-] & [= <-] & [Hs Hu] & Hl). exfalso. apply not_true_iff_false in Hc. apply Hc.
    apply Z.leb_le in Hs. apply Z.ltb_lt in Hu. rewrite Hs, Hu, !andb_true_r. destruct levels as [[|]|]; [done| |done].
    by apply bool_decide_eq_true.
Qed.

Lemma column_encloses since until buckets t :
  1 ≤ buckets → since ≤ t < until →
  let i := time_column since until buckets t in
  i * (until - since) ≤ (t - since) * buckets < (i + 1) * (until - since).
Proof.
  intros Hb Ht. cbv zeta. unfold time_column. set (x := (t - since) * buckets). set (w := until - since).
  assert (0 < w) by lia. assert (0 ≤ x) by nia. assert (x < buckets * w) by nia.
  assert (0 ≤ x / w < buckets) as Hq by (split; [by apply Z.div_pos|apply Z.div_lt_upper_bound; lia]).
  rewrite Z.max_l, Z.min_l by lia. pose proof (Z.div_mod x w). pose proof (Z.mod_pos_bound x w). nia.
Qed.

(** The chart accounts for every entry once: for each level the columns add up to
    its total, which is the number of entries of that level in the range that
    pass the filters; and an entry is counted in the column whose exact bounds
    enclose its time. *)
Theorem histogram_consistent since until buckets levels search service b name :
  1 ≤ buckets → since < until →
  let h := histogram fromisoformat since until buckets levels search service b in
  let kept := omap (counted fromisoformat since until levels) (_filter None search service b) in
  JobStats.zsum (map (λ c, c.2 name) (h_buckets h)) = h_totals h name ∧
  h_totals h name = Z.of_nat (length (List.filter (λ c, bool_decide (c.1 = name)) kept)) ∧
  (∀ c, c ∈ kept → c.1 ∈ HISTOGRAM_LEVELS ∧
     time_column since until buckets c.2 * (until - since) ≤ (c.2 - since) * buckets <
     (time_column since until buckets c.2 + 1) * (until - since)).
Proof.
  intros Hb Hr h kept. split_and!; [|done|].
  - unfold h, histogram. cbn [h_buckets h_totals]. fold kept. rewrite map_map. cbn [snd]. unfold count_level.
    rewrite <- (JobStats.zsum_filter (λ c, Z.to_nat (time_column since until buckets c.2)) (λ c, bool_decide (c.1 = name))
      (seq 0 (Z.to_nat buckets)) kept).
    + f_equal. apply map_ext. intros i. do 3 f_equal. apply JobStats.filter_ext_list. intros c.
      pose proof (time_column_range since until buckets c.2 Hb).
      destruct (Z.eqb_spec (time_column since until buckets c.2) (Z.of_nat i)); case_bool_decide; lia.
    + apply NoDup_seq.
    + intros c _. pose proof (time_column_range since until buckets c.2 Hb). apply elem_of_seq. lia.
  - intros [n t] (e & _ & Hc)%list_elem_of_omap. apply counted_spec in Hc as (Hn & _ & Ht & _). cbn [fst snd]. split.
    + unfold histogram_level in Hn. apply dict_get_elem_of in Hn. unfold _HISTOGRAM_LEVEL_MAP, HISTOGRAM_LEVELS in *. set_solver.
    + by apply column_encloses.
Qed.
End Times.

(** ** Examples *)

Definition at_ (ts lv text : string) : LogEntry := {| timestamp := ts; level := lv; message := text; source := "app" |}.
(** Times of the form [T<digits>] *)
Definition toy_iso (s : string) : option datetime := utc <$> py_int (drop_str 1 s).
Definition ring : LogRingBuffer := {| max_size := 3; _buffer := [at_ "T10" "CRITICAL" "a"; at_ "T20" "INFO" "b"; at_ "T30" "WARNING" "c"] |}.
Definition request (l : option string) (n : Z) : LogsRequest :=
  {| r_level := l; r_search := None; r_service := None; r_from := Some "T0"; r_to := Some "T40"; r_limit := n; r_offset := 0;
     r_buckets := Some "4" |}.

(** A negative limit, which the route lets through, drops entries from the end. *)
Example negative_log_limit :
  match get_logs toy_iso (request None (-1)) ring with Page l n _ _ more => (length l, n, more) | _ => (0%nat, 0, false) end = (2%nat, 3, true).
Proof. vm_compute. reflexivity. Qed.

(** A critical entry counts as an error in the chart, but is not among the errors
    of the list. *)
Example critical_is_no_error :
  match get_logs_histogram toy_iso (request (Some "ERROR") 100) 0 ring with Chart h => h_totals h "ERROR" | _ => 0 end = 1 ∧
  get_logs toy_iso (request (Some "ERROR") 100) ring = Page [] 0 100 0 false.
Proof. vm_compute. split; reflexivity. Qed.

Lemma histogram_consistent_witness :
  let h := histogram toy_iso 0 40 4 None None None ring in
  h_totals h "ERROR" = 1 ∧ JobStats.zsum (map (λ c, c.2 "ERROR") (h_buckets h)) = h_totals h "ERROR".
Proof.
  split; [vm_compute; reflexivity|].
  apply (histogram_consistent toy_iso 0 40 4 None None None ring "ERROR"); lia.
Defined.
