(* ===== verification/AdminModules.v ===== *)
(** * Modules that can be switched off ([admin/services/module_registry.py], [controllers/plugins_controller.py])

    The registry maps the processors the modules had when it was made to module
    ids; the modules of the builder may change later.  Objects are compared by
    identity, [object_id]. *)

From S2P Require Import Prelude PyStr Values.
From S2P Require ShellProcs.
From Stdlib Require Import Ascii.

Section Modules.
Context {P : Type} (object_id : P → Z) (command : P → string).

(** [m_name]: the attribute, if there is one and it is a string; [m_author]: as
    the listing shows it. *)
Record CliModule := {
  m_name : option string;
  m_class : string;
  m_version : option string;
  m_description : option string;
  m_author : option pyval;
  m_processors : list P;
}.

Record ModuleRegistry := {
  _disabled : list string;
  _processor_to_module : dict Z string;
}.

Definition names_count (n : option string) (ms : list CliModule) : nat :=
  length (List.filter (λ m, bool_decide (m_name m = n)) ms).

Definition _module_id (ms : list CliModule) (idx : nat) (m : CliModule) : string :=
  match m_name m with
  | Some n => if negb (is_empty n) && (names_count (Some n) ms =? 1)%nat then n else str_of_nat idx
  | None => str_of_nat idx
  end.

(** [enumerate] *)
Definition enumerate {A} (l : list A) : list (nat * A) := zip (seq 0 (length l)) l.

Definition _rebuild_processor_map (ms : list CliModule) : dict Z string :=
  foldl (λ d im, foldl (λ d p, dict_set (object_id p) (_module_id ms im.1 im.2) d) d (m_processors im.2)) [] (enumerate ms).
Definition new_registry (ms : list CliModule) : ModuleRegistry :=
  {| _disabled := []; _processor_to_module := _rebuild_processor_map ms |}.

Definition is_allowed (r : ModuleRegistry) (p : P) : bool :=
  match dict_get (object_id p) (_processor_to_module r) with
  | None => true
  | Some i => negb (bool_decide (i ∈ _disabled r))
  end.

Definition _describe (ms : list CliModule) (idx : nat) (m : CliModule) (enabled : bool) : dict string pyval :=
  [("id", VStr (_module_id ms idx m)); ("name", VStr (default (m_class m) (m_name m)));
   ("version", VStr (or_empty (m_version m))); ("description", VStr (or_empty (m_description m)));
   ("enabled", VBool enabled); ("processorCount", VInt (Z.of_nat (length (m_processors m))));
   ("processors", VList (map (λ p, VStr (command p)) (m_processors m)))] ++
  match m_author m with Some a => [("author", a)] | None => [] end.

Definition list_modules (ms : list CliModule) (r : ModuleRegistry) : list (dict string pyval) :=
  map (λ im, _describe ms im.1 im.2 (negb (bool_decide (_module_id ms im.1 im.2 ∈ _disabled r)))) (enumerate ms).

Inductive module_exn := KeyError (m : string) | ValueError.

(** [ValueError]: [int] of a superscript digit *)
Definition _find (ms : list CliModule) (module_id : string) : module_exn + option nat :=
  match List.find (λ im, bool_decide (_module_id ms im.1 im.2 = module_id)) (enumerate ms) with
  | Some (idx, _) => inr (Some idx)
  | None =>
      if ShellProcs.isdigit module_id then
        match py_int module_id with
        | Some n => inr (if n <? Z.of_nat (length ms) then Some (Z.to_nat n) else None)
        | None => inl ValueError
        end
      else inr None
  end.

Definition toggle (ms : list CliModule) (module_id : string) (r : ModuleRegistry) : (module_exn + dict string pyval) * ModuleRegistry :=
  match _find ms module_id with
  | inl e => (inl e, r)
  | inr None => (inl (KeyError ("Module not found: " +:+ module_id)), r)
  | inr (Some idx) =>
      match ms !! idx with
      | None => (inl (KeyError module_id), r)
      | Some m =>
          let key := _module_id ms idx m in
          if bool_decide (key ∈ _disabled r)
          then (inr (_describe ms idx m true),
                {| _disabled := List.filter (λ k, negb (bool_decide (k = key))) (_disabled r); _processor_to_module := _processor_to_module r |})
          else (inr (_describe ms idx m false), {| _disabled := key :: _disabled r; _processor_to_module := _processor_to_module r |})
      end
  end.

(** The route; [None] is the 404. *)
Definition toggle_plugin (ms : list CliModule) (plugin_id : string) (r : ModuleRegistry) : option (dict string pyval) * ModuleRegistry :=
  match toggle ms plugin_id r with
  | (inl _, r) => (None, r)
  | (inr d, r) => (Some d, r)
  end.

(** ** What a switch does *)

(** Every processor of a module is mapped to the module's id: true when no
    processor is in two modules. *)
Definition own_processors (ms : list CliModule) : Prop := NoDup (map object_id (concat (map m_processors ms))).

Lemma enumerate_lookup {A} (l : list A) i x : (i, x) ∈ enumerate l ↔ l !! i = Some x.
Proof.
  unfold enumerate. rewrite list_elem_of_lookup. setoid_rewrite lookup_zip_Some. split.
  - intros (k & Hk & Hx). apply lookup_seq in Hk as [-> _]. exact Hx.
  - intros Hx. exists i. split; [|done]. apply lookup_seq. split; [done|]. by apply lookup_lt_Some in Hx.
Qed.

Lemma map_get (f : nat * CliModule → string) l d z :
  NoDup (map object_id (concat (map (m_processors ∘ snd) l))) →
  dict_get z (foldl (λ d im, foldl (λ d p, dict_set (object_id p) (f im) d) d (m_processors im.2)) d l) =
  match List.find (λ im, bool_decide (z ∈ map object_id (m_processors im.2))) l with
  | Some im => Some (f im)
  | None => dict_get z d
  end.
Proof.
  revert d. induction l as [|im l IH]; intros d Hn; cbn [foldl List.find]; [done|].
  cbn [map concat compose] in Hn. rewrite map_app in Hn. apply NoDup_app in Hn as (_ & Hsep & Hn). rewrite IH by done.
  assert (Hin : ∀ ps d, dict_get z (foldl (λ d p, dict_set (object_id p) (f im) d) d ps) =
      if bool_decide (z ∈ map object_id ps) then Some (f im) else dict_get z d).
  { induction ps as [|p ps IHp]; intros d'; cbn [foldl map]; [done|]. rewrite IHp. do 2 case_bool_decide; try done; [set_solver| |].
    - destruct (decide (object_id p = z)) as [->|]; [by rewrite dict_get_set_eq|]. set_solver.
    - rewrite dict_get_set_ne; [done|]. set_solver. }
  case_bool_decide as Hz.
  - assert (List.find (λ im, bool_decide (z ∈ map object_id (m_processors im.2))) l = None) as ->.
    { destruct (List.find _ l) as [im'|] eqn:Hf; [|done]. exfalso.
      apply find_some in Hf as [Hl Hz'%bool_decide_eq_true]. apply (Hsep z Hz), list_elem_of_In, in_map_iff.
      apply list_elem_of_In, in_map_iff in Hz' as (p & <- & Hp). exists p. split; [done|]. apply in_concat.
      exists (m_processors im'.2). split; [|done]. apply in_map_iff. by exists im'. }
    rewrite Hin. by rewrite bool_decide_eq_true_2.
  - destruct (List.find _ l); [done|]. rewrite Hin. by rewrite bool_decide_eq_false_2.
Qed.

Lemma concat_enumerate (ms : list CliModule) : concat (map (m_processors ∘ snd) (enumerate ms)) = concat (map m_processors ms).
Proof.
  unfold enumerate, compose. f_equal. rewrite <- (map_map snd m_processors). f_equal. generalize 0%nat.
  induction ms as [|m ms IH]; intros n; simpl; [done|]. by rewrite IH.
Qed.

Lemma processor_of_module ms i m p :
  own_processors ms → ms !! i = Some m → p ∈ m_processors m →
  dict_get (object_id p) (_processor_to_module (new_registry ms)) = Some (_module_id ms i m).
Proof.
  intros Hown Hm Hp. unfold new_registry, _rebuild_processor_map. cbn [_processor_to_module].
  assert (Hn : NoDup (map object_id (concat (map (m_processors ∘ snd) (enumerate ms))))) by (by rewrite concat_enumerate).
  rewrite (map_get (λ im, _module_id ms im.1 im.2)) by done.
  assert (Hin : (i, m) ∈ enumerate ms) by (by apply enumerate_lookup).
  assert (Hfind : ∀ l, NoDup (map object_id (concat (map (m_processors ∘ snd) l))) → (i, m) ∈ l →
    List.find (λ im, bool_decide (object_id p ∈ map object_id (m_processors im.2))) l = Some (i, m)).
  { clear Hn Hin. induction l as [|im l IH]; intros Hn Hl; [by apply elem_of_nil in Hl|].
    cbn [map concat compose] in Hn. rewrite map_app in Hn. apply NoDup_app in Hn as (_ & Hsep & Hn). cbn [List.find].
    apply elem_of_cons in Hl as [<-|Hl].
    - rewrite bool_decide_eq_true_2; [done|]. by apply list_elem_of_fmap_2.
    - rewrite bool_decide_eq_false_2; [by apply IH|]. intros Hz. apply (Hsep _ Hz), list_elem_of_In, in_map_iff.
      exists p. split; [done|]. apply in_concat. exists (m_processors m). split; [|by apply list_elem_of_In].
      apply in_map_iff. exists (i, m). split; [done|by apply list_elem_of_In]. }
  by rewrite (Hfind _ Hn Hin).
Qed.

(** A switch turns the processors of its module off, or on again, and changes no
    other module: when no two modules share an id and no processor is in two
    modules, after a successful toggle exactly the processors of the module with
    that id change between allowed and refused. *)
Theorem toggle_switches ms i m module_id r d r' j m' p :
  own_processors ms → NoDup (map (λ im, _module_id ms im.1 im.2) (enumerate ms)) →
  _processor_to_module r = _processor_to_module (new_registry ms) →
  ms !! i = Some m → module_id = _module_id ms i m → toggle ms module_id r = (inr d, r') →
  ms !! j = Some m' → p ∈ m_processors m' →
  is_allowed r' p = (if decide (j = i) then negb (is_allowed r p) else is_allowed r p) ∧
  _processor_to_module r' = _processor_to_module r.
Proof.
  intros Hown Hids Hmap Hi -> Ht Hj Hp.
  assert (Hfind : ∀ l, NoDup (map (λ im, _module_id ms im.1 im.2) l) → (i, m) ∈ l →
    List.find (λ im, bool_decide (_module_id ms im.1 im.2 = _module_id ms i m)) l = Some (i, m)).
  { induction l as [|im l IH]; intros Hn Hl; [by apply elem_of_nil in Hl|]. cbn [map] in Hn. apply NoDup_cons in Hn as [Hno Hn].
    cbn [List.find]. apply elem_of_cons in Hl as [<-|Hl]; [by rewrite bool_decide_eq_true_2|].
    rewrite bool_decide_eq_false_2; [by apply IH|]. intros He. apply Hno. rewrite He.
    apply (list_elem_of_fmap_2 (λ im, _module_id ms im.1 im.2) l (i, m) Hl). }
  unfold toggle, _find in Ht. rewrite Hfind in Ht; [|done|by apply enumerate_lookup]. rewrite Hi in Ht.
  assert (Hid : _module_id ms j m' = _module_id ms i m ↔ j = i).
  { split; [|intros ->; congruence]. intros He.
    assert (∀ k x, ms !! k = Some x → map (λ im, _module_id ms im.1 im.2) (enumerate ms) !! k = Some (_module_id ms k x)) as Hl.
    { intros k x Hk. apply list_lookup_fmap_Some. exists (k, x). split; [done|]. unfold enumerate. apply lookup_zip_Some. split; [|done].
      apply lookup_seq. split; [done|]. by apply lookup_lt_Some in Hk. }
    apply (NoDup_lookup _ _ _ _ Hids (Hl j m' Hj)). rewrite He. by apply Hl. }
  assert (Hget : ∀ q, _processor_to_module q = _processor_to_module (new_registry ms) →
    is_allowed q p = negb (bool_decide (_module_id ms j m' ∈ _disabled q))).
  { intros q Hq. unfold is_allowed. rewrite Hq. by rewrite (processor_of_module ms j m' p). }
  rewrite (Hget r Hmap). case_bool_decide as Hdis; injection Ht as _ <-; (rewrite Hget by done); cbn [_disabled _processor_to_module];
    (split; [|done]); destruct (decide (j = i)) as [Hji|Hji].
  - rewrite (proj2 Hid Hji). rewrite bool_decide_eq_false_2; [by rewrite bool_decide_eq_true_2|].
    rewrite list_elem_of_In, filter_In. intros [_ Hf]. by rewrite bool_decide_eq_true_2 in Hf.
  - f_equal. apply bool_decide_ext. rewrite !list_elem_of_In, filter_In. split; [by intros [? _]|]. intros Hd. split; [done|].
    rewrite bool_decide_eq_false_2; [done|]. by intros ?%Hid.
  - rewrite (proj2 Hid Hji). rewrite bool_decide_eq_true_2 by (by left). by rewrite bool_decide_eq_false_2.
  - f_equal. apply bool_decide_ext. rewrite elem_of_cons. split; [intros [?%Hid|?]; done|by right].
Qed.
End Modules.

(** ** Examples *)

Definition module (name : option string) (ps : list Z) : CliModule (P := Z) :=
  {| m_name := name; m_class := "Module"; m_version := None; m_description := None; m_author := None; m_processors := ps |}.
Definition modules : list (CliModule (P := Z)) := [module (Some "aws") [1; 2]; module (Some "jobs") [3]].
Definition switched : ModuleRegistry := (toggle (λ _, "x") modules "aws" (new_registry id modules)).2.

Lemma toggle_switches_witness :
  is_allowed id switched 2 = false ∧ is_allowed id switched 3 = true.
Proof.
  assert (own_processors id modules) as Hown by (apply (bool_decide_unpack _); vm_compute; exact I).
  assert (NoDup (map (λ im, _module_id modules im.1 im.2) (enumerate modules))) as Hids by (apply (bool_decide_unpack _); vm_compute; exact I).
  split.
  - refine (proj1 (toggle_switches id (λ _, "x") modules 0 (module (Some "aws") [1; 2]) "aws" (new_registry id modules) _ switched 0
      (module (Some "aws") [1; 2]) 2 Hown Hids eq_refl eq_refl _ _ eq_refl _)); [reflexivity|reflexivity|right; left].
  - refine (proj1 (toggle_switches id (λ _, "x") modules 0 (module (Some "aws") [1; 2]) "aws" (new_registry id modules) _ switched 1
      (module (Some "jobs") [3]) 3 Hown Hids eq_refl eq_refl _ _ eq_refl _)); [reflexivity|reflexivity|left].
Defined.

(** Ids can collide: a module named [1] and the module at index 1 when its name is
    used twice.  Switching one off switches both off. *)
Example colliding_ids :
  let ms := [module (Some "1") [1]; module (Some "a") [2]; module (Some "a") [3]] in
  let r := (toggle (λ _, "x") ms "1" (new_registry id ms)).2 in
  (is_allowed id r 1, is_allowed id r 2, is_allowed id r 3) = (false, false, true).
Proof. vm_compute. reflexivity. Qed.
