(* ===== verification/StatusHistory.v ===== *)
(** * Status samples of the admin dashboard ([admin/services/status_history.py], [controllers/status_controller.py])

    A sample every fifteen seconds, the last day of them kept.  Times are
    microseconds; the readings of the clocks and the percentages are rationals,
    a percentage rounded to hundredths, half to even. *)

From S2P Require Import Prelude PyStr Values.
From S2P Require AuditStore.
From Stdlib Require Import Ascii QArith.QArith QArith.Qround Qminmax.

Open Scope Z_scope.

Definition SAMPLE_INTERVAL_SECONDS : Z := 15.
Definition MAX_SAMPLES : nat := Z.to_nat (24 * 60 * 60 / SAMPLE_INTERVAL_SECONDS).
Definition DEFAULT_HISTORY_MINUTES : Z := 60.
Definition MAX_HISTORY_MINUTES : Z := 1440.

Record Sample := {
  s_time : Z;
  memory_mb : Q;
  cpu_percent : option Q;
  ws_connections : Z;
}.

(** [_task]: whether there is a sampler task that runs *)
Record StatusHistory := {
  max_samples : nat;
  samples : list Sample;
  _last : option (Q * option Q);
  _task : bool;
}.
Definition new_history : StatusHistory := {| max_samples := MAX_SAMPLES; samples := []; _last := None; _task := false |}.

(** [round(x, 2)] *)
Definition round2 (x : Q) : Q :=
  let n := Qfloor (100 * x) in
  let rest := (100 * x - inject_Z n)%Q in
  let up := match Qcompare rest (1 # 2) with Lt => false | Gt => true | Eq => Z.odd n end in
  (inject_Z (if up then n + 1 else n) / 100)%Q.

Definition cpu_since (last : option (Q * option Q)) (wall : Q) (cpu : option Q) : option Q :=
  match last, cpu with
  | Some (wall0, Some cpu0), Some c =>
      let elapsed := (wall - wall0)%Q in
      if negb (Qle_bool elapsed 0) then Some (round2 (Qmax (c - cpu0) 0 / elapsed * 100)) else None
  | _, _ => None
  end.

(** [None] is an exception of a reading: the clock of the processor that raises
    counts as no reading, the event manager that raises as no connections, the
    memory reading that raises ends the sample, after the clocks were noted. *)
Definition sample (wall : Q) (cpu : option Q) (memory : option Q) (connections : option Z) (now : Z) (h : StatusHistory)
    : bool * StatusHistory :=
  let percent := cpu_since (_last h) wall cpu in
  match memory with
  | None => (false, {| max_samples := max_samples h; samples := samples h; _last := Some (wall, cpu); _task := _task h |})
  | Some mb =>
      (true, {| max_samples := max_samples h;
                samples := AuditStore.deque_append (max_samples h) (samples h)
                             {| s_time := now; memory_mb := mb; cpu_percent := percent; ws_connections := default 0 connections |};
                _last := Some (wall, cpu); _task := _task h |})
  end.

Definition cutoff (minutes now : Z) : Z := now - minutes * 60000000.
Definition history (minutes now : Z) (h : StatusHistory) : list Sample :=
  List.filter (λ s, cutoff minutes now <=? s_time s) (samples h).

Definition start (h : StatusHistory) : StatusHistory :=
  {| max_samples := max_samples h; samples := samples h; _last := _last h; _task := true |}.
Definition stop (h : StatusHistory) : StatusHistory :=
  {| max_samples := max_samples h; samples := samples h; _last := _last h; _task := false |}.

(** [GET /status/history]; [inl] is the 400. *)
Definition window (minutes : option string) : string + Z :=
  match minutes with
  | None => inr DEFAULT_HISTORY_MINUTES
  | Some m =>
      if is_empty (strip m) then inr DEFAULT_HISTORY_MINUTES
      else match py_int (strip m) with
           | Some n => inr n
           | None => inl ("'minutes' must be an integer, got '" +:+ m +:+ "'")
           end
  end.
Definition get_status_history (minutes : option string) (now : Z) (h : StatusHistory) : string + list Sample :=
  match window minutes with
  | inl e => inl e
  | inr w => inr (history (Z.min (Z.max w 1) MAX_HISTORY_MINUTES) now h)
  end.

(** The features shown, from those enabled and the ids of the installed plugins *)
Definition JOBS_DISTRIBUTION : string := "qodalis-cli-server-plugin-jobs".
Definition AUDIT_DISTRIBUTION : string := "qodalis-cli-server-plugin-audit".
Definition _features (enabled installed : list string) : list string :=
  let features := if negb (bool_decide ("jobs" ∈ enabled)) && bool_decide (JOBS_DISTRIBUTION ∈ installed)
                  then enabled ++ ["jobs"] else enabled in
  if negb (bool_decide ("audit" ∈ features)) && bool_decide (AUDIT_DISTRIBUTION ∈ installed)
  then features ++ ["audit"] else features.

(** ** A run of the sampler *)

(** What one round of the sampler reads *)
Record Reading := { rd_wall : Q; rd_cpu : option Q; rd_memory : option Q; rd_connections : option Z; rd_now : Z }.
Definition take_sample (h : StatusHistory) (r : Reading) : StatusHistory :=
  (sample (rd_wall r) (rd_cpu r) (rd_memory r) (rd_connections r) (rd_now r) h).2.
Definition run_sampler (rs : list Reading) : StatusHistory := foldl take_sample new_history rs.

Definition good (r : Reading) : bool := bool_decide (is_Some (rd_memory r)).
Definition in_time (rs : list Reading) : Prop := StronglySorted (λ a b, rd_now a ≤ rd_now b) rs.

(** A spacing of the sampler: rounds at least fifteen seconds apart *)
Definition spaced (rs : list Reading) : Prop :=
  ∀ i a b, rs !! i = Some a → rs !! S i = Some b → rd_now a + SAMPLE_INTERVAL_SECONDS * 1000000 ≤ rd_now b.

Lemma run_sampler_snoc rs r : run_sampler (rs ++ [r]) = take_sample (run_sampler rs) r.
Proof. unfold run_sampler. by rewrite foldl_app. Qed.

Lemma run_sampler_max rs : max_samples (run_sampler rs) = MAX_SAMPLES.
Proof.
  induction rs as [|r rs IH] using rev_ind; [done|]. rewrite run_sampler_snoc. unfold take_sample, sample. by destruct (rd_memory r).
Qed.

Lemma run_times rs : map s_time (samples (run_sampler rs)) = AuditStore.keep_last MAX_SAMPLES (map rd_now (List.filter good rs)).
Proof.
  induction rs as [|r rs IH] using rev_ind; [done|]. rewrite run_sampler_snoc, List.filter_app, map_app. cbn [List.filter].
  unfold take_sample, sample, good at 2. destruct (rd_memory r) as [mb|] eqn:Hm.
  - rewrite bool_decide_eq_true_2 by eauto. cbn [snd samples map]. rewrite run_sampler_max. unfold AuditStore.deque_append at 1.
    rewrite AuditStore.map_keep_last, map_app, IH. apply AuditStore.deque_append_last.
  - rewrite bool_decide_eq_false_2 by (by intros [? ?]). cbn [snd samples map]. by rewrite app_nil_r.
Qed.

Lemma keep_last_suffix {A} m (l : list A) : ∃ k, l = k ++ AuditStore.keep_last m l.
Proof. exists (take (length l - m) l). unfold AuditStore.keep_last. by rewrite take_drop. Qed.

Lemma spaced_gap rs i j a b :
  spaced rs → rs !! i = Some a → rs !! j = Some b → (i ≤ j)%nat →
  rd_now a + Z.of_nat (j - i) * (SAMPLE_INTERVAL_SECONDS * 1000000) ≤ rd_now b.
Proof.
  intros Hs Ha. revert b. induction j as [|j IH]; intros b Hb Hij.
  - assert (i = 0%nat) as -> by lia. assert (a = b) as -> by congruence. simpl. lia.
  - destruct (decide (i = S j)) as [->|Hne]; [assert (a = b) as -> by congruence; rewrite Nat.sub_diag; lia|].
    destruct (rs !! j) as [c|] eqn:Hc; [|apply lookup_ge_None in Hc; apply lookup_lt_Some in Hb; lia].
    pose proof (Hs _ _ _ Hc Hb). pose proof (IH c eq_refl ltac:(lia)). replace (S j - i)%nat with (S (j - i)) by lia. lia.
Qed.

(** With rounds at least fifteen seconds apart, what is kept is enough for every
    window the route gives, a day at most: when a round of the sampler succeeded
    at a time in the window, its sample is in the answer. *)
Theorem history_covers_window rs minutes now r w l :
  spaced rs → (∀ x, x ∈ rs → rd_now x ≤ now) → window minutes = inr w →
  get_status_history minutes now (run_sampler rs) = inr l →
  let shown := Z.min (Z.max w 1) MAX_HISTORY_MINUTES in
  (∀ s, s ∈ l → cutoff shown now ≤ s_time s) ∧ (length l ≤ MAX_SAMPLES)%nat ∧
  (r ∈ rs → good r = true → cutoff shown now < rd_now r → rd_now r ∈ map s_time l).
Proof.
  intros Hs Hnow Hw Hl shown. unfold get_status_history in Hl. rewrite Hw in Hl. injection Hl as <-. fold shown.
  assert (Hlen : (length (samples (run_sampler rs)) ≤ MAX_SAMPLES)%nat).
  { rewrite <- (length_map s_time), run_times. apply AuditStore.keep_last_length. }
  split_and!.
  - intros s Hin. apply list_elem_of_In, filter_In in Hin as [_ Hin]. lia.
  - unfold history. pose proof (List.filter_length_le (λ s, cutoff shown now <=? s_time s) (samples (run_sampler rs))). lia.
  - intros Hr Hgood Hcut.
    assert (Hin : rd_now r ∈ map s_time (samples (run_sampler rs))).
    { rewrite run_times. unfold AuditStore.keep_last. rewrite length_map.
      apply list_elem_of_lookup in Hr as [i Hi].
      set (g := List.filter good rs). set (k := (length g - MAX_SAMPLES)%nat).
      assert (Hsplit : g = List.filter good (take i rs) ++ r :: List.filter good (drop (S i) rs)).
      { unfold g. rewrite <- (take_drop_middle rs i r Hi) at 1. rewrite List.filter_app. simpl. by rewrite Hgood. }
      assert (Hafter : (length (List.filter good (drop (S i) rs)) < MAX_SAMPLES)%nat).
      { pose proof (List.filter_length_le good (drop (S i) rs)) as Hle. rewrite length_drop in Hle.
        assert (Hi' : (i < length rs)%nat) by (by apply lookup_lt_Some in Hi).
        destruct (rs !! (length rs - 1)%nat) as [z|] eqn:Hz; [|apply lookup_ge_None in Hz; lia].
        pose proof (spaced_gap rs i (length rs - 1) r z Hs Hi Hz ltac:(lia)) as Hgap.
        assert (rd_now z ≤ now) by (apply Hnow, list_elem_of_lookup; eauto).
        assert (Hmax : Z.of_nat MAX_SAMPLES = 5760) by reflexivity. unfold cutoff in *.
        assert (shown ≤ 1440) by (unfold shown, MAX_HISTORY_MINUTES; lia). change SAMPLE_INTERVAL_SECONDS with 15 in Hgap. lia. }
      rewrite Hsplit, map_app. cbn [map]. rewrite list_elem_of_In. 
      assert (Hk : (k ≤ length (map rd_now (List.filter good (take i rs))))%nat).
      { unfold k. rewrite length_map, Hsplit, length_app. cbn [length]. lia. }
      rewrite drop_app_le by done. apply in_or_app. right. by left. }
    apply list_elem_of_In, in_map_iff in Hin as (s & Hs' & Hin). apply list_elem_of_In, in_map_iff. exists s. split; [done|].
    apply filter_In. split; [done|]. lia.
Qed.

Definition reading (now : Z) (memory : option Q) : Reading :=
  {| rd_wall := inject_Z now; rd_cpu := Some 0%Q; rd_memory := memory; rd_connections := Some 2; rd_now := now |}.
Definition readings : list Reading := [reading 0 (Some 64%Q); reading 15000000 None; reading 30000000 (Some 65%Q)].

Lemma history_covers_window_witness :
  match get_status_history (Some "1") 60000000 (run_sampler readings) with
  | inr l => 30000000 ∈ map s_time l
  | inl _ => False
  end.
Proof.
  refine (proj2 (proj2 (history_covers_window readings (Some "1") 60000000 (reading 30000000 (Some 65%Q)) 1 _ _ _ eq_refl eq_refl)) _ _ _).
  - intros i a b Ha Hb. do 3 (destruct i as [|i]; [simpl in Ha, Hb; simplify_eq; simpl; unfold SAMPLE_INTERVAL_SECONDS; lia|]). discriminate Ha.
  - intros x Hx. unfold readings in Hx. rewrite !elem_of_cons, elem_of_nil in Hx. destruct Hx as [->|[->|[->|[]]]]; simpl; lia.
  - apply list_elem_of_lookup. exists 2%nat. reflexivity.
  - reflexivity.
  - reflexivity.
Defined.
