(* ===== verification/JsonFiles.v ===== *)
(** * The file storage in a JSON file ([filesystem-json/json_file_provider.py])

    The tree of nodes, kept in memory and written to the file after every change.
    The file holds what [json.load] makes of it, [NodeData]; that loading gives
    back what was dumped is the language's.  Writing the file succeeds.  A node
    object is found by its path, as in [FileTree.v], whose paths, errors and
    clock these are. *)

From S2P Require Import Prelude PyStr Utf8 FileTree.
From Stdlib Require Import Ascii.

Record JsonFileProviderOptions := { file_path : string }.

(** ** Nodes *)

Inductive JNode := JFile {
  j_name : string;
  j_type : string;
  j_content : text;
  j_children : list JNode;
  j_created : string;
  j_modified : string;
  j_size : Z;
  j_permissions : string;
}.

(** A dict of the file; a key may be missing. *)
Inductive NodeData := Data {
  d_name : option string;
  d_type : option string;
  d_content : option text;
  d_children : option (list NodeData);
  d_created : option string;
  d_modified : option string;
  d_size : option Z;
  d_permissions : option string;
}.

Fixpoint to_dict (n : JNode) : NodeData :=
  Data (Some (j_name n)) (Some (j_type n)) (Some (j_content n)) (Some (map to_dict (j_children n)))
    (Some (j_created n)) (Some (j_modified n)) (Some (j_size n)) (Some (j_permissions n)).

Definition with_children (cs : list JNode) (n : JNode) : JNode :=
  JFile (j_name n) (j_type n) (j_content n) cs (j_created n) (j_modified n) (j_size n) (j_permissions n).
Definition with_content (t : text) (n : JNode) : JNode :=
  JFile (j_name n) (j_type n) t (j_children n) (j_created n) (j_modified n) (j_size n) (j_permissions n).
Definition with_size (size : Z) (now : string) (n : JNode) : JNode :=
  JFile (j_name n) (j_type n) (j_content n) (j_children n) (j_created n) now size (j_permissions n).

Definition get_child (name : string) (n : JNode) : option JNode :=
  List.find (λ c, bool_decide (j_name c = name)) (j_children n).
Definition add_child (c : JNode) (n : JNode) : JNode := with_children (j_children n ++ [c]) n.
Definition remove_child (name : string) (n : JNode) : JNode :=
  with_children (List.filter (λ c, negb (bool_decide (j_name c = name))) (j_children n)) n.

(** The child that [get_child] finds, changed *)
Fixpoint change_first (name : string) (f : JNode → JNode) (cs : list JNode) : list JNode :=
  match cs with
  | [] => []
  | c :: cs => if decide (j_name c = name) then f c :: cs else c :: change_first name f cs
  end.
Definition change_child (name : string) (f : JNode → JNode) (n : JNode) : JNode := with_children (change_first name f (j_children n)) n.

(** ** Walking the tree *)

Fixpoint jwalk (parts : list string) (n : JNode) : option JNode :=
  match parts with
  | [] => Some n
  | part :: parts =>
      match get_child part n with
      | Some c => if bool_decide (j_type n = "directory") then jwalk parts c else None
      | None => None
      end
  end.
Definition jresolve (root : JNode) (norm : string) : option JNode :=
  if is_empty norm then Some root else jwalk (parts_of norm) root.

(** The node object at a path, whatever the types, and the tree with it changed *)
Fixpoint jnode_at (parts : list string) (n : JNode) : option JNode :=
  match parts with
  | [] => Some n
  | part :: parts => match get_child part n with Some c => jnode_at parts c | None => None end
  end.
Fixpoint jmodify_at (parts : list string) (f : JNode → JNode) (n : JNode) : JNode :=
  match parts with
  | [] => f n
  | part :: parts => change_child part (jmodify_at parts f) n
  end.

(** ** The provider *)

Record JsonFS {Host : Type} := { jroot : JNode; jfile : option NodeData; jhost : Host }.
Arguments JsonFS : clear implicits.

Section Provider.
Context {Host : Type} `{E : FsEnv Host}.
Abbreviation method := (py (JsonFS Host) fexn).

(** [_FileNode(...)] with [__post_init__]: the times and the permissions *)
Definition new_node (name type : string) (content : text) (created modified : string) (size : Z) (h : Host) : JNode * Host :=
  if is_empty created then
    let '(now, h) := now_iso h in (JFile name type content [] now now size (permissions_of type), h)
  else (JFile name type content [] created modified size (permissions_of type), h).
Definition new_directory (name : string) (h : Host) : JNode * Host := new_node name "directory" [] "" "" 0 h.

Fixpoint from_dict (d : NodeData) (h : Host) : (fexn + JNode) * Host :=
  let '(Data name type content children created modified size _) := d in
  match name, type with
  | None, _ => (inl (KeyError "name"), h)
  | _, None => (inl (KeyError "type"), h)
  | Some name, Some type =>
      let '(n, h) := new_node name type (default [] content) (or_empty created) (or_empty modified) (default 0 size) h in
      let '(cs, h) :=
        match children with
        | None => (inr [], h)
        | Some l => (fix go (l : list NodeData) (h : Host) : (fexn + list JNode) * Host :=
           match l with
           | [] => (inr [], h)
           | c :: l =>
               match from_dict c h with
               | (inl e, h) => (inl e, h)
               | (inr c, h) => match go l h with (inl e, h) => (inl e, h) | (inr cs, h) => (inr (c :: cs), h) end
               end
           end) l h
        end in
      (match cs with inl e => inl e | inr cs => inr (with_children cs n) end, h)
  end.

(** [_load], and the provider on the file *)
Definition _load (file : option NodeData) (h : Host) : (fexn + JNode) * Host :=
  match file with
  | None => let '(n, h) := new_directory "" h in (inr n, h)
  | Some d => from_dict d h
  end.
Definition open_storage (file : option NodeData) (h : Host) : (fexn + JsonFS Host) * Host :=
  match _load file h with
  | (inl e, h) => (inl e, h)
  | (inr r, h) => (inr {| jroot := r; jfile := file; jhost := h |}, h)
  end.

Definition _save : method unit := modify (λ s, {| jroot := jroot s; jfile := Some (to_dict (jroot s)); jhost := jhost s |}).

Definition jnow : method string := λ s,
  let '(t, h) := now_iso (jhost s) in (inr t, {| jroot := jroot s; jfile := jfile s; jhost := h |}).
Definition set_root (f : JNode → JNode) : method unit :=
  modify (λ s, {| jroot := f (jroot s); jfile := jfile s; jhost := jhost s |}).
Definition with_host (f : Host → JNode * Host) : method JNode := λ s,
  let '(n, h) := f (jhost s) in (inr n, {| jroot := jroot s; jfile := jfile s; jhost := h |}).
Definition _jresolve (norm : string) : method (option JNode) := gets (λ s, jresolve (jroot s) norm).
Definition at_path (parts : list string) : method (option JNode) := gets (λ s, jnode_at parts (jroot s)).

(** The walk of [_ensure_parents]: what it raises, and the tree it leaves *)
Fixpoint jensure (create : bool) (original_path : string) (parts : list string) (n : JNode) (h : Host) : option fexn * JNode * Host :=
  match parts with
  | [] => (None, n, h)
  | part :: parts =>
      match get_child part n with
      | None =>
          if negb create then (Some (FileStorageNotFoundError original_path), n, h)
          else
            let '(d, h) := new_directory part h in
            let '(e, d, h) := jensure create original_path parts d h in
            (e, add_child d n, h)
      | Some c =>
          if negb (bool_decide (j_type c = "directory")) then (Some (FileStorageNotADirectoryError original_path), n, h)
          else
            let '(e, c, h) := jensure create original_path parts c h in
            (e, change_child part (λ _, c) n, h)
      end
  end.
Definition _jensure_parents (parts : list string) (original_path : string) (create : bool) : method unit := λ s,
  let '(e, r, h) := jensure create original_path parts (jroot s) (jhost s) in
  (match e with Some e => inl e | None => inr tt end, {| jroot := r; jfile := jfile s; jhost := h |}).

Fixpoint _jdeep_copy (n : JNode) (new_name : string) (h : Host) : JNode * Host :=
  let '(now, h) := now_iso h in
  let '(cs, h) :=
    (fix go (l : list JNode) (h : Host) : list JNode * Host :=
       match l with
       | [] => ([], h)
       | c :: l => let '(c', h) := _jdeep_copy c (j_name c) h in let '(cs, h) := go l h in (c' :: cs, h)
       end) (j_children n) h in
  (JFile new_name (j_type n) (j_content n) cs now now (j_size n) (permissions_of (j_type n)), h).

(** ** The operations *)

Definition to_jentry (n : JNode) : FileEntry :=
  {| e_name := j_name n; e_type := j_type n; e_size := j_size n; e_modified := j_modified n; e_permissions := Some (j_permissions n) |}.
Definition jname_le (a b : JNode) : bool := String.leb (j_name a) (j_name b).

Definition jlist (path : string) : method (list FileEntry) :=
  node ← _jresolve (_normalize_path path);
  match node with
  | None => raise (FileStorageNotFoundError path)
  | Some n =>
      if negb (bool_decide (j_type n = "directory")) then raise (FileStorageNotADirectoryError path)
      else mret (map to_jentry (py_sort jname_le (j_children n)))
  end.

Definition jread_file (path : string) : method text :=
  node ← _jresolve (_normalize_path path);
  match node with
  | None => raise (FileStorageNotFoundError path)
  | Some n => if bool_decide (j_type n = "directory") then raise (FileStorageIsADirectoryError path) else mret (j_content n)
  end.

(** [len(text.encode("utf-8"))] *)
Definition utf8_length (t : text) : method Z :=
  match encode t with Some b => mret (Z.of_nat (length b)) | None => raise UnicodeEncodeError end.

Definition jwrite_file (path : string) (c : content) : method unit :=
  let norm := _normalize_path path in
  if is_empty norm then raise (FileStorageIsADirectoryError path)
  else
    let dirs := dirs_of (parts_of norm) in
    let file_name := last_of (parts_of norm) in
    _ ← _jensure_parents dirs path true;
    let t := match c with Bytes b => decode b | Text t => t end in
    now ← jnow;
    existing ← at_path (dirs ++ [file_name]);
    _ ← match existing with
        | Some n =>
            if bool_decide (j_type n = "directory") then raise (FileStorageIsADirectoryError path)
            else
              _ ← set_root (jmodify_at (dirs ++ [file_name]) (with_content t));
              size ← utf8_length t;
              set_root (jmodify_at (dirs ++ [file_name]) (with_size size now))
        | None =>
            size ← utf8_length t;
            n ← with_host (new_node file_name "file" t now now size);
            set_root (jmodify_at dirs (add_child n))
        end;
    _save.

Definition jstat (path : string) : method FileStat :=
  node ← _jresolve (_normalize_path path);
  match node with
  | None => raise (FileStorageNotFoundError path)
  | Some n => mret {| f_name := j_name n; f_type := j_type n; f_size := j_size n; f_created := j_created n;
                      f_modified := j_modified n; f_permissions := Some (j_permissions n) |}
  end.

Definition jmkdir (path : string) (recursive : bool) : method unit :=
  let norm := _normalize_path path in
  if is_empty norm then mret tt
  else
    let parts := parts_of norm in
    if recursive then (_ ← _jensure_parents parts path true; _save)
    else
      let dirs := dirs_of parts in
      let dir_name := last_of parts in
      _ ← _jensure_parents dirs path false;
      existing ← at_path (dirs ++ [dir_name]);
      match existing with
      | Some n => raise_if (negb (bool_decide (j_type n = "directory"))) (FileStorageExistsError path)
      | None =>
          d ← with_host (new_directory dir_name);
          _ ← set_root (jmodify_at dirs (add_child d));
          _save
      end.

Definition jremove (path : string) (recursive : bool) : method unit :=
  let norm := _normalize_path path in
  if is_empty norm then raise (FileStoragePermissionError path)
  else
    let dirs := dirs_of (parts_of norm) in
    let name := last_of (parts_of norm) in
    parent ← _jresolve (join "/" dirs);
    match parent ≫= get_child name with
    | None => raise (FileStorageNotFoundError path)
    | Some n =>
        if bool_decide (j_type n = "directory") && negb (bool_decide (j_children n = [])) && negb recursive
        then raise (FileStorageNotADirectoryError path)
        else (_ ← set_root (jmodify_at dirs (remove_child name)); _save)
    end.

(** The child of that name is removed from the parent, then the source object is
    copied there.  The removal has changed the source when the parent is the
    source or below it; a source in what was removed is still there to copy. *)
Definition is_prefix (a b : list string) : bool := bool_decide (take (length a) b = a).
Definition jput_copy (src_parts dirs : list string) (name : string) : method unit :=
  before ← at_path src_parts;
  _ ← set_root (jmodify_at dirs (remove_child name));
  after ← at_path src_parts;
  match (if is_prefix src_parts dirs then after else before) with
  | Some n => (c ← with_host (_jdeep_copy n name); set_root (jmodify_at dirs (add_child c)))
  | None => mret tt
  end.

Definition jcopy (src dest : string) : method unit :=
  let src_norm := _normalize_path src in
  src_node ← _jresolve src_norm;
  match src_node with
  | None => raise (FileStorageNotFoundError src)
  | Some _ =>
      let dest_norm := _normalize_path dest in
      if is_empty dest_norm then raise (FileStorageIsADirectoryError dest)
      else
        let dirs := dirs_of (parts_of dest_norm) in
        _ ← _jensure_parents dirs dest true;
        _ ← jput_copy (node_parts src_norm) dirs (last_of (parts_of dest_norm));
        _save
  end.

Definition jmove (src dest : string) : method unit :=
  let src_norm := _normalize_path src in
  if is_empty src_norm then raise (FileStoragePermissionError src)
  else
    src_node ← _jresolve src_norm;
    match src_node with
    | None => raise (FileStorageNotFoundError src)
    | Some _ =>
        let dest_norm := _normalize_path dest in
        if is_empty dest_norm then raise (FileStorageIsADirectoryError dest)
        else
          let dirs := dirs_of (parts_of dest_norm) in
          _ ← _jensure_parents dirs dest true;
          _ ← jput_copy (node_parts src_norm) dirs (last_of (parts_of dest_norm));
          let src_dirs := dirs_of (parts_of src_norm) in
          src_parent ← _jresolve (join "/" src_dirs);
          _ ← match src_parent with
              | Some _ => set_root (jmodify_at src_dirs (remove_child (last_of (parts_of src_norm))))
              | None => mret tt
              end;
          _save
    end.

Definition jexists (path : string) : method bool := node ← _jresolve (_normalize_path path); mret (bool_decide (is_Some node)).

(** The bytes of the stream, when it is read *)
Definition jdownload (path : string) : method bytes :=
  node ← _jresolve (_normalize_path path);
  match node with
  | None => raise (FileStorageNotFoundError path)
  | Some n =>
      if bool_decide (j_type n = "directory") then raise (FileStorageIsADirectoryError path)
      else match encode (j_content n) with Some b => mret b | None => raise UnicodeEncodeError end
  end.
Definition jupload_file (path : string) (b : bytes) : method unit := jwrite_file path (Bytes b).
End Provider.

(** * What is written to the JSON file is there when it is opened again *)

(** ** Trees *)

Section Induction.
Context (P : JNode → Prop) (H : ∀ n, Forall P (j_children n) → P n).
Fixpoint JNode_tree_ind (n : JNode) : P n :=
  H n ((fix go (l : list JNode) : Forall P l :=
          match l with [] => List.Forall_nil P | c :: l => List.Forall_cons P c l (JNode_tree_ind c) (go l) end) (j_children n)).
End Induction.

(** Every node has a time, and the permissions of its type. *)
Inductive jwf : JNode → Prop :=
| jwf_node n : j_created n ≠ "" → j_permissions n = permissions_of (j_type n) → Forall jwf (j_children n) → jwf n.

Lemma jwf_inv n : jwf n → j_created n ≠ "" ∧ j_permissions n = permissions_of (j_type n) ∧ Forall jwf (j_children n).
Proof. by intros []. Qed.

Lemma jwf_children cs n : jwf n → Forall jwf cs → jwf (with_children cs n).
Proof. intros (Hc & Hp & _)%jwf_inv Hcs. by constructor. Qed.

Lemma jwf_content t n : jwf n → jwf (with_content t n).
Proof. intros (Hc & Hp & Hcs)%jwf_inv. by constructor. Qed.
Lemma jwf_size z now n : jwf n → jwf (with_size z now n).
Proof. intros (Hc & Hp & Hcs)%jwf_inv. by constructor. Qed.

Lemma get_child_in k n c : get_child k n = Some c → c ∈ j_children n ∧ j_name c = k.
Proof. unfold get_child. intros [Hin Hk%bool_decide_eq_true]%find_some. by rewrite list_elem_of_In. Qed.

Lemma get_child_wf k n c : jwf n → get_child k n = Some c → jwf c.
Proof. intros (_ & _ & Hcs)%jwf_inv [Hin _]%get_child_in. rewrite Forall_forall in Hcs. auto. Qed.

Lemma jwf_add c n : jwf n → jwf c → jwf (add_child c n).
Proof. intros Hn Hc. apply jwf_children; [done|]. apply jwf_inv in Hn as (_ & _ & Hcs). apply Forall_app. split; [done|]. by constructor. Qed.

Lemma jwf_remove k n : jwf n → jwf (remove_child k n).
Proof.
  intros Hn. apply jwf_children; [done|]. apply jwf_inv in Hn as (_ & _ & Hcs). rewrite Forall_forall in *. intros c Hc.
  apply list_elem_of_In, filter_In in Hc as [Hc _]. apply Hcs. by apply list_elem_of_In.
Qed.

Lemma jwf_change k f n : (∀ c, get_child k n = Some c → jwf (f c)) → jwf n → jwf (change_child k f n).
Proof.
  intros Hf Hn. apply jwf_children; [done|]. apply jwf_inv in Hn as (_ & _ & Hcs). unfold get_child in Hf.
  induction (j_children n) as [|c cs IH]; [constructor|]. apply Forall_cons in Hcs as [Hc Hcs]. cbn [change_first List.find] in *.
  destruct (decide (j_name c = k)) as [Hk|Hk].
  - constructor; [|done]. apply Hf. by rewrite bool_decide_eq_true_2.
  - constructor; [done|]. apply IH; [|done]. intros x Hx. apply Hf. by rewrite bool_decide_eq_false_2.
Qed.

Lemma jwf_modify parts f n : (∀ c, jwf c → jwf (f c)) → jwf n → jwf (jmodify_at parts f n).
Proof.
  intros Hf. revert n. induction parts as [|p parts IH]; intros n Hn; simpl; [auto|]. apply jwf_change; [|done].
  intros c Hc. apply IH. by eapply get_child_wf.
Qed.

Lemma change_same k n c : get_child k n = Some c → change_child k (λ _, c) n = n.
Proof.
  intros Hc. unfold change_child, get_child in *. assert (change_first k (λ _, c) (j_children n) = j_children n) as ->; [|by destruct n].
  induction (j_children n) as [|x cs IH]; [done|]. cbn [change_first List.find] in *. destruct (decide (j_name x = k)) as [Hk|Hk].
  - rewrite bool_decide_eq_true_2 in Hc by done. congruence.
  - rewrite bool_decide_eq_false_2 in Hc by done. by rewrite IH.
Qed.

Lemma get_add k c n : get_child k n = None → get_child k (add_child c n) = if bool_decide (j_name c = k) then Some c else None.
Proof.
  unfold get_child, add_child. cbn [j_children with_children]. induction (j_children n) as [|x cs IH]; cbn [app List.find]; [done|].
  destruct (bool_decide (j_name x = k)); [done|exact IH].
Qed.

Section Provider.
Context {Host : Type} `{E : FsEnv Host}.
(** The clock prints a time. *)
Hypothesis clock_prints : ∀ h, (now_iso h).1 ≠ "".

(** ** Loading what was saved *)

Lemma load_dumped n h : jwf n → from_dict (to_dict n) h = (inr n, h).
Proof.
  revert h. induction n as [n IH] using JNode_tree_ind. intros h (Hc & Hp & Hcs)%jwf_inv.
  destruct n as [name type content children created modified size permissions]. cbn [j_children j_created j_permissions j_type] in *.
  subst permissions. cbn [to_dict from_dict]. unfold new_node, or_empty. cbn [default from_option id].
  unfold is_empty. rewrite bool_decide_eq_false_2 by done. change (default [] (Some content)) with content.
  assert (Hgo : ∀ l h, Forall (λ n, ∀ h, jwf n → from_dict (to_dict n) h = (inr n, h)) l → Forall jwf l →
    (fix go (l : list NodeData) (h : Host) : (fexn + list JNode) * Host :=
       match l with
       | [] => (inr [], h)
       | c :: l =>
           match from_dict c h with
           | (inl e, h) => (inl e, h)
           | (inr c, h) => match go l h with (inl e, h) => (inl e, h) | (inr cs, h) => (inr (c :: cs), h) end
           end
       end) (map to_dict l) h = (inr l, h)).
  { clear. induction l as [|c l IHl]; intros h Hl Hw; [done|]. apply Forall_cons in Hl as [Hc Hl]. apply Forall_cons in Hw as [Hwc Hw].
    cbn [map]. rewrite Hc by done. by rewrite IHl. }
  rewrite Hgo by done. done.
Qed.

(** ** The walks *)

Lemma fresh_eq name h : ∃ now h', new_directory name h = (JFile name "directory" [] [] now now 0 (permissions_of "directory"), h') ∧ now ≠ "".
Proof.
  unfold new_directory, new_node. pose proof (clock_prints h). simpl. destruct (now_iso h) as [now h']. by exists now, h'.
Qed.

(** Creating below a node without children raises nothing. *)
Lemma jensure_fresh path parts n h : j_children n = [] → (jensure true path parts n h).1.1 = None.
Proof.
  revert n h. induction parts as [|p parts IH]; intros n h Hn; [done|]. cbn [jensure]. unfold get_child. rewrite Hn. cbn [List.find negb].
  destruct (fresh_eq p h) as (now & h' & -> & _). specialize (IH (JFile p "directory" [] [] now now 0 (permissions_of "directory")) h' eq_refl).
  destruct (jensure true path parts _ h') as [[e d] h2]. exact IH.
Qed.

(** What the walk leaves: it changes nothing when it raises or may not create;
    when it created something the last directory is new, and empty. *)
Lemma jensure_spec create path parts n h e n' h' :
  jensure create path parts n h = (e, n', h') → jwf n →
  jwf n' ∧ j_name n' = j_name n ∧ j_type n' = j_type n ∧ (e ≠ None ∨ create = false → n' = n) ∧ e ≠ Some UnicodeEncodeError ∧
  (e = None → (n' = n ∨ ∀ k, jnode_at (parts ++ [k]) n' = None) ∧
     (j_type n = "directory" → ∃ d, jwalk parts n' = Some d ∧ jnode_at parts n' = Some d ∧ (parts ≠ [] → j_type d = "directory"))).
Proof.
  revert n h e n' h'. induction parts as [|p parts IH]; intros n h e n' h'; cbn [jensure].
  { intros [= <- <- <-] Hn. split_and!; try done. intros _. split; [by left|]. intros _. exists n. by split_and!. }
  intros Hens Hn. destruct (get_child p n) as [c|] eqn:Hc.
  - destruct (bool_decide (j_type c = "directory")) eqn:Hdir; cbn [negb] in Hens.
    2: { injection Hens as <- <- <-. split_and!; done. }
    apply bool_decide_eq_true in Hdir. destruct (jensure create path parts c h) as [[e0 c'] h0] eqn:Hrec. injection Hens as <- <- <-.
    destruct (IH _ _ _ _ _ Hrec) as (Hwf & Hname & Htype & Hsame & Huni & Hok); [by eapply get_child_wf|].
    assert (Hget : get_child p (change_child p (λ _, c') n) = Some c').
    { unfold get_child, change_child in *. cbn [j_children with_children]. destruct (get_child_in p n c Hc) as [_ Hnm].
      induction (j_children n) as [|x cs IHc]; [done|]. cbn [change_first List.find] in *. destruct (decide (j_name x = p)) as [Hx|Hx].
      - cbn [List.find]. rewrite bool_decide_eq_true_2; [done|congruence].
      - cbn [List.find]. rewrite bool_decide_eq_false_2 in Hc |- * by done. by apply IHc. }
    split_and!; try done.
    + by apply jwf_change.
    + intros Hwhy. rewrite (Hsame Hwhy). by apply change_same.
    + intros He. destruct (Hok He) as [Hnew Hwalk]. split.
      * destruct Hnew as [->|Hnew]; [left; by apply change_same|]. right. intros k. cbn [app jnode_at]. rewrite Hget. apply Hnew.
      * intros Hd. destruct (Hwalk Hdir) as (d & Hw & Hat & Hdd). exists d. cbn [jwalk jnode_at]. rewrite Hget.
        change (j_type (change_child p (λ _, c') n)) with (j_type n). rewrite bool_decide_eq_true_2 by done. split_and!; [done|done|].
        intros _. destruct parts; [|by apply Hdd]. simpl in Hw. injection Hw as <-. congruence.
  - destruct create; cbn [negb] in Hens; [|injection Hens as <- <- <-; by split_and!].
    destruct (fresh_eq p h) as (now & h1 & Hfresh & Hnow). rewrite Hfresh in Hens.
    set (d0 := JFile p "directory" [] [] now now 0 (permissions_of "directory")) in *.
    destruct (jensure true path parts d0 h1) as [[e0 d'] h0] eqn:Hrec. injection Hens as <- <- <-.
    assert (Hd0 : jwf d0) by (by constructor).
    destruct (IH _ _ _ _ _ Hrec Hd0) as (Hwf & Hname & Htype & _ & Huni & Hok).
    assert (He : e0 = None) by (pose proof (jensure_fresh path parts d0 h1 eq_refl) as Hf; by rewrite Hrec in Hf). subst e0.
    assert (Hget : get_child p (add_child d' n) = Some d') by (rewrite get_add by done; by rewrite Hname, bool_decide_eq_true_2).
    split_and!; try done.
    + by apply jwf_add.
    + by intros [?|?].
    + intros _. destruct (Hok eq_refl) as [Hnew Hwalk]. split.
      * right. intros k. cbn [app jnode_at]. rewrite Hget. destruct Hnew as [->|Hnew]; [|apply Hnew]. by destruct parts.
      * intros Hd. destruct (Hwalk eq_refl) as (d & Hw & Hat & Hdd). exists d. cbn [jwalk jnode_at]. rewrite Hget.
        change (j_type (add_child d' n)) with (j_type n). rewrite bool_decide_eq_true_2 by done. split_and!; [done|done|].
        intros _. destruct parts; [|by apply Hdd]. simpl in Hw. injection Hw as <-. by rewrite Htype.
Qed.

Lemma deep_copy_wf n name h : jwf (_jdeep_copy n name h).1.
Proof.
  revert name h. induction n as [n IH] using JNode_tree_ind. intros name h.
  destruct n as [nm type content children created modified size permissions]. cbn [j_children] in IH. cbn [_jdeep_copy].
  pose proof (clock_prints h) as Hnow. destruct (now_iso h) as [now h1]. cbn [fst] in Hnow.
  assert (Hgo : ∀ l h, Forall (λ n, ∀ name h, jwf (_jdeep_copy n name h).1) l →
    Forall jwf ((fix go (l : list JNode) (h : Host) : list JNode * Host :=
       match l with
       | [] => ([], h)
       | c :: l => let '(c', h) := _jdeep_copy c (j_name c) h in let '(cs, h) := go l h in (c' :: cs, h)
       end) l h).1).
  { clear. induction l as [|c l IHl]; intros h Hl; [constructor|]. apply Forall_cons in Hl as [Hc Hl].
    specialize (Hc (j_name c) h). destruct (_jdeep_copy c (j_name c) h) as [c' h']. specialize (IHl h' Hl).
    match goal with |- context [let '(_, _) := ?x in _] => destruct x as [cs h2] end. by constructor. }
  specialize (Hgo children h1 IH). revert Hgo. cbn [j_children j_type j_content j_size].
  match goal with |- context [let '(_, _) := ?x in _] => destruct x as [cs h2] end. intros Hgo. by constructor.
Qed.

Lemma new_node_wf name type t created modified size h :
  created ≠ "" → jwf (new_node name type t created modified size h).1.
Proof. intros Hc. unfold new_node, is_empty. rewrite bool_decide_eq_false_2 by done. by constructor. Qed.
Lemma new_directory_wf name h : jwf (new_directory name h).1.
Proof. destruct (fresh_eq name h) as (now & h' & -> & Hn). by constructor. Qed.

(** ** The operations *)

Abbreviation method := (py (JsonFS Host) fexn).

(** How an operation ends: it saved, it changed nothing, or it raised; it raises
    over an unchanged tree, but for [UnicodeEncodeError]. *)
Definition ends (s : JsonFS Host) (x : (fexn + unit) * JsonFS Host) : Prop :=
  jwf (jroot x.2) ∧
  match x.1 with
  | inr _ => jfile x.2 = Some (to_dict (jroot x.2)) ∨ jfile x.2 = jfile s ∧ jroot x.2 = jroot s
  | inl e => jfile x.2 = jfile s ∧ (e ≠ UnicodeEncodeError → jroot x.2 = jroot s)
  end.

Lemma ends_raise e s : jwf (jroot s) → ends s (raise e s).
Proof. by split. Qed.
Lemma ends_ret s : jwf (jroot s) → ends s ((mret tt : method unit) s).
Proof. split; [done|]. by right. Qed.
Lemma ends_save s s0 : jwf (jroot s) → ends s0 (_save s).
Proof. split; [done|]. by left. Qed.

Lemma ensure_parents_ends parts path create (k : method unit) s :
  jwf (jroot s) →
  (∀ s', jwf (jroot s') → jfile s' = jfile s → (create = false → jroot s' = jroot s) →
    (jroot s' = jroot s ∨ ∀ k, jnode_at (parts ++ [k]) (jroot s') = None) → ends s (k s')) →
  ends s ((_ ← _jensure_parents parts path create; k) s).
Proof.
  intros Hwf Hk. rewrite py_bind_eq. unfold _jensure_parents.
  destruct (jensure create path parts (jroot s) (jhost s)) as [[e n'] h'] eqn:Hens.
  destruct (jensure_spec _ _ _ _ _ _ _ _ Hens Hwf) as (Hwf' & _ & _ & Hsame & Huni & Hok).
  destruct e as [e|].
  - split; [done|]. split; [done|]. intros _. simpl. apply Hsame. by left.
  - destruct (Hok eq_refl) as [Hnew _]. apply Hk; [done|done| |done]. intros Hc. apply Hsame. by right.
Qed.

Lemma write_ends path c s : jwf (jroot s) → ends s (jwrite_file path c s).
Proof.
  intros Hwf. unfold jwrite_file. destruct (is_empty _); [by apply ends_raise|]. apply ensure_parents_ends; [done|].
  intros s1 Hwf1 Hfile _ Hnew. set (dirs := dirs_of _) in *. set (name := last_of _). cbv zeta.
  set (t := match c with Bytes b => decode b | Text t => t end). rewrite py_bind_eq. unfold jnow at 1.
  pose proof (clock_prints (jhost s1)) as Hnow. destruct (now_iso (jhost s1)) as [now h1]. cbn [fst] in Hnow. rewrite py_bind_eq.
  cbn [at_path gets jroot]. destruct (jnode_at (dirs ++ [name]) (jroot s1)) as [n|] eqn:Hn.
  - assert (Hroot : jroot s1 = jroot s) by (destruct Hnew as [?|Hnew]; [done|by rewrite Hnew in Hn]).
    rewrite py_bind_eq. destruct (bool_decide (j_type n = "directory")).
    + split; [done|]. by split.
    + rewrite py_bind_eq. cbn [set_root modify]. rewrite py_bind_eq. unfold utf8_length. destruct (encode t) as [b|].
      * cbn [mret py_ret modify]. apply ends_save. cbn [jroot]. apply jwf_modify; [apply jwf_size|]. by apply jwf_modify; [apply jwf_content|].
      * split; [cbn; by apply jwf_modify; [apply jwf_content|]|]. by split.
  - rewrite py_bind_eq. rewrite py_bind_eq. unfold utf8_length. destruct (encode t) as [b|].
    + cbn [mret py_ret]. rewrite py_bind_eq. unfold with_host at 1. cbn [jhost].
      pose proof (new_node_wf name "file" t now now (Z.of_nat (length b)) h1 Hnow) as Hnew'.
      destruct (new_node name "file" t now now (Z.of_nat (length b)) h1) as [nn h2]. cbn [set_root modify]. apply ends_save. cbn [jroot].
      apply jwf_modify; [|done]. intros x Hx. by apply jwf_add.
    + split; [done|]. by split.
Qed.

Lemma mkdir_ends path recursive s : jwf (jroot s) → ends s (jmkdir path recursive s).
Proof.
  intros Hwf. unfold jmkdir. destruct (is_empty _); [by apply ends_ret|]. destruct recursive.
  - apply ensure_parents_ends; [done|]. intros s1 Hwf1 _ _ _. by apply ends_save.
  - apply ensure_parents_ends; [done|]. intros s1 Hwf1 Hfile Hsame _. specialize (Hsame eq_refl). rewrite py_bind_eq. cbn [at_path gets].
    destruct (jnode_at _ (jroot s1)) as [n|].
    + unfold raise_if. destruct (negb _); (split; [done|]); [by split|by right].
    + rewrite py_bind_eq. unfold with_host at 1. pose proof (new_directory_wf (last_of (parts_of (_normalize_path path))) (jhost s1)) as Hd.
      destruct (new_directory _ (jhost s1)) as [d h1]. rewrite py_bind_eq. cbn [set_root modify]. apply ends_save. cbn [jroot].
      apply jwf_modify; [|done]. intros x Hx. by apply jwf_add.
Qed.

Lemma remove_ends path recursive s : jwf (jroot s) → ends s (jremove path recursive s).
Proof.
  intros Hwf. unfold jremove. destruct (is_empty _); [by apply ends_raise|]. rewrite py_bind_eq. cbn [_jresolve gets].
  destruct (_ ≫= _) as [n|]; [|by apply ends_raise]. destruct (_ && _ && _); [by apply ends_raise|]. rewrite py_bind_eq. cbn [set_root modify].
  apply ends_save. cbn [jroot]. by apply jwf_modify; [apply jwf_remove|].
Qed.

(** Putting a copy somewhere never fails. *)
Lemma put_copy_ok src dirs name s : jwf (jroot s) → ∃ s', jput_copy src dirs name s = (inr tt, s') ∧ jwf (jroot s').
Proof.
  intros Hwf. unfold jput_copy. rewrite py_bind_eq. cbn [at_path gets]. rewrite py_bind_eq. cbn [set_root modify]. rewrite py_bind_eq. cbn [gets jroot].
  assert (Hrem : jwf (jmodify_at dirs (remove_child name) (jroot s))) by (apply jwf_modify; [apply jwf_remove|done]).
  unfold at_path, gets. match goal with |- context [if is_prefix src dirs then ?a else ?b] => destruct (if is_prefix src dirs then a else b) as [n|] end; [|by exists {| jroot := jmodify_at dirs (remove_child name) (jroot s); jfile := jfile s; jhost := jhost s |}]. rewrite py_bind_eq. unfold with_host at 1. cbn [jhost].
  pose proof (deep_copy_wf n name (jhost s)) as Hc. destruct (_jdeep_copy n name (jhost s)) as [c h1]. cbn [set_root modify]. eexists.
  split; [done|]. cbn [jroot]. apply jwf_modify; [|done]. intros x Hx. by apply jwf_add.
Qed.

Lemma copy_ends src dest s : jwf (jroot s) → ends s (jcopy src dest s).
Proof.
  intros Hwf. unfold jcopy. rewrite py_bind_eq. cbn [_jresolve gets]. destruct (jresolve _ _); [|by apply ends_raise].
  destruct (is_empty _); [by apply ends_raise|]. apply ensure_parents_ends; [done|]. intros s1 Hwf1 _ _ _.
  rewrite py_bind_eq. destruct (put_copy_ok (node_parts (_normalize_path src)) (dirs_of (parts_of (_normalize_path dest)))
    (last_of (parts_of (_normalize_path dest))) s1 Hwf1) as (s2 & -> & Hwf2). by apply ends_save.
Qed.

Lemma move_ends src dest s : jwf (jroot s) → ends s (jmove src dest s).
Proof.
  intros Hwf. unfold jmove. destruct (is_empty (_normalize_path src)); [by apply ends_raise|].
  rewrite py_bind_eq. cbn [_jresolve gets]. destruct (jresolve _ _); [|by apply ends_raise].
  destruct (is_empty _); [by apply ends_raise|]. apply ensure_parents_ends; [done|]. intros s1 Hwf1 _ _ _.
  rewrite py_bind_eq. destruct (put_copy_ok (node_parts (_normalize_path src)) (dirs_of (parts_of (_normalize_path dest)))
    (last_of (parts_of (_normalize_path dest))) s1 Hwf1) as (s2 & -> & Hwf2).
  rewrite py_bind_eq. cbn [_jresolve gets]. rewrite py_bind_eq. destruct (jresolve (jroot s2) _); cbn [set_root modify mret py_ret].
  - apply ends_save. cbn [jroot]. by apply jwf_modify; [apply jwf_remove|].
  - by apply ends_save.
Qed.

(** ** Runs *)

Inductive jop :=
| JWrite (path : string) (c : content)
| JMkdir (path : string) (recursive : bool)
| JRemove (path : string) (recursive : bool)
| JCopy (src dest : string)
| JMove (src dest : string).
Definition japply (op : jop) : method unit :=
  match op with
  | JWrite p c => jwrite_file p c
  | JMkdir p r => jmkdir p r
  | JRemove p r => jremove p r
  | JCopy a b => jcopy a b
  | JMove a b => jmove a b
  end.

Lemma op_ends op s : jwf (jroot s) → ends s (japply op s).
Proof. destruct op; [apply write_ends|apply mkdir_ends|apply remove_ends|apply copy_ends|apply move_ends]. Qed.

(** A run: the storage is opened without a file, used, and opened again on its
    file.  An operation may raise anything but [UnicodeEncodeError]. *)
Inductive jrun : JsonFS Host → Prop :=
| jrun_new h s h' : open_storage None h = (inr s, h') → jrun s
| jrun_op op s r s' : jrun s → japply op s = (r, s') → r ≠ inl UnicodeEncodeError → jrun s'
| jrun_again s h s' h' : jrun s → open_storage (jfile s) h = (inr s', h') → jrun s'.

Definition synced (s : JsonFS Host) : Prop :=
  jwf (jroot s) ∧
  match jfile s with
  | Some d => d = to_dict (jroot s)
  | None => ∃ now, jroot s = JFile "" "directory" [] [] now now 0 (permissions_of "directory")
  end.

Lemma open_synced file h s h' :
  match file with Some d => ∃ n, jwf n ∧ d = to_dict n | None => True end → open_storage file h = (inr s, h') → synced s.
Proof.
  unfold open_storage, _load. destruct file as [d|].
  - intros (n & Hn & ->). rewrite load_dumped by done. intros [= <- <-]. by split.
  - intros _. destruct (fresh_eq "" h) as (now & h1 & -> & Hnow). intros [= <- <-]. split; [by constructor|]. by exists now.
Qed.

Lemma run_synced s : jrun s → synced s.
Proof.
  induction 1 as [h s h' Ho|op s r s' _ [Hwf Hs] Hop Hr|s h s' h' _ [Hwf Hs] Ho].
  - by eapply (open_synced None).
  - pose proof (op_ends op s Hwf) as [Hwf' He]. rewrite Hop in Hwf', He. cbn [fst snd] in *. split; [done|]. destruct r as [e|u].
    + destruct He as [-> Hroot]. rewrite Hroot by congruence. done.
    + destruct He as [->|[-> ->]]; done.
  - eapply open_synced; [|exact Ho]. destruct (jfile s) as [d|]; [|done]. by exists (jroot s).
Qed.
End Provider.


(** ** A storage *)

(** A host whose clock counts. *)
#[local] Instance ticks : FsEnv nat := { now_iso n := ("t" +:+ pretty n, S n) }.

Definition opened : JsonFS nat := Eval vm_compute in
  match (open_storage None 0%nat).1 with inr s => s | inl _ => {| jroot := JFile "" "" [] [] "" "" 0 ""; jfile := None; jhost := 0%nat |} end.
Definition written : JsonFS nat := Eval vm_compute in (jwrite_file "docs/a.txt" (Text [104; 233]) opened).2.
(** A failed write, over a directory *)
Definition refused : JsonFS nat := Eval vm_compute in (jwrite_file "docs" (Text [120]) written).2.
Definition moved : JsonFS nat := Eval vm_compute in (jmove "docs" "old/docs" refused).2.

Lemma moved_run : jrun moved.
Proof.
  apply (jrun_op (JMove "docs" "old/docs") refused (inr tt)); [|vm_compute; reflexivity|discriminate].
  apply (jrun_op (JWrite "docs" (Text [120])) written (inl (FileStorageIsADirectoryError "docs"))); [|vm_compute; reflexivity|discriminate].
  apply (jrun_op (JWrite "docs/a.txt" (Text [104; 233])) opened (inr tt)); [|vm_compute; reflexivity|discriminate].
  by apply (jrun_new 0%nat _ 1%nat).
Qed.


(** Bytes that are no UTF-8 are kept as replacement characters: what is
    downloaded is not what was uploaded. *)
Example upload_is_lossy :
  (jdownload "a.bin" (jupload_file "a.bin" [255; 0] opened).2).1 = inr [239; 191; 189; 0].
Proof. vm_compute. reflexivity. Qed.

(** Text with a surrogate raises after the memory was changed: the file keeps
    the old text. *)
Example surrogate_not_saved :
  let s := (jwrite_file "docs/a.txt" (Text [55296]) written).2 in
  (jwrite_file "docs/a.txt" (Text [55296]) written).1 = inl UnicodeEncodeError ∧
  (jread_file "docs/a.txt" s).1 = inr [55296] ∧ jfile s = jfile written.
Proof. vm_compute. done. Qed.
