(* ===== verification/Sqlite.v ===== *)
(** * The file storage in SQLite ([filesystem-sqlite/sqlite_provider.py])

    The table [files] with the statements the provider runs on it.  A table is
    its rows in the order of their ids, which is the order of insertion; a
    [SELECT] without [ORDER BY] gives the rows in that order.  What a statement
    changes is pending until [commit]; the connection sees it at once.  [LIKE]
    is SQLite's: without an escape character, and blind to the case of ASCII
    letters.  Paths hold no NUL character.  Errors, entries and the clock are
    those of [FileTree.v]. *)

From S2P Require Import Prelude PyStr Utf8 FileTree FileRefine.
From Stdlib Require Import Ascii.

(** ** The table *)

Record Row := {
  r_path : string;
  r_name : string;
  r_type : string;
  r_content : option text;
  r_size : Z;
  r_permissions : string;
  r_created : string;
  r_modified : string;
  r_parent : option string;
}.

(** What raises: the errors of the storage, and SQLite's on a broken constraint *)
Inductive sql_exn := Storage (e : fexn) | IntegrityError.

Record Db {Host : Type} := { rows : list Row; committed : list Row; db_host : Host }.
Arguments Db : clear implicits.

Definition percent : ascii := "%"%char.
Definition underscore : ascii := "_"%char.

(** [s LIKE p] *)
Fixpoint like (p s : list ascii) : bool :=
  match p with
  | [] => bool_decide (s = [])
  | c :: p =>
      if Ascii.eqb c percent then
        (fix any (s : list ascii) : bool := like p s || match s with [] => false | _ :: s => any s end) s
      else
        match s with
        | [] => false
        | d :: s => (Ascii.eqb c underscore || Ascii.eqb (lower_ascii c) (lower_ascii d)) && like p s
        end
  end.
(** [path LIKE norm + "/%"] *)
Definition like_below (norm path : string) : bool := like (chars norm ++ chars "/%") (chars path).

(** ** Paths *)

Definition sql_normalize (path : string) : string :=
  let path := strip path in
  if is_empty path || bool_decide (path = ".") || bool_decide (path = "/") then "/"
  else
    let parts := normalize_loop [] (split slash path) in
    if bool_decide (parts = []) then "/" else "/" +:+ join "/" parts.

(** [path.rfind(c)], [-1] when there is none *)
Fixpoint rfind_chars (c : ascii) (i : Z) (last : Z) (l : list ascii) : Z :=
  match l with
  | [] => last
  | d :: l => rfind_chars c (i + 1) (if Ascii.eqb d c then i else last) l
  end.
Definition rfind (c : ascii) (s : string) : Z := rfind_chars c 0 (-1) (chars s).

Definition _parent_path (path : string) : option string :=
  if bool_decide (path = "/") then None
  else
    let idx := rfind slash path in
    if idx <=? 0 then Some "/" else Some (take_str (Z.to_nat idx) path).

(** [norm.rsplit("/", 1)[-1]] *)
Definition last_segment (norm : string) : string := drop_str (Z.to_nat (rfind slash norm + 1)) norm.

(** ** Statements *)

Section Provider.
Context {Host : Type} `{E : FsEnv Host}.
Abbreviation method := (py (Db Host) sql_exn).

Definition fail {A} (e : fexn) : method A := raise (Storage e).

Definition by_path (path : string) (l : list Row) : option Row := List.find (λ r, bool_decide (r_path r = path)) l.
Definition select (path : string) : method (option Row) := gets (λ s, by_path path (rows s)).
Definition set_rows (f : list Row → list Row) : method unit :=
  modify (λ s, {| rows := f (rows s); committed := committed s; db_host := db_host s |}).
Definition commit : method unit := modify (λ s, {| rows := rows s; committed := rows s; db_host := db_host s |}).

(** [INSERT], with the constraints of the table *)
Definition insert (r : Row) : method unit := λ s,
  if bool_decide (is_Some (by_path (r_path r) (rows s)))
     || negb (bool_decide (r_type r = "file") || bool_decide (r_type r = "directory"))
  then (inl IntegrityError, s)
  else set_rows (λ l, l ++ [r]) s.
(** [UPDATE files SET content = ?, size = ?, modified_at = ? WHERE path = ?] *)
Definition update (path : string) (content : text) (size : Z) (now : string) : method unit :=
  set_rows (map (λ r, if bool_decide (r_path r = path)
    then {| r_path := r_path r; r_name := r_name r; r_type := r_type r; r_content := Some content; r_size := size;
            r_permissions := r_permissions r; r_created := r_created r; r_modified := now; r_parent := r_parent r |}
    else r)).
Definition delete_where (p : Row → bool) : method unit := set_rows (List.filter (λ r, negb (p r))).
Definition delete_path (path : string) : method unit := delete_where (λ r, bool_decide (r_path r = path)).
(** [DELETE FROM files WHERE path = ? OR path LIKE ?] *)
Definition delete_below (norm : string) : method unit :=
  delete_where (λ r, bool_decide (r_path r = norm) || like_below norm (r_path r)).
Definition select_children (norm : string) : method (list Row) :=
  gets (λ s, List.filter (λ r, bool_decide (r_parent r = Some norm)) (rows s)).
Definition select_below (norm : string) : method (list Row) :=
  gets (λ s, List.filter (λ r, like_below norm (r_path r)) (rows s)).

Definition sql_now : method string := λ s,
  let '(t, h) := now_iso (db_host s) in (inr t, {| rows := rows s; committed := committed s; db_host := h |}).

(** A new directory *)
Definition dir_row (path name now : string) (parent : option string) : Row :=
  {| r_path := path; r_name := name; r_type := "directory"; r_content := None; r_size := 0; r_permissions := "drwxr-xr-x";
     r_created := now; r_modified := now; r_parent := parent |}.

(** ** The provider *)

Definition _ensure_root : method unit :=
  row ← select "/";
  match row with
  | Some _ => mret tt
  | None =>
      now ← sql_now;
      _ ← insert (dir_row "/" "" now None);
      commit
  end.
(** The provider on a database whose table has these rows *)
Definition open_db (table : list Row) (h : Host) : Db Host := (_ensure_root {| rows := table; committed := table; db_host := h |}).2.

Fixpoint ensure_loop (current : string) (parts : list string) : method unit :=
  match parts with
  | [] => mret tt
  | part :: parts =>
      let current := current +:+ "/" +:+ part in
      existing ← select current;
      _ ← match existing with
          | Some r => raise_if (negb (bool_decide (r_type r = "directory"))) (Storage (FileStorageNotADirectoryError current))
          | None =>
              now ← sql_now;
              insert (dir_row current part now (_parent_path current))
          end;
      ensure_loop current parts
  end.
Definition ensure_ancestors (path : string) : method unit :=
  let norm := sql_normalize path in
  if bool_decide (norm = "/") then mret tt
  else (_ ← ensure_loop "" (split slash (strip_of slash norm)); commit).
(** [if parent and parent != "/": await self._ensure_parents(parent)] *)
Definition ensure_parent (parent : option string) : method unit :=
  match parent with
  | Some p => if is_empty p || bool_decide (p = "/") then mret tt else ensure_ancestors p
  | None => mret tt
  end.
End Provider.

Section Operations.
Context {Host : Type} `{E : FsEnv Host}.
Abbreviation method := (py (Db Host) sql_exn).

Definition row_entry (r : Row) : FileEntry :=
  {| e_name := r_name r; e_type := r_type r; e_size := r_size r; e_modified := r_modified r; e_permissions := Some (r_permissions r) |}.
Definition row_le (a b : Row) : bool := String.leb (r_name a) (r_name b).

Definition sql_list (path : string) : method (list FileEntry) :=
  let norm := sql_normalize path in
  row ← select norm;
  match row with
  | None => fail (FileStorageNotFoundError path)
  | Some r =>
      if negb (bool_decide (r_type r = "directory")) then fail (FileStorageNotADirectoryError path)
      else (children ← select_children norm; mret (map row_entry (py_sort row_le children)))
  end.

(** The row of a file: what [read_file] and [get_download_stream] start with *)
Definition file_row (path : string) : method Row :=
  row ← select (sql_normalize path);
  match row with
  | None => fail (FileStorageNotFoundError path)
  | Some r => if bool_decide (r_type r = "directory") then fail (FileStorageIsADirectoryError path) else mret r
  end.
Definition sql_read_file (path : string) : method text := r ← file_row path; mret (default [] (r_content r)).
Definition sql_encode (t : text) : method bytes :=
  match encode t with Some b => mret b | None => fail UnicodeEncodeError end.
Definition sql_download (path : string) : method bytes := r ← file_row path; sql_encode (default [] (r_content r)).

Definition sql_write_file (path : string) (c : content) : method unit :=
  let norm := sql_normalize path in
  if bool_decide (norm = "/") then fail (FileStorageIsADirectoryError path)
  else
    let t := match c with Bytes b => decode b | Text t => t end in
    b ← sql_encode t;
    let size := Z.of_nat (length b) in
    now ← sql_now;
    let parent := _parent_path norm in
    _ ← ensure_parent parent;
    existing ← select norm;
    _ ← match existing with
        | Some r =>
            if bool_decide (r_type r = "directory") then fail (FileStorageIsADirectoryError path)
            else update norm t size now
        | None =>
            insert {| r_path := norm; r_name := last_segment norm; r_type := "file"; r_content := Some t; r_size := size;
                      r_permissions := "-rw-r--r--"; r_created := now; r_modified := now; r_parent := parent |}
        end;
    commit.
Definition sql_upload_file (path : string) (b : bytes) : method unit := sql_write_file path (Bytes b).

Definition sql_stat (path : string) : method FileStat :=
  row ← select (sql_normalize path);
  match row with
  | None => fail (FileStorageNotFoundError path)
  | Some r => mret {| f_name := r_name r; f_type := r_type r; f_size := r_size r; f_created := r_created r;
                      f_modified := r_modified r; f_permissions := Some (r_permissions r) |}
  end.
Definition sql_exists (path : string) : method bool := row ← select (sql_normalize path); mret (bool_decide (is_Some row)).

Definition sql_mkdir (path : string) (recursive : bool) : method unit :=
  let norm := sql_normalize path in
  if bool_decide (norm = "/") then mret tt
  else if recursive then ensure_ancestors norm
  else
    let parent := _parent_path norm in
    _ ← match parent with
        | Some p =>
            if is_empty p then mret tt
            else
              p_row ← select p;
              match p_row with
              | None => fail (FileStorageNotFoundError path)
              | Some r => raise_if (negb (bool_decide (r_type r = "directory"))) (Storage (FileStorageNotADirectoryError path))
              end
        | None => mret tt
        end;
    existing ← select norm;
    match existing with
    | Some r => raise_if (negb (bool_decide (r_type r = "directory"))) (Storage (FileStorageExistsError path))
    | None =>
        now ← sql_now;
        _ ← insert (dir_row norm (last_segment norm) now parent);
        commit
    end.

Definition sql_remove (path : string) (recursive : bool) : method unit :=
  let norm := sql_normalize path in
  if bool_decide (norm = "/") then fail (FileStoragePermissionError path)
  else
    row ← select norm;
    match row with
    | None => fail (FileStorageNotFoundError path)
    | Some r =>
        _ ← (if bool_decide (r_type r = "directory") && negb recursive then
               children ← select_children norm;
               raise_if (negb (bool_decide (children = []))) (Storage (FileStorageNotADirectoryError path))
             else mret tt);
        _ ← (if recursive then delete_below norm else delete_path norm);
        commit
    end.

(** A row copied to another path *)
Definition copy_row (path name now : string) (parent : option string) (r : Row) : Row :=
  {| r_path := path; r_name := name; r_type := r_type r; r_content := r_content r; r_size := r_size r;
     r_permissions := r_permissions r; r_created := now; r_modified := now; r_parent := parent |}.
Definition copy_below (src_norm dest_norm now : string) (desc : Row) : method unit :=
  let new_path := dest_norm +:+ drop_str (len src_norm) (r_path desc) in
  _ ← delete_path new_path;
  insert (copy_row new_path (r_name desc) now (_parent_path new_path) desc).

Definition sql_copy (src dest : string) : method unit :=
  let src_norm := sql_normalize src in
  let dest_norm := sql_normalize dest in
  if bool_decide (dest_norm = "/") then fail (FileStorageIsADirectoryError dest)
  else
    src_row ← select src_norm;
    match src_row with
    | None => fail (FileStorageNotFoundError src)
    | Some r =>
        let dest_parent := _parent_path dest_norm in
        _ ← ensure_parent dest_parent;
        now ← sql_now;
        _ ← delete_path dest_norm;
        _ ← insert (copy_row dest_norm (last_segment dest_norm) now dest_parent r);
        _ ← (if bool_decide (r_type r = "directory") then
               descendants ← select_below src_norm;
               for_each (copy_below src_norm dest_norm now) descendants
             else mret tt);
        commit
    end.

Definition sql_move (src dest : string) : method unit :=
  let src_norm := sql_normalize src in
  if bool_decide (src_norm = "/") then fail (FileStoragePermissionError src)
  else if bool_decide (sql_normalize dest = "/") then fail (FileStorageIsADirectoryError dest)
  else
    src_row ← select src_norm;
    match src_row with
    | None => fail (FileStorageNotFoundError src)
    | Some _ =>
        _ ← sql_copy src dest;
        _ ← delete_below src_norm;
        commit
    end.
End Operations.

(** * The SQLite storage keeps a tree, and where [LIKE] gives it away

    On a table that is a tree ([table_ok]) every operation does what its
    specification [sql_spec] says, if no other path looks like the source to
    [LIKE] ([plain]); the examples show what happens otherwise. *)

(** ** Paths as lists of segments *)

Definition path_chars (ps : list string) : list ascii := concat (map (λ k, slash :: chars k) ps).
Definition base (ps : list string) : string := str (path_chars ps).
Definition pth (ps : list string) : string := if decide (ps = []) then "/" else base ps.
Definition sql_parts (path : string) : list string := normalize_loop [] (split slash (strip path)).

Lemma segments_app a b : path_chars (a ++ b) = path_chars a ++ path_chars b.
Proof. unfold path_chars. by rewrite map_app, concat_app. Qed.
Lemma base_app a b : base (a ++ b) = base a +:+ base b.
Proof. unfold base. by rewrite segments_app, str_app. Qed.
Lemma chars_base ps : chars (base ps) = path_chars ps.
Proof. apply chars_str. Qed.
Lemma base_one k : base [k] = "/" +:+ k.
Proof. apply (inj String.list_ascii_of_string). rewrite chars_base, chars_app. unfold path_chars. simpl. by rewrite app_nil_r. Qed.
Lemma base_snoc ds k : base (ds ++ [k]) = base ds +:+ "/" +:+ k.
Proof. by rewrite base_app, base_one. Qed.
Lemma pth_ne ps : ps ≠ [] → pth ps = base ps.
Proof. intros H. unfold pth. by rewrite decide_False. Qed.

(** What comes after a segment starts with a slash, or is nothing. *)
Definition at_slash (l : list ascii) : Prop := l = [] ∨ ∃ t, l = slash :: t.
Lemma segments_at_slash ps : at_slash (path_chars ps).
Proof. destruct ps as [|k ps]; [by left|]. right. eexists. unfold path_chars. simpl. done. Qed.

Lemma segment_ends (k k' x y : list ascii) :
  slash ∉ k → slash ∉ k' → at_slash x → at_slash y → k ++ x = k' ++ y → k = k' ∧ x = y.
Proof.
  intros Hk Hk' Hx Hy. revert k' Hk'. induction k as [|c k IH]; intros [|c' k'] Hk'; simpl; intros Heq.
  - done.
  - subst x. destruct Hx as [Hx|[t Hx]]; [done|]. injection Hx as -> _. destruct Hk'. by left.
  - subst y. destruct Hy as [Hy|[t Hy]]; [done|]. injection Hy as -> _. destruct Hk. by left.
  - injection Heq as -> Heq. destruct (IH (λ H, Hk (list_elem_of_further _ _ _ H)) k' (λ H, Hk' (list_elem_of_further _ _ _ H)) Heq) as [-> ->]. done.
Qed.

(** A path that starts with another one and a slash is below it. *)
Lemma segments_prefix a ps t : Forall good a → Forall good ps → at_slash t → path_chars ps = path_chars a ++ t →
  ∃ rel, ps = a ++ rel ∧ path_chars rel = t.
Proof.
  intros Ha. revert ps. induction Ha as [|k a (_ & _ & _ & Hk) Ha IH]; intros ps Hps Ht Heq; [by exists ps|].
  destruct Hps as [|k' ps (_ & _ & _ & Hk') Hps]; [done|]. unfold path_chars in Heq. simpl in Heq. fold (path_chars ps) (path_chars a) in Heq.
  injection Heq as Heq. rewrite <- app_assoc in Heq. apply segment_ends in Heq as [Hkk Heq]; [|done|done|apply segments_at_slash|].
  - apply (inj String.list_ascii_of_string) in Hkk as ->. destruct (IH ps Hps Ht Heq) as (rel & -> & Hrel). by exists rel.
  - destruct (segments_at_slash a) as [->|[u ->]]; [done|]. right. by eexists.
Qed.

Lemma segments_inj a b : Forall good a → Forall good b → path_chars a = path_chars b → a = b.
Proof.
  intros Ha Hb Heq. destruct (segments_prefix b a [] Hb Ha) as (rel & -> & Hrel); [by left|by rewrite app_nil_r|].
  destruct rel; [by rewrite app_nil_r|done].
Qed.

Lemma segments_single ps : path_chars ps = [slash] → Forall good ps → False.
Proof.
  intros Heq Hps. destruct Hps as [|k ps (Hk & _) _]; [done|]. unfold path_chars in Heq. simpl in Heq. injection Heq as Heq.
  apply app_eq_nil in Heq as [Heq _]. apply Hk. by apply (inj String.list_ascii_of_string).
Qed.

Lemma pth_inj a b : Forall good a → Forall good b → pth a = pth b → a = b.
Proof.
  intros Ha Hb. unfold pth, base. destruct (decide (a = [])) as [->|Hna], (decide (b = [])) as [->|Hnb]; [done|..]; intros Heq;
    apply (f_equal String.list_ascii_of_string) in Heq; rewrite ?chars_str in Heq.
  - by destruct (segments_single b).
  - by destruct (segments_single a).
  - by apply segments_inj.
Qed.

Lemma join_base ps : ps ≠ [] → "/" +:+ join "/" ps = base ps.
Proof.
  induction ps as [|k [|k' ps] IH]; intros H; [done|by rewrite base_one|].
  change (k :: k' :: ps) with ([k] ++ (k' :: ps)). rewrite base_app, <- IH, base_one by done. simpl. by rewrite <- app_str_assoc.
Qed.

Lemma normalize_parts path : sql_normalize path = pth (sql_parts path).
Proof.
  unfold sql_normalize, sql_parts, is_empty. destruct (bool_decide (strip path = "")) eqn:E1; [apply bool_decide_eq_true in E1 as ->; done|].
  destruct (bool_decide (strip path = ".")) eqn:E2; [apply bool_decide_eq_true in E2 as ->; done|].
  destruct (bool_decide (strip path = "/")) eqn:E3; [apply bool_decide_eq_true in E3 as ->; done|]. cbn [orb]. unfold pth.
  destruct (decide (normalize_loop _ _ = [])) as [H|H]; [by rewrite bool_decide_eq_true_2|]. rewrite bool_decide_eq_false_2 by done. by apply join_base.
Qed.
Lemma sql_parts_good path : Forall good (sql_parts path).
Proof.
  apply normalize_loop_good; [|constructor]. unfold split. apply Forall_fmap, (Forall_impl _ _ _ (split_chars_no_sep slash _)).
  intros w Hw. unfold compose. by rewrite chars_str.
Qed.
Lemma normalize_root path : bool_decide (sql_normalize path = "/") = bool_decide (sql_parts path = []).
Proof.
  rewrite normalize_parts. apply bool_decide_ext. split; [|by intros ->]. intros H. apply (pth_inj _ []); [apply sql_parts_good|constructor|done].
Qed.

Lemma rfind_chars_none c z j k : c ∉ k → rfind_chars c z j k = j.
Proof.
  revert z. induction k as [|d k IH]; intros z Hk; [done|]. cbn [rfind_chars]. apply not_elem_of_cons in Hk as [Hd Hk].
  destruct (Ascii.eqb_spec d c); [congruence|]. by apply IH.
Qed.
Lemma rfind_chars_app c k i j l : c ∉ k → rfind_chars c i j (l ++ c :: k) = i + Z.of_nat (length l).
Proof.
  intros Hk. revert i j. induction l as [|d l IH]; intros i j; cbn [app rfind_chars length].
  - rewrite Ascii.eqb_refl, Z.add_0_r. by apply rfind_chars_none.
  - rewrite IH. lia.
Qed.
Lemma rfind_base ds k : good k → rfind slash (base (ds ++ [k])) = Z.of_nat (length (path_chars ds)).
Proof.
  intros (_ & _ & _ & Hk). unfold rfind. rewrite chars_base, segments_app. unfold path_chars at 2. cbn [map concat]. rewrite app_nil_r.
  by rewrite rfind_chars_app.
Qed.

Lemma parent_root : _parent_path (pth []) = None.
Proof. done. Qed.
Lemma parent_snoc ds k : Forall good ds → good k → _parent_path (pth (ds ++ [k])) = Some (pth ds).
Proof.
  intros Hds Hk. rewrite pth_ne by (by destruct ds). unfold _parent_path. rewrite bool_decide_eq_false_2.
  2: { intros Heq. apply (f_equal String.list_ascii_of_string) in Heq. rewrite chars_base in Heq.
       apply segments_single in Heq; [done|]. apply Forall_app. split; [done|by constructor]. }
  cbv zeta. rewrite rfind_base by done. unfold pth. destruct (decide (ds = [])) as [->|Hne]; [done|].
  destruct (Z.leb_spec (Z.of_nat (length (path_chars ds))) 0) as [Hle|Hgt].
  - destruct ds as [|d ds]; [done|]. unfold path_chars in Hle. simpl in Hle. lia.
  - f_equal. unfold take_str. rewrite chars_base, segments_app, Nat2Z.id, take_app_length. done.
Qed.
Lemma last_segment_snoc ds k : good k → last_segment (pth (ds ++ [k])) = k.
Proof.
  intros Hk. rewrite pth_ne by (by destruct ds). unfold last_segment. rewrite rfind_base by done. unfold drop_str.
  rewrite chars_base, segments_app. replace (Z.to_nat (Z.of_nat (length (path_chars ds)) + 1)) with (length (path_chars ds) + 1)%nat by lia.
  rewrite <- drop_drop, drop_app_length. unfold path_chars. simpl. rewrite app_nil_r. apply str_chars.
Qed.

(** ** [LIKE] *)

Lemma like_percent p s : like (percent :: p) s = like p s || match s with [] => false | _ :: s => like (percent :: p) s end.
Proof. by destruct s. Qed.
Lemma like_char c p d s : c ≠ percent →
  like (c :: p) (d :: s) = (Ascii.eqb c underscore || Ascii.eqb (lower_ascii c) (lower_ascii d)) && like p s.
Proof. intros Hc. cbn [like]. by destruct (Ascii.eqb_spec c percent). Qed.
Lemma like_nil p : like p [] = true → Forall (λ c, c = percent) p.
Proof.
  induction p as [|c p IH]; [constructor|]. cbn [like]. destruct (Ascii.eqb_spec c percent) as [->|]; [|done].
  rewrite orb_false_r. intros H. constructor; auto.
Qed.

(** A pattern matches itself, whatever the final [%] stands for. *)
Lemma like_self p t : like (p ++ [percent]) (p ++ t) = true.
Proof.
  induction p as [|c p IH].
  - simpl app. induction t as [|d t IH]; rewrite like_percent; [done|]. by rewrite IH, orb_true_r.
  - cbn [app]. destruct (decide (c = percent)) as [->|Hc].
    + rewrite like_percent. apply orb_true_iff. right. rewrite like_percent. by rewrite IH.
    + rewrite like_char, IH, Ascii.eqb_refl, orb_true_r by done. done.
Qed.

(** What comes after a match matches too. *)
Lemma like_more p s t : like (p ++ [percent]) s = true → like (p ++ [percent]) (s ++ t) = true.
Proof.
  revert s. induction p as [|c p IH]; intros s.
  - intros _. simpl app. apply (like_self []).
  - cbn [app]. destruct (decide (c = percent)) as [->|Hc].
    + induction s as [|d s IHs]; rewrite like_percent; intros [H|H]%orb_true_iff.
      * specialize (IH [] H). rewrite like_percent. apply orb_true_iff. by left.
      * done.
      * rewrite like_percent. apply orb_true_iff. left. by apply (IH (d :: s)).
      * rewrite like_percent. apply orb_true_iff. right. by apply IHs.
    + destruct s as [|d s]; cbn [app].
      * cbn [like]. destruct (Ascii.eqb_spec c percent); done.
      * rewrite !like_char by done. intros [-> H]%andb_prop. by rewrite IH.
Qed.

Lemma like_below_eq norm path : like_below norm path = like ((chars norm ++ [slash]) ++ [percent]) (chars path).
Proof. unfold like_below. by rewrite <- app_assoc. Qed.
Lemma like_below_more norm path t : like_below norm path = true → like_below norm (path +:+ t) = true.
Proof. rewrite !like_below_eq, chars_app. apply like_more. Qed.
Lemma like_below_self ps rel : ps ≠ [] → rel ≠ [] → like_below (pth ps) (pth (ps ++ rel)) = true.
Proof.
  intros Hps Hrel. rewrite !pth_ne by (try by destruct ps). rewrite like_below_eq, base_app, chars_app, !chars_base.
  destruct rel as [|k rel]; [done|]. unfold path_chars at 3. simpl. fold (path_chars rel).
  replace (path_chars ps ++ slash :: chars k ++ path_chars rel) with ((path_chars ps ++ [slash]) ++ (chars k ++ path_chars rel))
    by (rewrite <- app_assoc; done). apply like_self.
Qed.
Lemma like_below_root ps : ps ≠ [] → like_below (pth ps) "/" = false.
Proof.
  intros Hps. rewrite pth_ne by done. apply not_true_is_false. rewrite like_below_eq, chars_base. destruct ps as [|k ps]; [done|].
  unfold path_chars. simpl. intros H. rewrite <- app_assoc in H. apply like_nil in H. apply Forall_app in H as [_ H].
  by apply Forall_cons in H as [? _].
Qed.

(** ** Tables that are trees *)

Definition dir_kind (r : Row) : Prop := r_type r = "directory" ∧ r_content r = None ∧ r_size r = 0.
Definition file_kind (r : Row) : Prop :=
  r_type r = "file" ∧ ∃ t b, r_content r = Some t ∧ encode t = Some b ∧ r_size r = Z.of_nat (length b).

(** Every row has a path of its own and stands after the row of its parent, a
    directory. *)
Inductive table_ok : list Row → Prop :=
| table_root r : r_path r = "/" → r_name r = "" → r_parent r = None → dir_kind r → table_ok [r]
| table_snoc l ds k r d :
    table_ok l → Forall good (ds ++ [k]) → r_path r = pth (ds ++ [k]) → by_path (r_path r) l = None →
    r_name r = k → r_parent r = Some (pth ds) → dir_kind r ∨ file_kind r →
    d ∈ l → r_path d = pth ds → dir_kind d → table_ok (l ++ [r]).

Lemma by_path_app p l k : by_path p (l ++ k) = match by_path p l with Some r => Some r | None => by_path p k end.
Proof. unfold by_path. induction l as [|x l IH]; [done|]. cbn [app List.find]. by destruct (bool_decide (r_path x = p)). Qed.
Lemma by_path_one p r : by_path p [r] = if decide (r_path r = p) then Some r else None.
Proof. unfold by_path. cbn [List.find]. by repeat case_decide || case_bool_decide. Qed.
Lemma by_path_some p l r : by_path p l = Some r → r ∈ l ∧ r_path r = p.
Proof. unfold by_path. intros [Hin Hp%bool_decide_eq_true]%find_some. by rewrite list_elem_of_In. Qed.
Lemma by_path_none p l : by_path p l = None → ∀ r, r ∈ l → r_path r ≠ p.
Proof. unfold by_path. intros H r Hr Hp. apply list_elem_of_In in Hr. apply (find_none _ _ H) in Hr. by apply bool_decide_eq_false in Hr. Qed.

Lemma table_by_path l r : table_ok l → r ∈ l → by_path (r_path r) l = Some r.
Proof.
  induction 1 as [r0 Hp Hn Hpa Hk|l ds k r0 d Hl IH Hg Hp Hfresh Hn Hpa Hk Hd Hdp Hdk]; intros Hr.
  - apply list_elem_of_singleton in Hr as ->. rewrite by_path_one. by rewrite decide_True.
  - rewrite by_path_app. apply elem_of_app in Hr as [Hr|Hr%list_elem_of_singleton]; [by rewrite IH|]. subst r0. rewrite Hfresh.
    rewrite by_path_one. by rewrite decide_True.
Qed.

Lemma table_row l r : table_ok l → r ∈ l →
  (r_path r = "/" ∧ r_parent r = None ∧ dir_kind r) ∨
  ∃ ds k d, Forall good (ds ++ [k]) ∧ r_path r = pth (ds ++ [k]) ∧ r_name r = k ∧ r_parent r = Some (pth ds) ∧ (dir_kind r ∨ file_kind r) ∧
    d ∈ l ∧ r_path d = pth ds ∧ dir_kind d.
Proof.
  induction 1 as [r0 Hp Hn Hpa Hk|l ds k r0 d Hl IH Hg Hp Hfresh Hn Hpa Hk Hd Hdp Hdk]; intros Hr.
  - apply list_elem_of_singleton in Hr as ->. by left.
  - apply elem_of_app in Hr as [Hr|Hr%list_elem_of_singleton].
    + destruct (IH Hr) as [?|(ds' & k' & d' & H)]; [by left|]. right. exists ds', k', d'. rewrite elem_of_app. naive_solver.
    + subst r0. right. exists ds, k, d. rewrite elem_of_app. naive_solver.
Qed.
Lemma table_path l r : table_ok l → r ∈ l → ∃ ps, Forall good ps ∧ r_path r = pth ps ∧ (dir_kind r ∨ file_kind r).
Proof.
  intros Hl Hr. destruct (table_row l r Hl Hr) as [(Hp & _ & Hk)|(ds & k & d & Hg & Hp & _ & _ & Hk & _)]; [exists []; auto|].
  by exists (ds ++ [k]).
Qed.
Lemma table_has_root l : table_ok l → ∃ r, by_path "/" l = Some r ∧ dir_kind r.
Proof.
  induction 1 as [r0 Hp Hn Hpa Hk|l ds k r0 d Hl (r & Hr & Hk) Hg Hp Hfresh Hn Hpa Hkr Hd Hdp Hdk].
  - exists r0. rewrite by_path_one. by rewrite decide_True.
  - exists r. by rewrite by_path_app, Hr.
Qed.

(** What is at each path *)
#[local] Instance good_dec k : Decision (good k).
Proof. unfold good. apply _. Defined.
Definition row_entry_kind (r : Row) : entry :=
  if bool_decide (r_type r = "directory") then ADir else AFile (default [] (encode (default [] (r_content r)))).
Definition sview (l : list Row) : view_t := λ q, if decide (Forall good q) then row_entry_kind <$> by_path (pth q) l else None.

Lemma kind_of_dir r : dir_kind r → row_entry_kind r = ADir.
Proof. intros (Ht & _). unfold row_entry_kind. by rewrite bool_decide_eq_true_2. Qed.
Lemma sview_good l q e : sview l q = Some e → Forall good q.
Proof. unfold sview. by case_decide. Qed.
Lemma sview_some l q e : sview l q = Some e → ∃ r, by_path (pth q) l = Some r ∧ r ∈ l ∧ r_path r = pth q ∧ row_entry_kind r = e.
Proof.
  unfold sview. case_decide; [|done]. destruct (by_path (pth q) l) as [r|] eqn:Hr; [|done]. intros [= <-]. exists r.
  split; [done|]. destruct (by_path_some _ _ _ Hr). done.
Qed.
Lemma sview_root l : table_ok l → sview l [] = Some ADir.
Proof. intros (r & Hr & Hk)%table_has_root. unfold sview. rewrite decide_True by constructor. change (pth []) with "/". rewrite Hr. simpl. by rewrite kind_of_dir. Qed.
Lemma sview_by_path l q : Forall good q → by_path (pth q) l = None ↔ sview l q = None.
Proof. intros Hq. unfold sview. rewrite decide_True by done. by destruct (by_path (pth q) l). Qed.

Lemma sview_snoc l r ps q : Forall good ps → r_path r = pth ps → by_path (r_path r) l = None →
  sview (l ++ [r]) q = if decide (q = ps) then Some (row_entry_kind r) else sview l q.
Proof.
  intros Hg Hp Hfresh. unfold sview. rewrite by_path_app, by_path_one. destruct (decide (Forall good q)) as [Hq|Hq].
  - destruct (decide (q = ps)) as [->|Hqp]; [rewrite <- Hp, Hfresh; by rewrite decide_True|].
    rewrite decide_False; [by destruct (by_path (pth q) l)|]. rewrite Hp. intros ?%pth_inj; [congruence|done|done].
  - rewrite decide_False; [done|congruence].
Qed.

Lemma sview_parent l ds k : table_ok l → is_Some (sview l (ds ++ [k])) → sview l ds = Some ADir.
Proof.
  intros Hl [e He]. pose proof (sview_good _ _ _ He) as Hg. destruct (sview_some _ _ _ He) as (r & _ & Hr & Hp & _).
  destruct (table_row l r Hl Hr) as [(Hp' & _)|(ds' & k' & d & Hg' & Hp' & _ & _ & _ & Hd & Hdp & Hdk)].
  - rewrite Hp in Hp'. apply (pth_inj _ []) in Hp'; [by destruct ds|done|constructor].
  - rewrite Hp in Hp'. apply pth_inj in Hp'; [|done|done]. apply app_inj_tail in Hp' as [-> ->].
    apply Forall_app in Hg as [Hgd _]. unfold sview. rewrite decide_True by done. rewrite <- Hdp, table_by_path by done. simpl.
    by rewrite kind_of_dir.
Qed.
Lemma sview_above l a b : table_ok l → b ≠ [] → is_Some (sview l (a ++ b)) → sview l a = Some ADir.
Proof.
  intros Hl. induction b as [|k b IH] using rev_ind; [done|]. intros _ H. rewrite app_assoc in H. apply sview_parent in H; [|done].
  destruct b as [|c b]; [by rewrite app_nil_r in H|]. apply IH; [done|]. by eexists.
Qed.
Lemma sview_entry l q e : table_ok l → sview l q = Some e → e = ADir ∨ ∃ b, e = AFile b.
Proof. intros _ _. destruct e; eauto. Qed.

(** ** Deleting and updating rows *)

Lemma by_path_filter (kp : string → bool) p l :
  by_path p (List.filter (λ r, kp (r_path r)) l) = if kp p then by_path p l else None.
Proof.
  unfold by_path. induction l as [|x l IH]; [by destruct (kp p)|]. cbn [List.filter List.find].
  destruct (kp (r_path x)) eqn:Hx; cbn [List.find]; rewrite IH; clear IH.
  - case_bool_decide as Hp; [|done]. subst p. by rewrite Hx.
  - case_bool_decide as Hp; [|done]. subst p. by rewrite Hx.
Qed.

(** A set of paths without the root, that holds what is below its paths, can be
    deleted. *)
Lemma table_filter (kp : string → bool) l :
  table_ok l → kp "/" = true →
  (∀ ds k, Forall good (ds ++ [k]) → is_Some (by_path (pth (ds ++ [k])) l) → kp (pth (ds ++ [k])) = true → kp (pth ds) = true) →
  table_ok (List.filter (λ r, kp (r_path r)) l).
Proof.
  intros Hl Hroot. induction Hl as [r0 Hp Hn Hpa Hk|l ds k r0 d Hl IH Hg Hp Hfresh Hn Hpa Hk Hd Hdp Hdk]; intros Hup.
  - simpl. rewrite Hp, Hroot. by constructor.
  - rewrite List.filter_app. assert (Hl' : table_ok (List.filter (λ r, kp (r_path r)) l)).
    { apply IH. intros ds' k' Hg' [x Hx]. apply Hup; [done|]. rewrite by_path_app, Hx. by eexists. }
    cbn [List.filter]. destruct (kp (r_path r0)) eqn:Hkeep; [|by rewrite app_nil_r].
    apply (table_snoc _ ds k r0 d); try done.
    + rewrite by_path_filter, Hkeep. done.
    + apply list_elem_of_In, filter_In. split; [by apply list_elem_of_In|]. rewrite Hdp. apply (Hup ds k); [done| |by rewrite <- Hp].
      rewrite by_path_app, <- Hp, Hfresh, by_path_one. rewrite decide_True by done. by eexists.
Qed.
Lemma sview_filter (kp : string → bool) l q :
  sview (List.filter (λ r, kp (r_path r)) l) q = if kp (pth q) then sview l q else None.
Proof. unfold sview. rewrite by_path_filter. case_decide; [|by destruct (kp (pth q))]. by destruct (kp (pth q)). Qed.

Lemma filter_negb_ext (f g : Row → bool) l : (∀ r, r ∈ l → f r = g r) → List.filter f l = List.filter g l.
Proof.
  induction l as [|x l IH]; intros H; [done|]. cbn [List.filter]. rewrite (H x), IH; [done| |by left]. intros r Hr. apply H. by right.
Qed.

(** The row of a file changed *)
Definition write_row (path : string) (t : text) (size : Z) (now : string) (r : Row) : Row :=
  if bool_decide (r_path r = path)
  then {| r_path := r_path r; r_name := r_name r; r_type := r_type r; r_content := Some t; r_size := size;
          r_permissions := r_permissions r; r_created := r_created r; r_modified := now; r_parent := r_parent r |}
  else r.
Lemma write_row_path path t size now r : r_path (write_row path t size now r) = r_path r.
Proof. unfold write_row. by case_bool_decide. Qed.
Lemma by_path_map f p l : (∀ r, r_path (f r) = r_path r) → by_path p (map f l) = f <$> by_path p l.
Proof. intros Hf. unfold by_path. induction l as [|x l IH]; [done|]. cbn [map List.find]. rewrite Hf. by case_bool_decide. Qed.

Lemma table_write path t size now l b :
  table_ok l → (∀ r, r ∈ l → r_path r = path → file_kind r) → encode t = Some b → size = Z.of_nat (length b) →
  table_ok (map (write_row path t size now) l).
Proof.
  intros Hl Hfile Henc Hsize. induction Hl as [r0 Hp Hn Hpa Hk|l ds k r0 d Hl IH Hg Hp Hfresh Hn Hpa Hk Hd Hdp Hdk].
  - simpl. unfold write_row. case_bool_decide as H; [|by constructor]. destruct (Hfile r0) as (Ht & _); [by left|done|].
    destruct Hk as (Ht' & _). congruence.
  - rewrite map_app. cbn [map]. apply (table_snoc _ ds k _ d).
    + apply IH. intros r Hr. apply Hfile. apply elem_of_app. by left.
    + done.
    + by rewrite write_row_path.
    + rewrite write_row_path, by_path_map, Hfresh by apply write_row_path. done.
    + unfold write_row. by case_bool_decide.
    + unfold write_row. by case_bool_decide.
    + unfold write_row. case_bool_decide as H; [|done]. right. destruct (Hfile r0) as (Ht & _); [apply elem_of_app; right; by left|done|].
      split; [done|]. by exists t, b.
    + replace d with (write_row path t size now d); [apply list_elem_of_fmap; by exists d|]. unfold write_row. case_bool_decide as H; [|done].
      destruct (Hfile d) as (Ht & _); [apply elem_of_app; by left|done|]. destruct Hdk as (Ht' & _). congruence.
    + done.
    + done.
Qed.
Lemma sview_write ps t size now l b q :
  Forall good ps → (∃ r, by_path (pth ps) l = Some r ∧ file_kind r) → encode t = Some b →
  sview (map (write_row (pth ps) t size now) l) q = if decide (q = ps) then Some (AFile b) else sview l q.
Proof.
  intros Hg (r & Hr & Hf) Henc. unfold sview. rewrite by_path_map by apply write_row_path.
  destruct (decide (q = ps)) as [->|Hq].
  - rewrite decide_True, Hr by done. simpl. unfold write_row. destruct (by_path_some _ _ _ Hr) as [_ ->]. rewrite bool_decide_eq_true_2 by done.
    unfold row_entry_kind. cbn [r_type r_content]. destruct Hf as (-> & _). rewrite bool_decide_eq_false_2 by done. simpl. by rewrite Henc.
  - destruct (decide (Forall good q)) as [Hgq|]; [|done]. destruct (by_path (pth q) l) as [x|] eqn:Hx; [|done]. simpl. unfold write_row.
    destruct (by_path_some _ _ _ Hx) as [_ ->]. rewrite bool_decide_eq_false_2; [done|]. by intros ?%pth_inj.
Qed.

(** ** Creating directories *)

Lemma view_prefix_dir l q ds : table_ok l → sview l ds = Some ADir → q `prefix_of` ds → sview l q = Some ADir.
Proof. intros Hl Hds [e ->]. destruct e as [|k e]; [by rewrite app_nil_r in Hds|]. eapply sview_above; [done| |by eexists]. done. Qed.
Lemma prefix_snoc_cases {A} (q ds : list A) k : q `prefix_of` ds ++ [k] → q `prefix_of` ds ∨ q = ds ++ [k].
Proof.
  intros [f Hf]. destruct f as [|x f _] using rev_ind; [right; by rewrite app_nil_r in Hf|]. rewrite app_assoc in Hf.
  apply app_inj_tail in Hf as [-> _]. left. by exists f.
Qed.
Lemma mkdirs_there l ds q : table_ok l → sview l ds = Some ADir → mkdirs ds (sview l) q = sview l q.
Proof.
  intros Hl Hds. unfold mkdirs. destruct (sview l q) eqn:Hq; [done|]. case_bool_decide as Hp; [|done].
  pose proof (view_prefix_dir l q ds Hl Hds Hp). congruence.
Qed.

Section Ops.
Context {Host : Type} `{E : FsEnv Host}.
Abbreviation method := (py (Db Host) sql_exn).

(** A new row below a directory *)
Lemma insert_spec r ds k (s : Db Host) :
  table_ok (rows s) → Forall good (ds ++ [k]) → r_path r = pth (ds ++ [k]) → r_name r = k → r_parent r = Some (pth ds) →
  dir_kind r ∨ file_kind r → sview (rows s) ds = Some ADir → sview (rows s) (ds ++ [k]) = None →
  insert r s = (inr tt, {| rows := rows s ++ [r]; committed := committed s; db_host := db_host s |}) ∧
  table_ok (rows s ++ [r]) ∧
  ∀ q, sview (rows s ++ [r]) q = if decide (q = ds ++ [k]) then Some (row_entry_kind r) else sview (rows s) q.
Proof.
  intros Hl Hg Hp Hn Hpa Hk Hds Hfresh. apply sview_by_path in Hfresh; [|done].
  destruct (sview_some _ _ _ Hds) as (d & _ & Hd & Hdp & Hdk). split_and!.
  - unfold insert. rewrite Hp, Hfresh. rewrite (bool_decide_eq_false_2 (is_Some None)) by (intros [? [=]]).
    assert (bool_decide (r_type r = "file") || bool_decide (r_type r = "directory") = true) as ->; [|done].
    destruct Hk as [(-> & _)|(-> & _)]; done.
  - apply (table_snoc _ ds k r d); try done; [by rewrite Hp|]. destruct (table_path _ _ Hl Hd) as (ps & _ & _ & [Hkd|(Ht & _)]); [done|].
    unfold row_entry_kind in Hdk. rewrite Ht in Hdk. by rewrite bool_decide_eq_false_2 in Hdk.
  - intros q. apply sview_snoc; [done|done|by rewrite Hp].
Qed.

Definition blocker (v : view_t) (ds q : list string) : Prop := q `prefix_of` ds ∧ ∃ b, v q = Some (AFile b).

Lemma row_cases l r q : table_ok l → by_path (pth q) l = Some r → Forall good q →
  dir_kind r ∧ sview l q = Some ADir ∨ file_kind r ∧ ∃ b, sview l q = Some (AFile b).
Proof.
  intros Hl Hr Hq. destruct (by_path_some _ _ _ Hr) as [Hin _]. unfold sview. rewrite decide_True, Hr by done. simpl.
  destruct (table_path _ _ Hl Hin) as (_ & _ & _ & [Hk|Hk]); [left; split; [done|by rewrite kind_of_dir]|right; split; [done|]].
  destruct Hk as (Ht & _). unfold row_entry_kind. rewrite bool_decide_eq_false_2 by (by rewrite Ht). by eexists.
Qed.

Lemma ensure_loop_spec parts ds (s : Db Host) :
  table_ok (rows s) → Forall good (ds ++ parts) → sview (rows s) ds = Some ADir →
  ∃ out s', ensure_loop (base ds) parts s = (out, s') ∧ committed s' = committed s ∧
    ((∃ q, out = inl (Storage (FileStorageNotADirectoryError (pth q))) ∧ blocker (sview (rows s)) (ds ++ parts) q ∧ rows s' = rows s) ∨
     (out = inr tt ∧ table_ok (rows s') ∧ (∀ q, ¬ blocker (sview (rows s)) (ds ++ parts) q) ∧
      (∀ q, sview (rows s') q = mkdirs (ds ++ parts) (sview (rows s)) q) ∧
      ∃ new, rows s' = rows s ++ new ∧ ∀ r, r ∈ new → ∃ q, q `prefix_of` ds ++ parts ∧ Forall good q ∧ r_path r = pth q ∧
        r_parent r = _parent_path (pth q) ∧ sview (rows s) q = None)).
Proof.
  revert ds s. induction parts as [|k parts IH]; intros ds s Hl Hg Hds.
  { rewrite app_nil_r in *. exists (inr tt), s. split; [done|]. split; [done|]. right. split_and!; [done|done| | |].
    - intros q [Hq [b Hb]]. pose proof (view_prefix_dir _ _ _ Hl Hds Hq). congruence.
    - intros q. by rewrite mkdirs_there.
    - exists []. rewrite app_nil_r. split; [done|]. by intros r ?%elem_of_nil. }
  cbn [ensure_loop]. rewrite <- base_snoc. rewrite py_bind_eq. unfold select, gets.
  replace (ds ++ k :: parts) with ((ds ++ [k]) ++ parts) in * by (by rewrite <- app_assoc).
  assert (Hgk : Forall good (ds ++ [k])) by (by apply Forall_app in Hg as [? _]).
  assert (Hbase : base (ds ++ [k]) = pth (ds ++ [k])) by (by rewrite pth_ne; [|destruct ds]).
  destruct (by_path (base (ds ++ [k])) (rows s)) as [r|] eqn:Hr; rewrite Hbase in Hr.
  - destruct (row_cases _ _ _ Hl Hr Hgk) as [[(Ht & _) Hv]|[(Ht & _) Hv]].
    + rewrite Ht. cbn [raise_if negb]. rewrite py_bind_eq. cbn [mret py_ret]. destruct (IH (ds ++ [k]) s Hl Hg Hv) as (out & s' & Hrun & Hrest).
      exists out, s'. split; [exact Hrun|done].
    + rewrite Ht. rewrite bool_decide_eq_false_2 by done. cbn [raise_if negb]. rewrite py_bind_eq. cbn [raise]. eexists _, s. split; [done|]. split; [done|].
      left. exists (ds ++ [k]). rewrite Hbase. split; [done|]. split; [|done]. split; [|done]. by exists parts.
  - rewrite !py_bind_eq. unfold sql_now at 1. destruct (now_iso (db_host s)) as [now h] eqn:Hnow.
    set (s1 := {| rows := rows s; committed := committed s; db_host := h |}).
    apply sview_by_path in Hr; [|done]. rewrite Hbase. apply Forall_app in Hgk as Hgk'. destruct Hgk' as [Hgd Hgone].
    destruct (insert_spec (dir_row (pth (ds ++ [k])) k now (_parent_path (pth (ds ++ [k])))) ds k s1) as (Hins & Hl' & Hv'); try done.
    { cbn [r_parent dir_row]. apply parent_snoc; [done|]. by apply Forall_inv in Hgone. }
    { by left. }
    rewrite Hins. rewrite <- Hbase.
    set (s2 := {| rows := rows s1 ++ [dir_row (base (ds ++ [k])) k now (_parent_path (base (ds ++ [k])))]; committed := committed s1; db_host := db_host s1 |}).
    rewrite <- Hbase in Hl', Hv'. change (rows s1) with (rows s) in *.
    destruct (IH (ds ++ [k]) s2) as (out & s' & Hrun & Hcom & Hrest); [exact Hl'|exact Hg| |].
    { unfold s2. cbn [rows]. rewrite Hv'. by rewrite decide_True. }
    exists out, s'. split; [exact Hrun|]. split; [exact Hcom|]. unfold s2 in Hrest. cbn [rows committed] in Hrest.
    destruct Hrest as [(q & -> & [Hq [b Hb]] & Hrows)|(-> & Hok & Hno & Hview & new & Hnew & Hin)].
    + exfalso. rewrite Hv' in Hb. case_decide as Hqk; [done|]. destruct Hq as [e He].
      destruct (decide (q `prefix_of` ds)) as [Hqd|Hqd]; [pose proof (view_prefix_dir _ _ _ Hl Hds Hqd); congruence|].
      assert (∃ e', q = (ds ++ [k]) ++ e' ∧ e' ≠ []) as (e' & -> & He').
      { destruct (decide ((ds ++ [k]) `prefix_of` q)) as [[e' ->]|Hn].
        - exists e'. split; [done|]. intros ->. by rewrite app_nil_r in Hqk.
        - exfalso. destruct (prefix_weak_total q (ds ++ [k]) ((ds ++ [k]) ++ parts)) as [Hp|Hp]; [by exists e|by exists parts| |done].
          apply prefix_snoc_cases in Hp as [Hp|Hp]; [done|]. by apply Hqk. }
      assert (sview (rows s) (ds ++ [k]) = Some ADir) by (eapply sview_above; [done|exact He'|by eexists]). congruence.
    + right. split_and!; [done|done| | |].
      * intros q [Hq [b Hb]]. apply (Hno q). split; [done|]. exists b. rewrite Hv'. case_decide as Hqk; [congruence|done].
      * intros q. rewrite Hview. unfold mkdirs. rewrite Hv'. case_decide as Hqk; [|done]. subst q. rewrite Hr.
        rewrite bool_decide_eq_true_2; [done|]. by exists parts.
      * exists (dir_row (base (ds ++ [k])) k now (_parent_path (base (ds ++ [k]))) :: new). rewrite Hnew, <- app_assoc. split; [done|].
        intros r [->|Hrn]%elem_of_cons.
        -- exists (ds ++ [k]). rewrite <- Hbase. split_and!; [by exists parts|by apply Forall_app|done|done|done].
        -- destruct (Hin r Hrn) as (q & Hq & Hgq & Hpq & Hparq & Hvq). exists q. split_and!; [done|done|done|done|].
           rewrite Hv' in Hvq. by case_decide.
Qed.

(** ** Paths that are their own normal form *)

(** A segment that [strip] leaves alone at the end of a path *)
Definition neat (k : string) : Prop := ∀ c, last (chars k) = Some c → is_space c = false.

Lemma normalize_good ps parts : Forall good ps → normalize_loop parts ps = parts ++ ps.
Proof.
  intros Hps. revert parts. induction Hps as [|k ps (H1 & H2 & H3 & _) Hps IH]; intros parts; [by rewrite app_nil_r|].
  cbn [normalize_loop]. unfold is_empty. rewrite !bool_decide_eq_false_2 by done. cbn [orb]. by rewrite IH, <- app_assoc.
Qed.
Lemma good_chars k : good k → ∃ c l, chars k = c :: l ∧ c ≠ slash.
Proof.
  intros (Hk & _ & _ & Hs). destruct (chars k) as [|c l] eqn:Hc; [destruct Hk; by apply (inj String.list_ascii_of_string)|].
  exists c, l. split; [done|]. intros ->. apply Hs. by left.
Qed.
Lemma last_segments ds k : good k → last (path_chars (ds ++ [k])) = last (chars k).
Proof.
  intros (c & l & Hk & _)%good_chars. rewrite segments_app. unfold path_chars at 2. simpl. rewrite app_nil_r, last_app, last_cons, Hk.
  destruct (last (c :: l)) eqn:Hl; [done|]. by apply last_None in Hl.
Qed.

Lemma sql_parts_pth ps : Forall good ps → (∀ ds k, ps = ds ++ [k] → neat k) → sql_parts (pth ps) = ps.
Proof.
  intros Hps Hneat. destruct ps as [|k ds _] using rev_ind; [done|]. rewrite pth_ne by (by destruct ds). unfold sql_parts.
  apply Forall_app in Hps as Hps'. destruct Hps' as [_ Hk%Forall_inv].
  assert (strip (base (ds ++ [k])) = base (ds ++ [k])) as ->.
  { unfold strip. rewrite strip_chars_id; [apply str_chars| |]; intros c; rewrite chars_base.
    - destruct ds; simpl; intros [= <-]; done.
    - rewrite last_segments by done. by eapply Hneat. }
  assert (base (ds ++ [k]) = join "/" ("" :: ds ++ [k])) as ->.
  { rewrite <- join_base by (by destruct ds). by destruct ds. }
  rewrite (split_join slash); [|done|].
  - cbn [normalize_loop]. by rewrite normalize_good.
  - constructor; [by intros ?%elem_of_nil|]. eapply Forall_impl; [exact Hps|]. by intros w (_ & _ & _ & Hw).
Qed.

Lemma strip_base ps : Forall good ps → ps ≠ [] → split slash (strip_of slash (base ps)) = ps.
Proof.
  intros Hps Hne. rewrite <- (split_join slash ps) at 2; [|done|eapply Forall_impl; [exact Hps|]; by intros w (_ & _ & _ & Hw)].
  f_equal. rewrite <- join_base by done. unfold strip_of. rewrite chars_app. cbn [app].
  assert (Hends : ∀ c, head (chars (join "/" ps)) = Some c ∨ last (chars (join "/" ps)) = Some c → Ascii.eqb slash c = false).
  { intros c Hc. destruct (Ascii.eqb_spec slash c) as [<-|]; [|done]. exfalso. destruct Hc as [Hc|Hc].
    - destruct Hps as [|k ps Hk Hps]; [done|]. destruct (good_chars k Hk) as (d & l & Hkc & Hd). destruct ps as [|k' ps]; simpl in Hc.
      + rewrite Hkc in Hc. simpl in Hc. congruence.
      + rewrite chars_app, Hkc in Hc. simpl in Hc. congruence.
    - destruct ps as [|k ds _] using rev_ind; [done|]. apply Forall_app in Hps as [_ Hk%Forall_inv].
      pose proof (f_equal String.list_ascii_of_string (join_base (ds ++ [k]) Hne)) as Hj. rewrite chars_base, chars_app in Hj.
      apply (f_equal last) in Hj. rewrite last_segments in Hj by done. change (chars "/" ++ chars (join "/" (ds ++ [k]))) with (slash :: chars (join "/" (ds ++ [k]))) in Hj.
      rewrite last_cons, Hc in Hj.
      destruct Hk as (_ & _ & _ & Hk). apply Hk. symmetry in Hj. apply last_Some_elem_of in Hj. done. }
  change (strip_chars (Ascii.eqb slash) (chars "/" ++ chars (join "/" ps))) with (strip_chars (Ascii.eqb slash) (chars (join "/" ps))).
  rewrite strip_chars_id; [apply str_chars| |]; intros c Hc; apply Hends; auto.
Qed.

(** ** A database between two operations *)

Definition sql_ok (s : Db Host) : Prop := table_ok (rows s) ∧ committed s = rows s.

(** [ensure_parent], and [mkdir -p]: what they leave *)
Definition ensured (ds : list string) (s : Db Host) (x : (sql_exn + unit) * Db Host) : Prop :=
  sql_ok x.2 ∧
  ((∃ q, x.1 = inl (Storage (FileStorageNotADirectoryError (pth q))) ∧ blocker (sview (rows s)) ds q ∧ rows x.2 = rows s) ∨
   (x.1 = inr tt ∧ (∀ q, ¬ blocker (sview (rows s)) ds q) ∧ (∀ q, sview (rows x.2) q = mkdirs ds (sview (rows s)) q) ∧
    ∃ new, rows x.2 = rows s ++ new ∧ ∀ r, r ∈ new → ∃ q, q `prefix_of` ds ∧ Forall good q ∧ r_path r = pth q ∧
      r_parent r = _parent_path (pth q) ∧ sview (rows s) q = None)).

Lemma ensure_ancestors_spec ds s :
  sql_ok s → Forall good ds → Forall neat ds → ensured ds s (ensure_ancestors (pth ds) s).
Proof.
  intros [Hl Hc] Hg Hneat. unfold ensure_ancestors. rewrite normalize_parts.
  rewrite sql_parts_pth; [|done|]. 2: { intros ds' k ->. apply Forall_app in Hneat as [_ Hk]. by apply Forall_inv in Hk. }
  destruct (decide (ds = [])) as [->|Hne].
  { rewrite bool_decide_eq_true_2 by done. split; [done|]. right. split_and!; [done| | |].
    - intros q [Hq [b Hb]]. pose proof (view_prefix_dir _ _ _ Hl (sview_root _ Hl) Hq). congruence.
    - intros q. by rewrite mkdirs_there by (by try apply sview_root).
    - exists []. rewrite app_nil_r. split; [done|]. by intros r ?%elem_of_nil. }
  rewrite bool_decide_eq_false_2. 2: { intros Heq. by apply (pth_inj ds []) in Heq; [|done|constructor]. }
  rewrite pth_ne, strip_base by done. rewrite py_bind_eq.
  destruct (ensure_loop_spec ds [] s Hl) as (out & s' & Hrun & Hcom & Hrest); [done|by apply sview_root|]. change (base []) with "" in Hrun.
  rewrite Hrun. simpl in Hrest. destruct Hrest as [(q & -> & Hq & Hrows)|(-> & Hok & Hno & Hv & Hnew)].
  - split; [split; cbn [snd]; congruence|]. left. by exists q.
  - split; [by split|]. right. done.
Qed.
Lemma ensure_parent_spec ds k s :
  sql_ok s → Forall good (ds ++ [k]) → Forall neat ds → ensured ds s (ensure_parent (_parent_path (pth (ds ++ [k]))) s).
Proof.
  intros Hs Hg Hneat. apply Forall_app in Hg as [Hg Hk%Forall_inv]. rewrite parent_snoc by done. unfold ensure_parent.
  pose proof (ensure_ancestors_spec ds s Hs Hg Hneat) as Hens. destruct (decide (ds = [])) as [->|Hne]; [exact Hens|].
  assert (is_empty (pth ds) || bool_decide (pth ds = "/") = false) as ->; [|done]. apply orb_false_iff. split.
  - unfold is_empty. apply bool_decide_eq_false_2. rewrite pth_ne by done. intros Heq%(f_equal String.list_ascii_of_string).
    rewrite chars_base in Heq. by destruct ds.
  - apply bool_decide_eq_false_2. intros Heq. by apply (pth_inj ds []) in Heq; [|done|constructor].
Qed.

(** ** What the operations promise *)

Definition sql_text (c : content) : text := match c with Bytes b => decode b | Text t => t end.

(** On a storage that looks like [v] the operation raises an error or succeeds,
    and leaves a storage that looks like the last argument. *)
Inductive sql_spec (v : view_t) : fs_op → option fexn → view_t → Prop :=
| sq_write_root p c :
    sql_parts p = [] → sql_spec v (OWrite p c) (Some (FileStorageIsADirectoryError p)) v
| sq_write_text p c :
    sql_parts p ≠ [] → encode (sql_text c) = None → sql_spec v (OWrite p c) (Some UnicodeEncodeError) v
| sq_write_blocked p c q :
    sql_parts p ≠ [] → is_Some (encode (sql_text c)) → blocker v (dirs_of (sql_parts p)) q →
    sql_spec v (OWrite p c) (Some (FileStorageNotADirectoryError (pth q))) v
| sq_write_dir p c :
    sql_parts p ≠ [] → is_Some (encode (sql_text c)) → v (sql_parts p) = Some ADir →
    sql_spec v (OWrite p c) (Some (FileStorageIsADirectoryError p)) v
| sq_write p c b :
    sql_parts p ≠ [] → encode (sql_text c) = Some b → (∀ q, ¬ blocker v (dirs_of (sql_parts p)) q) → v (sql_parts p) ≠ Some ADir →
    sql_spec v (OWrite p c) None (graft (sql_parts p) (single (AFile b)) (mkdirs (dirs_of (sql_parts p)) v))
| sq_mkdir_root p rec :
    sql_parts p = [] → sql_spec v (OMkdir p rec) None v
| sq_mkdirs_blocked p q :
    sql_parts p ≠ [] → blocker v (sql_parts p) q → sql_spec v (OMkdir p true) (Some (FileStorageNotADirectoryError (pth q))) v
| sq_mkdirs p :
    sql_parts p ≠ [] → (∀ q, ¬ blocker v (sql_parts p) q) → sql_spec v (OMkdir p true) None (mkdirs (sql_parts p) v)
| sq_mkdir_missing p :
    sql_parts p ≠ [] → v (dirs_of (sql_parts p)) = None → sql_spec v (OMkdir p false) (Some (FileStorageNotFoundError p)) v
| sq_mkdir_in_file p b :
    sql_parts p ≠ [] → v (dirs_of (sql_parts p)) = Some (AFile b) →
    sql_spec v (OMkdir p false) (Some (FileStorageNotADirectoryError p)) v
| sq_mkdir_file p b :
    sql_parts p ≠ [] → v (dirs_of (sql_parts p)) = Some ADir → v (sql_parts p) = Some (AFile b) →
    sql_spec v (OMkdir p false) (Some (FileStorageExistsError p)) v
| sq_mkdir_there p :
    sql_parts p ≠ [] → v (dirs_of (sql_parts p)) = Some ADir → v (sql_parts p) = Some ADir → sql_spec v (OMkdir p false) None v
| sq_mkdir p :
    sql_parts p ≠ [] → v (dirs_of (sql_parts p)) = Some ADir → v (sql_parts p) = None →
    sql_spec v (OMkdir p false) None (graft (sql_parts p) (single ADir) v)
| sq_remove_root p rec :
    sql_parts p = [] → sql_spec v (ORemove p rec) (Some (FileStoragePermissionError p)) v
| sq_remove_missing p rec :
    sql_parts p ≠ [] → v (sql_parts p) = None → sql_spec v (ORemove p rec) (Some (FileStorageNotFoundError p)) v
| sq_remove_full p :
    sql_parts p ≠ [] → v (sql_parts p) = Some ADir → has_children v (sql_parts p) →
    sql_spec v (ORemove p false) (Some (FileStorageNotADirectoryError p)) v
| sq_remove p rec :
    sql_parts p ≠ [] → is_Some (v (sql_parts p)) → (rec = false → ¬ has_children v (sql_parts p)) →
    sql_spec v (ORemove p rec) None (cut (sql_parts p) v)
| sq_copy_to_root s d :
    sql_parts d = [] → sql_spec v (OCopy s d) (Some (FileStorageIsADirectoryError d)) v
| sq_copy_missing s d :
    sql_parts d ≠ [] → v (sql_parts s) = None → sql_spec v (OCopy s d) (Some (FileStorageNotFoundError s)) v
| sq_copy_blocked s d q :
    sql_parts d ≠ [] → is_Some (v (sql_parts s)) → blocker v (dirs_of (sql_parts d)) q →
    sql_spec v (OCopy s d) (Some (FileStorageNotADirectoryError (pth q))) v
| sq_copy s d :
    sql_parts d ≠ [] → is_Some (v (sql_parts s)) → (∀ q, ¬ blocker v (dirs_of (sql_parts d)) q) →
    sql_spec v (OCopy s d) None (copied (sql_parts s) (sql_parts d) v)
| sq_move_root s d :
    sql_parts s = [] → sql_spec v (OMove s d) (Some (FileStoragePermissionError s)) v
| sq_move_to_root s d :
    sql_parts s ≠ [] → sql_parts d = [] → sql_spec v (OMove s d) (Some (FileStorageIsADirectoryError d)) v
| sq_move_missing s d :
    sql_parts s ≠ [] → sql_parts d ≠ [] → v (sql_parts s) = None → sql_spec v (OMove s d) (Some (FileStorageNotFoundError s)) v
| sq_move_blocked s d q :
    sql_parts s ≠ [] → sql_parts d ≠ [] → is_Some (v (sql_parts s)) → blocker v (dirs_of (sql_parts d)) q →
    sql_spec v (OMove s d) (Some (FileStorageNotADirectoryError (pth q))) v
| sq_move s d :
    sql_parts s ≠ [] → sql_parts d ≠ [] → is_Some (v (sql_parts s)) → (∀ q, ¬ blocker v (dirs_of (sql_parts d)) q) →
    sql_spec v (OMove s d) None (cut (sql_parts s) (copied (sql_parts s) (sql_parts d) v)).

Definition outcome (r : sql_exn + unit) (e : option fexn) : Prop :=
  match r with inr _ => e = None | inl x => ∃ f, x = Storage f ∧ e = Some f end.
Definition does (o : fs_op) (s : Db Host) (x : (sql_exn + unit) * Db Host) : Prop :=
  sql_ok x.2 ∧ ∃ e w, sql_spec (sview (rows s)) o e w ∧ outcome x.1 e ∧ ∀ q, sview (rows x.2) q = w q.

Lemma does_raise o s s' e :
  sql_ok s' → (∀ q, sview (rows s') q = sview (rows s) q) → sql_spec (sview (rows s)) o (Some e) (sview (rows s)) →
  does o s (inl (Storage e), s').
Proof. intros Hs Hv Hspec. split; [done|]. exists (Some e), (sview (rows s)). split_and!; [done|by eexists|done]. Qed.
Lemma does_end o s s' w :
  sql_ok s' → sql_spec (sview (rows s)) o None w → (∀ q, sview (rows s') q = w q) → does o s (inr tt, s').
Proof. intros Hs Hspec Hv. split; [done|]. by exists None, w. Qed.

(** Writing and creating *)
Lemma graft_single p e v q : (∀ r, r ≠ [] → v (p ++ r) = None) → graft p (single e) v q = if decide (q = p) then Some e else v q.
Proof.
  intros Hnone. unfold graft. destruct (below p q) as [r|] eqn:Hq.
  - apply below_spec in Hq as ->. destruct r as [|k r]; [rewrite app_nil_r; by rewrite decide_True|].
    rewrite decide_False; [|intros Heq; apply (f_equal length) in Heq; rewrite length_app in Heq; simpl in Heq; lia]. simpl. by rewrite Hnone.
  - rewrite decide_False; [done|]. intros ->. by rewrite <- (app_nil_r p) in Hq at 2; rewrite below_app in Hq.
Qed.
Lemma leaf_below l p r : table_ok l → sview l p ≠ Some ADir → r ≠ [] → sview l (p ++ r) = None.
Proof. intros Hl Hp Hr. destruct (sview l (p ++ r)) eqn:Hv; [|done]. destruct Hp. eapply sview_above; [done|exact Hr|by eexists]. Qed.
Lemma mkdirs_at_end ds k v : mkdirs ds v (ds ++ [k]) = v (ds ++ [k]).
Proof.
  unfold mkdirs. destruct (v (ds ++ [k])); [done|]. rewrite bool_decide_eq_false_2; [done|]. intros H%prefix_length.
  rewrite length_app in H. simpl in H. lia.
Qed.
Lemma mkdirs_end l ds : table_ok l → (∀ q, ¬ blocker (sview l) ds q) → mkdirs ds (sview l) ds = Some ADir.
Proof.
  intros Hl Hno. unfold mkdirs. destruct (sview l ds) as [[b|]|] eqn:Hv; [|done|by rewrite bool_decide_eq_true_2].
  destruct (Hno ds). split; [done|]. by exists b.
Qed.
Lemma parts_split p : sql_parts p ≠ [] → ∃ ds k, sql_parts p = ds ++ [k] ∧ dirs_of (sql_parts p) = ds ∧ Forall good (ds ++ [k]) ∧ good k.
Proof.
  intros Hne. pose proof (sql_parts_good p) as Hg. destruct (sql_parts p) as [|k ds _] using rev_ind; [done|]. exists ds, k.
  unfold dirs_of. rewrite removelast_last. split_and!; [done|done|done|]. apply Forall_app in Hg as [_ Hk]. by apply Forall_inv in Hk.
Qed.

Lemma norm_ne p ds k : sql_parts p = ds ++ [k] → bool_decide (sql_normalize p = "/") = false.
Proof. intros Hp. rewrite normalize_root, Hp. apply bool_decide_eq_false_2. by destruct ds. Qed.

Lemma new_row_view ds r e w w' q :
  (∀ q, w q = sview r q) → table_ok r → sview r ds ≠ Some ADir → (∀ q, w' q = if decide (q = ds) then Some e else w q) →
  w' q = graft ds (single e) w q.
Proof.
  intros Hw Hl Hds Hw'. rewrite graft_single; [apply Hw'|]. intros x Hx. rewrite Hw. by apply leaf_below.
Qed.

Lemma write_does p c s : sql_ok s → Forall neat (sql_parts p) → does (OWrite p c) s (sql_write_file p c s).
Proof.
  intros Hs Hneat. unfold sql_write_file. destruct (decide (sql_parts p = [])) as [Hroot|Hne].
  { rewrite normalize_root, bool_decide_eq_true_2 by done. apply does_raise; [done|done|by constructor]. }
  destruct (parts_split p Hne) as (ds & k & Hp & Hdirs & Hg & Hk). rewrite (norm_ne p ds k Hp).
  apply Forall_app in Hg as Hg'. destruct Hg' as [Hgd _]. rewrite Hp in Hneat. apply Forall_app in Hneat as [Hneat _].
  rewrite normalize_parts, Hp. cbv zeta. fold (sql_text c). rewrite py_bind_eq. unfold sql_encode. destruct (encode (sql_text c)) as [b|] eqn:Henc.
  2: { apply does_raise; [done|done|]. by apply sq_write_text. }
  cbn [mret py_ret]. rewrite py_bind_eq. unfold sql_now at 1. destruct (now_iso (db_host s)) as [now h].
  set (s0 := {| rows := rows s; committed := committed s; db_host := h |}). rewrite py_bind_eq.
  assert (Hs0 : sql_ok s0) by done. pose proof (ensure_parent_spec ds k s0 Hs0 Hg Hneat) as Hens.
  destruct (ensure_parent (_parent_path (pth (ds ++ [k]))) s0) as [out s1]. destruct Hens as [[Hl1 Hc1] Hout]. cbn [fst snd] in *.
  change (rows s0) with (rows s) in *. destruct Hout as [(q & -> & Hq & Hrows)|(-> & Hno & Hv & _)].
  { apply does_raise; [by split|by rewrite Hrows|]. apply sq_write_blocked; [done|by eexists|by rewrite Hdirs]. }
  destruct Hs as [Hl Hc]. rewrite py_bind_eq. unfold select, gets. rewrite py_bind_eq.
  assert (Hspec : sview (rows s) (ds ++ [k]) ≠ Some ADir →
    sql_spec (sview (rows s)) (OWrite p c) None (graft (ds ++ [k]) (single (AFile b)) (mkdirs ds (sview (rows s))))).
  { intros Hnd. pose proof (sq_write (sview (rows s)) p c b Hne Henc) as Hw. rewrite Hdirs, Hp in Hw. by apply Hw. }
  destruct (by_path (pth (ds ++ [k])) (rows s1)) as [r|] eqn:Hr.
  - destruct (row_cases _ _ _ Hl1 Hr Hg) as [[(Ht & _) Hd]|[Hf [b' Hd]]].
    + rewrite Ht. cbn [fail]. rewrite Hv, mkdirs_at_end in Hd. apply does_raise; [by split| |].
      * intros q. rewrite Hv. apply mkdirs_there; [done|]. by eapply sview_parent; [done|eexists].
      * apply sq_write_dir; [done|by eexists|by rewrite Hp].
    + destruct (Hf) as (Ht & _). rewrite bool_decide_eq_false_2 by (by rewrite Ht). unfold update, set_rows, modify, commit, modify. cbv beta iota.
      assert (Hd' : sview (rows s) (ds ++ [k]) = Some (AFile b')) by (by rewrite <- Hd, Hv, mkdirs_at_end).
      change (λ r, if bool_decide (r_path r = pth (ds ++ [k])) then _ else r) with (write_row (pth (ds ++ [k])) (sql_text c) (Z.of_nat (length b)) now).
      apply (does_end _ _ _ (graft (ds ++ [k]) (single (AFile b)) (mkdirs ds (sview (rows s))))).
      * split; [|done]. cbn [rows]. apply (table_write _ _ _ _ _ b); [done| |done|done]. intros r' Hr' Hpr'.
        apply (table_by_path _ _ Hl1) in Hr'. rewrite Hpr', Hr in Hr'. by injection Hr' as <-.
      * apply Hspec. congruence.
      * intros q. cbn [rows]. apply (new_row_view _ (rows s1)); [done|done|congruence|]. intros x.
        rewrite (sview_write _ _ _ _ _ b) by (done || by exists r). case_decide; [done|apply Hv].
  - pose proof (proj1 (sview_by_path _ _ Hg) Hr) as Hnone.
    assert (Hnone' : sview (rows s) (ds ++ [k]) = None) by (by rewrite <- Hnone, Hv, mkdirs_at_end).
    destruct (insert_spec {| r_path := pth (ds ++ [k]); r_name := last_segment (pth (ds ++ [k])); r_type := "file"; r_content := Some (sql_text c);
        r_size := Z.of_nat (length b); r_permissions := "-rw-r--r--"; r_created := now; r_modified := now;
        r_parent := _parent_path (pth (ds ++ [k])) |} ds k s1) as (Hins & Hok & Hv'); try done.
    { by apply last_segment_snoc. }
    { by apply parent_snoc. }
    { right. split; [done|]. by exists (sql_text c), b. }
    { rewrite Hv. by apply mkdirs_end. }
    rewrite Hins. cbn [commit modify]. apply (does_end _ _ _ (graft (ds ++ [k]) (single (AFile b)) (mkdirs ds (sview (rows s))))).
    + by split.
    + apply Hspec. congruence.
    + intros q. cbn [rows]. apply (new_row_view _ (rows s1)); [done|done|congruence|]. intros x. rewrite Hv'.
      case_decide; [|apply Hv]. unfold row_entry_kind. cbn [r_type r_content]. simpl. by rewrite Henc.
Qed.

Lemma mkdir_does p rec s : sql_ok s → Forall neat (sql_parts p) → does (OMkdir p rec) s (sql_mkdir p rec s).
Proof.
  intros Hs Hneat. unfold sql_mkdir. destruct (decide (sql_parts p = [])) as [Hroot|Hne].
  { rewrite normalize_root, bool_decide_eq_true_2 by done. apply (does_end _ _ _ (sview (rows s))); [done|by constructor|done]. }
  destruct (parts_split p Hne) as (ds & k & Hp & Hdirs & Hg & Hk). rewrite (norm_ne p ds k Hp).
  apply Forall_app in Hg as Hg'. destruct Hg' as [Hgd _]. destruct rec.
  { rewrite normalize_parts. pose proof (ensure_ancestors_spec (sql_parts p) s Hs (sql_parts_good p) Hneat) as Hens.
    destruct (ensure_ancestors (pth (sql_parts p)) s) as [out s1]. destruct Hens as [Hok Hout]. cbn [fst snd] in *.
    destruct Hout as [(q & -> & Hq & Hrows)|(-> & Hno & Hv & _)].
    - apply does_raise; [done|by rewrite Hrows|by apply sq_mkdirs_blocked].
    - apply (does_end _ _ _ (mkdirs (sql_parts p) (sview (rows s)))); [done|by apply sq_mkdirs|done]. }
  destruct Hs as [Hl Hc]. rewrite normalize_parts, Hp. cbv zeta. rewrite parent_snoc by done.
  assert (is_empty (pth ds) = false) as ->.
  { unfold is_empty. apply bool_decide_eq_false_2. unfold pth. case_decide; [done|]. intros Heq%(f_equal String.list_ascii_of_string).
    rewrite chars_base in Heq. by destruct ds. }
  rewrite py_bind_eq. unfold select, gets. rewrite py_bind_eq.
  destruct (by_path (pth ds) (rows s)) as [r|] eqn:Hr.
  2: { apply does_raise; [done|done|]. apply sq_mkdir_missing; [done|]. rewrite Hdirs. by apply sview_by_path. }
  destruct (row_cases _ _ _ Hl Hr Hgd) as [[(Ht & _) Hd]|[(Ht & _) [b Hd]]]; rewrite Ht.
  2: { rewrite bool_decide_eq_false_2 by done. cbn [negb raise_if raise]. apply does_raise; [done|done|].
       apply (sq_mkdir_in_file _ _ b); [done|by rewrite Hdirs]. }
  change (raise_if (negb (bool_decide ("directory" = "directory"))) (Storage (FileStorageNotADirectoryError p)) s)
    with ((inr tt, s) : (sql_exn + unit) * Db Host).
  cbv beta iota. rewrite py_bind_eq. destruct (by_path (pth (ds ++ [k])) (rows s)) as [r'|] eqn:Hr'.
  - destruct (row_cases _ _ _ Hl Hr' Hg) as [[(Ht' & _) Hd']|[(Ht' & _) [b Hd']]]; rewrite Ht'.
    + apply (does_end _ _ _ (sview (rows s))); [done| |done]. apply sq_mkdir_there; [done|by rewrite Hdirs|by rewrite Hp].
    + rewrite bool_decide_eq_false_2 by done. apply does_raise; [done|done|]. apply (sq_mkdir_file _ _ b); [done|by rewrite Hdirs|by rewrite Hp].
  - pose proof (proj1 (sview_by_path _ _ Hg) Hr') as Hnone. rewrite py_bind_eq. unfold sql_now at 1. destruct (now_iso (db_host s)) as [now h].
    set (s0 := {| rows := rows s; committed := committed s; db_host := h |}). rewrite py_bind_eq.
    destruct (insert_spec (dir_row (pth (ds ++ [k])) (last_segment (pth (ds ++ [k]))) now (Some (pth ds))) ds k s0) as (Hins & Hok & Hv'); try done.
    { by apply last_segment_snoc. }
    { by left. }
    rewrite Hins. cbn [commit modify]. change (rows s0) with (rows s) in *.
    apply (does_end _ _ _ (graft (ds ++ [k]) (single ADir) (sview (rows s)))).
    + by split.
    + pose proof (sq_mkdir (sview (rows s)) p Hne) as Hw. rewrite Hdirs, Hp in Hw. by apply Hw.
    + intros q. cbn [rows]. apply (new_row_view _ (rows s)); [done|done|congruence|exact Hv'].
Qed.

(** ** Removing *)

Lemma select_children_spec l ps : table_ok l → Forall good ps →
  match List.filter (λ r, bool_decide (r_parent r = Some (pth ps))) l with
  | [] => ¬ has_children (sview l) ps
  | _ :: _ => has_children (sview l) ps
  end.
Proof.
  intros Hl Hg. destruct (List.filter _ l) as [|r rest] eqn:Hf.
  - intros [k [e Hk]]. destruct (sview_some _ _ _ Hk) as (r & _ & Hr & Hp & _). apply sview_good in Hk.
    destruct (table_row l r Hl Hr) as [(Hp' & _)|(ds' & k' & d & Hg' & Hp' & _ & Hpa & _)].
    + rewrite Hp in Hp'. apply (pth_inj _ []) in Hp'; [by destruct ps|done|constructor].
    + rewrite Hp in Hp'. apply pth_inj in Hp'; [|done|done]. apply app_inj_tail in Hp' as [-> ->].
      assert (Hin : In r (List.filter (λ r, bool_decide (r_parent r = Some (pth ds'))) l)); [|by rewrite Hf in Hin].
      apply filter_In. split; [by apply list_elem_of_In|by apply bool_decide_eq_true_2].
  - assert (Hin : In r (List.filter (λ r, bool_decide (r_parent r = Some (pth ps))) l)) by (rewrite Hf; by left).
    apply filter_In in Hin as [Hin%list_elem_of_In Hpa%bool_decide_eq_true].
    destruct (table_row l r Hl Hin) as [(_ & Hpa' & _)|(ds & k & d & Hg' & Hp & _ & Hpa' & _ & Hd & Hdp & _)]; [congruence|].
    rewrite Hpa in Hpa'. injection Hpa' as Hpa'. apply Forall_app in Hg' as Hgs. destruct Hgs as [Hgds _].
    apply pth_inj in Hpa' as <-; [|done|done]. exists k. unfold sview. rewrite decide_True, <- Hp, table_by_path by done. by eexists.
Qed.

(** No other path of the table looks to [LIKE] as if it were below [ps]. *)
Definition exact (l : list Row) (ps : list string) : Prop :=
  ∀ r, r ∈ l → like_below (pth ps) (r_path r) = true → starts_with (r_path r) (pth ps +:+ "/") = true.

Lemma below_base ps q : Forall good ps → Forall good q → ps ≠ [] → starts_with (pth q) (pth ps +:+ "/") = true →
  ∃ rel, q = ps ++ rel ∧ rel ≠ [].
Proof.
  intros Hps Hq Hne Hst. apply starts_with_spec in Hst as [t Ht]. rewrite (pth_ne ps) in Ht by done.
  destruct (decide (q = [])) as [->|Hnq].
  { exfalso. apply (f_equal String.list_ascii_of_string) in Ht. rewrite !chars_app, chars_base in Ht.
    destruct ps as [|k ps]; [done|]. unfold path_chars in Ht. simpl in Ht. injection Ht as Ht. by destruct (chars k), (concat (map (λ k, slash :: chars k) ps)). }
  rewrite pth_ne in Ht by done. apply (f_equal String.list_ascii_of_string) in Ht. rewrite !chars_app, !chars_base, <- app_assoc in Ht.
  apply segments_prefix in Ht as (rel & -> & Hrel); [|done|done|right; by eexists]. exists rel. split; [done|]. by intros ->.
Qed.
Lemma exact_below l ps q e : exact l ps → Forall good ps → ps ≠ [] → sview l q = Some e →
  like_below (pth ps) (pth q) = true ↔ ∃ rel, q = ps ++ rel ∧ rel ≠ [].
Proof.
  intros Hex Hps Hne Hq. pose proof (sview_good _ _ _ Hq) as Hgq. destruct (sview_some _ _ _ Hq) as (r & _ & Hr & Hp & _). split.
  - intros Hlike. apply below_base; [done|done|done|]. rewrite <- Hp. apply Hex; [done|by rewrite Hp].
  - intros (rel & -> & Hrel). by apply like_below_self.
Qed.

Definition below_kp (ps : list string) (p : string) : bool := negb (bool_decide (p = pth ps) || like_below (pth ps) p).

Lemma pth_snoc_like ps ds k : ps ≠ [] → like_below (pth ps) (pth ds) = true → like_below (pth ps) (pth (ds ++ [k])) = true.
Proof.
  intros Hne Hl. destruct (decide (ds = [])) as [->|Hds]; [by rewrite like_below_root in Hl|].
  rewrite (pth_ne (ds ++ [k])), base_app, <- (pth_ne ds) by (by destruct ds). by apply like_below_more.
Qed.

(** Deleting what [LIKE] finds below a path leaves a tree, whatever it finds. *)
Lemma delete_below_ok ps l : table_ok l → Forall good ps → ps ≠ [] → table_ok (List.filter (λ r, below_kp ps (r_path r)) l).
Proof.
  intros Hl Hg Hne. apply (table_filter (below_kp ps)); [done| |].
  - unfold below_kp. apply negb_true_iff, orb_false_iff. split; [|by apply like_below_root]. apply bool_decide_eq_false_2.
    intros Heq. by apply (pth_inj [] ps) in Heq; [|constructor|].
  - intros ds k Hgk _. unfold below_kp. rewrite !negb_true_iff, !orb_false_iff. intros [Hn Hlike]. apply Forall_app in Hgk as [Hgd _]. split.
    + apply bool_decide_eq_false_2. intros ->%pth_inj; [|done|done]. rewrite like_below_self in Hlike; done.
    + destruct (like_below (pth ps) (pth ds)) eqn:Hd; [|done]. by rewrite (pth_snoc_like ps ds k Hne Hd) in Hlike.
Qed.
Lemma delete_below_view ps l q : exact l ps → Forall good ps → ps ≠ [] →
  sview (List.filter (λ r, below_kp ps (r_path r)) l) q = cut ps (sview l) q.
Proof.
  intros Hex Hg Hne. rewrite (sview_filter (below_kp ps)). unfold cut, graft. destruct (sview l q) as [e|] eqn:Hq.
  - pose proof (exact_below l ps q e Hex Hg Hne Hq) as Hbelow. pose proof (sview_good _ _ _ Hq) as Hgq. unfold below_kp.
    destruct (below ps q) as [rel|] eqn:Hrel.
    + apply below_spec in Hrel as ->. destruct (decide (rel = [])) as [->|Hr].
      * rewrite app_nil_r. by rewrite bool_decide_eq_true_2.
      * rewrite like_below_self by done. by rewrite orb_true_r.
    + rewrite bool_decide_eq_false_2. 2: { intros ->%pth_inj; [|done|done]. by rewrite <- (app_nil_r ps) in Hrel at 2; rewrite below_app in Hrel. }
      destruct (like_below (pth ps) (pth q)) eqn:Hlike; [|done]. destruct (proj1 Hbelow eq_refl) as (rel & -> & _). by rewrite below_app in Hrel.
  - destruct (below_kp ps (pth q)), (below ps q); done.
Qed.

Lemma delete_below_eq ps (s : Db Host) : delete_below (pth ps) s =
  (inr tt, {| rows := List.filter (λ r, below_kp ps (r_path r)) (rows s); committed := committed s; db_host := db_host s |}).
Proof. done. Qed.
Lemma delete_path_eq p (s : Db Host) : delete_path p s =
  (inr tt, {| rows := List.filter (λ r, negb (bool_decide (r_path r = p))) (rows s); committed := committed s; db_host := db_host s |}).
Proof. done. Qed.
Lemma delete_path_absent p l : by_path p l = None → List.filter (λ r, negb (bool_decide (r_path r = p))) l = l.
Proof.
  intros Hnone. pose proof (by_path_none _ _ Hnone) as Hno. induction l as [|x l IH]; [done|]. cbn [List.filter].
  rewrite bool_decide_eq_false_2 by (apply Hno; by left). cbn [negb]. f_equal. apply IH.
  - unfold by_path in *. cbn [List.find] in Hnone. by destruct (bool_decide (r_path x = p)).
  - intros r Hr. apply Hno. by right.
Qed.

(** Deleting the row of a path without children *)
Lemma delete_leaf l ds k : table_ok l → Forall good (ds ++ [k]) → ¬ has_children (sview l) (ds ++ [k]) →
  table_ok (List.filter (λ r, negb (bool_decide (r_path r = pth (ds ++ [k])))) l) ∧
  ∀ q, sview (List.filter (λ r, negb (bool_decide (r_path r = pth (ds ++ [k])))) l) q = if decide (q = ds ++ [k]) then None else sview l q.
Proof.
  intros Hl Hg Hno. set (kp := λ p : string, negb (bool_decide (p = pth (ds ++ [k])))).
  change (List.filter _ l) with (List.filter (λ r, kp (r_path r)) l). split.
  - apply (table_filter kp); [done| |]; unfold kp.
    + apply negb_true_iff, bool_decide_eq_false_2. intros Heq. apply (pth_inj [] (ds ++ [k])) in Heq; [by destruct ds|constructor|done].
    + intros ds' k' Hg' [x Hx] _. apply negb_true_iff, bool_decide_eq_false_2. apply Forall_app in Hg' as Hgs. destruct Hgs as [Hgd _].
      intros ->%pth_inj; [|done|done]. apply Hno. exists k'. unfold sview. rewrite decide_True, Hx by done. by eexists.
  - intros q. rewrite (sview_filter kp). unfold kp. destruct (sview l q) as [e|] eqn:Hq.
    + case_decide as Hd; [subst q; by rewrite bool_decide_eq_true_2|]. rewrite bool_decide_eq_false_2; [done|]. intros Heq. apply Hd.
      apply pth_inj in Heq; [done|by eapply sview_good|done].
    + case_decide; by destruct (negb _).
Qed.
Lemma childless_cut l p q : table_ok l → ¬ has_children (sview l) p → cut p (sview l) q = if decide (q = p) then None else sview l q.
Proof.
  intros Hl Hno. unfold cut, graft. destruct (below p q) as [r|] eqn:Hq.
  - apply below_spec in Hq as ->. destruct r as [|k r]; [rewrite app_nil_r; by rewrite decide_True|].
    case_decide; [done|]. destruct (sview l (p ++ k :: r)) eqn:Hv; [|done]. exfalso. apply Hno. exists k. destruct r as [|k' r]; [by eexists|].
    replace (p ++ k :: k' :: r) with ((p ++ [k]) ++ k' :: r) in Hv by (by rewrite <- app_assoc). exists ADir.
    eapply sview_above; [done| |by eexists]. done.
  - rewrite decide_False; [done|]. intros ->. by rewrite <- (app_nil_r p) in Hq at 2; rewrite below_app in Hq.
Qed.

Lemma remove_does p rec s : sql_ok s → (rec = true → exact (rows s) (sql_parts p)) → does (ORemove p rec) s (sql_remove p rec s).
Proof.
  intros Hs Hex. unfold sql_remove. destruct (decide (sql_parts p = [])) as [Hroot|Hne].
  { rewrite normalize_root, bool_decide_eq_true_2 by done. apply does_raise; [done|done|by constructor]. }
  destruct (parts_split p Hne) as (ds & k & Hp & Hdirs & Hg & Hk). rewrite (norm_ne p ds k Hp). destruct Hs as [Hl Hc].
  rewrite normalize_parts. cbv zeta. rewrite py_bind_eq. unfold select, gets. rewrite Hp.
  destruct (by_path (pth (ds ++ [k])) (rows s)) as [r|] eqn:Hr.
  2: { apply does_raise; [done|done|]. apply sq_remove_missing; [done|]. rewrite Hp. by apply sview_by_path. }
  assert (Hv : is_Some (sview (rows s) (ds ++ [k]))) by (destruct (row_cases _ _ _ Hl Hr Hg) as [[_ ->]|[_ [b ->]]]; by eexists).
  rewrite py_bind_eq. destruct rec.
  - rewrite andb_false_r. cbn [mret py_ret]. rewrite py_bind_eq, delete_below_eq. cbn [commit modify].
    apply (does_end _ _ _ (cut (ds ++ [k]) (sview (rows s)))).
    + split; [|done]. cbn [rows]. apply delete_below_ok; [done|done|by destruct ds].
    + pose proof (sq_remove (sview (rows s)) p true Hne) as Hw. rewrite Hp in Hw. by apply Hw.
    + intros q. cbn [rows]. apply delete_below_view; [rewrite <- Hp; by apply Hex|done|by destruct ds].
  - assert (Hend : ¬ has_children (sview (rows s)) (ds ++ [k]) →
      does (ORemove p false) s ((_ ← delete_path (pth (ds ++ [k])); commit) s)).
    { intros Hno. rewrite py_bind_eq, delete_path_eq. cbn [commit modify]. destruct (delete_leaf (rows s) ds k Hl Hg Hno) as [Hok Hview].
      apply (does_end _ _ _ (cut (ds ++ [k]) (sview (rows s)))); [by split| |].
      - pose proof (sq_remove (sview (rows s)) p false Hne) as Hw. rewrite Hp in Hw. by apply Hw.
      - intros q. cbn [rows]. rewrite Hview. by rewrite childless_cut. }
    rewrite andb_true_r. destruct (row_cases _ _ _ Hl Hr Hg) as [[(Ht & _) Hd]|[(Ht & _) [b Hd]]]; rewrite Ht.
    + rewrite bool_decide_eq_true_2 by done. rewrite py_bind_eq. unfold select_children, gets.
      pose proof (select_children_spec (rows s) (ds ++ [k]) Hl Hg) as Hch.
      destruct (List.filter (λ r, bool_decide (r_parent r = Some (pth (ds ++ [k])))) (rows s)) as [|c cs] eqn:Hcs.
      * by apply Hend.
      * rewrite bool_decide_eq_false_2 by done. cbn [negb raise_if raise]. apply does_raise; [done|done|].
        apply sq_remove_full; [done|by rewrite Hp|by rewrite Hp].
    + rewrite bool_decide_eq_false_2 by done. apply Hend. intros [x Hx]. apply sview_parent in Hx; [|done]. congruence.
Qed.

(** ** Copying *)

Lemma table_inv l : table_ok l →
  (∃ r, l = [r] ∧ r_path r = "/") ∨
  ∃ l' ds k r d, l = l' ++ [r] ∧ table_ok l' ∧ Forall good (ds ++ [k]) ∧ r_path r = pth (ds ++ [k]) ∧ by_path (r_path r) l' = None ∧
    r_name r = k ∧ r_parent r = Some (pth ds) ∧ (dir_kind r ∨ file_kind r) ∧ d ∈ l' ∧ r_path d = pth ds ∧ dir_kind d.
Proof.
  intros [r Hp Hn Hpa Hk|l' ds k r d Hl Hg Hp Hf Hn Hpa Hk Hd Hdp Hdk]; [left; by exists r|]. right. by exists l', ds, k, r, d.
Qed.
Lemma table_nonempty l : table_ok l → l ≠ [].
Proof. intros [(r & -> & _)|(l' & ds & k & r & d & -> & _)]%table_inv; [done|by destruct l']. Qed.
Lemma table_take a b : table_ok (a ++ b) → a ≠ [] → table_ok a.
Proof.
  induction b as [|y b IH] using rev_ind; [by rewrite app_nil_r|]. intros H Ha. apply IH; [|done]. rewrite app_assoc in H.
  destruct (table_inv _ H) as [(r & Heq & _)|(l & ds & k & r & d & Heq & Hl & _)].
  - destruct a as [|x a]; [done|]. destruct a; [|done]. by destruct b.
  - apply app_inj_tail in Heq as [<- _]. done.
Qed.
Lemma table_last l x : table_ok (l ++ [x]) → l ≠ [] →
  ∃ ds k d, Forall good (ds ++ [k]) ∧ r_path x = pth (ds ++ [k]) ∧ by_path (r_path x) l = None ∧ r_name x = k ∧ r_parent x = Some (pth ds) ∧
    (dir_kind x ∨ file_kind x) ∧ d ∈ l ∧ r_path d = pth ds ∧ dir_kind d.
Proof.
  intros H Hl. destruct (table_inv _ H) as [(r & Heq & _)|(l' & ds & k & r & d & Heq & _ & Hrest)].
  - destruct l as [|y l]; [done|]. by destruct l.
  - apply app_inj_tail in Heq as [<- <-]. by exists ds, k, d.
Qed.
Lemma for_each_app {A} (f : A → method unit) a b s :
  for_each f (a ++ b) s = match for_each f a s with (inl e, s') => (inl e, s') | (inr _, s') => for_each f b s' end.
Proof.
  revert s. induction a as [|x a IH]; intros s; [done|]. cbn [app for_each]. rewrite !py_bind_eq. destruct (f x s) as [[e|u] s']; [done|apply IH].
Qed.

Lemma copy_kind p n now pa r : row_entry_kind (copy_row p n now pa r) = row_entry_kind r.
Proof. done. Qed.

(** No path at or below [d] looks as if it were below [src]. *)
Definition apart (src d : list string) : Prop := ∀ rel, like_below (pth src) (pth (d ++ rel)) = false.

Section CopyLoop.
Context (src d : list string) (now : string) (l3 : list Row).
Hypothesis (Hl3 : table_ok l3) (Hsrc : Forall good src) (Hne : src ≠ []) (Hd : Forall good d) (Hdne : d ≠ []).
Hypothesis (Hlike : ∀ x, x ∈ l3 → like_below (pth src) (r_path x) = true → ∃ rel, r_path x = pth (src ++ rel) ∧ rel ≠ [] ∧ Forall good (src ++ rel)).
Hypothesis (Hdir : sview l3 d = Some ADir) (Hleaf : ∀ r, r ≠ [] → sview l3 (d ++ r) = None).

Definition copied_so_far (pre : list Row) : view_t := λ q,
  match below d q with Some (k :: rel) => sview pre (src ++ k :: rel) | _ => sview l3 q end.

Lemma copied_path rel : rel ≠ [] → pth d +:+ drop_str (len (pth src)) (pth (src ++ rel)) = pth (d ++ rel).
Proof.
  intros Hrel. rewrite (pth_ne d), (pth_ne src) by done. rewrite (pth_ne (src ++ rel)) by (by destruct src).
  rewrite (pth_ne (d ++ rel)) by (by destruct d). rewrite !base_app. f_equal. unfold drop_str.
  rewrite len_chars, chars_app, drop_app_length. apply str_chars.
Qed.

Lemma copy_loop pre post (s : Db Host) : l3 = pre ++ post → rows s = l3 →
  ∃ s', for_each (copy_below (pth src) (pth d) now) (List.filter (λ r, like_below (pth src) (r_path r)) pre) s = (inr tt, s') ∧
    committed s' = committed s ∧ table_ok (rows s') ∧ ∀ q, sview (rows s') q = copied_so_far pre q.
Proof.
  intros Hpre Hs. revert post Hpre. induction pre as [|x pre IH] using rev_ind; intros post Hpre.
  { exists s. split_and!; [done|done|by rewrite Hs|]. intros q. rewrite Hs. unfold copied_so_far.
    destruct (below d q) as [[|k rel]|] eqn:Hq; [done| |done]. apply below_spec in Hq as ->. rewrite Hleaf by done.
    unfold sview. by case_decide. }
  rewrite <- app_assoc in Hpre. simpl in Hpre. destruct (IH _ Hpre) as (s1 & Hrun & Hcom & Hok & Hview). rewrite List.filter_app, for_each_app, Hrun.
  cbn [List.filter]. assert (Htab : table_ok (pre ++ [x])).
  { apply (table_take _ post); [by rewrite <- app_assoc; simpl; rewrite <- Hpre|by destruct pre]. }
  destruct (decide (pre = [])) as [->|Hpne].
  { destruct (table_inv _ Htab) as [(r & [= ->] & Hp)|(l & ds & k & r & dd & Heq & Hl & _)].
    2: { pose proof (table_nonempty _ Hl). destruct l; [done|]. by destruct l. }
    rewrite Hp, like_below_root by done. exists s1. split_and!; [done|done|done|]. intros q. rewrite Hview. unfold copied_so_far.
    destruct (below d q) as [[|k rel]|]; [done| |done]. unfold sview. case_decide as Hg; [|done]. cbn [app]. rewrite by_path_one, decide_False; [done|].
    rewrite Hp. intros Heq%(pth_inj []); [by destruct src|constructor|done]. }
  assert (Htpre : table_ok pre) by (by apply (table_take pre [x])).
  destruct (table_last _ _ Htab Hpne) as (ds & k & dd & Hg & Hp & Hfresh & Hn & Hpa & Hk & Hdd & Hddp & Hddk).
  assert (Hsnoc := λ q, sview_snoc pre x (ds ++ [k]) q Hg Hp Hfresh).
  destruct (like_below (pth src) (r_path x)) eqn:Hx.
  2: { exists s1. split_and!; [done|done|done|]. intros q. rewrite Hview. unfold copied_so_far.
       destruct (below d q) as [[|c rel]|]; [done| |done]. rewrite Hsnoc. rewrite decide_False; [done|]. intros Heq.
       rewrite Hp, <- Heq, like_below_self in Hx; done. }
  destruct (Hlike x) as (rel & Hxp & Hrel & Hgrel); [rewrite Hpre; apply elem_of_app; right; by left|done|].
  rewrite Hp in Hxp. apply pth_inj in Hxp; [|done|done]. destruct rel as [|k' rel' _] using rev_ind; [done|]. rewrite app_assoc in Hxp.
  apply app_inj_tail in Hxp as [-> ->]. clear Hrel. cbn [for_each]. rewrite py_bind_eq. unfold copy_below.
  rewrite Hp, <- app_assoc, copied_path by (by destruct rel'). rewrite py_bind_eq, delete_path_eq.
  assert (Hgd : Forall good (d ++ rel' ++ [k'])) by (apply Forall_app; apply Forall_app in Hgrel as [_ ?]; done).
  assert (Hbelow : below d (d ++ rel' ++ [k']) = Some (rel' ++ [k'])) by apply below_app.
  assert (Hnew : sview (rows s1) (d ++ rel' ++ [k']) = None).
  { rewrite Hview. unfold copied_so_far. rewrite Hbelow. destruct (rel' ++ [k']) as [|c e] eqn:He; [by destruct rel'|]. rewrite <- He.
    apply sview_by_path; [by rewrite app_assoc|]. by rewrite app_assoc, <- Hp. }
  rewrite delete_path_absent by (by apply sview_by_path).
  set (s1' := {| rows := rows s1; committed := committed s1; db_host := db_host s1 |}).
  rewrite app_assoc in Hgd, Hnew |- *.
  destruct (insert_spec (copy_row (pth ((d ++ rel') ++ [k'])) (r_name x) now (_parent_path (pth ((d ++ rel') ++ [k']))) x) (d ++ rel') k' s1')
    as (Hins & Hok' & Hv'); try done.
  { cbn [r_parent copy_row]. apply Forall_app in Hgd as [? Hk'%Forall_inv]. by apply parent_snoc. }
  { change (rows s1') with (rows s1). rewrite Hview. unfold copied_so_far. rewrite below_app. destruct rel' as [|c e]; [by rewrite app_nil_r|].
    unfold sview. rewrite decide_True; [|apply Forall_app in Hg as [? _]; done]. rewrite <- Hddp, table_by_path by done. simpl. by rewrite kind_of_dir. }
  rewrite Hins. cbn [for_each mret py_ret]. eexists. split; [done|]. split; [done|]. split; [done|]. intros q. cbn [rows]. rewrite Hv'.
  unfold copied_so_far. case_decide as Hq.
  - subst q. rewrite <- app_assoc, Hbelow. destruct (rel' ++ [k']) as [|c e] eqn:He; [by destruct rel'|]. rewrite <- He, Hsnoc.
    by rewrite decide_True by (by rewrite app_assoc).
  - change (rows s1') with (rows s1). rewrite Hview. unfold copied_so_far. destruct (below d q) as [[|c e]|] eqn:Hb; [done| |done].
    rewrite Hsnoc. rewrite decide_False; [done|]. intros Heq. apply Hq. apply below_spec in Hb as ->. rewrite <- app_assoc in Heq.
    apply app_inv_head in Heq as ->. by rewrite app_assoc.
Qed.
End CopyLoop.

Lemma like_prefix src a e : src ≠ [] → like_below (pth src) (pth a) = true → like_below (pth src) (pth (a ++ e)) = true.
Proof.
  intros Hne Hl. induction e as [|k e IH] using rev_ind; [by rewrite app_nil_r|]. rewrite app_assoc. by apply pth_snoc_like.
Qed.
Lemma apart_not src d rel : src ≠ [] → Forall good src → apart src d → d ≠ src ++ rel.
Proof.
  intros Hne Hg Hap ->. specialize (Hap ["x"]). rewrite <- app_assoc, like_below_self in Hap; [done|done|by destruct rel].
Qed.
Lemma has_children_mkdirs l ds k : has_children (mkdirs ds (sview l)) (ds ++ [k]) → has_children (sview l) (ds ++ [k]).
Proof.
  intros [c [e Hc]]. exists c. unfold mkdirs in Hc. destruct (sview l ((ds ++ [k]) ++ [c])) as [x|]; [by exists x|].
  rewrite bool_decide_eq_false_2 in Hc; [done|]. intros Hp%prefix_length. rewrite !length_app in Hp. simpl in Hp. lia.
Qed.
Lemma childless_below l p r : table_ok l → ¬ has_children (sview l) p → r ≠ [] → sview l (p ++ r) = None.
Proof.
  intros Hl Hno Hr. pose proof (childless_cut l p (p ++ r) Hl Hno) as Hc. unfold cut, graft in Hc. rewrite below_app in Hc.
  rewrite decide_False in Hc; [done|]. intros Heq. rewrite <- (app_nil_r p) in Heq at 2. by apply app_inv_head in Heq.
Qed.

(** The destination, after its parents are there *)
Lemma copy_target ds k r now (s1 : Db Host) v :
  table_ok (rows s1) → Forall good (ds ++ [k]) → (∀ q, sview (rows s1) q = mkdirs ds v q) → (∀ q, ¬ blocker v ds q) →
  ¬ has_children (sview (rows s1)) (ds ++ [k]) → sview (rows s1) ds = Some ADir → dir_kind r ∨ file_kind r →
  ∃ s3, (_ ← delete_path (pth (ds ++ [k])); insert (copy_row (pth (ds ++ [k])) (last_segment (pth (ds ++ [k]))) now (Some (pth ds)) r)) s1
    = (inr tt, s3) ∧ committed s3 = committed s1 ∧ table_ok (rows s3) ∧
  (∀ q, sview (rows s3) q = if decide (q = ds ++ [k]) then Some (row_entry_kind r) else sview (rows s1) q) ∧
  (∀ x, x ∈ rows s3 → x ∈ rows s1 ∨ r_path x = pth (ds ++ [k])).
Proof.
  intros Hl Hg Hv Hno Hleaf Hds Hk. rewrite py_bind_eq, delete_path_eq. destruct (delete_leaf (rows s1) ds k Hl Hg Hleaf) as [Hok Hview].
  set (s2 := {| rows := _; committed := committed s1; db_host := db_host s1 |}).
  destruct (insert_spec (copy_row (pth (ds ++ [k])) (last_segment (pth (ds ++ [k]))) now (Some (pth ds)) r) ds k s2) as (Hins & Hok' & Hv'); try done.
  { apply Forall_app in Hg as [_ Hk'%Forall_inv]. by apply last_segment_snoc. }
  { unfold s2. cbn [rows]. rewrite Hview, decide_False; [done|]. intros Heq. apply (f_equal length) in Heq. rewrite length_app in Heq. simpl in Heq. lia. }
  { unfold s2. cbn [rows]. rewrite Hview. by rewrite decide_True. }
  rewrite Hins. eexists. split; [done|]. split_and!; [done|done| |].
  - intros q. cbn [rows]. rewrite Hv'. case_decide as Hq; [done|]. unfold s2. cbn [rows]. rewrite Hview. by rewrite decide_False.
  - intros x. cbn [rows]. intros [Hx|Hx%list_elem_of_singleton]%elem_of_app; [|right; by subst x]. left. unfold s2 in Hx. cbn [rows] in Hx.
    apply list_elem_of_In, filter_In in Hx as [Hx _]. by apply list_elem_of_In.
Qed.

Definition plain_copy (l : list Row) (src d : list string) : Prop :=
  Forall neat d ∧ src ≠ [] ∧ exact l src ∧ apart src d ∧ ¬ has_children (sview l) d.

Lemma copy_does a b s : sql_ok s → plain_copy (rows s) (sql_parts a) (sql_parts b) → does (OCopy a b) s (sql_copy a b s).
Proof.
  intros Hs (Hneat & Hsne & Hex & Hap & Hchild). unfold sql_copy. destruct (decide (sql_parts b = [])) as [Hroot|Hne].
  { rewrite normalize_root, bool_decide_eq_true_2 by done. apply does_raise; [done|done|by constructor]. }
  destruct (parts_split b Hne) as (ds & k & Hp & Hdirs & Hg & Hk). rewrite (norm_ne b ds k Hp). destruct Hs as [Hl Hc].
  apply Forall_app in Hg as Hgs. destruct Hgs as [Hgd _]. pose proof (sql_parts_good a) as Hga.
  rewrite !normalize_parts, Hp. cbv zeta. rewrite py_bind_eq. unfold select, gets.
  destruct (by_path (pth (sql_parts a)) (rows s)) as [r|] eqn:Hr.
  2: { apply does_raise; [done|done|]. apply sq_copy_missing; [done|]. by apply sview_by_path. }
  rewrite Hp in Hneat, Hap, Hchild. apply Forall_app in Hneat as [Hneat _].
  assert (Hv : is_Some (sview (rows s) (sql_parts a))) by (destruct (row_cases _ _ _ Hl Hr Hga) as [[_ ->]|[_ [x ->]]]; by eexists).
  rewrite py_bind_eq. pose proof (ensure_parent_spec ds k s (conj Hl Hc) Hg Hneat) as Hens.
  destruct (ensure_parent (_parent_path (pth (ds ++ [k]))) s) as [out s1]. destruct Hens as [[Hl1 Hc1] Hout]. cbn [fst snd] in *.
  destruct Hout as [(q & -> & Hq & Hrows)|(-> & Hno & Hv1 & new & Hnew & Hin)].
  { apply does_raise; [by split|by rewrite Hrows|]. apply sq_copy_blocked; [done|done|by rewrite Hdirs]. }
  rewrite py_bind_eq. unfold sql_now at 1. destruct (now_iso (db_host s1)) as [now h].
  set (s1' := {| rows := rows s1; committed := committed s1; db_host := h |}). rewrite parent_snoc by done.
  assert (Hchild1 : ¬ has_children (sview (rows s1)) (ds ++ [k])).
  { intros [c Hc']. rewrite Hv1 in Hc'. apply Hchild. apply has_children_mkdirs. by exists c. }
  assert (Hds1 : sview (rows s1) ds = Some ADir) by (rewrite Hv1; by apply mkdirs_end).
  assert (Hkind : dir_kind r ∨ file_kind r) by (destruct (row_cases _ _ _ Hl Hr Hga) as [[? _]|[? _]]; auto).
  destruct (copy_target ds k r now s1' (sview (rows s))) as (s3 & Hrun & Hc3 & Hl3 & Hv3 & Hin3); try done.
  rewrite <- py_bind_assoc, py_bind_eq, Hrun. rewrite py_bind_eq.
  assert (Hspec : sql_spec (sview (rows s)) (OCopy a b) None (copied (sql_parts a) (ds ++ [k]) (sview (rows s)))).
  { pose proof (sq_copy (sview (rows s)) a b Hne Hv) as Hw. rewrite Hdirs, Hp in Hw. by apply Hw. }
  assert (Hcopied : ∀ q, copied (sql_parts a) (ds ++ [k]) (sview (rows s)) q =
    match below (ds ++ [k]) q with Some rel => sview (rows s1) (sql_parts a ++ rel) | None => sview (rows s1) q end).
  { intros q. unfold copied, graft, under. replace (dirs_of (ds ++ [k])) with ds by (unfold dirs_of; by rewrite removelast_last).
    destruct (below (ds ++ [k]) q); by rewrite Hv1. }
  assert (Hsrc1 : sview (rows s1) (sql_parts a) = sview (rows s) (sql_parts a)).
  { rewrite Hv1. unfold mkdirs. by destruct Hv as [x ->]. }
  assert (Hdir3 : ∀ q, q ≠ [] → sview (rows s3) ((ds ++ [k]) ++ q) = None).
  { intros q Hq. rewrite Hv3, decide_False by (intros Heq; rewrite <- (app_nil_r (ds ++ [k])) in Heq at 2; by apply app_inv_head in Heq).
    by apply childless_below. }
  destruct (row_cases _ _ _ Hl Hr Hga) as [[Hkd Hva]|[Hkf [x Hva]]].
  - destruct Hkd as (Ht & Hkd'). rewrite Ht. rewrite bool_decide_eq_true_2 by done. rewrite py_bind_eq. unfold select_below, gets.
    destruct (copy_loop (sql_parts a) (ds ++ [k]) now (rows s3)) with (pre := rows s3) (post := @nil Row) (s := s3)
      as (s4 & Hloop & Hc4 & Hl4 & Hv4); try done; [by destruct ds| | |by rewrite app_nil_r|].
    + intros y Hy Hlike. destruct (Hin3 y Hy) as [Hy1|Hyp].
      * change (rows s1') with (rows s1) in Hy1. rewrite Hnew in Hy1. apply elem_of_app in Hy1 as [Hy1|Hy1].
        -- destruct (table_path _ _ Hl Hy1) as (q & Hgq & Hpq & _). specialize (Hex y Hy1 Hlike). rewrite Hpq in Hex.
           destruct (below_base _ _ Hga Hgq Hsne Hex) as (rel & -> & Hrel). by exists rel.
        -- exfalso. destruct (Hin y Hy1) as (q & [e ->] & _ & Hpq & _). rewrite Hpq in Hlike.
           pose proof (like_prefix _ _ (e ++ [k]) Hsne Hlike) as Hd. rewrite app_assoc in Hd. specialize (Hap []). rewrite app_nil_r in Hap. congruence.
      * exfalso. rewrite Hyp in Hlike. specialize (Hap []). rewrite app_nil_r in Hap. congruence.
    + rewrite Hv3, decide_True by done. by rewrite kind_of_dir.
    + rewrite Hloop. cbn [commit modify]. apply (does_end _ _ _ (copied (sql_parts a) (ds ++ [k]) (sview (rows s)))); [by split|done|].
      intros q. cbn [rows]. rewrite Hv4, Hcopied. unfold copied_so_far. destruct (below (ds ++ [k]) q) as [[|c rel]|] eqn:Hb.
      * apply below_spec in Hb as ->. rewrite !app_nil_r, Hv3, decide_True, Hsrc1, Hva by done. by rewrite kind_of_dir.
      * rewrite Hv3, decide_False; [done|]. intros Heq. by apply (apart_not (sql_parts a) (ds ++ [k]) (c :: rel)).
      * rewrite Hv3, decide_False; [done|]. intros ->. rewrite <- (app_nil_r (ds ++ [k])) in Hb at 2. by rewrite below_app in Hb.
  - destruct (Hkf) as (Ht & _). rewrite bool_decide_eq_false_2 by (by rewrite Ht). cbn [mret py_ret]. cbn [commit modify].
    apply (does_end _ _ _ (copied (sql_parts a) (ds ++ [k]) (sview (rows s)))); [by split|done|].
    intros q. cbn [rows]. rewrite Hcopied. destruct (below (ds ++ [k]) q) as [rel|] eqn:Hb.
    + apply below_spec in Hb as ->. destruct (decide (rel = [])) as [->|Hrel].
      * rewrite !app_nil_r, Hv3, decide_True, Hsrc1, Hva by done. unfold sview in Hva. rewrite decide_True, Hr in Hva by done. done.
      * rewrite Hdir3 by done. symmetry. apply leaf_below; [done| |done]. rewrite Hsrc1, Hva. done.
    + rewrite Hv3, decide_False; [done|]. intros ->. rewrite <- (app_nil_r (ds ++ [k])) in Hb at 2. by rewrite below_app in Hb.
Qed.

Definition plain_move (l : list Row) (src d : list string) : Prop := src = [] ∨ plain_copy l src d.

Lemma copied_like l src ds k q e : table_ok l → Forall good src → src ≠ [] → exact l src → apart src (ds ++ [k]) →
  copied src (ds ++ [k]) (sview l) q = Some e → like_below (pth src) (pth q) = true → ∃ rel, q = src ++ rel ∧ rel ≠ [].
Proof.
  intros Hl Hg Hne Hex Hap. unfold copied, graft, mkdirs at 2. replace (dirs_of (ds ++ [k])) with ds by (unfold dirs_of; by rewrite removelast_last).
  destruct (below (ds ++ [k]) q) as [rel|] eqn:Hb.
  - apply below_spec in Hb as ->. intros _ Hlike. by rewrite Hap in Hlike.
  - destruct (sview l q) as [e'|] eqn:Hq; intros Hcop Hlike.
    + by apply (exact_below l src q e').
    + case_bool_decide as Hp; [|done]. destruct Hp as [f ->]. exfalso. apply (like_prefix _ _ (f ++ [k]) Hne) in Hlike.
      rewrite app_assoc in Hlike. specialize (Hap []). rewrite app_nil_r in Hap. congruence.
Qed.

Lemma exact_of_view l src : table_ok l → Forall good src → src ≠ [] →
  (∀ q e, sview l q = Some e → like_below (pth src) (pth q) = true → ∃ rel, q = src ++ rel ∧ rel ≠ []) → exact l src.
Proof.
  intros Hl Hg Hne Hview r Hr Hlike. destruct (table_path _ _ Hl Hr) as (q & Hgq & Hp & _). rewrite Hp in Hlike |- *.
  assert (is_Some (sview l q)) as [e He].
  { unfold sview. rewrite decide_True, <- Hp, table_by_path by done. by eexists. }
  destruct (Hview q e He Hlike) as (rel & -> & Hrel). destruct rel as [|k rel]; [done|]. apply starts_with_spec.
  exists (k +:+ base rel). rewrite !pth_ne by (done || by destruct src). rewrite base_app. change (k :: rel) with ([k] ++ rel).
  by rewrite base_app, base_one, <- !app_str_assoc.
Qed.

Lemma move_does a b s : sql_ok s → plain_move (rows s) (sql_parts a) (sql_parts b) → does (OMove a b) s (sql_move a b s).
Proof.
  intros Hs Hplain. unfold sql_move. destruct (decide (sql_parts a = [])) as [Hroot|Hsne].
  { rewrite normalize_root, bool_decide_eq_true_2 by done. apply does_raise; [done|done|by constructor]. }
  destruct Hplain as [?|Hplain]; [done|]. rewrite normalize_root, bool_decide_eq_false_2 by done.
  destruct (decide (sql_parts b = [])) as [Hb|Hne].
  { rewrite normalize_root, bool_decide_eq_true_2 by done. apply does_raise; [done|done|by constructor]. }
  rewrite normalize_root, bool_decide_eq_false_2 by done. pose proof (sql_parts_good a) as Hga. destruct Hs as [Hl Hc].
  rewrite normalize_parts. cbv zeta. rewrite py_bind_eq. unfold select, gets.
  destruct (by_path (pth (sql_parts a)) (rows s)) as [r|] eqn:Hr.
  2: { apply does_raise; [done|done|]. apply sq_move_missing; [done|done|]. by apply sview_by_path. }
  assert (Hv : is_Some (sview (rows s) (sql_parts a))) by (destruct (row_cases _ _ _ Hl Hr Hga) as [[_ ->]|[_ [x ->]]]; by eexists).
  pose proof (copy_does a b s (conj Hl Hc) Hplain) as Hcopy. rewrite py_bind_eq. destruct (sql_copy a b s) as [out s1].
  destruct Hcopy as [[Hl1 Hc1] (e & w & Hspec & Hout & Hv1)]. cbn [fst snd] in *.
  inversion Hspec as [| | | | | | | | | | | | | | | | |? ? Hd| ? ? _ Hm|? ? q Hd Hsome Hblock|? ? Hd Hsome Hno| | | | | ]; subst.
  - done.
  - rewrite Hm in Hv. by destruct Hv.
  - destruct out as [x|]; [|done]. destruct Hout as (f & -> & [= <-]). apply does_raise; [done|done|]. by apply sq_move_blocked.
  - destruct out as [x|u]; [by destruct Hout as (f & _ & ?)|]. rewrite py_bind_eq, delete_below_eq. cbn [commit modify].
    destruct Hplain as (_ & _ & Hex & Hap & _). destruct (parts_split b Hne) as (ds & k & Hp & _). rewrite Hp in *.
    apply (does_end _ _ _ (cut (sql_parts a) (copied (sql_parts a) (ds ++ [k]) (sview (rows s))))).
    + split; [|done]. cbn [rows]. by apply delete_below_ok.
    + rewrite <- Hp. apply sq_move; by rewrite ?Hp.
    + intros q. cbn [rows]. rewrite delete_below_view; [|by apply exact_of_view; [..|intros x e Hx; apply (copied_like (rows s) _ ds k x e); [done..|by rewrite <- Hv1]]|done|done].
      unfold cut, graft at 1 2. destruct (below (sql_parts a) q); [done|apply Hv1].
Qed.
End Ops.

(** ** The storage *)

Definition sql_run {Host} `{FsEnv Host} (o : fs_op) : py (Db Host) sql_exn unit :=
  match o with
  | OWrite p c => sql_write_file p c
  | OMkdir p rec => sql_mkdir p rec
  | ORemove p rec => sql_remove p rec
  | OCopy a b => sql_copy a b
  | OMove a b => sql_move a b
  end.

(** No segment of what is created ends in white space; no other path looks like
    the source to [LIKE], and a copy goes where nothing is below. *)
Definition plain (l : list Row) (o : fs_op) : Prop :=
  match o with
  | OWrite p _ | OMkdir p _ => Forall neat (sql_parts p)
  | ORemove p rec => rec = true → exact l (sql_parts p)
  | OCopy a b => plain_copy l (sql_parts a) (sql_parts b)
  | OMove a b => plain_move l (sql_parts a) (sql_parts b)
  end.

(** Opening the storage on an empty database, or on one it left. *)
Lemma open_ok {Host} `{FsEnv Host} l (h : Host) : l = [] ∨ table_ok l → sql_ok (open_db l h) ∧ (l = [] → ∀ q, sview (rows (open_db l h)) q = single ADir q).
Proof.
  intros [->|Hl].
  - assert (∃ now h', open_db [] h = {| rows := [dir_row "/" "" now None]; committed := [dir_row "/" "" now None]; db_host := h' |}) as (now & h' & ->).
    { unfold open_db, _ensure_root. rewrite py_bind_eq. unfold select, gets. change (by_path "/" (rows _)) with (@None Row). cbv beta iota.
      rewrite py_bind_eq. unfold sql_now at 1. cbn [db_host]. destruct (now_iso h) as [now h']. by exists now, h'. }
    split; [split; [|done]; by apply table_root|].
    intros _ q. unfold sview. destruct (decide (Forall good q)) as [Hg|Hg]; [|destruct q; [destruct Hg; constructor|done]].
    cbn [rows]. rewrite by_path_one. destruct q as [|k q]; [done|]. rewrite decide_False; [done|]. cbn [r_path dir_row].
    intros Heq. by apply (pth_inj [] (k :: q)) in Heq; [|constructor|].
  - split; [|intros ->; by destruct (table_nonempty [] Hl)].
    destruct (table_has_root l Hl) as (r & Hr & _). unfold open_db, _ensure_root. rewrite py_bind_eq. unfold select, gets. cbn [rows].
    by rewrite Hr.
Qed.


(** Whatever is removed or moved away, and whatever it looks like to [LIKE], a
    recursive removal leaves a tree, in which nothing is at the path or below. *)
Theorem sqlite_remove_closed {Host} `{FsEnv Host} (p : string) (s : Db Host) :
  sql_ok s → (sql_run (ORemove p true) s).1 = inr tt →
  sql_ok (sql_run (ORemove p true) s).2 ∧
  (∀ q, sview (rows (sql_run (ORemove p true) s).2) (sql_parts p ++ q) = None) ∧
  ∀ q e, sview (rows (sql_run (ORemove p true) s).2) q = Some e → sview (rows s) q = Some e.
Proof.
  intros [Hl Hc]. cbn [sql_run]. unfold sql_remove. destruct (decide (sql_parts p = [])) as [Hroot|Hne].
  { rewrite normalize_root, bool_decide_eq_true_2 by done. done. }
  rewrite normalize_root, bool_decide_eq_false_2, normalize_parts by done. cbv zeta. rewrite py_bind_eq. unfold select, gets.
  destruct (by_path (pth (sql_parts p)) (rows s)) as [r|]; [|done]. rewrite andb_false_r. rewrite py_bind_eq. cbn [mret py_ret].
  rewrite py_bind_eq, delete_below_eq. cbn [commit modify]. intros _. pose proof (sql_parts_good p) as Hg.
  split; [split; [|done]; cbn [rows snd]; by apply delete_below_ok|]. unfold commit, modify. cbn [rows snd].
  split; intros q; rewrite (sview_filter (below_kp (sql_parts p))); unfold below_kp.
  - destruct q as [|k q]; [rewrite app_nil_r; by rewrite bool_decide_eq_true_2|]. rewrite like_below_self by done. by rewrite orb_true_r.
  - intros e. by destruct (negb _).
Qed.

(** ** A database *)

(** A host whose clock counts. *)
#[local] Instance tick : FsEnv nat := { now_iso n := ("t" +:+ pretty n, S n) }.

Definition run_sql (ops : list fs_op) : Db nat := foldl (λ s o, (sql_run o s).2) (open_db [] 0%nat) ops.
Definition paths (s : Db nat) : list string := map r_path (rows s).

(** A database with a directory, a file in it and another file. *)
Definition small_db : Db nat := Eval vm_compute in
  run_sql [OWrite "/docs/a.txt" (Text [104; 233]); OWrite "b" (Text [98])].

Lemma small_db_ok : sql_ok small_db.
Proof.
  assert (H0 : sql_ok (open_db [] 0%nat)) by (apply open_ok; by left).
  assert (Hn : ∀ k, last (chars k) = Some "s"%char ∨ last (chars k) = Some "t"%char ∨ last (chars k) = Some "b"%char → neat k).
  { intros k Hk c Hc. destruct Hk as [Hk|[Hk|Hk]]; rewrite Hk in Hc; by injection Hc as <-. }
  destruct (write_does "/docs/a.txt" (Text [104; 233]) _ H0) as [H1 _].
  { repeat constructor; apply Hn; vm_compute; auto. }
  destruct (write_does "b" (Text [98]) _ H1) as [H2 _].
  { repeat constructor; apply Hn; vm_compute; auto. }
  exact H2.
Qed.


Lemma sqlite_remove_closed_witness :
  sql_ok small_db ∧
  sql_ok (sql_run (ORemove "docs" true) small_db).2 ∧
  (∀ q, sview (rows (sql_run (ORemove "docs" true) small_db).2) (sql_parts "docs" ++ q) = None) ∧
  ∀ q e, sview (rows (sql_run (ORemove "docs" true) small_db).2) q = Some e → sview (rows small_db) q = Some e.
Proof. split; [exact small_db_ok|]. apply sqlite_remove_closed; [exact small_db_ok|vm_compute; reflexivity]. Defined.

(** [LIKE] does not see the case of letters: removing [/docs] removes what is in
    [/DOCS] too, and moving a directory to another case loses its content. *)
Example remove_ignores_case :
  paths (run_sql [OWrite "/docs/a" (Text []); OWrite "/DOCS/b" (Text []); ORemove "/docs" true]) = ["/"; "/DOCS"] ∧
  paths (run_sql [OWrite "/docs/a" (Text []); OMove "/docs" "/Docs"]) = ["/"; "/Docs"].
Proof. vm_compute. done. Qed.

(** [_] in a name stands for any character. *)
Example underscore_is_wild :
  paths (run_sql [OWrite "/a_b/x" (Text []); OWrite "/acb/y" (Text []); ORemove "/a_b" true]) = ["/"; "/acb"].
Proof. vm_compute. reflexivity. Qed.

(** A file copied over a directory leaves the rows below it; when it is removed
    they have no parent, and a later [mkdir] leaves a row that is not committed. *)
Example orphaned_rows :
  let s := run_sql [OWrite "/d/x" (Text []); OWrite "/f" (Text []); OCopy "/f" "/d"; ORemove "/d" false] in
  paths s = ["/"; "/d/x"; "/f"] ∧
  map r_path (committed (sql_run (OMkdir "/d/x/y" true) s).2) = ["/"; "/d/x"; "/f"] ∧ paths (sql_run (OMkdir "/d/x/y" true) s).2 = ["/"; "/d/x"; "/f"; "/d"].
Proof. vm_compute. done. Qed.

(** The parents of a path are stripped once more: a directory whose name ends in
    a space is created without it, and the file is in no listing. *)
Example stripped_parent :
  let s := run_sql [OWrite "/a /b" (Text [98])] in
  paths s = ["/"; "/a"; "/a /b"] ∧ (sql_list "/a" s).1 = inr [] ∧ (sql_read_file "/a /b" s).1 = inr [98].
Proof. vm_compute. done. Qed.

(** Copying the root copies no content: nothing is below [//]. *)
Example copy_root_is_empty :
  paths (run_sql [OWrite "/f" (Text []); OCopy "/" "/copy"]) = ["/"; "/f"; "/copy"].
Proof. vm_compute. reflexivity. Qed.
