(* ===== verification/DataExplorer.v ===== *)
(** * The data explorer ([plugins/data-explorer], [data_explorer_types.py], [data_explorer_provider.py])

    The types, the registry of sources, the executor with its time and row
    limits, and the routes.  A provider is a [Record] of its methods and
    [CountsRows] is what the executor needs of it; the providers of the
    repository, with the proof that they give it, are in [SqlProviders.v] and
    [DocumentProviders.v].
    What a row holds is the provider's ([Row]); [row_value] is its JSON. *)

From S2P Require Import Prelude PyStr Values.
From Stdlib Require Import Ascii.

Open Scope Z_scope.

(** ** The types *)

Inductive DataExplorerLanguage := L_SQL | L_JSON | L_SHELL | L_GRAPHQL | L_REDIS | L_ELASTICSEARCH.
Definition language_value (l : DataExplorerLanguage) : string :=
  match l with
  | L_SQL => "sql" | L_JSON => "json" | L_SHELL => "shell" | L_GRAPHQL => "graphql" | L_REDIS => "redis" | L_ELASTICSEARCH => "elasticsearch"
  end.
Inductive DataExplorerOutputFormat := F_TABLE | F_JSON | F_CSV | F_RAW.
Definition format_value (f : DataExplorerOutputFormat) : string :=
  match f with F_TABLE => "table" | F_JSON => "json" | F_CSV => "csv" | F_RAW => "raw" end.

Record DataExplorerTemplate := {
  tpl_name : string; tpl_query : string; tpl_description : option string; tpl_parameters : option (dict string pyval) }.
Record DataExplorerParameterDescriptor := {
  pd_name : string; pd_description : option string; pd_required : bool; pd_default_value : pyval }.
Record DataExplorerProviderOptions := {
  o_name : string; o_description : string; o_language : DataExplorerLanguage; o_format : DataExplorerOutputFormat;
  o_parameters : list DataExplorerParameterDescriptor; o_templates : list DataExplorerTemplate; o_timeout : Z; o_max_rows : Z }.
Definition default_dx_options (name description : string) : DataExplorerProviderOptions :=
  {| o_name := name; o_description := description; o_language := L_SQL; o_format := F_TABLE; o_parameters := []; o_templates := [];
     o_timeout := 30000; o_max_rows := 1000 |}.

Record DataExplorerExecutionContext := {
  cx_query : string; cx_parameters : dict string pyval; cx_options : DataExplorerProviderOptions }.

Record DataExplorerResult (Row : Type) := {
  x_success : bool; x_source : string; x_language : DataExplorerLanguage; x_format : DataExplorerOutputFormat;
  x_execution_time : Z; x_columns : option (list string); x_rows : list Row; x_row_count : Z; x_truncated : bool;
  x_error : option string }.
Arguments x_success {_}. Arguments x_source {_}. Arguments x_language {_}. Arguments x_format {_}. Arguments x_execution_time {_}.
Arguments x_columns {_}. Arguments x_rows {_}. Arguments x_row_count {_}. Arguments x_truncated {_}. Arguments x_error {_}.

Record DataExplorerSchemaColumn := { c_name : string; c_type : string; c_nullable : bool; c_primary_key : bool }.
Record DataExplorerSchemaTable := { tb_name : string; tb_type : string; tb_columns : list DataExplorerSchemaColumn }.
Record DataExplorerSchemaResult := { sc_source : string; sc_tables : list DataExplorerSchemaTable }.

(** What code that awaits raises; [str(exc)] is the argument. *)
Inductive dexn := DTimeout (msg : string) | DExn (msg : string) | DCancelled.

(** [dataclasses.asdict]; an enumeration becomes its value in JSON. *)
Definition opt_str_val (s : option string) : pyval := match s with Some s => VStr s | None => VNone end.
Definition template_dict (t : DataExplorerTemplate) : pyval :=
  VDict [("name", VStr (tpl_name t)); ("query", VStr (tpl_query t)); ("description", opt_str_val (tpl_description t));
         ("parameters", match tpl_parameters t with Some d => VDict d | None => VNone end)].
Definition descriptor_dict (p : DataExplorerParameterDescriptor) : pyval :=
  VDict [("name", VStr (pd_name p)); ("description", opt_str_val (pd_description p)); ("required", VBool (pd_required p));
         ("default_value", pd_default_value p)].
Definition options_dict (o : DataExplorerProviderOptions) : pyval :=
  VDict [("name", VStr (o_name o)); ("description", VStr (o_description o)); ("language", VStr (language_value (o_language o)));
         ("default_output_format", VStr (format_value (o_format o))); ("parameters", VList (map descriptor_dict (o_parameters o)));
         ("templates", VList (map template_dict (o_templates o))); ("timeout", VInt (o_timeout o)); ("max_rows", VInt (o_max_rows o))].
Definition column_dict (c : DataExplorerSchemaColumn) : pyval :=
  VDict [("name", VStr (c_name c)); ("type", VStr (c_type c)); ("nullable", VBool (c_nullable c)); ("primary_key", VBool (c_primary_key c))].
Definition table_dict (t : DataExplorerSchemaTable) : pyval :=
  VDict [("name", VStr (tb_name t)); ("type", VStr (tb_type t)); ("columns", VList (map column_dict (tb_columns t)))].
Definition schema_dict (s : DataExplorerSchemaResult) : pyval :=
  VDict [("source", VStr (sc_source s)); ("tables", VList (map table_dict (sc_tables s)))].

(** ** Names of keys ([data_explorer_controller.py]) *)

Definition underscore_char : ascii := "_"%char.
Definition capitalize (s : string) : string :=
  match chars s with [] => "" | c :: l => str (upper_ascii c :: map lower_ascii l) end.
Definition _to_camel (snake : string) : string :=
  match split underscore_char snake with [] => "" | w :: ws => w +:+ join "" (map capitalize ws) end.

Fixpoint _camel_keys (depth : nat) (obj : pyval) : pyval :=
  match obj with
  | VDict d =>
      VDict (foldl (λ result kv, dict_set kv.1 kv.2 result) []
        (map (λ kv, let key := if (depth <? 2)%nat then _to_camel kv.1 else kv.1 in
                    (key, if bool_decide (key = "rows") then kv.2 else _camel_keys (S depth) kv.2)) d))
  | VList l => VList (map (_camel_keys depth) l)
  | v => v
  end.

(** ** Providers *)

Section Explorer.
Context {World Row : Type}.

Record IDataExplorerProvider := {
  p_execute : DataExplorerExecutionContext → py World dexn (DataExplorerResult Row);
  p_get_schema : DataExplorerProviderOptions → py World dexn (option DataExplorerSchemaResult);
}.
(** [get_schema_async] of the base class *)
Definition no_schema : DataExplorerProviderOptions → py World dexn (option DataExplorerSchemaResult) := λ _, mret None.

(** What the executor relies on: a result says how many rows it has. *)
Class CountsRows (p : IDataExplorerProvider) := {
  counts_rows cx w : match (p_execute p cx w).1 with inr r => x_row_count r = Z.of_nat (length (x_rows r)) | inl _ => True end;
}.

(** ** The registry *)

Definition DataExplorerRegistry : Type := dict string (IDataExplorerProvider * DataExplorerProviderOptions).
Definition register_provider (p : IDataExplorerProvider) (o : DataExplorerProviderOptions) (r : DataExplorerRegistry) : DataExplorerRegistry :=
  dict_set (o_name o) (p, o) r.
Definition get_provider (source : string) (r : DataExplorerRegistry) := dict_get source r.
Definition get_sources (r : DataExplorerRegistry) : list pyval := map (λ e : _ * (_ * DataExplorerProviderOptions), options_dict e.2.2) r.

(** ** The executor *)

Record DataExplorerExecuteRequest := { q_source : string; q_query : string; q_parameters : option (dict string pyval) }.

Definition failure (source : string) (l : DataExplorerLanguage) (f : DataExplorerOutputFormat) (time : Z) (error : string) : DataExplorerResult Row :=
  {| x_success := false; x_source := source; x_language := l; x_format := f; x_execution_time := time; x_columns := None; x_rows := [];
     x_row_count := 0; x_truncated := false; x_error := Some error |}.

(** [asyncio.wait_for]: when the time limit strikes ([strikes]), the call is
    cancelled and has changed the world as far as it came. *)
Context (strikes : DataExplorerExecutionContext → World → option World).
Definition wait_for {A} (cx : DataExplorerExecutionContext) (m : py World dexn A) : py World dexn A := λ w,
  match strikes cx w with Some w' => (inl (DTimeout ""), w') | None => m w end.

(** The row limit *)
Definition cut_rows (o : DataExplorerProviderOptions) (r : DataExplorerResult Row) : DataExplorerResult Row :=
  if o_max_rows o <? x_row_count r then
    {| x_success := x_success r; x_source := x_source r; x_language := x_language r; x_format := x_format r; x_execution_time := x_execution_time r;
       x_columns := x_columns r; x_rows := py_slice 0 (o_max_rows o) (x_rows r); x_row_count := o_max_rows o; x_truncated := true;
       x_error := x_error r |}
  else r.

Definition dx_execute (registry : DataExplorerRegistry) (q : DataExplorerExecuteRequest) : py World dexn (DataExplorerResult Row) :=
  match get_provider (q_source q) registry with
  | None => mret (failure (q_source q) L_SQL F_TABLE 0 ("Unknown data source: " +:+ q_source q))
  | Some (provider, o) =>
      let cx := {| cx_query := q_query q; cx_parameters := default [] (q_parameters q); cx_options := o |} in
      try_except (r ← wait_for cx (p_execute provider cx); mret (cut_rows o r))
        (λ e, match e with
              | DTimeout _ =>
                  mret (failure (q_source q) (o_language o) (o_format o) (o_timeout o) ("Query timed out after " +:+ str_of_Z (o_timeout o) +:+ "ms"))
              | DExn m => mret (failure (q_source q) (o_language o) (o_format o) 0 m)
              | DCancelled => raise DCancelled
              end)
  end.

(** ** The routes *)

Context (row_value : Row → pyval).
Definition result_dict (r : DataExplorerResult Row) : pyval :=
  VDict [("success", VBool (x_success r)); ("source", VStr (x_source r)); ("language", VStr (language_value (x_language r)));
         ("default_output_format", VStr (format_value (x_format r))); ("execution_time", VInt (x_execution_time r));
         ("columns", match x_columns r with Some l => VList (map VStr l) | None => VNone end); ("rows", VList (map row_value (x_rows r)));
         ("row_count", VInt (x_row_count r)); ("truncated", VBool (x_truncated r)); ("error", opt_str_val (x_error r))].

Inductive dx_answer := DxOk (body : pyval) | Dx404 (detail : string).

Definition sources_route (registry : DataExplorerRegistry) : dx_answer := DxOk (_camel_keys 0 (VList (get_sources registry))).
Definition execute_route (registry : DataExplorerRegistry) (q : DataExplorerExecuteRequest) : py World dexn dx_answer :=
  result ← dx_execute registry q; mret (DxOk (_camel_keys 0 (result_dict result))).
Definition schema_route (registry : DataExplorerRegistry) (source : string) : py World dexn dx_answer :=
  match get_provider source registry with
  | None => mret (Dx404 ("Unknown data source: '" +:+ source +:+ "'"))
  | Some (provider, o) =>
      schema ← p_get_schema provider o;
      mret match schema with
           | None => Dx404 "Schema introspection is not supported by this data source."
           | Some s => DxOk (_camel_keys 0 (schema_dict s))
           end
  end.
End Explorer.
Arguments IDataExplorerProvider : clear implicits.
Arguments DataExplorerRegistry : clear implicits.

(** ** What the executor gives *)

Section Limits.
Context {World Row : Type} (strikes : DataExplorerExecutionContext → World → option World).
Implicit Types (registry : DataExplorerRegistry World Row) (q : DataExplorerExecuteRequest) (w : World).

Definition context_of q (o : DataExplorerProviderOptions) : DataExplorerExecutionContext :=
  {| cx_query := q_query q; cx_parameters := default [] (q_parameters q); cx_options := o |}.

Lemma py_slice_prefix {A} n (l : list A) : 0 ≤ n → py_slice 0 n l = take (Z.to_nat n) l.
Proof. intros. rewrite py_slice_nonneg by lia. by rewrite Nat.sub_0_r. Qed.

Lemma cut_rows_spec o (r : DataExplorerResult Row) :
  0 ≤ o_max_rows o → x_row_count r = Z.of_nat (length (x_rows r)) →
  Z.of_nat (length (x_rows (cut_rows o r))) ≤ o_max_rows o ∧
  x_row_count (cut_rows o r) = Z.of_nat (length (x_rows (cut_rows o r))) ∧
  x_rows (cut_rows o r) = take (Z.to_nat (o_max_rows o)) (x_rows r) ∧
  (x_truncated (cut_rows o r) = true ↔ x_truncated r = true ∨ o_max_rows o < Z.of_nat (length (x_rows r))).
Proof.
  intros Hm Hc. unfold cut_rows. destruct (Z.ltb_spec (o_max_rows o) (x_row_count r)); simpl.
  - rewrite py_slice_prefix by done. rewrite length_take. split_and!; [lia..|done|]. split; [intros _; right; lia|done].
  - rewrite take_ge by lia. split_and!; [lia..|done|]. split; [by left|]. intros [?|?]; [done|lia].
Qed.


(** An unknown source is answered without calling anything. *)
Lemma execute_unknown registry q w :
  get_provider (q_source q) registry = None →
  dx_execute strikes registry q w = (inr (failure (q_source q) L_SQL F_TABLE 0 ("Unknown data source: " +:+ q_source q)), w).
Proof. intros Hg. unfold dx_execute. by rewrite Hg. Qed.

(** The route sends the rows as the executor gives them. *)
Lemma execute_route_rows (row_value : Row → pyval) registry q w d w' :
  execute_route strikes row_value registry q w = (inr (DxOk d), w') →
  ∃ r, dx_execute strikes registry q w = (inr r, w') ∧
    match d with VDict d => dict_get "rows" d = Some (VList (map row_value (x_rows r))) ∧ dict_get "rowCount" d = Some (VInt (x_row_count r)) | _ => False end.
Proof.
  unfold execute_route. rewrite py_bind_eq. destruct (dx_execute _ _ _ w) as [[e|r] w1]; [done|]. intros [= <- <-]. by exists r.
Qed.
End Limits.

(** ** Keys *)

Section PyvalInd.
Context (P : pyval → Prop).
Context (Hflat : ∀ v, match v with VList _ | VDict _ => True | v => P v end).
Context (Hlist : ∀ l, Forall P l → P (VList l)).
Context (Hdict : ∀ d, Forall (λ kv, P kv.2) d → P (VDict d)).
Fixpoint pyval_nested (v : pyval) : P v :=
  match v return P v with
  | VList l => Hlist l ((fix go l := match l return Forall P l with [] => Forall_nil_2 _ | x :: l => Forall_cons_2 _ x l (pyval_nested x) (go l) end) l)
  | VDict d =>
      Hdict d ((fix go d := match d return Forall (λ kv : string * pyval, P kv.2) d with
                            | [] => Forall_nil_2 _
                            | x :: l => Forall_cons_2 (λ kv : string * pyval, P kv.2) x l (pyval_nested x.2) (go l)
                            end) d)
  | VNone => Hflat VNone
  | VBool b => Hflat (VBool b)
  | VInt z => Hflat (VInt z)
  | VFloat r => Hflat (VFloat r)
  | VStr s => Hflat (VStr s)
  | VTime t => Hflat (VTime t)
  end.
End PyvalInd.

Definition dict_of {V} (l : list (string * V)) : dict string V := foldl (λ result kv, dict_set kv.1 kv.2 result) [] l.

Lemma dict_set_snoc {V} (k : string) (v : V) d : k ∉ dict_keys d → dict_set k v d = d ++ [(k, v)].
Proof.
  induction d as [|[k' v'] d IH]; simpl; [done|]. rewrite not_elem_of_cons. intros [Hne Hk]. rewrite decide_False by congruence. by rewrite IH.
Qed.
Lemma dict_of_ok {V} (l : list (string * V)) : dict_ok (dict_of l).
Proof.
  unfold dict_of. assert (H : ∀ d : dict string V, dict_ok d → dict_ok (foldl (λ result kv, dict_set kv.1 kv.2 result) d l)).
  { induction l as [|kv l IH]; intros d Hd; simpl; [done|]. apply IH. by apply dict_ok_set. }
  apply H, dict_ok_nil.
Qed.
Lemma dict_of_id {V} (d : dict string V) : dict_ok d → dict_of d = d.
Proof.
  unfold dict_of. enough (H : ∀ acc : dict string V, dict_ok (acc ++ d) → foldl (λ result kv, dict_set kv.1 kv.2 result) acc d = acc ++ d) by apply (H []).
  induction d as [|[k v] d IH]; intros acc Hok; simpl; [by rewrite app_nil_r|].
  rewrite dict_set_snoc.
  - rewrite IH; [by rewrite <-(assoc_L (++))|]. by rewrite <-(assoc_L (++)).
  - unfold dict_ok, dict_keys in *. rewrite fmap_app in Hok. apply NoDup_app in Hok as (_ & Hd & _). simpl in Hd. intros Hin. apply (Hd k Hin). left.
Qed.
Lemma dict_of_forall {V} (P : string * V → Prop) (l : list (string * V)) : Forall P l → Forall P (dict_of l).
Proof.
  unfold dict_of. intros Hl. enough (H : ∀ d : dict string V, Forall P d → Forall P (foldl (λ result kv, dict_set kv.1 kv.2 result) d l)) by by apply H.
  induction Hl as [|[k v] l Hp Hl IH]; intros d Hd; simpl; [done|]. apply IH. apply Forall_forall. intros [k' v'] Hin.
  apply dict_elem_of_set in Hin as [[= -> ->]|Hin]; [done|]. by eapply Forall_forall in Hd.
Qed.

Definition no_underscore (s : string) : Prop := underscore_char ∉ chars s.

Lemma capitalize_no_underscore w : no_underscore w → no_underscore (capitalize w).
Proof.
  unfold no_underscore, capitalize. intros Hw. destruct (chars w) as [|c l] eqn:Hc; [apply not_elem_of_nil|]. rewrite chars_str.
  assert (Hu : ∀ x, upper_ascii x = underscore_char → x = underscore_char) by (by intros [[] [] [] [] [] [] [] []]).
  assert (Hl : ∀ x, lower_ascii x = underscore_char → x = underscore_char) by (by intros [[] [] [] [] [] [] [] []]).
  apply not_elem_of_cons in Hw as [Hcu Hw]. apply not_elem_of_cons. split; [intros ?%eq_sym%Hu; congruence|].
  intros [d [He%eq_sym%Hl Hd]]%list_elem_of_fmap. by subst.
Qed.

Lemma join_no_underscore ws : Forall no_underscore ws → no_underscore (join "" ws).
Proof.
  unfold no_underscore. induction 1 as [|w ws Hw Hws IH]; [apply not_elem_of_nil|]. destruct ws as [|w' ws]; [done|].
  change (join "" (w :: w' :: ws)) with (w +:+ ("" +:+ join "" (w' :: ws))). rewrite chars_app. intros [?|?]%elem_of_app; [done|]. by apply IH.
Qed.

Lemma to_camel_no_underscore s : no_underscore (_to_camel s).
Proof.
  unfold _to_camel. assert (Hall : Forall no_underscore (split underscore_char s)).
  { unfold split. apply Forall_fmap. eapply Forall_impl; [apply split_chars_no_sep|]. intros w Hw. unfold no_underscore. simpl. by rewrite chars_str. }
  destruct Hall as [|w ws Hw Hws]; [apply not_elem_of_nil|]. unfold no_underscore. rewrite chars_app. intros [?|Hin]%elem_of_app; [done|].
  revert Hin. apply join_no_underscore, Forall_fmap. eapply Forall_impl; [done|]. apply capitalize_no_underscore.
Qed.

Lemma to_camel_id s : no_underscore s → _to_camel s = s.
Proof. intros Hs. unfold _to_camel, split. rewrite split_chars_single by done. simpl. by rewrite str_chars, app_str_nil_r. Qed.

Lemma to_camel_idemp s : _to_camel (_to_camel s) = _to_camel s.
Proof. apply to_camel_id, to_camel_no_underscore. Qed.

(** What happens to one entry *)
Definition camel_entry (depth : nat) (kv : string * pyval) : string * pyval :=
  let key := if (depth <? 2)%nat then _to_camel kv.1 else kv.1 in
  (key, if bool_decide (key = "rows") then kv.2 else _camel_keys (S depth) kv.2).
Lemma camel_keys_dict depth d : _camel_keys depth (VDict d) = VDict (dict_of (map (camel_entry depth) d)).
Proof. reflexivity. Qed.

Lemma camel_entry_idemp depth kv :
  (∀ k, _camel_keys k (_camel_keys k kv.2) = _camel_keys k kv.2) → camel_entry depth (camel_entry depth kv) = camel_entry depth kv.
Proof.
  intros Hv. unfold camel_entry. cbn [fst snd].
  assert (Hk : (if (depth <? 2)%nat then _to_camel (if (depth <? 2)%nat then _to_camel kv.1 else kv.1) else if (depth <? 2)%nat then _to_camel kv.1 else kv.1) =
               (if (depth <? 2)%nat then _to_camel kv.1 else kv.1)) by (destruct (depth <? 2)%nat; [apply to_camel_idemp|done]).
  rewrite Hk. destruct (bool_decide _); [done|]. by rewrite Hv.
Qed.

(** Converting the keys a second time, at the same depth, changes nothing. *)
Theorem camel_keys_idemp v : ∀ depth, _camel_keys depth (_camel_keys depth v) = _camel_keys depth v.
Proof.
  revert v. refine (pyval_nested _ _ _ _); [intros v|intros l Hl depth|intros d Hd depth].
  - by destruct v.
  - simpl. f_equal. rewrite map_map. apply map_ext_in. intros x Hx%list_elem_of_In. by apply (proj1 (Forall_forall _ _) Hl x Hx).
  - rewrite !camel_keys_dict. f_equal.
    assert (Hid : map (camel_entry depth) (dict_of (map (camel_entry depth) d)) = dict_of (map (camel_entry depth) d)).
    { apply list_eq_same_length with (n := length (dict_of (map (camel_entry depth) d))); [done|by rewrite length_map|].
      intros i x y _. rewrite list_lookup_fmap. intros [z [Hz ->]]%fmap_Some Hy. rewrite Hz in Hy. injection Hy as ->.
      assert (H : Forall (λ kv, camel_entry depth kv = kv) (dict_of (map (camel_entry depth) d))).
      { apply dict_of_forall, Forall_fmap. eapply Forall_impl; [exact Hd|]. intros kv Hkv. by apply camel_entry_idemp. }
      eapply Forall_lookup_1 in H; [|exact Hz]. done. }
    rewrite Hid. apply dict_of_id, dict_of_ok.
Qed.
