(* ===== verification/SqlProviders.v ===== *)
(** * SQL sources of the data explorer ([data-explorer-sql], [-mysql], [-mssql], [-postgres])

    The four providers, over what their drivers do: a driver is a [Record] of
    the calls the provider makes, on connections of the driver's own type.  The
    milliseconds a call took are [elapsed]. *)

From S2P Require Import Prelude PyStr Values Redact DataExplorer.
From Stdlib Require Import Ascii.

Open Scope Z_scope.

Section Providers.
Context {World : Type} (elapsed : DataExplorerExecutionContext → World → Z).

(** The results a provider makes *)
Definition success_result {Row} (cx : DataExplorerExecutionContext) (columns : option (list string)) (rows : list Row) (n : Z) (truncated : bool)
    : py World dexn (DataExplorerResult Row) := λ w,
  (inr {| x_success := true; x_source := o_name (cx_options cx); x_language := o_language (cx_options cx); x_format := o_format (cx_options cx);
          x_execution_time := elapsed cx w; x_columns := columns; x_rows := rows; x_row_count := n; x_truncated := truncated; x_error := None |}, w).
Definition error_result {Row} (cx : DataExplorerExecutionContext) (error : string) : py World dexn (DataExplorerResult Row) := λ w,
  (inr {| x_success := false; x_source := o_name (cx_options cx); x_language := o_language (cx_options cx); x_format := o_format (cx_options cx);
          x_execution_time := elapsed cx w; x_columns := None; x_rows := []; x_row_count := 0; x_truncated := false; x_error := Some error |}, w).

(** [except Exception as exc]: [asyncio.CancelledError] is not one. *)
Definition on_error {A} (h : string → py World dexn A) (e : dexn) : py World dexn A :=
  match e with DTimeout m | DExn m => h m | DCancelled => raise DCancelled end.

(** [try: conn = connect(); body  except ...: handler  finally: if conn is not None: conn.close()] *)
Definition with_connection {C A} (connect : py World dexn C) (close : C → py World dexn unit) (body : C → py World dexn A)
    (handler : dexn → py World dexn A) : py World dexn A := λ w,
  match connect w with
  | (inl e, w1) => handler e w1
  | (inr c, w1) => try_finally (try_except (body c) handler) (close c) w1
  end.

(** ** SQLite, MySQL and SQL Server: the Python database interface *)

Section DbApi.
Context {C Cell : Type}.
Record DbApi := {
  db_connect : py World dexn C;
  db_close : C → py World dexn unit;
  db_run : C → string → option (dict string pyval) → py World dexn (option (list string));   (* the names of [cursor.description] *)
  db_fetchall : C → py World dexn (list (list Cell));
  db_commit : C → py World dexn unit;
  db_rowcount : C → World → Z;
}.
Context (db : DbApi) (int_cell : Z → Cell).

Definition db_query (c : C) (parameters : option (dict string pyval)) (cx : DataExplorerExecutionContext) : py World dexn (DataExplorerResult (list Cell)) :=
  description ← db_run db c (cx_query cx) parameters;
  match description with
  | Some ((_ :: _) as columns) =>
      rows ← db_fetchall db c;
      success_result cx (Some columns) rows (Z.of_nat (length rows)) false
  | _ =>
      _ ← db_commit db c;
      changes ← gets (db_rowcount db c);
      success_result cx (Some ["changes"]) [[int_cell changes]] 1 false
  end.

(** [context.parameters or {}], [or None], [or ()] *)
Definition sqlite_execute (cx : DataExplorerExecutionContext) : py World dexn (DataExplorerResult (list Cell)) :=
  with_connection (db_connect db) (db_close db) (λ c, db_query c (Some (cx_parameters cx)) cx) (on_error (error_result cx)).
Definition or_none (d : dict string pyval) : option (dict string pyval) := match d with [] => None | d => Some d end.
Definition mysql_execute (cx : DataExplorerExecutionContext) : py World dexn (DataExplorerResult (list Cell)) :=
  with_connection (db_connect db) (db_close db) (λ c, db_query c (or_none (cx_parameters cx)) cx) (on_error (error_result cx)).
Definition _execute_sync (cx : DataExplorerExecutionContext) : py World dexn (DataExplorerResult (list Cell)) :=
  with_connection (db_connect db) (db_close db) (λ c, db_query c (or_none (cx_parameters cx)) cx) (on_error (error_result cx)).

(** *** Schemas *)

(** A row of [PRAGMA table_info], of MySQL's columns, of SQL Server's *)
Record PragmaRow := { pr_name : string; pr_type : string; pr_notnull : Z; pr_pk : Z }.
Record MySqlColumn := { my_name : string; my_type : option string; my_nullable : string; my_key : string }.
Record MsSqlColumn := { ms_name : string; ms_type : option string; ms_nullable : string }.
Definition or_type (s : option string) (d : string) : string := if truthy_opt s then or_empty s else d.

(** [for table in tables: ...], collecting a table for each *)
Fixpoint tables_loop {T} (f : T → py World dexn DataExplorerSchemaTable) (ts : list T) : py World dexn (list DataExplorerSchemaTable) :=
  match ts with
  | [] => mret []
  | t :: ts => x ← f t; xs ← tables_loop f ts; mret (x :: xs)
  end.

Definition pragma_column (r : PragmaRow) : DataExplorerSchemaColumn :=
  {| c_name := pr_name r; c_type := or_type (Some (pr_type r)) "TEXT"; c_nullable := pr_notnull r =? 0; c_primary_key := 0 <? pr_pk r |}.
Definition table_info (table : string) : string :=
  "PRAGMA table_info(" +:+ String dquote_char "" +:+ table +:+ String dquote_char "" +:+ ")".
Definition sqlite_schema (master : C → py World dexn (list (string * string))) (pragma : C → string → py World dexn (list PragmaRow))
    (o : DataExplorerProviderOptions) : py World dexn (option DataExplorerSchemaResult) :=
  with_connection (db_connect db) (db_close db)
    (λ c,
      rows ← master c;
      tables ← tables_loop (λ t : string * string,
        cols ← pragma c (table_info t.1);
        mret {| tb_name := t.1; tb_type := t.2; tb_columns := map pragma_column cols |}) rows;
      mret (Some {| sc_source := o_name o; sc_tables := tables |})) raise.

Definition mysql_column (r : MySqlColumn) : DataExplorerSchemaColumn :=
  {| c_name := my_name r; c_type := or_type (my_type r) "TEXT"; c_nullable := bool_decide (my_nullable r = "YES"); c_primary_key := bool_decide (my_key r = "PRI") |}.
Definition mysql_schema (table_rows : C → py World dexn (list (string * string))) (columns_of : C → string → py World dexn (list MySqlColumn))
    (o : DataExplorerProviderOptions) : py World dexn (option DataExplorerSchemaResult) :=
  with_connection (db_connect db) (db_close db)
    (λ c,
      rows ← table_rows c;
      tables ← tables_loop (λ t : string * string,
        cols ← columns_of c t.1;
        mret {| tb_name := t.1; tb_type := t.2; tb_columns := map mysql_column cols |}) rows;
      mret (Some {| sc_source := o_name o; sc_tables := tables |})) raise.

Definition mssql_column (pk_columns : list string) (r : MsSqlColumn) : DataExplorerSchemaColumn :=
  {| c_name := ms_name r; c_type := or_type (ms_type r) "varchar"; c_nullable := bool_decide (upper (ms_nullable r) = "YES");
     c_primary_key := bool_decide (ms_name r ∈ pk_columns) |}.
Definition normalised_type (table_type : string) : string := if bool_decide (upper (strip table_type) = "VIEW") then "view" else "table".
Definition _get_schema_sync (table_rows : C → py World dexn (list (string * string))) (columns_of : C → string → py World dexn (list MsSqlColumn))
    (pk_of : C → string → py World dexn (list string)) (o : DataExplorerProviderOptions) : py World dexn (option DataExplorerSchemaResult) :=
  with_connection (db_connect db) (db_close db)
    (λ c,
      rows ← table_rows c;
      tables ← tables_loop (λ t : string * string,
        cols ← columns_of c t.1;
        pks ← pk_of c t.1;
        mret {| tb_name := t.1; tb_type := normalised_type t.2; tb_columns := map (mssql_column pks) cols |}) rows;
      mret (Some {| sc_source := o_name o; sc_tables := tables |})) raise.
End DbApi.
Arguments DbApi : clear implicits.

(** ** PostgreSQL *)

Section Postgres.
Context {C Cell : Type}.
Record PgApi := {
  pg_connect : py World dexn C;
  pg_close : C → py World dexn unit;
  pg_attributes : C → string → py World dexn (list string);
  pg_fetch : C → string → list pyval → py World dexn (list (list Cell));
  pg_execute : C → string → list pyval → py World dexn string;
}.
Context (pg : PgApi) (int_cell : Z → Cell).

(** The arguments unpacked from [context.parameters or []]: a dictionary gives
    its keys. *)
Definition positional (cx : DataExplorerExecutionContext) : list pyval := map VStr (dict_keys (cx_parameters cx)).
(** [int(status.split()[-1])], 0 when that fails *)
Definition affected (status : string) : Z := default 0 (last (split_ws status) ≫= py_int).

Definition postgres_execute (cx : DataExplorerExecutionContext) : py World dexn (DataExplorerResult (list Cell)) :=
  with_connection (pg_connect pg) (pg_close pg)
    (λ c,
      attributes ← pg_attributes pg c (cx_query cx);
      match attributes with
      | _ :: _ =>
          rows ← pg_fetch pg c (cx_query cx) (positional cx);
          success_result cx (Some attributes) rows (Z.of_nat (length rows)) false
      | [] =>
          status ← pg_execute pg c (cx_query cx) (positional cx);
          success_result cx (Some ["changes"]) [[int_cell (affected status)]] 1 false
      end)
    (on_error (error_result cx)).

Record PgColumn := { pgc_name : string; pgc_type : string; pgc_nullable : string }.
Definition pg_column (pk_columns : list string) (r : PgColumn) : DataExplorerSchemaColumn :=
  {| c_name := pgc_name r; c_type := pgc_type r; c_nullable := bool_decide (pgc_nullable r = "YES"); c_primary_key := bool_decide (pgc_name r ∈ pk_columns) |}.
Definition postgres_schema (table_rows : C → py World dexn (list (string * string))) (columns_of : C → string → py World dexn (list PgColumn))
    (pk_of : C → string → py World dexn (list string)) (o : DataExplorerProviderOptions) : py World dexn (option DataExplorerSchemaResult) :=
  with_connection (pg_connect pg) (pg_close pg)
    (λ c,
      rows ← table_rows c;
      tables ← tables_loop (λ t : string * string,
        cols ← columns_of c t.1;
        pks ← pk_of c t.1;
        mret {| tb_name := t.1; tb_type := t.2; tb_columns := map (pg_column pks) cols |}) rows;
      mret (Some {| sc_source := o_name o; sc_tables := tables |})) raise.
End Postgres.
Arguments PgApi : clear implicits.
End Providers.
Arguments DbApi : clear implicits.
Arguments PgApi : clear implicits.

(** ** The connection string of SQL Server *)

Definition not_eq_semi (c : ascii) : bool := negb (Ascii.eqb c "="%char) && negb (Ascii.eqb c ";"%char).
Definition not_semi (c : ascii) : bool := negb (Ascii.eqb c ";"%char).

(** [_CS_RE.finditer]: a key of other characters than [=] and [;], [=], and a
    value up to the next [;]; [fuel] is the length of the text. *)
Fixpoint cs_matches (fuel : nat) (l : list ascii) : list (list ascii * list ascii) :=
  match fuel with
  | O => []
  | S fuel =>
      match l with
      | [] => []
      | _ :: tl =>
          match span not_eq_semi l with
          | ((_ :: _) as key, "="%char :: rest) =>
              let '(value, rest) := span not_semi rest in (key, value) :: cs_matches fuel rest
          | (_ :: _, rest) => cs_matches fuel rest
          | ([], _) => cs_matches fuel tl
          end
      end
  end.
Definition no_spaces (s : string) : string := str (List.filter (λ c, negb (Ascii.eqb c " "%char)) (chars s)).
Definition cs_key (key : list ascii) : string := no_spaces (lower (strip (str key))).
Definition _parse_connection_string (s : string) : dict string string :=
  foldl (λ result m, dict_set (cs_key m.1) (strip (str m.2)) result) [] (cs_matches (len s) (chars s)).

Record MssqlServer := { ms_host : string; ms_port : Z; ms_database : string; ms_user : string; ms_password : string }.
Definition first_comma (s : string) : option (string * string) :=
  match span (λ c, negb (Ascii.eqb c ","%char)) (chars s) with
  | (a, _ :: b) => Some (str a, str b)
  | (_, []) => None
  end.
Definition MssqlDataExplorerProvider (connection_string : string) : MssqlServer :=
  let params := _parse_connection_string connection_string in
  let server := default "localhost" (dict_get "server" params) in
  let '(host, port) := match first_comma server with
                       | Some (h, p) => (strip h, default 1433 (py_int (strip p)))
                       | None => (server, 1433)
                       end in
  let param k1 k2 d := if truthy_opt (dict_get k1 params) then or_empty (dict_get k1 params) else default d (dict_get k2 params) in
  {| ms_host := host; ms_port := port; ms_database := default "master" (dict_get "database" params);
     ms_user := param "userid" "uid" "sa"; ms_password := param "password" "pwd" "" |}.

(** ** What the providers promise the executor *)

Section Promises.
Context {World : Type} (elapsed : DataExplorerExecutionContext → World → Z).

(** What holds of every value the body and the handler give holds of the outcome. *)
Lemma with_connection_value {C A} (Q : A → Prop) (connect : py World dexn C) close body handler :
  (∀ c w a w', body c w = (inr a, w') → Q a) → (∀ e w a w', handler e w = (inr a, w') → Q a) →
  ∀ w a w', with_connection connect close body handler w = (inr a, w') → Q a.
Proof.
  intros Hb Hh w a w'. unfold with_connection. destruct (connect w) as [[e|c] w1]; [apply Hh|].
  unfold try_finally, try_except. destruct (body c w1) as [[e|b] w2] eqn:E.
  - destruct (handler e w2) as [[e'|x] w3] eqn:E2; destruct (close c w3) as [[?|?] w4]; try done. intros [= -> ->]. by eapply Hh.
  - destruct (close c w2) as [[?|?] w4]; [done|]. intros [= -> ->]. by eapply Hb.
Qed.

(** A connection that was opened is closed, whatever the call raises:
    [open] counts the connections. *)
Lemma with_connection_closes {C A} (open : World → Z) (connect : py World dexn C) (close : C → py World dexn unit)
    (body : C → py World dexn A) (handler : dexn → py World dexn A) :
  (∀ w, open (connect w).2 = open w + match (connect w).1 with inr _ => 1 | inl _ => 0 end) →
  (∀ c w, open (close c w).2 = open w - 1) →
  (∀ c w, open (body c w).2 = open w) → (∀ e w, open (handler e w).2 = open w) →
  ∀ w, open (with_connection connect close body handler w).2 = open w.
Proof.
  intros Hco Hcl Hb Hh w. unfold with_connection. specialize (Hco w). destruct (connect w) as [[e|c] w1]; simpl in Hco; [rewrite Hh; lia|].
  unfold try_finally, try_except. specialize (Hb c w1). destruct (body c w1) as [[e|b] w2]; simpl in Hb.
  - specialize (Hh e w2). destruct (handler e w2) as [r w3]; simpl in Hh. specialize (Hcl c w3). destruct (close c w3) as [[?|?] w4]; simpl in *; lia.
  - specialize (Hcl c w2). destruct (close c w2) as [[?|?] w4]; simpl in *; lia.
Qed.

(** A result says how many rows it has. *)
Definition counted_result {Row} (r : DataExplorerResult Row) : Prop := x_row_count r = Z.of_nat (length (x_rows r)).

Lemma error_result_counted {Row} cx e w (r : DataExplorerResult Row) w' :
  on_error (error_result elapsed cx) e w = (inr r, w') → counted_result r.
Proof. destruct e; by intros [= <- _]. Qed.
Lemma success_result_counted {Row} cx cols (rows : list Row) n t w r w' :
  n = Z.of_nat (length rows) → success_result elapsed cx cols rows n t w = (inr r, w') → counted_result r.
Proof. by intros -> [= <- _]. Qed.

Lemma counts_of {Row} (p : IDataExplorerProvider World Row) :
  (∀ cx w r w', p_execute p cx w = (inr r, w') → counted_result r) → CountsRows p.
Proof. intros H. split. intros cx w. destruct (p_execute p cx w) as [[e|r] w'] eqn:E; [done|]. by eapply H. Qed.

Section Db.
Context {C Cell : Type} (db : DbApi World C Cell) (int_cell : Z → Cell).
Lemma db_query_counted c ps cx w r w' : db_query elapsed db int_cell c ps cx w = (inr r, w') → counted_result r.
Proof.
  unfold db_query. rewrite py_bind_eq. destruct (db_run db c _ ps w) as [[e|description] w1]; [done|].
  assert (Hch : (_ ← db_commit db c; changes ← gets (db_rowcount db c); success_result elapsed cx (Some ["changes"]) [[int_cell changes]] 1 false) w1 = (inr r, w') → counted_result r).
  { rewrite py_bind_eq. destruct (db_commit db c w1) as [[e|[]] w2]; [done|]. rewrite py_bind_eq. simpl. by apply success_result_counted. }
  destruct description as [[|x xs]|]; [done| |done].
  rewrite py_bind_eq. destruct (db_fetchall db c w1) as [[e|rows] w2]; [done|]. by apply success_result_counted.
Qed.

Definition SqlDataExplorerProvider master pragma : IDataExplorerProvider World (list Cell) :=
  {| p_execute := sqlite_execute elapsed db int_cell; p_get_schema := sqlite_schema db master pragma |}.
Definition MySqlDataExplorerProvider table_rows columns_of : IDataExplorerProvider World (list Cell) :=
  {| p_execute := mysql_execute elapsed db int_cell; p_get_schema := mysql_schema db table_rows columns_of |}.
Definition MssqlProvider table_rows columns_of pk_of : IDataExplorerProvider World (list Cell) :=
  {| p_execute := _execute_sync elapsed db int_cell; p_get_schema := _get_schema_sync db table_rows columns_of pk_of |}.

#[export] Instance sqlite_counts master pragma : CountsRows (SqlDataExplorerProvider master pragma).
Proof. apply counts_of. intros cx. apply with_connection_value; intros; [by eapply db_query_counted|by eapply error_result_counted]. Qed.
#[export] Instance mysql_counts table_rows columns_of : CountsRows (MySqlDataExplorerProvider table_rows columns_of).
Proof. apply counts_of. intros cx. apply with_connection_value; intros; [by eapply db_query_counted|by eapply error_result_counted]. Qed.
#[export] Instance mssql_counts table_rows columns_of pk_of : CountsRows (MssqlProvider table_rows columns_of pk_of).
Proof. apply counts_of. intros cx. apply with_connection_value; intros; [by eapply db_query_counted|by eapply error_result_counted]. Qed.
End Db.

Section Pg.
Context {C Cell : Type} (pg : PgApi World C Cell) (int_cell : Z → Cell).
Definition PostgresDataExplorerProvider table_rows columns_of pk_of : IDataExplorerProvider World (list Cell) :=
  {| p_execute := postgres_execute elapsed pg int_cell; p_get_schema := postgres_schema pg table_rows columns_of pk_of |}.
#[export] Instance postgres_counts table_rows columns_of pk_of : CountsRows (PostgresDataExplorerProvider table_rows columns_of pk_of).
Proof.
  apply counts_of. intros cx. apply with_connection_value; intros c w r w'; [|by apply error_result_counted].
  rewrite py_bind_eq. destruct (pg_attributes pg c _ w) as [[e|[|x xs]] w1]; [done| |].
  - rewrite py_bind_eq. destruct (pg_execute pg c _ _ w1) as [[e|status] w2]; [done|]. by apply success_result_counted.
  - rewrite py_bind_eq. destruct (pg_fetch pg c _ _ w1) as [[e|rows] w2]; [done|]. by apply success_result_counted.
Qed.
End Pg.
End Promises.

(** ** Connection strings *)

Lemma span_all p (a b : list ascii) :
  Forall (λ c, p c = true) a → match b with [] => True | c :: _ => p c = false end → span p (a ++ b) = (a, b).
Proof.
  intros Ha Hb. induction Ha as [|c a Hc Ha IH]; simpl; [destruct b as [|c b]; [done|]; simpl; by rewrite Hb|]. by rewrite Hc, IH.
Qed.

(** A setting of a connection string *)
Definition setting_ok (kv : list ascii * list ascii) : Prop :=
  kv.1 ≠ [] ∧ Forall (λ c, not_eq_semi c = true) kv.1 ∧ Forall (λ c, not_semi c = true) kv.2.
Fixpoint settings_text (kvs : list (list ascii * list ascii)) : list ascii :=
  match kvs with
  | [] => []
  | [kv] => kv.1 ++ "="%char :: kv.2
  | kv :: kvs => kv.1 ++ "="%char :: kv.2 ++ ";"%char :: settings_text kvs
  end.

Lemma cs_matches_settings kvs fuel :
  Forall setting_ok kvs → (length (settings_text kvs) ≤ fuel)%nat → cs_matches fuel (settings_text kvs) = kvs.
Proof.
  revert fuel; induction kvs as [|[k v] kvs IH]; intros fuel Hok Hf; [by destruct fuel|].
  apply Forall_cons in Hok as [(Hne & Hk & Hv) Hok]. simpl in *. destruct k as [|c k]; [done|].
  assert (Hstep : ∀ rest, (match rest with [] => True | d :: _ => d = ";"%char end) → (length ((c :: k) ++ "="%char :: v ++ rest) ≤ fuel)%nat →
    cs_matches fuel ((c :: k) ++ "="%char :: v ++ rest) = (c :: k, v) :: cs_matches (fuel - 1) rest).
  { intros rest Hr Hl. destruct fuel as [|fuel]; [simpl in Hl; lia|]. change (S fuel - 1)%nat with (fuel - 0)%nat. rewrite Nat.sub_0_r.
    change (cs_matches (S fuel) ((c :: k) ++ "="%char :: v ++ rest)) with
      (match span not_eq_semi ((c :: k) ++ "="%char :: v ++ rest) with
       | ((_ :: _) as key, "="%char :: rest) => let '(value, rest) := span not_semi rest in (key, value) :: cs_matches fuel rest
       | (_ :: _, rest) => cs_matches fuel rest
       | ([], _) => cs_matches fuel (k ++ "="%char :: v ++ rest)
       end).
    rewrite span_all by done. rewrite span_all; [done|done|]. destruct rest as [|d rest]; [done|]. by subst d. }
  destruct kvs as [|kv kvs].
  - specialize (Hstep []). rewrite !app_nil_r in Hstep. rewrite Hstep by done. by destruct (fuel - 1)%nat.
  - rewrite Hstep by done. f_equal.
    assert (Hl : (S (length (settings_text (kv :: kvs))) < fuel)%nat).
    { change (length (settings_text ((c :: k, v) :: kv :: kvs)) ≤ fuel)%nat in Hf. simpl in Hf. rewrite length_app in Hf. simpl in Hf. rewrite length_app in Hf. simpl in *. lia. }
    destruct (fuel - 1)%nat as [|f] eqn:Hfe; [lia|].
    change (cs_matches (S f) (";"%char :: settings_text (kv :: kvs))) with (cs_matches f (settings_text (kv :: kvs))).
    apply IH; [done|]. lia.
Qed.

(** A connection string of settings [key=value], joined with [;], is read as
    the dictionary of exactly those settings, later ones winning; keys ignore
    case and spaces. *)
Theorem connection_string_read kvs :
  Forall setting_ok kvs →
  _parse_connection_string (str (settings_text kvs)) = dict_of (map (λ kv, (cs_key kv.1, strip (str kv.2))) kvs).
Proof.
  intros Hok. unfold _parse_connection_string, dict_of. rewrite len_chars, !chars_str, cs_matches_settings by done.
  generalize (@nil (string * string)). induction kvs as [|kv kvs IH]; intros acc; simpl; [done|]. apply IH. by apply Forall_cons in Hok as [_ ?].
Qed.
