(* ===== verification/DocumentProviders.v ===== *)
(** * Redis, MongoDB and Elasticsearch sources of the data explorer
      ([data-explorer-redis], [-mongo], [-elasticsearch])

    The three providers over what their clients do, as [SqlProviders.v] does
    for databases. *)

From S2P Require Import Prelude PyStr Values Utf8 Redact ShellProcs DataExplorer SqlProviders.
From Stdlib Require Import Ascii.

Open Scope Z_scope.

(** ** Redis *)
Module Redis.

Definition _ALLOWED_COMMANDS : list string :=
  ["GET"; "MGET"; "GETRANGE"; "STRLEN"; "TYPE"; "TTL"; "PTTL"; "PERSIST"; "EXISTS"; "KEYS"; "SCAN"; "OBJECT"; "DEBUG";
   "HGET"; "HMGET"; "HGETALL"; "HKEYS"; "HVALS"; "HLEN"; "HEXISTS"; "LRANGE"; "LLEN"; "LINDEX";
   "SMEMBERS"; "SCARD"; "SRANDMEMBER"; "SISMEMBER"; "ZRANGE"; "ZRANGEBYSCORE"; "ZRANGEBYLEX"; "ZREVRANGE"; "ZREVRANGEBYSCORE";
   "ZSCORE"; "ZRANK"; "ZREVRANK"; "ZCARD"; "ZCOUNT"; "XRANGE"; "XREVRANGE"; "XLEN"; "XREAD";
   "INFO"; "DBSIZE"; "TIME"; "PING"; "CLIENT"; "SET"; "MSET"; "SETEX"; "PSETEX"; "SETNX";
   "DEL"; "UNLINK"; "RENAME"; "EXPIRE"; "PEXPIRE"; "EXPIREAT"; "HSET"; "HMSET"; "HDEL";
   "LPUSH"; "RPUSH"; "LPOP"; "RPOP"; "LSET"; "LREM"; "SADD"; "SREM"; "SMOVE"; "ZADD"; "ZREM"; "ZINCRBY";
   "INCR"; "DECR"; "INCRBY"; "DECRBY"; "INCRBYFLOAT"; "APPEND"].
Definition _PAIR_LIST_COMMANDS : list string := ["HGETALL"].
Definition _LIST_COMMANDS : list string :=
  ["KEYS"; "HKEYS"; "HVALS"; "SMEMBERS"; "LRANGE"; "ZRANGE"; "ZREVRANGE"; "ZRANGEBYSCORE"; "ZREVRANGEBYSCORE"; "ZRANGEBYLEX"; "MGET"].
Definition _SCALAR_COMMANDS : list string :=
  ["GET"; "HGET"; "LINDEX"; "SRANDMEMBER"; "ZSCORE"; "TYPE"; "TTL"; "PTTL"; "STRLEN"; "LLEN"; "HLEN"; "SCARD"; "ZCARD"; "ZRANK";
   "ZREVRANK"; "ZCOUNT"; "EXISTS"; "HEXISTS"; "SISMEMBER"; "DBSIZE"; "PING"].

(** What the client answers: [RBytes] before decoding, [RText] (code points)
    after; the keys of a dictionary are bytes, then texts. *)
Inductive redis_value :=
| RNone | RBool (b : bool) | RInt (z : Z) | RFloat (repr : string)
| RBytes (b : bytes) | RText (t : text)
| RList (l : list redis_value)
| RDict (d : list (list Z * redis_value)).

Fixpoint _decode (value : redis_value) : redis_value :=
  match value with
  | RBytes b => RText (decode b)
  | RList l => RList (map _decode l)
  | RDict d => RDict (foldl (λ acc kv, dict_set kv.1 kv.2 acc) [] (map (λ kv, (decode kv.1, _decode kv.2)) d))
  | v => v
  end.

(** [[decoded[i], decoded[i + 1]] for i in range(0, len(decoded) - 1, 2)] *)
Fixpoint pairs (l : list redis_value) : list (list redis_value) :=
  match l with
  | a :: b :: l => [a; b] :: pairs l
  | _ => []
  end.

(** The names of columns are texts: those of a dictionary are its keys. *)
Definition ascii_text (s : string) : text := map (λ c, Z.of_N (N_of_ascii c)) (chars s).
Definition value_rows (l : list redis_value) : list text * list (list redis_value) := ([ascii_text "value"], map (λ v, [v]) l).

Definition _normalise_result (command : string) (raw : redis_value) : list text * list (list redis_value) :=
  let decoded := _decode raw in
  if bool_decide (command ∈ _PAIR_LIST_COMMANDS) then
    match decoded with
    | RDict d => ([ascii_text "field"; ascii_text "value"], map (λ kv, [RText kv.1; kv.2]) d)
    | RList l => ([ascii_text "field"; ascii_text "value"], pairs l)
    | v => value_rows [v]
    end
  else if bool_decide (command ∈ _LIST_COMMANDS) then
    match decoded with RList l => value_rows l | v => value_rows [v] end
  else if bool_decide (command ∈ _SCALAR_COMMANDS) then value_rows [decoded]
  else
    match decoded with
    | RList l => value_rows l
    | RDict d => (map fst d, [map snd d])
    | v => value_rows [v]
    end.

(** *** The words of a query *)

(** The loop: the words, the current one, the open quote *)
Fixpoint words_loop (parts : list string) (cur : list ascii) (quote : option ascii) (l : list ascii) : list string :=
  match l with
  | [] => match cur with [] => parts | _ => parts ++ [str cur] end
  | ch :: l =>
      match quote with
      | Some q => if Ascii.eqb ch q then words_loop parts cur None l else words_loop parts (cur ++ [ch]) quote l
      | None =>
          if Ascii.eqb ch quote_char || Ascii.eqb ch dquote_char then words_loop parts cur (Some ch) l
          else if is_space ch then
            match cur with [] => words_loop parts [] None l | _ => words_loop (parts ++ [str cur]) [] None l end
          else words_loop parts (cur ++ [ch]) None l
      end
  end.
Definition _parse_command_args (query : string) : list string := words_loop [] [] None (chars (strip query)).

(** *** A query *)

Section Provider.
Context {World C : Type} (elapsed : DataExplorerExecutionContext → World → Z).
Record RedisApi := {
  rd_from_url : py World dexn C;
  rd_aclose : C → py World dexn unit;
  rd_execute_command : C → string → list string → py World dexn redis_value;
  rd_scan : C → Z → py World dexn (Z * list string);
  rd_type : C → string → py World dexn string;
}.
Context (redis : RedisApi).

Definition RedisRow : Type := list redis_value.
(** The names of the columns, as strings *)
Context (show : text → string).

Definition not_permitted (command : string) : string :=
  "Command '" +:+ command +:+ "' is not permitted. Only safe read/write Redis commands are allowed.".
(** Its dash is written by the bytes of its encoding. *)
Definition empty_query : string := "Empty query — please provide a Redis command.".

Definition redis_execute (cx : DataExplorerExecutionContext) : py World dexn (DataExplorerResult RedisRow) :=
  match _parse_command_args (cx_query cx) with
  | [] => error_result elapsed cx empty_query
  | word :: args =>
      let command := upper word in
      if negb (bool_decide (command ∈ _ALLOWED_COMMANDS)) then error_result elapsed cx (not_permitted command)
      else
        with_connection (rd_from_url redis) (rd_aclose redis)
          (λ c,
            raw ← rd_execute_command redis c command args;
            let '(columns, rows) := _normalise_result command raw in
            success_result elapsed cx (Some (map show columns)) rows (Z.of_nat (length rows)) false)
          (on_error (error_result elapsed cx))
  end.

(** *** The schema *)

Definition max_keys : nat := 1000.
(** The scan; [None]: it has not ended within [fuel] calls. *)
Fixpoint scan_keys (fuel : nat) (c : C) (cursor : Z) (keys : list string) : py World dexn (option (list string)) :=
  match fuel with
  | O => mret None
  | S fuel =>
      answer ← rd_scan redis c cursor;
      let '(cursor, batch) := answer in
      let keys := keys ++ batch in
      if (cursor =? 0) || (max_keys <=? length keys)%nat then mret (Some keys) else scan_keys fuel c cursor keys
  end.
Fixpoint group_types (c : C) (keys : list string) (acc : dict string (list string)) : py World dexn (dict string (list string)) :=
  match keys with
  | [] => mret acc
  | key :: keys =>
      t ← rd_type redis c key;
      group_types c keys (dict_set t (default [] (dict_get t acc) ++ [key]) acc)
  end.
Definition col (name type : string) (nullable primary : bool) : DataExplorerSchemaColumn :=
  {| c_name := name; c_type := type; c_nullable := nullable; c_primary_key := primary |}.
Definition _TYPE_COLUMNS : dict string (list DataExplorerSchemaColumn) :=
  let key := col "key" "string" false true in
  [("string", [key; col "value" "string" true false]);
   ("hash", [key; col "field" "string" false false; col "value" "string" true false]);
   ("list", [key; col "index" "integer" false false; col "value" "string" true false]);
   ("set", [key; col "member" "string" true false]);
   ("zset", [key; col "member" "string" false false; col "score" "float" false false]);
   ("stream", [key; col "id" "string" false false; col "fields" "object" true false])].
Definition other_columns : list DataExplorerSchemaColumn := [col "key" "string" false true; col "value" "string" true false].
Definition type_le (a b : string * list string) : bool := String.leb a.1 b.1.
Definition type_table (t : string * list string) : DataExplorerSchemaTable :=
  {| tb_name := t.1; tb_type := "table"; tb_columns := default other_columns (dict_get t.1 _TYPE_COLUMNS) |}.
Definition redis_schema (fuel : nat) (o : DataExplorerProviderOptions) : py World dexn (option (option DataExplorerSchemaResult)) :=
  with_connection (rd_from_url redis) (rd_aclose redis)
    (λ c,
      keys ← scan_keys fuel c 0 [];
      match keys with
      | None => mret None
      | Some keys =>
          types ← group_types c (take max_keys keys) [];
          mret (Some (Some {| sc_source := o_name o; sc_tables := map type_table (py_sort type_le types) |}))
      end) raise.
End Provider.
Arguments RedisApi : clear implicits.
End Redis.

(** ** MongoDB *)
Module Mongo.

(** A document of the driver *)
Inductive bson :=
| BValue (v : pyval)          (* neither a list nor a dictionary *)
| BObjectId (hex : string)
| BBytes (b : bytes)
| BList (l : list bson)
| BDict (d : list (string * bson)).

Definition hex_byte (b : Z) : string := str [hex_digit (Z.to_N (b / 16)); hex_digit (Z.to_N (b `mod` 16))].
Fixpoint _bson_to_serializable (obj : bson) : pyval :=
  match obj with
  | BObjectId hex => VStr hex
  | BDict d => VDict (map (λ kv, (kv.1, _bson_to_serializable kv.2)) d)
  | BList l => VList (map _bson_to_serializable l)
  | BBytes b => VStr (join "" (map hex_byte b))
  | BValue v => v
  end.

(** *** Queries *)

(** The loop of [_split_and_parse_args]: the arguments, what was read of the
    current one, the depth of brackets *)
Fixpoint split_loop (args : list (list ascii)) (current : list ascii) (depth : Z) (l : list ascii) : list (list ascii) :=
  match l with
  | [] => match current with [] => args | _ => args ++ [current] end
  | c :: l =>
      if Ascii.eqb c "{"%char || Ascii.eqb c "["%char then split_loop args (current ++ [c]) (depth + 1) l
      else if Ascii.eqb c "}"%char || Ascii.eqb c "]"%char then split_loop args (current ++ [c]) (depth - 1) l
      else if Ascii.eqb c ","%char && (depth =? 0) then split_loop (args ++ [current]) [] depth l
      else split_loop args (current ++ [c]) depth l
  end.
Definition split_args (s : string) : list string := map (λ w, strip (str w)) (split_loop [] [] 0 (chars s)).

Section Parser.
(** [json.loads]; [None]: it raised *)
Context (json_loads : string → option bson).
Definition _split_and_parse_args (s : string) : option (list bson) := mapM json_loads (split_args s).

(** [re.match] of a stripped query: [db.], a word, a point, a word and an
    argument list in parentheses that ends the query *)
Definition match_query (l : list ascii) : option (string * string * string) :=
  match l with
  | "d"%char :: "b"%char :: "."%char :: l =>
      match span is_word l with
      | ((_ :: _) as coll, "."%char :: l) =>
          match span is_word l with
          | ((_ :: _) as op, "("%char :: l) =>
              match rev l with
              | ")"%char :: r => Some (str coll, str op, str (rev r))
              | _ => None
              end
          | _ => None
          end
      | _ => None
      end
  | _ => None
  end.
Definition _parse_query (query : string) : option (string * string * list bson) :=
  match match_query (chars query) with
  | None => None
  | Some (coll, op, args) =>
      let args := strip args in
      if is_empty args then Some (coll, op, []) else (λ l, (coll, op, l)) <$> _split_and_parse_args args
  end.
End Parser.

(** *** A query *)

Record Updated := { acknowledged : bool; matched_count : Z; modified_count : Z }.
Record DbInfo := { db_name : string; db_size : option bson; db_empty : option bson }.

Section Provider.
Context {World C : Type} (elapsed : DataExplorerExecutionContext → World → Z).
(** The driver: its calls on the collection of a name *)
Record MongoApi := {
  mg_client : py World dexn C;
  mg_close : C → py World dexn unit;
  mg_list_collection_names : C → py World dexn (list string);
  mg_list_databases : C → py World dexn (list DbInfo);
  mg_find : C → string → bson → bson → Z → py World dexn (list bson);      (* filter, projection, [to_list(length)] *)
  mg_find_one : C → string → option bson → py World dexn (option bson);
  mg_aggregate : C → string → bson → py World dexn (list bson);
  mg_insert_one : C → string → bson → py World dexn (bool * string);
  mg_insert_many : C → string → bson → py World dexn (bool * Z);
  mg_update : bool → C → string → bson → bson → py World dexn Updated;     (* many? *)
  mg_delete : bool → C → string → bson → py World dexn (bool * Z);
  mg_count_documents : C → string → bson → py World dexn Z;
  mg_distinct : C → string → bson → bson → py World dexn (list bson);
}.
Context (mongo : MongoApi) (json_loads : string → option bson).

(** A row is a document, or the cells of [countDocuments]. *)
Definition MongoRow : Type := pyval.
Abbreviation success := (success_result elapsed).
Definition documents (cx : DataExplorerExecutionContext) (rows : list MongoRow) (truncated : bool) : py World dexn (DataExplorerResult MongoRow) :=
  success cx None rows (Z.of_nat (length rows)) truncated.
Definition one_row (cx : DataExplorerExecutionContext) (fields : dict string pyval) : py World dexn (DataExplorerResult MongoRow) :=
  success cx None [VDict fields] 1 false.

Definition empty_doc : bson := BDict [].
Definition arg (args : list bson) (i : nat) (d : bson) : bson := default d (args !! i).
Definition or_1000 (n : Z) : Z := if n =? 0 then 1000 else n.
(** [if doc]: an empty document is false *)
Definition doc_rows (doc : option bson) : list MongoRow :=
  match doc with None | Some (BDict []) => [] | Some d => [_bson_to_serializable d] end.
Definition updated_fields (r : Updated) : dict string pyval :=
  [("acknowledged", VBool (acknowledged r)); ("matchedCount", VInt (matched_count r)); ("modifiedCount", VInt (modified_count r))].
Definition deleted_fields (r : bool * Z) : dict string pyval := [("acknowledged", VBool r.1); ("deletedCount", VInt r.2)].
Definition db_row (d : DbInfo) : MongoRow :=
  _bson_to_serializable (BDict [("name", BValue (VStr (db_name d))); ("sizeOnDisk", default (BValue (VInt 0)) (db_size d));
                                ("empty", default (BValue (VBool false)) (db_empty d))]).

Definition invalid_syntax : string :=
  "Invalid query syntax. Use: db.collection.find({...}), db.collection.aggregate([...]), show collections, show dbs".
Definition unsupported (operation : string) : string :=
  "Unsupported operation: " +:+ operation +:+ ". Supported: find, findOne, aggregate, insertOne, insertMany, updateOne, updateMany, deleteOne, deleteMany, countDocuments, distinct".

Definition run_operation (cx : DataExplorerExecutionContext) (c : C) (coll operation : string) (args : list bson) : py World dexn (DataExplorerResult MongoRow) :=
  let op := lower operation in
  let same o := bool_decide (op = o) in
  if same "find" then
    let max_rows := or_1000 (o_max_rows (cx_options cx)) in
    docs ← mg_find mongo c coll (arg args 0 empty_doc) (arg args 1 (BValue VNone)) (max_rows + 1);
    let truncated := max_rows <? Z.of_nat (length docs) in
    documents cx (map _bson_to_serializable (if truncated then removelast docs else docs)) truncated
  else if same "findone" then doc ← mg_find_one mongo c coll (Some (arg args 0 empty_doc)); documents cx (doc_rows doc) false
  else if same "aggregate" then docs ← mg_aggregate mongo c coll (arg args 0 (BList [])); documents cx (map _bson_to_serializable docs) false
  else if same "insertone" then
    r ← mg_insert_one mongo c coll (arg args 0 empty_doc); one_row cx [("acknowledged", VBool r.1); ("insertedId", VStr r.2)]
  else if same "insertmany" then
    r ← mg_insert_many mongo c coll (arg args 0 (BList [])); one_row cx [("acknowledged", VBool r.1); ("insertedCount", VInt r.2)]
  else if same "updateone" then r ← mg_update mongo false c coll (arg args 0 empty_doc) (arg args 1 empty_doc); one_row cx (updated_fields r)
  else if same "updatemany" then r ← mg_update mongo true c coll (arg args 0 empty_doc) (arg args 1 empty_doc); one_row cx (updated_fields r)
  else if same "deleteone" then r ← mg_delete mongo false c coll (arg args 0 empty_doc); one_row cx (deleted_fields r)
  else if same "deletemany" then r ← mg_delete mongo true c coll (arg args 0 empty_doc); one_row cx (deleted_fields r)
  else if same "countdocuments" then
    count ← mg_count_documents mongo c coll (arg args 0 empty_doc); success cx (Some ["count"]) [VList [VInt count]] 1 false
  else if same "distinct" then
    values ← mg_distinct mongo c coll (arg args 0 (BValue (VStr ""))) (arg args 1 empty_doc);
    documents cx (map (λ v, VDict [("value", _bson_to_serializable v)]) values) false
  else error_result elapsed cx (unsupported operation).

Definition mongo_query (cx : DataExplorerExecutionContext) (c : C) : py World dexn (DataExplorerResult MongoRow) :=
  let query := strip (cx_query cx) in
  if bool_decide (lower query = "show collections") then
    names ← mg_list_collection_names mongo c;
    documents cx (map (λ n, VDict [("name", VStr n)]) (py_sort String.leb names)) false
  else if bool_decide (lower query ∈ ["show dbs"; "show databases"]) then
    infos ← mg_list_databases mongo c; documents cx (map db_row infos) false
  else
    match _parse_query json_loads query with
    | None => error_result elapsed cx invalid_syntax
    | Some (coll, operation, args) => run_operation cx c coll operation args
    end.
Definition mongo_execute (cx : DataExplorerExecutionContext) : py World dexn (DataExplorerResult MongoRow) :=
  with_connection (mg_client mongo) (mg_close mongo) (mongo_query cx) (on_error (error_result elapsed cx)).

(** *** The schema *)

(** [type(value).__name__] *)
Definition type_of (v : bson) : string :=
  match v with
  | BList _ | BValue (VList _) => "array"
  | BDict _ | BValue (VDict _) => "object"
  | BValue VNone => "null"
  | BValue (VBool _) => "bool" | BValue (VInt _) => "int" | BValue (VFloat _) => "float" | BValue (VStr _) => "str"
  | BValue (VTime _) => "datetime" | BObjectId _ => "ObjectId" | BBytes _ => "bytes"
  end.
Definition field_column (kv : string * bson) : DataExplorerSchemaColumn :=
  {| c_name := kv.1; c_type := type_of kv.2; c_nullable := true; c_primary_key := bool_decide (kv.1 = "_id") |}.
Definition sample_columns (sample : option bson) : list DataExplorerSchemaColumn :=
  match sample with Some (BDict d) => map field_column d | _ => [] end.
Definition mongo_schema (o : DataExplorerProviderOptions) : py World dexn (option DataExplorerSchemaResult) :=
  with_connection (mg_client mongo) (mg_close mongo)
    (λ c,
      names ← mg_list_collection_names mongo c;
      tables ← tables_loop (λ name,
        sample ← mg_find_one mongo c name None;
        mret {| tb_name := name; tb_type := "collection"; tb_columns := sample_columns sample |}) (py_sort String.leb names);
      mret (Some {| sc_source := o_name o; sc_tables := tables |})) raise.
End Provider.
Arguments MongoApi : clear implicits.
End Mongo.

(** ** Elasticsearch *)
Module Elastic.

(** [first_line.split(None, 1)] *)
Definition split_once (s : string) : list string :=
  match chars (strip s) with
  | [] => []
  | l => let '(w, rest) := span (λ c, negb (is_space c)) l in
         match rest with [] => [str w] | _ => [str w; str (lstrip_chars is_space rest)] end
  end.
Definition METHODS : list string := ["GET"; "POST"; "PUT"; "DELETE"; "HEAD"; "PATCH"].
Definition request_line (first_line : string) : string * string :=
  match split_once first_line with
  | [m; path] => if bool_decide (upper m ∈ METHODS) then (upper m, strip path) else ("GET", first_line)
  | _ => ("GET", first_line)
  end.
(** The tables of [_cat] as JSON *)
Definition cat_path (path : string) : string :=
  if (contains "/_cat/" path || starts_with path "_cat/") && negb (contains "format=json" path)
  then path +:+ (if has_char "?"%char path then "&" else "?") +:+ "format=json" else path.

Record EsRequest := { es_method : string; es_path : string; es_body : option pyval }.
Definition newline_str : string := String (ascii_of_nat 10) "".
(** [json_loads]: the message of the error, or the value *)
Definition es_request (json_loads : string → string + pyval) (query : string) : string + EsRequest :=
  let lines := splitlines (strip query) in
  let '(method, path) := request_line (strip (default "" (head lines))) in
  let body_text := strip (join newline_str (tail lines)) in
  let request body := {| es_method := method; es_path := cat_path path; es_body := body |} in
  if is_empty body_text then inr (request None)
  else match json_loads body_text with inl e => inl e | inr v => inr (request (Some v)) end.

(** *** The answer as a table *)

(** [value.get(k, d)] and [value.keys()] *)
Definition py_class (v : pyval) : string :=
  match v with
  | VNone => "NoneType" | VBool _ => "bool" | VInt _ => "int" | VFloat _ => "float" | VStr _ => "str" | VTime _ => "datetime"
  | VList _ => "list" | VDict _ => "dict"
  end.
Definition no_attribute (v : pyval) (a : string) : string := "'" +:+ py_class v +:+ "' object has no attribute '" +:+ a +:+ "'".
Definition get_of (v : pyval) (k : string) (d : pyval) : string + pyval :=
  match v with VDict x => inr (default d (dict_get k x)) | v => inl (no_attribute v "get") end.
Definition keys_of (v : pyval) : string + list string :=
  match v with VDict x => inr (dict_keys x) | v => inl (no_attribute v "keys") end.

(** The rest of a list of calls that may raise *)
Fixpoint each {A B} (f : A → string + B) (l : list A) : string + list B :=
  match l with
  | [] => inr []
  | x :: l => match f x with inl e => inl e | inr y => match each f l with inl e => inl e | inr ys => inr (y :: ys) end end
  end.
Definition andthen {A B} (m : string + A) (f : A → string + B) : string + B := match m with inl e => inl e | inr a => f a end.

Fixpoint add_keys (all_keys ks : list string) : list string :=
  match ks with [] => all_keys | k :: ks => add_keys (if bool_decide (k ∈ all_keys) then all_keys else all_keys ++ [k]) ks end.
Fixpoint hit_keys (all_keys : list string) (hits : list pyval) : string + list string :=
  match hits with
  | [] => inr all_keys
  | hit :: hits => andthen (get_of hit "_source" hit) (λ src, andthen (keys_of src) (λ ks, hit_keys (add_keys all_keys ks) hits))
  end.
Definition hit_row (columns : list string) (hit : pyval) : string + pyval :=
  andthen (get_of hit "_source" hit) (λ src, andthen (each (λ col, get_of src col VNone) columns) (λ cells, inr (VList cells))).
Definition item_row (columns : list string) (item : pyval) : string + pyval :=
  andthen (each (λ col, get_of item col VNone) columns) (λ cells, inr (VList cells)).

Definition es_table : Type := list string * list pyval.
(** [for hit in hits]: a dictionary gives its keys, a text its characters *)
Definition iterate (v : pyval) : string + list pyval :=
  match v with
  | VList l => inr l
  | VDict d => inr (map VStr (dict_keys d))
  | VStr s => inr (map (λ c, VStr (str [c])) (chars s))
  | v => inl ("'" +:+ py_class v +:+ "' object is not iterable")
  end.
Definition truth (v : pyval) : bool :=
  match v with
  | VNone | VBool false | VList [] | VDict [] => false
  | VInt z => negb (z =? 0)
  | VStr s => truthy s
  | VFloat r => negb (bool_decide (r ∈ ["0.0"; "-0.0"]))
  | _ => true
  end.
(** The hits of a search, when there are some *)
Definition search_hits (raw : pyval) : option pyval :=
  match raw with
  | VDict d =>
      match dict_get "hits" d with
      | Some (VDict h) => let hits := default (VList []) (dict_get "hits" h) in if truth hits then Some hits else None
      | _ => None
      end
  | _ => None
  end.
Definition tabulate (dumps : pyval → string) (raw : pyval) : string + es_table :=
  match search_hits raw with
  | Some hits =>
      andthen (iterate hits) (λ hits, andthen (hit_keys [] hits) (λ columns, andthen (each (hit_row columns) hits) (λ rows, inr (columns, rows))))
  | None =>
      match raw with
      | VList [] => inr ([], [])
      | VList ((VDict d :: _) as items) => andthen (each (item_row (dict_keys d)) items) (λ rows, inr (dict_keys d, rows))
      | VList items => inr (["value"], map (λ i, VList [i]) items)
      | raw => inr (["result"], [VList [VStr (dumps raw)]])
      end
  end.

Section Provider.
Context {World C : Type} (elapsed : DataExplorerExecutionContext → World → Z).
Record EsApi := {
  es_client : py World dexn C;
  es_close : C → py World dexn unit;
  es_perform_request : C → EsRequest → py World dexn pyval;       (* [response.body] *)
}.
Context (es : EsApi) (json_loads : string → string + pyval) (dumps : pyval → string).

Definition or_raise {A} (m : string + A) : py World dexn A := match m with inl e => raise (DExn e) | inr a => mret a end.

Definition es_execute (cx : DataExplorerExecutionContext) : py World dexn (DataExplorerResult pyval) :=
  with_connection (es_client es) (es_close es)
    (λ c,
      request ← or_raise (es_request json_loads (cx_query cx));
      raw ← es_perform_request es c request;
      result ← or_raise (tabulate dumps raw);
      success_result elapsed cx (Some result.1) result.2 (Z.of_nat (length result.2)) false)
    (on_error (error_result elapsed cx)).

(** *** The schema *)

Definition index_name (info : pyval) : string + pyval := get_of info "index" (VStr "").
Definition get_request (path : string) : EsRequest := {| es_method := "GET"; es_path := path; es_body := None |}.
Definition es_field (kv : string * pyval) : string + DataExplorerSchemaColumn :=
  andthen (get_of kv.2 "type" (VStr "object")) (λ t,
    inr {| c_name := kv.1; c_type := match t with VStr s => s | v => dumps v end; c_nullable := true; c_primary_key := false |}).
Definition items_of (v : pyval) : string + dict string pyval :=
  match v with VDict d => inr d | v => inl (no_attribute v "items") end.
Definition mapping_columns (name : string) (mapping : pyval) : string + list DataExplorerSchemaColumn :=
  match mapping with
  | VDict d =>
      andthen (get_of (default (VDict []) (dict_get name d)) "mappings" (VDict [])) (λ mappings,
        andthen (get_of mappings "properties" (VDict [])) (λ properties, andthen (items_of properties) (each es_field)))
  | _ => inr []
  end.
(** An index whose mapping cannot be fetched is listed without columns. *)
Definition index_table (c : C) (name : string) : py World dexn DataExplorerSchemaTable :=
  try_except
    (mapping ← es_perform_request es c (get_request ("/" +:+ name +:+ "/_mapping"));
     columns ← or_raise (mapping_columns name mapping);
     mret {| tb_name := name; tb_type := "index"; tb_columns := columns |})
    (on_error (λ _, mret {| tb_name := name; tb_type := "index"; tb_columns := [] |})).
(** The names of the indices: a false one and those of the system are left out. *)
Fixpoint indices_loop (c : C) (infos : list pyval) : py World dexn (list DataExplorerSchemaTable) :=
  match infos with
  | [] => mret []
  | info :: infos =>
      name ← or_raise (index_name info);
      if negb (truth name) then indices_loop c infos
      else match name with
           | VStr s =>
               if starts_with s "." then indices_loop c infos
               else t ← index_table c s; ts ← indices_loop c infos; mret (t :: ts)
           | v => raise (DExn (no_attribute v "startswith"))
           end
  end.
Definition es_schema (o : DataExplorerProviderOptions) : py World dexn (option DataExplorerSchemaResult) :=
  with_connection (es_client es) (es_close es)
    (λ c,
      raw ← es_perform_request es c (get_request "/_cat/indices?format=json");
      tables ← match raw with VList infos => indices_loop c infos | _ => mret [] end;
      mret (Some {| sc_source := o_name o; sc_tables := tables |})) raise.
End Provider.
Arguments EsApi : clear implicits.
End Elastic.

(** ** What the providers promise the executor *)

Section Counted.
Context {World Row : Type} (elapsed : DataExplorerExecutionContext → World → Z).
Definition always_counted (m : py World dexn (DataExplorerResult Row)) : Prop := ∀ w r w', m w = (inr r, w') → counted_result r.

Lemma counted_bind {A} (m : py World dexn A) (f : A → py World dexn (DataExplorerResult Row)) :
  (∀ a, always_counted (f a)) → always_counted (m ≫= f).
Proof. intros Hf w r w'. rewrite py_bind_eq. destruct (m w) as [[e|a] w1]; [done|apply Hf]. Qed.
Lemma counted_success cx cols (rows : list Row) n t : n = Z.of_nat (length rows) → always_counted (success_result elapsed cx cols rows n t).
Proof. intros Hn w r w'. by apply success_result_counted. Qed.
Lemma counted_error cx e : always_counted (error_result elapsed cx e).
Proof. by intros w r w' [= <- _]. Qed.
Lemma counted_connection {C} (connect : py World dexn C) close body cx :
  (∀ c, always_counted (body c)) → always_counted (with_connection connect close body (on_error (error_result elapsed cx))).
Proof.
  intros Hb. unfold always_counted. apply with_connection_value; [intros c w a w'; by apply Hb|intros e w a w'; by apply error_result_counted].
Qed.
End Counted.

Create HintDb counted.
#[export] Hint Resolve counted_bind counted_success counted_error counted_connection : counted.

Section Promises.
Context {World C : Type} (elapsed : DataExplorerExecutionContext → World → Z).

Lemma redis_counted (redis : Redis.RedisApi World C) show cx : always_counted (Redis.redis_execute elapsed redis show cx).
Proof.
  unfold Redis.redis_execute. destruct (Redis._parse_command_args _) as [|word args]; [auto with counted|].
  destruct (negb _); [auto with counted|]. apply counted_connection. intros c. apply counted_bind. intros raw.
  destruct (Redis._normalise_result _ raw). auto with counted.
Qed.
#[export] Instance redis_counts (redis : Redis.RedisApi World C) show schema :
  CountsRows {| p_execute := Redis.redis_execute elapsed redis show; p_get_schema := schema |}.
Proof. apply counts_of. intros cx. apply redis_counted. Qed.

Lemma run_operation_counted (mongo : Mongo.MongoApi World C) cx c coll operation args :
  always_counted (Mongo.run_operation elapsed mongo cx c coll operation args).
Proof. unfold Mongo.run_operation, Mongo.documents, Mongo.one_row. repeat case_match; auto with counted. Qed.
#[export] Instance mongo_counts (mongo : Mongo.MongoApi World C) json_loads :
  CountsRows {| p_execute := Mongo.mongo_execute elapsed mongo json_loads; p_get_schema := Mongo.mongo_schema mongo |}.
Proof.
  apply counts_of. intros cx. apply counted_connection. intros c. unfold Mongo.mongo_query, Mongo.documents.
  destruct (bool_decide _); [auto with counted|]. destruct (bool_decide _); [auto with counted|].
  destruct (Mongo._parse_query _ _) as [[[coll op] args]|]; [apply run_operation_counted|auto with counted].
Qed.

#[export] Instance es_counts (es : Elastic.EsApi World C) json_loads dumps :
  CountsRows {| p_execute := Elastic.es_execute elapsed es json_loads dumps; p_get_schema := Elastic.es_schema es dumps |}.
Proof. apply counts_of. intros cx. apply counted_connection. auto with counted. Qed.
End Promises.

(** ** Redis: commands *)

Section RedisSafety.
Import Redis.

(** A word in double quotes *)
Definition quoted (w : string) : string := String dquote_char "" +:+ w +:+ String dquote_char "".

Lemma words_quoted parts cur w l :
  dquote_char ∉ w → words_loop parts cur (Some dquote_char) (w ++ dquote_char :: l) = words_loop parts (cur ++ w) None l.
Proof.
  revert cur; induction w as [|c w IH]; intros cur Hw; [by rewrite app_nil_r|].
  apply not_elem_of_cons in Hw as [Hc Hw].
  change (words_loop parts cur (Some dquote_char) ((c :: w) ++ dquote_char :: l)) with
    (if Ascii.eqb c dquote_char then words_loop parts cur None (w ++ dquote_char :: l) else words_loop parts (cur ++ [c]) (Some dquote_char) (w ++ dquote_char :: l)).
  destruct (Ascii.eqb_spec c dquote_char) as [->|_]; [done|]. rewrite IH by done. by rewrite <-(assoc_L (++)).
Qed.

Lemma words_of_quoted ws : ∀ parts,
  Forall (λ w, w ≠ "" ∧ dquote_char ∉ chars w) ws →
  words_loop parts [] None (chars (join " " (map quoted ws))) = parts ++ ws.
Proof.
  induction ws as [|w ws IH]; intros parts Hws; [by rewrite app_nil_r|].
  apply Forall_cons in Hws as [[Hne Hq] Hws].
  assert (Hcw : chars w ≠ []) by (intros H; apply Hne; by rewrite <-(str_chars w), H).
  assert (Hend : ∀ l, words_loop parts [] None (chars (quoted w) ++ l) = words_loop parts (chars w) None l).
  { intros l. unfold quoted. rewrite !chars_app, <-!(assoc_L (++)).
    change (words_loop parts [] None (chars (String dquote_char "") ++ chars w ++ chars (String dquote_char "") ++ l)) with
      (words_loop parts [] (Some dquote_char) (chars w ++ dquote_char :: l)). by rewrite words_quoted. }
  destruct ws as [|w' ws].
  - specialize (Hend []). rewrite app_nil_r in Hend. simpl map. change (join " " [quoted w]) with (quoted w). rewrite Hend.
    simpl. destruct (chars w) as [|c l] eqn:E; [done|]. by rewrite <-E, str_chars.
  - change (join " " (map quoted (w :: w' :: ws))) with (quoted w +:+ (" " +:+ join " " (map quoted (w' :: ws)))).
    rewrite chars_app, Hend, chars_app.
    change (words_loop parts (chars w) None (chars " " ++ chars (join " " (map quoted (w' :: ws))))) with
      (match chars w with [] => words_loop parts [] None (chars (join " " (map quoted (w' :: ws))))
                        | _ => words_loop (parts ++ [str (chars w)]) [] None (chars (join " " (map quoted (w' :: ws)))) end).
    destruct (chars w) as [|c l] eqn:E; [done|]. rewrite <-E, str_chars. rewrite IH by done. by rewrite <-(assoc_L (++)).
Qed.

Lemma quoted_ends w : head (chars (quoted w)) = Some dquote_char ∧ last (chars (quoted w)) = Some dquote_char.
Proof. unfold quoted. split; [done|]. rewrite !chars_app, (assoc_L (++)). apply last_snoc. Qed.
Lemma last_app_l {A} (a b : list A) x : last b = Some x → last (a ++ b) = Some x.
Proof. intros H. destruct (exists_last (l := b)) as (b' & y & ->); [by intros ->|]. rewrite last_snoc in H. by rewrite (assoc_L (++)), last_snoc. Qed.
Lemma join_quoted_ends ws : ws ≠ [] →
  head (chars (join " " (map quoted ws))) = Some dquote_char ∧ last (chars (join " " (map quoted ws))) = Some dquote_char.
Proof.
  induction ws as [|w [|w' ws] IH]; intros Hne; [done|apply quoted_ends|].
  change (join " " (map quoted (w :: w' :: ws))) with (quoted w +:+ (" " +:+ join " " (map quoted (w' :: ws)))).
  destruct IH as [_ IH]; [done|]. destruct (quoted_ends w) as [Hh _]. rewrite !chars_app. split.
  - by destruct (chars (quoted w)).
  - by apply last_app_l, last_app_l.
Qed.

(** The words of a command survive the splitting when each is put in double
    quotes: a word may hold spaces and single quotes, but neither double
    quotes nor nothing (an empty quoted word is dropped). *)
Theorem parse_quoted_words ws :
  Forall (λ w, w ≠ "" ∧ dquote_char ∉ chars w) ws → _parse_command_args (join " " (map quoted ws)) = ws.
Proof.
  intros Hws. unfold _parse_command_args.
  assert (Hs : strip (join " " (map quoted ws)) = join " " (map quoted ws)).
  { destruct ws as [|w ws]; [done|]. destruct (join_quoted_ends (w :: ws)) as [Hh Hl]; [done|].
    unfold strip. rewrite strip_chars_id; [apply str_chars|..]; intros c; rewrite ?Hh, ?Hl; by intros [= <-]. }
  rewrite Hs. by apply words_of_quoted.
Qed.

(** *** Only the permitted commands reach the server *)

Section OnlyAllowed.
Context {World C : Type} (elapsed : DataExplorerExecutionContext → World → Z) (redis : RedisApi World C) (show : text → string).
(** [log w]: the commands the server was sent. *)
Context (log : World → list string).
Context (connects : ∀ w, log (rd_from_url redis w).2 = log w).
Context (closes : ∀ c w, log (rd_aclose redis c w).2 = log w).
Context (executes : ∀ c cmd args w, log (rd_execute_command redis c cmd args w).2 = log w ++ [cmd]).

(** A query sends the server at most one command, and only one of the
    permitted ones; a query without words, or with another command, is answered
    without connecting. *)
Theorem redis_only_allowed cx w :
  ∃ cmds, log (redis_execute elapsed redis show cx w).2 = log w ++ cmds ∧ (length cmds ≤ 1)%nat ∧ Forall (λ c, c ∈ _ALLOWED_COMMANDS) cmds ∧
    (cmds ≠ [] → ∃ word args, _parse_command_args (cx_query cx) = word :: args ∧ cmds = [upper word]).
Proof.
  assert (Hnone : ∀ w', log w' = log w →
    ∃ cmds, log w' = log w ++ cmds ∧ (length cmds ≤ 1)%nat ∧ Forall (λ c, c ∈ _ALLOWED_COMMANDS) cmds ∧
    (cmds ≠ [] → ∃ word args, _parse_command_args (cx_query cx) = word :: args ∧ cmds = [upper word])).
  { intros w' ->. exists []. rewrite app_nil_r. split_and!; [done|simpl; lia|done|done]. }
  unfold redis_execute. destruct (_parse_command_args (cx_query cx)) as [|word args] eqn:Hp; [by apply Hnone|].
  case_bool_decide as Ha; simpl; [|by apply Hnone].
  unfold with_connection. specialize (connects w). destruct (rd_from_url redis w) as [[e|c] w1]; simpl in *; [destruct e; by apply Hnone|].
  assert (Hone : ∀ w', log w' = log w ++ [upper word] →
    ∃ cmds, log w' = log w ++ cmds ∧ (length cmds ≤ 1)%nat ∧ Forall (λ c, c ∈ _ALLOWED_COMMANDS) cmds ∧
    (cmds ≠ [] → ∃ word0 args0, word :: args = word0 :: args0 ∧ cmds = [upper word0])).
  { intros w' ->. exists [upper word]. split_and!; [done|simpl; lia|by apply Forall_singleton|]. intros _. by exists word, args. }
  unfold try_finally, try_except. rewrite py_bind_eq. specialize (executes c (upper word) args w1). rewrite connects in executes.
  destruct (rd_execute_command redis c (upper word) args w1) as [[e|raw] w2]; simpl in *.
  - assert (H : log (on_error (error_result elapsed cx) e w2 : (dexn + DataExplorerResult RedisRow) * World).2 = log w2) by by destruct e.
    destruct (on_error (error_result elapsed cx) e w2) as [r w3]; simpl in H. specialize (closes c w3).
    destruct (rd_aclose redis c w3) as [[?|?] w4]; simpl in *; apply Hone; congruence.
  - destruct (_normalise_result (upper word) raw) as [cols rows]. simpl. specialize (closes c w2).
    destruct (rd_aclose redis c w2) as [[?|?] w4]; simpl in *; apply Hone; congruence.
Qed.
End OnlyAllowed.

(** *** The table of an answer *)

Lemma pairs_two l : Forall (λ r, length r = 2%nat) (pairs l).
Proof. enough (H : ∀ n l, (length l ≤ n)%nat → Forall (λ r, length r = 2%nat) (pairs l)) by by apply (H (length l)).
  induction n as [|n IH]; intros k Hk; destruct k as [|a [|b k]]; simpl in *; try constructor; try done; try lia. apply IH. lia.
Qed.
Lemma value_rows_one l : Forall (λ r, length r = length (value_rows l).1) (value_rows l).2.
Proof. apply Forall_fmap, Forall_forall. by intros. Qed.

(** Every row of the table has a cell for every column. *)
Theorem normalise_rectangular command raw :
  Forall (λ r, length r = length (_normalise_result command raw).1) (_normalise_result command raw).2.
Proof.
  unfold _normalise_result. destruct (bool_decide _); [destruct (_decode raw); try apply value_rows_one; simpl; [apply pairs_two|]|].
  - apply Forall_fmap, Forall_forall. by intros.
  - destruct (bool_decide _); [destruct (_decode raw); apply value_rows_one|]. destruct (bool_decide _); [apply value_rows_one|].
    destruct (_decode raw); try apply value_rows_one. simpl. repeat constructor. by rewrite !length_map.
Qed.

(** *** The scan *)

(** When every answer that is not the last brings a key, a thousand calls are enough. *)
Lemma scan_ends {World C : Type} (redis : RedisApi World C) c fuel : ∀ cursor keys w,
  (∀ cursor w n batch w', rd_scan redis c cursor w = (inr (n, batch), w') → n ≠ 0 → batch ≠ []) →
  (max_keys ≤ length keys + fuel)%nat → (0 < fuel)%nat →
  (scan_keys redis fuel c cursor keys w).1 ≠ inr None.
Proof.
  induction fuel as [|fuel IH]; intros cursor keys w Hs Hf H0; [lia|]. cbn [scan_keys]. rewrite py_bind_eq.
  destruct (rd_scan redis c cursor w) as [[e|[n batch]] w1] eqn:E; [done|].
  destruct (Z.eqb_spec n 0) as [|Hn]; [done|]. cbn [orb]. destruct (Nat.leb_spec max_keys (length (keys ++ batch))) as [|Hlt]; [done|].
  specialize (Hs cursor w n batch w1 E Hn) as Hb. destruct batch as [|k batch]; [done|]. rewrite length_app in Hlt. simpl in Hlt.
  apply IH; [done|rewrite length_app; simpl; lia|lia].
Qed.
End RedisSafety.

(** ** MongoDB: argument lists *)

Section MongoArgs.
Import Mongo.

(** The depth of brackets after a text; [None]: it has a comma outside of them *)
Fixpoint depth_after (depth : Z) (l : list ascii) : option Z :=
  match l with
  | [] => Some depth
  | c :: l =>
      if Ascii.eqb c "{"%char || Ascii.eqb c "["%char then depth_after (depth + 1) l
      else if Ascii.eqb c "}"%char || Ascii.eqb c "]"%char then depth_after (depth - 1) l
      else if Ascii.eqb c ","%char && (depth =? 0) then None
      else depth_after depth l
  end.
Definition one_argument (w : list ascii) : Prop := w ≠ [] ∧ depth_after 0 w = Some 0.
Fixpoint comma_list (ws : list (list ascii)) : list ascii :=
  match ws with [] => [] | [w] => w | w :: ws => w ++ ","%char :: comma_list ws end.

Lemma split_loop_word args rest w : ∀ cur depth depth',
  depth_after depth w = Some depth' → split_loop args cur depth (w ++ rest) = split_loop args (cur ++ w) depth' rest.
Proof.
  induction w as [|c w IH]; intros cur depth depth'; simpl; [intros [= ->]; by rewrite app_nil_r|].
  destruct (_ || _); [intros H%(IH (cur ++ [c])); by rewrite <-(assoc_L (++)) in H|].
  destruct (_ || _); [intros H%(IH (cur ++ [c])); by rewrite <-(assoc_L (++)) in H|].
  destruct (_ && _); [done|]. intros H%(IH (cur ++ [c])). by rewrite <-(assoc_L (++)) in H.
Qed.
Lemma split_loop_list ws : ∀ args, Forall one_argument ws → split_loop args [] 0 (comma_list ws) = args ++ ws.
Proof.
  induction ws as [|w ws IH]; intros args Hws; [by rewrite app_nil_r|]. apply Forall_cons in Hws as [[Hne Hd] Hws].
  destruct ws as [|w' ws].
  - pose proof (split_loop_word args [] w [] 0 0 Hd) as H. rewrite app_nil_r in H. simpl comma_list. rewrite H. simpl. by destruct w.
  - change (comma_list (w :: w' :: ws)) with (w ++ ","%char :: comma_list (w' :: ws)).
    rewrite (split_loop_word args _ w [] 0 0 Hd). simpl app.
    change (split_loop args w 0 (","%char :: comma_list (w' :: ws))) with (split_loop (args ++ [w]) [] 0 (comma_list (w' :: ws))).
    rewrite IH by done. by rewrite <-(assoc_L (++)).
Qed.

(** Arguments with balanced brackets and no comma outside of them are parsed
    one by one. *)
Theorem split_and_parse_args json_loads ws :
  Forall one_argument ws →
  _split_and_parse_args json_loads (str (comma_list ws)) = mapM (λ w, json_loads (strip (str w))) ws.
Proof.
  intros Hws. unfold _split_and_parse_args, split_args. rewrite chars_str, split_loop_list by done. simpl.
  clear Hws. induction ws as [|w ws IH]; [done|]. simpl. by rewrite IH.
Qed.
End MongoArgs.

(** ** Elasticsearch: tables *)

Section ElasticTable.
Import Elastic.
Lemma each_length {A B} (f : A → string + B) l ys : each f l = inr ys → length ys = length l.
Proof.
  revert ys; induction l as [|x l IH]; intros ys; simpl; [by intros [= <-]|].
  destruct (f x); [done|]. destruct (each f l) as [|zs]; [done|]. intros [= <-]. simpl. by rewrite (IH zs).
Qed.
Lemma each_forall {A B} (f : A → string + B) (P : B → Prop) l ys : (∀ x y, f x = inr y → P y) → each f l = inr ys → Forall P ys.
Proof.
  intros Hf. revert ys; induction l as [|x l IH]; intros ys; simpl; [by intros [= <-]|].
  destruct (f x) as [|y] eqn:E; [done|]. destruct (each f l) as [|zs]; [done|]. intros [= <-]. constructor; [by eapply Hf|by apply IH].
Qed.

Definition row_of (n : nat) (r : pyval) : Prop := ∃ cells, r = VList cells ∧ length cells = n.
Lemma item_row_of columns item r : item_row columns item = inr r → row_of (length columns) r.
Proof. unfold item_row. destruct (each _ columns) as [|cells] eqn:E; [done|]. intros [= <-]. exists cells. split; [done|]. by eapply each_length. Qed.
Lemma hit_row_of columns hit r : hit_row columns hit = inr r → row_of (length columns) r.
Proof. unfold hit_row. destruct (get_of hit _ _) as [|src]; [done|]. apply item_row_of. Qed.

(** Whatever the server answers, every row of the table has a cell for every column. *)
Theorem tabulate_rectangular dumps raw columns rows :
  tabulate dumps raw = inr (columns, rows) → Forall (row_of (length columns)) rows.
Proof.
  unfold tabulate. destruct (search_hits raw) as [hits|].
  - destruct (iterate hits) as [|hs]; [done|]. simpl. destruct (hit_keys [] hs) as [|cols]; [done|]. simpl.
    destruct (each (hit_row cols) hs) as [|rs] eqn:E; [done|]. intros [= <- <-]. eapply each_forall; [|done]. apply hit_row_of.
  - assert (Hone : ∀ items : list pyval, Forall (row_of 1) (map (λ i, VList [i]) items)).
    { intros items. apply Forall_fmap, Forall_forall. intros x _. by exists [x]. }
    assert (Hsingle : ∀ v, Forall (row_of 1) [VList [v]]) by (intros v; apply (Hone [v])).
    destruct raw as [|b|z|r|s|t|[|[|b|z|r|s|t|l|d] items]|d]; try (by intros [= <- <-]; simpl; apply Hsingle); try (by intros [= <- <-]; apply (Hone (_ :: items))); [by intros [= <- <-]|].
    destruct (each (item_row (dict_keys d)) (VDict d :: items)) as [|rs] eqn:E; [done|]. intros [= <- <-]. eapply each_forall; [|done]. apply item_row_of.
Qed.
End ElasticTable.

(** ** A server with a Redis and a SQL source *)
Module ExplorerExample.
Import Redis.
Record W := { w_log : list string; w_open : Z }.
Definition sent_to (cmd : string) (w : W) : W := {| w_log := w_log w ++ [cmd]; w_open := w_open w |}.
Definition opened (n : Z) (w : W) : W := {| w_log := w_log w; w_open := w_open w + n |}.
Definition bytes_of (s : string) : redis_value := RBytes (ascii_text s).
Definition redis : RedisApi W unit :=
  {| rd_from_url := modify (opened 1); rd_aclose := λ _, modify (opened (-1));
     rd_execute_command := λ _ cmd args w,
       (if bool_decide (cmd = "KEYS") then inr (RList [bytes_of "a"; bytes_of "b"; bytes_of "c"])
        else if bool_decide (cmd = "HGETALL") then inr (RDict [(ascii_text "f", bytes_of "v")])
        else inl (DExn "unknown command"), sent_to cmd w);
     rd_scan := λ _ _, mret (0, ["a"; "b"]); rd_type := λ _ k, mret (if bool_decide (k = "a") then "string" else "hash") |}.
Definition show (t : text) : string := str (map (λ z, ascii_of_N (Z.to_N z)) t).
Definition opts (limit : Z) : DataExplorerProviderOptions :=
  {| o_name := "cache"; o_description := "Cache"; o_language := L_REDIS; o_format := F_TABLE; o_parameters := []; o_templates := [];
     o_timeout := 30000; o_max_rows := limit |}.
Definition provider : IDataExplorerProvider W Redis.RedisRow :=
  {| p_execute := redis_execute (λ _ _, 3) redis show; p_get_schema := λ o, (s ← redis_schema redis 1000 o; mret (default None s)) |}.
Definition registry : DataExplorerRegistry W Redis.RedisRow := register_provider provider (opts 2) [].
Definition ask (query : string) : DataExplorerExecuteRequest := {| q_source := "cache"; q_query := query; q_parameters := None |}.
Definition w0 : W := {| w_log := []; w_open := 0 |}.
Definition in_time : DataExplorerExecutionContext → W → option W := λ _ _, None.


Lemma redis_only_allowed_witness :
  ∃ cmds, w_log (redis_execute (λ _ _, 3) redis show (context_of (ask "hgetall 'my key'") (opts 2)) w0).2 = cmds ∧
    Forall (λ c, c ∈ _ALLOWED_COMMANDS) cmds ∧ cmds = ["HGETALL"].
Proof.
  destruct (redis_only_allowed (λ _ _, 3) redis show w_log (λ _, eq_refl) (λ _ _, eq_refl) (λ _ _ _ _, eq_refl)
    (context_of (ask "hgetall 'my key'") (opts 2)) w0) as (cmds & H & _ & Hall & _).
  exists cmds. change (w_log w0) with (@nil string) in H. simpl app in H. split; [done|]. split; [done|].
  rewrite <-H. reflexivity.
Defined.

Example flush_is_refused :
  (dx_execute in_time registry (ask "FLUSHALL") w0) =
  (inr {| x_success := false; x_source := "cache"; x_language := L_REDIS; x_format := F_TABLE; x_execution_time := 3; x_columns := None; x_rows := [];
          x_row_count := 0; x_truncated := false; x_error := Some (not_permitted "FLUSHALL") |}, w0).
Proof. reflexivity. Qed.
(** An empty quoted word is dropped: [SET k] and an empty text is sent as [SET k]. *)
Example empty_word_dropped : _parse_command_args ("SET k " +:+ quoted "") = ["SET"; "k"].
Proof. reflexivity. Qed.
(** [DEBUG] and [CLIENT] count as safe. *)
Example debug_is_permitted : (redis_execute (λ _ _, 3) redis show (context_of (ask "debug segfault") (opts 2)) w0).2 = sent_to "DEBUG" w0.
Proof. reflexivity. Qed.
Example timeout_is_told :
  (dx_execute (λ _ w, Some w) registry (ask "keys *") w0).1 = inr (failure "cache" L_REDIS F_TABLE 30000 "Query timed out after 30000ms").
Proof. reflexivity. Qed.

(** The keys of the columns of a schema stay in snake case, all others are converted. *)
Example primary_key_stays :
  _camel_keys 0 (schema_dict {| sc_source := "s"; sc_tables := [{| tb_name := "t"; tb_type := "table"; tb_columns := [pragma_column {| pr_name := "id"; pr_type := ""; pr_notnull := 1; pr_pk := 1 |}] |}] |}) =
  VDict [("source", VStr "s"); ("tables", VList [VDict [("name", VStr "t"); ("type", VStr "table"); ("columns", VList [
    VDict [("name", VStr "id"); ("type", VStr "TEXT"); ("nullable", VBool false); ("primary_key", VBool true)]])]])].
Proof. reflexivity. Qed.
Example options_are_camel :
  match sources_route registry with DxOk (VList [VDict d]) => dict_keys d | _ => [] end =
  ["name"; "description"; "language"; "defaultOutputFormat"; "parameters"; "templates"; "timeout"; "maxRows"].
Proof. reflexivity. Qed.
(** PostgreSQL is passed the names of the parameters instead of their values. *)
Example names_are_passed : positional {| cx_query := "SELECT $1"; cx_parameters := [("id", VInt 5)]; cx_options := opts 2 |} = [VStr "id"].
Proof. reflexivity. Qed.
Example affected_ex : map affected ["INSERT 0 3"; "CREATE TABLE"; ""] = [3; 0; 0].
Proof. reflexivity. Qed.
(** A table whose name holds a double quote makes a statement that ends early. *)
Example quote_in_table : table_info (str [dquote_char]) = "PRAGMA table_info(" +:+ str [dquote_char; dquote_char; dquote_char] +:+ ")".
Proof. reflexivity. Qed.
Example connection_ex :
  MssqlDataExplorerProvider "Server= db ,1444; User Id=sa;Password=;Database=x=y" =
  {| ms_host := "db"; ms_port := 1444; ms_database := "x=y"; ms_user := "sa"; ms_password := "" |}.
Proof. reflexivity. Qed.

(** A comma in a text that is an argument splits it: [distinct] on a field with
    a comma is invalid syntax. *)
Example comma_splits : Mongo.split_args (str [dquote_char] +:+ "a,b" +:+ str [dquote_char]) = [str [dquote_char] +:+ "a"; "b" +:+ str [dquote_char]].
Proof. reflexivity. Qed.
(** So does one after a bracket in a text. *)
Example bracket_splits :
  length (Mongo.split_args ("{" +:+ str [dquote_char] +:+ "a" +:+ str [dquote_char] +:+ ": " +:+ str [dquote_char] +:+ "}, b" +:+ str [dquote_char] +:+ "}")) = 2%nat.
Proof. reflexivity. Qed.
Example parse_ex loads : Mongo._parse_query loads "db.users.find( )" = Some ("users", "find", []) ∧ Mongo._parse_query loads "db.users.find" = None.
Proof. split; reflexivity. Qed.
Example es_request_ex :
  Elastic.es_request (λ _, inr VNone) "get /_cat/indices?v" =
  inr {| Elastic.es_method := "GET"; Elastic.es_path := "/_cat/indices?v&format=json"; Elastic.es_body := None |}.
Proof. reflexivity. Qed.
Example es_hits_ex dumps :
  Elastic.tabulate dumps (VDict [("hits", VDict [("hits", VList [VDict [("_source", VDict [("a", VInt 1)])]; VDict [("_source", VDict [("b", VInt 2)])]])])]) =
  inr (["a"; "b"], [VList [VInt 1; VNone]; VList [VNone; VInt 2]]).
Proof. reflexivity. Qed.
End ExplorerExample.
