(* ===== verification/McpFeatures.v ===== *)
(** * The MCP tools of the features ([core/mcp/features.py])

    [server_info], the tools over the file storage and those over the data
    explorer.  Arguments passed the schema of their tool, so a path is a text;
    a file is bytes, and its text is code points, which a result shows as a
    string by [show]. *)

From S2P Require Import Prelude PyStr Values Commands Outputs Utf8 FileTree FileRefine FileStorage FilesApi McpCore Redact ShellProcs DataExplorer SqlProviders DocumentProviders.
From Stdlib Require Import Ascii.

Open Scope Z_scope.

Definition READ_ONLY : dict string pyval := [("readOnlyHint", VBool true)].
Definition DESTRUCTIVE : dict string pyval := [("destructiveHint", VBool true)].
Definition DEFAULT_MAX_BYTES : Z := 262144.
Definition text_result (t : string) (s : option (dict string pyval)) : McpToolResult := {| r_text := t; structured := s; is_error := false |}.
Definition line_break : string := String (ascii_of_nat 10) "".

(** ** The strict decoder of UTF-8 *)

(** [decoder.decode(head, final)]: without [final], the start of a character at
    the end is kept back; [fuel] is the length of the bytes, and [None] is
    [UnicodeDecodeError]. *)
Fixpoint decode_strict (final : bool) (fuel : nat) (l : bytes) : option text :=
  match l, fuel with
  | [], _ => Some []
  | _, O => None
  | l, S fuel =>
      match step_utf8 l with
      | Char c rest => cons c <$> decode_strict final fuel rest
      | More => if final then None else Some []
      | Bad => None
      end
  end.

(** ** Files *)

Definition fexn_class (e : fexn) : string :=
  match e with
  | FileStorageNotFoundError _ => "FileStorageNotFoundError" | FileStoragePermissionError _ => "FileStoragePermissionError"
  | FileStorageExistsError _ => "FileStorageExistsError" | FileStorageNotADirectoryError _ => "FileStorageNotADirectoryError"
  | FileStorageIsADirectoryError _ => "FileStorageIsADirectoryError" | NameError _ => "NameError" | KeyError _ => "KeyError"
  | UnicodeEncodeError => "UnicodeEncodeError" | HostError _ => "Exception" | CancelledError => "CancelledError"
  end.

Section Files.
Context {St : Type} `{P : IFileStorageProvider St}.
(** [str] of a value that is no JSON; [int] of a float *)
Context (float_int : string → Z) (show : text → string).
(** How the stream of a download cuts the file *)
Context (chunks : bytes → list bytes).

(** [_guard]; [CancelledError] is no [Exception]. *)
Definition _guard (fn : dict string pyval → py St fexn McpToolResult) (arguments : dict string pyval) (_ : McpCallContext) : py St exn McpToolResult := λ s,
  match fn arguments s with
  | (inr r, s) => (inr r, s)
  | (inl CancelledError, s) => (inl Cancelled, s)
  | (inl e, s) => (inr (result_error (if is_empty (fexn_str e) then fexn_class e else fexn_str e)), s)
  end.

(** [args[key]] *)
Definition with_arg (key : string) (args : dict string pyval) (k : string → py St fexn McpToolResult) : py St fexn McpToolResult :=
  match dict_get key args with Some (VStr s) => k s | _ => raise (KeyError key) end.

Definition opt_val (s : option string) : pyval := match s with Some s => VStr s | None => VNone end.
Definition entry_fields (e : FileEntry) : dict string pyval :=
  [("name", VStr (e_name e)); ("type", VStr (e_type e)); ("size", VInt (e_size e)); ("modified", VStr (e_modified e)); ("permissions", opt_val (e_permissions e))].
Definition stat_fields (f : FileStat) : dict string pyval :=
  [("name", VStr (f_name f)); ("type", VStr (f_type f)); ("size", VInt (f_size f)); ("created", VStr (f_created f)); ("modified", VStr (f_modified f));
   ("permissions", opt_val (f_permissions f))].
Definition entry_line (e : FileEntry) : string :=
  if bool_decide (e_type e = "directory") then e_name e +:+ "/" else e_name e +:+ "  " +:+ str_of_Z (e_size e) +:+ " bytes".
Definition stat_line (kv : string * pyval) : string := kv.1 +:+ ": " +:+ value_str (λ _, "") kv.2.

Definition tool_fs_list (args : dict string pyval) : py St fexn McpToolResult :=
  with_arg "path" args (λ path,
    entries ← fs_list path;
    mret (text_result (join line_break (map entry_line entries))
      (Some [("path", VStr path); ("entries", VList (map (λ e, VDict (entry_fields e)) entries))]))).
Definition tool_fs_stat (args : dict string pyval) : py St fexn McpToolResult :=
  with_arg "path" args (λ path,
    info ← fs_stat path;
    mret (text_result (join line_break (map stat_line (stat_fields info))) (Some (stat_fields info)))).

(** [data.extend(chunk)] until it is longer than the limit *)
Fixpoint take_chunks (max_bytes : Z) (data : bytes) (cs : list bytes) : bytes :=
  match cs with
  | [] => data
  | c :: cs => let data := data ++ c in if max_bytes <? Z.of_nat (length data) then data else take_chunks max_bytes data cs
  end.
Definition max_bytes_of (args : dict string pyval) : Z :=
  match dict_get "maxBytes" args with
  | Some (VInt z) => z
  | Some (VFloat r) => float_int r
  | _ => DEFAULT_MAX_BYTES
  end.
Definition binary_file (total : Z) : string := "binary file, " +:+ str_of_Z total +:+ " bytes".
Definition truncated_note (head total : Z) : string :=
  line_break +:+ "[truncated: " +:+ str_of_Z head +:+ " of " +:+ str_of_Z total +:+ " bytes]".

(** What is sent of the bytes that were read: an error, or the text and the note *)
Definition shown_text (max_bytes size : Z) (data : bytes) : string + (text * string) :=
  let total := Z.max size (Z.of_nat (length data)) in
  let truncated := max_bytes <? total in
  let head := firstn (Z.to_nat max_bytes) data in
  match decode_strict (negb truncated) (length head) head with
  | None => inl (binary_file total)
  | Some t =>
      if bool_decide (0 ∈ t) then inl (binary_file total)
      else inr (t, if truncated then truncated_note (Z.of_nat (length head)) total else "")
  end.

Definition tool_fs_read (args : dict string pyval) : py St fexn McpToolResult :=
  with_arg "path" args (λ path,
    let max_bytes := max_bytes_of args in
    if max_bytes <? 1 then mret (result_error "maxBytes must be at least 1")
    else
      info ← fs_stat path;
      if bool_decide (f_type info = "directory") then mret (result_error ("Is a directory: " +:+ path))
      else
        stream ← fs_get_download_stream path;
        mret (match shown_text max_bytes (f_size info) (take_chunks max_bytes [] (chunks stream)) with
              | inl e => result_error e
              | inr (t, note) => text_result (show t +:+ note) None
              end)).

Definition tool_fs_write (args : dict string pyval) : py St fexn McpToolResult :=
  with_arg "content" args (λ content,
    with_arg "path" args (λ path,
      _ ← fs_write_file path (Text (Redis.ascii_text content));
      mret (text_result ("Wrote " +:+ str_of_nat (length (default [] (encode (Redis.ascii_text content)))) +:+ " bytes to " +:+ path) None))).
Definition tool_fs_mkdir (args : dict string pyval) : py St fexn McpToolResult :=
  with_arg "path" args (λ path, _ ← fs_mkdir path true; mret (text_result ("Created " +:+ path) None)).
Definition tool_fs_delete (args : dict string pyval) : py St fexn McpToolResult :=
  with_arg "path" args (λ path,
    _ ← fs_remove path (match dict_get "recursive" args with Some (VBool b) => b | _ => false end);
    mret (text_result ("Deleted " +:+ path) None)).

Definition described (type description : string) : pyval := VDict [("type", VStr type); ("description", VStr description)].
Definition _PATH : pyval := described "string" "Path of the file or directory".
Definition path_only : dict string pyval := object_schema [("path", _PATH)] ["path"].
Definition tool (name description : string) (schema : dict string pyval) (fn : dict string pyval → py St fexn McpToolResult) (permission : string)
    (a : option (dict string pyval)) : McpTool St :=
  {| t_name := name; t_description := description; input_schema := schema; t_call := _guard fn; t_required_permissions := [permission]; annotations := a |}.
Definition filesystem_tools : list (McpTool St) :=
  [tool "fs_list" "List a directory" path_only tool_fs_list "files:read" (Some READ_ONLY);
   tool "fs_stat" "File or directory metadata" path_only tool_fs_stat "files:read" (Some READ_ONLY);
   tool "fs_read" "Read a UTF-8 text file (binary files are refused)"
     (object_schema [("path", _PATH); ("maxBytes", VDict [("type", VStr "integer"); ("default", VInt DEFAULT_MAX_BYTES);
        ("description", VStr "Maximum number of bytes to read (at least 1)")])] ["path"])
     tool_fs_read "files:read" (Some READ_ONLY);
   tool "fs_write" "Create or overwrite a text file" (object_schema [("path", _PATH); ("content", described "string" "File content (UTF-8)")] ["path"; "content"])
     tool_fs_write "files:write" None;
   tool "fs_mkdir" "Create a directory (with missing parents)" path_only tool_fs_mkdir "files:write" None;
   tool "fs_delete" "Delete a file or directory"
     (object_schema [("path", _PATH); ("recursive", VDict [("type", VStr "boolean"); ("default", VBool false);
        ("description", VStr "Delete a non-empty directory with its content")])] ["path"])
     tool_fs_delete "files:write" (Some DESTRUCTIVE)].
Definition FilesystemMcpToolProvider : IMcpToolProvider St := {| mcp_tier := Some TIER_BUILTIN; get_tools := λ _, mret (Some filesystem_tools) |}.
End Files.

(** ** Sources of data *)

(** Whether [json.dumps] takes a value: a [datetime] it gives to [_plain], which
    gives it back, and that is a circle. *)
Fixpoint json_value (v : pyval) : bool :=
  match v with
  | VTime _ => false
  | VList l => forallb json_value l
  | VDict d => forallb (λ kv, json_value kv.2) d
  | _ => true
  end.
Definition circular : string := "Circular reference detected".
(** [json.loads(json.dumps(v, default=_plain))] *)
Definition json_copy (v : pyval) : string + pyval := if json_value v then inr v else inl circular.
Definition fields_of (v : pyval) : dict string pyval := match v with VDict d => d | _ => [] end.

Section Data.
Context {World : Type} (strikes : DataExplorerExecutionContext → World → option World).
Context (registry : DataExplorerRegistry World pyval).
(** [str] of a float or a [datetime] *)
Context (str_time : Z → string).
Abbreviation str_of := (value_str str_time).

Definition _guard_data (fn : dict string pyval → py World dexn McpToolResult) (arguments : dict string pyval) (_ : McpCallContext) : py World exn McpToolResult := λ w,
  match fn arguments w with
  | (inr r, w) => (inr r, w)
  | (inl DCancelled, w) => (inl Cancelled, w)
  | (inl (DExn m), w) => (inr (result_error (if is_empty m then "Exception" else m)), w)
  | (inl (DTimeout m), w) => (inr (result_error (if is_empty m then "TimeoutError" else m)), w)
  end.
Definition data_arg (key : string) (args : dict string pyval) (k : string → py World dexn McpToolResult) : py World dexn McpToolResult :=
  match dict_get key args with Some (VStr s) => k s | _ => raise (DExn (py_repr key)) end.

Definition source_line (s : pyval) : string :=
  let get k d := default d (dict_get k (fields_of s)) in
  str_of (get "name" VNone) +:+ ": " +:+ str_of (get "description" (VStr "")) +:+ " (" +:+ str_of (get "language" VNone) +:+ ")".
Definition data_sources (_ : dict string pyval) : py World dexn McpToolResult :=
  sources ← Elastic.or_raise (json_copy (_camel_keys 0 (VList (get_sources registry))));
  let l := match sources with VList l => l | _ => [] end in
  mret (text_result (join line_break (map source_line l)) (Some [("sources", sources)])).

Definition table_line (t : DataExplorerSchemaTable) : string :=
  tb_name t +:+ " (" +:+ tb_type t +:+ "): " +:+ join ", " (map (λ c, c_name c +:+ " " +:+ c_type c) (tb_columns t)).
Definition data_schema (args : dict string pyval) : py World dexn McpToolResult :=
  data_arg "source" args (λ source,
    match get_provider source registry with
    | None => mret (result_error ("Unknown data source: '" +:+ source +:+ "'"))
    | Some (provider, o) =>
        schema ← p_get_schema provider o;
        mret match schema with
             | None => result_error "Schema introspection is not supported by this data source."
             | Some s => text_result (join line_break (map table_line (sc_tables s))) (Some (fields_of (_camel_keys 0 (schema_dict s))))
             end
    end).

Definition cell_row (r : pyval) : string + string := Elastic.andthen (Elastic.iterate r) (λ cells, inr (join " | " (map str_of cells))).
Definition doc_row (columns : list string) (r : pyval) : string + string :=
  Elastic.andthen (Elastic.each (λ c, Elastic.get_of r c (VStr "")) columns) (λ cells, inr (join " | " (map str_of cells))).
Definition count_line (r : DataExplorerResult pyval) : string :=
  "(" +:+ str_of_Z (x_row_count r) +:+ " row" +:+ (if x_row_count r =? 1 then "" else "s") +:+ (if x_truncated r then ", truncated" else "") +:+ ")".
(** The lines of the table; a message is an exception *)
Definition result_lines (r : DataExplorerResult pyval) : string + list string :=
  let columns := default [] (x_columns r) in
  match x_rows r with
  | (VDict d :: _) as rows =>
      let columns := match columns with [] => dict_keys d | _ => columns end in
      Elastic.andthen (Elastic.each (doc_row columns) rows) (λ lines, inr (join " | " columns :: lines))
  | rows =>
      Elastic.andthen (Elastic.each cell_row rows) (λ lines, inr (match columns with [] => lines | _ => join " | " columns :: lines end))
  end.
Definition data_query (args : dict string pyval) : py World dexn McpToolResult :=
  data_arg "source" args (λ source,
    data_arg "query" args (λ query,
      let parameters := match dict_get "parameters" args with Some (VDict d) => Some d | _ => None end in
      result ← dx_execute strikes registry {| q_source := source; q_query := query; q_parameters := parameters |};
      data ← Elastic.or_raise (json_copy (_camel_keys 0 (result_dict id result)));
      if negb (x_success result) then
        mret {| r_text := (if truthy_opt (x_error result) then or_empty (x_error result) else "query failed"); structured := Some (fields_of data); is_error := true |}
      else
        lines ← Elastic.or_raise (result_lines result);
        mret (text_result (join line_break (lines ++ [count_line result])) (Some (fields_of data))))).

Definition _SOURCE : pyval := described "string" "Data source name (see data_sources)".
Definition data_tool (name description : string) (schema : dict string pyval) (fn : dict string pyval → py World dexn McpToolResult)
    (a : option (dict string pyval)) : McpTool World :=
  {| t_name := name; t_description := description; input_schema := schema; t_call := _guard_data fn; t_required_permissions := ["data:query"]; annotations := a |}.
Definition data_tools : list (McpTool World) :=
  [data_tool "data_sources" "List the data-explorer sources" (object_schema [] []) data_sources (Some READ_ONLY);
   data_tool "data_schema" "Tables and columns of a data source" (object_schema [("source", _SOURCE)] ["source"]) data_schema (Some READ_ONLY);
   data_tool "data_query" "Run a query against a data source"
     (object_schema [("source", _SOURCE); ("query", described "string" "Query in the source's language");
        ("parameters", described "object" "Query parameters")] ["source"; "query"]) data_query None].
Definition DataExplorerMcpToolProvider : IMcpToolProvider World := {| mcp_tier := Some TIER_BUILTIN; get_tools := λ _, mret (Some data_tools) |}.
End Data.

(** ** The server *)

Section Server.
Context {World : Type} (str_time : Z → string) (system version : string) (commands features : list string) (shell_enabled : bool).
Definition info : dict string pyval :=
  [("name", VStr "qodalis-cli-server"); ("version", VStr version);
   ("capabilities", VDict [("os", VStr (if bool_decide (system = "Darwin") then "darwin" else if bool_decide (system = "Windows") then "win32" else "linux"));
      ("shell", VBool shell_enabled); ("streaming", VBool true)]);
   ("features", VList (map VStr features)); ("commands", VList (map VStr (py_sort String.leb commands)))].
Definition server_info : McpTool World :=
  {| t_name := "server_info"; t_description := "Server version, capabilities, enabled features and registered command names";
     input_schema := object_schema [] []; t_call := λ _ _, mret (text_result (json_dumps str_time (VDict info)) (Some info));
     t_required_permissions := []; annotations := Some READ_ONLY |}.
Definition ServerInfoMcpToolProvider : IMcpToolProvider World := {| mcp_tier := Some TIER_BUILTIN; get_tools := λ _, mret (Some [server_info]) |}.
End Server.

(** ** Tools that only read *)

Definition marked_read_only {World} (t : McpTool World) : bool :=
  match annotations t with
  | Some a => match dict_get "readOnlyHint" a with Some (VBool b) => b | _ => false end
  | None => false
  end.

Section FileTools.
Context {St : Type} `{L : ProviderLaws St}.
Context (float_int : string → Z) (show : text → string) (chunks : bytes → list bytes).
Abbreviation tools := (filesystem_tools float_int show chunks).

Lemma reader_with_arg key args (k : string → py St fexn McpToolResult) : (∀ s, reader (k s)) → reader (with_arg key args k).
Proof. intros Hk s. unfold with_arg. destruct (dict_get key args) as [[]|]; try done. apply Hk. Qed.
Lemma tool_reader_bind {A B} (m : py St fexn A) (f : A → py St fexn B) : reader m → (∀ a, reader (f a)) → reader (m ≫= f).
Proof. intros Hm Hf s. rewrite py_bind_eq. specialize (Hm s). destruct (m s) as [[e|a] s']; simpl in *; subst; [done|apply Hf]. Qed.
Lemma reader_guard fn arguments c (s : St) : reader (fn arguments) → (_guard fn arguments c s).2 = s.
Proof. intros Hf. unfold _guard. specialize (Hf s). by destruct (fn arguments s) as [[[]|r] s']. Qed.

(** A tool over the files that is marked as read-only leaves the storage as it
    is, whatever its arguments are, and asks for [files:read]; every other one
    asks for [files:write]. *)
Theorem read_only_tools_read t args c (s : St) :
  t ∈ tools →
  if marked_read_only t then (t_call t args c s).2 = s ∧ t_required_permissions t = ["files:read"]
  else t_required_permissions t = ["files:write"].
Proof.
  unfold filesystem_tools. rewrite !elem_of_cons. intros [->|[->|[->|[->|[->|[->|Hn]]]]]]; [..|by apply not_elem_of_nil in Hn]; simpl; try done;
    (split; [apply reader_guard, reader_with_arg; intros path|done]).
  - apply tool_reader_bind; [apply list_reads|done].
  - apply tool_reader_bind; [apply stat_reads|done].
  - cbv zeta. destruct (max_bytes_of float_int args <? 1)%Z; [by intros ?|]. apply tool_reader_bind; [apply stat_reads|]. intros i. destruct (bool_decide _); [by intros ?|].
    apply tool_reader_bind; [apply download_reads|done].
Qed.

(** A tool over the files answers, with an error result when the storage raises,
    unless it is cancelled. *)
Lemma guard_answers fn arguments c (s : St) :
  match (_guard fn arguments c s).1 with inr _ => True | inl e => e = Cancelled end.
Proof. unfold _guard. by destruct (fn arguments s) as [[[]|r] s']. Qed.
Lemma file_tools_answer t args c (s : St) : t ∈ tools → match (t_call t args c s).1 with inr _ => True | inl e => e = Cancelled end.
Proof.
  unfold filesystem_tools. rewrite !elem_of_cons. intros [->|[->|[->|[->|[->|[->|Hn]]]]]]; [..|by apply not_elem_of_nil in Hn]; apply guard_answers.
Qed.
End FileTools.

(** ** What [fs_read] shows *)

Lemma step_encode_char c b l : code_point c → encode_char c = Some b → step_utf8 (b ++ l) = Char c l.
Proof.
  intros Hc. unfold encode_char, code_point, is_surrogate in *.
  pose proof (Z.div_mod c 64 ltac:(lia)). pose proof (Z.mod_pos_bound c 64 ltac:(lia)).
  pose proof (Z.div_mod (c / 64) 64 ltac:(lia)). pose proof (Z.mod_pos_bound (c / 64) 64 ltac:(lia)).
  pose proof (Z.div_mod (c / 4096) 64 ltac:(lia)). pose proof (Z.mod_pos_bound (c / 4096) 64 ltac:(lia)).
  assert (c / 64 / 64 = c / 4096) as H64 by (rewrite Z.div_div by lia; reflexivity).
  assert (c / 4096 / 64 = c / 262144) as H4096 by (rewrite Z.div_div by lia; reflexivity).
  rewrite H64 in *. rewrite H4096 in *.
  destruct (Z.ltb_spec c 128) as [Hlt|].
  { intros [= <-]. cbn [app step_utf8]. by destruct (Z.ltb_spec c 128); [|lia]. }
  destruct (Z.ltb_spec c 2048).
  { intros [= <-]. cbn [app step_utf8]. unfold cont. byte_tests. f_equal. lia. }
  destruct ((55296 <=? c) && (c <=? 57343)) eqn:Hs; [done|]. apply andb_false_iff in Hs.
  rewrite !Z.leb_gt in Hs. destruct (Z.ltb_spec c 65536).
  - intros [= <-]. cbn [app step_utf8]. unfold second3, cont. byte_tests; f_equal; lia.
  - intros [= <-]. cbn [app step_utf8]. unfold second4, cont. byte_tests; f_equal; lia.
Qed.

(** A character cut short needs more bytes. *)
Lemma step_cut_char c b n : code_point c → encode_char c = Some b → (0 < n < length b)%nat → step_utf8 (firstn n b) = More.
Proof.
  intros Hc. unfold encode_char, code_point, is_surrogate in *.
  pose proof (Z.div_mod c 64 ltac:(lia)). pose proof (Z.mod_pos_bound c 64 ltac:(lia)).
  pose proof (Z.div_mod (c / 64) 64 ltac:(lia)). pose proof (Z.mod_pos_bound (c / 64) 64 ltac:(lia)).
  pose proof (Z.div_mod (c / 4096) 64 ltac:(lia)). pose proof (Z.mod_pos_bound (c / 4096) 64 ltac:(lia)).
  assert (c / 64 / 64 = c / 4096) as H64 by (rewrite Z.div_div by lia; reflexivity).
  assert (c / 4096 / 64 = c / 262144) as H4096 by (rewrite Z.div_div by lia; reflexivity).
  rewrite H64 in *. rewrite H4096 in *.
  destruct (Z.ltb_spec c 128) as [Hlt|]; [intros [= <-]; simpl; lia|].
  destruct (Z.ltb_spec c 2048).
  { intros [= <-] Hn. destruct n as [|[|n]]; simpl in Hn; try lia. cbn [firstn step_utf8]. byte_tests. done. }
  destruct ((55296 <=? c) && (c <=? 57343)) eqn:Hs; [done|]. apply andb_false_iff in Hs.
  rewrite !Z.leb_gt in Hs. destruct (Z.ltb_spec c 65536).
  - intros [= <-] Hn. destruct n as [|[|[|n]]]; simpl in Hn; try lia; cbn [firstn step_utf8]; unfold second3, cont; byte_tests; done.
  - intros [= <-] Hn. destruct n as [|[|[|[|n]]]]; simpl in Hn; try lia; cbn [firstn step_utf8]; unfold second4, cont; byte_tests; done.
Qed.

Lemma encode_char_length c b : encode_char c = Some b → (1 ≤ length b ≤ 4)%nat.
Proof. unfold encode_char. repeat case_match; intros [= <-]; simpl; lia. Qed.

(** Decoding the first [n] bytes of an encoded text gives its first characters,
    as many as fit; at most three bytes are kept back. *)
Lemma decode_strict_prefix t : ∀ b n fuel,
  Forall code_point t → encode t = Some b → (length (firstn n b) ≤ fuel)%nat →
  ∃ k b', decode_strict false fuel (firstn n b) = Some (firstn k t) ∧ encode (firstn k t) = Some b' ∧
    b' `prefix_of` firstn n b ∧ (length (firstn n b) ≤ length b' + 3)%nat.
Proof.
  induction t as [|c t IH]; intros b n fuel Ht He Hf.
  - injection He as <-. exists 0%nat, []. rewrite firstn_nil. split_and!; [by destruct fuel|done|done|simpl; lia].
  - apply Forall_cons in Ht as [Hc Ht]. simpl in He. destruct (encode_char c) as [bc|] eqn:Hbc; [|done]. destruct (encode t) as [bt|] eqn:Hbt; [|done].
    injection He as <-. pose proof (encode_char_length c bc Hbc) as Hlen.
    destruct (decide (length bc ≤ n)%nat) as [Hn|Hn].
    + rewrite firstn_app, firstn_all2 in * by lia. rewrite length_app in Hf. destruct fuel as [|fuel]; [lia|].
      destruct (IH bt (n - length bc)%nat fuel Ht eq_refl) as (k & b' & Hd & Hk & Hpre & Hl); [lia|].
      exists (S k), (bc ++ b'). split; [|split; [|split]].
      * destruct (bc ++ firstn (n - length bc) bt) as [|x l] eqn:E; [destruct bc; simpl in *; [lia|done]|].
        change (decode_strict false (S fuel) (x :: l)) with
          (match step_utf8 (x :: l) with Char c rest => cons c <$> decode_strict false fuel rest | More => Some [] | Bad => None end).
        rewrite <-E, (step_encode_char c) by done. by rewrite Hd.
      * simpl. by rewrite Hbc, Hk.
      * by apply prefix_app.
      * rewrite !length_app. lia.
    + rewrite firstn_app in *. replace (n - length bc)%nat with 0%nat in * by lia. rewrite firstn_O, app_nil_r in *.
      exists 0%nat, []. split; [|split; [done|split; [by apply prefix_nil|rewrite length_firstn; simpl; lia]]].
      destruct (decide (n = 0%nat)) as [->|]; [by destruct fuel|]. rewrite length_firstn in Hf.
      destruct fuel as [|fuel]; [lia|]. destruct (firstn n bc) as [|x l] eqn:E; [destruct n, bc; simpl in *; done || lia|].
      change (decode_strict false (S fuel) (x :: l)) with
        (match step_utf8 (x :: l) with Char c rest => cons c <$> decode_strict false fuel rest | More => Some [] | Bad => None end).
      rewrite <-E, (step_cut_char c) by (done || lia). done.
Qed.

(** The whole text is decoded. *)
Lemma decode_strict_encode t : ∀ b fuel final, Forall code_point t → encode t = Some b → (length b ≤ fuel)%nat → decode_strict final fuel b = Some t.
Proof.
  induction t as [|c t IH]; intros b fuel final Ht He Hf; [injection He as <-; by destruct fuel|].
  apply Forall_cons in Ht as [Hc Ht]. simpl in He. destruct (encode_char c) as [bc|] eqn:Hbc; [|done]. destruct (encode t) as [bt|] eqn:Hbt; [|done].
  injection He as <-. pose proof (encode_char_length c bc Hbc) as Hlen. rewrite length_app in Hf. destruct fuel as [|fuel]; [lia|].
  destruct (bc ++ bt) as [|x l] eqn:E; [destruct bc; simpl in *; [lia|done]|].
  change (decode_strict final (S fuel) (x :: l)) with
    (match step_utf8 (x :: l) with Char c rest => cons c <$> decode_strict final fuel rest | More => if final then None else Some [] | Bad => None end).
  rewrite <-E, (step_encode_char c) by done. rewrite (IH bt fuel final) by (done || lia). done.
Qed.

(** Reading stops early only past the limit. *)
Lemma take_chunks_spec max_bytes cs : ∀ data,
  take_chunks max_bytes data cs `prefix_of` data ++ concat cs ∧
  (take_chunks max_bytes data cs = data ++ concat cs ∨ max_bytes < Z.of_nat (length (take_chunks max_bytes data cs))).
Proof.
  induction cs as [|c cs IH]; intros data; simpl; [rewrite app_nil_r; split; [done|by left]|].
  destruct (Z.ltb_spec max_bytes (Z.of_nat (length (data ++ c)))).
  - split; [|by right]. rewrite (assoc_L (++)). by apply prefix_app_r.
  - rewrite (assoc_L (++)). apply IH.
Qed.

(** C25: [fs_read] of a text file (encoded text without a NUL character, whose size
    is known), with a limit of at least one byte and however the stream cuts
    the file: a file within the limit is shown whole, and a longer one from its
    start, whole characters that take at most the limit and at least three
    bytes less, with a note of its size. *)
Theorem fs_read_shows t b chunks max_bytes :
  Forall code_point t → 0 ∉ t → encode t = Some b → concat chunks = b → 1 ≤ max_bytes →
  if Z.of_nat (length b) <=? max_bytes
  then shown_text max_bytes (Z.of_nat (length b)) (take_chunks max_bytes [] chunks) = inr (t, "")
  else ∃ k b', shown_text max_bytes (Z.of_nat (length b)) (take_chunks max_bytes [] chunks) =
         inr (firstn k t, truncated_note max_bytes (Z.of_nat (length b))) ∧
       encode (firstn k t) = Some b' ∧ b' `prefix_of` b ∧ max_bytes - 3 ≤ Z.of_nat (length b') ≤ max_bytes.
Proof.
  intros Ht H0 He Hc Hm. destruct (take_chunks_spec max_bytes chunks []) as [[rest Hpre] Hend]. simpl in *. rewrite Hc in *.
  set (data := take_chunks max_bytes [] chunks) in *.
  assert (Hmax : Z.max (Z.of_nat (length b)) (Z.of_nat (length data)) = Z.of_nat (length b)) by (rewrite Hpre, length_app; lia).
  unfold shown_text. rewrite Hmax. destruct (Z.leb_spec (Z.of_nat (length b)) max_bytes) as [Hle|Hgt].
  - destruct Hend as [->|Hlt]; [|rewrite Hpre, length_app in Hle; lia]. destruct (Z.ltb_spec max_bytes (Z.of_nat (length b))); [lia|].
    rewrite firstn_all2 by lia. rewrite (decode_strict_encode t) by done. rewrite bool_decide_false by done. done.
  - destruct (Z.ltb_spec max_bytes (Z.of_nat (length b))); [|lia].
    assert (Hhead : firstn (Z.to_nat max_bytes) data = firstn (Z.to_nat max_bytes) b).
    { destruct Hend as [->|Hlt]; [done|]. rewrite Hpre, firstn_app. replace (Z.to_nat max_bytes - length data)%nat with 0%nat by lia. by rewrite firstn_O, app_nil_r. }
    rewrite Hhead. assert (Hl : length (firstn (Z.to_nat max_bytes) b) = Z.to_nat max_bytes) by (rewrite length_firstn; lia).
    destruct (decode_strict_prefix t b (Z.to_nat max_bytes) (length (firstn (Z.to_nat max_bytes) b)) Ht He) as (k & b' & Hd & Hk & Hp & Hlen); [done|].
    exists k, b'. cbn [negb]. rewrite Hd. rewrite bool_decide_false.
    + rewrite Hl, Z2Nat.id by lia. split_and!; [done|done| |lia|].
      * etrans; [exact Hp|]. exists (skipn (Z.to_nat max_bytes) b). by rewrite firstn_skipn.
      * apply prefix_length in Hp. lia.
    + intros Hin. apply H0. rewrite <-(firstn_skipn k t). apply elem_of_app. by left.
Qed.

(** A call of a data tool answers too, unless it is cancelled. *)
Lemma guard_data_answers {World} fn arguments c (w : World) :
  match (_guard_data fn arguments c w).1 with inr _ => True | inl e => e = Cancelled end.
Proof. unfold _guard_data. by destruct (fn arguments w) as [[[]|r] w']. Qed.
Lemma data_tools_answer {World} strikes (registry : DataExplorerRegistry World pyval) str_time t args c w :
  t ∈ data_tools strikes registry str_time → match (t_call t args c w).1 with inr _ => True | inl e => e = Cancelled end.
Proof.
  unfold data_tools. rewrite !elem_of_cons. intros [->|[->|[->|Hn]]]; [..|by apply not_elem_of_nil in Hn]; apply guard_data_answers.
Qed.

(** ** On the storage in memory *)
Module FeaturesExample.
Definition euro_file : bytes := [97; 226; 130; 172; 98].

Lemma fs_read_shows_witness :
  ∃ k b', shown_text 3 5 (take_chunks 3 [] [[97; 226]; [130; 172; 98]]) = inr (firstn k [97; 8364; 98], truncated_note 3 5) ∧
    encode (firstn k [97; 8364; 98]) = Some b' ∧ b' `prefix_of` euro_file ∧ 0 ≤ Z.of_nat (length b') ≤ 3.
Proof.
  refine (fs_read_shows [97; 8364; 98] euro_file [[97; 226]; [130; 172; 98]] 3 _ _ eq_refl eq_refl _); [|rewrite !elem_of_cons, elem_of_nil; lia|lia].
  repeat (apply Forall_cons; split); try (unfold code_point; lia). by apply Forall_nil.
Defined.
Example cut_character_is_dropped : shown_text 3 5 euro_file = inr ([97], truncated_note 3 5).
Proof. reflexivity. Qed.
Example binary_is_refused : shown_text 10 3 [97; 0; 98] = inl "binary file, 3 bytes" ∧ shown_text 10 2 [255; 98] = inl "binary file, 2 bytes".
Proof. split; reflexivity. Qed.

(** A source whose rows hold a time: the route answers it, the tool cannot. *)
Definition dated : IDataExplorerProvider unit pyval :=
  {| p_execute := λ cx, mret {| x_success := true; x_source := o_name (cx_options cx); x_language := L_SQL; x_format := F_TABLE; x_execution_time := 1;
       x_columns := Some ["at"]; x_rows := [VList [VTime 0]]; x_row_count := 1; x_truncated := false; x_error := None |};
     p_get_schema := no_schema |}.
Definition dated_registry : DataExplorerRegistry unit pyval := register_provider dated (default_dx_options "db" "Database") [].
Definition query_args : dict string pyval := [("source", VStr "db"); ("query", VStr "SELECT now()")].
Example time_fails_tool :
  (data_query (λ _ _, None) dated_registry (λ _, "1970") query_args tt).1 = inl (DExn circular) ∧
  match (execute_route (λ _ _, None) id dated_registry {| q_source := "db"; q_query := "SELECT now()"; q_parameters := None |} tt).1 with inr (DxOk _) => True | _ => False end.
Proof. split; reflexivity. Qed.
Definition counted_rows : IDataExplorerProvider unit pyval :=
  {| p_execute := λ cx, mret {| x_success := true; x_source := "db"; x_language := L_SQL; x_format := F_TABLE; x_execution_time := 1;
       x_columns := Some ["a"; "b"]; x_rows := [VList [VInt 1; VStr "x"]; VList [VInt 2; VNone]]; x_row_count := 2; x_truncated := false; x_error := None |};
     p_get_schema := no_schema |}.
Example query_text :
  match data_query (λ _ _, None) (register_provider counted_rows (default_dx_options "db" "Database") []) (λ _, "") query_args tt with
  | (inr r, _) => r_text r = join line_break ["a | b"; "1 | x"; "2 | None"; "(2 rows)"]
  | _ => False
  end.
Proof. reflexivity. Qed.
End FeaturesExample.
