(* ===== verification/UsersPlugin.v ===== *)
(** * The users plugin ([users/cli_users_builder.py], [users/external_request.py])

    What the plugin does beside its services: seeding once however many requests
    ask for it, its background tasks, the re-check of the sockets an external
    adapter let in, what mounting it on a server changes there, the builder, and
    the snapshot of an accepted request.

    Callers of [ensure_seeded] run between the awaits of each other, so seeding
    is a step relation; the rest is sequential.  The lock is [asyncio.Lock]: its
    waiters get it in the order in which they asked. *)

From S2P Require Import Prelude PyStr Values Permissions Events UserModel Validation UserStores PasswordHasher.
From S2P Require Import Throttle AuditModel AuthService AuthSafety AuthExample.
From S2P Require ShellUsers Sockets ProtectSafety.
From Stdlib Require Import Ascii QArith.QArith QArith.Qminmax.

Open Scope Z_scope.

(** ** Seeding *)

Lemma filter_bool_elem {A} (f : A → bool) l x : x ∈ List.filter f l ↔ x ∈ l ∧ f x = true.
Proof. by rewrite !list_elem_of_In, List.filter_In. Qed.
Lemma filter_bool_NoDup {A} (f : A → bool) l : NoDup l → NoDup (List.filter f l).
Proof. rewrite !NoDup_ListNoDup. apply List.NoDup_filter. Qed.

(** Where a caller of [ensure_seeded] is: not there yet, at the lock, in [seed],
    past it, or ended by an exception *)
Inductive caller := Coming | AtLock | InSeed | Passed | Failed.
#[global] Instance caller_eq_dec : EqDecision caller.
Proof. solve_decision. Defined.

Section Seeding.
Context {Host : Type} `{E : AuthEnv Host} (default_admin_password : option string).

(** [runs] are the outcomes of [seed] so far. *)
Record SeedState := {
  _seeded : bool;
  lock_held : bool;
  lock_waiters : list nat;
  callers : list caller;
  world : World Host;
  runs : list (uexn + unit);
}.
Definition new_seed_state (n : nat) (w : World Host) : SeedState :=
  {| _seeded := false; lock_held := false; lock_waiters := []; callers := repeat Coming n; world := w; runs := [] |}.
Definition at_lock (held : bool) (waiters : list nat) (c : nat) (where_ : caller) (s : SeedState) : SeedState :=
  {| _seeded := _seeded s; lock_held := held; lock_waiters := waiters; callers := <[c := where_]> (callers s); world := world s; runs := runs s |}.

(** Up to the first wait: the lock is taken at once when it is free. *)
Definition ensure_seeded (c : nat) (s : SeedState) : SeedState :=
  if _seeded s then at_lock (lock_held s) (lock_waiters s) c Passed s
  else if negb (lock_held s) && bool_decide (lock_waiters s = []) then at_lock true [] c InSeed s
  else at_lock (lock_held s) (lock_waiters s ++ [c]) c AtLock s.
(** The first waiter has the lock: the second test of [_seeded] *)
Definition lock_acquired (c : nat) (waiters : list nat) (s : SeedState) : SeedState :=
  if _seeded s then at_lock false waiters c Passed s else at_lock true waiters c InSeed s.
Definition seed_ended (c : nat) (s : SeedState) : SeedState :=
  let '(r, w) := seed default_admin_password (world s) in
  {| _seeded := match r with inr _ => true | inl _ => _seeded s end; lock_held := false; lock_waiters := lock_waiters s;
     callers := <[c := match r with inr _ => Passed | inl _ => Failed end]> (callers s); world := w; runs := runs s ++ [r] |}.
Definition wait_cancelled (c : nat) (s : SeedState) : SeedState :=
  at_lock (lock_held s) (List.filter (λ w, negb (bool_decide (w = c))) (lock_waiters s)) c Failed s.

Inductive seed_step : SeedState → SeedState → Prop :=
| step_call s c : callers s !! c = Some Coming → seed_step s (ensure_seeded c s)
| step_acquire s c waiters : lock_held s = false → lock_waiters s = c :: waiters → seed_step s (lock_acquired c waiters s)
| step_seeded s c : callers s !! c = Some InSeed → seed_step s (seed_ended c s)
| step_cancelled s c : callers s !! c = Some AtLock → seed_step s (wait_cancelled c s).

Inductive seed_steps : nat → SeedState → SeedState → Prop :=
| seed_steps_nil s : seed_steps 0 s s
| seed_steps_snoc k s s1 s2 : seed_steps k s s1 → seed_step s1 s2 → seed_steps (S k) s s2.
Definition raised (r : uexn + unit) : Prop := match r with inl _ => True | inr _ => False end.

(** The world after seeding [n] times, whatever came of it *)
Fixpoint seed_times (n : nat) (w : World Host) : World Host :=
  match n with O => w | S n => seed_times n (seed default_admin_password w).2 end.

Record seed_inv (w0 : World Host) (s : SeedState) : Prop := {
  si_one : ∀ c c', callers s !! c = Some InSeed → callers s !! c' = Some InSeed → c = c';
  si_held : lock_held s = true ↔ ∃ c, callers s !! c = Some InSeed;
  si_wait : ∀ c, c ∈ lock_waiters s ↔ callers s !! c = Some AtLock;
  si_nodup : NoDup (lock_waiters s);
  si_passed : ∀ c, callers s !! c = Some Passed → _seeded s = true;
  si_runs : ∃ l, Forall raised l ∧ runs s = if _seeded s then l ++ [inr tt] else l;
  si_idle : _seeded s = true → lock_held s = false;
  si_world : world s = seed_times (length (runs s)) w0;
}.

Lemma seed_times_snoc n w : seed_times (S n) w = (seed default_admin_password (seed_times n w)).2.
Proof. revert w. induction n as [|n IH]; intros w; [done|]. change (seed_times (S (S n)) w) with (seed_times (S n) (seed default_admin_password w).2). by rewrite IH. Qed.

Lemma changed {A} (l : list A) c x0 x c' y : l !! c = Some x0 →
  <[c := x]> l !! c' = Some y ↔ (c' = c ∧ y = x) ∨ (c' ≠ c ∧ l !! c' = Some y).
Proof. intros H%lookup_lt_Some. rewrite list_lookup_insert_Some. naive_solver. Qed.

Lemma new_seed_inv n w : seed_inv w (new_seed_state n w).
Proof.
  assert (Hc : ∀ c x, repeat Coming n !! c = Some x → x = Coming).
  { intros c x H. apply list_elem_of_lookup_2 in H. apply list_elem_of_In, repeat_spec in H. done. }
  split; simpl.
  - intros c c' H. by apply Hc in H.
  - split; [done|]. intros [c H]. by apply Hc in H.
  - intros c. split; [by intros ?%not_elem_of_nil|]. intros H. by apply Hc in H.
  - apply NoDup_nil_2.
  - intros c H. by apply Hc in H.
  - by exists [].
  - done.
  - done.
Qed.

(** A caller moves and [seed] does not run. *)
Lemma at_lock_inv w0 s c old held waiters where_ :
  seed_inv w0 s → callers s !! c = Some old →
  (∀ c', c' ∈ waiters ↔ (c' = c ∧ where_ = AtLock) ∨ (c' ≠ c ∧ c' ∈ lock_waiters s)) → NoDup waiters →
  (where_ = Passed → _seeded s = true) → (where_ = InSeed → _seeded s = false ∧ lock_held s = false) →
  old ≠ InSeed → held = lock_held s || bool_decide (where_ = InSeed) → seed_inv w0 (at_lock held waiters c where_ s).
Proof.
  intros [Hone Hheld Hwait Hnd Hpassed Hruns Hidle Hworld] Hc Hw Hndw Hp Hi Hold ->.
  split; cbn [callers lock_held lock_waiters _seeded runs world at_lock]; auto.
  - intros c1 c2. rewrite !(changed _ _ old) by done. intros [[-> <-]|[Hn1 H1]] [[-> Heq]|[Hn2 H2]]; [done| |subst where_|by apply Hone].
    + destruct Hi as [_ Hi]; [done|]. assert (lock_held s = true) by (apply Hheld; eauto). congruence.
    + destruct Hi as [_ Hi]; [done|]. assert (lock_held s = true) by (apply Hheld; eauto). congruence.
  - rewrite orb_true_iff, bool_decide_eq_true, Hheld. split.
    + intros [[c' H']| ->]; [exists c'|exists c]; rewrite (changed _ _ old) by done; [right|by left]. split; [congruence|done].
    + intros [c' H']. rewrite (changed _ _ old) in H' by done. destruct H' as [[-> <-]|[_ H']]; [by right|left; eauto].
  - intros c'. rewrite (changed _ _ old), Hw, Hwait by done. naive_solver.
  - intros c' H'. rewrite (changed _ _ old) in H' by done. destruct H' as [[-> <-]|[_ H']]; [by apply Hp|by eapply Hpassed].
  - intros Hs. rewrite (Hidle Hs). simpl. apply bool_decide_eq_false_2. intros Heq. destruct (Hi Heq). congruence.
Qed.

Lemma seed_step_inv w0 s s' : seed_inv w0 s → seed_step s s' → seed_inv w0 s'.
Proof.
  intros Hinv Hstep. destruct Hinv as [Hone Hheld Hwait Hnd Hpassed Hruns Hidle Hworld] eqn:Heq. clear Heq.
  destruct Hstep as [s c Hc|s c waiters Hfree Hw|s c Hc|s c Hc].
  - unfold ensure_seeded. destruct (_seeded s) eqn:Hs.
    { eapply at_lock_inv; try done; [|by rewrite orb_false_r]. intros c'. split; [|naive_solver].
      intros Hin. right. split; [|done]. apply Hwait in Hin. congruence. }
    destruct (lock_held s) eqn:Hh; simpl; [|case_bool_decide as Hw].
    + eapply at_lock_inv; try done; [|apply NoDup_app; split_and!; [done| |apply NoDup_singleton]|by rewrite Hh].
      * intros c'. rewrite elem_of_app, list_elem_of_singleton. split; [|naive_solver].
        intros [Hin| ->]; [right; split; [|done]; apply Hwait in Hin; congruence|by left].
      * intros c' Hin Heq%list_elem_of_singleton. subst c'. apply Hwait in Hin. congruence.
    + eapply at_lock_inv; try done; [|apply NoDup_nil_2|by rewrite Hh]. intros c'. rewrite Hw, elem_of_nil. naive_solver.
    + eapply at_lock_inv; try done; [|apply NoDup_app; split_and!; [done| |apply NoDup_singleton]|by rewrite Hh].
      * intros c'. rewrite elem_of_app, list_elem_of_singleton. split; [|naive_solver].
        intros [Hin| ->]; [right; split; [|done]; apply Hwait in Hin; congruence|by left].
      * intros c' Hin Heq%list_elem_of_singleton. subst c'. apply Hwait in Hin. congruence.
  - assert (Hc : callers s !! c = Some AtLock) by (apply Hwait; rewrite Hw; left).
    rewrite Hw in Hnd. apply NoDup_cons in Hnd as [Hn Hnd].
    assert (Hset : ∀ where_, where_ ≠ AtLock → ∀ c', c' ∈ waiters ↔ (c' = c ∧ where_ = AtLock) ∨ (c' ≠ c ∧ c' ∈ lock_waiters s)).
    { intros where_ Hne c'. rewrite Hw, elem_of_cons. naive_solver. }
    unfold lock_acquired. destruct (_seeded s) eqn:Hs; (eapply at_lock_inv; try done; [by apply Hset|by rewrite Hfree]).
  - unfold seed_ended. destruct (seed default_admin_password (world s)) as [r w] eqn:Hr.
    assert (Hlock : lock_held s = true) by (apply Hheld; eauto).
    assert (Hns : _seeded s = false) by (destruct (_seeded s) eqn:Hs; [rewrite Hidle in Hlock by done; done|done]).
    assert (Hone' : ∀ c', callers s !! c' = Some InSeed → c' = c) by (intros c' Hc'; by eapply Hone).
    destruct Hruns as (l & Hl & Hruns). rewrite Hns in Hruns.
    split; cbn [callers lock_held lock_waiters _seeded runs world].
    + intros c1 c2. rewrite !(changed _ _ InSeed) by done. intros [[-> H1]|[Hn1 H1]] _; [by destruct r|]. by apply Hone' in H1.
    + split; [done|]. intros [c' H']. rewrite (changed _ _ InSeed) in H' by done. destruct H' as [[-> H']|[Hn H']]; [by destruct r|].
      by apply Hone' in H'.
    + intros c'. rewrite (changed _ _ InSeed), Hwait by done. split; [|intros [[-> H]|[_ H]]; [by destruct r|done]].
      intros H. right. split; [congruence|done].
    + done.
    + intros c' H'. rewrite (changed _ _ InSeed) in H' by done. destruct r as [e|u]; [|done].
      destruct H' as [[-> H']|[_ H']]; [done|]. by eapply Hpassed.
    + destruct r as [e|[]].
      * exists (l ++ [inl e]). rewrite Hns, Hruns. split; [|done]. apply Forall_app. split; [done|by apply Forall_singleton].
      * exists l. by rewrite Hruns.
    + done.
    + rewrite length_app. simpl. rewrite Nat.add_1_r, seed_times_snoc, <-Hworld, Hr. done.
  - eapply at_lock_inv; try done; [|by apply filter_bool_NoDup|by rewrite orb_false_r].
    intros c'. rewrite filter_bool_elem, negb_true_iff, bool_decide_eq_false. naive_solver.
Qed.

Lemma seed_steps_inv w0 k s s' : seed_inv w0 s → seed_steps k s s' → seed_inv w0 s'.
Proof. intros Hs. induction 1 as [|k s s1 s2 H IH Hstep]; [done|]. eapply seed_step_inv; [by apply IH|done]. Qed.

(** C11: However many requests ask for it and however they interleave: [seed] runs
    for one of them at a time; it runs again only after it failed, never after
    it went well; whoever is past it finds the plugin seeded; and the stores are
    as those runs alone left them. *)
Theorem seeded_once n w k s :
  seed_steps k (new_seed_state n w) s →
  (∀ c c', callers s !! c = Some InSeed → callers s !! c' = Some InSeed → c = c') ∧
  (∃ failed, Forall raised failed ∧ runs s = if _seeded s then failed ++ [inr tt] else failed) ∧
  (∀ c, callers s !! c = Some Passed → _seeded s = true) ∧ world s = seed_times (length (runs s)) w.
Proof.
  intros Hk. destruct (seed_steps_inv w k _ _ (new_seed_inv n w) Hk) as [Hone _ _ _ Hpassed Hruns _ Hworld]. by split_and!.
Qed.

(** What a caller still has to do, in steps *)
Definition steps_left (c : caller) : nat := match c with Coming => 3 | AtLock => 2 | InSeed => 1 | Passed | Failed => 0 end.
Definition all_left (l : list caller) : nat := sum_list_with steps_left l.
Definition ended (c : caller) : Prop := c = Passed ∨ c = Failed.

Lemma all_left_insert l c old x : l !! c = Some old → (all_left (<[c := x]> l) + steps_left old = all_left l + steps_left x)%nat.
Proof.
  unfold all_left. revert c. induction l as [|y l IH]; intros [|c]; simpl; [done..|intros [= ->]; lia|]. intros H. specialize (IH _ H). lia.
Qed.
Lemma seed_step_less w0 s s' : seed_inv w0 s → seed_step s s' → (all_left (callers s') < all_left (callers s))%nat.
Proof.
  intros Hinv. destruct 1 as [s c Hc|s c waiters Hfree Hw|s c Hc|s c Hc].
  - unfold ensure_seeded. destruct (_seeded s); [|destruct (_ && _)]; simpl;
      match goal with |- context [<[c := ?x]> _] => pose proof (all_left_insert _ _ _ x Hc) as Hl end; simpl in Hl; lia.
  - assert (Hc : callers s !! c = Some AtLock) by (apply (si_wait _ _ Hinv); rewrite Hw; left).
    unfold lock_acquired. destruct (_seeded s); simpl;
      match goal with |- context [<[c := ?x]> _] => pose proof (all_left_insert _ _ _ x Hc) as Hl end; simpl in Hl; lia.
  - unfold seed_ended. destruct (seed _ _) as [[e|u] w]; simpl;
      match goal with |- context [<[c := ?x]> _] => pose proof (all_left_insert _ _ _ x Hc) as Hl end; simpl in Hl; lia.
  - simpl. pose proof (all_left_insert _ _ _ Failed Hc) as Hl. simpl in Hl. lia.
Qed.
Lemma seed_steps_bound w0 k s s' : seed_inv w0 s → seed_steps k s s' → (k + all_left (callers s') ≤ all_left (callers s))%nat.
Proof.
  intros Hs Hk. assert (Hs' := Hs). induction Hk as [s|k s s1 s2 H IH Hstep]; [lia|]. specialize (IH Hs Hs').
  pose proof (seed_step_less w0 s1 s2 (seed_steps_inv _ _ _ _ Hs H) Hstep). lia.
Qed.

(** Nobody waits for ever at the lock. *)
Lemma seed_progress w0 s : seed_inv w0 s → Forall ended (callers s) ∨ ∃ s', seed_step s s'.
Proof.
  intros Hinv. destruct (decide (Forall ended (callers s))) as [|Hn]; [by left|right].
  apply not_Forall_Exists in Hn; [|apply _]. apply Exists_exists in Hn as (x & Hin & Hx).
  apply list_elem_of_lookup_1 in Hin as [c Hc]. destruct x; [| | |destruct Hx; by left|destruct Hx; by right].
  - eexists. by apply (step_call s c).
  - destruct (lock_held s) eqn:Hh.
    + apply (si_held _ _ Hinv) in Hh as [c' Hc']. eexists. by apply (step_seeded s c').
    + destruct (lock_waiters s) as [|c' waiters] eqn:Hw; [apply (si_wait _ _ Hinv) in Hc; rewrite Hw in Hc; by apply not_elem_of_nil in Hc|].
      eexists. by apply (step_acquire s c' waiters).
  - eexists. by apply (step_seeded s c).
Qed.

(** [n] callers take at most [3 n] steps, and the run can only stop when each of
    them has returned or was ended by an exception: the lock never deadlocks. *)
Theorem ensure_seeded_ends n w k s :
  seed_steps k (new_seed_state n w) s → (k ≤ 3 * n)%nat ∧ (Forall ended (callers s) ∨ ∃ s', seed_step s s').
Proof.
  intros Hk. pose proof (new_seed_inv n w) as H0. split; [|eapply seed_progress, seed_steps_inv; done].
  pose proof (seed_steps_bound w k _ _ H0 Hk) as Hb. assert (Hn : all_left (repeat Coming n) = (3 * n)%nat); [|simpl in Hb; lia].
  clear. unfold all_left. induction n as [|n IH]; simpl; [done|]. lia.
Qed.
End Seeding.

(** Three requests at once before the plugin was started: the first seeds, the
    second waits for it, the third gives up waiting. *)
Module SeedingExample.
Import AuthExample.
Definition three : SeedState := new_seed_state 3 start.
Definition pw : option string := Some "secret-pw".
Lemma seeded_once_witness : ∃ s, seed_steps pw 6 three s ∧ callers s = [Passed; Passed; Failed] ∧
  ((∀ c c', callers s !! c = Some InSeed → callers s !! c' = Some InSeed → c = c') ∧
   (∃ failed, Forall raised failed ∧ runs s = if _seeded s then failed ++ [inr tt] else failed) ∧
   (∀ c, callers s !! c = Some Passed → _seeded s = true) ∧ world s = seed_times pw (length (runs s)) start) ∧
  world s = seeded.
Proof.
  eexists. match goal with |- ?P ∧ _ => assert (H : P) end.
  { eapply seed_steps_snoc; [eapply seed_steps_snoc; [eapply seed_steps_snoc; [eapply seed_steps_snoc; [eapply seed_steps_snoc; [eapply seed_steps_snoc; [apply seed_steps_nil|]|]|]|]|]|].
    - apply (step_call pw _ 0). reflexivity.
    - apply (step_call pw _ 1). reflexivity.
    - apply (step_call pw _ 2). reflexivity.
    - apply (step_seeded pw _ 0). reflexivity.
    - apply (step_cancelled pw _ 2). reflexivity.
    - apply (step_acquire pw _ 1 []); reflexivity. }
  split; [exact H|]. split; [vm_compute; reflexivity|]. split; [apply (seeded_once pw 3 start 6 _ H)|vm_compute; reflexivity].
Defined.
Lemma ensure_seeded_ends_witness : seed_steps pw 0 three three ∧ (0 ≤ 3 * 3)%nat ∧ (Forall ended (callers three) ∨ ∃ s', seed_step pw three s').
Proof. split; [apply seed_steps_nil|]. apply (ensure_seeded_ends pw 3 start 0 three). apply seed_steps_nil. Defined.
End SeedingExample.

(** ** What seeding leaves *)

Section Seeded.
Context {Host : Type} `{E : AuthEnv Host}.
Implicit Types s : World Host.

Lemma seed_group_spec n desc perms s :
  ∃ s', seed_group n desc perms s = (inr tt, s') ∧ au s' = au s ∧ users (st s') = users (st s) ∧ credentials (st s') = credentials (st s) ∧
    sessions (st s') = sessions (st s) ∧ api_tokens (st s') = api_tokens (st s) ∧
    (∀ m g, group_in m (groups (st s)) = Some g → group_in m (groups (st s')) = Some g) ∧
    ∃ g, group_in n (groups (st s')) = Some g ∧ (group_in n (groups (st s)) = None → g_permissions g = perms ∧ built_in g = true).
Proof.
  unfold seed_group. rewrite py_bind_eq. unfold get_group at 1. cbn [gets]. unfold gets.
  destruct (group_in n (groups (st s))) as [g|] eqn:Hg; [exists s; split_and!; try done; by exists g|].
  unfold store_create_group. rewrite !py_bind_eq. unfold gets. assert (Hm : dict_mem (lower n) (groups (st s)) = false).
  { destruct (dict_mem _ _) eqn:Hm; [|done]. apply dict_mem_get in Hm as [g Hm]. unfold group_in in Hg. congruence. }
  rewrite Hm.
  unfold raise_if, now_ms, gets, draw, on_host. run_py. destruct (uuid4 (host s)) as [i h].
  unfold on_stores, modify. run_py. eexists. split; [reflexivity|]. cbn [au st users credentials sessions api_tokens groups set_groups].
  split_and!; try done.
  - intros m g Hmg. unfold group_in in *. rewrite dict_get_set_ne; [done|]. intros Heq. rewrite Heq in Hg. congruence.
  - unfold group_in. rewrite dict_get_set_eq. eexists. split; [reflexivity|done].
Qed.

(** The groups of [seed] *)
Lemma seed_groups_spec s :
  ∃ s', (if read_only_groups auth_options then mret tt
         else _ ← seed_group ADMIN_GROUP "Administrators" ["*"]; seed_group USERS_GROUP "Default group for new accounts" DEFAULT_USERS_GROUP_PERMISSIONS) s =
        (inr tt, s') ∧
    users (st s') = users (st s) ∧ credentials (st s') = credentials (st s) ∧
    sessions (st s') = sessions (st s) ∧ api_tokens (st s') = api_tokens (st s) ∧
    (∀ m g, group_in m (groups (st s)) = Some g → group_in m (groups (st s')) = Some g) ∧
    (read_only_groups auth_options = true → s' = s) ∧
    (read_only_groups auth_options = false →
       is_Some (group_in ADMIN_GROUP (groups (st s'))) ∧ is_Some (group_in USERS_GROUP (groups (st s'))) ∧
       (group_in ADMIN_GROUP (groups (st s)) = None → g_permissions <$> group_in ADMIN_GROUP (groups (st s')) = Some ["*"])).
Proof.
  destruct (read_only_groups auth_options); [by exists s|].
  destruct (seed_group_spec ADMIN_GROUP "Administrators" ["*"] s) as (s1 & H1 & _ & Hu1 & Hc1 & Hs1 & Ht1 & Hg1 & g1 & Hadmin & Hp1).
  destruct (seed_group_spec USERS_GROUP "Default group for new accounts" DEFAULT_USERS_GROUP_PERMISSIONS s1)
    as (s2 & H2 & _ & Hu2 & Hc2 & Hs2 & Ht2 & Hg2 & g2 & Husers & _).
  exists s2. rewrite py_bind_eq, H1, H2. split_and!; try congruence; [by auto|].
  intros _. apply Hg2 in Hadmin as Hadmin2. rewrite Hadmin2, Husers. split_and!; [by eexists..|]. intros Hnone. simpl. f_equal. by apply Hp1.
Qed.

(** The user a first seeding creates *)
Definition root_user (i : string) (now : Z) (must_change : bool) : User :=
  new_user i now {| n_name := "root"; n_email := "root@localhost"; n_groups := [ADMIN_GROUP]; n_data := None; n_disabled := false;
                    n_home_dir := None; n_must_change := must_change |}.

Lemma seed_root_spec pw s :
  users (st s) = [] → external_auth || read_only_users auth_options = false →
  ∃ s1 s' i now now' p salt, seed pw s = (inr tt, s') ∧
    users (st s1) = users (st s) ∧ credentials (st s1) = credentials (st s) ∧ sessions (st s1) = sessions (st s) ∧
    api_tokens (st s1) = api_tokens (st s) ∧ (∀ m g, group_in m (groups (st s)) = Some g → group_in m (groups (st s1)) = Some g) ∧
    (read_only_groups auth_options = false →
       is_Some (group_in ADMIN_GROUP (groups (st s1))) ∧ is_Some (group_in USERS_GROUP (groups (st s1))) ∧
       (group_in ADMIN_GROUP (groups (st s)) = None → g_permissions <$> group_in ADMIN_GROUP (groups (st s1)) = Some ["*"])) ∧
    (∀ q, pw = Some q → p = q) ∧
    let enc := hash_password pbkdf2 p salt in
    st s' = set_credentials (dict_set i {| password_hash := enc.1; salt := enc.2; last_changed := now' |} (credentials (st s1)))
              (set_users [(i, root_user i now (bool_decide (pw = None)))] (st s1)).
Proof.
  intros Hnil Hown. unfold seed. rewrite py_bind_eq. destruct (seed_groups_spec s) as (s1 & -> & Hu & Hc & Hs & Ht & Hg & _ & Hb).
  rewrite Hown. rewrite Hnil in Hu. rewrite py_bind_eq. unfold get_users, gets. cbn [fst snd]. rewrite Hu. cbn [dict_values fmap list_fmap].
  assert (∃ p h, (∀ q, pw = Some q → p = q) ∧
    (match pw with Some p => mret p | None => draw random_password end) s1 = (inr p, {| st := st s1; au := au s1; host := h |})) as (p & h & Hp & Hdraw).
  { destruct pw as [p|]; [exists p, (host s1); split; [congruence|by destruct s1]|].
    unfold draw, on_host. destruct (random_password (host s1)) as [p h]. by exists p, h. }
  rewrite py_bind_eq, Hdraw. unfold store_create_user. run_py. unfold raise_if, now_ms, gets, draw, on_host. run_py. cbn [host st]. rewrite Hu.
  change (name_taken _ []) with false. cbv iota. run_py. cbn [host st].
  destruct (uuid4 h) as [i h1]. unfold on_stores, modify. run_py. unfold set_password, draw, on_host. run_py. cbn [host].
  destruct (random_salt h1) as [x h2] eqn:Hx. unfold now_ms, gets. run_py.
  destruct (hash_password pbkdf2 p x) as [enc sb] eqn:Hh. unfold on_stores, modify. run_py.
  eexists s1, _, i, _, _, p, x. split; [|split_and!; [congruence|done|done|done|done|done|done|]].
  - reflexivity.
  - cbv zeta. rewrite Hh. cbn [st host fst snd]. rewrite Hu. reflexivity.
Qed.

(** Seeding never fails, and it never touches what is there: users, passwords,
    sessions and API tokens of a server that has users stay as they are (so a
    deleted [root] does not come back and its changed password stays), groups
    keep their permissions, and the built-in groups exist afterwards. *)
Theorem seed_keeps pw s :
  ∃ s', seed pw s = (inr tt, s') ∧
    (users (st s) ≠ [] → users (st s') = users (st s) ∧ credentials (st s') = credentials (st s)) ∧
    sessions (st s') = sessions (st s) ∧ api_tokens (st s') = api_tokens (st s) ∧
    (∀ m g, group_in m (groups (st s)) = Some g → group_in m (groups (st s')) = Some g) ∧
    (read_only_groups auth_options = false → is_Some (group_in ADMIN_GROUP (groups (st s'))) ∧ is_Some (group_in USERS_GROUP (groups (st s')))).
Proof.
  destruct (external_auth || read_only_users auth_options) eqn:Hown; [|destruct (decide (users (st s) = [])) as [Hnil|Hnil]].
  2:{ destruct (seed_root_spec pw s Hnil Hown) as (s1 & s' & i & now & now' & p & x & Heq & Hu & Hc & Hs & Ht & Hg & Hb & _ & Hst).
      cbv zeta in Hst. exists s'. rewrite Hst. split_and!; try done. intros Hro. by destruct (Hb Hro) as (? & ? & _). }
  all: unfold seed; rewrite py_bind_eq; destruct (seed_groups_spec s) as (s1 & -> & Hu & Hc & Hs & Ht & Hg & _ & Hb); rewrite Hown.
  - exists s1. split_and!; try done. intros Hro. by destruct (Hb Hro) as (? & ? & _).
  - rewrite py_bind_eq. unfold get_users, gets. cbn [fst snd]. rewrite Hu.
    destruct (users (st s)) as [|[k u] us]; [done|]. cbn [dict_values fmap list_fmap].
    exists s1. split_and!; try done. intros Hro. by destruct (Hb Hro) as (? & ? & _).
Qed.

(** The first start of a server: exactly one user, [root], an enabled admin with
    every permission, who signs in with the password the host gave and need not
    change it. *)
Theorem first_seed_root pw s :
  (∀ a b n k, len (pbkdf2 a b n k) = k) → users (st s) = [] → group_in ADMIN_GROUP (groups (st s)) = None →
  external_auth = false → read_only_users auth_options = false → read_only_groups auth_options = false → (len pw ≤ PASSWORD_MAX)%nat →
  ∃ s' i u, seed (Some pw) s = (inr tt, s') ∧ users (st s') = [(i, u)] ∧ u_id u = i ∧ u_name u = "root" ∧
    enabled_admin u = true ∧ must_change_password u = false ∧ (user_permissions u s').1 = inr ["*"] ∧
    (AuthService.verify_password i pw s').1 = inr true.
Proof.
  intros Hlen Hnil Hnone He Hru Hrg Hmax.
  destruct (seed_root_spec (Some pw) s Hnil) as (s1 & s' & i & now & now' & p & x & Heq & Hu & Hc & Hs & Ht & Hg & Hb & Hp & Hst); [by rewrite He, Hru|].
  destruct (Hb Hrg) as (_ & _ & Hadmin). specialize (Hadmin Hnone). specialize (Hp pw eq_refl). subst p. cbv zeta in Hst.
  exists s', i, (root_user i now (bool_decide (Some pw = None))). split_and!; try done.
  - by rewrite Hst.
  - unfold user_permissions, effective_permissions, gets. rewrite Hst. cbn [fst groups set_credentials set_users u_groups root_user new_user n_groups].
    destruct (group_in ADMIN_GROUP (groups (st s1))) as [g|] eqn:Hgr; [|done]. injection Hadmin as Hadmin.
    unfold group_permissions. cbn [omap list_omap]. rewrite Hgr. cbn [fmap option_fmap option_map]. rewrite Hadmin. done.
  - unfold AuthService.verify_password. rewrite py_bind_eq. unfold gets. rewrite Hst. cbn [credentials set_credentials]. rewrite dict_get_set_eq.
    destruct (Nat.ltb_spec PASSWORD_MAX (len pw)); [lia|]. cbn [password_hash salt].
    destruct (hash_verifies pbkdf2 sha256_hex pw x (hash_password pbkdf2 pw x).2 Hlen) as [Hre Hver]. rewrite Hre, andb_false_r.
    rewrite py_bind_eq. cbn [mret py_ret fst]. f_equal. by apply Hver.
Qed.
End Seeded.

Lemma first_seed_root_witness :
  ∃ s' i u, seed (Some "secret-pw") AuthExample.start = (inr tt, s') ∧ users (st s') = [(i, u)] ∧ u_id u = i ∧ u_name u = "root" ∧
    enabled_admin u = true ∧ must_change_password u = false ∧ (user_permissions u s').1 = inr ["*"] ∧
    (AuthService.verify_password i "secret-pw" s').1 = inr true.
Proof.
  apply (first_seed_root "secret-pw" AuthExample.start); try reflexivity; [|apply (Nat.leb_le _ PASSWORD_MAX); vm_compute; reflexivity].
  intros p s n k. cbn. unfold HasherExample.toy_pbkdf2. by rewrite len_chars, chars_str, repeat_length.
Defined.

(** ** Background tasks *)

(** A task is a number; [running] are those that were neither cancelled nor
    ended. *)
Record PluginTasks := {
  _cleanup_task : option nat;
  _external_check_task : option nat;
  next_task : nat;
  running : list nat;
}.
Definition no_tasks : PluginTasks := {| _cleanup_task := None; _external_check_task := None; next_task := 0; running := [] |}.
(** [task is None or task.done()] *)
Definition needs_task (task : option nat) (k : PluginTasks) : bool := match task with None => true | Some t => negb (bool_decide (t ∈ running k)) end.
Definition new_cleanup (k : PluginTasks) : PluginTasks :=
  {| _cleanup_task := Some (next_task k); _external_check_task := _external_check_task k; next_task := S (next_task k); running := next_task k :: running k |}.
Definition new_external_check (k : PluginTasks) : PluginTasks :=
  {| _cleanup_task := _cleanup_task k; _external_check_task := Some (next_task k); next_task := S (next_task k); running := next_task k :: running k |}.
(** After [ensure_seeded] *)
Definition startup (external_auth : bool) (k : PluginTasks) : PluginTasks :=
  let k := if needs_task (_cleanup_task k) k then new_cleanup k else k in
  if external_auth && needs_task (_external_check_task k) k then new_external_check k else k.
Definition task_ended (t : nat) (k : PluginTasks) : PluginTasks :=
  {| _cleanup_task := _cleanup_task k; _external_check_task := _external_check_task k; next_task := next_task k;
     running := List.filter (λ t', negb (bool_decide (t' = t))) (running k) |}.
Definition cancel_task (task : option nat) (k : PluginTasks) : PluginTasks := match task with None => k | Some t => task_ended t k end.
(** [dispose] does the same without waiting for the tasks. *)
Definition shutdown (k : PluginTasks) : PluginTasks :=
  let k' := {| _cleanup_task := None; _external_check_task := None; next_task := next_task k; running := running k |} in
  cancel_task (_external_check_task k) (cancel_task (_cleanup_task k) k').

Inductive task_op := Startup | Shutdown | Ended (t : nat).
Definition task_step (external_auth : bool) (k : PluginTasks) (o : task_op) : PluginTasks :=
  match o with Startup => startup external_auth k | Shutdown => shutdown k | Ended t => task_ended t k end.

Record tasks_ok (external_auth : bool) (k : PluginTasks) : Prop := {
  to_known : ∀ t, t ∈ running k → _cleanup_task k = Some t ∨ external_auth = true ∧ _external_check_task k = Some t;
  to_old : ∀ t, t ∈ running k ∨ _cleanup_task k = Some t ∨ _external_check_task k = Some t → (t < next_task k)%nat;
  to_nodup : NoDup (running k);
}.
Lemma task_ended_ok ext t k : tasks_ok ext k → tasks_ok ext (task_ended t k).
Proof.
  intros [Hk Ho Hn]. split; cbn [running _cleanup_task _external_check_task next_task task_ended].
  - intros t' [Ht _]%filter_bool_elem. by apply Hk.
  - intros t' [[Ht _]%filter_bool_elem|Ht]; apply Ho; auto.
  - by apply filter_bool_NoDup.
Qed.
Lemma task_step_ok ext k o : tasks_ok ext k → tasks_ok ext (task_step ext k o).
Proof.
  intros Hk. destruct o as [| |t]; simpl; [| |by apply task_ended_ok].
  - assert (Hc : tasks_ok ext (if needs_task (_cleanup_task k) k then new_cleanup k else k)).
    { destruct (needs_task (_cleanup_task k) k) eqn:Hd; [|done]. destruct Hk as [Hk Ho Hn]. split; simpl.
      - intros t [->|Ht]%elem_of_cons; [by left|]. destruct (Hk t Ht) as [Hc|Hc]; [|by right]. unfold needs_task in Hd. rewrite Hc in Hd.
        apply negb_true_iff, bool_decide_eq_false in Hd. done.
      - intros t [[->|Ht]%elem_of_cons|[[= ->]|Ht]]; try lia; apply Nat.lt_lt_succ_r, Ho; auto.
      - apply NoDup_cons. split; [|done]. intros Hin. specialize (Ho _ (or_introl Hin)). lia. }
    unfold startup. revert Hc. generalize (if needs_task (_cleanup_task k) k then new_cleanup k else k). clear. intros k [Hk Ho Hn].
    destruct (ext && needs_task (_external_check_task k) k) eqn:Hd; [|by split]. apply andb_prop in Hd as [-> Hd]. split; simpl.
    + intros t [->|Ht]%elem_of_cons; [by right|]. destruct (Hk t Ht) as [Hc|[_ Hc]]; [by left|]. unfold needs_task in Hd. rewrite Hc in Hd.
      apply negb_true_iff, bool_decide_eq_false in Hd. done.
    + intros t [[->|Ht]%elem_of_cons|[Ht|[= ->]]]; try lia; apply Nat.lt_lt_succ_r, Ho; auto.
    + apply NoDup_cons. split; [|done]. intros Hin. specialize (Ho _ (or_introl Hin)). lia.
  - destruct Hk as [Hk Ho Hn]. unfold shutdown. split.
    + intros t Ht. exfalso. destruct (_cleanup_task k) as [c|], (_external_check_task k) as [x|]; simpl in Ht;
        rewrite ?filter_bool_elem, ?negb_true_iff, ?bool_decide_eq_false in Ht;
        destruct (Hk t) as [Hc|[_ Hc]]; naive_solver.
    + intros t Ht. assert (Ht' : t ∈ running k).
      { destruct (_cleanup_task k), (_external_check_task k); simpl in Ht; rewrite ?filter_bool_elem in Ht; naive_solver. }
      assert (t < next_task k)%nat by (apply Ho; auto). by destruct (_cleanup_task k), (_external_check_task k).
    + destruct (_cleanup_task k), (_external_check_task k); simpl; repeat apply filter_bool_NoDup; done.
Qed.

(** However often the plugin is started, stopped and started again, and whatever
    ends its tasks: never more than one sweep and one re-check of the sockets
    run, the latter only with an adapter; after a start they do, and after a
    stop nothing does. *)
Theorem plugin_tasks_single ext ops :
  let k := foldl (task_step ext) no_tasks ops in
  NoDup (running k) ∧ (∀ t, t ∈ running k → _cleanup_task k = Some t ∨ ext = true ∧ _external_check_task k = Some t) ∧
  (length (running k) ≤ if ext then 2 else 1)%nat ∧ (∃ t, t ∈ running (startup ext k) ∧ _cleanup_task (startup ext k) = Some t) ∧ running (shutdown k) = [].
Proof.
  intros k. assert (Hk : tasks_ok ext k).
  { subst k. assert (H0 : tasks_ok ext no_tasks) by (split; simpl; [set_solver|intros t [?%not_elem_of_nil|[?|?]]; done|apply NoDup_nil_2]).
    revert H0. generalize no_tasks. induction ops as [|o ops IH]; intros k0 H0; simpl; [done|]. by apply IH, task_step_ok. }
  destruct Hk as [Hknown Hold Hnd] eqn:Heq. clear Heq. split_and!; [done|done| | |].
  - destruct ext.
    + transitivity (length (option_list (_cleanup_task k) ++ option_list (_external_check_task k))).
      * apply submseteq_length, NoDup_submseteq; [done|].
        intros t Ht. rewrite elem_of_app. destruct (Hknown t Ht) as [-> | [_ ->]]; [left|right]; simpl; set_solver.
      * rewrite length_app. destruct (_cleanup_task k), (_external_check_task k); simpl; lia.
    + transitivity (length (option_list (_cleanup_task k))).
      * apply submseteq_length, NoDup_submseteq; [done|].
        intros t Ht. destruct (Hknown t Ht) as [-> | [? _]]; [simpl; set_solver|done].
      * destruct (_cleanup_task k); simpl; lia.
  - unfold startup. destruct (needs_task (_cleanup_task k) k) eqn:Hd.
    + exists (next_task k). destruct (ext && _); simpl; set_solver.
    + unfold needs_task in Hd. destruct (_cleanup_task k) as [t|] eqn:Hc; [|done]. apply negb_false_iff, bool_decide_eq_true in Hd.
      exists t. destruct (ext && _); simpl; set_solver.
  - pose proof (task_step_ok ext k Shutdown) as Hs. destruct Hs as [Hs _ _]; [by split|]. simpl in Hs.
    destruct (running (shutdown k)) as [|t l] eqn:Hr; [done|]. exfalso. destruct (Hs t) as [Hc|[_ Hc]]; [left| |];
      unfold shutdown in Hc; by destruct (_cleanup_task k), (_external_check_task k).
Qed.

(** ** The re-check of sockets an adapter let in *)

Section Recheck.
Context {Host : Type} `{E : AuthEnv Host} {Request : Type}.
Context (auth_adapter : option (Request → py Host uexn (option ExternalAuthResult))) (external_request : AuthContext → option Request).
Abbreviation method := (py (World Host) uexn).

(** [SessionBoundSockets.close_ended_sessions], its checks one after the other *)
Fixpoint close_each (check : nat → method bool) (l : list nat) (m : Sockets.SocketManager) : method Sockets.SocketManager :=
  match l with
  | [] => mret m
  | ws :: l => ok ← except_exception (check ws) (λ _, mret false); close_each check l (Sockets._check ws ok m)
  end.
Definition close_ended_sessions (check : nat → method bool) (m : Sockets.SocketManager) : method Sockets.SocketManager :=
  close_each check (dict_keys (Sockets._bound m)) m.

(** [identity] is what a socket was bound with. *)
Definition recheck_manager (permission : option string) (identity : nat → option AuthContext) (m : Sockets.SocketManager) : method Sockets.SocketManager :=
  close_ended_sessions (λ ws, ShellUsers.is_external_socket_active auth_adapter external_request (identity ws) permission) m.
Fixpoint recheck_external_sockets (l : list (option string * (nat → option AuthContext) * Sockets.SocketManager)) : method (list Sockets.SocketManager) :=
  match l with
  | [] => mret []
  | (permission, identity, m) :: l => m ← recheck_manager permission identity m; ms ← recheck_external_sockets l; mret (m :: ms)
  end.
(** One turn of [_cleanup_loop]: what it raises is logged. *)
Definition cleanup_turn : method unit := logged cleanup_sessions.

Definition socket_same (ws : nat) (m m' : Sockets.SocketManager) : Prop :=
  dict_get ws (Sockets._bound m') = dict_get ws (Sockets._bound m) ∧ (ws ∈ Sockets._clients m' ↔ ws ∈ Sockets._clients m) ∧
  (∀ code, (ws, code) ∈ Sockets.closed m' ↔ (ws, code) ∈ Sockets.closed m).
Lemma socket_same_refl ws m : socket_same ws m m.
Proof. done. Qed.
Lemma socket_same_trans ws m1 m2 m3 : socket_same ws m1 m2 → socket_same ws m2 m3 → socket_same ws m1 m3.
Proof. intros (A1 & B1 & C1) (A2 & B2 & C2). split_and!; [congruence|by rewrite B2|]. intros code. by rewrite C2. Qed.
Lemma check_other ws ws' ok m : ws' ≠ ws → socket_same ws' m (Sockets._check ws ok m).
Proof.
  intros Hne. unfold Sockets._check. destruct (_ || _); [done|].
  unfold socket_same, Sockets._on_session_ended, Sockets.unbind, Sockets.drop_client, Sockets._stop_sender, Sockets.set_clients, Sockets.set_bound, Sockets.set_world.
  cbn. split_and!; [by rewrite dict_get_del_ne| |].
  - rewrite filter_bool_elem, negb_true_iff, bool_decide_eq_false. naive_solver.
  - intros code. rewrite elem_of_app, list_elem_of_singleton. naive_solver.
Qed.
Lemma close_each_others check ws : ∀ l m s m' s', ws ∉ l → close_each check l m s = (inr m', s') → socket_same ws m m'.
Proof.
  induction l as [|ws' l IH]; intros m s m' s' Hn; simpl; [by intros [= <- _]|]. apply not_elem_of_cons in Hn as [Hne Hn].
  rewrite py_bind_eq. destruct (except_exception _ _ s) as [[e|ok] s1]; [done|]. intros Hrest%IH; [|done].
  eapply socket_same_trans; [by apply check_other|exact Hrest].
Qed.

(** A socket of a stored session or an API token is left alone by the re-check,
    whatever the adapter does. *)
Theorem recheck_spares_sessions permission identity ws m s m' s' :
  match identity ws with Some ctx => external ctx = false | None => True end →
  recheck_manager permission identity m s = (inr m', s') → socket_same ws m m'.
Proof.
  intros Hin. unfold recheck_manager, close_ended_sessions. generalize (dict_keys (Sockets._bound m)) as l. intros l. revert m s.
  induction l as [|ws' l IH]; intros m s; simpl; [by intros [= <- _]|]. rewrite py_bind_eq.
  destruct (except_exception _ _ s) as [[e|ok] s1] eqn:Hc; [done|]. intros Hrest%IH. eapply socket_same_trans; [|exact Hrest].
  destruct (decide (ws' = ws)) as [->|Hne]; [|by apply check_other]. enough (ok = true) as -> by done.
  revert Hc. unfold except_exception, try_except, ShellUsers.is_external_socket_active. destruct (identity ws) as [ctx|]; [rewrite Hin|]; by intros [= <- <-].
Qed.

(** A socket whose check said no, or raised, is closed with 4401 and hears
    nothing more. *)
Lemma close_each_closes check ws : ∀ l m s m' s', NoDup l → ws ∈ l → dict_ok (Sockets._bound m) → is_Some (dict_get ws (Sockets._bound m)) →
  (∀ s, ∃ s', except_exception (check ws) (λ _, mret false) s = (inr false, s')) →
  close_each check l m s = (inr m', s') →
  dict_get ws (Sockets._bound m') = None ∧ ws ∉ Sockets._clients m' ∧ (ws, Sockets.CLOSE_SESSION_ENDED) ∈ Sockets.closed m'.
Proof.
  induction l as [|ws' l IH]; intros m s m' s' Hnd Hin Hok [p Hp] Hno; simpl; [by apply not_elem_of_nil in Hin|].
  apply NoDup_cons in Hnd as [Hn Hnd]. rewrite py_bind_eq.
  destruct (decide (ws = ws')) as [<-|Hne].
  - destruct (Hno s) as [s1 ->]. intros Hrest. pose proof (close_each_others _ _ _ _ _ _ _ Hn Hrest) as (Hb & Hcl & Hcd).
    rewrite Hb, Hcl, (Hcd Sockets.CLOSE_SESSION_ENDED). unfold Sockets._check.
    rewrite (proj2 (dict_mem_get _ _) (ex_intro _ _ Hp)). simpl.
    unfold Sockets._on_session_ended, Sockets.unbind, Sockets.drop_client, Sockets._stop_sender, Sockets.set_clients, Sockets.set_bound, Sockets.set_world. cbn.
    split_and!; [by apply dict_get_del_eq| |].
    + rewrite filter_bool_elem, negb_true_iff, bool_decide_eq_false. naive_solver.
    + apply elem_of_app. right. by apply list_elem_of_singleton.
  - apply elem_of_cons in Hin as [->|Hin]; [done|]. destruct (except_exception (check ws') _ s) as [[e|ok] s1]; [done|]. apply IH; try done.
    + unfold Sockets._check. destruct (_ || _); [done|].
      unfold Sockets._on_session_ended, Sockets.unbind, Sockets.drop_client, Sockets._stop_sender, Sockets.set_clients, Sockets.set_bound, Sockets.set_world.
      cbn. by apply dict_ok_del.
    + destruct (check_other ws' ws ok m Hne) as (-> & _). by eexists.
Qed.

(** Without an adapter, or when the adapter knows the caller no more, the socket
    of an identity of the adapter is closed. *)
Theorem recheck_closes_gone permission identity ws ctx m s m' s' :
  identity ws = Some ctx → external ctx = true → dict_ok (Sockets._bound m) → is_Some (dict_get ws (Sockets._bound m)) →
  match auth_adapter, external_request ctx with
  | Some run, Some request => ∀ h, ∃ h' e, run request h = (inr None, h') ∨ run request h = (inl e, h') ∧ e ≠ Cancellation
  | _, _ => True
  end →
  recheck_manager permission identity m s = (inr m', s') →
  dict_get ws (Sockets._bound m') = None ∧ ws ∉ Sockets._clients m' ∧ (ws, Sockets.CLOSE_SESSION_ENDED) ∈ Sockets.closed m'.
Proof.
  intros Hid Hext Hok [p Hp] Hgone Hrun.
  assert (Hin : ws ∈ dict_keys (Sockets._bound m)).
  { destruct (decide (ws ∈ dict_keys (Sockets._bound m))) as [Hin|Hn]; [done|]. apply dict_get_None in Hn. congruence. }
  refine (close_each_closes _ ws _ m s m' s' Hok Hin Hok (ex_intro _ _ Hp) _ Hrun).
  intros s0. unfold ShellUsers.is_external_socket_active. rewrite Hid, Hext. simpl. unfold ShellUsers.revalidate_external. rewrite Hext.
  destruct auth_adapter as [run|]; [|by exists s0]. destruct (external_request ctx) as [request|]; [|by exists s0].
  destruct (Hgone (host s0)) as (h' & e & [Hr|[Hr He]]).
  - exists {| st := st s0; au := au s0; host := h' |}. unfold except_exception at 1. unfold try_except. rewrite py_bind_eq.
    unfold except_exception, try_except, on_host. rewrite py_bind_eq, Hr. done.
  - exists {| st := st s0; au := au s0; host := h' |}. unfold except_exception at 1. unfold try_except. rewrite py_bind_eq.
    unfold except_exception, try_except, on_host. rewrite py_bind_eq, Hr. by destruct e.
Qed.
End Recheck.

(** ** Mounting the plugin on a server *)

(** What [on_mount] reads and sets of the server's options; a [base_path] that
    is not a string is [None]. *)
Record CliServerOptions := {
  allowed_origins : option (list string);
  base_path : option string;
  external_authentication : bool;
  session_check_interval : option Q;
}.
(** The server; managers, buses and applications are numbers. *)
Record MountServer := {
  app : nat;
  event_socket_manager : nat;
  log_socket_manager : nat;
  server_bus : nat;
  options : CliServerOptions;
  authentication_required : bool;
  users_shell : bool;
  audit_mounts : nat;
}.
(** What mounting changes of the plugin; [middleware] are the applications whose
    stack has its protection, once each time it was added, [session_checked] the
    socket managers that got its check. *)
Record MountedPlugin := {
  is_external : bool;
  protect_server : bool;
  plugin_event_bus : option nat;
  plugin_sender : option nat;
  plugin_origins : option (list string);
  _base_paths : list string;
  _extra_public : list (string * option (list string));
  _protected_apps : list nat;
  middleware : list nat;
  session_checked : list nat;
  change_listeners : list nat;
  _session_sockets : list (nat * option string);
  _session_check_interval : option Q;
  audit_authorize : option bool;
}.
Definition LOGS_READ : string := "logs:read".
Definition DEFAULT_SESSION_CHECK_INTERVAL : Q := 30.
Definition MAX_SESSION_CHECK_INTERVAL : Q := 60.

Definition allow_anonymous (path : string) (methods : list string) (p : MountedPlugin) : MountedPlugin :=
  let entry := (path, match methods with [] => None | _ => Some (map upper methods) end) in
  {| is_external := is_external p; protect_server := protect_server p; plugin_event_bus := plugin_event_bus p; plugin_sender := plugin_sender p;
     plugin_origins := plugin_origins p; _base_paths := _base_paths p; _extra_public := _extra_public p ++ [entry]; _protected_apps := _protected_apps p;
     middleware := middleware p; session_checked := session_checked p; change_listeners := change_listeners p;
     _session_sockets := _session_sockets p; _session_check_interval := _session_check_interval p; audit_authorize := audit_authorize p |}.
Definition protect (a : nat) (p : MountedPlugin) : MountedPlugin :=
  if bool_decide (a ∈ _protected_apps p) then p
  else
    {| is_external := is_external p; protect_server := protect_server p; plugin_event_bus := plugin_event_bus p; plugin_sender := plugin_sender p;
       plugin_origins := plugin_origins p; _base_paths := _base_paths p; _extra_public := _extra_public p; _protected_apps := _protected_apps p ++ [a];
       middleware := middleware p ++ [a]; session_checked := session_checked p; change_listeners := change_listeners p;
       _session_sockets := _session_sockets p; _session_check_interval := _session_check_interval p; audit_authorize := audit_authorize p |}.

Definition mounted_bases (o : CliServerOptions) (bases : list string) : list string :=
  match base_path o with
  | Some path =>
      if is_empty (strip_of ProtectSafety.path_slash path) then bases
      else let base := ProtectSafety._normalize_base path in if bool_decide (base ∈ bases) then bases else bases ++ [base]
  | None => bases
  end.
Definition mounted_origins (o : CliServerOptions) (origins : option (list string)) : option (list string) :=
  match origins, allowed_origins o with None, Some ((_ :: _) as l) => Some l | _, _ => origins end.
Definition bind_sockets (sockets : nat) (permission : option string) (p : MountedPlugin) : MountedPlugin :=
  {| is_external := is_external p; protect_server := protect_server p; plugin_event_bus := plugin_event_bus p; plugin_sender := plugin_sender p;
     plugin_origins := plugin_origins p; _base_paths := _base_paths p; _extra_public := _extra_public p; _protected_apps := _protected_apps p;
     middleware := middleware p;
     session_checked := if bool_decide (sockets ∈ session_checked p) then session_checked p else session_checked p ++ [sockets];
     change_listeners := if bool_decide (sockets ∈ change_listeners p) then change_listeners p else change_listeners p ++ [sockets];
     _session_sockets := if bool_decide (sockets ∈ map fst (_session_sockets p)) then _session_sockets p else _session_sockets p ++ [(sockets, permission)];
     _session_check_interval := _session_check_interval p; audit_authorize := audit_authorize p |}.

(** The plugin and the server after [on_mount]; the audit plugin is mounted with
    it ([AuditApi.before_mount] says what that does). *)
Definition adopt (s : MountServer) (p : MountedPlugin) : MountedPlugin :=
  {| is_external := is_external p; protect_server := protect_server p;
     plugin_event_bus := match plugin_event_bus p with None => Some (server_bus s) | bus => bus end;
     plugin_sender := Some (event_socket_manager s); plugin_origins := mounted_origins (options s) (plugin_origins p);
     _base_paths := mounted_bases (options s) (_base_paths p); _extra_public := _extra_public p; _protected_apps := _protected_apps p;
     middleware := middleware p; session_checked := session_checked p; change_listeners := change_listeners p; _session_sockets := _session_sockets p;
     _session_check_interval := match session_check_interval (options s) with Some i => Some i | None => _session_check_interval p end;
     audit_authorize := match audit_authorize p with None => if protect_server p then None else Some true | a => a end |}.
Definition on_mount (s : MountServer) (p : MountedPlugin) : MountedPlugin * MountServer :=
  let p := adopt s p in
  let p := if protect_server p then protect (app s) p else p in
  let p := bind_sockets (log_socket_manager s) (Some LOGS_READ) (bind_sockets (event_socket_manager s) None p) in
  (p, {| app := app s; event_socket_manager := event_socket_manager s; log_socket_manager := log_socket_manager s; server_bus := server_bus s;
         options := {| allowed_origins := allowed_origins (options s); base_path := base_path (options s);
                       external_authentication := external_authentication (options s) || is_external p;
                       session_check_interval := session_check_interval (options s) |};
         authentication_required := true; users_shell := true; audit_mounts := S (audit_mounts s) |}).

Definition external_socket_check_interval (p : MountedPlugin) : Q :=
  match _session_check_interval p with
  | Some v => if Qle_bool v 0 then DEFAULT_SESSION_CHECK_INTERVAL else Qmin v MAX_SESSION_CHECK_INTERVAL
  | None => DEFAULT_SESSION_CHECK_INTERVAL
  end.

(** Whatever interval the server is given, the sockets of an adapter are checked
    again within a minute. *)
Lemma check_interval_bounds p : (0 < external_socket_check_interval p ∧ external_socket_check_interval p <= 60)%Q.
Proof.
  unfold external_socket_check_interval. destruct (_session_check_interval p) as [v|]; [|by vm_compute].
  destruct (Qle_bool v 0) eqn:Hv; [by vm_compute|]. assert (0 < v)%Q.
  { apply Qnot_le_lt. intros H. apply Qle_bool_iff in H. congruence. }
  split; [by apply Q.min_glb_lt|apply Q.le_min_r].
Qed.

(** *** A plugin mounted on any servers, in any order and however often *)

Record mount_ok (p : MountedPlugin) : Prop := {
  mo_apps : middleware p = _protected_apps p;
  mo_once : NoDup (_protected_apps p);
  mo_bases : NoDup (_base_paths p);
  mo_sockets : NoDup (map fst (_session_sockets p));
  mo_listeners : NoDup (change_listeners p);
}.
Lemma nodup_snoc {A} (l : list A) x : x ∉ l → NoDup l → NoDup (l ++ [x]).
Proof.
  intros Hx Hl. apply NoDup_app. split_and!; [done| |apply NoDup_singleton].
  intros y Hy ->%list_elem_of_singleton. done.
Qed.
Lemma protect_ok a p : mount_ok p → mount_ok (protect a p).
Proof.
  intros Hp. unfold protect. case_bool_decide as Ha; [done|]. destruct Hp as [H1 H2 H3 H4 H5].
  split; cbn; [by rewrite H1|by apply nodup_snoc|done..].
Qed.
Lemma bind_sockets_ok m perm p : mount_ok p → mount_ok (bind_sockets m perm p).
Proof.
  intros [H1 H2 H3 H4 H5]. split; cbn; try done; case_bool_decide; try done; [|by apply nodup_snoc].
  rewrite map_app. by apply nodup_snoc.
Qed.
Lemma adopt_ok s p : mount_ok p → mount_ok (adopt s p).
Proof.
  intros [H1 H2 H3 H4 H5]. split; cbn; try done. unfold mounted_bases. destruct (base_path _); [|done].
  destruct (is_empty _); [done|]. case_bool_decide; [done|by apply nodup_snoc].
Qed.
Lemma on_mount_ok s p : mount_ok p → mount_ok (on_mount s p).1.
Proof. intros Hp. unfold on_mount. cbn [fst]. do 2 apply bind_sockets_ok. destruct (protect_server _); [apply protect_ok|]; by apply adopt_ok. Qed.

(** Mounting only adds. *)
Definition mounted_on (s : MountServer) (p : MountedPlugin) : Prop :=
  (protect_server p = true → app s ∈ middleware p) ∧ event_socket_manager s ∈ session_checked p ∧ log_socket_manager s ∈ session_checked p ∧
  event_socket_manager s ∈ change_listeners p ∧ log_socket_manager s ∈ change_listeners p ∧
  (∀ path, base_path (options s) = Some path → strip_of ProtectSafety.path_slash path ≠ "" → ProtectSafety._normalize_base path ∈ _base_paths p).
Lemma bind_grows m perm p s : mounted_on s p → mounted_on s (bind_sockets m perm p).
Proof.
  unfold mounted_on. cbn. intros (H1 & H2 & H3 & H4 & H5 & H6). split_and!; try done; case_bool_decide; rewrite ?elem_of_app; auto.
Qed.
Lemma protect_grows a p s : mounted_on s p → mounted_on s (protect a p).
Proof.
  unfold mounted_on, protect. case_bool_decide; [done|]. cbn. intros (H1 & H2 & H3 & H4 & H5 & H6). split_and!; try done.
  intros Hp. rewrite elem_of_app. auto.
Qed.
Lemma adopt_grows s' p s : mounted_on s p → mounted_on s (adopt s' p).
Proof.
  unfold mounted_on. cbn. intros (H1 & H2 & H3 & H4 & H5 & H6). split_and!; try done. intros path Hb Hne. specialize (H6 path Hb Hne).
  unfold mounted_bases. destruct (base_path (options s')); [|done]. destruct (is_empty _); [done|]. case_bool_decide; [done|]. apply elem_of_app. by left.
Qed.
Lemma on_mount_grows s' p s : mounted_on s p → mounted_on s (on_mount s' p).1.
Proof. intros H. unfold on_mount. cbn [fst]. do 2 apply bind_grows. destruct (protect_server _); [apply protect_grows|]; by apply adopt_grows. Qed.
Lemma bind_bound m perm p : m ∈ session_checked (bind_sockets m perm p) ∧ m ∈ change_listeners (bind_sockets m perm p).
Proof. cbn. split; case_bool_decide; rewrite ?elem_of_app, ?list_elem_of_singleton; auto. Qed.
Lemma bind_keeps m m' perm p :
  (m ∈ session_checked p → m ∈ session_checked (bind_sockets m' perm p)) ∧ (m ∈ change_listeners p → m ∈ change_listeners (bind_sockets m' perm p)).
Proof. cbn. split; case_bool_decide; rewrite ?elem_of_app; auto. Qed.
Lemma on_mount_mounted s p : mount_ok p → mounted_on s (on_mount s p).1.
Proof.
  intros Hok. unfold on_mount. cbn [fst].
  set (q := if protect_server (adopt s p) then protect (app s) (adopt s p) else adopt s p).
  assert (Hq : protect_server q = protect_server p ∧ _base_paths q = mounted_bases (options s) (_base_paths p) ∧ (protect_server p = true → app s ∈ middleware q)).
  { assert (mount_ok (adopt s p)) as Ha by (by apply adopt_ok). subst q. change (protect_server (adopt s p)) with (protect_server p).
    destruct (protect_server p) eqn:Hp; [|done]. unfold protect. case_bool_decide as Hin.
    - split_and!; [done..|]. intros _. by rewrite (mo_apps _ Ha).
    - split_and!; [done..|]. intros _. cbn. apply elem_of_app. right. by apply list_elem_of_singleton. }
  destruct Hq as (Hp & Hb & Happ). destruct (bind_bound (event_socket_manager s) None q) as [He1 He2].
  destruct (bind_bound (log_socket_manager s) (Some LOGS_READ) (bind_sockets (event_socket_manager s) None q)) as [Hl1 Hl2].
  destruct (bind_keeps (event_socket_manager s) (log_socket_manager s) (Some LOGS_READ) (bind_sockets (event_socket_manager s) None q)) as [K1 K2].
  split_and!; [|by apply K1|done|by apply K2|done|].
  - change (protect_server q = true → app s ∈ middleware q). rewrite Hp. done.
  - intros path Hpath Hne. change (ProtectSafety._normalize_base path ∈ _base_paths q). rewrite Hb. unfold mounted_bases, is_empty. rewrite Hpath.
    rewrite bool_decide_false by done. case_bool_decide; [done|]. apply elem_of_app. right. by apply list_elem_of_singleton.
Qed.

(** Mounted on any servers, in any order and however often, the plugin protects
    each application once and every one of them, closes ended sessions on the
    sockets of all of them, hears of each manager once, and protects each base
    path of theirs. *)
Theorem mounted_everywhere servers p :
  mount_ok p → let p' := foldl (λ p s, (on_mount s p).1) p servers in
  mount_ok p' ∧ ∀ s, s ∈ servers → mounted_on s p'.
Proof.
  intros Hp p'. subst p'. revert p Hp. induction servers as [|s servers IH]; intros p Hp; [split; [done|]; intros s Hs; by apply not_elem_of_nil in Hs|].
  destruct (IH _ (on_mount_ok s p Hp)) as [Hok Hall]. split; [exact Hok|]. intros s' [->|Hs']%elem_of_cons; [|by apply Hall]. cbn [foldl].
  assert (Hm : mounted_on s (on_mount s p).1) by (by apply on_mount_mounted). revert Hm. generalize (on_mount s p).1 as q. clear.
  induction servers as [|s' servers IH]; intros q Hq; [done|]. cbn [foldl]. by apply IH, on_mount_grows.
Qed.

(** ** The guard of the audit routes *)

Section Guard.
Context {Host : Type} `{E : AuthEnv Host} (require_auth : py (World Host) uexn AuthContext).
Definition authorize_audit (permission : string) : py (World Host) uexn AuthContext :=
  ctx ← require_auth;
  if can ctx permission then mret ctx else raise (UsersApiError 403 ("missing permission: " +:+ permission)).
End Guard.

(** ** The builder *)

(** Stores and the adapter are the host's objects, [Store] and [Adapter]; [None] of
    a store is the one in memory.  The session, password, limit and read-only
    options are those of the service. *)
Section Builder.
Context {Store Adapter : Type}.
Record CliUsersBuilder := {
  _user_store : option Store; _session_store : option Store; _credential_store : option Store;
  _audit_store : option Store; _group_store : option Store; _api_token_store : option Store;
  _auth_adapter : option Adapter; _default_admin_password : option string; _allowed_origins : option (list string);
  _protect_server : bool; _cleanup_interval_ms : Z; _options : AuthServiceOptions;
}.
Definition new_users_builder : CliUsersBuilder :=
  {| _user_store := None; _session_store := None; _credential_store := None; _audit_store := None; _group_store := None; _api_token_store := None;
     _auth_adapter := None; _default_admin_password := None; _allowed_origins := None; _protect_server := true;
     _cleanup_interval_ms := 5 * 60 * 1000; _options := default_auth_options |}.

(** The setters: what each is given *)
Inductive setting :=
| SetUserStore (x : Store) | SetSessionStore (x : Store) | SetCredentialStore (x : Store)
| SetAuditStore (x : Store) | SetGroupStore (x : Store) | SetApiTokenStore (x : Store)
| SetAuthAdapter (x : option Adapter) | SetDefaultAdminPassword (x : option string) | SetAllowedOrigins (x : option (list string))
| SetProtectServer (x : bool) | SetCleanupInterval (x : Z)
| SetAllowNonExpiringTokens (x : bool) | SetReadOnlyUsers (x : bool) | SetReadOnlyGroups (x : bool)
| SetMaxSessionLifetime (x : Z) | SetRateLimit (attempts window_ms : Z) | SetTrustProxy (x : bool + Z)
| SetSessionTimeout (x : Z) | SetMinPasswordLength (x : Z) | SetMaxLoginAttempts (x : Z) | SetLockout (x : Z).

Definition set_option (x : setting) (o : AuthServiceOptions) : AuthServiceOptions :=
  {| session_timeout_ms := match x with SetSessionTimeout v => v | _ => session_timeout_ms o end;
     max_session_lifetime_ms := match x with SetMaxSessionLifetime v => v | _ => max_session_lifetime_ms o end;
     min_password_length := match x with SetMinPasswordLength v => v | _ => min_password_length o end;
     max_login_attempts := match x with SetMaxLoginAttempts v => v | _ => max_login_attempts o end;
     lockout_ms := match x with SetLockout v => v | _ => lockout_ms o end;
     rate_limit_attempts := match x with SetRateLimit v _ => v | _ => rate_limit_attempts o end;
     rate_limit_window_ms := match x with SetRateLimit _ v => v | _ => rate_limit_window_ms o end;
     trust_proxy := match x with SetTrustProxy v => v | _ => trust_proxy o end; ticket_ttl_ms := ticket_ttl_ms o;
     allow_non_expiring_tokens := match x with SetAllowNonExpiringTokens v => v | _ => allow_non_expiring_tokens o end;
     read_only_users := match x with SetReadOnlyUsers v => v | _ => read_only_users o end;
     read_only_groups := match x with SetReadOnlyGroups v => v | _ => read_only_groups o end |}.
Definition apply_setting (b : CliUsersBuilder) (x : setting) : CliUsersBuilder :=
  {| _user_store := match x with SetUserStore v => Some v | _ => _user_store b end;
     _session_store := match x with SetSessionStore v => Some v | _ => _session_store b end;
     _credential_store := match x with SetCredentialStore v => Some v | _ => _credential_store b end;
     _audit_store := match x with SetAuditStore v => Some v | _ => _audit_store b end;
     _group_store := match x with SetGroupStore v => Some v | _ => _group_store b end;
     _api_token_store := match x with SetApiTokenStore v => Some v | _ => _api_token_store b end;
     _auth_adapter := match x with SetAuthAdapter v => v | _ => _auth_adapter b end;
     _default_admin_password := match x with SetDefaultAdminPassword v => v | _ => _default_admin_password b end;
     _allowed_origins := match x with SetAllowedOrigins v => v | _ => _allowed_origins b end;
     _protect_server := match x with SetProtectServer v => v | _ => _protect_server b end;
     _cleanup_interval_ms := match x with SetCleanupInterval v => v | _ => _cleanup_interval_ms b end;
     _options := set_option x (_options b) |}.

(** [build]: the plugin before it is mounted, with no socket, application or bus *)
Definition build_plugin (event_bus : option nat) (b : CliUsersBuilder) : MountedPlugin :=
  {| is_external := bool_decide (is_Some (_auth_adapter b)); protect_server := _protect_server b; plugin_event_bus := event_bus;
     plugin_sender := None; plugin_origins := _allowed_origins b; _base_paths := []; _extra_public := []; _protected_apps := []; middleware := [];
     session_checked := []; change_listeners := []; _session_sockets := []; _session_check_interval := None; audit_authorize := None |}.
Lemma built_plugin_ok event_bus b : mount_ok (build_plugin event_bus b).
Proof. split; simpl; try done; apply NoDup_nil_2. Qed.
End Builder.
Arguments CliUsersBuilder : clear implicits.
Arguments setting : clear implicits.

(** A plugin mounted twice on one server and once on another *)
Definition example_server (i : nat) : MountServer :=
  {| app := i; event_socket_manager := 10 + i; log_socket_manager := 20 + i; server_bus := i;
     options := {| allowed_origins := Some ["https://app.test"]; base_path := Some "/cli/"; external_authentication := false; session_check_interval := Some 600%Q |};
     authentication_required := false; users_shell := false; audit_mounts := 0 |}.
Definition example_plugin : MountedPlugin := build_plugin (Store := unit) (Adapter := unit) None new_users_builder.
Lemma mounted_everywhere_witness :
  let p := foldl (λ p s, (on_mount s p).1) example_plugin [example_server 1; example_server 1; example_server 2] in
  (mount_ok p ∧ ∀ s, s ∈ [example_server 1; example_server 1; example_server 2] → mounted_on s p) ∧
  middleware p = [1; 2]%nat ∧ change_listeners p = [11; 21; 12; 22]%nat ∧ _base_paths p = ["/cli"] ∧ external_socket_check_interval p = 60%Q.
Proof. split; [apply (mounted_everywhere _ example_plugin); apply built_plugin_ok|vm_compute; done]. Defined.

(** ** The snapshot of a request *)

Section Snapshot.
(** The values of an ASGI scope; [copy_headers] copies the pairs of bytes of a list
    of headers, or gives an empty list for what has none. *)
Context {V : Type} (is_request_type : V → bool) (copy_headers : option V → V) (new_state : V).
Definition _SCOPE_KEYS : list string :=
  ["type"; "asgi"; "http_version"; "method"; "scheme"; "server"; "client"; "root_path"; "path"; "raw_path"; "query_string"; "app"].
Definition capture (scope : option (dict string V)) : option (dict string V) :=
  match scope with
  | Some scope =>
      if match dict_get "type" scope with Some t => is_request_type t | None => false end then
        let copied := omap (λ key, pair key <$> dict_get key scope) _SCOPE_KEYS in
        Some (dict_set "headers" (copy_headers (dict_get "headers" scope)) copied)
      else None
  | None => None
  end.
(** The scope of the new request *)
Definition to_request (snapshot : dict string V) : dict string V :=
  let headers := copy_headers (dict_get "headers" snapshot) in
  dict_set "state" new_state (dict_set "headers" headers snapshot).

Lemma get_copied (scope : dict string V) (keys : list string) (k : string) : dict_get k (omap (λ key, pair key <$> dict_get key scope) keys) = if bool_decide (k ∈ keys) then dict_get k scope else None.
Proof.
  induction keys as [|key keys IH]; [done|]. cbn [omap list_omap]. destruct (dict_get key scope) as [v|] eqn:Hv; cbn [fmap option_fmap option_map dict_get].
  - destruct (decide (key = k)) as [->|Hne]; [rewrite bool_decide_true by set_solver; done|]. rewrite IH.
    rewrite (bool_decide_ext (k ∈ keys) (k ∈ key :: keys)) by set_solver. done.
  - rewrite IH. destruct (decide (key = k)) as [->|Hne].
    + rewrite (bool_decide_true (k ∈ k :: keys)) by set_solver. rewrite Hv. by case_bool_decide.
    + rewrite (bool_decide_ext (k ∈ keys) (k ∈ key :: keys)) by set_solver. done.
Qed.

#[local] Opaque _SCOPE_KEYS.
(** The adapter runs again on the request it accepted: its request line, headers
    and addresses, and nothing that middleware put into the scope. *)
Theorem snapshot_keeps (scope snapshot : dict string V) (k : string) :
  (∀ h, copy_headers (Some (copy_headers h)) = copy_headers h) → capture (Some scope) = Some snapshot →
  dict_get k (to_request snapshot) =
    if bool_decide (k = "state") then Some new_state
    else if bool_decide (k = "headers") then Some (copy_headers (dict_get "headers" scope))
    else if bool_decide (k ∈ _SCOPE_KEYS) then dict_get k scope else None.
Proof.
  intros Hcopy. unfold capture. destruct (match dict_get "type" scope with Some t => _ | None => _ end); [|done]. intros [= <-].
  unfold to_request. rewrite dict_get_set_eq, Hcopy.
  destruct (decide (k = "state")) as [->|Hs]; [rewrite bool_decide_true, dict_get_set_eq by done; done|].
  rewrite bool_decide_false, dict_get_set_ne by done.
  destruct (decide (k = "headers")) as [->|Hh]; [rewrite bool_decide_true, dict_get_set_eq by done; done|].
  rewrite bool_decide_false, !dict_get_set_ne by done. apply get_copied.
Qed.
End Snapshot.
