(* ===== verification/StorageProviders.v ===== *)
(** * File storages on the operating system and on S3
      ([fs/providers/os_provider.py], [filesystem-s3/s3_provider.py])

    The two providers over what they call: the operating system ([OsTree]) and an
    S3 client ([S3Client]), each a type class of the calls with their errors.
    Errors and entries are those of [FileTree.v]; an error that a provider lets
    through is [HostError]. *)

From S2P Require Import Prelude PyStr Utf8 FileTree FilesApi.
From Stdlib Require Import Ascii.

Open Scope Z_scope.

(** Every step of a storage raises the text of an error it does not expect. *)
Definition host_text (e : string) : fexn := HostError e.

(** ** The operating system *)
Module Os.

(** What the provider asks beyond [OsFiles] *)
Class OsTree (O : Type) `{OsFiles O} := {
  os_mkdir : string → py O string unit;
  os_rmdir : string → py O string unit;
  os_copytree : string → string → py O string unit;
  os_copy2 : string → string → py O string unit;
  os_move : string → string → py O string unit;
}.

Section Provider.
Context {O : Type} `{OT : OsTree O} (realpath : string → string) (allowed_paths : list string).
Abbreviation method := (py O fexn).

(** [self._allowed_paths] *)
Definition os_allowed_paths : list string := resolve_roots realpath allowed_paths.
Definition os {A} (m : py O string A) : method A := λ o, let '(r, o) := m o in (match r with inr a => inr a | inl e => inl (host_text e) end, o).

Definition os_validate (path : string) : method string :=
  let resolved := realpath path in
  if under_root os_allowed_paths resolved then mret resolved else raise (FileStoragePermissionError path).
Definition _ensure_not_root (resolved path : string) : method unit :=
  if bool_decide (resolved ∈ os_allowed_paths) then raise (FileStoragePermissionError path) else mret tt.

Definition to_stat_entry (entry_name : string) (x : os_stat) : FileEntry :=
  {| e_name := entry_name; e_type := stat_type x; e_size := st_size x; e_modified := st_mtime x; e_permissions := Some (st_filemode x) |}.
(** Entries that cannot be looked at are left out. *)
Fixpoint os_entries (resolved : string) (names : list string) : method (list FileEntry) :=
  match names with
  | [] => mret []
  | entry_name :: names =>
      e ← try_except (x ← os (os_stat_of (path_join resolved entry_name)); mret [to_stat_entry entry_name x]) (λ _, mret []);
      es ← os_entries resolved names;
      mret (e ++ es)
  end.
Definition osp_list_dir (path : string) : method (list FileEntry) :=
  resolved ← os_validate path;
  there ← os (os_exists resolved);
  if negb there then raise (FileStorageNotFoundError path)
  else
    dir ← os (os_isdir resolved);
    if negb dir then raise (FileStorageNotADirectoryError path)
    else names ← os (os_listdir resolved); os_entries resolved (py_sort String.leb names).

Definition osp_read_file (path : string) : method text :=
  resolved ← os_validate path;
  there ← os (os_exists resolved);
  if negb there then raise (FileStorageNotFoundError path)
  else
    dir ← os (os_isdir resolved);
    if dir : bool then raise (FileStorageIsADirectoryError path)
    else b ← os (os_read resolved); mret (universal_newlines (decode b)).

(** Writing a text to a file fails after the file was opened, and emptied, when
    the text has a lone surrogate. *)
Definition osp_write_file (path : string) (c : content) : method unit :=
  resolved ← os_validate path;
  dir ← os (os_isdir resolved);
  if dir : bool then raise (FileStorageIsADirectoryError path)
  else
    parent ← os (os_isdir (dirname resolved));
    if negb parent then raise (FileStorageNotFoundError (dirname path))
    else
      match c with
      | Bytes b => os (os_write resolved b)
      | Text t => match encode t with
                  | Some b => os (os_write resolved b)
                  | None => _ ← os (os_write resolved []); raise UnicodeEncodeError
                  end
      end.

Definition osp_stat (path : string) : method FileStat :=
  resolved ← os_validate path;
  there ← os (os_exists resolved);
  if negb there then raise (FileStorageNotFoundError path)
  else
    x ← os (os_stat_of resolved);
    mret {| f_name := basename resolved; f_type := stat_type x; f_size := st_size x; f_created := st_ctime x; f_modified := st_mtime x;
            f_permissions := Some (st_filemode x) |}.

Definition osp_mkdir (path : string) (recursive : bool) : method unit :=
  resolved ← os_validate path;
  if recursive then os (os_makedirs resolved)
  else
    parent ← os (os_isdir (dirname resolved));
    if negb parent then raise (FileStorageNotFoundError (dirname path))
    else
      there ← os (os_exists resolved);
      if there : bool then mret tt else os (os_mkdir resolved).

Definition osp_remove (path : string) (recursive : bool) : method unit :=
  resolved ← os_validate path;
  _ ← _ensure_not_root resolved path;
  there ← os (os_exists resolved);
  if negb there then raise (FileStorageNotFoundError path)
  else
    dir ← os (os_isdir resolved);
    if dir : bool then if recursive then os (os_rmtree resolved) else os (os_rmdir resolved)
    else os (os_remove resolved).

Definition osp_copy (src dest : string) : method unit :=
  resolved_src ← os_validate src;
  resolved_dest ← os_validate dest;
  there ← os (os_exists resolved_src);
  if negb there then raise (FileStorageNotFoundError src)
  else
    dir ← os (os_isdir resolved_src);
    if dir : bool then os (os_copytree resolved_src resolved_dest) else os (os_copy2 resolved_src resolved_dest).

Definition osp_move (src dest : string) : method unit :=
  resolved_src ← os_validate src;
  resolved_dest ← os_validate dest;
  _ ← _ensure_not_root resolved_src src;
  _ ← _ensure_not_root resolved_dest dest;
  there ← os (os_exists resolved_src);
  if negb there then raise (FileStorageNotFoundError src) else os (os_move resolved_src resolved_dest).

Definition osp_exists_path (path : string) : method bool := resolved ← os_validate path; os (os_exists resolved).

(** The chunks of the stream, at most 64 KiB each *)
Definition osp_get_download_stream (path : string) : method bytes :=
  resolved ← os_validate path;
  there ← os (os_exists resolved);
  if negb there then raise (FileStorageNotFoundError path)
  else
    dir ← os (os_isdir resolved);
    if dir : bool then raise (FileStorageIsADirectoryError path) else os (os_read resolved).
Definition osp_upload_file (path : string) (b : bytes) : method unit := osp_write_file path (Bytes b).
End Provider.

(** *** What the provider touches *)

Inductive os_touch :=
| Look (p : string) | ReadContent (p : string) | Write (p : string) | MakeDirs (p : string)
| Remove (p : string) | Copy (p q : string) | Move (p q : string).

Section Confined.
Context {O : Type} `{OT : OsTree O}.
Definition os_logging {A} (t : os_touch) (m : py O string A) : py (O * list os_touch) string A := λ s,
  let '(r, o) := m s.1 in (r, (o, s.2 ++ [t])).
Local Instance logged_files : OsFiles (O * list os_touch) := {
  os_exists p := os_logging (Look p) (os_exists p); os_isdir p := os_logging (Look p) (os_isdir p); os_isfile p := os_logging (Look p) (os_isfile p);
  os_listdir p := os_logging (ReadContent p) (os_listdir p); os_stat_of p := os_logging (Look p) (os_stat_of p);
  os_read p := os_logging (ReadContent p) (os_read p); os_write p b := os_logging (Write p) (os_write p b);
  os_makedirs p := os_logging (MakeDirs p) (os_makedirs p); os_rmtree p := os_logging (Remove p) (os_rmtree p);
  os_remove p := os_logging (Remove p) (os_remove p);
}.
Local Instance logged_tree : OsTree (O * list os_touch) := {
  os_mkdir p := os_logging (MakeDirs p) (os_mkdir p); os_rmdir p := os_logging (Remove p) (os_rmdir p);
  os_copytree p q := os_logging (Copy p q) (os_copytree p q); os_copy2 p q := os_logging (Copy p q) (os_copy2 p q);
  os_move p q := os_logging (Move p q) (os_move p q);
}.

Context (realpath : string → string) (allowed_paths : list string).
Let rs := resolve_roots realpath allowed_paths.
Definition os_under (p : string) : Prop := under_root rs p = true.
(** Looked at may be also the parent of a path and what is in it. *)
Definition os_touch_ok (t : os_touch) : Prop :=
  match t with
  | Look p => ∃ q, os_under q ∧ (p = q ∨ p = dirname q ∨ ∃ name, p = path_join q name)
  | ReadContent p | Write p | MakeDirs p => os_under p
  | Remove p => os_under p ∧ p ∉ rs
  | Copy p q => os_under p ∧ os_under q
  | Move p q => (os_under p ∧ p ∉ rs) ∧ os_under q ∧ q ∉ rs
  end.
Definition os_log_ok (l0 : list os_touch) (s : O * list os_touch) : Prop := ∃ l, s.2 = l0 ++ l ∧ Forall os_touch_ok l.

Lemma os_log_keeps {A} l0 t (m : py O string A) : os_touch_ok t → keeps (os_log_ok l0) (os (os_logging t m)).
Proof.
  intros Ht s (l & Hl & Hok). unfold os, os_logging. destruct (m s.1) as [r o]. exists (l ++ [t]). simpl.
  rewrite Hl, app_assoc. split; [done|]. apply Forall_app. by split; [|apply Forall_singleton].
Qed.
Lemma os_validate_keeps {A} l0 path (k : string → py (O * list os_touch) fexn A) :
  (∀ resolved, os_under resolved → keeps (os_log_ok l0) (k resolved)) →
  keeps (os_log_ok l0) (resolved ← os_validate realpath allowed_paths path; k resolved).
Proof.
  intros Hk. unfold os_validate, os_allowed_paths. fold rs. destruct (under_root rs (realpath path)) eqn:Hu; [by apply Hk|]. by apply keeps_same.
Qed.
Lemma not_root_keeps {A} l0 resolved path (k : py (O * list os_touch) fexn A) :
  (resolved ∉ rs → keeps (os_log_ok l0) k) → keeps (os_log_ok l0) (_ ← _ensure_not_root realpath allowed_paths resolved path; k).
Proof. intros Hk. unfold _ensure_not_root, os_allowed_paths. fold rs. case_bool_decide; [by apply keeps_same|by apply Hk]. Qed.
Lemma os_look_self p : os_under p → os_touch_ok (Look p).
Proof. intros Hp. exists p. auto. Qed.
Lemma look_parent p : os_under p → os_touch_ok (Look (dirname p)).
Proof. intros Hp. exists p. auto. Qed.
Lemma os_entries_keeps l0 p names : os_under p → keeps (os_log_ok l0) (os_entries p names).
Proof.
  intros Hp. induction names as [|n names IH]; simpl; [by apply keeps_same|].
  apply keeps_bind; [apply keeps_try; [|intros; by apply keeps_same]|].
  - apply keeps_bind; [apply os_log_keeps; exists p; eauto|]. intros x. by apply keeps_same.
  - intros e. apply keeps_bind; [done|]. intros es. by apply keeps_same.
Qed.

Inductive osp_op :=
| OList (p : string) | ORead (p : string) | OWrite (p : string) (c : content) | OStat (p : string) | OMkdir (p : string) (r : bool)
| ORemove (p : string) (r : bool) | OCopy (p q : string) | OMove (p q : string) | OExists (p : string) | ODownload (p : string) | OUpload (p : string) (b : bytes).
(** The operation, without its result *)
Definition osp_perform {Sys : Type} `{OsTree Sys} (o : osp_op) : py Sys fexn unit :=
  match o with
  | OList p => _ ← osp_list_dir realpath allowed_paths p; mret tt
  | ORead p => _ ← osp_read_file realpath allowed_paths p; mret tt
  | OWrite p c => osp_write_file realpath allowed_paths p c
  | OStat p => _ ← osp_stat realpath allowed_paths p; mret tt
  | OMkdir p r => osp_mkdir realpath allowed_paths p r
  | ORemove p r => osp_remove realpath allowed_paths p r
  | OCopy p q => osp_copy realpath allowed_paths p q
  | OMove p q => osp_move realpath allowed_paths p q
  | OExists p => _ ← osp_exists_path realpath allowed_paths p; mret tt
  | ODownload p => _ ← osp_get_download_stream realpath allowed_paths p; mret tt
  | OUpload p b => osp_upload_file realpath allowed_paths p b
  end.

Lemma drop_keeps {A} l0 (m : py (O * list os_touch) fexn A) : keeps (os_log_ok l0) m → keeps (os_log_ok l0) (_ ← m; mret tt).
Proof. intros Hm. apply keeps_bind; [done|]. intros _. by apply keeps_same. Qed.

Ltac touches :=
  repeat match goal with
  | |- keeps _ (_ ← os_validate _ _ _; _) => apply os_validate_keeps; intros
  | |- keeps _ (_ ← _ensure_not_root _ _ _ _; _) => apply not_root_keeps; intros
  | |- keeps _ (mret _) => apply keeps_same; reflexivity
  | |- keeps _ (raise _) => apply keeps_same; reflexivity
  | |- keeps _ (os_entries _ _) => apply os_entries_keeps; assumption
  | |- keeps _ (os _) => apply os_log_keeps; solve [by apply os_look_self|by apply look_parent|cbn; auto]
  | |- keeps _ (if ?b then _ else _) => destruct b
  | |- keeps _ (match ?x with _ => _ end) => destruct x
  | |- keeps _ (mbind _ _) => apply keeps_bind; [|intros ?]
  end.

(** Whatever is asked of the provider, whatever the file system answers: it
    reads, writes, makes, copies and removes only under an allowed root, and no
    root is removed, moved away or replaced. *)
Theorem os_confined (o : osp_op) (s : O * list os_touch) :
  ∃ l, (osp_perform o s).2.2 = s.2 ++ l ∧ Forall os_touch_ok l.
Proof.
  cut (keeps (os_log_ok s.2) (osp_perform o)); [intros Hk; apply Hk; exists []; by rewrite app_nil_r|].
  destruct o; cbn; unfold osp_list_dir, osp_read_file, osp_upload_file, osp_write_file, osp_stat, osp_mkdir, osp_remove, osp_copy, osp_move, osp_exists_path, osp_get_download_stream;
    try apply drop_keeps; touches.
Qed.
End Confined.

(** A text that UTF-8 cannot encode empties the file before it is refused. *)
Lemma surrogate_empties {Sys : Type} `{OsTree Sys} realpath allowed_paths path t o :
  encode t = None → under_root (resolve_roots realpath allowed_paths) (realpath path) = true →
  os_isdir (realpath path) o = (inr false, o) → os_isdir (dirname (realpath path)) o = (inr true, o) →
  (os_write (realpath path) [] o).1 = inr tt →
  osp_write_file realpath allowed_paths path (Text t) o = (inl UnicodeEncodeError, (os_write (realpath path) [] o).2).
Proof.
  intros Ht Hroot Hfile Hparent Hw. unfold osp_write_file, os_validate, os_allowed_paths. rewrite Hroot. run_py. unfold os. rewrite Hfile. run_py.
  rewrite Hparent. cbn [negb]. rewrite Ht. run_py. destruct (os_write (realpath path) [] o) as [r o']. cbn [fst] in Hw. by subst r.
Qed.
End Os.

(** ** S3 *)
Module S3.

(** An error of the service with its code, or another one of the client *)
Inductive s3_error := ClientError (code : string) | OtherError (msg : string).
Definition error_text (e : s3_error) : string := match e with ClientError code => code | OtherError msg => msg end.
(** An object as a listing gives it, and the answer of [head_object]; a time is its
    ISO form. *)
Record s3_object := { Key : string; LastModified : option string; Size : Z }.
Record s3_listing := { Contents : list s3_object; CommonPrefixes : list string }.
Record s3_head := { head_modified : option string; ContentLength : Z }.

(** The calls the provider makes on its bucket; [MaxKeys] has no default here. *)
Class S3Client (C : Type) := {
  list_objects_v2 : string → option string → option Z → py C s3_error s3_listing;
  head_object : string → py C s3_error s3_head;
  get_object : string → py C s3_error bytes;
  put_object : string → bytes → py C s3_error unit;
  delete_object : string → py C s3_error unit;
  delete_objects : list string → py C s3_error unit;
  copy_object : string → string → py C s3_error unit;
  now_iso : C → string;
}.

(** [_prefix] of the constructor *)
Definition new_prefix (prefix : option string) : string :=
  let p := strip_of slash (or_empty prefix) in if is_empty p then "" else p +:+ "/".
Definition s3_normalize_path (path : string) : string := FileTree._normalize_path path.

Section Provider.
Context {C : Type} `{S : S3Client C} (_prefix : string).
Abbreviation method := (py C fexn).

Definition _to_key (norm_path : string) : string :=
  if is_empty norm_path then str (rstrip_chars (Ascii.eqb slash) (chars _prefix)) else _prefix +:+ norm_path.
Definition _dir_key (norm_path : string) : string := let key := _to_key norm_path in if ends_with key "/" then key else key +:+ "/".
Definition _dir_prefix (norm_path : string) : string := if is_empty norm_path then _prefix else _prefix +:+ norm_path +:+ "/".

(** A call with what its [except] does; without one the error goes through. *)
Definition call_or {A} (m : py C s3_error A) (h : s3_error → method A) : method A := λ c,
  let '(r, c) := m c in match r with inr a => (inr a, c) | inl e => h e c end.
Definition through {A} (e : s3_error) : method A := raise (host_text (error_text e)).
Definition s3_run {A} (m : py C s3_error A) : method A := call_or m through.
(** [except ClientError] *)
Definition on_client_error {A} (h : string → method A) (e : s3_error) : method A := match e with ClientError code => h code | e => through e end.

Definition _is_file (norm_path : string) : method bool :=
  call_or (_ ← head_object (_to_key norm_path); mret true) (on_client_error (λ _, mret false)).
Definition iso_of (modified : option string) : method string := match modified with Some t => mret t | None => gets now_iso end.

(** *** Listing *)

Definition dir_entry (now dir_name : string) : FileEntry :=
  {| e_name := dir_name; e_type := "directory"; e_size := 0; e_modified := now; e_permissions := Some "drwxr-xr-x" |}.
Fixpoint dir_entries (prefix : string) (l : list string) : method (list FileEntry) :=
  match l with
  | [] => mret []
  | cp :: l =>
      let dir_name := str (rstrip_chars (Ascii.eqb slash) (chars (drop_str (len prefix) cp))) in
      now ← gets now_iso;
      es ← dir_entries prefix l;
      mret ((if is_empty dir_name then [] else [dir_entry now dir_name]) ++ es)
  end.
Definition file_entry (name modified : string) (size : Z) : FileEntry :=
  {| e_name := name; e_type := "file"; e_size := size; e_modified := modified; e_permissions := Some "-rw-r--r--" |}.
Fixpoint file_entries (prefix : string) (l : list s3_object) : method (list FileEntry) :=
  match l with
  | [] => mret []
  | obj :: l =>
      let name := drop_str (len prefix) (Key obj) in
      if bool_decide (Key obj = prefix) || is_empty name || ends_with name "/" then file_entries prefix l
      else
        modified ← iso_of (LastModified obj);
        es ← file_entries prefix l;
        mret (file_entry name modified (Size obj) :: es)
  end.
Definition entry_le (a b : FileEntry) : bool := String.leb (e_name a) (e_name b).

Definition s3_list_dir (path : string) : method (list FileEntry) :=
  let norm := s3_normalize_path path in
  let prefix := _dir_prefix norm in
  response ← s3_run (list_objects_v2 prefix (Some "/") None);
  if bool_decide (Contents response = []) && bool_decide (CommonPrefixes response = []) then
    file ← (if is_empty norm then mret false else _is_file norm);
    if file : bool then raise (FileStorageNotADirectoryError path)
    else if is_empty norm then mret [] else raise (FileStorageNotFoundError path)
  else
    ds ← dir_entries prefix (CommonPrefixes response);
    fs ← file_entries prefix (Contents response);
    mret (py_sort entry_le (ds ++ fs)).

(** *** Contents *)

Definition no_such_key {A} (path : string) : s3_error → method A :=
  on_client_error (λ code, if bool_decide (code = "NoSuchKey") then raise (FileStorageNotFoundError path) else through (ClientError code)).
Definition s3_read_file (path : string) : method text :=
  let norm := s3_normalize_path path in
  if is_empty norm then raise (FileStorageIsADirectoryError path)
  else b ← call_or (get_object (_to_key norm)) (no_such_key path); mret (decode b).
Definition s3_write_file (path : string) (c : content) : method unit :=
  let norm := s3_normalize_path path in
  if is_empty norm then raise (FileStorageIsADirectoryError path)
  else
    match c with
    | Text t => match encode t with Some b => s3_run (put_object (_to_key norm) b) | None => raise UnicodeEncodeError end
    | Bytes b => s3_run (put_object (_to_key norm) b)
    end.
Definition s3_get_download_stream (path : string) : method bytes :=
  let norm := s3_normalize_path path in
  if is_empty norm then raise (FileStorageIsADirectoryError path) else call_or (get_object (_to_key norm)) (no_such_key path).
Definition s3_upload_file (path : string) (b : bytes) : method unit := s3_write_file path (Bytes b).

Definition stat_of (name type modified : string) (size : Z) (created : string) : FileStat :=
  {| f_name := name; f_type := type; f_size := size; f_created := created; f_modified := modified;
     f_permissions := Some (if bool_decide (type = "file") then "-rw-r--r--" else "drwxr-xr-x") |}.
Definition s3_last_segment (norm : string) : string := List.last (split slash norm) "".
(** [None]: the service said 404 *)
Definition try_head (key : string) : method (option s3_head) :=
  call_or (h ← head_object key; mret (Some h)) (on_client_error (λ code, if bool_decide (code = "404") then mret None else through (ClientError code))).
Definition any_below (norm : string) : method bool :=
  response ← s3_run (list_objects_v2 (_dir_prefix norm) None (Some 1));
  mret (negb (bool_decide (Contents response = []) && bool_decide (CommonPrefixes response = []))).
Definition s3_stat (path : string) : method FileStat :=
  let norm := s3_normalize_path path in
  if is_empty norm then now ← gets now_iso; mret (stat_of "/" "directory" now 0 now)
  else
    file ← try_head (_to_key norm);
    match file with
    | Some h => m ← iso_of (head_modified h); mret (stat_of (s3_last_segment norm) "file" m (ContentLength h) m)
    | None =>
        dir ← try_head (_dir_key norm);
        match dir with
        | Some h => m ← iso_of (head_modified h); mret (stat_of (s3_last_segment norm) "directory" m 0 m)
        | None =>
            some ← any_below norm;
            now ← gets now_iso;
            if some : bool then mret (stat_of (s3_last_segment norm) "directory" now 0 now) else raise (FileStorageNotFoundError path)
        end
    end.

(** *** Changes *)

Definition s3_mkdir (path : string) (recursive : bool) : method unit :=
  let norm := s3_normalize_path path in
  if is_empty norm then mret tt else s3_run (put_object (_dir_key norm) []).

Definition s3_remove (path : string) (recursive : bool) : method unit :=
  let norm := s3_normalize_path path in
  if is_empty norm then raise (FileStorageNotFoundError path)
  else
    file ← _is_file norm;
    if file : bool then s3_run (delete_object (_to_key norm))
    else
      response ← s3_run (list_objects_v2 (_dir_prefix norm) None None);
      match Contents response with
      | [] => raise (FileStorageNotFoundError path)
      | (first :: rest) as objects =>
          if negb recursive && negb (bool_decide (rest = [])) then raise (FileStorageNotADirectoryError path)
          else if negb recursive && negb (ends_with (Key first) "/") then raise (FileStorageNotADirectoryError path)
          else s3_run (delete_objects (map Key objects))
      end.

Definition s3_copy (src dest : string) : method unit :=
  let src_norm := s3_normalize_path src in
  let dest_norm := s3_normalize_path dest in
  if is_empty src_norm then raise (FileStorageNotFoundError src)
  else if is_empty dest_norm then raise (FileStorageIsADirectoryError dest)
  else call_or (copy_object (_to_key src_norm) (_to_key dest_norm)) (no_such_key src).
Definition s3_move (src dest : string) : method unit :=
  _ ← s3_copy src dest;
  s3_run (delete_object (_to_key (s3_normalize_path src))).

Definition s3_exists_path (path : string) : method bool :=
  let norm := s3_normalize_path path in
  if is_empty norm then mret true
  else
    file ← _is_file norm;
    if file : bool then mret true
    else
      dir ← call_or (_ ← head_object (_dir_key norm); mret true) (on_client_error (λ _, mret false));
      if dir : bool then mret true else any_below norm.
End Provider.

(** *** What the service promises *)

(** [objects] is what the bucket holds.  A listing gives at most a thousand
    objects and says nothing here of those it leaves out; a call that fails leaves
    the bucket alone, but for [delete_objects], which may have deleted some. *)
Class S3Laws (C : Type) `{S3Client C} := {
  objects : C → string → option bytes;
  list_law p d m c : (∀ k, objects (list_objects_v2 p d m c).2 k = objects c k) ∧
    match (list_objects_v2 p d m c).1 with
    | inr l => ∀ o, o ∈ Contents l → starts_with (Key o) p = true ∧ is_Some (objects c (Key o))
    | inl _ => True
    end;
  list_complete p c l : (list_objects_v2 p None None c).1 = inr l → (length (Contents l) < 1000)%nat →
    ∀ k, starts_with k p = true → is_Some (objects c k) → k ∈ map Key (Contents l);
  head_law k c : (∀ k', objects (head_object k c).2 k' = objects c k') ∧
    match (head_object k c).1 with inr h => is_Some (objects c k) | inl (ClientError code) => code = "404" → objects c k = None | inl _ => True end;
  get_law k c : (∀ k', objects (get_object k c).2 k' = objects c k') ∧
    match (get_object k c).1 with inr b => objects c k = Some b | inl (ClientError code) => code = "NoSuchKey" → objects c k = None | inl _ => True end;
  put_law k b c k' : objects (put_object k b c).2 k' =
    match (put_object k b c).1 with inr _ => if decide (k' = k) then Some b else objects c k' | inl _ => objects c k' end;
  delete_law k c k' : objects (delete_object k c).2 k' =
    match (delete_object k c).1 with inr _ => if decide (k' = k) then None else objects c k' | inl _ => objects c k' end;
  deletes_law ks c k' : if decide (k' ∈ ks) then (delete_objects ks c).1 = inr tt → objects (delete_objects ks c).2 k' = None
                        else objects (delete_objects ks c).2 k' = objects c k';
  copy_law src dst c k' : objects (copy_object src dst c).2 k' =
    match (copy_object src dst c).1 with inr _ => if decide (k' = dst) then objects c src else objects c k' | inl _ => objects c k' end;
}.

Section Theorems.
Context {C : Type} `{L : S3Laws C} (_prefix : string).
Implicit Types (c : C) (p : string).

(** The bucket outside the prefix *)
Definition outside_as (c0 c : C) : Prop := ∀ k, starts_with k _prefix = false → objects c k = objects c0 k.

Lemma starts_app (a b : string) : starts_with (a +:+ b) a = true.
Proof. unfold starts_with. induction a as [|x a IH]; simpl; [by destruct b|]. by destruct (ascii_dec x x). Qed.
Lemma starts_trans (a b d : string) : starts_with a b = true → starts_with b d = true → starts_with a d = true.
Proof.
  unfold starts_with. revert a b. induction d as [|x d IH]; intros a b; [by destruct a|]. destruct b as [|y b]; [done|]. destruct a as [|z a]; [done|].
  simpl. destruct (ascii_dec y z) as [->|]; [|done]. destruct (ascii_dec x z) as [->|]; [|done]. apply IH.
Qed.
Lemma key_under norm : is_empty norm = false → starts_with (_to_key _prefix norm) _prefix = true.
Proof. intros Hn. unfold _to_key. rewrite Hn. apply starts_app. Qed.
Lemma dir_key_under norm : is_empty norm = false → starts_with (_dir_key _prefix norm) _prefix = true.
Proof.
  intros Hn. unfold _dir_key. destruct (ends_with _ _); [by apply key_under|]. eapply starts_trans; [apply starts_app|by apply key_under].
Qed.
Lemma dir_prefix_under norm : starts_with (_dir_prefix _prefix norm) _prefix = true.
Proof. unfold _dir_prefix. destruct (is_empty norm); [|apply starts_app]. unfold starts_with. induction _prefix as [|x a IH]; simpl; [done|]. by destruct (ascii_dec x x). Qed.

(** *** Methods that only read *)

Definition same_objects {A} (m : py C fexn A) : Prop := ∀ c k, objects (m c).2 k = objects c k.
Lemma same_ret {A} (m : py C fexn A) : (∀ c, (m c).2 = c) → same_objects m.
Proof. intros Hm c k. by rewrite Hm. Qed.
Lemma same_bind {A B} (m : py C fexn A) (f : A → py C fexn B) : same_objects m → (∀ a, same_objects (f a)) → same_objects (m ≫= f).
Proof. intros Hm Hf c k. rewrite py_bind_eq. specialize (Hm c k). destruct (m c) as [[e|a] c']; simpl in *; [done|]. by rewrite (Hf a c' k). Qed.
Lemma same_call {A} (m : py C s3_error A) h :
  (∀ c k, objects (m c).2 k = objects c k) → (∀ e, same_objects (h e)) → same_objects (call_or m h).
Proof. intros Hm Hh c k. unfold call_or. specialize (Hm c k). destruct (m c) as [[e|a] c']; simpl in *; [|done]. by rewrite (Hh e c' k). Qed.
Lemma same_on_client {A} (h : string → py C fexn A) e : (∀ code, same_objects (h code)) → same_objects (on_client_error h e).
Proof. intros Hh. destruct e; [apply Hh|by apply same_ret]. Qed.
Lemma same_head k : ∀ c k', objects (head_object k c).2 k' = objects c k'.
Proof. intros c. apply head_law. Qed.
Lemma same_head_then {A} k (f : s3_head → A) : ∀ c k', objects ((h ← head_object k; mret (f h) : py C s3_error A) c).2 k' = objects c k'.
Proof. intros c k'. rewrite py_bind_eq. pose proof (proj1 (head_law k c) k') as Hk. by destruct (head_object k c) as [[e|h] c']. Qed.
Lemma same_is_file norm : same_objects (_is_file _prefix norm).
Proof. apply same_call; [apply same_head_then|]. intros e. apply same_on_client. intros code. by apply same_ret. Qed.
Lemma same_list p d m : same_objects (s3_run (list_objects_v2 p d m)).
Proof. apply same_call; [intros c; apply list_law|]. intros e. by apply same_ret. Qed.
Lemma same_iso t : same_objects (iso_of t).
Proof. destruct t; by apply same_ret. Qed.
Lemma same_get path k : same_objects (call_or (get_object k) (no_such_key path)).
Proof. apply same_call; [intros c; apply get_law|]. intros e. apply same_on_client. intros code. case_bool_decide; by apply same_ret. Qed.
Lemma same_try_head k : same_objects (try_head k).
Proof. apply same_call; [apply same_head_then|]. intros e. apply same_on_client. intros code. case_bool_decide; by apply same_ret. Qed.
Lemma same_any norm : same_objects (any_below _prefix norm).
Proof. apply same_bind; [apply same_list|]. intros l. by apply same_ret. Qed.
Lemma same_dirs prefix l : same_objects (dir_entries prefix l).
Proof. induction l as [|cp l IH]; simpl; [by apply same_ret|]. apply same_bind; [by apply same_ret|]. intros now. apply same_bind; [done|]. intros es. by apply same_ret. Qed.
Lemma same_files prefix l : same_objects (file_entries prefix l).
Proof.
  induction l as [|o l IH]; simpl; [by apply same_ret|]. destruct (_ || _); [done|]. apply same_bind; [apply same_iso|]. intros t.
  apply same_bind; [done|]. intros es. by apply same_ret.
Qed.

Ltac same :=
  repeat match goal with
  | |- same_objects (mret _) => by apply same_ret
  | |- same_objects (raise _) => by apply same_ret
  | |- same_objects (gets _) => by apply same_ret
  | |- same_objects (_is_file _ _) => apply same_is_file
  | |- same_objects (s3_run (list_objects_v2 _ _ _)) => apply same_list
  | |- same_objects (iso_of _) => apply same_iso
  | |- same_objects (call_or (get_object _) _) => apply same_get
  | |- same_objects (call_or (mbind _ (head_object _)) _) => apply same_call; [apply same_head_then|intros ?]
  | |- same_objects (on_client_error _ _) => apply same_on_client; intros ?
  | |- same_objects (try_head _) => apply same_try_head
  | |- same_objects (any_below _ _) => apply same_any
  | |- same_objects (dir_entries _ _) => apply same_dirs
  | |- same_objects (file_entries _ _) => apply same_files
  | |- same_objects (if ?b then _ else _) => destruct b
  | |- same_objects (match ?x with _ => _ end) => destruct x
  | |- same_objects (mbind _ _) => apply same_bind; [|intros ?]
  end.

(** Listing, reading, [stat], [exists] and downloading change nothing. *)
Lemma reads_change_nothing path :
  same_objects (s3_list_dir _prefix path) ∧ same_objects (s3_read_file _prefix path) ∧ same_objects (s3_stat _prefix path) ∧
  same_objects (s3_exists_path _prefix path) ∧ same_objects (s3_get_download_stream _prefix path).
Proof. unfold s3_list_dir, s3_read_file, s3_stat, s3_exists_path, s3_get_download_stream. split_and!; cbv zeta; same. Qed.

(** *** Changes stay under the prefix *)

Lemma outside_same {A} (m : py C fexn A) c0 : same_objects m → keeps (outside_as c0) m.
Proof. intros Hm c Hc k Hk. rewrite (Hm c k). by apply Hc. Qed.
Lemma outside_run {A} (m : py C s3_error A) h c0 :
  (∀ c k, starts_with k _prefix = false → objects (m c).2 k = objects c k) → (∀ e, same_objects (h e)) → keeps (outside_as c0) (call_or m h).
Proof.
  intros Hm Hh c Hc k Hk. unfold call_or. specialize (Hm c k Hk). destruct (m c) as [[e|a] c']; simpl in *; [rewrite (Hh e c' k)|]; rewrite Hm; by apply Hc.
Qed.
Lemma through_same {A} e : same_objects (through e : py C fexn A).
Proof. by apply same_ret. Qed.
Lemma ne_under k k' : starts_with k _prefix = false → starts_with k' _prefix = true → k ≠ k'.
Proof. congruence. Qed.
Lemma outside_put c0 k b : starts_with k _prefix = true → keeps (outside_as c0) (s3_run (put_object k b)).
Proof.
  intros Hk. apply outside_run; [|apply through_same]. intros c k' Hk'. rewrite put_law. destruct (put_object k b c).1; [done|].
  rewrite decide_False; [done|by eapply ne_under].
Qed.
Lemma outside_delete c0 k : starts_with k _prefix = true → keeps (outside_as c0) (s3_run (delete_object k)).
Proof.
  intros Hk. apply outside_run; [|apply through_same]. intros c k' Hk'. rewrite delete_law. destruct (delete_object k c).1; [done|].
  rewrite decide_False; [done|by eapply ne_under].
Qed.
Lemma outside_deletes c0 ks : (∀ k, k ∈ ks → starts_with k _prefix = true) → keeps (outside_as c0) (s3_run (delete_objects ks)).
Proof.
  intros Hks. apply outside_run; [|apply through_same]. intros c k' Hk'. pose proof (deletes_law ks c k') as Hd.
  rewrite decide_False in Hd; [done|]. intros Hin%Hks. congruence.
Qed.
Lemma outside_list {A} c0 p d m (f : s3_listing → py C fexn A) :
  (∀ l, (∀ o, o ∈ Contents l → starts_with (Key o) p = true) → keeps (outside_as c0) (f l)) → keeps (outside_as c0) (l ← s3_run (list_objects_v2 p d m); f l).
Proof.
  intros Hf. apply (keeps_bind_post _ (λ l, ∀ o, o ∈ Contents l → starts_with (Key o) p = true)); [|apply outside_same, same_list|done].
  intros c l c'. unfold s3_run, call_or. pose proof (proj2 (list_law p d m c)) as Hl. destruct (list_objects_v2 p d m c) as [[e|l'] c1]; simpl in *; [done|].
  intros [= <- <-] o Ho. by apply Hl.
Qed.

Inductive s3_op :=
| SList (p : string) | SRead (p : string) | SWrite (p : string) (c : content) | SStat (p : string) | SMkdir (p : string) (r : bool)
| SRemove (p : string) (r : bool) | SCopy (p q : string) | SMove (p q : string) | SExists (p : string) | SDownload (p : string) | SUpload (p : string) (b : bytes).
Definition s3_perform (o : s3_op) : py C fexn unit :=
  match o with
  | SList p => _ ← s3_list_dir _prefix p; mret tt
  | SRead p => _ ← s3_read_file _prefix p; mret tt
  | SWrite p c => s3_write_file _prefix p c
  | SStat p => _ ← s3_stat _prefix p; mret tt
  | SMkdir p r => s3_mkdir _prefix p r
  | SRemove p r => s3_remove _prefix p r
  | SCopy p q => s3_copy _prefix p q
  | SMove p q => s3_move _prefix p q
  | SExists p => _ ← s3_exists_path _prefix p; mret tt
  | SDownload p => _ ← s3_get_download_stream _prefix p; mret tt
  | SUpload p b => s3_upload_file _prefix p b
  end.

Lemma outside_copy c0 p q : keeps (outside_as c0) (s3_copy _prefix p q).
Proof.
  unfold s3_copy. destruct (is_empty (s3_normalize_path p)) eqn:Hp; [by apply keeps_same|]. destruct (is_empty (s3_normalize_path q)) eqn:Hq; [by apply keeps_same|].
  apply outside_run; [|intros e; apply same_on_client; intros code; case_bool_decide; by apply same_ret].
  intros c k Hk. rewrite copy_law. destruct (copy_object _ _ c).1; [done|]. rewrite decide_False; [done|]. eapply ne_under; [done|by apply key_under].
Qed.
Lemma outside_write c0 p x : keeps (outside_as c0) (s3_write_file _prefix p x).
Proof.
  unfold s3_write_file. destruct (is_empty (s3_normalize_path p)) eqn:Hp; [by apply keeps_same|].
  destruct x as [t|b]; [destruct (encode t); [|by apply keeps_same]|]; apply outside_put; by apply key_under.
Qed.
Lemma outside_remove c0 p r : keeps (outside_as c0) (s3_remove _prefix p r).
Proof.
  unfold s3_remove. destruct (is_empty (s3_normalize_path p)) eqn:Hp; [by apply keeps_same|]. apply keeps_bind; [apply outside_same, same_is_file|].
  intros []; [apply outside_delete; by apply key_under|]. apply outside_list. intros l Hl.
  destruct (Contents l) as [|first rest]; [by apply keeps_same|]. destruct (_ && _); [by apply keeps_same|]. destruct (_ && _); [by apply keeps_same|].
  apply outside_deletes. intros k (o & -> & Ho)%list_elem_of_fmap. eapply starts_trans; [by apply Hl|apply dir_prefix_under].
Qed.

(** C31: The prefix is a root: whatever paths the operations are given, with dots and
    slashes anywhere, and whatever fails, no object outside the prefix is
    written, copied over or deleted. *)
Theorem s3_confined ops c k :
  starts_with k _prefix = false → objects (foldl (λ c o, (s3_perform o c).2) c ops) k = objects c k.
Proof.
  intros Hk. cut (outside_as c (foldl (λ c o, (s3_perform o c).2) c ops)); [intros Hall; by apply Hall|].
  assert (Hstart : outside_as c c) by done. revert Hstart. generalize c at 2 4 as c1. induction ops as [|o ops IH]; intros c1 H1; simpl; [done|].
  apply IH. revert c1 H1. fold (keeps (outside_as c) (s3_perform o)).
  assert (Hdrop : ∀ A (m : py C fexn A), same_objects m → keeps (outside_as c) (_ ← m; mret tt)).
  { intros A m Hm. apply outside_same, same_bind; [done|]. intros _. by apply same_ret. }
  destruct o as [p|p|p x|p|p r|p r|p q|p q|p|p|p b]; cbn; try (apply Hdrop, reads_change_nothing); try apply outside_write; try apply outside_copy; try apply outside_remove.
  - unfold s3_mkdir. destruct (is_empty (s3_normalize_path p)) eqn:Hp; [by apply keeps_same|]. apply outside_put. by apply dir_key_under.
  - unfold s3_move. apply (keeps_bind_post _ (λ _, is_empty (s3_normalize_path p) = false)); [|apply outside_copy|].
    + intros c1 a c2. unfold s3_copy. by destruct (is_empty (s3_normalize_path p)).
    + intros _ Hp. apply outside_delete. by apply key_under.
Qed.

(** *** Reading back *)

Lemma key_inj p q : is_empty p = false → is_empty q = false → _to_key _prefix p = _to_key _prefix q → p = q.
Proof.
  unfold _to_key. intros -> -> Heq. apply (f_equal chars) in Heq. rewrite !chars_app in Heq. apply app_inv_head in Heq.
  apply (f_equal str) in Heq. by rewrite !str_chars in Heq.
Qed.

(** What was written is read back, whole, and no other file is changed; a text is
    read back as it was. *)
Theorem s3_write_read p x c c1 :
  s3_write_file _prefix p x c = (inr tt, c1) →
  ∃ b, match x with Text t => encode t = Some b | Bytes b' => b = b' end ∧
    (∀ path, (s3_read_file _prefix p c1).1 ≠ inl (FileStorageNotFoundError path)) ∧
    (∀ t c2, s3_read_file _prefix p c1 = (inr t, c2) → t = decode b) ∧
    (∀ b' c2, s3_get_download_stream _prefix p c1 = (inr b', c2) → b' = b) ∧
    ∀ q, s3_normalize_path q ≠ s3_normalize_path p → is_empty (s3_normalize_path q) = false →
      objects c1 (_to_key _prefix (s3_normalize_path q)) = objects c (_to_key _prefix (s3_normalize_path q)).
Proof.
  unfold s3_write_file, s3_read_file, s3_get_download_stream. destruct (is_empty (s3_normalize_path p)) eqn:Hp; [done|].
  intros Hw. set (k := _to_key _prefix (s3_normalize_path p)) in *.
  assert (∃ b, match x with Text t => encode t = Some b | Bytes b' => b = b' end ∧ s3_run (put_object k b) c = (inr tt, c1)) as (b & Hb & Hput).
  { destruct x as [t|b]; [|by exists b]. destruct (encode t) as [b|]; [by exists b|done]. }
  exists b. split; [done|].
  assert (Hobj : ∀ k', objects c1 k' = if decide (k' = k) then Some b else objects c k').
  { intros k'. unfold s3_run, call_or in Hput. pose proof (put_law k b c k') as Hlaw. destruct (put_object k b c) as [[e|[]] c']; simpl in *; [done|]. by injection Hput as <-. }
  assert (Hk : objects c1 k = Some b) by (by rewrite Hobj, decide_True).
  pose proof (proj2 (get_law k c1)) as Hget. unfold call_or, no_such_key, on_client_error. split_and!.
  - intros path. rewrite py_bind_eq. destruct (get_object k c1) as [[[code|msg]|b'] c2]; simpl in *; [|done|done].
    destruct (decide (code = "NoSuchKey")) as [->|Hne]; [rewrite Hget in Hk by done; done|by rewrite bool_decide_false].
  - intros t c2. rewrite py_bind_eq. destruct (get_object k c1) as [[[code|msg]|b'] c3]; simpl in *; [by case_bool_decide|done|]. intros [= <- <-]. congruence.
  - intros b' c2. destruct (get_object k c1) as [[[code|msg]|b''] c3]; simpl in *; [by case_bool_decide|done|]. intros [= <- <-]. congruence.
  - intros q Hne Hq. rewrite Hobj. rewrite decide_False; [done|]. intros Heq. by apply Hne, (key_inj _ _ Hq Hp).
Qed.

(** *** Removing a directory *)

(** A directory of fewer than a thousand objects that is removed recursively is
    gone with everything below it, and nothing else is; beyond that number see
    [s3_partial_remove]. *)
Theorem s3_remove_tree p c c1 l :
  let norm := s3_normalize_path p in
  s3_remove _prefix p true c = (inr tt, c1) → (_is_file _prefix norm c).1 = inr false →
  (list_objects_v2 (_dir_prefix _prefix norm) None None (_is_file _prefix norm c).2).1 = inr l → (length (Contents l) < 1000)%nat →
  ∀ k, objects c1 k = if starts_with k (_dir_prefix _prefix norm) then None else objects c k.
Proof.
  intros norm. unfold s3_remove. fold norm. destruct (is_empty norm) eqn:Hn; [done|]. rewrite py_bind_eq.
  pose proof (same_is_file norm c) as Hsame. destruct (_is_file _prefix norm c) as [r c2]. cbn [fst snd] in *. intros Hrem -> Hl Hshort k.
  rewrite py_bind_eq in Hrem. unfold s3_run at 1, call_or at 1 in Hrem.
  pose proof (list_complete (_dir_prefix _prefix norm) c2 l Hl Hshort k) as Hcomplete.
  destruct (list_law (_dir_prefix _prefix norm) None None c2) as [Hlist Hin]. destruct (list_objects_v2 _ None None c2) as [r c3]. cbn [fst snd] in *.
  subst r. cbn [negb] in Hrem. destruct (Contents l) as [|first rest] eqn:Hc; [done|]. cbn [andb] in Hrem. unfold s3_run, call_or in Hrem.
  pose proof (deletes_law (map Key (first :: rest)) c3 k) as Hdel. destruct (delete_objects _ c3) as [[e|[]] c4]; cbn [fst snd] in *; [done|]. injection Hrem as <-.
  destruct (starts_with k (_dir_prefix _prefix norm)) eqn:Hk.
  - destruct (decide (k ∈ map Key (first :: rest))) as [Hkin|Hnin]; [by apply Hdel|]. rewrite Hdel, Hlist.
    destruct (objects c2 k) eqn:Ho; [|done]. exfalso. apply Hnin, Hcomplete; [done|by eexists].
  - rewrite decide_False in Hdel; [by rewrite Hdel, Hlist, Hsame|]. intros (o & -> & Ho)%list_elem_of_fmap. destruct (Hin o Ho). congruence.
Qed.
End Theorems.

(** *** A bucket

    The objects of a bucket by their keys: listings in the order of the keys, at
    most a thousand, keys with the same part up to the delimiter as one common
    prefix; nothing fails. *)
Definition Bucket : Type := dict string bytes.
Definition missing {A} : s3_error + A := inl (ClientError "404").
Definition without (keys : list string) (b : Bucket) : Bucket := List.filter (λ kv, negb (bool_decide (kv.1 ∈ keys))) b.
Definition keys_below (p : string) (b : Bucket) : list string := py_sort String.leb (List.filter (λ k, starts_with k p) (dict_keys b)).
Definition upto_slash (k : string) : option string :=
  match split slash k with first :: _ :: _ => Some (first +:+ "/") | _ => None end.
Definition as_object (b : Bucket) (k : string) : s3_object :=
  {| Key := k; LastModified := Some "then"; Size := match dict_get k b with Some x => Z.of_nat (length x) | None => 0 end |}.
Definition list_bucket (p : string) (d : option string) (m : option Z) (b : Bucket) : s3_listing :=
  let keys := take (Z.to_nat (default 1000 m)) (keys_below p b) in
  match d with
  | None => {| Contents := map (as_object b) keys; CommonPrefixes := [] |}
  | Some _ =>
      {| Contents := map (as_object b) (List.filter (λ k, bool_decide (upto_slash (drop_str (len p) k) = None)) keys);
         CommonPrefixes := remove_dups (omap (λ k, (λ x, p +:+ x) <$> upto_slash (drop_str (len p) k)) keys) |}
  end.
#[export] Instance bucket_client : S3Client Bucket := {
  list_objects_v2 p d m b := (inr (list_bucket p d m b), b);
  head_object k b := (match dict_get k b with Some x => inr {| head_modified := Some "then"; ContentLength := Z.of_nat (length x) |} | None => missing end, b);
  get_object k b := (match dict_get k b with Some x => inr x | None => inl (ClientError "NoSuchKey") end, b);
  put_object k x b := (inr tt, dict_set k x b);
  delete_object k b := (inr tt, without [k] b);
  delete_objects ks b := (inr tt, without ks b);
  copy_object s d b := match dict_get s b with Some x => (inr tt, dict_set d x b) | None => (inl (ClientError "NoSuchKey"), b) end;
  now_iso _ := "now";
}.
Lemma get_without (keys : list string) (b : Bucket) (k : string) : dict_get k (without keys b) = if decide (k ∈ keys) then None else dict_get k b.
Proof.
  unfold without. induction b as [|[k' x] b IH]; simpl; [by destruct (decide _)|].
  destruct (decide (k' = k)) as [->|Hne]; case_bool_decide; simpl; rewrite ?decide_False by done; rewrite ?IH; repeat case_decide; done.
Qed.
Lemma get_put (k : string) (x : bytes) (b : Bucket) (k' : string) : dict_get k' (dict_set k x b) = if decide (k' = k) then Some x else dict_get k' b.
Proof. destruct (decide (k' = k)) as [->|Hne]; [apply dict_get_set_eq|by apply dict_get_set_ne]. Qed.
Lemma elem_below p (b : Bucket) (k : string) : k ∈ keys_below p b ↔ starts_with k p = true ∧ is_Some (dict_get k b).
Proof.
  unfold keys_below. rewrite elem_of_py_sort, list_elem_of_In, List.filter_In, <-list_elem_of_In, <-not_eq_None_Some, dict_get_None.
  destruct (decide (k ∈ dict_keys b)); naive_solver.
Qed.
Lemma elem_take {A} n (l : list A) x : x ∈ take n l → x ∈ l.
Proof. rewrite <-(take_drop n l) at 2. rewrite elem_of_app. auto. Qed.
Lemma listed p d m b o : o ∈ Contents (list_bucket p d m b) → Key o ∈ keys_below p b.
Proof.
  unfold list_bucket. destruct d; cbn [Contents]; intros (k & -> & Hk)%list_elem_of_fmap; cbn.
  - apply list_elem_of_In, List.filter_In in Hk as [Hk _]. apply list_elem_of_In in Hk. by apply elem_take in Hk.
  - by apply elem_take in Hk.
Qed.
#[export] Instance bucket_laws : S3Laws Bucket.
Proof.
  refine {| objects := λ (b : Bucket) k, dict_get k b |}.
  - intros p d m b. split; [done|]. intros o Ho%listed. by apply elem_below.
  - intros p b l [= <-]. cbn. rewrite length_map, length_take. intros Hlt k Hp Hk.
    rewrite map_map. apply list_elem_of_fmap. exists k. split; [done|]. rewrite take_ge; [by apply elem_below|]. change (Z.to_nat 1000) with 1000%nat in Hlt. lia.
  - intros k b. split; [done|]. cbn. destruct (dict_get k b); [done|]. by intros _.
  - intros k b. split; [done|]. cbn. by destruct (dict_get k b).
  - intros k x b k'. cbn. apply get_put.
  - intros k b k'. cbn. rewrite get_without. destruct (decide (k' = k)) as [->|Hne]; [by rewrite decide_True by set_solver|by rewrite decide_False by set_solver].
  - intros ks b k'. cbn. rewrite get_without. by destruct (decide (k' ∈ ks)).
  - intros s d b k'. cbn. destruct (dict_get s b) as [x|] eqn:Hs; cbn; [by rewrite get_put|done].
Defined.

Definition example_bucket : Bucket := [("data/a.txt", [104; 105]); ("data/b/c.txt", [1]); ("data/b/d/", []); ("other/x", [2])].
Lemma s3_confined_witness :
  let c := foldl (λ c o, (s3_perform "data/" o c).2) example_bucket [SMove "a.txt" "../../other/x"; SRemove "/b" true; SWrite "../x" (Bytes [7])] in
  objects c "other/x" = objects example_bucket "other/x" ∧
  c = [("other/x", [2]); ("data/other/x", [104; 105]); ("data/x", [7])].
Proof. split; [apply (s3_confined "data/" _ example_bucket "other/x"); reflexivity|vm_compute; reflexivity]. Defined.
Lemma s3_write_read_witness : ∃ b, encode [233] = Some b ∧
    (∀ path, (s3_read_file "data/" "/a.txt" (dict_set "data/a.txt" b example_bucket)).1 ≠ inl (FileStorageNotFoundError path)).
Proof.
  destruct (s3_write_read "data/" "/a.txt" (Text [233]) example_bucket (dict_set "data/a.txt" [195; 169] example_bucket)) as (b & Hb & Hr & _); [reflexivity|].
  exists b. split; [exact Hb|]. injection Hb as <-. exact Hr.
Defined.
Lemma s3_remove_tree_witness : ∀ k,
  objects (s3_remove "data/" "b" true example_bucket).2 k = if starts_with k "data/b/" then None else objects example_bucket k.
Proof. apply (s3_remove_tree "data/" "b" example_bucket _ (list_bucket "data/b/" None None example_bucket)); try reflexivity. apply (Nat.ltb_lt _ 1000). vm_compute. reflexivity. Defined.

(** The listing of the provider, and its answers *)
Example s3_list_ex :
  (s3_list_dir "data/" "/" example_bucket).1 = inr [file_entry "a.txt" "then" 2; dir_entry "now" "b"] ∧
  (s3_list_dir "data/" "b/./e/.." example_bucket).1 = inr [file_entry "c.txt" "then" 1; dir_entry "now" "d"] ∧
  (s3_list_dir "data/" "a.txt" example_bucket).1 = inl (FileStorageNotADirectoryError "a.txt") ∧
  (s3_list_dir "data/" "z" example_bucket).1 = inl (FileStorageNotFoundError "z") ∧
  (s3_exists_path "data/" "b" example_bucket).1 = inr true ∧ match (s3_stat "data/" "b" example_bucket).1 with inr x => f_type x | inl _ => "" end = "directory".
Proof. vm_compute. done. Qed.

(** Removing a directory that is not empty without [recursive]: an only
    subdirectory goes with it. *)
Example s3_removes_nested : s3_remove "data/" "b" false [("data/b/d/", [])] = (inr tt, []).
Proof. vm_compute. done. Qed.
(** A directory can be neither copied nor moved. *)
Example s3_copies_no_directory : (s3_copy "data/" "b" "e" example_bucket).1 = inl (FileStorageNotFoundError "b").
Proof. vm_compute. done. Qed.

(** Only the first thousand objects of a directory are removed, without an error. *)
Lemma length_without (keys : list string) (b : Bucket) :
  dict_ok b → NoDup keys → (∀ k, k ∈ keys → k ∈ dict_keys b) → (length (without keys b) + length keys = length b)%nat.
Proof.
  intros Hb Hk Hin. assert (Hperm : List.filter (λ k, bool_decide (k ∈ keys)) (dict_keys b) ≡ₚ keys).
  { apply NoDup_Permutation; [by apply NoDup_ListNoDup, List.NoDup_filter, NoDup_ListNoDup|done|]. intros k.
    rewrite list_elem_of_In, List.filter_In, <-list_elem_of_In, bool_decide_eq_true. naive_solver. }
  apply Permutation_length in Hperm. rewrite <-Hperm. clear. unfold without, dict_keys. induction b as [|[k x] b IH]; simpl; [done|].
  change (list_fmap _ _ fst b) with (fst <$> b). destruct (bool_decide (k ∈ keys)); simpl; lia.
Qed.
Lemma s3_partial_remove (b : Bucket) :
  dict_ok b → (∀ k, k ∈ dict_keys b → starts_with k "b/" = true) → b ≠ [] →
  ∃ b', s3_remove "" "b" true b = (inr tt, b') ∧ length b' = (length b - 1000)%nat.
Proof.
  intros Hok Hall Hne. assert (Hnone : dict_get "b" b = None).
  { apply dict_get_None. intros Hin%Hall. done. }
  assert (Hf : _is_file "" "b" b = (inr false, b)).
  { unfold _is_file, call_or. change (_to_key "" "b") with "b". rewrite py_bind_eq. cbn [head_object bucket_client]. rewrite Hnone. reflexivity. }
  unfold s3_remove. change (s3_normalize_path "b") with "b". change (is_empty "b") with false. cbv zeta iota. rewrite py_bind_eq, Hf. cbv iota beta.
  change (_dir_prefix "" "b") with "b/".
  assert (Hperm : keys_below "b/" b ≡ₚ dict_keys b).
  { unfold keys_below. rewrite py_sort_perm. clear -Hall. induction (dict_keys b) as [|k l IH]; simpl; [done|].
    rewrite (Hall k) by set_solver. constructor. apply IH. intros k' Hk'. apply Hall. set_solver. }
  assert (Hlen : length (keys_below "b/" b) = length b) by (rewrite Hperm; apply length_map).
  set (keys := take (Z.to_nat 1000) (keys_below "b/" b)). assert (Hkeys : map Key (map (as_object b) keys) = keys) by (rewrite map_map; apply map_id).
  destruct (map (as_object b) keys) as [|first rest] eqn:Hm.
  { exfalso. destruct (keys_below "b/" b) as [|k l] eqn:Hb; [by destruct b|]. done. }
  exists (without keys b). split.
  { rewrite py_bind_eq. change (s3_run (list_objects_v2 "b/" None None) b) with ((inr (list_bucket "b/" None None b), b) : (fexn + s3_listing) * Bucket).
    cbv iota beta. change (Contents (list_bucket "b/" None None b)) with (map (as_object b) keys). rewrite Hm. cbn [negb andb]. rewrite Hkeys. reflexivity. }
  assert (Hw : (length (without keys b) + length keys = length b)%nat).
  { apply length_without; [done| |].
    - assert (Hnd : NoDup (keys_below "b/" b)) by (by rewrite Hperm).
      rewrite <-(take_drop (Z.to_nat 1000) (keys_below "b/" b)) in Hnd. by apply NoDup_app in Hnd as [Hnd _].
    - intros k Hk%elem_take. by rewrite Hperm in Hk. }
  subst keys. rewrite length_take in Hw. change (Z.to_nat 1000) with 1000%nat in *. lia.
Qed.
End S3.
