(* ===== verification/Server.v ===== *)
(** * The server and its bundled commands
      ([core/create_cli_server.py], [core/extensions/cli_builder.py],
      [core/models/cli_installed_plugin.py], [core/processors/],
      [core/controllers/cli_version_controller.py], [core/security.py])

    How a server is put together: what is routed where, in which order the
    middleware runs, what mounting a plugin does, which packages are listed as
    installed; the settings of CORS; the commands that come with the server and
    those of the weather plugin ([Weather]).
    Applications, routers and plugins are the host's objects; the web framework,
    [hashlib], [urlopen] and the metadata of installed packages are parameters. *)

From S2P Require Import Prelude PyStr Values Commands Regex Origins Utf8 PasswordHasher.
From Stdlib Require Import Ascii.

Open Scope Z_scope.

(** ** Installed packages *)

Definition CORE_DISTRIBUTION : string := "qodalis-cli-server".
Definition PLUGIN_PREFIX : string := "qodalis-cli-server-plugin-".
Definition _KNOWN_DISTRIBUTIONS : dict string string :=
  [("qodalis_cli", CORE_DISTRIBUTION); ("qodalis_cli_server_abstractions", "qodalis-cli-server-abstractions")].
Record CliInstalledPlugin := { ip_id : string; ip_name : string; ip_version : option string; ip_description : option string }.
Definition opt_text (o : option string) : pyval := match o with Some s => VStr s | None => VNone end.
Definition plugin_to_dict (p : CliInstalledPlugin) : dict string pyval :=
  [("id", VStr (ip_id p)); ("name", VStr (ip_name p)); ("version", opt_text (ip_version p)); ("description", opt_text (ip_description p))].

Definition dash : ascii := "-"%char.
(** [s.replace("_", "-")] *)
Definition dashed (s : string) : string := str (map (λ c, if Ascii.eqb c "_"%char then dash else c) (chars s)).
Definition capitalize (w : string) : string := match chars w with [] => "" | c :: l => str (upper_ascii c :: map lower_ascii l) end.
Definition short_plugin_name (distribution : string) : string :=
  if bool_decide (distribution = CORE_DISTRIBUTION) then "Core"
  else if starts_with distribution PLUGIN_PREFIX then
    join " " (map capitalize (List.filter truthy (split dash (dashed (drop_str (len PLUGIN_PREFIX) distribution)))))
  else distribution.

Section Packages.
(** [metadata.metadata(distribution)]: its version and summary, if it is installed;
    [packages_distributions().get(top)], [None] when it raises *)
Context (package_metadata : string → option (option string * option string)) (packages_distributions : string → option (list string)).

Definition or_some (a b : option string) : option string := if truthy_opt a then a else b.
Definition from_distribution (distribution : string) (name version description : option string) : CliInstalledPlugin :=
  let '(version, description) :=
    match version, description with
    | Some _, Some _ => (version, description)
    | _, _ => match package_metadata distribution with Some (v, s) => (or_some version v, or_some description s) | None => (version, description) end
    end in
  {| ip_id := distribution; ip_name := if truthy_opt name then or_empty name else short_plugin_name distribution;
     ip_version := version; ip_description := description |}.

(** The module an object is from ([__name__], or [__module__] of its class) *)
Definition distribution_of (module_name : option string) : option string :=
  let top := List.hd "" (split "."%char (or_empty module_name)) in
  if is_empty top || bool_decide (top = "__main__") then None
  else
    match packages_distributions top with
    | Some (d :: _) => Some d
    | _ =>
        match dict_get top _KNOWN_DISTRIBUTIONS with
        | Some d => Some d
        | None => if starts_with top "qodalis_cli_" then Some (PLUGIN_PREFIX +:+ dashed (drop_str (len "qodalis_cli_") top)) else None
        end
    end.

(** ** The builder *)

(** What is added: a distribution by its name, or an object of some module *)
Inductive added := Distribution (d : string) | Object (module_name : option string).
Section Builder.
Context {World Response Storage Provider Options : Type}.
(** A module of the host: its name, where it is from, its processors *)
Record ICliModule := { mod_class : string; mod_from : option string; mod_processors : list (ICliCommandProcessor World Response) }.
Record CliBuilder := {
  _registry : CliCommandRegistry World Response;
  _modules : list ICliModule;
  _filesystem_options : option (list string);
  _file_storage_provider : option Storage;
  _data_explorer_registrations : list (Provider * Options);
  _installed_plugins : list CliInstalledPlugin;
}.
Definition set_installed (l : list CliInstalledPlugin) (b : CliBuilder) : CliBuilder :=
  {| _registry := _registry b; _modules := _modules b; _filesystem_options := _filesystem_options b;
     _file_storage_provider := _file_storage_provider b; _data_explorer_registrations := _data_explorer_registrations b; _installed_plugins := l |}.
Definition add_installed_plugin (plugin : added) (name description : option string) (b : CliBuilder) : CliBuilder :=
  let distribution := match plugin with Distribution d => Some d | Object m => distribution_of m end in
  match distribution with
  | Some d =>
      if is_empty d || existsb (λ p, bool_decide (ip_id p = d)) (_installed_plugins b) then b
      else set_installed (_installed_plugins b ++ [from_distribution d name None description]) b
  | None => b
  end.
Definition new_builder (registry : CliCommandRegistry World Response) : CliBuilder :=
  add_installed_plugin (Distribution CORE_DISTRIBUTION) None None
    {| _registry := registry; _modules := []; _filesystem_options := None; _file_storage_provider := None;
       _data_explorer_registrations := []; _installed_plugins := [] |}.
Definition add_processor (p : ICliCommandProcessor World Response) (b : CliBuilder) : CliBuilder :=
  {| _registry := register p (_registry b); _modules := _modules b; _filesystem_options := _filesystem_options b;
     _file_storage_provider := _file_storage_provider b; _data_explorer_registrations := _data_explorer_registrations b;
     _installed_plugins := _installed_plugins b |}.
Definition add_module (m : ICliModule) (b : CliBuilder) : CliBuilder :=
  let b := {| _registry := _registry b; _modules := _modules b ++ [m]; _filesystem_options := _filesystem_options b;
              _file_storage_provider := _file_storage_provider b; _data_explorer_registrations := _data_explorer_registrations b;
              _installed_plugins := _installed_plugins b |} in
  foldl (λ b p, add_processor p b) (add_installed_plugin (Object (mod_from m)) None None b) (mod_processors m).
Definition FILESYSTEM_PLUGIN : string := "qodalis-cli-server-plugin-filesystem".
Definition DATA_EXPLORER_PLUGIN : string := "qodalis-cli-server-plugin-data-explorer".
Definition add_filesystem (allowed_paths : list string) (b : CliBuilder) : CliBuilder :=
  add_installed_plugin (Distribution FILESYSTEM_PLUGIN) None None
    {| _registry := _registry b; _modules := _modules b; _filesystem_options := Some allowed_paths;
       _file_storage_provider := _file_storage_provider b; _data_explorer_registrations := _data_explorer_registrations b;
       _installed_plugins := _installed_plugins b |}.
Definition set_file_storage_provider (p : Storage) (from : option string) (b : CliBuilder) : CliBuilder :=
  add_installed_plugin (Object from) None None (add_installed_plugin (Distribution FILESYSTEM_PLUGIN) None None
    {| _registry := _registry b; _modules := _modules b; _filesystem_options := _filesystem_options b;
       _file_storage_provider := Some p; _data_explorer_registrations := _data_explorer_registrations b;
       _installed_plugins := _installed_plugins b |}).
Definition add_data_explorer_provider (p : Provider) (o : Options) (from : option string) (b : CliBuilder) : CliBuilder :=
  add_installed_plugin (Object from) None None (add_installed_plugin (Distribution DATA_EXPLORER_PLUGIN) None None
    {| _registry := _registry b; _modules := _modules b; _filesystem_options := _filesystem_options b;
       _file_storage_provider := _file_storage_provider b; _data_explorer_registrations := _data_explorer_registrations b ++ [(p, o)];
       _installed_plugins := _installed_plugins b |}).

Inductive builder_op :=
| AddInstalled (plugin : added) (name description : option string) | AddProcessor (p : ICliCommandProcessor World Response)
| AddModule (m : ICliModule) | AddFilesystem (allowed_paths : list string) | SetStorage (p : Storage) (from : option string)
| AddExplorer (p : Provider) (o : Options) (from : option string).
Definition build_step (b : CliBuilder) (o : builder_op) : CliBuilder :=
  match o with
  | AddInstalled plugin name description => add_installed_plugin plugin name description b
  | AddProcessor p => add_processor p b
  | AddModule m => add_module m b
  | AddFilesystem l => add_filesystem l b
  | SetStorage p from => set_file_storage_provider p from b
  | AddExplorer p o from => add_data_explorer_provider p o from b
  end.

(** The installed plugins: the server first, none twice, none without an id *)
Definition listed_ok (b : CliBuilder) : Prop :=
  NoDup (map ip_id (_installed_plugins b)) ∧ (∀ p, p ∈ _installed_plugins b → ip_id p ≠ "") ∧
  ∃ p l, _installed_plugins b = p :: l ∧ ip_id p = CORE_DISTRIBUTION ∧ ip_name p = "Core".
Lemma add_installed_ok plugin name description b : listed_ok b → listed_ok (add_installed_plugin plugin name description b).
Proof.
  intros (Hn & Hid & core & l & Hl & Hc). unfold add_installed_plugin.
  destruct (match plugin with Distribution d => _ | Object m => _ end) as [d|]; [|split_and!; eauto].
  unfold is_empty. case_bool_decide as Hd; [split_and!; eauto|]. destruct (existsb _ _) eqn:He; [split_and!; eauto|]. simpl. split_and!.
  - cbn. rewrite map_app. apply NoDup_app. split_and!; [done| |apply NoDup_singleton].
    intros x Hx Hin. apply list_elem_of_singleton in Hin. subst x. apply list_elem_of_fmap in Hx as (p & Hp & Hin).
    assert (existsb (λ p, bool_decide (ip_id p = d)) (_installed_plugins b) = true); [|congruence].
    apply existsb_exists. exists p. split; [by apply list_elem_of_In|]. apply bool_decide_eq_true. rewrite <-Hp. unfold from_distribution.
    destruct (match package_metadata d with Some _ => _ | None => _ end); done.
  - intros p. cbn. rewrite elem_of_app, list_elem_of_singleton. intros [Hp| ->]; [by apply Hid|].
    unfold from_distribution. destruct (match package_metadata d with Some _ => _ | None => _ end); done.
  - exists core. eexists. cbn. rewrite Hl. done.
Qed.
Lemma set_other_ok b b' : _installed_plugins b' = _installed_plugins b → listed_ok b → listed_ok b'.
Proof. unfold listed_ok. by intros ->. Qed.

(** Whatever a host adds, and however often: the server comes first in the list of
    installed plugins, and no package is in it twice. *)
Theorem installed_listed_once registry ops : listed_ok (foldl build_step (new_builder registry) ops).
Proof.
  assert (Hstart : listed_ok (new_builder registry)).
  { unfold new_builder, add_installed_plugin. cbn. unfold from_distribution. destruct (package_metadata CORE_DISTRIBUTION) as [[v s]|]; cbn.
    all: split_and!; [apply NoDup_singleton|intros p ->%list_elem_of_singleton; done|eexists _, _; done]. }
  revert Hstart. generalize (new_builder registry) as b. induction ops as [|o ops IH]; intros b Hb; simpl; [done|]. apply IH.
  destruct o as [plugin name description|p|m|l|p from|p o from]; simpl.
  - by apply add_installed_ok.
  - by apply (set_other_ok b).
  - unfold add_module. assert (Hm : ∀ ps b, listed_ok b → listed_ok (foldl (λ b p, add_processor p b) b ps)).
    { induction ps as [|p ps IHps]; intros b' Hb'; simpl; [done|]. apply IHps. by apply (set_other_ok b'). }
    apply Hm, add_installed_ok. by apply (set_other_ok b).
  - by apply add_installed_ok, (set_other_ok b).
  - by apply add_installed_ok, add_installed_ok, (set_other_ok b).
  - by apply add_installed_ok, add_installed_ok, (set_other_ok b).
Qed.
End Builder.
End Packages.

Example names_ex : short_plugin_name "qodalis-cli-server-plugin-data_explorer-SQL" = "Data Explorer Sql" ∧
  distribution_of (λ _, None) (Some "qodalis_cli_data_explorer.x") = Some "qodalis-cli-server-plugin-data-explorer" ∧
  distribution_of (λ _, None) (Some "myapp.plugins") = None.
Proof. vm_compute. done. Qed.

(** ** CORS *)

(** The regular expression of the patterns with a star; [None] without any *)
Definition glob_re (pattern : string) : re := let g := rstrip_slashes pattern in translate (len g) (chars g).
Definition origins_regex (allowed : list string) : option re :=
  match List.filter (λ o, has_char "*"%char o && negb (bool_decide (o = "*"))) allowed with
  | [] => None
  | g :: globs => Some (foldl (λ r o, Or r (glob_re o)) (glob_re g) globs)
  end.
Record CorsSettings := { allow_origins : list string; allow_origin_regex : option re; allow_credentials : bool }.
(** [None]: no CORS middleware *)
Definition _configure_cors (cors : option bool) (cors_origins allowed_origins : option (list string)) : option CorsSettings :=
  let origins := match cors_origins with Some l => Some l | None => allowed_origins end in
  let given := match origins with Some ((_ :: _) as l) => Some l | _ => None end in
  let enabled := default (bool_decide (is_Some given)) cors in
  if negb enabled then None
  else
    let origins := default ["*"] given in
    let wildcard := bool_decide ("*" ∈ origins) in
    let exact := map rstrip_slashes (List.filter (λ o, negb (has_char "*"%char o)) origins) in
    Some {| allow_origins := if wildcard then ["*"] else exact;
            allow_origin_regex := if wildcard then None else origins_regex origins; allow_credentials := negb wildcard |}.
(** The settings name an origin: all of them, it, or the expression matches it. *)
Definition names_origin (c : CorsSettings) (origin : string) : bool :=
  bool_decide ("*" ∈ allow_origins c) || match allow_origin_regex c with Some r => full r origin | None => false end ||
  bool_decide (origin ∈ allow_origins c).

Lemma full_or a b s : full (Or a b) s = full a s || full b s.
Proof.
  unfold full. apply eq_bool_prop_intro. rewrite !Is_true_true, orb_true_iff, !matches_spec. apply lang_or.
Qed.
Lemma full_alternatives origin globs : ∀ r, full (foldl (λ r o, Or r (glob_re o)) r globs) origin = full r origin || existsb (λ o, full (glob_re o) origin) globs.
Proof. induction globs as [|g globs IH]; intros r; simpl; [by rewrite orb_false_r|]. by rewrite IH, full_or, orb_assoc. Qed.
Lemma origins_regex_spec allowed origin :
  match origins_regex allowed with Some r => full r origin | None => false end =
  existsb (λ o, has_char "*"%char o && negb (bool_decide (o = "*")) && full (glob_re o) origin) allowed.
Proof.
  unfold origins_regex. transitivity (existsb (λ o, full (glob_re o) origin) (List.filter (λ o, has_char "*"%char o && negb (bool_decide (o = "*"))) allowed)).
  - destruct (List.filter _ allowed) as [|g globs]; [done|]. by rewrite full_alternatives.
  - induction allowed as [|o allowed IH]; simpl; [done|]. destruct (_ && _); simpl; by rewrite IH.
Qed.
(** A pattern that is written as browsers write origins: in lower case, without a
    final slash, and either without glob characters or with a star; no origin has
    one. *)
Definition usual_pattern (p : string) : Prop := lower p = p ∧ rstrip_slashes p = p ∧ (plain p ∨ has_char "*"%char p = true).

(** CORS and the sockets agree on which origins the patterns allow, when they are
    usual patterns; credentials are never allowed together with every origin; and
    without origins CORS is off unless it is asked for. *)
Theorem cors_agrees cors cors_origins allowed origin :
  let origins := match cors_origins with Some l => l | None => allowed end in
  has_char "*"%char origin = false →
  match _configure_cors cors cors_origins (Some allowed) with
  | Some c =>
      (allow_credentials c = true → "*" ∉ allow_origins c) ∧
      (origins ≠ [] → Forall usual_pattern origins → names_origin c origin = existsb (pattern_allows origin) origins)
  | None => cors = Some false ∨ cors = None ∧ origins = []
  end.
Proof.
  intros origins Hno. unfold _configure_cors.
  replace (match cors_origins with Some l => Some l | None => Some allowed end) with (Some origins) by (by destruct cors_origins). cbv zeta.
  set (given := match origins with [] => None | _ => Some origins end).
  change (match Some origins with Some ((_ :: _) as l) => Some l | _ => None end) with (match origins with [] => None | x :: l => Some (x :: l) end).
  replace (match origins with [] => None | x :: l => Some (x :: l) end) with given by (by destruct origins).
  destruct (default (bool_decide (is_Some given)) cors) eqn:Hen; cbn [negb].
  2:{ destruct cors as [[]|]; [done|by left|]. right. split; [done|]. simpl in Hen. destruct origins; [done|].
      apply bool_decide_eq_false in Hen. destruct Hen. by eexists. }
  split.
  - cbn. intros Hw%negb_true_iff. rewrite Hw. intros Hin. apply list_elem_of_fmap in Hin as (o & Ho & Hin).
    apply list_elem_of_In, List.filter_In in Hin as [Hin Hs]. apply negb_true_iff in Hs.
    assert (has_char "*"%char o = true); [|congruence].
    assert (Hx : has_char "*"%char (rstrip_slashes o) = true) by (by rewrite <-Ho).
    rewrite has_char_spec in *. unfold rstrip_slashes in Hx. rewrite chars_str in Hx. unfold rstrip_chars in Hx.
    apply list_elem_of_In in Hx. rewrite <-in_rev in Hx. apply list_elem_of_In in Hx.
    destruct (lstrip_chars_suffix (Ascii.eqb "/"%char) (rev (chars o))) as (k & Hk & _).
    apply list_elem_of_In, in_rev. rewrite Hk. apply list_elem_of_In, elem_of_app. by right.
  - intros Hne Hall. assert (Hg : given = Some origins) by (by subst given; destruct origins). rewrite Hg. cbn [default from_option id].
    unfold names_origin. cbn [allow_origins allow_origin_regex].
    destruct (bool_decide ("*" ∈ origins)) eqn:Hstar.
    { apply bool_decide_eq_true in Hstar. symmetry. rewrite bool_decide_true by set_solver. cbn.
      apply existsb_exists. exists "*". split; [by apply list_elem_of_In|]. done. }
    apply bool_decide_eq_false in Hstar. rewrite origins_regex_spec.
    assert (Hnostar : bool_decide ("*" ∈ map rstrip_slashes (List.filter (λ o, negb (has_char "*"%char o)) origins)) = false).
    { apply bool_decide_eq_false_2. intros (o & Ho & Hin)%list_elem_of_fmap. apply list_elem_of_In, List.filter_In in Hin as [Hin Hs].
      apply list_elem_of_In in Hin. rewrite Forall_forall in Hall. destruct (Hall o Hin) as (_ & Hr & _). rewrite Hr in Ho. by subst o. }
    rewrite Hnostar. cbn [orb]. clear Hnostar Hne Hg given Hen. induction Hall as [|p ps (Hlow & Hrs & Hkind) Hps IH]; [by rewrite bool_decide_false by set_solver|].
    cbn [existsb List.filter]. assert (Hp : p ≠ "*") by set_solver. assert (Hps' : "*" ∉ ps) by set_solver. specialize (IH Hps').
    unfold pattern_allows at 1. rewrite Hrs, Hlow. rewrite (bool_decide_false (p = "*")) by done. cbn [negb].
    unfold glob_re at 1. rewrite Hrs. change (full (translate (len p) (chars p)) origin) with (fnmatchcase origin p).
    destruct (has_char "*"%char p) eqn:Hc; cbn [negb andb].
    + cbn [orb]. rewrite <-IH. destruct (fnmatchcase origin p) eqn:Hf; [by rewrite orb_true_r|]. cbn [orb].
      rewrite (bool_decide_false (p = origin)) by congruence. done.
    + destruct Hkind as [Hplain|?]; [|congruence]. cbn [map]. rewrite Hrs, <-IH. apply eq_bool_prop_intro.
      rewrite !Is_true_true, !orb_true_iff, !bool_decide_eq_true, fnmatch_plain, elem_of_cons by done. naive_solver.
Qed.
Lemma cors_agrees_witness :
  let allowed := ["https://app.test"; "http://127.0.0.1:*"] in
  has_char "*"%char "http://127.0.0.1:4200" = false ∧
  match _configure_cors None None (Some allowed) with
  | Some c => (allow_credentials c = true → "*" ∉ allow_origins c) ∧
      (allowed ≠ [] → Forall usual_pattern allowed → names_origin c "http://127.0.0.1:4200" = existsb (pattern_allows "http://127.0.0.1:4200") allowed)
  | None => (None : option bool) = Some false ∨ (None : option bool) = None ∧ allowed = []
  end.
Proof. split; [reflexivity|]. apply (cors_agrees None None ["https://app.test"; "http://127.0.0.1:*"] "http://127.0.0.1:4200"). reflexivity. Defined.

(** A pattern with a capital letter allows an origin on the sockets, and not in CORS. *)
Example cors_keeps_case :
  pattern_allows "https://app.test" "https://App.test" = true ∧
  (match _configure_cors None None (Some ["https://App.test"]) with Some c => names_origin c "https://app.test" | None => true end) = false.
Proof. vm_compute. done. Qed.

(** ** Capabilities, as the router of versions answers them *)

Definition SERVER_VERSION : string := "1.0.0".
(** [system] is [platform.system()], [shell_auth] the answer of the function, if
    there is one. *)
Definition get_capabilities (system : string) (enable_shell : bool) (shell_auth : option (option string)) : pyval :=
  let detected_os := if bool_decide (system = "Darwin") then "darwin" else if bool_decide (system = "Windows") then "win32" else "linux" in
  let shell_path := if bool_decide (system = "Windows") then "C:\Windows\System32\WindowsPowerShell\v1.0\powershell.exe" else "/bin/bash" in
  VDict ([("shell", VBool enable_shell); ("os", VStr detected_os); ("shellPath", VStr shell_path); ("version", VStr SERVER_VERSION); ("streaming", VBool true)] ++
         if enable_shell then [("shellAuth", VStr (match shell_auth with Some (Some m) => if is_empty m then "locked" else m | _ => "locked" end))] else []).

(** ** How a server is put together *)

(** The routers and the middleware of an application, by name *)
Inductive router := CommandsApi | VersionApi | FilesystemApi | DataExplorerApi | McpApi | PluginApi (plugin : nat).
Inductive middleware_kind := McpGate | Cors | WebSocketOrigin | Protection (plugin : nat).
Record ServerOptions := {
  base_path : string;
  cors : option bool;
  cors_origins : option (list string);
  allowed_origins : option (list string);
  enable_shell : bool;
  mcp_enabled : bool;
}.
(** What is known of a server: its routes with their prefixes in the order in
    which they were included, the sockets, the middleware from the outermost in,
    the names of the providers of MCP tools, the applications mounted. *)
Record App := {
  routes : list (router * string);
  sockets : list string;
  user_middleware : list middleware_kind;
  mcp_providers : list string;
  mounts : list (string * nat);
}.
(** [add_middleware] puts it outside those that are there. *)
Definition add_middleware (m : middleware_kind) (l : list middleware_kind) : list middleware_kind := m :: l.
Definition V1 : string := "/api/v1/qcli".
Definition create_cli_server (o : ServerOptions) (has_storage has_explorer : bool) : App :=
  let mw := if mcp_enabled o then add_middleware McpGate [] else [] in
  let mw := if bool_decide (is_Some (_configure_cors (cors o) (cors_origins o) (allowed_origins o))) then add_middleware Cors mw else mw in
  let mw := match allowed_origins o with Some _ => add_middleware WebSocketOrigin mw | None => mw end in
  {| routes :=
       [(CommandsApi, V1); (VersionApi, "/api/qcli")] ++
       (if bool_decide (base_path o = V1) then [] else [(CommandsApi, base_path o)]) ++
       (if has_storage then [(FilesystemApi, "/api/qcli/fs")] else []) ++
       (if has_explorer then [(DataExplorerApi, "/api/qcli/data-explorer")] else []) ++
       (if mcp_enabled o then [(McpApi, "")] else []);
     sockets := ["/ws/v1/qcli/events"; "/ws/qcli/events"; "/ws/v1/qcli/logs"; "/ws/qcli/logs"; "/ws/v1/qcli/shell"; "/ws/qcli/shell"];
     user_middleware := mw;
     mcp_providers := ["server"] ++ (if has_storage then ["filesystem"] else []) ++ (if has_explorer then ["data-explorer"] else []) ++ ["commands"];
     mounts := [] |}.
Definition _mcp_features (providers : list string) (o : ServerOptions) : list string :=
  List.filter (λ n, negb (bool_decide (n = "server"))) providers ++ (if enable_shell o then ["shell"] else []) ++ (if mcp_enabled o then ["mcp"] else []).

(** A plugin: the answer of its [before_mount], its routes, whether its [on_mount]
    protects the server, the names of the MCP providers it adds, its dashboard *)
Record Plugin := {
  plugin_id : nat;
  before_mount : option bool;
  prefix : option string;
  protects : bool;
  providers : list string;
  dashboard : option string;
}.
(** [protect] appends: innermost, once *)
Definition protect_with (p : nat) (l : list middleware_kind) : list middleware_kind :=
  if existsb (λ m, match m with Protection q => bool_decide (q = p) | _ => false end) l then l else l ++ [Protection p].
Definition mount_plugin (p : Plugin) (a : App) : App :=
  match before_mount p with
  | Some false => a
  | _ =>
      {| routes := routes a ++ match prefix p with Some q => if is_empty q then [] else [(PluginApi (plugin_id p), q)] | None => [] end;
         sockets := sockets a;
         user_middleware := if protects p then protect_with (plugin_id p) (user_middleware a) else user_middleware a;
         mcp_providers := mcp_providers a ++ providers p;
         mounts := mounts a ++ match dashboard p with Some q => if is_empty q then [] else [(q, plugin_id p)] | None => [] end |}
  end.

Definition is_protection (m : middleware_kind) : bool := match m with Protection _ => true | _ => false end.
Lemma protect_with_order p l : ∀ outer inner, l = outer ++ inner → Forall (λ m, is_protection m = false) outer → Forall (λ m, is_protection m = true) inner → NoDup l →
  ∃ inner', protect_with p l = outer ++ inner' ∧ Forall (λ m, is_protection m = true) inner' ∧ NoDup (protect_with p l).
Proof.
  intros outer inner -> Ho Hi Hn. unfold protect_with. destruct (existsb _ _) eqn:He; [by exists inner|].
  exists (inner ++ [Protection p]). split; [by rewrite app_assoc|]. split; [apply Forall_app; split; [done|by apply Forall_singleton]|].
  apply NoDup_app. split_and!; [done| |apply NoDup_singleton]. intros m Hm Hin. apply list_elem_of_singleton in Hin. subst m.
  assert (existsb (λ m, match m with Protection q => bool_decide (q = p) | _ => false end) (outer ++ inner) = true); [|congruence].
  apply existsb_exists. exists (Protection p). split; [by apply list_elem_of_In|by apply bool_decide_eq_true].
Qed.

(** Whatever plugins are mounted: the checks of origins, CORS and the gate of the
    MCP endpoint run before every protection, so an answer of the protection has
    its CORS headers; no middleware is there twice; the routes and sockets of the
    server itself come first and stay, so no plugin replaces one of them. *)
Theorem mounted_order o has_storage has_explorer plugins :
  let a0 := create_cli_server o has_storage has_explorer in
  let a := foldl (λ a p, mount_plugin p a) a0 plugins in
  (∃ inner, user_middleware a = user_middleware a0 ++ inner ∧ Forall (λ m, is_protection m = true) inner) ∧
  NoDup (user_middleware a) ∧ (∃ more, routes a = routes a0 ++ more) ∧ sockets a = sockets a0.
Proof.
  intros a0 a. assert (Ho : Forall (λ m, is_protection m = false) (user_middleware a0)).
  { subst a0. unfold create_cli_server. cbn. destruct (mcp_enabled o), (bool_decide _), (allowed_origins o); repeat constructor. }
  assert (Hn : NoDup (user_middleware a0)).
  { subst a0. unfold create_cli_server. cbn. destruct (mcp_enabled o), (bool_decide _), (allowed_origins o); cbn;
      repeat (apply NoDup_cons; split; [set_solver|]); apply NoDup_nil_2. }
  subst a. cut (∀ b inner, user_middleware b = user_middleware a0 ++ inner → Forall (λ m, is_protection m = true) inner → NoDup (user_middleware b) →
    (∃ more, routes b = routes a0 ++ more) → sockets b = sockets a0 →
    let a := foldl (λ a p, mount_plugin p a) b plugins in
    (∃ inner, user_middleware a = user_middleware a0 ++ inner ∧ Forall (λ m, is_protection m = true) inner) ∧
    NoDup (user_middleware a) ∧ (∃ more, routes a = routes a0 ++ more) ∧ sockets a = sockets a0).
  { intros H. apply (H a0 []); [by rewrite app_nil_r|constructor|done|exists []; by rewrite app_nil_r|done]. }
  clear Hn. induction plugins as [|p plugins IH]; intros b inner Hb Hi Hnb Hr Hs; simpl; [split_and!; eauto|].
  unfold mount_plugin. assert (Hskip : ∀ b', b' = b → let a := foldl (λ a p, mount_plugin p a) b' plugins in
    (∃ inner, user_middleware a = user_middleware a0 ++ inner ∧ Forall (λ m, is_protection m = true) inner) ∧
    NoDup (user_middleware a) ∧ (∃ more, routes a = routes a0 ++ more) ∧ sockets a = sockets a0) by (intros b' ->; by apply (IH b inner)).
  destruct (before_mount p) as [[]|]; [|by apply Hskip|]; clear Hskip.
  all: destruct (protects p); [destruct (protect_with_order (plugin_id p) (user_middleware b) _ _ Hb Ho Hi Hnb) as (inner' & H1 & H2 & H3); apply (IH _ inner')|
                               apply (IH _ inner)]; cbn; try done.
  all: destruct Hr as [more ->]; rewrite <-app_assoc; eauto.
Qed.

(** ** The bundled commands *)

Section Processors.
(** [hexdigest] of [hashlib.new(algo)] over the bytes *)
Context (hexdigest : string → string → string).

Definition echo_handle (c : CliProcessCommand) : string := let t := get_positional_text c in if truthy t then t else "Usage: echo <text>".

Definition base64_encode_handle (c : CliProcessCommand) : string :=
  let t := get_positional_text c in if is_empty t then "Usage: base64 encode <text>" else b64encode (utf8 t).
(** The bytes of a string, and [bytes.decode("utf-8")], which raises where decoding
    with replacements does not give back the bytes *)
Definition byte_list (s : string) : Utf8.bytes := map (λ c, Z.of_N (N_of_ascii c)) (chars s).
Definition decode_strict (b : Utf8.bytes) : option text := let t := decode b in if bool_decide (encode t = Some b) then Some t else None.
Definition base64_decode_handle (c : CliProcessCommand) : text :=
  let t := get_positional_text c in
  if is_empty t then byte_list "Usage: base64 decode <base64string>"
  else default (byte_list "Error: Invalid Base64 input") (b64decode t ≫= λ s, decode_strict (byte_list s)).

Definition SUPPORTED_ALGORITHMS : list string := ["md5"; "sha1"; "sha256"; "sha512"].
(** [None]: the algorithm is not a text, which has no [lower]. *)
Definition hash_handle (c : CliProcessCommand) : option string :=
  let t := get_positional_text c in
  if is_empty t then Some "Usage: hash <text> [--algorithm sha256]"
  else
    match default (VStr "sha256") (dict_get "algorithm" (args c)) with
    | VStr a =>
        let algo := lower a in
        if bool_decide (algo ∈ SUPPORTED_ALGORITHMS) then Some (algo +:+ ": " +:+ hexdigest algo (utf8 t))
        else Some ("Unsupported algorithm: " +:+ algo +:+ ". Supported: " +:+ join ", " SUPPORTED_ALGORITHMS)
    | _ => None
    end.

Definition status_handle (version system release : string) : string :=
  "Server: Qodalis CLI Server (Python)" +:+ str [newline] +:+ "Python: " +:+ version +:+ str [newline] +:+
  "Platform: " +:+ system +:+ " " +:+ release +:+ str [newline] +:+ "Status: Running".
(** [divmod] of the uptime *)
Definition uptime_parts (uptime_secs : Z) : Z * Z * Z := let r := uptime_secs mod 3600 in (uptime_secs / 3600, r / 60, r mod 60).
Definition system_handle (node system release machine cpus python : string) (uptime_secs : Z) : string :=
  let '(hours, minutes, seconds) := uptime_parts uptime_secs in
  join (str [newline])
    ["Hostname:      " +:+ node; "OS:            " +:+ system +:+ " " +:+ release; "Architecture:  " +:+ machine; "CPU Cores:     " +:+ cpus;
     "Python:        " +:+ python; "Server Uptime: " +:+ str_of_Z hours +:+ "h " +:+ str_of_Z minutes +:+ "m " +:+ str_of_Z seconds +:+ "s"].
End Processors.

Lemma uptime_parts_sum u : 0 ≤ u → let '(h, m, s) := uptime_parts u in u = h * 3600 + m * 60 + s ∧ 0 ≤ m < 60 ∧ 0 ≤ s < 60.
Proof.
  intros Hu. unfold uptime_parts. pose proof (Z.mod_pos_bound u 3600). pose proof (Z.mod_pos_bound (u mod 3600) 60).
  pose proof (Z.div_mod u 3600). pose proof (Z.div_mod (u mod 3600) 60). split_and!; lia.
Qed.

(** [utf8] of a text is [encode] of its code points. *)
Lemma utf8_encode s : encode (byte_list s) = Some (byte_list (utf8 s)).
Proof.
  unfold utf8, byte_list. rewrite chars_str. generalize (chars s) as l. induction l as [|c l IH]; [done|]. cbn [map concat encode]. rewrite IH.
  rewrite map_app. destruct c as [[] [] [] [] [] [] [] []]; reflexivity.
Qed.
Lemma byte_code_points s : Forall code_point (byte_list s).
Proof.
  unfold byte_list. apply Forall_map, Forall_forall. intros c _. unfold code_point. pose proof (N_ascii_bounded c). simpl. lia.
Qed.

(** Decoding what the encoder answered gives the text back, whatever characters it
    has. *)
Theorem base64_roundtrip c c' :
  get_positional_text c ≠ "" → get_positional_text c' = base64_encode_handle c →
  base64_decode_handle c' = byte_list (get_positional_text c).
Proof.
  intros Hne Hc'. unfold base64_decode_handle, base64_encode_handle in *. unfold is_empty in *. rewrite (bool_decide_false _ Hne) in Hc'.
  rewrite Hc', b64decode_encode. cbn [mbind option_bind].
  assert (Hdec : decode_strict (byte_list (utf8 (get_positional_text c))) = Some (byte_list (get_positional_text c))).
  { unfold decode_strict. rewrite (decode_encode (byte_list (get_positional_text c))); [|apply byte_code_points|apply utf8_encode].
    by rewrite bool_decide_true by apply utf8_encode. }
  rewrite Hdec, bool_decide_false; [done|]. intros He. apply (f_equal b64decode) in He. rewrite b64decode_encode in He. injection He as He.
  pose proof (utf8_encode (get_positional_text c)) as Hu. rewrite He in Hu. destruct (get_positional_text c) as [|x t]; [done|].
  cbn in Hu. destruct (encode (byte_list t)) as [b|] eqn:Hb; destruct x as [[] [] [] [] [] [] [] []]; cbn in Hu; unfold byte_list in Hb; cbn in Hb; rewrite ?Hb in Hu; done.
Qed.
Definition words_command (words : list string) : CliProcessCommand :=
  {| command := ""; raw_command := ""; value := None; args := []; chain_commands := []; data := VNone; positionals := Some words |}.
Definition accented : string := str [ascii_of_nat 104; ascii_of_nat 233].
Lemma base64_roundtrip_witness :
  base64_encode_handle (words_command [accented; "you"]) = "aMOpIHlvdQ==" ∧
  base64_decode_handle (words_command ["aMOpIHlvdQ=="]) = byte_list (accented +:+ " you").
Proof. split; [reflexivity|]. apply (base64_roundtrip (words_command [accented; "you"]) (words_command ["aMOpIHlvdQ=="])); [discriminate|reflexivity]. Defined.

Example commands_ex :
  hash_handle (λ a b, b) (words_command ["x"]) = Some "sha256: x" ∧ base64_decode_handle (words_command ["/w=="]) = byte_list "Error: Invalid Base64 input" ∧
  uptime_parts 93784 = (26, 3, 4).
Proof. vm_compute. done. Qed.

(** *** HTTP *)

(** The answer of [urlopen], what it raises, and one line of a stream *)
Record HttpResponse := { h_status : Z; h_content_type : option string; h_headers : list (string * string); h_body : Utf8.bytes }.
Inductive http_error := HTTPError (code : Z) (reason : string) (body : option Utf8.bytes) | URLError (reason : string) | OtherError (msg : string).
Record HttpChunk := { chunk_text : text; chunk_style : option string }.

Section Http.
(** [urlopen] of a method, a URL and the data; [json.dumps(json.loads(_), indent=2)]
    ([None]: no JSON); the text of what [encode] of a body that is no text raises *)
Context {W : Type} `{U : UrlLib} (urlopen : string → string → option Utf8.bytes → py W http_error HttpResponse).
Context (reindent : text → option text) (no_encode : pyval → string).

Definition http_url (c : CliProcessCommand) : option string := List.hd_error (get_positionals c).
(** The message unless the scheme is one of the two; [None]: [urlsplit] raised. *)
Definition _scheme_error (url : string) : option (option string) :=
  match urlsplit url with
  | None => None
  | Some parts =>
      let scheme := lower (u_scheme parts) in
      Some (if bool_decide (scheme ∈ ["http"; "https"]) then None
            else Some ("Unsupported URL scheme '" +:+ (if is_empty scheme then "(none)" else scheme) +:+ "': only http and https are allowed."))
  end.
Definition falsy_body (body : option pyval) : bool :=
  match body with
  | None | Some VNone | Some (VBool false) | Some (VStr "") | Some (VList []) | Some (VDict []) => true
  | Some (VInt z) => z =? 0
  | Some (VFloat r) => bool_decide (r ∈ ["0.0"; "-0.0"])
  | _ => false
  end.
(** [body.encode("utf-8") if body else None] *)
Definition body_data (body : option pyval) : string + option Utf8.bytes :=
  if falsy_body body then inr None
  else match body with Some (VStr s) => inr (Some (byte_list (utf8 s))) | Some v => inl (no_encode v) | None => inr None end.
Definition line_text (s : string) : text := byte_list s.
Definition summary_lines (show_headers : bool) (r : HttpResponse) : list text :=
  [line_text ("Status: " +:+ str_of_Z (h_status r)); line_text ("Content-Type: " +:+ default "unknown" (h_content_type r))] ++
  (if show_headers then line_text "Headers:" :: map (λ kv, line_text ("  " +:+ kv.1 +:+ ": " +:+ kv.2)) (h_headers r) else []).
Definition shown_body (r : HttpResponse) : text :=
  let b := decode (h_body r) in
  let b := if contains "json" (default "unknown" (h_content_type r)) then default b (reindent b) else b in
  firstn (Z.to_nat 5000) b.
Definition error_lines (e : http_error) : text :=
  match e with
  | HTTPError code reason body =>
      line_text ("HTTP Error: " +:+ str_of_Z code +:+ " " +:+ reason +:+ str [newline]) ++ firstn (Z.to_nat 2000) (decode (default [] body))
  | URLError reason => line_text ("Connection error: " +:+ reason)
  | OtherError msg => line_text ("Error: " +:+ msg)
  end.
Definition send (method url : string) (body : option pyval) : py W http_error HttpResponse :=
  match body_data body with inl msg => raise (OtherError msg) | inr data => urlopen method url data end.
Fixpoint join_lines (l : list text) : text := match l with [] => [] | [x] => x | x :: l => x ++ [10] ++ join_lines l end.

(** [None]: [_scheme_error] raised *)
Definition _do_request (url method : string) (body : option pyval) (show_headers : bool) : W → option text * W := λ w,
  match _scheme_error url with
  | None => (None, w)
  | Some (Some error) => (Some (line_text error), w)
  | Some None =>
      let '(r, w) := send method url body w in
      (Some match r with inr r => join_lines (summary_lines show_headers r ++ [[]; shown_body r]) | inl e => error_lines e end, w)
  end.
Definition plain_chunk (t : text) : HttpChunk := {| chunk_text := t; chunk_style := None |}.
Definition styled (style : string) (t : text) : HttpChunk := {| chunk_text := t; chunk_style := Some style |}.
(** What is emitted and the exit code *)
Definition _do_stream_request (url method : string) (body : option pyval) (show_headers cancelled : bool) : W → option (list HttpChunk * Z) * W := λ w,
  match _scheme_error url with
  | None => (None, w)
  | Some (Some error) => (Some ([styled "error" (line_text error)], 1), w)
  | Some None =>
      if cancelled then (Some ([], 1), w)
      else
        let start := styled "info" (line_text ("Fetching " +:+ method +:+ " " +:+ url +:+ "...")) in
        let '(r, w) := send method url body w in
        (Some match r with
              | inr r => (start :: map plain_chunk (summary_lines show_headers r) ++ [plain_chunk (shown_body r)], 0)
              | inl e => ([start; styled "error" (error_lines e)], 1)
              end, w)
  end.
Definition usage_get : string := "Usage: http get <url>".
Definition usage_post : string := "Usage: http post <url> --body '{" +:+ str [dquote_char] +:+ "key" +:+ str [dquote_char] +:+ ":" +:+ str [dquote_char] +:+ "value" +:+ str [dquote_char] +:+ "}'".
Definition http_handle (post : bool) (c : CliProcessCommand) : W → option text * W :=
  let url := or_empty (http_url c) in
  if is_empty url then λ w, (Some (line_text (if post then usage_post else usage_get)), w)
  else _do_request url (if post then "POST" else "GET") (if post then dict_get "body" (args c) else None) (dict_mem "headers" (args c)).
Definition http_handle_stream (post cancelled : bool) (c : CliProcessCommand) : W → option (list HttpChunk * Z) * W :=
  let url := or_empty (http_url c) in
  if is_empty url then λ w, (Some ([plain_chunk (line_text (if post then usage_post else usage_get))], 1), w)
  else _do_stream_request url (if post then "POST" else "GET") (if post then dict_get "body" (args c) else None) (dict_mem "headers" (args c)) cancelled.

(** The commands ask [urlopen] for no URL whose scheme is not http or https, in
    either form (where it is redirected is its own). *)
Theorem http_only post cancelled c w :
  (∀ parts, urlsplit (or_empty (http_url c)) = Some parts → lower (u_scheme parts) ∉ ["http"; "https"]) →
  (http_handle post c w).2 = w ∧ (http_handle_stream post cancelled c w).2 = w ∧
  ∀ chunks code, (http_handle_stream post cancelled c w).1 = Some (chunks, code) → code = 1.
Proof.
  intros Hs. unfold http_handle, http_handle_stream. destruct (is_empty _); [split_and!; try done; by intros ?? [= <- <-]|].
  unfold _do_request, _do_stream_request, _scheme_error. destruct (urlsplit _) as [parts|]; [|done].
  rewrite bool_decide_false by (by apply Hs). split_and!; try done. by intros ?? [= <- <-].
Qed.
(** A stream ends with 0 exactly when the request was answered; the lines it sends
    then are those of the other form, without its empty line. *)
Theorem http_stream_same post c w chunks code w' :
  http_handle_stream post false c w = (Some (chunks, code), w') →
  ∃ t, http_handle post c w = (Some t, w') ∧
    (code = 0 ↔ ∃ url m b r, send m url b w = (inr r, w') ∧ url ≠ "" ∧ _scheme_error url = Some None ∧
       url = or_empty (http_url c) ∧ m = (if post then "POST" else "GET") ∧ b = if post then dict_get "body" (args c) else None) ∧
    (code = 0 → ∃ lines body, tail chunks = map plain_chunk (lines ++ [body]) ∧ t = join_lines (lines ++ [[]; body])).
Proof.
  unfold http_handle_stream, http_handle. unfold is_empty. case_bool_decide as Hu.
  { intros [= <- <- <-]. eexists. split_and!; [done| |done]. split; [done|]. naive_solver. }
  unfold _do_stream_request, _do_request. destruct (_scheme_error (or_empty (http_url c))) as [[error|]|] eqn:He; [| |done].
  { intros [= <- <- <-]. eexists. split_and!; [done| |done]. split; [done|]. intros (url & m & b & r & _ & _ & H & -> & _). congruence. }
  destruct (send _ _ _ w) as [[e|r] w1] eqn:Hsend; intros [= <- <- <-]; eexists; (split; [reflexivity|]); split; try done.
  - split; [done|]. intros (url & m & b & r & Hr & _ & _ & -> & -> & ->). congruence.
  - split; [|done]. intros _. eexists _, _, _, r. split_and!; [exact Hsend|done..].
  - intros _. exists (summary_lines (dict_mem "headers" (args c)) r), (shown_body r). split; [|done]. cbn [tail]. by rewrite map_app.
Qed.
End Http.

(** [urlsplit] of a URL with a scheme, and a server that answers everything *)
#[local] Instance simple_urls : UrlLib := {
  urlsplit s := Some {| u_scheme := List.hd "" (split ":"%char s); u_netloc := ""; u_path := ""; u_query := ""; u_fragment := ""; u_hostname := None; u_port := Some None |} }.
Definition ok_urlopen (m url : string) (d : option Utf8.bytes) : py (list string) http_error HttpResponse := λ w,
  (inr {| h_status := 200; h_content_type := None; h_headers := [("A", "b")]; h_body := [111; 107] |}, url :: w).
Lemma http_only_witness :
  (http_handle ok_urlopen Some (λ _, "") false (words_command ["file:///etc/passwd"]) []).2 = [] ∧
  (http_handle ok_urlopen Some (λ _, "") false (words_command ["http://x"]) []).2 = ["http://x"].
Proof.
  split; [|reflexivity]. apply (http_only ok_urlopen Some (λ _, "") false false (words_command ["file:///etc/passwd"]) []).
  intros parts [= <-]. vm_compute. set_solver.
Defined.

(** ** The weather commands ([src/plugins/weather/qodalis_cli_weather/weather_module.py]) *)

Module Weather.

(** [str] of a JSON value; it is no time. *)
Definition value_text : pyval → string := value_str iso_ms.
(** The argument [location], the words of the command, or London *)
Definition _get_location (c : CliProcessCommand) : string :=
  match dict_get "location" (args c) with
  | Some v => value_text v
  | None => let t := get_positional_text c in if is_empty t then "London" else t
  end.

(** [urllib.parse.quote]: letters, digits and the characters of [_.-~] and the
    slash stay, every other byte of the UTF-8 form is escaped. *)
Definition quote_safe (b : Z) : bool :=
  in_range 48 57 b || in_range 65 90 b || in_range 97 122 b || bool_decide (b ∈ [95; 46; 45; 126; 47]).
Definition upper_hex (n : Z) : Z := if n <? 10 then 48 + n else 55 + n.
Definition quote_byte (b : Z) : list Z := if quote_safe b then [b] else [37; upper_hex (b / 16); upper_hex (b mod 16)].
Definition bytes_text (l : list Z) : string := str (map (λ b, ascii_of_N (Z.to_N b)) l).
Definition url_quote (s : string) : string := bytes_text (concat (map quote_byte (byte_list (utf8 s)))).
Definition weather_url (location : string) : string := "https://wttr.in/" +:+ url_quote location +:+ "?format=j1".

(** *** Reading the answer *)

(** What an exception prints, or the value *)
Definition reading A : Type := string + A.
#[local] Instance reading_ret : MRet reading := λ A x, inr x.
#[local] Instance reading_bind : MBind reading := λ A B f m, match m with inl e => inl e | inr x => f x end.

Definition json_class (v : pyval) : string :=
  match v with
  | VNone => "NoneType" | VBool _ => "bool" | VInt _ => "int" | VFloat _ => "float" | VStr _ => "str"
  | VTime _ => "datetime.datetime" | VList _ => "list" | VDict _ => "dict"
  end.
Definition not_subscriptable {A} (v : pyval) : reading A := inl ("'" +:+ json_class v +:+ "' object is not subscriptable").
(** [v[key]] *)
Definition field_at (key : string) (v : pyval) : reading pyval :=
  match v with
  | VDict d => match dict_get key d with Some x => inr x | None => inl (py_repr key) end
  | VList _ => inl "list indices must be integers or slices, not str"
  | VStr _ => inl "string indices must be integers, not 'str'"
  | v => not_subscriptable v
  end.
(** [v[n]] *)
Definition item_at (n : nat) (v : pyval) : reading pyval :=
  match v with
  | VList l => match l !! n with Some x => inr x | None => inl "list index out of range" end
  | VStr s => match chars s !! n with Some c => inr (VStr (str [c])) | None => inl "string index out of range" end
  | VDict _ => inl (str_of_Z (Z.of_nat n))
  | v => not_subscriptable v
  end.
(** [for x in v] *)
Definition each_of (v : pyval) : reading (list pyval) :=
  match v with
  | VList l => inr l
  | VDict d => inr (map VStr (dict_keys d))
  | VStr s => inr (map (λ c, VStr (str [c])) (chars s))
  | v => inl ("'" +:+ json_class v +:+ "' object is not iterable")
  end.
(** A step of a path *)
Inductive access_step := F (key : string) | I (n : nat).
Fixpoint follow_path (path : list access_step) (v : pyval) : reading pyval :=
  match path with
  | [] => inr v
  | F k :: path => x ← field_at k v; follow_path path x
  | I n :: path => x ← item_at n v; follow_path path x
  end.
Definition shown_at (path : list access_step) (v : pyval) : reading string := x ← follow_path path v; mret (value_text x).

Definition degree : string := str [ascii_of_nat 176].
Definition newline_text : string := str [newline].

Definition current_text (data : pyval) : reading string :=
  current ← follow_path [F "current_condition"; I 0] data;
  area ← follow_path [F "nearest_area"; I 0] data;
  city ← follow_path [F "areaName"; I 0; F "value"] area;
  country ← follow_path [F "country"; I 0; F "value"] area;
  condition ← shown_at [F "weatherDesc"; I 0; F "value"] current;
  temperature ← shown_at [F "temp_C"] current;
  feels ← shown_at [F "FeelsLikeC"] current;
  humidity ← shown_at [F "humidity"] current;
  wind ← shown_at [F "windspeedKmph"] current;
  direction ← shown_at [F "winddir16Point"] current;
  visibility ← shown_at [F "visibility"] current;
  pressure ← shown_at [F "pressure"] current;
  mret (join newline_text
    ["Weather for " +:+ value_text city +:+ ", " +:+ value_text country;
     "  Condition:   " +:+ condition;
     "  Temperature: " +:+ temperature +:+ degree +:+ "C (feels like " +:+ feels +:+ degree +:+ "C)";
     "  Humidity:    " +:+ humidity +:+ "%";
     "  Wind:        " +:+ wind +:+ " km/h " +:+ direction;
     "  Visibility:  " +:+ visibility +:+ " km";
     "  Pressure:    " +:+ pressure +:+ " hPa"]).

Definition forecast_line (day : pyval) : reading string :=
  desc ← follow_path [F "hourly"; I 4; F "weatherDesc"; I 0; F "value"] day;
  rain ← follow_path [F "hourly"; I 4; F "chanceofrain"] day;
  date ← shown_at [F "date"] day;
  low ← shown_at [F "mintempC"] day;
  high ← shown_at [F "maxtempC"] day;
  mret ("  " +:+ date +:+ ": " +:+ value_text desc +:+ ", " +:+ low +:+ degree +:+ "C - " +:+ high +:+ degree +:+ "C, rain " +:+ value_text rain +:+ "%").
Fixpoint forecast_lines (days : list pyval) : reading (list string) :=
  match days with
  | [] => mret []
  | day :: days => l ← forecast_line day; ls ← forecast_lines days; mret (l :: ls)
  end.
Definition forecast_text (data : pyval) : reading string :=
  area ← follow_path [F "nearest_area"; I 0] data;
  city ← follow_path [F "areaName"; I 0; F "value"] area;
  country ← follow_path [F "country"; I 0; F "value"] area;
  weather ← follow_path [F "weather"] data;
  days ← each_of weather;
  lines ← forecast_lines days;
  mret (join newline_text (("3-day forecast for " +:+ value_text city +:+ ", " +:+ value_text country +:+ newline_text) :: lines)).

(** *** The commands *)

Section Commands.
(** [urlopen] of a URL with [json.loads] of its answer: the text of the
    exception, or the value *)
Context {W : Type} (_fetch_weather_data : string → W → (string + pyval) * W).

Definition weather_answer (failed : string) (read : pyval → reading string) (location : string) : W → string * W := λ w,
  let '(r, w) := _fetch_weather_data (weather_url location) w in
  (match match r with inl e => inl e | inr data => read data end with inl e => failed +:+ e | inr t => t end, w).
Definition _format_current : string → W → string * W := weather_answer "Failed to fetch weather data: " current_text.
Definition _format_forecast : string → W → string * W := weather_answer "Failed to fetch forecast data: " forecast_text.

(** The processors of [weather], [weather current] and [weather forecast] *)
Inductive weather_processor := CliWeather | WeatherCurrent | WeatherForecast.
Definition weather_names : list (string * weather_processor) := [("current", WeatherCurrent); ("forecast", WeatherForecast)].
Definition handle_weather (p : weather_processor) (c : CliProcessCommand) : W → string * W :=
  match p with WeatherForecast => _format_forecast (_get_location c) | _ => _format_current (_get_location c) end.
End Commands.

(** *** The location cannot change the request *)

Definition url_char (b : Z) : Prop := quote_safe b = true ∨ b = 37.

Lemma upper_hex_safe n : 0 ≤ n < 16 → quote_safe (upper_hex n) = true.
Proof.
  intros Hn. unfold quote_safe, upper_hex. apply orb_true_intro. left.
  destruct (Z.ltb_spec n 10); [apply orb_true_intro; left; apply orb_true_intro; left|apply orb_true_intro; left; apply orb_true_intro; right];
    apply in_range_iff; lia.
Qed.

Lemma byte_list_range s : Forall (λ b, 0 ≤ b < 256) (byte_list s).
Proof.
  unfold byte_list. apply Forall_forall. intros b (c & -> & _)%list_elem_of_fmap. pose proof (N_ascii_bounded c). lia.
Qed.

Lemma quoted_chars l : Forall (λ b, 0 ≤ b < 256) l → Forall url_char (concat (map quote_byte l)).
Proof.
  induction 1 as [|b l Hb _ IH]; simpl; [done|]. apply Forall_app. split; [|done]. unfold quote_byte.
  destruct (quote_safe b) eqn:Hs; [apply Forall_singleton; by left|].
  assert (0 ≤ b / 16 < 16) by (split; [apply Z.div_pos; lia|apply Z.div_lt_upper_bound; lia]).
  pose proof (Z.mod_pos_bound b 16 ltac:(lia)).
  apply Forall_cons. split; [by right|]. apply Forall_cons. split; [left; by apply upper_hex_safe|].
  apply Forall_singleton. left. by apply upper_hex_safe.
Qed.

(** [unquote]: the bytes of a quoted text *)
Definition hex_value (b : Z) : Z := if b <? 58 then b - 48 else b - 55.
Fixpoint unquote (l : list Z) : list Z :=
  match l with
  | 37 :: a :: b :: l => (hex_value a * 16 + hex_value b) :: unquote l
  | b :: l => b :: unquote l
  | [] => []
  end.

Lemma hex_value_upper n : 0 ≤ n < 16 → hex_value (upper_hex n) = n.
Proof. intros Hn. unfold hex_value, upper_hex. destruct (Z.ltb_spec n 10); [destruct (Z.ltb_spec (48 + n) 58)|destruct (Z.ltb_spec (55 + n) 58)]; lia. Qed.

Lemma unquote_quoted l : Forall (λ b, 0 ≤ b < 256) l → unquote (concat (map quote_byte l)) = l.
Proof.
  induction 1 as [|b l Hb _ IH]; [done|]. cbn [map concat]. unfold quote_byte at 1. destruct (quote_safe b) eqn:Hs.
  - cbn [app]. destruct (decide (b = 37)) as [->|Hne]; [done|].
    transitivity (b :: unquote (concat (map quote_byte l))); [|by rewrite IH].
    cbn [unquote]. destruct b as [|p|p]; try done. repeat (destruct p as [p|p|]; try done).
  - cbn [app unquote]. rewrite IH. f_equal.
    assert (0 ≤ b / 16 < 16) by (split; [apply Z.div_pos; lia|apply Z.div_lt_upper_bound; lia]).
    pose proof (Z.mod_pos_bound b 16 ltac:(lia)). rewrite !hex_value_upper by lia. pose proof (Z.div_mod b 16 ltac:(lia)). lia.
Qed.

Lemma byte_list_text l : Forall (λ b, 0 ≤ b < 256) l → byte_list (bytes_text l) = l.
Proof.
  intros Hl. unfold byte_list, bytes_text. rewrite chars_str, map_map. transitivity (map id l); [|apply map_id].
  apply map_ext_Forall. eapply Forall_impl; [exact Hl|]. intros b [Hb0 Hb1]. simpl. rewrite N_ascii_embedding by lia. apply Z2N.id. lia.
Qed.

(** Whatever location is asked for, the request goes to the weather service with
    the parameter of the program: the location adds characters that end neither
    the path nor a line, and it can be read back, so different locations are
    different requests. *)
Theorem location_is_confined location :
  ∃ q, weather_url location = "https://wttr.in/" +:+ q +:+ "?format=j1" ∧ Forall url_char (byte_list q) ∧
       unquote (byte_list q) = byte_list (utf8 location).
Proof.
  exists (url_quote location). pose proof (byte_list_range (utf8 location)) as Hr. pose proof (quoted_chars _ Hr) as Hq.
  assert (Hb : byte_list (url_quote location) = concat (map quote_byte (byte_list (utf8 location)))).
  { apply byte_list_text. eapply Forall_impl; [exact Hq|]. intros b [Hs| ->]; [|lia]. unfold quote_safe in Hs.
    repeat (apply orb_prop in Hs as [Hs|Hs]); try (apply in_range_iff in Hs; lia). apply bool_decide_eq_true in Hs.
    repeat (apply elem_of_cons in Hs as [->|Hs]; [lia|]). by apply not_elem_of_nil in Hs. }
  rewrite Hb. split_and!; [done..|by apply unquote_quoted].
Qed.

(** Every weather command makes one request and answers, whatever comes back. *)
Theorem weather_answers {W} (fetch : string → W → (string + pyval) * W) p c w :
  (handle_weather fetch p c w).2 = (fetch (weather_url (_get_location c)) w).2 ∧
  ∀ e, (fetch (weather_url (_get_location c)) w).1 = inl e →
    ∃ what, (handle_weather fetch p c w).1 = "Failed to fetch " +:+ what +:+ " data: " +:+ e.
Proof.
  assert (H : ∀ failed read, (weather_answer fetch failed read (_get_location c) w).2 = (fetch (weather_url (_get_location c)) w).2 ∧
    ∀ e, (fetch (weather_url (_get_location c)) w).1 = inl e → (weather_answer fetch failed read (_get_location c) w).1 = failed +:+ e).
  { intros failed read. unfold weather_answer. destruct (fetch _ w) as [r w']. split; [done|]. simpl. by intros e ->. }
  destruct p; [destruct (H "Failed to fetch weather data: " current_text) as [H1 H2]|
               destruct (H "Failed to fetch weather data: " current_text) as [H1 H2]|
               destruct (H "Failed to fetch forecast data: " forecast_text) as [H1 H2]];
    (split; [exact H1|]); intros e He; [exists "weather"|exists "weather"|exists "forecast"]; exact (H2 e He).
Qed.

Definition of_value (v : pyval) : pyval := VList [VDict [("value", v)]].
Definition example_weather : pyval :=
  VDict [("nearest_area", VList [VDict [("areaName", of_value (VStr "Cluj")); ("country", of_value (VStr "Romania"))]]);
         ("weather", VList [VDict [("date", VStr "2024-05-01"); ("mintempC", VStr "7"); ("maxtempC", VStr "19");
            ("hourly", VList (repeat (VDict [("weatherDesc", of_value (VStr "Sunny")); ("chanceofrain", VStr "5")]) 8))]])].
Example weather_ex :
  weather_url "Cluj Napoca?x=1/#a" = "https://wttr.in/Cluj%20Napoca%3Fx%3D1/%23a?format=j1" ∧
  forecast_text example_weather =
    inr ("3-day forecast for Cluj, Romania" +:+ newline_text +:+ newline_text +:+
         "  2024-05-01: Sunny, 7" +:+ degree +:+ "C - 19" +:+ degree +:+ "C, rain 5%") ∧
  current_text example_weather = inl "'current_condition'" ∧ current_text (VList []) = inl "list indices must be integers or slices, not str".
Proof. vm_compute. split_and!; reflexivity. Qed.
End Weather.
