(* ===== verification/AdminBuilder.v ===== *)
(** * Putting the admin plugin together ([admin/cli_admin_builder.py], [dashboard_resolver.py], [spa_static_files.py], [controllers/status_controller.py])

    The builder with its setters, what [build] makes of it, mounting with the
    sampler inside the application's lifespan, where the dashboard is looked for
    and how its files are answered, the current status, and the log handler of
    the ring.  The file system and the static files of Starlette are parameters. *)

From S2P Require Import Prelude PyStr Values Origins AdminAuth StatusHistory FilesApi Server.
From Stdlib Require Import Ascii QArith.QArith.

Open Scope Z_scope.

(** ** Where the dashboard is *)

Section Resolver.
(** [os.path.isdir], [os.path.abspath], [os.getcwd()], the directory of the module *)
Context (isdir : string → bool) (abspath : string → string) (cwd this_dir : string).

Definition join_all (p : string) (names : list string) : string := foldl path_join p names.
Definition package_dir (current : string) : string :=
  join_all current ["node_modules"; "@qodalis"; "cli-server-dashboard"; "dist"].

(** The loop over [cwd] and the directories above it *)
Fixpoint find_up (fuel : nat) (current : string) : option string :=
  match fuel with
  | O => None
  | S fuel =>
      if bool_decide (dirname current = current) then None
      else if isdir (package_dir current) then Some (abspath (package_dir current))
      else find_up fuel (dirname current)
  end.

Definition dev_paths : list string :=
  [join_all this_dir [".."; ".."; ".."; ".."; "cli-server-dashboard"; "dist"]; join_all cwd [".."; "cli-server-dashboard"; "dist"]].

Definition resolve_dashboard_dir (explicit_path : option string) : option string :=
  if truthy_opt explicit_path && isdir (or_empty explicit_path) then Some (abspath (or_empty explicit_path))
  else if isdir (path_join this_dir "dashboard") then Some (path_join this_dir "dashboard")
  else
    match find_up (S (len cwd)) cwd with
    | Some d => Some d
    | None => abspath <$> List.find isdir dev_paths
    end.
End Resolver.

(** ** Its files *)

Section Spa.
(** The answers of [StaticFiles]; its [get_response] gives one or the code of an
    [HTTPException] *)
Context {R : Type} (super_get_response : string → Z + R) (isfile : string → bool).

Definition THEME_PATH : string := "theme.json".
Record SPAStaticFiles := { directory : string; theme_json : option string }.
Inductive spa_response := StaticFile (r : R) | ThemeFile (body : string) | IndexFile (path : string).

(** [path]: as Starlette normalized it; [inl] is an [HTTPException]. *)
Definition get_response (app : SPAStaticFiles) (path : string) : Z + spa_response :=
  match theme_json app, bool_decide (path = THEME_PATH) with
  | Some body, true => inr (ThemeFile body)
  | _, _ =>
      match super_get_response path with
      | inr r => inr (StaticFile r)
      | inl code =>
          if negb (code =? 404) then inl code
          else
            let index := path_join (directory app) "index.html" in
            if isfile index then inr (IndexFile index) else inl code
      end
  end.
End Spa.
Arguments StaticFile {R}.
Arguments ThemeFile {R}.
Arguments IndexFile {R}.

(** ** The log handler of the ring *)

(** Whether [_handler] is set, and the loggers it is attached to *)
Record RingHandler := { handler_set : bool; attached : list string }.
Definition install_handler (logger_name : string) (h : RingHandler) : RingHandler :=
  if handler_set h then h else {| handler_set := true; attached := attached h ++ [logger_name] |}.
Definition uninstall_handler (logger_name : string) (h : RingHandler) : RingHandler :=
  if handler_set h then {| handler_set := false; attached := List.filter (λ n, negb (bool_decide (n = logger_name))) (attached h) |} else h.

(** ** The sampler in the lifespan of the application *)

Section Lifespan.
(** The rest of the world, and the application's lifespan before and after its
    [yield] *)
Context {W E A : Type} (enter exit : py W E unit).

Definition running (h : StatusHistory.StatusHistory) : bool := _task h.
Definition on_history (f : StatusHistory.StatusHistory → StatusHistory.StatusHistory) : py (StatusHistory.StatusHistory * W) E unit :=
  λ s, (inr tt, (f s.1, s.2)).
Definition on_world {B} (m : py W E B) : py (StatusHistory.StatusHistory * W) E B := λ s, let '(r, w) := m s.2 in (r, (s.1, w)).

(** [wrap_lifespan(lifespan)] around what runs meanwhile; a lifespan that
    swallows exceptions is not covered. *)
Definition wrap_lifespan (app : py (StatusHistory.StatusHistory * W) E A) : py (StatusHistory.StatusHistory * W) E A :=
  _ ← on_world enter;
  try_finally (_ ← on_history start; try_finally app (on_history stop)) (on_world exit).
End Lifespan.

(** ** The current status *)

(** [memory_usage_mb], from the bytes of the resident set *)
Definition memory_usage_mb (rss : Z) : Q := round2 (inject_Z rss / inject_Z (1024 * 1024))%Q.

Record Status := {
  uptimeSeconds : Q;
  memoryUsageMb : Q;
  startedAt : Q;
  platformVersion : string;
  os : string;
  activeWsConnections : nat;
  activeShellSessions : nat;
  registeredCommands : nat;
  registeredJobs : nat;
  enabledFeatures : list string;
}.
(** Times in seconds; [registry]: the number of its processors *)
Definition get_status (start_time now : Q) (rss : Z) (python_version system release : string) (clients : list (dict string pyval))
    (registry : option nat) (enabled : list string) (installed : list CliInstalledPlugin) : Status :=
  {| uptimeSeconds := now - start_time; memoryUsageMb := memory_usage_mb rss; startedAt := start_time;
     platformVersion := python_version; os := system +:+ " " +:+ release; activeWsConnections := length clients;
     activeShellSessions := 0; registeredCommands := default 0%nat registry; registeredJobs := 0;
     enabledFeatures := _features enabled (map ip_id installed) |}.

(** ** The builder *)

Record CliAdminBuilder {U : Type} := {
  _username : string;
  _password : string;
  _jwt_secret : string;
  _dashboard_path : option string;
  _trust_proxy : bool + Z;
  _users_plugin : option U;
  _theme : AdminTheme;
  _branding : option (dict string pyval);
  _sign_in_url : option string;
}.
Arguments CliAdminBuilder : clear implicits.

Inductive setter {U : Type} :=
| SetCredentials (username password : string)
| SetJwtSecret (secret : string)
| SetDashboardPath (path : string)
| SetTrustProxy (trust : bool + Z)
| SetTheme (theme : pyval)
| SetBranding (branding : dict string pyval)
| SetSignInUrl (url : option string)
| SetUsersPlugin (plugin : option U).
Arguments setter : clear implicits.

(** What the builder reads of the server's builder *)
Record ServerBuilder := {
  file_storage_provider : bool;      (* is there one *)
  filesystem_options : bool;
  module_classes : list string;      (* the names of the classes of the modules *)
  installed_plugins : list CliInstalledPlugin;
}.
(** [server_options]: their [external_authentication] *)
Record AdminBuildDeps {U : Type} := {
  deps_builder : ServerBuilder;
  enabled_features : option (list string);
  users_plugin : option U;
  server_options : option bool;
}.
Arguments AdminBuildDeps : clear implicits.

(** The plugin has an [allow_anonymous].  Who checks the callers of the guarded routes: the users plugin, or tokens
    signed with the secret *)
Inductive auth_dependency {U : Type} := UsersAuth (plugin : U) | TokenAuth (secret : string).
Arguments auth_dependency : clear implicits.

Record CliAdminPlugin {U : Type} := {
  plugin_config : AdminConfig;
  plugin_auth : auth_dependency U;
  warned : bool;
  plugin_trust_proxy : bool + Z;
  plugin_features : list string;
  allowed_anonymously : list (U * string * list string);
  dashboard_app : option SPAStaticFiles;
  _server_options : option bool;
  sampling : bool;
}.
Arguments CliAdminPlugin : clear implicits.

Definition API_PREFIX : string := "/api/v1/qcli".
Definition DASHBOARD_PREFIX : string := "/qcli/admin".
(** The routes with whether a caller has to pass [plugin_auth], in the order in
    which they are included *)
Definition admin_routes : list (string * string * bool) :=
  [("GET", "/auth/mode", false); ("POST", "/auth/login", false); ("GET", "/auth/me", true); ("GET", "/status", true);
   ("GET", "/status/history", true); ("GET", "/plugins/installed", true); ("GET", "/plugins", true);
   ("POST", "/plugins/{plugin_id}/toggle", true); ("GET", "/config", true); ("PUT", "/config", true); ("GET", "/logs", true);
   ("GET", "/logs/histogram", true); ("GET", "/ws/clients", true)].

Section Builder.
Context `{L : UrlLib} {U : Type}.
(** [repr], the message of an invalid URL, [json.dumps] with compact separators *)
Context (repr : pyval → string) (url_error : string → string) (dumps : pyval → string).

Definition new_admin_builder : CliAdminBuilder U :=
  {| _username := ""; _password := ""; _jwt_secret := ""; _dashboard_path := None; _trust_proxy := inl false; _users_plugin := None;
     _theme := {| theme_mode := "dark"; theme_dark := []; theme_light := [] |}; _branding := None; _sign_in_url := None |}.

(** A setter; [inl] is the message of [ValueError]. *)
Definition set_with (x : setter U) (b : CliAdminBuilder U) : string + CliAdminBuilder U :=
  let make user pass secret path trust plugin theme branding url :=
    {| _username := user; _password := pass; _jwt_secret := secret; _dashboard_path := path; _trust_proxy := trust;
       _users_plugin := plugin; _theme := theme; _branding := branding; _sign_in_url := url |} in
  let u := _username b in let p := _password b in let s := _jwt_secret b in let d := _dashboard_path b in let t := _trust_proxy b in
  let pl := _users_plugin b in let th := _theme b in let br := _branding b in let url := _sign_in_url b in
  match x with
  | SetCredentials u p => inr (make u p s d t pl th br url)
  | SetJwtSecret s => inr (make u p s d t pl th br url)
  | SetDashboardPath d => inr (make u p s (Some d) t pl th br url)
  | SetTrustProxy t => inr (make u p s d t pl th br url)
  | SetTheme v =>
      match validate_admin_theme repr (Some v) with inl e => inl e | inr th => inr (make u p s d t pl th br url) end
  | SetBranding v =>
      match validate_admin_branding url_error v with inl e => inl e | inr br => inr (make u p s d t pl th br url) end
  | SetSignInUrl url => inr (make u p s d t pl th br url)
  | SetUsersPlugin pl => inr (make u p s d t pl th br url)
  end.

Definition colors_value (d : dict string string) : pyval := VDict (map (λ kv, (kv.1, VStr kv.2)) d).
Definition theme_value (t : AdminTheme) : dict string pyval :=
  [("mode", VStr (theme_mode t)); ("dark", colors_value (theme_dark t)); ("light", colors_value (theme_light t))].
Definition _theme_json (b : CliAdminBuilder U) : string :=
  dumps (VDict (match _branding b with
                | Some ((_ :: _) as br) => dict_set "branding" (VDict br) (theme_value (_theme b))
                | _ => theme_value (_theme b)
                end)).

(** [enabled_features] in [build] *)
Definition built_features (deps : AdminBuildDeps U) : list string :=
  let b := deps_builder deps in
  let features := default [] (enabled_features deps) in
  let features := if negb (bool_decide ("filesystem" ∈ features)) && (file_storage_provider b || filesystem_options b)
                  then features ++ ["filesystem"] else features in
  if negb (bool_decide ("jobs" ∈ features)) && existsb (λ m, contains "job" (lower m)) (module_classes b)
  then features ++ ["jobs"] else features.

Context (environ : string → option string) (random : string) (isdir : string → bool) (abspath : string → string) (cwd this_dir : string).

(** [CliAdminBuilder.build]; [random]: the secret that is made when none is set *)
Definition build_admin (b : CliAdminBuilder U) (deps : AdminBuildDeps U) : string + CliAdminPlugin U :=
  let plugin := match _users_plugin b with Some p => Some p | None => users_plugin deps end in
  let config := new_config environ (_username b) (_password b) (_jwt_secret b) (_sign_in_url b) in
  match AdminAuth.validate config with
  | Some e => inl e
  | None =>
      inr {| plugin_config := config;
             plugin_auth := match plugin with Some p => UsersAuth p | None => TokenAuth (jwt_service_secret environ (AdminAuth.jwt_secret config) random) end;
             warned := match plugin with Some _ => false | None => bool_decide (username config = "admin") && bool_decide (AdminAuth.password config = "admin") end;
             plugin_trust_proxy := _trust_proxy b;
             plugin_features := built_features deps;
             allowed_anonymously := match plugin with Some p => [(p, "/api/v1/qcli/auth/login", ["POST"])] | None => [] end;
             dashboard_app := (λ d, {| directory := d; theme_json := Some (_theme_json b) |}) <$>
                              resolve_dashboard_dir isdir abspath cwd this_dir (_dashboard_path b);
             _server_options := server_options deps;
             sampling := false |}
  end.

(** [is_external()] *)
Definition is_external (p : CliAdminPlugin U) : bool := default false (_server_options p).

(** [on_mount]: the server's [options] and whether its application has a router *)
Definition on_mount (options : option bool) (has_router : bool) (p : CliAdminPlugin U) : CliAdminPlugin U :=
  {| plugin_config := plugin_config p; plugin_auth := plugin_auth p; warned := warned p;
     plugin_trust_proxy := plugin_trust_proxy p; plugin_features := plugin_features p; allowed_anonymously := allowed_anonymously p;
     dashboard_app := dashboard_app p;
     _server_options := match _server_options p with Some o => Some o | None => options end;
     sampling := sampling p || has_router |}.
(** Whether it wraps the lifespan of that application *)
Definition wraps (has_router : bool) (p : CliAdminPlugin U) : bool := has_router && negb (sampling p).
End Builder.

(** ** The search for the dashboard *)

Lemma rstrip_prefix (p : ascii → bool) l : rstrip_chars p l `prefix_of` l.
Proof.
  unfold rstrip_chars. destruct (lstrip_chars_suffix p (rev l)) as [k [Hl _]]. exists (rev k).
  rewrite <- rev_app_distr, <- Hl. by rewrite rev_involutive.
Qed.

Lemma dirname_shorter p : dirname p ≠ p → (len (dirname p) < len p)%nat.
Proof.
  intros Hne. assert (Hp : chars (dirname p) `prefix_of` chars p).
  { unfold dirname. cbv zeta. destruct (forallb _ _); rewrite chars_str; [|etransitivity; [apply rstrip_prefix|]]; apply prefix_take. }
  destruct Hp as [k Hk]. assert (Hl : len p = (len (dirname p) + length k)%nat) by (rewrite !len_chars, Hk; apply length_app). rewrite Hl. destruct k as [|c k]; [|simpl; lia].
  exfalso. apply Hne. rewrite app_nil_r in Hk. apply (f_equal str) in Hk. by rewrite !str_chars in Hk.
Qed.

(** The directory [n] levels above *)
Definition above (n : nat) (p : string) : string := Nat.iter n dirname p.
Lemma above_S n p : above (S n) p = above n (dirname p).
Proof. unfold above. induction n as [|n IH]; [done|]. simpl in *. by rewrite IH. Qed.

(** The loop ends within its fuel, at the nearest directory that has the package,
    and without one at the root. *)
Theorem find_up_nearest isdir abspath cwd :
  match find_up isdir abspath (S (len cwd)) cwd with
  | Some d =>
      ∃ n, d = abspath (package_dir (above n cwd)) ∧ isdir (package_dir (above n cwd)) = true ∧
           ∀ m, (m < n)%nat → isdir (package_dir (above m cwd)) = false
  | None => ∃ n, dirname (above n cwd) = above n cwd ∧ ∀ m, (m < n)%nat → isdir (package_dir (above m cwd)) = false
  end.
Proof.
  assert (Hlt : (len cwd < S (len cwd))%nat) by lia. revert Hlt. generalize (S (len cwd)) as fuel. intros fuel. revert cwd.
  induction fuel as [|fuel IH]; intros cwd Hlt; [lia|]. cbn [find_up].
  case_bool_decide as Hroot; [exists 0%nat; split; [done|lia]|].
  destruct (isdir (package_dir cwd)) eqn:Hd; [exists 0%nat; split_and!; [done..|lia]|].
  specialize (IH (dirname cwd) ltac:(pose proof (dirname_shorter cwd Hroot); lia)).
  assert (Hm : ∀ n, (∀ m, (m < n)%nat → isdir (package_dir (above m (dirname cwd))) = false) →
               ∀ m, (m < S n)%nat → isdir (package_dir (above m cwd)) = false).
  { intros n H [|m] ?; [done|]. rewrite above_S. apply H. lia. }
  destruct (find_up isdir abspath fuel (dirname cwd)) as [d|].
  - destruct IH as (n & -> & Hn & Hb). exists (S n). rewrite above_S. split_and!; [done..|by apply Hm].
  - destruct IH as (n & Hn & Hb). exists (S n). rewrite above_S. split; [done|by apply Hm].
Qed.

(** What is found is a directory, and an explicit path that is one comes first. *)
Theorem dashboard_is_directory isdir abspath cwd this_dir explicit d :
  resolve_dashboard_dir isdir abspath cwd this_dir explicit = Some d →
  (∃ p, isdir p = true ∧ (d = p ∨ d = abspath p)) ∧
  (∀ p, explicit = Some p → p ≠ "" → isdir p = true → d = abspath p).
Proof.
  unfold resolve_dashboard_dir. intros H. destruct (truthy_opt explicit && isdir (or_empty explicit)) eqn:He.
  { injection H as <-. apply andb_prop in He as [_ He]. split; [by exists (or_empty explicit); auto|]. by intros p -> _ _. }
  split.
  - destruct (isdir (path_join this_dir "dashboard")) eqn:Hb; [injection H as <-; by eexists; split; [|left]|].
    pose proof (find_up_nearest isdir abspath cwd) as Hf. destruct (find_up isdir abspath (S (len cwd)) cwd) as [x|].
    + injection H as <-. destruct Hf as (n & -> & Hn & _). eexists. split; [exact Hn|by right].
    + destruct (List.find isdir _) as [x|] eqn:Hx; [|done]. injection H as <-. apply find_some in Hx as [_ Hx]. by exists x; auto.
  - intros p -> Hne Hd. simpl in He. rewrite Hd in He. destruct p; [done|]. by simpl in He.
Qed.

(** ** The files of the dashboard *)

(** Where there is an [index.html], no path of the dashboard is answered not
    found, other errors stay errors, and the theme is at its own path only. *)
Theorem spa_never_missing {R} (super : string → Z + R) isfile app path :
  isfile (path_join (directory app) "index.html") = true →
  match get_response super isfile app path with
  | inl code => code ≠ 404 ∧ super path = inl code
  | inr (ThemeFile body) => path = THEME_PATH ∧ theme_json app = Some body
  | inr (StaticFile r) => super path = inr r
  | inr (IndexFile index) => super path = inl 404 ∧ index = path_join (directory app) "index.html"
  end.
Proof.
  intros Hi. assert (Hs : match match super path with
      | inr r => inr (StaticFile r)
      | inl code => if negb (code =? 404) then inl code
                    else if isfile (path_join (directory app) "index.html") then inr (IndexFile (path_join (directory app) "index.html")) else inl code
      end with
    | inl code => code ≠ 404 ∧ super path = inl code
    | inr (ThemeFile body) => path = THEME_PATH ∧ theme_json app = Some body
    | inr (StaticFile r) => super path = inr r
    | inr (IndexFile index) => super path = inl 404 ∧ index = path_join (directory app) "index.html"
    end).
  { destruct (super path) as [code|r]; [|done]. rewrite Hi. destruct (Z.eqb_spec code 404) as [->|Hc]; simpl; done. }
  unfold get_response. cbv zeta. destruct (theme_json app) as [body|] eqn:Ht; [|exact Hs].
  case_bool_decide as Hp; [done|exact Hs].
Qed.

(** ** The sampler runs exactly while the application does *)

Theorem sampler_with_lifespan {W E A} (enter exit : py W E unit) (app : py (StatusHistory.StatusHistory * W) E A) h w :
  let '(r, (h', _)) := wrap_lifespan enter exit app (h, w) in
  match enter w with
  | (inl e, _) => r = inl e ∧ h' = h
  | (inr _, w') =>
      running h' = false ∧
      ((exit (app (start h, w')).2.2).1 = inr tt → r = (app (start h, w')).1 ∧ running (start h) = true)
  end.
Proof.
  unfold wrap_lifespan. rewrite py_bind_eq. unfold on_world at 1. simpl. destruct (enter w) as [[e|[]] w']; [done|].
  unfold try_finally. rewrite py_bind_eq. simpl. destruct (app (start h, w')) as [r [h1 w1]]. simpl.
  unfold on_world. simpl. destruct (exit w1) as [[e|[]] w2]; simpl; done.
Qed.

(** Attaching the handler twice attaches it once, and taking it off again leaves
    the loggers as they were. *)
Lemma ring_handler_once n h :
  install_handler n (install_handler n h) = install_handler n h ∧
  (handler_set h = false → n ∉ attached h → uninstall_handler n (install_handler n h) = h).
Proof.
  unfold install_handler, uninstall_handler. split; [by destruct (handler_set h) eqn:E; rewrite ?E|].
  intros Hs Hn. rewrite Hs. simpl. destruct h as [set l]. simpl in *. subst set. f_equal. rewrite List.filter_app. simpl.
  rewrite bool_decide_true by done. simpl. rewrite app_nil_r. apply List.forallb_filter_id, forallb_forall. intros x Hx.
  apply negb_true_iff, bool_decide_eq_false. intros ->. by apply Hn, list_elem_of_In.
Qed.

(** ** The builder *)

Section BuilderProofs.
Context `{L : UrlLib} {U : Type} (repr : pyval → string) (url_error : string → string) (dumps : pyval → string).
Abbreviation set_one := (set_with (U := U) repr url_error).

(** A chain of setters, which ends at the first that raises *)
Fixpoint set_all (xs : list (setter U)) (b : CliAdminBuilder U) : string + CliAdminBuilder U :=
  match xs with [] => inr b | x :: xs => match set_one x b with inl e => inl e | inr b => set_all xs b end end.

(** The branding that passes its validation *)
Definition valid_branding (br : option (dict string pyval)) : Prop :=
  br = None ∨ ∃ given, validate_admin_branding url_error given = inr br.

(** Whatever was set: the theme of the dashboard has a known mode and plain colors
    only, and its branding passed its validation. *)
Theorem appearance_is_validated xs b :
  set_all xs new_admin_builder = inr b →
  theme_mode (_theme b) ∈ ADMIN_THEME_MODES ∧ plain_scheme (theme_dark (_theme b)) ∧ plain_scheme (theme_light (_theme b)) ∧
  valid_branding (_branding b).
Proof.
  set (P := λ b : CliAdminBuilder U, theme_mode (_theme b) ∈ ADMIN_THEME_MODES ∧ plain_scheme (theme_dark (_theme b)) ∧
    plain_scheme (theme_light (_theme b)) ∧ valid_branding (_branding b)).
  assert (HP : P new_admin_builder).
  { assert (Hnil : plain_scheme []) by (split; [apply dict_ok_nil|set_solver]). split_and!; [set_solver|done..|by left]. }
  revert HP. generalize (new_admin_builder (U := U)) as b0. induction xs as [|x xs IH]; intros b0 HP; simpl; [by intros [= <-]|].
  destruct (set_one x b0) as [e|b1] eqn:Hx; [done|]. apply IH. clear IH. destruct HP as (H1 & H2 & H3 & H4).
  destruct x; cbn in Hx; try (injection Hx as <-; done).
  - destruct (validate_admin_theme repr (Some theme)) as [|th] eqn:Ht; [done|]. injection Hx as <-.
    destruct (theme_colors_plain repr _ th Ht) as (? & ? & ?). by split_and!.
  - destruct (validate_admin_branding url_error branding) as [|br] eqn:Hbr; [done|]. injection Hx as <-.
    split_and!; [done..|]. right. by exists branding.
Qed.

Lemma jwt_secret_nonempty environ secret random : random ≠ "" → jwt_service_secret environ secret random ≠ "".
Proof.
  intros Hr. assert (Ht : ∀ x, truthy x = true → x ≠ "") by (intros x Hx ->; done). unfold jwt_service_secret. cbv zeta.
  destruct (truthy secret) eqn:H1; [by apply Ht|]. destruct (truthy (or_empty _)) eqn:H2; [by apply Ht|done].
Qed.

Context (environ : string → option string) (random : string) (isdir : string → bool) (abspath : string → string) (cwd this_dir : string).
Abbreviation built := (build_admin (U := U) dumps environ random isdir abspath cwd this_dir).

(** [build] raises exactly for a sign-in URL that is not valid.  With a users
    plugin, the builder's before that of the dependencies, no static credentials
    let anybody in: its routes are guarded by that plugin, whose protection lets
    the login through; without one, by tokens of the secret, which is never
    empty. *)
Theorem build_guards b deps :
  random ≠ "" →
  match built b deps with
  | inl _ => ∃ url, _sign_in_url b = Some url ∧ is_valid_sign_in_url url = false
  | inr p =>
      (∀ url, _sign_in_url b = Some url → is_valid_sign_in_url url = true) ∧
      match match _users_plugin b with Some u => Some u | None => users_plugin deps end with
      | Some u => plugin_auth p = UsersAuth u ∧ warned p = false ∧ allowed_anonymously p = [(u, API_PREFIX +:+ "/auth/login", ["POST"])]
      | None => allowed_anonymously p = [] ∧ ∃ secret, plugin_auth p = TokenAuth secret ∧ secret ≠ ""
      end
  end.
Proof.
  intros Hrandom. unfold build_admin. cbv zeta. unfold AdminAuth.validate. simpl.
  destruct (_sign_in_url b) as [url|]; [destruct (is_valid_sign_in_url url) eqn:Hu|]; cbn; [| |].
  2: by exists url.
  all: split; [by intros ? [= <-]|].
  all: destruct (match _users_plugin b with Some u => Some u | None => _ end); [done|]; split; [done|]; eexists; split; [reflexivity|].
  all: by apply jwt_secret_nonempty.
Qed.
End BuilderProofs.

(** ** Features and mounting *)

(** The features of the plugin are those enabled, then the file system when the
    server has a storage and the jobs when a module is named after them; a name
    is never there twice. *)
Theorem features_built {U} (deps : AdminBuildDeps U) f :
  let enabled := default [] (enabled_features deps) in
  (∃ more, built_features deps = enabled ++ more ∧ ∀ x, x ∈ more → x ∈ ["filesystem"; "jobs"]) ∧
  (f ∈ built_features deps ↔
    f ∈ enabled ∨
    (f = "filesystem" ∧ (file_storage_provider (deps_builder deps) || filesystem_options (deps_builder deps)) = true) ∨
    (f = "jobs" ∧ ∃ m, m ∈ module_classes (deps_builder deps) ∧ contains "job" (lower m) = true)) ∧
  (NoDup enabled → NoDup (built_features deps)).
Proof.
  intros enabled. unfold built_features. cbv zeta. fold enabled. set (storage := file_storage_provider _ || _).
  set (l1 := if negb (bool_decide ("filesystem" ∈ enabled)) && storage then enabled ++ ["filesystem"] else enabled).
  assert (H1 : (∃ more, l1 = enabled ++ more ∧ ∀ x, x ∈ more → x = "filesystem") ∧
    (∀ f, f ∈ l1 ↔ f ∈ enabled ∨ (f = "filesystem" ∧ storage = true)) ∧ (NoDup enabled → NoDup l1)).
  { subst l1. case_bool_decide as Hin; destruct storage; simpl;
      (split_and!; [first [by exists []; rewrite app_nil_r; split; [|set_solver] | by exists ["filesystem"]; split; [|set_solver]]|set_solver|]); try done.
    intros Hn. apply NoDup_app. split_and!; [done|set_solver|apply NoDup_singleton]. }
  destruct H1 as ((more1 & Hm1 & Hs1) & Hf1 & Hn1).
  assert (Hj : existsb (λ m, contains "job" (lower m)) (module_classes (deps_builder deps)) = true ↔
    ∃ m, m ∈ module_classes (deps_builder deps) ∧ contains "job" (lower m) = true).
  { rewrite existsb_exists. by setoid_rewrite list_elem_of_In. }
  destruct (existsb _ _) eqn:He; case_bool_decide as Hin; simpl.
  - split_and!; [exists more1; split; [done|set_solver]| |done]. rewrite Hf1. naive_solver.
  - split_and!; [exists (more1 ++ ["jobs"]); rewrite Hm1, app_assoc; split; [done|set_solver]| |].
    + rewrite elem_of_app, list_elem_of_singleton, Hf1. naive_solver.
    + intros Hn. apply NoDup_app. split_and!; [auto|set_solver|apply NoDup_singleton].
  - split_and!; [exists more1; split; [done|set_solver]| |done]. rewrite Hf1. naive_solver.
  - split_and!; [exists more1; split; [done|set_solver]| |done]. rewrite Hf1. naive_solver.
Qed.

(** However often the plugin is mounted, one lifespan has the sampler, and the
    sign-in mode follows the options it was built with, else those of the first
    server that has any. *)
Theorem mounted_once {U} (p : CliAdminPlugin U) options router options' router' :
  let q := on_mount options router p in
  (wraps router p = true → ∀ r, wraps r q = false) ∧
  sampling (on_mount options' router' q) = sampling p || router || router' ∧
  is_external q = match _server_options p with Some o => o | None => default false options end ∧
  (_server_options q ≠ None → is_external (on_mount options' router' q) = is_external q).
Proof.
  intros q. unfold wraps. split_and!.
  - intros [-> Hs]%andb_prop r. simpl. rewrite orb_true_r. apply andb_false_r.
  - done.
  - unfold is_external. simpl. by destruct (_server_options p).
  - unfold is_external. simpl. by destruct (match _server_options p with Some o => Some o | None => options end).
Qed.

(** ** At work *)

Module BuilderExample.
Definition dirs : list string := ["/srv/app/node_modules/@qodalis/cli-server-dashboard/dist"].
Definition is_dir (p : string) : bool := bool_decide (p ∈ dirs).
Example nearest_package :
  resolve_dashboard_dir is_dir id "/srv/app/api/v1" "/usr/lib/qodalis" (Some "/missing") = Some "/srv/app/node_modules/@qodalis/cli-server-dashboard/dist" ∧
  resolve_dashboard_dir (λ _, false) id "/srv/app" "/usr/lib/qodalis" None = None.
Proof. split; reflexivity. Qed.

Definition files (p : string) : Z + string := if bool_decide (p = "app.js") then inr "js" else inl 404.
Definition app : SPAStaticFiles := {| directory := "/dist"; theme_json := Some "{}" |}.
Example spa_paths :
  map (get_response files (λ p, bool_decide (p = "/dist/index.html")) app) ["app.js"; "theme.json"; "settings/users"] =
  [inr (StaticFile "js"); inr (ThemeFile "{}"); inr (IndexFile "/dist/index.html")].
Proof. reflexivity. Qed.

Definition deps : AdminBuildDeps unit :=
  {| deps_builder := {| file_storage_provider := true; filesystem_options := false; module_classes := ["WeatherModule"; "NightlyJobsModule"];
                        installed_plugins := [] |};
     enabled_features := Some ["shell"]; users_plugin := None; server_options := None |}.
Example features_ex : built_features deps = ["shell"; "filesystem"; "jobs"].
Proof. reflexivity. Qed.

(** Whatever shells are open and jobs registered, the status says there are none. *)
Example status_counts_nothing rss version system release clients registry enabled installed start now :
  let s := get_status start now rss version system release clients registry enabled installed in
  activeShellSessions s = 0%nat ∧ registeredJobs s = 0%nat.
Proof. done. Qed.
End BuilderExample.
