(* ===== verification/Aws.v ===== *)
(** * The AWS plugin ([qodalis_cli_aws])

    The settings of [aws configure], the clients that are made of them and kept,
    the helpers of outputs, every command below [aws], and the tree of the
    commands.  boto3 is the type class [Boto]; what Python and the host answer
    beyond it is [AwsHost].  Texts are Latin-1, and an answer of AWS is a
    dictionary whose dates are [VTime]. *)

From S2P Require Import Prelude PyStr Values PasswordHasher ShellProcs Redact ShellWords Commands Outputs.
From Stdlib Require Import Ascii.

Open Scope Z_scope.

(** ** boto3 *)

(** An exception: the name of its class and its text *)
Record aws_exn := { exn_class : string; exn_text : string }.
(** [boto3.client], a call of a client, the pages of a paginator, the URL of
    [generate_presigned_url] and the content of a payload, which is read once. *)
Class Boto (Sdk Client : Type) := {
  boto_client : string → dict string string → py Sdk aws_exn Client;
  boto_call : Client → string → dict string pyval → py Sdk aws_exn (dict string pyval);
  boto_pages : Client → string → dict string pyval → py Sdk aws_exn (list (dict string pyval));
  boto_presign : Client → string → dict string pyval → Z → py Sdk aws_exn string;
  boto_read : pyval → py Sdk aws_exn string;
}.
(** The environment, the two files below [~/.aws] ([None]: they cannot be read),
    [int] of a float by its text ([None]: [nan]), [str] of a datetime,
    [json.loads], and the texts of the errors of a value that has not the type an
    operation needs and of an output that is refused. *)
Class AwsHost := {
  environ : string → option string;
  credentials_file : option string;
  config_file : option string;
  float_int : string → option Z;
  str_time : Z → string;
  json_loads : string → option pyval;
  type_error : pyval → string;
  refused_output : pyval → string;
}.

(** ** Settings ([services/aws_config_service.py]) *)

Record AwsConfigService := {
  _access_key_id : option string;
  _secret_access_key : option string;
  _region : option string;
  _profile : option string;
}.
Definition new_config_service : AwsConfigService := {| _access_key_id := None; _secret_access_key := None; _region := None; _profile := None |}.
Definition set_credentials (access_key_id secret_access_key : string) (c : AwsConfigService) : AwsConfigService :=
  {| _access_key_id := Some access_key_id; _secret_access_key := Some secret_access_key; _region := _region c; _profile := _profile c |}.
Definition set_region (region : string) (c : AwsConfigService) : AwsConfigService :=
  {| _access_key_id := _access_key_id c; _secret_access_key := _secret_access_key c; _region := Some region; _profile := _profile c |}.
Definition set_profile (profile : string) (c : AwsConfigService) : AwsConfigService :=
  {| _access_key_id := _access_key_id c; _secret_access_key := _secret_access_key c; _region := _region c; _profile := Some profile |}.
Definition _mask_key (key : string) : string :=
  if (len key <=? 8)%nat then "****" else take_str 4 key +:+ "***" +:+ drop_str (len key - 5) key.
Definition get_config_summary (c : AwsConfigService) : dict string (option string) :=
  [("access_key_id", if truthy_opt (_access_key_id c) then Some (_mask_key (or_empty (_access_key_id c))) else None);
   ("secret_access_key", if truthy_opt (_secret_access_key c) then Some "****" else None);
   ("region", _region c); ("profile", _profile c)].

(** ** Outputs ([utils/output_helpers.py]) *)

Definition build_response (outputs : list CliServerOutput) (exit_code : Z) : CliServerResponse :=
  {| exit_code := exit_code; outputs := outputs |}.
Definition build_error_response (message : string) : CliServerResponse := build_response [TextOutput message (Some "error")] 1.
Definition build_success_response (message : string) : CliServerResponse := build_response [TextOutput message (Some "success")] 0.
Definition warning (message : string) : CliServerResponse := build_response [TextOutput message (Some "warning")] 0.
Definition get_output_format (c : CliProcessCommand) : string :=
  match dict_get "output" (args c) with
  | Some (VStr fmt) => if bool_decide (fmt ∈ ["json"; "table"; "text"]) then fmt else "table"
  | _ => "table"
  end.
Definition is_true (v : option pyval) : bool := match v with Some (VBool true) => true | _ => false end.
Definition is_dry_run (c : CliProcessCommand) : bool := is_true (dict_get "dry-run" (args c)) || is_true (dict_get "dryRun" (args c)).
Definition tab : string := str [ascii_of_nat 9].
Definition line_break : string := str [ascii_of_nat 10].
Definition apply_output_format (c : CliProcessCommand) (default_output : CliServerOutput) (raw_data : pyval) : CliServerOutput :=
  let fmt := get_output_format c in
  if bool_decide (fmt = "json") then JsonOutput raw_data
  else
    match default_output with
    | TableOutput t =>
        if bool_decide (fmt = "text") then TextOutput (join line_break (map (join tab) (rows t))) None else default_output
    | _ => default_output
    end.

(** ** Clients ([services/aws_credential_manager.py]) *)

Section Aws.
Context {Sdk Client : Type} `{B : Boto Sdk Client} `{H : AwsHost}.

(** The command processor of [aws]: its settings, its clients, and what boto3
    knows *)
Record Aws := { aws_config : AwsConfigService; _client_cache : dict string Client; sdk : Sdk }.
Abbreviation method := (py Aws aws_exn).
Definition set_config (c : AwsConfigService) : method unit :=
  modify (λ s, {| aws_config := c; _client_cache := _client_cache s; sdk := sdk s |}).
Definition set_cache (cache : dict string Client) : method unit :=
  modify (λ s, {| aws_config := aws_config s; _client_cache := cache; sdk := sdk s |}).
Definition clear_cache : method unit := set_cache [].
Definition boto {A} (m : py Sdk aws_exn A) : method A := λ s,
  let '(r, k) := m (sdk s) in (r, {| aws_config := aws_config s; _client_cache := _client_cache s; sdk := k |}).

(** The first text of [a or b or ...] that is not empty *)
Fixpoint first_text (l : list (option string)) : option string :=
  match l with
  | [] => None
  | x :: l => if truthy_opt x then x else first_text l
  end.
Definition effective_region (region : option string) (c : AwsConfigService) : option string :=
  first_text [region; _region c; environ "AWS_REGION"; environ "AWS_DEFAULT_REGION"].
Definition cache_key (service_name : string) (region : option string) (c : AwsConfigService) : string :=
  service_name +:+ ":" +:+ default "default" region +:+ ":" +:+ default "default" (first_text [_profile c]).
Definition client_kwargs (region : option string) (c : AwsConfigService) : dict string string :=
  match first_text [_access_key_id c; environ "AWS_ACCESS_KEY_ID"], first_text [_secret_access_key c; environ "AWS_SECRET_ACCESS_KEY"] with
  | Some access_key, Some secret_key => [("aws_access_key_id", access_key); ("aws_secret_access_key", secret_key)]
  | _, _ => []
  end ++ match region with Some r => [("region_name", r)] | None => [] end.
Definition get_client (service_name : string) (region : option string) : method Client :=
  c ← gets aws_config;
  cache ← gets _client_cache;
  let region := effective_region region c in
  let key := cache_key service_name region c in
  match dict_get key cache with
  | Some client => mret client
  | None =>
      client ← boto (boto_client service_name (client_kwargs region c));
      _ ← set_cache (dict_set key client cache);
      mret client
  end.

(** ** What the handlers use of Python *)

(** [str(v) if v else None] of an argument *)
Definition arg_text (name : string) (c : CliProcessCommand) : option string :=
  match dict_get name (args c) with Some v => if py_truthy v then Some (value_str str_time v) else None | None => None end.
(** [int(args.get(name, default))]; [None]: [ValueError] or [TypeError].  That of
    an infinity is an [OverflowError]. *)
Definition arg_int (name : string) (default_ : Z) (c : CliProcessCommand) : method (option Z) :=
  match dict_get name (args c) with
  | None => mret (Some default_)
  | Some (VInt z) => mret (Some z)
  | Some (VBool b) => mret (Some (if b then 1 else 0))
  | Some (VStr s) => mret (py_int s)
  | Some (VFloat r) =>
      if bool_decide (r ∈ ["inf"; "-inf"]) then raise {| exn_class := "OverflowError"; exn_text := "cannot convert float infinity to integer" |}
      else mret (float_int r)
  | Some _ => mret None
  end.
Definition wrong_type {A} (v : pyval) : method A := raise {| exn_class := "TypeError"; exn_text := type_error v |}.
(** [r.get(k, d)] of an answer, and of a value in it *)
Definition answer_get (r : dict string pyval) (k : string) (d : pyval) : pyval := default d (dict_get k r).
Definition get_or (v : pyval) (k : string) (d : pyval) : method pyval := match v with VDict r => mret (answer_get r k d) | v => wrong_type v end.
(** [for x in v] *)
Definition items_of (v : pyval) : method (list pyval) :=
  match v with
  | VList l => mret l
  | VDict d => mret (map (λ kv, VStr kv.1) d)
  | VStr s => mret (map (λ c, VStr (str [c])) (chars s))
  | v => wrong_type v
  end.
Definition text (v : pyval) : string := value_str str_time v.
(** [strftime("%Y-%m-%d")], with the time, and [isoformat()] *)
Definition day_of (us : Z) : string :=
  let '(y, m, d) := civil_from_days (us / 86400000000) in pad 4 y +:+ "-" +:+ pad 2 m +:+ "-" +:+ pad 2 d.
Definition day_time_of (us : Z) : string :=
  let t := us mod 86400000000 in
  day_of us +:+ " " +:+ pad 2 (t / 3600000000) +:+ ":" +:+ pad 2 ((t / 60000000) mod 60) +:+ ":" +:+ pad 2 ((t / 1000000) mod 60).
(** [d.f() if d else otherwise] *)
Definition date_or (f : Z → string) (v : pyval) (otherwise : string) : method string :=
  if py_truthy v then match v with VTime us => mret (f us) | v => wrong_type v end else mret otherwise.
(** A table takes texts only, and so do a list and the values of entries. *)
Definition output_text (v : pyval) : method string :=
  match v with VStr s => mret s | v => raise {| exn_class := "ValidationError"; exn_text := refused_output v |} end.
Definition format_as_table (hs : list string) (cells : list (list pyval)) : method CliServerOutput :=
  rs ← mapM (mapM output_text) cells; mret (TableOutput {| headers := hs; rows := rs; page := None |}).
Definition format_as_list (items : list pyval) : method CliServerOutput := l ← mapM output_text items; mret (ListOutput l None).
Definition format_as_key_value (entries : list (string * pyval)) : method CliServerOutput :=
  l ← mapM (λ kv : string * pyval, v ← output_text kv.2; mret (kv.1, v)) entries; mret (KeyValueOutput l).

(** [try: body  except Exception as exc: return build_error_response(f"{failed}: {exc}")] *)
Definition or_failed (failed : string) (body : method CliServerResponse) : method CliServerResponse :=
  try_except body (λ e, mret (build_error_response (failed +:+ ": " +:+ exn_text e))).
Definition region_client (service_name : string) (c : CliProcessCommand) : method Client := get_client service_name (arg_text "region" c).
Definition call (client : Client) (operation : string) (kwargs : dict string pyval) : method (dict string pyval) := boto (boto_call client operation kwargs).
Definition table_response (c : CliProcessCommand) (hs : list string) (cells : list (list pyval)) (raw : pyval) : method CliServerResponse :=
  o ← format_as_table hs cells; mret (build_response [apply_output_format c o raw] 0).
Definition list_response (c : CliProcessCommand) (items : list pyval) (raw : pyval) : method CliServerResponse :=
  o ← format_as_list items; mret (build_response [apply_output_format c o raw] 0).
Definition key_value_response (entries : list (string * pyval)) : method CliServerResponse :=
  o ← format_as_key_value entries; mret (build_response [o] 0).
(** Rows whose cells are keys of each item, with what stands for one that is
    missing *)
Definition cells_of (keys : list (string * string)) (item : pyval) : method (list pyval) :=
  mapM (λ k : string * string, get_or item k.1 (VStr k.2)) keys.
Definition unknown : pyval := VStr "(unknown)".

(** ** S3 ([processors/s3_processor.py]) *)

(** The pattern takes all up to a slash for the bucket and what follows the slash
    for the key: a dot is no newline, and the end may be before a last one. *)
Definition newline_char : ascii := ascii_of_nat 10.
Definition _parse_s3_uri (uri : string) : option (string * string) :=
  if starts_with uri "s3://" then
    let '(bucket, rest) := span (λ c, negb (Ascii.eqb c "/"%char)) (chars (drop_str 5 uri)) in
    let rest := match rest with _ :: l => l | [] => [] end in
    let '(key, after) := span (λ c, negb (Ascii.eqb c newline_char)) rest in
    if bool_decide (bucket = []) then None
    else match after with [] | [_] => Some (str bucket, str key) | _ => None end
  else None.
(** Sizes below 2^53 bytes; halves go to the even tenth. *)
Definition tenths (num_bytes : Z) (unit : Z) : Z :=
  let q := 10 * num_bytes / unit in
  let r := 2 * (10 * num_bytes mod unit) in
  if r <? unit then q else if unit <? r then q + 1 else if Z.even q then q else q + 1.
Fixpoint units_loop (num_bytes unit : Z) (units : list string) : string :=
  match units with
  | [] => ""
  | [u] => let t := tenths num_bytes unit in str_of_Z (t / 10) +:+ "." +:+ str_of_Z (t mod 10) +:+ " " +:+ u
  | u :: units =>
      if 1024 * unit <=? num_bytes then units_loop num_bytes (1024 * unit) units
      else let t := tenths num_bytes unit in str_of_Z (t / 10) +:+ "." +:+ str_of_Z (t mod 10) +:+ " " +:+ u
  end.
Definition _format_bytes (num_bytes : Z) : string :=
  if num_bytes =? 0 then "0 B" else units_loop num_bytes 1 ["B"; "KB"; "MB"; "GB"; "TB"].
Definition size_text (v : pyval) : method string := match v with VInt n => mret (_format_bytes n) | v => wrong_type v end.

Definition bucket_line (b : pyval) : method pyval :=
  created ← get_or b "CreationDate" VNone;
  date ← date_or day_of created "(unknown)";
  bucket_name ← get_or b "Name" unknown;
  mret (VStr (date +:+ "  " +:+ text bucket_name)).
Definition object_row (obj : pyval) : method (list pyval) :=
  modified ← get_or obj "LastModified" VNone;
  date ← date_or day_time_of modified "(unknown)";
  size ← get_or obj "Size" (VInt 0);
  size ← size_text size;
  key ← get_or obj "Key" (VStr "");
  mret [VStr date; VStr size; key].
Definition s3_ls_handle (c : CliProcessCommand) : method CliServerResponse :=
  client ← region_client "s3" c;
  let value := get_positional_text c in
  if is_empty value then
    or_failed "Failed to list buckets" (
      response ← call client "list_buckets" [];
      let buckets := answer_get response "Buckets" (VList []) in
      if negb (py_truthy buckets) then mret (warning "No buckets found.")
      else
        bs ← items_of buckets;
        items ← mapM bucket_line bs;
        list_response c items buckets)
  else
    match _parse_s3_uri value with
    | None => mret (build_error_response ("Invalid S3 URI: " +:+ str [dquote_char] +:+ value +:+ str [dquote_char] +:+ ". Expected format: s3://bucket[/prefix]"))
    | Some (bucket, prefix) =>
        or_failed "Failed to list objects" (
          pages ← boto (boto_pages client "list_objects_v2" [("Bucket", VStr bucket); ("Prefix", VStr prefix)]);
          objects ← mapM (λ page, items_of (answer_get page "Contents" (VList []))) pages;
          let objects := concat objects in
          if bool_decide (length objects = 0%nat) then mret (warning ("No objects found in s3://" +:+ bucket +:+ "/" +:+ prefix))
          else
            rows ← mapM object_row objects;
            table_response c ["Last Modified"; "Size"; "Key"] rows (VList objects))
    end.

Definition quoted (s : string) : string := str [dquote_char] +:+ s +:+ str [dquote_char].
(** [not parsed or not parsed[1]] *)
Definition object_uri (uri : string) : option (string * string) :=
  match _parse_s3_uri uri with Some (bucket, key) => if is_empty key then None else Some (bucket, key) | None => None end.
Definition s3_cp_handle (c : CliProcessCommand) : method CliServerResponse :=
  let source := get_positional_text c in
  if is_empty source then mret (build_error_response "Source S3 URI is required. Usage: s3 cp <s3://bucket/key> --dest <s3://bucket/key>")
  else
    match arg_text "dest" c with
    | None => mret (build_error_response "Destination is required. Use --dest <s3://bucket/key>.")
    | Some dest =>
        match object_uri source with
        | None => mret (build_error_response ("Invalid source S3 URI: " +:+ quoted source +:+ ". Expected format: s3://bucket/key"))
        | Some (src_bucket, src_key) =>
            match object_uri dest with
            | None => mret (build_error_response ("Invalid destination S3 URI: " +:+ quoted dest +:+ ". Expected format: s3://bucket/key"))
            | Some (dst_bucket, dst_key) =>
                client ← region_client "s3" c;
                or_failed "Failed to copy object" (
                  _ ← call client "copy_object" [("Bucket", VStr dst_bucket); ("Key", VStr dst_key); ("CopySource", VStr (src_bucket +:+ "/" +:+ src_key))];
                  mret (build_success_response ("Copied " +:+ source +:+ " to " +:+ dest)))
            end
        end
    end.
Definition s3_rm_handle (c : CliProcessCommand) : method CliServerResponse :=
  let value := get_positional_text c in
  if is_empty value then mret (build_error_response "S3 URI is required. Usage: s3 rm <s3://bucket/key>")
  else
    match object_uri value with
    | None => mret (build_error_response ("Invalid S3 URI: " +:+ quoted value +:+ ". Expected format: s3://bucket/key"))
    | Some (bucket, key) =>
        if is_dry_run c then mret (warning ("[DRY RUN] Would delete " +:+ value))
        else
          client ← region_client "s3" c;
          or_failed "Failed to delete object" (
            _ ← call client "delete_object" [("Bucket", VStr bucket); ("Key", VStr key)];
            mret (build_success_response ("Deleted " +:+ value)))
    end.
Definition s3_mb_handle (c : CliProcessCommand) : method CliServerResponse :=
  let bucket_name := get_positional_text c in
  if is_empty bucket_name then mret (build_error_response "Bucket name is required. Usage: s3 mb <bucket-name>")
  else
    client ← region_client "s3" c;
    or_failed "Failed to create bucket" (
      _ ← call client "create_bucket" [("Bucket", VStr bucket_name)];
      mret (build_success_response ("Bucket " +:+ quoted bucket_name +:+ " created successfully."))).
Definition s3_rb_handle (c : CliProcessCommand) : method CliServerResponse :=
  let bucket_name := get_positional_text c in
  if is_empty bucket_name then mret (build_error_response "Bucket name is required. Usage: s3 rb <bucket-name>")
  else if is_dry_run c then mret (warning ("[DRY RUN] Would delete bucket " +:+ quoted bucket_name))
  else
    client ← region_client "s3" c;
    or_failed "Failed to delete bucket" (
      _ ← call client "delete_bucket" [("Bucket", VStr bucket_name)];
      mret (build_success_response ("Bucket " +:+ quoted bucket_name +:+ " deleted successfully."))).
Definition s3_presign_handle (c : CliProcessCommand) : method CliServerResponse :=
  let value := get_positional_text c in
  if is_empty value then mret (build_error_response "S3 URI is required. Usage: s3 presign <s3://bucket/key>")
  else
    match object_uri value with
    | None => mret (build_error_response ("Invalid S3 URI: " +:+ quoted value +:+ ". Expected format: s3://bucket/key"))
    | Some (bucket, key) =>
        expires_in ← arg_int "expires" 3600 c;
        match expires_in with
        | Some expires_in =>
            if expires_in <=? 0 then mret (build_error_response "--expires must be a positive number of seconds.")
            else
              client ← region_client "s3" c;
              or_failed "Failed to generate pre-signed URL" (
                url ← boto (boto_presign client "get_object" [("Bucket", VStr bucket); ("Key", VStr key)] expires_in);
                mret (build_response [TextOutput url None; TextOutput ("Expires in " +:+ str_of_Z expires_in +:+ " seconds.") (Some "info")] 0))
        | None => mret (build_error_response "--expires must be a positive number of seconds.")
        end
    end.

(** ** EC2 ([processors/ec2_processor.py]) *)

Fixpoint name_tag (tags : list pyval) : method pyval :=
  match tags with
  | [] => mret (VStr "(none)")
  | t :: tags =>
      key ← get_or t "Key" VNone;
      match key with
      | VStr "Name" =>
          match t with
          | VDict d => match dict_get "Value" d with Some v => mret v | None => raise {| exn_class := "KeyError"; exn_text := "'Value'" |} end
          | t => wrong_type t
          end
      | _ => name_tag tags
      end
  end.
Definition name_of (inst : pyval) : method pyval :=
  tags ← get_or inst "Tags" (VList []); tags ← items_of tags; name_tag tags.
(** The instances of all reservations *)
Definition instances_of (response : dict string pyval) : method (list pyval) :=
  reservations ← items_of (answer_get response "Reservations" (VList []));
  l ← mapM (λ r, i ← get_or r "Instances" (VList []); items_of i) reservations;
  mret (concat l).
Definition instance_row (inst : pyval) : method (list pyval) :=
  n ← name_of inst;
  i ← get_or inst "InstanceId" unknown;
  state ← get_or inst "State" (VDict []);
  state ← get_or state "Name" unknown;
  t ← get_or inst "InstanceType" unknown;
  ip ← get_or inst "PublicIpAddress" (VStr "(none)");
  mret [i; n; state; t; ip].
Definition ec2_list_handle (c : CliProcessCommand) : method CliServerResponse :=
  client ← region_client "ec2" c;
  or_failed "Failed to list instances" (
    response ← call client "describe_instances" [];
    instances ← instances_of response;
    if bool_decide (length instances = 0%nat) then mret (warning "No instances found.")
    else
      rows ← mapM instance_row instances;
      table_response c ["Instance ID"; "Name"; "State"; "Type"; "Public IP"] rows (VList instances)).
Definition group_text (sg : pyval) : method string :=
  i ← get_or sg "GroupId" (VStr "");
  n ← get_or sg "GroupName" (VStr "");
  mret (text i +:+ " (" +:+ text n +:+ ")").
Definition instance_entries (inst : pyval) : method (list (string * pyval)) :=
  n ← name_of inst;
  groups ← get_or inst "SecurityGroups" (VList []);
  groups ← items_of groups;
  sg_list ← mapM group_text groups;
  let sg_list := join ", " sg_list in
  launch_time ← get_or inst "LaunchTime" VNone;
  launch_str ← date_or isoformat launch_time "(unknown)";
  i ← get_or inst "InstanceId" unknown;
  state ← get_or inst "State" (VDict []);
  state ← get_or state "Name" unknown;
  t ← get_or inst "InstanceType" unknown;
  placement ← get_or inst "Placement" (VDict []);
  zone ← get_or placement "AvailabilityZone" unknown;
  public ← get_or inst "PublicIpAddress" (VStr "(none)");
  private ← get_or inst "PrivateIpAddress" (VStr "(none)");
  mret [("Instance ID", i); ("Name", n); ("State", state); ("Type", t); ("Availability Zone", zone); ("Public IP", public);
        ("Private IP", private); ("Launch Time", VStr launch_str); ("Security Groups", VStr (if is_empty sg_list then "(none)" else sg_list))].
Definition ec2_describe_handle (c : CliProcessCommand) : method CliServerResponse :=
  let instance_id := get_positional_text c in
  if is_empty instance_id then mret (build_error_response "Instance ID is required. Usage: ec2 describe <instance-id>")
  else
    client ← region_client "ec2" c;
    or_failed "Failed to describe instance" (
      response ← call client "describe_instances" [("InstanceIds", VList [VStr instance_id])];
      instances ← instances_of response;
      match instances with
      | [] => mret (build_error_response ("Instance " +:+ quoted instance_id +:+ " not found."))
      | inst :: _ => entries ← instance_entries inst; key_value_response entries
      end).
Definition ec2_start_handle (c : CliProcessCommand) : method CliServerResponse :=
  let instance_id := get_positional_text c in
  if is_empty instance_id then mret (build_error_response "Instance ID is required. Usage: ec2 start <instance-id>")
  else
    client ← region_client "ec2" c;
    or_failed "Failed to start instance" (
      _ ← call client "start_instances" [("InstanceIds", VList [VStr instance_id])];
      mret (build_success_response ("Starting instance " +:+ instance_id +:+ "... done"))).
Definition ec2_stop_handle (c : CliProcessCommand) : method CliServerResponse :=
  let instance_id := get_positional_text c in
  if is_empty instance_id then mret (build_error_response "Instance ID is required. Usage: ec2 stop <instance-id>")
  else if is_dry_run c then mret (warning ("[DRY RUN] Would stop instance " +:+ instance_id))
  else
    client ← region_client "ec2" c;
    or_failed "Failed to stop instance" (
      _ ← call client "stop_instances" [("InstanceIds", VList [VStr instance_id])];
      mret (build_success_response ("Stopping instance " +:+ instance_id +:+ "... done"))).
Definition ec2_reboot_handle (c : CliProcessCommand) : method CliServerResponse :=
  let instance_id := get_positional_text c in
  if is_empty instance_id then mret (build_error_response "Instance ID is required. Usage: ec2 reboot <instance-id>")
  else if is_dry_run c then mret (warning ("[DRY RUN] Would reboot instance " +:+ instance_id))
  else
    client ← region_client "ec2" c;
    or_failed "Failed to reboot instance" (
      _ ← call client "reboot_instances" [("InstanceIds", VList [VStr instance_id])];
      mret (build_success_response ("Rebooting instance " +:+ instance_id +:+ "... done"))).
Definition ec2_sg_list_handle (c : CliProcessCommand) : method CliServerResponse :=
  client ← region_client "ec2" c;
  or_failed "Failed to list security groups" (
    response ← call client "describe_security_groups" [];
    let groups := answer_get response "SecurityGroups" (VList []) in
    if negb (py_truthy groups) then mret (warning "No security groups found.")
    else
      l ← items_of groups;
      rows ← mapM (cells_of [("GroupId", "(unknown)"); ("GroupName", "(unknown)"); ("VpcId", "(none)"); ("Description", "(none)")]) l;
      table_response c ["Group ID"; "Group Name"; "VPC ID"; "Description"] rows groups).

(** ** Lambda ([processors/lambda_processor.py]) *)

Definition str_cell (item : pyval) (k : string) (d : pyval) : method pyval := v ← get_or item k d; mret (VStr (text v)).
Definition function_row (fn : pyval) : method (list pyval) :=
  n ← get_or fn "FunctionName" unknown;
  r ← get_or fn "Runtime" unknown;
  m ← str_cell fn "MemorySize" unknown;
  l ← get_or fn "LastModified" unknown;
  mret [n; r; m; l].
Definition lambda_list_handle (c : CliProcessCommand) : method CliServerResponse :=
  client ← region_client "lambda" c;
  or_failed "Failed to list Lambda functions" (
    response ← call client "list_functions" [];
    let functions := answer_get response "Functions" (VList []) in
    if negb (py_truthy functions) then mret (warning "No Lambda functions found.")
    else
      l ← items_of functions;
      rows ← mapM function_row l;
      table_response c ["Name"; "Runtime"; "Memory (MB)"; "Last Modified"] rows functions).
(** What [invoke] answers has a payload stream or none; the bytes of the payload
    that is sent are one character each. *)
Definition payload_or (response : dict string pyval) (otherwise : string) : method string :=
  match dict_get "Payload" response with Some stream => boto (boto_read stream) | None => mret otherwise end.
Definition lambda_invoke_handle (c : CliProcessCommand) : method CliServerResponse :=
  let function_name := get_positional_text c in
  if is_empty function_name then mret (build_error_response "Function name is required. Usage: lambda invoke <function-name>")
  else
    client ← region_client "lambda" c;
    or_failed "Failed to invoke function" (
      response ← call client "invoke" (("FunctionName", VStr function_name) ::
                   match arg_text "payload" c with Some p => [("Payload", VStr (utf8 p))] | None => [] end);
      let failed := answer_get response "FunctionError" VNone in
      if py_truthy failed then
        error_body ← payload_or response "(no details)";
        mret (build_error_response ("Function error (" +:+ text failed +:+ "): " +:+ error_body))
      else
        result_body ← payload_or response "null";
        mret (build_response [JsonOutput (VDict [("StatusCode", answer_get response "StatusCode" VNone);
                                                 ("ExecutedVersion", answer_get response "ExecutedVersion" unknown);
                                                 ("Result", default (VStr result_body) (json_loads result_body))])] 0)).

(** [datetime.fromtimestamp(ts / 1000, tz=timezone.utc)] of the years 1 to 9999 *)
Definition utc_of_ms (ts : pyval) : method Z :=
  match ts with
  | VInt ms => if (-62135596800000 <=? ms) && (ms <=? 253402300799999) then mret (ms * 1000)
               else raise {| exn_class := "ValueError"; exn_text := type_error ts |}
  | v => wrong_type v
  end.
Definition rstrip (s : string) : string := str (rstrip_chars is_space (chars s)).
Definition event_line (f : Z → string) (sep : string) (event : pyval) : method string :=
  ts ← get_or event "timestamp" VNone;
  timestamp ← (if py_truthy ts then us ← utc_of_ms ts; mret (f us) else mret "(unknown)");
  message ← get_or event "message" VNone;
  message ← (if py_truthy message then match message with VStr s => mret (rstrip s) | v => wrong_type v end else mret "");
  mret (timestamp +:+ sep +:+ message).
Definition lambda_logs_handle (c : CliProcessCommand) : method CliServerResponse :=
  let function_name := get_positional_text c in
  if is_empty function_name then mret (build_error_response "Function name is required. Usage: lambda logs <function-name>")
  else
    limit ← arg_int "limit" 50 c;
    match limit with
    | Some limit =>
        if limit <=? 0 then mret (build_error_response "--limit must be a positive number.")
        else
          client ← region_client "logs" c;
          let log_group_name := "/aws/lambda/" +:+ function_name in
          or_failed "Failed to fetch logs" (
            response ← call client "filter_log_events" [("logGroupName", VStr log_group_name); ("limit", VInt limit)];
            let events := answer_get response "events" (VList []) in
            if negb (py_truthy events) then mret (warning ("No log events found for " +:+ log_group_name +:+ "."))
            else
              l ← items_of events;
              lines ← mapM (event_line day_time_of "  ") l;
              mret (build_response [TextOutput (join line_break lines) None] 0))
    | None => mret (build_error_response "--limit must be a positive number.")
    end.

(** ** CloudWatch ([processors/cloudwatch_processor.py]) *)

Definition cloudwatch_alarms_handle (c : CliProcessCommand) : method CliServerResponse :=
  client ← region_client "cloudwatch" c;
  or_failed "Failed to list alarms" (
    response ← call client "describe_alarms" [];
    let alarms := answer_get response "MetricAlarms" (VList []) in
    if negb (py_truthy alarms) then mret (warning "No alarms found.")
    else
      l ← items_of alarms;
      rows ← mapM (cells_of [("AlarmName", "(unknown)"); ("StateValue", "(unknown)"); ("MetricName", "(unknown)"); ("Namespace", "(unknown)")]) l;
      table_response c ["Name"; "State"; "Metric"; "Namespace"] rows alarms).
Definition cloudwatch_logs_handle (c : CliProcessCommand) : method CliServerResponse :=
  let log_group_name := get_positional_text c in
  if is_empty log_group_name then mret (build_error_response "Log group name is required. Usage: cloudwatch logs <log-group>")
  else
    client ← region_client "logs" c;
    limit ← arg_int "limit" 50 c;
    let limit := default 50 limit in
    or_failed "Failed to fetch log events" (
      response ← call client "filter_log_events" ([("logGroupName", VStr log_group_name); ("limit", VInt limit)] ++
                   match arg_text "filter" c with Some f => [("filterPattern", VStr f)] | None => [] end);
      let events := answer_get response "events" (VList []) in
      if negb (py_truthy events) then mret (warning "No log events found.")
      else
        l ← items_of events;
        lines ← mapM (event_line isoformat " ") l;
        mret (build_response [TextOutput (join line_break lines) None] 0)).
Definition dimension_text (d : pyval) : method string :=
  n ← get_or d "Name" (VStr "");
  v ← get_or d "Value" (VStr "");
  mret (text n +:+ "=" +:+ text v).
Definition metric_row (m : pyval) : method (list pyval) :=
  n ← get_or m "MetricName" unknown;
  dimensions ← get_or m "Dimensions" (VList []);
  dimensions ← items_of dimensions;
  ds ← mapM dimension_text dimensions;
  mret [n; VStr (join ", " ds)].
Definition cloudwatch_metrics_handle (c : CliProcessCommand) : method CliServerResponse :=
  let namespace := get_positional_text c in
  if is_empty namespace then mret (build_error_response "Namespace is required. Usage: cloudwatch metrics <namespace>")
  else
    client ← region_client "cloudwatch" c;
    or_failed "Failed to list metrics" (
      response ← call client "list_metrics" [("Namespace", VStr namespace)];
      let metrics := answer_get response "Metrics" (VList []) in
      if negb (py_truthy metrics) then mret (warning ("No metrics found for namespace " +:+ quoted namespace +:+ "."))
      else
        l ← items_of metrics;
        rows ← mapM metric_row l;
        table_response c ["MetricName"; "Dimensions"] rows metrics).

(** ** SNS ([processors/sns_processor.py]) *)

Definition sns_topics_handle (c : CliProcessCommand) : method CliServerResponse :=
  client ← region_client "sns" c;
  or_failed "Failed to list SNS topics" (
    response ← call client "list_topics" [];
    let topics := answer_get response "Topics" (VList []) in
    if negb (py_truthy topics) then mret (warning "No SNS topics found.")
    else
      l ← items_of topics;
      arns ← mapM (λ t, get_or t "TopicArn" unknown) l;
      list_response c arns topics).
Definition message_id (response : dict string pyval) : string := text (answer_get response "MessageId" unknown).
Definition sns_publish_handle (c : CliProcessCommand) : method CliServerResponse :=
  let topic_arn := get_positional_text c in
  if is_empty topic_arn then mret (build_error_response "Topic ARN is required. Usage: sns publish <topic-arn> --message <message>")
  else
    match arg_text "message" c with
    | None => mret (build_error_response "--message is required. Usage: sns publish <topic-arn> --message <message>")
    | Some message =>
        client ← region_client "sns" c;
        or_failed "Failed to publish message" (
          response ← call client "publish" [("TopicArn", VStr topic_arn); ("Message", VStr message)];
          mret (build_success_response ("Message published successfully. MessageId: " +:+ message_id response)))
    end.
Definition sns_subscriptions_handle (c : CliProcessCommand) : method CliServerResponse :=
  let topic_arn := get_positional_text c in
  client ← region_client "sns" c;
  or_failed "Failed to list SNS subscriptions" (
    response ← (if is_empty topic_arn then call client "list_subscriptions" []
                else call client "list_subscriptions_by_topic" [("TopicArn", VStr topic_arn)]);
    let subscriptions := answer_get response "Subscriptions" (VList []) in
    if negb (py_truthy subscriptions) then mret (warning "No SNS subscriptions found.")
    else
      l ← items_of subscriptions;
      rows ← mapM (cells_of [("SubscriptionArn", "(unknown)"); ("Protocol", "(unknown)"); ("Endpoint", "(unknown)"); ("TopicArn", "(unknown)")]) l;
      table_response c ["SubscriptionArn"; "Protocol"; "Endpoint"; "TopicArn"] rows subscriptions).

(** ** SQS ([processors/sqs_processor.py]) *)

Definition sqs_list_handle (c : CliProcessCommand) : method CliServerResponse :=
  client ← region_client "sqs" c;
  or_failed "Failed to list SQS queues" (
    response ← call client "list_queues" [];
    let queue_urls := answer_get response "QueueUrls" (VList []) in
    if negb (py_truthy queue_urls) then mret (warning "No SQS queues found.")
    else l ← items_of queue_urls; list_response c l queue_urls).
Definition sqs_send_handle (c : CliProcessCommand) : method CliServerResponse :=
  let queue_url := get_positional_text c in
  if is_empty queue_url then mret (build_error_response "Queue URL is required. Usage: sqs send <queue-url> --message <body>")
  else
    match arg_text "message" c with
    | None => mret (build_error_response "--message is required. Usage: sqs send <queue-url> --message <body>")
    | Some message_body =>
        client ← region_client "sqs" c;
        or_failed "Failed to send message" (
          response ← call client "send_message" [("QueueUrl", VStr queue_url); ("MessageBody", VStr message_body)];
          mret (build_success_response ("Message sent successfully. MessageId: " +:+ message_id response)))
    end.
Definition sqs_receive_handle (c : CliProcessCommand) : method CliServerResponse :=
  let queue_url := get_positional_text c in
  if is_empty queue_url then mret (build_error_response "Queue URL is required. Usage: sqs receive <queue-url>")
  else
    max_messages ← arg_int "max" 1 c;
    client ← region_client "sqs" c;
    or_failed "Failed to receive messages" (
      response ← call client "receive_message" [("QueueUrl", VStr queue_url); ("MaxNumberOfMessages", VInt (default 1 max_messages))];
      let messages := answer_get response "Messages" (VList []) in
      if negb (py_truthy messages) then mret (warning "No messages available in the queue.")
      else mret (build_response [JsonOutput messages] 0)).
Definition sqs_purge_handle (c : CliProcessCommand) : method CliServerResponse :=
  let queue_url := get_positional_text c in
  if is_empty queue_url then mret (build_error_response "Queue URL is required. Usage: sqs purge <queue-url>")
  else if is_dry_run c then mret (warning ("[dry-run] Would purge all messages from queue: " +:+ queue_url))
  else
    client ← region_client "sqs" c;
    or_failed "Failed to purge queue" (
      _ ← call client "purge_queue" [("QueueUrl", VStr queue_url)];
      mret (build_success_response ("Queue purged successfully: " +:+ queue_url))).

(** ** ECS ([processors/ecs_processor.py]) *)

Definition cluster_row (c : pyval) : method (list pyval) :=
  n ← get_or c "clusterName" unknown;
  s ← get_or c "status" unknown;
  r ← str_cell c "runningTasksCount" (VInt 0);
  p ← str_cell c "pendingTasksCount" (VInt 0);
  mret [n; s; r; p].
Definition ecs_clusters_handle (c : CliProcessCommand) : method CliServerResponse :=
  client ← region_client "ecs" c;
  or_failed "Failed to list ECS clusters" (
    list_response ← call client "list_clusters" [];
    let cluster_arns := answer_get list_response "clusterArns" (VList []) in
    if negb (py_truthy cluster_arns) then mret (warning "No ECS clusters found.")
    else
      describe_response ← call client "describe_clusters" [("clusters", cluster_arns)];
      let clusters := answer_get describe_response "clusters" (VList []) in
      l ← items_of clusters;
      rows ← mapM cluster_row l;
      table_response c ["Cluster Name"; "Status"; "Running Tasks"; "Pending Tasks"] rows clusters).
Definition service_row (s : pyval) : method (list pyval) :=
  n ← get_or s "serviceName" unknown;
  st ← get_or s "status" unknown;
  d ← str_cell s "desiredCount" (VInt 0);
  r ← str_cell s "runningCount" (VInt 0);
  p ← str_cell s "pendingCount" (VInt 0);
  mret [n; st; d; r; p].
Definition ecs_services_handle (c : CliProcessCommand) : method CliServerResponse :=
  let cluster := get_positional_text c in
  if is_empty cluster then mret (build_error_response "Cluster name or ARN is required. Usage: ecs services <cluster>")
  else
    client ← region_client "ecs" c;
    or_failed "Failed to list ECS services" (
      list_response ← call client "list_services" [("cluster", VStr cluster)];
      let service_arns := answer_get list_response "serviceArns" (VList []) in
      if negb (py_truthy service_arns) then mret (warning ("No ECS services found in cluster " +:+ quoted cluster +:+ "."))
      else
        describe_response ← call client "describe_services" [("cluster", VStr cluster); ("services", service_arns)];
        let services := answer_get describe_response "services" (VList []) in
        l ← items_of services;
        rows ← mapM service_row l;
        table_response c ["Service Name"; "Status"; "Desired"; "Running"; "Pending"] rows services).
(** [arn.split("/")[-1] if arn else "(unknown)"] *)
Definition arn_name (arn : pyval) : method pyval :=
  if py_truthy arn then match arn with VStr s => mret (VStr (List.last (split "/"%char s) "")) | v => wrong_type v end else mret unknown.
Definition task_row (task : pyval) : method (list pyval) :=
  task_arn ← get_or task "taskArn" (VStr "");
  task_id ← arn_name task_arn;
  task_def_arn ← get_or task "taskDefinitionArn" (VStr "");
  task_def ← arn_name task_def_arn;
  started_at ← get_or task "startedAt" VNone;
  started_str ← date_or day_time_of started_at "(not started)";
  status ← get_or task "lastStatus" unknown;
  mret [task_id; status; task_def; VStr started_str].
Definition ecs_tasks_handle (c : CliProcessCommand) : method CliServerResponse :=
  let cluster := get_positional_text c in
  if is_empty cluster then mret (build_error_response "Cluster name or ARN is required. Usage: ecs tasks <cluster>")
  else
    client ← region_client "ecs" c;
    or_failed "Failed to list ECS tasks" (
      list_response ← call client "list_tasks" [("cluster", VStr cluster)];
      let task_arns := answer_get list_response "taskArns" (VList []) in
      if negb (py_truthy task_arns) then mret (warning ("No ECS tasks found in cluster " +:+ quoted cluster +:+ "."))
      else
        describe_response ← call client "describe_tasks" [("cluster", VStr cluster); ("tasks", task_arns)];
        let tasks := answer_get describe_response "tasks" (VList []) in
        l ← items_of tasks;
        rows ← mapM task_row l;
        table_response c ["Task ID"; "Status"; "Definition"; "Started"] rows tasks).

(** ** DynamoDB ([processors/dynamodb_processor.py]) *)

Definition dynamodb_tables_handle (c : CliProcessCommand) : method CliServerResponse :=
  client ← region_client "dynamodb" c;
  or_failed "Failed to list DynamoDB tables" (
    response ← call client "list_tables" [];
    let table_names := answer_get response "TableNames" (VList []) in
    if negb (py_truthy table_names) then mret (warning "No DynamoDB tables found.")
    else l ← items_of table_names; list_response c l table_names).
Definition key_text (k : pyval) : method string :=
  n ← get_or k "AttributeName" (VStr "");
  t ← get_or k "KeyType" (VStr "");
  mret (text n +:+ " (" +:+ text t +:+ ")").
Definition table_entries (table : pyval) : method (list (string * pyval)) :=
  keys ← get_or table "KeySchema" (VList []);
  keys ← items_of keys;
  key_schema ← mapM key_text keys;
  creation_dt ← get_or table "CreationDateTime" VNone;
  creation_str ← date_or isoformat creation_dt "(unknown)";
  n ← get_or table "TableName" unknown;
  s ← get_or table "TableStatus" unknown;
  items ← str_cell table "ItemCount" (VInt 0);
  size ← str_cell table "TableSizeBytes" (VInt 0);
  mret [("TableName", n); ("TableStatus", s); ("ItemCount", items); ("TableSizeBytes", size);
        ("KeySchema", VStr (join ", " key_schema)); ("CreationDateTime", VStr creation_str)].
Definition dynamodb_describe_handle (c : CliProcessCommand) : method CliServerResponse :=
  let table_name := get_positional_text c in
  if is_empty table_name then mret (build_error_response "Table name is required. Usage: dynamodb describe <table-name>")
  else
    client ← region_client "dynamodb" c;
    or_failed "Failed to describe DynamoDB table" (
      response ← call client "describe_table" [("TableName", VStr table_name)];
      let table := answer_get response "Table" VNone in
      if negb (py_truthy table) then mret (build_error_response ("Table " +:+ quoted table_name +:+ " not found."))
      else entries ← table_entries table; key_value_response entries).
Definition dynamodb_scan_handle (c : CliProcessCommand) : method CliServerResponse :=
  let table_name := get_positional_text c in
  if is_empty table_name then mret (build_error_response "Table name is required. Usage: dynamodb scan <table-name>")
  else
    limit ← arg_int "limit" 25 c;
    client ← region_client "dynamodb" c;
    or_failed "Failed to scan DynamoDB table" (
      response ← call client "scan" [("TableName", VStr table_name); ("Limit", VInt (default 25 limit))];
      mret (build_response [JsonOutput (answer_get response "Items" (VList []))] 0)).
Definition dynamodb_query_handle (c : CliProcessCommand) : method CliServerResponse :=
  let table_name := get_positional_text c in
  if is_empty table_name then mret (build_error_response "Table name is required. Usage: dynamodb query <table-name> --key <expression>")
  else
    match arg_text "key" c with
    | None => mret (build_error_response "--key (KeyConditionExpression) is required. Usage: dynamodb query <table-name> --key <expression>")
    | Some key_condition =>
        client ← region_client "dynamodb" c;
        or_failed "Failed to query DynamoDB table" (
          response ← call client "query" ([("TableName", VStr table_name); ("KeyConditionExpression", VStr key_condition)] ++
                       match arg_text "filter" c with Some f => [("FilterExpression", VStr f)] | None => [] end);
          mret (build_response [JsonOutput (answer_get response "Items" (VList []))] 0))
    end.

(** ** IAM ([processors/iam_processor.py]) *)

Definition principal_row (name_key id_key : string) (x : pyval) : method (list pyval) :=
  n ← get_or x name_key unknown;
  i ← get_or x id_key unknown;
  arn ← get_or x "Arn" unknown;
  created ← get_or x "CreateDate" VNone;
  date ← date_or day_of created "(unknown)";
  mret [n; i; arn; VStr date].
Definition iam_users_handle (c : CliProcessCommand) : method CliServerResponse :=
  client ← region_client "iam" c;
  or_failed "Failed to list IAM users" (
    response ← call client "list_users" [];
    let users := answer_get response "Users" (VList []) in
    if negb (py_truthy users) then mret (warning "No IAM users found.")
    else
      l ← items_of users;
      rows ← mapM (principal_row "UserName" "UserId") l;
      table_response c ["UserName"; "UserId"; "Arn"; "CreateDate"] rows users).
Definition iam_roles_handle (c : CliProcessCommand) : method CliServerResponse :=
  client ← region_client "iam" c;
  or_failed "Failed to list IAM roles" (
    response ← call client "list_roles" [];
    let roles := answer_get response "Roles" (VList []) in
    if negb (py_truthy roles) then mret (warning "No IAM roles found.")
    else
      l ← items_of roles;
      rows ← mapM (principal_row "RoleName" "RoleId") l;
      table_response c ["RoleName"; "RoleId"; "Arn"; "CreateDate"] rows roles).
Definition policy_row (policy : pyval) : method (list pyval) :=
  n ← get_or policy "PolicyName" unknown;
  arn ← get_or policy "Arn" unknown;
  count ← str_cell policy "AttachmentCount" (VInt 0);
  mret [n; arn; count].
Definition iam_policies_handle (c : CliProcessCommand) : method CliServerResponse :=
  client ← region_client "iam" c;
  or_failed "Failed to list IAM policies" (
    response ← call client "list_policies" [("Scope", VStr "Local")];
    let policies := answer_get response "Policies" (VList []) in
    if negb (py_truthy policies) then mret (warning "No IAM policies found.")
    else
      l ← items_of policies;
      rows ← mapM policy_row l;
      table_response c ["PolicyName"; "Arn"; "AttachmentCount"] rows policies).

(** ** Configuration and status ([processors/aws_command_processor.py]) *)

Definition set_and_clear (f : AwsConfigService → AwsConfigService) : method unit := c ← gets aws_config; _ ← set_config (f c); clear_cache.
Definition configure_set_handle (c : CliProcessCommand) : method CliServerResponse :=
  let key := arg_text "key" c in
  let secret := arg_text "secret" c in
  let region := arg_text "region" c in
  let profile := arg_text "profile" c in
  let rest : method CliServerResponse :=
    _ ← match region with Some r => set_and_clear (set_region r) | None => mret tt end;
    _ ← match profile with Some p => set_and_clear (set_profile p) | None => mret tt end;
    match key, secret, region, profile with
    | None, None, None, None => mret (build_error_response "Provide at least one of --key/--secret, --region, or --profile.")
    | _, _, _, _ => mret (build_success_response "AWS configuration updated.")
    end in
  match key, secret with
  | Some k, Some s => _ ← set_and_clear (set_credentials k s); rest
  | None, None => rest
  | _, _ => mret (build_error_response "Both --key and --secret must be provided together.")
  end.
(** [summary.get(name) or otherwise] *)
Definition summary_or (summary : dict string (option string)) (name otherwise : string) : pyval :=
  VStr (match dict_get name summary with Some v => if truthy_opt v then or_empty v else otherwise | None => otherwise end).
Definition configure_get_handle (c : CliProcessCommand) : method CliServerResponse :=
  config ← gets aws_config;
  let summary := get_config_summary config in
  key_value_response [("Access Key ID", summary_or summary "access_key_id" "(not set)");
                      ("Secret Access Key", summary_or summary "secret_access_key" "(not set)");
                      ("Region", summary_or summary "region" "(not set)"); ("Profile", summary_or summary "profile" "default")].

(** A section up to its closing bracket, which has to be there *)
Definition section_name (l : list ascii) : option (list ascii) :=
  match span (λ c, negb (Ascii.eqb c "]"%char)) l with
  | ([], _) | (_, []) => None
  | (section, _) => Some section
  end.
(** The pattern of [~/.aws/credentials] *)
Definition credentials_section (l : list ascii) : option (list ascii) :=
  match l with c :: l => if Ascii.eqb c "["%char then section_name l else None | [] => None end.
(** The pattern of [~/.aws/config]: the word profile and the spaces after it are
    skipped, but for the last space when nothing else would be left, and for all
    when there is only that one. *)
Definition config_section (l : list ascii) : option (list ascii) :=
  match l with
  | c :: l =>
      if Ascii.eqb c "["%char then
        if starts_with (str l) "profile" then
          let '(spaces, rest) := span is_space (drop 7 l) in
          match spaces, section_name rest with
          | _ :: _, Some section => Some section
          | _ :: _ :: _, None => section_name (drop (length spaces - 1) spaces ++ rest)
          | _, _ => section_name l
          end
        else section_name l
      else None
  | [] => None
  end.
Definition _parse_profiles (file : option string) (pattern : list ascii → option (list ascii)) : list string :=
  match file with
  | Some content => omap (λ line, (λ m, strip (str m)) <$> pattern (chars (strip line))) (splitlines content)
  | None => []
  end.
Definition configure_profiles_handle (c : CliProcessCommand) : method CliServerResponse :=
  let profiles := fromkeys [] (_parse_profiles credentials_file credentials_section ++ _parse_profiles config_file config_section) in
  match py_sort String.leb profiles with
  | [] => mret (warning "No AWS profiles found in ~/.aws/credentials or ~/.aws/config.")
  | items => o ← format_as_list (map VStr items); mret (build_response [o] 0)
  end.

Definition no_credentials : CliServerResponse :=
  build_error_response ("No AWS credentials configured. Run " +:+ quoted "aws configure set --key <key> --secret <secret>" +:+
                        " or set AWS_ACCESS_KEY_ID / AWS_SECRET_ACCESS_KEY environment variables.").
Definition aws_status_handle (c : CliProcessCommand) : method CliServerResponse :=
  try_except
    (client ← get_client "sts" None;
     response ← call client "get_caller_identity" [];
     o ← format_as_key_value [("Account", answer_get response "Account" unknown); ("Arn", answer_get response "Arn" unknown);
                              ("UserId", answer_get response "UserId" unknown)];
     mret (build_response [TextOutput "AWS connection successful." (Some "success"); o] 0))
    (λ e, mret (if contains "credentials" (lower (exn_text e)) || bool_decide (exn_class e ∈ ["NoCredentialsError"; "PartialCredentialsError"]) then no_credentials
                else build_error_response ("AWS status check failed: " +:+ exn_text e))).

(** ** The tree of the commands

    The text handlers answer an empty text; an exception of a structured one is
    one of a processor. *)

Abbreviation processor := (ICliCommandProcessor Aws CliServerResponse).
Definition as_handler (h : CliProcessCommand → method CliServerResponse) (c : CliProcessCommand) : py Aws exn (option CliServerResponse) := λ s,
  let '(r, s) := h c s in (match r with inr x => inr (Some x) | inl e => inl (Exn (exn_text e)) end, s).
Definition no_handler : CliProcessCommand → py Aws exn (option CliServerResponse) := λ _, mret None.
Definition aws_node (name description : string) (value_required : option bool) (parameters : option (list CliCommandParameterDescriptor))
    (handle : CliProcessCommand → py Aws exn (option CliServerResponse)) (subs : option (list processor)) : processor :=
  Processor {| p_command := name; p_description := description; p_version := "1.0.0"; p_allow_unlisted_commands := None;
               p_value_required := value_required; p_parameters := parameters; p_required_permissions := None;
               p_handle_async := λ _, mret ""; p_handle_structured_async := handle |} subs.
Definition aws_leaf (name description : string) (value_required : option bool) (parameters : list CliCommandParameterDescriptor)
    (handle : CliProcessCommand → method CliServerResponse) : processor :=
  aws_node name description value_required (match parameters with [] => None | _ => Some parameters end) (as_handler handle) None.
Definition aws_parent (name description : string) (subs : list processor) : processor := aws_node name description None None no_handler (Some subs).

Definition parameter (name description : string) (required : bool) (type : string) (aliases : list string) (default_value : pyval) : CliCommandParameterDescriptor :=
  {| d_name := name; d_description := description; d_required := required; d_type := type;
     d_aliases := match aliases with [] => None | _ => Some aliases end; d_default_value := default_value |}.
Definition region_param : CliCommandParameterDescriptor := parameter "region" "AWS region override" false "string" ["-r"] VNone.
Definition output_param (first : string) : CliCommandParameterDescriptor :=
  parameter "output" ("Output format (" +:+ first +:+ "|json|text)") false "string" ["-o"] (VStr first).
Definition dry_run_param (description : string) : CliCommandParameterDescriptor := parameter "dry-run" description false "boolean" [] VNone.

Definition _S3LsProcessor : processor :=
  aws_leaf "ls" "List S3 buckets or objects in a bucket" (Some false) [region_param; output_param "table"] s3_ls_handle.
Definition _S3CpProcessor : processor :=
  aws_leaf "cp" "Copy objects between S3 locations (S3-to-S3 only)" (Some true)
    [parameter "dest" "Destination S3 URI (s3://bucket/key)" true "string" ["-d"] VNone; region_param] s3_cp_handle.
Definition _S3RmProcessor : processor :=
  aws_leaf "rm" "Delete an S3 object" (Some true) [dry_run_param "Preview without deleting"; region_param] s3_rm_handle.
Definition _S3MbProcessor : processor :=
  aws_leaf "mb" "Create an S3 bucket" (Some true) [region_param] s3_mb_handle.
Definition _S3RbProcessor : processor :=
  aws_leaf "rb" "Delete an S3 bucket" (Some true) [dry_run_param "Preview without deleting"; region_param] s3_rb_handle.
Definition _S3PresignProcessor : processor :=
  aws_leaf "presign" "Generate a pre-signed URL for an S3 object" (Some true)
    [parameter "expires" "URL expiration in seconds (default: 3600)" false "number" ["-e"] (VStr "3600"); region_param] s3_presign_handle.
Definition AwsS3Processor : processor :=
  aws_parent "s3" "Amazon S3 operations -- list, copy, remove objects and buckets"
    [_S3LsProcessor; _S3CpProcessor; _S3RmProcessor; _S3MbProcessor; _S3RbProcessor; _S3PresignProcessor].
Definition _Ec2ListProcessor : processor :=
  aws_leaf "list" "List all EC2 instances" None [region_param; output_param "table"] ec2_list_handle.
Definition _Ec2DescribeProcessor : processor :=
  aws_leaf "describe" "Describe an EC2 instance" (Some true) [region_param] ec2_describe_handle.
Definition _Ec2StartProcessor : processor :=
  aws_leaf "start" "Start an EC2 instance" (Some true) [region_param] ec2_start_handle.
Definition _Ec2StopProcessor : processor :=
  aws_leaf "stop" "Stop an EC2 instance" (Some true) [dry_run_param "Preview without stopping"; region_param] ec2_stop_handle.
Definition _Ec2RebootProcessor : processor :=
  aws_leaf "reboot" "Reboot an EC2 instance" (Some true) [dry_run_param "Preview without rebooting"; region_param] ec2_reboot_handle.
Definition _Ec2SgListProcessor : processor :=
  aws_leaf "list" "List all security groups" None [region_param; output_param "table"] ec2_sg_list_handle.
Definition _Ec2SgProcessor : processor := aws_parent "sg" "EC2 security group operations" [_Ec2SgListProcessor].
Definition AwsEc2Processor : processor :=
  aws_parent "ec2" "Amazon EC2 operations -- manage instances and security groups"
    [_Ec2ListProcessor; _Ec2DescribeProcessor; _Ec2StartProcessor; _Ec2StopProcessor; _Ec2RebootProcessor; _Ec2SgProcessor].
Definition _LambdaListProcessor : processor :=
  aws_leaf "list" "List Lambda functions" None [region_param; output_param "table"] lambda_list_handle.
Definition _LambdaInvokeProcessor : processor :=
  aws_leaf "invoke" "Invoke a Lambda function" (Some true)
    [parameter "payload" "JSON payload to send to the function" false "string" ["-p"] VNone; region_param] lambda_invoke_handle.
Definition _LambdaLogsProcessor : processor :=
  aws_leaf "logs" "View recent logs for a Lambda function" (Some true)
    [parameter "limit" "Maximum number of log events (default: 50)" false "number" ["-l"] (VStr "50"); region_param] lambda_logs_handle.
Definition AwsLambdaProcessor : processor :=
  aws_parent "lambda" "AWS Lambda operations -- list, invoke, and view logs"
    [_LambdaListProcessor; _LambdaInvokeProcessor; _LambdaLogsProcessor].
Definition _CloudWatchAlarmsProcessor : processor :=
  aws_leaf "alarms" "List CloudWatch alarms" None [region_param; output_param "table"] cloudwatch_alarms_handle.
Definition _CloudWatchLogsProcessor : processor :=
  aws_leaf "logs" "Fetch log events from a CloudWatch log group" (Some true)
    [parameter "filter" "Filter pattern for log events" false "string" ["-f"] VNone;
    parameter "limit" "Maximum number of events to return (default: 50)" false "number" ["-l"] (VStr "50"); region_param] cloudwatch_logs_handle.
Definition _CloudWatchMetricsProcessor : processor :=
  aws_leaf "metrics" "List CloudWatch metrics for a namespace" (Some true) [region_param; output_param "table"] cloudwatch_metrics_handle.
Definition AwsCloudWatchProcessor : processor :=
  aws_parent "cloudwatch" "Amazon CloudWatch -- alarms, logs, and metrics"
    [_CloudWatchAlarmsProcessor; _CloudWatchLogsProcessor; _CloudWatchMetricsProcessor].
Definition _SnsTopicsProcessor : processor :=
  aws_leaf "topics" "List SNS topics" None [region_param; output_param "table"] sns_topics_handle.
Definition _SnsPublishProcessor : processor :=
  aws_leaf "publish" "Publish a message to an SNS topic" (Some true)
    [parameter "message" "Message to publish" true "string" ["-m"] VNone; region_param] sns_publish_handle.
Definition _SnsSubscriptionsProcessor : processor :=
  aws_leaf "subscriptions" "List SNS subscriptions (optionally filtered by topic ARN)" None [region_param; output_param "table"] sns_subscriptions_handle.
Definition AwsSnsProcessor : processor :=
  aws_parent "sns" "AWS SNS operations -- topics, publish, subscriptions"
    [_SnsTopicsProcessor; _SnsPublishProcessor; _SnsSubscriptionsProcessor].
Definition _SqsListProcessor : processor :=
  aws_leaf "list" "List SQS queues" None [region_param; output_param "list"] sqs_list_handle.
Definition _SqsSendProcessor : processor :=
  aws_leaf "send" "Send a message to an SQS queue" (Some true)
    [parameter "message" "Message body to send" true "string" ["-m"] VNone; region_param] sqs_send_handle.
Definition _SqsReceiveProcessor : processor :=
  aws_leaf "receive" "Receive messages from an SQS queue" (Some true)
    [parameter "max" "Maximum number of messages to receive (default: 1)" false "number" ["-n"] (VStr "1"); region_param] sqs_receive_handle.
Definition _SqsPurgeProcessor : processor :=
  aws_leaf "purge" "Purge all messages from an SQS queue" (Some true)
    [parameter "dry-run" "Show what would be purged without actually purging" false "boolean" ["--dry-run"] VNone; region_param] sqs_purge_handle.
Definition AwsSqsProcessor : processor :=
  aws_parent "sqs" "AWS SQS operations -- list, send, receive, purge"
    [_SqsListProcessor; _SqsSendProcessor; _SqsReceiveProcessor; _SqsPurgeProcessor].
Definition _EcsClustersProcessor : processor :=
  aws_leaf "clusters" "List ECS clusters" None [region_param; output_param "table"] ecs_clusters_handle.
Definition _EcsServicesProcessor : processor :=
  aws_leaf "services" "List ECS services in a cluster" (Some true) [region_param; output_param "table"] ecs_services_handle.
Definition _EcsTasksProcessor : processor :=
  aws_leaf "tasks" "List ECS tasks in a cluster" (Some true) [region_param; output_param "table"] ecs_tasks_handle.
Definition AwsEcsProcessor : processor :=
  aws_parent "ecs" "AWS ECS operations -- clusters, services, tasks"
    [_EcsClustersProcessor; _EcsServicesProcessor; _EcsTasksProcessor].
Definition _DynamoDbTablesProcessor : processor :=
  aws_leaf "tables" "List DynamoDB tables" None [region_param; output_param "list"] dynamodb_tables_handle.
Definition _DynamoDbDescribeProcessor : processor :=
  aws_leaf "describe" "Describe a DynamoDB table" (Some true) [region_param] dynamodb_describe_handle.
Definition _DynamoDbScanProcessor : processor :=
  aws_leaf "scan" "Scan items from a DynamoDB table" (Some true)
    [parameter "limit" "Maximum number of items to return (default: 25)" false "number" ["-l"] (VStr "25"); region_param] dynamodb_scan_handle.
Definition _DynamoDbQueryProcessor : processor :=
  aws_leaf "query" "Query items from a DynamoDB table" (Some true)
    [parameter "key" "KeyConditionExpression for the query" true "string" ["-k"] VNone;
    parameter "filter" "FilterExpression for the query" false "string" ["-f"] VNone; region_param] dynamodb_query_handle.
Definition AwsDynamoDbProcessor : processor :=
  aws_parent "dynamodb" "AWS DynamoDB operations -- tables, describe, scan, query"
    [_DynamoDbTablesProcessor; _DynamoDbDescribeProcessor; _DynamoDbScanProcessor; _DynamoDbQueryProcessor].
Definition _IamUsersProcessor : processor :=
  aws_leaf "users" "List IAM users" None [region_param; output_param "table"] iam_users_handle.
Definition _IamRolesProcessor : processor :=
  aws_leaf "roles" "List IAM roles" None [region_param; output_param "table"] iam_roles_handle.
Definition _IamPoliciesProcessor : processor :=
  aws_leaf "policies" "List IAM policies (local/customer-managed)" None [region_param; output_param "table"] iam_policies_handle.
Definition AwsIamProcessor : processor :=
  aws_parent "iam" "AWS IAM operations -- users, roles, policies"
    [_IamUsersProcessor; _IamRolesProcessor; _IamPoliciesProcessor].
Definition _AwsConfigureSetProcessor : processor :=
  aws_leaf "set" "Set AWS credentials and region" None
    [parameter "key" "AWS access key ID" false "string" ["-k"] VNone; parameter "secret" "AWS secret access key" false "string" ["-s"] VNone;
    parameter "region" "AWS region" false "string" ["-r"] VNone; parameter "profile" "AWS profile name" false "string" ["-p"] (VStr "default")] configure_set_handle.
Definition _AwsConfigureGetProcessor : processor :=
  aws_leaf "get" "Show current AWS configuration (secrets masked)" None [] configure_get_handle.
Definition _AwsConfigureProfilesProcessor : processor :=
  aws_leaf "profiles" "List available AWS profiles from ~/.aws/credentials and ~/.aws/config" None [] configure_profiles_handle.
Definition _AwsConfigureProcessor : processor :=
  aws_parent "configure" "Manage AWS credentials and configuration"
    [_AwsConfigureSetProcessor; _AwsConfigureGetProcessor; _AwsConfigureProfilesProcessor].
Definition _AwsStatusProcessor : processor :=
  aws_leaf "status" "Test AWS connectivity using STS GetCallerIdentity" None [] aws_status_handle.
Definition AwsCommandProcessor : processor :=
  aws_parent "aws" "AWS cloud resource management"
    [_AwsConfigureProcessor; _AwsStatusProcessor; AwsS3Processor; AwsEc2Processor; AwsLambdaProcessor; AwsCloudWatchProcessor; AwsSnsProcessor; AwsSqsProcessor; AwsEcsProcessor; AwsDynamoDbProcessor; AwsIamProcessor].
Definition new_aws (k : Sdk) : Aws := {| aws_config := new_config_service; _client_cache := []; sdk := k |}.
End Aws.
Arguments Aws : clear implicits.
