(* ===== verification/AwsSafety.v ===== *)
(** * What the commands of the AWS plugin do to AWS and to the kept clients

    Each command issues only its own operations, a dry run none; the client a
    command uses is one of the settings as they are now; the configuration is
    shown without the secret. *)

From S2P Require Import Prelude PyStr Values ShellWords Commands Outputs Aws.
From Stdlib Require Import Ascii.

Open Scope Z_scope.

(** ** Methods that change nothing *)

Definition unchanging {S E A} (m : py S E A) : Prop := ∀ s, (m s).2 = s.
Create HintDb aws_pure.

Section Pure.
Context {S E : Type}.
Lemma unchanging_ret {A} (a : A) : unchanging (mret a : py S E A).
Proof. done. Qed.
Lemma unchanging_raise {A} (e : E) : unchanging (raise e : py S E A).
Proof. done. Qed.
Lemma unchanging_gets {A} (f : S → A) : unchanging (gets f : py S E A).
Proof. done. Qed.
Lemma unchanging_bind {A C} (m : py S E A) (k : A → py S E C) : unchanging m → (∀ a, unchanging (k a)) → unchanging (m ≫= k).
Proof. intros Hm Hk s. rewrite py_bind_eq. specialize (Hm s). destruct (m s) as [[e|a] s']; simpl in Hm; subst s'; [done|apply Hk]. Qed.
Lemma unchanging_mapM {A C} (f : A → py S E C) l : (∀ x, unchanging (f x)) → unchanging (mapM f l).
Proof.
  intros Hf. induction l as [|x l IH]; [apply unchanging_ret|].
  cbn [mapM]. apply unchanging_bind; [done|]. intros y. apply unchanging_bind; [done|]. intros k. apply unchanging_ret.
Qed.
End Pure.
#[export] Hint Resolve unchanging_ret unchanging_raise unchanging_gets : aws_pure.

Ltac pure_step :=
  first
    [ solve [auto with aws_pure nocore]
    | apply unchanging_mapM; intros ?
    | match goal with
      | |- unchanging (match ?x with _ => _ end) => destruct x
      | |- unchanging (_ ≫= _) => apply unchanging_bind; [|intros ?]
      end
    | progress cbv zeta ].
Ltac pure_steps := repeat pure_step.

Section Aws.
Context {Sdk Client : Type} `{B : Boto Sdk Client} `{H : AwsHost}.
Abbreviation method := (py (Aws Sdk Client) aws_exn).
Abbreviation unchanging_method := (unchanging (S := Aws Sdk Client) (E := aws_exn)).

Lemma pure_wrong_type {A} v : unchanging (wrong_type v : method A).
Proof. apply unchanging_raise. Qed.
#[local] Hint Resolve pure_wrong_type : aws_pure.
Lemma pure_get_or v k d : unchanging (get_or v k d : method pyval).
Proof. unfold get_or. pure_steps. Qed.
Lemma pure_items_of v : unchanging (items_of v : method (list pyval)).
Proof. unfold items_of. pure_steps. Qed.
Lemma pure_date_or f v o : unchanging (date_or f v o : method string).
Proof. unfold date_or. pure_steps. Qed.
Lemma pure_output_text v : unchanging (output_text v : method string).
Proof. unfold output_text. pure_steps. Qed.
Lemma pure_arg_int name d c : unchanging (arg_int name d c : method (option Z)).
Proof. unfold arg_int. pure_steps. Qed.
Lemma pure_size_text v : unchanging (size_text v : method string).
Proof. unfold size_text. pure_steps. Qed.
Lemma pure_utc_of_ms v : unchanging (utc_of_ms v : method Z).
Proof. unfold utc_of_ms. pure_steps. Qed.
Lemma pure_arn_name v : unchanging (arn_name v : method pyval).
Proof. unfold arn_name. pure_steps. Qed.
#[local] Hint Resolve pure_get_or pure_items_of pure_date_or pure_output_text pure_arg_int pure_size_text pure_utc_of_ms pure_arn_name : aws_pure.
Lemma pure_str_cell v k d : unchanging (str_cell v k d : method pyval).
Proof. unfold str_cell. pure_steps. Qed.
Lemma pure_cells_of keys v : unchanging (cells_of keys v : method (list pyval)).
Proof. unfold cells_of. pure_steps. Qed.
Lemma pure_table_response c hs cells raw : unchanging (table_response c hs cells raw : method CliServerResponse).
Proof. unfold table_response, format_as_table. pure_steps. Qed.
Lemma pure_list_response c items raw : unchanging (list_response c items raw : method CliServerResponse).
Proof. unfold list_response, format_as_list. pure_steps. Qed.
Lemma pure_key_value_response entries : unchanging (key_value_response entries : method CliServerResponse).
Proof. unfold key_value_response, format_as_key_value. pure_steps. Qed.
#[local] Hint Resolve pure_str_cell pure_cells_of pure_table_response pure_list_response pure_key_value_response : aws_pure.
Lemma pure_name_tag tags : unchanging (name_tag tags : method pyval).
Proof. induction tags as [|t tags IH]; cbn [name_tag]; [apply unchanging_ret|]. pure_steps. Qed.
#[local] Hint Resolve pure_name_tag : aws_pure.
Lemma pure_name_of v : unchanging (name_of v : method pyval).
Proof. unfold name_of. pure_steps. Qed.
#[local] Hint Resolve pure_name_of : aws_pure.
Lemma pure_rows v :
  unchanging (bucket_line v : method pyval) ∧ unchanging (object_row v : method _) ∧ unchanging (instance_row v : method _) ∧
  unchanging (function_row v : method _) ∧ unchanging (metric_row v : method _) ∧ unchanging (cluster_row v : method _) ∧
  unchanging (service_row v : method _) ∧ unchanging (task_row v : method _) ∧ unchanging (policy_row v : method _) ∧
  unchanging (instance_entries v : method _) ∧ unchanging (table_entries v : method _) ∧
  (∀ n i, unchanging (principal_row n i v : method _)) ∧ (∀ f sep, unchanging (event_line f sep v : method _)).
Proof.
  unfold bucket_line, object_row, instance_row, function_row, metric_row, cluster_row, service_row, task_row, policy_row, instance_entries,
    table_entries, principal_row, event_line, dimension_text, group_text, key_text.
  split_and!; intros; pure_steps.
Qed.
Lemma pure_instances_of r : unchanging (instances_of r : method (list pyval)).
Proof. unfold instances_of. pure_steps. Qed.
#[local] Hint Resolve pure_instances_of : aws_pure.

(** ** What a command may do, from what its parts may do *)

Section Commands.
Context (P : Aws Sdk Client → Prop) (ok : string → Prop).
Context (Hcall : ∀ client op kwargs, ok op → keeps P (call client op kwargs)).
Context (Hpages : ∀ client op kwargs, ok op → keeps P (boto (boto_pages client op kwargs))).
Context (Hpresign : ∀ client op kwargs z, ok "generate_presigned_url" → keeps P (boto (boto_presign client op kwargs z))).
Context (Hread : ∀ v, keeps P (boto (boto_read v))).
Context (Hclient : ∀ service region, has_char ":"%char service = false → keeps P (get_client service region)).
Context (Hset : ∀ f, keeps P (set_and_clear f)).

Lemma keeps_unchanging {A} (m : method A) : unchanging m → keeps P m.
Proof. apply keeps_same. Qed.
Lemma keeps_handler h c : keeps P (h c) → keeps P (as_handler h c).
Proof. intros Hh s Hs. unfold as_handler. specialize (Hh s Hs). by destruct (h c s). Qed.
Lemma keeps_payload r d : keeps P (payload_or r d).
Proof. unfold payload_or. destruct (dict_get "Payload" r); [apply Hread|by apply keeps_same]. Qed.
Lemma keeps_region_client service c : has_char ":"%char service = false → keeps P (region_client service c).
Proof. apply Hclient. Qed.
End Commands.

Ltac keeps_step :=
  first
    [ assumption
    | apply keeps_unchanging; solve [auto with aws_pure nocore | apply unchanging_mapM; intros ?; first [apply pure_rows | pure_steps]
                                    | apply pure_rows | pure_steps]
    | match goal with
      | |- keeps _ (region_client _ _) => apply keeps_region_client; [assumption|reflexivity]
      | |- keeps _ (get_client _ _) => match goal with Hc : ∀ _ _, _ → keeps _ (get_client _ _) |- _ => apply Hc; reflexivity end
      | |- keeps _ (set_and_clear _) => match goal with Hs : ∀ _, keeps _ (set_and_clear _) |- _ => apply Hs end
      | |- keeps _ (payload_or _ _) => by apply keeps_payload
      | |- keeps _ (call _ _ _) => match goal with Hc : ∀ _ _ _, _ → keeps _ (call _ _ _) |- _ => apply Hc; apply_ok end
      | |- keeps _ (boto (boto_pages _ _ _)) => match goal with Hc : ∀ _ _ _, _ → keeps _ (boto (boto_pages _ _ _)) |- _ => apply Hc; apply_ok end
      | |- keeps _ (boto (boto_presign _ _ _ _)) => match goal with Hc : ∀ _ _ _ _, _ → keeps _ (boto (boto_presign _ _ _ _)) |- _ => apply Hc; apply_ok end
      | |- keeps _ (or_failed _ _) => unfold or_failed
      | |- keeps _ (try_except _ _) => apply keeps_try; [|intros ?]
      | |- keeps _ (match ?x with _ => _ end) => destruct x eqn:?
      | |- keeps _ (_ ≫= _) => apply keeps_bind; [|intros ?]
      end
    | progress cbv zeta ]
with apply_ok := match goal with Hok : ∀ op, op ∈ _ → ?ok op |- ?ok _ => apply Hok; set_solver end.
Ltac keeps_steps := repeat keeps_step.

(** *** The operations of every command *)

Definition dry_run_commands : list (list string) := [["s3"; "rm"]; ["s3"; "rb"]; ["ec2"; "stop"]; ["ec2"; "reboot"]; ["sqs"; "purge"]].
Definition aws_operations : list (list string * list string) :=
  [(["status"], ["get_caller_identity"]);
   (["s3"; "ls"], ["list_buckets"; "list_objects_v2"]); (["s3"; "cp"], ["copy_object"]); (["s3"; "rm"], ["delete_object"]);
   (["s3"; "mb"], ["create_bucket"]); (["s3"; "rb"], ["delete_bucket"]); (["s3"; "presign"], ["generate_presigned_url"]);
   (["ec2"; "list"], ["describe_instances"]); (["ec2"; "describe"], ["describe_instances"]); (["ec2"; "start"], ["start_instances"]);
   (["ec2"; "stop"], ["stop_instances"]); (["ec2"; "reboot"], ["reboot_instances"]); (["ec2"; "sg"; "list"], ["describe_security_groups"]);
   (["lambda"; "list"], ["list_functions"]); (["lambda"; "invoke"], ["invoke"]); (["lambda"; "logs"], ["filter_log_events"]);
   (["cloudwatch"; "alarms"], ["describe_alarms"]); (["cloudwatch"; "logs"], ["filter_log_events"]); (["cloudwatch"; "metrics"], ["list_metrics"]);
   (["sns"; "topics"], ["list_topics"]); (["sns"; "publish"], ["publish"]); (["sns"; "subscriptions"], ["list_subscriptions"; "list_subscriptions_by_topic"]);
   (["sqs"; "list"], ["list_queues"]); (["sqs"; "send"], ["send_message"]); (["sqs"; "receive"], ["receive_message"]); (["sqs"; "purge"], ["purge_queue"]);
   (["ecs"; "clusters"], ["list_clusters"; "describe_clusters"]); (["ecs"; "services"], ["list_services"; "describe_services"]);
   (["ecs"; "tasks"], ["list_tasks"; "describe_tasks"]);
   (["dynamodb"; "tables"], ["list_tables"]); (["dynamodb"; "describe"], ["describe_table"]); (["dynamodb"; "scan"], ["scan"]); (["dynamodb"; "query"], ["query"]);
   (["iam"; "users"], ["list_users"]); (["iam"; "roles"], ["list_roles"]); (["iam"; "policies"], ["list_policies"])].
(** The words of a command are found in any case. *)
Definition operations_of (path : list string) (dry_run : bool) : list string :=
  if bool_decide (path ∈ dry_run_commands) && dry_run then [] else default [] (dict_get path aws_operations).

(** ** The tree *)

Lemma find_sub_spec {World Response} (subs : list (ICliCommandProcessor World Response)) x p :
  find_sub subs x = Some p → p ∈ subs ∧ lower (cmd p) = lower x.
Proof. unfold find_sub. intros Hf. apply find_some in Hf as [Hin Hx]. split; [by apply list_elem_of_In|]. by apply bool_decide_eq_true in Hx. Qed.
Lemma resolve_cons {World Response} (p q : ICliCommandProcessor World Response) x chain :
  allow_unlisted p = false → _resolve_chain p (x :: chain) = Some q →
  ∃ r, r ∈ processors p ∧ lower (cmd r) = lower x ∧ _resolve_chain r chain = Some q.
Proof.
  intros Hu. cbn [_resolve_chain]. rewrite Hu. destruct (processors p) as [|r0 subs]; [done|].
  destruct (find_sub (r0 :: subs) x) as [r|] eqn:Hf; [|done]. apply find_sub_spec in Hf as [Hin Hx]. eauto.
Qed.

(** The commands of the tree with what they run: every other node only groups
    commands. *)
Definition aws_leaves : list (list string * (CliProcessCommand → method CliServerResponse)) :=
  [(["configure"; "set"], configure_set_handle); (["configure"; "get"], configure_get_handle);
   (["configure"; "profiles"], configure_profiles_handle); (["status"], aws_status_handle); (["s3"; "ls"], s3_ls_handle);
   (["s3"; "cp"], s3_cp_handle); (["s3"; "rm"], s3_rm_handle); (["s3"; "mb"], s3_mb_handle); (["s3"; "rb"], s3_rb_handle);
   (["s3"; "presign"], s3_presign_handle); (["ec2"; "list"], ec2_list_handle); (["ec2"; "describe"], ec2_describe_handle);
   (["ec2"; "start"], ec2_start_handle); (["ec2"; "stop"], ec2_stop_handle); (["ec2"; "reboot"], ec2_reboot_handle);
   (["ec2"; "sg"; "list"], ec2_sg_list_handle); (["lambda"; "list"], lambda_list_handle); (["lambda"; "invoke"], lambda_invoke_handle);
   (["lambda"; "logs"], lambda_logs_handle); (["cloudwatch"; "alarms"], cloudwatch_alarms_handle);
   (["cloudwatch"; "logs"], cloudwatch_logs_handle); (["cloudwatch"; "metrics"], cloudwatch_metrics_handle);
   (["sns"; "topics"], sns_topics_handle); (["sns"; "publish"], sns_publish_handle); (["sns"; "subscriptions"], sns_subscriptions_handle);
   (["sqs"; "list"], sqs_list_handle); (["sqs"; "send"], sqs_send_handle); (["sqs"; "receive"], sqs_receive_handle);
   (["sqs"; "purge"], sqs_purge_handle); (["ecs"; "clusters"], ecs_clusters_handle); (["ecs"; "services"], ecs_services_handle);
   (["ecs"; "tasks"], ecs_tasks_handle); (["dynamodb"; "tables"], dynamodb_tables_handle);
   (["dynamodb"; "describe"], dynamodb_describe_handle); (["dynamodb"; "scan"], dynamodb_scan_handle);
   (["dynamodb"; "query"], dynamodb_query_handle); (["iam"; "users"], iam_users_handle); (["iam"; "roles"], iam_roles_handle);
   (["iam"; "policies"], iam_policies_handle)].

(** The nodes below a node are those of its list; a leaf has none. *)
Ltac each_node Hin := repeat (apply elem_of_cons in Hin as [->|Hin]); [..|by apply elem_of_nil in Hin].
Ltac below Hr :=
  apply resolve_cons in Hr as (?r & Hin & Ha & Hr); [|reflexivity]; rewrite <-Ha; clear Ha;
  match type of Hin with _ ∈ processors ?q => let l := eval hnf in (processors q) in change (processors q) with l in Hin end;
  each_node Hin.
Ltac at_leaf Hr :=
  match type of Hr with
  | _resolve_chain _ ?chain = Some _ =>
      destruct chain; [injection Hr as <-|apply resolve_cons in Hr as (? & Hr & _); [by apply elem_of_nil in Hr|reflexivity]];
      right; eexists; split; [|reflexivity]; cbn [map];
      match goal with |- (?path, _) ∈ _ => let path' := eval vm_compute in path in change path with path' end;
      unfold aws_leaves; repeat first [apply list_elem_of_here | apply list_elem_of_further]
  end.
Ltac at_node Hr := match type of Hr with _resolve_chain _ ?chain = Some _ => destruct chain; [injection Hr as <-; by left|]; cbn [map]; below Hr end.
Lemma tree_leaf chain p :
  _resolve_chain AwsCommandProcessor chain = Some p → p_handle_structured_async (info p) = no_handler ∨
  ∃ h, (map lower chain, h) ∈ aws_leaves ∧ p_handle_structured_async (info p) = as_handler h.
Proof. intros Hr. at_node Hr. all: try at_leaf Hr. all: at_node Hr. all: try at_leaf Hr. at_node Hr. at_leaf Hr. Qed.

Section Tree.
Context (P : Aws Sdk Client → Prop) (ok : string → Prop).
Context (Hcall : ∀ client op kwargs, ok op → keeps P (call client op kwargs)).
Context (Hpages : ∀ client op kwargs, ok op → keeps P (boto (boto_pages client op kwargs))).
Context (Hpresign : ∀ client op kwargs z, ok "generate_presigned_url" → keeps P (boto (boto_presign client op kwargs z))).
Context (Hread : ∀ v, keeps P (boto (boto_read v))).
Context (Hclient : ∀ service region, has_char ":"%char service = false → keeps P (get_client service region)).
Context (Hset : ∀ f, keeps P (set_and_clear f)).

Lemma configure_set_keeps c : keeps P (configure_set_handle c).
Proof. unfold configure_set_handle. keeps_steps. Qed.
Lemma s3_keeps c :
  ((∀ op, op ∈ ["list_buckets"; "list_objects_v2"] → ok op) → keeps P (s3_ls_handle c)) ∧
  ((∀ op, op ∈ ["copy_object"] → ok op) → keeps P (s3_cp_handle c)) ∧
  ((∀ op, op ∈ (if is_dry_run c then [] else ["delete_object"]) → ok op) → keeps P (s3_rm_handle c)) ∧
  ((∀ op, op ∈ ["create_bucket"] → ok op) → keeps P (s3_mb_handle c)) ∧
  ((∀ op, op ∈ (if is_dry_run c then [] else ["delete_bucket"]) → ok op) → keeps P (s3_rb_handle c)) ∧
  ((∀ op, op ∈ ["generate_presigned_url"] → ok op) → keeps P (s3_presign_handle c)).
Proof.
  unfold s3_ls_handle, s3_cp_handle, s3_rm_handle, s3_mb_handle, s3_rb_handle, s3_presign_handle.
  split_and!; intros Hok; keeps_steps.
Qed.
Lemma ec2_keeps c :
  ((∀ op, op ∈ ["describe_instances"] → ok op) → keeps P (ec2_list_handle c) ∧ keeps P (ec2_describe_handle c)) ∧
  ((∀ op, op ∈ ["start_instances"] → ok op) → keeps P (ec2_start_handle c)) ∧
  ((∀ op, op ∈ (if is_dry_run c then [] else ["stop_instances"]) → ok op) → keeps P (ec2_stop_handle c)) ∧
  ((∀ op, op ∈ (if is_dry_run c then [] else ["reboot_instances"]) → ok op) → keeps P (ec2_reboot_handle c)) ∧
  ((∀ op, op ∈ ["describe_security_groups"] → ok op) → keeps P (ec2_sg_list_handle c)).
Proof.
  unfold ec2_list_handle, ec2_describe_handle, ec2_start_handle, ec2_stop_handle, ec2_reboot_handle, ec2_sg_list_handle.
  split_and!; intros Hok; [split|..]; keeps_steps.
Qed.
Lemma lambda_keeps c :
  ((∀ op, op ∈ ["list_functions"] → ok op) → keeps P (lambda_list_handle c)) ∧ ((∀ op, op ∈ ["invoke"] → ok op) → keeps P (lambda_invoke_handle c)) ∧
  ((∀ op, op ∈ ["filter_log_events"] → ok op) → keeps P (lambda_logs_handle c) ∧ keeps P (cloudwatch_logs_handle c)) ∧
  ((∀ op, op ∈ ["describe_alarms"] → ok op) → keeps P (cloudwatch_alarms_handle c)) ∧ ((∀ op, op ∈ ["list_metrics"] → ok op) → keeps P (cloudwatch_metrics_handle c)).
Proof.
  unfold lambda_list_handle, lambda_invoke_handle, lambda_logs_handle, cloudwatch_logs_handle, cloudwatch_alarms_handle, cloudwatch_metrics_handle.
  split_and!; intros Hok; try split; keeps_steps.
Qed.
Lemma messages_keep c :
  ((∀ op, op ∈ ["list_topics"] → ok op) → keeps P (sns_topics_handle c)) ∧ ((∀ op, op ∈ ["publish"] → ok op) → keeps P (sns_publish_handle c)) ∧
  ((∀ op, op ∈ ["list_subscriptions"; "list_subscriptions_by_topic"] → ok op) → keeps P (sns_subscriptions_handle c)) ∧
  ((∀ op, op ∈ ["list_queues"] → ok op) → keeps P (sqs_list_handle c)) ∧ ((∀ op, op ∈ ["send_message"] → ok op) → keeps P (sqs_send_handle c)) ∧
  ((∀ op, op ∈ ["receive_message"] → ok op) → keeps P (sqs_receive_handle c)) ∧
  ((∀ op, op ∈ (if is_dry_run c then [] else ["purge_queue"]) → ok op) → keeps P (sqs_purge_handle c)).
Proof.
  unfold sns_topics_handle, sns_publish_handle, sns_subscriptions_handle, sqs_list_handle, sqs_send_handle, sqs_receive_handle, sqs_purge_handle.
  split_and!; intros Hok; keeps_steps.
Qed.
Lemma ecs_keeps c :
  ((∀ op, op ∈ ["list_clusters"; "describe_clusters"] → ok op) → keeps P (ecs_clusters_handle c)) ∧
  ((∀ op, op ∈ ["list_services"; "describe_services"] → ok op) → keeps P (ecs_services_handle c)) ∧
  ((∀ op, op ∈ ["list_tasks"; "describe_tasks"] → ok op) → keeps P (ecs_tasks_handle c)).
Proof. unfold ecs_clusters_handle, ecs_services_handle, ecs_tasks_handle. split_and!; intros Hok; keeps_steps. Qed.
Lemma tables_keep c :
  ((∀ op, op ∈ ["list_tables"] → ok op) → keeps P (dynamodb_tables_handle c)) ∧ ((∀ op, op ∈ ["describe_table"] → ok op) → keeps P (dynamodb_describe_handle c)) ∧
  ((∀ op, op ∈ ["scan"] → ok op) → keeps P (dynamodb_scan_handle c)) ∧ ((∀ op, op ∈ ["query"] → ok op) → keeps P (dynamodb_query_handle c)) ∧
  ((∀ op, op ∈ ["list_users"] → ok op) → keeps P (iam_users_handle c)) ∧ ((∀ op, op ∈ ["list_roles"] → ok op) → keeps P (iam_roles_handle c)) ∧
  ((∀ op, op ∈ ["list_policies"] → ok op) → keeps P (iam_policies_handle c)).
Proof.
  unfold dynamodb_tables_handle, dynamodb_describe_handle, dynamodb_scan_handle, dynamodb_query_handle, iam_users_handle, iam_roles_handle, iam_policies_handle.
  split_and!; intros Hok; keeps_steps.
Qed.
Lemma others_keep c :
  ((∀ op, op ∈ ["get_caller_identity"] → ok op) → keeps P (aws_status_handle c)) ∧ keeps P (configure_set_handle c) ∧
  keeps P (configure_get_handle c) ∧ keeps P (configure_profiles_handle c).
Proof.
  unfold aws_status_handle, configure_set_handle, configure_get_handle, configure_profiles_handle, format_as_list, format_as_key_value.
  split_and!; [intros Hok|..]; keeps_steps.
Qed.

(** The operations of a path that is known *)
Ltac path_ops Hok :=
  match type of Hok with
  | ∀ op, op ∈ operations_of ?path ?d → _ =>
      let f := eval vm_compute in (operations_of path) in let l := eval cbv beta in (f d) in change (operations_of path d) with l in Hok
  end.
Lemma command_keeps chain p c :
  _resolve_chain AwsCommandProcessor chain = Some p → (∀ op, op ∈ operations_of (map lower chain) (is_dry_run c) → ok op) →
  keeps P (p_handle_structured_async (info p) c).
Proof.
  intros [->|(h & Hin & ->)]%tree_leaf Hok; [by apply keeps_same|]. apply keeps_handler.
  pose proof (s3_keeps c) as Hs3. pose proof (ec2_keeps c) as Hec2. pose proof (lambda_keeps c) as Hlambda. pose proof (messages_keep c) as Hmessages.
  pose proof (ecs_keeps c) as Hecs. pose proof (tables_keep c) as Htables. pose proof (others_keep c) as Hothers.
  unfold aws_leaves in Hin. repeat (apply elem_of_cons in Hin as [[= Hpath ->]|Hin]; [rewrite Hpath in Hok; clear Hpath|]); [..|by apply elem_of_nil in Hin].
  all: path_ops Hok; by first [apply Hothers|apply Hs3|apply Hec2|apply Hlambda|apply Hmessages|apply Hecs|apply Htables].
Qed.
End Tree.

(** ** The clients are of the settings in force *)

Definition aws_registry : CliCommandRegistry (Aws Sdk Client) CliServerResponse := register AwsCommandProcessor [].
(** A command of a user, whatever comes of it *)
Definition run_aws (s : Aws Sdk Client) (command : list string * CliProcessCommand) : Aws Sdk Client :=
  match find_processor aws_registry "aws" command.1 with Some p => (p_handle_structured_async (info p) command.2 s).2 | None => s end.
Lemma find_aws chain p : find_processor aws_registry "aws" chain = Some p → _resolve_chain AwsCommandProcessor chain = Some p.
Proof. unfold find_processor. change (dict_get (lower "aws") aws_registry) with (Some (AwsCommandProcessor (Sdk := Sdk) (Client := Client))). by destruct chain. Qed.

Section Clients.
Context (made : Client → string → dict string string → Prop).
(** [made] is what [boto3.client] was given for a client. *)
Definition clients_made : Prop := ∀ service kwargs k client k', boto_client service kwargs k = (inr client, k') → made client service kwargs.
Definition cache_current (s : Aws Sdk Client) : Prop := ∀ key client, dict_get key (_client_cache s) = Some client →
  ∃ service region, has_char ":"%char service = false ∧ key = cache_key service region (aws_config s) ∧
    made client service (client_kwargs region (aws_config s)).

Lemma app_inj_r (a b t : string) : a +:+ t = b +:+ t → a = b.
Proof.
  intros Ht. rewrite <-(str_chars a), <-(str_chars b). f_equal. apply (app_inv_tail (chars t)). by rewrite <-!chars_app, Ht.
Qed.
Lemma upto_colon (a b t u : string) : has_char ":"%char a = false → has_char ":"%char b = false → a +:+ ":" +:+ t = b +:+ ":" +:+ u → a = b ∧ t = u.
Proof.
  revert b. induction a as [|x a IH]; intros [|y b]; unfold has_char; cbn -[Ascii.eqb]; intros Ha Hb; rewrite ?cons_str_app; intros Ht.
  - by injection Ht.
  - injection Ht as <- _. by rewrite Ascii.eqb_refl in Hb.
  - injection Ht as -> _. by rewrite Ascii.eqb_refl in Ha.
  - apply orb_false_iff in Ha as [_ Ha], Hb as [_ Hb]. injection Ht as -> Ht. by destruct (IH b Ha Hb Ht) as [-> ->].
Qed.
Lemma cache_key_inj service service' region region' c :
  has_char ":"%char service = false → has_char ":"%char service' = false → cache_key service region c = cache_key service' region' c →
  service = service' ∧ default "default" region = default "default" region'.
Proof.
  unfold cache_key. intros Hs Hs' Hk. destruct (upto_colon _ _ _ _ Hs Hs' Hk) as [-> Hk']. split; [done|]. by apply app_inj_r in Hk'.
Qed.
Lemma get_client_current service region :
  clients_made → has_char ":"%char service = false → ∀ s, cache_current s →
  let '(r, s') := get_client service region s in
  cache_current s' ∧ aws_config s' = aws_config s ∧
  ∀ client, r = inr client → ∃ region', default "default" region' = default "default" (effective_region region (aws_config s)) ∧
    made client service (client_kwargs region' (aws_config s)).
Proof.
  intros Hmade Hs s Hc. unfold get_client. rewrite !py_bind_eq. unfold gets at 1. cbn [fst snd]. rewrite py_bind_eq. unfold gets. cbn [fst snd]. cbv zeta.
  destruct (dict_get _ _) as [client|] eqn:Hk.
  - split_and!; [done..|]. intros ? [= <-]. destruct (Hc _ _ Hk) as (service' & region' & Hs' & Heq & Hm).
    apply cache_key_inj in Heq as [-> Heq]; [|done..]. eauto.
  - rewrite py_bind_eq. unfold boto. destruct (boto_client _ _ (sdk s)) as [[e|client] k'] eqn:Hb; [by split_and!|].
    rewrite py_bind_eq. unfold set_cache, modify. cbn. apply Hmade in Hb. split_and!; [|done|].
    + intros key client'. cbn. destruct (decide (cache_key service (effective_region region (aws_config s)) (aws_config s) = key)) as [<-|Hne].
      * rewrite dict_get_set_eq. intros [= <-]. eauto.
      * rewrite dict_get_set_ne by done. apply Hc.
    + intros ? [= <-]. eauto.
Qed.
Lemma boto_current {A} (m : py Sdk aws_exn A) : keeps cache_current (boto m).
Proof. intros s Hs. unfold boto. by destruct (m (sdk s)). Qed.
Lemma run_current s command : clients_made → cache_current s → cache_current (run_aws s command).
Proof.
  intros Hmade Hs. unfold run_aws. destruct (find_processor _ _ _) as [p|] eqn:Hf; [|done]. apply find_aws in Hf.
  revert s Hs. apply (command_keeps cache_current (λ _, True) (λ _ _ _ _, boto_current _) (λ _ _ _ _, boto_current _) (λ _ _ _ _ _, boto_current _)
    (λ _, boto_current _)) with command.1; [| |done|done].
  - intros service region Hsv s Hs. pose proof (get_client_current service region Hmade Hsv s Hs) as Hg. destruct (get_client service region s) as [r s']. by destruct Hg as (? & _).
  - by intros f s Hs key client.
Qed.

(** Clients are kept between commands, and yet, whatever commands ran, settings
    changed and calls failed: the client a command gets was made with the
    credentials in force now, for its service and for the region in force (no
    region and one called default share a client). *)
Theorem clients_are_current k history service region client :
  clients_made → has_char ":"%char service = false →
  let s := foldl run_aws (new_aws k) history in
  (get_client service region s).1 = inr client →
  ∃ region', default "default" region' = default "default" (effective_region region (aws_config s)) ∧
    made client service (client_kwargs region' (aws_config s)).
Proof.
  intros Hmade Hs s Hg. assert (Hc : cache_current s).
  { subst s. assert (H0 : cache_current (new_aws k)) by done. revert H0. generalize (new_aws k : Aws Sdk Client) as s0. clear Hg.
    induction history as [|command history IH]; intros s0 H0; [done|]. by apply IH, run_current. }
  pose proof (get_client_current service region Hmade Hs s Hc) as Hr. destruct (get_client service region s) as [r s']. cbn in Hg. subst r.
  destruct Hr as (_ & _ & Hr). by apply Hr.
Qed.
End Clients.
End Aws.

(** ** What is called *)

Section Calls.
Context {Sdk Client : Type} `{B : Boto Sdk Client} `{H : AwsHost}.

(** boto3 that notes the operations it is asked for *)
Definition noted {A} (op : string) (m : py Sdk aws_exn A) : py (Sdk * list string) aws_exn A := λ '(k, l), let '(r, k) := m k in (r, (k, l ++ [op])).
Definition unnoted {A} (m : py Sdk aws_exn A) : py (Sdk * list string) aws_exn A := λ '(k, l), let '(r, k) := m k in (r, (k, l)).
#[local] Instance noting_boto : Boto (Sdk * list string) Client := {|
  boto_client service kwargs := unnoted (boto_client service kwargs);
  boto_call client op kwargs := noted op (boto_call client op kwargs);
  boto_pages client op kwargs := noted op (boto_pages client op kwargs);
  boto_presign client op kwargs z := noted "generate_presigned_url" (boto_presign client op kwargs z);
  boto_read v := unnoted (boto_read v) |}.

Definition noted_only (ok : string → Prop) (l0 : list string) (s : Aws (Sdk * list string) Client) : Prop := ∃ l, (sdk s).2 = l0 ++ l ∧ Forall ok l.
Lemma unnoted_keeps {A} ok l0 (m : py Sdk aws_exn A) : keeps (noted_only ok l0) (boto (Client := Client) (unnoted m)).
Proof. intros s (l & Hl & Hok). unfold boto, unnoted. destruct (sdk s) as [k l'] eqn:Hs. destruct (m k) as [r k']. by exists l. Qed.
Lemma noted_keeps {A} (ok : string → Prop) l0 op (m : py Sdk aws_exn A) : ok op → keeps (noted_only ok l0) (boto (Client := Client) (noted op m)).
Proof.
  intros Hop s (l & Hl & Hok). unfold boto, noted. destruct (sdk s) as [k l'] eqn:Hs. destruct (m k) as [r k']. exists (l ++ [op]). cbn in *.
  subst l'. split; [by rewrite app_assoc|]. apply Forall_app. split; [done|by apply Forall_singleton].
Qed.
Lemma modify_noted ok l0 (f : Aws (Sdk * list string) Client → Aws (Sdk * list string) Client) :
  (∀ s, sdk (f s) = sdk s) → keeps (noted_only ok l0) (modify (E := aws_exn) f).
Proof. intros Hf s (l & Hl & Hok). exists l. cbn. by rewrite Hf. Qed.

End Calls.

(** ** Failures *)

Section Answers.
Context {Sdk Client : Type} `{B : Boto Sdk Client} `{H : AwsHost}.
Abbreviation method := (py (Aws Sdk Client) aws_exn).

Definition answers {A} (m : method A) : Prop := ∀ s, ∃ a, (m s).1 = inr a.
Lemma answers_ret {A} (a : A) : answers (mret a).
Proof. intros s. by exists a. Qed.
Lemma answers_gets {A} (f : Aws Sdk Client → A) : answers (gets f).
Proof. intros s. by exists (f s). Qed.
Lemma answers_bind {A C} (m : method A) (k : A → method C) : answers m → (∀ a, answers (k a)) → answers (m ≫= k).
Proof. intros Hm Hk s. rewrite py_bind_eq. destruct (Hm s) as [a Ha]. destruct (m s) as [r s']. cbn in Ha. subst r. apply Hk. Qed.
Lemma answers_or_failed failed body : answers (or_failed failed body).
Proof. intros s. unfold or_failed, try_except. destruct (body s) as [[e|a] s']; cbn; eauto. Qed.
Lemma answers_set_and_clear f : answers (set_and_clear f).
Proof. intros s. by exists tt. Qed.
Lemma answers_texts {A} (l : list A) (f : A → string) (g : A → pyval) : (∀ x, g x = VStr (f x)) →
  answers (format_as_list (Sdk := Sdk) (Client := Client) (map g l)).
Proof.
  intros Hg. unfold format_as_list. apply answers_bind; [|intros; apply answers_ret].
  induction l as [|x l IH]; cbn [map mapM]; [apply answers_ret|]. apply answers_bind; [rewrite Hg; apply answers_ret|].
  intros t. apply answers_bind; [done|]. intros k. apply answers_ret.
Qed.
Lemma answers_entries (l : list (string * string)) : answers (key_value_response (Sdk := Sdk) (Client := Client) (map (λ kv, (kv.1, VStr kv.2)) l)).
Proof.
  unfold key_value_response, format_as_key_value. apply answers_bind; [|intros; apply answers_ret]. apply answers_bind; [|intros; apply answers_ret].
  induction l as [|x l IH]; cbn [map mapM]; [apply answers_ret|]. apply answers_bind; [apply answers_ret|].
  intros t. apply answers_bind; [done|]. intros k. apply answers_ret.
Qed.

Context (Hclient : ∀ service kwargs (k : Sdk), ∃ client, (boto_client service kwargs k).1 = inr client).
Lemma answers_client service region : answers (get_client service region).
Proof.
  unfold get_client. apply answers_bind; [apply answers_gets|]. intros cfg. apply answers_bind; [apply answers_gets|]. intros cache. cbv zeta.
  destruct (dict_get _ _); [apply answers_ret|]. apply answers_bind.
  - intros s. destruct (Hclient service (client_kwargs (effective_region region cfg) cfg) (sdk s)) as [client Hc].
    exists client. unfold boto. destruct (boto_client _ _ _). done.
  - intros client. apply answers_bind; [intros s; by exists tt|]. intros _. apply answers_ret.
Qed.
Lemma answers_region_client service c : answers (region_client service c).
Proof. apply answers_client. Qed.

(** No argument is an infinity. *)
Definition finite_args (c : CliProcessCommand) : Prop := ∀ name r, dict_get name (args c) = Some (VFloat r) → r ≠ "inf" ∧ r ≠ "-inf".
Lemma answers_int name d c : finite_args c → answers (arg_int (Sdk := Sdk) (Client := Client) name d c).
Proof.
  intros Hf. unfold arg_int. destruct (dict_get name (args c)) as [v|] eqn:Hv; [|apply answers_ret].
  destruct v; try apply answers_ret. rewrite bool_decide_eq_false_2; [apply answers_ret|]. destruct (Hf _ _ Hv). set_solver.
Qed.

Ltac answers_steps :=
  repeat first
    [ apply answers_ret | apply answers_gets | apply answers_or_failed | apply answers_set_and_clear | apply answers_region_client
    | apply answers_int; assumption
    | match goal with
      | |- answers (match ?x with _ => _ end) => destruct x
      | |- answers (_ ≫= _) => apply answers_bind; [|intros ?]
      end
    | progress cbv zeta ].
Lemma answers_handler h c : answers (h c) → ∀ s, ∃ r, (as_handler h c s).1 = inr (Some r).
Proof. intros Ha s. unfold as_handler. destruct (Ha s) as [r Hr]. destruct (h c s) as [x s']. cbn in Hr. subst x. by exists r. Qed.
Lemma answers_status c : answers (aws_status_handle c).
Proof.
  intros s. unfold aws_status_handle, try_except. match goal with |- context [match ?m s with _ => _ end] => destruct (m s) as [[e|a] s'] end; cbn; eauto.
Qed.
Lemma answers_get c : answers (configure_get_handle c).
Proof.
  unfold configure_get_handle. apply answers_bind; [apply answers_gets|]. intros cfg. cbv zeta. unfold summary_or.
  apply (answers_entries [(_, _); (_, _); (_, _); (_, _)]).
Qed.
Lemma answers_profiles c : answers (configure_profiles_handle c).
Proof.
  unfold configure_profiles_handle. cbv zeta. destruct (py_sort _ _); [apply answers_ret|]. apply answers_bind; [|intros; apply answers_ret].
  by apply (answers_texts _ id).
Qed.
Lemma leaves_answer c path h : finite_args c → (path, h) ∈ aws_leaves → answers (h c).
Proof.
  intros Hf Hin. unfold aws_leaves in Hin. repeat (apply elem_of_cons in Hin as [[= _ ->]|Hin]); [..|by apply elem_of_nil in Hin].
  all: first [apply answers_status|apply answers_get|apply answers_profiles|idtac].
  all: unfold s3_ls_handle, s3_cp_handle, s3_rm_handle, s3_mb_handle, s3_rb_handle, s3_presign_handle, ec2_list_handle,
    ec2_describe_handle, ec2_start_handle, ec2_stop_handle, ec2_reboot_handle, ec2_sg_list_handle, lambda_list_handle,
    lambda_invoke_handle, lambda_logs_handle, cloudwatch_alarms_handle, cloudwatch_logs_handle, cloudwatch_metrics_handle,
    sns_topics_handle, sns_publish_handle, sns_subscriptions_handle, sqs_list_handle, sqs_send_handle, sqs_receive_handle,
    sqs_purge_handle, ecs_clusters_handle, ecs_services_handle, ecs_tasks_handle, dynamodb_tables_handle, dynamodb_describe_handle,
    dynamodb_scan_handle, dynamodb_query_handle, iam_users_handle, iam_roles_handle, iam_policies_handle, configure_set_handle; answers_steps.
Qed.

(** Whatever AWS answers, an error, a value of another type or a text where there
    should be none: a command answers the user and raises nothing, unless its
    client cannot be made or a number it is given is infinite. *)
Theorem aws_answers chain p c s :
  find_processor aws_registry "aws" chain = Some p → finite_args c →
  ∃ r, (p_handle_structured_async (info p) c s).1 = inr r.
Proof.
  intros Hf Hc. apply find_aws in Hf. destruct (tree_leaf _ _ Hf) as [->|(h & Hin & ->)]; [by exists None|].
  destruct (answers_handler h c (leaves_answer c _ h Hc Hin) s) as [r Hr]. eauto.
Qed.
End Answers.

(** ** What the configuration shows *)

Lemma mask_key_shows key key' : take_str 4 key = take_str 4 key' → drop_str (len key - 5) key = drop_str (len key' - 5) key' →
  (8 < len key)%nat → (8 < len key')%nat → _mask_key key = _mask_key key'.
Proof.
  intros H1 H2 H3 H4. unfold _mask_key. destruct (Nat.leb_spec (len key) 8); [lia|]. destruct (Nat.leb_spec (len key') 8); [lia|]. by rewrite H1, H2.
Qed.
(** [aws configure get] shows of the secret only whether there is one. *)
Theorem configure_hides_secret {Sdk Client} c (s s' : Aws Sdk Client) :
  _access_key_id (aws_config s) = _access_key_id (aws_config s') → _region (aws_config s) = _region (aws_config s') →
  _profile (aws_config s) = _profile (aws_config s') →
  truthy_opt (_secret_access_key (aws_config s)) = truthy_opt (_secret_access_key (aws_config s')) →
  ∀ `{H : AwsHost}, (configure_get_handle c s).1 = (configure_get_handle c s').1.
Proof.
  intros Hk Hr Hp Hs H. unfold configure_get_handle. rewrite !py_bind_eq. unfold gets. cbn [fst snd]. cbv zeta.
  unfold get_config_summary. by rewrite Hk, Hr, Hp, Hs.
Qed.

(** ** Examples *)

Module AwsExample.
#[local] Instance example_host : AwsHost := {|
  environ := λ n, if bool_decide (n = "AWS_REGION") then Some "us-east-1" else None;
  credentials_file := Some (join line_break ["[default]"; "aws_access_key_id = x"; " [ work ] "; "[open"]);
  config_file := Some (join line_break ["[default]"; "[profile home]"; "[profile ]"; "[profile  ]"; "[profiles]"]);
  float_int := λ _, None; str_time := λ _, ""; json_loads := λ _, None; type_error := λ _, "type"; refused_output := λ _, "refused" |}.
(** A client is what it was made with, and every answer is empty. *)
#[local] Instance example_boto : Boto unit (string * dict string string) := {|
  boto_client service kwargs := mret (service, kwargs); boto_call _ _ _ := mret []; boto_pages _ _ _ := mret []; boto_presign _ _ _ _ := mret "";
  boto_read _ := mret "" |}.
#[local] Existing Instance noting_boto.
Definition aws_command (value : string) (given : dict string pyval) : CliProcessCommand :=
  {| command := "aws"; raw_command := ""; value := Some value; args := given; chain_commands := []; data := VNone; positionals := None |}.
Definition example_history : list (list string * CliProcessCommand) :=
  [(["s3"; "ls"], aws_command "" []); (["configure"; "set"], aws_command "" [("key", VStr "id"); ("secret", VStr "secret")]);
   (["s3"; "ls"], aws_command "" []); (["configure"; "set"], aws_command "" [("region", VStr "eu-west-1")]); (["ec2"; "list"], aws_command "" [])].
Definition example_aws : Aws unit (string * dict string string) := foldl run_aws (new_aws tt) example_history.
Definition example_client : string * dict string string :=
  ("s3", [("aws_access_key_id", "id"); ("aws_secret_access_key", "secret"); ("region_name", "eu-west-1")]).
Lemma clients_are_current_witness :
  (∃ region', default "default" region' = default "default" (effective_region None (aws_config example_aws)) ∧
    example_client = ("s3", client_kwargs region' (aws_config example_aws))) ∧
  dict_keys (_client_cache example_aws) = ["ec2:eu-west-1:default"].
Proof.
  split; [|by vm_compute].
  apply (clients_are_current (λ cl service kwargs, cl = (service, kwargs)) tt example_history "s3" None example_client); [|reflexivity|by vm_compute].
  intros service kwargs k cl k' [= <- _]. done.
Defined.
(** In capitals, and as a dry run *)
Definition noting_aws : Aws (unit * list string) (string * dict string string) := {| aws_config := new_config_service; _client_cache := []; sdk := (tt, []) |}.
Definition example_rm : CliProcessCommand := aws_command "s3://bucket/key" [("dry-run", VBool true)].
Lemma aws_answers_witness : ∃ r, (as_handler s3_ls_handle (aws_command "" []) example_aws).1 = inr r.
Proof.
  apply (aws_answers (B := example_boto) (λ service kwargs k, ex_intro _ (service, kwargs) eq_refl) ["s3"; "ls"]
    (aws_leaf "ls" "List S3 buckets or objects in a bucket" (Some false) [region_param; output_param "table"] s3_ls_handle) (aws_command "" []) example_aws);
    [reflexivity|by intros name r Hg].
Defined.

(** The profile is only a word of the names of the clients: none is made with
    it. *)
Example profile_is_not_used : ∀ region c p, client_kwargs region (set_profile p c) = client_kwargs region c.
Proof. done. Qed.
(** A key of nine characters is shown whole. *)
Example nine_shown : _mask_key "123456789" = "1234***56789" ∧ _mask_key "12345678" = "****".
Proof. by vm_compute. Qed.
Example profiles_ex : (configure_profiles_handle (aws_command "" []) example_aws).1 =
  inr (build_response [ListOutput [""; "default"; "home"; "profile"; "profiles"; "work"] None] 0).
Proof. by vm_compute. Qed.
Example s3_uris : map _parse_s3_uri ["s3://b"; "s3://b/"; "s3://b/k/l"; "s3://"; "b/k"; "s3://b/k" +:+ line_break; "s3://b/k" +:+ line_break +:+ "l"] =
  [Some ("b", ""); Some ("b", ""); Some ("b", "k/l"); None; None; Some ("b", "k"); None].
Proof. by vm_compute. Qed.
Example bytes_ex : map _format_bytes [0; 1; 1023; 1024; 1536; 1048575; 1099511627776; 1125899906842624] =
  ["0 B"; "1.0 B"; "1023.0 B"; "1.0 KB"; "1.5 KB"; "1024.0 KB"; "1.0 TB"; "1024.0 TB"].
Proof. by vm_compute. Qed.
End AwsExample.
