(* ===== verification/Asgi.v ===== *)
(** * The ASGI interface and the middleware of a server
      ([core/security.py], [users/_http.py], [users/server_protection.py],
      [core/mcp/endpoint.py], [core/create_cli_server.py])

    Scopes with their headers and their state, the messages a middleware sends,
    and the middleware of [Server.v] as one stack in which the checks of
    [Origins.v], the gate of [Mcp.v] and the protection of [ProtectSafety.v] run
    on the same scope; then the lifespan of the application.  A middleware
    either answers or hands a scope on.  CORS answers what Starlette makes of its
    settings, a parameter; the headers it adds to what is answered behind it are
    left out. *)

From S2P Require Import Prelude PyStr Values Origins PasswordHasher Regex.
From S2P Require Import UserModel UserStores AuthService Http UsersApi ProtectSafety.
From S2P Require Mcp McpCore Server Sockets LogSockets Shell ShellTable ShellPty AuthExample.
From Stdlib Require Import Ascii.

Open Scope Z_scope.

(** ** Scopes *)

(** [scope["state"]]: not there, a dict, or an object with attributes *)
Inductive ScopeState {V : Type} := NoState | DictState (d : dict string V) | ObjectState (attributes : dict string V).
Arguments ScopeState : clear implicits.

Record AsgiScope {V : Type} := {
  sc_type : string;
  sc_path : string;
  sc_method : string;
  query_string : string;
  sc_headers : list (string * string);
  sc_scheme : option string;
  sc_state : ScopeState V;
}.
Arguments AsgiScope : clear implicits.

Section Scopes.
Context {V : Type}.
Implicit Types (s : AsgiScope V).

Definition AUTH_STATE_KEY : string := "qcli_auth".

(** [_scope_header], [_header]: the value of the first header of that name, names
    compared in lower case *)
Definition _header (name : string) (s : AsgiScope V) : option string :=
  snd <$> List.find (λ kv, bool_decide (lower kv.1 = name)) (sc_headers s).

Definition origin_scope (s : AsgiScope V) : Scope :=
  {| scope_scheme := sc_scheme s; host_header := _header "host" s; forwarded_proto := _header "x-forwarded-proto" s;
     forwarded_host := _header "x-forwarded-host" s |}.

Definition with_state (x : ScopeState V) (s : AsgiScope V) : AsgiScope V :=
  {| sc_type := sc_type s; sc_path := sc_path s; sc_method := sc_method s; query_string := query_string s;
     sc_headers := sc_headers s; sc_scheme := sc_scheme s; sc_state := x |}.

(** The core's accessors *)
Definition get_auth_context (s : AsgiScope V) : option V :=
  match sc_state s with DictState d => dict_get AUTH_STATE_KEY d | ObjectState a => dict_get AUTH_STATE_KEY a | NoState => None end.
Definition set_auth_context (c : V) (s : AsgiScope V) : AsgiScope V :=
  with_state (match sc_state s with
              | NoState => DictState (dict_set AUTH_STATE_KEY c [])
              | DictState d => DictState (dict_set AUTH_STATE_KEY c d)
              | ObjectState a => ObjectState (dict_set AUTH_STATE_KEY c a)
              end) s.

(** Those of the users plugin, which does not depend on the core *)
Definition get_scope_auth (s : AsgiScope V) : option V :=
  match sc_state s with NoState => None | DictState d => dict_get AUTH_STATE_KEY d | ObjectState a => dict_get AUTH_STATE_KEY a end.
Definition set_scope_auth (c : V) (s : AsgiScope V) : AsgiScope V :=
  match sc_state s with
  | NoState => with_state (DictState (dict_set AUTH_STATE_KEY c [])) s
  | DictState d => with_state (DictState (dict_set AUTH_STATE_KEY c d)) s
  | ObjectState a => with_state (ObjectState (dict_set AUTH_STATE_KEY c a)) s
  end.

(** [s[key]] of the state, whatever it is *)
Definition state_get (key : string) (s : AsgiScope V) : option V :=
  match sc_state s with NoState => None | DictState d => dict_get key d | ObjectState a => dict_get key a end.
(** All of a scope but its state *)
Definition same_request (s s' : AsgiScope V) : Prop := with_state NoState s' = with_state NoState s.
End Scopes.

(** [_query_param]: the first value of a parameter that has one, as [parse_qs]
    splits them; [unquote_plus] undoes the escapes. *)
Section Query.
Context (unquote_plus : string → string).
Definition ampersand : ascii := "&"%char.
Definition equals : ascii := "="%char.
Definition pair_of (s : string) : option (string * string) :=
  match split equals s with k :: ((_ :: _) as v) => Some (k, join "=" v) | _ => None end.
Definition parse_pairs (raw : string) : list (string * string) :=
  omap (λ pair, match pair_of pair with
                | Some (k, v) => if is_empty v then None else Some (unquote_plus k, unquote_plus v)
                | None => None
                end) (split ampersand raw).
Definition _query_param {V} (name : string) (s : AsgiScope V) : option string :=
  snd <$> List.find (λ kv, bool_decide (kv.1 = name)) (parse_pairs (query_string s)).
End Query.

(** ** Messages *)

Inductive asgi_message :=
| ResponseStart (status : Z) (headers : list (string * string))
| ResponseBody (payload : string)
| WebSocketAccept
| WebSocketClose (code : Z) (reason : string).

(** [dumps] is [json.dumps]; [extra] are further headers. *)
Definition _send_json (dumps : pyval → string) (status : Z) (body : pyval) (extra : list (string * string)) : list asgi_message :=
  let payload := utf8 (dumps body) in
  [ResponseStart status ([("content-type", "application/json"); ("content-length", str_of_Z (Z.of_nat (len payload)))] ++ extra);
   ResponseBody payload].

(** [close_websocket], [_close]: what is sent after the first message, of type
    [received], was received *)
Definition close_websocket (received : string) (code : Z) (reason : string) : list asgi_message :=
  if bool_decide (received = "websocket.connect") then [WebSocketAccept; WebSocketClose code reason] else [].

(** ** The middleware *)

Inductive call_outcome {V : Type} := Answered (messages : list asgi_message) | HandedOn (s : AsgiScope V).
Arguments call_outcome : clear implicits.

Section Stack.
Context {Host : Type} `{E : AuthEnv Host} `{U : UrlLib}.
Abbreviation method := (py (World Host) uexn).
Abbreviation scope := (AsgiScope AuthContext).
Context (dumps : pyval → string) (unquote_plus : string → string).
(** The first message of an upgrade *)
Context (received : string).

(** [WebSocketOriginMiddleware.__call__] *)
Definition websocket_origin_call (allowed : list string) (trust_proxy : bool) (s : scope) : call_outcome AuthContext :=
  if bool_decide (sc_type s = "websocket") && negb (websocket_origin (_header "origin" s) allowed (origin_scope s) trust_proxy)
  then Answered (close_websocket received 4403 "origin not allowed")
  else HandedOn s.

(** [McpGateMiddleware.__call__] *)
Definition gate_request (s : scope) : Mcp.McpRequest :=
  {| Mcp.rq_method := sc_method s; Mcp.rq_path := sc_path s; Mcp.rq_origin := _header "origin" s; Mcp.rq_scope := origin_scope s;
     Mcp.rq_auth := None; Mcp.rq_authorization := None; Mcp.rq_body := None |}.
Definition mcp_gate_call (allowed : list string) (trust_proxy : bool) (s : scope) : call_outcome AuthContext :=
  if bool_decide (sc_type s = "http") then
    match Mcp.gate allowed trust_proxy (gate_request s) with
    | Some (Mcp.Json code body) => Answered (_send_json dumps code body (if code =? 405 then [("allow", "POST")] else []))
    | _ => HandedOn s
    end
  else HandedOn s.

(** [ServerProtectionMiddleware.__call__]; [adapter] is the external adapter on a
    request. *)
Context (ensure_ready : method unit) (extra_public : list (string * option (list string))) (base_paths : list string).
Context (auth_allowed : list string) (auth_trust_proxy : bool) (adapter : scope → py Host uexn (option ExternalAuthResult)).

Definition http_scope (s : scope) : HttpScope Host :=
  {| path := sc_path s; meth := sc_method s; authorization_of := _header "authorization" s;
     origin_is_ok := origin_allowed (_header "origin" s) auth_allowed (Some (origin_scope s)) auth_trust_proxy; adapter_of := adapter s |}.
Definition send_reached (s : scope) (r : reached) : call_outcome AuthContext :=
  match r with
  | App None => HandedOn s
  | App (Some ctx) => HandedOn (set_scope_auth ctx s)
  | SendJson status error => Answered (_send_json dumps status (VDict [("error", VStr error)]) [])
  | Close code reason => Answered (close_websocket received code reason)
  end.
Definition protect_call (s : scope) : method (call_outcome AuthContext) :=
  if bool_decide (sc_type s = "http") then
    r ← _http ensure_ready extra_public base_paths (http_scope s); mret (send_reached s r)
  else if bool_decide (sc_type s = "websocket") then
    r ← _websocket ensure_ready base_paths (sc_path s) (_query_param unquote_plus "ticket" s); mret (send_reached s r)
  else mret (HandedOn s).

(** *** The stack of a server *)

(** What CORS answers itself, if it does; the allowed origins and the proxy
    setting of the server *)
Context (cors_answer : scope → option (list asgi_message)) (allowed : list string) (trust_proxy : bool).

Definition middleware_call (m : Server.middleware_kind) (s : scope) : method (call_outcome AuthContext) :=
  match m with
  | Server.McpGate => mret (mcp_gate_call allowed trust_proxy s)
  | Server.Cors => mret (match cors_answer s with Some ms => Answered ms | None => HandedOn s end)
  | Server.WebSocketOrigin => mret (websocket_origin_call allowed trust_proxy s)
  | Server.Protection _ => protect_call s
  end.
Fixpoint run_stack (l : list Server.middleware_kind) (s : scope) : method (call_outcome AuthContext) :=
  match l with
  | [] => mret (HandedOn s)
  | m :: l =>
      o ← middleware_call m s;
      match o with Answered ms => mret (Answered ms) | HandedOn s => run_stack l s end
  end.

(** The request of a route of the users plugin behind the stack *)
Definition route_request (r : request) (ip : string) (s : scope) : Http :=
  {| h_request := r; authorization := _header "authorization" s;
     origin_ok := origin_allowed (_header "origin" s) auth_allowed (Some (origin_scope s)) auth_trust_proxy; ip_of := ip;
     scope_auth := get_scope_auth s; UsersApi.adapter := adapter s |}.
End Stack.

(** ** The log filters of the entry point *)

(** The filters of each logger; [true] for a [RedactingLogFilter] *)
Definition UVICORN_LOGGERS : list string := ["uvicorn"; "uvicorn.access"; "uvicorn.error"].
Definition install_one (filters : dict string (list bool)) (name : string) : dict string (list bool) :=
  let here := default [] (dict_get name filters) in
  if existsb id here then filters else dict_set name (here ++ [true]) filters.
Definition install_log_redaction (loggers : list string) (filters : dict string (list bool)) : dict string (list bool) :=
  foldl install_one filters loggers.

(** ** The lifespan of the application *)

(** [Logger.addHandler], [Logger.removeHandler] *)
Definition add_handler (h : nat) (l : list nat) : list nat := if bool_decide (h ∈ l) then l else l ++ [h].
Fixpoint remove_handler (h : nat) (l : list nat) : list nat :=
  match l with [] => [] | x :: l => if bool_decide (x = h) then l else x :: remove_handler h l end.

Record Services {P : Type} := {
  sv_shells : dict string (Shell.ShellSession P);
  sv_events : Sockets.SocketManager;
  sv_logs : LogSockets.LogManager;
  root_handlers : list nat;
}.
Arguments Services : clear implicits.

Section Lifespan.
Context {P : Type}.

Definition new_services (log_handler : nat) (root : list nat) : Services P :=
  {| sv_shells := []; sv_events := Sockets.new_manager; sv_logs := LogSockets.new_log_manager;
     root_handlers := add_handler log_handler root |}.

(** What [lifespan] does after its [yield], in order; [broadcast_disconnect] of
    the events waits in between. *)
Definition lifespan_shutdown (log_handler : nat) : list (Services P → Services P) :=
  [λ v, {| sv_shells := Shell.close_all "server shutdown" (sv_shells v); sv_events := sv_events v; sv_logs := sv_logs v;
           root_handlers := root_handlers v |};
   λ v, {| sv_shells := sv_shells v; sv_events := Sockets.begin_disconnect (sv_events v); sv_logs := sv_logs v;
           root_handlers := root_handlers v |};
   λ v, {| sv_shells := sv_shells v; sv_events := Sockets.end_disconnect (sv_events v); sv_logs := sv_logs v;
           root_handlers := root_handlers v |};
   λ v, {| sv_shells := sv_shells v; sv_events := sv_events v; sv_logs := LogSockets.log_broadcast_disconnect (sv_logs v);
           root_handlers := root_handlers v |};
   λ v, {| sv_shells := sv_shells v; sv_events := sv_events v; sv_logs := sv_logs v;
           root_handlers := remove_handler log_handler (root_handlers v) |}].
(** A shutdown during which nothing else runs *)
Definition stop_services (log_handler : nat) (v : Services P) : Services P :=
  foldl (λ v f, f v) v (lifespan_shutdown log_handler).
End Lifespan.

(** ** Scopes: what is kept and what is read back *)

Section ScopeProofs.
Context {V : Type}.
Implicit Types (s : AsgiScope V).

(** What the users plugin stores is what the core reads, whatever the state of the
    scope was; everything else of the scope and of its state stays. *)
Theorem auth_round_trip c s :
  get_auth_context (set_scope_auth c s) = Some c ∧ set_scope_auth c s = set_auth_context c s ∧
  get_scope_auth s = get_auth_context s ∧ same_request s (set_scope_auth c s) ∧
  ∀ key, key ≠ AUTH_STATE_KEY → state_get key (set_scope_auth c s) = state_get key s.
Proof.
  unfold get_auth_context, set_scope_auth, set_auth_context, get_scope_auth, same_request, state_get.
  destruct (sc_state s) as [|d|d] eqn:Hs; simpl; (split_and!; [by rewrite ?dict_get_set_eq|done|done|done|]);
    intros key Hk; [simpl; by rewrite decide_False by congruence|by rewrite dict_get_set_ne by congruence..].
Qed.

Lemma same_request_refl s : same_request s s.
Proof. done. Qed.
Lemma same_request_trans s1 s2 s3 : same_request s1 s2 → same_request s2 s3 → same_request s1 s3.
Proof. unfold same_request. congruence. Qed.
Lemma same_request_fields s s' :
  same_request s s' →
  sc_type s' = sc_type s ∧ sc_path s' = sc_path s ∧ sc_method s' = sc_method s ∧ sc_headers s' = sc_headers s ∧
  query_string s' = query_string s ∧ sc_scheme s' = sc_scheme s.
Proof. unfold same_request, with_state. by intros [= -> -> -> -> -> ->]. Qed.
End ScopeProofs.

(** ** What the stack answers *)

(** One complete answer: to a request a start with the length of the one body
    that follows; to an upgrade nothing, or the handshake and the code. *)
Definition complete_answer (type_ : string) (ms : list asgi_message) : Prop :=
  if bool_decide (type_ = "http") then
    ∃ status headers body, ms = [ResponseStart status headers; ResponseBody body] ∧
      ("content-length", str_of_Z (Z.of_nat (len body))) ∈ headers
  else ms = [] ∨ ∃ code reason, ms = [WebSocketAccept; WebSocketClose code reason].

Lemma send_json_complete dumps status body extra : complete_answer "http" (_send_json dumps status body extra).
Proof. unfold complete_answer. simpl. eexists _, _, _. split; [reflexivity|]. set_solver. Qed.
Lemma close_complete type_ received code reason : type_ ≠ "http" → complete_answer type_ (close_websocket received code reason).
Proof.
  intros Hn. unfold complete_answer. rewrite bool_decide_eq_false_2 by done. unfold close_websocket.
  case_bool_decide; [right; by eexists _, _|by left].
Qed.

Section StackProofs.
Context {Host : Type} `{E : AuthEnv Host} `{U : UrlLib}.
Abbreviation method := (py (World Host) uexn).
Abbreviation scope := (AsgiScope AuthContext).
Context (dumps : pyval → string) (unquote_plus : string → string) (received : string).
Context (ensure_ready : method unit) (extra_public : list (string * option (list string))) (base_paths : list string).
Context (auth_allowed : list string) (auth_trust_proxy : bool) (adapter : scope → py Host uexn (option ExternalAuthResult)).
Context (cors_answer : scope → option (list asgi_message)) (allowed : list string) (trust_proxy : bool).
Abbreviation protect := (protect_call dumps unquote_plus received ensure_ready extra_public base_paths auth_allowed auth_trust_proxy adapter).
Abbreviation call := (middleware_call dumps unquote_plus received ensure_ready extra_public base_paths auth_allowed auth_trust_proxy adapter
  cors_answer allowed trust_proxy).
Abbreviation stack := (run_stack dumps unquote_plus received ensure_ready extra_public base_paths auth_allowed auth_trust_proxy adapter
  cors_answer allowed trust_proxy).
Implicit Types (s : scope) (w : World Host).

(** CORS only answers requests, completely. *)
Hypothesis cors_complete : ∀ s ms, cors_answer s = Some ms → sc_type s = "http" ∧ complete_answer "http" ms.

Lemma websocket_no_json p ticket w r w' : _websocket ensure_ready base_paths p ticket w = (inr r, w') → ∀ c e, r ≠ SendJson c e.
Proof.
  unfold _websocket. destruct (negb _); [by intros [= <- _]|]. rewrite py_bind_eq. destruct (ensure_ready w) as [[x|[]] w1]; [done|].
  rewrite py_bind_eq. destruct (consume_ticket ticket w1) as [[x|[ctx|]] w2]; [done| |by intros [= <- _]].
  destruct (must_change_password (c_user ctx) || _); by intros [= <- _].
Qed.
Lemma http_no_close h w r w' : _http ensure_ready extra_public base_paths h w = (inr r, w') → ∀ c e, r ≠ Close c e.
Proof.
  unfold _http. cbv zeta. destruct (_ || _); [by intros [= <- _]|]. rewrite py_bind_eq.
  destruct (ensure_ready w) as [[x|[]] w1]; [done|]. unfold try_except. destruct ((authenticate_request _ _ _ _ ≫= _) w1) as [[x|y] w2] eqn:Hb.
  - destruct x; by intros [= <- _].
  - intros [= <- <-]. rewrite py_bind_eq in Hb. destruct (authenticate_request _ _ _ _ w1) as [[x|ctx] w3]; [done|].
    rewrite py_bind_eq in Hb. destruct (raise_if _ _ w3) as [[x|[]] w4]; [done|]. rewrite py_bind_eq in Hb.
    destruct (http_permission _ _ _) as [q|]; [|by injection Hb as <- _].
    destruct (raise_if (negb (can ctx q)) _ w4) as [[x|[]] w5]; [done|]. by injection Hb as <- _.
Qed.

(** One middleware: a complete answer, or the same request handed on. *)
Lemma call_ok m s w o w' :
  call m s w = (inr o, w') →
  match o with
  | Answered ms => complete_answer (sc_type s) ms
  | HandedOn s' => same_request s s' ∧ (Server.is_protection m = false → s' = s ∧ w' = w)
  end.
Proof.
  assert (Hon : ∀ s', HandedOn s' = HandedOn s → same_request s s' ∧ (Server.is_protection m = false → s' = s ∧ w = w)) by (by intros s' [= ->]).
  destruct m as [| | |p]; cbn [middleware_call].
  - intros [= <- <-]. unfold mcp_gate_call. case_bool_decide as Ht; [|by apply Hon].
    destruct (Mcp.gate _ _ _) as [[code body|]|]; [|by apply Hon..]. rewrite Ht. apply send_json_complete.
  - intros [= <- <-]. destruct (cors_answer s) as [ms|] eqn:Hc; [|by apply Hon]. destruct (cors_complete s ms Hc) as [-> ?]. done.
  - intros [= <- <-]. unfold websocket_origin_call. case_bool_decide as Ht; [|by apply Hon]. cbn [andb].
    destruct (negb _); [|by apply Hon]. rewrite Ht. by apply close_complete.
  - unfold protect_call. clear Hon.
    assert (Hctx : ∀ s' a, send_reached dumps received s (App a) = HandedOn s' → same_request s s').
    { intros s' [ctx|]; intros [= <-]; [|done]. apply (auth_round_trip ctx s). }
    case_bool_decide as Ht; [|case_bool_decide as Hw].
    + rewrite py_bind_eq. destruct (_http _ _ _ _ w) as [[e|r] w1] eqn:Hh; [done|]. intros [= <- <-]. destruct r as [a|code e|code e]; cbn [send_reached].
      * destruct a as [ctx|]; (split; [|done]); [by apply (Hctx _ (Some ctx))|done].
      * rewrite Ht. apply send_json_complete.
      * by destruct (http_no_close _ _ _ _ Hh code e).
    + rewrite py_bind_eq. destruct (_websocket _ _ _ _ w) as [[e|r] w1] eqn:Hh; [done|]. intros [= <- <-]. destruct r as [a|code e|code e]; cbn [send_reached].
      * destruct a as [ctx|]; (split; [|done]); [by apply (Hctx _ (Some ctx))|done].
      * by destruct (websocket_no_json _ _ _ _ _ Hh code e).
      * by apply close_complete.
    + by intros [= <- <-].
Qed.

(** Whatever the middleware, a request is answered once and completely, or handed
    on as it was but for its state. *)
Theorem stack_answers l s w o w' :
  stack l s w = (inr o, w') →
  match o with Answered ms => complete_answer (sc_type s) ms | HandedOn s' => same_request s s' end.
Proof.
  revert s w. induction l as [|m l IH]; intros s w; cbn [run_stack]; [by intros [= <- <-]|].
  rewrite py_bind_eq. destruct (call m s w) as [[e|o1] w1] eqn:Hc; [done|]. pose proof (call_ok m s w o1 w1 Hc) as Hok.
  destruct o1 as [ms|s1]; [by intros [= <- <-]|]. intros Hrest. specialize (IH s1 w1 Hrest). destruct Hok as [Hs _].
  destruct o as [ms|s']; [|by eapply same_request_trans]. by destruct (same_request_fields _ _ Hs) as (<- & _).
Qed.

(** The middleware outside the protection leaves the scope to it as it came. *)
Lemma stack_outer outer l s w s' w' :
  Forall (λ m, Server.is_protection m = false) outer → stack (outer ++ l) s w = (inr (HandedOn s'), w') →
  stack l s w = (inr (HandedOn s'), w').
Proof.
  induction 1 as [|m outer Hm _ IH]; [done|]. cbn [app run_stack]. rewrite py_bind_eq.
  destruct (call m s w) as [[e|o1] w1] eqn:Hc; [done|]. pose proof (call_ok m s w o1 w1 Hc) as Hok.
  destruct o1 as [ms|s1]; [done|]. destruct Hok as [_ Hsame]. destruct (Hsame Hm) as [-> ->]. exact IH.
Qed.
End StackProofs.

(** ** A server with its plugins *)

Lemma server_middleware_unprotected o has_storage has_explorer :
  Forall (λ m, Server.is_protection m = false) (Server.user_middleware (Server.create_cli_server o has_storage has_explorer)).
Proof. unfold Server.create_cli_server. cbn. destruct (Server.mcp_enabled o), (bool_decide _), (Server.allowed_origins o); repeat constructor. Qed.

Section Server.
Context {Host : Type} `{E : AuthEnv Host} `{U : UrlLib}.
Abbreviation scope := (AsgiScope AuthContext).
Context (dumps : pyval → string) (unquote_plus : string → string) (received : string).
Context (ensure_ready : py (World Host) uexn unit) (extra_public : list (string * option (list string))) (base_paths : list string).
Context (auth_allowed : list string) (auth_trust_proxy : bool) (adapter : scope → py Host uexn (option ExternalAuthResult)).
Context (cors_answer : scope → option (list asgi_message)) (allowed : list string) (trust_proxy : bool).
Abbreviation protect := (protect_call dumps unquote_plus received ensure_ready extra_public base_paths auth_allowed auth_trust_proxy adapter).
Abbreviation stack := (run_stack dumps unquote_plus received ensure_ready extra_public base_paths auth_allowed auth_trust_proxy adapter
  cors_answer allowed trust_proxy).
Implicit Types (s : scope) (w : World Host).

(** The application of a server on which the plugins were mounted *)
Definition mounted (o : Server.ServerOptions) (has_storage has_explorer : bool) (plugins : list Server.Plugin) : Server.App :=
  foldl (λ a p, Server.mount_plugin p a) (Server.create_cli_server o has_storage has_explorer) plugins.

(** With one plugin that protects the server, what the stack hands on the
    protection handed on, of the scope as it came. *)
Lemma protection_decides o has_storage has_explorer plugins p s w s' w' :
  let l := Server.user_middleware (mounted o has_storage has_explorer plugins) in
  (∀ s ms, cors_answer s = Some ms → sc_type s = "http" ∧ complete_answer "http" ms) →
  Server.Protection p ∈ l → (∀ q, Server.Protection q ∈ l → q = p) →
  stack l s w = (inr (HandedOn s'), w') → protect s w = (inr (HandedOn s'), w').
Proof.
  intros l Hcors Hp Hone Hrun.
  destruct (Server.mounted_order o has_storage has_explorer plugins) as ((inner & Hl & Hinner) & Hnd & _).
  fold (mounted o has_storage has_explorer plugins) in Hl, Hnd. fold l in Hl, Hnd.
  pose proof (server_middleware_unprotected o has_storage has_explorer) as Ho.
  set (outer := Server.user_middleware (Server.create_cli_server o has_storage has_explorer)) in *.
  assert (Hi : inner = [Server.Protection p]).
  { rewrite Hl in Hp, Hone, Hnd. apply NoDup_app in Hnd as (_ & _ & Hnd).
    assert (Hin : Server.Protection p ∈ inner).
    { apply elem_of_app in Hp as [Hp|Hp]; [|done]. rewrite Forall_forall in Ho. by specialize (Ho _ Hp). }
    assert (Hall : ∀ m, m ∈ inner → m = Server.Protection p).
    { intros m Hm. rewrite Forall_forall in Hinner. specialize (Hinner m Hm). destruct m as [| | |q]; try done.
      f_equal. apply Hone. apply elem_of_app. by right. }
    destruct inner as [|m inner]; [set_solver|]. rewrite (Hall m) by set_solver. f_equal.
    destruct inner as [|m2 inner]; [done|]. exfalso. apply NoDup_cons in Hnd as [Hnd _]. apply Hnd.
    rewrite (Hall m), <- (Hall m2) by set_solver. by left. }
  rewrite Hl, Hi in Hrun. apply stack_outer in Hrun; [|done..]. cbn [run_stack middleware_call] in Hrun.
  rewrite py_bind_eq in Hrun. destruct (protect s w) as [[e|[ms|s1]] w1]; [done..|]. exact Hrun.
Qed.

(** C15: Whatever plugins are mounted besides the one that protects the server: a
    request to a protected path that is not public reaches the application as it
    came, with the caller in its scope whom the protection authenticated and who
    holds the permission of the path; and a route behind it authenticates nobody
    again. *)
Theorem server_guards_requests o has_storage has_explorer plugins p s w s' w' :
  let l := Server.user_middleware (mounted o has_storage has_explorer plugins) in
  (∀ s ms, cors_answer s = Some ms → sc_type s = "http" ∧ complete_answer "http" ms) →
  Server.Protection p ∈ l → (∀ q, Server.Protection q ∈ l → q = p) →
  sc_type s = "http" → upper (sc_method s) ≠ "OPTIONS" → _protected base_paths (sc_path s) = true →
  _is_public extra_public base_paths (sc_path s) (upper (sc_method s)) = false → dollar_match SELF_PROTECTED (sc_path s) = false →
  stack l s w = (inr (HandedOn s'), w') →
  same_request s s' ∧
  ∃ ctx, get_auth_context s' = Some ctx ∧
    let_through ensure_ready (http_scope auth_allowed auth_trust_proxy adapter s) w (Some ctx) w'
      (http_permission (sc_path s) (upper (sc_method s)) base_paths) ∧
    ∀ r ip w2, get_auth_pending (route_request auth_allowed auth_trust_proxy adapter r ip s') w2 = (inr ctx, w2).
Proof.
  intros l Hcors Hp Hone Ht Hopt Hprot Hpub Hself Hrun.
  pose proof (protection_decides o has_storage has_explorer plugins p s w s' w' Hcors Hp Hone Hrun) as Hcall.
  unfold protect_call in Hcall. rewrite bool_decide_eq_true_2, py_bind_eq in Hcall by done.
  destruct (_http _ _ _ _ w) as [[e|r] w1] eqn:Hh; [done|]. injection Hcall as Hr ->.
  destruct r as [a|code e|code e]; [|done..].
  pose proof (http_app ensure_ready extra_public base_paths (http_scope auth_allowed auth_trust_proxy adapter s) w a w' Hopt Hprot Hpub Hself Hh) as Hlet.
  pose proof Hlet as (ctx & w1 & -> & _). injection Hr as <-. destruct (auth_round_trip ctx s) as (Hget & _ & Hsame & Hreq & _).
  split; [done|]. exists ctx. split_and!; [done|exact Hlet|]. intros r ip w2. unfold get_auth_pending, route_request. cbn [scope_auth].
  assert (Hg : get_scope_auth (set_scope_auth ctx s) = Some ctx) by exact Hget. by rewrite Hg.
Qed.

(** The same for an upgrade: the ticket of its query is that of a caller who holds
    the permission of the path. *)
Theorem server_guards_upgrades o has_storage has_explorer plugins p s w s' w' :
  let l := Server.user_middleware (mounted o has_storage has_explorer plugins) in
  (∀ s ms, cors_answer s = Some ms → sc_type s = "http" ∧ complete_answer "http" ms) →
  Server.Protection p ∈ l → (∀ q, Server.Protection q ∈ l → q = p) →
  sc_type s = "websocket" → _protected base_paths (sc_path s) = true →
  stack l s w = (inr (HandedOn s'), w') →
  same_request s s' ∧
  ∃ ctx w1, get_auth_context s' = Some ctx ∧ ensure_ready w = (inr tt, w1) ∧
    consume_ticket (_query_param unquote_plus "ticket" s) w1 = (inr (Some ctx), w') ∧
    must_change_password (c_user ctx) = false ∧ ∀ q, ws_permission (sc_path s) = Some q → can ctx q = true.
Proof.
  intros l Hcors Hp Hone Ht Hprot Hrun.
  pose proof (protection_decides o has_storage has_explorer plugins p s w s' w' Hcors Hp Hone Hrun) as Hcall.
  unfold protect_call in Hcall. rewrite Ht in Hcall. cbn [bool_decide] in Hcall. rewrite (bool_decide_eq_false_2 ("websocket" = "http")) in Hcall by done.
  rewrite bool_decide_eq_true_2, py_bind_eq in Hcall by done. unfold _websocket in Hcall. rewrite Hprot in Hcall. cbn [negb] in Hcall.
  rewrite py_bind_eq in Hcall. destruct (ensure_ready w) as [[e|[]] w1] eqn:Hr; [done|].
  rewrite py_bind_eq in Hcall. destruct (consume_ticket _ w1) as [[e|[ctx|]] w2] eqn:Hc; [done| |done].
  destruct (must_change_password (c_user ctx)) eqn:Hm; [done|]. cbn [orb] in Hcall.
  destruct (match ws_permission _ with Some q => negb (can ctx q) | None => false end) eqn:Hperm; [done|].
  injection Hcall as <- <-. destruct (auth_round_trip ctx s) as (Hget & _ & _ & Hreq & _). split; [done|].
  exists ctx, w1. split_and!; [done..|]. intros q Hq. rewrite Hq in Hperm. by apply negb_false_iff in Hperm.
Qed.
End Server.

(** Installing the filters again changes nothing, and every logger asked for has
    one. *)
Theorem redaction_installed loggers filters :
  let f := install_log_redaction loggers filters in
  (∀ n, n ∈ loggers → existsb id (default [] (dict_get n f)) = true) ∧ install_log_redaction loggers f = f ∧
  ∀ n, n ∉ loggers → dict_get n f = dict_get n filters.
Proof.
  assert (Hone : ∀ f n m, dict_get m (install_one f n) = dict_get m f ∨ (m = n ∧ existsb id (default [] (dict_get m (install_one f n))) = true)).
  { intros f n m. unfold install_one; cbv zeta. destruct (existsb id (default [] (dict_get n f))) eqn:He; [by left|]. destruct (decide (m = n)) as [->|Hne].
    - right. rewrite dict_get_set_eq. simpl. by rewrite existsb_app, orb_true_r.
    - left. by rewrite dict_get_set_ne by congruence. }
  assert (Hhas : ∀ f n, existsb id (default [] (dict_get n (install_one f n))) = true).
  { intros f n. unfold install_one; cbv zeta. destruct (existsb id (default [] (dict_get n f))) eqn:He; [done|]. rewrite dict_get_set_eq. simpl. by rewrite existsb_app, orb_true_r. }
  assert (Hkeep : ∀ l f m, existsb id (default [] (dict_get m f)) = true → existsb id (default [] (dict_get m (foldl install_one f l))) = true).
  { induction l as [|n l IH]; intros f m Hm; simpl; [done|]. apply IH. destruct (Hone f n m) as [->|[_ H]]; done. }
  assert (Hall : ∀ l f n, n ∈ l → existsb id (default [] (dict_get n (foldl install_one f l))) = true).
  { induction l as [|x l IH]; intros f n; [set_solver|]. intros [->|Hn]%elem_of_cons; simpl; [apply Hkeep, Hhas|by apply IH]. }
  assert (Hid : ∀ l f, (∀ n, n ∈ l → existsb id (default [] (dict_get n f)) = true) → foldl install_one f l = f).
  { induction l as [|n l IH]; intros f Hf; simpl; [done|]. assert (Hn : install_one f n = f) by (unfold install_one; by rewrite Hf by set_solver).
    rewrite Hn. apply IH. set_solver. }
  intros f. split_and!; [apply Hall|apply Hid, Hall|]. unfold f, install_log_redaction. clear Hid Hall Hkeep f. revert filters.
  induction loggers as [|x l IH]; intros filters n Hn; simpl; [done|]. rewrite IH by set_solver.
  destruct (Hone filters x n) as [->|[-> _]]; [done|set_solver].
Qed.

(** ** The end of a server *)

Lemma stop_senders l m :
  let m' := foldl (λ m ws, Sockets._stop_sender ws m) m l in
  (∀ w, w ∈ Sockets._senders m' → w ∈ Sockets._senders m ∧ w ∉ l) ∧
  Sockets.direct m' = Sockets.direct m.
Proof.
  revert m. induction l as [|x l IH]; intros m; simpl; [set_solver|].
  destruct (IH (Sockets._stop_sender x m)) as (Hs & Hd). split; [|by rewrite Hd].
  intros w Hw. destruct (Hs w Hw) as [Hin Hl]. simpl in Hin. apply list_elem_of_In, filter_In in Hin as [Hin Hne].
  apply list_elem_of_In in Hin. apply negb_true_iff, bool_decide_eq_false in Hne. split; [done|]. set_solver.
Qed.

Lemma remove_handler_in h l : NoDup l → remove_handler h l = List.filter (λ x, negb (bool_decide (x = h))) l.
Proof.
  induction 1 as [|x l Hx Hl IH]; simpl; [done|]. case_bool_decide as Hxh; simpl; [|by rewrite IH].
  subst. symmetry. clear IH Hl. induction l as [|y l IH]; simpl; [done|]. rewrite bool_decide_eq_false_2 by set_solver.
  simpl. f_equal. apply IH. set_solver.
Qed.

(** When a server stops, every shell is being closed, those that were not already
    with 1001; every socket for events and every one for logs was told, once for
    each of its connections, and none is left to send to; the log handler is off
    the root logger, whose other handlers stay. *)
Theorem services_stopped {P} (log_handler : nat) (v : Services P) :
  NoDup (root_handlers v) →
  let v' := stop_services log_handler v in
  (∀ i s, dict_get i (sv_shells v) = Some s →
     ∃ s', dict_get i (sv_shells v') = Some s' ∧ Shell.close_set s' = true ∧
       if Shell.close_set s then s' = s else Shell.close_as s' = Some (1001, "server shutdown") ∧ Shell.end_reason s' = Shell.END_SHUTDOWN) ∧
  Sockets._clients (sv_events v') = [] ∧ Sockets._senders (sv_events v') = [] ∧
  Sockets.direct (sv_events v') =
    Sockets.direct (sv_events v) ++ map (λ ws, (ws, Sockets.disconnect_message)) (Sockets._clients (sv_events v)) ∧
  LogSockets.log_clients (sv_logs v') = [] ∧
  LogSockets.log_sent (sv_logs v') =
    LogSockets.log_sent (sv_logs v) ++ map (λ c, (c.1, Sockets.disconnect_message)) (dict_values (LogSockets.log_clients (sv_logs v))) ∧
  root_handlers v' = List.filter (λ x, negb (bool_decide (x = log_handler))) (root_handlers v).
Proof.
  intros Hnd v'. unfold v', stop_services, lifespan_shutdown. cbn [foldl sv_shells sv_events sv_logs root_handlers].
  set (told := Sockets.send_all Sockets.disconnect_message (Sockets._clients (sv_events v)) (sv_events v)). destruct (stop_senders (Sockets._senders (sv_events v)) told) as [Hs Hd].
  split_and!; [|done| |exact Hd|done|done|by apply remove_handler_in].
  - intros i s Hi. exists (Shell.request_close 1001 "server shutdown" Shell.END_SHUTDOWN s). split.
    + revert Hi. unfold Shell.close_all. generalize (sv_shells v) as d. induction d as [|[k x] d IH]; simpl; [done|].
      destruct (decide (k = i)); [by intros [= ->]|done].
    + unfold Shell.request_close. by destruct (Shell.close_set s) eqn:Hc.
  - unfold Sockets.end_disconnect, Sockets.begin_disconnect. cbn [Sockets._senders Sockets.set_clients].
    change (Sockets._senders (foldl (λ m ws, Sockets._stop_sender ws m) told (Sockets._senders (sv_events v))) = []).
    destruct (Sockets._senders (foldl _ _ _)) as [|w l] eqn:He; [done|]. exfalso.
    destruct (Hs w) as [Hin Hno]; [by left|]. by apply Hno.
Qed.

(** * A server behind its protection *)

(** The server of a host with its own origins; the users plugin protects it, and
    another plugin is mounted after it. *)
Definition example_options : Server.ServerOptions :=
  {| Server.base_path := "/cli"; Server.cors := Some true; Server.cors_origins := Some ["https://app.example.com"];
     Server.allowed_origins := Some ["https://app.example.com"]; Server.enable_shell := true; Server.mcp_enabled := true |}.
Definition users_plugin : Server.Plugin :=
  {| Server.plugin_id := 1; Server.before_mount := None; Server.prefix := Some "/api/v1/qcli"; Server.protects := true;
     Server.providers := ["users"]; Server.dashboard := None |}.
Definition jobs_plugin : Server.Plugin :=
  {| Server.plugin_id := 2; Server.before_mount := None; Server.prefix := Some "/api/v1/qcli/jobs"; Server.protects := false;
     Server.providers := ["jobs"]; Server.dashboard := None |}.

#[local] Existing Instance Mcp.toy_urls.
#[local] Existing Instance AuthExample.example_env.

Definition no_cors (s : AsgiScope AuthContext) : option (list asgi_message) := None.
Definition no_external (s : AsgiScope AuthContext) : py AuthExample.Host uexn (option ExternalAuthResult) := mret None.
Definition rm_scope (token : string) (origin : option string) : AsgiScope AuthContext :=
  {| sc_type := "http"; sc_path := "/api/v1/qcli/fs/rm"; sc_method := "delete"; query_string := "path=%2Fa";
     sc_headers := [("Host", "cli.example.com"); ("Authorization", "Bearer " +:+ token)] ++
                   match origin with Some o => [("Origin", o)] | None => [] end;
     sc_scheme := None; sc_state := NoState |}.
Definition example_stack (s : AsgiScope AuthContext) : py (World AuthExample.Host) uexn (call_outcome AuthContext) :=
  run_stack (λ _, "{}") id "websocket.connect" ready [] ["/cli"] [] false no_external no_cors ["https://app.example.com"] false
    (Server.user_middleware (mounted example_options true true [users_plugin; jobs_plugin])) s.

Definition rm_passed : (uexn + call_outcome AuthContext) * World AuthExample.Host :=
  Eval vm_compute in example_stack (rm_scope (l_token AuthExample.result) None) AuthExample.inside.
Definition rm_reached : AsgiScope AuthContext :=
  Eval vm_compute in match rm_passed.1 with inr (HandedOn s) => s | _ => rm_scope "" None end.

Example stack_ex :
  Server.user_middleware (mounted example_options true true [users_plugin; jobs_plugin]) =
    [Server.WebSocketOrigin; Server.Cors; Server.McpGate; Server.Protection 1] ∧
  (example_stack (rm_scope "nobody" None) AuthExample.inside).1 =
    inr (Answered [ResponseStart 401 [("content-type", "application/json"); ("content-length", "2")]; ResponseBody "{}"]) ∧
  _query_param id "ticket" {| sc_type := "websocket"; sc_path := "/ws/qcli/shell"; sc_method := ""; query_string := "a&ticket=&ticket=t-7=&x=1";
    sc_headers := []; sc_scheme := Some "wss"; sc_state := @NoState nat |} = Some "t-7=".
Proof. vm_compute. split_and!; reflexivity. Qed.

Lemma server_guards_requests_witness :
  same_request (rm_scope (l_token AuthExample.result) None) rm_reached ∧
  ∃ ctx, get_auth_context rm_reached = Some ctx ∧
    let_through ready (http_scope [] false no_external (rm_scope (l_token AuthExample.result) None)) AuthExample.inside (Some ctx) rm_passed.2
      (http_permission "/api/v1/qcli/fs/rm" "DELETE" ["/cli"]) ∧
    ∀ r ip w2, get_auth_pending (route_request [] false no_external r ip rm_reached) w2 = (inr ctx, w2).
Proof.
  apply (server_guards_requests (λ _, "{}") id "websocket.connect" ready [] ["/cli"] [] false no_external no_cors ["https://app.example.com"] false
    example_options true true [users_plugin; jobs_plugin] 1 (rm_scope (l_token AuthExample.result) None) AuthExample.inside rm_reached rm_passed.2).
  - intros s ms [=].
  - vm_compute. do 3 right. left.
  - intros q H. change (Server.Protection q ∈ [Server.WebSocketOrigin; Server.Cors; Server.McpGate; Server.Protection 1]) in H.
    repeat (apply elem_of_cons in H as [H|H]; [first [discriminate H|by injection H]|]). by apply not_elem_of_nil in H.
  - reflexivity.
  - vm_compute. discriminate.
  - vm_compute. reflexivity.
  - vm_compute. reflexivity.
  - vm_compute. reflexivity.
  - vm_compute. reflexivity.
Defined.
